(* ===== verification/_CoqProject ===== *)
-Q . S2P
Prelude.v
Endian.v
ByteArray.v
ByteArraySpec.v
ByteArrayCodec.v
Timer.v
Fiber.v
Scheduler.v
IOManager.v
FdManager.v
Hook.v
HashUtil.v
StringUtil.v
LoadBalance.v
Stream.v
WebSocket.v
Text.v
HttpMessage.v
Ragel.v
RagelFlow.v
Http11Table.v
HttpParser.v
HttpWire.v
Servlet.v
HttpSession.v
HttpClientTable.v
HttpClientParser.v
HttpClientWire.v
HttpConnection.v
HttpPool.v
UriTable.v
Uri.v
UriWire.v
HttpClient.v
WsServer.v
FiberSemaphore.v
Locks.v
Thread.v
Address.v
AddressSpec.v
AddressText.v
LogFormatter.v
Logger.v
LexicalCast.v
Config.v
Settings.v
LogConfig.v
AsyncStream.v
Socket.v
SocketEvents.v
SocketStream.v
TcpServerConf.v
TcpServer.v
HttpServer.v
ZlibStream.v
SessionData.v
Env.v
UtilAlgo.v
FileUtil.v
Json.v
CryptoUtil.v
HostInfo.v
ServiceDiscovery.v
ServiceBalance.v
ModuleManager.v
Servlets.v
