(* ===== verification/Prelude.v ===== *)
(** * A verification of the IOCoroutineScheduler library

    The program is a C++ coroutine library and the network stack on top of it
    (sources under [src/IOCoroutineScheduler]).  A [Fiber] is a user-level thread
    with a saved context; a [Scheduler] owns worker threads that take fibers and
    functions from one queue and switch to them; an [IOManager] is a scheduler
    whose idle fiber sleeps in epoll and turns ready descriptors and expired timers
    into tasks; the hooks replace blocking system calls by "register, switch out,
    try again"; [ByteArray] is the buffer that streams read and write.  Above them
    is the HTTP stack: request and response parsers generated by Ragel, message
    objects, a server session with its servlet dispatch, a client connection with a
    pool, WebSocket sessions, URIs.  Sockets and streams over them (plain, asynchronous,
    compressing) carry the data, TCP servers accept connections, a load balancer picks
    them among those that service discovery finds in ZooKeeper; logging, the typed
    configuration that also drives it, sessions, loadable modules, the command line,
    threads and locks, and helpers for encodings, files, JSON and ciphers stand beside.

    ** Files

    - [Prelude] (this file): outcomes of C++ code ([Ok], an exception, a failed
      assertion, undefined behaviour, fuel used up) with their monad, machine
      integers as [Z] with explicit wrap-around, bytes, list slices, positions in
      strings, and the tactics and hints the other files share.
    - [Endian]: [endian.h], byte swapping on a host of either order.
    - [ByteArray]: [bytearray.h], [bytearray.cc] — the chain of fixed-size blocks
      with its size, position and current block, and the block-level operations
      ([write], [read], [setPosition], [clear], [addCapacity], buffers for
      [readv]/[writev], files).
    - [ByteArraySpec]: one flat byte sequence with a position as specification, the
      invariant of the chain, and the refinement: every run of operations on the
      chain gives the answers of the flat sequence.
    - [ByteArrayCodec]: the typed readers and writers (fixed width, zigzag
      variable-length integers, floats as bit patterns, length-prefixed strings) and
      the round trip of any sequence of values.
    - [Timer]: [timer.h], [timer.cc] — timer objects on a heap, the [std::set] ordered
      by expiry and address, all operations, and runs of the manager.
    - [Fiber]: [coroutine.h], [coroutine.cc] — fibers, contexts (not set, entry
      function, or a continuation), the thread-local pointers and every switch.
    - [Scheduler]: [scheduler.h], [scheduler.cc] — the shared queue and counters, and
      worker threads as program counters into [Scheduler::run], with a step relation
      [sys_step] that interleaves any number of workers, the fibers they execute and
      clients that schedule; its labels say what the step was, and [client_rules] which
      of them a client must avoid.
    - [IOManager]: [iomanager.h], [iomanager.cc] — event contexts per descriptor, the
      pending count, one turn of [idle]; epoll is the class [EpollOps] with the laws
      [EpollSpec], and [gmap_epoll] is an instance.
    - [FdManager]: [fd_manager.h], [fd_manager.cc] — descriptor contexts; [fstat] and
      [fcntl] are the classes [FdKernel] and [FdKernelSpec].
    - [Hook]: [hook.cc] — [do_io] and [connect] from one switch to the next, the
      sleeps, [close], [fcntl], [ioctl], [setsockopt], on the models above.
    - [HashUtil]: [util/hash_util.cc] — MurmurHash3, Base64, hexadecimal, [replace],
      [split], the digests and [hmac] over parameter hash functions ([DigestSpec]).
    - [StringUtil]: [util.cc] — URL encoding with its tables, trimming, paths.
    - [LoadBalance]: [streams/load_balance.h], [streams/load_balance.cc] — both
      balancers, the ring of statistics, the service map.
    - [Stream]: [stream.h], [stream.cc] — a stream as a class of its two primitive
      operations ([StreamOps]) and the fixed-size transfers written on top of it; a
      greedy in-memory stream is an instance.
    - [WebSocket]: [http/ws_session.h], [http/ws_session.cc] — the frame header,
      masking, fragmentation, control frames, and the sizes it refuses.
    - [Text]: the parts of the C library that the HTTP code reads numbers and case
      with ([atoi], [strtoull], [tolower], [strcasecmp]).
    - [HttpMessage]: [http/http.h], [http/http.cc] — methods, statuses, requests and
      responses with their case-insensitive maps, parameters and cookies, [dump].
    - [Ragel], [RagelFlow]: what a Ragel machine is (states, transitions by byte
      range, actions, an action that leaves the loop), how its generated code runs
      ([run_machine]), and lemmas that follow a machine through a region of states.
    - [Http11Table], [HttpClientTable], [UriTable]: the transition tables of
      [http11_parser.rl.cc], [httpclient_parser.rl.cc] and [uri.rl.cc], one
      definition per block of states of the generated [switch].
    - [HttpParser], [HttpWire]: [http/http_parser.h], [http/http_parser.cc] and
      [http11_parser.rl.cc] — the request parser with its marks, callbacks and limits;
      what it does on a well-formed request.
    - [HttpClientParser], [HttpClientWire]: the same for responses and chunk headers.
    - [Servlet]: [http/servlet.h], [http/servlet.cc] — exact and glob dispatch.
    - [HttpSession]: [http/http_session.cc] — the server's read loop on a stream.
    - [HttpConnection]: [http/http_connection.cc] — the client's read loop, bodies
      with a length, chunked bodies, requests.
    - [HttpPool]: the connection pool of [http/http_connection.cc].
    - [Uri], [UriWire]: [uri.h], [uri.rl.cc] — the URI parser and its accessors, and
      the parse of what [dump] prints.
    - [HttpClient]: [http/http_connection.cc] — the client functions [DoGet], [DoPost],
      [DoRequest] and those of the pool, and a request followed from client to server and
      back.
    - [WsServer]: [http/ws_connection.cc], [http/ws_server.cc], [http/ws_servlet.cc],
      [http/ws_session.cc] — the handshake from both ends, the servlets and the loop that
      serves a client.
    - [FiberSemaphore]: [mutex.h], [mutex.cc] — the semaphore on which fibers wait.
    - [Locks]: [mutex.h], [mutex.cc] — mutexes, read-write and spin locks of POSIX, the
      scoped locks and the semaphore of threads, for any number of threads.
    - [Thread]: [thread.h], [thread.cc] — the start of a thread, its creator and its body
      as steps.
    - [Address], [AddressSpec], [AddressText]: [address.h], [address.cc] — IPv4, IPv6
      and Unix addresses; networks and masks, the order on addresses, their texts and
      the forms [Lookup] takes.
    - [LogFormatter]: [log.h], [log.cc] — events, the pattern parser and the items.
    - [Logger]: [log.h], [log.cc] — loggers and appenders, which refer to each other,
      in a heap; the manager of loggers.
    - [LexicalCast], [Config]: [config.h], [config.cc] — conversions of containers to
      and from YAML (yaml-cpp is the class [Yaml] with [YamlLaws]), typed variables with
      listeners, the registry and [LoadFromYaml].
    - [Settings]: [http/http_parser.cc], [hook.cc] — statics that follow configuration
      variables through listeners.
    - [LogConfig]: [log.cc] — definitions of loggers and the listener that rebuilds
      loggers when the configuration changes.
    - [AsyncStream]: [streams/async_socket_stream.h], [.cc] — requests and answers, the
      send queue, connecting and closing, as steps of any number of threads; the manager
      of several streams.
    - [Socket]: [socket.h], [socket.cc] — sockets over the answers of the system, with
      the calls they make as output; [SSLSocket] over those of OpenSSL.
    - [SocketEvents]: [socket.cc] — cancelling the waits of a socket, and its time-outs,
      on the IOManager and the hooks.
    - [SocketStream]: [streams/socket_stream.cc], [stream.cc] — streams over sockets, for
      memory and arrays; [recv] and [send] are the class [NetOps] with [NetSpec].
    - [TcpServerConf], [TcpServer]: [tcp_server.h], [tcp_server.cc] — the configuration
      of servers, and servers with the tasks they post.
    - [HttpServer]: [http/http_server.cc], [uri.rl.cc] — the HTTP server object, and the
      address of a URI.
    - [ZlibStream]: [streams/zlib_stream.cc] — compression streams; zlib is the class
      [Zlib] with [ZlibSpec].
    - [SessionData]: [http/session_data.h], [http/session_data.cc] — sessions with values
      of any type, and their manager.
    - [Env]: [env.h], [env.cc] — the command line and paths.
    - [UtilAlgo]: [util.h], [util.cc] — searching, slicing, joining, atomic helpers,
      numbers, transfers of a fixed size through C++ streams.
    - [FileUtil]: [util.cc] — [FSUtil] on a model of the file system.
    - [Json]: [util/json_util.cc], [util.cc] — escaping, typed access, conversions between
      YAML, JSON and protobuf messages.
    - [CryptoUtil]: [util/crypto_util.cc] — ciphers and RSA keys over the functions of
      OpenSSL.
    - [HostInfo]: [util.cc] — the address of the host, clocks, the speed limit.
    - [ServiceDiscovery]: [streams/service_discovery.cc] — the tables of servers, the
      handlers and the watches; ZooKeeper is the class [ZkOps] with [ZkSpec], and
      [zk_world] is an instance.
    - [ServiceBalance]: [streams/load_balance.cc] — the service balancer as the callback
      of the discovery.
    - [ModuleManager]: [module.cc], [library.cc] — modules, their owners, libraries, and
      the registration of services.
    - [Servlets]: [http/servlets] — the pages of the configuration and of the process.

    Definitions are named [Class_method] after the source; the comment above each
    gives its file, lines and symbol.

    ** What the theorems show

    - Scheduling ([scheduler_*], [fiber_switch_bracketed]): in every state of any number
      of workers that clients which obey [client_rules] can reach, no two threads execute
      the same fiber, no assertion can fail, every function handed over is executed
      exactly once or still waits, the counters that [stopping()] reads are exact, and
      the queue is served in order.  The code does not check the rules;
      [exclusion_needs_rules] and [scheduled_twice_aborts] show that they are needed.
    - Events ([io_*]): every registered event's task is posted at most once and never
      lost, [m_pendingEventCount] counts the waiting ones, no operation fails beyond
      what [io_never_fails] lists (a double [addEvent], a torn report), as long as no
      thread makes the vector of contexts shorter; an epoll report wakes exactly the tasks it concerns, one turn of [idle] sleeps
      no longer than the next timer and queues the expired callbacks in order, and
      [stopping()] is true exactly when nothing is left to do.
    - Timers: the set stays sorted under every operation, the expiry scan fires
      exactly what is due, a cancelled timer never fires, a one-shot timer fires once,
      and a thread that sleeps as long as [getNextTimer] said misses no timer unless it
      was woken.
    - Hooks: a time-out that comes due before the event is registered is lost
      ([do_io_timeout_lost]); apart from that a hooked call returns the first answer of the original call that is not
      "interrupted" or "would block", or a time-out, under any interleaving; it is
      suspended only after its wake-up is registered; [close] releases all waiters;
      the program's view of [O_NONBLOCK] is kept apart from the kernel's.
    - [ByteArray]: refinement of the flat sequence, the gather and scatter buffers, the
      round trip through files, and the typed round trip with the exact domain of the
      zigzag encoder.
    - HTTP: what [dump] prints, cut into reads of any sizes, is parsed back to the
      same request by the server session and to the same response by the client;
      chunked bodies are put together in order; on any bytes at all the parsers stay
      inside the buffer and the client's loop comes to an end; dispatch prefers an
      exact path and then the first matching pattern; a pooled connection is in the
      hands of at most one user; a client function and the server's loop, put together,
      give the servlet's answer.
    - WebSocket: the two ends of the handshake accept each other, on any bytes the
      server's loop ends, with the session closed once the handshake has returned; a frame sent is the frame received, whatever the fragmentation, and a
      message over the limit is refused.
    - URIs: [Create] on the text of a dumped URI gives its parts back, and on any text
      it stays inside the text.
    - Addresses: an address printed and looked up again is the same, [operator<] is the
      order of the raw bytes.
    - The fiber semaphore: it hands out exactly its tickets, and a waiting fiber that
      there is a ticket for is woken.
    - Locks and threads: scoped locks exclude each other and are always released; a new
      thread never uses its object after that may be gone.
    - Asynchronous streams: a request with a number of its own is answered once,
      whatever the interleaving, and closing answers all of them; messages are sent in order; there is one connection
      at a time.
    - Sockets and servers: every descriptor is owned by one socket and closed once;
      [bind] of a server is all or nothing; after [stop] the tasks of a server come to
      an end with every listening socket gone ([task_step] tells the steps that need a
      client from those the server makes by itself); arrays arrive over a pair of connected
      streams as they were sent; a cancelled socket wakes exactly its waiters.
    - Service discovery: in one session, with one handler at a time, every entry of the
      tables whose node was not lost (deleted, or notified while not connected) is what
      the registry holds, or a notification is under way that will refresh it; the
      balancer's items are servers of the discovery's table.
    - Modules: every operation succeeds and a module is destroyed only when nobody holds
      it.
    - Compression: what was written in any pieces comes back, through buffers of any
      positive size, and the loops end.
    - Configuration and logging: containers nested to any depth survive YAML if their
      elements do, a variable keeps its type, a document sets exactly the variables it
      names, unless a listener throws, the settings that mirror variables are up to date
      as long as no listener does, a pattern prints what its parts
      mean, and a change of the configuration rebuilds exactly the loggers that changed.
    - Sessions are a map whose idle entries expire, with the wrapped limit of a [check]
      that reaches back before the epoch; the command line is parsed by its
      grammar.
    - Helpers: Base64 and URL round trips, [Trim], picking by weight, file trees,
      escaping and the JSON/YAML round trip, digests as in RFC 2104.
    - Theorems and lemmas under the headings "Where the code departs from its intent"
      (and in the files' examples) exhibit runs of the model in which the code aborts,
      loses an event or computes a wrong value.

    ** Bounds and fuel

    Loops that are not structural are given as much fuel as the data is long, and the
    theorems about them conclude [Ok], which excludes [NoFuel].  The list of system-call
    results in [Hook] plays the same part: a run that needs more results than it holds
    is [NoFuel].  The machines of the parsers consume one byte per step and need no
    fuel.  Integers wrap where the code's types do; sizes of containers are taken to be
    below 2^62.

    ** What is not modelled

    Failing allocation, failing [getcontext]/[swapcontext], reference counts of shared
    pointers where nothing depends on them, the loop that a scheduler created with
    [use_caller] runs in its creator's thread, destructors that only release
    resources, and weak memory: a step of a thread is the code between two points at
    which it takes a lock, switches context or touches an atomic counter.  Calls of the
    logger inside other components are left out of them.  The floating-point formula of
    the balancer's weights is a parameter.  Not modelled are backtraces, dates, locale
    and [printf] conversions (calls of the C library), [SchedulerSwitcher] and the
    printing of schedulers, singletons and macros, and the tests and examples.  yaml-cpp,
    jsoncpp, protobuf, zlib, OpenSSL, ZooKeeper, boost's scalar casts, the system calls
    and the resolver are parameters with their documented laws. *)

From Stdlib Require Import ZArith Lia List String Ascii.
From stdpp Require Import base tactics list numbers option.

Open Scope Z_scope.

(** ** Outcomes of C++ code *)

(** The exceptions the modelled code throws. *)
Inductive exn :=
| out_of_range
| invalid_argument
| logic_error
| bad_function_call.

(** What running a piece of C++ code can lead to: a value, a C++ exception, a
    failed [BIN_ASSERT] (the process aborts), undefined behaviour (a null
    dereference, an out-of-range index, an erase of [end()]), or a loop whose
    fuel in the model is used up.  Every theorem that says that code "returns"
    concludes [Ok], which excludes the last case. *)
Inductive outcome (A : Type) :=
| Ok (a : A)
| Throw (e : exn)
| AssertFail
| UB
| NoFuel.
Arguments Ok {A} a.
Arguments Throw {A} e.
Arguments AssertFail {A}.
Arguments UB {A}.
Arguments NoFuel {A}.

#[export] Instance exn_eq_dec : EqDecision exn.
Proof. solve_decision. Defined.
#[export] Instance outcome_eq_dec {A} `{EqDecision A} : EqDecision (outcome A).
Proof. solve_decision. Defined.

Definition obind {A B} (m : outcome A) (f : A -> outcome B) : outcome B :=
  match m with
  | Ok a => f a
  | Throw e => Throw e
  | AssertFail => AssertFail
  | UB => UB
  | NoFuel => NoFuel
  end.

(** [BIN_ASSERT(b)] followed by [k]. *)
Definition assertb {A} (b : bool) (k : outcome A) : outcome A :=
  if b then k else AssertFail.

(** A pointer dereference: [None] is [nullptr]. *)
Definition deref {A B} (p : option A) (k : A -> outcome B) : outcome B :=
  match p with
  | Some a => k a
  | None => UB
  end.

(** A pointer, iterator or function object in a condition. *)
Definition non_null {A} (p : option A) : bool :=
  match p with Some _ => true | None => false end.

Declare Scope outcome_scope.
Notation "'let!' x := m 'in' k" := (obind m (fun x => k))
  (at level 10, x pattern, m at level 100, k at level 200) : outcome_scope.
Open Scope outcome_scope.

(** Case analysis on everything a piece of code branches on, for goals that hold
    on each branch or contradict it. *)
Ltac outcome_cases :=
  unfold deref, assertb, obind; intros; repeat (case_match; simplify_eq/=); done.

(** The hints of the development: [inv] holds the lemmas that say which operations
    keep which invariant, [lengths] the equations for the length of a list. *)
Create HintDb inv.

#[export] Hint Rewrite @length_app @length_take @length_drop @length_map @length_seq
  @length_replicate @length_insert : lengths.

(** Goals about lengths. *)
Ltac lens := autorewrite with lengths in *; cbn [length] in *; lia.

(** ** Machine integers *)

(** Unsigned wrap-around at [w] bits, and the value of a [w]-bit pattern read
    as a two's complement signed integer. *)
Definition uwrap (w : Z) (x : Z) : Z := x mod 2 ^ w.
Definition swrap (w : Z) (x : Z) : Z :=
  let y := x mod 2 ^ w in if y <? 2 ^ (w - 1) then y else y - 2 ^ w.

Abbreviation u8 := (uwrap 8).
Abbreviation u16 := (uwrap 16).
Abbreviation u32 := (uwrap 32).
Abbreviation u64 := (uwrap 64).
Abbreviation i8 := (swrap 8).
Abbreviation i32 := (swrap 32).
Abbreviation i64 := (swrap 64).

(** [~0ull], also [(uint64_t)-1]. *)
Definition U64_MAX : Z := 2 ^ 64 - 1.

(** ** Bytes and strings *)

(** A byte is an integer in [0, 256); a [std::string] is a list of bytes. *)
Abbreviation bytes := (list Z).

Definition is_byte (b : Z) : Prop := 0 <= b < 256.

(** The bytes of a string literal, and the code of a one-character literal. *)
Definition str (s : string) : bytes :=
  map (fun c => Z.of_N (N_of_ascii c)) (list_ascii_of_string s).

Definition chr (s : string) : Z := hd 0 (str s).

(** ** Lemmas on machine integers *)

Lemma uwrap_range (w x : Z) : 0 <= w -> 0 <= uwrap w x < 2 ^ w.
Proof. intros; apply Z.mod_pos_bound, Z.pow_pos_nonneg; lia. Qed.

Lemma uwrap_small (w x : Z) : 0 <= x < 2 ^ w -> uwrap w x = x.
Proof. apply Z.mod_small. Qed.

Lemma uwrap_uwrap (w x : Z) : uwrap w (uwrap w x) = uwrap w x.
Proof. apply Zmod_mod. Qed.

(** Or-ing in bits above the ones already there is addition. *)
Lemma lor_shiftl_disjoint r x i : 0 <= i -> 0 <= r < 2 ^ i -> Z.lor r (Z.shiftl x i) = r + x * 2 ^ i.
Proof.
  intros Hi Hr. pose proof (Z.add_lor_land r (Z.shiftl x i)) as E.
  assert (Z.land r (Z.shiftl x i) = 0) as L.
  { apply Z.bits_inj'. intros n Hn. rewrite Z.land_spec, Z.bits_0.
    destruct (Z.le_gt_cases i n).
    - rewrite (proj1 (Z.bounded_iff_bits_nonneg i r Hi (proj1 Hr)) (proj2 Hr) n) by done. done.
    - rewrite Z.shiftl_spec_low by done. apply andb_false_r. }
  rewrite Z.shiftl_mul_pow2 in * by done. lia.
Qed.

Lemma swrap_range (w x : Z) : 0 < w -> - 2 ^ (w - 1) <= swrap w x < 2 ^ (w - 1).
Proof.
  intros Hw. unfold swrap.
  assert (E : 2 ^ w = 2 * 2 ^ (w - 1)) by (rewrite <- Z.pow_succ_r by lia; f_equal; lia).
  pose proof (uwrap_range w x ltac:(lia)) as B; unfold uwrap in B.
  destruct (Z.ltb_spec (x mod 2 ^ w) (2 ^ (w - 1))); lia.
Qed.

Lemma swrap_small (w x : Z) : 0 < w -> - 2 ^ (w - 1) <= x < 2 ^ (w - 1) -> swrap w x = x.
Proof.
  intros Hw Hx. unfold swrap.
  assert (E : 2 ^ w = 2 * 2 ^ (w - 1)) by (rewrite <- Z.pow_succ_r by lia; f_equal; lia).
  destruct (Z.le_gt_cases 0 x).
  - rewrite Z.mod_small by lia. destruct (Z.ltb_spec x (2 ^ (w - 1))); lia.
  - replace (x mod 2 ^ w) with (x + 2 ^ w).
    + destruct (Z.ltb_spec (x + 2 ^ w) (2 ^ (w - 1))); lia.
    + apply Z.mod_unique_pos with (-1); lia.
Qed.

Lemma swrap_mod (w x : Z) : 0 < w -> swrap w x mod 2 ^ w = x mod 2 ^ w.
Proof.
  intros Hw. unfold swrap.
  assert (0 < 2 ^ w) by (apply Z.pow_pos_nonneg; lia).
  destruct (_ <? _); [apply Zmod_mod|].
  rewrite Zminus_mod, Z_mod_same_full, Z.sub_0_r, !Zmod_mod. reflexivity.
Qed.

Lemma swrap_uwrap (w x : Z) : swrap w (uwrap w x) = swrap w x.
Proof. unfold swrap, uwrap. rewrite Zmod_mod. reflexivity. Qed.

Lemma swrap_add_l (w x y : Z) : 0 < w -> swrap w (swrap w x + y) = swrap w (x + y).
Proof.
  intros Hw. unfold swrap at 1 3. rewrite <- Zplus_mod_idemp_l, swrap_mod, Zplus_mod_idemp_l by done. reflexivity.
Qed.

(** ** Lemmas on lists *)

(** [slice p n l] is the [n] elements of [l] from index [p]; [splice p d l] is
    [l] with the elements from index [p] on overwritten by [d], extending [l]
    when [d] reaches past its end. *)
Definition slice {A} (p n : nat) (l : list A) : list A := take n (drop p l).
Definition splice {A} (p : nat) (d l : list A) : list A :=
  take p l ++ d ++ drop (p + length d) l.

Section splice.
Context {A : Type}.
Implicit Types (l d : list A).

Lemma splice_nil p l : splice p [] l = l.
Proof. unfold splice. simpl. rewrite Nat.add_0_r. apply take_drop. Qed.

Lemma length_splice p d l :
  (p <= length l)%nat -> length (splice p d l) = Nat.max (length l) (p + length d).
Proof. intros. unfold splice. rewrite !length_app, length_take, length_drop. lia. Qed.

Lemma splice_splice p d1 d2 l :
  (p <= length l)%nat ->
  splice (p + length d1) d2 (splice p d1 l) = splice p (d1 ++ d2) l.
Proof.
  intros Hp. unfold splice at 1.
  assert (Hl : length (take p l) = p) by (rewrite length_take; lia).
  assert (take (p + length d1) (splice p d1 l) = take p l ++ d1) as ->.
  { unfold splice. rewrite app_assoc. apply take_app_length'.
    rewrite length_app. lia. }
  assert (drop (p + length d1 + length d2) (splice p d1 l) = drop (p + length (d1 ++ d2)) l) as ->.
  { unfold splice. rewrite app_assoc, drop_app_ge by (rewrite length_app; lia).
    rewrite length_app, drop_drop. f_equal. rewrite length_app. lia. }
  unfold splice. rewrite <- !app_assoc. reflexivity.
Qed.

Lemma splice_app_l p d l1 l2 :
  (p + length d <= length l1)%nat -> splice p d (l1 ++ l2) = splice p d l1 ++ l2.
Proof.
  intros. unfold splice. rewrite take_app_le, drop_app_le by lia. rewrite <- !app_assoc. done.
Qed.

Lemma splice_app_r p d l1 l2 : splice (length l1 + p) d (l1 ++ l2) = l1 ++ splice p d l2.
Proof.
  unfold splice. rewrite take_app_ge, drop_app_ge by lia.
  rewrite <- !app_assoc. do 2 f_equal; [f_equal; lia|]. do 2 f_equal. lia.
Qed.

Lemma slice_splice p d l :
  (p <= length l)%nat -> slice p (length d) (splice p d l) = d.
Proof.
  intros. unfold slice, splice.
  rewrite drop_app_ge by (rewrite length_take; lia).
  rewrite length_take, Nat.min_l, Nat.sub_diag, drop_0 by lia. apply take_app_length.
Qed.

Lemma length_slice p n l : (p + n <= length l)%nat -> length (slice p n l) = n.
Proof. intros. unfold slice. rewrite length_take, length_drop. lia. Qed.

Lemma slice_app_l p n l1 l2 :
  (p + n <= length l1)%nat -> slice p n (l1 ++ l2) = slice p n l1.
Proof. intros. unfold slice. rewrite drop_app_le by lia. apply take_app_le. rewrite length_drop. lia. Qed.

Lemma slice_app_r p n l1 l2 : slice (length l1 + p) n (l1 ++ l2) = slice p n l2.
Proof. unfold slice. rewrite drop_app_ge by lia. do 2 f_equal. lia. Qed.

Lemma slice_split p n m l : slice p (n + m) l = slice p n l ++ slice (p + n) m l.
Proof.
  unfold slice. rewrite <- (take_drop n (drop p l)) at 1.
  rewrite take_app. rewrite length_take, drop_drop.
  destruct (Nat.le_gt_cases n (length (drop p l))).
  - rewrite Nat.min_l by lia. rewrite take_take, Nat.min_r by lia. do 2 f_equal. lia.
  - rewrite length_drop in *. rewrite !(drop_ge l (p + n)) by lia. rewrite !take_nil.
    rewrite take_take, Nat.min_r by lia. done.
Qed.

Lemma slice_take p n k l : (p + n <= k)%nat -> slice p n (take k l) = slice p n l.
Proof.
  intros. unfold slice. rewrite <- (take_drop k l) at 2.
  destruct (Nat.le_gt_cases k (length l)).
  - rewrite drop_app_le by (rewrite length_take; lia).
    rewrite take_app_le; [done|]. rewrite length_drop, length_take. lia.
  - rewrite (drop_ge l k), app_nil_r by lia. done.
Qed.

(** Growing a prefix to hold a splice commutes with splicing. *)
Lemma take_splice n p d l :
  (p <= n)%nat -> (n <= length l)%nat -> (p + length d <= length l)%nat ->
  take (Nat.max n (p + length d)) (splice p d l) = splice p d (take n l).
Proof.
  intros. unfold splice. rewrite (take_take l p n), Nat.min_l by lia.
  rewrite take_app_ge by (rewrite length_take; lia). f_equal.
  rewrite take_app_ge by (rewrite length_take; lia). f_equal.
  rewrite length_take, Nat.min_l by lia.
  destruct (Nat.le_gt_cases n (p + length d)).
  - rewrite (drop_ge (take n l)) by (rewrite length_take; lia).
    replace (_ - _ - _)%nat with 0%nat by lia. apply take_0.
  - rewrite skipn_firstn_comm. f_equal. lia.
Qed.

End splice.

(** ** Positions in strings *)

(** The first and the last position with a character that satisfies [f]: what the
    [find] functions of [std::string] return; [npos] is [None]. *)
Fixpoint first_pos (f : Z -> bool) (s : bytes) : option nat :=
  match s with [] => None | c :: s => if f c then Some 0%nat else S <$> first_pos f s end.

Fixpoint last_pos (f : Z -> bool) (s : bytes) : option nat :=
  match s with
  | [] => None
  | c :: s => match last_pos f s with Some i => Some (S i) | None => if f c then Some 0%nat else None end
  end.

Lemma first_pos_spec f s :
  match first_pos f s with
  | Some i => exists c, s !! i = Some c /\ f c = true /\ Forall (fun x => f x = false) (take i s)
  | None => Forall (fun x => f x = false) s
  end.
Proof.
  induction s as [|c s IH]; cbn; [done|]. destruct (f c) eqn:E; [by exists c|].
  destruct (first_pos f s) as [i|]; cbn; [|by constructor].
  destruct IH as (d & Hd & Hf & Ht). exists d. split_and!; [done|done|by constructor].
Qed.

Lemma first_pos_app c a b :
  Forall (fun x => x <> c) a -> first_pos (Z.eqb c) (a ++ c :: b) = Some (length a).
Proof.
  induction a as [|x a IH]; cbn; [by rewrite Z.eqb_refl|]. intros H. apply Forall_cons_1 in H as [Hx H].
  rewrite (proj2 (Z.eqb_neq c x)) by congruence. by rewrite IH.
Qed.

Lemma first_pos_none c a : Forall (fun x => x <> c) a -> first_pos (Z.eqb c) a = None.
Proof.
  induction a as [|x a IH]; cbn; [done|]. intros H. apply Forall_cons_1 in H as [Hx H].
  rewrite (proj2 (Z.eqb_neq c x)) by congruence. by rewrite IH.
Qed.

Lemma last_pos_spec f s :
  match last_pos f s with
  | Some i => exists c, s !! i = Some c /\ f c = true /\ Forall (fun x => f x = false) (drop (S i) s)
  | None => Forall (fun x => f x = false) s
  end.
Proof.
  induction s as [|c s IH]; cbn; [done|]. destruct (last_pos f s) as [i|]; [done|].
  destruct (f c) eqn:E; [by exists c|by constructor].
Qed.

Lemma in_bytes b n : 0 <= b < Z.of_nat n -> In b (map Z.of_nat (seq 0 n)).
Proof. intros Hb. apply in_map_iff. exists (Z.to_nat b). rewrite in_seq. lia. Qed.

(** ** Loops *)

(** A [while] loop as a function of its state: [inl] goes on with the next
    iteration, [inr] leaves the loop.  [while_run] is the loop of the source, with
    no bound on its iterations; [while_n] runs at most [k] of them, which is all of
    them when a measure that every iteration decreases is at most [k]. *)
Section while.
Context {St : Type} (step : St -> St + St).

Inductive while_run : St -> St -> Prop :=
| while_exit s s' : step s = inr s' -> while_run s s'
| while_next s s1 s' : step s = inl s1 -> while_run s1 s' -> while_run s s'.

Fixpoint while_n (k : nat) (s : St) : St :=
  match k with
  | O => s
  | S k => match step s with inr s' => s' | inl s1 => while_n k s1 end
  end.

Lemma while_run_det s a b : while_run s a -> while_run s b -> a = b.
Proof.
  intros H. revert b. induction H as [s s' E|s s1 s' E _ IH]; intros b Hb;
    inversion Hb as [? ? E'|? s2 ? E' Hr]; rewrite E in E'; simplify_eq; auto.
Qed.

Lemma while_n_run (m : St -> nat) (inv : St -> Prop) :
  (forall s s1, inv s -> step s = inl s1 -> inv s1 /\ (m s1 < m s)%nat) ->
  forall k s, inv s -> (m s < k)%nat -> while_run s (while_n k s).
Proof.
  intros Hm k. induction k as [|k IH]; intros s Hs Hk; [lia|]. cbn.
  destruct (step s) as [s1|s'] eqn:E; [|by constructor].
  destruct (Hm s s1 Hs E). eapply while_next; [exact E|]. apply IH; [done|lia].
Qed.
End while.
