(* ===== verification/Endian.v ===== *)
(** * Byte order ([endian.h])

    How an integer lies in memory on a host of either byte order, the
    [byteswap] templates, and the two conditional swaps.  The host's order is
    [BIN_BYTE_ORDER], a compile-time constant of the source; here it is an
    argument [host], so that every theorem covers both kinds of machine. *)

From S2P Require Import Prelude.
From Stdlib Require Import ZArith Lia List.
From stdpp Require Import base tactics list numbers.

Open Scope Z_scope.

(** @src endian.h:6-6 BIN_LITTLE_ENDIAN *)
Definition BIN_LITTLE_ENDIAN : Z := 1.

(** @src endian.h:7-7 BIN_BIG_ENDIAN *)
Definition BIN_BIG_ENDIAN : Z := 2.

(** The two values a byte order can have. *)
Definition is_order (o : Z) : Prop := o = BIN_LITTLE_ENDIAN \/ o = BIN_BIG_ENDIAN.

(** The [n] low bytes of [v] in two's complement, least significant first,
    and the unsigned value of such a sequence. *)
Fixpoint le_bytes (n : nat) (v : Z) : bytes :=
  match n with
  | O => []
  | S n' => v mod 256 :: le_bytes n' (v / 256)
  end.

Fixpoint le_value (bs : bytes) : Z :=
  match bs with
  | [] => 0
  | b :: bs' => b + 256 * le_value bs'
  end.

(** The bytes of an [n]-byte object holding [v], at increasing addresses, and
    the unsigned value read back from [n] bytes of memory. *)
Definition mem_of (host : Z) (n : nat) (v : Z) : bytes :=
  if host =? BIN_LITTLE_ENDIAN then le_bytes n v else rev (le_bytes n v).

Definition of_mem (host : Z) (bs : bytes) : Z :=
  if host =? BIN_LITTLE_ENDIAN then le_value bs else le_value (rev bs).

(** @src endian.h:30-49 byteswap
    [bswap_16], [bswap_32] and [bswap_64] reverse the bytes; [n] is [sizeof(T)]. *)
Definition byteswap (n : nat) (v : Z) : Z := le_value (rev (le_bytes n v)).

(** The same template at a signed type: the result is converted back to [T]. *)
Definition byteswap_signed (n : nat) (v : Z) : Z :=
  swrap (8 * Z.of_nat n) (byteswap n v).

(** @src endian.h:67-88 byteswapOnLittleEndian *)
Definition byteswapOnLittleEndian (host : Z) (n : nat) (v : Z) : Z :=
  if host =? BIN_BIG_ENDIAN then v else byteswap n v.

(** @src endian.h:75-96 byteswapOnBigEndian *)
Definition byteswapOnBigEndian (host : Z) (n : nat) (v : Z) : Z :=
  if host =? BIN_BIG_ENDIAN then byteswap n v else v.

(** ** Splitting and joining *)

Lemma pow256_succ (n : nat) : 256 ^ Z.of_nat (S n) = 256 * 256 ^ Z.of_nat n.
Proof. rewrite Nat2Z.inj_succ, Z.pow_succ_r by lia. reflexivity. Qed.

Lemma pow256_pos (n : nat) : 0 < 256 ^ Z.of_nat n.
Proof. apply Z.pow_pos_nonneg; lia. Qed.

Lemma pow256_bits (n : nat) : 256 ^ Z.of_nat n = 2 ^ (8 * Z.of_nat n).
Proof. rewrite Z.pow_mul_r by lia. reflexivity. Qed.

Lemma length_le_bytes (n : nat) (v : Z) : length (le_bytes n v) = n.
Proof. revert v; induction n; intros; simpl; auto. Qed.

Lemma le_bytes_bytes (n : nat) (v : Z) : Forall is_byte (le_bytes n v).
Proof.
  revert v; induction n; intros v; simpl; constructor; auto.
  unfold is_byte; apply Z.mod_pos_bound; lia.
Qed.

Lemma le_value_le_bytes (n : nat) (v : Z) :
  le_value (le_bytes n v) = v mod 256 ^ Z.of_nat n.
Proof.
  revert v; induction n as [|n IH]; intros v; simpl le_bytes; simpl le_value.
  - rewrite Z.mod_1_r. reflexivity.
  - rewrite IH, pow256_succ, Z.rem_mul_r by (pose proof (pow256_pos n); lia). reflexivity.
Qed.

Lemma le_value_range (bs : bytes) :
  Forall is_byte bs -> 0 <= le_value bs < 256 ^ Z.of_nat (length bs).
Proof.
  induction 1 as [|b bs Hb _ IH]; [simpl; lia|].
  cbn [le_value length]. rewrite pow256_succ. unfold is_byte in Hb. lia.
Qed.

Lemma le_bytes_le_value (bs : bytes) :
  Forall is_byte bs -> le_bytes (length bs) (le_value bs) = bs.
Proof.
  induction 1 as [|b bs Hb _ IH]; [reflexivity|]; simpl. unfold is_byte in Hb.
  f_equal.
  - rewrite Z.mul_comm, Z_mod_plus_full. apply Z.mod_small; lia.
  - rewrite Z.mul_comm, Z.div_add by lia. rewrite Z.div_small by lia. exact IH.
Qed.

Lemma le_bytes_cong (n : nat) (v v' : Z) :
  v mod 256 ^ Z.of_nat n = v' mod 256 ^ Z.of_nat n -> le_bytes n v = le_bytes n v'.
Proof.
  intros H.
  rewrite <- (le_bytes_le_value (le_bytes n v)), <- (le_bytes_le_value (le_bytes n v'))
    by apply le_bytes_bytes.
  rewrite !length_le_bytes, !le_value_le_bytes, H. reflexivity.
Qed.

Lemma le_bytes_mod (n : nat) (v : Z) : le_bytes n (v mod 256 ^ Z.of_nat n) = le_bytes n v.
Proof. apply le_bytes_cong, Zmod_mod. Qed.

Lemma le_bytes_swrap (n : nat) (v : Z) :
  (0 < n)%nat -> le_bytes n (swrap (8 * Z.of_nat n) v) = le_bytes n v.
Proof. intros. apply le_bytes_cong. rewrite pow256_bits. apply swrap_mod; lia. Qed.

(** ** Swapping *)

Lemma byteswap_range (n : nat) (v : Z) : 0 <= byteswap n v < 256 ^ Z.of_nat n.
Proof.
  unfold byteswap.
  pose proof (le_value_range (rev (le_bytes n v))) as R.
  rewrite length_rev, length_le_bytes in R. apply R, Forall_rev, le_bytes_bytes.
Qed.

Lemma le_bytes_byteswap (n : nat) (v : Z) : le_bytes n (byteswap n v) = rev (le_bytes n v).
Proof.
  unfold byteswap. rewrite <- (length_le_bytes n v) at 1.
  rewrite <- length_rev. apply le_bytes_le_value, Forall_rev, le_bytes_bytes.
Qed.

Lemma le_bytes_byteswap_signed (n : nat) (v : Z) :
  (0 < n)%nat -> le_bytes n (byteswap_signed n v) = rev (le_bytes n v).
Proof. intros. unfold byteswap_signed. rewrite le_bytes_swrap by done. apply le_bytes_byteswap. Qed.

Lemma byteswap_byteswap (n : nat) (v : Z) : byteswap n (byteswap n v) = v mod 256 ^ Z.of_nat n.
Proof.
  unfold byteswap at 1. rewrite le_bytes_byteswap, rev_involutive. apply le_value_le_bytes.
Qed.

Lemma is_order_cases (host : Z) :
  is_order host ->
  (host =? BIN_LITTLE_ENDIAN) = true /\ (host =? BIN_BIG_ENDIAN) = false \/
  (host =? BIN_LITTLE_ENDIAN) = false /\ (host =? BIN_BIG_ENDIAN) = true.
Proof. intros [->| ->]; [left|right]; done. Qed.

Lemma length_mem_of (host : Z) (n : nat) (v : Z) : length (mem_of host n v) = n.
Proof. unfold mem_of. case_match; rewrite ?length_rev; apply length_le_bytes. Qed.

Lemma mem_of_bytes (host : Z) (n : nat) (v : Z) : Forall is_byte (mem_of host n v).
Proof. unfold mem_of. case_match; [|apply Forall_rev]; apply le_bytes_bytes. Qed.

Lemma of_mem_mem_of (host : Z) (n : nat) (v : Z) :
  of_mem host (mem_of host n v) = v mod 256 ^ Z.of_nat n.
Proof.
  unfold of_mem, mem_of. case_match; rewrite ?rev_involutive; apply le_value_le_bytes.
Qed.

(** Whatever the host, the bytes of [byteswapOnLittleEndian(v)] are [v] in network
    (big-endian) order. *)
Lemma mem_of_byteswapOnLittleEndian (host : Z) (n : nat) (v : Z) :
  is_order host -> mem_of host n (byteswapOnLittleEndian host n v) = rev (le_bytes n v).
Proof.
  intros H. unfold mem_of, byteswapOnLittleEndian.
  destruct (is_order_cases host H) as [[-> ->]|[-> ->]]; [apply le_bytes_byteswap|done].
Qed.

Lemma byteswapOnLittleEndian_twice (host : Z) (n : nat) (v : Z) :
  0 <= v < 256 ^ Z.of_nat n ->
  byteswapOnLittleEndian host n (byteswapOnLittleEndian host n v) = v.
Proof.
  intros H. unfold byteswapOnLittleEndian. destruct (host =? BIN_BIG_ENDIAN); [done|].
  rewrite byteswap_byteswap. apply Z.mod_small, H.
Qed.
