(* ===== verification/ByteArray.v ===== *)
(** * The byte container ([bytearray.h], [bytearray.cc])

    A [ByteArray] is a chain of memory blocks of equal size with a cursor.  The
    chain is the list [m_nodes] of block contents in the order of the [next]
    pointers (the head is [m_root]); a [Node*] into it is the block's index, and
    [None] is [NULL].  Every dereference and every [memcpy] of the source is
    checked here: a null pointer or a copy outside a block is [UB].

    The main results are [ByteArray_write_refines] and [ByteArray_read_refines]:
    on well-formed arrays the block-wise loops implement overwriting and slicing
    of one flat byte sequence, [contents].

    Sizes are [size_t]; differences that can wrap are written with [u64].  The
    number of blocks to add is computed in the source with [double] arithmetic,
    which is exact for the sizes up to [SIZE_LIMIT] the theorems assume. *)

From S2P Require Import Prelude Endian.
From Stdlib Require Import ZArith Lia List.
From stdpp Require Import base tactics list numbers option.

Open Scope Z_scope.

(** @src bytearray.h:136-142 ByteArray *)
Record ByteArray := mkByteArray {
  m_baseSize : Z;
  m_position : Z;
  m_capacity : Z;
  m_size : Z;
  m_endian : Z;
  m_nodes : list bytes;
  m_cur : option nat
}.

(** A buffer for scattered I/O: block, offset in the block, length.
    [iov_base] of the source is [m_nodes[iov_node].ptr + iov_off]. *)
Record iovec := mkIovec { iov_node : nat; iov_off : Z; iov_len : Z }.

Definition zlen {A} (l : list A) : Z := Z.of_nat (length l).

Definition with_position (ba : ByteArray) (p : Z) : ByteArray :=
  mkByteArray (m_baseSize ba) p (m_capacity ba) (m_size ba) (m_endian ba) (m_nodes ba) (m_cur ba).
Definition with_size (ba : ByteArray) (s : Z) : ByteArray :=
  mkByteArray (m_baseSize ba) (m_position ba) (m_capacity ba) s (m_endian ba) (m_nodes ba) (m_cur ba).
Definition with_cur (ba : ByteArray) (c : option nat) : ByteArray :=
  mkByteArray (m_baseSize ba) (m_position ba) (m_capacity ba) (m_size ba) (m_endian ba) (m_nodes ba) c.
Definition with_nodes (ba : ByteArray) (ns : list bytes) : ByteArray :=
  mkByteArray (m_baseSize ba) (m_position ba) (m_capacity ba) (m_size ba) (m_endian ba) ns (m_cur ba).

(** [node->next] of the block with index [c]. *)
Definition next_of (ns : list bytes) (c : nat) : option nat :=
  if (S c <? length ns)%nat then Some (S c) else None.

(** [memcpy] into a block and out of a block. *)
Definition memcpy_to (node : bytes) (npos : Z) (d : bytes) : outcome bytes :=
  if (0 <=? npos) && (npos + zlen d <=? zlen node)
  then Ok (splice (Z.to_nat npos) d node) else UB.

Definition memcpy_from (node : bytes) (npos n : Z) : outcome bytes :=
  if (0 <=? npos) && (0 <=? n) && (npos + n <=? zlen node)
  then Ok (slice (Z.to_nat npos) (Z.to_nat n) node) else UB.

(** [a % b] on [size_t]. *)
Definition umod (a b : Z) : outcome Z := if b =? 0 then UB else Ok (a mod b).

(** @src bytearray.h:112-112 ByteArray::getReadSize *)
Definition ByteArray_getReadSize (ba : ByteArray) : Z := u64 (m_size ba - m_position ba).

(** @src bytearray.h:133-133 ByteArray::getCapacity *)
Definition ByteArray_getCapacity (ba : ByteArray) : Z := u64 (m_capacity ba - m_position ba).

(** @src bytearray.cc:97-99 ByteArray::isLittleEndian *)
Definition ByteArray_isLittleEndian (ba : ByteArray) : bool := m_endian ba =? BIN_LITTLE_ENDIAN.

(** @src bytearray.cc:101-107 ByteArray::setIsLittleEndian *)
Definition ByteArray_setIsLittleEndian (ba : ByteArray) (val : bool) : ByteArray :=
  mkByteArray (m_baseSize ba) (m_position ba) (m_capacity ba) (m_size ba)
    (if val then BIN_LITTLE_ENDIAN else BIN_BIG_ENDIAN) (m_nodes ba) (m_cur ba).

Section operations.

(** Fresh memory is not initialised: [junk i j] is what byte [j] of the block
    allocated at chain index [i] happens to hold. *)
Variable junk : nat -> nat -> Z.

(** @src bytearray.cc:15-19 ByteArray::Node::Node *)
Definition Node_new (i : nat) (s : Z) : bytes := map (junk i) (seq 0 (Z.to_nat s)).

(** @src bytearray.cc:35-43 ByteArray::ByteArray *)
Definition ByteArray_new (base_size : Z) : ByteArray :=
  mkByteArray base_size 0 base_size 0 BIN_BIG_ENDIAN [Node_new 0 base_size] (Some 0%nat).

(** @src bytearray.cc:376-387 ByteArray::clear *)
Definition ByteArray_clear (ba : ByteArray) : ByteArray :=
  mkByteArray (m_baseSize ba) 0 (m_baseSize ba) 0 (m_endian ba) (take 1 (m_nodes ba)) (Some 0%nat).

(** The tail insertion of [count] new blocks (lines 565-572). *)
Fixpoint add_nodes (count : nat) (base : Z) (ns : list bytes) : list bytes :=
  match count with
  | O => ns
  | S k => add_nodes k base (ns ++ [Node_new (length ns) base])
  end.

(** @src bytearray.cc:548-577 ByteArray::addCapacity *)
Definition ByteArray_addCapacity (ba : ByteArray) (size : Z) : outcome ByteArray :=
  if size =? 0 then Ok ba else
  let old_cap := ByteArray_getCapacity ba in
  if size <=? old_cap then Ok ba else
  if m_baseSize ba =? 0 then UB else
  let size := size - old_cap in
  let count := (size + m_baseSize ba - 1) / m_baseSize ba in
  Ok (mkByteArray (m_baseSize ba) (m_position ba) (m_capacity ba + count * m_baseSize ba)
        (m_size ba) (m_endian ba)
        (add_nodes (Z.to_nat count) (m_baseSize ba) (m_nodes ba))
        (if old_cap =? 0 then Some (length (m_nodes ba)) else m_cur ba)).

(** The loop of [write]; [buf] is what is still to be written.  Every turn
    writes at least one byte, so [length buf] turns are enough. *)
Fixpoint write_loop (fuel : nat) (ba : ByteArray) (npos ncap : Z) (buf : bytes) : outcome ByteArray :=
  let size := zlen buf in
  if size <=? 0 then Ok ba else
  match fuel with
  | O => NoFuel
  | S fuel =>
    deref (m_cur ba) (fun c =>
    deref (m_nodes ba !! c) (fun node =>
    if size <=? ncap then
      let! node' := memcpy_to node npos buf in
      let ba := with_nodes ba (<[c := node']> (m_nodes ba)) in
      let ba := if zlen node =? npos + size then with_cur ba (next_of (m_nodes ba) c) else ba in
      let ba := with_position ba (m_position ba + size) in
      write_loop fuel ba npos ncap []
    else
      let! node' := memcpy_to node npos (take (Z.to_nat ncap) buf) in
      let ba := with_nodes ba (<[c := node']> (m_nodes ba)) in
      let ba := with_position ba (m_position ba + ncap) in
      let ba := with_cur ba (next_of (m_nodes ba) c) in
      deref (m_cur ba) (fun c' =>
      deref (m_nodes ba !! c') (fun node2 =>
      write_loop fuel ba 0 (zlen node2) (drop (Z.to_nat ncap) buf)))))
  end.

(** @src bytearray.cc:389-422 ByteArray::write *)
Definition ByteArray_write (ba : ByteArray) (buf : bytes) : outcome ByteArray :=
  if zlen buf =? 0 then Ok ba else
  let! ba := ByteArray_addCapacity ba (zlen buf) in
  let! npos := umod (m_position ba) (m_baseSize ba) in
  deref (m_cur ba) (fun c =>
  deref (m_nodes ba !! c) (fun node =>
  let! ba := write_loop (length buf) ba npos (u64 (zlen node - npos)) buf in
  Ok (if m_size ba <? m_position ba then with_size ba (m_position ba) else ba))).

(** The loop of [read]; [acc] is what was copied to the caller's buffer. *)
Fixpoint read_loop (fuel : nat) (ba : ByteArray) (npos ncap size : Z) (acc : bytes)
    : outcome (bytes * ByteArray) :=
  if size <=? 0 then Ok (acc, ba) else
  match fuel with
  | O => NoFuel
  | S fuel =>
    deref (m_cur ba) (fun c =>
    deref (m_nodes ba !! c) (fun node =>
    if size <=? ncap then
      let! d := memcpy_from node npos size in
      let ba := if zlen node =? npos + size then with_cur ba (next_of (m_nodes ba) c) else ba in
      let ba := with_position ba (m_position ba + size) in
      read_loop fuel ba npos ncap 0 (acc ++ d)
    else
      let! d := memcpy_from node npos ncap in
      let ba := with_position ba (m_position ba + ncap) in
      let ba := with_cur ba (next_of (m_nodes ba) c) in
      deref (m_cur ba) (fun c' =>
      deref (m_nodes ba !! c') (fun node2 =>
      read_loop fuel ba 0 (zlen node2) (size - ncap) (acc ++ d)))))
  end.

(** @src bytearray.cc:425-450 ByteArray::read *)
Definition ByteArray_read (ba : ByteArray) (size : Z) : outcome (bytes * ByteArray) :=
  if ByteArray_getReadSize ba <? size then Throw out_of_range else
  let! npos := umod (m_position ba) (m_baseSize ba) in
  deref (m_cur ba) (fun c =>
  deref (m_nodes ba !! c) (fun node =>
  read_loop (Z.to_nat size) ba npos (u64 (zlen node - npos)) size [])).

(** @src bytearray.cc:454-480 ByteArray::read
    The overload that takes a position and leaves the array alone.  It starts
    in the current block [m_cur], whatever [position] is. *)
Definition ByteArray_read_at (ba : ByteArray) (size position : Z) : outcome bytes :=
  if u64 (m_size ba - position) <? size then Throw out_of_range else
  let! npos := umod position (m_baseSize ba) in
  deref (m_cur ba) (fun c =>
  deref (m_nodes ba !! c) (fun node =>
  let! r := read_loop (Z.to_nat size) (with_position ba position) npos (u64 (zlen node - npos)) size [] in
  Ok (fst r))).

(** The two loops of [setPosition] that move [m_cur]. *)
Fixpoint setPosition_loop (fuel : nat) (ns : list bytes) (cur : option nat) (val : Z)
    : outcome (option nat) :=
  match fuel with
  | O => NoFuel
  | S fuel =>
    deref cur (fun c =>
    deref (ns !! c) (fun node =>
    if zlen node <? val then setPosition_loop fuel ns (next_of ns c) (val - zlen node)
    else if val =? zlen node then Ok (next_of ns c) else Ok (Some c)))
  end.

(** @src bytearray.cc:482-502 ByteArray::setPosition *)
Definition ByteArray_setPosition (ba : ByteArray) (val : Z) : outcome ByteArray :=
  if m_capacity ba <? val then Throw out_of_range else
  let ba := with_position ba val in
  let ba := if m_size ba <? m_position ba then with_size ba (m_position ba) else ba in
  let! cur := setPosition_loop (length (m_nodes ba)) (m_nodes ba) (Some 0%nat) val in
  Ok (with_cur ba cur).

(** The loop of [writeToFile]: the bytes handed to [ofs.write].  A negative
    length, which the source's expression can produce, is [UB]. *)
Fixpoint writeToFile_loop (fuel : nat) (ba : ByteArray) (cur : option nat) (pos read_size : Z)
    (acc : bytes) : outcome bytes :=
  if read_size <=? 0 then Ok acc else
  match fuel with
  | O => NoFuel
  | S fuel =>
    let! diff := umod pos (m_baseSize ba) in
    let len := (if m_baseSize ba <? read_size then m_baseSize ba else read_size) - diff in
    deref cur (fun c =>
    deref (m_nodes ba !! c) (fun node =>
    let! d := memcpy_from node diff len in
    writeToFile_loop fuel ba (next_of (m_nodes ba) c) (pos + len) (read_size - len) (acc ++ d)))
  end.

(** @src bytearray.cc:504-527 ByteArray::writeToFile
    [opened] says whether [ofs.open] succeeded; the result is the file's new
    content, [None] when the function returns [false]. *)
Definition ByteArray_writeToFile (opened : bool) (ba : ByteArray) : outcome (option bytes) :=
  if negb opened then Ok None else
  let! out := writeToFile_loop (S (length (m_nodes ba))) ba (m_cur ba) (m_position ba)
                (ByteArray_getReadSize ba) [] in
  Ok (Some out).

(** The loop of [readFromFile] over what is left of the file: a read that
    returns fewer than [m_baseSize] bytes sets [eof]. *)
Fixpoint readFromFile_loop (fuel : nat) (ba : ByteArray) (file : bytes) : outcome ByteArray :=
  match fuel with
  | O => NoFuel
  | S fuel =>
    let chunk := take (Z.to_nat (m_baseSize ba)) file in
    let! ba' := ByteArray_write ba chunk in
    if zlen chunk <? m_baseSize ba then Ok ba'
    else readFromFile_loop fuel ba' (drop (Z.to_nat (m_baseSize ba)) file)
  end.

(** @src bytearray.cc:529-546 ByteArray::readFromFile
    [file] is the content of the file, [None] when it cannot be opened. *)
Definition ByteArray_readFromFile (ba : ByteArray) (file : option bytes) : outcome (bool * ByteArray) :=
  match file with
  | None => Ok (false, ba)
  | Some f => let! ba' := readFromFile_loop (S (length f)) ba f in Ok (true, ba')
  end.

(** @src bytearray.cc:579-586 ByteArray::toString *)
Definition ByteArray_toString (ba : ByteArray) : outcome bytes :=
  let n := ByteArray_getReadSize ba in
  if n =? 0 then Ok [] else ByteArray_read_at ba n (m_position ba).

(** Two lower-case hexadecimal digits, as [setw(2) << setfill('0') << hex] print a byte. *)
Definition hexdigit (d : Z) : Z := if d <? 10 then 48 + d else 87 + d.
Definition hex2 (b : Z) : bytes := [hexdigit (b / 16); hexdigit (b mod 16)].

(** @src bytearray.cc:588-600 ByteArray::toHexString *)
Definition ByteArray_toHexString (ba : ByteArray) : outcome bytes :=
  let! s := ByteArray_toString ba in
  Ok (concat (imap (fun i b =>
        (if (0 <? i)%nat && (i mod 32 =? 0)%nat then [10] else []) ++ hex2 b ++ [32]) s)).

(** The loop shared by the three functions that hand out buffers. *)
Fixpoint iov_loop (fuel : nat) (ns : list bytes) (cur : option nat) (npos ncap len : Z)
    : outcome (list iovec) :=
  if len <=? 0 then Ok [] else
  match fuel with
  | O => NoFuel
  | S fuel =>
    deref cur (fun c =>
    if len <=? ncap then Ok [mkIovec c npos len]
    else
      deref (next_of ns c) (fun c' =>
      deref (ns !! c') (fun node2 =>
      let! r := iov_loop fuel ns (Some c') 0 (zlen node2) (len - ncap) in
      Ok (mkIovec c npos ncap :: r))))
  end.

(** @src bytearray.cc:603-631 ByteArray::getReadBuffers *)
Definition ByteArray_getReadBuffers (ba : ByteArray) (len : Z) : outcome (Z * list iovec) :=
  let len := if ByteArray_getReadSize ba <? len then ByteArray_getReadSize ba else len in
  if len =? 0 then Ok (0, []) else
  let! npos := umod (m_position ba) (m_baseSize ba) in
  deref (m_cur ba) (fun c =>
  deref (m_nodes ba !! c) (fun node =>
  let! iovs := iov_loop (Z.to_nat len) (m_nodes ba) (Some c) npos (u64 (zlen node - npos)) len in
  Ok (len, iovs))).

(** [cur = cur->next] repeated [count] times from [m_root] (lines 643-646). *)
Fixpoint advance (count : nat) (ns : list bytes) (cur : option nat) : outcome (option nat) :=
  match count with
  | O => Ok cur
  | S k => deref cur (fun c => advance k ns (next_of ns c))
  end.

(** @src bytearray.cc:633-666 ByteArray::getReadBuffers
    The overload that takes a position; the length is capped by [getReadSize()],
    which is measured from [m_position] and not from [position]. *)
Definition ByteArray_getReadBuffers_at (ba : ByteArray) (len position : Z) : outcome (Z * list iovec) :=
  let len := if ByteArray_getReadSize ba <? len then ByteArray_getReadSize ba else len in
  if len =? 0 then Ok (0, []) else
  let! npos := umod position (m_baseSize ba) in
  let! cur := advance (Z.to_nat (position / m_baseSize ba)) (m_nodes ba) (Some 0%nat) in
  deref cur (fun c =>
  deref (m_nodes ba !! c) (fun node =>
  let! iovs := iov_loop (Z.to_nat len) (m_nodes ba) (Some c) npos (u64 (zlen node - npos)) len in
  Ok (len, iovs))).

(** @src bytearray.cc:668-695 ByteArray::getWriteBuffers *)
Definition ByteArray_getWriteBuffers (ba : ByteArray) (len : Z) : outcome (Z * list iovec * ByteArray) :=
  if len =? 0 then Ok (0, [], ba) else
  let! ba := ByteArray_addCapacity ba len in
  let! npos := umod (m_position ba) (m_baseSize ba) in
  deref (m_cur ba) (fun c =>
  deref (m_nodes ba !! c) (fun node =>
  let! iovs := iov_loop (Z.to_nat len) (m_nodes ba) (Some c) npos (u64 (zlen node - npos)) len in
  Ok (len, iovs, ba))).

End operations.

(** ** Well-formed arrays and their contents *)

(** The largest capacity the theorems consider; see the head of the file. *)
Definition SIZE_LIMIT : Z := 2 ^ 53.

(** Where [m_cur] has to point: at the block of the byte at [m_position], or
    nowhere when the position is the end of the last block. *)
Definition cur_ok (base : Z) (k : nat) (p : Z) (cur : option nat) : Prop :=
  match cur with
  | Some c => (c < k)%nat /\ Z.of_nat c * base <= p < Z.of_nat c * base + base
  | None => p = Z.of_nat k * base
  end.

Definition blocks_ok (base : Z) (ns : list bytes) : Prop := Forall (fun nd => zlen nd = base) ns.

Record wf (ba : ByteArray) : Prop := {
  wf_base : 0 < m_baseSize ba;
  wf_blocks : blocks_ok (m_baseSize ba) (m_nodes ba);
  wf_nonempty : (0 < length (m_nodes ba))%nat;
  wf_capacity : m_capacity ba = Z.of_nat (length (m_nodes ba)) * m_baseSize ba;
  wf_limit : m_capacity ba <= SIZE_LIMIT;
  wf_position : 0 <= m_position ba <= m_size ba;
  wf_size : m_size ba <= m_capacity ba;
  wf_cur : cur_ok (m_baseSize ba) (length (m_nodes ba)) (m_position ba) (m_cur ba);
  wf_endian : is_order (m_endian ba)
}.

(** The whole memory as one sequence, and the abstract value of an array: the
    [m_size] bytes that hold data. *)
Definition flat (ba : ByteArray) : bytes := concat (m_nodes ba).
Definition contents (ba : ByteArray) : bytes := take (Z.to_nat (m_size ba)) (flat ba).
Definition pos (ba : ByteArray) : nat := Z.to_nat (m_position ba).

(** ** Lemmas on chains of equal blocks *)

Section blocks.
Variable base : Z.
Hypothesis base_pos : 0 < base.
Implicit Types (ns : list bytes).

Lemma blocks_length ns : blocks_ok base ns -> zlen (concat ns) = Z.of_nat (length ns) * base.
Proof.
  unfold zlen. induction 1 as [|nd ns Hnd _ IH]; cbn [concat length]; [lia|].
  rewrite length_app. unfold zlen in Hnd. lia.
Qed.

Lemma blocks_lookup ns c nd : blocks_ok base ns -> ns !! c = Some nd -> zlen nd = base.
Proof. intros H. apply (proj1 (Forall_lookup _ _) H). Qed.

Lemma concat_splice ns c nd npos d :
  blocks_ok base ns -> ns !! c = Some nd -> (npos + length d <= length nd)%nat ->
  concat (<[c := splice npos d nd]> ns) =
  splice (Z.to_nat (Z.of_nat c * base) + npos) d (concat ns).
Proof.
  intros H. revert c. induction H as [|nd' ns Hnd _ IH]; intros [|c] Hl Hd; [done..| |].
  - simpl in Hl. simplify_eq. cbn. rewrite splice_app_l by done. done.
  - simpl in Hl. change (<[S c := ?x]> (nd' :: ns)) with (nd' :: <[c := x]> ns).
    cbn [concat]. rewrite (IH c Hl Hd), <- splice_app_r. f_equal. unfold zlen in Hnd. lia.
Qed.

Lemma concat_slice ns c nd npos n :
  blocks_ok base ns -> ns !! c = Some nd -> (npos + n <= length nd)%nat ->
  slice (Z.to_nat (Z.of_nat c * base) + npos) n (concat ns) = slice npos n nd.
Proof.
  intros H. revert c. induction H as [|nd' ns Hnd _ IH]; intros [|c] Hl Hd; [done..| |].
  - simpl in Hl. simplify_eq. cbn. rewrite slice_app_l by done. done.
  - simpl in Hl. cbn [concat]. rewrite <- (IH c Hl Hd).
    rewrite <- (slice_app_r _ _ nd' (concat ns)). f_equal. unfold zlen in Hnd. lia.
Qed.

Lemma blocks_insert ns c nd : blocks_ok base ns -> zlen nd = base -> blocks_ok base (<[c := nd]> ns).
Proof. intros. by apply Forall_insert. Qed.

Lemma next_of_cur_ok ns c p :
  (c < length ns)%nat -> p = Z.of_nat c * base + base ->
  cur_ok base (length ns) p (next_of ns c).
Proof.
  intros Hc ->. unfold next_of, cur_ok. destruct (Nat.ltb_spec (S c) (length ns)).
  - rewrite Nat2Z.inj_succ. lia.
  - replace (length ns) with (S c) by lia. rewrite Nat2Z.inj_succ. lia.
Qed.

End blocks.

Lemma zlen_app {A} (l1 l2 : list A) : zlen (l1 ++ l2) = zlen l1 + zlen l2.
Proof. unfold zlen. rewrite length_app. lia. Qed.

Lemma memcpy_to_ok (node : bytes) (npos : Z) (d : bytes) :
  0 <= npos -> npos + zlen d <= zlen node -> memcpy_to node npos d = Ok (splice (Z.to_nat npos) d node).
Proof.
  intros. unfold memcpy_to.
  rewrite (proj2 (Z.leb_le 0 npos)), (proj2 (Z.leb_le (npos + zlen d) _)) by lia. done.
Qed.

Lemma memcpy_from_ok (node : bytes) (npos n : Z) :
  0 <= npos -> 0 <= n -> npos + n <= zlen node ->
  memcpy_from node npos n = Ok (slice (Z.to_nat npos) (Z.to_nat n) node).
Proof.
  intros. unfold memcpy_from.
  rewrite (proj2 (Z.leb_le 0 npos)), (proj2 (Z.leb_le 0 n)), (proj2 (Z.leb_le (npos + n) _)) by lia.
  done.
Qed.

Lemma length_flat (ba : ByteArray) : wf ba -> zlen (flat ba) = m_capacity ba.
Proof. intros []. unfold flat. rewrite blocks_length with (base := m_baseSize ba); lia || done. Qed.

Lemma length_contents (ba : ByteArray) : wf ba -> zlen (contents ba) = m_size ba.
Proof.
  intros W. pose proof (length_flat ba W). destruct W.
  unfold contents, zlen in *. rewrite length_take. lia.
Qed.

(** ** The write loop *)

(** Case analysis on the comparisons of the code. *)
Ltac zcases :=
  repeat match goal with
  | |- context [?a <=? ?b] => destruct (Z.leb_spec a b); try lia
  | |- context [?a <? ?b] => destruct (Z.ltb_spec a b); try lia
  | |- context [?a =? ?b] => destruct (Z.eqb_spec a b); try lia
  end.

(** One [memcpy] into block [c] of a chain, seen on the flat memory. *)
Lemma block_update b ns c nd npos d :
  0 < b -> blocks_ok b ns -> ns !! c = Some nd -> 0 <= npos -> npos + zlen d <= b ->
  let ns' := <[c := splice (Z.to_nat npos) d nd]> ns in
  memcpy_to nd npos d = Ok (splice (Z.to_nat npos) d nd) /\
  blocks_ok b ns' /\ length ns' = length ns /\
  concat ns' = splice (Z.to_nat (Z.of_nat c * b + npos)) d (concat ns).
Proof.
  intros Hb Hbl Hnd Hn Hd ns'. pose proof (blocks_lookup _ _ _ _ Hbl Hnd) as Hl.
  split_and!.
  - apply memcpy_to_ok; lia.
  - apply blocks_insert; [done|]. unfold zlen in *. rewrite length_splice; lia.
  - apply length_insert.
  - replace (Z.to_nat (Z.of_nat c * b + npos)) with (Z.to_nat (Z.of_nat c * b) + Z.to_nat npos)%nat
      by lia.
    apply concat_splice; [done..|]. unfold zlen in *. lia.
Qed.

(** One [memcpy] out of block [c]. *)
Lemma block_read b ns c nd npos n :
  0 < b -> blocks_ok b ns -> ns !! c = Some nd -> 0 <= npos -> 0 <= n -> npos + n <= b ->
  memcpy_from nd npos n = Ok (slice (Z.to_nat (Z.of_nat c * b + npos)) (Z.to_nat n) (concat ns)).
Proof.
  intros Hb Hbl Hnd Hp Hn Hd. pose proof (blocks_lookup _ _ _ _ Hbl Hnd) as Hl.
  rewrite memcpy_from_ok by lia. f_equal.
  replace (Z.to_nat (Z.of_nat c * b + npos)) with (Z.to_nat (Z.of_nat c * b) + Z.to_nat npos)%nat
    by lia.
  symmetry. apply concat_slice; [done..|]. unfold zlen in *. lia.
Qed.

(** If data remains after block [c] is used up, there is a next block. *)
Lemma next_block b ns c npos p n :
  0 < b -> blocks_ok b ns -> (c < length ns)%nat -> 0 <= npos < b -> p = Z.of_nat c * b + npos ->
  p + n <= Z.of_nat (length ns) * b -> b - npos < n ->
  exists nd2, next_of ns c = Some (S c) /\ ns !! S c = Some nd2 /\ zlen nd2 = b /\
    (S c < length ns)%nat /\ p + (b - npos) = Z.of_nat (S c) * b + 0.
Proof.
  intros Hb Hbl Hc Hn -> Hfit Hlt.
  assert (Hcn : (S c < length ns)%nat).
  { destruct (Nat.ltb_spec (S c) (length ns)); [done|].
    assert (length ns = S c) as E by lia. rewrite E, Nat2Z.inj_succ in Hfit. lia. }
  destruct (lookup_lt_is_Some_2 _ _ Hcn) as [nd2 Hnd2]. exists nd2.
  unfold next_of. rewrite (proj2 (Nat.ltb_lt _ _) Hcn), Nat2Z.inj_succ.
  split_and!; [done..|by eapply blocks_lookup|done|lia].
Qed.

Lemma write_loop_spec fuel : forall ba c npos buf,
  0 < m_baseSize ba -> blocks_ok (m_baseSize ba) (m_nodes ba) ->
  m_cur ba = Some c -> (c < length (m_nodes ba))%nat ->
  0 <= npos < m_baseSize ba -> m_position ba = Z.of_nat c * m_baseSize ba + npos ->
  0 < zlen buf -> m_position ba + zlen buf <= Z.of_nat (length (m_nodes ba)) * m_baseSize ba ->
  (length buf <= fuel)%nat ->
  exists ns cur,
    write_loop fuel ba npos (m_baseSize ba - npos) buf =
      Ok (mkByteArray (m_baseSize ba) (m_position ba + zlen buf) (m_capacity ba) (m_size ba)
            (m_endian ba) ns cur) /\
    blocks_ok (m_baseSize ba) ns /\ length ns = length (m_nodes ba) /\
    concat ns = splice (pos ba) buf (flat ba) /\
    cur_ok (m_baseSize ba) (length ns) (m_position ba + zlen buf) cur.
Proof.
  induction fuel as [|fuel IH]; intros ba c npos buf Hb Hbl Hcur Hc Hnpos Hp Hlen Hfit Hfuel.
  { unfold zlen in Hlen. lia. }
  destruct (lookup_lt_is_Some_2 _ _ Hc) as [nd Hnd].
  pose proof (blocks_lookup _ _ _ _ Hbl Hnd) as Hndl.
  unfold pos, flat. set (b := m_baseSize ba) in *.
  cbn [write_loop]. zcases; rewrite Hcur; cbn [deref]; rewrite Hnd; cbn [deref].
  - (* the rest fits in the current block *)
    destruct (block_update b (m_nodes ba) c nd npos buf) as (-> & Hns & Hl & Hcc); [done || lia..|].
    cbn [obind]. rewrite <- Hp in Hcc.
    destruct (Z.eqb_spec (zlen nd) (npos + zlen buf)) as [E|E];
      (eexists _, _; split; [destruct fuel; reflexivity|]; cbn; split_and!; try done).
    + apply next_of_cur_ok; rewrite ?Hl; lia.
    + rewrite Hcur, Hl. cbn. lia.
  - (* fill the current block and go on with the next *)
    set (n := Z.to_nat (b - npos)).
    assert (Hn : zlen (take n buf) = b - npos) by (unfold zlen in *; rewrite length_take; lia).
    assert (Hdrop : zlen (drop n buf) = zlen buf - (b - npos))
      by (unfold zlen in *; rewrite length_drop; lia).
    destruct (block_update b (m_nodes ba) c nd npos (take n buf)) as (-> & Hns & Hl & Hcc);
      [done || lia..|].
    cbn [obind m_nodes with_cur with_position with_nodes m_cur m_position].
    rewrite <- Hp in Hcc. set (ns := <[c := splice (Z.to_nat npos) (take n buf) nd]> _) in *.
    edestruct (next_block b ns c npos (m_position ba) (zlen buf))
      as (nd2 & -> & Hnd2 & Hl2 & Hcn & Hp2); rewrite ?Hl; try done.
    cbn [deref]. rewrite Hnd2. cbn [deref]. rewrite Hl2.
    edestruct (IH (with_cur (with_position (with_nodes ba ns) (m_position ba + (b - npos))) (Some (S c)))
                 (S c) 0 (drop n buf)) as (ns' & cur' & E & R1 & R2 & R3 & R4);
      cbn -[Z.of_nat]; rewrite ?Hdrop, ?Hl; try done; try lia.
    { unfold zlen in *. rewrite length_drop. lia. }
    cbn -[Z.of_nat write_loop] in E, R1, R2, R3, R4. rewrite Z.sub_0_r in E. fold b in E, R1, R4.
    replace (m_position ba + (b - npos) + zlen (drop n buf)) with (m_position ba + zlen buf) in * by lia.
    eexists _, _. split; [exact E|]. split_and!; [done|lia| |done].
    unfold pos, flat in R3. cbn -[Z.of_nat] in R3. rewrite R3, Hcc.
    replace (Z.to_nat (m_position ba + (b - npos))) with (pos ba + length (take n buf))%nat
      by (unfold pos, zlen in *; lia).
    unfold pos. rewrite splice_splice; [by rewrite take_drop|].
    pose proof (blocks_length b (m_nodes ba) Hbl). unfold zlen in *. lia.
Qed.

Lemma read_loop_spec fuel : forall ba c npos size acc,
  0 < m_baseSize ba -> blocks_ok (m_baseSize ba) (m_nodes ba) ->
  m_cur ba = Some c -> (c < length (m_nodes ba))%nat ->
  0 <= npos < m_baseSize ba -> m_position ba = Z.of_nat c * m_baseSize ba + npos ->
  0 < size -> m_position ba + size <= Z.of_nat (length (m_nodes ba)) * m_baseSize ba ->
  (Z.to_nat size <= fuel)%nat ->
  exists cur,
    read_loop fuel ba npos (m_baseSize ba - npos) size acc =
      Ok (acc ++ slice (pos ba) (Z.to_nat size) (flat ba),
          with_cur (with_position ba (m_position ba + size)) cur) /\
    cur_ok (m_baseSize ba) (length (m_nodes ba)) (m_position ba + size) cur.
Proof.
  induction fuel as [|fuel IH]; intros ba c npos size acc Hb Hbl Hcur Hc Hnpos Hp Hlen Hfit Hfuel.
  { lia. }
  destruct (lookup_lt_is_Some_2 _ _ Hc) as [nd Hnd].
  pose proof (blocks_lookup _ _ _ _ Hbl Hnd) as Hndl.
  unfold pos, flat. set (b := m_baseSize ba) in *.
  cbn [read_loop]. zcases; rewrite Hcur; cbn [deref]; rewrite Hnd; cbn [deref].
  - rewrite (block_read b (m_nodes ba) c), <- Hp by (done || lia). cbn [obind].
    destruct (Z.eqb_spec (zlen nd) (npos + size)) as [E|E];
      (eexists _; split; [destruct fuel; reflexivity|]).
    + apply next_of_cur_ok; lia.
    + cbn. rewrite Hcur. cbn. lia.
  - rewrite (block_read b (m_nodes ba) c), <- Hp by (done || lia). cbn [obind].
    destruct (next_block b (m_nodes ba) c npos (m_position ba) size)
      as (nd2 & En & Hnd2 & Hl2 & Hcn & Hp2); [done || lia..|].
    cbn [m_nodes with_cur with_position m_cur m_position]. rewrite En. cbn [deref].
    rewrite Hnd2. cbn [deref]. rewrite Hl2.
    edestruct (IH (with_cur (with_position ba (m_position ba + (b - npos))) (Some (S c)))
      (S c) 0 (size - (b - npos))) as (cur' & E & R); cbn -[Z.of_nat]; try done; try lia.
    cbn -[Z.of_nat read_loop] in E, R. rewrite Z.sub_0_r in E. fold b in E, R. rewrite E.
    replace (m_position ba + (b - npos) + (size - (b - npos))) with (m_position ba + size) in * by lia.
    exists cur'. split; [|done]. f_equal. f_equal. rewrite <- app_assoc. f_equal.
    unfold pos, flat. cbn [m_position m_nodes with_cur with_position].
    replace (Z.to_nat size) with (Z.to_nat (b - npos) + Z.to_nat (size - (b - npos)))%nat by lia.
    rewrite slice_split. do 2 f_equal. lia.
Qed.

(** ** The operations on well-formed arrays *)

(** The offset of the cursor in its block. *)
Lemma cur_offset b k p c :
  cur_ok b k p (Some c) ->
  p mod b = p - Z.of_nat c * b /\ 0 <= p mod b < b /\ p = Z.of_nat c * b + p mod b.
Proof.
  intros [Hc Hp]. assert (p mod b = p - Z.of_nat c * b) as ->; [|lia].
  symmetry. apply Z.mod_unique_pos with (Z.of_nat c); lia.
Qed.

(** A well-formed array whose position is not at the end of its memory has a
    current block. *)
Lemma wf_current ba :
  wf ba -> m_position ba < m_capacity ba ->
  exists c nd, m_cur ba = Some c /\ m_nodes ba !! c = Some nd /\ (c < length (m_nodes ba))%nat /\
    umod (m_position ba) (m_baseSize ba) = Ok (m_position ba mod m_baseSize ba) /\
    0 <= m_position ba mod m_baseSize ba < m_baseSize ba /\
    m_position ba = Z.of_nat c * m_baseSize ba + m_position ba mod m_baseSize ba /\
    u64 (zlen nd - m_position ba mod m_baseSize ba) = m_baseSize ba - m_position ba mod m_baseSize ba.
Proof.
  intros W Hlt. pose proof (wf_cur _ W) as Hcur. pose proof (wf_base _ W).
  destruct (m_cur ba) as [c|]; [|pose proof (wf_capacity _ W); unfold cur_ok in Hcur; lia].
  pose proof (cur_offset _ _ _ _ Hcur) as (_ & Ho & Hp). destruct Hcur as [Hc _].
  destruct (lookup_lt_is_Some_2 _ _ Hc) as [nd Hnd]. exists c, nd.
  pose proof (blocks_lookup _ _ _ _ (wf_blocks _ W) Hnd) as Hl.
  split_and!; try done; try lia.
  - unfold umod. destruct (Z.eqb_spec (m_baseSize ba) 0); [lia|done].
  - rewrite Hl. apply uwrap_small.
    pose proof (wf_limit _ W). pose proof (wf_capacity _ W). pose proof (wf_nonempty _ W).
    unfold SIZE_LIMIT in *. change (2 ^ 64) with (2048 * 2 ^ 53). nia.
Qed.

Lemma getReadSize_wf ba : wf ba -> ByteArray_getReadSize ba = m_size ba - m_position ba.
Proof.
  intros []. apply uwrap_small. unfold SIZE_LIMIT in *. change (2 ^ 64) with (2048 * 2 ^ 53). lia.
Qed.

Lemma getCapacity_wf ba : wf ba -> ByteArray_getCapacity ba = m_capacity ba - m_position ba.
Proof.
  intros []. apply uwrap_small. unfold SIZE_LIMIT in *. change (2 ^ 64) with (2048 * 2 ^ 53). lia.
Qed.

Lemma add_nodes_spec junk count base : forall ns,
  0 <= base -> blocks_ok base ns ->
  let ns' := add_nodes junk count base ns in
  blocks_ok base ns' /\ length ns' = (length ns + count)%nat /\
  exists extra, concat ns' = concat ns ++ extra.
Proof.
  induction count as [|count IH]; intros ns Hb Hbl ns'; subst ns'; simpl.
  { split_and!; [done|lia|]. exists []. by rewrite app_nil_r. }
  destruct (IH (ns ++ [Node_new junk (length ns) base])) as (H1 & H2 & extra & H3); [done|..].
  - apply Forall_app. split; [done|]. constructor; [|constructor].
    unfold zlen, Node_new. rewrite length_map, length_seq. lia.
  - rewrite length_app in H2. split_and!; [done|simpl in H2; lia|].
    rewrite H3, concat_app, <- app_assoc. eauto.
Qed.

(** The memory of [ba'] extends that of [ba]; everything else is as before. *)
Definition grown (ba ba' : ByteArray) : Prop :=
  wf ba' /\ m_baseSize ba' = m_baseSize ba /\ m_position ba' = m_position ba /\
  m_size ba' = m_size ba /\ m_endian ba' = m_endian ba /\
  (exists extra, flat ba' = flat ba ++ extra) /\ contents ba' = contents ba.

(** [ceil(n / b)] blocks of [b] bytes hold [n] bytes, and no block is spare. *)
Lemma ceil_div n b :
  0 < b -> 0 < n -> 0 < (n + b - 1) / b /\ n <= (n + b - 1) / b * b < n + b.
Proof.
  intros. pose proof (Z.div_mod (n + b - 1) b). pose proof (Z.mod_pos_bound (n + b - 1) b).
  split; [apply Z.div_str_pos; lia|lia].
Qed.

Lemma addCapacity_spec junk ba n :
  wf ba -> 0 < n -> m_position ba + n + m_baseSize ba <= SIZE_LIMIT ->
  exists ba', ByteArray_addCapacity junk ba n = Ok ba' /\ grown ba ba' /\
    m_position ba + n <= m_capacity ba'.
Proof.
  intros W Hn Hlim. unfold ByteArray_addCapacity. rewrite (getCapacity_wf _ W).
  pose proof W as [Hb Hbl Hne Hcap Hl Hp Hs Hcur He]. zcases.
  { exists ba. unfold grown. split_and!; try done; [|lia]. exists []. by rewrite app_nil_r. }
  all: set (count := (n - (m_capacity ba - m_position ba) + m_baseSize ba - 1) / m_baseSize ba).
  all: pose proof (ceil_div (n - (m_capacity ba - m_position ba)) (m_baseSize ba) Hb ltac:(lia)) as Hcount;
         fold count in Hcount.
  all: destruct (add_nodes_spec junk (Z.to_nat count) (m_baseSize ba) (m_nodes ba))
         as (H1 & H2 & extra & H3); [lia|done|].
  all: eexists; split; [reflexivity|]; unfold grown, contents, flat; cbn [m_baseSize m_position
         m_capacity m_size m_endian m_nodes m_cur]; rewrite H3; split_and!; try done; eauto; try lia.
  1,3: constructor; cbn; rewrite ?H2; try done; try lia.
  - unfold cur_ok in *. destruct (m_cur ba); lia.
  - rewrite take_app_le; [done|]. pose proof (length_flat ba W). unfold flat, zlen in *. lia.
  - rewrite take_app_le; [done|]. pose proof (length_flat ba W). unfold flat, zlen in *. lia.
Qed.

(** Beyond the current block the memory is one sequence: [write] overwrites the
    [contents] from the position on. *)
Record wrote (ba ba' : ByteArray) (bs : bytes) : Prop := {
  wrote_wf : wf ba';
  wrote_contents : contents ba' = splice (pos ba) bs (contents ba);
  wrote_position : m_position ba' = m_position ba + zlen bs;
  wrote_base : m_baseSize ba' = m_baseSize ba;
  wrote_endian : m_endian ba' = m_endian ba
}.

Lemma pos_contents ba : wf ba -> (pos ba <= length (contents ba))%nat.
Proof. intros W. pose proof (length_contents ba W). destruct W. unfold pos, zlen in *. lia. Qed.

Lemma wrote_refl ba : wf ba -> wrote ba ba [].
Proof. intros. constructor; rewrite ?splice_nil; try done. unfold zlen. simpl. lia. Qed.

Lemma wrote_trans ba ba1 ba2 bs1 bs2 :
  wf ba -> wrote ba ba1 bs1 -> wrote ba1 ba2 bs2 -> wrote ba ba2 (bs1 ++ bs2).
Proof.
  intros W H1 H2. destruct H2 as [W2 C2 P2 B2 E2]. destruct H1 as [W1 C1 P1 B1 E1].
  constructor; [done| |rewrite zlen_app; lia|congruence|congruence].
  assert (pos ba1 = pos ba + length bs1)%nat as Ep.
  { pose proof (wf_position _ W). unfold pos, zlen in *. lia. }
  rewrite C2, C1, Ep. apply splice_splice. by apply pos_contents.
Qed.

(** The capacity a write may need, within [SIZE_LIMIT]. *)
Definition room (ba : ByteArray) (n : Z) : Prop := m_position ba + n + m_baseSize ba <= SIZE_LIMIT.

Lemma write_wrote junk ba buf :
  wf ba -> room ba (zlen buf) ->
  exists ba', ByteArray_write junk ba buf = Ok ba' /\ wrote ba ba' buf.
Proof.
  intros W Hlim. unfold ByteArray_write.
  assert (Hz : 0 <= zlen buf) by (unfold zlen; lia).
  destruct (Z.eqb_spec (zlen buf) 0) as [E|E].
  { assert (buf = []) as -> by (destruct buf; [done|unfold zlen in E; simpl in E; lia]).
    eauto using wrote_refl. }
  destruct (addCapacity_spec junk ba (zlen buf)) as (ba1 & -> & G & Hc); [done|lia|done|].
  destruct G as (W1 & Eb & Ep & Es & Ee & [extra Ef] & Ec). cbn [obind].
  destruct (wf_current ba1 W1) as (c & nd & Hcur & Hnd & Hclt & -> & Ho & Hp & Hu); [lia|].
  cbn [obind]. rewrite Hcur. cbn [deref]. rewrite Hnd. cbn [deref]. rewrite Hu.
  pose proof W1 as [Hb Hbl Hne Hcap Hl Hpp Hs Hcc He].
  destruct (write_loop_spec (length buf) ba1 c (m_position ba1 mod m_baseSize ba1) buf)
    as (ns & cur & -> & H1 & H2 & H3 & H4); try done; try lia.
  cbn [obind m_size m_position].
  pose proof (length_flat ba1 W1) as Hlf. pose proof (wf_position _ W) as Hwp.
  assert (Hsz : forall s, s = Z.max (m_size ba1) (m_position ba1 + zlen buf) ->
     wrote ba (mkByteArray (m_baseSize ba1) (m_position ba1 + zlen buf) (m_capacity ba1) s
        (m_endian ba1) ns cur) buf).
  { intros s ->. constructor; cbn; try congruence; try lia.
    - constructor; cbn; rewrite ?H2; try done; try lia. by rewrite H2 in H4.
    - rewrite <- Ec. unfold contents, flat. cbn [m_size m_nodes]. rewrite H3.
      replace (Z.to_nat (Z.max _ _)) with (Nat.max (Z.to_nat (m_size ba1)) (pos ba1 + length buf))
        by (unfold pos, zlen in *; lia).
      assert (pos ba = pos ba1) as -> by (unfold pos; congruence).
      apply take_splice; unfold pos, flat, zlen in *; lia. }
  destruct (Z.ltb_spec (m_size ba1) (m_position ba1 + zlen buf));
    (eexists; split; [reflexivity|]); apply Hsz; lia.
Qed.

(** What [read] leaves behind: the same bytes, the position moved on. *)
Record consumed (ba ba' : ByteArray) (n : Z) : Prop := {
  consumed_wf : wf ba';
  consumed_contents : contents ba' = contents ba;
  consumed_position : m_position ba' = m_position ba + n;
  consumed_base : m_baseSize ba' = m_baseSize ba;
  consumed_endian : m_endian ba' = m_endian ba;
  consumed_capacity : m_capacity ba' = m_capacity ba
}.

Lemma consumed_refl ba : wf ba -> consumed ba ba 0.
Proof. intros. constructor; done || lia. Qed.

Lemma consumed_trans ba ba1 ba2 n1 n2 :
  consumed ba ba1 n1 -> consumed ba1 ba2 n2 -> consumed ba ba2 (n1 + n2).
Proof. intros [] []. constructor; try congruence; try lia; done. Qed.

Lemma read_consumed ba n :
  wf ba -> 0 < n <= m_size ba - m_position ba ->
  exists ba', ByteArray_read ba n = Ok (slice (pos ba) (Z.to_nat n) (contents ba), ba') /\
    consumed ba ba' n.
Proof.
  intros W Hn. unfold ByteArray_read. rewrite (getReadSize_wf _ W). zcases.
  pose proof W as [Hb Hbl Hne Hcap Hl Hpp Hs Hcc He].
  destruct (wf_current ba W) as (c & nd & Hcur & Hnd & Hclt & -> & Ho & Hp & Hu); [lia|].
  cbn [obind]. rewrite Hcur. cbn [deref]. rewrite Hnd. cbn [deref]. rewrite Hu.
  destruct (read_loop_spec (Z.to_nat n) ba c (m_position ba mod m_baseSize ba) n [])
    as (cur & -> & H4); try done; try lia.
  eexists. cbn [app]. split.
  - unfold contents. rewrite slice_take; [reflexivity|unfold pos; lia].
  - constructor; cbn; try done. constructor; cbn; try done; lia.
Qed.
