(* ===== verification/ByteArraySpec.v ===== *)
(** * What a [ByteArray] promises

    The abstract value of an array is one byte sequence and a position in it.
    This file states the container's operations on that value ([spec_step]),
    proves that the block-wise code of [ByteArray.v] implements it for every
    sequence of operations, and that the buffers handed to scattered I/O
    ([getReadBuffers], [getWriteBuffers]) denote the right bytes. *)

From S2P Require Import Prelude Endian ByteArray.
From Stdlib Require Import ZArith Lia List.
From stdpp Require Import base tactics list numbers option.

Open Scope Z_scope.

(** ** The remaining operations on well-formed arrays *)

Lemma setPosition_loop_spec b ns fuel : forall c val,
  0 < b -> blocks_ok b ns -> (c < length ns)%nat -> (length ns - c <= fuel)%nat ->
  0 <= val -> Z.of_nat c * b + val <= Z.of_nat (length ns) * b ->
  exists cur, setPosition_loop fuel ns (Some c) val = Ok cur /\
    cur_ok b (length ns) (Z.of_nat c * b + val) cur.
Proof.
  induction fuel as [|fuel IH]; intros c val Hb Hbl Hc Hf Hv Hle; [lia|].
  destruct (lookup_lt_is_Some_2 _ _ Hc) as [nd Hnd].
  pose proof (blocks_lookup _ _ _ _ Hbl Hnd) as Hl.
  cbn [setPosition_loop deref]. rewrite Hnd. cbn [deref]. rewrite Hl. zcases.
  - assert (Hcn : (S c < length ns)%nat) by nia.
    unfold next_of. rewrite (proj2 (Nat.ltb_lt _ _) Hcn).
    destruct (IH (S c) (val - b)) as (cur & -> & Hcur); try done; try lia.
    exists cur. split; [done|]. replace (Z.of_nat c * b + val) with (Z.of_nat (S c) * b + (val - b)) by lia.
    done.
  - eexists. split; [done|]. subst val. apply next_of_cur_ok; done.
  - eexists. split; [done|]. cbn. lia.
Qed.

Lemma setPosition_spec ba v :
  wf ba -> 0 <= v <= m_capacity ba ->
  exists ba', ByteArray_setPosition ba v = Ok ba' /\ wf ba' /\
    m_position ba' = v /\ m_size ba' = Z.max (m_size ba) v /\ flat ba' = flat ba /\
    m_baseSize ba' = m_baseSize ba /\ m_endian ba' = m_endian ba /\ m_capacity ba' = m_capacity ba.
Proof.
  intros W Hv. pose proof W as [Hb Hbl Hne Hcap Hl Hp Hs Hcur He].
  unfold ByteArray_setPosition. destruct (Z.ltb_spec (m_capacity ba) v); [lia|].
  destruct (setPosition_loop_spec (m_baseSize ba) (m_nodes ba) (length (m_nodes ba)) 0 v)
    as (cur & E & Hc); try done; try lia.
  cbn -[setPosition_loop].
  destruct (Z.ltb_spec (m_size ba) v); cbn -[setPosition_loop]; rewrite E; cbn [obind];
    (eexists; split; [reflexivity|]); cbn;
    (split; [constructor; cbn; done || lia|]); split_and!; done || lia.
Qed.

(** Within the data, [setPosition] only moves the position. *)
Lemma setPosition_within ba v :
  wf ba -> 0 <= v <= m_size ba ->
  exists ba', ByteArray_setPosition ba v = Ok ba' /\ wf ba' /\ m_position ba' = v /\
    contents ba' = contents ba /\ m_baseSize ba' = m_baseSize ba /\ m_endian ba' = m_endian ba /\
    m_capacity ba' = m_capacity ba.
Proof.
  intros W Hv. pose proof (wf_size _ W).
  destruct (setPosition_spec ba v W) as (ba' & E & W' & P & S & F & B & En & C); [lia|].
  exists ba'. split_and!; try done. unfold contents. rewrite F, S. f_equal. lia.
Qed.

Lemma new_wf junk base :
  0 < base <= SIZE_LIMIT -> wf (ByteArray_new junk base) /\ contents (ByteArray_new junk base) = [].
Proof.
  intros. split; [|apply take_0].
  constructor; cbn; try done || lia.
  - constructor; [|constructor]. unfold zlen, Node_new. rewrite length_map, length_seq. lia.
  - right; done.
Qed.

Lemma clear_wf ba : wf ba -> wf (ByteArray_clear ba) /\ contents (ByteArray_clear ba) = [].
Proof.
  intros [Hb Hbl Hne Hcap Hl Hp Hs Hcur He]. split; [|apply take_0].
  assert (length (take 1 (m_nodes ba)) = 1%nat) as E by (rewrite length_take; lia).
  constructor; cbn -[take]; rewrite ?E; try done || lia.
  - by apply Forall_take.
  - nia.
Qed.

(** A write grows the memory by at most its own length and one block. *)
Lemma write_capacity junk ba buf ba' :
  wf ba -> room ba (zlen buf) -> ByteArray_write junk ba buf = Ok ba' ->
  m_capacity ba' <= m_capacity ba + zlen buf + m_baseSize ba.
Proof.
  intros W Hr E. destruct (write_wrote junk ba buf W Hr) as (ba1 & E1 & Wr).
  rewrite E in E1. injection E1 as <-. pose proof (wf_base _ W) as Hb.
  revert E. unfold ByteArray_write.
  assert (Hz : 0 <= zlen buf) by (unfold zlen; lia).
  destruct (Z.eqb_spec (zlen buf) 0) as [Ez|Ez]; [intros [= <-]; lia|].
  destruct (addCapacity_spec junk ba (zlen buf)) as (ba1 & Eadd & G & Hc); [done|lia|done|].
  rewrite Eadd. destruct G as (W1 & Eb & Ep & Es & Ee & _ & Ec). cbn [obind].
  destruct (wf_current ba1 W1) as (c & nd & Hcur & Hnd & Hclt & -> & Ho & Hp & Hu); [lia|].
  cbn [obind]. rewrite Hcur. cbn [deref]. rewrite Hnd. cbn [deref]. rewrite Hu.
  pose proof W1 as [Hb1 Hbl Hne Hcap Hl Hpp Hs Hcc He].
  destruct (write_loop_spec (length buf) ba1 c (m_position ba1 mod m_baseSize ba1) buf)
    as (ns & cur & -> & H1 & H2 & H3 & H4); try done; try lia.
  cbn [obind m_size m_position]. intros E. assert (m_capacity ba' = m_capacity ba1) as ->.
  { destruct (_ <? _); injection E as <-; done. }
  revert Eadd. unfold ByteArray_addCapacity. rewrite (getCapacity_wf _ W). zcases.
  { intros [= <-]. lia. }
  all: intros [= <-]; cbn [m_capacity]; pose proof (wf_position _ W); pose proof (wf_size _ W);
    pose proof (ceil_div (zlen buf - (m_capacity ba - m_position ba)) (m_baseSize ba) Hb ltac:(lia)); lia.
Qed.

(** ** The abstract container and the simulation *)

Record buffer := mkBuffer { b_data : bytes; b_pos : nat }.

(** The container operations a client can issue. *)
Inductive op :=
| OWrite (d : bytes)
| ORead (n : Z)
| OSeek (v : Z)
| OClear.

(** What an operation answers: bytes (none but for a read), or an exception. *)
Definition answer : Type := bytes + exn.

(** The promise.  Seeking past the data either fails or exposes bytes whose
    values are not promised. *)
Inductive spec_step : buffer -> op -> answer -> buffer -> Prop :=
| SWrite a d : spec_step a (OWrite d) (inl []) (mkBuffer (splice (b_pos a) d (b_data a)) (b_pos a + length d))
| SRead a n : Z.of_nat (b_pos a) + n <= zlen (b_data a) ->
    spec_step a (ORead n) (inl (slice (b_pos a) (Z.to_nat n) (b_data a)))
      (mkBuffer (b_data a) (b_pos a + Z.to_nat n))
| SReadFail a n : zlen (b_data a) < Z.of_nat (b_pos a) + n -> spec_step a (ORead n) (inr out_of_range) a
| SSeek a v : v <= zlen (b_data a) -> spec_step a (OSeek v) (inl []) (mkBuffer (b_data a) (Z.to_nat v))
| SSeekGrow a v extra : zlen (b_data a ++ extra) = v ->
    spec_step a (OSeek v) (inl []) (mkBuffer (b_data a ++ extra) (Z.to_nat v))
| SSeekFail a v : zlen (b_data a) < v -> spec_step a (OSeek v) (inr out_of_range) a
| SClear a : spec_step a OClear (inl []) (mkBuffer [] 0).

Inductive spec_run : buffer -> list op -> list answer -> buffer -> Prop :=
| spec_nil a : spec_run a [] [] a
| spec_cons a o r a1 os rs a2 :
    spec_step a o r a1 -> spec_run a1 os rs a2 -> spec_run a (o :: os) (r :: rs) a2.

Section simulation.
Variable junk : nat -> nat -> Z.

(** An exception of the code leaves the object as it was: both throwing
    operations test before they change anything. *)
Definition catch {A} (ba : ByteArray) (m : outcome A) (k : A -> outcome (answer * ByteArray))
    : outcome (answer * ByteArray) :=
  match m with
  | Throw e => Ok (inr e, ba)
  | m => obind m k
  end.

Definition exec (ba : ByteArray) (o : op) : outcome (answer * ByteArray) :=
  match o with
  | OWrite d => catch ba (ByteArray_write junk ba d) (fun ba' => Ok (inl [], ba'))
  | ORead n => catch ba (ByteArray_read ba n) (fun '(d, ba') => Ok (inl d, ba'))
  | OSeek v => catch ba (ByteArray_setPosition ba v) (fun ba' => Ok (inl [], ba'))
  | OClear => Ok (inl [], ByteArray_clear ba)
  end.

Fixpoint exec_all (ba : ByteArray) (os : list op) : outcome (list answer * ByteArray) :=
  match os with
  | [] => Ok ([], ba)
  | o :: os =>
    let! (r, ba) := exec ba o in
    let! (rs, ba) := exec_all ba os in
    Ok (r :: rs, ba)
  end.

Definition abs (ba : ByteArray) : buffer := mkBuffer (contents ba) (pos ba).

(** Sizes are unsigned. *)
Definition op_ok (o : op) : Prop :=
  match o with ORead n => 0 <= n | OSeek v => 0 <= v | _ => True end.

(** The one operation that is undefined: [read] computes the room of the current
    block before it looks at the size, and with the position at the end of the
    last block there is no current block. *)
Definition op_undefined (ba : ByteArray) (o : op) : Prop :=
  o = ORead 0 /\ m_position ba = m_capacity ba.

(** The memory the operations can ask for. *)
Definition op_cost (base : Z) (o : op) : Z :=
  match o with OWrite d => zlen d + base | _ => 0 end.
Definition ops_cost (base : Z) (os : list op) : Z := foldr (fun o a => op_cost base o + a) 0 os.

Lemma exec_write ba d :
  wf ba -> m_capacity ba + op_cost (m_baseSize ba) (OWrite d) <= SIZE_LIMIT ->
  exists ba', exec ba (OWrite d) = Ok (inl [], ba') /\ wf ba' /\ m_baseSize ba' = m_baseSize ba /\
    m_capacity ba' <= m_capacity ba + op_cost (m_baseSize ba) (OWrite d) /\
    spec_step (abs ba) (OWrite d) (inl []) (abs ba').
Proof.
  cbn [op_cost]. intros W Hc.
  assert (Hr : room ba (zlen d)).
  { unfold room. pose proof (wf_position _ W). pose proof (wf_size _ W). lia. }
  destruct (write_wrote junk ba d W Hr) as (ba' & E & Wr).
  pose proof (write_capacity junk ba d ba' W Hr E). destruct Wr as [W' C P B _].
  exists ba'. unfold exec. rewrite E. split_and!; try done; try lia.
  unfold abs at 2. rewrite C.
  replace (pos ba') with (pos ba + length d)%nat; [apply (SWrite (abs ba))|].
  pose proof (wf_position _ W). unfold pos, zlen in *. lia.
Qed.

Lemma exec_read ba n :
  wf ba -> 0 < n ->
  exists r ba', exec ba (ORead n) = Ok (r, ba') /\ wf ba' /\ m_baseSize ba' = m_baseSize ba /\
    m_capacity ba' = m_capacity ba /\ spec_step (abs ba) (ORead n) r (abs ba').
Proof.
  intros W Hn. pose proof (length_contents ba W) as Hlc. pose proof (wf_position _ W).
  destruct (Z.le_gt_cases n (m_size ba - m_position ba)).
  - destruct (read_consumed ba n W) as (ba' & E & R); [lia|].
    eexists _, ba'. unfold exec. rewrite E. cbn. destruct R as [W' C P B En Cp].
    split_and!; try done. unfold abs. rewrite C.
    replace (pos ba') with (pos ba + Z.to_nat n)%nat by (unfold pos; lia).
    apply (SRead (mkBuffer _ _)). cbn. unfold pos. lia.
  - exists (inr out_of_range), ba. unfold exec, ByteArray_read. rewrite (getReadSize_wf _ W).
    zcases. split_and!; try done. constructor. cbn. unfold pos. lia.
Qed.

(** A read of nothing. *)
Lemma exec_read_zero ba :
  wf ba ->
  if decide (m_position ba = m_capacity ba) then exec ba (ORead 0) = UB
  else exec ba (ORead 0) = Ok (inl [], ba) /\ spec_step (abs ba) (ORead 0) (inl []) (abs ba).
Proof.
  intros W. pose proof (wf_position _ W). pose proof (wf_size _ W). pose proof (length_contents ba W) as Hlc.
  unfold exec, ByteArray_read. rewrite (getReadSize_wf _ W).
  destruct (Z.ltb_spec (m_size ba - m_position ba) 0); [lia|].
  destruct (decide _) as [E|E].
  - pose proof (wf_cur _ W) as Hcur. unfold umod. pose proof (wf_base _ W).
    destruct (Z.eqb_spec (m_baseSize ba) 0); [lia|]. cbn [obind].
    destruct (m_cur ba) as [c|]; [|done]. destruct Hcur as [Hc Hp]. rewrite (wf_capacity _ W) in E. nia.
  - destruct (wf_current ba W) as (c & nd & -> & Hnd & _ & -> & _); [lia|]. cbn [obind deref]. rewrite Hnd. cbn.
    split; [done|]. pose proof (SRead (abs ba) 0) as HS. cbn [Z.to_nat] in HS; unfold slice in HS; rewrite take_0, Nat.add_0_r in HS. apply HS. cbn. unfold pos. lia.
Qed.

Lemma exec_seek ba v :
  wf ba -> 0 <= v ->
  exists r ba', exec ba (OSeek v) = Ok (r, ba') /\ wf ba' /\ m_baseSize ba' = m_baseSize ba /\
    m_capacity ba' = m_capacity ba /\ spec_step (abs ba) (OSeek v) r (abs ba').
Proof.
  intros W Hv. pose proof (length_contents ba W) as Hlc. pose proof (wf_size _ W).
  destruct (Z.le_gt_cases v (m_size ba)) as [Hle|Hgt]; [|destruct (Z.le_gt_cases v (m_capacity ba))].
  - destruct (setPosition_within ba v W) as (ba' & E & W' & P & C & B & En & Cp); [lia|].
    exists (inl []), ba'. unfold exec. rewrite E. split_and!; try done.
    unfold abs. rewrite C. unfold pos at 2. rewrite P. constructor. cbn. lia.
  - destruct (setPosition_spec ba v W) as (ba' & E & W' & P & S & F & B & En & Cp); [lia|].
    exists (inl []), ba'. unfold exec. rewrite E. split_and!; try done.
    assert (Ec : contents ba' = contents ba ++ drop (Z.to_nat (m_size ba)) (contents ba')).
    { rewrite <- (take_drop (Z.to_nat (m_size ba)) (contents ba')) at 1. f_equal.
      unfold contents. rewrite take_take, F. f_equal. pose proof (wf_position _ W). lia. }
    unfold abs at 2. rewrite Ec. unfold pos. rewrite P. constructor. cbn. rewrite <- Ec.
    rewrite (length_contents _ W'). lia.
  - exists (inr out_of_range), ba. unfold exec, ByteArray_setPosition.
    destruct (Z.ltb_spec (m_capacity ba) v); [|lia]. split_and!; try done. constructor. cbn. lia.
Qed.

Lemma exec_step ba o :
  wf ba -> op_ok o -> m_capacity ba + op_cost (m_baseSize ba) o <= SIZE_LIMIT ->
  op_undefined ba o /\ exec ba o = UB \/
  ~ op_undefined ba o /\
  exists r ba', exec ba o = Ok (r, ba') /\ wf ba' /\ m_baseSize ba' = m_baseSize ba /\
    m_capacity ba' <= m_capacity ba + op_cost (m_baseSize ba) o /\
    spec_step (abs ba) o r (abs ba').
Proof.
  intros W Ho Hc. destruct o as [d|n|v|].
  - right. split; [by intros []|]. destruct (exec_write ba d W Hc) as (ba' & ?). eauto.
  - cbn [op_ok] in Ho. destruct (Z.eq_dec n 0) as [->|Hn].
    + pose proof (exec_read_zero ba W) as Hz. destruct (decide _) as [E|E]; [by left|right].
      split; [by intros []|]. destruct Hz as [Hz HS]. exists (inl []), ba. cbn [op_cost]. split_and!; done || lia.
    + right. split; [by intros [[=] _]|].
      destruct (exec_read ba n W) as (r & ba' & ? & ? & ? & ? & ?); [lia|]. exists r, ba'. cbn [op_cost].
      split_and!; done || lia.
  - right. split; [by intros []|]. destruct (exec_seek ba v W Ho) as (r & ba' & ? & ? & ? & ? & ?). exists r, ba'. cbn [op_cost].
    split_and!; done || lia.
  - right. split; [by intros []|]. exists (inl []), (ByteArray_clear ba). destruct (clear_wf ba W) as [W' C].
    split_and!; try done.
    + cbn. pose proof (wf_capacity _ W). pose proof (wf_base _ W). pose proof (wf_nonempty _ W). nia.
    + unfold abs at 2. rewrite C. constructor.
Qed.

Lemma ops_cost_nonneg b os : 0 < b -> 0 <= ops_cost b os.
Proof.
  intros Hb. unfold ops_cost. induction os as [|[] os IH]; cbn in *; unfold zlen; lia.
Qed.

(** C4: [ByteArray]'s block-wise [write], [read], [setPosition] and [clear]
    implement one flat byte sequence with a position.  A sequence of operations
    with unsigned sizes that needs at most [SIZE_LIMIT] bytes of memory runs to
    its end, and its answers (the bytes read, the [out_of_range] exceptions) and
    its final state are ones the abstract container allows; the one exception is
    a [read] of size 0 with the position at the end of the last block, which is
    undefined behaviour, after a prefix that did what the container allows. *)
Theorem ByteArray_refines (os : list op) : forall ba,
  wf ba -> Forall op_ok os -> m_capacity ba + ops_cost (m_baseSize ba) os <= SIZE_LIMIT ->
  (exists rs ba', exec_all ba os = Ok (rs, ba') /\ wf ba' /\ spec_run (abs ba) os rs (abs ba')) \/
  (exists os1 os2 rs ba1, os = os1 ++ ORead 0 :: os2 /\ exec_all ba os1 = Ok (rs, ba1) /\ wf ba1 /\
     spec_run (abs ba) os1 rs (abs ba1) /\ m_position ba1 = m_capacity ba1 /\ exec_all ba os = UB).
Proof.
  induction os as [|o os IH]; intros ba W Hok Hc.
  { left. exists [], ba. split_and!; [done..|constructor]. }
  apply Forall_cons_1 in Hok as [Ho Hok].
  change (ops_cost (m_baseSize ba) (o :: os)) with (op_cost (m_baseSize ba) o + ops_cost (m_baseSize ba) os) in Hc.
  pose proof (ops_cost_nonneg _ os (wf_base _ W)).
  destruct (exec_step ba o W Ho) as [[[-> Hu] E]|(_ & r & ba1 & E & W1 & B & C & S)]; [lia| |].
  { right. exists [], os, [], ba. cbn [exec_all]. rewrite E. split_and!; [done..|constructor|done|done]. }
  destruct (IH ba1 W1 Hok) as [(rs & ba2 & E2 & W2 & S2)|(os1 & os2 & rs & ba2 & -> & E2 & W2 & S2 & Hp & Eu)];
    [rewrite B; lia|left|right].
  - exists (r :: rs), ba2. cbn. rewrite E. cbn. rewrite E2. cbn. split_and!; try done. by econstructor.
  - exists (o :: os1), os2, (r :: rs), ba2. cbn. rewrite E. cbn. rewrite E2, Eu. cbn.
    split_and!; try done. by econstructor.
Qed.

End simulation.

(** Two blocks of four bytes, a write across the boundary, a read back and a
    failing read; then the same array read to its end and asked for nothing. *)
Lemma ByteArray_refines_witness :
  let ba := ByteArray_new (fun _ _ => 0) 4 in
  let os := [OWrite [1; 2; 3; 4; 5; 6]; OSeek 1; ORead 4; ORead 9; ORead 0; OClear] in
  (exists rs ba', exec_all (fun _ _ => 0) ba os = Ok (rs, ba') /\ wf ba' /\ spec_run (abs ba) os rs (abs ba')) /\
  exec_all (fun _ _ => 0) ba [OWrite [1; 2; 3; 4; 5; 6; 7; 8]; OSeek 8; ORead 0] = UB.
Proof.
  assert (W : wf (ByteArray_new (fun _ _ => 0) 4)) by (apply new_wf; unfold SIZE_LIMIT; lia).
  split; [|vm_compute; reflexivity].
  destruct (ByteArray_refines (fun _ _ => 0) [OWrite [1; 2; 3; 4; 5; 6]; OSeek 1; ORead 4; ORead 9; ORead 0; OClear]
              (ByteArray_new (fun _ _ => 0) 4) W) as [H|(os1 & os2 & rs & ba1 & _ & _ & _ & _ & _ & E)].
  - repeat constructor; cbn; lia.
  - vm_compute. discriminate.
  - exact H.
  - vm_compute in E. discriminate.
Defined.

(** ** Buffers for scattered I/O *)

(** The buffers [iovs] cover the flat memory from offset [p] without gaps. *)
Inductive covers (b : Z) (k : nat) : Z -> list iovec -> Z -> Prop :=
| covers_nil p : covers b k p [] 0
| covers_cons p c off len rest n :
    p = Z.of_nat c * b + off -> (c < k)%nat -> 0 <= off -> 0 < len -> off + len <= b ->
    covers b k (p + len) rest n -> covers b k p (mkIovec c off len :: rest) (len + n).

(** What [writev] takes out of the buffers, and what [readv] of [d] puts in. *)
Fixpoint gather (ns : list bytes) (iovs : list iovec) : outcome bytes :=
  match iovs with
  | [] => Ok []
  | v :: rest =>
    deref (ns !! iov_node v) (fun node =>
    let! d := memcpy_from node (iov_off v) (iov_len v) in
    let! ds := gather ns rest in
    Ok (d ++ ds))
  end.

Fixpoint scatter (ns : list bytes) (iovs : list iovec) (d : bytes) : outcome (list bytes) :=
  match iovs with
  | [] => Ok ns
  | v :: rest =>
    deref (ns !! iov_node v) (fun node =>
    let n := Z.to_nat (iov_len v) in
    let! node' := memcpy_to node (iov_off v) (take n d) in
    scatter (<[iov_node v := node']> ns) rest (drop n d))
  end.

Lemma iov_loop_covers b ns fuel : forall c npos len,
  0 < b -> blocks_ok b ns -> (c < length ns)%nat -> 0 <= npos < b -> 0 < len ->
  Z.of_nat c * b + npos + len <= Z.of_nat (length ns) * b -> (Z.to_nat len <= fuel)%nat ->
  exists iovs, iov_loop fuel ns (Some c) npos (b - npos) len = Ok iovs /\
    covers b (length ns) (Z.of_nat c * b + npos) iovs len.
Proof.
  induction fuel as [|fuel IH]; intros c npos len Hb Hbl Hc Hn Hlen Hfit Hf; [lia|].
  cbn [iov_loop deref]. zcases.
  - eexists. split; [done|]. replace len with (len + 0) at 2 by lia.
    constructor; try lia. constructor.
  - destruct (next_block b ns c npos (Z.of_nat c * b + npos) len)
      as (nd2 & -> & Hnd2 & Hl2 & Hcn & Hp2); [done || lia..|].
    cbn [deref]. rewrite Hnd2. cbn [deref]. rewrite Hl2.
    destruct (IH (S c) 0 (len - (b - npos))) as (r & E & R); try done; try lia.
    rewrite Z.sub_0_r in E. rewrite E. eexists. split; [done|].
    replace len with ((b - npos) + (len - (b - npos))) at 1 by lia.
    constructor; try lia. rewrite Hp2. done.
Qed.

Lemma gather_covers b ns p iovs n :
  0 < b -> blocks_ok b ns -> 0 <= p -> covers b (length ns) p iovs n ->
  0 <= n /\ gather ns iovs = Ok (slice (Z.to_nat p) (Z.to_nat n) (concat ns)).
Proof.
  intros Hb Hbl Hp H. induction H as [p|p c off len rest n Ep Hc Ho Hl Hle _ IH]; [done|].
  destruct IH as [Hn IH]; [lia|]. split; [lia|].
  destruct (lookup_lt_is_Some_2 _ _ Hc) as [nd Hnd].
  cbn [gather iov_node iov_off iov_len]. rewrite Hnd. cbn [deref].
  rewrite (block_read b ns c) by (done || lia). cbn [obind]. rewrite IH. cbn [obind].
  rewrite <- Ep, (Z2Nat.inj_add len n), slice_split by lia. do 3 f_equal. lia.
Qed.

Lemma covers_nonneg b k p iovs n : covers b k p iovs n -> 0 <= n.
Proof. induction 1; lia. Qed.

Lemma scatter_covers b p iovs n k :
  0 < b -> 0 <= p -> covers b k p iovs n ->
  forall ns d, blocks_ok b ns -> length ns = k -> zlen d <= n ->
  exists ns', scatter ns iovs d = Ok ns' /\ blocks_ok b ns' /\ length ns' = k /\
    concat ns' = splice (Z.to_nat p) d (concat ns).
Proof.
  intros Hb Hp H. induction H as [p|p c off len rest n Ep Hc Ho Hl Hle Hcov IH]; intros ns d Hbl Hk Hd.
  { assert (d = []) as -> by (destruct d; [done|unfold zlen in Hd; simpl in Hd; lia]).
    exists ns. rewrite splice_nil. done. }
  destruct (lookup_lt_is_Some_2 ns c) as [nd Hnd]; [lia|].
  cbn [scatter iov_node iov_off iov_len]. rewrite Hnd. cbn [deref].
  assert (Ht : zlen (take (Z.to_nat len) d) <= len) by (unfold zlen in *; rewrite length_take; lia).
  destruct (block_update b ns c nd off (take (Z.to_nat len) d)) as (-> & Hns & Hl' & Hcc);
    [done || lia..|].
  cbn [obind]. set (ns1 := <[c := _]> ns) in *.
  pose proof (covers_nonneg _ _ _ _ _ Hcov).
  destruct (IH ltac:(lia) ns1 (drop (Z.to_nat len) d)) as (ns' & -> & R1 & R2 & R3); [done|lia| |].
  { unfold zlen in *. rewrite length_drop. lia. }
  exists ns'. split_and!; try done. rewrite R3, Hcc, <- Ep.
  destruct (Nat.le_gt_cases (Z.to_nat len) (length d)) as [Hle'|Hgt].
  - replace (Z.to_nat (p + len)) with (Z.to_nat p + length (take (Z.to_nat len) d))%nat
      by (rewrite length_take; lia).
    rewrite splice_splice; [by rewrite take_drop|].
    pose proof (blocks_length b ns Hbl). unfold zlen in *. nia.
  - rewrite (drop_ge d), (take_ge d), splice_nil by lia. done.
Qed.

(** [getReadBuffers(buffers, len)] hands out buffers that together hold
    exactly the next [min len getReadSize()] unread bytes, in order. *)
Lemma ByteArray_getReadBuffers_gather ba len :
  wf ba -> 0 <= len < 2 ^ 64 ->
  let n := Z.min len (m_size ba - m_position ba) in
  exists iovs, ByteArray_getReadBuffers ba len = Ok (n, iovs) /\
    gather (m_nodes ba) iovs = Ok (slice (pos ba) (Z.to_nat n) (contents ba)).
Proof.
  intros W Hlen n. unfold ByteArray_getReadBuffers. rewrite (getReadSize_wf _ W).
  pose proof W as [Hb Hbl Hne Hcap Hl Hp Hs Hcc He].
  replace (if _ <? len then _ else _) with n by (unfold n; zcases).
  assert (En : n = Z.min len (m_size ba - m_position ba)) by done. clearbody n.
  destruct (Z.eqb_spec n 0) as [->|Hn]; [exists []; done|].
  destruct (wf_current ba W) as (c & nd & Hcur & Hnd & Hclt & -> & Ho & Hp' & Hu); [lia|].
  cbn [obind]. rewrite Hcur. cbn [deref]. rewrite Hnd. cbn [deref]. rewrite Hu.
  destruct (iov_loop_covers (m_baseSize ba) (m_nodes ba) (Z.to_nat n) c
    (m_position ba mod m_baseSize ba) n) as (iovs & -> & Hcov); try done; try lia.
  cbn [obind]. exists iovs. split; [done|]. rewrite <- Hp' in Hcov.
  destruct (gather_covers _ _ _ _ _ Hb Hbl (proj1 Hp) Hcov) as [_ ->].
  unfold contents, pos, flat. rewrite slice_take by lia. done.
Qed.

Lemma ByteArray_getReadBuffers_gather_witness :
  let ba := mkByteArray 2 1 6 5 BIN_BIG_ENDIAN [[10; 11]; [12; 13]; [14; 0]] (Some 0%nat) in
  exists iovs, ByteArray_getReadBuffers ba 3 = Ok (3, iovs) /\
    gather (m_nodes ba) iovs = Ok [11; 12; 13].
Proof.
  apply (ByteArray_getReadBuffers_gather
    (mkByteArray 2 1 6 5 BIN_BIG_ENDIAN [[10; 11]; [12; 13]; [14; 0]] (Some 0%nat)) 3); [|lia].
  constructor; cbn; try lia; [repeat constructor|vm_compute; discriminate|right; done].
Defined.

(** A receive through [getWriteBuffers(buffers, len)] that delivers
    [d], at most [len] bytes, followed by [setPosition(getPosition() + |d|)]
    (how the streams fill an array) has the effect of [write]: the contents are
    overwritten from the position on. *)
Lemma ByteArray_getWriteBuffers_scatter junk ba len d :
  wf ba -> 0 < len -> room ba len -> zlen d <= len ->
  exists iovs ba1 ns ba',
    ByteArray_getWriteBuffers junk ba len = Ok (len, iovs, ba1) /\
    scatter (m_nodes ba1) iovs d = Ok ns /\
    ByteArray_setPosition (with_nodes ba1 ns) (m_position ba + zlen d) = Ok ba' /\
    wrote ba ba' d.
Proof.
  intros W Hlen Hr Hd. unfold ByteArray_getWriteBuffers.
  destruct (Z.eqb_spec len 0); [lia|].
  destruct (addCapacity_spec junk ba len) as (ba1 & -> & G & Hc); [done|lia|done|].
  destruct G as (W1 & Eb & Ep & Es & Ee & _ & Ec). cbn [obind].
  pose proof W1 as [Hb Hbl Hne Hcap Hl Hp Hs Hcc He].
  destruct (wf_current ba1 W1) as (c & nd & Hcur & Hnd & Hclt & -> & Ho & Hp' & Hu); [lia|].
  cbn [obind]. rewrite Hcur. cbn [deref]. rewrite Hnd. cbn [deref]. rewrite Hu.
  destruct (iov_loop_covers (m_baseSize ba1) (m_nodes ba1) (Z.to_nat len) c
    (m_position ba1 mod m_baseSize ba1) len) as (iovs & -> & Hcov); try done; try lia.
  cbn [obind]. rewrite <- Hp' in Hcov.
  destruct (scatter_covers _ _ _ _ _ Hb (proj1 Hp) Hcov (m_nodes ba1) d) as (ns & Esc & R1 & R2 & R3);
    [done..|].
  assert (W2 : wf (with_nodes ba1 ns)) by (constructor; cbn; rewrite ?R2; done || lia).
  assert (Hz : 0 <= zlen d) by (unfold zlen; lia).
  destruct (setPosition_spec (with_nodes ba1 ns) (m_position ba + zlen d) W2)
    as (ba' & Eset & W' & P & S & F & B & En & Cp); [cbn; lia|].
  exists iovs, ba1, ns, ba'. split_and!; try done.
  constructor; try done; [|cbn in *; congruence..].
  assert (pos ba = pos ba1) as -> by (unfold pos; congruence). cbn in S, F.
  rewrite <- Ec. unfold contents. rewrite F, S, <- Ep. unfold flat at 1. cbn [with_nodes m_nodes].
  rewrite R3.
  replace (Z.to_nat (Z.max _ _)) with (Nat.max (Z.to_nat (m_size ba1)) (pos ba1 + length d))
    by (unfold pos, zlen in *; lia).
  pose proof (length_flat ba1 W1) as Hlf. unfold pos, flat, zlen in *.
  apply take_splice; lia.
Qed.

Lemma ByteArray_getWriteBuffers_scatter_witness :
  let ba := ByteArray_new (fun _ _ => 0) 2 in
  exists iovs ba1 ns ba',
    ByteArray_getWriteBuffers (fun _ _ => 0) ba 5 = Ok (5, iovs, ba1) /\
    scatter (m_nodes ba1) iovs [1; 2; 3] = Ok ns /\
    ByteArray_setPosition (with_nodes ba1 ns) (m_position ba + zlen [1; 2; 3]) = Ok ba' /\
    wrote ba ba' [1; 2; 3].
Proof.
  apply ByteArray_getWriteBuffers_scatter; [|lia|vm_compute; discriminate|vm_compute; discriminate].
  apply new_wf. unfold SIZE_LIMIT. lia.
Defined.

(** ** Whole-content accessors *)

Lemma read_at_position ba n :
  wf ba -> 0 < n <= m_size ba - m_position ba ->
  ByteArray_read_at ba n (m_position ba) = Ok (slice (pos ba) (Z.to_nat n) (contents ba)).
Proof.
  intros W Hn. unfold ByteArray_read_at.
  change (u64 (m_size ba - m_position ba)) with (ByteArray_getReadSize ba).
  rewrite (getReadSize_wf _ W). zcases.
  pose proof W as [Hb Hbl Hne Hcap Hl Hpp Hs Hcc He].
  destruct (wf_current ba W) as (c & nd & Hcur & Hnd & Hclt & -> & Ho & Hp & Hu); [lia|].
  cbn [obind]. rewrite Hcur. cbn [deref]. rewrite Hnd. cbn [deref]. rewrite Hu.
  destruct (read_loop_spec (Z.to_nat n) (with_position ba (m_position ba)) c
    (m_position ba mod m_baseSize ba) n []) as (cur & E & _); try done; try (cbn; lia).
  cbn [m_baseSize with_position] in E. rewrite E. cbn [obind fst app].
  unfold contents. rewrite slice_take by (unfold pos; lia). done.
Qed.

Lemma writeToFile_loop_spec b fuel : forall ba c p n acc,
  0 < b -> m_baseSize ba = b -> blocks_ok b (m_nodes ba) -> (c < length (m_nodes ba))%nat ->
  p = Z.of_nat c * b -> 0 < n -> p + n <= Z.of_nat (length (m_nodes ba)) * b ->
  (length (m_nodes ba) - c < fuel)%nat ->
  writeToFile_loop fuel ba (Some c) p n acc =
    Ok (acc ++ slice (Z.to_nat p) (Z.to_nat n) (flat ba)).
Proof.
  induction fuel as [|fuel IH]; intros ba c p n acc Hb Eb Hbl Hc Ep Hn Hfit Hf; [lia|].
  cbn [writeToFile_loop]. destruct (Z.leb_spec n 0); [lia|].
  unfold umod. rewrite Eb. destruct (Z.eqb_spec b 0); [lia|]. cbn [obind deref].
  assert (p mod b = 0) as -> by (subst p; apply Z.mod_mul; lia). rewrite Z.sub_0_r.
  destruct (lookup_lt_is_Some_2 _ _ Hc) as [nd Hnd]. rewrite Hnd. cbn [deref].
  replace p with (Z.of_nat c * b + 0) in * by lia. unfold flat. zcases.
  - rewrite (block_read b (m_nodes ba) c) by (done || lia). cbn [obind].
    destruct (next_block b (m_nodes ba) c 0 (Z.of_nat c * b + 0) n)
      as (nd2 & -> & _ & _ & Hcn & Hp2); [done || lia..|].
    rewrite (IH ba (S c)) by (done || lia). rewrite <- app_assoc. do 2 f_equal.
    unfold flat. replace (Z.to_nat n) with (Z.to_nat b + Z.to_nat (n - b))%nat by lia.
    rewrite slice_split. do 2 f_equal. lia.
  - rewrite (block_read b (m_nodes ba) c) by (done || lia). cbn [obind].
    rewrite Z.sub_diag. destruct fuel; done.
Qed.

Lemma readFromFile_loop_spec junk fuel : forall ba file,
  wf ba -> room ba (zlen file) -> (length file < fuel)%nat ->
  exists ba', readFromFile_loop junk fuel ba file = Ok ba' /\ wrote ba ba' file.
Proof.
  induction fuel as [|fuel IH]; intros ba file W Hr Hf; [lia|].
  cbn [readFromFile_loop]. pose proof (wf_base _ W) as Hb.
  set (b := Z.to_nat (m_baseSize ba)). unfold room in *.
  assert (Ht : zlen (take b file) = Z.min (m_baseSize ba) (zlen file))
    by (unfold zlen; rewrite length_take; lia).
  destruct (write_wrote junk ba (take b file) W) as (ba1 & -> & Wr); [unfold room; lia|].
  cbn [obind]. destruct (Z.ltb_spec (zlen (take b file)) (m_baseSize ba)).
  - exists ba1. split; [done|]. rewrite take_ge in Wr by (unfold zlen in *; lia). done.
  - pose proof Wr as [W1 _ P1 B1 _].
    assert (Hd : zlen (drop b file) = zlen file - m_baseSize ba)
      by (unfold zlen in *; rewrite length_drop; lia).
    destruct (IH ba1 (drop b file) W1) as (ba2 & E & Wr2).
    + rewrite P1, B1, Hd. lia.
    + rewrite length_drop. unfold zlen in *. lia.
    + exists ba2. split; [done|]. rewrite <- (take_drop b file). by eapply wrote_trans.
Qed.

(** [toString] gives the unread bytes and leaves the array alone; from a
    position at the start of a block [writeToFile] stores exactly those bytes,
    and [readFromFile] of that file into any array is a [write] of them. *)
Lemma ByteArray_file_roundtrip junk ba ba0 :
  wf ba -> wf ba0 -> m_position ba mod m_baseSize ba = 0 ->
  room ba0 (m_size ba - m_position ba) ->
  let unread := drop (pos ba) (contents ba) in
  ByteArray_toString ba = Ok unread /\
  ByteArray_writeToFile true ba = Ok (Some unread) /\
  exists ba1, ByteArray_readFromFile junk ba0 (Some unread) = Ok (true, ba1) /\ wrote ba0 ba1 unread.
Proof.
  intros W W0 Hal Hr unread.
  pose proof (length_contents ba W) as Hlc. pose proof W as [Hb Hbl Hne Hcap Hl Hp Hs Hcc He].
  assert (Hu : zlen unread = m_size ba - m_position ba)
    by (unfold unread, zlen, pos in *; rewrite length_drop; lia).
  assert (Hsl : slice (pos ba) (Z.to_nat (m_size ba - m_position ba)) (contents ba) = unread)
    by (apply (take_ge unread); unfold zlen in Hu; lia).
  split_and!.
  - unfold ByteArray_toString. rewrite (getReadSize_wf _ W). zcases.
    + f_equal. symmetry. apply nil_length_inv. unfold zlen in Hu. lia.
    + rewrite read_at_position, Hsl by (done || lia). done.
  - unfold ByteArray_writeToFile. cbn [negb]. rewrite (getReadSize_wf _ W).
    destruct (Z.eq_dec (m_size ba - m_position ba) 0) as [E0|Hnz].
    { rewrite E0. cbn. do 2 f_equal. symmetry. apply nil_length_inv. unfold zlen in Hu. lia. }
    destruct (wf_current ba W) as (c & nd & Hcur & Hnd & Hclt & _ & Ho & Hp' & _); [lia|].
    rewrite Hcur, (writeToFile_loop_spec (m_baseSize ba)) by (done || lia).
    cbn [obind app]. rewrite <- Hsl. unfold contents. rewrite slice_take by (unfold pos; lia). done.
  - unfold ByteArray_readFromFile.
    destruct (readFromFile_loop_spec junk (S (length unread)) ba0 unread W0) as (ba1 & -> & Wr);
      [rewrite Hu; done|lia|]. eauto.
Qed.

Lemma ByteArray_file_roundtrip_witness :
  let ba := mkByteArray 2 2 6 5 BIN_BIG_ENDIAN [[10; 11]; [12; 13]; [14; 0]] (Some 1%nat) in
  let ba0 := ByteArray_new (fun _ _ => 0) 2 in
  let unread := drop (pos ba) (contents ba) in
  ByteArray_toString ba = Ok unread /\
  ByteArray_writeToFile true ba = Ok (Some unread) /\
  exists ba1, ByteArray_readFromFile (fun _ _ => 0) ba0 (Some unread) = Ok (true, ba1) /\ wrote ba0 ba1 unread.
Proof.
  apply ByteArray_file_roundtrip.
  - constructor; cbn; try lia; [repeat constructor|vm_compute; discriminate|right; done].
  - apply new_wf. unfold SIZE_LIMIT. lia.
  - done.
  - vm_compute. discriminate.
Defined.

(** The overload [read(buf, size, position)] ignores where [position] lies:
    it starts in the block of [m_position].  With one byte unread in the last
    block, asking for the first byte of the array gives the first byte of the
    last block instead. *)
Lemma ByteArray_read_at_wrong_block :
  let ba := mkByteArray 2 5 6 6 BIN_BIG_ENDIAN [[10; 11]; [12; 13]; [14; 15]] (Some 2%nat) in
  wf ba /\ ByteArray_read_at ba 1 0 = Ok [14] /\ slice 0 1 (contents ba) = [10].
Proof.
  split_and!; try reflexivity.
  constructor; cbn; try lia; [repeat constructor|vm_compute; discriminate|right; done].
Qed.
