(* ===== verification/ByteArrayCodec.v ===== *)
(** * The typed readers and writers of [ByteArray] ([bytearray.cc])

    Fixed-width integers in the array's byte order, zigzag and varint
    compression, floating-point numbers by their bit patterns, and strings with
    a length prefix.  The main result, [ByteArray_items_roundtrip], says that
    any sequence of values written with the writers is read back by the
    corresponding readers, on a host of either byte order. *)

From S2P Require Import Prelude Endian ByteArray ByteArraySpec.
From Stdlib Require Import ZArith Lia List.
From stdpp Require Import base tactics list numbers option.

Open Scope Z_scope.

(** ** Zigzag *)

(** @src bytearray.cc:63-70 EncodeZigzag32
    [-v] and [v * 2] are computed at type [int32_t], where overflow is undefined. *)
Definition EncodeZigzag32 (v : Z) : outcome Z :=
  if v <? 0 then
    if v =? - 2 ^ 31 then UB else Ok (u32 (u32 (- v) * 2 - 1))
  else if v * 2 <? 2 ^ 31 then Ok (u32 (v * 2)) else UB.

(** @src bytearray.cc:73-80 EncodeZigzag64 *)
Definition EncodeZigzag64 (v : Z) : outcome Z :=
  if v <? 0 then
    if v =? - 2 ^ 63 then UB else Ok (u64 (u64 (- v) * 2 - 1))
  else if v * 2 <? 2 ^ 63 then Ok (u64 (v * 2)) else UB.

(** @src bytearray.cc:83-86 DecodeZigzag32 *)
Definition DecodeZigzag32 (v : Z) : Z := i32 (Z.lxor (Z.shiftr v 1) (u32 (- Z.land v 1))).

(** @src bytearray.cc:89-92 DecodeZigzag64 *)
Definition DecodeZigzag64 (v : Z) : Z := i64 (Z.lxor (Z.shiftr v 1) (u64 (- Z.land v 1))).

(** The bytes [writeUint32] and [writeUint64] put into [tmp]; [slots] are the
    elements of [tmp] still free, and storing past its end is undefined. *)
Fixpoint varint_loop (slots : nat) (value : Z) : outcome bytes :=
  match slots with
  | O => UB
  | S slots =>
    if 0x80 <=? value then
      let! rest := varint_loop slots (Z.shiftr value 7) in
      Ok (Z.lor (Z.land value 0x7F) 0x80 :: rest)
    else Ok [u8 value]
  end.

Section codec.

(** [BIN_BYTE_ORDER] of the machine, and the contents of fresh memory. *)
Variable host : Z.
Variable junk : nat -> nat -> Z.
Abbreviation write := (ByteArray_write junk).

(** ** Writers *)

(** @src bytearray.cc:112-114 ByteArray::writeFint8 *)
Definition ByteArray_writeFint8 (ba : ByteArray) (value : Z) : outcome ByteArray :=
  write ba (mem_of host 1 value).

(** @src bytearray.cc:116-118 ByteArray::writeFuint8 *)
Definition ByteArray_writeFuint8 (ba : ByteArray) (value : Z) : outcome ByteArray :=
  write ba (mem_of host 1 value).

(** @src bytearray.cc:120-125 ByteArray::writeFint16 *)
Definition ByteArray_writeFint16 (ba : ByteArray) (value : Z) : outcome ByteArray :=
  let value := if negb (m_endian ba =? host) then byteswap_signed 2 value else value in
  write ba (mem_of host 2 value).

(** @src bytearray.cc:127-133 ByteArray::writeFuint16 *)
Definition ByteArray_writeFuint16 (ba : ByteArray) (value : Z) : outcome ByteArray :=
  let value := if negb (m_endian ba =? host) then byteswap 2 value else value in
  write ba (mem_of host 2 value).

(** @src bytearray.cc:135-140 ByteArray::writeFint32 *)
Definition ByteArray_writeFint32 (ba : ByteArray) (value : Z) : outcome ByteArray :=
  let value := if negb (m_endian ba =? host) then byteswap_signed 4 value else value in
  write ba (mem_of host 4 value).

(** @src bytearray.cc:142-147 ByteArray::writeFuint32 *)
Definition ByteArray_writeFuint32 (ba : ByteArray) (value : Z) : outcome ByteArray :=
  let value := if negb (m_endian ba =? host) then byteswap 4 value else value in
  write ba (mem_of host 4 value).

(** @src bytearray.cc:149-154 ByteArray::writeFint64 *)
Definition ByteArray_writeFint64 (ba : ByteArray) (value : Z) : outcome ByteArray :=
  let value := if negb (m_endian ba =? host) then byteswap_signed 8 value else value in
  write ba (mem_of host 8 value).

(** @src bytearray.cc:156-161 ByteArray::writeFuint64 *)
Definition ByteArray_writeFuint64 (ba : ByteArray) (value : Z) : outcome ByteArray :=
  let value := if negb (m_endian ba =? host) then byteswap 8 value else value in
  write ba (mem_of host 8 value).

(** @src bytearray.cc:169-181 ByteArray::writeUint32 *)
Definition ByteArray_writeUint32 (ba : ByteArray) (value : Z) : outcome ByteArray :=
  let! tmp := varint_loop 5 value in write ba tmp.

(** @src bytearray.cc:165-167 ByteArray::writeInt32 *)
Definition ByteArray_writeInt32 (ba : ByteArray) (value : Z) : outcome ByteArray :=
  let! z := EncodeZigzag32 value in ByteArray_writeUint32 ba z.

(** @src bytearray.cc:187-199 ByteArray::writeUint64 *)
Definition ByteArray_writeUint64 (ba : ByteArray) (value : Z) : outcome ByteArray :=
  let! tmp := varint_loop 10 value in write ba tmp.

(** @src bytearray.cc:183-185 ByteArray::writeInt64 *)
Definition ByteArray_writeInt64 (ba : ByteArray) (value : Z) : outcome ByteArray :=
  let! z := EncodeZigzag64 value in ByteArray_writeUint64 ba z.

(** @src bytearray.cc:201-205 ByteArray::writeFloat
    A [float] is its 32-bit pattern. *)
Definition ByteArray_writeFloat (ba : ByteArray) (bits : Z) : outcome ByteArray :=
  ByteArray_writeFuint32 ba bits.

(** @src bytearray.cc:207-211 ByteArray::writeDouble
    A [double] is its 64-bit pattern. *)
Definition ByteArray_writeDouble (ba : ByteArray) (bits : Z) : outcome ByteArray :=
  ByteArray_writeFuint64 ba bits.

(** @src bytearray.cc:213-216 ByteArray::writeStringF16
    The size is converted to [uint16_t]. *)
Definition ByteArray_writeStringF16 (ba : ByteArray) (value : bytes) : outcome ByteArray :=
  let! ba := ByteArray_writeFuint16 ba (u16 (zlen value)) in write ba value.

(** @src bytearray.cc:218-221 ByteArray::writeStringF32 *)
Definition ByteArray_writeStringF32 (ba : ByteArray) (value : bytes) : outcome ByteArray :=
  let! ba := ByteArray_writeFuint32 ba (u32 (zlen value)) in write ba value.

(** @src bytearray.cc:223-226 ByteArray::writeStringF64 *)
Definition ByteArray_writeStringF64 (ba : ByteArray) (value : bytes) : outcome ByteArray :=
  let! ba := ByteArray_writeFuint64 ba (zlen value) in write ba value.

(** @src bytearray.cc:228-231 ByteArray::writeStringVint *)
Definition ByteArray_writeStringVint (ba : ByteArray) (value : bytes) : outcome ByteArray :=
  let! ba := ByteArray_writeUint64 ba (zlen value) in write ba value.

(** @src bytearray.cc:233-235 ByteArray::writeStringWithoutLength *)
Definition ByteArray_writeStringWithoutLength (ba : ByteArray) (value : bytes) : outcome ByteArray :=
  write ba value.

(** ** Readers *)

(** @src bytearray.cc:239-243 ByteArray::readFint8 *)
Definition ByteArray_readFint8 (ba : ByteArray) : outcome (Z * ByteArray) :=
  let! (d, ba) := ByteArray_read ba 1 in Ok (swrap 8 (of_mem host d), ba).

(** @src bytearray.cc:245-249 ByteArray::readFuint8 *)
Definition ByteArray_readFuint8 (ba : ByteArray) : outcome (Z * ByteArray) :=
  let! (d, ba) := ByteArray_read ba 1 in Ok (of_mem host d, ba).

(** @src bytearray.cc:251-258 XX
    The macro's body at an unsigned and at a signed type of [n] bytes. *)
Definition XX_unsigned (n : nat) (ba : ByteArray) : outcome (Z * ByteArray) :=
  let! (d, ba) := ByteArray_read ba (Z.of_nat n) in
  let v := of_mem host d in
  if m_endian ba =? host then Ok (v, ba) else Ok (byteswap n v, ba).

(** @src bytearray.cc:251-258 XX *)
Definition XX_signed (n : nat) (ba : ByteArray) : outcome (Z * ByteArray) :=
  let! (d, ba) := ByteArray_read ba (Z.of_nat n) in
  let v := swrap (8 * Z.of_nat n) (of_mem host d) in
  if m_endian ba =? host then Ok (v, ba) else Ok (byteswap_signed n v, ba).

(** @src bytearray.cc:260-262 ByteArray::readFint16 *)
Definition ByteArray_readFint16 : ByteArray -> outcome (Z * ByteArray) := XX_signed 2.

(** @src bytearray.cc:264-266 ByteArray::readFuint16 *)
Definition ByteArray_readFuint16 : ByteArray -> outcome (Z * ByteArray) := XX_unsigned 2.

(** @src bytearray.cc:268-270 ByteArray::readFint32 *)
Definition ByteArray_readFint32 : ByteArray -> outcome (Z * ByteArray) := XX_signed 4.

(** @src bytearray.cc:272-274 ByteArray::readFuint32 *)
Definition ByteArray_readFuint32 : ByteArray -> outcome (Z * ByteArray) := XX_unsigned 4.

(** @src bytearray.cc:276-278 ByteArray::readFint64 *)
Definition ByteArray_readFint64 : ByteArray -> outcome (Z * ByteArray) := XX_signed 8.

(** @src bytearray.cc:280-282 ByteArray::readFuint64 *)
Definition ByteArray_readFuint64 : ByteArray -> outcome (Z * ByteArray) := XX_unsigned 8.

(** The loop of [readUint32] ([w = 32]) and [readUint64] ([w = 64]); the bound
    on [i] allows [w / 7 + 1] turns. *)
Fixpoint readUint_loop (fuel : nat) (w i result : Z) (ba : ByteArray) : outcome (Z * ByteArray) :=
  if negb (i <? w) then Ok (result, ba) else
  match fuel with
  | O => NoFuel
  | S fuel =>
    let! (b, ba) := ByteArray_readFuint8 ba in
    if b <? 0x80 then Ok (Z.lor result (uwrap w (Z.shiftl b i)), ba)
    else readUint_loop fuel w (i + 7) (Z.lor result (uwrap w (Z.shiftl (Z.land b 0x7f) i))) ba
  end.

(** @src bytearray.cc:292-306 ByteArray::readUint32 *)
Definition ByteArray_readUint32 (ba : ByteArray) : outcome (Z * ByteArray) := readUint_loop 5 32 0 0 ba.

(** @src bytearray.cc:288-290 ByteArray::readInt32 *)
Definition ByteArray_readInt32 (ba : ByteArray) : outcome (Z * ByteArray) :=
  let! (v, ba) := ByteArray_readUint32 ba in Ok (DecodeZigzag32 v, ba).

(** @src bytearray.cc:312-326 ByteArray::readUint64 *)
Definition ByteArray_readUint64 (ba : ByteArray) : outcome (Z * ByteArray) := readUint_loop 10 64 0 0 ba.

(** @src bytearray.cc:308-310 ByteArray::readInt64 *)
Definition ByteArray_readInt64 (ba : ByteArray) : outcome (Z * ByteArray) :=
  let! (v, ba) := ByteArray_readUint64 ba in Ok (DecodeZigzag64 v, ba).

(** @src bytearray.cc:328-333 ByteArray::readFloat *)
Definition ByteArray_readFloat (ba : ByteArray) : outcome (Z * ByteArray) := ByteArray_readFuint32 ba.

(** @src bytearray.cc:335-340 ByteArray::readDouble *)
Definition ByteArray_readDouble (ba : ByteArray) : outcome (Z * ByteArray) := ByteArray_readFuint64 ba.

(** @src bytearray.cc:342-348 ByteArray::readStringF16 *)
Definition ByteArray_readStringF16 (ba : ByteArray) : outcome (bytes * ByteArray) :=
  let! (len, ba) := ByteArray_readFuint16 ba in ByteArray_read ba len.

(** @src bytearray.cc:350-356 ByteArray::readStringF32 *)
Definition ByteArray_readStringF32 (ba : ByteArray) : outcome (bytes * ByteArray) :=
  let! (len, ba) := ByteArray_readFuint32 ba in ByteArray_read ba len.

(** @src bytearray.cc:358-364 ByteArray::readStringF64 *)
Definition ByteArray_readStringF64 (ba : ByteArray) : outcome (bytes * ByteArray) :=
  let! (len, ba) := ByteArray_readFuint64 ba in ByteArray_read ba len.

(** @src bytearray.cc:366-372 ByteArray::readStringVint *)
Definition ByteArray_readStringVint (ba : ByteArray) : outcome (bytes * ByteArray) :=
  let! (len, ba) := ByteArray_readUint64 ba in ByteArray_read ba len.

End codec.

(** ** Zigzag is a bijection on the values it is defined for *)

Lemma lxor_ones w x : 0 <= w -> 0 <= x < 2 ^ w -> Z.lxor x (2 ^ w - 1) = 2 ^ w - 1 - x.
Proof.
  intros Hw Hx. replace (2 ^ w - 1) with (Z.ones w) by (rewrite Z.ones_equiv; lia).
  pose proof (Z.sub_lxor_2rlandn (Z.ones w) x) as E.
  rewrite (Z.land_comm (Z.lnot _)), <- Z.ldiff_land, Z.ldiff_ones_r in E by done.
  rewrite Z.shiftr_div_pow2, Z.div_small, Z.shiftl_0_l in E by lia.
  rewrite Z.lxor_comm. lia.
Qed.

Lemma land_1 x : Z.land x 1 = x mod 2.
Proof. apply (Z.land_ones x 1). done. Qed.

Lemma zigzag_even w v : 1 < w -> 0 <= v < 2 ^ (w - 1) ->
  swrap w (Z.lxor (Z.shiftr (v * 2) 1) (uwrap w (- Z.land (v * 2) 1))) = v.
Proof.
  intros Hw Hv. rewrite Z.shiftr_div_pow2 by lia. change (2 ^ 1) with 2. rewrite Z.div_mul by done.
  rewrite land_1.
  rewrite Z.mod_mul by done. unfold uwrap. rewrite Z.mod_0_l by lia. rewrite Z.lxor_0_r.
  apply swrap_small; lia.
Qed.

Lemma zigzag_odd w v : 1 < w -> 0 < v < 2 ^ (w - 1) ->
  swrap w (Z.lxor (Z.shiftr (v * 2 - 1) 1) (uwrap w (- Z.land (v * 2 - 1) 1))) = - v.
Proof.
  intros Hw Hv.
  assert (E : 2 ^ w = 2 * 2 ^ (w - 1)) by (rewrite <- Z.pow_succ_r by lia; f_equal; lia).
  rewrite Z.shiftr_div_pow2 by lia. change (2 ^ 1) with 2.
  replace (v * 2 - 1) with (1 + (v - 1) * 2) by lia.
  rewrite Z.div_add by done. change (1 / 2) with 0.
  rewrite land_1.
  rewrite Z_mod_plus_full. change (- (1 mod 2)) with (-1).
  replace (uwrap w (-1)) with (2 ^ w - 1).
  2: { apply Z.mod_unique_pos with (-1); lia. }
  rewrite lxor_ones by lia. replace (2 ^ w - 1 - (0 + (v - 1))) with (- v + 1 * 2 ^ w) by lia.
  unfold swrap at 1. rewrite Z_mod_plus_full. fold (swrap w (- v)). apply swrap_small; lia.
Qed.

Lemma zigzag32 v z : - 2 ^ 31 <= v < 2 ^ 31 -> EncodeZigzag32 v = Ok z -> 0 <= z < 2 ^ 32 /\ DecodeZigzag32 z = v.
Proof.
  intros Hv. unfold EncodeZigzag32. zcases; intros [= <-].
  - rewrite !uwrap_small by (rewrite ?uwrap_small; lia). split; [lia|].
    rewrite <- (Z.opp_involutive v) at 2. apply (zigzag_odd 32 (- v)); lia.
  - rewrite uwrap_small by lia. split; [lia|]. apply (zigzag_even 32 v); lia.
Qed.

Lemma zigzag64 v z : - 2 ^ 63 <= v < 2 ^ 63 -> EncodeZigzag64 v = Ok z -> 0 <= z < 2 ^ 64 /\ DecodeZigzag64 z = v.
Proof.
  intros Hv. unfold EncodeZigzag64. zcases; intros [= <-].
  - rewrite !uwrap_small by (rewrite ?uwrap_small; lia). split; [lia|].
    rewrite <- (Z.opp_involutive v) at 2. apply (zigzag_odd 64 (- v)); lia.
  - rewrite uwrap_small by lia. split; [lia|]. apply (zigzag_even 64 v); lia.
Qed.

(** ** Specifications of readers and writers *)

Section specs.
Variables (host : Z) (junk : nat -> nat -> Z) (e : Z).
Hypothesis host_order : is_order host.
Hypothesis e_order : is_order e.

(** The bytes from the position on start with [bs]. *)
Definition avail (ba : ByteArray) (bs : bytes) : Prop :=
  zlen bs <= m_size ba - m_position ba /\ slice (pos ba) (length bs) (contents ba) = bs.

(** [f] appends [bs] to an array with byte order [e]. *)
Definition writes (f : ByteArray -> outcome ByteArray) (bs : bytes) : Prop :=
  forall ba, wf ba -> m_endian ba = e -> room ba (zlen bs) ->
  exists ba', f ba = Ok ba' /\ wrote ba ba' bs.

(** [f] decodes [bs] to [x]. *)
Definition reads {A} (f : ByteArray -> outcome (A * ByteArray)) (bs : bytes) (x : A) : Prop :=
  forall ba rest, wf ba -> m_endian ba = e -> avail ba (bs ++ rest) ->
  exists ba', f ba = Ok (x, ba') /\ consumed ba ba' (zlen bs) /\ avail ba' rest.

Lemma writes_write bs : writes (fun ba => ByteArray_write junk ba bs) bs.
Proof. intros ba W _ R. by apply write_wrote. Qed.

Lemma writes_seq f g bs1 bs2 :
  writes f bs1 -> writes g bs2 -> writes (fun ba => let! ba := f ba in g ba) (bs1 ++ bs2).
Proof.
  intros Hf Hg ba W He Hr. unfold room in Hr. rewrite zlen_app in Hr.
  destruct (Hf ba W He) as (ba1 & -> & W1); [unfold room, zlen in *; lia|]. cbn.
  destruct (Hg ba1 (wrote_wf _ _ _ W1)) as (ba2 & E & W2).
  - rewrite (wrote_endian _ _ _ W1). done.
  - unfold room. rewrite (wrote_position _ _ _ W1), (wrote_base _ _ _ W1). lia.
  - exists ba2. split; [done|]. by eapply wrote_trans.
Qed.

Lemma reads_read bs : bs <> [] -> reads (fun ba => ByteArray_read ba (zlen bs)) bs bs.
Proof.
  intros Hne ba rest W He [Ha Hs]. rewrite zlen_app in Ha.
  assert (0 < zlen bs) by (destruct bs; [done|]; unfold zlen; simpl; lia).
  assert (0 <= zlen rest) by (unfold zlen; lia).
  destruct (read_consumed ba (zlen bs) W) as (ba' & -> & C); [lia|].
  rewrite length_app, slice_split in Hs.
  pose proof (length_contents ba W) as Hlc. pose proof (wf_position _ W).
  apply app_inj_1 in Hs as [Hs1 Hs2]; [|apply length_slice; unfold pos, zlen in *; lia].
  exists ba'. replace (Z.to_nat (zlen bs)) with (length bs) by (unfold zlen; lia). rewrite Hs1.
  split_and!; [done..|]. destruct C as [W' C P _ _ _].
  pose proof (length_contents ba' W') as Hlc'. rewrite C in Hlc'. split; [lia|].
  rewrite C. replace (pos ba') with (pos ba + length bs)%nat by (unfold pos, zlen in *; lia). done.
Qed.

Lemma reads_bind {A B} (f : ByteArray -> outcome (A * ByteArray)) (g : A -> ByteArray -> outcome (B * ByteArray))
    bs1 bs2 x y :
  reads f bs1 x -> reads (g x) bs2 y ->
  reads (fun ba => let! (a, ba) := f ba in g a ba) (bs1 ++ bs2) y.
Proof.
  intros Hf Hg ba rest W He Ha. rewrite <- app_assoc in Ha.
  destruct (Hf ba _ W He Ha) as (ba1 & -> & C1 & A1). cbn.
  destruct (Hg ba1 rest (consumed_wf _ _ _ C1)) as (ba2 & -> & C2 & A2); [|done|].
  - rewrite (consumed_endian _ _ _ C1). done.
  - exists ba2. rewrite zlen_app. eauto using consumed_trans.
Qed.

Lemma reads_ret {A} (x : A) : reads (fun ba => Ok (x, ba)) [] x.
Proof. intros ba rest W He Ha. exists ba. eauto using consumed_refl. Qed.

(** Post-processing of what was read; [k] may look at the byte order. *)
Lemma reads_map {A B} (f : ByteArray -> outcome (A * ByteArray)) (k : A -> ByteArray -> outcome (B * ByteArray))
    bs x y :
  reads f bs x -> (forall ba, m_endian ba = e -> k x ba = Ok (y, ba)) ->
  reads (fun ba => let! (a, ba) := f ba in k a ba) bs y.
Proof.
  intros Hf Hk. rewrite <- (app_nil_r bs). apply reads_bind with x; [done|].
  intros ba rest W He Ha. rewrite Hk by done. by apply reads_ret.
Qed.

(** *** Fixed-width integers: the wire format is [mem_of e], whatever the host *)

Lemma mem_of_swapped n v :
  e <> host -> mem_of host n v = rev (mem_of e n v).
Proof.
  intros Hne. unfold mem_of.
  destruct host_order as [->| ->], e_order as [->| ->]; cbn; rewrite ?rev_involutive; done.
Qed.

Lemma wire_unsigned n v :
  mem_of host n (if negb (e =? host) then byteswap n v else v) = mem_of e n v.
Proof.
  destruct (Z.eqb_spec e host) as [->|Hne]; [done|]. cbn [negb].
  rewrite mem_of_swapped by done. unfold mem_of.
  case_match; rewrite le_bytes_byteswap, ?rev_involutive; done.
Qed.

Lemma wire_signed n v :
  (0 < n)%nat -> mem_of host n (if negb (e =? host) then byteswap_signed n v else v) = mem_of e n v.
Proof.
  intros Hn. destruct (Z.eqb_spec e host) as [->|Hne]; [done|]. cbn [negb].
  rewrite mem_of_swapped by done. unfold mem_of.
  case_match; rewrite le_bytes_byteswap_signed, ?rev_involutive; done.
Qed.

(** What the reader's integer is before the conditional swap. *)
Lemma of_mem_wire n v :
  of_mem host (mem_of e n v) = if e =? host then v mod 256 ^ Z.of_nat n else byteswap n v.
Proof.
  destruct (Z.eqb_spec e host) as [->|Hne]; [apply of_mem_mem_of|].
  unfold of_mem, mem_of, byteswap.
  destruct host_order as [->| ->], e_order as [->| ->]; cbn; try done.
Qed.

Lemma zlen_mem_of n v : zlen (mem_of e n v) = Z.of_nat n.
Proof. unfold zlen. by rewrite length_mem_of. Qed.

Lemma mem_of_nonempty n v : (0 < n)%nat -> mem_of e n v <> [].
Proof. intros Hn E. pose proof (length_mem_of e n v) as L. rewrite E in L. simpl in L. lia. Qed.

Lemma reads_unsigned n v :
  (0 < n)%nat -> 0 <= v < 256 ^ Z.of_nat n -> reads (XX_unsigned host n) (mem_of e n v) v.
Proof.
  intros Hn Hv. unfold XX_unsigned.
  pose proof (reads_read (mem_of e n v) (mem_of_nonempty n v Hn)) as R. rewrite zlen_mem_of in R.
  eapply (reads_map _ _ _ _ _ R).
  intros ba He. rewrite He, of_mem_wire. destruct (e =? host).
  - rewrite Z.mod_small by done. done.
  - rewrite byteswap_byteswap, Z.mod_small by done. done.
Qed.

Lemma reads_signed n v :
  (0 < n)%nat -> - 2 ^ (8 * Z.of_nat n - 1) <= v < 2 ^ (8 * Z.of_nat n - 1) ->
  reads (XX_signed host n) (mem_of e n v) v.
Proof.
  intros Hn Hv. unfold XX_signed.
  pose proof (reads_read (mem_of e n v) (mem_of_nonempty n v Hn)) as R. rewrite zlen_mem_of in R.
  eapply (reads_map _ _ _ _ _ R).
  intros ba He. rewrite He, of_mem_wire. destruct (e =? host).
  - rewrite pow256_bits. fold (uwrap (8 * Z.of_nat n) v). rewrite swrap_uwrap, swrap_small by lia. done.
  - unfold byteswap_signed, byteswap at 1. rewrite le_bytes_swrap by done.
      rewrite le_bytes_byteswap, rev_involutive, le_value_le_bytes, pow256_bits.
      fold (uwrap (8 * Z.of_nat n) v). rewrite swrap_uwrap, swrap_small by lia. done.
Qed.

(** The byte writers and readers do not swap; one byte is its own wire format. *)
Lemma mem_of_1 h v : mem_of h 1 v = [v mod 256].
Proof. unfold mem_of. case_match; done. Qed.

Lemma reads_uint8 b : is_byte b -> reads (ByteArray_readFuint8 host) [b] b.
Proof.
  intros Hb. unfold ByteArray_readFuint8.
  eapply (reads_map (fun ba => ByteArray_read ba (zlen [b]))); [by apply reads_read|].
  intros ba _. unfold of_mem. case_match; cbn [rev app le_value]; repeat f_equal; lia.
Qed.

Lemma reads_int8 v : - 128 <= v < 128 -> reads (ByteArray_readFint8 host) [v mod 256] v.
Proof.
  intros Hb. unfold ByteArray_readFint8.
  eapply (reads_map (fun ba => ByteArray_read ba (zlen [v mod 256]))); [by apply reads_read|].
  intros ba _. replace (of_mem host [v mod 256]) with (uwrap 8 v).
  - rewrite swrap_uwrap, swrap_small by lia. done.
  - unfold of_mem. case_match; cbn [rev app le_value]; unfold uwrap; change (2 ^ 8) with 256; lia.
Qed.

(** *** Varints *)

Lemma varint_byte v : 0 <= v -> Z.lor (Z.land v 0x7F) 0x80 = v mod 128 + 128.
Proof.
  intros. change 0x7F with (Z.ones 7). rewrite Z.land_ones by done. change (2 ^ 7) with 128.
  change 128 with (Z.shiftl 1 7) at 2. rewrite lor_shiftl_disjoint; [lia|lia|].
  apply Z.mod_pos_bound. lia.
Qed.

Lemma varint_low7 x : 0 <= x < 128 -> Z.land (x + 128) 0x7f = x.
Proof.
  intros. change 0x7F with (Z.ones 7). rewrite Z.land_ones by done. change (2 ^ 7) with 128.
  replace (x + 128) with (x + 1 * 128) by lia. rewrite Z_mod_plus_full. apply Z.mod_small. lia.
Qed.

(** One turn of the reading loop puts seven bits above those already read. *)
Lemma varint_accumulate w i r x :
  0 <= i -> 0 <= r < 2 ^ i -> 0 <= x -> x * 2 ^ i < 2 ^ w ->
  Z.lor r (uwrap w (Z.shiftl x i)) = r + x * 2 ^ i.
Proof.
  intros Hi Hr Hx Hw. rewrite uwrap_small.
  - by apply lor_shiftl_disjoint.
  - rewrite Z.shiftl_mul_pow2 by done. nia.
Qed.

(** With enough room in [tmp] the writing loop succeeds, and the reading loop,
    started at bit [i], reads back the value it wrote. *)
Lemma varint_loop_ok w slots : forall v i r,
  0 <= i < w -> 0 <= r < 2 ^ i -> 0 <= v -> v * 2 ^ i < 2 ^ w -> v < 2 ^ (7 * Z.of_nat slots) ->
  (0 < slots)%nat ->
  exists bs, varint_loop slots v = Ok bs /\ bs <> [] /\ (length bs <= slots)%nat /\
    reads (readUint_loop host slots w i r) bs (r + v * 2 ^ i).
Proof.
  induction slots as [|slots IH]; intros v i r Hi Hr Hv Hw Hs Hpos; [lia|].
  cbn [varint_loop readUint_loop]. destruct (Z.ltb_spec i w); [|lia]. cbn [negb].
  destruct (Z.leb_spec 0x80 v) as [Hge|Hlt].
  - assert (E : v = v mod 128 + v / 128 * 128) by (pose proof (Z.div_mod v 128); lia).
    pose proof (Z.mod_pos_bound v 128 ltac:(lia)) as Hm.
    assert (Hp : 2 ^ (i + 7) = 2 ^ i * 128) by (rewrite Z.pow_add_r by lia; done).
    assert (Hd : 1 <= v / 128) by (apply Z.div_le_lower_bound; lia).
    assert (Hps : 2 ^ (7 * Z.of_nat (S slots)) = 2 ^ (7 * Z.of_nat slots) * 128).
    { change 128 with (2 ^ 7). rewrite <- Z.pow_add_r by lia. f_equal. lia. }
    assert (Hi7 : i + 7 < w) by (apply Z.pow_lt_mono_r_iff with 2; nia).
    assert (Hsl : (0 < slots)%nat).
    { destruct slots; [|lia]. change (2 ^ (7 * Z.of_nat 0)) with 1 in Hps. lia. }
    destruct (IH (v / 128) (i + 7) (r + v mod 128 * 2 ^ i)) as (bs & Ew & Hne & Hl & R);
      [nia..|done|].
    rewrite Z.shiftr_div_pow2 by done. change (2 ^ 7) with 128. rewrite Ew. cbn [obind].
    rewrite varint_byte by done. eexists. split; [done|]. split_and!; [done|simpl; lia|].
    change (?b :: bs) with ([b] ++ bs). apply reads_bind with (v mod 128 + 128).
    + apply reads_uint8. unfold is_byte. lia.
    + destruct (Z.ltb_spec (v mod 128 + 128) 0x80); [lia|].
      rewrite varint_low7, varint_accumulate by nia.
      replace (r + v * 2 ^ i) with (r + v mod 128 * 2 ^ i + v / 128 * 2 ^ (i + 7)) by nia. done.
  - eexists. split; [done|]. rewrite uwrap_small by lia. split_and!; [done|simpl; lia|].
    eapply reads_map; [apply reads_uint8; unfold is_byte; lia|].
    intros ba _. cbn beta. destruct (Z.ltb_spec v 0x80); [|lia].
    rewrite varint_accumulate by lia. done.
Qed.

Lemma varint32_ok v : 0 <= v < 2 ^ 32 ->
  exists bs, varint_loop 5 v = Ok bs /\ bs <> [] /\ (length bs <= 5)%nat /\
    reads (ByteArray_readUint32 host) bs v.
Proof.
  intros Hv. destruct (varint_loop_ok 32 5 v 0 0) as (bs & ? & ? & ? & R); try done; try lia.
  rewrite Z.mul_1_r in R. eauto.
Qed.

Lemma varint64_ok v : 0 <= v < 2 ^ 64 ->
  exists bs, varint_loop 10 v = Ok bs /\ bs <> [] /\ (length bs <= 10)%nat /\
    reads (ByteArray_readUint64 host) bs v.
Proof.
  intros Hv. destruct (varint_loop_ok 64 10 v 0 0) as (bs & ? & ? & ? & R); try done; try lia.
  rewrite Z.mul_1_r in R. eauto.
Qed.

End specs.

(** ** Sequences of typed values *)

(** One value with the writer that is used for it. *)
Inductive item :=
| Fint8 (v : Z) | Fuint8 (v : Z) | Fint16 (v : Z) | Fuint16 (v : Z)
| Fint32 (v : Z) | Fuint32 (v : Z) | Fint64 (v : Z) | Fuint64 (v : Z)
| Int32 (v : Z) | Uint32 (v : Z) | Int64 (v : Z) | Uint64 (v : Z)
| Float (bits : Z) | Double (bits : Z)
| StringF16 (s : bytes) | StringF32 (s : bytes) | StringF64 (s : bytes) | StringVint (s : bytes).

(** The values each writer takes without loss: those of its type; for the
    zigzag writers, those whose double does not overflow; for the strings, a
    length that fits the prefix, and at least one character. *)
Definition item_ok (x : item) : Prop :=
  match x with
  | Fint8 v => - 2 ^ 7 <= v < 2 ^ 7
  | Fuint8 v => 0 <= v < 2 ^ 8
  | Fint16 v => - 2 ^ 15 <= v < 2 ^ 15
  | Fuint16 v => 0 <= v < 2 ^ 16
  | Fint32 v => - 2 ^ 31 <= v < 2 ^ 31
  | Fuint32 v | Uint32 v | Float v => 0 <= v < 2 ^ 32
  | Fint64 v => - 2 ^ 63 <= v < 2 ^ 63
  | Fuint64 v | Uint64 v | Double v => 0 <= v < 2 ^ 64
  | Int32 v => - 2 ^ 31 < v < 2 ^ 30
  | Int64 v => - 2 ^ 63 < v < 2 ^ 62
  | StringF16 s => 0 < zlen s < 2 ^ 16
  | StringF32 s => 0 < zlen s < 2 ^ 32
  | StringF64 s | StringVint s => 0 < zlen s < 2 ^ 64
  end.

(** An upper bound on the bytes an item takes. *)
Definition item_size (x : item) : Z :=
  match x with
  | StringF16 s | StringF32 s | StringF64 s | StringVint s => 10 + zlen s
  | _ => 10
  end.

Definition items_size (xs : list item) : Z := foldr (fun x a => item_size x + a) 0 xs.

Section items.
Variables (host : Z) (junk : nat -> nat -> Z).

Definition write_item (ba : ByteArray) (x : item) : outcome ByteArray :=
  match x with
  | Fint8 v => ByteArray_writeFint8 host junk ba v
  | Fuint8 v => ByteArray_writeFuint8 host junk ba v
  | Fint16 v => ByteArray_writeFint16 host junk ba v
  | Fuint16 v => ByteArray_writeFuint16 host junk ba v
  | Fint32 v => ByteArray_writeFint32 host junk ba v
  | Fuint32 v => ByteArray_writeFuint32 host junk ba v
  | Fint64 v => ByteArray_writeFint64 host junk ba v
  | Fuint64 v => ByteArray_writeFuint64 host junk ba v
  | Int32 v => ByteArray_writeInt32 junk ba v
  | Uint32 v => ByteArray_writeUint32 junk ba v
  | Int64 v => ByteArray_writeInt64 junk ba v
  | Uint64 v => ByteArray_writeUint64 junk ba v
  | Float v => ByteArray_writeFloat host junk ba v
  | Double v => ByteArray_writeDouble host junk ba v
  | StringF16 s => ByteArray_writeStringF16 host junk ba s
  | StringF32 s => ByteArray_writeStringF32 host junk ba s
  | StringF64 s => ByteArray_writeStringF64 host junk ba s
  | StringVint s => ByteArray_writeStringVint junk ba s
  end.

Definition tag {A} (c : A -> item) (m : outcome (A * ByteArray)) : outcome (item * ByteArray) :=
  let! (v, ba) := m in Ok (c v, ba).

(** Read a value of the kind of [x]. *)
Definition read_like (x : item) (ba : ByteArray) : outcome (item * ByteArray) :=
  match x with
  | Fint8 _ => tag Fint8 (ByteArray_readFint8 host ba)
  | Fuint8 _ => tag Fuint8 (ByteArray_readFuint8 host ba)
  | Fint16 _ => tag Fint16 (ByteArray_readFint16 host ba)
  | Fuint16 _ => tag Fuint16 (ByteArray_readFuint16 host ba)
  | Fint32 _ => tag Fint32 (ByteArray_readFint32 host ba)
  | Fuint32 _ => tag Fuint32 (ByteArray_readFuint32 host ba)
  | Fint64 _ => tag Fint64 (ByteArray_readFint64 host ba)
  | Fuint64 _ => tag Fuint64 (ByteArray_readFuint64 host ba)
  | Int32 _ => tag Int32 (ByteArray_readInt32 host ba)
  | Uint32 _ => tag Uint32 (ByteArray_readUint32 host ba)
  | Int64 _ => tag Int64 (ByteArray_readInt64 host ba)
  | Uint64 _ => tag Uint64 (ByteArray_readUint64 host ba)
  | Float _ => tag Float (ByteArray_readFloat host ba)
  | Double _ => tag Double (ByteArray_readDouble host ba)
  | StringF16 _ => tag StringF16 (ByteArray_readStringF16 host ba)
  | StringF32 _ => tag StringF32 (ByteArray_readStringF32 host ba)
  | StringF64 _ => tag StringF64 (ByteArray_readStringF64 host ba)
  | StringVint _ => tag StringVint (ByteArray_readStringVint host ba)
  end.

Fixpoint write_items (ba : ByteArray) (xs : list item) : outcome ByteArray :=
  match xs with
  | [] => Ok ba
  | x :: xs => let! ba := write_item ba x in write_items ba xs
  end.

Fixpoint read_items (ba : ByteArray) (xs : list item) : outcome (list item * ByteArray) :=
  match xs with
  | [] => Ok ([], ba)
  | x :: xs =>
    let! (y, ba) := read_like x ba in
    let! (ys, ba) := read_items ba xs in
    Ok (y :: ys, ba)
  end.

Context (e : Z) (host_order : is_order host) (e_order : is_order e).

(** A writer and a reader agree on an encoding of at most [n] bytes. *)
Definition codec {A} (w : ByteArray -> outcome ByteArray) (r : ByteArray -> outcome (A * ByteArray))
    (n : Z) (x : A) : Prop :=
  exists bs, zlen bs <= n /\ writes e w bs /\ reads e r bs x.

Lemma codec_tag {A} (c : A -> item) w r n x :
  codec w r n x -> codec w (fun ba => tag c (r ba)) n (c x).
Proof.
  intros (bs & Hn & Hw & Hr). exists bs. split_and!; try done.
  eapply reads_map; [exact Hr|done].
Qed.

Lemma writes_ext f g bs :
  (forall ba, m_endian ba = e -> f ba = g ba) -> writes e g bs -> writes e f bs.
Proof. intros Hfg Hg ba W He R. rewrite Hfg by done. by apply Hg. Qed.

Lemma codec_unsigned n v :
  (0 < n <= 8)%nat -> 0 <= v < 256 ^ Z.of_nat n ->
  codec (fun ba => ByteArray_write junk ba
           (mem_of host n (if negb (m_endian ba =? host) then byteswap n v else v)))
    (XX_unsigned host n) 8 v.
Proof.
  intros Hn Hv. exists (mem_of e n v). split_and!.
  - rewrite zlen_mem_of. lia.
  - eapply writes_ext; [|apply writes_write]. intros ba He. cbn beta. rewrite He, wire_unsigned; done.
  - apply reads_unsigned; lia || done.
Qed.

Lemma codec_signed n v :
  (0 < n <= 8)%nat -> - 2 ^ (8 * Z.of_nat n - 1) <= v < 2 ^ (8 * Z.of_nat n - 1) ->
  codec (fun ba => ByteArray_write junk ba
           (mem_of host n (if negb (m_endian ba =? host) then byteswap_signed n v else v)))
    (XX_signed host n) 8 v.
Proof.
  intros Hn Hv. exists (mem_of e n v). split_and!.
  - rewrite zlen_mem_of. lia.
  - eapply writes_ext; [|apply writes_write]. intros ba He. cbn beta. rewrite He, wire_signed; done || lia.
  - apply reads_signed; lia || done.
Qed.

Lemma codec_uint32 v :
  0 <= v < 2 ^ 32 -> codec (fun ba => ByteArray_writeUint32 junk ba v) (ByteArray_readUint32 host) 10 v.
Proof.
  intros Hv. destruct (varint32_ok host e v Hv) as (bs & E & Hne & Hl & R).
  exists bs. split_and!; [unfold zlen; lia| |done].
  eapply writes_ext; [|apply writes_write]. intros ba _. unfold ByteArray_writeUint32. by rewrite E.
Qed.

Lemma codec_uint64 v :
  0 <= v < 2 ^ 64 -> codec (fun ba => ByteArray_writeUint64 junk ba v) (ByteArray_readUint64 host) 10 v.
Proof.
  intros Hv. destruct (varint64_ok host e v Hv) as (bs & E & Hne & Hl & R).
  exists bs. split_and!; [unfold zlen; lia| |done].
  eapply writes_ext; [|apply writes_write]. intros ba _. unfold ByteArray_writeUint64. by rewrite E.
Qed.

(** A length prefix followed by the characters. *)
Lemma codec_string w r n s :
  s <> [] -> codec w r n (zlen s) ->
  codec (fun ba => let! ba := w ba in ByteArray_write junk ba s)
    (fun ba => let! (len, ba) := r ba in ByteArray_read ba len) (n + zlen s) s.
Proof.
  intros Hne (bs & Hn & Hw & Hr). exists (bs ++ s). split_and!.
  - rewrite zlen_app. lia.
  - apply writes_seq; [done|apply writes_write].
  - apply reads_bind with (zlen s); [done|]. by apply reads_read.
Qed.

Lemma codec_weaken {A} w (r : ByteArray -> outcome (A * ByteArray)) n m x :
  n <= m -> codec w r n x -> codec w r m x.
Proof. intros Hnm (bs & Hn & Hwr). exists bs. split; [lia|done]. Qed.

Lemma codec_int32 v :
  - 2 ^ 31 < v < 2 ^ 30 -> codec (fun ba => ByteArray_writeInt32 junk ba v) (ByteArray_readInt32 host) 10 v.
Proof.
  intros Hv. unfold ByteArray_writeInt32, ByteArray_readInt32.
  destruct (EncodeZigzag32 v) as [z| | | |] eqn:Ez;
    try (exfalso; revert Ez; unfold EncodeZigzag32; zcases; done).
  destruct (zigzag32 v z ltac:(lia) Ez) as [Hz Hd].
  destruct (codec_uint32 z Hz) as (bs & Hn & Hw & Hr).
  exists bs. split_and!; [done|exact Hw|]. eapply reads_map; [exact Hr|]. intros. cbn. by rewrite Hd.
Qed.

Lemma codec_int64 v :
  - 2 ^ 63 < v < 2 ^ 62 -> codec (fun ba => ByteArray_writeInt64 junk ba v) (ByteArray_readInt64 host) 10 v.
Proof.
  intros Hv. unfold ByteArray_writeInt64, ByteArray_readInt64.
  destruct (EncodeZigzag64 v) as [z| | | |] eqn:Ez;
    try (exfalso; revert Ez; unfold EncodeZigzag64; zcases; done).
  destruct (zigzag64 v z ltac:(lia) Ez) as [Hz Hd].
  destruct (codec_uint64 z Hz) as (bs & Hn & Hw & Hr).
  exists bs. split_and!; [done|exact Hw|]. eapply reads_map; [exact Hr|]. intros. cbn. by rewrite Hd.
Qed.

Lemma codec_byte_signed v :
  - 128 <= v < 128 -> codec (fun ba => ByteArray_writeFint8 host junk ba v) (ByteArray_readFint8 host) 10 v.
Proof.
  intros Hv. exists [v mod 256]. split_and!; [done| |by apply reads_int8].
  eapply writes_ext; [|apply writes_write]. intros. unfold ByteArray_writeFint8. by rewrite mem_of_1.
Qed.

Lemma codec_byte v :
  0 <= v < 256 -> codec (fun ba => ByteArray_writeFuint8 host junk ba v) (ByteArray_readFuint8 host) 10 v.
Proof.
  intros Hv. exists [v mod 256]. rewrite Z.mod_small by lia. split_and!; [done| |by apply reads_uint8].
  eapply writes_ext; [|apply writes_write]. intros. unfold ByteArray_writeFuint8.
  by rewrite mem_of_1, Z.mod_small by lia.
Qed.

Lemma zlen_nonempty {A} (l : list A) : 0 < zlen l -> l <> [].
Proof. intros H ->. done. Qed.

Lemma codec_item x : item_ok x -> codec (fun ba => write_item ba x) (read_like x) (item_size x) x.
Proof.
  destruct x; cbn [item_ok write_item item_size]; intros Hx; apply codec_tag.
  1: by apply codec_byte_signed. 1: by apply codec_byte.
  1,3,5: eapply codec_weaken; [|apply codec_signed; done || lia]; lia.
  1-3: eapply codec_weaken; [|apply codec_unsigned; done || lia]; lia.
  1: by apply codec_int32. 1: by apply codec_uint32. 1: by apply codec_int64. 1: by apply codec_uint64.
  1,2: eapply codec_weaken; [|apply codec_unsigned; done || lia]; lia.
  4: by apply codec_string, codec_uint64; [apply zlen_nonempty|..]; lia.
  all: unfold ByteArray_writeStringF16, ByteArray_writeStringF32, ByteArray_writeStringF64,
         ByteArray_writeFuint16, ByteArray_writeFuint32, ByteArray_writeFuint64;
       rewrite ?uwrap_small by lia;
       eapply codec_weaken; [|apply codec_string, codec_unsigned; [apply zlen_nonempty| |]; lia];
       lia.
Qed.

Lemma codec_items xs :
  Forall item_ok xs ->
  codec (fun ba => write_items ba xs) (fun ba => read_items ba xs) (items_size xs) xs.
Proof.
  induction 1 as [|x xs Hx _ (bs2 & Hn2 & Hw2 & Hr2)].
  { exists []. split_and!; [done| |apply reads_ret].
    intros ba W _ _. exists ba. eauto using wrote_refl. }
  destruct (codec_item x Hx) as (bs1 & Hn1 & Hw1 & Hr1).
  exists (bs1 ++ bs2). split_and!.
  - rewrite zlen_app. unfold items_size in *. cbn. lia.
  - apply (writes_seq e (fun ba => write_item ba x) (fun ba => write_items ba xs)); done.
  - apply (reads_bind e (read_like x)
      (fun y ba => let! (ys, ba) := read_items ba xs in Ok (y :: ys, ba)) bs1 bs2 x); [done|].
    eapply reads_map; [exact Hr2|done].
Qed.

End items.

(** C7: a sequence of typed values, each within what its writer takes
    ([item_ok]: fixed-width and varint unsigned integers and floating point bit
    patterns of their width; [Int32] above [-2^31] and below [2^30] and [Int64]
    above [-2^63] and below [2^62], beyond which the zigzag code overflows;
    length-prefixed strings that are not empty and whose length fits the prefix),
    written at a position of the array within the size limit, is read back
    unchanged by the matching readers after [setPosition] to where the writing
    began, for arrays of either byte order on hosts of either byte order;
    everything read lies in the data, so no reader throws.
    ([readStringF16_empty_at_block_end]: an empty string is not excluded in vain.) *)
Theorem ByteArray_items_roundtrip host junk ba xs :
  is_order host -> wf ba -> Forall item_ok xs -> room ba (items_size xs) ->
  exists ba1 ba2 ba3,
    write_items host junk ba xs = Ok ba1 /\
    ByteArray_setPosition ba1 (m_position ba) = Ok ba2 /\
    read_items host ba2 xs = Ok (xs, ba3) /\
    m_position ba3 = m_position ba1 /\ contents ba3 = contents ba1.
Proof.
  intros Hh W Hxs Hroom.
  destruct (codec_items host junk (m_endian ba) Hh (wf_endian _ W) xs Hxs) as (bs & Hn & Hw & Hr).
  assert (Hz : 0 <= zlen bs) by (unfold zlen; lia).
  destruct (Hw ba W eq_refl) as (ba1 & E1 & [W1 C1 P1 B1 En1]); [unfold room in *; lia|].
  pose proof (wf_position _ W) as Hp. pose proof (wf_position _ W1) as Hp1.
  destruct (setPosition_within ba1 (m_position ba) W1) as (ba2 & E2 & W2 & P2 & C2 & B2 & En2 & _); [lia|].
  assert (A : avail ba2 (bs ++ [])).
  { rewrite app_nil_r. pose proof (length_contents _ W1) as Hl1. pose proof (length_contents _ W2) as Hl2.
    rewrite C2 in Hl2. split; [lia|]. rewrite C2, C1.
    replace (pos ba2) with (pos ba) by (unfold pos; congruence).
    apply slice_splice. by apply pos_contents. }
  destruct (Hr ba2 [] W2 ltac:(congruence) A) as (ba3 & E3 & C3 & _).
  exists ba1, ba2, ba3. destruct C3 as [W3 C3 P3 _ _ _]. split_and!; try done; [lia|congruence].
Qed.

(** A little-endian array of three-byte blocks on a little-endian host. *)
Lemma ByteArray_items_roundtrip_witness :
  let junk := fun _ _ => 7 in
  let ba := ByteArray_setIsLittleEndian (ByteArray_new junk 3) true in
  let xs := [Fint16 (-2); Uint32 300; StringVint [104; 105]; Int64 (-1000000)] in
  exists ba1 ba2 ba3,
    write_items BIN_LITTLE_ENDIAN junk ba xs = Ok ba1 /\
    ByteArray_setPosition ba1 (m_position ba) = Ok ba2 /\
    read_items BIN_LITTLE_ENDIAN ba2 xs = Ok (xs, ba3) /\
    m_position ba3 = m_position ba1 /\ contents ba3 = contents ba1.
Proof.
  apply ByteArray_items_roundtrip.
  - by left.
  - constructor; cbn; try lia; [repeat constructor|vm_compute; discriminate|by left].
  - repeat constructor; cbn; try lia.
  - vm_compute. discriminate.
Defined.

(** C39: the encodings lose exactly the values one expects them to.  The 32-bit
    zigzag map is undefined ([v * 2] or [-v] overflows [int32_t]) precisely on
    [v >= 2^30] and on the smallest integer, although its callers accept every
    [int32_t]; on all other values decoding inverts it and the varint it is
    stored in takes at most five bytes. *)
Theorem EncodeZigzag32_total v :
  - 2 ^ 31 <= v < 2 ^ 31 ->
  (EncodeZigzag32 v = UB <-> v = - 2 ^ 31 \/ 2 ^ 30 <= v) /\
  (- 2 ^ 31 < v < 2 ^ 30 ->
   exists z bs, EncodeZigzag32 v = Ok z /\ DecodeZigzag32 z = v /\
     varint_loop 5 z = Ok bs /\ (length bs <= 5)%nat).
Proof.
  intros Hv. split.
  - unfold EncodeZigzag32. zcases; split; try done; lia.
  - intros Hr. destruct (EncodeZigzag32 v) as [z| | | |] eqn:Ez;
      try (exfalso; revert Ez; unfold EncodeZigzag32; zcases; done).
    destruct (zigzag32 v z Hv Ez) as [Hz Hd].
    destruct (varint32_ok BIN_LITTLE_ENDIAN BIN_LITTLE_ENDIAN z Hz) as (bs & E & _ & Hl & _).
    eauto 10.
Qed.

Lemma EncodeZigzag32_total_witness :
  (EncodeZigzag32 (2 ^ 30) = UB <-> 2 ^ 30 = - 2 ^ 31 \/ 2 ^ 30 <= 2 ^ 30) /\
  (- 2 ^ 31 < 2 ^ 30 < 2 ^ 30 ->
   exists z bs, EncodeZigzag32 (2 ^ 30) = Ok z /\ DecodeZigzag32 z = 2 ^ 30 /\
     varint_loop 5 z = Ok bs /\ (length bs <= 5)%nat).
Proof. apply EncodeZigzag32_total. lia. Defined.

(** [writeStringF16] followed by [readStringF16] is not the identity at a
    block boundary for the empty string: after the two length bytes have filled
    the last block, [m_cur] is [NULL] and [read(buf, 0)] dereferences it. *)
Lemma readStringF16_empty_at_block_end junk :
  let ba := ByteArray_new junk 2 in
  exists ba1 ba2,
    ByteArray_writeStringF16 BIN_LITTLE_ENDIAN junk ba [] = Ok ba1 /\
    ByteArray_setPosition ba1 0 = Ok ba2 /\
    ByteArray_readStringF16 BIN_LITTLE_ENDIAN ba2 = UB.
Proof. eexists _, _. split_and!; reflexivity. Qed.
