(* ===== verification/Timer.v ===== *)
(** * Timers ([timer.h], [timer.cc])

    [TimerManager] keeps its pending timers in a [std::set] ordered by expiry
    time and address.  Timer objects live in a heap [tm_heap] from addresses to
    objects, because callers hold [shared_ptr]s to them and change them while
    they are in the set; the set itself is the sorted sequence of addresses.
    [std::set]'s search, insertion and erasure are written out on that
    sequence: [lower_bound] is the first element that is not less than the key,
    and erasing [end()], which the code of [cancel] could do, is [UB].

    The clock [GetCurrentMS()] is an argument of the operations that read it;
    [now + ms] wraps at 64 bits.  Each operation is the body the source runs
    under [m_mutex]; interleavings of threads are sequences of operations. *)

From S2P Require Import Prelude.
From Stdlib Require Import ZArith Lia List.
From stdpp Require Import base tactics list numbers option gmap sorting.

Open Scope Z_scope.

(** ** Data *)

(** A callback: the caller's function, or the function [std::bind] makes of
    [OnTimer], a weak pointer to a condition and the caller's function. *)
Inductive callback :=
| Cb (id : Z)
| CondCb (weak_cond : Z) (id : Z).

(** @src timer.h:74-78 Timer *)
Record Timer := mkTimer {
  m_recurring : bool;
  m_ms : Z;
  m_next : Z;
  m_cb : option callback
}.

(** @src timer.h:165-168 TimerManager *)
Record TimerManager := mkTimerManager {
  tm_heap : gmap Z Timer;
  m_timers : list Z;
  m_tickled : bool;
  m_previouseTime : Z
}.

Definition with_next (t : Timer) (n : Z) : Timer := mkTimer (m_recurring t) (m_ms t) n (m_cb t).
Definition with_ms (t : Timer) (ms : Z) : Timer := mkTimer (m_recurring t) ms (m_next t) (m_cb t).
Definition with_cb (t : Timer) (cb : option callback) : Timer :=
  mkTimer (m_recurring t) (m_ms t) (m_next t) cb.

Definition with_heap (m : TimerManager) (h : gmap Z Timer) : TimerManager :=
  mkTimerManager h (m_timers m) (m_tickled m) (m_previouseTime m).
Definition with_timers (m : TimerManager) (l : list Z) : TimerManager :=
  mkTimerManager (tm_heap m) l (m_tickled m) (m_previouseTime m).
Definition with_tickled (m : TimerManager) (b : bool) : TimerManager :=
  mkTimerManager (tm_heap m) (m_timers m) b (m_previouseTime m).

(** ** The ordered set *)

(** [p->m_next]. *)
Definition next_at (h : gmap Z Timer) (p : Z) : Z := from_option m_next 0 (h !! p).

(** @src timer.cc:18-38 Timer::Comparator::operator() *)
Definition Comparator (h : gmap Z Timer) (lhs rhs : option Z) : bool :=
  match lhs, rhs with
  | None, None => false
  | None, Some _ => true
  | Some _, None => false
  | Some l, Some r => if next_at h l =? next_at h r then l <? r else next_at h l <? next_at h r
  end.

(** The elements before [lower_bound(key)] and those from it on. *)
Fixpoint lower_bound (h : gmap Z Timer) (key : Z) (l : list Z) : list Z * list Z :=
  match l with
  | [] => ([], [])
  | x :: r =>
    if Comparator h (Some x) (Some key) then let '(a, b) := lower_bound h key r in (x :: a, b)
    else ([], l)
  end.

(** [find(key)]: the parts before and after the element equivalent to the key;
    [None] is [end()]. *)
Definition set_find (h : gmap Z Timer) (key : Z) (l : list Z) : option (list Z * list Z) :=
  match lower_bound h key l with
  | (a, x :: b) => if Comparator h (Some key) (Some x) then None else Some (a, b)
  | (_, []) => None
  end.

(** [erase(it)] for the iterator [set_find] returns. *)
Definition set_erase (it : option (list Z * list Z)) : outcome (list Z) :=
  match it with
  | Some (a, b) => Ok (a ++ b)
  | None => UB
  end.

(** [insert(key)]: the new sequence, and whether the returned iterator is [begin()]. *)
Definition set_insert (h : gmap Z Timer) (key : Z) (l : list Z) : list Z * bool :=
  match lower_bound h key l with
  | (a, x :: b) =>
    (if Comparator h (Some key) (Some x) then a ++ key :: x :: b else l,
     match a with [] => true | _ => false end)
  | (a, []) => (a ++ [key], match a with [] => true | _ => false end)
  end.

(** ** Operations *)

(** @src timer.cc:40-44 Timer::Timer *)
Definition Timer_new (now ms : Z) (cb : option callback) (recurring : bool) : Timer :=
  mkTimer recurring ms (u64 (now + ms)) cb.

(** @src timer.cc:46-46 Timer::Timer *)
Definition Timer_at (next : Z) : Timer := mkTimer false 0 next None.

(** @src timer.cc:131-131 TimerManager::TimerManager *)
Definition TimerManager_new (now : Z) : TimerManager := mkTimerManager ∅ [] false now.

(** @src timer.cc:48-59 Timer::cancel *)
Definition Timer_cancel (m : TimerManager) (p : Z) : outcome (bool * TimerManager) :=
  deref (tm_heap m !! p) (fun t =>
  if non_null (m_cb t) then
    let m := with_heap m (<[p := with_cb t None]> (tm_heap m)) in
    let! l := set_erase (set_find (tm_heap m) p (m_timers m)) in
    Ok (true, with_timers m l)
  else Ok (false, m)).

(** @src timer.cc:61-79 Timer::refresh *)
Definition Timer_refresh (m : TimerManager) (now p : Z) : outcome (bool * TimerManager) :=
  deref (tm_heap m !! p) (fun t =>
  if non_null (m_cb t) then
    let it := set_find (tm_heap m) p (m_timers m) in
    if non_null it then
      let! l := set_erase it in
      let h := <[p := with_next t (u64 (now + m_ms t))]> (tm_heap m) in
      Ok (true, with_timers (with_heap m h) (fst (set_insert h p l)))
    else Ok (false, m)
  else Ok (false, m)).

(** @src timer.cc:223-239 TimerManager::addTimer
    The result says whether [onTimerInsertedAtFront()] is called. *)
Definition TimerManager_addTimer_locked (m : TimerManager) (p : Z) : bool * TimerManager :=
  let '(l, begin) := set_insert (tm_heap m) p (m_timers m) in
  let at_front := begin && negb (m_tickled m) in
  let m := with_timers m l in
  (at_front, if at_front then with_tickled m true else m).

(** @src timer.cc:101-129 Timer::reset
    The first component is the returned value, the second whether the front
    was notified. *)
Definition Timer_reset (m : TimerManager) (now p ms : Z) (from_now : bool)
    : outcome (bool * bool * TimerManager) :=
  deref (tm_heap m !! p) (fun t =>
  if (ms =? m_ms t) && negb from_now then Ok (true, false, m) else
  if non_null (m_cb t) then
    let it := set_find (tm_heap m) p (m_timers m) in
    if non_null it then
      let! l := set_erase it in
      let start := if from_now then now else u64 (m_next t - m_ms t) in
      let t := with_ms t ms in
      let t := with_next t (u64 (start + m_ms t)) in
      let m := with_timers (with_heap m (<[p := t]> (tm_heap m))) l in
      let '(notify, m) := TimerManager_addTimer_locked m p in
      Ok (true, notify, m)
    else Ok (false, false, m)
  else Ok (false, false, m)).

(** @src timer.cc:135-142 TimerManager::addTimer
    [p] is the address of the new object. *)
Definition TimerManager_addTimer (m : TimerManager) (now p ms : Z) (cb : option callback)
    (recurring : bool) : bool * TimerManager :=
  let m := with_heap m (<[p := Timer_new now ms cb recurring]> (tm_heap m)) in
  TimerManager_addTimer_locked m p.

(** @src timer.cc:144-150 OnTimer
    The functions that get called: none when the condition is gone. *)
Definition OnTimer (alive : Z -> bool) (cb : callback) : list Z :=
  match cb with
  | Cb id => [id]
  | CondCb weak_cond id => if alive weak_cond then [id] else []
  end.

(** @src timer.cc:152-159 TimerManager::addConditionTimer *)
Definition TimerManager_addConditionTimer (m : TimerManager) (now p ms id weak_cond : Z)
    (recurring : bool) : bool * TimerManager :=
  TimerManager_addTimer m now p ms (Some (CondCb weak_cond id)) recurring.

(** @src timer.cc:161-175 TimerManager::getNextTimer *)
Definition TimerManager_getNextTimer (m : TimerManager) (now : Z) : Z * TimerManager :=
  let m := with_tickled m false in
  match m_timers m with
  | [] => (U64_MAX, m)
  | next :: _ =>
    if next_at (tm_heap m) next <=? now then (0, m)
    else (next_at (tm_heap m) next - now, m)
  end.

(** @src timer.cc:241-249 TimerManager::detectClockRollover *)
Definition TimerManager_detectClockRollover (m : TimerManager) (now : Z) : bool * TimerManager :=
  let rollover := (now <? m_previouseTime m) && (now <? u64 (m_previouseTime m - 60 * 60 * 1000)) in
  (rollover, mkTimerManager (tm_heap m) (m_timers m) (m_tickled m) now).

(** The loop that steps over the elements that expire exactly now (lines 203-204):
    both parts of the sequence, the iterator being at the start of the second. *)
Fixpoint skip_now (h : gmap Z Timer) (now : Z) (l : list Z) : list Z * list Z :=
  match l with
  | [] => ([], [])
  | x :: r => if next_at h x =? now then let '(a, b) := skip_now h now r in (x :: a, b) else ([], l)
  end.

(** The body of the loop over the expired timers (lines 212-220). *)
Definition fire_one (now : Z) (m : TimerManager) (p : Z) : outcome (option callback * TimerManager) :=
  deref (tm_heap m !! p) (fun t =>
  if m_recurring t then
    let h := <[p := with_next t (u64 (now + m_ms t))]> (tm_heap m) in
    Ok (m_cb t, with_timers (with_heap m h) (fst (set_insert h p (m_timers m))))
  else
    Ok (m_cb t, with_heap m (<[p := with_cb t None]> (tm_heap m)))).

Fixpoint fire_all (now : Z) (m : TimerManager) (expired : list Z)
    : outcome (list (option callback) * TimerManager) :=
  match expired with
  | [] => Ok ([], m)
  | p :: r =>
    let! (cb, m) := fire_one now m p in
    let! (cbs, m) := fire_all now m r in
    Ok (cb :: cbs, m)
  end.

(** @src timer.cc:177-221 TimerManager::listExpiredCb
    [a] is the address of the temporary [now_timer]. *)
Definition TimerManager_listExpiredCb (m : TimerManager) (now a : Z)
    : outcome (list (option callback) * TimerManager) :=
  match m_timers m with
  | [] => Ok ([], m)
  | first :: _ =>
    let '(rollover, m) := TimerManager_detectClockRollover m now in
    if negb rollover && (now <? next_at (tm_heap m) first) then Ok ([], m) else
    let h := <[a := Timer_at now]> (tm_heap m) in
    let '(before, from) := if rollover then (m_timers m, []) else lower_bound h a (m_timers m) in
    let '(equal, rest) := skip_now h now from in
    fire_all now (with_timers m rest) (before ++ equal)
  end.

(** @src timer.cc:251-254 TimerManager::hasTimer *)
Definition TimerManager_hasTimer (m : TimerManager) : bool :=
  match m_timers m with [] => false | _ => true end.

(** ** The ordered set works like a set as long as it is sorted *)

Definition tlt (h : gmap Z Timer) (x y : Z) : Prop := Comparator h (Some x) (Some y) = true.

Lemma tlt_iff h x y :
  tlt h x y <-> next_at h x < next_at h y \/ next_at h x = next_at h y /\ x < y.
Proof.
  unfold tlt, Comparator. destruct (Z.eqb_spec (next_at h x) (next_at h y)); rewrite Z.ltb_lt; lia.
Qed.

Lemma Comparator_false h x y : Comparator h (Some x) (Some y) = false <-> ~ tlt h x y.
Proof. unfold tlt. destruct (Comparator _ _ _); split; congruence. Qed.

#[export] Instance tlt_dec h x y : Decision (tlt h x y).
Proof. unfold tlt. apply _. Defined.

Lemma tlt_trans h x y z : tlt h x y -> tlt h y z -> tlt h x z.
Proof. rewrite !tlt_iff. lia. Qed.

Lemma tlt_irrefl h x : ~ tlt h x x.
Proof. rewrite tlt_iff. lia. Qed.

Lemma tlt_total h x y : ~ tlt h x y -> ~ tlt h y x -> x = y.
Proof. rewrite !tlt_iff. lia. Qed.

Abbreviation tsorted h := (StronglySorted (tlt h)).

Lemma tsorted_app h a b :
  tsorted h (a ++ b) <->
  tsorted h a /\ tsorted h b /\ forall x y, x ∈ a -> y ∈ b -> tlt h x y.
Proof.
  induction a as [|z a IH]; cbn [app].
  { split; [|tauto]. intros. split_and!; [constructor|done|set_solver]. }
  split.
  - intros [Ha Hf]%StronglySorted_inv. apply IH in Ha as (Ha & Hb & Hab).
    rewrite Forall_app, !Forall_forall in Hf. destruct Hf as [Hf1 Hf2].
    split_and!; [constructor; [done|by apply Forall_forall]|done|].
    intros x y [->|Hx]%elem_of_cons Hy; auto.
  - intros ([Ha Hf]%StronglySorted_inv & Hb & Hab). constructor.
    + apply IH. split_and!; [done..|]. intros. apply Hab; [right|]; done.
    + rewrite Forall_app. split; [done|]. apply Forall_forall. intros. apply Hab; [left|done].
Qed.

Lemma tsorted_NoDup h l : tsorted h l -> NoDup l.
Proof.
  induction 1 as [|x l _ IH Hf]; constructor; [|done].
  intros Hx. rewrite Forall_forall in Hf. exact (tlt_irrefl h x (Hf x Hx)).
Qed.

(** Sortedness depends on the heap only through the elements' expiry times. *)
Lemma tsorted_ext h h' l :
  (forall x, x ∈ l -> next_at h' x = next_at h x) -> tsorted h l -> tsorted h' l.
Proof.
  intros He. induction 1 as [|x l Hl IH Hf]; constructor.
  - apply IH. intros. apply He. by right.
  - rewrite Forall_forall in *. intros y Hy. specialize (Hf y Hy). rewrite tlt_iff in *.
    rewrite !He by (by left || by right). done.
Qed.

Lemma lower_bound_spec h k l a b :
  tsorted h l -> lower_bound h k l = (a, b) ->
  l = a ++ b /\ (forall x, x ∈ a -> tlt h x k) /\ (forall x, x ∈ b -> ~ tlt h x k).
Proof.
  revert a b. induction l as [|x l IH]; intros a b Hs; cbn [lower_bound].
  { intros [= <- <-]. split_and!; [done|set_solver..]. }
  apply StronglySorted_inv in Hs as [Hs Hf]. destruct (Comparator h (Some x) (Some k)) eqn:E.
  - destruct (lower_bound h k l) as [a' b']. intros [= <- <-].
    destruct (IH a' b' Hs eq_refl) as (-> & Ha & Hb). split_and!; [done| |done].
    intros y [->|Hy]%elem_of_cons; auto.
  - intros [= <- <-]. apply Comparator_false in E. split_and!; [done|set_solver|].
    rewrite Forall_forall in Hf. intros y [->|Hy]%elem_of_cons Hlt; [done|].
    apply E. by eapply tlt_trans; [apply Hf|].
Qed.

Lemma set_find_in h k l :
  tsorted h l -> k ∈ l -> exists a b, set_find h k l = Some (a, b) /\ l = a ++ k :: b.
Proof.
  intros Hs Hk. unfold set_find. destruct (lower_bound h k l) as [a b] eqn:E.
  destruct (lower_bound_spec _ _ _ _ _ Hs E) as (-> & Ha & Hb).
  apply elem_of_app in Hk as [Hk|Hk]; [by destruct (tlt_irrefl h k); auto|].
  destruct b as [|x b]; [by apply elem_of_nil in Hk|].
  assert (Hx : x = k).
  { apply elem_of_cons in Hk as [->|Hk]; [done|].
    apply tsorted_app in Hs as (_ & [_ Hf]%StronglySorted_inv & _).
    rewrite Forall_forall in Hf. destruct (Hb x); [left|auto]. }
  subst x. destruct (Comparator h (Some k) (Some k)) eqn:Ek; [by apply tlt_irrefl in Ek|]. eauto.
Qed.

Lemma set_find_notin h k l : tsorted h l -> k ∉ l -> set_find h k l = None.
Proof.
  intros Hs Hk. unfold set_find. destruct (lower_bound h k l) as [a b] eqn:E.
  destruct (lower_bound_spec _ _ _ _ _ Hs E) as (-> & Ha & Hb). destruct b as [|x b]; [done|].
  destruct (Comparator h (Some k) (Some x)) eqn:Ek; [done|]. apply Comparator_false in Ek.
  destruct Hk. apply elem_of_app. right. rewrite (tlt_total h k x); [left|done|]. apply Hb. left.
Qed.

Lemma set_insert_notin h k l :
  tsorted h l -> k ∉ l ->
  tsorted h (fst (set_insert h k l)) /\ fst (set_insert h k l) ≡ₚ k :: l /\
  (snd (set_insert h k l) = true <-> exists r, fst (set_insert h k l) = k :: r).
Proof.
  intros Hs Hk. unfold set_insert. destruct (lower_bound h k l) as [a b] eqn:E.
  destruct (lower_bound_spec _ _ _ _ _ Hs E) as (-> & Ha & Hb).
  assert (Hka : forall r, a ++ k :: b = k :: r -> a = []).
  { intros r. destruct a as [|y a]; [done|]. cbn. intros [= -> _]. destruct (tlt_irrefl h k).
    apply Ha. left. }
  assert (Hkb : forall x, x ∈ b -> tlt h k x).
  { intros x Hx. destruct (decide (tlt h k x)); [done|].
    destruct Hk. apply elem_of_app. right. rewrite (tlt_total h k x); auto. }
  apply tsorted_app in Hs as (Hsa & Hsb & Hab).
  assert (Hnew : tsorted h (a ++ k :: b)).
  { apply tsorted_app. split_and!; [done| |].
    - constructor; [done|]. by apply Forall_forall.
    - intros x y Hx [->|Hy]%elem_of_cons; auto. }
  assert (Hfront : match a with [] => true | _ => false end = true <-> exists r, a ++ k :: b = k :: r).
  { split; [destruct a; [eauto|done]|]. intros [r Hr]. by rewrite (Hka r Hr). }
  destruct b as [|x b]; cbn [fst snd].
  - split_and!; [done|solve_Permutation|done].
  - rewrite (Hkb x) by left. split_and!; [done|solve_Permutation|done].
Qed.

Lemma next_at_insert h p t x : next_at (<[p := t]> h) x = if decide (x = p) then m_next t else next_at h x.
Proof. unfold next_at. rewrite lookup_insert. repeat case_decide; done || congruence. Qed.

(** Changing an object that is not in the set leaves the set sorted. *)
Lemma tsorted_update h p t l : p ∉ l -> tsorted h l -> tsorted (<[p := t]> h) l.
Proof.
  intros Hp. apply tsorted_ext. intros x Hx. rewrite next_at_insert. case_decide; [congruence|done].
Qed.

Lemma tsorted_erase h a p b : tsorted h (a ++ p :: b) -> tsorted h (a ++ b) /\ p ∉ a ++ b.
Proof.
  intros Hs. pose proof (tsorted_NoDup _ _ Hs) as Hn. split.
  - apply tsorted_app in Hs as (Ha & [Hb _]%StronglySorted_inv & Hab).
    apply tsorted_app. split_and!; [done..|]. intros. apply Hab; [done|by right].
  - apply NoDup_app in Hn as (_ & Hab & [Hb _]%NoDup_cons).
    rewrite elem_of_app. intros [Ha|Hb']; [|done]. apply (Hab p Ha). left.
Qed.

(** ** The manager's invariant *)

Record inv (m : TimerManager) : Prop := {
  inv_sorted : tsorted (tm_heap m) (m_timers m);
  inv_alloc p : p ∈ m_timers m -> is_Some (tm_heap m !! p);
  inv_live p t : tm_heap m !! p = Some t -> is_Some (m_cb t) -> p ∈ m_timers m
}.

Lemma inv_new now : inv (TimerManager_new now).
Proof. constructor; [constructor|set_solver|done]. Qed.

(** Putting a changed or new object [p], which is not in the set, into the set. *)
Lemma inv_reinsert m p t l tk prev :
  tsorted (tm_heap m) l -> p ∉ l ->
  (forall x, x ∈ l -> is_Some (tm_heap m !! x)) ->
  (forall x tx, x <> p -> tm_heap m !! x = Some tx -> is_Some (m_cb tx) -> x ∈ l) ->
  let h := <[p := t]> (tm_heap m) in
  inv (mkTimerManager h (fst (set_insert h p l)) tk prev).
Proof.
  intros Hs Hp Ha Hl h.
  destruct (set_insert_notin h p l) as (Hs' & Hperm & _); [by apply tsorted_update|done|].
  constructor; cbn.
  - done.
  - intros x. rewrite Hperm, elem_of_cons; unfold h; rewrite lookup_insert_is_Some'. intros [->|Hx]; eauto.
  - intros x tx Hx Hcb. rewrite Hperm, elem_of_cons. destruct (decide (x = p)); [by left|right].
    unfold h in Hx. rewrite lookup_insert_ne in Hx by done. eauto.
Qed.

Lemma addTimer_inv m now p ms cb r :
  inv m -> tm_heap m !! p = None -> inv (snd (TimerManager_addTimer m now p ms cb r)).
Proof.
  intros [Hs Ha Hl] Hp. unfold TimerManager_addTimer, TimerManager_addTimer_locked.
  cbn [with_heap tm_heap m_timers m_tickled].
  pose proof (inv_reinsert m p (Timer_new now ms cb r) (m_timers m)) as I.
  destruct (set_insert _ p (m_timers m)) as [l begin] eqn:E.
  assert (Hpn : p ∉ m_timers m) by (intros Hx%Ha; rewrite Hp in Hx; by destruct Hx).
  assert (I' : forall tk prev, inv (mkTimerManager (<[p := Timer_new now ms cb r]> (tm_heap m)) l tk prev)).
  { intros tk prev. specialize (I tk prev Hs Hpn Ha). cbn in I. rewrite E in I. apply I. eauto. }
  destruct (begin && negb (m_tickled m)); cbn; apply I'.
Qed.

#[export] Hint Resolve inv_new addTimer_inv : inv.

(** [cancel] never erases [end()]: a timer that still has its callback is in
    the set. *)
Lemma cancel_inv m p t :
  inv m -> tm_heap m !! p = Some t ->
  exists r m', Timer_cancel m p = Ok (r, m') /\ inv m' /\
    r = bool_decide (is_Some (m_cb t)) /\
    (r = true -> p ∉ m_timers m' /\ m_timers m ≡ₚ p :: m_timers m' /\
       tm_heap m' = <[p := with_cb t None]> (tm_heap m)) /\
    (r = false -> m' = m).
Proof.
  intros [Hs Ha Hl] Hp. unfold Timer_cancel. rewrite Hp. cbn [deref].
  destruct (m_cb t) as [cb|] eqn:Ecb; [|by exists false, m].
  assert (Hin : p ∈ m_timers m) by (apply (Hl p t Hp); by rewrite Ecb).
  set (h := <[p := with_cb t None]> (tm_heap m)). cbn [tm_heap m_timers with_heap].
  assert (Hs' : tsorted h (m_timers m)).
  { eapply tsorted_ext; [|done]. intros x _. unfold h. rewrite next_at_insert.
    case_decide; [|done]. subst x. unfold next_at. by rewrite Hp. }
  destruct (set_find_in h p _ Hs' Hin) as (a & b & -> & El). cbn [set_erase obind].
  rewrite El in *. destruct (tsorted_erase _ _ _ _ Hs') as [He Hn].
  eexists true, _. split; [reflexivity|]. cbn.
  split; [|split_and!; [done| |done]; intros _; split_and!; [done|solve_Permutation|done]].
  constructor; cbn.
  - done.
  - intros x Hx. unfold h. rewrite lookup_insert_is_Some'. right. apply Ha. set_solver.
  - intros x tx. unfold h. rewrite lookup_insert. case_decide as Hx; [intros [= <-]; by intros []|].
    intros Hlook Hcb. pose proof (Hl x tx Hlook Hcb) as Hin'. set_solver.
Qed.

(** A timer that still has its callback is found, and without it the rest of
    the set is as [inv_reinsert] needs it. *)
Lemma find_live m p t :
  inv m -> tm_heap m !! p = Some t -> is_Some (m_cb t) ->
  exists a b, set_find (tm_heap m) p (m_timers m) = Some (a, b) /\ m_timers m = a ++ p :: b /\
    tsorted (tm_heap m) (a ++ b) /\ p ∉ a ++ b /\
    (forall x, x ∈ a ++ b -> is_Some (tm_heap m !! x)) /\
    (forall x tx, x <> p -> tm_heap m !! x = Some tx -> is_Some (m_cb tx) -> x ∈ a ++ b).
Proof.
  intros [Hs Ha Hl] Hp Hcb.
  destruct (set_find_in _ p _ Hs (Hl p t Hp Hcb)) as (a & b & Ef & El).
  exists a, b. rewrite El in Hs. destruct (tsorted_erase _ _ _ _ Hs) as [He Hn].
  split_and!; [done..| |].
  - intros x Hx. apply Ha. rewrite El. set_solver.
  - intros x tx Hne Hx Hc. pose proof (Hl x tx Hx Hc) as Hin. rewrite El in Hin. set_solver.
Qed.

(** What moving a pending timer does to the set of pending timers: nothing but
    the new expiry time. *)
Definition moved (m m' : TimerManager) (p : Z) (t : Timer) : Prop :=
  inv m' /\ tm_heap m' = <[p := t]> (tm_heap m) /\ m_timers m' ≡ₚ m_timers m /\
  m_previouseTime m' = m_previouseTime m.

Lemma refresh_inv m now p t :
  inv m -> tm_heap m !! p = Some t ->
  exists r m', Timer_refresh m now p = Ok (r, m') /\ r = bool_decide (is_Some (m_cb t)) /\
    (r = true -> moved m m' p (with_next t (u64 (now + m_ms t))) /\ m_tickled m' = m_tickled m) /\
    (r = false -> m' = m).
Proof.
  intros I Hp. unfold Timer_refresh. rewrite Hp. cbn [deref].
  destruct (m_cb t) as [cb|] eqn:Ecb; cbn [non_null]; [|by exists false, m].
  destruct (find_live m p t I Hp) as (a & b & -> & El & Hs & Hn & Ha & Hl); [by rewrite Ecb|].
  cbn [non_null set_erase obind]. eexists true, _. split; [reflexivity|].
  split_and!; [done| |done]. intros _. split; [|done]. unfold moved. cbn.
  split_and!; [by apply inv_reinsert|done| |done].
  destruct (set_insert_notin (<[p := with_next t (u64 (now + m_ms t))]> (tm_heap m)) p (a ++ b))
    as (_ & -> & _); [by apply tsorted_update|done|]. rewrite El. solve_Permutation.
Qed.

(** [addTimer(val, lock)] with an object that is not in the set. *)
Lemma addTimer_locked_spec m p :
  tsorted (tm_heap m) (m_timers m) -> p ∉ m_timers m ->
  let r := TimerManager_addTimer_locked m p in
  m_timers (snd r) = fst (set_insert (tm_heap m) p (m_timers m)) /\
  m_timers (snd r) ≡ₚ p :: m_timers m /\
  tm_heap (snd r) = tm_heap m /\ m_previouseTime (snd r) = m_previouseTime m /\
  (fst r = true <-> m_tickled m = false /\ exists l, m_timers (snd r) = p :: l) /\
  m_tickled (snd r) = m_tickled m || fst r.
Proof.
  intros Hs Hp. unfold TimerManager_addTimer_locked.
  destruct (set_insert_notin _ p _ Hs Hp) as (Hs' & Hperm & Hf).
  destruct (set_insert (tm_heap m) p (m_timers m)) as [l begin]. cbn [fst snd] in *.
  destruct begin, (m_tickled m) eqn:Et; cbn; rewrite ?Et; split_and!; try done;
    (split; [|]); try done; try (intros [? Hx]; try done; by apply Hf in Hx); tauto.
Qed.

Lemma reset_inv m now p t ms (from_now : bool) :
  inv m -> tm_heap m !! p = Some t ->
  let start := if from_now then now else u64 (m_next t - m_ms t) in
  let t' := with_next (with_ms t ms) (u64 (start + ms)) in
  exists r n m', Timer_reset m now p ms from_now = Ok (r, n, m') /\
    (m' = m /\ n = false \/
     r = true /\ is_Some (m_cb t) /\ moved m m' p t' /\
     (n = true <-> m_tickled m = false /\ exists l, m_timers m' = p :: l) /\
     m_tickled m' = m_tickled m || n).
Proof.
  intros I Hp start t'. unfold Timer_reset. rewrite Hp. cbn [deref].
  destruct ((ms =? m_ms t) && negb from_now); [by exists true, false, m; auto|].
  destruct (m_cb t) as [cb|] eqn:Ecb; cbn [non_null]; [|by exists false, false, m; auto].
  destruct (find_live m p t I Hp) as (a & b & -> & El & Hs & Hn & Ha & Hl); [by rewrite Ecb|].
  cbn [non_null set_erase obind]. fold start. change (m_ms (with_ms t ms)) with ms. fold t'.
  set (m1 := with_timers (with_heap m (<[p := t']> (tm_heap m))) (a ++ b)).
  destruct (addTimer_locked_spec m1 p) as (E1 & E2 & E3 & E4 & E5 & E6); [by apply tsorted_update|done|].
  destruct (TimerManager_addTimer_locked m1 p) as [n m']. cbn [fst snd] in *.
  exists true, n, m'. split; [done|]. right. split_and!; try done.
  unfold moved. split_and!; [|done| |done].
  - destruct m' as [h l tk prev]. cbn in E1, E3. subst h l. by apply inv_reinsert.
  - rewrite E2, El. cbn. solve_Permutation.
Qed.

(** ** Expiry *)

Definition recurring_at (h : gmap Z Timer) (p : Z) : bool := from_option m_recurring false (h !! p).
Definition cb_at (h : gmap Z Timer) (p : Z) : option callback := h !! p ≫= m_cb.

(** What firing does to a timer object. *)
Definition fired (now : Z) (t : Timer) : Timer :=
  if m_recurring t then with_next t (u64 (now + m_ms t)) else with_cb t None.

Lemma fire_one_spec now m p t :
  tsorted (tm_heap m) (m_timers m) -> p ∉ m_timers m -> tm_heap m !! p = Some t ->
  exists m', fire_one now m p = Ok (m_cb t, m') /\
    tsorted (tm_heap m') (m_timers m') /\
    (forall x, x ∈ m_timers m' <-> x ∈ m_timers m \/ x = p /\ m_recurring t) /\
    tm_heap m' = <[p := fired now t]> (tm_heap m) /\
    m_tickled m' = m_tickled m /\ m_previouseTime m' = m_previouseTime m.
Proof.
  intros Hs Hn Hp. unfold fire_one, fired. rewrite Hp. cbn [deref].
  destruct (m_recurring t); (eexists; split; [reflexivity|]); cbn.
  - destruct (set_insert_notin (<[p := with_next t (u64 (now + m_ms t))]> (tm_heap m)) p (m_timers m))
      as (Hs' & Hperm & _); [by apply tsorted_update|done|].
    split_and!; try done. intros x. rewrite Hperm, elem_of_cons. tauto.
  - split_and!; try done; [by apply tsorted_update|]. intros x. intuition done.
Qed.

Lemma fire_all_spec now E : forall m,
  tsorted (tm_heap m) (m_timers m) -> NoDup E ->
  (forall x, x ∈ E -> x ∉ m_timers m /\ is_Some (tm_heap m !! x)) ->
  (forall x, x ∈ m_timers m -> is_Some (tm_heap m !! x)) ->
  (forall x t, tm_heap m !! x = Some t -> is_Some (m_cb t) -> x ∈ m_timers m \/ x ∈ E) ->
  exists m', fire_all now m E = Ok (map (cb_at (tm_heap m)) E, m') /\ inv m' /\
    (forall x, x ∈ m_timers m' <-> x ∈ m_timers m \/ x ∈ E /\ recurring_at (tm_heap m) x) /\
    (forall x, tm_heap m' !! x = if decide (x ∈ E) then fired now <$> tm_heap m !! x else tm_heap m !! x) /\
    m_tickled m' = m_tickled m /\ m_previouseTime m' = m_previouseTime m.
Proof.
  induction E as [|p E IH]; intros m Hs Hnd HE Ha Hl.
  { exists m. split_and!; try done.
    - constructor; [done..|]. intros x t Hx Hc. destruct (Hl x t Hx Hc) as [|[]%elem_of_nil]; done.
    - set_solver. }
  apply NoDup_cons in Hnd as [HpE Hnd].
  destruct (HE p) as [Hpn [t Hp]]; [by left|]. cbn [fire_all].
  destruct (fire_one_spec now m p t Hs Hpn Hp) as (m1 & -> & Hs1 & Hin1 & Hh1 & Ht1 & Hpr1). cbn [obind].
  assert (Hrec : recurring_at (tm_heap m) p = m_recurring t) by (unfold recurring_at; by rewrite Hp).
  assert (Hother : forall x, x <> p -> tm_heap m1 !! x = tm_heap m !! x)
    by (intros; rewrite Hh1; by apply lookup_insert_ne).
  assert (Hsome : forall x, is_Some (tm_heap m !! x) -> is_Some (tm_heap m1 !! x))
    by (intros; rewrite Hh1, lookup_insert_is_Some'; eauto).
  destruct (IH m1 Hs1 Hnd) as (m2 & -> & I2 & Hin2 & Hh2 & Ht2 & Hpr2).
  { intros x Hx. destruct (HE x) as [Hxn Hxs]; [by right|]. split; [|by apply Hsome].
    rewrite Hin1. intros [|[-> _]]; done. }
  { intros x Hx. apply Hsome. apply Hin1 in Hx as [Hx|[-> _]]; eauto. }
  { intros x tx Hx Hc. rewrite Hin1. destruct (decide (x = p)) as [->|Hne].
    - rewrite Hh1, lookup_insert_eq in Hx. injection Hx as <-. unfold fired in Hc.
      destruct (m_recurring t); [auto|by destruct Hc].
    - rewrite Hother in Hx by done. destruct (Hl x tx Hx Hc) as [|[->|]%elem_of_cons]; naive_solver. }
  cbn [obind]. exists m2. split; [|split_and!]; try done; try congruence.
  - do 2 f_equal. cbn [map]. f_equal; [unfold cb_at; by rewrite Hp|].
    apply map_ext_in. intros x Hx%list_elem_of_In. unfold cb_at. rewrite Hother; [done|]. by intros ->.
  - intros x. rewrite Hin2, Hin1, elem_of_cons. unfold recurring_at in *.
    destruct (decide (x = p)) as [->|Hne]; [rewrite Hrec; naive_solver|].
    rewrite (Hother x Hne). naive_solver.
  - intros x. rewrite Hh2. destruct (decide (x = p)) as [->|Hne].
    + rewrite !decide_False, decide_True by (done || by left). by rewrite Hh1, lookup_insert_eq, Hp.
    + rewrite (Hother x Hne). repeat case_decide; set_solver.
Qed.

Lemma skip_now_spec h now l a b :
  skip_now h now l = (a, b) ->
  l = a ++ b /\ (forall x, x ∈ a -> next_at h x = now) /\
  match b with [] => True | y :: _ => next_at h y <> now end.
Proof.
  revert a b. induction l as [|x l IH]; intros a b; cbn [skip_now].
  { intros [= <- <-]. split_and!; [done|set_solver|done]. }
  destruct (Z.eqb_spec (next_at h x) now).
  - destruct (skip_now h now l) as [a' b']. intros [= <- <-].
    destruct (IH a' b' eq_refl) as (-> & Ha & Hb). split_and!; [done| |done].
    intros y [->|Hy]%elem_of_cons; auto.
  - intros [= <- <-]. split_and!; [done|set_solver|done].
Qed.

(** The search for the first timer that is not due, whatever address the
    temporary [now_timer] has. *)
Lemma split_expired h now a l before from equal rest :
  tsorted h l -> a ∉ l ->
  lower_bound (<[a := Timer_at now]> h) a l = (before, from) ->
  skip_now (<[a := Timer_at now]> h) now from = (equal, rest) ->
  l = (before ++ equal) ++ rest /\
  (forall x, x ∈ before ++ equal -> next_at h x <= now) /\
  (forall x, x ∈ rest -> now < next_at h x).
Proof.
  intros Hs Ha Elb Esk. set (h' := <[a := Timer_at now]> h) in *.
  assert (Hs' : tsorted h' l) by by apply tsorted_update.
  assert (Hna : next_at h' a = now) by (unfold h'; rewrite next_at_insert, decide_True by done; done).
  destruct (lower_bound_spec _ _ _ _ _ Hs' Elb) as (El & Hb & Hf).
  destruct (skip_now_spec _ _ _ _ _ Esk) as (Ef & Heq & Hr). subst from.
  assert (Hnx : forall x, x ∈ l -> next_at h' x = next_at h x).
  { intros x Hx. unfold h'. rewrite next_at_insert. case_decide; [congruence|done]. }
  rewrite El in Hs'. apply tsorted_app in Hs' as (_ & (_ & Hsr & _)%tsorted_app & _).
  rewrite app_assoc in El. rewrite El in Hnx. split_and!; [done| |].
  - intros x Hx. rewrite <- Hnx by (apply elem_of_app; by left).
    apply elem_of_app in Hx as [Hx|Hx]; [|by rewrite Heq].
    specialize (Hb x Hx). rewrite tlt_iff in Hb. lia.
  - intros x Hx. rewrite <- Hnx by (apply elem_of_app; by right).
    assert (Hge : forall y, y ∈ rest -> now <= next_at h' y).
    { intros y Hy. specialize (Hf y). rewrite elem_of_app, tlt_iff in Hf. specialize (Hf (or_intror Hy)). lia. }
    destruct rest as [|y rest]; [by apply elem_of_nil in Hx|].
    pose proof (Hge y ltac:(left)) as Hy. apply elem_of_cons in Hx as [->|Hx]; [lia|].
    apply StronglySorted_inv in Hsr as [_ Hfr]. rewrite Forall_forall in Hfr.
    specialize (Hfr x Hx). rewrite tlt_iff in Hfr. lia.
Qed.

(** The timers an expiry scan at time [now] takes: those that are due, or all
    when the clock was set back by more than an hour. *)
Definition expired_at (m : TimerManager) (now : Z) : list Z :=
  if fst (TimerManager_detectClockRollover m now) then m_timers m
  else filter (fun p => next_at (tm_heap m) p <= now) (m_timers m).

Lemma filter_split {A} (P : A -> Prop) `{forall x, Decision (P x)} (a b : list A) :
  (forall x, x ∈ a -> P x) -> (forall x, x ∈ b -> ~ P x) -> filter P (a ++ b) = a.
Proof.
  intros Ha Hb. induction a as [|x a IH]; cbn [app].
  - induction b as [|x b IHb]; [done|]. rewrite filter_cons, decide_False by (apply Hb; left).
    apply IHb. intros. apply Hb. by right.
  - rewrite filter_cons, decide_True by (apply Ha; left). f_equal. apply IH. intros. apply Ha. by right.
Qed.

Lemma listExpiredCb_spec m now a :
  inv m -> tm_heap m !! a = None ->
  exists m', TimerManager_listExpiredCb m now a = Ok (map (cb_at (tm_heap m)) (expired_at m now), m') /\
    inv m' /\
    (forall x, x ∈ m_timers m' <->
       x ∈ m_timers m /\ (x ∉ expired_at m now \/ recurring_at (tm_heap m) x)) /\
    (forall x, tm_heap m' !! x =
       if decide (x ∈ expired_at m now) then fired now <$> tm_heap m !! x else tm_heap m !! x) /\
    m_tickled m' = m_tickled m.
Proof.
  intros I Hnone. pose proof I as [Hs Ha Hl].
  assert (Han : a ∉ m_timers m) by (intros Hx%Ha; rewrite Hnone in Hx; by destruct Hx).
  unfold TimerManager_listExpiredCb.
  destruct (m_timers m) as [|p0 l0] eqn:El.
  { assert (expired_at m now = []) as -> by (unfold expired_at; rewrite El; by destruct (fst _)).
    exists m. rewrite El. split_and!; try done. set_solver. }
  rewrite ?El in Hs, Ha, Hl, Han. unfold expired_at. destruct (TimerManager_detectClockRollover m now) as [roll m0] eqn:Ed. cbn [fst].
  assert (m0 = mkTimerManager (tm_heap m) (p0 :: l0) (m_tickled m) now) as ->
    by (injection Ed as _ <-; by rewrite El).
  cbn [tm_heap m_timers]. clear Ed. rewrite El.
  destruct (negb roll && (now <? next_at (tm_heap m) p0)) eqn:Eearly.
  - apply andb_prop in Eearly as [->%negb_true_iff Hlt%Z.ltb_lt].
    rewrite (filter_split _ [] (p0 :: l0)).
    + eexists. split; [reflexivity|]. cbn. split_and!; try done. intros x. pose proof (not_elem_of_nil x). tauto.
    + set_solver.
    + intros x [->|Hx]%elem_of_cons; [lia|]. apply StronglySorted_inv in Hs as [_ Hf].
      rewrite Forall_forall in Hf. specialize (Hf x Hx). rewrite tlt_iff in Hf. lia.
  - set (E := if roll then p0 :: l0 else _).
    assert (Hsplit : exists rest, (let '(before, from) := if roll then (p0 :: l0, []) else
               lower_bound (<[a := Timer_at now]> (tm_heap m)) a (p0 :: l0) in
             let '(equal, rest) := skip_now (<[a := Timer_at now]> (tm_heap m)) now from in
             fire_all now (with_timers (mkTimerManager (tm_heap m) (p0 :: l0) (m_tickled m) now) rest)
               (before ++ equal)) =
             fire_all now (mkTimerManager (tm_heap m) rest (m_tickled m) now) E /\
             p0 :: l0 = E ++ rest).
    { destruct roll; [exists []; cbn; by rewrite !app_nil_r|].
      destruct (lower_bound _ a _) as [before from] eqn:Elb.
      destruct (skip_now _ now from) as [equal rest] eqn:Esk. exists rest.
      destruct (split_expired _ _ _ _ _ _ _ _ Hs Han Elb Esk) as (Esp & Hle & Hgt).
      assert (E = before ++ equal) as ->; [|done]. unfold E. rewrite Esp. apply filter_split; [done|].
      intros x Hx. specialize (Hgt x Hx). lia. }
    destruct Hsplit as (rest & -> & Esp). rewrite Esp in *. clearbody E.
    pose proof (tsorted_NoDup _ _ Hs) as (HndE & Hdis & _)%NoDup_app.
    apply tsorted_app in Hs as (_ & Hsr & _).
    edestruct (fire_all_spec now E) as (m' & -> & I' & Hin & Hh & Ht & _); cbn [tm_heap m_timers].
    + exact Hsr.
    + done.
    + intros x Hx. split; [by apply Hdis|]. apply Ha. set_solver.
    + intros x Hx. apply Ha. set_solver.
    + intros x t Hx Hc. pose proof (Hl x t Hx Hc). set_solver.
    + exists m'. split_and!; try done. cbn in Hin. intros x. rewrite Hin.
      specialize (Hdis x). set_solver.
Qed.

(** ** Runs of the manager *)

(** One operation by some thread; the label lists the timers whose callbacks it
    hands out. *)
Inductive tstep (m : TimerManager) : list Z -> TimerManager -> Prop :=
| step_add now p ms cb r :
    tm_heap m !! p = None -> tstep m [] (snd (TimerManager_addTimer m now p ms cb r))
| step_cancel p r m' : Timer_cancel m p = Ok (r, m') -> tstep m [] m'
| step_refresh now p r m' : Timer_refresh m now p = Ok (r, m') -> tstep m [] m'
| step_reset now p ms from_now r n m' : Timer_reset m now p ms from_now = Ok (r, n, m') -> tstep m [] m'
| step_next now : tstep m [] (snd (TimerManager_getNextTimer m now))
| step_expire now a cbs m' :
    tm_heap m !! a = None -> TimerManager_listExpiredCb m now a = Ok (cbs, m') ->
    tstep m (expired_at m now) m'.

(** A run and all the timers it fires, in order. *)
Inductive trun : TimerManager -> list Z -> TimerManager -> Prop :=
| trun_nil m : trun m [] m
| trun_cons m f m1 fs m2 : tstep m f m1 -> trun m1 fs m2 -> trun m (f ++ fs) m2.

Lemma getNextTimer_spec m now :
  tm_heap (snd (TimerManager_getNextTimer m now)) = tm_heap m /\
  m_timers (snd (TimerManager_getNextTimer m now)) = m_timers m /\
  m_tickled (snd (TimerManager_getNextTimer m now)) = false.
Proof.
  unfold TimerManager_getNextTimer. destruct (m_timers (with_tickled m false)) eqn:E; [done|].
  by destruct (_ <=? _).
Qed.

(** What any step does to the timer objects there are: [m_recurring] stays, a
    lost callback stays lost, no object comes back into the set, only members of
    the set fire, and a one-shot timer that fires is gone. *)
Definition effect (m : TimerManager) (f : list Z) (m' : TimerManager) : Prop :=
  forall p t, tm_heap m !! p = Some t ->
    exists t', tm_heap m' !! p = Some t' /\ m_recurring t' = m_recurring t /\
      (m_cb t = None -> m_cb t' = None) /\
      (p ∈ m_timers m' -> p ∈ m_timers m) /\ (p ∈ f -> p ∈ m_timers m) /\
      (p ∈ f -> m_recurring t = false -> m_cb t' = None /\ p ∉ m_timers m').

(** Steps that fire nothing and change at most the object [q]. *)
Lemma effect_update m m' q tq :
  tm_heap m' = <[q := tq]> (tm_heap m) ->
  (forall t, tm_heap m !! q = Some t -> m_recurring tq = m_recurring t /\ (m_cb t = None -> m_cb tq = None)) ->
  (forall p, is_Some (tm_heap m !! p) -> p ∈ m_timers m' -> p ∈ m_timers m) ->
  effect m [] m'.
Proof.
  intros Hh Hq Hin p t Hp. pose proof (not_elem_of_nil p) as Hnil. rewrite Hh.
  pose proof (Hin p ltac:(by rewrite Hp)). destruct (decide (q = p)) as [->|Hne].
  - exists tq. rewrite lookup_insert_eq. destruct (Hq t Hp). naive_solver.
  - exists t. rewrite lookup_insert_ne by done. naive_solver.
Qed.

Lemma effect_same m m' : tm_heap m' = tm_heap m -> m_timers m' = m_timers m -> effect m [] m'.
Proof.
  intros Hh Ht p t Hp. pose proof (not_elem_of_nil p). exists t. rewrite Hh, Ht. naive_solver.
Qed.

Lemma effect_expire m now a cbs m' :
  inv m -> tm_heap m !! a = None -> TimerManager_listExpiredCb m now a = Ok (cbs, m') ->
  inv m' /\ NoDup (expired_at m now) /\ effect m (expired_at m now) m'.
Proof.
  intros I Ha E. destruct (listExpiredCb_spec m now a I Ha) as (m1 & E1 & I1 & Hin & Hh & _).
  rewrite E in E1. injection E1 as _ <-.
  pose proof (tsorted_NoDup _ _ (inv_sorted _ I)) as Hnd.
  split; [done|]. split; [unfold expired_at; destruct (fst _); [done|by apply NoDup_filter]|].
  intros p t Hp. specialize (Hin p). specialize (Hh p). unfold recurring_at in Hin. rewrite Hp in Hin, Hh.
  cbn in Hin, Hh.
  assert (Hsub : p ∈ expired_at m now -> p ∈ m_timers m).
  { unfold expired_at. destruct (fst _); [done|]. rewrite list_elem_of_filter. tauto. }
  case_decide as Hex; [exists (fired now t)|exists t]; rewrite Hh; split_and!; try done; try tauto.
  - unfold fired. by destruct (m_recurring t) eqn:Er.
  - unfold fired. by destruct (m_recurring t).
  - intros _ Hr. unfold fired. rewrite Hin, Hr. cbn. tauto.
Qed.

Lemma tstep_effect m f m' : inv m -> tstep m f m' -> inv m' /\ NoDup f /\ effect m f m'.
Proof.
  intros I Hstep.
  destruct Hstep as [now q ms cb r Hq|q r m' E|now q r m' E|now q ms fn r n m' E|now|now a cbs m' Ha E].
  - split_and!; [by auto with inv|constructor|].
    set (m1 := with_heap m (<[q := Timer_new now ms cb r]> (tm_heap m))).
    destruct (addTimer_locked_spec m1 q) as (_ & Hperm & Hh & _).
    + apply tsorted_update; [|apply I]. intros Hx%(inv_alloc _ I). rewrite Hq in Hx. by destruct Hx.
    + intros Hx%(inv_alloc _ I). rewrite Hq in Hx. by destruct Hx.
    + eapply effect_update; [exact Hh|rewrite Hq; done|].
      intros p [t Hp]. unfold TimerManager_addTimer. fold m1. rewrite Hperm, elem_of_cons.
      intros [->|]; [congruence|done].
  - destruct (tm_heap m !! q) as [t|] eqn:Hq; [|unfold Timer_cancel in E; by rewrite Hq in E].
    destruct (cancel_inv m q t I Hq) as (r' & m1 & E1 & I1 & _ & Ht & Hf).
    rewrite E in E1. injection E1 as <- <-. split_and!; [done|constructor|].
    destruct r; [|rewrite Hf by done; by apply effect_same].
    destruct Ht as (_ & Hperm & Hh); [done|]. eapply effect_update; [exact Hh| |].
    + rewrite Hq. intros ? [= <-]. done.
    + intros p _. rewrite Hperm. by right.
  - destruct (tm_heap m !! q) as [t|] eqn:Hq; [|unfold Timer_refresh in E; by rewrite Hq in E].
    destruct (refresh_inv m now q t I Hq) as (r' & m1 & E1 & _ & Ht & Hf).
    rewrite E in E1. injection E1 as <- <-.
    destruct r; [|rewrite Hf by done; split_and!; [done|constructor|by apply effect_same]].
    destruct Ht as [(I1 & Hh & Hperm & _) _]; [done|]. split_and!; [done|constructor|].
    eapply effect_update; [exact Hh|rewrite Hq; by intros ? [= <-]|]. intros p _. by rewrite Hperm.
  - destruct (tm_heap m !! q) as [t|] eqn:Hq; [|unfold Timer_reset in E; by rewrite Hq in E].
    destruct (reset_inv m now q t ms fn I Hq) as (r' & n' & m1 & E1 & Hcase).
    rewrite E in E1. injection E1 as <- <- <-.
    destruct Hcase as [[-> _]|(_ & _ & (I1 & Hh & Hperm & _) & _)];
      [split_and!; [done|constructor|by apply effect_same]|]. split_and!; [done|constructor|].
    eapply effect_update; [exact Hh|rewrite Hq; by intros ? [= <-]|]. intros p _. by rewrite Hperm.
  - destruct (getNextTimer_spec m now) as (Hh & Ht & _). split_and!; [|constructor|by apply effect_same].
    destruct I. constructor; rewrite ?Hh, ?Ht; done.
  - by eapply effect_expire.
Qed.

Lemma trun_inv m fs m' : inv m -> trun m fs m' -> inv m'.
Proof. intros I H. induction H; [done|]. apply IHtrun. by eapply tstep_effect. Qed.

(** A timer that is out of the set and has lost its callback. *)
Definition dead (m : TimerManager) (p : Z) : Prop :=
  p ∉ m_timers m /\ exists t, tm_heap m !! p = Some t /\ m_cb t = None.

Lemma dead_run m fs m' p : inv m -> trun m fs m' -> dead m p -> p ∉ fs /\ dead m' p.
Proof.
  intros I H. induction H as [|m f m1 fs m2 Hs _ IH]; intros Hd; [set_solver|].
  destruct (tstep_effect _ _ _ I Hs) as (I1 & _ & He). destruct Hd as (Hn & t & Hp & Hc).
  destruct (He p t Hp) as (t' & Hp' & _ & Hc' & Hin & Hf & _).
  destruct (IH I1) as [Hfs Hd']; [split; [tauto|eauto]|]. rewrite elem_of_app. tauto.
Qed.

(** A manager with a one-shot timer at 3000 and a recurring one at 5000, used
    by the witnesses below. *)
Definition demo : TimerManager :=
  snd (TimerManager_addTimer
    (snd (TimerManager_addTimer (TimerManager_new 0) 2000 64 1000 (Some (Cb 1)) false))
    0 32 5000 (Some (Cb 2)) true).

Lemma demo_run : trun (TimerManager_new 0) [] demo.
Proof.
  apply (trun_cons _ [] (snd (TimerManager_addTimer (TimerManager_new 0) 2000 64 1000 (Some (Cb 1)) false)) []).
  { constructor. reflexivity. }
  apply (trun_cons _ [] demo []); constructor. reflexivity.
Qed.

(** Whatever operations threads perform on a [TimerManager], the set stays
    sorted and every operation on an existing timer returns: [cancel] never
    erases [end()], and it returns [true] exactly when the timer still has its
    callback; [refresh], [reset] and the expiry scan return too. *)
Lemma TimerManager_operations_safe now0 fs m :
  trun (TimerManager_new now0) fs m ->
  tsorted (tm_heap m) (m_timers m) /\
  (forall p t, tm_heap m !! p = Some t ->
     (exists m', Timer_cancel m p = Ok (bool_decide (is_Some (m_cb t)), m')) /\
     (forall now, exists m', Timer_refresh m now p = Ok (bool_decide (is_Some (m_cb t)), m')) /\
     (forall now ms from_now, exists r n m', Timer_reset m now p ms from_now = Ok (r, n, m'))) /\
  (forall now a, tm_heap m !! a = None -> exists cbs m', TimerManager_listExpiredCb m now a = Ok (cbs, m')).
Proof.
  intros Hrun. pose proof (trun_inv _ _ _ (inv_new now0) Hrun) as I. split_and!; [apply I| |].
  - intros p t Hp. split_and!; intros.
    + destruct (cancel_inv m p t I Hp) as (r & m' & E & _ & -> & _). eauto.
    + destruct (refresh_inv m now p t I Hp) as (r & m' & E & -> & _). eauto.
    + destruct (reset_inv m now p t ms from_now I Hp) as (r & n & m' & E & _). eauto.
  - intros now a Ha. destruct (listExpiredCb_spec m now a I Ha) as (m' & E & _). eauto.
Qed.

Lemma TimerManager_operations_safe_witness :
  tsorted (tm_heap demo) (m_timers demo) /\
  (forall p t, tm_heap demo !! p = Some t ->
     (exists m', Timer_cancel demo p = Ok (bool_decide (is_Some (m_cb t)), m')) /\
     (forall now, exists m', Timer_refresh demo now p = Ok (bool_decide (is_Some (m_cb t)), m')) /\
     (forall now ms from_now, exists r n m', Timer_reset demo now p ms from_now = Ok (r, n, m'))) /\
  (forall now a, tm_heap demo !! a = None -> exists cbs m', TimerManager_listExpiredCb demo now a = Ok (cbs, m')).
Proof. exact (TimerManager_operations_safe 0 [] demo demo_run). Defined.

(** C8: [listExpiredCb] hands out, in order of expiry, the callbacks of exactly
    the timers that are due ([m_next <= now]), or of all timers when the clock
    was set back by more than an hour; it removes the one-shot timers among them
    and takes their callback away, reschedules the recurring ones at
    [now + m_ms], and leaves every other timer alone.  The address of the
    temporary object the search uses plays no role. *)
Theorem listExpiredCb_exact now0 fs m now a :
  trun (TimerManager_new now0) fs m -> tm_heap m !! a = None ->
  let due := if fst (TimerManager_detectClockRollover m now) then m_timers m
             else filter (fun p => next_at (tm_heap m) p <= now) (m_timers m) in
  exists m', TimerManager_listExpiredCb m now a = Ok (map (cb_at (tm_heap m)) due, m') /\
    tsorted (tm_heap m') (m_timers m') /\
    (forall x, x ∈ m_timers m' <-> x ∈ m_timers m /\ (x ∉ due \/ recurring_at (tm_heap m) x)) /\
    (forall x, tm_heap m' !! x = if decide (x ∈ due) then fired now <$> tm_heap m !! x else tm_heap m !! x).
Proof.
  intros Hrun Ha. pose proof (trun_inv _ _ _ (inv_new now0) Hrun) as I.
  destruct (listExpiredCb_spec m now a I Ha) as (m' & E & I' & Hin & Hh & _).
  exists m'. split_and!; try done. apply I'.
Qed.

Lemma listExpiredCb_exact_witness :
  let due := if fst (TimerManager_detectClockRollover demo 3000) then m_timers demo
             else filter (fun p => next_at (tm_heap demo) p <= 3000) (m_timers demo) in
  due = [64] /\
  exists m', TimerManager_listExpiredCb demo 3000 128 = Ok (map (cb_at (tm_heap demo)) due, m') /\
    tsorted (tm_heap m') (m_timers m') /\
    (forall x, x ∈ m_timers m' <-> x ∈ m_timers demo /\ (x ∉ due \/ recurring_at (tm_heap demo) x)) /\
    (forall x, tm_heap m' !! x = if decide (x ∈ due) then fired 3000 <$> tm_heap demo !! x else tm_heap demo !! x).
Proof.
  split; [vm_compute; reflexivity|].
  apply (listExpiredCb_exact 0 [] demo 3000 128 demo_run). vm_compute. reflexivity.
Defined.

(** Once [cancel] has returned [true], no later expiry scan hands out the
    timer's callback, whatever other operations (including [refresh] and
    [reset] of the same timer) come in between. *)
Lemma cancelled_never_fires now0 fs0 m p m1 fs m2 :
  trun (TimerManager_new now0) fs0 m -> Timer_cancel m p = Ok (true, m1) -> trun m1 fs m2 -> p ∉ fs.
Proof.
  intros H0 Hc H1. pose proof (trun_inv _ _ _ (inv_new now0) H0) as I.
  destruct (tm_heap m !! p) as [t|] eqn:Hp; [|unfold Timer_cancel in Hc; by rewrite Hp in Hc].
  destruct (cancel_inv m p t I Hp) as (r & m' & E & I' & _ & Ht & _).
  rewrite Hc in E. injection E as <- <-. destruct Ht as (Hn & _ & Hh); [done|].
  eapply dead_run; [exact I'|exact H1|]. split; [done|]. rewrite Hh, lookup_insert_eq. eauto.
Qed.

Lemma cancelled_never_fires_witness :
  exists m1, Timer_cancel demo 64 = Ok (true, m1) /\ 64 ∉ expired_at m1 9000.
Proof.
  eexists. split; [vm_compute; reflexivity|].
  refine (cancelled_never_fires 0 [] demo 64 _ _ _ demo_run _ _); [vm_compute; reflexivity|].
  rewrite <- (app_nil_r (expired_at _ _)). eapply trun_cons; [|apply trun_nil].
  eapply (step_expire _ 9000 128); vm_compute; reflexivity.
Defined.

Lemma trun_recurring m fs m' p t :
  inv m -> trun m fs m' -> tm_heap m !! p = Some t ->
  exists t', tm_heap m' !! p = Some t' /\ m_recurring t' = m_recurring t.
Proof.
  intros I H. revert t. induction H as [|m f m1 fs m2 Hs _ IH]; intros t Hp; [eauto|].
  destruct (tstep_effect _ _ _ I Hs) as (I1 & _ & He).
  destruct (He p t Hp) as (t1 & Hp1 & Hr & _). destruct (IH I1 t1 Hp1) as (t2 & Hp2 & Hr2).
  exists t2. split; congruence.
Qed.

Lemma filter_eq_length (p : Z) (l : list Z) :
  NoDup l -> (length (filter (fun x => x = p) l) <= 1)%nat /\
  (p ∉ l -> length (filter (fun x => x = p) l) = 0%nat).
Proof.
  induction 1 as [|x l Hx _ [IH1 IH2]]; [cbn; lia|]. rewrite filter_cons. case_decide as E.
  - subst x. cbn. rewrite (IH2 Hx). split; [lia|]. intros []. left.
  - split; [done|]. intros Hp. apply IH2. set_solver.
Qed.

Lemma filter_eq_notin (p : Z) (l : list Z) : p ∉ l -> filter (fun x => x = p) l = [].
Proof.
  induction l as [|x l IH]; intros Hp; [done|]. rewrite filter_cons, decide_False by set_solver.
  apply IH. set_solver.
Qed.

Lemma oneshot_run m fs m' p t :
  inv m -> trun m fs m' -> tm_heap m' !! p = Some t -> m_recurring t = false ->
  (length (filter (fun x => x = p) fs) <= 1)%nat.
Proof.
  intros I H Hp Hr. induction H as [|m f m1 fs m2 Hs Hrun IH]; [cbn; lia|].
  destruct (tstep_effect _ _ _ I Hs) as (I1 & Hnd & He).
  rewrite filter_app, length_app. destruct (filter_eq_length p f Hnd) as [Hle H0].
  destruct (decide (p ∈ f)) as [Hf|Hf]; [|rewrite (H0 Hf); by apply IH].
  destruct (tm_heap m !! p) as [t0|] eqn:Hp0.
  - destruct (trun_recurring m (f ++ fs) m2 p t0 I) as (t' & Hp' & Hr'); [by econstructor|done|].
    destruct (He p t0 Hp0) as (t1 & Hp1 & _ & _ & _ & _ & Hd).
    destruct Hd as [Hc Hn]; [done|congruence|].
    destruct (dead_run m1 fs m2 p I1 Hrun) as [Hfs _]; [split; eauto|].
    rewrite (filter_eq_notin p fs Hfs). cbn. lia.
  - exfalso. assert (Hin : p ∈ m_timers m); [|apply (inv_alloc _ I) in Hin; rewrite Hp0 in Hin; by destruct Hin].
    destruct Hs; try (by apply elem_of_nil in Hf). unfold expired_at in Hf.
    destruct (fst _); [done|]. apply list_elem_of_filter in Hf. tauto.
Qed.

(** A one-shot timer fires at most once in any run. *)
Lemma oneshot_fires_once now0 fs m p t :
  trun (TimerManager_new now0) fs m -> tm_heap m !! p = Some t -> m_recurring t = false ->
  (length (filter (fun x => x = p) fs) <= 1)%nat.
Proof. apply oneshot_run, inv_new. Qed.

Lemma oneshot_fires_once_witness :
  exists m, trun (TimerManager_new 0) [64; 32] m /\ (length (filter (fun x => x = 64) [64; 32]) <= 1)%nat.
Proof.
  assert (H : exists m, trun (TimerManager_new 0) [64; 32] m /\
            tm_heap m !! 64 = Some (mkTimer false 1000 3000 None)).
  { eexists. split.
    - apply (trun_cons _ [] (snd (TimerManager_addTimer (TimerManager_new 0) 2000 64 1000 (Some (Cb 1)) false))).
      { constructor. reflexivity. }
      apply (trun_cons _ [] demo); [constructor; reflexivity|].
      change [64; 32] with (expired_at demo 6000 ++ []). eapply trun_cons; [|apply trun_nil].
      eapply (step_expire _ 6000 128); vm_compute; reflexivity.
    - vm_compute. reflexivity. }
  destruct H as (m & Hrun & Hp). exists m. split; [exact Hrun|].
  exact (oneshot_fires_once 0 _ m 64 _ Hrun Hp eq_refl).
Defined.

(** [getNextTimer] gives the epoll loop the right time to wait: the
    largest value when nothing is pending; [0] exactly when some timer is due;
    and otherwise the distance to the earliest expiry, so that waiting that long
    passes no timer. *)
Lemma getNextTimer_exact now0 fs m now :
  trun (TimerManager_new now0) fs m ->
  let w := fst (TimerManager_getNextTimer m now) in
  (m_timers m = [] -> w = U64_MAX) /\
  (m_timers m <> [] ->
   (w = 0 <-> exists p, p ∈ m_timers m /\ next_at (tm_heap m) p <= now) /\
   (0 < w -> (exists p, p ∈ m_timers m /\ next_at (tm_heap m) p = now + w) /\
             forall p, p ∈ m_timers m -> now + w <= next_at (tm_heap m) p) /\ 0 <= w).
Proof.
  intros Hrun w. pose proof (inv_sorted _ (trun_inv _ _ _ (inv_new now0) Hrun)) as Hs.
  unfold w, TimerManager_getNextTimer. cbn [with_tickled m_timers tm_heap].
  destruct (m_timers m) as [|q l]; [done|]. split; [done|]. intros _.
  assert (Hmin : forall p, p ∈ q :: l -> next_at (tm_heap m) q <= next_at (tm_heap m) p).
  { intros p [->|Hp]%elem_of_cons; [lia|]. apply StronglySorted_inv in Hs as [_ Hf].
    rewrite Forall_forall in Hf. specialize (Hf p Hp). rewrite tlt_iff in Hf. lia. }
  destruct (Z.leb_spec (next_at (tm_heap m) q) now); cbn [fst].
  - split_and!; try lia. split; [|done]. intros _. exists q. split; [left|done].
  - split_and!; [split| |lia].
    + lia.
    + intros (p & Hp & Hle). specialize (Hmin p Hp). lia.
    + intros _. split; [exists q; split; [left|lia]|]. intros p Hp. specialize (Hmin p Hp). lia.
Qed.

Lemma getNextTimer_exact_witness :
  let w := fst (TimerManager_getNextTimer demo 2500) in
  w = 500 /\
  ((m_timers demo = [] -> w = U64_MAX) /\
  (m_timers demo <> [] ->
   (w = 0 <-> exists p, p ∈ m_timers demo /\ next_at (tm_heap demo) p <= 2500) /\
   (0 < w -> (exists p, p ∈ m_timers demo /\ next_at (tm_heap demo) p = 2500 + w) /\
             forall p, p ∈ m_timers demo -> 2500 + w <= next_at (tm_heap demo) p) /\ 0 <= w)).
Proof. split; [vm_compute; reflexivity|]. exact (getNextTimer_exact 0 [] demo 2500 demo_run). Defined.

(** ** The sleeping epoll loop misses no timer *)

(** Every pending timer was started at some time up to [clk], [m_ms] before it
    expires. *)
Definition timely (clk : Z) (m : TimerManager) : Prop :=
  forall p t, tm_heap m !! p = Some t -> p ∈ m_timers m ->
    0 <= m_ms t /\ 0 <= m_next t - m_ms t <= clk /\ m_next t < 2 ^ 64.

(** No pending timer's period takes the clock past 64 bits. *)
Definition fits (now : Z) (m : TimerManager) : Prop :=
  forall p t, tm_heap m !! p = Some t -> p ∈ m_timers m -> now + m_ms t < 2 ^ 64.

(** The states a manager can reach when the clock does not run backwards,
    together with the clock [clk], the deadline [d] the last [getNextTimer]
    asked its caller to sleep until ([None] when it said not to sleep), and
    whether [onTimerInsertedAtFront] was called since. *)
Inductive waiting : Z -> option Z -> bool -> TimerManager -> Prop :=
| wait_new now : 0 <= now -> waiting now None false (TimerManager_new now)
| wait_add clk d n m now p ms cb r n' m' :
    waiting clk d n m -> clk <= now -> tm_heap m !! p = None -> 0 <= ms -> now + ms < 2 ^ 64 ->
    TimerManager_addTimer m now p ms cb r = (n', m') -> waiting now d (n || n') m'
| wait_cancel clk d n m p r m' :
    waiting clk d n m -> Timer_cancel m p = Ok (r, m') -> waiting clk d n m'
| wait_refresh clk d n m now p r m' :
    waiting clk d n m -> clk <= now -> fits now m -> Timer_refresh m now p = Ok (r, m') ->
    waiting now d n m'
| wait_reset clk d n m now p ms from_now r n' m' :
    waiting clk d n m -> clk <= now -> 0 <= ms -> now + ms < 2 ^ 64 ->
    Timer_reset m now p ms from_now = Ok (r, n', m') -> waiting now d (n || n') m'
| wait_expire clk d n m now a cbs m' :
    waiting clk d n m -> clk <= now -> fits now m -> tm_heap m !! a = None ->
    TimerManager_listExpiredCb m now a = Ok (cbs, m') -> waiting now d n m'
| wait_next clk d n m now w m' :
    waiting clk d n m -> clk <= now -> TimerManager_getNextTimer m now = (w, m') ->
    waiting now (if w =? 0 then None else Some (now + w)) false m'.

(** What the proof carries along. *)
Record winv (clk : Z) (d : option Z) (n : bool) (m : TimerManager) : Prop := {
  winv_inv : inv m;
  winv_clk : 0 <= clk;
  winv_timely : timely clk m;
  winv_tickled : m_tickled m = true -> d <> None -> n = true;
  winv_front : forall d', d = Some d' -> m_tickled m = false -> n = false ->
    forall p, p ∈ m_timers m -> d' <= next_at (tm_heap m) p
}.

Lemma next_at_eq h p t : h !! p = Some t -> next_at h p = m_next t.
Proof. unfold next_at. by intros ->. Qed.

(** Moving timer [p], old or new, through [addTimer(val, lock)]: it is either
    not at the front, or the front is notified. *)
Lemma winv_move clk d n m m' now p t n' :
  winv clk d n m -> clk <= now -> inv m' ->
  tm_heap m' = <[p := t]> (tm_heap m) ->
  (forall x, x ∈ m_timers m' -> x = p \/ x ∈ m_timers m) ->
  0 <= m_ms t -> 0 <= m_next t - m_ms t <= now -> m_next t < 2 ^ 64 ->
  (n' = true <-> m_tickled m = false /\ exists l, m_timers m' = p :: l) ->
  m_tickled m' = m_tickled m || n' -> winv now d (n || n') m'.
Proof.
  intros [I Hc Ht Htk Hf] Hclk I' Hh Hin Hms Hst Hlt Hn' Htk'. constructor; [done|lia| | |].
  - intros x tx Hx Hxin. rewrite Hh, lookup_insert in Hx. case_decide; [injection Hx as <-; done|].
    destruct (Hin x Hxin) as [->|Hxm]; [done|]. destruct (Ht x tx Hx Hxm). lia.
  - rewrite Htk'. intros [E| ->]%orb_true_iff Hd; [by rewrite (Htk E Hd)|apply orb_true_r].
  - intros d' -> Ht' [Hn0 Hn0']%orb_false_iff x Hx.
    rewrite Htk' in Ht'. apply orb_false_iff in Ht' as [Htm _].
    assert (Hold : forall y, y <> p -> y ∈ m_timers m' -> d' <= next_at (tm_heap m') y).
    { intros y Hy Hyin. rewrite Hh, next_at_insert, decide_False by done.
      apply (Hf d'); try done. by destruct (Hin y Hyin). }
    destruct (decide (x = p)) as [->|]; [|by apply Hold].
    pose proof (inv_sorted _ I') as Hs. destruct (m_timers m') as [|q l] eqn:El; [by apply elem_of_nil in Hx|].
    destruct (decide (q = p)) as [->|Hq].
    { assert (n' = true) by (apply Hn'; eauto). congruence. }
    apply elem_of_cons in Hx as [->|Hx]; [done|].
    apply StronglySorted_inv in Hs as [_ HF]. rewrite Forall_forall in HF. specialize (HF p Hx).
    rewrite tlt_iff in HF. specialize (Hold q Hq ltac:(left)). lia.
Qed.

(** Steps that move timers only to later times. *)
Lemma winv_later clk d n m m' now :
  winv clk d n m -> clk <= now -> inv m' -> m_tickled m' = m_tickled m ->
  (forall p, p ∈ m_timers m' -> p ∈ m_timers m) ->
  (forall p t t', p ∈ m_timers m' -> tm_heap m !! p = Some t -> tm_heap m' !! p = Some t' ->
     m_ms t' = m_ms t /\ (m_next t' = m_next t \/ m_next t' = now + m_ms t /\ now + m_ms t < 2 ^ 64)) ->
  winv now d n m'.
Proof.
  intros [I Hc Ht Htk Hf] Hclk I' Htk' Hin Hnx.
  assert (Hget : forall p, p ∈ m_timers m' -> exists t t', tm_heap m !! p = Some t /\ tm_heap m' !! p = Some t').
  { intros p Hp. destruct (inv_alloc _ I p (Hin p Hp)) as [t ?], (inv_alloc _ I' p Hp) as [t' ?]. eauto. }
  constructor; [done|lia| |by rewrite Htk'|].
  - intros p t' Hp' Hpin. destruct (Hget p Hpin) as (t & ? & Hp & E). rewrite Hp' in E. injection E as <-.
    destruct (Ht p t Hp (Hin p Hpin)). destruct (Hnx p t t' Hpin Hp Hp'). lia.
  - intros d' -> Hm Hn p Hpin. destruct (Hget p Hpin) as (t & t' & Hp & Hp').
    pose proof (Hf d' eq_refl ltac:(congruence) Hn p (Hin p Hpin)) as Hle.
    rewrite (next_at_eq _ _ _ Hp) in Hle. rewrite (next_at_eq _ _ _ Hp').
    destruct (Ht p t Hp (Hin p Hpin)). destruct (Hnx p t t' Hpin Hp Hp'). lia.
Qed.

Lemma winv_cancel clk d n m p r m' : winv clk d n m -> Timer_cancel m p = Ok (r, m') -> winv clk d n m'.
Proof.
  intros W E. pose proof (winv_inv _ _ _ _ W) as I.
  destruct (tm_heap m !! p) as [t|] eqn:Hp; [|unfold Timer_cancel in E; by rewrite Hp in E].
  destruct (cancel_inv m p t I Hp) as (r' & m1 & E1 & I1 & _ & Ht & Hf).
  pose proof E as E2. rewrite E1 in E2. injection E2 as -> ->.
  destruct r; [|by rewrite Hf]. destruct Ht as (_ & Hperm & Hh); [done|].
  eapply winv_later; [exact W|lia|done| | |].
  - revert E. unfold Timer_cancel. rewrite Hp. cbn [deref]. destruct (non_null _); [|by intros [=]].
    destruct (set_erase _); cbn; try done. by intros [= <-].
  - intros x Hx. rewrite Hperm. by right.
  - intros x tx tx' Hx Hm. rewrite Hh, lookup_insert. case_decide; [|intros; split; [|left]; congruence].
    subst x. rewrite Hp in Hm. injection Hm as <-. intros [= <-]. cbn. auto.
Qed.

Lemma winv_refresh clk d n m now p r m' :
  winv clk d n m -> clk <= now -> fits now m -> Timer_refresh m now p = Ok (r, m') -> winv now d n m'.
Proof.
  intros W Hc Hfit E. pose proof (winv_inv _ _ _ _ W) as I.
  destruct (tm_heap m !! p) as [t|] eqn:Hp; [|unfold Timer_refresh in E; by rewrite Hp in E].
  destruct (refresh_inv m now p t I Hp) as (r' & m1 & E1 & _ & Ht & Hf).
  rewrite E1 in E. injection E as -> ->.
  destruct r; [|rewrite (Hf eq_refl); eapply winv_later; [exact W|done|done|done|done|];
                intros; simplify_eq; auto].
  destruct Ht as [(I1 & Hh & Hperm & _) Htk]; [done|].
  eapply winv_later; [exact W|done|done|done|intros x Hx; by rewrite <- Hperm|].
  intros x tx tx' Hx Hm. rewrite Hperm in Hx.
  rewrite Hh, lookup_insert. case_decide; [|intros; simplify_eq; auto].
  subst x. rewrite Hp in Hm. injection Hm as <-. intros [= <-]. cbn. split; [done|]. right.
  pose proof (Hfit p t Hp Hx). destruct (winv_timely _ _ _ _ W p t Hp Hx). pose proof (winv_clk _ _ _ _ W).
  split; [|done]. apply uwrap_small. lia.
Qed.

Lemma winv_expire clk d n m now a cbs m' :
  winv clk d n m -> clk <= now -> fits now m -> tm_heap m !! a = None ->
  TimerManager_listExpiredCb m now a = Ok (cbs, m') -> winv now d n m'.
Proof.
  intros W Hc Hfit Ha E. pose proof (winv_inv _ _ _ _ W) as I.
  destruct (listExpiredCb_spec m now a I Ha) as (m1 & E1 & I1 & Hin & Hh & Htk).
  rewrite E1 in E. injection E as _ ->.
  assert (Hsub : forall x, x ∈ m_timers m' -> x ∈ m_timers m) by (intros x Hx; apply Hin in Hx; tauto).
  eapply winv_later; [exact W|done|done|done|done|].
  intros x t t' Hx Hm. rewrite Hh, Hm. pose proof Hx as [_ Hrec]%Hin.
  case_decide as Hex; [|intros; simplify_eq; auto]. destruct Hrec as [|Hrec]; [done|].
  unfold recurring_at in Hrec. rewrite Hm in Hrec. cbn in Hrec. cbn. unfold fired.
  destruct (m_recurring t); [|done]. intros [= <-]. cbn. split; [done|]. right.
  pose proof (Hfit x t Hm (Hsub x Hx)). destruct (winv_timely _ _ _ _ W x t Hm (Hsub x Hx)).
  pose proof (winv_clk _ _ _ _ W). split; [|done]. apply uwrap_small. lia.
Qed.

Lemma winv_reset clk d n m now p ms from_now r n' m' :
  winv clk d n m -> clk <= now -> 0 <= ms -> now + ms < 2 ^ 64 ->
  Timer_reset m now p ms from_now = Ok (r, n', m') -> winv now d (n || n') m'.
Proof.
  intros W Hc Hms Hlt E. pose proof (winv_inv _ _ _ _ W) as I.
  destruct (tm_heap m !! p) as [t|] eqn:Hp; [|unfold Timer_reset in E; by rewrite Hp in E].
  destruct (reset_inv m now p t ms from_now I Hp) as (r' & n1 & m1 & E1 & Hcase).
  rewrite E1 in E. injection E as -> -> ->.
  destruct Hcase as [[-> ->]|(_ & Hcb & (I1 & Hh & Hperm & _) & Hn & Htk)].
  { rewrite orb_false_r. eapply winv_later; [exact W|done|done|done|done|]. intros; simplify_eq; auto. }
  pose proof (inv_live _ I p t Hp Hcb) as Hin. pose proof (winv_clk _ _ _ _ W).
  destruct (winv_timely _ _ _ _ W p t Hp Hin) as (Hm0 & Hst & Hn0).
  assert (Hstart : exists s, 0 <= s <= now /\
    (if from_now then now else u64 (m_next t - m_ms t)) = s).
  { eexists. split; [|reflexivity]. destruct from_now; [lia|]. rewrite uwrap_small; lia. }
  destruct Hstart as (s & Hs & Es). rewrite Es in Hh.
  assert (Eu : u64 (s + ms) = s + ms) by (apply uwrap_small; lia).
  eapply winv_move; [exact W|done|done|exact Hh| |cbn; lia|cbn; lia|cbn; lia|done|done].
  intros x Hx. right. by rewrite <- Hperm.
Qed.

Lemma winv_add clk d n m now p ms cb r n' m' :
  winv clk d n m -> clk <= now -> tm_heap m !! p = None -> 0 <= ms -> now + ms < 2 ^ 64 ->
  TimerManager_addTimer m now p ms cb r = (n', m') -> winv now d (n || n') m'.
Proof.
  intros W Hc Hp Hms Hlt E. pose proof (winv_inv _ _ _ _ W) as I. pose proof (winv_clk _ _ _ _ W).
  assert (Hpn : p ∉ m_timers m) by (intros Hx%(inv_alloc _ I); rewrite Hp in Hx; by destruct Hx).
  pose proof (addTimer_inv m now p ms cb r I Hp) as I1. rewrite E in I1.
  unfold TimerManager_addTimer in E.
  set (m1 := with_heap m (<[p := Timer_new now ms cb r]> (tm_heap m))) in *.
  destruct (addTimer_locked_spec m1 p) as (_ & Hperm & Hh & _ & Hn & Htk);
    [apply tsorted_update; [done|apply I]|done|].
  rewrite E in *. cbn [fst snd] in *.
  assert (Eu : u64 (now + ms) = now + ms) by (apply uwrap_small; lia).
  eapply winv_move; [exact W|done|done|exact Hh| |cbn; lia|cbn; lia|cbn; lia|exact Hn|exact Htk].
  intros x. rewrite Hperm, elem_of_cons. tauto.
Qed.

Lemma winv_next clk d n m now w m' :
  winv clk d n m -> clk <= now -> TimerManager_getNextTimer m now = (w, m') ->
  winv now (if w =? 0 then None else Some (now + w)) false m'.
Proof.
  intros W Hc E. pose proof (winv_inv _ _ _ _ W) as I. pose proof (winv_clk _ _ _ _ W).
  destruct (getNextTimer_spec m now) as (Hh & Ht & Htk). rewrite E in Hh, Ht, Htk. cbn in Hh, Ht, Htk.
  constructor; [destruct I; constructor; rewrite ?Hh, ?Ht; done|lia| |congruence|].
  - intros p t. rewrite Hh, Ht. intros Hp Hin. destruct (winv_timely _ _ _ _ W p t Hp Hin). lia.
  - intros d' Hd _ _ p. rewrite Hh, Ht. revert E. unfold TimerManager_getNextTimer.
    cbn [with_tickled m_timers tm_heap]. pose proof (inv_sorted _ I) as Hs.
    destruct (m_timers m) as [|q l]; [intros _ Hx; by apply elem_of_nil in Hx|].
    destruct (Z.leb_spec (next_at (tm_heap m) q) now); intros [= <- <-]; [done|].
    revert Hd. destruct (Z.eqb_spec (next_at (tm_heap m) q - now) 0); [done|]. intros [= <-] Hp.
    apply StronglySorted_inv in Hs as [_ HF]. rewrite Forall_forall in HF.
    apply elem_of_cons in Hp as [->|Hp]; [lia|]. specialize (HF p Hp). rewrite tlt_iff in HF. lia.
Qed.

Lemma waiting_winv clk d n m : waiting clk d n m -> winv clk d n m.
Proof.
  induction 1; [|by eapply winv_add|by eapply winv_cancel|by eapply winv_refresh
                |by eapply winv_reset|by eapply winv_expire|by eapply winv_next].
  constructor; [apply inv_new|done| |done|done]. intros p t. cbn. rewrite lookup_empty. done.
Qed.

(** C5: the thread that sleeps until the deadline [getNextTimer] gave it misses
    no timer.  However timers are added, cancelled, refreshed, reset and expired
    in the meantime, with a clock that does not run backwards, either
    [onTimerInsertedAtFront()] has been called (it wakes the thread) or every
    pending timer expires at the deadline or later. *)
Theorem no_missed_wakeup clk d m :
  waiting clk (Some d) false m -> forall p, p ∈ m_timers m -> d <= next_at (tm_heap m) p.
Proof.
  intros H%waiting_winv. destruct (m_tickled m) eqn:E.
  - pose proof (winv_tickled _ _ _ _ H E ltac:(done)). done.
  - by apply (winv_front _ _ _ _ H).
Qed.

(** One timer at 3000; the loop goes to sleep at 2500 until 3000, and a timer
    for 4600 comes in without waking it. *)
Lemma no_missed_wakeup_witness :
  exists m, waiting 2600 (Some 3000) false m /\ m_timers m = [64; 32] /\
    forall p, p ∈ m_timers m -> 3000 <= next_at (tm_heap m) p.
Proof.
  assert (H : exists m, waiting 2600 (Some 3000) false m /\ m_timers m = [64; 32]).
  { eexists. split; [eapply (wait_add 2500 (Some 3000) false _ 2600 32 2000 (Some (Cb 2)) false false)|].
    - eapply (wait_next 2000 None true _ 2500 500).
      + eapply (wait_add 0 None false (TimerManager_new 0) 2000 64 1000 (Some (Cb 1)) false true);
          [by constructor|lia|reflexivity|lia|lia|vm_compute; reflexivity].
      + lia.
      + vm_compute. reflexivity.
    - lia.
    - vm_compute. reflexivity.
    - lia.
    - lia.
    - vm_compute. reflexivity.
    - reflexivity. }
  destruct H as (m & Hw & Hm). exists m. split; [exact Hw|]. split; [exact Hm|].
  exact (no_missed_wakeup 2600 3000 m Hw).
Defined.

(** The expiry time wraps at 64 bits: a timer added for [ms] milliseconds
    with [now + ms >= 2^64] is due at once instead of in the far future, and the
    next expiry scan fires it. *)
Lemma addTimer_overflow now ms cb :
  0 < now < 2 ^ 63 -> ms < 2 ^ 64 -> 2 ^ 64 <= now + ms ->
  let m := snd (TimerManager_addTimer (TimerManager_new now) now 64 ms (Some cb) false) in
  next_at (tm_heap m) 64 = now + ms - 2 ^ 64 /\
  exists m', TimerManager_listExpiredCb m now 128 = Ok ([Some cb], m').
Proof.
  intros Hn Hms Hov m.
  assert (E : next_at (tm_heap m) 64 = now + ms - 2 ^ 64).
  { unfold m, next_at. cbn -[Z.pow]. unfold uwrap. symmetry. apply Z.mod_unique_pos with 1; lia. }
  split; [done|].
  assert (I : inv m) by (apply addTimer_inv; [apply inv_new|done]).
  destruct (listExpiredCb_spec m now 128 I) as (m' & -> & _); [done|]. exists m'. do 2 f_equal.
  unfold expired_at. replace (fst (TimerManager_detectClockRollover m now)) with false.
  - change (m_timers m) with [64]. rewrite filter_cons, decide_True by lia. done.
  - unfold m. cbn. rewrite Z.ltb_irrefl. done.
Qed.

Lemma addTimer_overflow_witness :
  let m := snd (TimerManager_addTimer (TimerManager_new 1000) 1000 64 (2 ^ 64 - 1) (Some (Cb 1)) false) in
  next_at (tm_heap m) 64 = 1000 + (2 ^ 64 - 1) - 2 ^ 64 /\
  exists m', TimerManager_listExpiredCb m 1000 128 = Ok ([Some (Cb 1)], m').
Proof. apply addTimer_overflow; lia. Defined.
