(* ===== verification/Fiber.v ===== *)
(** * Coroutines ([coroutine.h], [coroutine.cc])

    Fibers live in a heap shared by all threads; each thread has its own
    thread-local pointers.  A [ucontext_t] is modelled by what happens when it
    is loaded: entering [MainFunc] or [CallerMainFunc] on the fiber's own stack,
    resuming the execution that was saved in it, or resuming an execution at the
    point the source marks "never reach".  [on_cpu] is the fiber whose code the
    thread is really executing; the source keeps its opinion of that in
    [t_fiber].  [swapcontext] saves whatever is on the CPU, so saving into the
    context of another fiber is representable, and is what the theorems
    exclude. *)

From S2P Require Import Prelude.
From Stdlib Require Import ZArith Lia List.
From stdpp Require Import base tactics list numbers option gmap.

Open Scope Z_scope.

(** @src coroutine.h:103-110 Fiber::State *)
Inductive FiberState := INIT | HOLD | EXEC | TERM | READY | EXCEPT.

#[export] Instance FiberState_eq_dec : EqDecision FiberState.
Proof. solve_decision. Defined.

Definition state_eqb (a b : FiberState) : bool := bool_decide (a = b).

Inductive context :=
| CtxNone
| CtxMainFunc
| CtxCallerMainFunc
| CtxSaved (x : Z)
| CtxNeverReach.

(** @src coroutine.h:212-217 Fiber *)
Record Fiber := mkFiber {
  m_id : Z;
  m_stack : bool;
  m_stacksize : Z;
  m_state : FiberState;
  m_ctx : context;
  f_cb : option Z
}.

(** @src coroutine.cc:23-26 s_fiber_id
    What all threads share. *)
Record fibers := mkFibers {
  heap : gmap Z Fiber;
  s_fiber_id : Z;
  s_fiber_count : Z
}.

(** @src coroutine.cc:29-32 t_fiber
    The thread-local variables of [coroutine.cc] and [scheduler.cc] that concern
    fibers, and the fiber on the CPU. *)
Record tls := mkTls {
  t_fiber : option Z;
  t_threadFiber : option Z;
  t_scheduler_fiber : option Z;
  on_cpu : Z
}.

Definition set_state (f : Fiber) (s : FiberState) : Fiber :=
  mkFiber (m_id f) (m_stack f) (m_stacksize f) s (m_ctx f) (f_cb f).
Definition set_ctx (f : Fiber) (c : context) : Fiber :=
  mkFiber (m_id f) (m_stack f) (m_stacksize f) (m_state f) c (f_cb f).
Definition set_cb (f : Fiber) (cb : option Z) : Fiber :=
  mkFiber (m_id f) (m_stack f) (m_stacksize f) (m_state f) (m_ctx f) cb.

Definition put (w : fibers) (p : Z) (f : Fiber) : fibers :=
  mkFibers (<[p := f]> (heap w)) (s_fiber_id w) (s_fiber_count w).

Definition switched (tl : tls) (cpu : Z) : tls :=
  mkTls (t_fiber tl) (t_threadFiber tl) (t_scheduler_fiber tl) cpu.

(** @src coroutine.cc:177-177 Fiber::SetThis *)
Definition Fiber_SetThis (tl : tls) (f : option Z) : tls :=
  mkTls f (t_threadFiber tl) (t_scheduler_fiber tl) (on_cpu tl).

(** [swapcontext(&save->m_ctx, &load->m_ctx)]: [k] is what will run when the
    saved context is loaded again. *)
Definition swapcontext (w : fibers) (tl : tls) (save load : Z) (k : context) : outcome (fibers * tls) :=
  deref (heap w !! save) (fun fs =>
  let w := put w save (set_ctx fs k) in
  deref (heap w !! load) (fun fl =>
  match m_ctx fl with
  | CtxNone => UB
  | CtxMainFunc | CtxCallerMainFunc => Ok (w, switched tl load)
  | CtxSaved x => Ok (w, switched tl x)
  | CtxNeverReach => AssertFail
  end)).

(** @src coroutine.cc:40-48 Fiber::Fiber
    The fiber that stands for the thread's own stack. *)
Definition Fiber_new_main (w : fibers) (tl : tls) (p : Z) : fibers * tls :=
  (mkFibers (<[p := mkFiber 0 false 0 EXEC (CtxSaved p) None]> (heap w)) (s_fiber_id w) (u64 (s_fiber_count w + 1)),
   switched (Fiber_SetThis tl (Some p)) p).

(** @src coroutine.cc:50-70 Fiber::Fiber
    [dflt] is the configured value of [fiber.stack_size]; [m_stacksize] has 32 bits. *)
Definition Fiber_new (dflt : Z) (w : fibers) (p : Z) (cb : option Z) (stacksize : Z) (use_caller : bool) : fibers :=
  let id := u64 (s_fiber_id w + 1) in
  let size := u32 (if stacksize =? 0 then dflt else stacksize) in
  let ctx := if use_caller then CtxCallerMainFunc else CtxMainFunc in
  mkFibers (<[p := mkFiber id true size INIT ctx cb]> (heap w)) id (u64 (s_fiber_count w + 1)).

Definition finished (s : FiberState) : bool := state_eqb s TERM || state_eqb s EXCEPT.

(** @src coroutine.cc:72-91 Fiber::~Fiber *)
Definition Fiber_destroy (w : fibers) (tl : tls) (p : Z) : outcome (fibers * tls) :=
  deref (heap w !! p) (fun f =>
  let w := mkFibers (delete p (heap w)) (s_fiber_id w) (u64 (s_fiber_count w - 1)) in
  if m_stack f then
    assertb (finished (m_state f) || state_eqb (m_state f) INIT) (Ok (w, tl))
  else
    assertb (negb (non_null (f_cb f)))
    (assertb (state_eqb (m_state f) EXEC)
    (Ok (w, if bool_decide (t_fiber tl = Some p) then Fiber_SetThis tl None else tl)))).

(** @src coroutine.cc:95-107 Fiber::reset *)
Definition Fiber_reset (w : fibers) (p : Z) (cb : option Z) : outcome fibers :=
  deref (heap w !! p) (fun f =>
  assertb (m_stack f)
  (assertb (finished (m_state f) || state_eqb (m_state f) INIT)
  (Ok (put w p (mkFiber (m_id f) (m_stack f) (m_stacksize f) INIT CtxMainFunc cb))))).

(** @src coroutine.cc:134-146 Fiber::swapIn *)
Definition Fiber_swapIn (w : fibers) (tl : tls) (p : Z) : outcome (fibers * tls) :=
  let tl := Fiber_SetThis tl (Some p) in
  deref (heap w !! p) (fun f =>
  assertb (negb (state_eqb (m_state f) EXEC))
  (let w := put w p (set_state f EXEC) in
   deref (t_scheduler_fiber tl) (fun s => swapcontext w tl s p (CtxSaved (on_cpu tl))))).

(** @src coroutine.cc:150-157 Fiber::swapOut *)
Definition Fiber_swapOut (w : fibers) (tl : tls) (p : Z) (k : context) : outcome (fibers * tls) :=
  let tl := Fiber_SetThis tl (t_scheduler_fiber tl) in
  deref (t_scheduler_fiber tl) (fun s => swapcontext w tl p s k).

(** @src coroutine.cc:160-166 Fiber::call *)
Definition Fiber_call (w : fibers) (tl : tls) (p : Z) : outcome (fibers * tls) :=
  let tl := Fiber_SetThis tl (Some p) in
  deref (heap w !! p) (fun f =>
  let w := put w p (set_state f EXEC) in
  deref (t_threadFiber tl) (fun t => swapcontext w tl t p (CtxSaved (on_cpu tl)))).

(** @src coroutine.cc:169-174 Fiber::back *)
Definition Fiber_back (w : fibers) (tl : tls) (p : Z) (k : context) : outcome (fibers * tls) :=
  let tl := Fiber_SetThis tl (t_threadFiber tl) in
  deref (t_threadFiber tl) (fun t => swapcontext w tl p t k).

(** @src coroutine.cc:180-191 Fiber::GetThis
    [fresh] is the address of the main fiber if one has to be made. *)
Definition Fiber_GetThis (w : fibers) (tl : tls) (fresh : Z) : outcome (Z * fibers * tls) :=
  match t_fiber tl with
  | Some p => Ok (p, w, tl)
  | None =>
    let '(w, tl) := Fiber_new_main w tl fresh in
    assertb (bool_decide (t_fiber tl = Some fresh))
    (let tl := mkTls (t_fiber tl) (Some fresh) (t_scheduler_fiber tl) (on_cpu tl) in
     deref (t_fiber tl) (fun p => Ok (p, w, tl)))
  end.

(** @src coroutine.cc:194-199 Fiber::YieldToReady *)
Definition Fiber_YieldToReady (w : fibers) (tl : tls) (fresh : Z) : outcome (fibers * tls) :=
  let! (cur, w, tl) := Fiber_GetThis w tl fresh in
  deref (heap w !! cur) (fun f =>
  assertb (state_eqb (m_state f) EXEC)
  (Fiber_swapOut (put w cur (set_state f READY)) tl cur (CtxSaved (on_cpu tl)))).

(** @src coroutine.cc:202-208 Fiber::YieldToHold
    The state stays [EXEC]; the scheduler sets [HOLD] after the switch. *)
Definition Fiber_YieldToHold (w : fibers) (tl : tls) (fresh : Z) : outcome (fibers * tls) :=
  let! (cur, w, tl) := Fiber_GetThis w tl fresh in
  deref (heap w !! cur) (fun f =>
  assertb (state_eqb (m_state f) EXEC)
  (Fiber_swapOut w tl cur (CtxSaved (on_cpu tl)))).

(** @src coroutine.cc:211-211 Fiber::TotalFibers *)
Definition Fiber_TotalFibers (w : fibers) : Z := s_fiber_count w.

(** @src coroutine.cc:213-218 Fiber::GetFiberId *)
Definition Fiber_GetFiberId (w : fibers) (tl : tls) : outcome Z :=
  match t_fiber tl with
  | Some p => deref (heap w !! p) (fun f => Ok (m_id f))
  | None => Ok 0
  end.

(** The [try] block of the two entry functions: [threw] says whether the
    callback ended with an exception; calling an empty [std::function] throws. *)
Definition run_cb (f : Fiber) (threw : bool) : Fiber :=
  if non_null (f_cb f) && negb threw then set_state (set_cb f None) TERM else set_state f EXCEPT.

(** @src coroutine.cc:221-251 Fiber::MainFunc
    From the end of the callback to the switch that never returns. *)
Definition Fiber_MainFunc (w : fibers) (tl : tls) (fresh : Z) (threw : bool) : outcome (fibers * tls) :=
  let! (cur, w, tl) := Fiber_GetThis w tl fresh in
  deref (heap w !! cur) (fun f =>
  Fiber_swapOut (put w cur (run_cb f threw)) tl cur CtxNeverReach).

(** @src coroutine.cc:254-280 Fiber::CallerMainFunc *)
Definition Fiber_CallerMainFunc (w : fibers) (tl : tls) (fresh : Z) (threw : bool) : outcome (fibers * tls) :=
  let! (cur, w, tl) := Fiber_GetThis w tl fresh in
  deref (heap w !! cur) (fun f =>
  Fiber_back (put w cur (run_cb f threw)) tl cur CtxNeverReach).

(** ** One switch into a fiber and out of it *)

Lemma swapcontext_ok w tl save load k fs fl :
  heap w !! save = Some fs -> heap w !! load = Some fl -> save <> load ->
  m_ctx fl = CtxMainFunc \/ m_ctx fl = CtxCallerMainFunc \/ m_ctx fl = CtxSaved load ->
  swapcontext w tl save load k = Ok (put w save (set_ctx fs k), switched tl load).
Proof.
  intros Hs Hl Hne Hctx. unfold swapcontext. rewrite Hs. cbn [deref put heap].
  rewrite lookup_insert_ne, Hl by done. cbn [deref].
  destruct Hctx as [->|[->| ->]]; done.
Qed.

(** A thread that is executing its scheduling fiber [s], ready to switch to [p]. *)
Record can_swapIn (w : fibers) (tl : tls) (s p : Z) (fs f : Fiber) : Prop := {
  si_sched : t_scheduler_fiber tl = Some s;
  si_cpu : on_cpu tl = s;
  si_s : heap w !! s = Some fs;
  si_p : heap w !! p = Some f;
  si_ne : p <> s;
  si_state : m_state f <> EXEC;
  si_ctx : m_ctx f = CtxMainFunc \/ m_ctx f = CtxSaved p
}.

Lemma swapIn_ok w tl s p fs f :
  can_swapIn w tl s p fs f ->
  Fiber_swapIn w tl p =
    Ok (put (put w p (set_state f EXEC)) s (set_ctx fs (CtxSaved s)),
        mkTls (Some p) (t_threadFiber tl) (Some s) p).
Proof.
  intros [Hsch Hcpu Hs Hp Hne Hst Hctx]. unfold Fiber_swapIn. rewrite Hp. cbn [deref].
  unfold state_eqb. rewrite bool_decide_eq_false_2 by done. cbn [negb assertb].
  cbn [Fiber_SetThis t_scheduler_fiber on_cpu]. rewrite Hsch. cbn [deref]. rewrite Hcpu.
  rewrite (swapcontext_ok _ _ s p _ fs (set_state f EXEC)); cbn [put heap].
  - unfold switched. cbn. rewrite Hsch. done.
  - by rewrite lookup_insert_ne.
  - by rewrite lookup_insert_eq.
  - done.
  - cbn. tauto.
Qed.

(** A thread that is executing fiber [p] on behalf of its scheduling fiber [s]. *)
Record running (w : fibers) (tl : tls) (s p : Z) (fs f : Fiber) : Prop := {
  run_this : t_fiber tl = Some p;
  run_sched : t_scheduler_fiber tl = Some s;
  run_cpu : on_cpu tl = p;
  run_s : heap w !! s = Some fs;
  run_s_ctx : m_ctx fs = CtxSaved s;
  run_p : heap w !! p = Some f;
  run_ne : p <> s;
  run_state : m_state f = EXEC
}.

(** The thread is back in its scheduling fiber. *)
Definition back_to (tl : tls) (s : Z) : tls := mkTls (Some s) (t_threadFiber tl) (Some s) s.

Lemma put_put w p f g : put (put w p f) p g = put w p g.
Proof. unfold put. cbn. f_equal. apply insert_insert_eq. Qed.

Lemma swapOut_ok w tl s p fs f k :
  t_scheduler_fiber tl = Some s -> heap w !! s = Some fs -> m_ctx fs = CtxSaved s ->
  heap w !! p = Some f -> p <> s ->
  Fiber_swapOut w tl p k = Ok (put w p (set_ctx f k), back_to tl s).
Proof.
  intros Hsch Hs Hctx Hp Hne. unfold Fiber_swapOut. cbn [Fiber_SetThis t_scheduler_fiber]. rewrite Hsch.
  cbn [deref]. rewrite (swapcontext_ok _ _ p s k f fs) by tauto.
  unfold switched, back_to, Fiber_SetThis. cbn. rewrite Hsch. done.
Qed.

Lemma yieldToReady_ok w tl s p fs f fresh :
  running w tl s p fs f ->
  Fiber_YieldToReady w tl fresh = Ok (put w p (set_ctx (set_state f READY) (CtxSaved p)), back_to tl s).
Proof.
  intros [Ht Hsch Hcpu Hs Hctx Hp Hne Hst]. unfold Fiber_YieldToReady, Fiber_GetThis. rewrite Ht.
  cbn [obind]. rewrite Hp. cbn [deref]. rewrite Hst. cbn [assertb state_eqb]. rewrite Hcpu.
  erewrite swapOut_ok; [by rewrite put_put|done|cbn; by rewrite lookup_insert_ne|done|apply lookup_insert_eq|done].
Qed.

Lemma yieldToHold_ok w tl s p fs f fresh :
  running w tl s p fs f ->
  Fiber_YieldToHold w tl fresh = Ok (put w p (set_ctx f (CtxSaved p)), back_to tl s).
Proof.
  intros [Ht Hsch Hcpu Hs Hctx Hp Hne Hst]. unfold Fiber_YieldToHold, Fiber_GetThis. rewrite Ht.
  cbn [obind]. rewrite Hp. cbn [deref]. rewrite Hst. cbn [assertb state_eqb]. rewrite Hcpu.
  by erewrite swapOut_ok.
Qed.

Lemma mainFunc_ok w tl s p fs f fresh threw :
  running w tl s p fs f ->
  Fiber_MainFunc w tl fresh threw = Ok (put w p (set_ctx (run_cb f threw) CtxNeverReach), back_to tl s).
Proof.
  intros [Ht Hsch Hcpu Hs Hctx Hp Hne Hst]. unfold Fiber_MainFunc, Fiber_GetThis. rewrite Ht.
  cbn [obind]. rewrite Hp. cbn [deref].
  erewrite swapOut_ok; [by rewrite put_put|done|cbn; by rewrite lookup_insert_ne|done|apply lookup_insert_eq|done].
Qed.

(** C38: a switch into a fiber and out of it is well bracketed.  When a thread
    executing its scheduling fiber [s] swaps in a suspended fiber [p], [p] is
    executing and is the thread's current fiber.  However [p] leaves the CPU
    ([YieldToReady], [YieldToHold], the end of its callback or an exception),
    and whatever other threads did to other fibers meanwhile, the thread is back
    in [s], no fiber but [p] has changed, and [p] can be resumed if and only if it
    has not ended.  The state [p] is left in: READY after [YieldToReady]; TERM or EXCEPT
    after its end; and after [YieldToHold] still EXEC, not HOLD as the comments of the
    function say (coroutine.h:185, coroutine.cc:201), because the assignment is
    commented out: it is the scheduler that puts the fiber on hold after the switch. *)
Theorem fiber_switch_bracketed w tl s p fs f :
  can_swapIn w tl s p fs f ->
  exists w1 tl1, Fiber_swapIn w tl p = Ok (w1, tl1) /\
    on_cpu tl1 = p /\ t_fiber tl1 = Some p /\
    forall w2 fresh, heap w2 !! s = heap w1 !! s -> heap w2 !! p = heap w1 !! p ->
      Fiber_YieldToReady w2 tl1 fresh =
        Ok (put w2 p (set_ctx (set_state f READY) (CtxSaved p)), back_to tl s) /\
      Fiber_YieldToHold w2 tl1 fresh =
        Ok (put w2 p (set_ctx (set_state f EXEC) (CtxSaved p)), back_to tl s) /\
      forall threw, exists f',
        Fiber_MainFunc w2 tl1 fresh threw = Ok (put w2 p f', back_to tl s) /\
        m_ctx f' = CtxNeverReach /\
        m_state f' = if non_null (f_cb f) && negb threw then TERM else EXCEPT.
Proof.
  intros C. rewrite (swapIn_ok _ _ _ _ _ _ C). destruct C as [Hsch Hcpu Hs Hp Hne Hst Hctx].
  eexists _, _. split; [reflexivity|]. split_and!; [done..|].
  intros w2 fresh. cbn [put heap]. rewrite lookup_insert_eq, lookup_insert_ne, lookup_insert_eq by done.
  intros Hs2 Hp2.
  assert (R : running w2 (mkTls (Some p) (t_threadFiber tl) (Some s) p) s p
                (set_ctx fs (CtxSaved s)) (set_state f EXEC)) by (constructor; done).
  split_and!.
  - rewrite (yieldToReady_ok _ _ _ _ _ _ fresh R). done.
  - rewrite (yieldToHold_ok _ _ _ _ _ _ fresh R). done.
  - intros threw. eexists. rewrite (mainFunc_ok _ _ _ _ _ _ fresh threw R).
    split_and!; [done..|]. unfold run_cb. cbn. by destruct (_ && _).
Qed.

(** A thread whose main fiber is at 1 (its scheduling fiber) and a new fiber at 2. *)
Definition demo_fibers : fibers :=
  Fiber_new 131072 (fst (Fiber_new_main (mkFibers ∅ 0 0) (mkTls None None None 0) 1)) 2 (Some 7) 0 false.
Definition demo_tls : tls := mkTls (Some 1) (Some 1) (Some 1) 1.

Lemma fiber_switch_bracketed_witness :
  exists w1 tl1, Fiber_swapIn demo_fibers demo_tls 2 = Ok (w1, tl1) /\ on_cpu tl1 = 2 /\
    exists w3, Fiber_YieldToReady w1 tl1 9 = Ok (w3, back_to demo_tls 1).
Proof.
  destruct (fiber_switch_bracketed demo_fibers demo_tls 1 2
              (mkFiber 0 false 0 EXEC (CtxSaved 1) None) (mkFiber 1 true 131072 INIT CtxMainFunc (Some 7)))
    as (w1 & tl1 & E & Hc & _ & H).
  - constructor; try reflexivity; [done|done|by left].
  - destruct (H w1 9 eq_refl eq_refl) as (E2 & _). eauto 10.
Defined.

(** [reset] and the destructor accept exactly the fibers that are not
    suspended or running: they succeed for a fiber with a stack in state [INIT],
    [TERM] or [EXCEPT] and abort the process in the other states; a fiber that
    was reset enters its callback when it is next swapped in, whatever its saved
    context was. *)
Lemma fiber_reset_destroy w tl p f cb :
  heap w !! p = Some f -> m_stack f = true ->
  let reusable := match m_state f with INIT | TERM | EXCEPT => true | _ => false end in
  (Fiber_reset w p cb =
     if reusable then Ok (put w p (mkFiber (m_id f) true (m_stacksize f) INIT CtxMainFunc cb)) else AssertFail) /\
  (Fiber_destroy w tl p =
     if reusable then Ok (mkFibers (delete p (heap w)) (s_fiber_id w) (u64 (s_fiber_count w - 1)), tl)
     else AssertFail).
Proof.
  intros Hp Hst reusable. unfold Fiber_reset, Fiber_destroy. rewrite Hp. cbn [deref]. rewrite Hst.
  unfold reusable. cbn [assertb]. by destruct (m_state f).
Qed.

Lemma fiber_reset_destroy_witness :
  let f := mkFiber 1 true 131072 INIT CtxMainFunc (Some 7) in
  Fiber_reset demo_fibers 2 (Some 8) = Ok (put demo_fibers 2 (mkFiber 1 true 131072 INIT CtxMainFunc (Some 8))) /\
  Fiber_destroy demo_fibers demo_tls 2 =
    Ok (mkFibers (delete 2 (heap demo_fibers)) (s_fiber_id demo_fibers) (u64 (s_fiber_count demo_fibers - 1)), demo_tls).
Proof.
  exact (fiber_reset_destroy demo_fibers demo_tls 2 (mkFiber 1 true 131072 INIT CtxMainFunc (Some 7)) (Some 8)
    eq_refl eq_refl).
Defined.
