(* ===== verification/Scheduler.v ===== *)
(** * The coroutine scheduler ([scheduler.h], [scheduler.cc])

    [Scheduler] is the object shared by the worker threads; [system] adds the
    fibers of [Fiber.v] and, for every thread that executes [Scheduler::run],
    its thread-local pointers and where in the loop it is ([pc]).  One step of a
    worker is one stretch of [run] without interference: the body of the lock
    region, one atomic counter update, or one context switch.  The virtual
    functions [tickle] and [stopping] have the base class's bodies here;
    [IOManager.v] gives the overriding ones. *)

From S2P Require Import Prelude Fiber.
From Stdlib Require Import ZArith Lia List.
From stdpp Require Import base tactics list numbers option gmap.

Open Scope Z_scope.

(** ** Data *)

(** @src scheduler.h:141-144 Scheduler::FiberAndThread *)
Record FiberAndThread := mkFT {
  ft_fiber : option Z;
  ft_cb : option Z;
  ft_thread : Z
}.

(** @src scheduler.h:199-203 Scheduler::FiberAndThread::reset *)
Definition FiberAndThread_reset : FiberAndThread := mkFT None None (-1).

(** @src scheduler.h:207-220 Scheduler *)
Record Scheduler := mkScheduler {
  m_threadCount : Z;
  m_threadIds : list Z;
  m_activeThreadCount : Z;
  m_idleThreadCount : Z;
  m_rootFiber : option Z;
  m_rootThread : Z;
  m_stopping : bool;
  m_autoStop : bool;
  m_fibers : list FiberAndThread
}.

Definition with_fibers (s : Scheduler) (q : list FiberAndThread) : Scheduler :=
  mkScheduler (m_threadCount s) (m_threadIds s) (m_activeThreadCount s) (m_idleThreadCount s)
    (m_rootFiber s) (m_rootThread s) (m_stopping s) (m_autoStop s) q.
Definition add_active (s : Scheduler) (d : Z) : Scheduler :=
  mkScheduler (m_threadCount s) (m_threadIds s) (m_activeThreadCount s + d) (m_idleThreadCount s)
    (m_rootFiber s) (m_rootThread s) (m_stopping s) (m_autoStop s) (m_fibers s).
Definition add_idle (s : Scheduler) (d : Z) : Scheduler :=
  mkScheduler (m_threadCount s) (m_threadIds s) (m_activeThreadCount s) (m_idleThreadCount s + d)
    (m_rootFiber s) (m_rootThread s) (m_stopping s) (m_autoStop s) (m_fibers s).
Definition set_stopping (s : Scheduler) (b : bool) : Scheduler :=
  mkScheduler (m_threadCount s) (m_threadIds s) (m_activeThreadCount s) (m_idleThreadCount s)
    (m_rootFiber s) (m_rootThread s) b (m_autoStop s) (m_fibers s).
Definition set_autoStop (s : Scheduler) (b : bool) : Scheduler :=
  mkScheduler (m_threadCount s) (m_threadIds s) (m_activeThreadCount s) (m_idleThreadCount s)
    (m_rootFiber s) (m_rootThread s) (m_stopping s) b (m_fibers s).
Definition set_threadIds (s : Scheduler) (ids : list Z) : Scheduler :=
  mkScheduler (m_threadCount s) ids (m_activeThreadCount s) (m_idleThreadCount s)
    (m_rootFiber s) (m_rootThread s) (m_stopping s) (m_autoStop s) (m_fibers s).

(** ** Operations of the shared object *)

(** @src scheduler.cc:28-50 Scheduler::Scheduler
    [has_this] is whether the thread already has a scheduler, [tid] the calling
    thread, [main] and [root] the addresses of new fibers. *)
Definition Scheduler_new (dflt : Z) (w : fibers) (tl : tls) (has_this : bool)
    (threads : Z) (use_caller : bool) (tid main root run_cb : Z) : outcome (Scheduler * fibers * tls) :=
  assertb (0 <? threads)
  (if use_caller then
     let! (_, w, tl) := Fiber_GetThis w tl main in
     let threads := threads - 1 in
     assertb (negb has_this)
     (let w := Fiber_new dflt w root (Some run_cb) 0 true in
      let tl := mkTls (t_fiber tl) (t_threadFiber tl) (Some root) (on_cpu tl) in
      Ok (mkScheduler threads [tid] 0 0 (Some root) tid true false [], w, tl))
   else Ok (mkScheduler threads [] 0 0 None (-1) true false [], w, tl)).

(** @src scheduler.cc:52-59 Scheduler::~Scheduler *)
Definition Scheduler_destroy (s : Scheduler) : outcome unit := assertb (m_stopping s) (Ok tt).

(** @src scheduler.cc:66-90 Scheduler::start
    [ids] are the ids the operating system gives the new threads; the result
    says whether threads were started. *)
Definition Scheduler_start (s : Scheduler) (ids : list Z) : bool * Scheduler :=
  if negb (m_stopping s) then (false, s)
  else
    let s := set_stopping s false in
    (true, set_threadIds s (m_threadIds s ++ take (Z.to_nat (m_threadCount s)) ids)).

(** @src scheduler.cc:309-313 Scheduler::stopping *)
Definition Scheduler_stopping (s : Scheduler) : bool :=
  m_autoStop s && m_stopping s && (match m_fibers s with [] => true | _ => false end)
  && (m_activeThreadCount s =? 0).

(** @src scheduler.h:110-110 Scheduler::hasIdleThreads *)
Definition Scheduler_hasIdleThreads (s : Scheduler) : bool := 0 <? m_idleThreadCount s.

(** What [stop] goes on to do: return at once, or wake the workers that many
    times, execute the root fiber if told so, and join the threads. *)
Inductive stop_action := StopReturn | StopJoin (tickles : Z) (call_root : bool).

(** @src scheduler.cc:93-155 Scheduler::stop
    [root_state] is the root fiber's state, [this_is_self] whether the calling
    thread's scheduler is this one, and [stopping] the virtual function. *)
Definition Scheduler_stop (stopping : Scheduler -> bool) (s : Scheduler) (root_state : FiberState)
    (this_is_self : bool) : outcome (stop_action * Scheduler) :=
  let s := set_autoStop s true in
  let only_root := non_null (m_rootFiber s) && (m_threadCount s =? 0)
                   && (state_eqb root_state TERM || state_eqb root_state INIT) in
  let s1 := if only_root then set_stopping s true else s in
  if only_root && stopping s1 then Ok (StopReturn, s1) else
  assertb (if m_rootThread s1 =? -1 then negb this_is_self else this_is_self)
  (let s2 := set_stopping s1 true in
   let tickles := m_threadCount s2 + (if non_null (m_rootFiber s2) then 1 else 0) in
   Ok (StopJoin tickles (non_null (m_rootFiber s2) && negb (stopping s2)), s2)).

(** @src scheduler.h:127-134 Scheduler::scheduleNoLock *)
Definition Scheduler_scheduleNoLock (s : Scheduler) (ft : FiberAndThread) : bool * Scheduler :=
  let need_tickle := match m_fibers s with [] => true | _ => false end in
  let s := if non_null (ft_fiber ft) || non_null (ft_cb ft) then with_fibers s (m_fibers s ++ [ft]) else s in
  (need_tickle, s).

(** @src scheduler.h:73-82 Scheduler::schedule
    The result says whether [tickle()] is called. *)
Definition Scheduler_schedule (s : Scheduler) (ft : FiberAndThread) : bool * Scheduler :=
  Scheduler_scheduleNoLock s ft.

(** The loop of the batch overload. *)
Fixpoint schedule_loop (s : Scheduler) (need_tickle : bool) (fts : list FiberAndThread) : bool * Scheduler :=
  match fts with
  | [] => (need_tickle, s)
  | ft :: r =>
    let '(b, s) := Scheduler_scheduleNoLock s (mkFT (ft_fiber ft) (ft_cb ft) (-1)) in
    schedule_loop s (b || need_tickle) r
  end.

(** @src scheduler.h:90-103 Scheduler::schedule *)
Definition Scheduler_schedule_batch (s : Scheduler) (fts : list FiberAndThread) : bool * Scheduler :=
  schedule_loop s false fts.

(** ** The loop of a worker thread *)

(** @src scheduler.cc:207-229 Scheduler::run
    The search in the queue: the elements stepped over, the element taken, the
    rest, and [tickle_me].  [st] gives a fiber's state. *)
Fixpoint pick_loop (st : Z -> option FiberState) (tid : Z) (q : list FiberAndThread)
    : outcome (list FiberAndThread * option FiberAndThread * list FiberAndThread * bool) :=
  match q with
  | [] => Ok ([], None, [], false)
  | x :: r =>
    if negb (ft_thread x =? -1) && negb (ft_thread x =? tid) then
      let! (sk, o, rest, _) := pick_loop st tid r in Ok (x :: sk, o, rest, true)
    else
      assertb (non_null (ft_fiber x) || non_null (ft_cb x))
      (if match ft_fiber x with
          | Some f => bool_decide (st f = Some EXEC)
          | None => false
          end
       then let! (sk, o, rest, t) := pick_loop st tid r in Ok (x :: sk, o, rest, t)
       else Ok ([], Some x, r, match r with [] => false | _ => true end))
  end.

(** Where a worker is in [run]. *)
Inductive pc :=
| Pick                          (* top of the loop, line 199 *)
| Dispatch (ft : FiberAndThread) (is_active : bool)   (* line 236 *)
| InFiber (f : Z)               (* inside ft.fiber->swapIn(), line 239 *)
| LeftFiber (f : Z)             (* back from it, line 240 *)
| CheckFiber (f : Z)            (* line 242 *)
| InCb (f : Z)                  (* inside cb_fiber->swapIn(), line 262 *)
| LeftCb (f : Z)                (* line 263 *)
| CheckCb (f : Z)               (* line 265 *)
| InIdle                        (* inside idle_fiber->swapIn(), line 289 *)
| LeftIdle                      (* line 290 *)
| CheckIdle                     (* line 291 *)
| Done.                         (* after the loop *)

Record worker := mkWorker {
  w_tls : tls;
  w_pc : pc;
  w_idle : Z;
  w_cb_fiber : option Z
}.

Record system := mkSystem {
  sch : Scheduler;
  fib : fibers;
  workers : gmap Z worker
}.

Definition state_of (w : fibers) (p : Z) : option FiberState := m_state <$> heap w !! p.

Definition goto (k : worker) (l : pc) : worker := mkWorker (w_tls k) l (w_idle k) (w_cb_fiber k).

Definition update (y : system) (s : Scheduler) (w : fibers) (tid : Z) (k : worker) : system :=
  mkSystem s w (<[tid := k]> (workers y)).

Section run.
(** The configured stack size, and the callback a worker's idle fiber runs. *)
Variables dflt idle_cb : Z.

(** @src scheduler.cc:167-177 Scheduler::run
    The entry in a new thread; [main] and [idle] are the addresses of its main and
    idle fibers. *)
Definition run_enter (y : system) (tid main idle : Z) : outcome system :=
  let tl := mkTls None None None main in
  let! (this, w, tl) := Fiber_GetThis (fib y) tl main in
  let tl := mkTls (t_fiber tl) (t_threadFiber tl) (Some this) (on_cpu tl) in
  let w := Fiber_new dflt w idle (Some idle_cb) 0 false in
  Ok (update y (sch y) w tid (mkWorker tl Pick idle None)).

(** @src scheduler.cc:199-230 Scheduler::run
    The lock region.  The flag is [tickle_me]. *)
Definition run_pick (y : system) (tid : Z) (k : worker) : outcome (bool * system) :=
  let! (sk, o, rest, tickle_me) := pick_loop (state_of (fib y)) tid (m_fibers (sch y)) in
  match o with
  | Some ft =>
    let s := add_active (with_fibers (sch y) (sk ++ rest)) 1 in
    Ok (tickle_me, update y s (fib y) tid (goto k (Dispatch ft true)))
  | None => Ok (tickle_me, update y (sch y) (fib y) tid (goto k (Dispatch FiberAndThread_reset false)))
  end.

(** @src scheduler.cc:236-289 Scheduler::run
    Switch to the task, or to the idle fiber. *)
Definition run_dispatch (y : system) (tid : Z) (k : worker) (ft : FiberAndThread) (is_active : bool)
    (fresh : Z) : outcome system :=
  let fiber_runnable :=
    match ft_fiber ft with
    | Some f => match state_of (fib y) f with Some s => negb (finished s) | None => false end
    | None => false
    end in
  match ft_fiber ft, fiber_runnable, ft_cb ft with
  | Some f, true, _ =>
    let! (w, tl) := Fiber_swapIn (fib y) (w_tls k) f in
    Ok (update y (sch y) w tid (mkWorker tl (InFiber f) (w_idle k) (w_cb_fiber k)))
  | _, _, Some cb =>
    let! (c, w) := match w_cb_fiber k with
                   | Some c => let! w := Fiber_reset (fib y) c (Some cb) in Ok (c, w)
                   | None => Ok (fresh, Fiber_new dflt (fib y) fresh (Some cb) 0 false)
                   end in
    let! (w, tl) := Fiber_swapIn w (w_tls k) c in
    Ok (update y (sch y) w tid (mkWorker tl (InCb c) (w_idle k) (Some c)))
  | _, _, None =>
    if is_active then Ok (update y (add_active (sch y) (-1)) (fib y) tid (goto k Pick)) else
    if bool_decide (state_of (fib y) (w_idle k) = Some TERM) then Ok (update y (sch y) (fib y) tid (goto k Done))
    else
      let! (w, tl) := Fiber_swapIn (fib y) (w_tls k) (w_idle k) in
      Ok (update y (add_idle (sch y) 1) w tid (mkWorker tl InIdle (w_idle k) (w_cb_fiber k)))
  end.

(** @src scheduler.cc:242-249 Scheduler::run
    What becomes of a fiber that came back.  The flag says whether [schedule]
    calls [tickle()]. *)
Definition run_checkFiber (y : system) (tid : Z) (k : worker) (f : Z) : outcome (bool * system) :=
  deref (heap (fib y) !! f) (fun fb =>
  if state_eqb (m_state fb) READY then
    let '(t, s) := Scheduler_schedule (sch y) (mkFT (Some f) None (-1)) in
    Ok (t, update y s (fib y) tid (goto k Pick))
  else if negb (finished (m_state fb)) then
    Ok (false, update y (sch y) (put (fib y) f (set_state fb HOLD)) tid (goto k Pick))
  else Ok (false, update y (sch y) (fib y) tid (goto k Pick))).

(** @src scheduler.cc:265-274 Scheduler::run
    The same for the fiber that ran a function. *)
Definition run_checkCb (y : system) (tid : Z) (k : worker) (c : Z) : outcome (bool * system) :=
  deref (heap (fib y) !! c) (fun fb =>
  if state_eqb (m_state fb) READY then
    let '(t, s) := Scheduler_schedule (sch y) (mkFT (Some c) None (-1)) in
    Ok (t, update y s (fib y) tid (mkWorker (w_tls k) Pick (w_idle k) None))
  else if finished (m_state fb) then
    let! w := Fiber_reset (fib y) c None in
    Ok (false, update y (sch y) w tid (goto k Pick))
  else
    Ok (false, update y (sch y) (put (fib y) c (set_state fb HOLD)) tid (mkWorker (w_tls k) Pick (w_idle k) None))).

(** @src scheduler.cc:291-295 Scheduler::run
    The same for the idle fiber. *)
Definition run_checkIdle (y : system) (tid : Z) (k : worker) : outcome system :=
  deref (heap (fib y) !! w_idle k) (fun fb =>
  if negb (finished (m_state fb))
  then Ok (update y (sch y) (put (fib y) (w_idle k) (set_state fb HOLD)) tid (goto k Pick))
  else Ok (update y (sch y) (fib y) tid (goto k Pick))).

(** @src scheduler.cc:166-298 Scheduler::run
    One step of the thread [tid] in its own code; the flag says whether
    [tickle()] is called.  A thread that is inside a fiber takes no step of its
    own: the fiber does ([fiber_yield], [fiber_finish], [Scheduler_idle]). *)
Definition Scheduler_run (y : system) (tid fresh : Z) : outcome (bool * system) :=
  deref (workers y !! tid) (fun k =>
  match w_pc k with
  | Pick => run_pick y tid k
  | Dispatch ft a => let! y := run_dispatch y tid k ft a fresh in Ok (false, y)
  | LeftFiber f => Ok (false, update y (add_active (sch y) (-1)) (fib y) tid (goto k (CheckFiber f)))
  | CheckFiber f => run_checkFiber y tid k f
  | LeftCb c => Ok (false, update y (add_active (sch y) (-1)) (fib y) tid (goto k (CheckCb c)))
  | CheckCb c => run_checkCb y tid k c
  | LeftIdle => Ok (false, update y (add_idle (sch y) (-1)) (fib y) tid (goto k CheckIdle))
  | CheckIdle => let! y := run_checkIdle y tid k in Ok (false, y)
  | InFiber _ | InCb _ | InIdle | Done => Ok (false, y)
  end).

(** The point in [run] that control returns to when the fiber of the thread
    switches out. *)
Definition left_pc (l : pc) : pc :=
  match l with
  | InFiber f => LeftFiber f
  | InCb c => LeftCb c
  | InIdle => LeftIdle
  | l => l
  end.

(** The fiber that thread [tid] is executing switches out in one of its ways. *)
Definition fiber_out (y : system) (tid : Z) (out : fibers -> tls -> outcome (fibers * tls)) : outcome system :=
  deref (workers y !! tid) (fun k =>
  let! (w, tl) := out (fib y) (w_tls k) in
  Ok (update y (sch y) w tid (mkWorker tl (left_pc (w_pc k)) (w_idle k) (w_cb_fiber k)))).

Definition fiber_yieldReady (y : system) (tid : Z) : outcome system :=
  fiber_out y tid (fun w tl => Fiber_YieldToReady w tl 0).
Definition fiber_yieldHold (y : system) (tid : Z) : outcome system :=
  fiber_out y tid (fun w tl => Fiber_YieldToHold w tl 0).
Definition fiber_finish (y : system) (tid : Z) (threw : bool) : outcome system :=
  fiber_out y tid (fun w tl => Fiber_MainFunc w tl 0 threw).

(** @src scheduler.cc:315-320 Scheduler::idle
    One turn of the idle fiber's loop. *)
Definition Scheduler_idle (y : system) (tid : Z) : outcome system :=
  if Scheduler_stopping (sch y) then fiber_finish y tid false else fiber_yieldHold y tid.

(** @src scheduler.cc:322-331 Scheduler::switchTo
    Called by the fiber thread [tid] is executing; [on_self] says whether the
    thread belongs to this scheduler.  [None]: the function returns at once. *)
Definition Scheduler_switchTo (y : system) (tid : Z) (on_self : bool) (thread : Z) : outcome (option system) :=
  deref (workers y !! tid) (fun k =>
  if on_self && ((thread =? -1) || (thread =? tid)) then Ok None else
  deref (t_fiber (w_tls k)) (fun f =>
  let '(_, s) := Scheduler_schedule (sch y) (mkFT (Some f) None thread) in
  let! y := fiber_yieldHold (mkSystem s (fib y) (workers y)) tid in
  Ok (Some y))).

End run.

(** ** The queue *)

(** A task the thread may take: not bound to another thread, and not a fiber
    that is executing. *)
Definition eligible (st : Z -> option FiberState) (tid : Z) (x : FiberAndThread) : bool :=
  ((ft_thread x =? -1) || (ft_thread x =? tid)) &&
  match ft_fiber x with Some f => negb (bool_decide (st f = Some EXEC)) | None => true end.

(** Every element of the queue is a fiber or a function. *)
Definition task_ok (x : FiberAndThread) : Prop := is_Some (ft_fiber x) \/ is_Some (ft_cb x).

Lemma task_ok_nonnull x : task_ok x -> non_null (ft_fiber x) || non_null (ft_cb x) = true.
Proof. intros [[? ->]|[? ->]]; [done|]. apply orb_true_r. Qed.

Lemma pick_loop_spec st tid q :
  Forall task_ok q ->
  exists sk o rest t, pick_loop st tid q = Ok (sk, o, rest, t) /\
    Forall (fun x => eligible st tid x = false) sk /\
    match o with
    | Some x => q = sk ++ x :: rest /\ eligible st tid x = true
    | None => q = sk /\ rest = []
    end /\
    (t = true <-> Exists (fun x => ft_thread x <> -1 /\ ft_thread x <> tid) sk \/ rest <> []).
Proof.
  induction 1 as [|x q Hx _ (sk & o & rest & t & E & Hsk & Ho & Ht)].
  { exists [], None, [], false. split_and!; try done. split; [done|].
    intros [H|H]; [inversion H|done]. }
  cbn [pick_loop]. rewrite (task_ok_nonnull x Hx). cbn [assertb].
  assert (Hcons : eligible st tid x = false ->
    exists sk' o' rest', (x :: sk, o, rest) = (sk', o', rest') /\
    Forall (fun x => eligible st tid x = false) sk' /\
    match o' with Some y => x :: q = sk' ++ y :: rest' /\ eligible st tid y = true
                | None => x :: q = sk' /\ rest' = [] end).
  { intros Hel. eexists _, _, _. split_and!; [done|by constructor|].
    destruct o; destruct Ho as [-> ?]; done. }
  unfold eligible in Hcons. destruct (Z.eqb_spec (ft_thread x) (-1)) as [E1|E1];
    destruct (Z.eqb_spec (ft_thread x) tid) as [E2|E2]; cbn [negb andb orb] in *.
  4: { rewrite E. cbn [obind]. destruct (Hcons eq_refl) as (sk' & o' & rest' & [= <- <- <-] & ? & ?).
       eexists _, _, _, _. split; [done|]. split_and!; try done. split; [|done]. intros _. left. by left. }
  all: destruct (ft_fiber x) as [f|] eqn:Ef; [destruct (bool_decide (st f = Some EXEC)) eqn:Est|];
    cbn [negb andb] in *;
    [ rewrite E; cbn [obind]; destruct (Hcons eq_refl) as (sk' & o' & rest' & [= <- <- <-] & ? & ?);
      eexists _, _, _, _; split; [done|]; split_and!; try done;
      rewrite Ht, Exists_cons; naive_solver
    | .. ].
  all: eexists [], (Some x), q, _; split; [done|]; split_and!; try done; unfold eligible; rewrite ?Ef, ?Est.
  all: try (by rewrite ?E1, ?E2, ?Z.eqb_refl, ?orb_true_r).
  all: destruct q; split; try done; try (by right); intros [H|H]; by inversion H || done.
Qed.

(** ** The whole system *)

Definition queued (y : system) : list Z := omap ft_fiber (m_fibers (sch y)).

(** The fiber a worker is executing for its loop, from [swapIn] until the loop
    has dealt with the fiber's state. *)
Definition current (k : worker) : option Z :=
  match w_pc k with
  | InFiber f | LeftFiber f | CheckFiber f | InCb f | LeftCb f | CheckCb f => Some f
  | _ => None
  end.

(** The fibers a worker has to itself besides [current]: its main and idle
    fibers, the function fiber it keeps for reuse, and the one it just took. *)
Definition reserved (k : worker) (p : Z) : Prop :=
  t_scheduler_fiber (w_tls k) = Some p \/ w_idle k = p \/
  (w_cb_fiber k = Some p /\ current k <> Some p) \/
  exists ft a, w_pc k = Dispatch ft a /\ ft_fiber ft = Some p.

(** What clients may hand to [schedule]: a fiber that is not queued and that no
    worker has reserved; a fiber that is executing may be scheduled (so that it
    runs again after it yields), but one that came back [READY] or finished may
    not, because the loop deals with it. *)
Definition may_schedule (y : system) (f : Z) : Prop :=
  f ∉ queued y /\ is_Some (heap (fib y) !! f) /\
  forall tid k, workers y !! tid = Some k ->
    ~ reserved k f /\ (current k = Some f -> state_of (fib y) f = Some EXEC).

(** The function a worker has taken from the queue and not yet started. *)
Definition held_cb (k : worker) : list Z :=
  match w_pc k with
  | Dispatch ft _ => match ft_cb ft with Some cb => [cb] | None => [] end
  | _ => []
  end.

(** [p] was switched to: a context that is still that of the entry function makes
    [MainFunc] call the fiber's function; a saved one resumes where the fiber was. *)
Definition entry (w : fibers) (p : Z) : list Z :=
  match heap w !! p with
  | Some f => match m_ctx f with CtxMainFunc => option_list (f_cb f) | _ => [] end
  | None => []
  end.

(** The function whose execution starts on thread [tid] in the step from [y] to [y'],
    which changes what is on its CPU. *)
Definition entered (y y' : system) (tid : Z) : list Z :=
  match workers y !! tid, workers y' !! tid with
  | Some k, Some k' =>
      if decide (on_cpu (w_tls k') = on_cpu (w_tls k)) then [] else entry (fib y') (on_cpu (w_tls k'))
  | _, _ => []
  end.

(** What a step does that the sources leave to the discipline of the caller: hand a
    fiber to [schedule], or leave the CPU with [YieldToReady] or at the end of the
    function. *)
Inductive client_act := NoAct | ActSchedule (f : Z) | ActLeave (f : Z).

(** The rules under which the scheduler works; nothing in the sources enforces them.
    A fiber is scheduled only when [may_schedule] holds, and a fiber that was scheduled
    while it executes leaves the CPU with [YieldToHold]. *)
Definition client_rules (y : system) (a : client_act) : Prop :=
  match a with
  | NoAct => True
  | ActSchedule f => may_schedule y f
  | ActLeave f => f ∉ queued y
  end.

Section steps.
Variables dflt idle_cb : Z.

(** One step of the system: everything the code allows, with what it asks of the
    clients, the functions it hands over (to [schedule], in a new fiber, or as the idle
    function of a new worker) and the functions whose execution it starts. *)
Inductive sys_step (y : system) : client_act -> list Z -> list Z -> system -> Prop :=
| sys_spawn tid main idle y' :
    workers y !! tid = None -> heap (fib y) !! main = None -> heap (fib y) !! idle = None ->
    main <> idle -> run_enter dflt idle_cb y tid main idle = Ok y' -> sys_step y NoAct [idle_cb] [] y'
| sys_run tid fresh t y' :
    heap (fib y) !! fresh = None -> Scheduler_run dflt y tid fresh = Ok (t, y') ->
    sys_step y NoAct [] (entered y y' tid) y'
| sys_new_fiber p cb size :
    heap (fib y) !! p = None ->
    sys_step y NoAct (option_list cb) [] (mkSystem (sch y) (Fiber_new dflt (fib y) p cb size false) (workers y))
| sys_schedule_fiber f thread :
    sys_step y (ActSchedule f) [] []
      (mkSystem (snd (Scheduler_schedule (sch y) (mkFT (Some f) None thread))) (fib y) (workers y))
| sys_schedule_cb cb thread :
    sys_step y NoAct [cb] [] (mkSystem (snd (Scheduler_schedule (sch y) (mkFT None (Some cb) thread))) (fib y) (workers y))
| sys_yieldReady tid k f y' :
    workers y !! tid = Some k -> (w_pc k = InFiber f \/ w_pc k = InCb f) ->
    fiber_yieldReady y tid = Ok y' -> sys_step y (ActLeave f) [] (entered y y' tid) y'
| sys_yieldHold tid k f y' :
    workers y !! tid = Some k -> (w_pc k = InFiber f \/ w_pc k = InCb f) ->
    fiber_yieldHold y tid = Ok y' -> sys_step y NoAct [] (entered y y' tid) y'
| sys_finish tid k f threw y' :
    workers y !! tid = Some k -> (w_pc k = InFiber f \/ w_pc k = InCb f) ->
    fiber_finish y tid threw = Ok y' -> sys_step y (ActLeave f) [] (entered y y' tid) y'
| sys_idle tid k y' :
    workers y !! tid = Some k -> w_pc k = InIdle -> Scheduler_idle y tid = Ok y' ->
    sys_step y NoAct [] (entered y y' tid) y'
| sys_flags st au :
    sys_step y NoAct [] [] (mkSystem (set_autoStop (set_stopping (sch y) st) au) (fib y) (workers y)).

(** The runs in which every step obeys [rules], with all functions handed over and all
    functions started. *)
Inductive sys_reach (rules : system -> client_act -> Prop) (y0 : system) : list Z -> list Z -> system -> Prop :=
| reach_refl : sys_reach rules y0 [] [] y0
| reach_step sc st y a sc1 st1 y' :
    sys_reach rules y0 sc st y -> sys_step y a sc1 st1 y' -> rules y a ->
    sys_reach rules y0 (sc ++ sc1) (st ++ st1) y'.

(** A step by the rules. *)
Definition ruled_step (y : system) (sc st : list Z) (y' : system) : Prop :=
  exists a, sys_step y a sc st y' /\ client_rules y a.

End steps.

(** A scheduler without workers or tasks. *)
Definition sys_init (s : Scheduler) : Prop :=
  m_fibers s = [] /\ m_activeThreadCount s = 0 /\ m_idleThreadCount s = 0.

(** ** The invariant *)

(** Who has a fiber: a worker, in one of five roles, or nobody. *)
Inductive owner := Free | Main (t : Z) | Idle (t : Z) | Spare (t : Z) | Held (t : Z) | Run (t : Z).

Definition owner_tid (o : owner) : option Z :=
  match o with
  | Free => None
  | Main t | Idle t | Spare t | Held t | Run t => Some t
  end.

(** A fiber that is not on a CPU and can be dealt with by anyone: its saved
    context fits its state. *)
Definition rest_ok (p : Z) (f : Fiber) : Prop :=
  m_stack f = true /\
  match m_state f with
  | INIT => m_ctx f = CtxMainFunc
  | HOLD | READY => m_ctx f = CtxSaved p
  | TERM | EXCEPT => m_ctx f = CtxNeverReach
  | EXEC => False
  end.

(** A fiber that has just switched out, before the loop looked at its state. *)
Definition left_ok (p : Z) (f : Fiber) : Prop :=
  m_stack f = true /\
  match m_state f with
  | EXEC | READY => m_ctx f = CtxSaved p
  | TERM | EXCEPT => m_ctx f = CtxNeverReach
  | _ => False
  end.

(** A task is a fiber or a function, not both. *)
Definition one_task (x : FiberAndThread) : Prop :=
  is_Some (ft_fiber x) /\ ft_cb x = None \/ ft_fiber x = None /\ is_Some (ft_cb x).

Section worker_inv.
Variables (own : Z -> owner) (w : fibers) (q : list Z) (tid : Z) (k : worker).

Definition spare_ok : Prop :=
  forall c, w_cb_fiber k = Some c -> own c = Spare tid /\
    exists f, heap w !! c = Some f /\ rest_ok c f /\ m_state f = INIT /\ f_cb f = None.

(** An idle fiber never ends with an exception, and has its function until it ends. *)
Definition idle_ok : Prop :=
  exists f, heap w !! w_idle k = Some f /\ rest_ok (w_idle k) f /\ m_state f <> EXCEPT /\
    (m_state f <> TERM -> f_cb f <> None).

Definition in_fiber (m p : Z) : Prop :=
  exists fm f, running w (w_tls k) m p fm f /\ m_stack f = true /\ (p = w_idle k -> f_cb f <> None).

Definition left_fiber (p : Z) : Prop :=
  exists f, heap w !! p = Some f /\ left_ok p f /\ (m_state f <> EXEC -> p ∉ q).

Definition left_idle : Prop :=
  exists f, heap w !! w_idle k = Some f /\ left_ok (w_idle k) f /\ m_state f <> READY /\
    m_state f <> EXCEPT /\ (m_state f = EXEC -> f_cb f <> None).

Definition held_ok (ft : FiberAndThread) : Prop :=
  forall p, ft_fiber ft = Some p -> own p = Held tid /\ exists f, heap w !! p = Some f /\ rest_ok p f.

Definition worker_ok : Prop :=
  exists m, t_scheduler_fiber (w_tls k) = Some m /\ own m = Main tid /\ own (w_idle k) = Idle tid /\
    match w_pc k with
    | Pick | Done => on_cpu (w_tls k) = m /\ idle_ok /\ spare_ok
    | Dispatch ft a => on_cpu (w_tls k) = m /\ idle_ok /\ spare_ok /\ held_ok ft /\
        (if a then one_task ft else ft = FiberAndThread_reset)
    | InFiber p => idle_ok /\ spare_ok /\ own p = Run tid /\ in_fiber m p
    | LeftFiber p | CheckFiber p => on_cpu (w_tls k) = m /\ idle_ok /\ spare_ok /\ own p = Run tid /\ left_fiber p
    | InCb p => idle_ok /\ w_cb_fiber k = Some p /\ own p = Run tid /\ in_fiber m p
    | LeftCb p | CheckCb p =>
        on_cpu (w_tls k) = m /\ idle_ok /\ w_cb_fiber k = Some p /\ own p = Run tid /\ left_fiber p
    | InIdle => spare_ok /\ in_fiber m (w_idle k)
    | LeftIdle | CheckIdle => on_cpu (w_tls k) = m /\ spare_ok /\ left_idle
    end.

End worker_inv.

(** A worker's condition depends only on the fibers it owns. *)
Section frame.
Variables (own own' : Z -> owner) (w w' : fibers) (q q' : list Z) (tid : Z) (k : worker).
Hypothesis Hown : forall p, owner_tid (own p) = Some tid -> own' p = own p /\ heap w' !! p = heap w !! p.
Hypothesis Hq : forall p, own p = Run tid -> p ∈ q' -> p ∈ q \/ state_of w p = Some EXEC.

Lemma frame_at p o : own p = o -> owner_tid o = Some tid -> own' p = o /\ heap w' !! p = heap w !! p.
Proof. intros <- Ho. by apply Hown. Qed.

Lemma spare_frame : spare_ok own w tid k -> spare_ok own' w' tid k.
Proof.
  intros H c Hc. destruct (H c Hc) as (Ho & f & Hf & ?).
  destruct (frame_at c _ Ho eq_refl) as [-> ->]. eauto.
Qed.

Lemma idle_frame : own (w_idle k) = Idle tid -> idle_ok w k -> idle_ok w' k.
Proof. intros Ho. unfold idle_ok. by destruct (frame_at _ _ Ho eq_refl) as [_ ->]. Qed.

Lemma left_idle_frame : own (w_idle k) = Idle tid -> left_idle w k -> left_idle w' k.
Proof. intros Ho. unfold left_idle. by destruct (frame_at _ _ Ho eq_refl) as [_ ->]. Qed.

Lemma in_fiber_frame m p o :
  own m = Main tid -> own p = o -> owner_tid o = Some tid -> in_fiber w k m p -> in_fiber w' k m p.
Proof.
  intros Hm Hp Ho (fm & f & [] & Hst & Hcb). exists fm, f. split; [|done].
  destruct (frame_at _ _ Hm eq_refl) as [_ Em], (frame_at _ _ Hp Ho) as [_ Ep].
  constructor; rewrite ?Em, ?Ep; done.
Qed.

Lemma left_fiber_frame p : own p = Run tid -> left_fiber w q p -> left_fiber w' q' p.
Proof.
  intros Hp (f & Hf & Hl & Hn). destruct (frame_at _ _ Hp eq_refl) as [_ Ep].
  exists f. rewrite Ep. split_and!; [done..|]. intros Hs Hin.
  destruct (Hq p Hp Hin) as [?|Hex]; [by apply Hn|]. unfold state_of in Hex. rewrite Hf in Hex.
  cbn in Hex. congruence.
Qed.

Lemma held_frame ft : held_ok own w tid ft -> held_ok own' w' tid ft.
Proof.
  intros H p Hp. destruct (H p Hp) as (Ho & f & ?).
  destruct (frame_at p _ Ho eq_refl) as [-> ->]. eauto.
Qed.

Lemma worker_frame : worker_ok own w q tid k -> worker_ok own' w' q' tid k.
Proof.
  intros (m & Hm & Hom & Hoi & H). exists m.
  destruct (frame_at _ _ Hom eq_refl) as [Em _], (frame_at _ _ Hoi eq_refl) as [Ei _].
  split_and!; try done. pose proof (fun p (Hp : own p = Run tid) => proj1 (frame_at p _ Hp eq_refl)) as Hrun.
  destruct (w_pc k); destruct_and!; split_and!;
    eauto using spare_frame, idle_frame, left_idle_frame, left_fiber_frame, held_frame, in_fiber_frame.
Qed.

End frame.

(** Counting workers. *)
Definition is_active (k : worker) : bool :=
  match w_pc k with
  | Dispatch _ a => a
  | InFiber _ | LeftFiber _ | InCb _ | LeftCb _ => true
  | _ => false
  end.

Definition is_idle (k : worker) : bool := match w_pc k with InIdle | LeftIdle => true | _ => false end.

Definition count (P : worker -> bool) (ws : gmap Z worker) : Z :=
  Z.of_nat (length (filter (fun k => P k = true) (map snd (map_to_list ws)))).

Lemma count_insert_new P ws tid k :
  ws !! tid = None -> count P (<[tid := k]> ws) = (if P k then 1 else 0) + count P ws.
Proof.
  intros Hn. unfold count. rewrite (map_to_list_insert ws tid k Hn). cbn [map snd].
  rewrite filter_cons. destruct (P k); cbn; [rewrite decide_True by done; cbn [length]; lia|].
  rewrite decide_False by done. lia.
Qed.

Lemma count_insert P ws tid k k' :
  ws !! tid = Some k ->
  count P (<[tid := k']> ws) = count P ws - (if P k then 1 else 0) + (if P k' then 1 else 0).
Proof.
  intros Hk. rewrite <- (insert_delete_eq ws tid k') .
  rewrite <- (insert_delete_id ws tid k Hk) at 2.
  rewrite !count_insert_new by apply lookup_delete_eq. lia.
Qed.

Definition queue_ok (own : Z -> owner) (w : fibers) (q : list Z) : Prop :=
  NoDup q /\ forall p, p ∈ q -> is_Some (heap w !! p) /\
    (own p = Free \/ (exists t, own p = Run t) /\ state_of w p = Some EXEC).

(** The worker [k] really has the fiber [p] in the role [o]. *)
Definition claims (o : owner) (k : worker) (p : Z) : Prop :=
  match o with
  | Free => True
  | Main _ => t_scheduler_fiber (w_tls k) = Some p
  | Idle _ => w_idle k = p
  | Spare _ => w_cb_fiber k = Some p /\ current k <> Some p
  | Held _ => exists ft a, w_pc k = Dispatch ft a /\ ft_fiber ft = Some p
  | Run _ => current k = Some p
  end.

Record sys_inv (own : Z -> owner) (y : system) : Prop := {
  si_exact p t : owner_tid (own p) = Some t -> exists k, workers y !! t = Some k /\ claims (own p) k p;
  si_alloc p : own p <> Free -> is_Some (heap (fib y) !! p);
  si_free p f : heap (fib y) !! p = Some f -> own p = Free -> rest_ok p f;
  si_workers tid k : workers y !! tid = Some k -> worker_ok own (fib y) (queued y) tid k;
  si_queue : queue_ok own (fib y) (queued y);
  si_tasks : Forall one_task (m_fibers (sch y));
  si_active : m_activeThreadCount (sch y) = count is_active (workers y);
  si_idle : m_idleThreadCount (sch y) = count is_idle (workers y)
}.

Definition b2z (b : bool) : Z := if b then 1 else 0.

(** A step of the worker [tid] keeps the invariant if it touches only fibers
    that are its own or nobody's. *)
Lemma inv_update own own' y s w tid k k' :
  sys_inv own y -> workers y !! tid = Some k ->
  (forall p, own' p <> Free -> is_Some (heap w !! p)) ->
  (forall p f, heap w !! p = Some f -> own' p = Free -> rest_ok p f) ->
  (forall p t, t <> tid -> owner_tid (own p) = Some t -> own' p = own p /\ heap w !! p = heap (fib y) !! p) ->
  let q' := omap ft_fiber (m_fibers s) in
  (forall p t, t <> tid -> own p = Run t -> p ∈ q' -> p ∈ queued y \/ state_of (fib y) p = Some EXEC) ->
  worker_ok own' w q' tid k' -> queue_ok own' w q' -> Forall one_task (m_fibers s) ->
  (forall p, owner_tid (own' p) = Some tid -> claims (own' p) k' p) ->
  (forall p t, t <> tid -> owner_tid (own' p) = Some t -> own p = own' p) ->
  m_activeThreadCount s = m_activeThreadCount (sch y) - b2z (is_active k) + b2z (is_active k') ->
  m_idleThreadCount s = m_idleThreadCount (sch y) - b2z (is_idle k) + b2z (is_idle k') ->
  sys_inv own' (update y s w tid k').
Proof.
  intros I Hk Ha Hf Hown q' Hq Hw Hqok Ht Hcl Hrev Hact Hidle.
  constructor; cbn [update fib sch workers]; try done.
  - intros p t Ho. rewrite lookup_insert. case_decide as Et; [subst; eauto|].
    rewrite <- (Hrev p t) in Ho |- * by done. by apply (si_exact _ _ I).
  - intros t k2. rewrite lookup_insert. case_decide as Et; [intros [= <-]; subst; done|].
    intros Hk2. eapply worker_frame; [| |by apply (si_workers _ _ I)].
    + intros p Hp. by apply (Hown p t).
    + intros p Hp. by apply (Hq p t).
  - rewrite Hact, (si_active _ _ I), (count_insert _ _ _ k) by done. done.
  - rewrite Hidle, (si_idle _ _ I), (count_insert _ _ _ k) by done. done.
Qed.

Definition upd (own : Z -> owner) (p : Z) (o : owner) : Z -> owner :=
  fun x => if decide (x = p) then o else own x.

Lemma upd_eq own p o : upd own p o p = o.
Proof. unfold upd. by rewrite decide_True. Qed.

Lemma upd_ne own p o x : x <> p -> upd own p o x = own x.
Proof. intros. unfold upd. by rewrite decide_False. Qed.

(** The same when the step changes nothing but the worker and the counters. *)
Lemma inv_local own y s tid k k' :
  sys_inv own y -> workers y !! tid = Some k ->
  m_fibers s = m_fibers (sch y) -> worker_ok own (fib y) (queued y) tid k' ->
  (forall x, owner_tid (own x) = Some tid -> claims (own x) k x -> claims (own x) k' x) ->
  m_activeThreadCount s = m_activeThreadCount (sch y) - b2z (is_active k) + b2z (is_active k') ->
  m_idleThreadCount s = m_idleThreadCount (sch y) - b2z (is_idle k) + b2z (is_idle k') ->
  sys_inv own (update y s (fib y) tid k').
Proof.
  intros I Hk Hq Hw Hc Ha Hi. pose proof I as [Hex].
  eapply inv_update; rewrite ?Hq; eauto.
  intros p Hp. apply Hc; [done|]. destruct (Hex p tid Hp) as (k0 & Hk0 & ?). congruence.
Qed.

(** Worker [tid] changes the fiber [p], which is its own or free, into [f] with
    owner [o]; the context of its main fiber may change too. *)
Lemma inv_one own y s w tid k k' p f o :
  sys_inv own y -> workers y !! tid = Some k -> heap w !! p = Some f ->
  (forall x, x <> p -> heap w !! x = heap (fib y) !! x \/ own x = Main tid /\ is_Some (heap w !! x)) ->
  owner_tid (own p) = None \/ owner_tid (own p) = Some tid ->
  (o = Free -> rest_ok p f) ->
  let q' := omap ft_fiber (m_fibers s) in
  (forall x, x ∈ q' -> x = p \/ x ∈ queued y) -> NoDup q' ->
  (p ∈ q' -> o = Free \/ (exists t, o = Run t) /\ m_state f = EXEC) ->
  worker_ok (upd own p o) w q' tid k' -> Forall one_task (m_fibers s) ->
  (o = Free \/ owner_tid o = Some tid /\ claims o k' p) ->
  (forall x, x <> p -> owner_tid (own x) = Some tid -> claims (own x) k x -> claims (own x) k' x) ->
  m_activeThreadCount s = m_activeThreadCount (sch y) - b2z (is_active k) + b2z (is_active k') ->
  m_idleThreadCount s = m_idleThreadCount (sch y) - b2z (is_idle k) + b2z (is_idle k') ->
  sys_inv (upd own p o) (update y s w tid k').
Proof.
  intros I Hk Hwp Hw Hp Hfree q' Hq' Hnd Hpq Hwk Ht Ho Hcl Ha Hi. pose proof I as [IE IA IF IW IQ _ _ _].
  eapply inv_update; try done.
  - intros x Hx. destruct (decide (x = p)) as [->|Hne]; [by rewrite Hwp|].
    destruct (Hw x Hne) as [->|[_ ?]]; [|done]. apply IA. by rewrite upd_ne in Hx.
  - intros x fx Hx Hox. destruct (decide (x = p)) as [->|Hne].
    + rewrite upd_eq in Hox. rewrite Hwp in Hx. injection Hx as <-. auto.
    + rewrite upd_ne in Hox by done. destruct (Hw x Hne) as [E|[E _]]; [|congruence].
      apply IF; congruence.
  - intros x t Ht' Hox. destruct (decide (x = p)) as [->|Hne]; [destruct Hp as [Hp|Hp]; congruence|].
    rewrite upd_ne by done. destruct (Hw x Hne) as [->|[E _]]; [done|]. rewrite E in Hox. cbn in Hox. congruence.
  - intros x t Ht' Hox Hx. destruct (Hq' x Hx) as [->|]; [|by left].
    rewrite Hox in Hp. destruct Hp as [Hp|Hp]; cbn in Hp; congruence.
  - split; [done|]. intros x Hx. destruct (decide (x = p)) as [->|Hne].
    + rewrite upd_eq. unfold state_of. rewrite Hwp. split; [done|].
      destruct (Hpq Hx) as [?|[? ?]]; [by left|right; split; [done|]]. cbn. congruence.
    + rewrite upd_ne by done. destruct (Hq' x Hx) as [?|Hxq]; [done|].
      destruct (proj2 IQ x Hxq) as [Hs Hoq]. unfold state_of in *.
      destruct (Hw x Hne) as [->|[E _]]; [done|]. rewrite E in Hoq. destruct Hoq as [|[[? ?] _]]; done.
  - intros x Hx. destruct (decide (x = p)) as [->|Hne].
    + rewrite upd_eq in *. destruct Ho as [->|[_ ?]]; done.
    + rewrite upd_ne in * by done. apply Hcl; [done..|]. destruct (IE x tid Hx) as (k0 & Hk0 & ?). congruence.
  - intros x t Ht' Hx. destruct (decide (x = p)) as [->|Hne].
    + rewrite upd_eq in Hx. destruct Ho as [->|[E _]]; [done|]. congruence.
    + by rewrite upd_ne.
Qed.

(** ** Steps of a worker *)

Lemma queued_unowned own y p o :
  sys_inv own y -> own p = o -> (o <> Free /\ forall t, o <> Run t) -> p ∉ queued y.
Proof.
  intros I Ho [H1 H2] Hq. destruct (proj2 (si_queue _ _ I) p Hq) as [_ [H|[[t H] _]]]; [congruence|].
  apply (H2 t). congruence.
Qed.

(** Dispatching: [w0] is the state after the fiber [p] was prepared (taken as it
    is, reset, or created), and [s] the scheduler after the counter updates. *)
Lemma inv_swapIn own y s w0 tid k m fm p f :
  sys_inv own y -> workers y !! tid = Some k ->
  t_scheduler_fiber (w_tls k) = Some m -> on_cpu (w_tls k) = m -> own m = Main tid -> heap (fib y) !! m = Some fm ->
  heap w0 = <[p := f]> (heap (fib y)) -> rest_ok p f -> finished (m_state f) = false ->
  owner_tid (own p) = None \/ owner_tid (own p) = Some tid -> p <> m -> p ∉ queued y ->
  m_fibers s = m_fibers (sch y) ->
  exists w1 tl1 fm' f', Fiber_swapIn w0 (w_tls k) p = Ok (w1, tl1) /\
    running w1 tl1 m p fm' f' /\ m_stack f' = true /\ f_cb f' = f_cb f /\
    (forall x, x <> p -> x <> m -> heap w1 !! x = heap (fib y) !! x) /\
    (forall o k', o <> Free -> owner_tid o = Some tid -> claims o k' p ->
      (forall x, x <> p -> owner_tid (own x) = Some tid -> claims (own x) k x -> claims (own x) k' x) ->
      worker_ok (upd own p o) w1 (queued y) tid k' ->
      m_activeThreadCount s = m_activeThreadCount (sch y) - b2z (is_active k) + b2z (is_active k') ->
      m_idleThreadCount s = m_idleThreadCount (sch y) - b2z (is_idle k) + b2z (is_idle k') ->
      sys_inv (upd own p o) (update y s w1 tid k')).
Proof.
  intros I Hk Hsch Hcpu Hom Hm Hw0 [Hstk Hrest] Hfin Hp Hne Hnq Hq.
  assert (C : can_swapIn w0 (w_tls k) m p fm f).
  { constructor; try done; rewrite ?Hw0.
    - by rewrite lookup_insert_ne.
    - by rewrite lookup_insert_eq.
    - intros E. by rewrite E in Hrest.
    - destruct (m_state f); try done; auto. }
  rewrite (swapIn_ok _ _ _ _ _ _ C).
  eexists _, _, (set_ctx fm (CtxSaved m)), (set_state f EXEC). split; [reflexivity|].
  assert (Hother : forall x, x <> p -> x <> m ->
    heap (put (put w0 p (set_state f EXEC)) m (set_ctx fm (CtxSaved m))) !! x = heap (fib y) !! x).
  { intros x Hx1 Hx2. cbn. rewrite Hw0, !lookup_insert_ne by done. done. }
  split_and!; [|done|reflexivity|done|].
  - constructor; try done; cbn; [apply lookup_insert_eq|].
    rewrite lookup_insert_ne by done. apply lookup_insert_eq.
  - intros o k' Ho Hot Hcp Hcx Hwk Ha Hi. eapply (inv_one own y s _ tid k k' p (set_state f EXEC) o); try done.
    + cbn. rewrite lookup_insert_ne by done. apply lookup_insert_eq.
    + intros x Hx. destruct (decide (x = m)) as [->|]; [|left; auto].
      right. split; [done|]. cbn. by rewrite lookup_insert_eq.
    + rewrite Hq. auto.
    + rewrite Hq. apply (si_queue _ _ I).
    + rewrite Hq. done.
    + rewrite Hq. done.
    + rewrite Hq. apply (si_tasks _ _ I).
    + auto.
Qed.

(** The roles of other fibers are not affected when a worker takes up or drops [p]. *)
Lemma claims_frame o k k' p x :
  x <> p -> claims o k x ->
  t_scheduler_fiber (w_tls k') = t_scheduler_fiber (w_tls k) -> w_idle k' = w_idle k ->
  (w_cb_fiber k' = w_cb_fiber k \/ w_cb_fiber k = Some p \/ w_cb_fiber k = None) ->
  (current k' = Some p \/ current k' = None) -> (current k = Some p \/ current k = None) ->
  (forall ft a, w_pc k = Dispatch ft a -> ft_fiber ft = Some p \/ ft_fiber ft = None) ->
  claims o k' x.
Proof.
  intros Hx Hc Hs Hi Hcb Hc' Hk Hd. destruct o; cbn in *; try done; try congruence.
  - destruct Hc as [Hc1 Hc2]. split; [|destruct Hc'; congruence]. destruct Hcb as [|[|]]; congruence.
  - destruct Hc as (ft & a & E & Hf). destruct (Hd ft a E); congruence.
  - destruct Hk; congruence.
Qed.

(** A worker that only moves on in the loop keeps its roles. *)
Lemma claims_same o k k' x :
  claims o k x -> t_scheduler_fiber (w_tls k') = t_scheduler_fiber (w_tls k) -> w_idle k' = w_idle k ->
  w_cb_fiber k' = w_cb_fiber k -> current k' = current k ->
  (forall ft a, w_pc k = Dispatch ft a -> ft_fiber ft = None) -> claims o k' x.
Proof.
  intros Hc Hs Hi Hcb Hcur Hd. destruct o; cbn in *; try done; try congruence.
  - destruct Hc as (ft & a & E & Hf). rewrite (Hd ft a E) in Hf. done.
Qed.

Ltac claims_tac Hpc p :=
  intros; eapply (claims_frame _ _ _ p); [eassumption|eassumption|..];
  unfold current; cbn; rewrite ?Hpc; cbn; try done; auto; try (intros ? ? [= <- <-]; cbn; auto).

Ltac claims_same_tac Hpc :=
  intros; eapply claims_same; [eassumption|..];
  unfold current; cbn; rewrite ?Hpc; cbn; try done; try (intros ? ? [= <- <-]; cbn; done).

(** The parts of a worker's condition that a change at [p] leaves alone. *)
Section parts.
Variables (own : Z -> owner) (w w' : fibers) (p : Z) (o : owner) (tid : Z).
Hypothesis agree : forall x, x <> p -> own x <> Main tid -> heap w' !! x = heap w !! x.

Lemma spare_upd k k' :
  w_cb_fiber k' = w_cb_fiber k -> own p <> Spare tid -> spare_ok own w tid k -> spare_ok (upd own p o) w' tid k'.
Proof.
  intros Hc Hp H c. rewrite Hc. intros Hcc. destruct (H c Hcc) as (Ho & f & Hf & Hr).
  assert (c <> p) by congruence. rewrite upd_ne, agree by (done || congruence). eauto.
Qed.

Lemma idle_upd k k' :
  w_idle k' = w_idle k -> own (w_idle k) = Idle tid -> own p <> Idle tid -> idle_ok w k -> idle_ok w' k'.
Proof.
  intros Hi Ho Hp (f & Hf & H). exists f. rewrite Hi, agree by congruence. done.
Qed.

Lemma owner_upd x ox : own x = ox -> own p <> ox -> upd own p o x = ox.
Proof. intros Hx Hp. rewrite upd_ne; [done|congruence]. Qed.

End parts.

Lemma omap_app_cons {A B} (f : A -> option B) l1 x l2 :
  omap f (l1 ++ x :: l2) = omap f l1 ++ (match f x with Some b => [b] | None => [] end) ++ omap f l2.
Proof. rewrite omap_app. f_equal. cbn. by destruct (f x). Qed.

Lemma one_task_ok x : one_task x -> task_ok x.
Proof. unfold one_task, task_ok. tauto. Qed.

Section worker_steps.
Variables (dflt : Z) (own : Z -> owner) (y : system) (tid : Z) (k : worker).
Hypothesis I : sys_inv own y.
Hypothesis Hk : workers y !! tid = Some k.

Lemma worker_main m : own m = Main tid -> exists fm, heap (fib y) !! m = Some fm.
Proof. intros H. destruct (si_alloc _ _ I m) as [fm ?]; [by rewrite H|]. eauto. Qed.

(** What taking a task does to the counters. *)
Lemma taken_counts ft : w_pc k = Pick ->
  1 + m_activeThreadCount (sch y) =
    m_activeThreadCount (sch y) - b2z (is_active k) + b2z (is_active (goto k (Dispatch ft true))) /\
  m_idleThreadCount (sch y) = m_idleThreadCount (sch y) - b2z (is_idle k) + b2z (is_idle (goto k (Dispatch ft true))).
Proof. intros Hpc. unfold b2z, is_active, is_idle. rewrite Hpc. cbn. lia. Qed.

(** The system after the worker took [ft] from between [sk] and [rest]. *)
Definition taken (sk : list FiberAndThread) (ft : FiberAndThread) (rest : list FiberAndThread) : system :=
  update y (add_active (with_fibers (sch y) (sk ++ rest)) 1) (fib y) tid (goto k (Dispatch ft true)).

Lemma take_fiber_inv sk ft rest f :
  w_pc k = Pick -> m_fibers (sch y) = sk ++ ft :: rest -> eligible (state_of (fib y)) tid ft = true ->
  ft_fiber ft = Some f -> exists own', sys_inv own' (taken sk ft rest).
Proof.
  intros Hpc Eq Hel Ef. pose proof (si_workers _ _ I tid k Hk) as (m & Hm & Hom & Hoi & Hw).
  rewrite Hpc in Hw. destruct Hw as (Hcpu & Hid & Hsp). unfold taken.
  pose proof (si_queue _ _ I) as [Hnd Hqok]. pose proof (si_tasks _ _ I) as Htk.
  unfold queued in *. rewrite Eq in Htk, Hnd, Hqok. rewrite omap_app_cons, Ef in Hnd, Hqok.
  apply Forall_app in Htk as [Htk1 [Htk0 Htk2]%Forall_cons_1].
  destruct (taken_counts ft Hpc) as [Hca Hci].
  destruct (Hqok f) as [[fb Hfb] Hof]; [set_solver|].
  assert (Hfree : own f = Free).
  { destruct Hof as [?|[_ Hex]]; [done|]. unfold eligible in Hel. rewrite Ef, Hex in Hel.
    rewrite bool_decide_eq_true_2 in Hel by done. rewrite andb_false_r in Hel. done. }
  exists (upd own f (Held tid)).
  assert (Hag : forall x, x <> f -> own x <> Main tid -> heap (fib y) !! x = heap (fib y) !! x) by done.
  eapply (inv_one own y _ (fib y) tid k _ f fb); try done; cbn [with_fibers add_active m_fibers sch].
  - auto.
  - left. by rewrite Hfree.
  - intros x Hx. right. unfold queued. rewrite Eq, omap_app_cons. rewrite omap_app in Hx. set_solver.
  - rewrite omap_app. cbn in Hnd. apply NoDup_app in Hnd as (H1 & H2 & [H3 H4]%NoDup_cons).
    apply NoDup_app. split_and!; [done| |done]. intros x Hx Hx2. apply (H2 x Hx). by right.
  - intros Hx. exfalso. rewrite omap_app in Hx. cbn in Hnd.
    apply NoDup_app in Hnd as (H1 & H2 & [H3 H4]%NoDup_cons).
    apply elem_of_app in Hx as [Hx|Hx]; [|done]. apply (H2 f Hx). left.
  - exists m. cbn. split_and!; try done.
    + apply owner_upd; [done|by rewrite Hfree].
    + apply owner_upd; [done|by rewrite Hfree].
    + eapply (spare_upd own (fib y) (fib y) f _ tid Hag k); [done|by rewrite Hfree|done].
    + intros p. rewrite Ef. intros [= <-]. rewrite upd_eq. split; [done|]. exists fb. split; [done|].
      by apply (si_free _ _ I).
  - by apply Forall_app.
  - right. split; [done|]. cbn. eauto.
  - claims_tac Hpc f.
  - rewrite <- Hca. apply Z.add_comm.
Qed.

Lemma take_cb_inv sk ft rest :
  w_pc k = Pick -> m_fibers (sch y) = sk ++ ft :: rest -> ft_fiber ft = None ->
  exists own', sys_inv own' (taken sk ft rest).
Proof.
  intros Hpc Eq Ef. pose proof (si_workers _ _ I tid k Hk) as (m & Hm & Hom & Hoi & Hw).
  rewrite Hpc in Hw. destruct Hw as (Hcpu & Hid & Hsp). unfold taken.
  pose proof (si_queue _ _ I) as [Hnd Hqok]. pose proof (si_tasks _ _ I) as Htk.
  unfold queued in *. rewrite Eq in Htk, Hnd, Hqok. rewrite omap_app_cons, Ef in Hnd, Hqok.
  apply Forall_app in Htk as [Htk1 [Htk0 Htk2]%Forall_cons_1].
  destruct (taken_counts ft Hpc) as [Hca Hci].
  exists own. cbn [app] in Hnd, Hqok.
  eapply inv_update; try done; cbn [with_fibers add_active m_fibers sch].
  - apply (si_alloc _ _ I).
  - apply (si_free _ _ I).
  - intros p t0 _ _ Hx. left. unfold queued. rewrite Eq, omap_app_cons, Ef. rewrite omap_app in Hx. done.
  - exists m. cbn. split_and!; try done. intros p. by rewrite Ef.
  - rewrite omap_app. done.
  - by apply Forall_app.
  - intros p Hp. destruct (si_exact _ _ I p tid Hp) as (k0 & Hk0 & Hc). rewrite Hk in Hk0. injection Hk0 as <-.
    claims_same_tac Hpc.
  - rewrite <- Hca. apply Z.add_comm.
Qed.

Lemma pick_inv : w_pc k = Pick -> exists t y' own', run_pick y tid k = Ok (t, y') /\ sys_inv own' y'.
Proof.
  intros Hpc. pose proof (si_workers _ _ I tid k Hk) as (m & Hm & Hom & Hoi & Hw).
  rewrite Hpc in Hw. destruct Hw as (Hcpu & Hid & Hsp). unfold run_pick.
  destruct (pick_loop_spec (state_of (fib y)) tid (m_fibers (sch y))) as (sk & o & rest & t & -> & _ & Ho & _).
  { eapply Forall_impl; [apply (si_tasks _ _ I)|]. intros; by apply one_task_ok. }
  cbn [obind]. destruct o as [ft|].
  - destruct Ho as [Eq Hel]. destruct (ft_fiber ft) as [f|] eqn:Ef.
    + destruct (take_fiber_inv sk ft rest f Hpc Eq Hel Ef) as [own' I']. eexists _, _, own'. by split.
    + destruct (take_cb_inv sk ft rest Hpc Eq Ef) as [own' I']. eexists _, _, own'. by split.
  - eexists _, _, own. split; [reflexivity|]. eapply inv_local; try done.
    + exists m. cbn. split_and!; try done.
    + claims_same_tac Hpc.
    + unfold b2z, is_active. rewrite Hpc. cbn. lia.
    + unfold b2z, is_idle. rewrite Hpc. cbn. lia.
Qed.

(** The counters, once the worker's place in the loop is known. *)
Ltac counts Hpc := unfold b2z, is_active, is_idle; rewrite ?Hpc; cbn; lia.

Lemma dispatch_fiber_inv f a fresh :
  w_pc k = Dispatch (mkFT (Some f) None a) true ->
  exists y' own', run_dispatch dflt y tid k (mkFT (Some f) None a) true fresh = Ok y' /\ sys_inv own' y'.
Proof.
  intros Hpc. pose proof (si_workers _ _ I tid k Hk) as (m & Hm & Hom & Hoi & Hw).
  rewrite Hpc in Hw. destruct Hw as (Hcpu & Hid & Hsp & Hheld & _).
  destruct (Hheld f eq_refl) as (Hof & fb & Hfb & Hrest).
  assert (Hnq : f ∉ queued y) by (eapply queued_unowned; [done..|]; split; congruence).
  destruct (worker_main m Hom) as [fm Hfm].
  unfold run_dispatch. cbn [ft_fiber ft_cb]. unfold state_of. rewrite Hfb. cbn [fmap option_fmap option_map].
  destruct (finished (m_state fb)) eqn:Efin; cbn [negb].
  - exists (update y (add_active (sch y) (-1)) (fib y) tid (goto k Pick)), (upd own f Free). split; [done|].
    assert (Hag : forall x, x <> f -> own x <> Main tid -> heap (fib y) !! x = heap (fib y) !! x) by done.
    eapply (inv_one own y _ (fib y) tid k _ f fb); try done.
    + auto.
    + right. by rewrite Hof.
    + intros x Hx. by right.
    + apply (si_queue _ _ I).
    + exists m. cbn. split_and!; try done; try (apply owner_upd; [done|by rewrite Hof]).
      eapply (spare_upd own (fib y) (fib y) f _ tid Hag k); [done|by rewrite Hof|done].
    + apply (si_tasks _ _ I).
    + by left.
    + claims_tac Hpc f.
    + counts Hpc.
    + counts Hpc.
  - edestruct (inv_swapIn own y (sch y) (fib y) tid k) as (w1 & tl1 & fm' & f' & -> & R & Hst & Hcb & Hoth & Hinv);
      try done; [by rewrite insert_id|right; by rewrite Hof|congruence|].
    cbn [obind]. eexists _, (upd own f (Run tid)). split; [reflexivity|].
    assert (Hag : forall x, x <> f -> own x <> Main tid -> heap w1 !! x = heap (fib y) !! x)
      by (intros; apply Hoth; congruence).
    pose proof (run_sched _ _ _ _ _ _ R) as Hs1.
    apply Hinv; [done|done|done|claims_tac Hpc f; congruence| |counts Hpc|counts Hpc].
    exists m. cbn. split_and!; try (apply owner_upd; [done|by rewrite Hof]).
    + apply R.
    + eapply (idle_upd own _ w1 f tid Hag k); [done|done|by rewrite Hof|done].
    + eapply (spare_upd own _ w1 f _ tid Hag k); [done|by rewrite Hof|done].
    + apply upd_eq.
    + exists fm', f'. split_and!; [exact R|done|]. cbn. intros E. rewrite <- E in Hoi. congruence.
Qed.

Lemma dispatch_cb_inv cb a fresh :
  w_pc k = Dispatch (mkFT None (Some cb) a) true -> heap (fib y) !! fresh = None ->
  exists y' own', run_dispatch dflt y tid k (mkFT None (Some cb) a) true fresh = Ok y' /\ sys_inv own' y'.
Proof.
  intros Hpc Hfresh. pose proof (si_workers _ _ I tid k Hk) as (m & Hm & Hom & Hoi & Hw).
  rewrite Hpc in Hw. destruct Hw as (Hcpu & Hid & Hsp & _ & _).
  destruct (worker_main m Hom) as [fm Hfm].
  unfold run_dispatch. cbn [ft_fiber ft_cb].
  assert (Hprep : exists c w0 fc,
    (match w_cb_fiber k with
     | Some c => let! w := Fiber_reset (fib y) c (Some cb) in Ok (c, w)
     | None => Ok (fresh, Fiber_new dflt (fib y) fresh (Some cb) 0 false)
     end) = Ok (c, w0) /\ heap w0 = <[c := fc]> (heap (fib y)) /\ rest_ok c fc /\
    finished (m_state fc) = false /\ (own c = Free \/ own c = Spare tid) /\ c <> m /\ c ∉ queued y /\ c <> w_idle k /\
    (w_cb_fiber k = Some c \/ w_cb_fiber k = None)).
  { destruct (w_cb_fiber k) as [c|] eqn:Ec.
    - destruct (Hsp c Ec) as (Hoc & fc & Hfc & [Hst Hctx] & Hini & _). unfold Fiber_reset.
      rewrite Hfc. cbn [deref]. rewrite Hst, Hini. cbn. eexists c, _, _. split; [reflexivity|].
      split; [reflexivity|]. split_and!; try done; try congruence; [by right| |by left].
      eapply queued_unowned; [done..|]. split; congruence.
    - assert (Hof : own fresh = Free).
      { destruct (own fresh) eqn:E; [done|..]; destruct (si_alloc _ _ I fresh); congruence. }
      eexists fresh, _, _. split; [reflexivity|]. split; [reflexivity|].
      split_and!; try done; try congruence; [by left| |by right]. intros Hq.
      destruct (proj2 (si_queue _ _ I) fresh Hq) as [[? ?] _]. congruence. }
  destruct Hprep as (c & w0 & fc & -> & Hw0 & Hrest & Hfin & Hoc & Hcm & Hcq & Hci & Hcbk). cbn [obind].
  edestruct (inv_swapIn own y (sch y) w0 tid k) as (w1 & tl1 & fm' & f' & -> & R & Hst & Hcb & Hoth & Hinv);
    try done; [destruct Hoc as [-> | ->]; auto|].
  cbn [obind]. eexists _, (upd own c (Run tid)). split; [reflexivity|].
  assert (Hag : forall x, x <> c -> own x <> Main tid -> heap w1 !! x = heap (fib y) !! x)
    by (intros; apply Hoth; congruence).
  pose proof (run_sched _ _ _ _ _ _ R) as Hs1.
  apply Hinv; [done|done|done|claims_tac Hpc c; congruence| |counts Hpc|counts Hpc].
  exists m. cbn. split_and!; try (apply owner_upd; [done|by destruct Hoc as [-> | ->]]).
  - apply R.
  - eapply (idle_upd own _ w1 c tid Hag k); [done|done|by destruct Hoc as [-> | ->]|done].
  - done.
  - apply upd_eq.
  - exists fm', f'. split_and!; [exact R|done|done].
Qed.

Lemma dispatch_none_inv fresh :
  w_pc k = Dispatch FiberAndThread_reset false ->
  exists y' own', run_dispatch dflt y tid k FiberAndThread_reset false fresh = Ok y' /\ sys_inv own' y'.
Proof.
  intros Hpc. pose proof (si_workers _ _ I tid k Hk) as (m & Hm & Hom & Hoi & Hw).
  rewrite Hpc in Hw. destruct Hw as (Hcpu & Hid & Hsp & _ & _).
  destruct (worker_main m Hom) as [fm Hfm].
  unfold run_dispatch. cbn [ft_fiber ft_cb FiberAndThread_reset].
  pose proof Hid as (fi & Hfi & Hrest & Hnex & Hcbi). unfold state_of. rewrite Hfi.
  cbn [fmap option_fmap option_map]. case_bool_decide as Eterm.
  - exists (update y (sch y) (fib y) tid (goto k Done)), own. split; [done|].
    eapply inv_local; try done; [|claims_same_tac Hpc|counts Hpc|counts Hpc]. exists m. cbn. done.
  - assert (Hnt : m_state fi <> TERM) by congruence.
    edestruct (inv_swapIn own y (add_idle (sch y) 1) (fib y) tid k)
      as (w1 & tl1 & fm' & f' & -> & R & Hst & Hcb & Hoth & Hinv); try done.
    + by rewrite insert_id.
    + unfold finished, state_eqb. rewrite !bool_decide_eq_false_2 by done. done.
    + right. by rewrite Hoi.
    + congruence.
    + eapply queued_unowned; [done..|]. split; congruence.
    + cbn [obind]. eexists _, (upd own (w_idle k) (Idle tid)). split; [reflexivity|].
      assert (Hag : forall x, x <> w_idle k -> own x <> Main tid -> heap w1 !! x = heap (fib y) !! x)
        by (intros; apply Hoth; congruence).
      pose proof (run_sched _ _ _ _ _ _ R) as Hs1.
      apply Hinv; [done|done|done|claims_tac Hpc (w_idle k); congruence| |counts Hpc|counts Hpc].
      exists m. cbn. split_and!.
      * apply R.
      * apply owner_upd; [done|by rewrite Hoi].
      * apply upd_eq.
      * eapply (spare_upd own _ w1 _ _ tid Hag k); [done|by rewrite Hoi|done].
      * exists fm', f'. split_and!; [exact R|done|]. intros _. rewrite Hcb. auto.
Qed.

Lemma dispatch_inv ft a fresh :
  w_pc k = Dispatch ft a -> heap (fib y) !! fresh = None ->
  exists y' own', run_dispatch dflt y tid k ft a fresh = Ok y' /\ sys_inv own' y'.
Proof.
  intros Hpc Hfresh. pose proof (si_workers _ _ I tid k Hk) as (m & _ & _ & _ & Hw).
  rewrite Hpc in Hw. destruct Hw as (_ & _ & _ & _ & Hft).
  destruct a; [|subst ft; by apply dispatch_none_inv].
  destruct ft as [ofb ocb th]. destruct Hft as [[[f Hf] Hc]|[Hf [cb Hc]]]; cbn in Hf, Hc; subst.
  - by apply dispatch_fiber_inv.
  - by apply dispatch_cb_inv.
Qed.

(** The loop has dealt with the fiber [p] it ran: it becomes [f] with owner [o]
    (nobody, or kept for reuse), and the worker goes back to the top of the loop. *)
Lemma inv_release p f o s w cbf :
  current k = Some p -> own p = Run tid -> is_active k = false -> is_idle k = false ->
  heap w = <[p := f]> (heap (fib y)) -> rest_ok p f ->
  (o = Free /\ (w_cb_fiber k = Some p -> cbf = None) /\ (w_cb_fiber k <> Some p -> cbf = w_cb_fiber k) \/
   o = Spare tid /\ cbf = Some p /\ (m_state f = INIT /\ f_cb f = None) /\ p ∉ queued y /\ m_fibers s = m_fibers (sch y) /\
   w_cb_fiber k = Some p) ->
  (m_fibers s = m_fibers (sch y) \/
   m_fibers s = m_fibers (sch y) ++ [mkFT (Some p) None (-1)] /\ p ∉ queued y) ->
  m_activeThreadCount s = m_activeThreadCount (sch y) -> m_idleThreadCount s = m_idleThreadCount (sch y) ->
  (w_cb_fiber k <> Some p -> spare_ok own (fib y) tid k) -> idle_ok (fib y) k ->
  on_cpu (w_tls k) = default 0 (t_scheduler_fiber (w_tls k)) ->
  exists own', sys_inv own' (update y s w tid (mkWorker (w_tls k) Pick (w_idle k) cbf)).
Proof.
  intros Hcur Hop Hact Hidl Hw Hrest Ho Hs Hsa Hsi Hsp Hid Hcpu. exists (upd own p o).
  pose proof (si_workers _ _ I tid k Hk) as (m & Hm & Hom & Hoi & _).
  assert (Hag : forall x, x <> p -> own x <> Main tid -> heap w !! x = heap (fib y) !! x)
    by (intros; rewrite Hw; by apply lookup_insert_ne).
  pose proof (si_queue _ _ I) as [Hnd _].
  eapply (inv_one own y s w tid k _ p f o); try done.
  - rewrite Hw. apply lookup_insert_eq.
  - intros x Hx. left. rewrite Hw. by apply lookup_insert_ne.
  - right. by rewrite Hop.
  - unfold queued. destruct Hs as [->|[-> _]]; [auto|]. rewrite omap_app. cbn. set_solver.
  - unfold queued in *. destruct Hs as [->|[-> Hnq]]; [done|]. rewrite omap_app. cbn.
    apply NoDup_app. split_and!; [done| |apply NoDup_singleton]. intros x Hx [->|[]%elem_of_nil]%elem_of_cons. done.
  - intros Hpq. destruct Ho as [[-> _]|(_ & _ & _ & Hnq & Es & _)]; [by left|]. unfold queued in Hnq. congruence.
  - exists m. cbn. split_and!; try (apply owner_upd; [done|by rewrite Hop]); try done.
    + rewrite Hcpu, Hm. done.
    + eapply (idle_upd own _ w p tid Hag k); [done|done|by rewrite Hop|done].
    + intros c Hc. cbn in Hc. destruct Ho as [(-> & Hc1 & Hc2)|(-> & -> & Hini & _)].
      * destruct (decide (w_cb_fiber k = Some p)) as [E|E]; [rewrite (Hc1 E) in Hc; done|].
        rewrite (Hc2 E) in Hc. destruct (Hsp E c Hc) as (Hoc & fc & Hfc & Hrc).
        assert (c <> p) by congruence. rewrite upd_ne, Hag by congruence. eauto.
      * injection Hc as <-. rewrite upd_eq, Hw, lookup_insert_eq. eauto.
  - destruct Hs as [->|[-> _]]; [apply (si_tasks _ _ I)|]. apply Forall_app. split; [apply (si_tasks _ _ I)|].
    constructor; [|constructor]. left. by eexists.
  - destruct Ho as [[-> _]|(-> & -> & _)]; [by left|right]. done.
  - unfold is_active in Hact. unfold current in *. intros x Hx Hxo Hc.
    destruct (own x); unfold claims, current in *; cbn; try done.
    + destruct Hc as [Hc _]. split; [|done]. destruct Ho as [(_ & _ & Hc2)|(_ & _ & _ & _ & _ & E)]; [rewrite Hc2|]; congruence.
    + destruct Hc as (ft & a & E & _). by rewrite E in Hcur.
    + congruence.
  - rewrite Hact, Hsa. cbn. lia.
  - rewrite Hidl, Hsi. cbn. lia.
Qed.

Lemma checkFiber_inv f :
  w_pc k = CheckFiber f -> exists t y' own', run_checkFiber y tid k f = Ok (t, y') /\ sys_inv own' y'.
Proof.
  intros Hpc. pose proof (si_workers _ _ I tid k Hk) as (m & Hm & Hom & Hoi & Hw).
  rewrite Hpc in Hw. destruct Hw as (Hcpu & Hid & Hsp & Hof & fb & Hfb & [Hstk Hleft] & Hnq).
  assert (Hcf : w_cb_fiber k <> Some f) by (intros E; destruct (Hsp f E); congruence).
  unfold run_checkFiber. rewrite Hfb. cbn [deref].
  assert (Hrel : forall fb' s, rest_ok f fb' ->
    (m_fibers s = m_fibers (sch y) \/ m_fibers s = m_fibers (sch y) ++ [mkFT (Some f) None (-1)] /\ f ∉ queued y) ->
    m_activeThreadCount s = m_activeThreadCount (sch y) -> m_idleThreadCount s = m_idleThreadCount (sch y) ->
    exists own', sys_inv own' (update y s (put (fib y) f fb') tid (goto k Pick))).
  { intros fb' s Hr Hs Ha Hi. eapply (inv_release f fb' Free); try done.
    - unfold current. by rewrite Hpc.
    - unfold is_active. by rewrite Hpc.
    - unfold is_idle. by rewrite Hpc.
    - left. split_and!; done.
    - by rewrite Hm. }
  unfold rest_ok in Hrel. destruct (m_state fb) eqn:Est; cbn [finished state_eqb bool_decide negb]; try done.
  - destruct (Hrel (set_state fb HOLD) (sch y)) as [own' H]; [done|by left|done|done|]. by eexists _, _, own'.
  - destruct (Hrel fb (sch y)) as [own' H]; [by rewrite Est|by left|done|done|].
    eexists _, _, own'. split; [reflexivity|]. unfold put in H. rewrite insert_id in H by done. by destruct (fib y).
  - destruct (Hrel fb (with_fibers (sch y) (m_fibers (sch y) ++ [mkFT (Some f) None (-1)]))) as [own' H];
      [by rewrite Est|right; split; [done|by apply Hnq]|done|done|].
    eexists _, _, own'. split; [reflexivity|]. unfold put in H. rewrite insert_id in H by done. by destruct (fib y).
  - destruct (Hrel fb (sch y)) as [own' H]; [by rewrite Est|by left|done|done|].
    eexists _, _, own'. split; [reflexivity|]. unfold put in H. rewrite insert_id in H by done. by destruct (fib y).
Qed.

Lemma checkCb_inv c :
  w_pc k = CheckCb c -> exists t y' own', run_checkCb y tid k c = Ok (t, y') /\ sys_inv own' y'.
Proof.
  intros Hpc. pose proof (si_workers _ _ I tid k Hk) as (m & Hm & Hom & Hoi & Hw).
  rewrite Hpc in Hw. destruct Hw as (Hcpu & Hid & Hcbf & Hof & fb & Hfb & [Hstk Hleft] & Hnq).
  unfold run_checkCb. rewrite Hfb. cbn [deref].
  assert (Hrel : forall fb' s o cbf, rest_ok c fb' ->
    (o = Free /\ cbf = None \/
     o = Spare tid /\ cbf = Some c /\ (m_state fb' = INIT /\ f_cb fb' = None) /\ c ∉ queued y /\ m_fibers s = m_fibers (sch y)) ->
    (m_fibers s = m_fibers (sch y) \/ m_fibers s = m_fibers (sch y) ++ [mkFT (Some c) None (-1)] /\ c ∉ queued y) ->
    m_activeThreadCount s = m_activeThreadCount (sch y) -> m_idleThreadCount s = m_idleThreadCount (sch y) ->
    exists own', sys_inv own' (update y s (put (fib y) c fb') tid (mkWorker (w_tls k) Pick (w_idle k) cbf))).
  { intros fb' s o cbf Hr Ho Hs Ha Hi. eapply (inv_release c fb' o); try done.
    - unfold current. by rewrite Hpc.
    - unfold is_active. by rewrite Hpc.
    - unfold is_idle. by rewrite Hpc.
    - destruct Ho as [[-> ->]|Ho]; [left|right; destruct_and!; done]. split_and!; congruence.
    - by rewrite Hm. }
  assert (Hreset : m_state fb = TERM \/ m_state fb = EXCEPT -> exists y' own',
    (let! w := Fiber_reset (fib y) c None in Ok (false, update y (sch y) w tid (goto k Pick))) = Ok (false, y') /\
    sys_inv own' y').
  { intros Hst. unfold Fiber_reset. rewrite Hfb. cbn [deref]. rewrite Hstk. cbn [assertb].
    replace (finished (m_state fb) || state_eqb (m_state fb) INIT) with true by (by destruct Hst as [-> | ->]).
    cbn [assertb obind].
    destruct (Hrel (mkFiber (m_id fb) true (m_stacksize fb) INIT CtxMainFunc None) (sch y) (Spare tid) (Some c))
      as [own' H]; [done| |by left|done|done|].
    - right. split_and!; try done. apply Hnq. destruct Hst as [-> | ->]; done.
    - eexists _, own'. split; [reflexivity|]. unfold goto. by rewrite Hcbf. }
  destruct (m_state fb) eqn:Est; cbn [finished state_eqb bool_decide orb]; try done.
  - destruct (Hrel (set_state fb HOLD) (sch y) Free None) as [own' H]; [done|by left|by left|done|done|].
    by eexists _, _, own'.
  - destruct Hreset as (y' & own' & E & H); [by left|]. by exists false, y', own'.
  - destruct (Hrel fb (with_fibers (sch y) (m_fibers (sch y) ++ [mkFT (Some c) None (-1)])) Free None) as [own' H];
      [unfold rest_ok; by rewrite Est|by left|right; split; [done|by apply Hnq]|done|done|].
    eexists _, _, own'. split; [reflexivity|]. unfold put in H. rewrite insert_id in H by done. by destruct (fib y).
  - destruct Hreset as (y' & own' & E & H); [by right|]. by exists false, y', own'.
Qed.

(** Changing the worker's own idle fiber. *)
Lemma inv_idle_fiber f s w k' :
  own (w_idle k) = Idle tid -> heap w = <[w_idle k := f]> (heap (fib y)) ->
  m_fibers s = m_fibers (sch y) -> (forall own', own' (w_idle k) = Idle tid ->
    (forall x, x <> w_idle k -> own' x = own x) -> worker_ok own' w (queued y) tid k') ->
  w_idle k' = w_idle k ->
  (forall x, owner_tid (own x) = Some tid -> claims (own x) k x -> claims (own x) k' x) ->
  m_activeThreadCount s = m_activeThreadCount (sch y) - b2z (is_active k) + b2z (is_active k') ->
  m_idleThreadCount s = m_idleThreadCount (sch y) - b2z (is_idle k) + b2z (is_idle k') ->
  exists own', sys_inv own' (update y s w tid k').
Proof.
  intros Hoi Hw Hs Hwk Hwi Hcl Ha Hi. exists (upd own (w_idle k) (Idle tid)).
  pose proof (si_queue _ _ I) as [Hnd _].
  eapply (inv_one own y s w tid k _ (w_idle k) f); try done; rewrite ?Hs; try done.
  - rewrite Hw. apply lookup_insert_eq.
  - intros x Hx. left. rewrite Hw. by apply lookup_insert_ne.
  - right. by rewrite Hoi.
  - intros x Hx. by right.
  - intros Hq. exfalso. revert Hq. eapply queued_unowned; [done..|]. split; congruence.
  - apply Hwk; [apply upd_eq|]. intros. by apply upd_ne.
  - apply (si_tasks _ _ I).
  - right. done.
  - auto.
Qed.

Lemma checkIdle_inv : w_pc k = CheckIdle -> exists y' own', run_checkIdle y tid k = Ok y' /\ sys_inv own' y'.
Proof.
  intros Hpc. pose proof (si_workers _ _ I tid k Hk) as (m & Hm & Hom & Hoi & Hw).
  rewrite Hpc in Hw. destruct Hw as (Hcpu & Hsp & fi & Hfi & [Hstk Hleft] & Hnr & Hne & Hcb).
  unfold run_checkIdle. rewrite Hfi. cbn [deref].
  assert (Hgo : forall f', rest_ok (w_idle k) f' -> m_state f' <> EXCEPT -> (m_state f' <> TERM -> f_cb f' <> None) ->
    exists own', sys_inv own' (update y (sch y) (put (fib y) (w_idle k) f') tid (goto k Pick))).
  { intros f' Hr Hx Hc. eapply (inv_idle_fiber f'); try done; [|claims_same_tac Hpc|counts Hpc|counts Hpc].
    intros own' Ho' Hoth. exists m. cbn. split_and!; try done.
    - rewrite Hoth by congruence. done.
    - exists f'. cbn. by rewrite lookup_insert_eq.
    - intros c Hc'. destruct (Hsp c Hc') as (Hoc & fc & Hfc & Hrc). cbn.
      assert (c <> w_idle k) by congruence. rewrite Hoth, lookup_insert_ne by done. eauto. }
  destruct (m_state fi) eqn:Est; cbn [finished state_eqb bool_decide orb negb]; try done.
  - destruct (Hgo (set_state fi HOLD)) as [own' H]; [done|done|cbn; auto|]. eauto.
  - destruct (Hgo fi) as [own' H]; [unfold rest_ok; by rewrite Est|congruence|congruence|].
    eexists _, own'. split; [reflexivity|]. unfold put in H. rewrite insert_id in H by done. by destruct (fib y).
Qed.

Lemma run_inv fresh :
  heap (fib y) !! fresh = None ->
  exists t y' own', Scheduler_run dflt y tid fresh = Ok (t, y') /\ sys_inv own' y'.
Proof.
  intros Hfresh. unfold Scheduler_run. rewrite Hk. cbn [deref].
  pose proof (si_workers _ _ I tid k Hk) as (m & Hm & Hom & Hoi & Hw).
  assert (Hstay : exists t y' own', Ok (false, y) = Ok (t, y') /\ sys_inv own' y') by eauto.
  destruct (w_pc k) as [|ft a|f|f|f|c|c|c| | | |] eqn:Hpc; try done.
  - by apply pick_inv.
  - destruct (dispatch_inv ft a fresh Hpc Hfresh) as (y' & own' & -> & ?). eauto.
  - eexists _, _, own. split; [reflexivity|].
    eapply inv_local; try done; [exists m; done|claims_same_tac Hpc|counts Hpc|counts Hpc].
  - by apply checkFiber_inv.
  - eexists _, _, own. split; [reflexivity|].
    eapply inv_local; try done; [exists m; done|claims_same_tac Hpc|counts Hpc|counts Hpc].
  - by apply checkCb_inv.
  - eexists _, _, own. split; [reflexivity|].
    eapply inv_local; try done; [exists m; done|claims_same_tac Hpc|counts Hpc|counts Hpc].
  - destruct (checkIdle_inv Hpc) as (y' & own' & -> & ?). eauto.
Qed.

(** A task fiber leaves the CPU: its context was saved and its state fits. *)
Lemma out_inv p fm f f' out m :
  (w_pc k = InFiber p \/ w_pc k = InCb p) ->
  running (fib y) (w_tls k) m p fm f ->
  out (fib y) (w_tls k) = Ok (put (fib y) p f', back_to (w_tls k) m) ->
  left_ok p f' -> (m_state f' <> EXEC -> p ∉ queued y) ->
  exists y' own', fiber_out y tid out = Ok y' /\ sys_inv own' y'.
Proof.
  intros Hpc R Hout Hleft Hnq. pose proof (si_workers _ _ I tid k Hk) as (m' & Hm & Hom & Hoi & Hw).
  pose proof R as [_ Hsch _ _ _ _ Hne _]. rewrite Hm in Hsch. injection Hsch as ->.
  unfold fiber_out. rewrite Hk. cbn [deref]. rewrite Hout. cbn [obind].
  assert (Hop : own p = Run tid /\ idle_ok (fib y) k) by (destruct Hpc as [E|E]; rewrite E in Hw; tauto).
  destruct Hop as [Hop Hid].
  eexists _, (upd own p (Run tid)). split; [reflexivity|].
  assert (Hag : forall x, x <> p -> own x <> Main tid -> heap (put (fib y) p f') !! x = heap (fib y) !! x)
    by (intros; cbn; by apply lookup_insert_ne).
  pose proof (si_queue _ _ I) as [Hnd Hqok].
  assert (Hlf : left_fiber (put (fib y) p f') (queued y) p).
  { exists f'. cbn. rewrite lookup_insert_eq. done. }
  eapply (inv_one own y (sch y) _ tid k _ p f'); try done.
  - cbn. apply lookup_insert_eq.
  - intros x Hx. left. cbn. by apply lookup_insert_ne.
  - right. by rewrite Hop.
  - intros x Hx. by right.
  - intros Hq. right. split; [eauto|]. destruct (decide (m_state f' = EXEC)); [done|]. by destruct Hnq.
  - exists m. cbn. split_and!; try done; try (apply owner_upd; [done|by rewrite Hop]).
    pose proof (idle_upd own (fib y) (put (fib y) p f') p tid Hag k (mkWorker (back_to (w_tls k) m)
      (left_pc (w_pc k)) (w_idle k) (w_cb_fiber k)) eq_refl Hoi ltac:(by rewrite Hop) Hid) as Hid'.
    destruct Hpc as [E|E]; rewrite E in *; cbn; destruct_and!; split_and!; try done; try apply upd_eq.
    eapply (spare_upd own (fib y) _ p _ tid Hag k); [done|by rewrite Hop|done].
  - apply (si_tasks _ _ I).
  - right. split; [done|]. destruct Hpc as [E|E]; unfold claims, current; cbn; by rewrite E.
  - intros x Hx Hxo Hc. assert (Hcx : current k = Some p) by (unfold current; by destruct Hpc as [-> | ->]).
    assert (Hcx' : current (mkWorker (back_to (w_tls k) m) (left_pc (w_pc k)) (w_idle k) (w_cb_fiber k)) = Some p)
      by (unfold current; cbn; by destruct Hpc as [-> | ->]).
    destruct (own x); unfold claims in *; rewrite ?Hcx, ?Hcx' in *; try done; [cbn; congruence|].
    destruct Hc as (ft & a & E & _). by destruct Hpc as [E'|E']; rewrite E' in E.
  - destruct Hpc as [E|E]; counts E.
  - destruct Hpc as [E|E]; counts E.
Qed.

Lemma in_task p :
  (w_pc k = InFiber p \/ w_pc k = InCb p) ->
  exists m fm f, running (fib y) (w_tls k) m p fm f /\ m_stack f = true.
Proof.
  intros Hpc. pose proof (si_workers _ _ I tid k Hk) as (m & Hm & Hom & Hoi & Hw).
  destruct Hpc as [E|E]; rewrite E in Hw; destruct_and!;
    match goal with H : in_fiber _ _ _ _ |- _ => destruct H as (fm & f & R & Hs & _) end; eauto.
Qed.

Lemma yieldReady_inv p :
  (w_pc k = InFiber p \/ w_pc k = InCb p) -> p ∉ queued y ->
  exists y' own', fiber_yieldReady y tid = Ok y' /\ sys_inv own' y'.
Proof.
  intros Hpc Hnq. destruct (in_task p Hpc) as (m & fm & f & R & Hs).
  eapply out_inv; [exact Hpc|exact R|by eapply yieldToReady_ok|split; done|done].
Qed.

Lemma yieldHold_inv p :
  (w_pc k = InFiber p \/ w_pc k = InCb p) ->
  exists y' own', fiber_yieldHold y tid = Ok y' /\ sys_inv own' y'.
Proof.
  intros Hpc. destruct (in_task p Hpc) as (m & fm & f & R & Hs). pose proof (run_state _ _ _ _ _ _ R) as Hst.
  eapply out_inv; [exact Hpc|exact R|by eapply yieldToHold_ok| |].
  - split; [done|]. cbn. by rewrite Hst.
  - cbn. congruence.
Qed.

Lemma finish_inv p threw :
  (w_pc k = InFiber p \/ w_pc k = InCb p) -> p ∉ queued y ->
  exists y' own', fiber_finish y tid threw = Ok y' /\ sys_inv own' y'.
Proof.
  intros Hpc Hnq. destruct (in_task p Hpc) as (m & fm & f & R & Hs).
  eapply out_inv; [exact Hpc|exact R|by eapply mainFunc_ok| |done].
  split; unfold run_cb; by destruct (_ && _).
Qed.

(** The idle fiber leaves the CPU. *)
Lemma idle_out_inv fm f f' out m :
  w_pc k = InIdle -> running (fib y) (w_tls k) m (w_idle k) fm f ->
  out (fib y) (w_tls k) = Ok (put (fib y) (w_idle k) f', back_to (w_tls k) m) ->
  left_ok (w_idle k) f' -> m_state f' <> READY -> m_state f' <> EXCEPT ->
  (m_state f' = EXEC -> f_cb f' <> None) ->
  exists y' own', fiber_out y tid out = Ok y' /\ sys_inv own' y'.
Proof.
  intros Hpc R Hout Hleft Hnr Hne Hcb. pose proof (si_workers _ _ I tid k Hk) as (m' & Hm & Hom & Hoi & Hw).
  pose proof R as [_ Hsch _ _ _ _ Hnm _]. rewrite Hm in Hsch. injection Hsch as ->.
  rewrite Hpc in Hw. destruct Hw as [Hsp _].
  unfold fiber_out. rewrite Hk. cbn [deref]. rewrite Hout. cbn [obind].
  edestruct (inv_idle_fiber f' (sch y) (put (fib y) (w_idle k) f')
    (mkWorker (back_to (w_tls k) m) (left_pc (w_pc k)) (w_idle k) (w_cb_fiber k))) as [own' H];
    [done|done|done| |done| | | |eexists _, own'; split; [reflexivity|exact H]].
  - intros own' Ho' Hoth. exists m. cbn. rewrite Hpc. cbn. split_and!; try done.
    + rewrite Hoth by congruence. done.
    + intros c Hc'. destruct (Hsp c Hc') as (Hoc & fc & Hfc & Hrc). cbn.
      assert (c <> w_idle k) by congruence. rewrite Hoth, lookup_insert_ne by done. eauto.
    + exists f'. cbn. rewrite lookup_insert_eq. done.
  - claims_same_tac Hpc.
  - counts Hpc.
  - counts Hpc.
Qed.

Lemma idle_inv : w_pc k = InIdle -> exists y' own', Scheduler_idle y tid = Ok y' /\ sys_inv own' y'.
Proof.
  intros Hpc. pose proof (si_workers _ _ I tid k Hk) as (m & Hm & Hom & Hoi & Hw).
  rewrite Hpc in Hw. destruct Hw as (Hsp & fm & f & R & Hs & Hcb). specialize (Hcb eq_refl).
  pose proof (run_state _ _ _ _ _ _ R) as Hst. unfold Scheduler_idle.
  destruct (Scheduler_stopping (sch y)).
  - eapply idle_out_inv; [done|exact R|by eapply mainFunc_ok|..];
      unfold run_cb; destruct (f_cb f) as [cb|]; cbn; done.
  - eapply idle_out_inv; [done|exact R|by eapply yieldToHold_ok|..]; cbn; try congruence.
    split; [done|]. cbn. by rewrite Hst.
Qed.

End worker_steps.

(** ** Steps of the environment *)

Lemma spawn_inv dflt idle_cb own y tid main idle :
  sys_inv own y -> workers y !! tid = None -> heap (fib y) !! main = None -> heap (fib y) !! idle = None ->
  main <> idle ->
  exists y' own', run_enter dflt idle_cb y tid main idle = Ok y' /\ sys_inv own' y'.
Proof.
  intros I Ht Hma Hid Hne.
  assert (Hnone : forall p, heap (fib y) !! p = None -> own p = Free).
  { intros p Hp. destruct (own p) eqn:E; [done|..]; destruct (si_alloc _ _ I p); congruence. }
  pose proof (Hnone _ Hma) as Hom. pose proof (Hnone _ Hid) as Hoi.
  assert (Hnq : forall p, heap (fib y) !! p = None -> p ∉ queued y).
  { intros p Hp Hq. destruct (proj2 (si_queue _ _ I) p Hq) as [[? ?] _]. congruence. }
  unfold run_enter, Fiber_GetThis. cbn. rewrite bool_decide_eq_true_2 by done. cbn.
  eexists _, (upd (upd own main (Main tid)) idle (Idle tid)). split; [reflexivity|].
  assert (Hu : forall x, x <> main -> x <> idle -> upd (upd own main (Main tid)) idle (Idle tid) x = own x)
    by (intros; by rewrite !upd_ne).
  constructor; cbn [update fib sch workers heap Fiber_new].
  - intros p t. unfold upd. rewrite lookup_insert. repeat case_decide; cbn; intros; simplify_eq; try (eexists; done).
    + destruct (si_exact _ _ I p t) as (k0 & ? & ?); [done|]. congruence.
    + by apply (si_exact _ _ I).
  - intros p. rewrite !lookup_insert_is_Some'. unfold upd. repeat case_decide; auto.
    intros. right. right. by apply (si_alloc _ _ I).
  - intros p f. rewrite !lookup_insert. unfold upd. repeat case_decide; subst; try done. by apply (si_free _ _ I).
  - intros t k. rewrite lookup_insert. case_decide as E; [intros [= <-]; subst t|].
    + exists main. cbn. rewrite upd_ne, !upd_eq by done. split_and!; try done.
      eexists. split; [apply lookup_insert_eq|]. cbn. split_and!; done.
    + intros Hk. eapply worker_frame; [| |by apply (si_workers _ _ I)].
      * intros p Hp. assert (p <> main /\ p <> idle) as [? ?] by (split; intros ->; rewrite ?Hom, ?Hoi in Hp; done).
        rewrite Hu by done. cbn. rewrite !lookup_insert_ne by done. done.
      * by left.
  - split; [apply (si_queue _ _ I)|]. intros p Hp. destruct (proj2 (si_queue _ _ I) p Hp) as [Hs Ho].
    assert (p <> main /\ p <> idle) as [? ?] by (split; intros ->; [by apply (Hnq main)|by apply (Hnq idle)]).
    unfold state_of. cbn. rewrite Hu, !lookup_insert_ne by done. done.
  - apply (si_tasks _ _ I).
  - rewrite count_insert_new by done. cbn. apply (si_active _ _ I).
  - rewrite count_insert_new by done. cbn. apply (si_idle _ _ I).
Qed.

Lemma new_fiber_inv dflt own y p cb size :
  sys_inv own y -> heap (fib y) !! p = None ->
  sys_inv own (mkSystem (sch y) (Fiber_new dflt (fib y) p cb size false) (workers y)).
Proof.
  intros I Hp. pose proof I as [IE IA IF IW IQ IT Ia Ii].
  assert (Ho : own p = Free) by (destruct (own p) eqn:E; [done|..]; destruct (IA p); congruence).
  constructor; cbn [fib sch workers]; try done.
  - intros x Hx. cbn. rewrite lookup_insert_is_Some'. right. by apply IA.
  - intros x f. cbn. rewrite lookup_insert. case_decide; [intros [= <-]; done|apply IF].
  - intros t k Hk. eapply worker_frame; [|by left|by apply IW].
    intros x Hx. split; [done|]. cbn. rewrite lookup_insert_ne; [done|]. intros ->. by rewrite Ho in Hx.
  - split; [apply IQ|]. intros x Hx. destruct (proj2 IQ x Hx) as [Hs Hox]. unfold state_of. cbn.
    rewrite lookup_insert_ne; [done|]. intros ->. rewrite Hp in Hs. by destruct Hs.
Qed.

(** Adding a task to the end of the queue. *)
Lemma enqueue_inv own y x :
  sys_inv own y -> one_task x ->
  (forall f, ft_fiber x = Some f -> f ∉ queued y /\ is_Some (heap (fib y) !! f) /\
     (own f = Free \/ (exists t, own f = Run t) /\ state_of (fib y) f = Some EXEC)) ->
  sys_inv own (mkSystem (snd (Scheduler_schedule (sch y) x)) (fib y) (workers y)).
Proof.
  intros I Hx Hf. pose proof I as [IE IA IF IW [IQ1 IQ2] IT Ia Ii].
  unfold Scheduler_schedule, Scheduler_scheduleNoLock.
  rewrite (task_ok_nonnull x (one_task_ok x Hx)). cbn [snd].
  set (y' := mkSystem (with_fibers (sch y) (m_fibers (sch y) ++ [x])) (fib y) (workers y)).
  assert (Hq : queued y' = queued y ++ match ft_fiber x with Some f => [f] | None => [] end).
  { unfold queued, y'. cbn. rewrite omap_app. cbn. by destruct (ft_fiber x). }
  assert (Hin : forall p, p ∈ queued y' -> p ∈ queued y \/ ft_fiber x = Some p).
  { intros p. rewrite Hq. destruct (ft_fiber x); set_solver. }
  constructor; try done.
  - intros t k Hk. eapply worker_frame; [done| |by apply IW].
    intros p Hp Hpq. destruct (Hin p Hpq) as [|E]; [by left|]. destruct (Hf p E) as (_ & _ & [|[_ ?]]); [congruence|by right].
  - split.
    + rewrite Hq. destruct (ft_fiber x) as [f|]; [|by rewrite app_nil_r]. apply NoDup_app.
      split_and!; [done| |apply NoDup_singleton]. intros z Hz [->|[]%elem_of_nil]%elem_of_cons.
      by destruct (Hf f eq_refl).
    + intros p Hp. destruct (Hin p Hp) as [|E]; [by apply IQ2|]. by destruct (Hf p E) as (_ & ? & ?).
  - cbn. apply Forall_app. split; [done|]. by constructor.
Qed.

Lemma schedule_fiber_inv own y f thread :
  sys_inv own y -> may_schedule y f ->
  sys_inv own (mkSystem (snd (Scheduler_schedule (sch y) (mkFT (Some f) None thread))) (fib y) (workers y)).
Proof.
  intros I (Hnq & Hs & Hw). apply enqueue_inv; [done|left; by eexists|]. intros ? [= <-].
  split_and!; [done..|]. destruct (own f) as [|t|t|t|t|t] eqn:Ho; [by left|..];
    destruct (si_exact _ _ I f t) as (k & Hk & Hc); rewrite Ho in *; try done;
    destruct (Hw t k Hk) as [Hnr Hcur]; unfold reserved in Hnr; cbn in Hc; try tauto.
  right. eauto.
Qed.

Lemma sys_step_inv dflt idle_cb own y sc st y' :
  sys_inv own y -> ruled_step dflt idle_cb y sc st y' -> exists own', sys_inv own' y'.
Proof.
  intros I (act & Hstep & Hrule).
  destruct Hstep as [tid main idle y' H1 H2 H3 H4 E|tid fresh t y' H1 E|p cb size H1|f thread|cb thread
    |tid k f y' H1 H2 E|tid k f y' H1 H2 E|tid k f threw y' H1 H2 E|tid k y' H1 H2 E|fl au].
  - destruct (spawn_inv dflt idle_cb own y tid main idle I H1 H2 H3 H4) as (y1 & own' & E1 & ?).
    rewrite E in E1. injection E1 as ->. eauto.
  - destruct (workers y !! tid) as [k|] eqn:Hk; [|unfold Scheduler_run in E; by rewrite Hk in E].
    destruct (run_inv dflt own y tid k I Hk fresh H1) as (t1 & y1 & own' & E1 & ?).
    rewrite E in E1. injection E1 as -> ->. eauto.
  - eauto using new_fiber_inv.
  - eauto using schedule_fiber_inv.
  - exists own. apply enqueue_inv; [done|right; by eexists|done].
  - destruct (yieldReady_inv own y tid k I H1 f H2 Hrule) as (y1 & own' & E1 & ?). rewrite E in E1. injection E1 as ->. eauto.
  - destruct (yieldHold_inv own y tid k I H1 f H2) as (y1 & own' & E1 & ?). rewrite E in E1. injection E1 as ->. eauto.
  - destruct (finish_inv own y tid k I H1 f threw H2 Hrule) as (y1 & own' & E1 & ?).
    rewrite E in E1. injection E1 as ->. eauto.
  - destruct (idle_inv own y tid k I H1 H2) as (y1 & own' & E1 & ?). rewrite E in E1. injection E1 as ->. eauto.
  - exists own. by destruct I.
Qed.

Lemma init_inv s : sys_init s -> sys_inv (fun _ => Free) (mkSystem s (mkFibers ∅ 0 0) ∅).
Proof.
  intros (Hq & Ha & Hi). constructor; cbn; try done.
  - split; [unfold queued; cbn; rewrite Hq; constructor|]. unfold queued. cbn. rewrite Hq. set_solver.
  - by rewrite Hq.
Qed.

(** The empty system around a scheduler. *)
Definition sys0 (s : Scheduler) : system := mkSystem s (mkFibers ∅ 0 0) ∅.

Lemma reach_inv dflt idle_cb s sc st y :
  sys_init s -> sys_reach dflt idle_cb client_rules (sys0 s) sc st y -> exists own, sys_inv own y.
Proof.
  intros Hs H. induction H as [|sc st y a sc1 st1 y' _ [own IH] Hstep Hrule]; [eexists; by apply init_inv|].
  eapply sys_step_inv; [done|]. by exists a.
Qed.

(** ** Functions that wait *)

(** The elements of a map, each with its list: changing one element. *)
Lemma map_bind_insert {A} (g : A -> list Z) (m : gmap Z A) i x x' :
  m !! i = Some x -> g x ++ (map snd (map_to_list (<[i := x']> m)) ≫= g) ≡ₚ g x' ++ (map snd (map_to_list m) ≫= g).
Proof.
  intros Hx. rewrite <- (insert_delete_id m i x Hx) at 2. rewrite <- (insert_delete_eq m i x').
  rewrite !map_to_list_insert by apply lookup_delete_eq. cbn. solve_Permutation.
Qed.

Lemma bind_insert_new {A} (g : A -> list Z) (m : gmap Z A) i x :
  m !! i = None -> map snd (map_to_list (<[i := x]> m)) ≫= g ≡ₚ g x ++ (map snd (map_to_list m) ≫= g).
Proof. intros Hx. rewrite map_to_list_insert by done. done. Qed.

Definition held_cbs (ws : gmap Z worker) : list Z := map snd (map_to_list ws) ≫= held_cb.

(** The function of a fiber that has not run yet. *)
Definition not_begun (f : Fiber) : list Z := if decide (m_state f = INIT) then option_list (f_cb f) else [].

Definition unstarted (w : fibers) : list Z := map snd (map_to_list (heap w)) ≫= not_begun.

(** The functions handed over and not yet started: in the queue, in the hands of a
    worker, or in a fiber that has not run. *)
Definition pending (y : system) : list Z :=
  omap ft_cb (m_fibers (sch y)) ++ held_cbs (workers y) ++ unstarted (fib y).

Lemma unstarted_put w p f f' :
  heap w !! p = Some f -> not_begun f ++ unstarted (put w p f') ≡ₚ not_begun f' ++ unstarted w.
Proof. apply map_bind_insert. Qed.

Lemma unstarted_put_begun w p f f' :
  heap w !! p = Some f -> m_state f <> INIT -> not_begun f' = [] -> unstarted (put w p f') ≡ₚ unstarted w.
Proof.
  intros Hp Hs Hf. pose proof (unstarted_put w p f f' Hp) as H. rewrite Hf in H.
  unfold not_begun in H. by rewrite decide_False in H.
Qed.

Lemma unstarted_ctx w p f c : heap w !! p = Some f -> unstarted (put w p (set_ctx f c)) ≡ₚ unstarted w.
Proof. intros Hp. apply (Permutation_app_inv_l (not_begun f)). exact (unstarted_put w p f (set_ctx f c) Hp). Qed.

(** Switching to a fiber that has not run starts its function; switching to one that
    was suspended starts nothing. *)
Lemma swapIn_unstarted w tl m p fm f w' tl' :
  can_swapIn w tl m p fm f -> rest_ok p f -> Fiber_swapIn w tl p = Ok (w', tl') ->
  on_cpu tl' = p /\ unstarted w ≡ₚ entry w' p ++ unstarted w'.
Proof.
  intros C [_ Hr] E. rewrite (swapIn_ok _ _ _ _ _ _ C) in E. injection E as <- <-. split; [done|].
  destruct C as [_ _ Hm Hp Hne Hst _].
  rewrite (unstarted_ctx (put w p (set_state f EXEC)) m fm) by (cbn; by rewrite lookup_insert_ne).
  unfold entry. cbn [put heap]. rewrite lookup_insert_ne, lookup_insert_eq by done. cbn [m_ctx set_state f_cb].
  pose proof (unstarted_put w p f (set_state f EXEC) Hp) as H. unfold not_begun in H. cbn [m_state set_state] in H.
  rewrite (decide_False (P := EXEC = INIT)) in H by done. cbn [app] in H.
  destruct (m_state f) eqn:Es; try done; rewrite Hr;
    [rewrite decide_True in H by done|rewrite decide_False in H by done..]; by symmetry.
Qed.

(** A step of thread [tid], by what it does to the queue, the worker and the fibers. *)
Lemma update_pending y s w tid k k' e :
  workers y !! tid = Some k ->
  omap ft_cb (m_fibers (sch y)) ++ held_cb k ++ unstarted (fib y) ≡ₚ
    e ++ omap ft_cb (m_fibers s) ++ held_cb k' ++ unstarted w ->
  pending y ≡ₚ e ++ pending (update y s w tid k').
Proof.
  intros Hk Hp. pose proof (map_bind_insert held_cb (workers y) tid k k' Hk) as Hh.
  change (held_cb k ++ held_cbs (<[tid := k']> (workers y)) ≡ₚ held_cb k' ++ held_cbs (workers y)) in Hh.
  unfold pending. cbn [update sch workers fib]. apply (Permutation_app_inv_l (held_cb k')).
  transitivity ((omap ft_cb (m_fibers (sch y)) ++ held_cb k ++ unstarted (fib y)) ++ held_cbs (<[tid := k']> (workers y))).
  { transitivity (omap ft_cb (m_fibers (sch y)) ++ (held_cb k' ++ held_cbs (workers y)) ++ unstarted (fib y)); [solve_Permutation|].
    rewrite <- Hh. solve_Permutation. }
  rewrite Hp. solve_Permutation.
Qed.

(** A step that switches nothing starts nothing. *)
Lemma entered_same y s w tid k k' :
  workers y !! tid = Some k -> on_cpu (w_tls k') = on_cpu (w_tls k) -> entered y (update y s w tid k') tid = [].
Proof. intros Hk E. unfold entered. rewrite Hk. cbn [update workers]. by rewrite lookup_insert_eq, decide_True. Qed.

Lemma entered_other y s w tid k k' :
  workers y !! tid = Some k -> on_cpu (w_tls k') <> on_cpu (w_tls k) ->
  entered y (update y s w tid k') tid = entry w (on_cpu (w_tls k')).
Proof. intros Hk E. unfold entered. rewrite Hk. cbn [update workers]. by rewrite lookup_insert_eq, decide_False. Qed.

Section pending_steps.
Variables (dflt : Z) (own : Z -> owner) (y : system) (tid : Z) (k : worker).
Hypothesis (I : sys_inv own y) (Hk : workers y !! tid = Some k).

(** The switch at the end of [run_dispatch], to a fiber [p] prepared in [w0]. *)
Lemma switch_pending s w0 p f m w1 tl1 l cbf :
  t_scheduler_fiber (w_tls k) = Some m -> on_cpu (w_tls k) = m -> own m = Main tid -> p <> m ->
  (forall x, x <> p -> heap w0 !! x = heap (fib y) !! x) -> heap w0 !! p = Some f -> rest_ok p f ->
  finished (m_state f) = false ->
  m_fibers s = m_fibers (sch y) -> (forall ft a, l <> Dispatch ft a) ->
  held_cb k ++ unstarted (fib y) ≡ₚ unstarted w0 ->
  Fiber_swapIn w0 (w_tls k) p = Ok (w1, tl1) ->
  let y' := update y s w1 tid (mkWorker tl1 l (w_idle k) cbf) in pending y ≡ₚ entered y y' tid ++ pending y'.
Proof.
  intros Hsch Hcpu Hom Hpm Hw0 Hp Hr Hfin Hs Hl Hu E. cbn zeta.
  destruct (si_alloc _ _ I m) as [fm Hm]; [congruence|].
  assert (C : can_swapIn w0 (w_tls k) m p fm f).
  { destruct Hr as [_ Hr]. constructor; try done; [by rewrite Hw0 by congruence|intros Es; by rewrite Es in Hr|].
    destruct (m_state f); try done; auto. }
  destruct (swapIn_unstarted _ _ _ _ _ _ _ _ C Hr E) as [Hc1 Hu1].
  rewrite (entered_other _ _ _ _ k) by (done || (cbn; congruence)). cbn [w_tls]. rewrite Hc1.
  eapply update_pending; [exact Hk|]. rewrite Hs, Hu, Hu1. unfold held_cb. cbn [w_pc].
  destruct l; try (by destruct (Hl ft is_active0)); solve_Permutation.
Qed.

Lemma dispatch_pending ft a fresh y' :
  w_pc k = Dispatch ft a -> heap (fib y) !! fresh = None -> run_dispatch dflt y tid k ft a fresh = Ok y' ->
  pending y ≡ₚ entered y y' tid ++ pending y'.
Proof.
  intros Hpc Hfresh. pose proof (si_workers _ _ I tid k Hk) as (m & Hm & Hom & Hoi & Hw).
  rewrite Hpc in Hw. destruct Hw as (Hcpu & Hid & Hsp & Hheld & Hft).
  assert (Hstay : forall s l, m_fibers s = m_fibers (sch y) -> held_cb k = [] -> (forall ft a, l <> Dispatch ft a) ->
    let y' := update y s (fib y) tid (goto k l) in pending y ≡ₚ entered y y' tid ++ pending y').
  { intros s l Hs Hh Hl. cbn zeta. rewrite (entered_same _ _ _ _ k) by done. eapply update_pending; [exact Hk|].
    rewrite Hs, Hh. unfold held_cb. cbn [w_pc goto]. destruct l; try (by destruct (Hl ft0 is_active0)); done. }
  unfold run_dispatch. destruct ft as [ofb oc th]. cbn [ft_fiber ft_cb].
  destruct a; [destruct Hft as [[[f Hf] Hc]|[Hf [cb Hc]]]; cbn in Hf, Hc; subst ofb oc|injection Hft as -> -> ->].
  - assert (held_cb k = []) as Hh by (unfold held_cb; by rewrite Hpc).
    destruct (Hheld f eq_refl) as (Hof & fb & Hfb & Hrest). unfold state_of. rewrite Hfb. cbn [fmap option_fmap option_map].
    destruct (finished (m_state fb)) eqn:Ef; cbn [negb]; [intros [= <-]; by apply Hstay|].
    destruct (Fiber_swapIn (fib y) (w_tls k) f) as [[w1 tl1]| | | |] eqn:E; try done. intros [= <-].
    eapply (switch_pending _ (fib y) f fb m); try done; [congruence|by rewrite Hh].
  - assert (held_cb k = [cb]) as Hh by (unfold held_cb; by rewrite Hpc).
    assert (exists c w0 fc, (match w_cb_fiber k with
        | Some c => let! w := Fiber_reset (fib y) c (Some cb) in Ok (c, w)
        | None => Ok (fresh, Fiber_new dflt (fib y) fresh (Some cb) 0 false)
        end) = Ok (c, w0) /\ (forall x, x <> c -> heap w0 !! x = heap (fib y) !! x) /\ heap w0 !! c = Some fc /\ rest_ok c fc /\
        finished (m_state fc) = false /\ c <> m /\ [cb] ++ unstarted (fib y) ≡ₚ unstarted w0) as (c & w0 & fc & -> & H0 & Hc & Hr & Hf & Hcm & Hu).
    { destruct (w_cb_fiber k) as [c|] eqn:Ec.
      - destruct (Hsp c Ec) as (Hoc & fc & Hfc & [Hst Hctx] & Hini & Hcb). unfold Fiber_reset.
        rewrite Hfc. cbn [deref]. rewrite Hst, Hini. cbn. eexists c, _, _. split; [reflexivity|].
        split_and!; [intros; cbn; by rewrite lookup_insert_ne|cbn; apply lookup_insert_eq|done|done|congruence|].
        match goal with |- _ ≡ₚ unstarted (put _ _ ?x) => pose proof (unstarted_put (fib y) c fc x Hfc) as H end.
        unfold not_begun in H. rewrite Hini, Hcb in H. symmetry. exact H.
      - eexists fresh, _, _. split; [reflexivity|]. split_and!; [intros; cbn; by rewrite lookup_insert_ne|cbn; apply lookup_insert_eq|done|done| |].
        + intros ->. destruct (si_alloc _ _ I m); congruence.
        + symmetry. apply (bind_insert_new not_begun). done. }
    cbn [obind]. destruct (Fiber_swapIn w0 (w_tls k) c) as [[w1 tl1]| | | |] eqn:E; try done. intros [= <-].
    eapply (switch_pending _ w0 c fc m); try done. by rewrite Hh.
  - assert (held_cb k = []) as Hh by (unfold held_cb; by rewrite Hpc).
    case_bool_decide as Et; [intros [= <-]; by apply Hstay|].
    pose proof Hid as (fi & Hfi & Hrest & Hnex & Hcbi). unfold state_of in Et. rewrite Hfi in Et. cbn in Et.
    destruct (Fiber_swapIn (fib y) (w_tls k) (w_idle k)) as [[w1 tl1]| | | |] eqn:E; try done. intros [= <-].
    eapply (switch_pending _ (fib y) (w_idle k) fi m); try done; [congruence| |by rewrite Hh].
    unfold finished, state_eqb. by rewrite !bool_decide_eq_false_2 by congruence.
Qed.

Lemma run_pending fresh t y' :
  heap (fib y) !! fresh = None -> Scheduler_run dflt y tid fresh = Ok (t, y') ->
  pending y ≡ₚ entered y y' tid ++ pending y'.
Proof.
  intros Hfresh. unfold Scheduler_run. rewrite Hk. cbn [deref].
  pose proof (si_workers _ _ I tid k Hk) as (m & Hm & Hom & Hoi & Hw).
  assert (Hnone : pending y ≡ₚ entered y y tid ++ pending y) by (unfold entered; by rewrite Hk, decide_True).
  assert (Hmove : forall s w k', on_cpu (w_tls k') = on_cpu (w_tls k) ->
    omap ft_cb (m_fibers (sch y)) ++ held_cb k ++ unstarted (fib y) ≡ₚ omap ft_cb (m_fibers s) ++ held_cb k' ++ unstarted w ->
    let y' := update y s w tid k' in pending y ≡ₚ entered y y' tid ++ pending y').
  { intros s w k' Hc Hp. cbn zeta. rewrite (entered_same _ _ _ _ k) by done. by eapply update_pending. }
  destruct (w_pc k) as [|ft a|f|f|f|c|c|c| | | |] eqn:Hpc; try (by intros [= _ <-]).
  - unfold run_pick.
    destruct (pick_loop_spec (state_of (fib y)) tid (m_fibers (sch y))) as (sk & o & rest & t1 & -> & _ & Ho & _).
    { eapply Forall_impl; [apply (si_tasks _ _ I)|]. intros; by apply one_task_ok. }
    cbn [obind]. destruct o as [ft|]; intros [= _ <-]; apply Hmove; unfold held_cb; rewrite ?Hpc; cbn; try done.
    destruct Ho as [-> _]. rewrite omap_app_cons, omap_app. destruct (ft_cb ft); solve_Permutation.
  - destruct (run_dispatch dflt y tid k ft a fresh) as [y1| | | |] eqn:E; try done. intros [= _ <-].
    by eapply dispatch_pending.
  - intros [= _ <-]. apply Hmove; unfold held_cb; by rewrite ?Hpc.
  - destruct Hw as (_ & _ & _ & _ & fb & Hfb & [_ Hl] & _). unfold run_checkFiber. rewrite Hfb. cbn [deref].
    destruct (m_state fb) eqn:Est; try done; cbn; intros [= _ <-]; apply Hmove; unfold held_cb; rewrite ?Hpc; cbn; rewrite ?omap_app; cbn; try done.
    + apply Permutation_app_head. symmetry. eapply unstarted_put_begun; [exact Hfb|congruence|done].
    + by rewrite app_nil_r.
  - intros [= _ <-]. apply Hmove; unfold held_cb; by rewrite ?Hpc.
  - destruct Hw as (_ & _ & _ & _ & fb & Hfb & [Hstk Hl] & _). unfold run_checkCb. rewrite Hfb. cbn [deref].
    unfold Fiber_reset. rewrite Hfb. cbn [deref]. rewrite Hstk.
    destruct (m_state fb) eqn:Est; try done; cbn; intros [= _ <-]; apply Hmove; unfold held_cb; rewrite ?Hpc; cbn; rewrite ?omap_app; cbn; rewrite ?app_nil_r; try done;
      (apply Permutation_app_head; symmetry; eapply unstarted_put_begun; [exact Hfb|congruence|done]).
  - intros [= _ <-]. apply Hmove; unfold held_cb; by rewrite ?Hpc.
  - destruct Hw as (_ & _ & fb & Hfb & [_ Hl] & Hnr & Hne & _). unfold run_checkIdle. rewrite Hfb. cbn [deref].
    destruct (m_state fb) eqn:Est; try done; cbn; intros [= _ <-]; apply Hmove; unfold held_cb; rewrite ?Hpc; cbn; try done.
    apply Permutation_app_head. symmetry. eapply unstarted_put_begun; [exact Hfb|congruence|done].
Qed.

(** The fiber on the CPU goes back to the loop: its main fiber is resumed. *)
Lemma out_pending p fm f f' out m y' :
  running (fib y) (w_tls k) m p fm f -> (w_pc k = InFiber p \/ w_pc k = InCb p \/ w_pc k = InIdle) ->
  out (fib y) (w_tls k) = Ok (put (fib y) p f', back_to (w_tls k) m) -> m_state f' <> INIT ->
  fiber_out y tid out = Ok y' -> pending y ≡ₚ entered y y' tid ++ pending y'.
Proof.
  intros [_ _ Hcpu Hm Hmc Hp Hne Hst] Hpc Ho Hf'. unfold fiber_out. rewrite Hk. cbn [deref]. rewrite Ho. cbn [obind].
  intros [= <-]. rewrite (entered_other _ _ _ _ k) by (done || (cbn; congruence)). cbn [w_tls back_to on_cpu].
  unfold entry. cbn [put heap]. rewrite lookup_insert_ne, Hm, Hmc by done.
  eapply update_pending; [exact Hk|]. cbn [app].
  rewrite (unstarted_put_begun (fib y) p f f') by (congruence || (unfold not_begun; by rewrite decide_False)).
  unfold held_cb. cbn [w_pc]. destruct Hpc as [->|[-> | ->]]; done.
Qed.

End pending_steps.

Lemma schedule_pending y x sc :
  option_list (ft_cb x) = sc -> one_task x ->
  sc ++ pending y ≡ₚ pending (mkSystem (snd (Scheduler_schedule (sch y) x)) (fib y) (workers y)).
Proof.
  intros <- Hx. unfold Scheduler_schedule, Scheduler_scheduleNoLock.
  rewrite (task_ok_nonnull x (one_task_ok x Hx)). unfold pending. cbn [snd sch workers fib with_fibers m_fibers].
  rewrite omap_app. cbn. destruct (ft_cb x); solve_Permutation.
Qed.

Lemma step_pending dflt idle_cb own y sc st y' :
  sys_inv own y -> ruled_step dflt idle_cb y sc st y' -> sc ++ pending y ≡ₚ st ++ pending y'.
Proof.
  intros I (act & Hstep & Hrule).
  destruct Hstep as [tid main idle y' H1 H2 H3 H4 E|tid fresh t y' H1 E|p cb size H1|f thread|cb thread
    |tid k f y' H1 H2 E|tid k f y' H1 H2 E|tid k f threw y' H1 H2 E|tid k y' H1 H2 E|fl au]; try done.
  - revert E. unfold run_enter, Fiber_GetThis. cbn. rewrite bool_decide_eq_true_2 by done. cbn. intros [= <-].
    unfold pending, held_cbs, unstarted. cbn [update sch workers fib heap app].
    rewrite (bind_insert_new held_cb) by done. cbn.
    rewrite (bind_insert_new not_begun) by (by rewrite lookup_insert_ne).
    rewrite (bind_insert_new not_begun) by done. cbn. solve_Permutation.
  - destruct (workers y !! tid) as [k|] eqn:Hk; [|unfold Scheduler_run in E; by rewrite Hk in E].
    cbn [app]. by eapply run_pending.
  - unfold pending, unstarted, Fiber_new. cbn [sch workers fib heap app]. rewrite (bind_insert_new not_begun) by done.
    cbn. solve_Permutation.
  - apply schedule_pending; [done|left; by eexists].
  - apply schedule_pending; [done|right; by eexists].
  - destruct (in_task own y tid k I H1 f H2) as (m & fm & fb & R & _). cbn [app].
    eapply out_pending with (out := fun w tl => Fiber_YieldToReady w tl 0); [exact H1|exact R|tauto|by eapply yieldToReady_ok| |exact E]. done.
  - destruct (in_task own y tid k I H1 f H2) as (m & fm & fb & R & _). cbn [app].
    eapply out_pending with (out := fun w tl => Fiber_YieldToHold w tl 0); [exact H1|exact R|tauto|by eapply yieldToHold_ok| |exact E].
    cbn. by rewrite (run_state _ _ _ _ _ _ R).
  - destruct (in_task own y tid k I H1 f H2) as (m & fm & fb & R & _). cbn [app].
    eapply out_pending with (out := fun w tl => Fiber_MainFunc w tl 0 threw); [exact H1|exact R|tauto|by eapply mainFunc_ok| |exact E]. cbn. unfold run_cb. by destruct (_ && _).
  - pose proof (si_workers _ _ I tid k H1) as (m & Hm & Hom & Hoi & Hw). rewrite H2 in Hw. destruct Hw as (_ & fm & fb & R & _ & _).
    cbn [app]. unfold Scheduler_idle in E. destruct (Scheduler_stopping (sch y)).
    + eapply out_pending with (out := fun w tl => Fiber_MainFunc w tl 0 false); [exact H1|exact R|tauto|by eapply mainFunc_ok| |exact E]. cbn. unfold run_cb. by destruct (_ && _).
    + eapply out_pending with (out := fun w tl => Fiber_YieldToHold w tl 0); [exact H1|exact R|tauto|by eapply yieldToHold_ok| |exact E]. cbn. by rewrite (run_state _ _ _ _ _ _ R).
Qed.

(** The fiber on the CPU of a worker belongs to that worker. *)
Lemma on_cpu_owned own w q tid k : worker_ok own w q tid k -> owner_tid (own (on_cpu (w_tls k))) = Some tid.
Proof.
  intros (m & Hm & Hom & Hoi & Hw).
  destruct (w_pc k); destruct_and!;
    try (match goal with H : in_fiber _ _ _ _ |- _ => destruct H as (fm & fb & R & _); rewrite (run_cpu _ _ _ _ _ _ R) end);
    repeat match goal with
    | H : on_cpu _ = _ |- _ => rewrite H; clear H
    | H : own ?x = _ |- context [own ?x] => rewrite H
    end; done.
Qed.

(** ** Theorems *)

(** C1: if the clients obey [client_rules] (a fiber is handed to [schedule] only when
    it is not queued, not reserved by a worker and not one that just came back, and a
    fiber that was scheduled while it executes leaves the CPU by [YieldToHold]), two
    threads never execute the same fiber: in every state that any number of workers can
    reach by such steps, the fibers on the CPUs of different workers are different, also
    while one of them is in the middle of a context switch.  [exclusion_needs_rules]
    below shows a run without the rules that ends with two workers in one fiber. *)
Theorem scheduler_fibers_exclusive dflt idle_cb s sc st y t1 t2 k1 k2 :
  sys_init s -> sys_reach dflt idle_cb client_rules (sys0 s) sc st y ->
  workers y !! t1 = Some k1 -> workers y !! t2 = Some k2 -> t1 <> t2 ->
  on_cpu (w_tls k1) <> on_cpu (w_tls k2).
Proof.
  intros Hs Hr H1 H2 Hne Heq. destruct (reach_inv _ _ _ _ _ _ Hs Hr) as [own I].
  pose proof (on_cpu_owned _ _ _ _ _ (si_workers _ _ I t1 k1 H1)) as O1.
  pose proof (on_cpu_owned _ _ _ _ _ (si_workers _ _ I t2 k2 H2)) as O2.
  rewrite Heq in O1. congruence.
Qed.

(** C9: if the clients obey [client_rules], no assertion of the scheduler or of the
    fibers fails, and no null pointer or unset context is used: in every state reached
    by such steps every worker's next step in [run] succeeds, and so does every way the
    fiber it executes can leave the CPU that the rules allow there.  Without the rules
    [swapIn] can abort: [scheduled_twice_aborts]. *)
Theorem scheduler_never_fails dflt idle_cb s sc st y tid k fresh :
  sys_init s -> sys_reach dflt idle_cb client_rules (sys0 s) sc st y ->
  workers y !! tid = Some k -> heap (fib y) !! fresh = None ->
  (exists t y', Scheduler_run dflt y tid fresh = Ok (t, y')) /\
  (w_pc k = InIdle -> exists y', Scheduler_idle y tid = Ok y') /\
  (forall f, current k = Some f -> (w_pc k = InFiber f \/ w_pc k = InCb f) ->
     (exists y', fiber_yieldHold y tid = Ok y') /\
     (client_rules y (ActLeave f) ->
        (exists y', fiber_yieldReady y tid = Ok y') /\ forall threw, exists y', fiber_finish y tid threw = Ok y')).
Proof.
  intros Hs Hr Hk Hfresh. destruct (reach_inv _ _ _ _ _ _ Hs Hr) as [own I]. split_and!.
  - destruct (run_inv dflt own y tid k I Hk fresh Hfresh) as (t & y' & _ & E & _). eauto.
  - intros Hpc. destruct (idle_inv own y tid k I Hk Hpc) as (y' & _ & E & _). eauto.
  - intros f _ Hpc. split.
    + destruct (yieldHold_inv own y tid k I Hk f Hpc) as (y' & _ & E & _). eauto.
    + intros Hnq. split.
      * destruct (yieldReady_inv own y tid k I Hk f Hpc Hnq) as (y' & _ & E & _). eauto.
      * intros threw. destruct (finish_inv own y tid k I Hk f threw Hpc Hnq) as (y' & _ & E & _). eauto.
Qed.

(** C2: if the clients obey [client_rules], every function is executed exactly once or
    still waits: the functions handed over so far (to [schedule], in a new fiber, or as
    the idle function of a worker) are, with their multiplicities, those that [MainFunc]
    has begun to execute on some thread (it was switched to a fiber that had not run, and
    calls the function which that fiber holds) together with those that are in the queue,
    in the hands of a worker, or in a fiber that has not run. *)
Theorem scheduler_callbacks_conserved dflt idle_cb s sc st y :
  sys_init s -> sys_reach dflt idle_cb client_rules (sys0 s) sc st y ->
  sc ≡ₚ st ++ pending y.
Proof.
  intros Hs H. pose proof (reach_inv _ _ _ _ _ _ Hs H) as Hinv.
  induction H as [|sc st y a sc1 st1 y' Hr IH Hstep Hrule].
  - unfold pending, sys0. cbn. destruct Hs as [-> _]. done.
  - destruct (reach_inv _ _ _ _ _ _ Hs Hr) as [own I].
    pose proof (step_pending _ _ _ _ _ _ _ I (ex_intro _ a (conj Hstep Hrule))) as Hp. rewrite IH by eauto.
    rewrite <- !app_assoc. apply Permutation_app_head. rewrite <- Hp. solve_Permutation.
Qed.

(** The counters are exact: [m_activeThreadCount] and
    [m_idleThreadCount] are the numbers of workers between the increment and the
    decrement in [run].  So when [stopping()] says yes, the queue is empty and no
    worker has a task in its hands or is executing one. *)
Lemma scheduler_counters_exact dflt idle_cb s sc st y :
  sys_init s -> sys_reach dflt idle_cb client_rules (sys0 s) sc st y ->
  m_activeThreadCount (sch y) = count is_active (workers y) /\
  m_idleThreadCount (sch y) = count is_idle (workers y) /\
  (Scheduler_stopping (sch y) = true ->
     m_fibers (sch y) = [] /\
     forall tid k, workers y !! tid = Some k ->
       (forall f, w_pc k <> InFiber f /\ w_pc k <> InCb f) /\
       (forall ft a, w_pc k = Dispatch ft a -> ft = FiberAndThread_reset)).
Proof.
  intros Hs Hr. destruct (reach_inv _ _ _ _ _ _ Hs Hr) as [own I].
  split_and!; [apply (si_active _ _ I)|apply (si_idle _ _ I)|].
  unfold Scheduler_stopping. rewrite !andb_true_iff. intros [[[_ _] Hq] Ha%Z.eqb_eq].
  split; [by destruct (m_fibers (sch y))|]. intros tid k Hk.
  assert (Hna : is_active k = false).
  { destruct (is_active k) eqn:E; [|done]. rewrite (si_active _ _ I) in Ha.
    pose proof (count_insert is_active (workers y) tid k (goto k Pick) Hk) as Hc. rewrite E in Hc. cbn in Hc.
    unfold count in *. lia. }
  unfold is_active in Hna. pose proof (si_workers _ _ I tid k Hk) as (m & _ & _ & _ & Hw).
  destruct (w_pc k); try done. split; [done|]. intros ft' a' [= <- <-]. subst. by destruct Hw as (_ & _ & _ & _ & ->).
Qed.

(** The queue is served in order and respects thread affinity.  When
    every element is a task, one search by thread [tid] takes the first element
    that is not bound to another thread and not a fiber being executed, leaves
    the others in their order, and asks to wake another thread exactly when it
    saw a task of another thread or left something behind. *)
Lemma scheduler_pick_fifo st tid q :
  Forall task_ok q ->
  exists sk o rest t, pick_loop st tid q = Ok (sk, o, rest, t) /\
    Forall (fun x => eligible st tid x = false) sk /\
    match o with
    | Some x => q = sk ++ x :: rest /\ eligible st tid x = true
    | None => q = sk /\ rest = []
    end /\
    (t = true <-> Exists (fun x => ft_thread x <> -1 /\ ft_thread x <> tid) sk \/ rest <> []).
Proof. apply pick_loop_spec. Qed.

Lemma scheduler_pick_fifo_witness :
  let q := [mkFT None (Some 7) 5; mkFT (Some 9) None (-1); mkFT None (Some 8) (-1)] in
  let st := fun f => if f =? 9 then Some EXEC else None in
  exists sk o rest t, pick_loop st 4 q = Ok (sk, o, rest, t) /\
    Forall (fun x => eligible st 4 x = false) sk /\
    match o with
    | Some x => q = sk ++ x :: rest /\ eligible st 4 x = true
    | None => q = sk /\ rest = []
    end /\
    (t = true <-> Exists (fun x => ft_thread x <> -1 /\ ft_thread x <> 4) sk \/ rest <> []).
Proof.
  apply scheduler_pick_fifo.
  constructor; [right; by eexists|]. constructor; [left; by eexists|].
  constructor; [right; by eexists|constructor].
Defined.

(** ** Concrete runs *)

Definition idle_scheduler : Scheduler := mkScheduler 2 [] 0 0 None (-1) false false [].

Lemma sys_run_eq dflt idle_cb y tid fresh t y' st :
  heap (fib y) !! fresh = None -> Scheduler_run dflt y tid fresh = Ok (t, y') -> entered y y' tid = st ->
  sys_step dflt idle_cb y NoAct [] st y'.
Proof. intros ? ? <-. by eapply sys_run. Qed.

(** A function is scheduled, worker 10 takes it and starts it; the idle functions of the
    two workers wait. *)
Lemma demo_reach :
  exists y k, sys_reach 131072 0 client_rules (sys0 idle_scheduler) [0; 0; 77] [77] y /\
    workers y !! 10 = Some k /\ w_pc k = InCb 5 /\ heap (fib y) !! 6 = None /\
    exists k2, workers y !! 11 = Some k2.
Proof.
  assert (H : exists y, sys_reach 131072 0 client_rules (sys0 idle_scheduler) [0; 0; 77] [77] y /\
    (w_pc <$> workers y !! 10 = Some (InCb 5) /\ heap (fib y) !! 6 = None /\ w_pc <$> workers y !! 11 = Some Pick)).
  { eexists. split.
    - eapply (reach_step _ _ _ _ [0; 0; 77] [] _ NoAct [] [77]).
      1: eapply (reach_step _ _ _ _ [0; 0; 77] [] _ NoAct [] []).
      1: eapply (reach_step _ _ _ _ [0; 0] [] _ NoAct [77] []).
      1: eapply (reach_step _ _ _ _ [0] [] _ NoAct [0] []).
      1: eapply (reach_step _ _ _ _ [] [] _ NoAct [0] []); [apply reach_refl| |].
      + eapply (sys_spawn _ _ _ 10 1 2); try reflexivity. done.
      + exact Logic.I.
      + eapply (sys_spawn _ _ _ 11 3 4); try reflexivity. done.
      + exact Logic.I.
      + apply (sys_schedule_cb _ _ _ 77 (-1)).
      + exact Logic.I.
      + eapply (sys_run_eq _ _ _ 10 5); vm_compute; reflexivity.
      + exact Logic.I.
      + eapply (sys_run_eq _ _ _ 10 5); vm_compute; reflexivity.
      + exact Logic.I.
    - vm_compute. done. }
  destruct H as (y & Hr & H1 & H2 & H3). apply fmap_Some in H1 as (k & Hk & E). apply fmap_Some in H3 as (k2 & Hk2 & _).
  exists y, k. split_and!; eauto.
Qed.

Lemma scheduler_fibers_exclusive_witness :
  exists y k1 k2, workers y !! 10 = Some k1 /\ w_pc k1 = InCb 5 /\ workers y !! 11 = Some k2 /\
    on_cpu (w_tls k1) <> on_cpu (w_tls k2).
Proof.
  destruct demo_reach as (y & k & Hr & Hk & Hpc & _ & k2 & Hk2). exists y, k, k2. split_and!; try done.
  exact (scheduler_fibers_exclusive 131072 0 idle_scheduler [0; 0; 77] [77] y 10 11 k k2 ltac:(done) Hr Hk Hk2 ltac:(done)).
Defined.

Lemma scheduler_never_fails_witness :
  exists y t y', workers y !! 10 <> None /\ Scheduler_run 131072 y 10 6 = Ok (t, y').
Proof.
  destruct demo_reach as (y & k & Hr & Hk & Hpc & Hf & _).
  destruct (scheduler_never_fails 131072 0 idle_scheduler [0; 0; 77] [77] y 10 k 6 ltac:(done) Hr Hk Hf)
    as ((t & y' & E) & _). exists y, t, y'. split; [congruence|exact E].
Defined.

Lemma scheduler_callbacks_conserved_witness : exists y, [0; 0; 77] ≡ₚ [77] ++ pending y.
Proof.
  destruct demo_reach as (y & k & Hr & _). exists y.
  exact (scheduler_callbacks_conserved 131072 0 idle_scheduler [0; 0; 77] [77] y ltac:(done) Hr).
Defined.

Lemma scheduler_counters_exact_witness :
  exists y, m_activeThreadCount (sch y) = count is_active (workers y) /\ workers y !! 10 <> None.
Proof.
  destruct demo_reach as (y & k & Hr & Hk & _). exists y. split; [|congruence].
  apply (scheduler_counters_exact 131072 0 idle_scheduler [0; 0; 77] [77] y ltac:(done) Hr).
Defined.

(** The state in which fiber 8 was handed to [schedule] twice and both workers
    have taken it. *)
Definition taken_twice : outcome system :=
  let! y := run_enter 131072 0 (sys0 idle_scheduler) 10 1 2 in
  let! y := run_enter 131072 0 y 11 3 4 in
  let y := mkSystem (sch y) (Fiber_new 131072 (fib y) 8 (Some 99) 0 false) (workers y) in
  let y := mkSystem (snd (Scheduler_schedule (sch y) (mkFT (Some 8) None (-1)))) (fib y) (workers y) in
  let y := mkSystem (snd (Scheduler_schedule (sch y) (mkFT (Some 8) None (-1)))) (fib y) (workers y) in
  let! (_, y) := Scheduler_run 131072 y 10 5 in
  let! (_, y) := Scheduler_run 131072 y 11 6 in
  Ok y.

(** The rule [may_schedule] is needed.  [schedule] accepts a suspended fiber
    twice, and [run] marks a fiber [EXEC] only after it has released the lock, so
    two workers can both take it; then the assertion in [swapIn] of the second
    one fails and the process aborts. *)
Lemma scheduled_twice_aborts :
  (let! y := taken_twice in
   let! (t, y) := Scheduler_run 131072 y 10 5 in Ok (w_pc <$> workers y !! 10)) = Ok (Some (InFiber 8)) /\
  (let! y := taken_twice in
   let! (t, y) := Scheduler_run 131072 y 10 5 in Scheduler_run 131072 y 11 6) = AssertFail.
Proof. split; vm_compute; reflexivity. Qed.

(** Fiber 8 runs on worker 10, schedules itself and leaves with [YieldToReady]; worker 11
    takes it from the queue before worker 10 looks at its state, which it then sets to
    [HOLD]; the fiber schedules itself once more, and worker 10 switches to it too. *)
Definition self_scheduled : outcome system :=
  let sched y := mkSystem (snd (Scheduler_schedule (sch y) (mkFT (Some 8) None (-1)))) (fib y) (workers y) in
  let! y := run_enter 131072 0 (sys0 idle_scheduler) 10 1 2 in
  let! y := run_enter 131072 0 y 11 3 4 in
  let y := mkSystem (sch y) (Fiber_new 131072 (fib y) 8 (Some 99) 0 false) (workers y) in
  let! (_, y) := Scheduler_run 131072 (sched y) 10 5 in
  let! (_, y) := Scheduler_run 131072 y 10 5 in
  let! y := fiber_yieldReady (sched y) 10 in
  let! (_, y) := Scheduler_run 131072 y 11 6 in
  let! (_, y) := Scheduler_run 131072 y 11 6 in
  let! (_, y) := Scheduler_run 131072 y 10 5 in
  let! (_, y) := Scheduler_run 131072 y 10 5 in
  let! (_, y) := Scheduler_run 131072 (sched y) 10 5 in
  let! (_, y) := Scheduler_run 131072 y 10 5 in
  Ok y.

(** Without [client_rules] two workers can execute one fiber. *)
Lemma exclusion_needs_rules :
  (let! y := self_scheduled in
   Ok ((fun k => on_cpu (w_tls k)) <$> workers y !! 10, (fun k => on_cpu (w_tls k)) <$> workers y !! 11)) = Ok (Some 8, Some 8).
Proof. vm_compute. reflexivity. Qed.
