(* ===== verification/IOManager.v ===== *)
(** * The epoll-driven I/O scheduler ([iomanager.h], [iomanager.cc])

    [IOManager] is a [Scheduler] and a [TimerManager] with, for every file
    descriptor, the read and write events that coroutines wait for.  The kernel's
    epoll instance is a parameter: the class [EpollOps] is the system call, and
    [EpollSpec] what its documentation says about the interest list.  Functions
    that hand tasks to [Scheduler::schedule] return them, with the scheduler they
    go to, in the order of the calls.

    [m_fdContexts] holds no null pointer outside [contextResize], which fills the
    new entries under the same lock, so it is a list of contexts here.  An
    [FdContext*] stored in epoll is the descriptor's number. *)

From S2P Require Import Prelude Timer Fiber Scheduler.
From Stdlib Require Import ZArith Lia List.
From stdpp Require Import base tactics list numbers option gmap.

Open Scope Z_scope.

(** ** The kernel's side *)

Inductive ctl_op := EPOLL_CTL_ADD | EPOLL_CTL_MOD | EPOLL_CTL_DEL.

Definition EPOLLIN : Z := 0x001.
Definition EPOLLOUT : Z := 0x004.
Definition EPOLLERR : Z := 0x008.
Definition EPOLLHUP : Z := 0x010.
Definition EPOLLET : Z := 0x80000000.

(** [epoll_ctl(m_epfd, op, fd, &ev)]: [true] stands for the result 0. *)
Class EpollOps (K : Type) := epoll_ctl : K -> ctl_op -> Z -> Z -> bool * K.

(** What the manual page says: a call that fails changes nothing; [ADD] fails
    for a descriptor in the interest list, [MOD] and [DEL] for one that is not;
    a call that succeeds sets or removes that descriptor's events. *)
Class EpollSpec (K : Type) `{EpollOps K} := {
  interest : K -> Z -> option Z;
  ctl_failed k op fd ev k' : epoll_ctl k op fd ev = (false, k') -> forall x, interest k' x = interest k x;
  ctl_ok k op fd ev k' : epoll_ctl k op fd ev = (true, k') ->
    (match op with EPOLL_CTL_ADD => interest k fd = None | _ => is_Some (interest k fd) end) /\
    interest k' fd = (match op with EPOLL_CTL_DEL => None | _ => Some ev end) /\
    forall x, x <> fd -> interest k' x = interest k x
}.

(** ** Data *)

(** @src iomanager.h:30-34 IOManager::Event *)
Definition NONE : Z := 0x0.
Definition READ : Z := 0x1.
Definition WRITE : Z := 0x4.

(** @src iomanager.h:45-50 IOManager::FdContext::EventContext *)
Record EventContext := mkEC {
  ec_scheduler : option Z;
  ec_fiber : option Z;
  ec_cb : option Z
}.

(** @src iomanager.h:59-63 IOManager::FdContext *)
Record FdContext := mkFC {
  fc_fd : Z;
  fc_events : Z;
  fc_read : EventContext;
  fc_write : EventContext
}.

(** A task on its way to a scheduler. *)
Abbreviation posted := (list (Z * FiberAndThread)).

(** @src iomanager.h:130-134 IOManager *)
Record IOManager (K : Type) := mkIOM {
  io_sched : Scheduler;
  io_timers : TimerManager;
  m_epfd : K;
  m_pendingEventCount : Z;
  m_fdContexts : list FdContext
}.
Arguments mkIOM {K}.
Arguments io_sched {K}.
Arguments io_timers {K}.
Arguments m_epfd {K}.
Arguments m_pendingEventCount {K}.
Arguments m_fdContexts {K}.

Definition with_events (c : FdContext) (e : Z) : FdContext := mkFC (fc_fd c) e (fc_read c) (fc_write c).

(** Assignment through the reference [getContext] returns. *)
Definition put_context (c : FdContext) (event : Z) (x : EventContext) : FdContext :=
  if event =? READ then mkFC (fc_fd c) (fc_events c) x (fc_write c)
  else mkFC (fc_fd c) (fc_events c) (fc_read c) x.

(** ** [FdContext] *)

(** @src iomanager.cc:72-84 IOManager::FdContext::getContext *)
Definition FdContext_getContext (c : FdContext) (event : Z) : outcome EventContext :=
  if event =? READ then Ok (fc_read c)
  else if event =? WRITE then Ok (fc_write c)
  else AssertFail.

(** @src iomanager.cc:86-90 IOManager::FdContext::resetContext *)
Definition FdContext_resetContext : EventContext := mkEC None None None.

(** @src iomanager.cc:92-104 IOManager::FdContext::triggerEvent
    [schedule(&ctx.cb)] and [schedule(&ctx.fiber)] move the object out. *)
Definition FdContext_triggerEvent (c : FdContext) (event : Z) : outcome (posted * FdContext) :=
  assertb (negb (Z.land (fc_events c) event =? 0))
  (let c := with_events c (Z.land (fc_events c) (Z.lnot event)) in
   let! ctx := FdContext_getContext c event in
   let! (out, ctx) :=
     match ec_cb ctx, ec_fiber ctx with
     | Some cb, f => deref (ec_scheduler ctx) (fun s => Ok ([(s, mkFT None (Some cb) (-1))], mkEC (ec_scheduler ctx) f None))
     | None, Some f => deref (ec_scheduler ctx) (fun s => Ok ([(s, mkFT (Some f) None (-1))], mkEC (ec_scheduler ctx) None None))
     | None, None => Ok ([], ctx)
     end in
   Ok (out, put_context c event (mkEC None (ec_fiber ctx) (ec_cb ctx)))).

(** ** [IOManager] *)

Definition nonzero (x : Z) : bool := negb (x =? 0).

(** @src iomanager.cc:479-488 IOManager::contextResize
    [resize] cuts the vector off when [size] is less than its length. *)
Definition contextResize (cs : list FdContext) (size : Z) : list FdContext :=
  let n := Z.to_nat size in
  take n cs ++
  map (fun i => mkFC (Z.of_nat i) NONE FdContext_resetContext FdContext_resetContext)
      (seq (length cs) (n - length cs)).

Section ops.
Context {K : Type} {EO : EpollOps K}.
Implicit Types (m : IOManager K).

Definition set_contexts m (cs : list FdContext) : IOManager K :=
  mkIOM (io_sched m) (io_timers m) (m_epfd m) (m_pendingEventCount m) cs.
Definition set_epoll m (k : K) : IOManager K :=
  mkIOM (io_sched m) (io_timers m) k (m_pendingEventCount m) (m_fdContexts m).
Definition add_pending m (d : Z) : IOManager K :=
  mkIOM (io_sched m) (io_timers m) (m_epfd m) (m_pendingEventCount m + d) (m_fdContexts m).
Definition set_timers m (t : TimerManager) : IOManager K :=
  mkIOM (io_sched m) t (m_epfd m) (m_pendingEventCount m) (m_fdContexts m).
Definition set_sched m (s : Scheduler) : IOManager K :=
  mkIOM s (io_timers m) (m_epfd m) (m_pendingEventCount m) (m_fdContexts m).

(** [m_fdContexts[fd]]: a negative or too large index is undefined. *)
Definition context_at m (fd : Z) : option FdContext :=
  if fd <? 0 then None else m_fdContexts m !! Z.to_nat fd.

Definition put_ctx m (fd : Z) (c : FdContext) : IOManager K :=
  set_contexts m (<[Z.to_nat fd := c]> (m_fdContexts m)).

(** @src iomanager.cc:106-128 IOManager::IOManager
    [s] is what the base class' constructor built, [k] what [epoll_create]
    returned, [tfd] the read end of the new pipe, [ids] the new threads. *)
Definition IOManager_new (s : Scheduler) (now : Z) (k : K) (tfd : Z) (ids : list Z) : outcome (IOManager K) :=
  let '(ok, k) := epoll_ctl k EPOLL_CTL_ADD tfd (Z.lor EPOLLIN EPOLLET) in
  assertb ok
  (let '(_, s) := Scheduler_start s ids in
   Ok (mkIOM s (TimerManager_new now) k 0 (contextResize [] 32))).

(** @src iomanager.cc:145-157 IOManager::addEvent
    The first part: find the context, growing the vector when it is too short.
    [fd * 1.5] is converted to [size_t]. *)
Definition addEvent_prepare m (fd : Z) : IOManager K :=
  if fd <? Z.of_nat (length (m_fdContexts m)) then m
  else set_contexts m (contextResize (m_fdContexts m) (fd * 3 / 2)).

(** @src iomanager.cc:144-200 IOManager::addEvent
    [this] is the calling thread's scheduler, [cur] its current fiber and
    [cur_state] that fiber's state. *)
Definition IOManager_addEvent m (fd event : Z) (cb : option Z) (this : option Z) (cur : Z)
    (cur_state : FiberState) : outcome (Z * IOManager K) :=
  let m := addEvent_prepare m fd in
  deref (context_at m fd) (fun c =>
  assertb (negb (nonzero (Z.land (fc_events c) event)))
  (let op := if nonzero (fc_events c) then EPOLL_CTL_MOD else EPOLL_CTL_ADD in
   let ev := Z.lor (Z.lor EPOLLET (fc_events c)) event in
   let '(ok, k) := epoll_ctl (m_epfd m) op fd ev in
   let m := set_epoll m k in
   if negb ok then Ok (-1, m) else
   let m := add_pending m 1 in
   let c := with_events c (Z.lor (fc_events c) event) in
   let! x := FdContext_getContext c event in
   assertb (negb (non_null (ec_scheduler x)) && negb (non_null (ec_fiber x)) && negb (non_null (ec_cb x)))
   (match cb with
    | Some f => Ok (0, put_ctx m fd (put_context c event (mkEC this (ec_fiber x) (Some f))))
    | None =>
      assertb (state_eqb cur_state EXEC)
      (Ok (0, put_ctx m fd (put_context c event (mkEC this (Some cur) (ec_cb x)))))
    end))).

(** @src iomanager.cc:202-235 IOManager::delEvent *)
Definition IOManager_delEvent m (fd event : Z) : outcome (bool * IOManager K) :=
  if Z.of_nat (length (m_fdContexts m)) <=? fd then Ok (false, m) else
  deref (context_at m fd) (fun c =>
  if negb (nonzero (Z.land (fc_events c) event)) then Ok (false, m) else
  let new_events := Z.land (fc_events c) (Z.lnot event) in
  let op := if nonzero new_events then EPOLL_CTL_MOD else EPOLL_CTL_DEL in
  let '(ok, k) := epoll_ctl (m_epfd m) op fd (Z.lor EPOLLET new_events) in
  let m := set_epoll m k in
  if negb ok then Ok (false, m) else
  let m := add_pending m (-1) in
  let c := with_events c new_events in
  let! _ := FdContext_getContext c event in
  Ok (true, put_ctx m fd (put_context c event FdContext_resetContext))).

(** @src iomanager.cc:237-268 IOManager::cancelEvent *)
Definition IOManager_cancelEvent m (fd event : Z) : outcome (bool * posted * IOManager K) :=
  if Z.of_nat (length (m_fdContexts m)) <=? fd then Ok (false, [], m) else
  deref (context_at m fd) (fun c =>
  if negb (nonzero (Z.land (fc_events c) event)) then Ok (false, [], m) else
  let new_events := Z.land (fc_events c) (Z.lnot event) in
  let op := if nonzero new_events then EPOLL_CTL_MOD else EPOLL_CTL_DEL in
  let '(ok, k) := epoll_ctl (m_epfd m) op fd (Z.lor EPOLLET new_events) in
  let m := set_epoll m k in
  if negb ok then Ok (false, [], m) else
  let m := add_pending m (-1) in
  let! (out, c) := FdContext_triggerEvent c event in
  Ok (true, out, put_ctx m fd c)).

(** Trigger [event] if [sel] says so, and count it off (lines 295-302, 455-464). *)
Definition trigger_if m (sel : bool) (c : FdContext) (event : Z) : outcome (posted * FdContext * IOManager K) :=
  if sel then
    let! (out, c) := FdContext_triggerEvent c event in Ok (out, c, add_pending m (-1))
  else Ok ([], c, m).

(** @src iomanager.cc:270-305 IOManager::cancelAll *)
Definition IOManager_cancelAll m (fd : Z) : outcome (bool * posted * IOManager K) :=
  if Z.of_nat (length (m_fdContexts m)) <=? fd then Ok (false, [], m) else
  deref (context_at m fd) (fun c =>
  if negb (nonzero (fc_events c)) then Ok (false, [], m) else
  let '(ok, k) := epoll_ctl (m_epfd m) EPOLL_CTL_DEL fd 0 in
  let m := set_epoll m k in
  if negb ok then Ok (false, [], m) else
  let! (out1, c, m) := trigger_if m (nonzero (Z.land (fc_events c) READ)) c READ in
  let! (out2, c, m) := trigger_if m (nonzero (Z.land (fc_events c) WRITE)) c WRITE in
  assertb (fc_events c =? 0) (Ok (true, out1 ++ out2, put_ctx m fd c))).

(** An element of the array [epoll_wait] fills: a wake-up through the pipe, or
    events of a descriptor. *)
Inductive ready := Tickled | Ready (fd events : Z).

(** @src iomanager.cc:403-465 IOManager::idle
    One ready descriptor. *)
Definition handle_ready m (e : ready) : outcome (posted * IOManager K) :=
  match e with
  | Tickled => Ok ([], m)
  | Ready fd events =>
    deref (context_at m fd) (fun c =>
    let events := if nonzero (Z.land events (Z.lor EPOLLERR EPOLLHUP))
                  then Z.lor events (Z.land (Z.lor EPOLLIN EPOLLOUT) (fc_events c)) else events in
    let real_events := Z.lor (if nonzero (Z.land events EPOLLIN) then READ else 0)
                             (if nonzero (Z.land events EPOLLOUT) then WRITE else 0) in
    if Z.land (fc_events c) real_events =? NONE then Ok ([], m) else
    let left_events := Z.land (fc_events c) (Z.lnot real_events) in
    let op := if nonzero left_events then EPOLL_CTL_MOD else EPOLL_CTL_DEL in
    let '(ok, k) := epoll_ctl (m_epfd m) op (fc_fd c) (Z.lor EPOLLET left_events) in
    let m := set_epoll m k in
    if negb ok then Ok ([], m) else
    let! (out1, c, m) := trigger_if m (nonzero (Z.land real_events READ)) c READ in
    let! (out2, c, m) := trigger_if m (nonzero (Z.land real_events WRITE)) c WRITE in
    Ok (out1 ++ out2, put_ctx m fd c))
  end.

(** @src iomanager.cc:402-466 IOManager::idle
    The loop over the ready descriptors. *)
Fixpoint handle_all m (es : list ready) : outcome (posted * IOManager K) :=
  match es with
  | [] => Ok ([], m)
  | e :: r =>
    let! (out1, m) := handle_ready m e in
    let! (out2, m) := handle_all m r in
    Ok (out1 ++ out2, m)
  end.

(** @src iomanager.cc:324-331 IOManager::tickle
    Whether a byte is written to the pipe. *)
Definition IOManager_tickle m : bool := Scheduler_hasIdleThreads (io_sched m).

(** @src iomanager.cc:474-477 IOManager::onTimerInsertedAtFront *)
Definition IOManager_onTimerInsertedAtFront m : bool := IOManager_tickle m.

(** @src iomanager.cc:492-496 IOManager::stopping *)
Definition IOManager_stopping_timeout m (now : Z) : bool * Z * IOManager K :=
  let '(timeout, tm) := TimerManager_getNextTimer (io_timers m) now in
  let m := set_timers m tm in
  ((timeout =? U64_MAX) && (m_pendingEventCount m =? 0) && Scheduler_stopping (io_sched m), timeout, m).

(** @src iomanager.cc:333-337 IOManager::stopping *)
Definition IOManager_stopping m (now : Z) : bool * IOManager K :=
  let '(b, _, m) := IOManager_stopping_timeout m now in (b, m).

(** @src iomanager.cc:377-385 IOManager::idle
    The argument passed to [epoll_wait]: [next_timeout] is converted to [int] for
    the comparison and again for the call. *)
Definition idle_timeout (next_timeout : Z) : Z :=
  if negb (next_timeout =? U64_MAX)
  then i32 (if 3000 <? i32 next_timeout then 3000 else next_timeout)
  else 3000.

(** @src iomanager.cc:359-472 IOManager::idle
    One turn of the loop.  [now1] and [now2] are the times [getNextTimer] and
    [listExpiredCb] read, [a] the address of the latter's temporary, and [es] what
    [epoll_wait] brings back.  [None]: the scheduler has stopped and the idle
    fiber ends.  Otherwise: the argument of [epoll_wait], whether [tickle()] is
    called for the timers' callbacks, and the tasks the events post, after which
    the fiber switches out.  [code] names the function object of a timer's callback. *)
Definition IOManager_idle (code : callback -> Z) m (now1 now2 a : Z) (es : list ready)
    : outcome (option (Z * bool * posted) * IOManager K) :=
  let '(stop, next_timeout, m) := IOManager_stopping_timeout m now1 in
  if stop then Ok (None, m) else
  let! (cbs, tm) := TimerManager_listExpiredCb (io_timers m) now2 a in
  let m := set_timers m tm in
  let tasks := map (fun cb => mkFT None (code <$> cb) (-1)) cbs in
  let '(need_tickle, s) := if match cbs with [] => true | _ => false end then (false, io_sched m)
                           else Scheduler_schedule_batch (io_sched m) tasks in
  let m := set_sched m s in
  let! (out, m) := handle_all m es in
  Ok (Some (idle_timeout next_timeout, need_tickle && IOManager_tickle m, out), m).

End ops.

(** ** What is registered *)

(** The task an event context will post. *)
Definition ec_task (x : EventContext) : posted :=
  match ec_scheduler x, ec_cb x, ec_fiber x with
  | Some s, Some cb, _ => [(s, mkFT None (Some cb) (-1))]
  | Some s, None, Some f => [(s, mkFT (Some f) None (-1))]
  | _, _, _ => []
  end.

Definition fc_tasks (c : FdContext) : posted := ec_task (fc_read c) ++ ec_task (fc_write c).

(** A context with the event registered has a scheduler and exactly one of
    function and fiber; without, it is empty. *)
Definition ec_ok (registered : bool) (x : EventContext) : Prop :=
  if registered then
    is_Some (ec_scheduler x) /\ (is_Some (ec_cb x) /\ ec_fiber x = None \/ ec_cb x = None /\ is_Some (ec_fiber x))
  else x = FdContext_resetContext.

(** The four sets of events. *)
Definition mask (r w : bool) : Z := Z.lor (if r then READ else 0) (if w then WRITE else 0).

Definition fc_ok (fd : Z) (c : FdContext) : Prop :=
  fc_fd c = fd /\ exists r w, fc_events c = mask r w /\ ec_ok r (fc_read c) /\ ec_ok w (fc_write c).

Definition is_event (event : Z) : Prop := event = READ \/ event = WRITE.

Lemma ec_ok_task x : ec_ok true x -> exists s t, ec_task x = [(s, t)] /\ one_task t.
Proof.
  intros ([s Hs] & [[[cb Hc] Hf]|[Hc [f Hf]]]); unfold ec_task; rewrite Hs, Hc, ?Hf;
    eexists _, _; (split; [reflexivity|]); [right|left]; split; done || by eexists.
Qed.

Lemma triggerEvent_ok fd c event :
  fc_ok fd c -> is_event event -> nonzero (Z.land (fc_events c) event) = true ->
  exists s t c', FdContext_triggerEvent c event = Ok ([(s, t)], c') /\ one_task t /\ fc_ok fd c' /\
    fc_events c' = Z.land (fc_events c) (Z.lnot event) /\ fc_tasks c ≡ₚ (s, t) :: fc_tasks c'.
Proof.
  intros (Hfd & r & w & He & Hr & Hw) Hev Hbit. unfold FdContext_triggerEvent. rewrite He in Hbit |- *.
  unfold nonzero in Hbit. rewrite Hbit. cbn [assertb].
  destruct c as [cfd ce [rs rf rc] [ws wf wc]]. cbn in Hfd, He, Hr, Hw. subst.
  destruct Hev as [->| ->]; cbn in Hbit.
  - destruct r; [|by destruct w]. destruct Hr as ([s Hs] & Hx). cbn in Hs, Hx. subst rs.
    destruct Hx as [[[cb ->] ->]|[-> [f ->]]]; destruct w; (eexists _, _, _; split; [reflexivity|]);
      (split; [first [by left; split; [eexists|] | by right; split; [|eexists]]|]);
      (split; [split; [done|]; first [by exists false, true | by exists false, false]|]); split; done.
  - destruct w; [|by destruct r]. destruct Hw as ([s Hs] & Hx). cbn in Hs, Hx. subst ws.
    destruct Hx as [[[cb ->] ->]|[-> [f ->]]]; destruct r; (eexists _, _, _; split; [reflexivity|]);
      (split; [first [by left; split; [eexists|] | by right; split; [|eexists]]|]);
      (split; [split; [done|]; first [by exists true, false | by exists false, false]|]); split; try done;
      unfold fc_tasks; cbn; solve_Permutation.
Qed.

(** Lists updated at one place, up to order. *)
Lemma bind_insert {A B} (f : A -> list B) (l : list A) (i : nat) (x y : A) :
  l !! i = Some x -> f x ++ (<[i := y]> l ≫= f) ≡ₚ f y ++ (l ≫= f).
Proof.
  intros Hx. rewrite (insert_take_drop l i y) by by eapply lookup_lt_Some.
  rewrite <- (take_drop_middle l i x Hx) at 3. rewrite !bind_app. cbn. solve_Permutation.
Qed.

Section invariant.
Context {K : Type} {EO : EpollOps K} {ES : EpollSpec K}.
(** The read end of the wake-up pipe, which epoll watches too. *)
Variable tfd : Z.
Implicit Types (m : IOManager K).

(** All the tasks that wait for an event. *)
Definition regs m : posted := m_fdContexts m ≫= fc_tasks.

(** The events epoll should be watching for a descriptor. *)
Definition watched (c : FdContext) : option Z :=
  if nonzero (fc_events c) then Some (Z.lor EPOLLET (fc_events c)) else None.

Record io_inv m : Prop := {
  io_len : (32 <= length (m_fdContexts m))%nat;
  io_ctx i c : m_fdContexts m !! i = Some c -> fc_ok (Z.of_nat i) c;
  io_count : m_pendingEventCount m = Z.of_nat (length (regs m));
  io_epoll fd : fd <> tfd -> interest (m_epfd m) fd = context_at m fd ≫= watched
}.

Lemma context_at_ok m fd c : io_inv m -> context_at m fd = Some c -> 0 <= fd /\ fc_ok fd c.
Proof.
  intros I. unfold context_at. destruct (Z.ltb_spec fd 0); [done|]. intros Hc.
  split; [done|]. pose proof (io_ctx _ I _ _ Hc) as Ho. by rewrite Z2Nat.id in Ho.
Qed.

(** Storing a changed context [c'] after epoll was told about it. *)
Lemma put_inv m fd c c' k d :
  io_inv m -> fd <> tfd -> context_at m fd = Some c -> fc_ok fd c' ->
  Z.of_nat (length (fc_tasks c')) = Z.of_nat (length (fc_tasks c)) + d ->
  interest k fd = watched c' -> (forall x, x <> fd -> interest k x = interest (m_epfd m) x) ->
  let m' := put_ctx (add_pending (set_epoll m k) d) fd c' in
  io_inv m' /\ fc_tasks c ++ regs m' ≡ₚ fc_tasks c' ++ regs m.
Proof.
  intros I Hfd Hc Hok Hlen Hint Hoth m'.
  destruct (context_at_ok _ _ _ I Hc) as [H0 _]. pose proof Hc as Hc0. unfold context_at in Hc0.
  destruct (Z.ltb_spec fd 0); [lia|].
  assert (Hp : fc_tasks c ++ regs m' ≡ₚ fc_tasks c' ++ regs m) by (unfold regs, m'; cbn; by apply bind_insert).
  split; [|done]. constructor.
  - cbn. rewrite length_insert. apply (io_len _ I).
  - intros i x. cbn. destruct (decide (i = Z.to_nat fd)) as [->|Hne].
    + rewrite list_lookup_insert_eq by (by eapply lookup_lt_Some). intros [= <-]. by rewrite Z2Nat.id.
    + rewrite list_lookup_insert_ne by done. apply (io_ctx _ I).
  - change (m_pendingEventCount m + d = Z.of_nat (length (regs m'))). rewrite (io_count _ I).
    apply Permutation_length in Hp. rewrite !length_app in Hp. lia.
  - intros x Hx. unfold context_at. cbn. destruct (decide (x = fd)) as [->|Hne].
    + destruct (Z.ltb_spec fd 0); [lia|]. rewrite list_lookup_insert_eq by (by eapply lookup_lt_Some). done.
    + rewrite Hoth, (io_epoll _ I x Hx) by done. unfold context_at. destruct (Z.ltb_spec x 0); [done|].
      rewrite list_lookup_insert_ne by lia. done.
Qed.

(** A failed system call leaves everything as it was. *)
Lemma failed_inv m op fd ev k :
  io_inv m -> epoll_ctl (m_epfd m) op fd ev = (false, k) -> io_inv (set_epoll m k) /\ regs (set_epoll m k) = regs m.
Proof.
  intros [I0 I1 I2 I3] E. split; [|done]. constructor; [done..|].
  intros x Hx. cbn. rewrite (ctl_failed _ _ _ _ _ E). by apply I3.
Qed.

(** The call that takes events away, leaving [left]. *)
Lemma ctl_left m fd c k left :
  io_inv m -> fd <> tfd -> context_at m fd = Some c ->
  epoll_ctl (m_epfd m) (if nonzero left then EPOLL_CTL_MOD else EPOLL_CTL_DEL) fd (Z.lor EPOLLET left) = (true, k) ->
  interest k fd = (if nonzero left then Some (Z.lor EPOLLET left) else None) /\
  forall x, x <> fd -> interest k x = interest (m_epfd m) x.
Proof. intros I Hfd Hc E. apply ctl_ok in E as (_ & E1 & E2). by destruct (nonzero left). Qed.

Lemma delEvent_spec m fd event :
  io_inv m -> 0 <= fd -> fd <> tfd -> is_event event ->
  exists b m', IOManager_delEvent m fd event = Ok (b, m') /\ io_inv m' /\
    (if b then exists x, regs m ≡ₚ x :: regs m' else regs m' = regs m).
Proof.
  intros I H0 Hfd Hev. unfold IOManager_delEvent.
  destruct (Z.leb_spec (Z.of_nat (length (m_fdContexts m))) fd); [by exists false, m|].
  destruct (context_at m fd) as [c|] eqn:Hc.
  2: { exfalso. unfold context_at in Hc. destruct (Z.ltb_spec fd 0); [lia|].
       apply lookup_ge_None in Hc. lia. }
  cbn [deref]. destruct (nonzero (Z.land (fc_events c) event)) eqn:Hbit; cbn [negb]; [|by exists false, m].
  set (left := Z.land (fc_events c) (Z.lnot event)).
  destruct (epoll_ctl (m_epfd m) _ fd _) as [ok k] eqn:E. destruct ok; cbn [negb].
  2: { destruct (failed_inv _ _ _ _ _ I E). by exists false, (set_epoll m k). }
  destruct (ctl_left _ _ _ _ _ I Hfd Hc E) as [Hint Hoth].
  destruct (context_at_ok _ _ _ I Hc) as [_ Hok].
  destruct (triggerEvent_ok fd c event Hok Hev Hbit) as (s & t & c1 & Et & _ & Hok1 & He1 & Hp1).
  (* the context after a deletion is the one after a trigger *)
  assert (Hsame : FdContext_getContext (with_events c left) event = FdContext_getContext c event /\
    put_context (with_events c left) event FdContext_resetContext = c1).
  { revert Et. unfold FdContext_triggerEvent. unfold nonzero in Hbit. rewrite Hbit. cbn [assertb].
    fold left. destruct Hok as (_ & r & w & He & Hr & Hw). rewrite He in Hbit.
    destruct Hev as [->| ->]; (split; [done|]); revert Et; cbn.
    - destruct r; [|by destruct w]. destruct Hr as ([s' Hs'] & [[[cb Hcb] Hf]|[Hcb [f Hf]]]);
        rewrite Hcb, ?Hf, Hs'; cbn; intros [= _ _ <-]; rewrite ?Hcb, ?Hf; done.
    - destruct w; [|by destruct r]. destruct Hw as ([s' Hs'] & [[[cb Hcb] Hf]|[Hcb [f Hf]]]);
        rewrite Hcb, ?Hf, Hs'; cbn; intros [= _ _ <-]; rewrite ?Hcb, ?Hf; done. }
  destruct Hsame as [Hg ->].
  assert (Hgc : exists x, FdContext_getContext c event = Ok x) by (destruct Hev as [->| ->]; by eexists).
  destruct Hgc as [x Hx]. rewrite Hg, Hx. cbn [obind]. eexists true, _. split; [reflexivity|].
  destruct (put_inv m fd c c1 k (-1) I Hfd Hc Hok1) as [I' Hp].
  - apply Permutation_length in Hp1. cbn in Hp1. lia.
  - unfold watched. rewrite He1. done.
  - done.
  - split; [done|]. exists (s, t). rewrite Hp1 in Hp. cbn in Hp.
    apply (Permutation_app_inv_l (fc_tasks c1)). rewrite <- Hp. solve_Permutation.
Qed.

Lemma cancelEvent_spec m fd event :
  io_inv m -> 0 <= fd -> fd <> tfd -> is_event event ->
  exists b out m', IOManager_cancelEvent m fd event = Ok (b, out, m') /\ io_inv m' /\
    regs m ≡ₚ out ++ regs m' /\ length out = (if b then 1 else 0)%nat.
Proof.
  intros I H0 Hfd Hev. unfold IOManager_cancelEvent.
  destruct (Z.leb_spec (Z.of_nat (length (m_fdContexts m))) fd); [by exists false, [], m|].
  destruct (context_at m fd) as [c|] eqn:Hc.
  2: { exfalso. unfold context_at in Hc. destruct (Z.ltb_spec fd 0); [lia|].
       apply lookup_ge_None in Hc. lia. }
  cbn [deref]. destruct (nonzero (Z.land (fc_events c) event)) eqn:Hbit; cbn [negb]; [|by exists false, [], m].
  destruct (epoll_ctl (m_epfd m) _ fd _) as [ok k] eqn:E. destruct ok; cbn [negb].
  2: { destruct (failed_inv _ _ _ _ _ I E) as [I' Hr]. exists false, [], (set_epoll m k). by rewrite Hr. }
  destruct (ctl_left _ _ _ _ _ I Hfd Hc E) as [Hint Hoth].
  destruct (context_at_ok _ _ _ I Hc) as [_ Hok].
  destruct (triggerEvent_ok fd c event Hok Hev Hbit) as (s & t & c1 & -> & _ & Hok1 & He1 & Hp1).
  cbn [obind]. eexists true, _, _. split; [reflexivity|].
  destruct (put_inv m fd c c1 k (-1) I Hfd Hc Hok1) as [I' Hp].
  - apply Permutation_length in Hp1. cbn in Hp1. lia.
  - unfold watched. rewrite He1. done.
  - done.
  - split_and!; [done| |done]. rewrite Hp1 in Hp. cbn in Hp |- *.
    apply (Permutation_app_inv_l (fc_tasks c1)). rewrite <- Hp. solve_Permutation.
Qed.

Lemma add_pending_add m a b : add_pending (add_pending m a) b = add_pending m (a + b).
Proof. unfold add_pending. cbn. f_equal. lia. Qed.

Lemma add_pending_0 m : add_pending m 0 = m.
Proof. unfold add_pending. destruct m. cbn. f_equal. lia. Qed.

Lemma trigger_if_ok fd c event sel m :
  fc_ok fd c -> is_event event -> (sel = true -> nonzero (Z.land (fc_events c) event) = true) ->
  exists out c', trigger_if m sel c event = Ok (out, c', add_pending m (- Z.of_nat (length out))) /\
    fc_ok fd c' /\ fc_events c' = (if sel then Z.land (fc_events c) (Z.lnot event) else fc_events c) /\
    fc_tasks c ≡ₚ out ++ fc_tasks c' /\ length out = (if sel then 1 else 0)%nat /\ Forall (fun x => one_task (snd x)) out.
Proof.
  intros Hok Hev Hsel. unfold trigger_if. destruct sel.
  - destruct (triggerEvent_ok fd c event Hok Hev (Hsel eq_refl)) as (s & t & c1 & -> & Ht & Hok1 & He1 & Hp1).
    cbn [obind]. exists [(s, t)], c1. split; [reflexivity|]. split_and!; try done. by constructor.
  - eexists [], c. cbn. rewrite add_pending_0. by split_and!.
Qed.

(** Triggering the events [sr] and [sw] of the registered [r] and [w] after
    epoll was told which remain. *)
Lemma trigger_both m fd c r w sr sw k :
  io_inv m -> fd <> tfd -> context_at m fd = Some c -> fc_events c = mask r w ->
  (sr = true -> r = true) -> (sw = true -> w = true) ->
  interest k fd = (let left := mask (r && negb sr) (w && negb sw) in
                   if nonzero left then Some (Z.lor EPOLLET left) else None) ->
  (forall x, x <> fd -> interest k x = interest (m_epfd m) x) ->
  exists out1 c1 m1 out2 c2 m2,
    trigger_if (set_epoll m k) sr c READ = Ok (out1, c1, m1) /\
    trigger_if m1 sw c1 WRITE = Ok (out2, c2, m2) /\
    fc_events c1 = mask (r && negb sr) w /\ fc_events c2 = mask (r && negb sr) (w && negb sw) /\
    io_inv (put_ctx m2 fd c2) /\ regs m ≡ₚ (out1 ++ out2) ++ regs (put_ctx m2 fd c2) /\
    length (out1 ++ out2) = ((if sr then 1 else 0) + (if sw then 1 else 0))%nat /\
    Forall (fun x => one_task (snd x)) (out1 ++ out2).
Proof.
  intros I Hfd Hc He Hsr Hsw Hint Hoth. destruct (context_at_ok _ _ _ I Hc) as [_ Hok].
  destruct (trigger_if_ok fd c READ sr (set_epoll m k)) as (out1 & c1 & E1 & Hok1 & He1 & Hp1 & Hl1 & Ht1);
    [done|by left|intros Hs; rewrite He, (Hsr Hs); by destruct w|].
  assert (Hc1 : fc_events c1 = mask (r && negb sr) w).
  { rewrite He1, He. destruct sr, r, w; try done; by specialize (Hsr eq_refl). }
  destruct (trigger_if_ok fd c1 WRITE sw (add_pending (set_epoll m k) (- Z.of_nat (length out1))))
    as (out2 & c2 & E2 & Hok2 & He2 & Hp2 & Hl2 & Ht2);
    [done|by right|intros Hs; rewrite Hc1, (Hsw Hs); by destruct (r && negb sr)|].
  assert (Hc2 : fc_events c2 = mask (r && negb sr) (w && negb sw)).
  { rewrite He2, Hc1. destruct sw, w, (r && negb sr); try done; by specialize (Hsw eq_refl). }
  rewrite add_pending_add in E2. eexists _, _, _, _, _, _. split; [exact E1|]. split; [exact E2|].
  split_and!; [done|done|..].
  2, 3: rewrite ?length_app; try lia.
  1,2: destruct (put_inv m fd c c2 k (- Z.of_nat (length out1) + - Z.of_nat (length out2)) I Hfd Hc Hok2)
         as [I' Hp]; [rewrite Hp2 in Hp1; apply Permutation_length in Hp1; rewrite !length_app in Hp1; lia
         |unfold watched; by rewrite Hc2|done|].
  - done.
  - apply (Permutation_app_inv_l (fc_tasks c2)). rewrite <- Hp, Hp1, Hp2. solve_Permutation.
  - apply Forall_app. done.
Qed.

Lemma cancelAll_spec m fd :
  io_inv m -> 0 <= fd -> fd <> tfd ->
  exists b out m', IOManager_cancelAll m fd = Ok (b, out, m') /\ io_inv m' /\ regs m ≡ₚ out ++ regs m'.
Proof.
  intros I H0 Hfd. unfold IOManager_cancelAll.
  destruct (Z.leb_spec (Z.of_nat (length (m_fdContexts m))) fd); [by exists false, [], m|].
  destruct (context_at m fd) as [c|] eqn:Hc.
  2: { exfalso. unfold context_at in Hc. destruct (Z.ltb_spec fd 0); [lia|].
       apply lookup_ge_None in Hc. lia. }
  cbn [deref]. destruct (nonzero (fc_events c)) eqn:Hnz; cbn [negb]; [|by exists false, [], m].
  destruct (epoll_ctl (m_epfd m) EPOLL_CTL_DEL fd 0) as [ok k] eqn:E. destruct ok; cbn [negb].
  2: { destruct (failed_inv _ _ _ _ _ I E) as [I' Hr]. exists false, [], (set_epoll m k). by rewrite Hr. }
  pose proof (context_at_ok _ _ _ I Hc) as [_ (_ & r & w & He & _ & _)].
  apply ctl_ok in E as (_ & Hint & Hoth).
  destruct (trigger_both m fd c r w r w k I Hfd Hc He) as
    (out1 & c1 & m1 & out2 & c2 & m2 & E1 & E2 & He1 & He2 & I' & Hp & _ & _); try done.
  { rewrite Hint. by destruct r, w. }
  replace (nonzero (Z.land (fc_events c) READ)) with r by (rewrite He; by destruct r, w).
  rewrite E1. cbn [obind].
  replace (nonzero (Z.land (fc_events c1) WRITE)) with w by (rewrite He1; by destruct r, w).
  rewrite E2. cbn [obind]. rewrite He2.
  replace (mask (r && negb r) (w && negb w)) with 0 by (by destruct r, w). cbn [assertb].
  eexists true, _, _. split; [reflexivity|]. done.
Qed.

Lemma resize_bind cs n : (length cs <= Z.to_nat n)%nat -> contextResize cs n ≫= fc_tasks = cs ≫= fc_tasks.
Proof.
  intros Hn. unfold contextResize. rewrite take_ge, bind_app by lia.
  rewrite <- (app_nil_r (cs ≫= fc_tasks)) at 2. f_equal.
  induction (seq (length cs) _) as [|i l IH]; [done|]. cbn. exact IH.
Qed.

(** Making the vector longer changes nothing else. *)
Lemma grow_inv m n :
  io_inv m -> Z.of_nat (length (m_fdContexts m)) <= n ->
  let m' := set_contexts m (contextResize (m_fdContexts m) n) in
  io_inv m' /\ regs m' = regs m /\ forall fd, 0 <= fd < n -> is_Some (context_at m' fd).
Proof.
  intros I Hn m'. pose proof I as [I0 I1 I2 I3].
  assert (Hlk : forall i, (length (m_fdContexts m) <= i < Z.to_nat n)%nat ->
    contextResize (m_fdContexts m) n !! i =
      Some (mkFC (Z.of_nat i) NONE FdContext_resetContext FdContext_resetContext)).
  { intros i Hi. unfold contextResize. rewrite take_ge, lookup_app_r by lia. rewrite list_lookup_fmap.
    rewrite lookup_seq_lt by lia. cbn. repeat f_equal. lia. }
  assert (Hold : forall i, (i < length (m_fdContexts m))%nat -> contextResize (m_fdContexts m) n !! i = m_fdContexts m !! i).
  { intros i Hi. unfold contextResize. rewrite take_ge, lookup_app_l by lia. done. }
  assert (Hlen : length (contextResize (m_fdContexts m) n) = Z.to_nat n).
  { unfold contextResize. lens. }
  assert (Hreg : regs m' = regs m) by (unfold regs, m'; cbn; apply resize_bind; lia).
  split_and!; [|done|].
  2: { intros fd Hfd. unfold context_at. destruct (Z.ltb_spec fd 0); [lia|]. apply lookup_lt_is_Some. unfold m'. cbn. lia. }
  subst m'. constructor; cbn [set_contexts m_fdContexts m_pendingEventCount m_epfd].
  - lia.
  - intros i c Hc. destruct (Nat.lt_ge_cases i (length (m_fdContexts m))) as [Hi|Hi].
    + apply I1. by rewrite <- Hold.
    + rewrite Hlk in Hc by (split; [done|]; apply lookup_lt_Some in Hc; lia). injection Hc as <-.
      split; [done|]. by exists false, false.
  - rewrite Hreg. done.
  - intros x Hx. rewrite (I3 x Hx). unfold context_at. cbn. destruct (Z.ltb_spec x 0); [done|].
    destruct (Nat.lt_ge_cases (Z.to_nat x) (length (m_fdContexts m))) as [Hi|Hi]; [by rewrite Hold|].
    rewrite (lookup_ge_None_2 (m_fdContexts m)) by lia.
    destruct (Nat.lt_ge_cases (Z.to_nat x) (Z.to_nat n)); [by rewrite Hlk by lia|].
    rewrite lookup_ge_None_2 by lia. done.
Qed.

(** [fd * 1.5] is enough: the vector starts with 32 entries. *)
Lemma prepare_spec m fd :
  io_inv m -> 0 <= fd ->
  exists c, context_at (addEvent_prepare m fd) fd = Some c /\ io_inv (addEvent_prepare m fd) /\
    regs (addEvent_prepare m fd) = regs m /\ m_epfd (addEvent_prepare m fd) = m_epfd m.
Proof.
  intros I H0. pose proof (io_len _ I) as I0. unfold addEvent_prepare.
  destruct (Z.ltb_spec fd (Z.of_nat (length (m_fdContexts m)))) as [Hlt|Hge].
  { destruct (lookup_lt_is_Some_2 (m_fdContexts m) (Z.to_nat fd)) as [c Hc]; [lia|].
    exists c. unfold context_at. destruct (Z.ltb_spec fd 0); [lia|]. done. }
  assert (Hn : fd < fd * 3 / 2) by (Z.to_euclidean_division_equations; lia).
  destruct (grow_inv m (fd * 3 / 2) I) as (I' & Hr & Hc); [lia|].
  destruct (Hc fd) as [c Hfd]; [lia|]. by exists c.
Qed.

(** The task [addEvent] registers. *)
Definition event_task (s : Z) (cb : option Z) (cur : Z) : Z * FiberAndThread :=
  (s, match cb with Some f => mkFT None (Some f) (-1) | None => mkFT (Some cur) None (-1) end).

Lemma add_context_ok fd c event s cb cur :
  fc_ok fd c -> is_event event -> nonzero (Z.land (fc_events c) event) = false ->
  let c1 := with_events c (Z.lor (fc_events c) event) in
  let x := match cb with Some f => mkEC (Some s) None (Some f) | None => mkEC (Some s) (Some cur) None end in
  FdContext_getContext c1 event = Ok FdContext_resetContext /\
  fc_ok fd (put_context c1 event x) /\ fc_events (put_context c1 event x) = Z.lor (fc_events c) event /\
  nonzero (Z.lor (fc_events c) event) = true /\
  fc_tasks (put_context c1 event x) ≡ₚ event_task s cb cur :: fc_tasks c.
Proof.
  intros (Hfd & r & w & He & Hr & Hw) Hev Hbit c1 x. subst c1 x.
  destruct c as [cfd ce cr cw]. cbn in Hfd, He, Hr, Hw. subst.
  destruct Hev as [->| ->]; cbn in Hbit |- *.
  - destruct r; [by destruct w|]. cbn in Hr. subst cr. split_and!; try done.
    + split; [done|]. exists true, w. split_and!; [by destruct w| |by destruct cb].
      destruct cb; (split; [by eexists|]); [left|right]; by split; try eexists.
    + by destruct w.
    + unfold fc_tasks. destruct cb; cbn; done.
  - destruct w; [by destruct r|]. cbn in Hw. subst cw. split_and!; try done.
    + split; [done|]. exists r, true. split_and!; [by destruct r|by destruct cb|].
      destruct cb; (split; [by eexists|]); [left|right]; by split; try eexists.
    + by destruct r.
    + unfold fc_tasks. destruct cb; cbn; solve_Permutation.
Qed.

Lemma addEvent_spec m fd event cb s cur st c :
  io_inv m -> 0 <= fd -> fd <> tfd -> is_event event -> (cb = None -> st = EXEC) ->
  context_at (addEvent_prepare m fd) fd = Some c ->
  if nonzero (Z.land (fc_events c) event)
  then IOManager_addEvent m fd event cb (Some s) cur st = AssertFail
  else exists r m', IOManager_addEvent m fd event cb (Some s) cur st = Ok (r, m') /\ io_inv m' /\
    (r = 0 /\ regs m' ≡ₚ event_task s cb cur :: regs m \/ r = -1 /\ regs m' = regs m).
Proof.
  intros I H0 Hfd Hev Hst Hc. destruct (prepare_spec m fd I H0) as (c' & Hc' & I1 & Hreg & Hep).
  unfold IOManager_addEvent. rewrite Hc. cbn [deref].
  destruct (nonzero (Z.land (fc_events c) event)) eqn:Hbit; cbn [negb assertb]; [done|].
  destruct (context_at_ok _ _ _ I1 Hc) as [_ Hok].
  destruct (add_context_ok fd c event s cb cur Hok Hev Hbit) as (Hg & Hok1 & He1 & Hnz & Hp1).
  destruct (epoll_ctl _ _ fd _) as [ok k] eqn:E. destruct ok; cbn [negb].
  2: { destruct (failed_inv _ _ _ _ _ I1 E) as [I' Hr]. eexists _, _. split; [reflexivity|]. split; [done|].
       right. split; [done|]. by rewrite Hr. }
  rewrite Hg. cbn [obind FdContext_resetContext ec_scheduler ec_fiber ec_cb non_null negb andb assertb].
  apply ctl_ok in E as (_ & Hint & Hoth).
  destruct (put_inv (addEvent_prepare m fd) fd c (put_context (with_events c (Z.lor (fc_events c) event)) event
     (match cb with Some f => mkEC (Some s) None (Some f) | None => mkEC (Some s) (Some cur) None end)) k 1 I1 Hfd Hc Hok1)
    as [I' Hp].
  - apply Permutation_length in Hp1. rewrite Hp1. cbn. lia.
  - unfold watched. rewrite He1, Hnz, Hint. rewrite <- Z.lor_assoc. by destruct (nonzero (fc_events c)).
  - done.
  - rewrite Hp1 in Hp. rewrite Hreg in Hp.
    assert (Hregs : forall m', fc_tasks c ++ regs m' ≡ₚ (event_task s cb cur :: fc_tasks c) ++ regs m ->
      regs m' ≡ₚ event_task s cb cur :: regs m).
    { intros m' Hm. apply (Permutation_app_inv_l (fc_tasks c)). rewrite Hm. solve_Permutation. }
    destruct cb as [f|].
    + eexists _, _. split; [reflexivity|]. split; [exact I'|]. left. split; [done|]. by apply Hregs.
    + rewrite (Hst eq_refl). cbn [state_eqb bool_decide assertb]. eexists _, _. split; [reflexivity|]. split; [exact I'|].
      left. split; [done|]. by apply Hregs.
Qed.

(** What [epoll_wait] may report when no other thread changed the interest list
    since: events that are asked for, and errors. *)
Definition fresh m (e : ready) : Prop :=
  match e with
  | Tickled => True
  | Ready fd ev => fd <> tfd /\ exists i, interest (m_epfd m) fd = Some i /\
      (nonzero (Z.land ev EPOLLIN) = true -> nonzero (Z.land i EPOLLIN) = true) /\
      (nonzero (Z.land ev EPOLLOUT) = true -> nonzero (Z.land i EPOLLOUT) = true)
  end.

(** Whether an event of a descriptor wakes the reader, or the writer. *)
Definition wakes (ev bit : Z) : bool :=
  nonzero (Z.land ev bit) || nonzero (Z.land ev (Z.lor EPOLLERR EPOLLHUP)).

(** Whether the loop takes a report to concern an event: it is in the report,
    or the report is an error and the event is registered. *)
Definition seen (registered : bool) (ev bit : Z) : bool :=
  nonzero (Z.land ev bit) || nonzero (Z.land ev (Z.lor EPOLLERR EPOLLHUP)) && registered.

(** A torn report concerns both events while exactly one of them is registered
    by the time the loop has the lock: the other was removed since. *)
Definition torn (c : FdContext) (ev : Z) : bool :=
  let r := nonzero (Z.land (fc_events c) READ) in
  let w := nonzero (Z.land (fc_events c) WRITE) in
  xorb r w && seen r ev EPOLLIN && seen w ev EPOLLOUT.

(** The reports the loop can take, fresh or out of date. *)
Definition takes m (e : ready) : Prop :=
  match e with
  | Tickled => True
  | Ready fd ev => fd <> tfd /\ exists c, context_at m fd = Some c /\ torn c ev = false
  end.

Lemma fresh_context m fd ev :
  io_inv m -> fresh m (Ready fd ev) ->
  exists c r w, context_at m fd = Some c /\ fc_fd c = fd /\ fc_events c = mask r w /\
    (nonzero (Z.land ev EPOLLIN) = true -> r = true) /\ (nonzero (Z.land ev EPOLLOUT) = true -> w = true).
Proof.
  intros I (Hfd & i & Hi & H1 & H2). rewrite (io_epoll _ I _ Hfd) in Hi.
  destruct (context_at m fd) as [c|] eqn:Hc; [|done]. cbn in Hi.
  destruct (context_at_ok _ _ _ I Hc) as [_ (Hcfd & r & w & He & _)].
  exists c, r, w. split_and!; try done; unfold watched in Hi; rewrite He in Hi;
    destruct (nonzero (mask r w)); try done; injection Hi as <-.
  - intros Hx. specialize (H1 Hx). by destruct r, w.
  - intros Hx. specialize (H2 Hx). by destruct r, w.
Qed.

Lemma land_lor_bit (ev x b : Z) : nonzero (Z.land (Z.lor ev x) b) = nonzero (Z.land ev b) || nonzero (Z.land x b).
Proof.
  rewrite Z.land_lor_distr_l. unfold nonzero.
  destruct (Z.eqb_spec (Z.lor (Z.land ev b) (Z.land x b)) 0) as [E|E]; rewrite Z.lor_eq_0_iff in E.
  - destruct E as [-> ->]. done.
  - destruct (Z.eqb_spec (Z.land ev b) 0), (Z.eqb_spec (Z.land x b) 0); cbn; tauto || done.
Qed.

(** The events [idle] sees, as the reader's and the writer's part. *)
Lemma real_events_seen ev r w :
  let ev1 := if nonzero (Z.land ev (Z.lor EPOLLERR EPOLLHUP))
             then Z.lor ev (Z.land (Z.lor EPOLLIN EPOLLOUT) (mask r w)) else ev in
  Z.lor (if nonzero (Z.land ev1 EPOLLIN) then READ else 0) (if nonzero (Z.land ev1 EPOLLOUT) then WRITE else 0) =
  mask (seen r ev EPOLLIN) (seen w ev EPOLLOUT).
Proof.
  intros ev1. unfold seen, mask. subst ev1.
  destruct (nonzero (Z.land ev (Z.lor EPOLLERR EPOLLHUP))); [|by rewrite !orb_false_r].
  rewrite !land_lor_bit.
  replace (nonzero (Z.land (Z.land (Z.lor EPOLLIN EPOLLOUT) (mask r w)) EPOLLIN)) with r by (by destruct r, w).
  replace (nonzero (Z.land (Z.land (Z.lor EPOLLIN EPOLLOUT) (mask r w)) EPOLLOUT)) with w by (by destruct r, w).
  done.
Qed.

Lemma seen_fresh (r : bool) ev bit : (nonzero (Z.land ev bit) = true -> r = true) -> seen r ev bit = r && wakes ev bit.
Proof.
  unfold seen, wakes. destruct (nonzero (Z.land ev bit)); [intros ->; done|]. intros _. by destruct r, (nonzero _).
Qed.

Lemma torn_mask c ev r w :
  fc_events c = mask r w -> torn c ev = xorb r w && seen r ev EPOLLIN && seen w ev EPOLLOUT.
Proof. intros He. unfold torn. rewrite He. by destruct r, w. Qed.

Lemma fresh_takes m e : io_inv m -> fresh m e -> takes m e.
Proof.
  intros I F. destruct e as [|fd ev]; [done|].
  destruct (fresh_context m fd ev I F) as (c & r & w & Hc & Hcfd & He & H1 & H2). destruct F as (Hfd & _).
  split; [done|]. exists c. split; [done|]. rewrite (torn_mask _ _ _ _ He), !seen_fresh by done. by destruct r, w, (wakes ev EPOLLIN).
Qed.

(** What is posted is what was registered. *)
Lemma trigger_if_out m m' sel c c' event out :
  trigger_if m sel c event = Ok (out, c', m') ->
  forall x, FdContext_getContext c event = Ok x -> (sel = true -> is_Some (ec_scheduler x)) ->
  out = (if sel then ec_task x else []) /\ (event = READ -> fc_write c' = fc_write c).
Proof.
  unfold trigger_if. destruct sel; [|by intros [= <- <- _]].
  unfold FdContext_triggerEvent. destruct (negb _); cbn [assertb]; [|done].
  intros E x Hx Hs. destruct (Hs eq_refl) as [s Hs'].
  assert (Hg : FdContext_getContext (with_events c (Z.land (fc_events c) (Z.lnot event))) event = Ok x)
    by (revert Hx; unfold FdContext_getContext; cbn; done).
  rewrite Hg in E. cbn [obind] in E. unfold ec_task. destruct x as [xs xf xc]. cbn in *. subst xs.
  destruct xc as [cb|], xf as [f|]; cbn in E; injection E as <- <- _; (split; [done|]); intros ->; done.
Qed.

Lemma trigger_if_epfd m m' sel c c' event out :
  trigger_if m sel c event = Ok (out, c', m') -> m_epfd m' = m_epfd m.
Proof.
  unfold trigger_if. destruct sel; [|by intros [= _ _ <-]].
  destruct (FdContext_triggerEvent c event) as [[]| | | |]; cbn; try done. by intros [= _ _ <-].
Qed.

Lemma trigger_if_contexts m m' sel c c' event out :
  trigger_if m sel c event = Ok (out, c', m') -> forall x, context_at m' x = context_at m x.
Proof.
  unfold trigger_if. destruct sel; [|by intros [= _ _ <-]].
  destruct (FdContext_triggerEvent c event) as [[]| | | |]; cbn; try done. by intros [= _ _ <-].
Qed.

Lemma context_at_put m fd c x : 0 <= fd -> x <> fd -> context_at (put_ctx m fd c) x = context_at m x.
Proof.
  intros H0 Hx. unfold context_at. destruct (Z.ltb_spec x 0); [done|]. cbn. by rewrite list_lookup_insert_ne by lia.
Qed.

Lemma handle_ready_spec m e :
  io_inv m -> takes m e ->
  exists out m', handle_ready m e = Ok (out, m') /\ io_inv m' /\ regs m ≡ₚ out ++ regs m' /\
    (forall x, (forall ev, e <> Ready x ev) ->
       interest (m_epfd m') x = interest (m_epfd m) x /\ context_at m' x = context_at m x).
Proof.
  intros I F. destruct e as [|fd ev]; [by exists [], m|]. destruct F as (Hfd & c & Hc & Ht).
  destruct (context_at_ok _ _ _ I Hc) as [_ (Hcfd & r & w & He & _)]. rewrite (torn_mask _ _ _ _ He) in Ht.
  cbn [handle_ready]. rewrite Hc. cbn [deref]. rewrite He, real_events_seen, Hcfd.
  set (sr := seen r ev EPOLLIN) in *. set (sw := seen w ev EPOLLOUT) in *.
  destruct (Z.eqb_spec (Z.land (mask r w) (mask sr sw)) NONE) as [|Hn]; [by exists [], m|].
  assert (Hsr : sr = true -> r = true) by (intros ->; by destruct r, w, sw).
  assert (Hsw : sw = true -> w = true) by (intros ->; by destruct r, w, sr).
  replace (Z.land (mask r w) (Z.lnot (mask sr sw))) with (mask (r && negb sr) (w && negb sw)) by (by destruct r, w, sr, sw).
  destruct (epoll_ctl (m_epfd m) _ fd _) as [ok k] eqn:E. destruct ok; cbn [negb].
  2: { destruct (failed_inv _ _ _ _ _ I E) as [I' Hr]. exists [], (set_epoll m k). rewrite Hr. split_and!; try done.
       intros x _. split; [apply (ctl_failed _ _ _ _ _ E)|done]. }
  destruct (ctl_left _ _ _ _ _ I Hfd Hc E) as [Hint Hoth].
  destruct (trigger_both m fd c r w sr sw k I Hfd Hc He Hsr Hsw Hint Hoth) as
    (out1 & c1 & m1 & out2 & c2 & m2 & E1 & E2 & _ & _ & I' & Hp & _ & _).
  replace (nonzero (Z.land (mask sr sw) READ)) with sr by (by destruct sr, sw).
  replace (nonzero (Z.land (mask sr sw) WRITE)) with sw by (by destruct sr, sw).
  rewrite E1. cbn [obind]. rewrite E2. cbn [obind]. eexists _, _. split; [reflexivity|]. split_and!; [done..|].
  intros x Hx. assert (x <> fd) by (intros ->; by apply (Hx ev)).
  split; [cbn; rewrite (trigger_if_epfd _ _ _ _ _ _ _ E2), (trigger_if_epfd _ _ _ _ _ _ _ E1); by apply Hoth|].
  rewrite context_at_put by (by apply (context_at_ok _ _ _ I Hc) || done).
  rewrite (trigger_if_contexts _ _ _ _ _ _ _ E2), (trigger_if_contexts _ _ _ _ _ _ _ E1). done.
Qed.

(** A torn report aborts, unless epoll refuses the change of its interest first. *)
Lemma handle_ready_torn m fd ev c :
  io_inv m -> context_at m fd = Some c -> torn c ev = true ->
  handle_ready m (Ready fd ev) = AssertFail \/
  exists op ev' k, op <> EPOLL_CTL_ADD /\ epoll_ctl (m_epfd m) op fd ev' = (false, k) /\
    handle_ready m (Ready fd ev) = Ok ([], set_epoll m k).
Proof.
  intros I Hc Ht. destruct (context_at_ok _ _ _ I Hc) as [_ (Hcfd & r & w & He & Hr & Hw)].
  rewrite (torn_mask _ _ _ _ He) in Ht. cbn [handle_ready]. rewrite Hc. cbn [deref]. rewrite He, real_events_seen, Hcfd.
  destruct (seen r ev EPOLLIN); [|by destruct (xorb r w)].
  destruct (seen w ev EPOLLOUT); [|by destruct (xorb r w)].
  destruct r, w; try done; cbn [mask];
    match goal with |- context [epoll_ctl ?k ?op ?f ?e] => destruct (epoll_ctl k op f e) as [ok k'] eqn:E end;
    (destruct ok; cbn [negb]; [left|right; eexists _, _, _; split; [|by split]; done]).
  - destruct Hr as ([s Hs] & Hx).
    unfold trigger_if, FdContext_triggerEvent. rewrite He. cbn.
    destruct Hx as [[[cb Hcb] Hfb]|[Hcb [f Hfb]]]; rewrite Hcb, ?Hfb, ?Hs; cbn; rewrite ?Hs; cbn; rewrite ?He; done.
  - unfold trigger_if, FdContext_triggerEvent. rewrite He. done.
Qed.

(** Whatever the report, what returns keeps everything in order. *)
Lemma handle_ready_returns m e out m' :
  io_inv m -> (forall ev, e <> Ready tfd ev) -> handle_ready m e = Ok (out, m') ->
  io_inv m' /\ regs m ≡ₚ out ++ regs m'.
Proof.
  intros I Hne E.
  assert (takes m e \/ exists fd ev c, e = Ready fd ev /\ context_at m fd = Some c /\ torn c ev = true) as [T|(fd & ev & c & -> & Hc & Ht)].
  { destruct e as [|fd ev]; [by left|]. cbn in E. destruct (context_at m fd) as [c|] eqn:Hc; [|done].
    destruct (torn c ev) eqn:Ht; [right; by exists fd, ev, c|left]. split; [by intros ->; apply (Hne ev)|by exists c]. }
  - destruct (handle_ready_spec m e I T) as (o & m1 & E' & I' & Hp & _). rewrite E in E'. by injection E' as <- <-.
  - destruct (handle_ready_torn m fd ev c I Hc Ht) as [E'|(op & ev' & k & _ & Ek & E')]; rewrite E in E'; [done|].
    injection E' as -> ->. destruct (failed_inv _ _ _ _ _ I Ek) as [I' Hr]. by rewrite Hr.
Qed.

Definition ready_fds (es : list ready) : list Z :=
  omap (fun e => match e with Ready fd _ => Some fd | Tickled => None end) es.

(** [epoll_wait] reports a descriptor once. *)
Lemma handle_all_spec es : forall m,
  io_inv m -> Forall (takes m) es -> NoDup (ready_fds es) ->
  exists out m', handle_all m es = Ok (out, m') /\ io_inv m' /\ regs m ≡ₚ out ++ regs m'.
Proof.
  induction es as [|e es IH]; intros m I F Hnd; [by exists [], m|]. cbn.
  apply Forall_cons_1 in F as [F1 F2].
  destruct (handle_ready_spec m e I F1) as (out1 & m1 & -> & I1 & Hp1 & Hfr). cbn [obind].
  destruct (IH m1 I1) as (out2 & m2 & -> & I2 & Hp2).
  - rewrite Forall_forall in F2 |- *. intros [|fd ev] Hin; [done|].
    destruct (F2 _ Hin) as (Hfd & c & Hc & Hx). split; [done|]. exists c. split; [|done].
    destruct (Hfr fd) as [_ ->]; [|done]. intros ev' ->. cbn in Hnd. apply NoDup_cons in Hnd as [Hn _]. apply Hn.
    apply list_elem_of_omap. by exists (Ready fd ev).
  - destruct e; [done|]. by apply NoDup_cons in Hnd as [_ Hnd].
  - cbn [obind]. eexists _, _. split; [reflexivity|]. split; [done|]. rewrite Hp1, Hp2. solve_Permutation.
Qed.

(** The parts outside [m_epfd], [m_fdContexts] and the count play no role. *)
Lemma io_inv_timers m t : io_inv m -> io_inv (set_timers m t).
Proof. by intros []. Qed.
Lemma io_inv_sched m s : io_inv m -> io_inv (set_sched m s).
Proof. by intros []. Qed.
#[local] Hint Resolve io_inv_timers io_inv_sched : inv.

Lemma IOManager_new_inv s now k ids m :
  (forall x, interest k x = None) -> IOManager_new s now k tfd ids = Ok m ->
  io_inv m /\ regs m = [] /\ Timer.inv (io_timers m).
Proof.
  intros Hk. unfold IOManager_new. destruct (epoll_ctl k _ _ _) as [ok k'] eqn:E. destruct ok; [|done].
  cbn [assertb]. destruct (Scheduler_start s ids) as [b s']. intros [= <-].
  apply ctl_ok in E as (_ & _ & Hoth). split_and!; [|reflexivity|apply inv_new]. constructor.
  - vm_compute. lia.
  - intros i c Hc. cbn [m_fdContexts] in Hc. unfold contextResize in Hc. rewrite take_nil in Hc. cbn [length app] in Hc.
    rewrite list_lookup_fmap in Hc. destruct (seq 0 _ !! i) as [j|] eqn:Ej; [|done].
    apply lookup_seq in Ej as [-> _]. injection Hc as <-. split; [done|]. by exists false, false.
  - reflexivity.
  - intros fd Hfd. cbn [m_epfd]. rewrite Hoth, Hk by done. unfold context_at. destruct (fd <? 0); [done|].
    cbn [m_fdContexts]. unfold contextResize. rewrite take_nil. cbn [length app].
    rewrite list_lookup_fmap. by destruct (seq 0 _ !! _).
Qed.

(** ** Runs of the I/O manager

    The steps of all threads, in the order in which they take the locks, with the
    tasks registered so far, the tasks posted to schedulers so far and the number
    of successful [delEvent]s.  Callers pass a valid descriptor other than the
    pipe's, one event, and, without a function, the running fiber.  Epoll's
    reports may be out of date, a step whose assertion fails is not taken, and
    the vector may grow between a thread's look at its length and its lock, but
    does not shrink ([io_resize_race_loses_events]). *)
Inductive io_run : IOManager K -> posted -> posted -> nat -> Prop :=
| run_new s now k ids m :
    (forall x, interest k x = None) -> IOManager_new s now k tfd ids = Ok m -> io_run m [] [] 0
| run_add m a p d fd event cb s cur st r m' :
    io_run m a p d -> 0 <= fd -> fd <> tfd -> is_event event -> (cb = None -> st = EXEC) ->
    IOManager_addEvent m fd event cb (Some s) cur st = Ok (r, m') ->
    io_run m' (if r =? 0 then event_task s cb cur :: a else a) p d
| run_del m a p d fd event b m' :
    io_run m a p d -> 0 <= fd -> fd <> tfd -> is_event event ->
    IOManager_delEvent m fd event = Ok (b, m') -> io_run m' a p (if b then S d else d)
| run_cancel m a p d fd event b out m' :
    io_run m a p d -> 0 <= fd -> fd <> tfd -> is_event event ->
    IOManager_cancelEvent m fd event = Ok (b, out, m') -> io_run m' a (p ++ out) d
| run_cancelAll m a p d fd b out m' :
    io_run m a p d -> 0 <= fd -> fd <> tfd ->
    IOManager_cancelAll m fd = Ok (b, out, m') -> io_run m' a (p ++ out) d
| run_ready m a p d e out m' :
    io_run m a p d -> (forall ev, e <> Ready tfd ev) -> handle_ready m e = Ok (out, m') -> io_run m' a (p ++ out) d
| run_grow m a p d size :
    io_run m a p d -> Z.of_nat (length (m_fdContexts m)) <= size ->
    io_run (set_contexts m (contextResize (m_fdContexts m) size)) a p d
| run_timer m a p d f t :
    io_run m a p d -> tstep (io_timers m) f t -> io_run (set_timers m t) a p d
| run_sched m a p d s :
    io_run m a p d -> io_run (set_sched m s) a p d.

(** None of the operations touches the timers or the queue. *)
Lemma addEvent_timers m fd event cb s cur st r m' :
  IOManager_addEvent m fd event cb s cur st = Ok (r, m') -> io_timers m' = io_timers m.
Proof. unfold IOManager_addEvent, addEvent_prepare. outcome_cases. Qed.

Lemma delEvent_timers m fd event b m' :
  IOManager_delEvent m fd event = Ok (b, m') -> io_timers m' = io_timers m.
Proof. unfold IOManager_delEvent. outcome_cases. Qed.

Lemma cancelEvent_timers m fd event b out m' :
  IOManager_cancelEvent m fd event = Ok (b, out, m') -> io_timers m' = io_timers m.
Proof. unfold IOManager_cancelEvent. outcome_cases. Qed.

Lemma cancelAll_timers m fd b out m' :
  IOManager_cancelAll m fd = Ok (b, out, m') -> io_timers m' = io_timers m.
Proof. unfold IOManager_cancelAll, trigger_if. outcome_cases. Qed.

Lemma handle_ready_timers m e out m' :
  handle_ready m e = Ok (out, m') -> io_timers m' = io_timers m /\ io_sched m' = io_sched m.
Proof. unfold handle_ready, trigger_if. outcome_cases. Qed.

Lemma handle_all_sched es : forall m out m',
  handle_all m es = Ok (out, m') -> io_sched m' = io_sched m.
Proof.
  induction es as [|e es IH]; intros m out m'; cbn; [by intros [= _ <-]|].
  destruct (handle_ready m e) as [[o1 m1]| | | |] eqn:E1; cbn [obind]; try done.
  destruct (handle_all m1 es) as [[o2 m2]| | | |] eqn:E2; cbn [obind]; try done. intros [= _ <-].
  rewrite (IH _ _ _ E2). by apply handle_ready_timers in E1 as [_ ->].
Qed.

Lemma getNextTimer_previous t now w t' :
  TimerManager_getNextTimer t now = (w, t') -> m_previouseTime t' = m_previouseTime t.
Proof. unfold TimerManager_getNextTimer. outcome_cases. Qed.

(** Everything the steps preserve. *)
Lemma io_run_inv m a p d :
  io_run m a p d -> io_inv m /\ Timer.inv (io_timers m) /\
  exists dropped, length dropped = d /\ a ≡ₚ p ++ dropped ++ regs m.
Proof.
  induction 1 as [s now k ids m Hk E
    |m a p d fd event cb s cur st r m' _ (I & T & dr & Hd & Hp) H0 Hfd Hev Hst E
    |m a p d fd event b m' _ (I & T & dr & Hd & Hp) H0 Hfd Hev E
    |m a p d fd event b out m' _ (I & T & dr & Hd & Hp) H0 Hfd Hev E
    |m a p d fd b out m' _ (I & T & dr & Hd & Hp) H0 Hfd E
    |m a p d e out m' _ (I & T & dr & Hd & Hp) Hf E
    |m a p d size _ (I & T & dr & Hd & Hp) Hsz
    |m a p d f t _ (I & T & dr & Hd & Hp) Ht
    |m a p d s _ (I & T & dr & Hd & Hp)].
  - destruct (IOManager_new_inv _ _ _ _ _ Hk E) as (I & Hr & T). split_and!; [done..|]. exists []. by rewrite Hr.
  - destruct (prepare_spec m fd I H0) as (c & Hc & _).
    pose proof (addEvent_spec m fd event cb s cur st c I H0 Hfd Hev Hst Hc) as HA. rewrite E in HA.
    destruct (nonzero _); [done|]. destruct HA as (r' & m1 & [= <- <-] & I' & HA).
    rewrite (addEvent_timers _ _ _ _ _ _ _ _ _ E). split_and!; [done..|]. exists dr. split; [done|].
    destruct HA as [[-> ->]|[-> ->]]; cbn; rewrite Hp; [solve_Permutation|done].
  - destruct (delEvent_spec m fd event I H0 Hfd Hev) as (b' & m1 & E' & I' & HD). rewrite E in E'.
    injection E' as <- <-. rewrite (delEvent_timers _ _ _ _ _ E). split_and!; [done..|].
    destruct b; [|exists dr; by rewrite HD]. destruct HD as [x Hx]. exists (x :: dr).
    split; [cbn; lia|]. rewrite Hp, Hx. solve_Permutation.
  - destruct (cancelEvent_spec m fd event I H0 Hfd Hev) as (b' & o & m1 & E' & I' & HD & _). rewrite E in E'.
    injection E' as <- <- <-. rewrite (cancelEvent_timers _ _ _ _ _ _ E). split_and!; [done..|]. exists dr.
    split; [done|]. rewrite Hp, HD. solve_Permutation.
  - destruct (cancelAll_spec m fd I H0 Hfd) as (b' & o & m1 & E' & I' & HD). rewrite E in E'.
    injection E' as <- <- <-. rewrite (cancelAll_timers _ _ _ _ _ E). split_and!; [done..|]. exists dr.
    split; [done|]. rewrite Hp, HD. solve_Permutation.
  - destruct (handle_ready_returns m e out m' I Hf E) as [I' HD].
    destruct (handle_ready_timers _ _ _ _ E) as [-> _]. split_and!; [done..|]. exists dr.
    split; [done|]. rewrite Hp, HD. solve_Permutation.
  - destruct (grow_inv m size I Hsz) as (I' & Hr & _). split_and!; [done..|]. exists dr. by rewrite Hr.
  - destruct (tstep_effect _ _ _ T Ht) as [T' _]. split_and!; [by auto with inv|done|by exists dr].
  - split_and!; [by auto with inv|done|by exists dr].
Qed.

(** The queue after the callbacks of expired timers were scheduled. *)
Lemma schedule_loop_queue fts : forall s b,
  m_fibers (snd (schedule_loop s b fts)) =
  m_fibers s ++ map (fun ft => mkFT (ft_fiber ft) (ft_cb ft) (-1))
                    (List.filter (fun ft => non_null (ft_fiber ft) || non_null (ft_cb ft)) fts).
Proof.
  induction fts as [|ft fts IH]; intros s b; cbn; [by rewrite app_nil_r|].
  destruct (non_null (ft_fiber ft) || non_null (ft_cb ft)); rewrite IH; cbn; [|done].
  by rewrite <- app_assoc.
Qed.

Lemma idle_timeout_min n : 0 <= n < 2 ^ 31 -> idle_timeout n = Z.min n 3000.
Proof.
  intros Hn. unfold idle_timeout. replace (n =? U64_MAX) with false by (symmetry; apply Z.eqb_neq; unfold U64_MAX; lia).
  cbn [negb]. assert (i32 n = n) as -> by (apply swrap_small; lia).
  destruct (Z.ltb_spec 3000 n).
  - rewrite Z.min_r by lia. done.
  - rewrite Z.min_l by lia. apply swrap_small; lia.
Qed.

(** A turn of the loop, when epoll reports each descriptor once. *)
Lemma idle_spec code m now1 now2 a es :
  io_inv m -> Timer.inv (io_timers m) ->
  tm_heap (io_timers m) !! a = None -> Forall (takes m) es -> NoDup (ready_fds es) ->
  exists r m', IOManager_idle code m now1 now2 a es = Ok (r, m') /\
  match r with
  | None => fst (IOManager_stopping m now1) = true
  | Some (timeout, _, out) =>
    let next := fst (TimerManager_getNextTimer (io_timers m) now1) in
    fst (IOManager_stopping m now1) = false /\
    (0 <= next < 2 ^ 31 -> timeout = Z.min next 3000) /\ (next = U64_MAX -> timeout = 3000) /\
    m_fibers (io_sched m') = m_fibers (io_sched m) ++
      map (fun cb => mkFT None (Some (code cb)) (-1)) (omap (cb_at (tm_heap (io_timers m))) (expired_at (io_timers m) now2)) /\
    regs m ≡ₚ out ++ regs m'
  end.
Proof.
  intros I T Ha Hf Hnd. unfold IOManager_idle, IOManager_stopping, IOManager_stopping_timeout.
  pose proof (getNextTimer_spec (io_timers m) now1) as (Hh & Ht & _).
  destruct (TimerManager_getNextTimer (io_timers m) now1) as [next tm] eqn:En. cbn [fst snd] in Hh, Ht |- *.
  destruct (_ && Scheduler_stopping _) eqn:Es; [by eexists _, _|].
  assert (T1 : Timer.inv tm) by (destruct T; constructor; rewrite ?Hh, ?Ht; done).
  destruct (listExpiredCb_spec tm now2 a T1) as (tm2 & El & _); [by rewrite Hh|].
  cbn [set_timers io_timers]. rewrite El. cbn [obind].
  assert (Hexp : expired_at tm now2 = expired_at (io_timers m) now2).
  { unfold expired_at, TimerManager_detectClockRollover.
    assert (m_previouseTime tm = m_previouseTime (io_timers m)) as -> by (by apply getNextTimer_previous in En).
    by rewrite Hh, Ht. }
  rewrite Hh, Hexp. set (due := expired_at _ _).
  set (cbs := map (cb_at (tm_heap (io_timers m))) due).
  assert (Hq : forall b s, (if match cbs with [] => true | _ => false end then (false, io_sched m)
      else Scheduler_schedule_batch (io_sched m) (map (fun cb => mkFT None (code <$> cb) (-1)) cbs)) = (b, s) ->
      m_fibers s = m_fibers (io_sched m) ++
      map (fun cb => mkFT None (Some (code cb)) (-1)) (omap (cb_at (tm_heap (io_timers m))) due)).
  { intros b s E.
    assert (Hs : m_fibers s = m_fibers (snd (Scheduler_schedule_batch (io_sched m) (map (fun cb => mkFT None (code <$> cb) (-1)) cbs)))).
    { destruct cbs; [by injection E as _ <-|by rewrite E]. }
    rewrite Hs. unfold Scheduler_schedule_batch. rewrite schedule_loop_queue. f_equal. unfold cbs.
    clear. induction due as [|q l IH]; [done|]. cbn. destruct (cb_at _ q); cbn; by rewrite IH. }
  cbn [set_timers io_sched]. destruct (if match cbs with [] => true | _ => false end then _ else _) as [nt s] eqn:Eb.
  specialize (Hq _ _ eq_refl).
  destruct (handle_all_spec es (set_sched (set_timers (set_timers m tm) tm2) s)) as (out & m' & E & I' & Hp);
    [by auto with inv|done|done|].
  rewrite E. cbn [obind]. eexists _, _. split; [reflexivity|]. cbn. split_and!; try done.
  - apply idle_timeout_min.
  - intros ->. reflexivity.
  - rewrite (handle_all_sched _ _ _ _ E). exact Hq.
Qed.

(** C3: every task registered with [addEvent] is handed to its scheduler at most
    once and never lost: after any interleaving of [addEvent], [delEvent],
    [cancelEvent], [cancelAll], epoll reports (also ones that are out of date),
    growths of the vector of contexts and timer operations, in which no assertion
    fails and no thread makes the vector shorter, the tasks registered so far are,
    up to order, those posted, those dropped by a successful [delEvent] (one
    each) and those still waiting, and [m_pendingEventCount] is the number of the
    latter.  ([io_resize_race_loses_events]: a [contextResize] to a size chosen
    before another thread made the vector longer does lose tasks;
    [io_stale_report_aborts]: a report that is torn fails the assertion.) *)
Theorem io_events_conserved m added sent deleted :
  io_run m added sent deleted ->
  m_pendingEventCount m = Z.of_nat (length (regs m)) /\
  exists dropped, length dropped = deleted /\ added ≡ₚ sent ++ dropped ++ regs m.
Proof. intros H. destruct (io_run_inv _ _ _ _ H) as (I & _ & Hd). split; [apply I|done]. Qed.

(** C10: which operations of a reachable manager fail, for a descriptor that is
    not negative and not the pipe's and one event.  [addEvent] fails its assertion
    exactly when the event is registered already and returns otherwise;
    [delEvent], [cancelEvent] and [cancelAll] always return.  The loop body of
    [idle] returns whenever epoll reports each descriptor at most once and no
    report is torn, that is, none concerns both events of a descriptor of which
    just one is still registered; a torn report fails [triggerEvent]'s assertion,
    unless epoll refuses to change its interest. *)
Theorem io_never_fails m added sent deleted :
  io_run m added sent deleted ->
  (forall fd event cb s cur st, 0 <= fd -> fd <> tfd -> is_event event -> (cb = None -> st = EXEC) ->
     exists c, context_at (addEvent_prepare m fd) fd = Some c /\
     (IOManager_addEvent m fd event cb (Some s) cur st = AssertFail <-> nonzero (Z.land (fc_events c) event) = true) /\
     (nonzero (Z.land (fc_events c) event) = false ->
        exists r m', IOManager_addEvent m fd event cb (Some s) cur st = Ok (r, m'))) /\
  (forall fd event, 0 <= fd -> fd <> tfd -> is_event event ->
     (exists b m', IOManager_delEvent m fd event = Ok (b, m')) /\
     (exists b out m', IOManager_cancelEvent m fd event = Ok (b, out, m')) /\
     (exists b out m', IOManager_cancelAll m fd = Ok (b, out, m'))) /\
  (forall code now1 now2 a es, tm_heap (io_timers m) !! a = None -> Forall (takes m) es -> NoDup (ready_fds es) ->
     exists r m', IOManager_idle code m now1 now2 a es = Ok (r, m')) /\
  (forall fd ev c, context_at m fd = Some c -> torn c ev = true ->
     (forall op ev', op <> EPOLL_CTL_ADD -> fst (epoll_ctl (m_epfd m) op fd ev') = true) ->
     handle_ready m (Ready fd ev) = AssertFail).
Proof.
  intros H. destruct (io_run_inv _ _ _ _ H) as (I & T & _). split_and!.
  - intros fd event cb s cur st H0 Hfd Hev Hst. destruct (prepare_spec m fd I H0) as (c & Hc & _).
    exists c. pose proof (addEvent_spec m fd event cb s cur st c I H0 Hfd Hev Hst Hc) as HA.
    destruct (nonzero _); [done|]. destruct HA as (r & m' & E & _). rewrite E. split_and!; [done|done|by eauto].
  - intros fd event H0 Hfd Hev.
    destruct (delEvent_spec m fd event I H0 Hfd Hev) as (? & ? & ? & _).
    destruct (cancelEvent_spec m fd event I H0 Hfd Hev) as (? & ? & ? & ? & _).
    destruct (cancelAll_spec m fd I H0 Hfd) as (? & ? & ? & ? & _). split_and!; eauto.
  - intros code now1 now2 a es Ha Hf Hnd.
    destruct (idle_spec code m now1 now2 a es I T Ha Hf Hnd) as (r & m' & E & _). eauto.
  - intros fd ev c Hc Ht Hctl. destruct (handle_ready_torn m fd ev c I Hc Ht) as [?|(op & ev' & k & Hop & E & _)]; [done|].
    specialize (Hctl op ev' Hop). by rewrite E in Hctl.
Qed.

(** One turn of [idle]: unless the manager has stopped, it asks [epoll_wait]
    to sleep until the next timer but at most 3 seconds (when that timer is less
    than 2^31 ms away), queues the callbacks of the timers that are due behind
    what is queued, in order of expiry, and moves from the registered tasks
    exactly those it posts. *)
Lemma io_idle_turn m added sent deleted code now1 now2 a es :
  io_run m added sent deleted ->
  tm_heap (io_timers m) !! a = None -> Forall (takes m) es -> NoDup (ready_fds es) ->
  exists r m', IOManager_idle code m now1 now2 a es = Ok (r, m') /\
  match r with
  | None => fst (IOManager_stopping m now1) = true
  | Some (timeout, _, out) =>
    let next := fst (TimerManager_getNextTimer (io_timers m) now1) in
    fst (IOManager_stopping m now1) = false /\
    (0 <= next < 2 ^ 31 -> timeout = Z.min next 3000) /\ (next = U64_MAX -> timeout = 3000) /\
    m_fibers (io_sched m') = m_fibers (io_sched m) ++
      map (fun cb => mkFT None (Some (code cb)) (-1)) (omap (cb_at (tm_heap (io_timers m))) (expired_at (io_timers m) now2)) /\
    regs m ≡ₚ out ++ regs m'
  end.
Proof.
  intros H Ha Hf Hnd. destruct (io_run_inv _ _ _ _ H) as (I & T & _).
  by apply idle_spec.
Qed.

(** An epoll report wakes exactly the waiting tasks it is about: the reader
    when the descriptor is readable, the writer when it is writable, and whoever
    waits on an error or hang-up; nothing else of the descriptor is touched. *)
Lemma io_wakes_exactly m added sent deleted fd ev c :
  io_run m added sent deleted -> fresh m (Ready fd ev) -> context_at m fd = Some c ->
  (forall op ev', op <> EPOLL_CTL_ADD -> fst (epoll_ctl (m_epfd m) op fd ev') = true) ->
  exists m', handle_ready m (Ready fd ev) =
    Ok ((if wakes ev EPOLLIN then ec_task (fc_read c) else []) ++
        (if wakes ev EPOLLOUT then ec_task (fc_write c) else []), m').
Proof.
  intros H F Hc Hctl. destruct (io_run_inv _ _ _ _ H) as (I & _ & _).
  destruct (fresh_context m fd ev I F) as (c' & r & w & Hc' & Hcfd & He & H1 & H2). destruct F as (Hfd & _).
  rewrite Hc in Hc'. injection Hc' as <-.
  destruct (context_at_ok _ _ _ I Hc) as [_ (_ & r' & w' & He' & Hr & Hw)].
  assert (r' = r /\ w' = w) as [-> ->] by (rewrite He in He'; by destruct r, w, r', w').
  cbn [handle_ready]. rewrite Hc. cbn [deref]. rewrite He, real_events_seen, !seen_fresh, Hcfd by done.
  assert (Hsel : forall (b : bool) x sel, ec_ok b x -> (if b && sel then ec_task x else []) = if sel then ec_task x else []).
  { intros [] x sel Hx; [done|]. cbn in Hx. subst x. by destruct sel. }
  rewrite <- (Hsel r (fc_read c) _ Hr), <- (Hsel w (fc_write c) _ Hw).
  set (sr := r && wakes ev EPOLLIN). set (sw := w && wakes ev EPOLLOUT).
  assert (Hsr : sr = true -> r = true) by (unfold sr; by destruct r).
  assert (Hsw : sw = true -> w = true) by (unfold sw; by destruct w).
  destruct (Z.eqb_spec (Z.land (mask r w) (mask sr sw)) NONE) as [Hn|Hn].
  { exists m. destruct sr; [rewrite Hsr in Hn by done; by destruct w, sw|].
    destruct sw; [rewrite Hsw in Hn by done; by destruct r|done]. }
  replace (Z.land (mask r w) (Z.lnot (mask sr sw))) with (mask (r && negb sr) (w && negb sw)) by (by destruct r, w, sr, sw).
  destruct (epoll_ctl (m_epfd m) _ fd _) as [ok k] eqn:E.
  assert (ok = true) as ->.
  { change ok with (fst (ok, k)). rewrite <- E. apply Hctl. by destruct (nonzero (mask _ _)). }
  cbn [negb]. destruct (ctl_left _ _ _ _ _ I Hfd Hc E) as [Hint Hoth].
  destruct (trigger_both m fd c r w sr sw k I Hfd Hc He Hsr Hsw Hint Hoth) as
    (out1 & c1 & m1 & out2 & c2 & m2 & E1 & E2 & _).
  replace (nonzero (Z.land (mask sr sw) READ)) with sr by (by destruct sr, sw).
  replace (nonzero (Z.land (mask sr sw) WRITE)) with sw by (by destruct sr, sw).
  rewrite E1. cbn [obind]. rewrite E2. cbn [obind]. eexists. do 2 f_equal.
  destruct (trigger_if_out _ _ _ _ _ _ _ E1 (fc_read c) eq_refl) as [-> Hwr].
  { intros Hs. rewrite (Hsr Hs) in Hr. apply Hr. }
  specialize (Hwr eq_refl).
  destruct (trigger_if_out _ _ _ _ _ _ _ E2 (fc_write c1) eq_refl) as [-> _].
  { intros Hs. rewrite (Hsw Hs) in Hw. rewrite Hwr. apply Hw. }
  by rewrite Hwr.
Qed.

(** [stopping()] answers [true] only when nothing is left to do: no timer, no
    registered event, no queued task and no active thread; and it does answer
    [true] then, once [stop()] was called. *)
Lemma io_stopping_quiescent m added sent deleted now :
  io_run m added sent deleted ->
  (forall p, p ∈ m_timers (io_timers m) -> next_at (tm_heap (io_timers m)) p < now + U64_MAX) ->
  fst (IOManager_stopping m now) = true <->
  m_timers (io_timers m) = [] /\ regs m = [] /\ m_fibers (io_sched m) = [] /\
  m_activeThreadCount (io_sched m) = 0 /\ m_autoStop (io_sched m) = true /\ m_stopping (io_sched m) = true.
Proof.
  intros H Hlt. destruct (io_run_inv _ _ _ _ H) as (I & _ & _).
  assert (Hn : fst (TimerManager_getNextTimer (io_timers m) now) = U64_MAX <-> m_timers (io_timers m) = []).
  { unfold TimerManager_getNextTimer. cbn [with_tickled m_timers tm_heap].
    destruct (m_timers (io_timers m)) as [|q l]; [done|]. specialize (Hlt q ltac:(left)).
    split; [|done]. destruct (_ <=? now); cbn; unfold U64_MAX in *; [done|lia]. }
  assert (Hc : m_pendingEventCount m = 0 <-> regs m = []).
  { rewrite (io_count _ I). destruct (regs m); cbn; [done|]. split; [lia|done]. }
  unfold IOManager_stopping, IOManager_stopping_timeout.
  destruct (TimerManager_getNextTimer (io_timers m) now) as [w t]. cbn in Hn |- *.
  unfold Scheduler_stopping. rewrite !andb_true_iff, !Z.eqb_eq, Hn, Hc.
  destruct (m_fibers (io_sched m)); naive_solver.
Qed.

End invariant.

#[export] Hint Resolve io_inv_timers io_inv_sched : inv.

(** ** An epoll instance *)

(** The interest list as a map; no call fails for want of memory. *)
#[global] Instance gmap_epoll : EpollOps (gmap Z Z) := fun k op fd ev =>
  match op, k !! fd with
  | EPOLL_CTL_ADD, None => (true, <[fd := ev]> k)
  | EPOLL_CTL_MOD, Some _ => (true, <[fd := ev]> k)
  | EPOLL_CTL_DEL, Some _ => (true, delete fd k)
  | _, _ => (false, k)
  end.

#[global] Instance gmap_epoll_spec : EpollSpec (gmap Z Z).
Proof.
  refine {| interest := fun k fd => k !! fd |}; intros k op fd ev k'; unfold epoll_ctl, gmap_epoll.
  - destruct op, (k !! fd); by intros [= <-].
  - destruct op, (k !! fd) eqn:E; intros [= <-]; rewrite ?E; split_and!; try done; try (by eexists);
      try apply lookup_insert_eq; try apply lookup_delete_eq; intros x Hx;
      by rewrite ?lookup_insert_ne, ?lookup_delete_ne by done.
Defined.

(** ** Examples *)

Definition demo_sched : Scheduler := mkScheduler 2 [] 0 1 None (-1) true false [].

(** The state an operation leaves behind. *)
Definition io_after {A} (o : outcome (A * IOManager (gmap Z Z))) : IOManager (gmap Z Z) :=
  match o with Ok (_, m) => m | _ => mkIOM demo_sched (TimerManager_new 0) ∅ 0 [] end.

(** A manager whose pipe is descriptor 3; a function 7 waits to read descriptor
    40, and fiber 9 to write to it. *)
Definition io_demo0 : IOManager (gmap Z Z) :=
  io_after (let! m := IOManager_new demo_sched 0 (∅ : gmap Z Z) 3 [11; 12] in Ok (tt, m)).
Definition io_demo1 : IOManager (gmap Z Z) := io_after (IOManager_addEvent io_demo0 40 READ (Some 7) (Some 1) 8 EXEC).
Definition io_demo_state : IOManager (gmap Z Z) := io_after (IOManager_addEvent io_demo1 40 WRITE None (Some 1) 9 EXEC).

Definition read7 : Z * FiberAndThread := (1, mkFT None (Some 7) (-1)).
Definition write9 : Z * FiberAndThread := (1, mkFT (Some 9) None (-1)).

Lemma io_demo0_run : io_run 3 io_demo0 [] [] 0.
Proof. apply (run_new 3 demo_sched 0 ∅ [11; 12]); [done|vm_compute; reflexivity]. Qed.

Lemma io_demo_run : io_run 3 io_demo_state [write9; read7] [] 0.
Proof.
  apply (run_add 3 io_demo1 [read7] [] 0 40 WRITE None 1 9 EXEC 0); [|lia|lia|by right|done|vm_compute; reflexivity].
  apply (run_add 3 io_demo0 [] [] 0 40 READ (Some 7) 1 8 EXEC 0); [|lia|lia|by left|done|vm_compute; reflexivity].
  exact io_demo0_run.
Qed.

Lemma io_demo_fresh : fresh 3 io_demo_state (Ready 40 EPOLLIN).
Proof. split; [lia|]. eexists. split; [vm_compute; reflexivity|]. by vm_compute. Qed.

(** The same report, and an error of a descriptor for which nobody waits any more. *)
Lemma io_demo_takes : Forall (takes 3 io_demo_state) [Ready 40 EPOLLIN; Ready 41 EPOLLERR].
Proof. repeat constructor; try lia; eexists; split; vm_compute; reflexivity. Qed.

Lemma io_events_conserved_witness :
  m_pendingEventCount io_demo_state = Z.of_nat (length (regs io_demo_state)) /\
  exists dropped, length dropped = 0%nat /\ [write9; read7] ≡ₚ [] ++ dropped ++ regs io_demo_state.
Proof. exact (io_events_conserved 3 io_demo_state _ _ _ io_demo_run). Defined.

Definition io_demo_torn : IOManager (gmap Z Z) := io_after (IOManager_cancelEvent io_demo_state 40 WRITE).

Lemma io_demo_torn_run : io_run 3 io_demo_torn [write9; read7] [write9] 0.
Proof.
  apply (run_cancel 3 io_demo_state [write9; read7] [] 0 40 WRITE true [write9]);
    [exact io_demo_run|lia|lia|by right|vm_compute; reflexivity].
Qed.

Lemma io_never_fails_witness :
  (exists b m', IOManager_delEvent io_demo_state 40 READ = Ok (b, m')) /\
  (exists r m', IOManager_idle (fun _ => 0) io_demo_state 0 0 64 [Ready 40 EPOLLIN; Ready 41 EPOLLERR] = Ok (r, m')) /\
  handle_ready io_demo_torn (Ready 40 (Z.lor EPOLLIN EPOLLOUT)) = AssertFail.
Proof.
  destruct (io_never_fails 3 io_demo_state _ _ _ io_demo_run) as (_ & H1 & H2 & _). split_and!.
  - apply H1; [lia|lia|by left].
  - apply H2; [reflexivity|exact io_demo_takes|vm_compute; repeat constructor; set_solver].
  - destruct (io_never_fails 3 io_demo_torn _ _ _ io_demo_torn_run) as (_ & _ & _ & H3).
    eapply H3; [vm_compute; reflexivity|vm_compute; reflexivity|].
    intros [] ev' Hop; [done|vm_compute; reflexivity..].
Defined.

Lemma io_idle_turn_witness :
  exists r m', IOManager_idle (fun _ => 0) io_demo_state 0 0 64 [Ready 40 EPOLLIN] = Ok (r, m') /\
  match r with
  | None => fst (IOManager_stopping io_demo_state 0) = true
  | Some (timeout, _, out) =>
    let next := fst (TimerManager_getNextTimer (io_timers io_demo_state) 0) in
    fst (IOManager_stopping io_demo_state 0) = false /\
    (0 <= next < 2 ^ 31 -> timeout = Z.min next 3000) /\ (next = U64_MAX -> timeout = 3000) /\
    m_fibers (io_sched m') = m_fibers (io_sched io_demo_state) ++
      map (fun cb => mkFT None (Some 0) (-1))
        (omap (cb_at (tm_heap (io_timers io_demo_state))) (expired_at (io_timers io_demo_state) 0)) /\
    regs io_demo_state ≡ₚ out ++ regs m'
  end.
Proof.
  apply (io_idle_turn 3 io_demo_state _ _ _ (fun _ => 0) 0 0 64 [Ready 40 EPOLLIN] io_demo_run);
    [reflexivity|constructor; [exact (Forall_inv io_demo_takes)|constructor]|vm_compute; repeat constructor; set_solver].
Defined.

Lemma io_wakes_exactly_witness :
  exists m', handle_ready io_demo_state (Ready 40 EPOLLIN) = Ok ([read7], m').
Proof.
  assert (Hc : exists c, context_at io_demo_state 40 = Some c /\ ec_task (fc_read c) = [read7])
    by (eexists; split; vm_compute; reflexivity).
  destruct Hc as (c & Hc & Ht).
  pose proof (io_wakes_exactly 3 io_demo_state _ _ _ 40 EPOLLIN c io_demo_run io_demo_fresh Hc) as H.
  cbn [wakes] in H. rewrite Ht in H. apply H. intros [] ev' Hop; [done|vm_compute; reflexivity..].
Defined.

Lemma io_stopping_quiescent_witness :
  fst (IOManager_stopping io_demo_state 5) = true <->
  m_timers (io_timers io_demo_state) = [] /\ regs io_demo_state = [] /\ m_fibers (io_sched io_demo_state) = [] /\
  m_activeThreadCount (io_sched io_demo_state) = 0 /\ m_autoStop (io_sched io_demo_state) = true /\
  m_stopping (io_sched io_demo_state) = true.
Proof.
  apply (io_stopping_quiescent 3 io_demo_state _ _ _ 5 io_demo_run).
  intros p Hp. vm_compute in Hp. by apply not_elem_of_nil in Hp.
Defined.

(** ** Where the code departs from its intent *)

(** The cut at three seconds compares [next_timeout] as an [int]: a next timer
    between 2^31 and 2^32 ms away gives [epoll_wait] a negative timeout, which
    means to wait for ever. *)
Lemma idle_timeout_wraps next : 2 ^ 31 <= next < 2 ^ 32 -> idle_timeout next < 0.
Proof.
  intros Hn. unfold idle_timeout. replace (next =? U64_MAX) with false by (symmetry; apply Z.eqb_neq; unfold U64_MAX; lia).
  cbn [negb]. assert (E : i32 next = next - 2 ^ 32).
  { unfold swrap. change (32 - 1) with 31. rewrite Z.mod_small by lia. destruct (Z.ltb_spec next (2 ^ 31)); lia. }
  rewrite E. destruct (Z.ltb_spec 3000 (next - 2 ^ 32)); [lia|]. rewrite E. lia.
Qed.

Lemma idle_timeout_wraps_witness : idle_timeout (2 ^ 31) < 0.
Proof. apply (idle_timeout_wraps (2 ^ 31)). lia. Defined.

(** A report that is out of date aborts the program.  Epoll says that
    descriptor 40 is readable and writable; before the loop takes the context's
    lock another thread cancels the write event, with success; the loop then
    triggers [WRITE] as well, without looking whether it is still registered. *)
Lemma io_stale_report_aborts :
  fresh 3 io_demo_state (Ready 40 (Z.lor EPOLLIN EPOLLOUT)) /\
  exists m, IOManager_cancelEvent io_demo_state 40 WRITE = Ok (true, [write9], m) /\
            handle_ready m (Ready 40 (Z.lor EPOLLIN EPOLLOUT)) = AssertFail.
Proof.
  split; [split; [lia|]; eexists; split; [vm_compute; reflexivity|]; by vm_compute|].
  exists (io_after (IOManager_cancelEvent io_demo_state 40 WRITE)). split; vm_compute; reflexivity.
Qed.

Definition io_demo_race : IOManager (gmap Z Z) := io_after (IOManager_addEvent io_demo0 100 READ (Some 7) (Some 1) 8 EXEC).

(** [addEvent] decides to grow the vector under the read lock and grows it
    under the write lock, to [fd * 1.5] entries, even when it is longer by then.
    Two threads that both find 32 entries, for descriptors 100 and 40: the second
    one's [contextResize(60)] drops descriptor 100's context, and its registered
    reader is lost while the count still waits for it. *)
Lemma io_resize_race_loses_events :
  io_run 3 io_demo_race [read7] [] 0 /\ m_pendingEventCount io_demo_race = 1 /\ regs io_demo_race = [read7] /\
  let m' := set_contexts io_demo_race (contextResize (m_fdContexts io_demo_race) (40 * 3 / 2)) in
  regs m' = [] /\ m_pendingEventCount m' = 1 /\ context_at m' 100 = None.
Proof.
  split.
  - apply (run_add 3 io_demo0 [] [] 0 100 READ (Some 7) 1 8 EXEC 0); [|lia|lia|by left|done|vm_compute; reflexivity].
    exact io_demo0_run.
  - vm_compute. done.
Qed.
