(* ===== verification/FdManager.v ===== *)
(** * File descriptor contexts ([fd_manager.h], [fd_manager.cc])

    For every descriptor the hooks created, an [FdCtx] remembers whether it is a
    socket, whether the hooks made it non-blocking, whether the program asked for
    that, and its time-outs.  The kernel's descriptor flags are a parameter: the
    class [FdKernel] is the original system calls, [FdKernelSpec] what their
    documentation says of the [O_NONBLOCK] flag.

    A context is reached through the shared pointer in [m_fds] only, so an update
    through the pointer is an update of the list. *)

From S2P Require Import Prelude.
From Stdlib Require Import ZArith Lia List.
From stdpp Require Import base tactics list numbers option gmap.

Open Scope Z_scope.

(** ** The kernel's side *)

Definition O_NONBLOCK : Z := 0x800.
Definition F_GETFL : Z := 3.
Definition F_SETFL : Z := 4.
Definition SO_RCVTIMEO : Z := 20.
Definition SO_SNDTIMEO : Z := 21.

(** [fstat] ([None]: it fails; otherwise whether the file is a socket) and
    [fcntl] with its optional argument. *)
Class FdKernel (W : Type) := {
  fstat_f : W -> Z -> option bool;
  fcntl_f : W -> Z -> Z -> option Z -> Z * W
}.

Definition nonblocking (flags : Z) : bool := negb (Z.land flags O_NONBLOCK =? 0).

(** An open file has flags, which [F_GETFL] returns and of which [F_SETFL] sets
    [O_NONBLOCK], for that descriptor alone. *)
Class FdKernelSpec (W : Type) `{FdKernel W} := {
  flags : W -> Z -> option Z;
  stat_open w fd s : fstat_f w fd = Some s -> is_Some (flags w fd);
  getfl_ok w fd f : flags w fd = Some f -> fcntl_f w fd F_GETFL None = (f, w) /\ 0 <= f;
  getfl_any w fd a : fcntl_f w fd F_GETFL a = fcntl_f w fd F_GETFL None;
  setfl_ok w fd f arg : flags w fd = Some f ->
    exists w' f', fcntl_f w fd F_SETFL (Some arg) = (0, w') /\ flags w' fd = Some f' /\
      nonblocking f' = nonblocking arg /\ (forall x, x <> fd -> flags w' x = flags w x) /\
      (forall x, fstat_f w' x = fstat_f w x)
}.

(** ** Data *)

(** @src fd_manager.h:36-45 FdCtx *)
Record FdCtx := mkFdCtx {
  m_isInit : bool;
  m_isSocket : bool;
  m_sysNonblock : bool;
  m_userNonblock : bool;
  m_isClosed : bool;
  m_fd : Z;
  m_recvTimeout : Z;
  m_sendTimeout : Z
}.

(** @src fd_manager.h:51-65 FdManager *)
Record FdManager := mkFdManager { m_fds : list (option FdCtx) }.

(** ** [FdCtx] *)

(** @src fd_manager.h:23-23 FdCtx::setUserNonblock *)
Definition FdCtx_setUserNonblock (c : FdCtx) (v : bool) : FdCtx :=
  mkFdCtx (m_isInit c) (m_isSocket c) (m_sysNonblock c) v (m_isClosed c) (m_fd c) (m_recvTimeout c) (m_sendTimeout c).

(** @src fd_manager.h:25-25 FdCtx::setSysNonblock *)
Definition FdCtx_setSysNonblock (c : FdCtx) (v : bool) : FdCtx :=
  mkFdCtx (m_isInit c) (m_isSocket c) v (m_userNonblock c) (m_isClosed c) (m_fd c) (m_recvTimeout c) (m_sendTimeout c).

(** @src fd_manager.cc:64-69 FdCtx::setTimeout *)
Definition FdCtx_setTimeout (c : FdCtx) (type t : Z) : FdCtx :=
  if type =? SO_RCVTIMEO
  then mkFdCtx (m_isInit c) (m_isSocket c) (m_sysNonblock c) (m_userNonblock c) (m_isClosed c) (m_fd c) t (m_sendTimeout c)
  else mkFdCtx (m_isInit c) (m_isSocket c) (m_sysNonblock c) (m_userNonblock c) (m_isClosed c) (m_fd c) (m_recvTimeout c) t.

(** @src fd_manager.cc:71-76 FdCtx::getTimeout *)
Definition FdCtx_getTimeout (c : FdCtx) (type : Z) : Z :=
  if type =? SO_RCVTIMEO then m_recvTimeout c else m_sendTimeout c.

Section ops.
Context {W : Type} {FK : FdKernel W}.

(** @src fd_manager.cc:27-61 FdCtx::init *)
Definition FdCtx_init (w : W) (c : FdCtx) : bool * FdCtx * W :=
  if m_isInit c then (true, c, w) else
  let '(isInit, isSocket) := match fstat_f w (m_fd c) with
                             | None => (false, false)
                             | Some sock => (true, sock)
                             end in
  let '(sysNonblock, w) :=
    if isSocket then
      let '(flags, w) := fcntl_f w (m_fd c) F_GETFL (Some 0) in
      let w := if negb (nonblocking flags)
               then snd (fcntl_f w (m_fd c) F_SETFL (Some (Z.lor flags O_NONBLOCK))) else w in
      (true, w)
    else (false, w) in
  (isInit, mkFdCtx isInit isSocket sysNonblock false false (m_fd c) U64_MAX U64_MAX, w).

(** @src fd_manager.cc:11-21 FdCtx::FdCtx *)
Definition FdCtx_new (w : W) (fd : Z) : FdCtx * W :=
  let '(_, c, w) := FdCtx_init w (mkFdCtx false false false false false fd U64_MAX U64_MAX) in (c, w).

(** ** [FdManager] *)

(** @src fd_manager.cc:82-84 FdManager::FdManager *)
Definition FdManager_new : FdManager := mkFdManager (replicate 64 None).

(** [m_fds[fd]]. *)
Definition fd_slot (m : FdManager) (fd : Z) : outcome (option FdCtx) :=
  if fd <? 0 then UB else match m_fds m !! Z.to_nat fd with Some p => Ok p | None => UB end.

Definition set_slot (m : FdManager) (fd : Z) (p : option FdCtx) : FdManager :=
  mkFdManager (<[Z.to_nat fd := p]> (m_fds m)).

(** [vector::resize] with new null pointers. *)
Definition fds_resize (m : FdManager) (n : Z) : FdManager :=
  mkFdManager (resize (Z.to_nat n) None (m_fds m)).

(** @src fd_manager.cc:87-110 FdManager::get *)
Definition FdManager_get (m : FdManager) (w : W) (fd : Z) (auto_create : bool)
    : outcome (option FdCtx * FdManager * W) :=
  if fd =? -1 then Ok (None, m, w) else
  let size := Z.of_nat (length (m_fds m)) in
  let create :=
    let '(ctx, w) := FdCtx_new w fd in
    let m := if size <=? fd then fds_resize m (fd * 3 / 2) else m in
    let! _ := fd_slot m fd in
    Ok (Some ctx, set_slot m fd (Some ctx), w) in
  if size <=? fd then
    if negb auto_create then Ok (None, m, w) else create
  else
    let! p := fd_slot m fd in
    if non_null p || negb auto_create then Ok (p, m, w) else create.

(** @src fd_manager.cc:112-118 FdManager::del *)
Definition FdManager_del (m : FdManager) (fd : Z) : outcome FdManager :=
  if Z.of_nat (length (m_fds m)) <=? fd then Ok m else
  let! _ := fd_slot m fd in Ok (set_slot m fd None).

End ops.

(** ** The manager is a map

    What the vector with its holes and its growth promises: a finite map from
    descriptors to contexts. *)

Section spec.
Context {W : Type} {FK : FdKernel W}.
Implicit Types (g : gmap Z FdCtx) (m : FdManager) (w : W).

Inductive fd_op := OpGet (fd : Z) (auto_create : bool) | OpDel (fd : Z) | OpSet (fd type t : Z).

Definition fd_of (o : fd_op) : Z := match o with OpGet fd _ | OpDel fd | OpSet fd _ _ => fd end.

Definition spec_get g w fd (auto_create : bool) : option FdCtx * gmap Z FdCtx * W :=
  match g !! fd with
  | Some c => (Some c, g, w)
  | None => if auto_create && negb (fd =? -1)
            then let '(c, w) := FdCtx_new w fd in (Some c, <[fd := c]> g, w) else (None, g, w)
  end.

(** One call: looking a context up, deleting it, or setting a time-out through
    the pointer [get] returns. *)
Definition fd_step (o : fd_op) (s : FdManager * W) : outcome (option FdCtx * (FdManager * W)) :=
  let '(m, w) := s in
  match o with
  | OpGet fd a => let! (r, m, w) := FdManager_get m w fd a in Ok (r, (m, w))
  | OpDel fd => let! m := FdManager_del m fd in Ok (None, (m, w))
  | OpSet fd type t =>
    let! (r, m, w) := FdManager_get m w fd false in
    match r with
    | None => Ok (None, (m, w))
    | Some c => Ok (Some c, (set_slot m fd (Some (FdCtx_setTimeout c type t)), w))
    end
  end.

Definition spec_fd_step (o : fd_op) (s : gmap Z FdCtx * W) : option FdCtx * (gmap Z FdCtx * W) :=
  let '(g, w) := s in
  match o with
  | OpGet fd a => let '(r, g, w) := spec_get g w fd a in (r, (g, w))
  | OpDel fd => (None, (delete fd g, w))
  | OpSet fd type t =>
    (g !! fd, (match g !! fd with Some c => <[fd := FdCtx_setTimeout c type t]> g | None => g end, w))
  end.

Fixpoint fd_run (os : list fd_op) (s : FdManager * W) : outcome (list (option FdCtx) * (FdManager * W)) :=
  match os with
  | [] => Ok ([], s)
  | o :: os => let! (r, s) := fd_step o s in let! (rs, s) := fd_run os s in Ok (r :: rs, s)
  end.

Fixpoint spec_fd_run (os : list fd_op) (s : gmap Z FdCtx * W) : list (option FdCtx) * (gmap Z FdCtx * W) :=
  match os with
  | [] => ([], s)
  | o :: os => let '(r, s) := spec_fd_step o s in let '(rs, s) := spec_fd_run os s in (r :: rs, s)
  end.

(** The vector [m] represents the map [g]. *)
Definition fd_view m (fd : Z) : option FdCtx := if fd <? 0 then None else mjoin (m_fds m !! Z.to_nat fd).

Record fd_rep m g : Prop := {
  fd_len : (64 <= length (m_fds m))%nat;
  fd_map fd : fd_view m fd = g !! fd
}.

Lemma fd_rep_new : fd_rep FdManager_new ∅.
Proof.
  split; [done|]. intros fd. rewrite lookup_empty. unfold fd_view. destruct (fd <? 0); [done|]. cbn [FdManager_new m_fds].
  destruct (replicate 64 None !! _) eqn:E; [|done]. by apply lookup_replicate in E as [-> _].
Qed.

Lemma fd_slot_ok m fd : 0 <= fd < Z.of_nat (length (m_fds m)) -> fd_slot m fd = Ok (fd_view m fd).
Proof.
  intros H. unfold fd_slot, fd_view. destruct (Z.ltb_spec fd 0); [lia|].
  destruct (lookup_lt_is_Some_2 (m_fds m) (Z.to_nat fd)) as [p ->]; [lia|]. done.
Qed.

Lemma fd_view_out m fd : Z.of_nat (length (m_fds m)) <= fd -> fd_view m fd = None.
Proof. intros. unfold fd_view. destruct (Z.ltb_spec fd 0); [done|]. rewrite lookup_ge_None_2 by lia. done. Qed.

Lemma fd_view_set m fd p x :
  0 <= fd < Z.of_nat (length (m_fds m)) -> fd_view (set_slot m fd p) x = if decide (x = fd) then p else fd_view m x.
Proof.
  intros H. unfold fd_view, set_slot. cbn. case_decide as Hx.
  - subst x. destruct (Z.ltb_spec fd 0); [lia|]. rewrite list_lookup_insert_eq by lia. done.
  - destruct (Z.ltb_spec x 0); [done|]. rewrite list_lookup_insert_ne by lia. done.
Qed.

Lemma fd_view_resize m n x : Z.of_nat (length (m_fds m)) <= n -> fd_view (fds_resize m n) x = fd_view m x.
Proof.
  intros H. unfold fd_view, fds_resize. cbn. destruct (Z.ltb_spec x 0); [done|].
  destruct (Nat.lt_ge_cases (Z.to_nat x) (length (m_fds m))) as [Hl|Hl].
  - rewrite lookup_resize by lia. done.
  - rewrite (lookup_ge_None_2 (m_fds m)) by lia.
    destruct (Nat.lt_ge_cases (Z.to_nat x) (Z.to_nat n)).
    + rewrite lookup_resize_new by lia. done.
    + rewrite lookup_resize_old by lia. done.
Qed.

Lemma rep_set m g fd c :
  fd_rep m g -> 0 <= fd < Z.of_nat (length (m_fds m)) -> fd_rep (set_slot m fd (Some c)) (<[fd := c]> g).
Proof.
  intros [Hl Hm] H. split; [cbn; by rewrite length_insert|]. intros x. rewrite fd_view_set by done.
  rewrite lookup_insert. case_decide; [subst; by rewrite decide_True|]. rewrite decide_False by done. apply Hm.
Qed.

Lemma get_rep m g w fd a :
  fd_rep m g -> -1 <= fd ->
  exists m', FdManager_get m w fd a = Ok (fst (fst (spec_get g w fd a)), m', snd (spec_get g w fd a)) /\
    fd_rep m' (snd (fst (spec_get g w fd a))) /\ (length (m_fds m) <= length (m_fds m'))%nat.
Proof.
  intros R Hfd. pose proof R as [Hl Hm]. unfold FdManager_get, spec_get. rewrite <- (Hm fd).
  destruct (Z.eqb_spec fd (-1)) as [->|Hne]; [cbn; rewrite andb_false_r; cbn; by eauto|].
  rewrite andb_true_r. destruct (Z.leb_spec (Z.of_nat (length (m_fds m))) fd) as [Hout|Hin].
  - rewrite fd_view_out by done. destruct a; cbn [negb]; [|cbn; by eauto].
    destruct (FdCtx_new w fd) as [c w']. set (n := fd * 3 / 2).
    assert (Hn : fd < n) by (unfold n; Z.to_euclidean_division_equations; lia).
    assert (Hlen : length (m_fds (fds_resize m n)) = Z.to_nat n) by (cbn; by rewrite length_resize).
    rewrite fd_slot_ok by lia. cbn [obind]. eexists. split; [reflexivity|]. split;
      [|unfold set_slot; cbn [m_fds fst snd]; rewrite length_insert; lia].
    apply rep_set; [|lia]. split; [lia|]. intros x. rewrite fd_view_resize by lia. apply Hm.
  - rewrite fd_slot_ok by lia. cbn [obind]. destruct (fd_view m fd) as [c|]; cbn [non_null orb]; [cbn; by eauto|].
    destruct a; cbn [negb]; [|cbn; by eauto]. destruct (FdCtx_new w fd) as [c w'].
    cbn [obind]. eexists. split; [reflexivity|]. split;
      [apply rep_set; [done|lia]|unfold set_slot; cbn [m_fds]; rewrite length_insert; lia].
Qed.

Lemma del_rep m g fd : fd_rep m g -> 0 <= fd -> exists m', FdManager_del m fd = Ok m' /\ fd_rep m' (delete fd g).
Proof.
  intros R Hfd. pose proof R as [Hl Hm]. unfold FdManager_del.
  destruct (Z.leb_spec (Z.of_nat (length (m_fds m))) fd).
  - exists m. split; [done|]. split; [done|]. intros x. rewrite lookup_delete. case_decide; [|apply Hm].
    subst x. by apply fd_view_out.
  - rewrite fd_slot_ok by lia. cbn. eexists. split; [reflexivity|]. split; [cbn; by rewrite length_insert|].
    intros x. rewrite fd_view_set, lookup_delete by lia. case_decide; [subst; by rewrite decide_True|].
    rewrite decide_False by done. apply Hm.
Qed.

Lemma fd_step_rep o m g w :
  fd_rep m g -> 0 <= fd_of o ->
  exists m', fd_step o (m, w) = Ok (fst (spec_fd_step o (g, w)), (m', snd (snd (spec_fd_step o (g, w))))) /\
    fd_rep m' (fst (snd (spec_fd_step o (g, w)))).
Proof.
  intros R Ho. destruct o as [fd a|fd|fd type t]; cbn [fd_step spec_fd_step fd_of] in *.
  - destruct (get_rep m g w fd a R) as (m' & -> & R' & _); [lia|].
    destruct (spec_get g w fd a) as [[r g'] w']. cbn in *. eauto.
  - destruct (del_rep m g fd R Ho) as (m' & -> & R'). cbn. eauto.
  - destruct (get_rep m g w fd false R) as (m' & -> & R' & _); [lia|]. unfold spec_get in *.
    destruct (g !! fd) as [c|] eqn:E; cbn in *; [|by eauto]. eexists. split; [reflexivity|].
    apply rep_set; [done|]. split; [lia|]. destruct (Z.lt_ge_cases fd (Z.of_nat (length (m_fds m')))) as [|Hge]; [done|].
    rewrite <- (fd_map _ _ R'), fd_view_out in E by done. done.
Qed.

(** The manager behaves as a finite map from descriptors to contexts: for
    every sequence of [get], [del] and updates through the returned pointer on
    valid descriptors, no index is out of range and every answer is that of the
    map, whichever descriptors made the vector grow. *)
Lemma FdManager_refines_map (os : list fd_op) (w : W) :
  Forall (fun o => 0 <= fd_of o) os ->
  exists m, fd_run os (FdManager_new, w) =
      Ok (fst (spec_fd_run os (∅, w)), (m, snd (snd (spec_fd_run os (∅, w))))) /\
    forall fd, fd_view m fd = fst (snd (spec_fd_run os (∅, w))) !! fd.
Proof.
  intros Hos. cut (forall m g w, fd_rep m g -> exists m', fd_run os (m, w) =
      Ok (fst (spec_fd_run os (g, w)), (m', snd (snd (spec_fd_run os (g, w))))) /\
      fd_rep m' (fst (snd (spec_fd_run os (g, w))))).
  { intros H. destruct (H _ _ w fd_rep_new) as (m & E & R). exists m. split; [done|]. apply R. }
  induction Hos as [|o os Ho Hos IH]; intros m g w0 R; [cbn; by eauto|]. cbn [fd_run spec_fd_run].
  destruct (fd_step_rep o m g w0 R Ho) as (m1 & -> & R1).
  destruct (spec_fd_step o (g, w0)) as [r [g1 w1]]. cbn [fst snd obind] in *.
  destruct (IH m1 g1 w1 R1) as (m2 & -> & R2). destruct (spec_fd_run os (g1, w1)) as [rs [g2 w2]]. cbn in *. eauto.
Qed.

End spec.

(** ** A kernel *)

(** Descriptors with whether they are sockets and their flags. *)
Abbreviation fd_world := (gmap Z (bool * N)).

#[global] Instance fd_world_kernel : FdKernel fd_world := {|
  fstat_f w fd := fst <$> w !! fd;
  fcntl_f w fd cmd arg :=
    match w !! fd with
    | None => (-1, w)
    | Some (s, f) => if cmd =? F_GETFL then (Z.of_N f, w)
                     else if cmd =? F_SETFL
                     then (0, <[fd := (s, Z.to_N (Z.land (from_option id 0 arg) O_NONBLOCK))]> w)
                     else (0, w)
    end
|}.

#[global] Instance fd_world_spec : FdKernelSpec fd_world.
Proof.
  refine {| flags := fun w fd => Z.of_N ∘ snd <$> w !! fd |}; unfold fstat_f, fcntl_f, fd_world_kernel.
  - intros w fd s. destruct (w !! fd); [by eexists|done].
  - intros w fd f. destruct (w !! fd) as [[s g]|]; [|done]. intros [= <-]. split; [done|]. cbn. lia.
  - done.
  - intros w fd f arg. destruct (w !! fd) as [[s g]|] eqn:E; [|done]. intros _. eexists _, _. split; [reflexivity|].
    split; [rewrite lookup_insert_eq; reflexivity|]. cbn [compose snd]. split_and!.
    + unfold nonblocking, compose. cbn [snd from_option id]. rewrite Z2N.id by (apply Z.land_nonneg; by right).
      rewrite <- Z.land_assoc. done.
    + intros x Hx. by rewrite lookup_insert_ne.
    + intros x. destruct (decide (x = fd)) as [->|Hx]; [rewrite lookup_insert_eq, E; done|by rewrite lookup_insert_ne].
Defined.

Lemma FdManager_refines_map_witness :
  let w := ({[ 100 := (true, 0%N) ]} : fd_world) in
  exists m, fd_run [OpGet 100 true; OpSet 100 SO_RCVTIMEO 50; OpGet 100 false; OpDel 100; OpGet 100 false] (FdManager_new, w) =
    Ok ([Some (mkFdCtx true true true false false 100 U64_MAX U64_MAX);
         Some (mkFdCtx true true true false false 100 U64_MAX U64_MAX);
         Some (mkFdCtx true true true false false 100 50 U64_MAX); None; None],
        (m, <[ 100 := (true, 0x800%N) ]> w)) /\ forall fd, fd_view m fd = None.
Proof.
  intros w.
  destruct (FdManager_refines_map [OpGet 100 true; OpSet 100 SO_RCVTIMEO 50; OpGet 100 false; OpDel 100; OpGet 100 false] w)
    as (m & E & Hv); [repeat constructor; cbn; lia|].
  exists m. split; [rewrite E; vm_compute; reflexivity|]. intros fd. rewrite Hv. vm_compute. reflexivity.
Defined.
