(* ===== verification/Hook.v ===== *)
(** * Hooked system calls ([hook.cc])

    On a thread with hooks enabled a blocking call on a socket becomes: try the
    original call; if it would block, arm a condition timer, register the running
    fiber for the event and switch out; when the fiber runs again, give up if the
    timer fired, and try again otherwise.  Each function is modelled from one
    switch to the next, on the manager of [IOManager] and the descriptor contexts
    of [FdManager].

    The results of the original system calls are inputs: the list [rs] holds the
    value and [errno] of each call that is made, in order; a run that asks for
    more results than the list has is [NoFuel].  Writing to the wake-up pipe
    ([tickle]) leaves the manager as it is and is not shown. *)

From S2P Require Import Prelude Timer Fiber Scheduler IOManager FdManager.
From Stdlib Require Import ZArith Lia List.
From stdpp Require Import base tactics list numbers option gmap.

Open Scope Z_scope.

Definition EINTR : Z := 4.
Definition EBADF : Z := 9.
Definition EAGAIN : Z := 11.
Definition ETIMEDOUT : Z := 110.
Definition EINPROGRESS : Z := 115.

(** A system call's value and [errno]. *)
Abbreviation sys_result := (Z * Z)%type.

Definition sys_failed (r : sys_result) (e : Z) : bool := (fst r =? -1) && (snd r =? e).

(** How a hooked call ends or pauses: it returns a value and leaves an [errno]
    ([None]: the one [addEvent] left), or the fiber switches out, with the timer
    it armed. *)
Inductive io_result :=
| IoReturn (n : Z) (errno : option Z)
| IoHold (timer : option Z).

(** What a call in progress knows: its descriptor, event and time-out, the address
    of its [timer_info], the number that stands for its timer's function, its
    scheduler and its fiber. *)
Record io_call := mkCall {
  c_fd : Z;
  c_event : Z;
  c_to : Z;
  c_tinfo : Z;
  c_lambda : Z;
  c_sched : Z;
  c_fiber : Z
}.

Section ops.
Context {K : Type} {EO : EpollOps K}.
Implicit Types (m : IOManager K).

(** [if(timer) timer->cancel();] *)
Definition cancel_timer m (timer : option Z) : outcome (IOManager K) :=
  match timer with
  | None => Ok m
  | Some p => let! (_, t) := Timer_cancel (io_timers m) p in Ok (set_timers m t)
  end.

(** ** [do_io] *)

(** @src hook.cc:138-142 do_io
    The calls up to the first result that is not an interruption. *)
Fixpoint skip_eintr (rs : list sys_result) : outcome (sys_result * list sys_result) :=
  match rs with
  | [] => NoFuel
  | r :: rs => if sys_failed r EINTR then skip_eintr rs else Ok (r, rs)
  end.

(** @src hook.cc:150-162 do_io
    Arming the timer; [p] is the address of the new object. *)
Definition io_arm m (c : io_call) (now p : Z) : option Z * IOManager K :=
  if negb (c_to c =? U64_MAX)
  then (Some p, set_timers m (snd (TimerManager_addConditionTimer (io_timers m) now p (c_to c) (c_lambda c) (c_tinfo c) false)))
  else (None, m).

(** @src hook.cc:164-173 do_io
    Registering the event and switching out. *)
Definition io_wait m (c : io_call) (timer : option Z) (st : FiberState) : outcome (io_result * IOManager K) :=
  let! (rt, m) := IOManager_addEvent m (c_fd c) (c_event c) None (Some (c_sched c)) (c_fiber c) st in
  if negb (rt =? 0) then let! m := cancel_timer m timer in Ok (IoReturn (-1) None, m)
  else Ok (IoHold timer, m).

(** @src hook.cc:136-195 do_io
    From the label [retry] on. *)
Definition io_retry m (c : io_call) (now p : Z) (st : FiberState) (rs : list sys_result)
    : outcome (io_result * IOManager K * list sys_result) :=
  let! (r, rs) := skip_eintr rs in
  if sys_failed r EAGAIN then
    let '(timer, m) := io_arm m c now p in
    let! (res, m) := io_wait m c timer st in Ok (res, m, rs)
  else Ok (IoReturn (fst r) (Some (snd r)), m, rs).

(** @src hook.cc:184-192 do_io
    After the fiber was switched in again. *)
Definition io_resume m (c : io_call) (timer : option Z) (cancelled now p : Z) (st : FiberState) (rs : list sys_result)
    : outcome (io_result * IOManager K * list sys_result) :=
  let! m := cancel_timer m timer in
  if negb (cancelled =? 0) then Ok (IoReturn (-1) (Some cancelled), m, rs)
  else io_retry m c now p st rs.

(** @src hook.cc:154-160 do_io
    The timer's function: [info] is the value of [cancelled], if the [timer_info]
    still exists. *)
Definition io_timeout m (c : io_call) (info : option Z) : outcome (option Z * posted * IOManager K) :=
  match info with
  | None => Ok (None, [], m)
  | Some cancelled =>
    if negb (cancelled =? 0) then Ok (info, [], m) else
    let! (_, out, m) := IOManager_cancelEvent m (c_fd c) (c_event c) in
    Ok (Some ETIMEDOUT, out, m)
  end.

(** What [do_io] does with a descriptor (lines 115-134). *)
Inductive io_route := RouteDirect | RouteClosed | RouteHooked (timeout : Z).

Definition do_io_route {W} {FK : FdKernel W} (enable : bool) (fds : FdManager) (w : W) (fd timeout_so : Z) : outcome io_route :=
  if negb enable then Ok RouteDirect else
  let! (ctx, _, _) := FdManager_get fds w fd false in
  match ctx with
  | None => Ok RouteDirect
  | Some ctx =>
    if m_isClosed ctx then Ok RouteClosed
    else if negb (m_isSocket ctx) || m_userNonblock ctx then Ok RouteDirect
    else Ok (RouteHooked (FdCtx_getTimeout ctx timeout_so))
  end.

(** The original call. *)
Definition io_direct m (rs : list sys_result) : outcome (io_result * IOManager K * list sys_result) :=
  match rs with [] => NoFuel | r :: rs => Ok (IoReturn (fst r) (Some (snd r)), m, rs) end.

(** @src hook.cc:112-196 do_io
    Up to the first switch; [io_resume] goes on. *)
Definition do_io {W} {FK : FdKernel W} (enable : bool) (fds : FdManager) (w : W) m
    (fd event timeout_so tinfo lambda s cur now p : Z) (st : FiberState) (rs : list sys_result)
    : outcome (io_result * IOManager K * list sys_result) :=
  let! route := do_io_route enable fds w fd timeout_so in
  match route with
  | RouteDirect => io_direct m rs
  | RouteClosed => Ok (IoReturn (-1) (Some EBADF), m, rs)
  | RouteHooked to => io_retry m (mkCall fd event to tinfo lambda s cur) now p st rs
  end.

(** The hooked calls that are [do_io] with the event and the time-out option of
    their direction: [read], [readv], [recv], [recvfrom], [recvmsg], and the
    first part of [accept]; [write], [writev], [send], [sendto], [sendmsg]. *)

(** @src hook.cc:415-441 read *)
Definition hook_recv {W} {FK : FdKernel W} (enable : bool) (fds : FdManager) (w : W) m (fd : Z) :=
  do_io enable fds w m fd READ SO_RCVTIMEO.

(** @src hook.cc:443-467 write *)
Definition hook_send {W} {FK : FdKernel W} (enable : bool) (fds : FdManager) (w : W) m (fd : Z) :=
  do_io enable fds w m fd WRITE SO_SNDTIMEO.

(** @src hook.cc:406-413 accept
    What happens with the value [fd] that [do_io] returned. *)
Definition hook_accept_done {W} {FK : FdKernel W} (fds : FdManager) (w : W) (fd : Z) : outcome (Z * FdManager * W) :=
  if 0 <=? fd then let! (_, fds, w) := FdManager_get fds w fd true in Ok (fd, fds, w) else Ok (fd, fds, w).

(** @src hook.cc:271-280 socket
    [fd] is the value of the original call, after which the kernel is [w]. *)
Definition hook_socket {W} {FK : FdKernel W} (enable : bool) (fds : FdManager) (w : W) (fd : Z) : outcome (Z * FdManager * W) :=
  if negb enable then Ok (fd, fds, w) else
  if fd =? -1 then Ok (fd, fds, w) else
  let! (_, fds, w) := FdManager_get fds w fd true in Ok (fd, fds, w).

(** ** [connect] *)

(** @src hook.cc:384-396 connect_with_timeout
    The end: [so] is what [getsockopt(SO_ERROR)] returned and stored. *)
Definition connect_check (so : sys_result) : Z * option Z :=
  if fst so =? -1 then (-1, None)
  else if snd so =? 0 then (0, None) else (-1, Some (snd so)).

(** @src hook.cc:349-382 connect_with_timeout
    The timer, the event, the switch; when the event cannot be added the code goes
    on to look at [SO_ERROR]. *)
Definition connect_wait m (c : io_call) (now p : Z) (st : FiberState) (so : sys_result) : outcome (io_result * IOManager K) :=
  let '(timer, m) := io_arm m c now p in
  let! (rt, m) := IOManager_addEvent m (c_fd c) WRITE None (Some (c_sched c)) (c_fiber c) st in
  if rt =? 0 then Ok (IoHold timer, m)
  else
    let! m := cancel_timer m timer in
    let '(n, e) := connect_check so in Ok (IoReturn n e, m).

(** @src hook.cc:321-397 connect_with_timeout
    [conn] is the result of the original [connect]. *)
Definition connect_with_timeout {W} {FK : FdKernel W} (enable : bool) (fds : FdManager) (w : W) m
    (fd timeout_ms tinfo lambda s cur now p : Z) (st : FiberState) (conn so : sys_result)
    : outcome (io_result * IOManager K) :=
  let direct := Ok (IoReturn (fst conn) (Some (snd conn)), m) in
  if negb enable then direct else
  let! (ctx, _, _) := FdManager_get fds w fd false in
  match ctx with
  | None => Ok (IoReturn (-1) (Some EBADF), m)
  | Some ctx =>
    if m_isClosed ctx then Ok (IoReturn (-1) (Some EBADF), m)
    else if negb (m_isSocket ctx) then direct
    else if m_userNonblock ctx then direct
    else if fst conn =? 0 then Ok (IoReturn 0 (Some (snd conn)), m)
    else if negb (fst conn =? -1) || negb (snd conn =? EINPROGRESS) then direct
    else connect_wait m (mkCall fd WRITE timeout_ms tinfo lambda s cur) now p st so
  end.

(** @src hook.cc:370-396 connect_with_timeout
    After the fiber was switched in again. *)
Definition connect_resume m (timer : option Z) (cancelled : Z) (so : sys_result) : outcome (io_result * IOManager K) :=
  let! m := cancel_timer m timer in
  if negb (cancelled =? 0) then Ok (IoReturn (-1) (Some cancelled), m)
  else let '(n, e) := connect_check so in Ok (IoReturn n e, m).

(** @src hook.cc:400-402 connect
    [s_connect_timeout] is the configured time-out. *)
Definition hook_connect {W} {FK : FdKernel W} (enable : bool) (fds : FdManager) (w : W) m (s_connect_timeout fd : Z) :=
  connect_with_timeout enable fds w m fd s_connect_timeout.

(** ** Sleeping *)

(** The timer all three functions arm: its function [wake] schedules the running
    fiber; then the fiber switches out. *)
Definition sleep_for m (now p ms wake : Z) : IOManager K :=
  set_timers m (snd (TimerManager_addTimer (io_timers m) now p ms (Some (Cb wake)) false)).

(** @src hook.cc:206-222 sleep
    [seconds] and the product are [unsigned int].  [None]: the original call. *)
Definition hook_sleep (enable : bool) m (seconds now p wake : Z) : option (IOManager K) :=
  if negb enable then None else Some (sleep_for m now p (u32 (seconds * 1000)) wake).

(** @src hook.cc:224-235 usleep *)
Definition hook_usleep (enable : bool) m (usec now p wake : Z) : option (IOManager K) :=
  if negb enable then None else Some (sleep_for m now p (usec / 1000) wake).

(** @src hook.cc:237-249 nanosleep
    The [long] sum is stored in an [int], which [addTimer] takes as [uint64_t]. *)
Definition hook_nanosleep (enable : bool) m (tv_sec tv_nsec now p wake : Z) : option (IOManager K) :=
  if negb enable then None else
  let timeout_ms := i32 (tv_sec * 1000 + Z.quot (Z.quot tv_nsec 1000) 1000) in
  Some (sleep_for m now p (u64 timeout_ms) wake).

(** ** [close], [fcntl], [ioctl], [setsockopt] *)

(** @src hook.cc:469-482 close
    [iom] says whether the thread has an IOManager; [n] is the result of the original call. *)
Definition hook_close {W} {FK : FdKernel W} (enable iom : bool) (fds : FdManager) (w : W) m (fd n : Z)
    : outcome (Z * posted * FdManager * IOManager K) :=
  if negb enable then Ok (n, [], fds, m) else
  let! (ctx, fds, _) := FdManager_get fds w fd false in
  if non_null ctx then
    let! (out, m) := if iom then let! (_, out, m) := IOManager_cancelAll m fd in Ok (out, m) else Ok ([], m) in
    let! fds := FdManager_del fds fd in
    Ok (n, out, fds, m)
  else Ok (n, [], fds, m).

End ops.

Definition F_DUPFD : Z := 0.
Definition F_GETFD : Z := 1.
Definition F_SETFD : Z := 2.
Definition F_GETLK : Z := 5.
Definition F_SETLK : Z := 6.
Definition F_SETLKW : Z := 7.
Definition F_SETOWN : Z := 8.
Definition F_GETOWN : Z := 9.
Definition F_SETSIG : Z := 10.
Definition F_GETSIG : Z := 11.
Definition F_SETOWN_EX : Z := 15.
Definition F_GETOWN_EX : Z := 16.
Definition F_SETLEASE : Z := 1024.
Definition F_GETLEASE : Z := 1025.
Definition F_NOTIFY : Z := 1026.
Definition F_DUPFD_CLOEXEC : Z := 1030.
Definition F_SETPIPE_SZ : Z := 1031.
Definition F_GETPIPE_SZ : Z := 1032.
Definition FIONBIO : Z := 0x5421.
Definition SOL_SOCKET : Z := 1.

(** [ioctl] and [setsockopt]: the request, the integer its argument points to, the
    result. *)
Class IoctlKernel (W : Type) := ioctl_f : W -> Z -> Z -> Z -> Z * W.

Section flags.
Context {W : Type} {FK : FdKernel W} {IK : IoctlKernel W}.

Definition is_cmd (cmd : Z) (l : list Z) : bool := existsb (Z.eqb cmd) l.

(** A context the flags of which are managed. *)
Definition managed (ctx : option FdCtx) : option FdCtx :=
  match ctx with
  | Some c => if m_isClosed c || negb (m_isSocket c) then None else Some c
  | None => None
  end.

(** @src hook.cc:496-574 fcntl
    [arg] is the optional argument, an integer or a pointer. *)
Definition hook_fcntl (fds : FdManager) (w : W) (fd cmd arg : Z) : outcome (Z * FdManager * W) :=
  if cmd =? F_SETFL then
    let! (ctx, fds, w) := FdManager_get fds w fd false in
    match managed ctx with
    | None => let '(n, w) := fcntl_f w fd cmd (Some arg) in Ok (n, fds, w)
    | Some c =>
      let c := FdCtx_setUserNonblock c (nonblocking arg) in
      let fds := set_slot fds fd (Some c) in
      let arg := if m_sysNonblock c then Z.lor arg O_NONBLOCK else Z.land arg (Z.lnot O_NONBLOCK) in
      let '(n, w) := fcntl_f w fd cmd (Some arg) in Ok (n, fds, w)
    end
  else if cmd =? F_GETFL then
    let '(arg, w) := fcntl_f w fd cmd None in
    let! (ctx, fds, w) := FdManager_get fds w fd false in
    match managed ctx with
    | None => Ok (arg, fds, w)
    | Some c => Ok (if m_userNonblock c then Z.lor arg O_NONBLOCK else Z.land arg (Z.lnot O_NONBLOCK), fds, w)
    end
  else if is_cmd cmd [F_DUPFD; F_DUPFD_CLOEXEC; F_SETFD; F_SETOWN; F_SETSIG; F_SETLEASE; F_NOTIFY; F_SETPIPE_SZ] then
    let '(n, w) := fcntl_f w fd cmd (Some arg) in Ok (n, fds, w)
  else if is_cmd cmd [F_GETFD; F_GETOWN; F_GETSIG; F_GETLEASE; F_GETPIPE_SZ] then
    let '(n, w) := fcntl_f w fd cmd None in Ok (n, fds, w)
  else if is_cmd cmd [F_SETLK; F_SETLKW; F_GETLK; F_GETOWN_EX; F_SETOWN_EX] then
    let '(n, w) := fcntl_f w fd cmd (Some arg) in Ok (n, fds, w)
  else let '(n, w) := fcntl_f w fd cmd None in Ok (n, fds, w).

(** @src hook.cc:577-591 ioctl
    [arg] is the integer the argument points to. *)
Definition hook_ioctl (fds : FdManager) (w : W) (d request arg : Z) : outcome (Z * FdManager * W) :=
  if FIONBIO =? request then
    let user_nonblock := negb (arg =? 0) in
    let! (ctx, fds, w) := FdManager_get fds w d false in
    match managed ctx with
    | None => let '(n, w) := ioctl_f w d request arg in Ok (n, fds, w)
    | Some c =>
      let fds := set_slot fds d (Some (FdCtx_setUserNonblock c user_nonblock)) in
      let '(n, w) := ioctl_f w d request arg in Ok (n, fds, w)
    end
  else let '(n, w) := ioctl_f w d request arg in Ok (n, fds, w).

(** @src hook.cc:600-615 setsockopt
    [tv_sec] and [tv_usec] are read when the option is a time-out, [n] is the
    result of the original call. *)
Definition hook_setsockopt (enable : bool) (fds : FdManager) (w : W) (sockfd level optname tv_sec tv_usec n : Z)
    : outcome (Z * FdManager) :=
  if negb enable then Ok (n, fds) else
  if (level =? SOL_SOCKET) && ((optname =? SO_RCVTIMEO) || (optname =? SO_SNDTIMEO)) then
    let! (ctx, fds, _) := FdManager_get fds w sockfd false in
    match ctx with
    | Some c => Ok (n, set_slot fds sockfd (Some (FdCtx_setTimeout c optname (u64 (tv_sec * 1000 + Z.quot tv_usec 1000)))))
    | None => Ok (n, fds)
    end
  else Ok (n, fds).

End flags.

(** ** A whole call

    The history of one hooked call: its own code from switch to switch, its
    timer's function, run by any worker while the call is suspended, and whatever
    else other threads do to the manager.  [info] is [tinfo->cancelled], [used]
    the results of the original call so far. *)

Section calls.
Context {K : Type} {EO : EpollOps K} {ES : EpollSpec K}.
Implicit Types (m : IOManager K).

Inductive call_run (c : io_call) : io_result -> IOManager K -> Z -> list sys_result -> Prop :=
| call_start m now p st used rest r m' :
    io_retry m c now p st (used ++ rest) = Ok (r, m', rest) -> call_run c r m' 0 used
| call_timeout t m info used info' out m' :
    call_run c (IoHold t) m info used -> io_timeout m c (Some info) = Ok (Some info', out, m') ->
    call_run c (IoHold t) m' info' used
| call_others t m info used m' :
    call_run c (IoHold t) m info used -> call_run c (IoHold t) m' info used
| call_resume t m info used now p st more rest r m' :
    call_run c (IoHold t) m info used -> io_resume m c t info now p st (more ++ rest) = Ok (r, m', rest) ->
    call_run c r m' info (used ++ more).

Definition again (r : sys_result) : bool := sys_failed r EINTR || sys_failed r EAGAIN.

Lemma skip_eintr_spec rs r rest :
  skip_eintr rs = Ok (r, rest) ->
  exists pre, rs = pre ++ r :: rest /\ Forall (fun x => again x = true) pre /\ sys_failed r EINTR = false.
Proof.
  induction rs as [|x rs IH]; [done|]. cbn. destruct (sys_failed x EINTR) eqn:E.
  - intros (pre & -> & Hp & Hr)%IH. exists (x :: pre). split_and!; [done| |done].
    constructor; [unfold again; by rewrite E|done].
  - intros [= <- <-]. by exists [].
Qed.

Lemma io_wait_hold_or_fail m c t st res m' :
  io_wait m c t st = Ok (res, m') -> res = IoReturn (-1) None \/ res = IoHold t.
Proof.
  unfold io_wait. destruct (IOManager_addEvent _ _ _ _ _ _ _) as [[rt m1]| | | |]; cbn [obind]; try done.
  destruct (negb (rt =? 0)); [|intros [= <- _]; by right].
  destruct (cancel_timer m1 t); cbn [obind]; try done. intros [= <- _]. by left.
Qed.

(** What one stretch of the call does with the results it consumes. *)
Lemma io_retry_used m c now p st used rest r m' :
  io_retry m c now p st (used ++ rest) = Ok (r, m', rest) ->
  match r with
  | IoReturn n (Some e) => exists pre, used = pre ++ [(n, e)] /\ Forall (fun x => again x = true) pre /\ again (n, e) = false
  | IoReturn n None => n = -1 /\ Forall (fun x => again x = true) used
  | IoHold _ => Forall (fun x => again x = true) used
  end.
Proof.
  unfold io_retry. destruct (skip_eintr (used ++ rest)) as [[x rest']| | | |] eqn:Es; cbn [obind]; try done.
  apply skip_eintr_spec in Es as (pre & Eq & Hpre & Hx).
  assert (Hused : rest' = rest -> used = pre ++ [x]).
  { intros ->. apply (app_inv_tail rest). by rewrite Eq, <- app_assoc. }
  destruct (sys_failed x EAGAIN) eqn:Ea.
  - destruct (io_arm m c now p) as [t m1].
    destruct (io_wait m1 c t st) as [[res m2]| | | |] eqn:Ew; cbn [obind]; try done.
    intros [= <- <- Hr]. specialize (Hused Hr). subst used.
    assert (Hall : Forall (fun x => again x = true) (pre ++ [x])).
    { apply Forall_app. split; [done|]. constructor; [|done]. unfold again. rewrite Ea. apply orb_true_r. }
    by apply io_wait_hold_or_fail in Ew as [->| ->].
  - intros [= <- <- Hr]. exists pre. destruct x as [n e]. split_and!; [by apply Hused|done|].
    unfold again. cbn [fst snd]. by rewrite Hx, Ea.
Qed.

Lemma io_timeout_info m c info info' out m' :
  io_timeout m c (Some info) = Ok (Some info', out, m') -> info' = info \/ info' = ETIMEDOUT.
Proof.
  cbn. destruct (negb (info =? 0)); [intros [= <- _ _]; by left|].
  destruct (IOManager_cancelEvent _ _ _) as [[[b o] m1]| | | |]; cbn [obind]; try done. intros [= <- _ _]. by right.
Qed.

(** C6: a hooked call returns what the system call means, and loses nothing.
    However other threads and the timer interleave with it: as long as the call is
    suspended the original function has only answered "interrupted" or "would
    block"; it returns either the first other answer, unchanged, and the function
    is not called again after it, or -1 with [ETIMEDOUT] when the timer fired, or
    -1 when the event could not be registered. *)
Theorem do_io_result c r m info used :
  call_run c r m info used ->
  match r with
  | IoHold _ => Forall (fun x => again x = true) used /\ (info = 0 \/ info = ETIMEDOUT)
  | IoReturn n e =>
    (info = 0 /\ exists pre e', e = Some e' /\ used = pre ++ [(n, e')] /\
       Forall (fun x => again x = true) pre /\ again (n, e') = false) \/
    (n = -1 /\ Forall (fun x => again x = true) used /\
       (e = None \/ e = Some ETIMEDOUT /\ info = ETIMEDOUT))
  end.
Proof.
  induction 1 as [m now p st used rest r m' E|t m info used info' out m' _ [IH Hi] E
    |t m info used m' _ IH|t m info used now p st more rest r m' _ [IH Hi] E].
  - apply io_retry_used in E. destruct r as [n [e|]|t]; [|tauto|tauto].
    destruct E as (pre & -> & Hp & Hn). left. split; [done|]. by exists pre, e.
  - apply io_timeout_info in E as [->| ->]; tauto.
  - done.
  - unfold io_resume in E. destruct (cancel_timer m t) as [m1| | | |]; cbn [obind] in E; try done.
    destruct Hi as [->| ->]; cbn [negb Z.eqb] in E.
    + apply io_retry_used in E. destruct r as [n [e|]|t'].
      * destruct E as (pre & -> & Hp & Hn). left. split; [done|]. exists (used ++ pre), e.
        rewrite app_assoc. split_and!; [done|done|by apply Forall_app|done].
      * destruct E as [-> E]. right. split_and!; [done|by apply Forall_app|by left].
      * split; [by apply Forall_app|by left].
    + cbn in E. injection E as <- <- E. apply (f_equal length) in E. rewrite length_app in E.
      destruct more; [|cbn in E; lia]. rewrite app_nil_r. right. split_and!; [done|done|by right].
Qed.

(** [cancelAll] when epoll does not fail: everything waiting on the descriptor is
    posted. *)
Lemma cancelAll_clears tfd m fd c :
  io_inv tfd m -> fd <> tfd -> context_at m fd = Some c ->
  (forall ev, nonzero (fc_events c) = true -> fst (epoll_ctl (m_epfd m) EPOLL_CTL_DEL fd ev) = true) ->
  exists b out m' c', IOManager_cancelAll m fd = Ok (b, out, m') /\
    out ≡ₚ fc_tasks c /\ regs m ≡ₚ out ++ regs m' /\ context_at m' fd = Some c' /\ fc_events c' = 0.
Proof.
  intros I Hfd Hc Hctl. destruct (context_at_ok _ _ _ _ I Hc) as [H0 (Hcfd & r & w & He & Hr & Hw)].
  assert (Hlt : (Z.to_nat fd < length (m_fdContexts m))%nat).
  { unfold context_at in Hc. destruct (Z.ltb_spec fd 0); [lia|]. by eapply lookup_lt_Some. }
  unfold IOManager_cancelAll. destruct (Z.leb_spec (Z.of_nat (length (m_fdContexts m))) fd); [lia|].
  rewrite Hc. cbn [deref]. destruct (nonzero (fc_events c)) eqn:Hnz; cbn [negb].
  2: { exists false, [], m, c. assert (fc_events c = 0) by (unfold nonzero in Hnz; destruct (Z.eqb_spec (fc_events c) 0); done).
       split_and!; try done. unfold fc_tasks. rewrite He in Hnz. destruct r, w; try done. cbn in Hr, Hw. by rewrite Hr, Hw. }
  destruct (epoll_ctl (m_epfd m) EPOLL_CTL_DEL fd 0) as [ok k] eqn:E.
  assert (ok = true) as -> by (change ok with (fst (ok, k)); rewrite <- E; by apply Hctl).
  cbn [negb]. apply ctl_ok in E as (_ & Hint & Hoth).
  destruct (trigger_both tfd m fd c r w r w k I Hfd Hc He) as
    (out1 & c1 & m1 & out2 & c2 & m2 & E1 & E2 & He1 & He2 & I' & Hp & _ & _); try done.
  { rewrite Hint. by destruct r, w. }
  assert (Hm2 : m_fdContexts m2 = m_fdContexts m).
  { revert E1 E2. unfold trigger_if. outcome_cases. }
  replace (nonzero (Z.land (fc_events c) READ)) with r by (rewrite He; by destruct r, w).
  rewrite E1. cbn [obind].
  replace (nonzero (Z.land (fc_events c1) WRITE)) with w by (rewrite He1; by destruct r, w).
  rewrite E2. cbn [obind]. rewrite He2.
  replace (IOManager.mask (r && negb r) (w && negb w)) with 0 by (by destruct r, w). cbn [assertb].
  eexists true, _, _, c2. split; [reflexivity|].
  assert (Hc2 : context_at (put_ctx m2 fd c2) fd = Some c2).
  { unfold context_at. destruct (Z.ltb_spec fd 0); [lia|]. cbn. rewrite Hm2. by apply list_lookup_insert_eq. }
  destruct (trigger_if_out _ _ _ _ _ _ _ E1 (fc_read c) eq_refl) as [-> Hwr].
  { intros Hs. rewrite Hs in Hr. apply Hr. }
  destruct (trigger_if_out _ _ _ _ _ _ _ E2 (fc_write c1) eq_refl) as [-> _].
  { intros Hs. rewrite Hs in Hw. rewrite (Hwr eq_refl). apply Hw. }
  split_and!; [|done|done|rewrite He2; by destruct r, w].
  unfold fc_tasks. rewrite (Hwr eq_refl). destruct r, w; cbn in Hr, Hw; rewrite ?Hr, ?Hw; cbn; by rewrite ?app_nil_r.
Qed.

(** ** Suspension *)

Section suspend.
Variable tfd : Z.

Definition io_timer (c : io_call) (now : Z) : Timer := Timer_new now (c_to c) (Some (CondCb (c_tinfo c) (c_lambda c))) false.

Lemma addTimer_new t now p ms cb r :
  Timer.inv t -> tm_heap t !! p = None ->
  let t' := snd (TimerManager_addTimer t now p ms cb r) in
  (is_Some cb -> Timer.inv t') /\ tm_heap t' = <[p := Timer_new now ms cb r]> (tm_heap t) /\ m_timers t' ≡ₚ p :: m_timers t.
Proof.
  intros T Hp. pose proof T as [Hs Ha _].
  assert (Hn : p ∉ m_timers t) by (intros Hx%Ha; rewrite Hp in Hx; by destruct Hx).
  destruct (addTimer_locked_spec (with_heap t (<[p := Timer_new now ms cb r]> (tm_heap t))) p) as (_ & Hl & Hh & _);
    [by apply tsorted_update|done|].
  split_and!; [|exact Hh|exact Hl]. intros _. by auto with inv.
Qed.

Lemma io_arm_spec m c now p :
  io_inv tfd m -> Timer.inv (io_timers m) -> tm_heap (io_timers m) !! p = None ->
  exists t m', io_arm m c now p = (t, m') /\ io_inv tfd m' /\ Timer.inv (io_timers m') /\ regs m' = regs m /\
    m_fdContexts m' = m_fdContexts m /\
    match t with
    | None => c_to c = U64_MAX /\ m' = m
    | Some q => c_to c <> U64_MAX /\ q = p /\ tm_heap (io_timers m') !! p = Some (io_timer c now) /\ p ∈ m_timers (io_timers m')
    end.
Proof.
  intros I T Hp. unfold io_arm. destruct (Z.eqb_spec (c_to c) U64_MAX) as [E|E]; cbn [negb].
  - by exists None, m.
  - destruct (addTimer_new (io_timers m) now p (c_to c) (Some (CondCb (c_tinfo c) (c_lambda c))) false T Hp) as (Hi & Hh & Hl).
    eexists _, _. split; [reflexivity|]. split_and!; [by auto with inv|by apply Hi|done|done|done|done| |].
    + cbn [set_timers io_timers]. unfold TimerManager_addConditionTimer. rewrite Hh. apply lookup_insert_eq.
    + cbn [set_timers io_timers]. unfold TimerManager_addConditionTimer. rewrite Hl. left.
Qed.

Lemma cancel_timer_spec m t :
  io_inv tfd m -> Timer.inv (io_timers m) -> (forall q, t = Some q -> is_Some (tm_heap (io_timers m) !! q)) ->
  exists m', cancel_timer m t = Ok m' /\ io_inv tfd m' /\ Timer.inv (io_timers m') /\ regs m' = regs m /\
    forall q, t = Some q -> cb_at (tm_heap (io_timers m')) q = None.
Proof.
  intros I T Ht. destruct t as [q|]; cbn; [|by exists m].
  destruct (Ht q eq_refl) as [tq Hq]. destruct (cancel_inv _ q tq T Hq) as (r & t' & -> & T' & -> & H1 & H2). cbn.
  eexists. split; [reflexivity|]. split_and!; [by auto with inv|done|done|]. intros _ [= <-]. cbn. unfold cb_at.
  destruct (m_cb tq) as [cb|] eqn:Ecb; cbn in *.
  - destruct H1 as (_ & _ & ->); [done|]. by rewrite lookup_insert_eq.
  - rewrite H2, Hq by done. done.
Qed.

Lemma prepare_contexts m m' fd : m_fdContexts m' = m_fdContexts m ->
  context_at (addEvent_prepare m' fd) fd = context_at (addEvent_prepare m fd) fd.
Proof. intros E. unfold addEvent_prepare. rewrite E. destruct (_ <? _); unfold context_at; cbn; by rewrite ?E. Qed.

(** A hooked call that has to wait cannot miss its wake-up: when the original
    function would block, the fiber is switched out only after it is registered
    for its event, with one task that resumes it, and, if the socket has a
    time-out, after a timer for [now + timeout] is pending whose function cancels
    that event; when the event cannot be registered the call returns -1 with its
    timer cancelled.  When the function does not block nothing is registered. *)
Lemma do_io_suspends m added sent deleted c now p st rs r rest fc :
  io_run tfd m added sent deleted -> tm_heap (io_timers m) !! p = None ->
  0 <= c_fd c -> c_fd c <> tfd -> is_event (c_event c) -> st = EXEC ->
  context_at (addEvent_prepare m (c_fd c)) (c_fd c) = Some fc -> nonzero (Z.land (fc_events fc) (c_event c)) = false ->
  skip_eintr rs = Ok (r, rest) ->
  exists res m', io_retry m c now p st rs = Ok (res, m', rest) /\
  if sys_failed r EAGAIN then
    match res with
    | IoHold t =>
      regs m' ≡ₚ event_task (c_sched c) None (c_fiber c) :: regs m /\
      (c_to c = U64_MAX -> t = None) /\
      (c_to c <> U64_MAX -> t = Some p /\ p ∈ m_timers (io_timers m') /\ tm_heap (io_timers m') !! p = Some (io_timer c now))
    | IoReturn n e => n = -1 /\ e = None /\ regs m' = regs m /\ (c_to c <> U64_MAX -> cb_at (tm_heap (io_timers m')) p = None)
    end
  else res = IoReturn (fst r) (Some (snd r)) /\ m' = m.
Proof.
  intros Hrun Hp H0 Hfd Hev -> Hfc Hbit Hs. destruct (io_run_inv _ _ _ _ _ Hrun) as (I & T & _).
  unfold io_retry. rewrite Hs. cbn [obind]. destruct (sys_failed r EAGAIN); [|by eauto 10].
  destruct (io_arm_spec m c now p I T Hp) as (t & m1 & -> & I1 & T1 & Hr1 & Hc1 & Ht).
  rewrite <- (prepare_contexts m m1 _ Hc1) in Hfc.
  pose proof (addEvent_spec tfd m1 _ _ None (c_sched c) (c_fiber c) EXEC fc I1 H0 Hfd Hev ltac:(done) Hfc) as HA.
  rewrite Hbit in HA. destruct HA as (rt & m2 & E & I2 & HA). unfold io_wait. rewrite E. cbn [obind].
  apply addEvent_timers in E. destruct HA as [[-> HA]|[-> HA]]; cbn [Z.eqb negb].
  - cbn [obind]. eexists _, _. split; [reflexivity|]. cbn. rewrite HA, Hr1, E. split; [done|].
    destruct t as [q|]; [destruct Ht as (Hne & -> & Hh & Hin)|destruct Ht as [Hto ->]]; split; intros; try done.
  - destruct (cancel_timer_spec m2 t) as (m3 & -> & _ & _ & Hr3 & Hq); [done|by rewrite E| |].
    + rewrite E. intros q ->. destruct Ht as (_ & -> & Hh & _). by rewrite Hh.
    + cbn [obind]. eexists _, _. split; [reflexivity|]. cbn. rewrite Hr3, HA, Hr1. split_and!; try done.
      intros Hne. destruct t as [q|]; [|by destruct Ht]. destruct Ht as (_ & -> & _). by apply Hq.
Qed.

(** Nothing is registered for the event: cancelling it does nothing. *)
Lemma cancelEvent_idle m fd ev fc :
  context_at (addEvent_prepare m fd) fd = Some fc -> nonzero (Z.land (fc_events fc) ev) = false ->
  IOManager_cancelEvent m fd ev = Ok (false, [], m).
Proof.
  intros Hfc Hbit. unfold IOManager_cancelEvent. unfold addEvent_prepare in Hfc.
  destruct (Z.ltb_spec fd (Z.of_nat (length (m_fdContexts m)))) as [Hlt|Hge].
  - rewrite (proj2 (Z.leb_gt _ _)) by lia. rewrite Hfc. cbn [deref]. by rewrite Hbit.
  - by rewrite (proj2 (Z.leb_le _ _)) by lia.
Qed.

(** C40: a time-out can be lost.  The timer is armed before the event is registered.
    In every reachable state, for every call with a time-out on a descriptor that has
    nothing registered for its event: if the timer becomes due after it is armed and
    before the event is registered (an expiry scan of another worker at or after the
    deadline), the scan hands its function out, the function marks the call as timed
    out, finds no event to cancel and posts nothing; the call then registers its event
    and switches out all the same (or returns -1 when epoll refuses the event), and from
    then on the timer is out of the set and is never handed out again, whatever is done
    to the timers: the call waits without a timer. *)
Theorem do_io_timeout_lost m added sent deleted c now p later a fc :
  io_run tfd m added sent deleted -> tm_heap (io_timers m) !! p = None ->
  0 <= c_fd c -> c_fd c <> tfd -> is_event (c_event c) ->
  context_at (addEvent_prepare m (c_fd c)) (c_fd c) = Some fc -> nonzero (Z.land (fc_events fc) (c_event c)) = false ->
  c_to c <> U64_MAX -> 0 <= now -> 0 <= now + c_to c < 2 ^ 64 -> now + c_to c <= later ->
  tm_heap (io_timers (snd (io_arm m c now p))) !! a = None ->
  let m1 := snd (io_arm m c now p) in
  exists cbs t, TimerManager_listExpiredCb (io_timers m1) later a = Ok (cbs, t) /\
    In (Some (CondCb (c_tinfo c) (c_lambda c))) cbs /\
    let m2 := set_timers m1 t in
    io_timeout m2 c (Some 0) = Ok (Some ETIMEDOUT, [], m2) /\
    exists res m3, io_wait m2 c (Some p) EXEC = Ok (res, m3) /\
      match res with
      | IoHold timer => timer = Some p /\ regs m3 ≡ₚ event_task (c_sched c) None (c_fiber c) :: regs m /\
          p ∉ m_timers (io_timers m3) /\
          (forall fs t', trun (io_timers m3) fs t' -> p ∉ fs)
      | IoReturn n e => n = -1 /\ e = None /\ regs m3 = regs m
      end.
Proof.
  intros Hrun Hp H0 Hfd Hev Hfc Hbit Hto Hn Hsum Hle Ha. destruct (io_run_inv _ _ _ _ _ Hrun) as (I & T & _).
  destruct (io_arm_spec m c now p I T Hp) as (tm & m1 & E1 & I1 & T1 & Hr1 & Hc1 & Ht). rewrite E1 in Ha |- *. cbn [snd] in *.
  destruct tm as [q|]; [destruct Ht as (_ & -> & Hh & Hin)|by destruct Ht].
  destruct (listExpiredCb_spec (io_timers m1) later a T1 Ha) as (t & El & T2 & Hset & Hheap & _).
  assert (Hdue : p ∈ expired_at (io_timers m1) later).
  { unfold expired_at. destruct (fst _); [done|]. apply list_elem_of_filter. split; [|done].
    unfold next_at. rewrite Hh. cbn. unfold io_timer, Timer_new. cbn. by rewrite uwrap_small by lia. }
  eexists _, t. split; [exact El|]. split.
  { apply in_map_iff. exists p. split; [unfold cb_at; by rewrite Hh|by apply list_elem_of_In]. }
  assert (Hctx : m_fdContexts (set_timers m1 t) = m_fdContexts m) by done.
  rewrite <- (prepare_contexts m (set_timers m1 t) _ Hctx) in Hfc. cbn zeta. split.
  { unfold io_timeout. cbn [Z.eqb negb]. by rewrite (cancelEvent_idle _ _ _ _ Hfc Hbit). }
  pose proof (addEvent_spec tfd (set_timers m1 t) _ _ None (c_sched c) (c_fiber c) EXEC fc
    ltac:(by auto with inv) H0 Hfd Hev ltac:(done) Hfc) as HA.
  rewrite Hbit in HA. destruct HA as (rt & m3 & E & I3 & HA). unfold io_wait. rewrite E. cbn [obind].
  apply addEvent_timers in E. cbn [set_timers io_timers] in E.
  assert (Hd : dead (io_timers m3) p).
  { rewrite E. split.
    - rewrite Hset. unfold recurring_at. rewrite Hh. cbn. intros [_ [Hx|Hx]]; done.
    - rewrite Hheap, decide_True by done. rewrite Hh. by eexists. }
  destruct HA as [[-> HA]|[-> HA]]; cbn [Z.eqb negb].
  - eexists _, _. split; [reflexivity|]. cbn. rewrite HA. change (regs (set_timers m1 t)) with (regs m1). rewrite Hr1.
    split_and!; [done|done|apply Hd|]. intros fs t' Hf. eapply dead_run; [|exact Hf|exact Hd]. by rewrite E.
  - destruct (cancel_timer_spec m3 (Some p)) as (m4 & -> & _ & _ & Hr4 & _); [done|by rewrite E| |].
    + intros _ [= <-]. destruct Hd as (_ & tp & -> & _). done.
    + cbn [obind]. eexists _, _. split; [reflexivity|]. cbn. rewrite Hr4, HA. done.
Qed.

(** [sleep] sleeps: for a duration that fits in 32 bits of milliseconds, the
    running fiber's wake-up is handed out by the first expiry scan at or after
    [now + 1000 * seconds] and by none before it (while the clock is not set
    back); the timer is a one-shot. *)
Lemma hook_sleep_exact m added sent deleted seconds now p wake :
  io_run tfd m added sent deleted -> tm_heap (io_timers m) !! p = None ->
  0 <= seconds -> seconds * 1000 < 2 ^ 32 -> 0 <= now -> now + seconds * 1000 < 2 ^ 64 ->
  exists m', hook_sleep true m seconds now p wake = Some m' /\
    tm_heap (io_timers m') !! p = Some (mkTimer false (seconds * 1000) (now + seconds * 1000) (Some (Cb wake))) /\
    forall later a, tm_heap (io_timers m') !! a = None ->
      fst (TimerManager_detectClockRollover (io_timers m') later) = false ->
      exists due tm, TimerManager_listExpiredCb (io_timers m') later a = Ok (map (cb_at (tm_heap (io_timers m'))) due, tm) /\
        (p ∈ due <-> now + seconds * 1000 <= later).
Proof.
  intros Hrun Hp H0 Hs Hn Hsum. destruct (io_run_inv _ _ _ _ _ Hrun) as (I & T & _).
  unfold hook_sleep. cbn [negb]. eexists. split; [reflexivity|]. unfold sleep_for. cbn [set_timers io_timers].
  rewrite (uwrap_small 32) by lia.
  destruct (addTimer_new (io_timers m) now p (seconds * 1000) (Some (Cb wake)) false T Hp) as (Hi & Hh & Hl).
  specialize (Hi ltac:(by eexists)). set (t' := snd _) in *.
  assert (Hlook : tm_heap t' !! p = Some (mkTimer false (seconds * 1000) (now + seconds * 1000) (Some (Cb wake)))).
  { rewrite Hh, lookup_insert_eq. unfold Timer_new. by rewrite uwrap_small by lia. }
  split; [done|]. intros later a Ha Hroll. destruct (listExpiredCb_spec t' later a Hi Ha) as (tm & E & _).
  eexists _, tm. split; [exact E|]. unfold expired_at. rewrite Hroll, list_elem_of_filter, Hl.
  unfold next_at. rewrite Hlook. cbn. split; [tauto|]. intros Hle. split; [done|left].
Qed.

(** [close] of a socket leaves nobody waiting: every fiber or function
    registered for its events is posted, the descriptor has no events and no
    context any more, and no other descriptor's waiters or context change. *)
Lemma hook_close_releases {W} {FK : FdKernel W} m added sent deleted fds g (w : W) fd n c fc :
  io_run tfd m added sent deleted -> fd_rep fds g -> 0 <= fd -> fd <> tfd ->
  g !! fd = Some c -> context_at m fd = Some fc ->
  (forall ev, is_Some (interest (m_epfd m) fd) -> fst (epoll_ctl (m_epfd m) EPOLL_CTL_DEL fd ev) = true) ->
  exists out fds' m' fc', hook_close true true fds w m fd n = Ok (n, out, fds', m') /\
    out ≡ₚ fc_tasks fc /\ regs m ≡ₚ out ++ regs m' /\
    context_at m' fd = Some fc' /\ fc_events fc' = 0 /\ fd_rep fds' (delete fd g).
Proof.
  intros Hrun R H0 Hfd Hg Hfc Hctl. destruct (io_run_inv _ _ _ _ _ Hrun) as (I & _ & _).
  unfold hook_close. cbn [negb].
  destruct (get_rep fds g w fd false R) as (fds1 & -> & R1 & _); [lia|]. unfold spec_get in *. rewrite Hg in *. cbn [fst snd obind non_null] in *.
  destruct (cancelAll_clears tfd m fd fc I Hfd Hfc) as (b & out & m' & fc' & -> & Ho & Hr & Hc' & He').
  { intros ev Hev. apply Hctl. rewrite (io_epoll _ _ I fd Hfd), Hfc. unfold watched. cbn. by rewrite Hev. }
  cbn [obind]. destruct (del_rep fds1 g fd R1 H0) as (fds2 & -> & R2). cbn [obind].
  eexists _, _, _, _. split; [reflexivity|]. done.
Qed.

End suspend.

End calls.

(** ** Flags *)

Lemma nonblocking_lor x : nonblocking (Z.lor x O_NONBLOCK) = true.
Proof.
  unfold nonblocking. rewrite Z.land_lor_distr_l, Z.land_diag. apply negb_true_iff, Z.eqb_neq.
  intros [_ E]%Z.lor_eq_0_iff. done.
Qed.

Lemma nonblocking_land x : nonblocking (Z.land x (Z.lnot O_NONBLOCK)) = false.
Proof.
  unfold nonblocking. rewrite <- Z.land_assoc, (Z.land_comm _ O_NONBLOCK), Z.land_lnot_diag, Z.land_0_r. done.
Qed.

(** The program sees the flag it set while the hooks keep the socket
    non-blocking: after [fcntl(fd, F_SETFL, arg)] on a managed socket, the
    kernel's flag is the one the hooks want, [fcntl(fd, F_GETFL)] answers with
    [O_NONBLOCK] exactly when [arg] had it, and reads and writes are passed on
    unchanged in that case and hooked otherwise. *)
Lemma fcntl_flag_virtualised {W} {FK : FdKernel W} {FS : FdKernelSpec W} fds g (w : W) fd arg c f :
  fd_rep fds g -> 0 <= fd -> g !! fd = Some c -> m_isSocket c = true -> m_isClosed c = false -> flags w fd = Some f ->
  exists fds' w' f', hook_fcntl fds w fd F_SETFL arg = Ok (0, fds', w') /\
    flags w' fd = Some f' /\ nonblocking f' = m_sysNonblock c /\
    (exists n, hook_fcntl fds' w' fd F_GETFL 0 = Ok (n, fds', w') /\ nonblocking n = nonblocking arg) /\
    (forall so, do_io_route true fds' w' fd so =
       Ok (if nonblocking arg then RouteDirect else RouteHooked (FdCtx_getTimeout c so))).
Proof.
  intros R H0 Hg Hs Hcl Hf.
  assert (Hget : forall (m' : FdManager) g' (w0 : W) c', fd_rep m' g' -> g' !! fd = Some c' ->
            FdManager_get m' w0 fd false = Ok (Some c', m', w0)).
  { intros m' g' w0 c' R' Hg'. unfold FdManager_get. destruct (Z.eqb_spec fd (-1)); [lia|].
    rewrite <- (fd_map _ _ R') in Hg'.
    destruct (Z.leb_spec (Z.of_nat (length (m_fds m'))) fd); [by rewrite fd_view_out in Hg'|].
    rewrite fd_slot_ok, Hg' by lia. done. }
  assert (Hlen : fd < Z.of_nat (length (m_fds fds))).
  { rewrite <- (fd_map _ _ R) in Hg. destruct (Z.lt_ge_cases fd (Z.of_nat (length (m_fds fds)))); [done|].
    by rewrite fd_view_out in Hg. }
  set (c' := FdCtx_setUserNonblock c (nonblocking arg)).
  assert (R' : fd_rep (set_slot fds fd (Some c')) (<[fd := c']> g)) by (by apply rep_set).
  unfold hook_fcntl at 1. cbn [Z.eqb F_SETFL Pos.eqb]. rewrite (Hget _ _ _ _ R Hg). cbn [obind managed]. rewrite Hs, Hcl. cbn [orb negb].
  fold c'. set (arg' := if m_sysNonblock c' then _ else _).
  destruct (setfl_ok w fd f arg' Hf) as (w' & f' & -> & Hf' & Hnb & _). eexists _, _, _. split; [reflexivity|].
  split; [exact Hf'|]. split_and!.
  - rewrite Hnb. unfold arg', c'. cbn. destruct (m_sysNonblock c); [apply nonblocking_lor|apply nonblocking_land].
  - unfold hook_fcntl. cbn [Z.eqb F_SETFL F_GETFL Pos.eqb]. destruct (getfl_ok w' fd f' Hf') as [-> _].
    rewrite (Hget _ _ _ _ R' (lookup_insert_eq _ _ _)). cbn [obind managed].
    replace (m_isClosed c' || negb (m_isSocket c')) with false by (unfold c'; cbn; by rewrite Hs, Hcl).
    eexists. split; [reflexivity|]. unfold c'. cbn. destruct (nonblocking arg); [apply nonblocking_lor|apply nonblocking_land].
  - intros so. unfold do_io_route. cbn [negb]. rewrite (Hget _ _ _ _ R' (lookup_insert_eq _ _ _)). cbn [obind].
    unfold c'. cbn. rewrite Hcl, Hs. cbn. by destruct (nonblocking arg).
Qed.

(** ** Examples *)

Definition demo_call : io_call := mkCall 5 READ 10 200 21 1 9.
Definition demo_fds : FdManager := set_slot FdManager_new 5 (Some (mkFdCtx true true true false false 5 U64_MAX U64_MAX)).
Definition demo_map : gmap Z FdCtx := {[ 5 := mkFdCtx true true true false false 5 U64_MAX U64_MAX ]}.
Definition demo_world : fd_world := {[ 5 := (true, 0x800%N) ]}.

Lemma demo_rep : fd_rep demo_fds demo_map.
Proof. unfold demo_map. rewrite <- insert_empty. apply rep_set; [apply fd_rep_new|by vm_compute]. Qed.

Lemma demo_context : exists fc, context_at (addEvent_prepare io_demo0 5) 5 = Some fc /\ fc_events fc = 0.
Proof. eexists. split; vm_compute; reflexivity. Qed.

(** Interrupted, then would block; the fiber is suspended, resumed, and reads 3 bytes. *)
Definition demo_used : list sys_result := [(-1, EINTR); (-1, EAGAIN)].

Definition io_result_of {A B} (o : outcome (io_result * A * B)) : option io_result :=
  match o with Ok (r, _, _) => Some r | _ => None end.
Definition io_state_of {A} (o : outcome (A * IOManager (gmap Z Z) * list sys_result)) : IOManager (gmap Z Z) :=
  match o with Ok (_, m, _) => m | _ => io_demo0 end.

Definition demo_held : IOManager (gmap Z Z) := io_state_of (io_retry io_demo0 demo_call 0 64 EXEC (demo_used ++ [(3, 0)])).
Definition demo_resumed : IOManager (gmap Z Z) := io_state_of (io_resume demo_held demo_call (Some 64) 0 7 65 EXEC ([(3, 0)] ++ [])).

Lemma do_io_result_witness :
  exists pre e', Some 0 = Some e' /\ demo_used ++ [(3, 0)] = pre ++ [(3, e')] /\
    Forall (fun x => again x = true) pre /\ again (3, e') = false.
Proof.
  assert (H : call_run demo_call (IoReturn 3 (Some 0)) demo_resumed 0 (demo_used ++ [(3, 0)])).
  { apply (call_resume demo_call (Some 64) demo_held 0 demo_used 7 65 EXEC [(3, 0)] []).
    - apply (call_start demo_call io_demo0 0 64 EXEC demo_used [(3, 0)]). vm_compute. reflexivity.
    - vm_compute. reflexivity. }
  destruct (do_io_result demo_call _ _ _ _ H) as [[_ Hr]|[Hn _]]; [exact Hr|done].
Defined.

Lemma do_io_suspends_witness :
  exists res m', io_retry io_demo0 demo_call 0 64 EXEC demo_used = Ok (res, m', []) /\
  match res with
  | IoHold t => regs m' ≡ₚ event_task 1 None 9 :: regs io_demo0 /\ (10 = U64_MAX -> t = None) /\
      (10 <> U64_MAX -> t = Some 64 /\ 64 ∈ m_timers (io_timers m') /\
                        tm_heap (io_timers m') !! 64 = Some (io_timer demo_call 0))
  | IoReturn n e => n = -1 /\ e = None /\ regs m' = regs io_demo0 /\
      (10 <> U64_MAX -> cb_at (tm_heap (io_timers m')) 64 = None)
  end.
Proof.
  destruct demo_context as (fc & Hfc & He).
  apply (do_io_suspends 3 io_demo0 [] [] 0 demo_call 0 64 EXEC demo_used (-1, EAGAIN) [] fc io_demo0_run);
    [reflexivity|cbn; lia|cbn; lia|by left|done|exact Hfc|by rewrite He|reflexivity].
Defined.

Lemma hook_sleep_exact_witness :
  exists m', hook_sleep true io_demo0 2 100 64 9 = Some m' /\
    tm_heap (io_timers m') !! 64 = Some (mkTimer false 2000 2100 (Some (Cb 9))) /\
    forall later a, tm_heap (io_timers m') !! a = None ->
      fst (TimerManager_detectClockRollover (io_timers m') later) = false ->
      exists due tm, TimerManager_listExpiredCb (io_timers m') later a = Ok (map (cb_at (tm_heap (io_timers m'))) due, tm) /\
        (64 ∈ due <-> 2100 <= later).
Proof.
  apply (hook_sleep_exact 3 io_demo0 [] [] 0 2 100 64 9 io_demo0_run); [reflexivity|lia|lia|lia|lia].
Defined.

Lemma hook_close_releases_witness :
  exists out fds' m' fc', hook_close true true
      (set_slot FdManager_new 40 (Some (mkFdCtx true true true false false 40 U64_MAX U64_MAX)))
      (∅ : fd_world) io_demo_state 40 0 = Ok (0, out, fds', m') /\
    out ≡ₚ [read7; write9] /\ regs io_demo_state ≡ₚ out ++ regs m' /\
    context_at m' 40 = Some fc' /\ fc_events fc' = 0 /\ fd_rep fds' ∅.
Proof.
  assert (Hc : exists fc, context_at io_demo_state 40 = Some fc /\ fc_tasks fc = [read7; write9])
    by (eexists; split; vm_compute; reflexivity).
  destruct Hc as (fc & Hc & <-).
  set (c := mkFdCtx true true true false false 40 U64_MAX U64_MAX).
  rewrite <- (delete_singleton_eq 40 c).
  apply (hook_close_releases 3 io_demo_state _ _ _ _ {[ 40 := c ]} (∅ : fd_world) 40 0 c fc io_demo_run);
    [rewrite <- insert_empty; apply rep_set; [apply fd_rep_new|by vm_compute]|lia|lia
    |apply lookup_singleton_eq|exact Hc|intros ev _; vm_compute; reflexivity].
Defined.

Lemma fcntl_flag_virtualised_witness :
  exists fds' w' f', hook_fcntl demo_fds demo_world 5 F_SETFL O_NONBLOCK = Ok (0, fds', w') /\
    flags w' 5 = Some f' /\ nonblocking f' = true /\
    (exists n, hook_fcntl fds' w' 5 F_GETFL 0 = Ok (n, fds', w') /\ nonblocking n = true) /\
    (forall so, do_io_route true fds' w' 5 so = Ok RouteDirect).
Proof.
  apply (fcntl_flag_virtualised demo_fds demo_map demo_world 5 O_NONBLOCK
    (mkFdCtx true true true false false 5 U64_MAX U64_MAX) 0x800 demo_rep); [lia|reflexivity..].
Defined.

(** ** Where the code departs from its intent *)

(** A read with a time-out of 10 ms whose timer expires before the event is registered. *)
Lemma do_io_timeout_lost_witness :
  let m1 := snd (io_arm io_demo0 demo_call 0 64) in
  exists cbs t, TimerManager_listExpiredCb (io_timers m1) 10 128 = Ok (cbs, t) /\
    In (Some (CondCb 200 21)) cbs /\
    let m2 := set_timers m1 t in
    io_timeout m2 demo_call (Some 0) = Ok (Some ETIMEDOUT, [], m2) /\
    exists res m3, io_wait m2 demo_call (Some 64) EXEC = Ok (res, m3) /\
      match res with
      | IoHold timer => timer = Some 64 /\ regs m3 ≡ₚ event_task 1 None 9 :: regs io_demo0 /\
          64 ∉ m_timers (io_timers m3) /\
          (forall fs t', trun (io_timers m3) fs t' -> 64 ∉ fs)
      | IoReturn n e => n = -1 /\ e = None /\ regs m3 = regs io_demo0
      end.
Proof.
  destruct demo_context as (fc & Hfc & He).
  apply (do_io_timeout_lost 3 io_demo0 [] [] 0 demo_call 0 64 10 128 fc io_demo0_run);
    [reflexivity|cbn; lia|cbn; lia|by left|exact Hfc|by rewrite He|discriminate|lia|cbn; lia|cbn; lia|vm_compute; reflexivity].
Defined.

(** [seconds * 1000] is computed in 32 bits: sleeping for 4294968 seconds (50 days)
    arms a timer for 704 milliseconds. *)
Lemma hook_sleep_wraps (m : IOManager (gmap Z Z)) now p wake :
  hook_sleep true m 4294968 now p wake = Some (sleep_for m now p 704 wake).
Proof. reflexivity. Qed.

(** [nanosleep] for less than a millisecond arms a timer for 0 ms, and one for 25
    days and more a timer for about 2^64 ms. *)
Lemma hook_nanosleep_wraps (m : IOManager (gmap Z Z)) now p wake :
  hook_nanosleep true m 0 999999 now p wake = Some (sleep_for m now p 0 wake) /\
  hook_nanosleep true m 2147484 0 now p wake = Some (sleep_for m now p (2 ^ 64 - 2147483296) wake).
Proof. split; reflexivity. Qed.

(** [ioctl(fd, FIONBIO, 0)] goes to the kernel as it is: the socket becomes
    blocking, although its context still says that the hooks made it non-blocking
    and reads are still hooked; the next one blocks the thread.  ([fcntl] puts
    [O_NONBLOCK] back in that case.) *)
#[global] Instance fd_world_ioctl : IoctlKernel fd_world := fun w d request arg =>
  match w !! d with
  | Some (s, f) => if request =? FIONBIO then (0, <[d := (s, if arg =? 0 then 0%N else 0x800%N)]> w) else (0, w)
  | None => (-1, w)
  end.

Lemma hook_ioctl_blocks :
  exists fds' w', hook_ioctl demo_fds demo_world 5 FIONBIO 0 = Ok (0, fds', w') /\
    (exists f, flags w' 5 = Some f /\ nonblocking f = false) /\
    do_io_route true fds' w' 5 SO_RCVTIMEO = Ok (RouteHooked U64_MAX).
Proof.
  exists demo_fds, (<[5 := (true, 0%N)]> demo_world). split; [vm_compute; reflexivity|].
  split; [exists 0; split; vm_compute; reflexivity|vm_compute; reflexivity].
Qed.

(** When the write event cannot be registered, [connect] does not wait and asks
    for [SO_ERROR], which is 0 while the connection is still being set up: it
    returns 0 for a socket that is not connected. *)
Lemma connect_false_success {K} {EO : EpollOps K} (m m' : IOManager K) c now p st :
  c_to c = U64_MAX ->
  IOManager_addEvent m (c_fd c) WRITE None (Some (c_sched c)) (c_fiber c) st = Ok (-1, m') ->
  connect_wait m c now p st (0, 0) = Ok (IoReturn 0 None, m').
Proof. intros Ht E. unfold connect_wait, io_arm. rewrite Ht, Z.eqb_refl. cbn [negb]. rewrite E. reflexivity. Qed.

(** When [fcntl(F_GETFL)] fails for a descriptor that has a context, the hook
    clears a bit of the -1 and returns -2049. *)
Lemma hook_getfl_hides_error :
  hook_fcntl demo_fds (∅ : fd_world) 5 F_GETFL 0 = Ok (-2049, demo_fds, ∅).
Proof. vm_compute. reflexivity. Qed.

(** A time-out of zero, which for the kernel means none, makes every call that has
    to wait time out at once. *)
Lemma setsockopt_zero_timeout :
  exists fds', hook_setsockopt true demo_fds demo_world 5 SOL_SOCKET SO_RCVTIMEO 0 0 0 = Ok (0, fds') /\
    do_io_route true fds' demo_world 5 SO_RCVTIMEO = Ok (RouteHooked 0) /\
    m_next (io_timer (mkCall 5 READ 0 200 21 1 9) 1000) = 1000.
Proof.
  exists (set_slot demo_fds 5 (Some (mkFdCtx true true true false false 5 0 U64_MAX))).
  split_and!; vm_compute; reflexivity.
Qed.
