(* ===== verification/HashUtil.v ===== *)
(** * Hashes and encodings ([util/hash_util.cc])

    [murmur3_hash] and [quick_hash], Base64, hexadecimal, [replace] and [split] on
    byte strings, and [hmac] over a hash function of OpenSSL, which is a parameter.
    Words are loaded the way a little-endian host does it. *)

From S2P Require Import Prelude.
From Stdlib Require Import ZArith Lia List String.
From stdpp Require Import base tactics list numbers option.

Open Scope Z_scope.
Open Scope list_scope.

(** ** MurmurHash3 *)

(** @src util/hash_util.cc:12-12 ROTL *)
Definition ROTL (x r : Z) : Z := Z.lor (u32 (Z.shiftl x r)) (Z.shiftr x (32 - r)).

(** @src util/hash_util.cc:14-23 fmix32 *)
Definition fmix32 (h : Z) : Z :=
  let h := Z.lxor h (Z.shiftr h 16) in
  let h := u32 (h * 0x85ebca6b) in
  let h := Z.lxor h (Z.shiftr h 13) in
  let h := u32 (h * 0xc2b2ae35) in
  Z.lxor h (Z.shiftr h 16).

Definition murmur_seed1 : Z := 0xcc9e2d51.
Definition murmur_seed2 : Z := 0x1b873593.

(** What both loops do with a word. *)
Definition murmur_scramble (s : Z) : Z := u32 (ROTL (u32 (s * murmur_seed1)) 15 * murmur_seed2).

(** One iteration over the blocks (lines 38-46). *)
Definition murmur_block (h s : Z) : Z := u32 (u32 (ROTL (Z.lxor h (murmur_scramble s)) 13 * 5) + 0xe6546b64).

Definition byte_at (str : bytes) (i : nat) : Z := nth i str 0.

(** [ptr[i]]. *)
Definition word_at (str : bytes) (i : nat) : Z :=
  Z.lor (byte_at str (4 * i))
    (Z.lor (Z.shiftl (byte_at str (4 * i + 1)) 8)
      (Z.lor (Z.shiftl (byte_at str (4 * i + 2)) 16) (Z.shiftl (byte_at str (4 * i + 3)) 24))).

(** The switch with its fall-through (lines 50-62): the bytes after [blk * 4]. *)
Definition murmur_tail (str : bytes) (blk : nat) (rem h : Z) : Z :=
  let t i := byte_at str (blk * 4 + i) in
  let s := if rem =? 3 then Z.lor 0 (Z.shiftl (t 2%nat) 16) else 0 in
  let s := if (rem =? 3) || (rem =? 2) then Z.lor s (Z.shiftl (t 1%nat) 8) else s in
  if (rem =? 3) || (rem =? 2) || (rem =? 1) then Z.lxor h (murmur_scramble (Z.lor s (t 0%nat))) else h.

(** @src util/hash_util.cc:25-65 murmur3_hash
    [None] is a null pointer; the length is below 2^31. *)
Definition murmur3_hash (data : option bytes) (size seed : Z) : Z :=
  match data with
  | None => 0
  | Some str =>
    let blk := Z.to_nat (size / 4) in
    let h := fold_left (fun h i => murmur_block h (word_at str i)) (seq 0 blk) seed in
    let h := murmur_tail str blk (Z.land size 3) h in
    fmix32 (Z.lxor h size)
  end.

(** @src util/hash_util.cc:68-107 murmur3_hash
    The overload for C strings. *)
Definition murmur3_hash_cstr (str : option bytes) (seed : Z) : Z :=
  match str with
  | None => 0
  | Some s =>
    let len := Z.of_nat (length s) in
    let blk := Z.to_nat (len / 4) in
    let h := fold_left (fun h i => murmur_block h (word_at s i)) (seq 0 blk) seed in
    let h := murmur_tail s blk (Z.land len 3) h in
    fmix32 (Z.lxor h len)
  end.

(** @src util/hash_util.cc:126-128 murmur3_hash64 *)
Definition murmur3_hash64 (data : option bytes) (size seed seed2 : Z) : Z :=
  Z.lor (Z.shiftl (murmur3_hash data size seed) 32) (murmur3_hash data size seed2).

(** @src util/hash_util.cc:109-115 quick_hash
    [*str] is a signed char. *)
Definition quick_hash (str : bytes) : Z := fold_left (fun h c => u32 (31 * h + i8 c)) str 0.

(** @src util/hash_util.cc:117-124 quick_hash
    The overload with a size: the pointer stays where it is. *)
Definition quick_hash_sized (str : bytes) (size : Z) : Z :=
  Nat.iter (Z.to_nat size) (fun h => u32 (31 * h + i8 (byte_at str 0))) 0.

(** ** Base64 *)

Definition base64_alphabet : bytes :=
  str "ABCDEFGHIJKLMNOPQRSTUVWXYZabcdefghijklmnopqrstuvwxyz0123456789+/".

Definition base64_char (v : Z) : Z := nth (Z.to_nat v) base64_alphabet 0.

(** One turn of the encoder's loop, for the next one, two or three bytes. *)
Definition encode_group (g : bytes) : bytes :=
  let i := length g in
  let packed := fold_left (fun p b => Z.lor (u32 (Z.shiftl p 8)) b) g 0 in
  let padding := if (i =? 2)%nat then 1%nat else if (i =? 1)%nat then 2%nat else 0%nat in
  let packed := Nat.iter (3 - i) (fun p => u32 (Z.shiftl p 8)) packed in
  [base64_char (Z.shiftr packed 18); base64_char (Z.land (Z.shiftr packed 12) 0x3f)]
  ++ (if negb (padding =? 2)%nat then [base64_char (Z.land (Z.shiftr packed 6) 0x3f)] else [])
  ++ (if (padding =? 0)%nat then [base64_char (Z.land packed 0x3f)] else [])
  ++ replicate padding (chr "=").

(** @src util/hash_util.cc:201-239 base64encode *)
Fixpoint base64encode (data : bytes) : bytes :=
  match data with
  | [] => []
  | a :: b :: c :: r => encode_group [a; b; c] ++ base64encode r
  | g => encode_group g
  end.

Definition in_range (c lo hi : Z) : bool := (lo <=? c) && (c <=? hi).

(** The value of a character (lines 157-170). *)
Definition base64_val (c : Z) : option Z :=
  if in_range c (chr "A") (chr "Z") then Some (c - chr "A")
  else if in_range c (chr "a") (chr "z") then Some (c - chr "a" + 26)
  else if in_range c (chr "0") (chr "9") then Some (c - chr "0" + 52)
  else if c =? chr "+" then Some 62
  else if c =? chr "/" then Some 63
  else None.

(** The inner loop over the characters of a group: padding and packed bits. *)
Fixpoint decode_chars (g : bytes) (padding packed : Z) : option (Z * Z) :=
  match g with
  | [] => Some (padding, packed)
  | c :: g =>
    if c =? chr "=" then decode_chars g (padding + 1) (Z.shiftl packed 6)
    else if 0 <? padding then None
    else match base64_val c with
         | Some val => decode_chars g padding (Z.lor (Z.shiftl packed 6) val)
         | None => None
         end
  end.

(** The rest of the loop's body; [rest] is what follows the group. *)
Definition decode_group (g rest : bytes) : option bytes :=
  match decode_chars g 0 0 with
  | None => None
  | Some (padding, packed) =>
    if negb (length g =? 4)%nat then None
    else if (0 <? padding) && negb (length rest =? 0)%nat then None
    else if 2 <? padding then None
    else Some ([Z.land (Z.shiftr packed 16) 0xff]
               ++ (if negb (padding =? 2) then [Z.land (Z.shiftr packed 8) 0xff] else [])
               ++ (if padding =? 0 then [Z.land packed 0xff] else []))
  end.

Fixpoint base64decode_loop (src : bytes) : option bytes :=
  match src with
  | [] => Some []
  | a :: b :: c :: d :: rest =>
    match decode_group [a; b; c; d] rest with
    | None => None
    | Some out => match base64decode_loop rest with Some r => Some (out ++ r) | None => None end
    end
  | g => decode_group g []
  end.

(** @src util/hash_util.cc:133-195 base64decode
    The empty string also stands for an error. *)
Definition base64decode (src : bytes) : bytes := from_option id [] (base64decode_loop src).

(** ** Hexadecimal *)

Definition hex_char (c : Z) : Z := if 9 <? c then c + chr "a" - 10 else c + chr "0".

(** @src util/hash_util.cc:366-378 hexstring_from_data *)
Definition hexstring_from_data (data : bytes) : bytes :=
  flat_map (fun b => [hex_char (Z.land (Z.shiftr b 4) 0xf); hex_char (Z.land b 0xf)]) data.

(** The switch over a character: [None] throws. *)
Definition hex_digit (c : Z) : option Z :=
  if in_range c (chr "a") (chr "f") then Some (c - chr "a" + 10)
  else if in_range c (chr "A") (chr "F") then Some (c - chr "A" + 10)
  else if in_range c (chr "0") (chr "9") then Some (c - chr "0")
  else None.

Fixpoint hex_loop (s : bytes) : outcome bytes :=
  match s with
  | a :: b :: r =>
    match hex_digit a with
    | None => Throw invalid_argument
    | Some hi =>
      match hex_digit b with
      | None => Throw invalid_argument
      | Some lo => let! out := hex_loop r in Ok (Z.lor (u8 (Z.shiftl hi 4)) lo :: out)
      end
    end
  | _ => Ok []
  end.

(** @src util/hash_util.cc:395-469 data_from_hexstring *)
Definition data_from_hexstring (s : bytes) : outcome bytes :=
  if Nat.odd (length s) then Throw invalid_argument else hex_loop s.

(** @src util/hash_util.cc:471-482 data_from_hexstring
    The overload that returns a string. *)
Definition data_from_hexstring_str (s : bytes) : outcome bytes :=
  if Nat.odd (length s) then Throw invalid_argument
  else if (length s =? 0)%nat then Ok [] else data_from_hexstring s.

(** ** Searching and splitting *)

Fixpoint is_prefix (p s : bytes) : bool :=
  match p, s with
  | [], _ => true
  | x :: p, y :: s => (x =? y) && is_prefix p s
  | _, [] => false
  end.

(** The first position of [p] in [s]. *)
Fixpoint find_sub (p s : bytes) : option nat :=
  if is_prefix p s then Some 0%nat
  else match s with [] => None | _ :: s => S <$> find_sub p s end.

(** [s.find(p, pos)]; [npos] is [None]. *)
Definition str_find (s p : bytes) (pos : nat) : option nat :=
  if (pos <=? length s)%nat then (fun i => (pos + i)%nat) <$> find_sub p (drop pos s) else None.

(** [s.find(c, pos)] and [s.find_first_of(delims, pos)]: the first position with a
    character that satisfies [f]. *)
Definition str_find_char (f : Z -> bool) (s : bytes) (pos : nat) : option nat :=
  (fun i => (pos + i)%nat) <$> first_pos f (drop pos s).

(** @src util/hash_util.cc:488-496 replace
    A character by a character. *)
Definition replace_char (s : bytes) (find replaceWith : Z) : outcome bytes :=
  (fix loop (fuel : nat) (s : bytes) (index : option nat) : outcome bytes :=
     match fuel with
     | O => NoFuel
     | S fuel =>
       match index with
       | None => Ok s
       | Some i => let s := <[i := replaceWith]> s in loop fuel s (str_find_char (Z.eqb find) s (i + 1))
       end
     end) (S (length s)) s (str_find_char (Z.eqb find) s 0).

(** The loop of the other two overloads; [n] is the length of what is searched. *)
Fixpoint replace_loop (fuel : nat) (search : bytes -> nat -> option nat) (n : nat) (s : bytes)
    (index : option nat) (replaceWith : bytes) : outcome bytes :=
  match fuel with
  | O => NoFuel
  | S fuel =>
    match index with
    | None => Ok s
    | Some i =>
      let s := take i s ++ replaceWith ++ drop (i + n) s in
      replace_loop fuel search n s (search s (i + length replaceWith)%nat) replaceWith
    end
  end.

(** @src util/hash_util.cc:498-506 replace
    A character by a string. *)
Definition replace_char_str (fuel : nat) (s : bytes) (find : Z) (replaceWith : bytes) : outcome bytes :=
  replace_loop fuel (str_find_char (Z.eqb find)) 1 s (str_find_char (Z.eqb find) s 0) replaceWith.

(** @src util/hash_util.cc:508-516 replace
    A string by a string. *)
Definition replace_str (fuel : nat) (s find replaceWith : bytes) : outcome bytes :=
  replace_loop fuel (fun s => str_find s find) (length find) s (str_find s find 0) replaceWith.

(** The loop both overloads of [split] have; [find] is the search. *)
Fixpoint split_loop (fuel : nat) (find : bytes -> nat -> option nat) (s : bytes) (last : nat)
    (pos : option nat) (max : Z) (result : list bytes) : outcome (list bytes) :=
  match fuel with
  | O => NoFuel
  | S fuel =>
    match pos with
    | None => Ok (result ++ [drop last s])
    | Some p =>
      let result := result ++ [take (p - last) (drop last s)] in
      let last := (p + 1)%nat in
      let max := u64 (max - 1) in
      if max =? 1 then Ok (result ++ [drop last s])
      else split_loop fuel find s last (find s last) max result
    end
  end.

(** @src util/hash_util.cc:518-535 split *)
Definition split (s : bytes) (delim max : Z) : outcome (list bytes) :=
  if (length s =? 0)%nat then Ok []
  else split_loop (S (length s)) (str_find_char (Z.eqb delim)) s 0 (str_find_char (Z.eqb delim) s 0) max [].

(** @src util/hash_util.cc:537-554 split
    Any of several delimiters. *)
Definition split_any (s delims : bytes) (max : Z) : outcome (list bytes) :=
  let f c := existsb (Z.eqb c) delims in
  if (length s =? 0)%nat then Ok []
  else split_loop (S (length s)) (str_find_char f) s 0 (str_find_char f s 0) max [].

(** ** HMAC *)

Section hmac.
(** A hash function of OpenSSL: its context, and the three calls. *)
Variables (CTX : Type) (Init : CTX) (Update : CTX -> bytes -> CTX) (Final : CTX -> bytes).
(** The block size and the length of the digest. *)
Variables (B L : nat).

Definition xorStruct (value in_ : Z) : Z := Z.lxor in_ value.

(** @src util/hash_util.cc:311-335 hmac *)
Definition hmac (text key : bytes) : bytes :=
  let keyLocal := if (B <? length key)%nat then Final (Update Init key) else key in
  let keyLocal := keyLocal ++ replicate (B - length keyLocal) 0 in
  let ipad := map (xorStruct 0x36) keyLocal in
  let opad := map (xorStruct 0x5c) keyLocal in
  let ctx := Update Init (take B ipad) in
  let ctx := Update ctx text in
  let result := Final ctx in
  let ctx := Update Init (take B opad) in
  let ctx := Update ctx (take L result) in
  Final ctx.

End hmac.

(** ** Digests *)

(** A hash function of OpenSSL with the constants of its header ([MD5_CBLOCK],
    [MD5_DIGEST_LENGTH] and so on). *)
Record digest := {
  CTX : Type;
  Init : CTX;
  Update : CTX -> bytes -> CTX;
  Final : CTX -> bytes;
  CBLOCK : nat;
  DIGEST_LENGTH : nat
}.

Section digests.
Variables MD5 SHA1 SHA256 : digest.

(** @src util/hash_util.cc:249-257 md5sum
    The overload for strings (259-261) passes the bytes of the string. *)
Definition md5sum (data : bytes) : bytes := Final MD5 (Update MD5 (Init MD5) data).

(** @src util/hash_util.cc:263-280 sha0sum
    The body calls the functions of SHA-1. *)
Definition sha0sum (data : bytes) : bytes := Final SHA1 (Update SHA1 (Init SHA1) data).

(** @src util/hash_util.cc:286-294 sha1sum *)
Definition sha1sum (data : bytes) : bytes := Final SHA1 (Update SHA1 (Init SHA1) data).

(** @src util/hash_util.cc:241-243 md5 *)
Definition md5 (data : bytes) : bytes := hexstring_from_data (take (DIGEST_LENGTH MD5) (md5sum data)).

(** @src util/hash_util.cc:245-247 sha1 *)
Definition sha1 (data : bytes) : bytes := hexstring_from_data (take (DIGEST_LENGTH SHA1) (sha1sum data)).

(** @src util/hash_util.cc:337-344 hmac_md5 *)
Definition hmac_md5 (text key : bytes) : bytes :=
  hmac (CTX MD5) (Init MD5) (Update MD5) (Final MD5) (CBLOCK MD5) (DIGEST_LENGTH MD5) text key.

(** @src util/hash_util.cc:346-353 hmac_sha1 *)
Definition hmac_sha1 (text key : bytes) : bytes :=
  hmac (CTX SHA1) (Init SHA1) (Update SHA1) (Final SHA1) (CBLOCK SHA1) (DIGEST_LENGTH SHA1) text key.

(** @src util/hash_util.cc:355-363 hmac_sha256 *)
Definition hmac_sha256 (text key : bytes) : bytes :=
  hmac (CTX SHA256) (Init SHA256) (Update SHA256) (Final SHA256) (CBLOCK SHA256) (DIGEST_LENGTH SHA256) text key.

End digests.

(** ** Base64 round trip *)

Lemma base64_digit v : 0 <= v < 64 -> base64_val (base64_char v) = Some v /\ (base64_char v =? chr "=") = false.
Proof.
  assert (H : forallb (fun v => match base64_val (base64_char v) with Some x => x =? v | None => false end
                       && negb (base64_char v =? chr "=")) (map Z.of_nat (seq 0 64)) = true) by (vm_compute; reflexivity).
  intros Hv. rewrite forallb_forall in H.
  assert (Hin : In v (map Z.of_nat (seq 0 64))) by (by apply in_bytes).
  apply H, andb_prop in Hin as [H1 H2]. apply negb_true_iff in H2. split; [|done]. destruct (base64_val _); [|done]. by apply Z.eqb_eq in H1 as ->.
Qed.

Lemma decode_char v g packed : 0 <= v < 64 ->
  decode_chars (base64_char v :: g) 0 packed = decode_chars g 0 (Z.lor (Z.shiftl packed 6) v).
Proof. intros Hv. destruct (base64_digit v Hv) as [E1 E2]. cbn [decode_chars]. by rewrite E2, E1. Qed.

Lemma pack6 p v : 0 <= v < 64 -> Z.lor (Z.shiftl p 6) v = v + p * 64.
Proof. intros. rewrite Z.lor_comm. apply (lor_shiftl_disjoint v p 6); lia. Qed.

Lemma pack8 p b : is_byte b -> 0 <= p -> p < 2 ^ 16 -> Z.lor (u32 (Z.shiftl p 8)) b = b + p * 256.
Proof.
  intros Hb Hp Hp'. rewrite uwrap_small by (rewrite Z.shiftl_mul_pow2; lia).
  rewrite Z.lor_comm. apply (lor_shiftl_disjoint b p 8); [lia|]. unfold is_byte in Hb. lia.
Qed.

Lemma land_mod x n : 0 <= n -> Z.land x (2 ^ n - 1) = x mod 2 ^ n.
Proof. intros. rewrite <- Z.land_ones by done. f_equal. rewrite Z.ones_equiv. lia. Qed.

(** The four digits of 24 bits. *)
Lemma digits24 x : 0 <= x < 2 ^ 24 ->
  exists v1 v2 v3 v4, Z.shiftr x 18 = v1 /\ Z.land (Z.shiftr x 12) 0x3f = v2 /\
    Z.land (Z.shiftr x 6) 0x3f = v3 /\ Z.land x 0x3f = v4 /\
    0 <= v1 < 64 /\ 0 <= v2 < 64 /\ 0 <= v3 < 64 /\ 0 <= v4 < 64 /\
    x = v4 + (v3 + (v2 + v1 * 64) * 64) * 64.
Proof.
  intros Hx. change 0x3f with (2 ^ 6 - 1). rewrite !land_mod, !Z.shiftr_div_pow2 by lia.
  eexists _, _, _, _. do 4 (split; [reflexivity|]).
  change (2 ^ 18) with 262144. change (2 ^ 12) with 4096. change (2 ^ 6) with 64 in *. change (2 ^ 24) with 16777216 in Hx.
  Z.to_euclidean_division_equations. lia.
Qed.

Lemma bytes24 a b c : is_byte a -> is_byte b -> is_byte c ->
  let x := c + (b + a * 256) * 256 in
  0 <= x < 2 ^ 24 /\ Z.land (Z.shiftr x 16) 0xff = a /\ Z.land (Z.shiftr x 8) 0xff = b /\ Z.land x 0xff = c.
Proof.
  intros Ha Hb Hc x. subst x. unfold is_byte in *. change 0xff with (2 ^ 8 - 1).
  rewrite !land_mod, !Z.shiftr_div_pow2 by lia. change (2 ^ 24) with 16777216.
  change (2 ^ 16) with 65536. change (2 ^ 8) with 256.
  Z.to_euclidean_division_equations. lia.
Qed.

Lemma encode3 a b c : is_byte a -> is_byte b -> is_byte c ->
  fold_left (fun p b => Z.lor (u32 (Z.shiftl p 8)) b) [a; b; c] 0 = c + (b + a * 256) * 256.
Proof.
  intros Ha Hb Hc. unfold is_byte in *. cbn [fold_left].
  rewrite (pack8 0 a), (pack8 (a + 0 * 256) b), (pack8 (b + (a + 0 * 256) * 256) c) by (unfold is_byte; lia). lia.
Qed.

Definition four_digits (p : Z) : bytes :=
  [base64_char (Z.shiftr p 18); base64_char (Z.land (Z.shiftr p 12) 0x3f);
   base64_char (Z.land (Z.shiftr p 6) 0x3f); base64_char (Z.land p 0x3f)].

Lemma encode_group3 a b c :
  encode_group [a; b; c] = four_digits (fold_left (fun p b => Z.lor (u32 (Z.shiftl p 8)) b) [a; b; c] 0).
Proof. reflexivity. Qed.

(** A short group is a full one with zero bytes, of which the last digits are
    replaced by padding. *)
Lemma encode_group2 a b : is_byte a -> is_byte b ->
  encode_group [a; b] = take 3 (four_digits (0 + (b + a * 256) * 256)) ++ [chr "="].
Proof.
  intros Ha Hb. rewrite <- encode3 by (done || unfold is_byte; lia). cbn [fold_left]. rewrite Z.lor_0_r. reflexivity.
Qed.

Lemma encode_group1 a : is_byte a ->
  encode_group [a] = take 2 (four_digits (0 + (0 + a * 256) * 256)) ++ [chr "="; chr "="].
Proof.
  intros Ha. rewrite <- encode3 by (done || unfold is_byte; lia). cbn [fold_left]. rewrite !Z.lor_0_r. reflexivity.
Qed.

Lemma group3 a b c rest : is_byte a -> is_byte b -> is_byte c ->
  exists w x y z, encode_group [a; b; c] = [w; x; y; z] /\ decode_group [w; x; y; z] rest = Some [a; b; c].
Proof.
  intros Ha Hb Hc. rewrite encode_group3, encode3 by done. destruct (bytes24 a b c Ha Hb Hc) as (Hx & E1 & E2 & E3).
  unfold four_digits.
  destruct (digits24 _ Hx) as (v1 & v2 & v3 & v4 & -> & -> & -> & -> & H1 & H2 & H3 & H4 & Ex).
  eexists _, _, _, _. split; [reflexivity|]. unfold decode_group. rewrite !decode_char by done. cbn [decode_chars].
  rewrite !pack6 by done. change (0 * 64) with 0. rewrite Z.add_0_r, <- Ex. cbn [length Nat.eqb negb Z.ltb Z.compare andb Z.eqb app]. by rewrite E1, E2, E3.
Qed.

(** With padding the missing digits count as zero. *)
Lemma decode_pad g n packed padding : 0 <= padding ->
  decode_chars (g ++ replicate n (chr "=")) padding packed =
  match decode_chars g padding packed with
  | Some (p, x) => Some (p + Z.of_nat n, Z.shiftl x (6 * Z.of_nat n))
  | None => None
  end.
Proof.
  revert packed padding. induction g as [|c g IH]; intros packed padding Hp; cbn [app].
  - revert packed padding Hp. induction n as [|n IHn]; intros packed padding Hp.
    + cbn. by rewrite Z.add_0_r, Z.shiftl_0_r.
    + cbn [replicate decode_chars]. rewrite Z.eqb_refl, IHn by lia. cbn [decode_chars].
      rewrite Z.shiftl_shiftl by lia. f_equal. f_equal; [lia|]. f_equal. lia.
  - cbn [decode_chars]. destruct (c =? chr "="); [by rewrite IH by lia|]. destruct (0 <? padding); [done|].
    destruct (base64_val c); [by apply IH|done].
Qed.

Lemma group2 a b : is_byte a -> is_byte b ->
  exists w x y z, encode_group [a; b] = [w; x; y; z] /\ decode_group [w; x; y; z] [] = Some [a; b].
Proof.
  intros Ha Hb. rewrite encode_group2 by done.
  destruct (bytes24 a b 0 Ha Hb) as (Hx & E1 & E2 & E3); [unfold is_byte; lia|]. cbv zeta in *. unfold four_digits.
  destruct (digits24 _ Hx) as (v1 & v2 & v3 & v4 & -> & -> & -> & E & H1 & H2 & H3 & H4 & Ex).
  eexists _, _, _, _. split; [reflexivity|]. unfold decode_group.
  change [base64_char v1; base64_char v2; base64_char v3; chr "="]
    with ([base64_char v1; base64_char v2; base64_char v3] ++ replicate 1 (chr "=")).
  rewrite decode_pad by done. rewrite !decode_char by done. cbn [decode_chars].
  rewrite !pack6 by done. change (0 * 64) with 0. rewrite Z.add_0_r.
  assert (v4 = 0) as ->.
  { rewrite <- E. change 0x3f with (2 ^ 6 - 1). rewrite land_mod by lia. change (2 ^ 6) with 64.
    Z.to_euclidean_division_equations. lia. }
  rewrite Z.shiftl_mul_pow2 by lia. replace (_ * 2 ^ (6 * Z.of_nat 1)) with (0 + (b + a * 256) * 256) by (rewrite Ex; cbn; lia).
  cbn [length Nat.eqb negb Z.ltb Z.compare andb Z.eqb app replicate Z.add Z.of_nat Pos.of_succ_nat].
  by rewrite E1, E2.
Qed.

Lemma group1 a : is_byte a ->
  exists w x y z, encode_group [a] = [w; x; y; z] /\ decode_group [w; x; y; z] [] = Some [a].
Proof.
  intros Ha. rewrite encode_group1 by done.
  destruct (bytes24 a 0 0 Ha) as (Hx & E1 & E2 & E3); [unfold is_byte; lia..|]. cbv zeta in *. unfold four_digits.
  destruct (digits24 _ Hx) as (v1 & v2 & v3 & v4 & -> & -> & E' & E & H1 & H2 & H3 & H4 & Ex).
  eexists _, _, _, _. split; [reflexivity|]. unfold decode_group.
  change [base64_char v1; base64_char v2; chr "="; chr "="]
    with ([base64_char v1; base64_char v2] ++ replicate 2 (chr "=")).
  rewrite decode_pad by done. rewrite !decode_char by done. cbn [decode_chars].
  rewrite !pack6 by done. change (0 * 64) with 0. rewrite Z.add_0_r.
  assert (v4 = 0 /\ v3 = 0) as [-> ->].
  { rewrite <- E, <- E'. change 0x3f with (2 ^ 6 - 1). rewrite !land_mod, Z.shiftr_div_pow2 by lia. change (2 ^ 6) with 64.
    Z.to_euclidean_division_equations. lia. }
  rewrite Z.shiftl_mul_pow2 by lia. replace (_ * 2 ^ (6 * Z.of_nat 2)) with (0 + (0 + a * 256) * 256) by (rewrite Ex; cbn; lia).
  cbn [length Nat.eqb negb Z.ltb Z.compare andb Z.eqb app replicate Z.add Z.of_nat Pos.of_succ_nat].
  by rewrite E1.
Qed.

Lemma base64_loop_roundtrip n : forall data, (length data <= n)%nat -> Forall is_byte data ->
  base64decode_loop (base64encode data) = Some data.
Proof.
  induction n as [|n IH]; intros data Hn Hd.
  { by destruct data; [|cbn in Hn; lia]. }
  destruct data as [|a [|b [|c r]]]; [done|..].
  - apply Forall_cons_1 in Hd as [Ha _]. destruct (group1 a Ha) as (w & x & y & z & E & D).
    cbn [base64encode]. rewrite E. cbn [base64decode_loop]. by rewrite D.
  - apply Forall_cons_1 in Hd as [Ha Hd]. apply Forall_cons_1 in Hd as [Hb _].
    destruct (group2 a b Ha Hb) as (w & x & y & z & E & D). cbn [base64encode]. rewrite E. cbn [base64decode_loop]. by rewrite D.
  - apply Forall_cons_1 in Hd as [Ha Hd]. apply Forall_cons_1 in Hd as [Hb Hd]. apply Forall_cons_1 in Hd as [Hc Hd].
    cbn [base64encode]. destruct (group3 a b c (base64encode r) Ha Hb Hc) as (w & x & y & z & -> & D).
    cbn [app base64decode_loop]. rewrite D, IH; [done|cbn in Hn; lia|done].
Qed.

(** Base64 decoding inverts encoding on every byte string, of any length, and
    the encoding has four characters for every three bytes begun. *)
Lemma base64_roundtrip data :
  Forall is_byte data ->
  base64decode (base64encode data) = data /\
  length (base64encode data) = (4 * ((length data + 2) / 3))%nat.
Proof.
  intros Hd. split; [unfold base64decode; by rewrite (base64_loop_roundtrip (length data))|]. clear Hd.
  remember (length data) as n eqn:En. revert data En. induction n as [n IH] using lt_wf_ind. intros data ->.
  destruct data as [|a [|b [|c r]]]; [done..|]. cbn [base64encode]. rewrite length_app, encode_group3.
  rewrite (IH (length r)) by (cbn; done || lia). cbn [four_digits length].
  replace (S (S (S (length r))) + 2)%nat with (length r + 2 + 1 * 3)%nat by lia. rewrite Nat.div_add by done. lia.
Qed.

(** The characters of an encoded text. *)
Definition base64_text (c : Z) : bool := bool_decide (c ∈ chr "=" :: base64_alphabet).

Lemma base64_char_text v : 0 <= v < 64 -> base64_text (base64_char v) = true.
Proof.
  assert (H : forallb (fun v => base64_text (base64_char v)) (map Z.of_nat (seq 0 64)) = true) by (vm_compute; reflexivity).
  intros Hv. rewrite forallb_forall in H. apply H. by apply in_bytes.
Qed.

Lemma four_digits_text x : 0 <= x < 2 ^ 24 -> forallb base64_text (four_digits x) = true.
Proof.
  intros Hx. unfold four_digits. destruct (digits24 x Hx) as (v1 & v2 & v3 & v4 & -> & -> & -> & -> & ? & ? & ? & ? & _).
  cbn [forallb]. by rewrite !base64_char_text.
Qed.

Lemma forallb_take {A} (f : A -> bool) n l : forallb f l = true -> forallb f (take n l) = true.
Proof. rewrite !forallb_forall. intros H x Hx. apply H. rewrite <- (take_drop n l). apply in_or_app. by left. Qed.

Lemma base64encode_text data : Forall is_byte data -> forallb base64_text (base64encode data) = true.
Proof.
  remember (length data) as n eqn:En. revert data En. induction (lt_wf n) as [n _ IH]. intros data -> Hd.
  assert (is_byte 0) as H0 by (unfold is_byte; lia).
  destruct data as [|a [|b [|c r]]]; [done|..]; apply Forall_cons_1 in Hd as [Ha Hd]; cbn [base64encode].
  - rewrite encode_group1, forallb_app by done. by rewrite forallb_take by (by apply four_digits_text, (bytes24 a 0 0)).
  - apply Forall_cons_1 in Hd as [Hb _]. rewrite encode_group2, forallb_app by done.
    by rewrite forallb_take by (by apply four_digits_text, (bytes24 a b 0)).
  - apply Forall_cons_1 in Hd as [Hb Hd]. apply Forall_cons_1 in Hd as [Hc Hd].
    rewrite forallb_app, encode_group3, encode3 by done. rewrite four_digits_text by (by apply (bytes24 a b c)).
    cbn [andb]. eapply IH; [|reflexivity|done]. cbn. lia.
Qed.

Lemma base64_roundtrip_witness :
  base64decode (base64encode (str "hello")) = str "hello" /\
  length (base64encode (str "hello")) = (4 * ((length (str "hello") + 2) / 3))%nat.
Proof. apply (base64_roundtrip (str "hello")). repeat constructor; cbn; lia. Defined.

(** ** Hexadecimal *)

Lemma hex_pair b : is_byte b ->
  exists hi lo, hex_digit (hex_char (Z.land (Z.shiftr b 4) 0xf)) = Some hi /\
    hex_digit (hex_char (Z.land b 0xf)) = Some lo /\ Z.lor (u8 (Z.shiftl hi 4)) lo = b.
Proof.
  assert (H : forallb (fun b =>
      match hex_digit (hex_char (Z.land (Z.shiftr b 4) 0xf)), hex_digit (hex_char (Z.land b 0xf)) with
      | Some hi, Some lo => Z.lor (u8 (Z.shiftl hi 4)) lo =? b
      | _, _ => false
      end) (map Z.of_nat (seq 0 256)) = true) by (vm_compute; reflexivity).
  intros Hb. rewrite forallb_forall in H.
  assert (Hin : In b (map Z.of_nat (seq 0 256))) by (by apply in_bytes).
  apply H in Hin. destruct (hex_digit _) as [hi|]; [|done]. destruct (hex_digit _) as [lo|]; [|done].
  apply Z.eqb_eq in Hin. eauto.
Qed.

Definition is_hex (c : Z) : bool := non_null (hex_digit c).

Lemma hex_loop_total n : forall s, (length s <= n)%nat -> Nat.odd (length s) = false ->
  if forallb is_hex s then exists out, hex_loop s = Ok out /\ (length s = 2 * length out)%nat
  else hex_loop s = Throw invalid_argument.
Proof.
  induction n as [|n IH]; intros s Hn Ho.
  { destruct s; [|cbn in Hn; lia]. cbn. by exists []. }
  destruct s as [|a [|b s]]; [cbn; by exists []|done|]. cbn [forallb hex_loop]. unfold is_hex at 1 2.
  destruct (hex_digit a) as [hi|]; cbn [non_null andb]; [|done].
  destruct (hex_digit b) as [lo|]; cbn [non_null andb]; [|done].
  specialize (IH s ltac:(cbn in Hn; lia) Ho). destruct (forallb is_hex s); [|by rewrite IH].
  destruct IH as (out & -> & Hl). cbn [obind]. eexists. split; [reflexivity|]. cbn. lia.
Qed.

(** [data_from_hexstring] accepts exactly the strings of an even number of
    hexadecimal digits, of either case, giving half as many bytes, and throws
    [std::invalid_argument] for all others; and it inverts
    [hexstring_from_data]. *)
Lemma hexstring_roundtrip :
  (forall data, Forall is_byte data -> data_from_hexstring (hexstring_from_data data) = Ok data) /\
  (forall s, if negb (Nat.odd (length s)) && forallb is_hex s
             then exists out, data_from_hexstring s = Ok out /\ (length s = 2 * length out)%nat
             else data_from_hexstring s = Throw invalid_argument).
Proof.
  split.
  - intros data Hd. unfold data_from_hexstring.
    assert (Ho : Nat.odd (length (hexstring_from_data data)) = false).
    { induction data as [|b data IH]; [done|]. apply Forall_cons_1 in Hd as [_ Hd]. cbn. by apply IH. }
    rewrite Ho. clear Ho. induction Hd as [|b data Hb Hd IH]; [done|].
    change (hexstring_from_data (b :: data)) with
      (hex_char (Z.land (Z.shiftr b 4) 0xf) :: hex_char (Z.land b 0xf) :: hexstring_from_data data).
    destruct (hex_pair b Hb) as (hi & lo & E1 & E2 & E). cbn [hex_loop]. by rewrite E1, E2, IH, E.
  - intros s. unfold data_from_hexstring. destruct (Nat.odd (length s)) eqn:Ho; cbn [negb andb]; [done|].
    by apply (hex_loop_total (length s)).
Qed.

(** ** Splitting *)

Lemma str_find_char_eq f s pos : str_find_char f s pos = (fun i => (pos + i)%nat) <$> first_pos f (drop pos s).
Proof. reflexivity. Qed.

(** What [split] promises of its result: the pieces before the last one have no
    delimiter and, each followed by one, make up the string with the last piece
    behind them; the last piece has a delimiter only when the limit [max] was
    reached. *)
Definition is_split (delim max : Z) (s : bytes) (parts : list bytes) : Prop :=
  exists init tail, parts = init ++ [tail] /\ s = flat_map (fun x => x ++ [delim]) init ++ tail /\
    Forall (fun x => delim ∉ x) init /\
    (Z.of_nat (length parts) = max \/ delim ∉ tail) /\
    (2 <= max -> Z.of_nat (length parts) <= max).

Lemma not_eqb_notin delim l : Forall (fun x => (delim =? x) = false) l -> delim ∉ l.
Proof.
  intros H Hin. rewrite Forall_forall in H. apply list_elem_of_In, H in Hin. by rewrite Z.eqb_refl in Hin.
Qed.

Lemma flat_map_length_ge delim (init : list bytes) : (length init <= length (flat_map (fun x => x ++ [delim]) init))%nat.
Proof. induction init as [|x init IH]; cbn; [done|]. rewrite !length_app. cbn. lia. Qed.

Lemma take_found (s : bytes) last i c : drop last s !! i = Some c ->
  take (last + i + 1) s = take last s ++ take i (drop last s) ++ [c].
Proof.
  intros H. rewrite <- Nat.add_assoc, <- take_take_drop. f_equal. rewrite Nat.add_1_r. by apply take_S_r.
Qed.

Lemma split_loop_spec delim max s fuel : forall last init,
  0 <= max < 2 ^ 64 -> Z.of_nat (length s) < 2 ^ 62 ->
  (length s < fuel + last)%nat -> (last <= length s)%nat ->
  take last s = flat_map (fun x => x ++ [delim]) init -> Forall (fun x => delim ∉ x) init ->
  (2 <= max -> Z.of_nat (length init) + 2 <= max) ->
  exists parts, split_loop fuel (str_find_char (Z.eqb delim)) s last (str_find_char (Z.eqb delim) s last)
      (u64 (max - Z.of_nat (length init))) init = Ok parts /\ is_split delim max s parts.
Proof.
  induction fuel as [|fuel IH]; intros last init Hmax Hlen Hf Hl Ht Hi H2; [lia|].
  pose proof (flat_map_length_ge delim init) as Hk. rewrite <- Ht, length_take in Hk.
  cbn [split_loop]. rewrite (str_find_char_eq _ s last). pose proof (first_pos_spec (Z.eqb delim) (drop last s)) as Hs.
  destruct (first_pos (Z.eqb delim) (drop last s)) as [i|]; cbn [fmap option_fmap option_map].
  2: { eexists. split; [reflexivity|]. exists init, (drop last s). split_and!; [done| |done| |].
       - rewrite <- Ht. by rewrite take_drop.
       - right. by apply not_eqb_notin.
       - lens. }
  destruct Hs as (c & Hc & Hd & Hpre). apply Z.eqb_eq in Hd as <-.
  replace (last + i - last)%nat with i by lia.
  assert (Hlast : (last + i < length s)%nat) by (apply lookup_lt_Some in Hc; rewrite length_drop in Hc; lia).
  set (init' := init ++ [take i (drop last s)]).
  assert (Ht' : take (last + i + 1) s = flat_map (fun x => x ++ [delim]) init').
  { unfold init'. rewrite flat_map_app, (take_found s last i delim Hc), Ht. cbn. by rewrite app_nil_r. }
  assert (Hi' : Forall (fun x => delim ∉ x) init') by (apply Forall_app; split; [done|constructor; [by apply not_eqb_notin|done]]).
  assert (Hlen' : Z.of_nat (length init') = Z.of_nat (length init) + 1) by (unfold init'; lens).
  assert (Hcur : u64 (u64 (max - Z.of_nat (length init)) - 1) = u64 (max - Z.of_nat (length init'))).
  { unfold uwrap. rewrite Zminus_mod_idemp_l, Hlen'. f_equal. lia. }
  rewrite Hcur. destruct (Z.eqb_spec (u64 (max - Z.of_nat (length init'))) 1) as [E1|E1].
  - assert (Hend : 2 <= max /\ Z.of_nat (length init') + 1 = max).
    { destruct (Z.lt_ge_cases max 2) as [Hlt|Hge].
      - exfalso. unfold uwrap in E1. destruct (Z.eq_dec (max - Z.of_nat (length init')) 0) as [E0|E0]; [by rewrite E0 in E1|].
        rewrite <- (Z_mod_plus_full _ 1), Z.mod_small in E1 by lia. lia.
      - split; [done|]. specialize (H2 Hge). rewrite uwrap_small in E1 by lia. lia. }
    eexists. split; [reflexivity|]. exists init', (drop (last + i + 1) s). split_and!; [done| |done| |].
    + rewrite <- Ht'. by rewrite take_drop.
    + left. lens.
    + lens.
  - apply IH; try done; try lia. intros Hge. specialize (H2 Hge).
    destruct (Z.eq_dec (Z.of_nat (length init') + 1) max) as [E|E]; [|lia].
    exfalso. apply E1. rewrite uwrap_small by lia. lia.
Qed.

(** [split] terminates and loses nothing: for every non-empty string the pieces,
    put together again with the delimiter between them, are the string; only the
    last piece can contain the delimiter, and only when a limit of [max >= 2]
    pieces was reached, which is never exceeded.  A limit of 1 (or 0) is no limit. *)
Lemma split_correct s delim max :
  s <> [] -> 0 <= max < 2 ^ 64 -> Z.of_nat (length s) < 2 ^ 62 ->
  exists parts, split s delim max = Ok parts /\ is_split delim max s parts.
Proof.
  intros Hs Hmax Hlen. unfold split. destruct (Nat.eqb_spec (length s) 0) as [E|_].
  { by apply length_zero_iff_nil in E. }
  destruct (split_loop_spec delim max s (S (length s)) 0 [] Hmax Hlen) as (parts & E & HP); try done; try (cbn; lia).
  exists parts. split; [|done]. rewrite <- E. cbn [length Z.of_nat]. rewrite Z.sub_0_r, uwrap_small by lia. done.
Qed.

Lemma split_correct_witness :
  exists parts, split (str "a/b//c") (chr "/") 3 = Ok parts /\ parts = [str "a"; str "b"; str "/c"] /\
    is_split (chr "/") 3 (str "a/b//c") parts.
Proof.
  destruct (split_correct (str "a/b//c") (chr "/") 3) as (parts & E & HP); [done|lia|vm_compute; done|].
  exists parts. split; [exact E|]. split; [|exact HP].
  assert (Ok parts = Ok [str "a"; str "b"; str "/c"]) by (rewrite <- E; vm_compute; reflexivity). congruence.
Defined.

(** ** Hashing *)

(** The known value for a short text. *)
Example murmur3_hello : murmur3_hash (Some (str "hello")) 5 0 = 0x248bfa47.
Proof. vm_compute. reflexivity. Qed.

(** The C-string overload is the sized one at the string's length. *)
Lemma murmur3_overloads s seed :
  murmur3_hash_cstr (Some s) seed = murmur3_hash (Some s) (Z.of_nat (length s)) seed.
Proof. reflexivity. Qed.

(** The sized [quick_hash] looks at the first character only. *)
Lemma quick_hash_sized_ignores c s t size : quick_hash_sized (c :: s) size = quick_hash_sized (c :: t) size.
Proof. reflexivity. Qed.

(** ** Replacing *)

Lemma flat_map_id (f : Z -> bool) (l : bytes) {r : bytes} :
  Forall (fun x => f x = false) l -> flat_map (fun c => if f c then r else [c]) l = l.
Proof. induction 1 as [|x l Hx Hl IH]; [done|]. cbn. by rewrite Hx, IH. Qed.

Lemma find_sub_nil s : find_sub [] s = Some 0%nat.
Proof. by destruct s. Qed.

(** Replacing a character by a string ends after at most as many turns as the
    string is long and replaces each occurrence of it, also when the replacement
    contains the character. *)
Lemma replace_char_str_spec s find r fuel :
  (length s < fuel)%nat ->
  replace_char_str fuel s find r = Ok (flat_map (fun c => if find =? c then r else [c]) s).
Proof.
  intros Hf. unfold replace_char_str. cut (forall fuel done rest, (length rest < fuel)%nat ->
    replace_loop fuel (str_find_char (Z.eqb find)) 1 (done ++ rest) (str_find_char (Z.eqb find) (done ++ rest) (length done)) r =
    Ok (done ++ flat_map (fun c => if find =? c then r else [c]) rest)).
  { intros H. apply (H fuel [] s Hf). }
  clear. induction fuel as [|fuel IH]; intros done rest Hf; [lia|]. cbn [replace_loop].
  rewrite (str_find_char_eq _ (done ++ rest) (length done)), drop_app_length. pose proof (first_pos_spec (Z.eqb find) rest) as Hs.
  destruct (first_pos (Z.eqb find) rest) as [i|]; cbn [fmap option_fmap option_map].
  - destruct Hs as (c & Hc & He & Hpre).
    replace (flat_map (fun c => if find =? c then r else [c]) rest)
      with (flat_map (fun c => if find =? c then r else [c]) (take i rest ++ c :: drop (S i) rest))
      by (by rewrite (take_drop_middle rest i c Hc)).
    assert (Hi : (i < length rest)%nat) by (by eapply lookup_lt_Some).
    rewrite flat_map_app. cbn [flat_map]. rewrite He, (flat_map_id _ _ Hpre).
    replace (take (length done + i) (done ++ rest)) with (done ++ take i rest)
      by (by rewrite take_app_ge, Nat.add_comm, Nat.add_sub by lia).
    replace (drop (length done + i + 1) (done ++ rest)) with (drop (S i) rest)
      by (rewrite drop_app_ge by lia; f_equal; lia).
    replace ((done ++ take i rest) ++ r ++ drop (S i) rest) with ((done ++ take i rest ++ r) ++ drop (S i) rest)
      by (by rewrite <- !app_assoc).
    replace (length done + i + length r)%nat with (length (done ++ take i rest ++ r))
      by lens.
    rewrite IH by lens. by rewrite <- !app_assoc.
  - by rewrite (flat_map_id _ _ Hs).
Qed.

Lemma replace_char_str_spec_witness :
  replace_char_str 6 (str "a b c") (chr " ") (str " +") = Ok (str "a +b +c").
Proof. rewrite (replace_char_str_spec (str "a b c") (chr " ") (str " +") 6); [reflexivity|vm_compute; lia]. Defined.

(** Replacing the empty string by a non-empty one never ends: the search finds it
    again behind each replacement. *)
Lemma replace_empty_diverges s c r fuel : replace_str fuel s [] (c :: r) = NoFuel.
Proof.
  unfold replace_str. assert (Hs : forall s i, (i <= length s)%nat -> str_find s [] i = Some i).
  { intros s' i Hi. unfold str_find. destruct (Nat.leb_spec i (length s')); [|lia]. rewrite find_sub_nil. cbn. f_equal. lia. }
  rewrite Hs by lia. cut (forall i s, (i <= length s)%nat ->
    replace_loop fuel (fun s => str_find s []) (length (@nil Z)) s (Some i) (c :: r) = NoFuel); [intros H; apply H; lia|].
  induction fuel as [|fuel IH]; intros i s' Hi; [done|]. cbn [replace_loop].
  assert (Hl : (i + length (c :: r) <= length (take i s' ++ (c :: r) ++ drop (i + length (@nil Z)) s'))%nat).
  { lens. }
  rewrite Hs by done. by apply IH.
Qed.

(** ** HMAC *)

Section hmac_spec.
Context (CTX : Type) (Init : CTX) (Update : CTX -> bytes -> CTX) (Final : CTX -> bytes) (B L : nat).
(** The digest depends on the concatenation of what was fed in, and has [L] bytes;
    a block is at least as long as a digest. *)
Hypothesis update_app : forall c a b, Update (Update c a) b = Update c (a ++ b).
Hypothesis final_length : forall c, length (Final c) = L.
Hypothesis digest_fits : (L <= B)%nat.

Definition Hash (m : bytes) : bytes := Final (Update Init m).

(** [hmac] is the HMAC of RFC 2104: with the key, hashed when it is longer than
    a block, padded with zeros to a block [K],
    [H((K xor opad) || H((K xor ipad) || text))]. *)
Lemma hmac_rfc2104 text key :
  let K := let k := if (B <? length key)%nat then Hash key else key in k ++ replicate (B - length k) 0 in
  length K = B /\
  hmac CTX Init Update Final B L text key =
    Hash (map (fun x => Z.lxor x 0x5c) K ++ Hash (map (fun x => Z.lxor x 0x36) K ++ text)).
Proof.
  intros K. assert (HK : length K = B).
  { unfold K. rewrite length_app, length_replicate. destruct (Nat.ltb_spec B (length key)); [|lia].
    unfold Hash. rewrite final_length. lia. }
  split; [done|]. unfold hmac. fold (Hash key). fold K. unfold xorStruct, Hash.
  rewrite !take_ge by (rewrite ?length_map, ?final_length; lia). by rewrite !update_app.
Qed.

End hmac_spec.

(** With a toy hash: the sum of the bytes and of 1. *)
Lemma hmac_rfc2104_witness :
  let Final (c : Z) := [c mod 256] in
  let Update (c : Z) (m : bytes) := fold_left Z.add m c in
  length ([1; 2] ++ replicate (4 - 2) 0) = 4%nat /\
  hmac Z 1 Update Final 4 1 [7; 8] [1; 2] =
    Hash Z 1 Update Final (map (fun x => Z.lxor x 0x5c) ([1; 2] ++ replicate 2 0) ++
      Hash Z 1 Update Final (map (fun x => Z.lxor x 0x36) ([1; 2] ++ replicate 2 0) ++ [7; 8])).
Proof.
  refine (hmac_rfc2104 Z 1 (fun c m => fold_left Z.add m c) (fun c => [c mod 256]) 4 1 _ _ _ [7; 8] [1; 2]).
  - intros c a b. by rewrite fold_left_app.
  - done.
  - lia.
Defined.

(** ** Digests *)

(** What OpenSSL documents of its hash functions: the digest depends on the
    concatenation of what was fed in, and consists of as many bytes as its constant
    says, which fit in a block. *)
Class DigestSpec (d : digest) := {
  digest_app : forall c a b, Update d (Update d c a) b = Update d c (a ++ b);
  digest_length : forall c, length (Final d c) = DIGEST_LENGTH d;
  digest_bytes : forall c, Forall is_byte (Final d c);
  digest_block : (DIGEST_LENGTH d <= CBLOCK d)%nat
}.

(** RFC 2104 for a hash function. *)
Definition rfc2104 (d : digest) (text key : bytes) : bytes :=
  let H m := Final d (Update d (Init d) m) in
  let k := if (CBLOCK d <? length key)%nat then H key else key in
  let K := k ++ replicate (CBLOCK d - length k) 0 in
  H (map (fun x => Z.lxor x 0x5c) K ++ H (map (fun x => Z.lxor x 0x36) K ++ text)).

Section digest_spec.
Context (MD5 SHA1 SHA256 : digest) `{!DigestSpec MD5} `{!DigestSpec SHA1} `{!DigestSpec SHA256}.

(** The texts [md5] and [sha1] return are twice as long as the digest, and reading them
    back as hexadecimal gives the digest. *)
Lemma hex_digest_spec data :
  data_from_hexstring (md5 MD5 data) = Ok (md5sum MD5 data) /\
  data_from_hexstring (sha1 SHA1 data) = Ok (sha1sum SHA1 data) /\
  length (md5 MD5 data) = (2 * DIGEST_LENGTH MD5)%nat /\ length (sha1 SHA1 data) = (2 * DIGEST_LENGTH SHA1)%nat.
Proof.
  unfold md5, sha1, md5sum, sha1sum. rewrite !take_ge by (by rewrite digest_length).
  assert (forall l, length (hexstring_from_data l) = (2 * length l)%nat) as Hl.
  { intros l. unfold hexstring_from_data. induction l; cbn in *; lia. }
  rewrite !Hl, !digest_length. split_and!; try done; apply (proj1 hexstring_roundtrip), digest_bytes.
Qed.

(** The keyed digests are those of RFC 2104 for their hash functions. *)
Lemma hmacs_rfc2104 text key :
  hmac_md5 MD5 text key = rfc2104 MD5 text key /\ hmac_sha1 SHA1 text key = rfc2104 SHA1 text key /\
  hmac_sha256 SHA256 text key = rfc2104 SHA256 text key.
Proof.
  split_and!; refine (proj2 (hmac_rfc2104 _ _ _ _ _ _ _ _ _ text key)); auto using digest_app, digest_length, digest_block.
Qed.

End digest_spec.

(** The sum of the bytes and of 1 as a hash function. *)
Definition toy_digest : digest :=
  {| CTX := Z; Init := 1; Update := fun c m => fold_left Z.add m c; Final := fun c => [c mod 256];
     CBLOCK := 4; DIGEST_LENGTH := 1 |}.

#[export] Instance toy_digest_spec : DigestSpec toy_digest.
Proof.
  split; cbn; intros; [by rewrite fold_left_app|done| |lia]. repeat constructor; apply Z.mod_pos_bound; lia.
Qed.

(** [sha0sum] is the digest of SHA-1, not that of SHA-0 which its name announces. *)
Lemma sha0sum_is_sha1sum SHA1 data : sha0sum SHA1 data = sha1sum SHA1 data.
Proof. reflexivity. Qed.
