(* ===== verification/StringUtil.v ===== *)
(** * String utilities ([util.cc])

    URL encoding and decoding with their lazily created buffer, trimming, and the
    two parts of a path. *)

From S2P Require Import Prelude.
From Stdlib Require Import ZArith Lia List String.
From stdpp Require Import base tactics list numbers option.

Open Scope Z_scope.
Open Scope list_scope.

(** ** Tables *)

(** @src util.cc:398-659 uri_chars *)
Definition uri_chars : list Z :=
  [0; 0; 0; 0; 0; 0; 0; 0; 0; 0; 0; 0; 0; 0; 0; 0; 0; 0; 0; 0; 0; 0; 0; 0; 0; 0; 0; 0; 0; 0; 0; 0;
   0; 0; 0; 0; 0; 0; 0; 0; 0; 0; 0; 0; 0; 1; 1; 0; 1; 1; 1; 1; 1; 1; 1; 1; 1; 1; 0; 0; 0; 1; 0; 0;
   0; 1; 1; 1; 1; 1; 1; 1; 1; 1; 1; 1; 1; 1; 1; 1; 1; 1; 1; 1; 1; 1; 1; 1; 1; 1; 1; 0; 0; 0; 0; 1;
   0; 1; 1; 1; 1; 1; 1; 1; 1; 1; 1; 1; 1; 1; 1; 1; 1; 1; 1; 1; 1; 1; 1; 1; 1; 1; 1; 0; 0; 0; 1; 0;
   0; 0; 0; 0; 0; 0; 0; 0; 0; 0; 0; 0; 0; 0; 0; 0; 0; 0; 0; 0; 0; 0; 0; 0; 0; 0; 0; 0; 0; 0; 0; 0;
   0; 0; 0; 0; 0; 0; 0; 0; 0; 0; 0; 0; 0; 0; 0; 0; 0; 0; 0; 0; 0; 0; 0; 0; 0; 0; 0; 0; 0; 0; 0; 0;
   0; 0; 0; 0; 0; 0; 0; 0; 0; 0; 0; 0; 0; 0; 0; 0; 0; 0; 0; 0; 0; 0; 0; 0; 0; 0; 0; 0; 0; 0; 0; 0;
   0; 0; 0; 0; 0; 0; 0; 0; 0; 0; 0; 0; 0; 0; 0; 0; 0; 0; 0; 0; 0; 0; 0; 0; 0; 0; 0; 0; 0; 0; 0; 0].

(** @src util.cc:661-675 xdigit_chars *)
Definition xdigit_chars : list Z :=
  [0; 0; 0; 0; 0; 0; 0; 0; 0; 0; 0; 0; 0; 0; 0; 0; 0; 0; 0; 0; 0; 0; 0; 0; 0; 0; 0; 0; 0; 0; 0; 0;
   0; 0; 0; 0; 0; 0; 0; 0; 0; 0; 0; 0; 0; 0; 0; 0; 0; 1; 2; 3; 4; 5; 6; 7; 8; 9; 0; 0; 0; 0; 0; 0;
   0; 10; 11; 12; 13; 14; 15; 0; 0; 0; 0; 0; 0; 0; 0; 0; 0; 0; 0; 0; 0; 0; 0; 0; 0; 0; 0; 0; 0; 0; 0; 0;
   0; 10; 11; 12; 13; 14; 15; 0; 0; 0; 0; 0; 0; 0; 0; 0; 0; 0; 0; 0; 0; 0; 0; 0; 0; 0; 0; 0; 0; 0; 0; 0;
   0; 0; 0; 0; 0; 0; 0; 0; 0; 0; 0; 0; 0; 0; 0; 0; 0; 0; 0; 0; 0; 0; 0; 0; 0; 0; 0; 0; 0; 0; 0; 0;
   0; 0; 0; 0; 0; 0; 0; 0; 0; 0; 0; 0; 0; 0; 0; 0; 0; 0; 0; 0; 0; 0; 0; 0; 0; 0; 0; 0; 0; 0; 0; 0;
   0; 0; 0; 0; 0; 0; 0; 0; 0; 0; 0; 0; 0; 0; 0; 0; 0; 0; 0; 0; 0; 0; 0; 0; 0; 0; 0; 0; 0; 0; 0; 0;
   0; 0; 0; 0; 0; 0; 0; 0; 0; 0; 0; 0; 0; 0; 0; 0; 0; 0; 0; 0; 0; 0; 0; 0; 0; 0; 0; 0; 0; 0; 0; 0].

(** @src util.cc:677-677 CHAR_IS_UNRESERVED *)
Definition CHAR_IS_UNRESERVED (c : Z) : bool := negb (nth (Z.to_nat c) uri_chars 0 =? 0).

Definition hexdigits : bytes := str "0123456789ABCDEF".
Definition hexdigit (v : Z) : Z := nth (Z.to_nat v) hexdigits 0.

(** ** URL encoding *)

(** What is appended for a reserved character. *)
Definition escape (space_as_plus : bool) (c : Z) : bytes :=
  if (c =? chr " ") && space_as_plus then [chr "+"]
  else [chr "%"; hexdigit (Z.shiftr c 4); hexdigit (Z.land c 0xf)].

(** The loop: [seen] are the characters before [c]; [ss] is created at the first
    reserved character, with a copy of them. *)
Fixpoint encode_loop (space_as_plus : bool) (seen s : bytes) (ss : option bytes) : option bytes :=
  match s with
  | [] => ss
  | c :: s =>
    let ss := if negb (CHAR_IS_UNRESERVED c) then
                let buf := match ss with None => seen | Some b => b end in
                Some (buf ++ escape space_as_plus c)
              else match ss with Some b => Some (b ++ [c]) | None => None end in
    encode_loop space_as_plus (seen ++ [c]) s ss
  end.

(** @src util.cc:680-709 StringUtil::UrlEncode *)
Definition UrlEncode (s : bytes) (space_as_plus : bool) : bytes :=
  match encode_loop space_as_plus [] s None with None => s | Some rt => rt end.

(** ** URL decoding *)

Definition isxdigit (c : Z) : bool :=
  ((chr "0" <=? c) && (c <=? chr "9")) || ((chr "A" <=? c) && (c <=? chr "F")) || ((chr "a" <=? c) && (c <=? chr "f")).

Definition xdigit (c : Z) : Z := nth (Z.to_nat c) xdigit_chars 0.

(** The branch for an escape needs two more characters before the end. *)
Fixpoint decode_loop (space_as_plus : bool) (seen s : bytes) (ss : option bytes) : option bytes :=
  match s with
  | [] => ss
  | c :: s' =>
    let buf := match ss with None => seen | Some b => b end in
    let plain := decode_loop space_as_plus (seen ++ [c]) s' (match ss with Some b => Some (b ++ [c]) | None => None end) in
    if (c =? chr "+") && space_as_plus then decode_loop space_as_plus (seen ++ [c]) s' (Some (buf ++ [chr " "]))
    else if c =? chr "%" then
      match s' with
      | h :: l :: s'' =>
        if isxdigit h && isxdigit l
        then decode_loop space_as_plus (seen ++ [c; h; l]) s'' (Some (buf ++ [Z.lor (u8 (Z.shiftl (xdigit h) 4)) (xdigit l)]))
        else plain
      | _ => plain
      end
    else plain
  end.

(** @src util.cc:711-741 StringUtil::UrlDecode *)
Definition UrlDecode (s : bytes) (space_as_plus : bool) : bytes :=
  match decode_loop space_as_plus [] s None with None => s | Some rt => rt end.

(** ** Trimming and paths *)

Definition not_in (delimit : bytes) (c : Z) : bool := negb (existsb (Z.eqb c) delimit).

Definition substr (s : bytes) (pos n : nat) : bytes := take n (drop pos s).

(** @src util.cc:743-751 StringUtil::Trim *)
Definition Trim (s delimit : bytes) : bytes :=
  match first_pos (not_in delimit) s with
  | None => []
  | Some b => let e := from_option id 0%nat (last_pos (not_in delimit) s) in substr s b (e - b + 1)
  end.

(** @src util.cc:753-760 StringUtil::TrimLeft *)
Definition TrimLeft (s delimit : bytes) : bytes :=
  match first_pos (not_in delimit) s with None => [] | Some b => drop b s end.

(** @src util.cc:762-769 StringUtil::TrimRight *)
Definition TrimRight (s delimit : bytes) : bytes :=
  match last_pos (not_in delimit) s with None => [] | Some e => substr s 0 e end.

(** @src util.cc:294-306 FSUtil::Dirname *)
Definition Dirname (filename : bytes) : bytes :=
  match filename with
  | [] => str "."
  | _ => match last_pos (Z.eqb (chr "/")) filename with
         | Some O => str "/"
         | None => str "."
         | Some pos => substr filename 0 pos
         end
  end.

(** @src util.cc:308-318 FSUtil::Basename *)
Definition Basename (filename : bytes) : bytes :=
  match filename with
  | [] => filename
  | _ => match last_pos (Z.eqb (chr "/")) filename with
         | None => filename
         | Some pos => drop (pos + 1) filename
         end
  end.

(** ** The encoder without the buffer *)

Definition encode_char (p : bool) (c : Z) : bytes := if CHAR_IS_UNRESERVED c then [c] else escape p c.

Lemma encode_loop_spec p s : forall seen ss,
  (match ss with None => seen | Some b => b end) ++ flat_map (encode_char p) s =
  match encode_loop p seen s ss with None => seen ++ s | Some rt => rt end.
Proof.
  induction s as [|c s IH]; intros seen ss; cbn [encode_loop flat_map].
  { rewrite !app_nil_r. by destruct ss. }
  unfold encode_char at 1. specialize (IH (seen ++ [c])). rewrite <- app_assoc in IH. cbn [app] in IH.
  destruct (CHAR_IS_UNRESERVED c); cbn [negb]; destruct ss as [b|]; rewrite <- IH; by rewrite <- ?app_assoc.
Qed.

Lemma UrlEncode_flat s p : UrlEncode s p = flat_map (encode_char p) s.
Proof. unfold UrlEncode. symmetry. exact (encode_loop_spec p s [] None). Qed.

(** ** The decoder without the buffer *)

Fixpoint decode_ref (p : bool) (s : bytes) : bytes :=
  match s with
  | [] => []
  | c :: s' =>
    if (c =? chr "+") && p then chr " " :: decode_ref p s'
    else if c =? chr "%" then
      match s' with
      | h :: l :: s'' =>
        if isxdigit h && isxdigit l then Z.lor (u8 (Z.shiftl (xdigit h) 4)) (xdigit l) :: decode_ref p s''
        else c :: decode_ref p s'
      | _ => c :: decode_ref p s'
      end
    else c :: decode_ref p s'
  end.

Lemma decode_loop_spec p n : forall s seen ss, (length s <= n)%nat ->
  (match ss with None => seen | Some b => b end) ++ decode_ref p s =
  match decode_loop p seen s ss with None => seen ++ s | Some rt => rt end.
Proof.
  induction n as [|n IH]; intros s seen ss Hn.
  { destruct s; [|cbn in Hn; lia]. cbn. destruct ss; by rewrite app_nil_r. }
  destruct s as [|c s]; [cbn; destruct ss; by rewrite app_nil_r|]. cbn in Hn.
  assert (Hplain : forall ss, (match ss with None => seen | Some b => b end) ++ c :: decode_ref p s =
    match decode_loop p (seen ++ [c]) s (match ss with Some b => Some (b ++ [c]) | None => None end) with
    | None => seen ++ c :: s | Some rt => rt end).
  { intros ss'. rewrite (cons_middle c seen s), app_assoc. rewrite <- (IH s (seen ++ [c])) by lia. destruct ss'; by rewrite <- app_assoc. }
  cbn [decode_loop decode_ref]. destruct ((c =? chr "+") && p).
  - rewrite (cons_middle c seen s), app_assoc, <- (IH s (seen ++ [c])) by lia. by rewrite <- app_assoc.
  - destruct (c =? chr "%"); [|apply Hplain]. destruct s as [|h [|l s]]; [apply Hplain..|].
    destruct (isxdigit h && isxdigit l); [|apply Hplain].
    replace (seen ++ c :: h :: l :: s) with ((seen ++ [c; h; l]) ++ s) by (by rewrite <- app_assoc).
    rewrite <- (IH s (seen ++ [c; h; l])) by (cbn in Hn; lia). by rewrite <- app_assoc.
Qed.

Lemma UrlDecode_ref s p : UrlDecode s p = decode_ref p s.
Proof. unfold UrlDecode. symmetry. exact (decode_loop_spec p (length s) s [] None ltac:(done)). Qed.

(** ** Round trip *)

(** Checked for each of the 256 characters. *)
Definition encodes_back (p : bool) (c : Z) : bool :=
  if CHAR_IS_UNRESERVED c then negb (c =? chr "+") && negb (c =? chr "%")
  else if (c =? chr " ") && p then true
  else isxdigit (hexdigit (Z.shiftr c 4)) && isxdigit (hexdigit (Z.land c 0xf)) &&
       (Z.lor (u8 (Z.shiftl (xdigit (hexdigit (Z.shiftr c 4))) 4)) (xdigit (hexdigit (Z.land c 0xf))) =? c).

Lemma encodes_back_all p c : is_byte c -> encodes_back p c = true.
Proof.
  intros Hc. assert (H : forallb (encodes_back p) (map Z.of_nat (seq 0 256)) = true) by (destruct p; vm_compute; reflexivity).
  rewrite forallb_forall in H. by apply H, in_bytes.
Qed.

Lemma decode_encode_char p c s : is_byte c -> decode_ref p (encode_char p c ++ s) = c :: decode_ref p s.
Proof.
  intros Hc. pose proof (encodes_back_all p c Hc) as H. unfold encodes_back in H. unfold encode_char, escape.
  destruct (CHAR_IS_UNRESERVED c).
  - apply andb_prop in H as [H1%negb_true_iff H2%negb_true_iff]. cbn [app decode_ref]. by rewrite H1, H2.
  - destruct ((c =? chr " ") && p) eqn:E.
    + apply andb_prop in E as [->%Z.eqb_eq ->]. reflexivity.
    + apply andb_prop in H as [[H1 H2]%andb_prop H3%Z.eqb_eq]. cbn [app decode_ref].
      change (chr "%" =? chr "+") with false. cbn [andb]. rewrite Z.eqb_refl, H1, H2. cbn [andb]. by rewrite H3.
Qed.

Lemma UrlDecode_UrlEncode s p : Forall is_byte s -> UrlDecode (UrlEncode s p) p = s.
Proof.
  intros Hs. rewrite UrlEncode_flat, UrlDecode_ref.
  induction Hs as [|c s Hc Hs IH]; [done|]. cbn [flat_map]. by rewrite decode_encode_char, IH.
Qed.

(** The separators of parameters and cookies are always escaped. *)
Lemma UrlEncode_separators s p :
  Forall is_byte s -> Forall (fun x => x <> chr "&" /\ x <> chr ";") (UrlEncode s p).
Proof.
  intros Hs. rewrite UrlEncode_flat.
  assert (H : forallb (fun c => forallb (fun x => negb (x =? chr "&") && negb (x =? chr ";")) (encode_char p c))
    (map Z.of_nat (seq 0 256)) = true) by (destruct p; vm_compute; reflexivity).
  rewrite forallb_forall in H. induction Hs as [|c s Hc Hs IH]; [done|]. cbn [flat_map]. apply Forall_app. split; [|done].
  specialize (H c (in_bytes c 256 Hc)). rewrite forallb_forall in H. apply List.Forall_forall. intros x Hx.
  specialize (H x Hx). rewrite andb_true_iff, !negb_true_iff, !Z.eqb_neq in H. done.
Qed.

(** URL decoding inverts URL encoding on every byte string, with or without
    [+] for spaces, and what encoding produces consists of unreserved characters,
    escapes of two hexadecimal digits and, when asked for, [+]. *)
Lemma UrlEncode_roundtrip s p :
  Forall is_byte s ->
  UrlDecode (UrlEncode s p) p = s /\ UrlEncode s p = flat_map (encode_char p) s.
Proof. intros Hs. split; [by apply UrlDecode_UrlEncode|apply UrlEncode_flat]. Qed.

Lemma UrlEncode_roundtrip_witness :
  UrlDecode (UrlEncode (str "a b&c/100%") true) true = str "a b&c/100%" /\
  UrlEncode (str "a b&c/100%") true = str "a+b%26c%2F100%25".
Proof.
  destruct (UrlEncode_roundtrip (str "a b&c/100%") true) as [H1 H2]; [repeat constructor; cbn; lia|].
  split; [exact H1|]. rewrite H2. vm_compute. reflexivity.
Defined.

(** The comment above [UrlEncode] lists the characters that are kept; the table
    also keeps [=], so that it is never escaped. *)
Lemma UrlEncode_keeps_equals p :
  UrlEncode (str "a=b") p = str "a=b" /\
  existsb (Z.eqb (chr "=")) (str "-.0123456789ABCDEFGHIJKLMNOPQRSTUVWXYZ_abcdefghijklmnopqrstuvwxyz~") = false.
Proof. split; destruct p; vm_compute; reflexivity. Qed.

(** ** Trimming *)

Lemma not_in_false d c : not_in d c = false <-> In c d.
Proof.
  unfold not_in. rewrite negb_false_iff, existsb_exists. split.
  - intros (x & Hx & ->%Z.eqb_eq). done.
  - intros H. exists c. by rewrite Z.eqb_refl.
Qed.

(** [Trim] removes exactly the delimiters at both ends: the string is a run of
    delimiters, the result and a run of delimiters, and the result neither starts
    nor ends with one. *)
Lemma Trim_spec s delimit :
  exists l r, s = l ++ Trim s delimit ++ r /\ Forall (fun c => In c delimit) l /\ Forall (fun c => In c delimit) r /\
    (forall c t, Trim s delimit = c :: t -> ~ In c delimit) /\
    (forall c t, Trim s delimit = t ++ [c] -> ~ In c delimit).
Proof.
  unfold Trim. pose proof (first_pos_spec (not_in delimit) s) as H1. pose proof (last_pos_spec (not_in delimit) s) as H2.
  assert (Hd : forall l, Forall (fun x => not_in delimit x = false) l -> Forall (fun c => In c delimit) l).
  { intros l. apply Forall_impl. intros x. apply not_in_false. }
  destruct (first_pos (not_in delimit) s) as [b|].
  2: { exists s, []. split_and!; [by rewrite app_nil_r|by apply Hd|done|done|by intros ? []]. }
  destruct H1 as (c & Hc & Hf & Ht).
  assert (Hn : forall x, not_in delimit x = true -> ~ In x delimit) by (intros x Hx Hin; apply not_in_false in Hin; congruence).
  destruct (last_pos (not_in delimit) s) as [e|].
  2: { rewrite Forall_forall in H2. rewrite H2 in Hf; [done|]. by apply list_elem_of_In, (list_elem_of_lookup_2 _ b). }
  destruct H2 as (d & Hd2 & Hf2 & Ht2). cbn [from_option id]. unfold substr.
  assert (Hbe : (b <= e)%nat).
  { destruct (Nat.le_gt_cases b e) as [|Hgt]; [done|]. exfalso.
    assert (In c (drop (S e) s)).
    { apply list_elem_of_In. apply (list_elem_of_lookup_2 _ (b - S e)). rewrite lookup_drop.
      by replace (S e + (b - S e))%nat with b by lia. }
    rewrite Forall_forall in Ht2. by rewrite Ht2 in Hf. }
  assert (He : (e < length s)%nat) by (by eapply lookup_lt_Some).
  assert (Hm : take (e - b + 1) (drop b s) !! 0%nat = Some c).
  { rewrite lookup_take_lt, lookup_drop by lia. by rewrite Nat.add_0_r. }
  exists (take b s), (drop (S e) s). split_and!.
  - rewrite <- (take_drop b s) at 1. f_equal. rewrite <- (take_drop (e - b + 1) (drop b s)) at 1. f_equal.
    rewrite drop_drop. f_equal. lia.
  - by apply Hd.
  - by apply Hd.
  - intros x t Hx. apply Hn. rewrite Hx in Hm. cbn in Hm. congruence.
  - intros x t Hx. apply Hn. assert (Hl : length t = (e - b)%nat).
    { apply (f_equal length) in Hx. rewrite length_take, length_drop, length_app in Hx. cbn in Hx. lia. }
    assert (Hx' : take (e - b + 1) (drop b s) !! (e - b)%nat = Some x)
      by (rewrite Hx, <- Hl, lookup_app_r, Nat.sub_diag by lia; done).
    rewrite lookup_take_lt, lookup_drop in Hx' by lia. replace (b + (e - b))%nat with e in Hx' by lia. congruence.
Qed.

(** [TrimRight] also cuts off the last character that is not a delimiter. *)
Lemma TrimRight_drops_character : TrimRight (str "abc  ") (str " ") = str "ab".
Proof. vm_compute. reflexivity. Qed.

(** A path with a slash is its directory, the slash and its base name, and the
    base name has no slash. *)
Lemma path_parts filename pos :
  last_pos (Z.eqb (chr "/")) filename = Some (S pos) ->
  filename = Dirname filename ++ [chr "/"] ++ Basename filename /\ ~ In (chr "/") (Basename filename).
Proof.
  intros E. pose proof (last_pos_spec (Z.eqb (chr "/")) filename) as H. rewrite E in H.
  destruct H as (c & Hc & ->%Z.eqb_eq & Ht). unfold Dirname, Basename. destruct filename as [|x f]; [done|]. rewrite E.
  unfold substr. rewrite drop_0, Nat.add_1_r. split.
  - symmetry. by apply take_drop_middle.
  - intros Hin. rewrite Forall_forall in Ht. specialize (Ht _ Hin). by rewrite Z.eqb_refl in Ht.
Qed.
