(* ===== verification/LoadBalance.v ===== *)
(** * Load balancing ([streams/load_balance.h], [streams/load_balance.cc])

    A balancer keeps the items of a service by id and a vector of the usable ones,
    rebuilt whenever the items change and at most every 500 ms; [get] picks one in
    turn or by weight.  Whether an item's stream is connected is an input of each
    operation, as is the order in which the [unordered_map] is walked through
    ([iter]); the floating-point part of a fair item's weight is a parameter. *)

From S2P Require Import Prelude.
From Stdlib Require Import ZArith Lia List.
From stdpp Require Import base tactics list numbers option gmap.

Open Scope Z_scope.

(** @src streams/load_balance.h:86-91 LoadBalanceItem *)
Record LoadBalanceItem := mkItem {
  it_id : Z;
  it_stream : option Z;
  it_weight : Z;
  it_fair : bool
}.

(** @src streams/load_balance.h:95-99 ILoadBalance::Type *)
Inductive lb_type := ROUNDROBIN | WEIGHT | FAIR.

(** @src streams/load_balance.h:127-131 LoadBalance
    With the vectors of the two kinds of balancer. *)
Record LoadBalance := mkLB {
  lb_weighted : bool;
  lb_datas : gmap Z LoadBalanceItem;
  m_lastInitTime : Z;
  m_items : list LoadBalanceItem;
  m_weights : list Z
}.

Section ops.
(** The order of iteration, the connected streams, and [m_weight * m_stats.getWeight()]
    converted to [int32_t]. *)
Variables (iter : gmap Z LoadBalanceItem -> list (Z * LoadBalanceItem)).
Variables (connected : Z -> bool) (fair_product : LoadBalanceItem -> Z).

(** @src streams/load_balance.cc:51-53 LoadBalanceItem::isValid *)
Definition LoadBalanceItem_isValid (h : LoadBalanceItem) : bool :=
  match it_stream h with Some s => connected s | None => false end.

(** @src streams/load_balance.cc:42-49 LoadBalanceItem::close
    The stream that a task on the worker "service_io" will close; the item keeps it. *)
Definition LoadBalanceItem_close (h : LoadBalanceItem) : list Z :=
  match it_stream h with Some stream => [stream] | None => [] end.

(** @src streams/load_balance.cc:289-295 FairLoadBalanceItem::getWeight *)
Definition FairLoadBalanceItem_getWeight (h : LoadBalanceItem) : outcome Z :=
  let v := fair_product h in
  deref (it_stream h) (fun s => Ok (if connected s then (if 1 <? v then v else 1) else 1)).

(** The virtual function. *)
Definition item_weight (h : LoadBalanceItem) : outcome Z :=
  if it_fair h then FairLoadBalanceItem_getWeight h else Ok (it_weight h).

(** The running sums (lines 212-217); [int64_t] does not overflow: fewer than 2^31
    items of 32-bit weights. *)
Fixpoint prefix_sums (total : Z) (l : list LoadBalanceItem) : outcome (list Z) :=
  match l with
  | [] => Ok []
  | h :: l => let! w := item_weight h in let! r := prefix_sums (total + w) l in Ok (total + w :: r)
  end.

(** The loop both kinds of balancer start with. *)
Definition valid_items (datas : gmap Z LoadBalanceItem) : list LoadBalanceItem :=
  List.filter LoadBalanceItem_isValid (map snd (iter datas)).

(** @src streams/load_balance.cc:151-159 RoundRobinLoadBalance::initNolock *)
Definition RoundRobinLoadBalance_initNolock (b : LoadBalance) : LoadBalance :=
  mkLB (lb_weighted b) (lb_datas b) (m_lastInitTime b) (valid_items (lb_datas b)) (m_weights b).

(** @src streams/load_balance.cc:203-218 WeightLoadBalance::initNolock *)
Definition WeightLoadBalance_initNolock (b : LoadBalance) : outcome LoadBalance :=
  let items := valid_items (lb_datas b) in
  let! ws := prefix_sums 0 items in
  Ok (mkLB (lb_weighted b) (lb_datas b) (m_lastInitTime b) items ws).

Definition initNolock (b : LoadBalance) : outcome LoadBalance :=
  if lb_weighted b then WeightLoadBalance_initNolock b else Ok (RoundRobinLoadBalance_initNolock b).

Definition set_datas (b : LoadBalance) (d : gmap Z LoadBalanceItem) : LoadBalance :=
  mkLB (lb_weighted b) d (m_lastInitTime b) (m_items b) (m_weights b).

(** @src streams/load_balance.cc:83-87 LoadBalance::getById *)
Definition LoadBalance_getById (b : LoadBalance) (id : Z) : option LoadBalanceItem := lb_datas b !! id.

(** @src streams/load_balance.cc:89-93 LoadBalance::add *)
Definition LoadBalance_add (b : LoadBalance) (v : LoadBalanceItem) : outcome LoadBalance :=
  initNolock (set_datas b (<[it_id v := v]> (lb_datas b))).

(** @src streams/load_balance.cc:95-99 LoadBalance::del *)
Definition LoadBalance_del (b : LoadBalance) (v : LoadBalanceItem) : outcome LoadBalance :=
  initNolock (set_datas b (delete (it_id v) (lb_datas b))).

(** @src streams/load_balance.cc:101-115 LoadBalance::update
    The ids to delete are given back with the items they had. *)
Definition LoadBalance_update (b : LoadBalance) (adds : gmap Z LoadBalanceItem) (dels : gmap Z (option LoadBalanceItem))
    : outcome (gmap Z (option LoadBalanceItem) * LoadBalance) :=
  let dels' := map_imap (fun id v => Some (match lb_datas b !! id with Some h => Some h | None => v end)) dels in
  let datas := filter (fun '(id, _) => dels !! id = None) (lb_datas b) in
  let! b := initNolock (set_datas b (adds ∪ datas)) in
  Ok (dels', b).

(** @src streams/load_balance.cc:117-124 LoadBalance::set *)
Definition LoadBalance_set (b : LoadBalance) (vs : list LoadBalanceItem) : outcome LoadBalance :=
  initNolock (set_datas b (fold_left (fun d i => <[it_id i := i]> d) vs ∅)).

(** @src streams/load_balance.cc:126-129 LoadBalance::init *)
Definition LoadBalance_init (b : LoadBalance) : outcome LoadBalance := initNolock b.

(** @src streams/load_balance.cc:143-149 LoadBalance::checkInit
    The difference is unsigned. *)
Definition LoadBalance_checkInit (b : LoadBalance) (ts : Z) : outcome LoadBalance :=
  if 500 <? u64 (ts - m_lastInitTime b) then
    let! b := LoadBalance_init b in
    Ok (mkLB (lb_weighted b) (lb_datas b) ts (m_items b) (m_weights b))
  else Ok b.

(** The search for a usable item from position [r] on, around the vector (lines
    168-174 and 194-200). *)
Definition scan (items : list LoadBalanceItem) (r : Z) : option LoadBalanceItem :=
  let n := Z.of_nat (length items) in
  (fix loop (js : list nat) : option LoadBalanceItem :=
     match js with
     | [] => None
     | i :: js =>
       match items !! Z.to_nat ((r + Z.of_nat i) mod n) with
       | Some h => if LoadBalanceItem_isValid h then Some h else loop js
       | None => loop js
       end
     end) (seq 0 (length items)).

(** @src streams/load_balance.cc:161-175 RoundRobinLoadBalance::get
    [rnd] is the value of [rand()]. *)
Definition RoundRobinLoadBalance_get (b : LoadBalance) (v ts rnd : Z) : outcome (option LoadBalanceItem * LoadBalance) :=
  let! b := LoadBalance_checkInit b ts in
  match m_items b with
  | [] => Ok (None, b)
  | items =>
    let r := u32 ((if v =? U64_MAX then rnd else v) mod Z.of_nat (length items)) in
    Ok (scan items r, b)
  end.

(** [std::upper_bound]: the first element greater than [d], for a sorted vector; the
    comparison is one of [uint64_t]. *)
Fixpoint upper_bound (ws : list Z) (d : Z) : nat :=
  match ws with [] => 0%nat | w :: ws => if d <? u64 w then 0%nat else S (upper_bound ws d) end.

(** @src streams/load_balance.cc:220-230 WeightLoadBalance::getIdx
    The remainder by a total of 0 is undefined; a negative total is converted to
    [uint64_t]. *)
Definition WeightLoadBalance_getIdx (b : LoadBalance) (v rnd : Z) : outcome Z :=
  match rev (m_weights b) with
  | [] => Ok (-1)
  | total :: _ =>
    if total =? 0 then UB else
    let dis := (if v =? U64_MAX then rnd else v) mod u64 total in
    let it := upper_bound (m_weights b) dis in
    assertb (negb (it =? length (m_weights b))%nat) (Ok (Z.of_nat it))
  end.

(** @src streams/load_balance.cc:185-201 WeightLoadBalance::get *)
Definition WeightLoadBalance_get (b : LoadBalance) (v ts rnd : Z) : outcome (option LoadBalanceItem * LoadBalance) :=
  let! b := LoadBalance_checkInit b ts in
  let! idx := WeightLoadBalance_getIdx b v rnd in
  if idx =? -1 then Ok (None, b) else Ok (scan (m_items b) idx, b).

(** @src streams/load_balance.cc:177-183 WeightLoadBalance::getAsFair
    The cast is not checked. *)
Definition WeightLoadBalance_getAsFair (b : LoadBalance) (ts rnd : Z) : outcome (option LoadBalanceItem * LoadBalance) :=
  WeightLoadBalance_get b U64_MAX ts rnd.

End ops.

(** ** Services *)

(** @src streams/load_balance.h:215-223 SDLoadBalance
    By domain and service. *)
Record SDLoadBalance := mkSD {
  sd_datas : gmap (bytes * bytes) LoadBalance;
  sd_types : gmap (bytes * bytes) lb_type;
  m_defaultType : lb_type
}.

(** @src streams/load_balance.cc:375-386 SDLoadBalance::getType *)
Definition SDLoadBalance_getType (d : SDLoadBalance) (domain service : bytes) : lb_type :=
  match sd_types d !! (domain, service) with Some t => t | None => m_defaultType d end.

(** @src streams/load_balance.cc:388-397 SDLoadBalance::createLoadBalance *)
Definition SDLoadBalance_createLoadBalance (t : lb_type) : LoadBalance :=
  match t with
  | ROUNDROBIN => mkLB false ∅ 0 [] []
  | WEIGHT | FAIR => mkLB true ∅ 0 [] []
  end.

(** @src streams/load_balance.cc:399-409 SDLoadBalance::createLoadBalanceItem *)
Definition SDLoadBalance_createLoadBalanceItem (t : lb_type) : LoadBalanceItem :=
  match t with ROUNDROBIN | WEIGHT => mkItem 0 None 0 false | FAIR => mkItem 0 None 0 true end.

(** @src streams/load_balance.cc:347-372 SDLoadBalance::get *)
Definition SDLoadBalance_get (d : SDLoadBalance) (domain service : bytes) (auto_create : bool)
    : option LoadBalance * SDLoadBalance :=
  match sd_datas d !! (domain, service) with
  | Some lb => (Some lb, d)
  | None =>
    if negb auto_create then (None, d) else
    let lb := SDLoadBalance_createLoadBalance (SDLoadBalance_getType d domain service) in
    (Some lb, mkSD (<[(domain, service) := lb]> (sd_datas d)) (sd_types d) (m_defaultType d))
  end.

Section services.
Variables (iter : gmap Z LoadBalanceItem -> list (Z * LoadBalanceItem)).
Variables (connected : Z -> bool) (fair_product : LoadBalanceItem -> Z).
(** [m_cb]: a stream for a server of the service, or null. *)
Context {info : Type} (open_stream : info -> option Z).

(** @src streams/load_balance.cc:411-454 SDLoadBalance::onServiceChange
    Also the items whose streams are closed. *)
Definition SDLoadBalance_onServiceChange (d : SDLoadBalance) (domain service : bytes) (old_value new_value : gmap Z info)
    : outcome (list LoadBalanceItem * SDLoadBalance) :=
  let type := SDLoadBalance_getType d domain service in
  let '(lb, d) := SDLoadBalance_get d domain service true in
  deref lb (fun lb =>
  let del_infos : gmap Z (option LoadBalanceItem) := (fun _ => None) <$> filter (fun '(id, _) => new_value !! id = None) old_value in
  let add_values := filter (fun '(id, _) => old_value !! id = None) new_value in
  let add_infos := map_imap (fun id (v : info) =>
      match open_stream v with
      | None => None
      | Some stream => let h := SDLoadBalance_createLoadBalanceItem type in Some (mkItem id (Some stream) 10000 (it_fair h))
      end) add_values in
  let! (del_infos, lb) := LoadBalance_update iter connected fair_product lb add_infos del_infos in
  Ok (omap (fun '(_, h) => h) (map_to_list del_infos),
      mkSD (<[(domain, service) := lb]> (sd_datas d)) (sd_types d) (m_defaultType d))).

End services.

(** ** The ring of statistics *)

(** @src streams/load_balance.h:38-43 HolderStats *)
Record HolderStats := mkHS {
  hs_usedTime : Z;
  hs_total : Z;
  hs_doing : Z;
  hs_timeouts : Z;
  hs_oks : Z;
  hs_errs : Z
}.

(** @src streams/load_balance.cc:232-239 HolderStats::clear *)
Definition HolderStats_clear : HolderStats := mkHS 0 0 0 0 0 0.

(** The counters, which wrap at 32 bits; every function returns the new value. *)
(** @src streams/load_balance.h:24-24 HolderStats::incUsedTime *)
Definition HolderStats_incUsedTime (h : HolderStats) (v : Z) : HolderStats :=
  mkHS (u32 (hs_usedTime h + v)) (hs_total h) (hs_doing h) (hs_timeouts h) (hs_oks h) (hs_errs h).
(** @src streams/load_balance.h:25-25 HolderStats::incTotal *)
Definition HolderStats_incTotal (h : HolderStats) (v : Z) : HolderStats :=
  mkHS (hs_usedTime h) (u32 (hs_total h + v)) (hs_doing h) (hs_timeouts h) (hs_oks h) (hs_errs h).
(** @src streams/load_balance.h:26-26 HolderStats::incDoing *)
Definition HolderStats_incDoing (h : HolderStats) (v : Z) : HolderStats :=
  mkHS (hs_usedTime h) (hs_total h) (u32 (hs_doing h + v)) (hs_timeouts h) (hs_oks h) (hs_errs h).
(** @src streams/load_balance.h:27-27 HolderStats::incTimeouts *)
Definition HolderStats_incTimeouts (h : HolderStats) (v : Z) : HolderStats :=
  mkHS (hs_usedTime h) (hs_total h) (hs_doing h) (u32 (hs_timeouts h + v)) (hs_oks h) (hs_errs h).
(** @src streams/load_balance.h:28-28 HolderStats::incOks *)
Definition HolderStats_incOks (h : HolderStats) (v : Z) : HolderStats :=
  mkHS (hs_usedTime h) (hs_total h) (hs_doing h) (hs_timeouts h) (u32 (hs_oks h + v)) (hs_errs h).
(** @src streams/load_balance.h:29-29 HolderStats::incErrs *)
Definition HolderStats_incErrs (h : HolderStats) (v : Z) : HolderStats :=
  mkHS (hs_usedTime h) (hs_total h) (hs_doing h) (hs_timeouts h) (hs_oks h) (u32 (hs_errs h + v)).
(** @src streams/load_balance.h:31-31 HolderStats::decDoing *)
Definition HolderStats_decDoing (h : HolderStats) (v : Z) : HolderStats :=
  mkHS (hs_usedTime h) (hs_total h) (u32 (hs_doing h - v)) (hs_timeouts h) (hs_oks h) (hs_errs h).

(** @src streams/load_balance.h:57-58 HolderStatsSet *)
Record HolderStatsSet := mkHSS {
  m_lastUpdateTime : Z;
  m_stats : list HolderStats
}.

(** @src streams/load_balance.cc:260-262 HolderStatsSet::HolderStatsSet *)
Definition HolderStatsSet_new (size : nat) : HolderStatsSet := mkHSS 0 (replicate size HolderStats_clear).

(** The loop of [init] (lines 266-269): [n] turns are left, [t] is a [uint32_t]. *)
Fixpoint clear_from (n : nat) (t now : Z) (l : list HolderStats) : list HolderStats :=
  match n with
  | O => l
  | S n => if t <=? now
           then clear_from n (u32 (t + 1)) now (<[Z.to_nat (t mod Z.of_nat (length l)) := HolderStats_clear]> l)
           else l
  end.

(** @src streams/load_balance.cc:264-272 HolderStatsSet::init *)
Definition HolderStatsSet_init (s : HolderStatsSet) (now : Z) : HolderStatsSet :=
  if m_lastUpdateTime s <? now
  then mkHSS now (clear_from (length (m_stats s)) (u32 (m_lastUpdateTime s + 1)) now (m_stats s))
  else s.

(** @src streams/load_balance.cc:274-277 HolderStatsSet::get
    The index of the slot the returned reference is to. *)
Definition HolderStatsSet_get (s : HolderStatsSet) (now : Z) : nat * HolderStatsSet :=
  let s := HolderStatsSet_init s now in (Z.to_nat (now mod Z.of_nat (length (m_stats s))), s).

(** @src streams/load_balance.cc:11-24 HolderStatsSet::getTotal
    The sums are [uint32_t]. *)
Definition HolderStatsSet_getTotal (s : HolderStatsSet) : HolderStats :=
  fold_left (fun rt i => mkHS (u32 (hs_usedTime rt + hs_usedTime i)) (u32 (hs_total rt + hs_total i))
    (u32 (hs_doing rt + hs_doing i)) (u32 (hs_timeouts rt + hs_timeouts i)) (u32 (hs_oks rt + hs_oks i))
    (u32 (hs_errs rt + hs_errs i))) (m_stats s) HolderStats_clear.

(** ** Picking *)

Section pick.
Variables (iter : gmap Z LoadBalanceItem -> list (Z * LoadBalanceItem)).
Variables (connected : Z -> bool) (fair_product : LoadBalanceItem -> Z).
Notation valid := (LoadBalanceItem_isValid connected).

Lemma scan_spec items r :
  match scan connected items r with
  | Some h => In h items /\ valid h = true
  | None => forall h, In h items -> valid h = false
  end.
Proof.
  unfold scan. set (n := Z.of_nat (length items)).
  assert (Hloop : forall js, (fix loop (js : list nat) : option LoadBalanceItem :=
     match js with
     | [] => None
     | i :: js =>
       match items !! Z.to_nat ((r + Z.of_nat i) mod n) with
       | Some h => if valid h then Some h else loop js
       | None => loop js
       end
     end) js = None -> forall i h, In i js -> items !! Z.to_nat ((r + Z.of_nat i) mod n) = Some h -> valid h = false).
  { induction js as [|j js IH]; [done|]. intros E i h [->|Hi] Hh.
    - rewrite Hh in E. by destruct (valid h).
    - destruct (items !! Z.to_nat ((r + Z.of_nat j) mod n)) as [x|]; [destruct (valid x); [done|]|]; by apply (IH E i h). }
  set (loop := fix loop (js : list nat) := _ : option LoadBalanceItem) in *.
  destruct (loop (seq 0 (length items))) as [h|] eqn:E.
  - clear Hloop. induction (seq 0 (length items)) as [|j js IH]; [done|]. cbn in E.
    destruct (items !! Z.to_nat ((r + Z.of_nat j) mod n)) as [x|] eqn:Hx; [|by apply IH].
    destruct (valid x) eqn:Hv; [|by apply IH]. injection E as <-. split; [|done].
    by apply list_elem_of_In, (list_elem_of_lookup_2 _ (Z.to_nat ((r + Z.of_nat j) mod n))).
  - intros h Hin. apply list_elem_of_In, list_elem_of_lookup in Hin as [k Hk].
    pose proof (lookup_lt_Some _ _ _ Hk) as Hlt.
    apply (Hloop _ E (Z.to_nat ((Z.of_nat k - r) mod n)) h).
    + apply in_seq. pose proof (Z.mod_pos_bound (Z.of_nat k - r) n ltac:(lia)). lia.
    + rewrite Z2Nat.id by (apply Z.mod_pos_bound; lia). rewrite Zplus_mod_idemp_r.
      replace (r + (Z.of_nat k - r)) with (Z.of_nat k) by lia. rewrite Z.mod_small by lia. by rewrite Nat2Z.id.
Qed.

(** ** Weights *)

Definition sum (l : list Z) : Z := fold_right Z.add 0 l.

(** The running sums of the weights [ws]. *)
Fixpoint sums (total : Z) (ws : list Z) : list Z :=
  match ws with [] => [] | w :: ws => total + w :: sums (total + w) ws end.

Lemma prefix_sums_spec l ws : forall total,
  Forall2 (fun h w => item_weight connected fair_product h = Ok w) l ws ->
  prefix_sums connected fair_product total l = Ok (sums total ws).
Proof.
  intros total H. revert total. induction H as [|h w l ws Hw _ IH]; intros total; [done|]. cbn. rewrite Hw. cbn. by rewrite IH.
Qed.

Lemma sum_cons w ws : sum (w :: ws) = w + sum ws.
Proof. reflexivity. Qed.

Lemma sum_nonneg ws : Forall (fun w => 0 < w) ws -> 0 <= sum ws.
Proof. induction 1; [done|]. rewrite sum_cons. lia. Qed.

Lemma upper_bound_sums ws : forall total d,
  Forall (fun w => 0 < w) ws -> 0 <= total <= d -> d < total + sum ws -> total + sum ws < 2 ^ 63 ->
  let i := upper_bound (sums total ws) d in
  (i < length ws)%nat /\ total + sum (take i ws) <= d < total + sum (take (S i) ws).
Proof.
  induction ws as [|w ws IH]; intros total d Hw Ht Hd Hmax; [cbn in Hd; lia|].
  apply Forall_cons_1 in Hw as [Hw0 Hw]. pose proof (sum_nonneg ws Hw) as Hs. rewrite sum_cons in *.
  cbn [sums upper_bound]. rewrite uwrap_small by lia. destruct (Z.ltb_spec d (total + w)) as [Hlt|Hge].
  - cbn [length take]. rewrite take_0, sum_cons. change (sum []) with 0. lia.
  - destruct (IH (total + w) d Hw ltac:(lia) ltac:(lia) ltac:(lia)) as [Hi Hr]. cbn [length take] in *.
    rewrite !sum_cons. cbv zeta. destruct ws; [cbn in Hi; lia|]. lia.
Qed.

Lemma sums_length ws : forall total, length (sums total ws) = length ws.
Proof. induction ws as [|w ws IH]; intros total; cbn; [done|]. by rewrite IH. Qed.

(** The last running sum is the total. *)
Lemma sums_last ws : forall total, ws <> [] -> exists l, rev (sums total ws) = total + sum ws :: l.
Proof.
  induction ws as [|w ws IH]; intros total H; [done|]. cbn [sums rev]. rewrite sum_cons.
  destruct ws as [|w' ws]; [cbn; eexists; do 2 f_equal; lia|].
  destruct (IH (total + w) ltac:(done)) as [l ->]. cbn [app]. eexists. f_equal. lia.
Qed.

Lemma getIdx_spec b ws v rnd :
  m_weights b = sums 0 ws -> ws <> [] -> Forall (fun w => 0 < w) ws -> sum ws < 2 ^ 63 -> 0 <= v -> 0 <= rnd ->
  exists i, WeightLoadBalance_getIdx b v rnd = Ok (Z.of_nat i) /\ (i < length ws)%nat /\
    sum (take i ws) <= (if v =? U64_MAX then rnd else v) mod sum ws < sum (take (S i) ws).
Proof.
  intros E Hne Hw Hmax Hv Hr. unfold WeightLoadBalance_getIdx. rewrite E.
  assert (Hpos : 0 < sum ws).
  { destruct ws as [|w ws]; [done|]. apply Forall_cons_1 in Hw as [Hw0 Hw]. pose proof (sum_nonneg ws Hw). rewrite sum_cons. lia. }
  destruct (sums_last ws 0 Hne) as [l ->]. destruct (Z.eqb_spec (0 + sum ws) 0); [lia|].
  change (0 + sum ws) with (sum ws). rewrite (uwrap_small 64 (sum ws)) by lia. set (d := _ mod _).
  assert (Hd : 0 <= d < sum ws) by (apply Z.mod_pos_bound; lia).
  destruct (upper_bound_sums ws 0 d Hw ltac:(lia) ltac:(lia) ltac:(lia)) as [Hi Hb].
  exists (upper_bound (sums 0 ws) d). split; [|split; [done|lia]].
  destruct (Nat.eqb_spec (upper_bound (sums 0 ws) d) (length (sums 0 ws))) as [Hx|_]; [rewrite sums_length in Hx; lia|done].
Qed.

(** What the weights were when the vector was built. *)
Definition weights_of (b : LoadBalance) (ws : list Z) : Prop :=
  Forall2 (fun h w => item_weight connected fair_product h = Ok w) (valid_items iter connected (lb_datas b)) ws.

(** The weighted balancer picks in proportion to the weights: after a rebuild,
    with positive weights [ws], the value [v] (or the random number) selects the
    item whose interval of running sums contains it modulo the total, so that
    exactly [w] of any [total] consecutive values select an item of weight [w]; the
    assertion that the search succeeded cannot fail. *)
Lemma weight_pick_proportional b ws v rnd :
  weights_of b ws -> ws <> [] -> Forall (fun w => 0 < w) ws -> sum ws < 2 ^ 63 -> 0 <= v -> 0 <= rnd ->
  exists b' i, WeightLoadBalance_initNolock iter connected fair_product b = Ok b' /\
    WeightLoadBalance_getIdx b' v rnd = Ok (Z.of_nat i) /\ (i < length (m_items b'))%nat /\
    sum (take i ws) <= (if v =? U64_MAX then rnd else v) mod sum ws < sum (take (S i) ws).
Proof.
  intros H Hne Hw Hmax Hv Hr. unfold WeightLoadBalance_initNolock. rewrite (prefix_sums_spec _ _ _ H). cbn [obind].
  destruct (getIdx_spec (mkLB (lb_weighted b) (lb_datas b) (m_lastInitTime b) (valid_items iter connected (lb_datas b)) (sums 0 ws))
    ws v rnd eq_refl Hne Hw Hmax Hv Hr) as (i & E & Hi & Hb).
  eexists _, i. split; [reflexivity|]. split_and!; [exact E| |lia|lia].
  cbn. by rewrite (Forall2_length _ _ _ H).
Qed.

Hypothesis iter_all : forall d, iter d ≡ₚ map_to_list d.

Lemma valid_items_in d h : In h (valid_items iter connected d) <-> valid h = true /\ exists id, d !! id = Some h.
Proof.
  unfold valid_items. rewrite filter_In, <- list_elem_of_In, list_elem_of_fmap. split.
  - intros [([id h'] & -> & Hin) Hv]. split; [done|]. exists id. rewrite iter_all in Hin. by apply elem_of_map_to_list in Hin.
  - intros [Hv [id Hid]]. split; [|done]. exists (id, h). split; [done|]. rewrite iter_all. by apply elem_of_map_to_list.
Qed.

(** The virtual [get]. *)
Definition lb_get (b : LoadBalance) (v ts rnd : Z) : outcome (option LoadBalanceItem * LoadBalance) :=
  if lb_weighted b then WeightLoadBalance_get iter connected fair_product b v ts rnd
  else RoundRobinLoadBalance_get iter connected fair_product b v ts rnd.

(** [get] finds a usable item whenever there is one: when the vector is due for a
    rebuild, both kinds of balancer return an item of the service whose stream is
    connected, and null exactly when the service has none. *)
Lemma lb_get_usable b ws v ts rnd :
  500 < u64 (ts - m_lastInitTime b) -> 0 <= v -> 0 <= rnd ->
  weights_of b ws -> Forall (fun w => 0 < w) ws -> sum ws < 2 ^ 63 ->
  exists r b', lb_get b v ts rnd = Ok (r, b') /\ lb_datas b' = lb_datas b /\
  match r with
  | Some h => valid h = true /\ exists id, lb_datas b !! id = Some h
  | None => forall id h, lb_datas b !! id = Some h -> valid h = false
  end.
Proof.
  intros Hts Hv Hr H Hw Hmax. unfold lb_get.
  assert (Hnone : (forall h, In h (valid_items iter connected (lb_datas b)) -> valid h = false) ->
    forall id h, lb_datas b !! id = Some h -> valid h = false).
  { intros Hno id h Hid. destruct (valid h) eqn:E; [|done]. rewrite <- E. apply Hno, valid_items_in. eauto. }
  assert (Hscan : forall r, match scan connected (valid_items iter connected (lb_datas b)) r with
    | Some h => valid h = true /\ exists id, lb_datas b !! id = Some h
    | None => forall id h, lb_datas b !! id = Some h -> valid h = false end).
  { intros r. pose proof (scan_spec (valid_items iter connected (lb_datas b)) r) as Hs.
    destruct (scan _ _ r) as [h|]; [|by apply Hnone]. destruct Hs as [Hin _]. by apply valid_items_in in Hin. }
  unfold WeightLoadBalance_get, RoundRobinLoadBalance_get, LoadBalance_checkInit, LoadBalance_init, initNolock.
  destruct (Z.ltb_spec 500 (u64 (ts - m_lastInitTime b))); [|lia]. destruct (lb_weighted b).
  - unfold WeightLoadBalance_initNolock. rewrite (prefix_sums_spec _ _ _ H). cbn [obind lb_weighted lb_datas m_items m_weights].
    set (b' := mkLB _ _ ts _ _). destruct (decide (ws = [])) as [->|Hne].
    + apply Forall2_length in H. apply length_zero_iff_nil in H. cbn. eexists _, _. split; [reflexivity|]. split; [done|].
      apply Hnone. by rewrite H.
    + destruct (getIdx_spec b' ws v rnd eq_refl Hne Hw Hmax Hv Hr) as (i & -> & _). cbn [obind].
      destruct (Z.eqb_spec (Z.of_nat i) (-1)); [lia|]. eexists _, _. split; [reflexivity|]. split; [done|]. apply Hscan.
  - cbn [obind RoundRobinLoadBalance_initNolock lb_weighted lb_datas m_items m_weights].
    destruct (valid_items iter connected (lb_datas b)) as [|x l] eqn:El.
    + eexists _, _. split; [reflexivity|]. split; [done|]. by apply Hnone.
    + eexists _, _. split; [reflexivity|]. split; [done|]. apply Hscan.
Qed.

End pick.

(** Two items of weights 3 and 1 with connected streams, and one without a stream. *)
Definition lb_demo : LoadBalance :=
  mkLB true (<[1 := mkItem 1 (Some 11) 3 false]> (<[2 := mkItem 2 (Some 12) 1 false]> {[3 := mkItem 3 None 5 false]})) 0 [] [].

Definition lb_demo_weights : list Z :=
  map it_weight (valid_items map_to_list (fun _ => true) (lb_datas lb_demo)).

Lemma lb_demo_weights_of : weights_of map_to_list (fun _ => true) (fun _ => 0) lb_demo lb_demo_weights.
Proof. unfold weights_of. vm_compute. repeat constructor. Qed.

Lemma weight_pick_proportional_witness :
  exists b' i, WeightLoadBalance_initNolock map_to_list (fun _ => true) (fun _ => 0) lb_demo = Ok b' /\
    WeightLoadBalance_getIdx b' 6 0 = Ok (Z.of_nat i) /\ (i < length (m_items b'))%nat /\
    sum (take i lb_demo_weights) <= 6 mod sum lb_demo_weights < sum (take (S i) lb_demo_weights).
Proof.
  apply (weight_pick_proportional map_to_list (fun _ => true) (fun _ => 0) lb_demo lb_demo_weights 6 0 lb_demo_weights_of);
    [done|vm_compute; repeat constructor|vm_compute; done|lia|lia].
Defined.

Lemma lb_get_usable_witness :
  exists r b', lb_get map_to_list (fun _ => true) (fun _ => 0) lb_demo 6 1000 0 = Ok (r, b') /\ lb_datas b' = lb_datas lb_demo /\
  match r with
  | Some h => LoadBalanceItem_isValid (fun _ => true) h = true /\ exists id, lb_datas lb_demo !! id = Some h
  | None => forall id h, lb_datas lb_demo !! id = Some h -> LoadBalanceItem_isValid (fun _ => true) h = false
  end.
Proof.
  apply (lb_get_usable map_to_list (fun _ => true) (fun _ => 0) (fun d => reflexivity _) lb_demo lb_demo_weights 6 1000 0);
    [vm_compute; done|lia|lia|exact lb_demo_weights_of|vm_compute; repeat constructor|vm_compute; done].
Defined.

(** A balancer whose items have the default weight 0 divides by zero. *)
Lemma weight_zero_undefined :
  (let! b := LoadBalance_add map_to_list (fun _ => true) (fun _ => 0) (mkLB true ∅ 0 [] []) (mkItem 1 (Some 11) 0 false) in
   WeightLoadBalance_getIdx b 6 0) = UB.
Proof. vm_compute. reflexivity. Qed.

(** ** The ring *)

Lemma clear_from_spec now len : 0 < len -> now < 2 ^ 32 - 1 -> forall n t l,
  Z.of_nat (length l) = len -> 0 <= t ->
  length (clear_from n t now l) = length l /\
  (forall k, l !! k = Some HolderStats_clear -> clear_from n t now l !! k = Some HolderStats_clear) /\
  (forall u, t <= u <= now -> u < t + Z.of_nat n -> clear_from n t now l !! Z.to_nat (u mod len) = Some HolderStats_clear) /\
  (forall k, (forall u, t <= u <= now -> u < t + Z.of_nat n -> Z.to_nat (u mod len) <> k) -> clear_from n t now l !! k = l !! k).
Proof.
  intros Hlen Hnow. induction n as [|n IH]; intros t l Hl Ht; cbn [clear_from].
  { split_and!; [done|done|lia|done]. }
  destruct (Z.leb_spec t now) as [Hle|Hgt]; [|split_and!; [done|done|lia|done]].
  rewrite uwrap_small by lia. rewrite Hl.
  destruct (IH (t + 1) (<[Z.to_nat (t mod len) := HolderStats_clear]> l)) as (H1 & H2 & H3 & H4); [by rewrite length_insert|lia|].
  assert (Hb : (Z.to_nat (t mod len) < length l)%nat) by (pose proof (Z.mod_pos_bound t len Hlen); lia).
  split_and!.
  - by rewrite H1, length_insert.
  - intros k Hk. apply H2. destruct (decide (k = Z.to_nat (t mod len))) as [->|Hne].
    + by rewrite list_lookup_insert_eq.
    + by rewrite list_lookup_insert_ne.
  - intros u Hu Hn. destruct (Z.eq_dec u t) as [->|Hne]; [|apply H3; lia]. apply H2. by rewrite list_lookup_insert_eq.
  - intros k Hk. rewrite H4 by (intros u Hu Hn; apply Hk; lia). apply list_lookup_insert_ne. apply (Hk t); lia.
Qed.

(** The ring of per-second statistics never shows old seconds: after [get(now)]
    every second since the last update has an empty slot, including the one whose
    reference is returned when [now] is new, and each of the seconds of the window
    up to the last update still has its own. *)
Lemma HolderStatsSet_ring s now :
  let len := Z.of_nat (length (m_stats s)) in
  0 < len -> 0 <= m_lastUpdateTime s < now -> now < 2 ^ 32 - 1 ->
  let '(slot, s') := HolderStatsSet_get s now in
  m_stats s' !! slot = Some HolderStats_clear /\ m_lastUpdateTime s' = now /\
  (forall u, m_lastUpdateTime s < u <= now -> m_stats s' !! Z.to_nat (u mod len) = Some HolderStats_clear) /\
  (forall u, now - len < u <= m_lastUpdateTime s ->
     m_stats s' !! Z.to_nat (u mod len) = m_stats s !! Z.to_nat (u mod len)).
Proof.
  intros len Hlen Hlast Hnow. unfold HolderStatsSet_get, HolderStatsSet_init.
  destruct (Z.ltb_spec (m_lastUpdateTime s) now); [|lia]. cbn [m_stats m_lastUpdateTime]. rewrite uwrap_small by lia.
  destruct (clear_from_spec now len Hlen Hnow (length (m_stats s)) (m_lastUpdateTime s + 1) (m_stats s) eq_refl ltac:(lia))
    as (H1 & _ & H3 & H4). fold len in H3, H4. rewrite H1. fold len.
  assert (Hall : forall u, m_lastUpdateTime s < u <= now ->
    clear_from (length (m_stats s)) (m_lastUpdateTime s + 1) now (m_stats s) !! Z.to_nat (u mod len) = Some HolderStats_clear).
  { intros u Hu. set (u' := m_lastUpdateTime s + 1 + (u - (m_lastUpdateTime s + 1)) mod len).
    pose proof (Z.mod_pos_bound (u - (m_lastUpdateTime s + 1)) len Hlen) as Hm.
    pose proof (Z.mod_le (u - (m_lastUpdateTime s + 1)) len ltac:(lia) Hlen).
    assert (u mod len = u' mod len) as ->; [|apply H3; unfold u'; lia].
    unfold u'. rewrite Zplus_mod_idemp_r. f_equal. lia. }
  split_and!; [apply Hall; lia|done|done|].
  intros u Hu. apply H4. intros x Hx Hn Heq. apply Z2Nat.inj in Heq; [|apply Z.mod_pos_bound; lia..].
  assert (Hd : (x - u) mod len = 0) by (rewrite Zminus_mod, Heq, Z.sub_diag; apply Z.mod_0_l; lia).
  apply Z.mod_divide in Hd as [k Hk]; [|lia]. assert (Hk' : 0 < k * len < len) by lia.
  destruct (Z.le_gt_cases k 0) as [Hk0|Hk0]; [assert (k * len <= 0) by (apply Z.mul_nonpos_nonneg; lia)|assert (1 * len <= k * len) by (apply Z.mul_le_mono_nonneg_r; lia)]; lia.
Qed.

Lemma HolderStatsSet_ring_witness :
  let s := mkHSS 7 [mkHS 1 1 1 1 1 1; mkHS 2 2 2 2 2 2; mkHS 3 3 3 3 3 3] in
  let '(slot, s') := HolderStatsSet_get s 8 in
  m_stats s' !! slot = Some HolderStats_clear /\ m_lastUpdateTime s' = 8 /\
  (forall u, 7 < u <= 8 -> m_stats s' !! Z.to_nat (u mod 3) = Some HolderStats_clear) /\
  (forall u, 8 - 3 < u <= 7 -> m_stats s' !! Z.to_nat (u mod 3) = m_stats s !! Z.to_nat (u mod 3)).
Proof.
  apply (HolderStatsSet_ring (mkHSS 7 [mkHS 1 1 1 1 1 1; mkHS 2 2 2 2 2 2; mkHS 3 3 3 3 3 3]) 8); cbn; lia.
Defined.

(** A request that began in a second whose slot was cleared since: the counter of those
    under way is decremented below zero. *)
Lemma decDoing_after_clear :
  let s := mkHSS 7 (replicate 5 HolderStats_clear) in
  let slot := fst (HolderStatsSet_get s 8) in
  let s := snd (HolderStatsSet_get s 8) in
  let s := mkHSS 8 (alter (fun h => HolderStats_incDoing h 1) slot (m_stats s)) in
  let s := snd (HolderStatsSet_get s 13) in
  hs_doing <$> alter (fun h => HolderStats_decDoing h 1) slot (m_stats s) !! slot = Some (2 ^ 32 - 1).
Proof. vm_compute. reflexivity. Qed.
