(* ===== verification/Stream.v ===== *)
(** * Streams ([stream.h], [stream.cc])

    [Stream] is an abstract class: the class [StreamOps] has its virtual functions,
    and [StreamSpec] is what the comment of [stream.h] says of a stream that works:
    a positive result is the number of bytes transferred, at least one, and 0 means
    that the other side closed it.  The transfers of a fixed size are built on the
    virtual functions and proved against that interface; [chunked] is an
    implementation that transfers in pieces of given sizes. *)

From S2P Require Import Prelude.
From Stdlib Require Import ZArith Lia List.
From stdpp Require Import base tactics list numbers option.

Open Scope Z_scope.

(** @src stream.h:18-32 Stream
    [read] gives its result and the bytes it stored. *)
Class StreamOps (S : Type) := {
  stream_read : S -> Z -> Z * bytes * S;
  stream_write : S -> bytes -> Z * S;
  stream_close : S -> S
}.

Class StreamSpec (S : Type) `{StreamOps S} := {
  (** the bytes that will arrive before the other side closes, and those sent *)
  incoming : S -> bytes;
  outgoing : S -> bytes;
  read_ok st n : 0 < n -> incoming st <> [] ->
    exists k st', (0 < k <= length (incoming st))%nat /\ Z.of_nat k <= n /\
      stream_read st n = (Z.of_nat k, take k (incoming st), st') /\
      incoming st' = drop k (incoming st) /\ outgoing st' = outgoing st;
  read_eof st n : 0 < n -> incoming st = [] ->
    exists st', stream_read st n = (0, [], st') /\ incoming st' = [] /\ outgoing st' = outgoing st;
  write_ok st b : b <> [] ->
    exists k st', (0 < k <= length b)%nat /\ stream_write st b = (Z.of_nat k, st') /\
      incoming st' = incoming st /\ outgoing st' = outgoing st ++ take k b
}.

Section ops.
Context {S : Type} {SO : StreamOps S}.

(** The loop of [readFixSize]: [left] is an [int64_t]. *)
Fixpoint readFix_loop (fuel : nat) (st : S) (length left : Z) (buffer : bytes) : outcome (Z * bytes * S) :=
  if left <=? 0 then Ok (i32 length, buffer, st) else
  match fuel with
  | O => NoFuel
  | Datatypes.S fuel =>
    let '(len, data, st) := stream_read st left in
    if len <=? 0 then Ok (i32 len, buffer, st)
    else readFix_loop fuel st length (left - len) (buffer ++ data)
  end.

(** @src stream.cc:5-17 Stream::readFixSize
    The result, an [int], and the bytes stored in the buffer. *)
Definition Stream_readFixSize (st : S) (length : Z) : outcome (Z * bytes * S) :=
  readFix_loop (Z.to_nat (i64 length)) st length (i64 length) [].

Fixpoint writeFix_loop (fuel : nat) (st : S) (length : Z) (b : bytes) : outcome (Z * S) :=
  match b with
  | [] => Ok (i32 length, st)
  | _ =>
    match fuel with
    | O => NoFuel
    | Datatypes.S fuel =>
      let '(len, st) := stream_write st b in
      if len <=? 0 then Ok (i32 len, st) else writeFix_loop fuel st length (drop (Z.to_nat len) b)
    end
  end.

(** @src stream.cc:31-44 Stream::writeFixSize
    [buffer] holds [length] bytes. *)
Definition Stream_writeFixSize (st : S) (buffer : bytes) : outcome (Z * S) :=
  writeFix_loop (length buffer) st (Z.of_nat (length buffer)) buffer.

End ops.

Section spec.
Context {S : Type} {SO : StreamOps S} {SS : StreamSpec S}.
Implicit Types st : S.

(** A read is the end of the stream or brings at least a byte. *)
Lemma read_cases st n : 0 < n ->
  (exists st', stream_read st n = (0, [], st')) \/
  exists k st', (0 < k)%nat /\ Z.of_nat k <= n /\ stream_read st n = (Z.of_nat k, take k (incoming st), st') /\
    (length (incoming st') + k = length (incoming st))%nat /\ (k <= length (incoming st))%nat.
Proof.
  intros Hn. destruct (decide (incoming st = [])) as [E|E].
  - left. destruct (read_eof st n Hn E) as (st' & ? & _). eauto.
  - right. destruct (read_ok st n Hn E) as (k & st' & ? & ? & ? & Hi & _). exists k, st'. rewrite Hi, length_drop. split_and!; [lia|lia|done|lia|lia].
Qed.

Lemma readFix_loop_ok fuel : forall st length left buffer,
  0 <= left -> (Z.to_nat left <= fuel)%nat -> left <= Z.of_nat (List.length (incoming st)) ->
  exists st', readFix_loop fuel st length left buffer = Ok (i32 length, buffer ++ take (Z.to_nat left) (incoming st), st') /\
    incoming st' = drop (Z.to_nat left) (incoming st) /\ outgoing st' = outgoing st.
Proof.
  induction fuel as [|fuel IH]; intros st len left buffer H0 Hf Hin; cbn [readFix_loop];
    destruct (Z.leb_spec left 0) as [Hle|Hgt].
  1, 3: exists st; replace (Z.to_nat left) with 0%nat by lia; by rewrite take_0, drop_0, app_nil_r.
  { lia. }
  destruct (read_ok st left Hgt) as (k & st1 & Hk & Hkn & -> & Hi & Ho); [intros E; rewrite E in Hin; cbn in Hin; lia|].
  destruct (Z.leb_spec (Z.of_nat k) 0); [lia|].
  destruct (IH st1 len (left - Z.of_nat k) (buffer ++ take k (incoming st))) as (st2 & -> & Hi2 & Ho2);
    [lia|lia|rewrite Hi; lens|].
  exists st2. rewrite Ho2, Ho, Hi2, Hi, drop_drop, <- app_assoc, take_take_drop.
  replace (k + Z.to_nat (left - Z.of_nat k))%nat with (Z.to_nat left) by lia. done.
Qed.

(** Too little is coming: everything is read and 0 returned. *)
Lemma readFix_loop_eof fuel : forall st length left buffer,
  (Z.to_nat left <= fuel)%nat -> Z.of_nat (List.length (incoming st)) < left ->
  exists st' buffer', readFix_loop fuel st length left buffer = Ok (0, buffer', st') /\
    incoming st' = [] /\ outgoing st' = outgoing st.
Proof.
  induction fuel as [|fuel IH]; intros st len left buffer Hf Hin; cbn [readFix_loop];
    destruct (Z.leb_spec left 0) as [Hle|Hgt]; try lia.
  destruct (decide (incoming st = [])) as [E|E].
  - destruct (read_eof st left Hgt E) as (st1 & -> & Hi & Ho). cbn. by exists st1, buffer.
  - destruct (read_ok st left Hgt E) as (k & st1 & Hk & Hkn & -> & Hi & Ho).
    destruct (Z.leb_spec (Z.of_nat k) 0); [lia|].
    destruct (IH st1 len (left - Z.of_nat k) (buffer ++ take k (incoming st))) as (st2 & b2 & -> & Hi2 & Ho2);
      [lia|rewrite Hi; lens|]. exists st2, b2. by rewrite Ho2, Ho.
Qed.

(** The loop returns whatever arrives. *)
Lemma Stream_readFixSize_returns st n : exists r got st', Stream_readFixSize st n = Ok (r, got, st').
Proof.
  unfold Stream_readFixSize. set (left := i64 n). destruct (Z.leb_spec left 0) as [Hle|Hgt].
  - destruct (Z.to_nat left); cbn [readFix_loop]; rewrite (proj2 (Z.leb_le left 0)) by lia; eauto.
  - destruct (Z.leb_spec left (Z.of_nat (length (incoming st)))) as [Hin|Hin].
    + destruct (readFix_loop_ok (Z.to_nat left) st n left []) as (st' & -> & _); [lia..|]. eauto.
    + destruct (readFix_loop_eof (Z.to_nat left) st n left []) as (st' & b & -> & _); [lia..|]. eauto.
Qed.

Lemma readFixSize_ok st n :
  0 <= n < 2 ^ 31 -> n <= Z.of_nat (length (incoming st)) ->
  exists st', Stream_readFixSize st n = Ok (n, take (Z.to_nat n) (incoming st), st') /\
    incoming st' = drop (Z.to_nat n) (incoming st) /\ outgoing st' = outgoing st.
Proof.
  intros Hn Hin. unfold Stream_readFixSize. rewrite (swrap_small 64 n) by lia.
  destruct (readFix_loop_ok (Z.to_nat n) st n n []) as (st' & -> & H); [lia|lia|lia|].
  exists st'. by rewrite (swrap_small 32 n) by lia.
Qed.

Lemma writeFix_loop_ok fuel : forall st len b,
  (length b <= fuel)%nat ->
  exists st', writeFix_loop fuel st len b = Ok (i32 len, st') /\ outgoing st' = outgoing st ++ b /\ incoming st' = incoming st.
Proof.
  induction fuel as [|fuel IH]; intros st len b Hf.
  { destruct b; [|cbn in Hf; lia]. exists st. cbn. by rewrite app_nil_r. }
  destruct b as [|x b]; [exists st; cbn; by rewrite app_nil_r|]. cbn [writeFix_loop].
  destruct (write_ok st (x :: b)) as (k & st1 & Hk & -> & Hi & Ho); [done|].
  destruct (Z.leb_spec (Z.of_nat k) 0); [lia|]. rewrite Nat2Z.id.
  destruct (IH st1 len (drop k (x :: b))) as (st2 & -> & Ho2 & Hi2); [lens|].
  exists st2. rewrite Ho2, Ho, Hi2, Hi, <- app_assoc, take_drop. done.
Qed.

Lemma writeFixSize_ok st b :
  Z.of_nat (length b) < 2 ^ 31 ->
  exists st', Stream_writeFixSize st b = Ok (Z.of_nat (length b), st') /\
    outgoing st' = outgoing st ++ b /\ incoming st' = incoming st.
Proof.
  intros Hb. unfold Stream_writeFixSize.
  destruct (writeFix_loop_ok (length b) st (Z.of_nat (length b)) b) as (st' & -> & H); [done|].
  exists st'. by rewrite swrap_small by lia.
Qed.

Lemma Stream_writeFixSize_returns st b : exists r st', Stream_writeFixSize st b = Ok (r, st') /\ incoming st' = incoming st.
Proof.
  unfold Stream_writeFixSize. destruct (writeFix_loop_ok (length b) st (Z.of_nat (length b)) b) as (st' & -> & _ & Hi); [done|]. eauto.
Qed.

(** Reading never makes more arrive. *)
Lemma readFix_loop_shrinks fuel : forall st length left buffer r got st',
  readFix_loop fuel st length left buffer = Ok (r, got, st') -> (List.length (incoming st') <= List.length (incoming st))%nat.
Proof.
  induction fuel as [|fuel IH]; intros st length left buffer r got st'; cbn [readFix_loop].
  { by destruct (left <=? 0); intros; simplify_eq. }
  destruct (Z.leb_spec left 0); [by intros; simplify_eq|].
  destruct (read_cases st left) as [(st1 & E)|(k & st1 & Hk & _ & -> & Hi & _)]; [lia| |].
  - assert (incoming st1 = []) as Hi.
    { destruct (decide (incoming st = [])) as [E0|E0].
      - destruct (read_eof st left ltac:(lia) E0) as (st2 & E2 & Hi & _). congruence.
      - destruct (read_ok st left) as (k & st2 & ? & _ & E2 & _); [lia|done|]. rewrite E in E2. simplify_eq. lia. }
    rewrite E. cbn. intros [= <- <- <-]. rewrite Hi. cbn. lia.
  - rewrite (proj2 (Z.leb_gt _ 0)) by lia. intros E. apply IH in E. lia.
Qed.

(** Transfers of a fixed size are exact however the stream is cut into pieces:
    [readFixSize] of [n] bytes returns [n] with exactly the next [n] bytes when that
    many arrive, and otherwise 0 once the other side has closed; [writeFixSize] sends
    the whole buffer, in order, and returns its length.  Neither loops for ever. *)
Lemma Stream_fix_exact st n b :
  0 <= n < 2 ^ 31 -> Z.of_nat (length b) < 2 ^ 31 ->
  (if n <=? Z.of_nat (length (incoming st))
   then exists st', Stream_readFixSize st n = Ok (n, take (Z.to_nat n) (incoming st), st') /\
          incoming st' = drop (Z.to_nat n) (incoming st)
   else exists st' got, Stream_readFixSize st n = Ok (0, got, st') /\ incoming st' = []) /\
  (exists st', Stream_writeFixSize st b = Ok (Z.of_nat (length b), st') /\ outgoing st' = outgoing st ++ b).
Proof.
  intros Hn Hb. split.
  - destruct (Z.leb_spec n (Z.of_nat (length (incoming st)))) as [Hle|Hgt].
    + destruct (readFixSize_ok st n Hn Hle) as (st' & E & Hi & _). eauto.
    + unfold Stream_readFixSize. rewrite (swrap_small 64 n) by lia.
      destruct (readFix_loop_eof (Z.to_nat n) st n n []) as (st' & got & E & Hi & _); [lia|lia|]. eauto.
  - destruct (writeFixSize_ok st b Hb) as (st' & E & Ho & _). eauto.
Qed.

End spec.

(** ** A stream that transfers in pieces *)

(** What is still to come, what was sent, whether it was closed, and the number of
    calls; the [i]-th call moves at most [1 + i mod 3] bytes. *)
Record chunked := mkChunked { ch_in : bytes; ch_out : bytes; ch_calls : nat; ch_closed : bool }.

Definition ch_limit (st : chunked) : nat := (1 + ch_calls st mod 3)%nat.

#[global] Instance chunked_ops : StreamOps chunked := {|
  stream_read st n :=
    let k := Nat.min (ch_limit st) (Nat.min (Z.to_nat n) (length (ch_in st))) in
    (Z.of_nat k, take k (ch_in st), mkChunked (drop k (ch_in st)) (ch_out st) (S (ch_calls st)) (ch_closed st));
  stream_write st b :=
    let k := Nat.min (ch_limit st) (length b) in
    (Z.of_nat k, mkChunked (ch_in st) (ch_out st ++ take k b) (S (ch_calls st)) (ch_closed st));
  stream_close st := mkChunked (ch_in st) (ch_out st) (ch_calls st) true
|}.

#[global] Instance chunked_spec : StreamSpec chunked.
Proof.
  refine {| incoming := ch_in; outgoing := ch_out |}.
  - intros st n Hn Hne. assert (length (ch_in st) <> 0%nat) by (by destruct (ch_in st)). eexists _, _.
    split; [|split; [|split; [reflexivity|done]]]; unfold ch_limit; lia.
  - intros st n Hn E. eexists. cbn. rewrite E. cbn [length]. rewrite !Nat.min_0_r. done.
  - intros st b Hb. assert (length b <> 0%nat) by (by destruct b). eexists _, _.
    split; [|split; [reflexivity|done]]; unfold ch_limit; lia.
Defined.

Lemma Stream_fix_exact_witness :
  let st := mkChunked [1; 2; 3; 4; 5; 6; 7] [] 0 false in
  (exists st', Stream_readFixSize st 5 = Ok (5, [1; 2; 3; 4; 5], st') /\ incoming st' = [6; 7]) /\
  (exists st', Stream_writeFixSize st [8; 9; 10; 11] = Ok (4, st') /\ outgoing st' = [8; 9; 10; 11]).
Proof. exact (Stream_fix_exact (mkChunked [1; 2; 3; 4; 5; 6; 7] [] 0 false) 5 [8; 9; 10; 11] ltac:(lia) ltac:(cbn; lia)). Defined.

(** ** A stream that transfers all it can *)

Record greedy := mkGreedy { gr_in : bytes; gr_out : bytes; gr_closed : bool }.

#[global] Instance greedy_ops : StreamOps greedy := {|
  stream_read st n :=
    let k := Nat.min (Z.to_nat n) (length (gr_in st)) in
    (Z.of_nat k, take k (gr_in st), mkGreedy (drop k (gr_in st)) (gr_out st) (gr_closed st));
  stream_write st b := (Z.of_nat (length b), mkGreedy (gr_in st) (gr_out st ++ b) (gr_closed st));
  stream_close st := mkGreedy (gr_in st) (gr_out st) true
|}.

#[global] Instance greedy_spec : StreamSpec greedy.
Proof.
  refine {| incoming := gr_in; outgoing := gr_out |}.
  - intros st n Hn Hne. assert (length (gr_in st) <> 0%nat) by (by destruct (gr_in st)). eexists _, _.
    split; [|split; [|split; [reflexivity|done]]]; lia.
  - intros st n Hn E. eexists. cbn. rewrite E. cbn [length]. rewrite !Nat.min_0_r. done.
  - intros st b Hb. assert (length b <> 0%nat) by (by destruct b). exists (length b). eexists.
    split; [|split; [reflexivity|]]; [lia|]. cbn. by rewrite take_ge.
Defined.

Lemma greedy_prompt (st : greedy) n : 0 < n -> (stream_read st n).1.1 = Z.min n (Z.of_nat (length (incoming st))).
Proof. intros Hn. cbn [stream_read greedy_ops fst incoming greedy_spec]. lia. Qed.
