(* ===== verification/WebSocket.v ===== *)
(** * WebSocket frames ([http/ws_session.h], [http/ws_session.cc])

    Sending and receiving of messages over a stream, used through the interface of
    [Stream].  The header is a packed structure of bit fields, two bytes on the
    little-endian hosts the code is for.  [rnd] is the value of [rand()], from which
    the sender takes the mask; [max] is the configured [websocket.message.max_size]. *)

From S2P Require Import Prelude Endian Stream.
From Stdlib Require Import ZArith Lia List.
From stdpp Require Import base tactics list numbers option.

Open Scope Z_scope.

(** @src http/ws_session.h:13-26 WSFrameHead::OPCODE *)
Definition CONTINUE : Z := 0.
Definition TEXT_FRAME : Z := 1.
Definition BIN_FRAME : Z := 2.
Definition CLOSE : Z := 8.
Definition PING : Z := 0x9.
Definition PONG : Z := 0xA.

(** @src http/ws_session.h:12-36 WSFrameHead
    The reserved bits are ignored by the receiver and 0 in what is sent. *)
Record WSFrameHead := mkHead {
  h_opcode : Z;
  h_fin : bool;
  h_payload : Z;
  h_mask : bool
}.

Definition bit (b : bool) : Z := if b then 1 else 0.

(** The two bytes of the structure: an assignment to a field keeps its low bits. *)
Definition head_bytes (h : WSFrameHead) : bytes :=
  [h_opcode h mod 16 + 128 * bit (h_fin h); h_payload h mod 128 + 128 * bit (h_mask h)].

Definition head_of (b : bytes) : WSFrameHead :=
  let b0 := nth 0 b 0 in let b1 := nth 1 b 0 in
  mkHead (b0 mod 16) (128 <=? b0) (b1 mod 128) (128 <=? b1).

Definition host : Z := BIN_LITTLE_ENDIAN.

(** [data[i] ^= mask[i % 4]]. *)
Definition xor_mask (mask data : bytes) : bytes := imap (fun i b => Z.lxor b (nth (i mod 4) mask 0)) data.

Section ops.
Context {S : Type} {SO : StreamOps S}.
Implicit Types st : S.

(** [if(stream->writeFixSize(...) <= 0) break;] and what follows. *)
Definition ws_write {A} st (b : bytes) (fail : S -> outcome A) (k : S -> outcome A) : outcome A :=
  let! (n, st) := Stream_writeFixSize st b in if n <=? 0 then fail st else k st.

Definition ws_read {A} st (n : Z) (fail : S -> outcome A) (k : bytes -> S -> outcome A) : outcome A :=
  let! (r, b, st) := Stream_readFixSize st n in if r <=? 0 then fail st else k b st.

(** The length field of the header. *)
Definition ws_payload (size : Z) : Z := if size <? 126 then size else if size <? 65536 then 126 else 127.

(** The extended length, if there is one. *)
Definition ws_length_bytes (size : Z) : bytes :=
  if ws_payload size =? 126 then mem_of host 2 (byteswapOnLittleEndian host 2 (u16 size))
  else if ws_payload size =? 127 then mem_of host 8 (byteswapOnLittleEndian host 8 size)
  else [].

Definition send_fail (data : bytes) st : outcome (Z * bytes * S) := Ok (-1, data, stream_close st).

(** The end of [WSSendMessage], from the mask on (lines 214-230).  The result is an
    [int32_t]. *)
Definition send_payload (data : bytes) (client : bool) (rnd : Z) st : outcome (Z * bytes * S) :=
  let rest data st :=
    ws_write st data (send_fail data) (fun st => Ok (i32 (Z.of_nat (length data) + 2), data, st)) in
  if client then
    let mask := mem_of host 4 (u32 rnd) in
    let data := xor_mask mask data in
    ws_write st mask (send_fail data) (rest data)
  else rest data st.

(** @src http/ws_session.cc:183-234 WSSendMessage
    The result, the message's data afterwards (the mask is applied in place), and
    the stream. *)
Definition WSSendMessage st (opcode : Z) (data : bytes) (client fin : bool) (rnd : Z) : outcome (Z * bytes * S) :=
  let size := Z.of_nat (length data) in
  let ws_head := mkHead opcode fin (ws_payload size) client in
  ws_write st (head_bytes ws_head) (send_fail data) (fun st =>
    match ws_length_bytes size with
    | [] => send_payload data client rnd st
    | len => ws_write st len (send_fail data) (send_payload data client rnd)
    end).

(** @src http/ws_session.cc:252-262 WSPong *)
Definition WSPong st : outcome (Z * S) :=
  let! (v, st) := Stream_writeFixSize st (head_bytes (mkHead PONG true 0 false)) in
  Ok (v, if v <=? 0 then stream_close st else st).

(** @src http/ws_session.cc:240-250 WSPing *)
Definition WSPing st : outcome (Z * S) :=
  let! (v, st) := Stream_writeFixSize st (head_bytes (mkHead PING true 0 false)) in
  Ok (v, if v <=? 0 then stream_close st else st).

(** The part of the receiver's loop for a frame with data, from the mask on (lines
    150-174): [data] are the fragments so far. *)
Definition recv_payload {A} st (h : WSFrameHead) (length : Z) (data : bytes)
    (fail : S -> outcome A) (k : bytes -> S -> outcome A) : outcome A :=
  let body mask st :=
    ws_read st length fail (fun b st => k (data ++ (if h_mask h then xor_mask mask b else b)) st) in
  if h_mask h then ws_read st 4 fail body else body [0; 0; 0; 0] st.

(** The length of a frame's data (lines 126-141). *)
Definition recv_length {A} st (h : WSFrameHead) (fail : S -> outcome A) (k : Z -> S -> outcome A) : outcome A :=
  if h_payload h =? 126 then ws_read st 2 fail (fun b => k (byteswapOnLittleEndian host 2 (of_mem host b)))
  else if h_payload h =? 127 then ws_read st 8 fail (fun b => k (byteswapOnLittleEndian host 8 (of_mem host b)))
  else k (h_payload h) st.

Definition is_data (opcode : Z) : bool := (opcode =? CONTINUE) || (opcode =? TEXT_FRAME) || (opcode =? BIN_FRAME).

(** @src http/ws_session.cc:102-181 WSRecvMessage
    [fuel] bounds the number of frames; [cur_len] is the length of [data]. *)
Fixpoint WSRecvMessage (fuel : nat) st (client : bool) (max opcode : Z) (data : bytes) : outcome (option (Z * bytes) * S) :=
  match fuel with
  | O => NoFuel
  | Datatypes.S fuel =>
    let fail st := Ok (None, stream_close st) in
    ws_read st 2 fail (fun b st =>
    let h := head_of b in
    if h_opcode h =? PING then
      let! (v, st) := WSPong st in
      if v <=? 0 then fail st else WSRecvMessage fuel st client max opcode data
    else if h_opcode h =? PONG then WSRecvMessage fuel st client max opcode data
    else if is_data (h_opcode h) then
      if negb client && negb (h_mask h) then fail st else
      recv_length st h fail (fun length st =>
      if max <=? u64 (Z.of_nat (List.length data) + length) then fail st else
      recv_payload st h length data fail (fun data st =>
      let opcode := if (opcode =? 0) && negb (h_opcode h =? CONTINUE) then h_opcode h else opcode in
      if h_fin h then Ok (Some (opcode, data), st)
      else WSRecvMessage fuel st client max opcode data))
    else WSRecvMessage fuel st client max opcode data)
  end.

End ops.

(** ** What goes over the wire *)

Definition ws_mask (rnd : Z) : bytes := mem_of host 4 (u32 rnd).

Definition payload_bytes (data : bytes) (client : bool) (rnd : Z) : bytes :=
  if client then ws_mask rnd ++ xor_mask (ws_mask rnd) data else data.

Definition ws_frame (opcode : Z) (data : bytes) (client fin : bool) (rnd : Z) : bytes :=
  let size := Z.of_nat (length data) in
  head_bytes (mkHead opcode fin (ws_payload size) client) ++ ws_length_bytes size ++ payload_bytes data client rnd.

Lemma head_of_bytes h rest :
  0 <= h_opcode h < 16 -> 0 <= h_payload h < 128 -> head_of (head_bytes h ++ rest) = h.
Proof.
  intros Ho Hp. destruct h as [op fin pay msk]; cbn in *. unfold head_of, head_bytes; cbn.
  rewrite (Z.mod_small op), (Z.mod_small pay) by done.
  f_equal; destruct fin, msk; cbn [bit]; try (apply Z.leb_gt; lia); try (apply Z.leb_le; lia);
    Z.div_mod_to_equations; lia.
Qed.

Lemma length_xor_mask mask data : length (xor_mask mask data) = length data.
Proof. apply length_imap. Qed.

(** Masking twice with the same mask gives the data back. *)
Lemma xor_mask_twice mask data : xor_mask mask (xor_mask mask data) = data.
Proof.
  apply list_eq. intros i. unfold xor_mask. rewrite !list_lookup_imap.
  destruct (data !! i) as [b|]; cbn; [|done]. by rewrite Z.lxor_assoc, Z.lxor_nilpotent, Z.lxor_0_r.
Qed.

Lemma xor_mask_nonnil mask data : data <> [] -> xor_mask mask data <> [].
Proof. by destruct data. Qed.

Lemma ws_payload_range size : 0 <= size -> 0 <= ws_payload size < 128.
Proof. unfold ws_payload. intros. repeat case_match; lia. Qed.

Lemma length_ws_length_bytes size : (length (ws_length_bytes size) <= 8)%nat.
Proof. unfold ws_length_bytes. repeat case_match; rewrite ?length_mem_of; cbn; lia. Qed.

#[export] Hint Rewrite length_xor_mask length_mem_of : lengths.

Lemma mem_of_nonnil n v : mem_of host (Datatypes.S n) v <> [].
Proof. intros E. apply (f_equal length) in E. by rewrite length_mem_of in E. Qed.

(** A number sent in network order is received. *)
Lemma wire_number n v :
  0 <= v < 256 ^ Z.of_nat n ->
  byteswapOnLittleEndian host n (of_mem host (mem_of host n (byteswapOnLittleEndian host n v))) = v.
Proof.
  intros Hv. rewrite of_mem_mem_of, Z.mod_small; [by apply byteswapOnLittleEndian_twice|].
  apply byteswap_range.
Qed.

Section frames.
Context {S : Type} {SO : StreamOps S} {SS : StreamSpec S}.
Implicit Types st : S.

(** A step of the sender that does not fail. *)
Lemma ws_write_ok st b :
  b <> [] -> Z.of_nat (length b) < 2 ^ 31 ->
  exists st', (forall A fail (k : S -> outcome A), ws_write st b fail k = k st') /\
    outgoing st' = outgoing st ++ b /\ incoming st' = incoming st.
Proof.
  intros Hne Hb. destruct (writeFixSize_ok st b Hb) as (st' & E & Ho & Hi). exists st'.
  split; [|done]. intros A fail k. unfold ws_write. rewrite E. cbn.
  destruct b; [done|]. by rewrite (proj2 (Z.leb_gt _ _)) by (cbn [length]; lia).
Qed.

(** A step of the receiver for which enough bytes arrive. *)
Lemma ws_read_ok st b rest :
  incoming st = b ++ rest -> b <> [] -> Z.of_nat (length b) < 2 ^ 31 ->
  exists st', (forall A fail (k : bytes -> S -> outcome A), ws_read st (Z.of_nat (length b)) fail k = k b st') /\
    incoming st' = rest /\ outgoing st' = outgoing st.
Proof.
  intros Hin Hne Hb.
  destruct (readFixSize_ok st (Z.of_nat (length b))) as (st' & E & Hi & Ho); [lia|rewrite Hin; lens|].
  exists st'. rewrite Nat2Z.id, Hin, ?take_app_length, ?drop_app_length in *. split; [|done].
  intros A fail k. unfold ws_read. rewrite E. cbn.
  destruct b; [done|]. by rewrite (proj2 (Z.leb_gt _ _)) by (cbn [length]; lia).
Qed.

Lemma recv_length_ok st size opcode fin msk rest :
  incoming st = ws_length_bytes size ++ rest -> 0 <= size < 2 ^ 31 ->
  exists st', (forall A fail (k : Z -> S -> outcome A),
      recv_length st (mkHead opcode fin (ws_payload size) msk) fail k = k size st') /\
    incoming st' = rest /\ outgoing st' = outgoing st.
Proof.
  intros Hin Hs. unfold recv_length, ws_length_bytes in *. cbn [h_payload] in *.
  destruct (Z.eqb_spec (ws_payload size) 126) as [E6|E6]; [|destruct (Z.eqb_spec (ws_payload size) 127) as [E7|E7]].
  3: { exists st. split; [|done]. intros. f_equal. unfold ws_payload in *. repeat case_match; lia. }
  all: edestruct ws_read_ok as (st' & E & H); [exact Hin|apply mem_of_nonnil|rewrite length_mem_of; lia|].
  all: exists st'; split; [|exact H]; intros A fail k; rewrite length_mem_of in E; etransitivity; [apply E|].
  all: cbn beta; rewrite wire_number; [|unfold ws_payload in *; rewrite ?uwrap_small; repeat case_match; lia].
  - by rewrite uwrap_small by (unfold ws_payload in *; repeat case_match; lia).
  - done.
Qed.

Lemma send_payload_ok st data client rnd :
  data <> [] -> Z.of_nat (length data) + 2 < 2 ^ 31 ->
  exists st', send_payload data client rnd st =
      Ok (Z.of_nat (length data) + 2, if client then xor_mask (ws_mask rnd) data else data, st') /\
    outgoing st' = outgoing st ++ payload_bytes data client rnd /\ incoming st' = incoming st.
Proof.
  intros Hne Hl. unfold send_payload, payload_bytes. fold (ws_mask rnd). destruct client.
  - destruct (ws_write_ok st (ws_mask rnd)) as (s1 & E1 & O1 & I1); [apply mem_of_nonnil|unfold ws_mask; lens|].
    rewrite E1. destruct (ws_write_ok s1 (xor_mask (ws_mask rnd) data)) as (s2 & E2 & O2 & I2);
      [by apply xor_mask_nonnil|lens|].
    exists s2. by rewrite E2, O2, O1, I2, I1, <- app_assoc, length_xor_mask, swrap_small by lia.
  - destruct (ws_write_ok st data) as (s1 & E1 & O1 & I1); [done|lia|].
    exists s1. by rewrite E1, swrap_small by lia.
Qed.

(** A nonempty message goes out as one frame; the sender's copy ends up masked. *)
Lemma WSSendMessage_ok st opcode data client fin rnd :
  data <> [] -> Z.of_nat (length data) + 2 < 2 ^ 31 ->
  exists st', WSSendMessage st opcode data client fin rnd =
      Ok (Z.of_nat (length data) + 2, if client then xor_mask (ws_mask rnd) data else data, st') /\
    outgoing st' = outgoing st ++ ws_frame opcode data client fin rnd /\ incoming st' = incoming st.
Proof.
  intros Hne Hl. unfold WSSendMessage, ws_frame.
  set (hd := mkHead _ _ _ _). set (size := Z.of_nat (length data)).
  destruct (ws_write_ok st (head_bytes hd)) as (s1 & -> & O1 & I1); [done|cbn; lia|].
  destruct (ws_length_bytes size) as [|x lb] eqn:El.
  - destruct (send_payload_ok s1 data client rnd Hne Hl) as (s2 & -> & O2 & I2). exists s2.
    by rewrite O2, O1, I2, I1, <- !app_assoc.
  - pose proof (length_ws_length_bytes size) as L. rewrite El in L.
    destruct (ws_write_ok s1 (x :: lb)) as (s2 & -> & O2 & I2); [done|lia|].
    destruct (send_payload_ok s2 data client rnd Hne Hl) as (s3 & -> & O3 & I3). exists s3.
    by rewrite O3, O2, O1, I3, I2, I1, <- !app_assoc.
Qed.

(** The data of a frame is appended, unmasked. *)
Lemma recv_payload_ok st data acc opcode fin pay client rnd rest :
  incoming st = payload_bytes data client rnd ++ rest -> data <> [] -> Z.of_nat (length data) < 2 ^ 31 ->
  exists st', (forall A fail (k : bytes -> S -> outcome A),
      recv_payload st (mkHead opcode fin pay client) (Z.of_nat (length data)) acc fail k = k (acc ++ data) st') /\
    incoming st' = rest /\ outgoing st' = outgoing st.
Proof.
  intros Hin Hne Hl. unfold recv_payload, payload_bytes in *. cbn [h_mask]. destruct client.
  - rewrite <- app_assoc in Hin.
    destruct (ws_read_ok st (ws_mask rnd) (xor_mask (ws_mask rnd) data ++ rest)) as (s1 & E1 & I1 & O1);
      [done|apply mem_of_nonnil|unfold ws_mask; lens|].
    destruct (ws_read_ok s1 (xor_mask (ws_mask rnd) data) rest) as (s2 & E2 & I2 & O2);
      [done|by apply xor_mask_nonnil|lens|].
    exists s2. split; [|by rewrite O2, O1]. intros A fail k.
    unfold ws_mask at 1 in E1. rewrite length_mem_of in E1. etransitivity; [apply E1|]. cbn beta.
    rewrite length_xor_mask in E2. etransitivity; [apply E2|]. cbn beta. by rewrite xor_mask_twice.
  - destruct (ws_read_ok st data rest) as (s1 & E1 & H); [done|done|done|].
    exists s1. split; [|done]. intros A fail k. apply E1.
Qed.

Lemma ws_read_head st h rest :
  incoming st = head_bytes h ++ rest -> 0 <= h_opcode h < 16 -> 0 <= h_payload h < 128 ->
  exists st', (forall A fail (k : bytes -> S -> outcome A), ws_read st 2 fail k = k (head_bytes h) st') /\
    head_of (head_bytes h) = h /\ incoming st' = rest /\ outgoing st' = outgoing st.
Proof.
  intros Hin Ho Hp. destruct (ws_read_ok st (head_bytes h) rest Hin) as (st' & E & H); [done|cbn; lia|].
  exists st'. split; [exact E|]. split; [|exact H]. rewrite <- (app_nil_r (head_bytes h)). by apply head_of_bytes.
Qed.

(** One turn of the receiver on a frame with data. *)
Lemma WSRecv_data fuel st client max opcode acc op data msk fin rnd rest :
  incoming st = ws_frame op data msk fin rnd ++ rest -> data <> [] -> is_data op = true ->
  negb client && negb msk = false -> Z.of_nat (length acc + length data) < max <= 2 ^ 31 ->
  exists st', incoming st' = rest /\ outgoing st' = outgoing st /\
    WSRecvMessage (Datatypes.S fuel) st client max opcode acc =
      let opcode := if (opcode =? 0) && negb (op =? CONTINUE) then op else opcode in
      if fin then Ok (Some (opcode, acc ++ data), st')
      else WSRecvMessage fuel st' client max opcode (acc ++ data).
Proof.
  intros Hin Hne Hop Hmask Hlen. unfold ws_frame in Hin. rewrite <- !app_assoc in Hin.
  assert (op = 0 \/ op = 1 \/ op = 2) as Hcases.
  { unfold is_data, CONTINUE, TEXT_FRAME, BIN_FRAME in Hop. rewrite !orb_true_iff, !Z.eqb_eq in Hop. lia. }
  destruct (ws_read_head _ _ _ Hin) as (s1 & E1 & Hh & I1 & O1); [cbn; lia|cbn [h_payload]; apply ws_payload_range; lia|].
  destruct (recv_length_ok s1 _ op fin msk _ I1) as (s2 & E2 & I2 & O2); [lia|].
  destruct (recv_payload_ok s2 data acc op fin (ws_payload (Z.of_nat (length data))) msk rnd rest I2 Hne) as (s3 & E3 & I3 & O3); [lia|].
  exists s3. split; [done|]. split; [by rewrite O3, O2|]. cbn [WSRecvMessage].
  rewrite E1. cbv zeta. rewrite Hh. cbn [h_opcode h_mask h_fin].
  rewrite (proj2 (Z.eqb_neq op PING)), (proj2 (Z.eqb_neq op PONG)), Hop, Hmask by (unfold PING, PONG; lia).
  rewrite E2, uwrap_small by lia. rewrite (proj2 (Z.leb_gt _ _)) by lia. by rewrite E3.
Qed.

Definition ping_frame : bytes := head_bytes (mkHead PING true 0 false).
Definition pong_frame : bytes := head_bytes (mkHead PONG true 0 false).

Lemma WSPing_ok st : exists st', WSPing st = Ok (2, st') /\ outgoing st' = outgoing st ++ ping_frame /\ incoming st' = incoming st.
Proof. unfold WSPing. destruct (writeFixSize_ok st ping_frame) as (st' & E & H); [cbn; lia|]. exists st'. fold ping_frame. by rewrite E. Qed.

Lemma WSPong_ok st : exists st', WSPong st = Ok (2, st') /\ outgoing st' = outgoing st ++ pong_frame /\ incoming st' = incoming st.
Proof. unfold WSPong. destruct (writeFixSize_ok st pong_frame) as (st' & E & H); [cbn; lia|]. exists st'. fold pong_frame. by rewrite E. Qed.

(** One turn of the receiver on a ping: it is answered. *)
Lemma WSRecv_ping fuel st client max opcode acc rest :
  incoming st = ping_frame ++ rest ->
  exists st', incoming st' = rest /\ outgoing st' = outgoing st ++ pong_frame /\
    WSRecvMessage (Datatypes.S fuel) st client max opcode acc = WSRecvMessage fuel st' client max opcode acc.
Proof.
  intros Hin. destruct (ws_read_head _ _ _ Hin) as (s1 & E1 & Hh & I1 & O1); [cbn; unfold PING; lia|cbn; lia|].
  destruct (WSPong_ok s1) as (s2 & E2 & O2 & I2). exists s2. rewrite I2, O2, O1. split_and!; [done|done|].
  cbn [WSRecvMessage]. rewrite E1. cbv zeta. rewrite Hh. cbn [h_opcode]. by rewrite E2.
Qed.

(** ** Messages in fragments *)

(** A message sent as fragments: the first frame has the message's opcode, the others
    are continuations and the last has [fin] set; before each fragment the sender may
    ping any number of times.  A fragment is the number of pings, its data and the
    random number of its mask. *)
Fixpoint ws_pings st (n : nat) : outcome S :=
  match n with O => Ok st | Datatypes.S n => let! (_, st) := WSPing st in ws_pings st n end.

Fixpoint ws_send_fragments st (client : bool) (opcode : Z) (frags : list (nat * bytes * Z)) : outcome S :=
  match frags with
  | [] => Ok st
  | (pings, data, rnd) :: frags =>
    let! st := ws_pings st pings in
    let! (_, _, st) := WSSendMessage st opcode data client (bool_decide (frags = [])) rnd in
    ws_send_fragments st client CONTINUE frags
  end.

Fixpoint wire (client : bool) (opcode : Z) (frags : list (nat * bytes * Z)) : bytes :=
  match frags with
  | [] => []
  | (pings, data, rnd) :: frags =>
    concat (replicate pings ping_frame) ++ ws_frame opcode data client (bool_decide (frags = [])) rnd ++
    wire client CONTINUE frags
  end.

Definition frag_data (frags : list (nat * bytes * Z)) : bytes := concat (map (fun f => f.1.2) frags).
Definition frag_pings (frags : list (nat * bytes * Z)) : nat := sum_list (map (fun f => f.1.1) frags).

Lemma ws_pings_ok n : forall st, exists st',
  ws_pings st n = Ok st' /\ outgoing st' = outgoing st ++ concat (replicate n ping_frame).
Proof.
  induction n as [|n IH]; intros st; cbn [ws_pings]; [exists st; by rewrite app_nil_r|].
  destruct (WSPing_ok st) as (s1 & -> & O1 & _). destruct (IH s1) as (s2 & E & O2).
  exists s2. split; [done|]. rewrite O2, O1, <- app_assoc. done.
Qed.

Lemma ws_send_fragments_ok client frags : forall st opcode,
  Forall (fun f => f.1.2 <> []) frags -> Z.of_nat (length (frag_data frags)) + 2 < 2 ^ 31 ->
  exists st', ws_send_fragments st client opcode frags = Ok st' /\ outgoing st' = outgoing st ++ wire client opcode frags.
Proof.
  induction frags as [|[[n data] rnd] frags IH]; intros st opcode Hne Hl; [exists st; cbn; by rewrite app_nil_r|].
  apply Forall_cons_1 in Hne as [Hd Hne]. cbn in Hd. unfold frag_data in Hl. cbn in Hl. rewrite length_app in Hl.
  cbn [ws_send_fragments wire]. destruct (ws_pings_ok n st) as (s1 & -> & O1).
  destruct (WSSendMessage_ok s1 opcode data client (bool_decide (frags = [])) rnd) as (s2 & E2 & O2 & _); [done|lia|].
  cbn [obind]. rewrite E2. cbn [obind].
  destruct (IH s2 CONTINUE Hne) as (s3 & E3 & O3); [unfold frag_data; lia|].
  exists s3. split; [done|]. by rewrite O3, O2, O1, <- !app_assoc.
Qed.

Lemma WSRecv_pings n : forall fuel st client max opcode acc rest,
  incoming st = concat (replicate n ping_frame) ++ rest ->
  exists st', incoming st' = rest /\ outgoing st' = outgoing st ++ concat (replicate n pong_frame) /\
    WSRecvMessage (n + fuel) st client max opcode acc = WSRecvMessage fuel st' client max opcode acc.
Proof.
  induction n as [|n IH]; intros fuel st client max opcode acc rest Hin;
    [exists st; by rewrite app_nil_r|].
  cbn [replicate concat] in Hin. rewrite <- app_assoc in Hin.
  destruct (WSRecv_ping (n + fuel) st client max opcode acc _ Hin) as (s1 & I1 & O1 & E1).
  destruct (IH fuel s1 client max opcode acc rest I1) as (s2 & I2 & O2 & E2).
  exists s2. split_and!; [done|by rewrite O2, O1, <- app_assoc|]. cbn [Nat.add]. by rewrite E1.
Qed.

(** The receiver on the wire form of a message whose first part is [acc]. *)
Lemma WSRecv_wire client frags : forall st max opcode op acc rest extra,
  frags <> [] -> incoming st = wire client op frags ++ rest -> Forall (fun f => f.1.2 <> []) frags ->
  (opcode = 0 /\ (op = TEXT_FRAME \/ op = BIN_FRAME) \/ opcode <> 0 /\ op = CONTINUE) ->
  Z.of_nat (length acc + length (frag_data frags)) < max <= 2 ^ 31 ->
  exists st', incoming st' = rest /\ outgoing st' = outgoing st ++ concat (replicate (frag_pings frags) pong_frame) /\
    WSRecvMessage (frag_pings frags + length frags + extra) st (negb client) max opcode acc =
      Ok (Some (if opcode =? 0 then op else opcode, acc ++ frag_data frags), st').
Proof.
  induction frags as [|[[n data] rnd] frags IH]; intros st max opcode op acc rest extra Hn Hin Hne Hop Hl; [done|].
  apply Forall_cons_1 in Hne as [Hd Hne]. cbn in Hd. cbn [wire] in Hin. rewrite <- !app_assoc in Hin.
  unfold frag_data, frag_pings in *. cbn in Hl |- *. rewrite length_app in Hl.
  destruct (WSRecv_pings n (Datatypes.S (sum_list (map (fun f => f.1.1) frags) + length frags + extra))
    st (negb client) max opcode acc _ Hin) as (s1 & I1 & O1 & E1).
  edestruct (WSRecv_data (sum_list (map (fun f => f.1.1) frags) + length frags + extra) s1 (negb client) max opcode acc op data)
    as (s2 & I2 & O2 & E2); [exact I1|done| |by destruct client|lia|].
  { unfold is_data. by destruct Hop as [[_ [-> | ->]]|[_ ->]]. }
  replace (n + _ + Datatypes.S (length frags) + extra)%nat
    with (n + Datatypes.S (sum_list (map (fun f => f.1.1) frags) + length frags + extra))%nat by lia.
  rewrite E1, E2. clear E1 E2. cbv zeta. set (opcode' := if _ && _ then op else opcode).
  assert (opcode' <> 0 /\ opcode' = if opcode =? 0 then op else opcode) as [Hop' Eop].
  { subst opcode'. destruct Hop as [[-> [-> | ->]]|[Hz ->]]; cbn; [done|done|].
    by rewrite (proj2 (Z.eqb_neq opcode 0) Hz). }
  rewrite replicate_add, concat_app, app_assoc, <- O1, <- O2, <- Eop.
  case_bool_decide as Hlast.
  { subst frags. exists s2. cbn. rewrite !app_nil_r. cbn in I2. by rewrite I2. }
  destruct (IH s2 max opcode' CONTINUE (acc ++ data) rest extra) as (s3 & I3 & O3 & E3);
    [done|done|done|by right|rewrite length_app; lia|].
  exists s3. split_and!; [done|done|]. rewrite E3, (proj2 (Z.eqb_neq opcode' 0) Hop'). by rewrite <- app_assoc.
Qed.

(** ** Any input *)

Lemma ws_read_cases st n :
  0 <= n < 2 ^ 31 ->
  (exists st', forall A fail (k : bytes -> S -> outcome A), ws_read st n fail k = fail st') \/
  (exists b st', Z.of_nat (length b) = n /\ 0 < n /\ incoming st = b ++ incoming st' /\
    forall A fail (k : bytes -> S -> outcome A), ws_read st n fail k = k b st').
Proof.
  intros Hn. unfold ws_read. destruct (Z.le_gt_cases n (Z.of_nat (length (incoming st)))) as [Hle|Hgt].
  - destruct (readFixSize_ok st n Hn Hle) as (st' & -> & Hi & _). cbn [obind].
    destruct (Z.leb_spec n 0); [left; by exists st'|right].
    exists (take (Z.to_nat n) (incoming st)), st'. rewrite Hi, take_drop, length_take. split_and!; [lia|lia|done|done].
  - left. unfold Stream_readFixSize. rewrite (swrap_small 64 n) by lia.
    destruct (readFix_loop_eof (Z.to_nat n) st n n []) as (st' & got & -> & _); [lia|lia|]. by exists st'.
Qed.

(** A length that makes [cur_len + length] wrap is negative as an [int], which
    [readFixSize] returns. *)
Lemma ws_read_negative st n A fail (k : bytes -> S -> outcome A) :
  2 ^ 64 - 2 ^ 31 <= n < 2 ^ 64 -> ws_read st n fail k = fail st.
Proof.
  intros Hn. unfold ws_read, Stream_readFixSize.
  assert (i64 n = n - 2 ^ 64) as ->.
  { replace n with (n - 2 ^ 64 + 1 * 2 ^ 64) at 1 by lia. unfold swrap at 1. rewrite Z.mod_add by lia.
    change (swrap 64 (n - 2 ^ 64) = n - 2 ^ 64). apply swrap_small; lia. }
  assert (i32 n = n - 2 ^ 64) as E.
  { replace n with (n - 2 ^ 64 + 2 ^ 32 * 2 ^ 32) at 1 by lia. unfold swrap at 1. rewrite Z.mod_add by lia.
    change (swrap 32 (n - 2 ^ 64) = n - 2 ^ 64). apply swrap_small; lia. }
  replace (Z.to_nat (n - 2 ^ 64)) with 0%nat by lia. cbn [readFix_loop].
  rewrite (proj2 (Z.leb_le (n - 2 ^ 64) 0)) by lia. cbn [obind]. rewrite E.
  by rewrite (proj2 (Z.leb_le (n - 2 ^ 64) 0)) by lia.
Qed.

Lemma ws_read_number st n :
  (n <= 8)%nat ->
  (exists st', forall A fail (k : Z -> S -> outcome A),
     ws_read st (Z.of_nat n) fail (fun b => k (byteswapOnLittleEndian host n (of_mem host b))) = fail st') \/
  (exists v st', 0 <= v < 2 ^ 64 /\ (length (incoming st') <= length (incoming st))%nat /\
    forall A fail (k : Z -> S -> outcome A),
      ws_read st (Z.of_nat n) fail (fun b => k (byteswapOnLittleEndian host n (of_mem host b))) = k v st').
Proof.
  intros Hn. destruct (ws_read_cases st (Z.of_nat n)) as [(s1 & E)|(b & s1 & Hb & _ & Hi & E)]; [lia| |].
  - left. exists s1. intros. apply E.
  - right. exists (byteswapOnLittleEndian host n (of_mem host b)), s1.
    pose proof (byteswap_range n (of_mem host b)) as [R1 R2].
    split_and!; [exact R1| |rewrite Hi; lens|intros; apply E].
    eapply Z.lt_le_trans; [exact R2|]. change (2 ^ 64) with (256 ^ 8). apply Z.pow_le_mono_r; lia.
Qed.

Lemma recv_length_cases st h :
  0 <= h_payload h < 128 ->
  (exists st', forall A fail (k : Z -> S -> outcome A), recv_length st h fail k = fail st') \/
  (exists size st', 0 <= size < 2 ^ 64 /\ (length (incoming st') <= length (incoming st))%nat /\
    forall A fail (k : Z -> S -> outcome A), recv_length st h fail k = k size st').
Proof.
  intros Hp. unfold recv_length.
  destruct (h_payload h =? 126); [|destruct (h_payload h =? 127)].
  3: { right. exists (h_payload h), st. split_and!; [lia|lia|lia|done]. }
  - apply (ws_read_number st 2); lia.
  - apply (ws_read_number st 8); lia.
Qed.

Lemma recv_payload_cases st h size acc :
  0 <= size < 2 ^ 31 ->
  (exists st', forall A fail (k : bytes -> S -> outcome A), recv_payload st h size acc fail k = fail st') \/
  (exists b st', Z.of_nat (length b) = size /\ (length (incoming st') <= length (incoming st))%nat /\
    forall A fail (k : bytes -> S -> outcome A), recv_payload st h size acc fail k = k (acc ++ b) st').
Proof.
  intros Hs. unfold recv_payload. destruct (h_mask h).
  - destruct (ws_read_cases st 4) as [(s1 & E1)|(m & s1 & _ & _ & H1 & E1)]; [lia|left; exists s1; intros; apply E1|].
    destruct (ws_read_cases s1 size Hs) as [(s2 & E2)|(b & s2 & Hb & _ & H2 & E2)].
    + left. exists s2. intros. etransitivity; [apply E1|apply E2].
    + right. exists (xor_mask m b), s2. split_and!; [by rewrite length_xor_mask|rewrite H1, H2; lens|].
      intros. etransitivity; [apply E1|apply E2].
  - destruct (ws_read_cases st size Hs) as [(s2 & E2)|(b & s2 & Hb & _ & H2 & E2)]; [left; exists s2; intros; apply E2|].
    right. exists b, s2. split_and!; [done|rewrite H2; lens|intros; apply E2].
Qed.

Lemma recv_payload_negative st h size acc :
  2 ^ 64 - 2 ^ 31 <= size < 2 ^ 64 ->
  exists st', forall A fail (k : bytes -> S -> outcome A), recv_payload st h size acc fail k = fail st'.
Proof.
  intros Hs. unfold recv_payload. destruct (h_mask h).
  - destruct (ws_read_cases st 4) as [(s1 & E1)|(m & s1 & _ & _ & H1 & E1)]; [lia|exists s1; intros; apply E1|].
    exists s1. intros. etransitivity; [apply E1|by apply ws_read_negative].
  - exists st. intros. by apply ws_read_negative.
Qed.

Lemma head_of_payload b : 0 <= h_payload (head_of b) < 128.
Proof. cbn. apply Z.mod_pos_bound. lia. Qed.

(** The receiver on any input: what it leaves unread, and its result. *)
Lemma WSRecv_any fuel : forall (st : S) client max opcode acc,
  max <= 2 ^ 31 -> Z.of_nat (length acc) < 2 ^ 31 -> (length (incoming st) < fuel)%nat ->
  exists res st', WSRecvMessage fuel st client max opcode acc = Ok (res, st') /\
    match res with
    | Some (_, data) => Z.of_nat (length data) < max /\ (length (incoming st') < length (incoming st))%nat
    | None => exists st0, st' = stream_close st0
    end.
Proof.
  induction fuel as [|fuel IH]; intros st client max opcode acc Hmax Hacc Hf; [lia|].
  assert (forall s0 : S, exists res st', Ok (None, stream_close s0) = Ok (res, st') /\
    match res with Some (_, data) => Z.of_nat (length (data : bytes)) < max /\ (length (incoming st') < length (incoming st))%nat
    | None => exists st0, st' = stream_close st0 end : Prop) as Fail by (intros s0; by exists (None : option (Z * bytes)), (stream_close s0); eauto).
  cbn [WSRecvMessage].
  destruct (ws_read_cases st 2) as [(s1 & E1)|(b & s1 & Hb & _ & Hi & E1)]; [lia|rewrite E1; apply Fail|].
  rewrite E1. cbv zeta. clear E1. assert (length (incoming s1) < fuel /\ length (incoming s1) < length (incoming st))%nat as [Hf1 Hlt1] by (rewrite Hi in *; lens).
  assert (forall s2, (length (incoming s2) <= length (incoming s1))%nat -> forall op acc', Z.of_nat (length acc') < 2 ^ 31 ->
    exists res st', WSRecvMessage fuel s2 client max op acc' = Ok (res, st') /\
    match res with Some (_, data) => Z.of_nat (length (data : bytes)) < max /\ (length (incoming st') < length (incoming st))%nat
    | None => exists st0, st' = stream_close st0 end) as Next.
  { intros s2 H2 op acc' Ha'. destruct (IH s2 client max op acc' Hmax Ha' ltac:(lia)) as (res & st' & E & H). exists res, st'. split; [done|].
    destruct res as [[? ?]|]; [|done]. split; [apply H|]. destruct H as [_ H]. lia. }
  destruct (h_opcode (head_of b) =? PING).
  { destruct (WSPong_ok s1) as (s2 & -> & _ & I2). cbn. apply Next; [by rewrite I2|done]. }
  destruct (h_opcode (head_of b) =? PONG); [by apply Next|].
  destruct (is_data (h_opcode (head_of b))); [|by apply Next].
  destruct (negb client && negb (h_mask (head_of b))); [apply Fail|].
  destruct (recv_length_cases s1 (head_of b) (head_of_payload b)) as [(s2 & E2)|(size & s2 & Hs & I2 & E2)];
    [rewrite E2; apply Fail|]. rewrite E2. clear E2.
  destruct (Z.leb_spec max (u64 (Z.of_nat (length acc) + size))) as [|Hlt]; [apply Fail|].
  destruct (Z.le_gt_cases (2 ^ 64) (Z.of_nat (length acc) + size)) as [Hw|Hw].
  { destruct (recv_payload_negative s2 (head_of b) size acc) as (s3 & E3); [lia|]. rewrite E3. apply Fail. }
  rewrite uwrap_small in Hlt by lia.
  destruct (recv_payload_cases s2 (head_of b) size acc) as [(s3 & E3)|(d & s3 & Hd & I3 & E3)]; [lia|rewrite E3; apply Fail|].
  rewrite E3. clear E3. cbv zeta. destruct (h_fin (head_of b)).
  - eexists (Some (_, _)), s3. split; [reflexivity|]. cbn. split; [lens|lia].
  - apply Next; [lia|lens].
Qed.

(** Whatever bytes the other side sends, [WSRecvMessage] returns: a message that is
    shorter than the configured maximum, or nothing, and then it has closed the stream.
    A length field so large that adding it to the length so far wraps around is refused
    as well. *)
Lemma ws_recv_terminates fuel : forall (st : S) client max opcode acc,
  max <= 2 ^ 31 -> Z.of_nat (length acc) < 2 ^ 31 -> (length (incoming st) < fuel)%nat ->
  exists res st', WSRecvMessage fuel st client max opcode acc = Ok (res, st') /\
    match res with
    | Some (_, data) => Z.of_nat (length data) < max
    | None => exists st0, st' = stream_close st0
    end.
Proof.
  intros st client max opcode acc Hm Ha Hf. destruct (WSRecv_any fuel st client max opcode acc Hm Ha Hf) as (res & st' & E & H).
  exists res, st'. split; [done|]. destruct res as [[? ?]|]; [by destruct H|done].
Qed.

(** A text or binary message that one side sends in any number of nonempty
    fragments, masked when the sender is the client, with pings in between, is received
    by the other side as one message with the same opcode and data, however the stream
    cuts the bytes up; the receiver answers every ping and leaves what follows the
    message unread. *)
Lemma ws_round_trip (s r : S) client opcode frags rest max extra :
  frags <> [] -> opcode = TEXT_FRAME \/ opcode = BIN_FRAME -> Forall (fun f => f.1.2 <> []) frags ->
  Z.of_nat (length (frag_data frags)) + 2 < max <= 2 ^ 31 ->
  incoming r = wire client opcode frags ++ rest ->
  (exists s', ws_send_fragments s client opcode frags = Ok s' /\
     outgoing s' = outgoing s ++ wire client opcode frags) /\
  (exists r', WSRecvMessage (frag_pings frags + length frags + extra) r (negb client) max 0 [] =
       Ok (Some (opcode, frag_data frags), r') /\
     incoming r' = rest /\ outgoing r' = outgoing r ++ concat (replicate (frag_pings frags) pong_frame)).
Proof.
  intros Hn Hop Hne Hl Hin. split; [apply ws_send_fragments_ok; [done|lia]|].
  destruct (WSRecv_wire client frags r max 0 opcode [] rest extra) as (r' & I & O' & E');
    [done|done|done|by left|cbn; lia|]. by exists r'.
Qed.

End frames.

Lemma ws_recv_terminates_witness :
  exists res st', WSRecvMessage 12 (mkChunked [0x82; 0xFF; 255; 255; 255; 255; 255; 255; 255; 255] [] 0 false) false 1000 0 [] = Ok (res, st') /\
    match res with Some (_, data) => Z.of_nat (length data) < 1000 | None => exists st0, st' = stream_close st0 end.
Proof.
  exact (ws_recv_terminates 12 (mkChunked [0x82; 0xFF; 255; 255; 255; 255; 255; 255; 255; 255] [] 0 false) false 1000 0 []
    ltac:(lia) ltac:(cbn; lia) ltac:(cbn; lia)).
Defined.

(** A client sends "Hel", a ping and "lo"; the server reads it in pieces of 1 to 3
    bytes. *)
Lemma ws_round_trip_witness :
  let frags := [(0%nat, [72; 101; 108], 123456789); (1%nat, [108; 111], 987654321)] in
  let r := mkChunked (wire true TEXT_FRAME frags ++ [99]) [] 0 false in
  (exists s', ws_send_fragments (mkChunked [] [] 0 false) true TEXT_FRAME frags = Ok s' /\
     outgoing s' = [] ++ wire true TEXT_FRAME frags) /\
  (exists r', WSRecvMessage 5 r false 1000 0 [] = Ok (Some (TEXT_FRAME, [72; 101; 108; 108; 111]), r') /\
     incoming r' = [99] /\ outgoing r' = [] ++ pong_frame).
Proof.
  exact (ws_round_trip (mkChunked [] [] 0 false)
    (mkChunked (wire true TEXT_FRAME [(0%nat, [72; 101; 108], 123456789); (1%nat, [108; 111], 987654321)] ++ [99]) [] 0 false)
    true TEXT_FRAME [(0%nat, [72; 101; 108], 123456789); (1%nat, [108; 111], 987654321)] [99] 1000 2
    ltac:(done) (or_introl eq_refl) ltac:(by repeat constructor) ltac:(cbn; lia) eq_refl).
Defined.

(** ** Where the code departs from its intent *)

(** An empty message cannot be sent: writing zero bytes counts as a failure, so that
    the header goes out and the connection is closed. *)
Lemma ws_empty_send_fails :
  WSSendMessage (mkChunked [] [] 0 false) TEXT_FRAME [] false true 0 =
  Ok (-1, [], mkChunked [] [129; 0] 2 true).
Proof. vm_compute. reflexivity. Qed.

(** A ping with a mask, as every client has to send, leaves the four bytes of the mask
    in the stream, where the receiver takes them for the next headers: the message
    that follows is lost. *)
Lemma ws_masked_ping_desynchronises :
  WSRecvMessage 20 (mkChunked ([0x89; 0x80; 1; 2; 3; 4] ++ ws_frame TEXT_FRAME [72; 105] true true 5) [] 0 false) false 1000 0 [] =
  Ok (None, mkChunked [3; 4; 129; 130; 5; 0; 0; 0; 77; 105] [138; 0] 5 true).
Proof. vm_compute. reflexivity. Qed.

(** A close frame is read as an unknown opcode and ignored. *)
Lemma ws_close_ignored :
  WSRecvMessage 20 (mkChunked ([0x88; 0x00] ++ ws_frame TEXT_FRAME [72; 105] true true 5) [] 0 false) false 1000 0 [] =
  Ok (Some (TEXT_FRAME, [72; 105]), mkChunked [] [] 8 false).
Proof. vm_compute. reflexivity. Qed.
