(* ===== verification/Text.v ===== *)
(** * C strings, decimal numbers and maps keyed by strings

    What the HTTP and address code uses of the C and C++ libraries: strings up to
    their NUL, [strcasecmp], numbers written by streams and read by [strtol] and
    [atoi], and [std::map] with a string comparison as an ordered list of pairs. *)

From S2P Require Import Prelude.
From Stdlib Require Import ZArith Lia List String.
From stdpp Require Import base tactics list numbers option.

Open Scope Z_scope.
Open Scope list_scope.

(** ** C strings *)

(** What [c_str()] shows: the characters before the first NUL. *)
Fixpoint cstr (s : bytes) : bytes :=
  match s with [] => [] | c :: s => if c =? 0 then [] else c :: cstr s end.

(** [tolower] in the C locale. *)
Definition tolower (c : Z) : Z := if (65 <=? c) && (c <=? 90) then c + 32 else c.

Definition fold_case (s : bytes) : bytes := map tolower (cstr s).

(** [strcasecmp(a, b) == 0] and [strcmp(a, b) == 0]. *)
Definition strcaseeq (a b : bytes) : bool := bool_decide (fold_case a = fold_case b).
Definition streq (a b : bytes) : bool := bool_decide (cstr a = cstr b).

(** Lexicographic order of unsigned characters. *)
Fixpoint lex_lt (a b : bytes) : bool :=
  match a, b with
  | [], [] => false
  | [], _ => true
  | _, [] => false
  | x :: a, y :: b => (x <? y) || ((x =? y) && lex_lt a b)
  end.

Lemma lex_lt_irrefl a : lex_lt a a = false.
Proof. induction a as [|x a IH]; cbn; [done|]. by rewrite Z.ltb_irrefl, Z.eqb_refl, IH. Qed.

Lemma lex_lt_trans a : forall b c, lex_lt a b = true -> lex_lt b c = true -> lex_lt a c = true.
Proof.
  induction a as [|x a IH]; intros [|y b] [|z c]; cbn; try done.
  rewrite !orb_true_iff, !andb_true_iff, !Z.ltb_lt, !Z.eqb_eq.
  intros [?|[-> Hab]] [?|[-> Hbc]]; [left; lia|left; lia|left; lia|right; eauto].
Qed.

Lemma lex_lt_total a : forall b, lex_lt a b = false -> lex_lt b a = false -> a = b.
Proof.
  induction a as [|x a IH]; intros [|y b]; cbn; try done.
  rewrite !orb_false_iff, !andb_false_iff, !Z.ltb_ge, !Z.eqb_neq. intros [? H1] [? H2].
  assert (x = y) as <- by lia. f_equal. apply IH; intuition congruence.
Qed.

Lemma cstr_id s : Forall (fun c => c <> 0) s -> cstr s = s.
Proof.
  induction s as [|c s IH]; cbn; [done|]. intros H. apply Forall_cons_1 in H as [Hc H].
  rewrite (proj2 (Z.eqb_neq c 0) Hc), IH; done.
Qed.

(** ** Maps with a string order *)

(** [std::map<std::string, std::string, C>]: the pairs in order, where [norm] maps
    keys that are equivalent under the comparison to the same string. *)
Section string_map.
Context (norm : bytes -> bytes).
Implicit Types (k v : bytes) (m : list (bytes * bytes)).

Definition key_eq (a b : bytes) : bool := bool_decide (norm a = norm b).

(** [find]: the value at an equivalent key. *)
Fixpoint smap_find k m : option bytes :=
  match m with
  | [] => None
  | (k', v) :: m => if key_eq k k' then Some v else smap_find k m
  end.

(** [m[k] = v]: an equivalent key keeps its spelling. *)
Fixpoint smap_set k v m : list (bytes * bytes) :=
  match m with
  | [] => [(k, v)]
  | (k', v') :: m' =>
    if key_eq k k' then (k', v) :: m'
    else if lex_lt (norm k) (norm k') then (k, v) :: m
    else (k', v') :: smap_set k v m'
  end.

(** [m.insert(make_pair(k, v))]: nothing happens when an equivalent key is there. *)
Definition smap_insert k v m : list (bytes * bytes) :=
  match smap_find k m with Some _ => m | None => smap_set k v m end.

(** [m.erase(k)]. *)
Fixpoint smap_erase k m : list (bytes * bytes) :=
  match m with
  | [] => []
  | (k', v') :: m => if key_eq k k' then m else (k', v') :: smap_erase k m
  end.

(** The keys are strictly increasing. *)
Fixpoint smap_sorted m : Prop :=
  match m with
  | [] => True
  | (k, _) :: m => Forall (fun p => lex_lt (norm k) (norm p.1) = true) m /\ smap_sorted m
  end.

Lemma key_eq_refl k : key_eq k k = true.
Proof. unfold key_eq. by rewrite bool_decide_true. Qed.

Lemma key_eq_lt k k' : lex_lt (norm k) (norm k') = true -> key_eq k k' = false.
Proof. intros H. apply bool_decide_false. intros E. by rewrite E, lex_lt_irrefl in H. Qed.

Lemma smap_find_below k m :
  Forall (fun p => lex_lt (norm k) (norm p.1) = true) m -> smap_find k m = None.
Proof.
  induction m as [|[k' v'] m IH]; cbn; [done|]. intros H. apply Forall_cons_1 in H as [H1 H2]. cbn in H1.
  by rewrite (key_eq_lt _ _ H1), IH.
Qed.

Lemma smap_set_below k0 k v m :
  lex_lt (norm k0) (norm k) = true -> Forall (fun p => lex_lt (norm k0) (norm p.1) = true) m ->
  Forall (fun p => lex_lt (norm k0) (norm p.1) = true) (smap_set k v m).
Proof.
  intros Hk. induction m as [|[k' v'] m IH]; cbn; intros H; [by repeat constructor|].
  apply Forall_cons_1 in H as [H1 H2]. repeat case_match; repeat constructor; auto.
Qed.

Lemma smap_set_sorted k v m : smap_sorted m -> smap_sorted (smap_set k v m).
Proof.
  induction m as [|[k' v'] m IH]; cbn; [by repeat constructor|]. intros [H1 H2].
  destruct (key_eq k k') eqn:E; cbn; [done|].
  destruct (lex_lt (norm k) (norm k')) eqn:L; cbn.
  - split; [|done]. constructor; [done|]. eapply Forall_impl; [|exact H1]. intros p Hp. eapply lex_lt_trans; eauto.
  - split; [|auto]. apply smap_set_below; [|done].
    destruct (lex_lt (norm k') (norm k)) eqn:L'; [done|].
    unfold key_eq in E. apply bool_decide_eq_false in E. destruct E. by apply lex_lt_total.
Qed.

Lemma smap_insert_sorted k v m : smap_sorted m -> smap_sorted (smap_insert k v m).
Proof. intros. unfold smap_insert. case_match; [done|by apply smap_set_sorted]. Qed.

Lemma smap_erase_sorted k m : smap_sorted m -> smap_sorted (smap_erase k m).
Proof.
  induction m as [|[k' v'] m IH]; cbn; [done|]. intros [H1 H2]. case_match; cbn; [done|]. split; [|auto].
  clear -H1. induction m as [|[k2 v2] m IH]; cbn; [done|]. apply Forall_cons_1 in H1 as [? ?].
  case_match; [done|]. constructor; auto.
Qed.

(** Reading after writing, under any equivalent spelling of the key. *)
Lemma smap_find_set k k2 v m :
  smap_find k2 (smap_set k v m) = if key_eq k2 k then Some v else smap_find k2 m.
Proof.
  induction m as [|[k' v'] m IH]; cbn; [by destruct (key_eq k2 k)|].
  destruct (key_eq k k') eqn:E; [|destruct (lex_lt (norm k) (norm k')); [done|]]; cbn.
  - unfold key_eq in *. apply bool_decide_eq_true in E. rewrite E. by destruct (bool_decide (norm k2 = norm k')).
  - rewrite IH. destruct (key_eq k2 k') eqn:E2; [|done].
    unfold key_eq in *. apply bool_decide_eq_true in E2. rewrite E2.
    apply bool_decide_eq_false in E. by rewrite bool_decide_false by congruence.
Qed.

Lemma smap_find_equiv k k2 m : key_eq k2 k = true -> smap_find k2 m = smap_find k m.
Proof.
  unfold key_eq. intros E%bool_decide_eq_true.
  induction m as [|[k' v'] m IH]; cbn; [done|]. unfold key_eq. by rewrite E, IH.
Qed.

Lemma smap_find_insert k k2 v m :
  smap_find k2 (smap_insert k v m) =
  match smap_find k2 m with Some w => Some w | None => if key_eq k2 k then Some v else None end.
Proof.
  unfold smap_insert. destruct (smap_find k m) as [w|] eqn:E; [|rewrite smap_find_set];
    (destruct (key_eq k2 k) eqn:Ek; [rewrite (smap_find_equiv _ _ _ Ek), E|]); by repeat case_match.
Qed.

Lemma smap_find_erase k k2 m :
  smap_sorted m -> smap_find k2 (smap_erase k m) = if key_eq k2 k then None else smap_find k2 m.
Proof.
  induction m as [|[k' v'] m IH]; cbn; [by destruct (key_eq k2 k)|]. intros [H1 H2].
  destruct (key_eq k k') eqn:E; cbn.
  - unfold key_eq in *. apply bool_decide_eq_true in E. rewrite E.
    destruct (bool_decide (norm k2 = norm k')) eqn:E2; [|done]. apply bool_decide_eq_true in E2.
    apply smap_find_below. by rewrite E2.
  - rewrite IH by done. destruct (key_eq k2 k') eqn:E2; [|done].
    unfold key_eq in *. apply bool_decide_eq_true in E2. rewrite E2.
    apply bool_decide_eq_false in E. by rewrite bool_decide_false by congruence.
Qed.

End string_map.

(** ** Numbers *)

Definition is_digit (c : Z) : bool := (48 <=? c) && (c <=? 57).

(** A digit in a base up to 36, and [os << n] for an unsigned integer: the digits, most
    significant first; 20 of them are enough for 64 bits in base 10. *)
Definition digit_char (d : Z) : Z := if d <? 10 then 48 + d else 87 + d.

Fixpoint num_loop (base : Z) (fuel : nat) (n : Z) (acc : bytes) : bytes :=
  match fuel with
  | O => acc
  | S fuel =>
    let acc := digit_char (n mod base) :: acc in
    if n <? base then acc else num_loop base fuel (n / base) acc
  end.

Definition dec (n : Z) : bytes := num_loop 10 20 n [].
Definition hex (n : Z) : bytes := num_loop 16 20 n [].

(** The value of a digit in bases up to 36. *)
Definition digit_val (c : Z) : option Z :=
  if is_digit c then Some (c - 48)
  else if (97 <=? c) && (c <=? 122) then Some (c - 87)
  else if (65 <=? c) && (c <=? 90) then Some (c - 55)
  else None.

Fixpoint digits_value (base acc : Z) (s : bytes) : Z :=
  match s with
  | [] => acc
  | c :: s =>
    match digit_val c with
    | Some d => if d <? base then digits_value base (acc * base + d) s else acc
    | None => acc
    end
  end.

Definition is_space (c : Z) : bool := (c =? 32) || ((9 <=? c) && (c <=? 13)).

Fixpoint skip_spaces (s : bytes) : bytes :=
  match s with c :: s' => if is_space c then skip_spaces s' else s | [] => [] end.

Definition is_hex (c : Z) : bool := match digit_val c with Some d => d <? 16 | None => false end.

(** [strtol(s, NULL, base)] for base 10 or 16: spaces, a sign, for base 16 an optional
    [0x], digits; the result is kept within [long]. *)
Definition strtol (base : Z) (s : bytes) : Z :=
  let s := skip_spaces s in
  let '(neg, s) := match s with c :: s' => if c =? 45 then (true, s') else if c =? 43 then (false, s') else (false, s) | [] => (false, []) end in
  let s := match s with
           | 48 :: x :: d :: s' => if (base =? 16) && ((x =? 120) || (x =? 88)) && is_hex d then d :: s' else s
           | _ => s
           end in
  let v := digits_value base 0 s in
  if neg then Z.max (- v) (- 2 ^ 63) else Z.min v (2 ^ 63 - 1).

(** [atoi]. *)
Definition atoi (s : bytes) : Z := i32 (strtol 10 s).

Lemma digit_char_val d : 0 <= d < 36 -> digit_val (digit_char d) = Some d.
Proof. intros Hd. unfold digit_val, digit_char, is_digit. repeat case_match; f_equal; lia. Qed.

(** The digits of a number in a base, and their value. *)
Definition digit_in (base c : Z) : Prop := exists d, digit_val c = Some d /\ c = digit_char d /\ 0 <= d < base.

Lemma num_loop_spec base fuel : 2 <= base <= 36 -> forall n acc,
  0 <= n < base ^ Z.of_nat (S fuel) -> exists ds, num_loop base (S fuel) n acc = ds ++ acc /\
    ds <> [] /\ Forall (digit_in base) ds /\
    forall a rest, digits_value base a (ds ++ rest) = digits_value base (a * base ^ Z.of_nat (length ds) + n) rest.
Proof.
  intros Hbase. induction fuel as [|fuel IH]; intros n acc Hn.
  all: assert (0 <= n mod base < base) as Hm by (apply Z.mod_pos_bound; lia).
  all: pose proof (digit_char_val (n mod base) ltac:(lia)) as D2; set (c := digit_char (n mod base)) in *.
  all: assert (Forall (digit_in base) [c]) as D1 by (constructor; [by exists (n mod base)|constructor]).
  all: change (num_loop base (S ?f) n acc) with (if n <? base then c :: acc else num_loop base f (n / base) (c :: acc)).
  all: destruct (Z.ltb_spec n base) as [Hlt|Hge]; [|try (rewrite Z.pow_1_r in Hn; lia)].
  1, 2: exists [c]; split_and!; [done|done|done|]; intros a rest; cbn [app digits_value length];
      rewrite D2, (proj2 (Z.ltb_lt _ _)) by lia; rewrite (Z.mod_small n base), Z.pow_1_r by lia; done.
  assert (0 <= n / base < base ^ Z.of_nat (S fuel)) as Hq.
  { split; [apply Z.div_pos; lia|]. apply Z.div_lt_upper_bound; [lia|].
    rewrite <- Z.pow_succ_r by lia. replace (Z.succ (Z.of_nat (S fuel))) with (Z.of_nat (S (S fuel))) by lia. lia. }
  destruct (IH (n / base) (c :: acc) Hq) as (ds & E & Hne & Hds & Hv).
  exists (ds ++ [c]). rewrite E, <- app_assoc. split_and!; [done|by destruct ds|by apply Forall_app|].
  intros a rest. rewrite <- app_assoc, Hv. cbn [app digits_value]. rewrite D2, (proj2 (Z.ltb_lt _ _)) by lia.
  f_equal. rewrite length_app, Nat2Z.inj_add, Z.pow_add_r by lia. cbn [length]. rewrite Z.pow_1_r.
  pose proof (Z.div_mod n base). lia.
Qed.

(** A printed number is read back. *)
Lemma dec_spec n : 0 <= n < 10 ^ 20 ->
  dec n <> [] /\ Forall (fun c => is_digit c = true) (dec n) /\
  forall rest, digits_value 10 0 (dec n ++ rest) = digits_value 10 n rest.
Proof.
  intros Hn. unfold dec. destruct (num_loop_spec 10 19 ltac:(lia) n []) as (ds & -> & Hne & Hds & Hv); [exact Hn|].
  rewrite app_nil_r. split_and!; [done| |intros rest; by rewrite Hv, Z.mul_0_l].
  eapply Forall_impl; [|exact Hds]. intros c (d & _ & -> & Hd). unfold is_digit, digit_char.
  rewrite (proj2 (Z.ltb_lt d 10)) by lia. apply andb_true_iff. rewrite !Z.leb_le. lia.
Qed.

Lemma hex_spec n : 0 <= n < 2 ^ 64 ->
  hex n <> [] /\ Forall (fun c => is_hex c = true) (hex n) /\ digits_value 16 0 (hex n) = n.
Proof.
  intros Hn. unfold hex. destruct (num_loop_spec 16 19 ltac:(lia) n []) as (ds & -> & Hne & Hds & Hv);
    [cbn; lia|]. rewrite app_nil_r. split_and!; [done| |].
  - eapply Forall_impl; [|exact Hds]. intros c (d & E & _ & Hd). unfold is_hex. rewrite E. apply Z.ltb_lt. lia.
  - specialize (Hv 0 []). by rewrite app_nil_r in Hv.
Qed.

(** [atoi] of a printed number followed by something else. *)
Lemma atoi_dec n c rest : 0 <= n < 2 ^ 31 -> digit_val c = None -> atoi (dec n ++ c :: rest) = n.
Proof.
  intros Hn Hc. destruct (dec_spec n) as (Hne & Hd & Hv); [lia|]. specialize (Hv (c :: rest)).
  unfold atoi, strtol. destruct (dec n) as [|x w]; [done|]. cbn [app] in *. apply Forall_cons_1 in Hd as [Hx _].
  unfold is_digit in Hx. cbn [skip_spaces]. replace (is_space x) with false by (unfold is_space; lia).
  rewrite (proj2 (Z.eqb_neq x 45)), (proj2 (Z.eqb_neq x 43)) by lia.
  match goal with |- i32 (Z.min (digits_value 10 0 ?t) _) = _ => replace t with (x :: w ++ c :: rest) end.
  2: { destruct x as [|x|x]; [done| |done]. do 6 (destruct x as [x|x|]; try done); destruct (w ++ c :: rest) as [|? [|? ?]]; done. }
  rewrite Hv. cbn [digits_value]. rewrite Hc, Z.min_l by lia. apply swrap_small; lia.
Qed.
