(* ===== verification/HttpMessage.v ===== *)
(** * HTTP messages ([http/http.h], [http/http.cc])

    Requests and responses with their maps of headers, parameters and cookies, which
    ignore the case of keys, the lazy parsing of parameters and cookies, and the
    printed form.  [HttpMethod] and [HttpStatus] are enumerations and are represented
    by their numbers.  [Time2Str] formats the expiry of a cookie and is a parameter. *)

From S2P Require Import Prelude Text StringUtil.
From Stdlib Require Import ZArith Lia List String.
From stdpp Require Import base tactics list numbers option gmap.

Open Scope Z_scope.
Open Scope list_scope.

(** ** Methods and status codes *)

(** @src http/http.h:18-60 HTTP_METHOD_MAP
    The names in the order of their numbers. *)
Definition http_methods : list bytes :=
  map str ["DELETE"; "GET"; "HEAD"; "POST"; "PUT"; "CONNECT"; "OPTIONS"; "TRACE"; "COPY"; "LOCK"; "MKCOL"; "MOVE";
    "PROPFIND"; "PROPPATCH"; "SEARCH"; "UNLOCK"; "BIND"; "REBIND"; "UNBIND"; "ACL"; "REPORT"; "MKACTIVITY";
    "CHECKOUT"; "MERGE"; "M-SEARCH"; "NOTIFY"; "SUBSCRIBE"; "UNSUBSCRIBE"; "PATCH"; "PURGE"; "MKCALENDAR"; "LINK";
    "UNLINK"; "SOURCE"]%string.

(** @src http/http.h:132-137 HttpMethod *)
Definition INVALID_METHOD : Z := 34.
Definition GET : Z := 1.
Definition POST : Z := 3.

(** The number of the first name that satisfies [f]. *)
Fixpoint method_index (f : bytes -> bool) (names : list bytes) (i : Z) : Z :=
  match names with [] => INVALID_METHOD | n :: names => if f n then i else method_index f names (i + 1) end.

(** @src http/http.cc:8-16 StringToHttpMethod *)
Definition StringToHttpMethod (method : bytes) : Z := method_index (fun n => streq n method) http_methods 0.

(** [strncmp(n, s, strlen(n)) == 0]. *)
Definition starts_with (n s : bytes) : bool := bool_decide (take (length n) (cstr s) = n).

(** @src http/http.cc:18-26 CharsToHttpMethod *)
Definition CharsToHttpMethod (method : bytes) : Z := method_index (fun n => starts_with n method) http_methods 0.

(** @src http/http.cc:30-42 HttpMethodToString *)
Definition HttpMethodToString (method : Z) : bytes :=
  let index := u32 method in
  if Z.of_nat (length http_methods) <=? index then str "<unknown>" else nth (Z.to_nat index) http_methods [].

(** @src http/http.h:63-122 HTTP_STATUS_MAP *)
Definition http_statuses : list (Z * bytes) :=
  map (fun p => (fst p, str (snd p)))
  [(100, "Continue"); (101, "Switching Protocols"); (102, "Processing"); (200, "OK"); (201, "Created"); (202, "Accepted");
   (203, "Non-Authoritative Information"); (204, "No Content"); (205, "Reset Content"); (206, "Partial Content");
   (207, "Multi-Status"); (208, "Already Reported"); (226, "IM Used"); (300, "Multiple Choices");
   (301, "Moved Permanently"); (302, "Found"); (303, "See Other"); (304, "Not Modified"); (305, "Use Proxy");
   (307, "Temporary Redirect"); (308, "Permanent Redirect"); (400, "Bad Request"); (401, "Unauthorized");
   (402, "Payment Required"); (403, "Forbidden"); (404, "Not Found"); (405, "Method Not Allowed");
   (406, "Not Acceptable"); (407, "Proxy Authentication Required"); (408, "Request Timeout"); (409, "Conflict");
   (410, "Gone"); (411, "Length Required"); (412, "Precondition Failed"); (413, "Payload Too Large");
   (414, "URI Too Long"); (415, "Unsupported Media Type"); (416, "Range Not Satisfiable"); (417, "Expectation Failed");
   (421, "Misdirected Request"); (422, "Unprocessable Entity"); (423, "Locked"); (424, "Failed Dependency");
   (426, "Upgrade Required"); (428, "Precondition Required"); (429, "Too Many Requests");
   (431, "Request Header Fields Too Large"); (451, "Unavailable For Legal Reasons"); (500, "Internal Server Error");
   (501, "Not Implemented"); (502, "Bad Gateway"); (503, "Service Unavailable"); (504, "Gateway Timeout");
   (505, "HTTP Version Not Supported"); (506, "Variant Also Negotiates"); (507, "Insufficient Storage");
   (508, "Loop Detected"); (510, "Not Extended"); (511, "Network Authentication Required")]%string.

(** @src http/http.cc:44-54 HttpStatusToString *)
Definition HttpStatusToString (status : Z) : bytes :=
  match find (fun p => p.1 =? status) http_statuses with Some p => p.2 | None => str "<unknown>" end.

Definition FOUND : Z := 302.
Definition NOT_FOUND : Z := 404.

(** ** Maps that ignore case *)

(** [std::map<std::string, std::string, CaseInsensitiveLess>], of the headers,
    parameters and cookies.  [CaseInsensitiveLess] compares with [strcasecmp], so that
    keys with the same folded form are equivalent. *)
Abbreviation MapType := (list (bytes * bytes)).

(** @src http/http.cc:58-60 CaseInsensitiveLess::operator() *)
Definition CaseInsensitiveLess (lhs rhs : bytes) : bool := lex_lt (fold_case lhs) (fold_case rhs).

Abbreviation h_find := (smap_find fold_case).
Abbreviation h_set := (smap_set fold_case).
Abbreviation h_insert := (smap_insert fold_case).
Abbreviation h_erase := (smap_erase fold_case).
Abbreviation h_sorted := (smap_sorted fold_case).

(** [boost::lexical_cast] to the type [T] wanted is a parameter; [None] is an
    exception. *)
Section getAs.
Context {T : Type} (lexical_cast : bytes -> option T).

(** @src http/http.h:164-178 checkGetAs *)
Definition checkGetAs (m : MapType) (key : bytes) (def : T) : bool * T :=
  match h_find key m with
  | None => (false, def)
  | Some s => match lexical_cast s with Some v => (true, v) | None => (false, def) end
  end.

(** @src http/http.h:182-193 getAs *)
Definition getAs (m : MapType) (key : bytes) (def : T) : T :=
  match h_find key m with
  | None => def
  | Some s => match lexical_cast s with Some v => v | None => def end
  end.
End getAs.

(** ** Requests *)

(** @src http/http.h:316-331 HttpRequest *)
Record HttpRequest := mkRequest {
  q_method : Z;
  q_version : Z;
  q_close : bool;
  q_websocket : bool;
  q_parserParamFlag : Z;
  q_path : bytes;
  q_query : bytes;
  q_fragment : bytes;
  q_body : bytes;
  q_headers : MapType;
  q_params : MapType;
  q_cookies : MapType
}.

(** @src http/http.cc:65-72 HttpRequest::HttpRequest *)
Definition HttpRequest_new (version : Z) (close : bool) : HttpRequest :=
  mkRequest GET version close false 0 (str "/") [] [] [] [] [] [].

(** @src http/http.h:218-228 HttpRequest::setMethod and the other setters *)
Definition HttpRequest_setMethod r v := mkRequest v (q_version r) (q_close r) (q_websocket r) (q_parserParamFlag r)
  (q_path r) (q_query r) (q_fragment r) (q_body r) (q_headers r) (q_params r) (q_cookies r).
Definition HttpRequest_setVersion r v := mkRequest (q_method r) v (q_close r) (q_websocket r) (q_parserParamFlag r)
  (q_path r) (q_query r) (q_fragment r) (q_body r) (q_headers r) (q_params r) (q_cookies r).
Definition HttpRequest_setClose r v := mkRequest (q_method r) (q_version r) v (q_websocket r) (q_parserParamFlag r)
  (q_path r) (q_query r) (q_fragment r) (q_body r) (q_headers r) (q_params r) (q_cookies r).
Definition HttpRequest_setWebsocket r v := mkRequest (q_method r) (q_version r) (q_close r) v (q_parserParamFlag r)
  (q_path r) (q_query r) (q_fragment r) (q_body r) (q_headers r) (q_params r) (q_cookies r).
Definition request_with_flag r v := mkRequest (q_method r) (q_version r) (q_close r) (q_websocket r) v
  (q_path r) (q_query r) (q_fragment r) (q_body r) (q_headers r) (q_params r) (q_cookies r).
Definition HttpRequest_setPath r v := mkRequest (q_method r) (q_version r) (q_close r) (q_websocket r) (q_parserParamFlag r)
  v (q_query r) (q_fragment r) (q_body r) (q_headers r) (q_params r) (q_cookies r).
Definition HttpRequest_setQuery r v := mkRequest (q_method r) (q_version r) (q_close r) (q_websocket r) (q_parserParamFlag r)
  (q_path r) v (q_fragment r) (q_body r) (q_headers r) (q_params r) (q_cookies r).
Definition HttpRequest_setFragment r v := mkRequest (q_method r) (q_version r) (q_close r) (q_websocket r) (q_parserParamFlag r)
  (q_path r) (q_query r) v (q_body r) (q_headers r) (q_params r) (q_cookies r).
Definition HttpRequest_setBody r v := mkRequest (q_method r) (q_version r) (q_close r) (q_websocket r) (q_parserParamFlag r)
  (q_path r) (q_query r) (q_fragment r) v (q_headers r) (q_params r) (q_cookies r).
Definition HttpRequest_setHeaders r v := mkRequest (q_method r) (q_version r) (q_close r) (q_websocket r) (q_parserParamFlag r)
  (q_path r) (q_query r) (q_fragment r) (q_body r) v (q_params r) (q_cookies r).
Definition HttpRequest_setParams r v := mkRequest (q_method r) (q_version r) (q_close r) (q_websocket r) (q_parserParamFlag r)
  (q_path r) (q_query r) (q_fragment r) (q_body r) (q_headers r) v (q_cookies r).
Definition HttpRequest_setCookies r v := mkRequest (q_method r) (q_version r) (q_close r) (q_websocket r) (q_parserParamFlag r)
  (q_path r) (q_query r) (q_fragment r) (q_body r) (q_headers r) (q_params r) v.

(** @src http/http.cc:79-82 HttpRequest::getHeader *)
Definition HttpRequest_getHeader r (key def : bytes) : bytes := default def (h_find key (q_headers r)).

(** @src http/http.h:252-255 HttpRequest::checkGetHeaderAs *)
Definition HttpRequest_checkGetHeaderAs {T} (lexical_cast : bytes -> option T) r (key : bytes) (def : T) : bool * T :=
  checkGetAs lexical_cast (q_headers r) key def.

(** @src http/http.h:258-261 HttpRequest::getHeaderAs *)
Definition HttpRequest_getHeaderAs {T} (lexical_cast : bytes -> option T) r (key : bytes) (def : T) : T :=
  getAs lexical_cast (q_headers r) key def.

(** @src http/http.cc:97-99 HttpRequest::setHeader *)
Definition HttpRequest_setHeader r (key val : bytes) := HttpRequest_setHeaders r (h_set key val (q_headers r)).

(** @src http/http.cc:101-103 HttpRequest::setParam *)
Definition HttpRequest_setParam r (key val : bytes) := HttpRequest_setParams r (h_set key val (q_params r)).

(** @src http/http.cc:105-107 HttpRequest::setCookie *)
Definition HttpRequest_setCookie r (key val : bytes) := HttpRequest_setCookies r (h_set key val (q_cookies r)).

(** @src http/http.cc:109-111 HttpRequest::delHeader *)
Definition HttpRequest_delHeader r (key : bytes) := HttpRequest_setHeaders r (h_erase key (q_headers r)).

(** @src http/http.cc:113-115 HttpRequest::delParam *)
Definition HttpRequest_delParam r (key : bytes) := HttpRequest_setParams r (h_erase key (q_params r)).

(** @src http/http.cc:117-119 HttpRequest::delCookie *)
Definition HttpRequest_delCookie r (key : bytes) := HttpRequest_setCookies r (h_erase key (q_cookies r)).

(** @src http/http.cc:121-130 HttpRequest::hasHeader
    The value that is stored through [val], when there is one. *)
Definition HttpRequest_hasHeader r (key : bytes) : option bytes := h_find key (q_headers r).

(** ** Parameters and cookies *)

(** [s.find(c, pos)]. *)
Definition find_from (c : Z) (s : bytes) (pos : nat) : option nat :=
  (fun i => (pos + i)%nat) <$> first_pos (Z.eqb c) (drop pos s).

(** @src http/http.cc:225-239 PARSE_PARAM
    One turn of the loop per [=] found; [substr] with a length beyond the end stops at
    the end. *)
Fixpoint PARSE_PARAM (fuel : nat) (s : bytes) (flag : Z) (trim : bytes -> bytes) (pos : nat) (mp : MapType) : outcome MapType :=
  match fuel with
  | O => NoFuel
  | S fuel =>
    match find_from (chr "=") s pos with
    | None => Ok mp
    | Some key =>
      let name := trim (substr s pos (key - pos)) in
      match find_from flag s key with
      | None => Ok (h_insert name (UrlDecode (drop (key + 1) s) true) mp)
      | Some p =>
        PARSE_PARAM fuel s flag trim (p + 1) (h_insert name (UrlDecode (substr s (key + 1) (p - key - 1)) true) mp)
      end
    end
  end.

Definition parse_params (s : bytes) (flag : Z) (trim : bytes -> bytes) (mp : MapType) : outcome MapType :=
  PARSE_PARAM (S (length s)) s flag trim 0 mp.

Definition flag_set (r : HttpRequest) (b : Z) : bool := negb (Z.land (q_parserParamFlag r) b =? 0).
Definition set_flag (r : HttpRequest) (b : Z) : HttpRequest := request_with_flag r (Z.lor (q_parserParamFlag r) b).

(** @src http/http.cc:220-243 HttpRequest::initQueryParam *)
Definition HttpRequest_initQueryParam (r : HttpRequest) : outcome HttpRequest :=
  if flag_set r 1 then Ok r else
  let! mp := parse_params (q_query r) (chr "&") id (q_params r) in
  Ok (set_flag (HttpRequest_setParams r mp) 1).

(** [strcasestr(s, sub) != nullptr]. *)
Fixpoint strcasestr_in (sub s : bytes) : bool :=
  bool_decide (take (length sub) s = sub) || match s with [] => false | _ :: s => strcasestr_in sub s end.
Definition strcasestr (s sub : bytes) : bool := strcasestr_in (fold_case sub) (fold_case s).

(** @src http/http.cc:245-255 HttpRequest::initBodyParam *)
Definition HttpRequest_initBodyParam (r : HttpRequest) : outcome HttpRequest :=
  if flag_set r 2 then Ok r else
  if negb (strcasestr (HttpRequest_getHeader r (str "content-type") []) (str "application/x-www-form-urlencoded"))
  then Ok (set_flag r 2) else
  let! mp := parse_params (q_body r) (chr "&") id (q_params r) in
  Ok (set_flag (HttpRequest_setParams r mp) 2).

Definition white : bytes := [32; 9; 13; 10].

(** @src http/http.cc:257-267 HttpRequest::initCookies *)
Definition HttpRequest_initCookies (r : HttpRequest) : outcome HttpRequest :=
  if flag_set r 4 then Ok r else
  match HttpRequest_getHeader r (str "cookie") [] with
  | [] => Ok (set_flag r 4)
  | cookie =>
    let! mp := parse_params cookie (chr ";") (fun s => Trim s white) (q_cookies r) in
    Ok (set_flag (HttpRequest_setCookies r mp) 4)
  end.

(** @src http/http.cc:214-218 HttpRequest::initParam *)
Definition HttpRequest_initParam (r : HttpRequest) : outcome HttpRequest :=
  let! r := HttpRequest_initQueryParam r in
  let! r := HttpRequest_initBodyParam r in
  HttpRequest_initCookies r.

(** @src http/http.cc:84-89 HttpRequest::getParam
    The value and the request, whose parameters are now parsed. *)
Definition HttpRequest_getParam (r : HttpRequest) (key def : bytes) : outcome (bytes * HttpRequest) :=
  let! r := HttpRequest_initQueryParam r in
  let! r := HttpRequest_initBodyParam r in
  Ok (default def (h_find key (q_params r)), r).

(** @src http/http.cc:132-143 HttpRequest::hasParam *)
Definition HttpRequest_hasParam (r : HttpRequest) (key : bytes) : outcome (option bytes * HttpRequest) :=
  let! r := HttpRequest_initQueryParam r in
  let! r := HttpRequest_initBodyParam r in
  Ok (h_find key (q_params r), r).

(** @src http/http.cc:91-95 HttpRequest::getCookie *)
Definition HttpRequest_getCookie (r : HttpRequest) (key def : bytes) : outcome (bytes * HttpRequest) :=
  let! r := HttpRequest_initCookies r in
  Ok (default def (h_find key (q_cookies r)), r).

(** @src http/http.cc:145-155 HttpRequest::hasCookie *)
Definition HttpRequest_hasCookie (r : HttpRequest) (key : bytes) : outcome (option bytes * HttpRequest) :=
  let! r := HttpRequest_initCookies r in
  Ok (h_find key (q_cookies r), r).

(** The typed readers parse the parameters or cookies first, as [getParam] and
    [getCookie] do. *)
(** @src http/http.h:264-269 HttpRequest::checkGetParamAs *)
Definition HttpRequest_checkGetParamAs {T} (lexical_cast : bytes -> option T) (r : HttpRequest) (key : bytes) (def : T) :
    outcome (bool * T * HttpRequest) :=
  let! r := HttpRequest_initQueryParam r in
  let! r := HttpRequest_initBodyParam r in
  Ok (checkGetAs lexical_cast (q_params r) key def, r).

(** @src http/http.h:272-278 HttpRequest::getParamAs *)
Definition HttpRequest_getParamAs {T} (lexical_cast : bytes -> option T) (r : HttpRequest) (key : bytes) (def : T) :
    outcome (T * HttpRequest) :=
  let! r := HttpRequest_initQueryParam r in
  let! r := HttpRequest_initBodyParam r in
  Ok (getAs lexical_cast (q_params r) key def, r).

(** @src http/http.h:281-285 HttpRequest::checkGetCookieAs *)
Definition HttpRequest_checkGetCookieAs {T} (lexical_cast : bytes -> option T) (r : HttpRequest) (key : bytes) (def : T) :
    outcome (bool * T * HttpRequest) :=
  let! r := HttpRequest_initCookies r in
  Ok (checkGetAs lexical_cast (q_cookies r) key def, r).

(** @src http/http.h:288-292 HttpRequest::getCookieAs *)
Definition HttpRequest_getCookieAs {T} (lexical_cast : bytes -> option T) (r : HttpRequest) (key : bytes) (def : T) :
    outcome (T * HttpRequest) :=
  let! r := HttpRequest_initCookies r in
  Ok (getAs lexical_cast (q_cookies r) key def, r).

(** @src http/http.cc:203-212 HttpRequest::init *)
Definition HttpRequest_init (r : HttpRequest) : HttpRequest :=
  match HttpRequest_getHeader r (str "connection") [] with
  | [] => r
  | conn => HttpRequest_setClose r (negb (strcaseeq conn (str "keep-alive")))
  end.

(** ** Printing *)

Definition crlf : bytes := [13; 10].
Definition opt_part (sep : bytes) (s : bytes) : bytes := match s with [] => [] | _ => sep ++ s end.

(** [HTTP/] and the two halves of the version byte. *)
Definition version_text (v : Z) : bytes := str "HTTP/" ++ dec (Z.shiftr v 4) ++ str "." ++ dec (Z.land v 15).

Definition connection_line (websocket close : bool) : bytes :=
  if websocket then [] else str "connection: " ++ (if close then str "close" else str "keep-alive") ++ crlf.

(** The header fields, without the connection field when it is written on its own. *)
Definition header_lines (websocket : bool) (m : MapType) : bytes :=
  flat_map (fun p => if negb websocket && strcaseeq p.1 (str "connection") then [] else p.1 ++ str ": " ++ p.2 ++ crlf) m.

Definition body_part (body : bytes) : bytes :=
  match body with
  | [] => crlf
  | _ => str "content-length: " ++ dec (Z.of_nat (length body)) ++ crlf ++ crlf ++ body
  end.

(** @src http/http.cc:157-194 HttpRequest::dump *)
Definition HttpRequest_dump (r : HttpRequest) : bytes :=
  HttpMethodToString (q_method r) ++ str " " ++ q_path r ++ opt_part (str "?") (q_query r) ++
  opt_part (str "#") (q_fragment r) ++ str " " ++ version_text (q_version r) ++ crlf ++
  connection_line (q_websocket r) (q_close r) ++ header_lines (q_websocket r) (q_headers r) ++ body_part (q_body r).

(** ** Responses *)

(** @src http/http.h:400-407 HttpResponse *)
Record HttpResponse := mkResponse {
  p_status : Z;
  p_version : Z;
  p_close : bool;
  p_websocket : bool;
  p_body : bytes;
  p_reason : bytes;
  p_headers : MapType;
  p_cookies : list bytes
}.

(** @src http/http.cc:273-278 HttpResponse::HttpResponse *)
Definition HttpResponse_new (version : Z) (close : bool) : HttpResponse :=
  mkResponse 200 version close false [] [] [] [].

(** @src http/http.h:350-359 HttpResponse::setStatus and the other setters *)
Definition HttpResponse_setStatus r v := mkResponse v (p_version r) (p_close r) (p_websocket r) (p_body r) (p_reason r) (p_headers r) (p_cookies r).
Definition HttpResponse_setVersion r v := mkResponse (p_status r) v (p_close r) (p_websocket r) (p_body r) (p_reason r) (p_headers r) (p_cookies r).
Definition HttpResponse_setBody r v := mkResponse (p_status r) (p_version r) (p_close r) (p_websocket r) v (p_reason r) (p_headers r) (p_cookies r).
Definition HttpResponse_setReason r v := mkResponse (p_status r) (p_version r) (p_close r) (p_websocket r) (p_body r) v (p_headers r) (p_cookies r).
Definition HttpResponse_setHeaders r v := mkResponse (p_status r) (p_version r) (p_close r) (p_websocket r) (p_body r) (p_reason r) v (p_cookies r).
Definition HttpResponse_setClose r v := mkResponse (p_status r) (p_version r) v (p_websocket r) (p_body r) (p_reason r) (p_headers r) (p_cookies r).
Definition HttpResponse_setWebsocket r v := mkResponse (p_status r) (p_version r) (p_close r) v (p_body r) (p_reason r) (p_headers r) (p_cookies r).

(** @src http/http.cc:74-77 HttpRequest::createResponse *)
Definition HttpRequest_createResponse (r : HttpRequest) : HttpResponse := HttpResponse_new (q_version r) (q_close r).

(** @src http/http.cc:280-283 HttpResponse::getHeader *)
Definition HttpResponse_getHeader r (key def : bytes) : bytes := default def (h_find key (p_headers r)).

(** @src http/http.h:373-376 HttpResponse::checkGetHeaderAs *)
Definition HttpResponse_checkGetHeaderAs {T} (lexical_cast : bytes -> option T) r (key : bytes) (def : T) : bool * T :=
  checkGetAs lexical_cast (p_headers r) key def.

(** @src http/http.h:385-388 HttpResponse::getHeaderAs *)
Definition HttpResponse_getHeaderAs {T} (lexical_cast : bytes -> option T) r (key : bytes) (def : T) : T :=
  getAs lexical_cast (p_headers r) key def.

(** @src http/http.cc:285-287 HttpResponse::setHeader *)
Definition HttpResponse_setHeader r (key val : bytes) := HttpResponse_setHeaders r (h_set key val (p_headers r)).

(** @src http/http.cc:289-291 HttpResponse::delHeader *)
Definition HttpResponse_delHeader r (key : bytes) := HttpResponse_setHeaders r (h_erase key (p_headers r)).

(** @src http/http.cc:293-296 HttpResponse::setRedirect *)
Definition HttpResponse_setRedirect r (uri : bytes) := HttpResponse_setHeader (HttpResponse_setStatus r FOUND) (str "Location") uri.

(** @src http/http.cc:298-316 HttpResponse::setCookie *)
Definition HttpResponse_setCookie (Time2Str : Z -> bytes) r (key val : bytes) (expired : Z) (path domain : bytes) (secure : bool) :=
  let ss := key ++ str "=" ++ val ++
    (if 0 <? expired then str ";expires=" ++ Time2Str expired ++ str " GMT" else []) ++
    opt_part (str ";domain=") domain ++ opt_part (str ";path=") path ++ (if secure then str ";secure" else []) in
  mkResponse (p_status r) (p_version r) (p_close r) (p_websocket r) (p_body r) (p_reason r) (p_headers r) (p_cookies r ++ [ss]).

(** @src http/http.cc:325-353 HttpResponse::dump *)
Definition HttpResponse_dump (r : HttpResponse) : bytes :=
  version_text (p_version r) ++ str " " ++ dec (u32 (p_status r)) ++ str " " ++
  (match p_reason r with [] => HttpStatusToString (p_status r) | s => s end) ++ crlf ++
  header_lines (p_websocket r) (p_headers r) ++
  flat_map (fun c => str "Set-Cookie: " ++ c ++ crlf) (p_cookies r) ++
  connection_line (p_websocket r) (p_close r) ++ body_part (p_body r).

(** ** Lemmas *)

Lemma find_from_app c pre a b :
  Forall (fun x => x <> c) a -> find_from c (pre ++ a ++ c :: b) (length pre) = Some (length pre + length a)%nat.
Proof. intros H. unfold find_from. by rewrite drop_app_length, first_pos_app. Qed.

Lemma find_from_none c pre a : Forall (fun x => x <> c) a -> find_from c (pre ++ a) (length pre) = None.
Proof. intros H. unfold find_from. by rewrite drop_app_length, first_pos_none. Qed.

Lemma substr_mid pre a b p n :
  p = length pre -> n = length a -> substr (pre ++ a ++ b) p n = a.
Proof. intros -> ->. unfold substr. by rewrite drop_app_length, take_app_length. Qed.

(** ** Round trip of parameters *)

(** [k1=v1&k2=v2...] with encoded values. *)
Fixpoint query_of (pairs : list (bytes * bytes)) : bytes :=
  match pairs with
  | [] => []
  | [(k, v)] => k ++ chr "=" :: UrlEncode v true
  | (k, v) :: pairs => k ++ chr "=" :: UrlEncode v true ++ chr "&" :: query_of pairs
  end.

Definition plain_key (k : bytes) : Prop := Forall (fun c => c <> chr "=" /\ c <> chr "&") k.

Lemma query_of_cons k v p pairs :
  query_of ((k, v) :: p :: pairs) = k ++ chr "=" :: UrlEncode v true ++ chr "&" :: query_of (p :: pairs).
Proof. done. Qed.

(** The loop on a query of this form collects the pairs in order. *)
Lemma PARSE_PARAM_query pairs : forall fuel pre mp,
  (length pairs < fuel)%nat -> Forall (fun p => plain_key p.1 /\ Forall is_byte p.2) pairs ->
  PARSE_PARAM fuel (pre ++ query_of pairs) (chr "&") id (length pre) mp =
  Ok (fold_left (fun m p => h_insert p.1 p.2 m) pairs mp).
Proof.
  induction pairs as [|[k v] pairs IH]; intros [|fuel] pre mp Hf Hp; try (cbn in Hf; lia).
  all: cbn [PARSE_PARAM].
  { by rewrite find_from_none. }
  apply Forall_cons_1 in Hp as [[Hk Hv] Hp]. cbn [fst snd] in Hk, Hv. cbn [length] in Hf.
  assert (Forall (fun x => x <> chr "=") k) as Hk1 by (eapply Forall_impl; [exact Hk|]; naive_solver).
  assert (Forall (fun x => x <> chr "&") (chr "=" :: UrlEncode v true)) as Hv1.
  { constructor; [done|]. eapply Forall_impl; [by apply UrlEncode_separators|]. naive_solver. }
  destruct pairs as [|p pairs].
  - cbn [query_of fold_left]. rewrite find_from_app by done.
    rewrite (app_assoc pre k), <- (length_app pre k), find_from_none by done. f_equal. f_equal.
    + unfold id. rewrite <- app_assoc. cbn [fst]. apply substr_mid; lens.
    + rewrite Nat.add_1_r, cons_middle, app_assoc, drop_app_length' by lens. by apply UrlDecode_UrlEncode.
  - rewrite query_of_cons, find_from_app by done.
    rewrite (app_comm_cons _ (chr "&" :: _) (chr "=")), (app_assoc pre k), <- (length_app pre k), find_from_app by done.
    replace (length (pre ++ k) + length (chr "=" :: UrlEncode v true) + 1)%nat
      with (length (pre ++ k ++ chr "=" :: UrlEncode v true ++ [chr "&"]))
      by (rewrite !length_app; cbn [length]; rewrite !length_app; cbn [length]; lia).
    replace ((pre ++ k) ++ (chr "=" :: UrlEncode v true) ++ chr "&" :: query_of (p :: pairs))
      with ((pre ++ k ++ chr "=" :: UrlEncode v true ++ [chr "&"]) ++ query_of (p :: pairs))
      by (by rewrite <- !app_assoc; cbn [app]; rewrite <- !app_assoc).
    rewrite IH by (done || lia). cbn [fold_left fst snd]. unfold id. rewrite <- !app_assoc.
    do 3 f_equal. apply (f_equal2 (fun a b => h_insert a b mp)).
    + apply substr_mid; lens.
    + cbn [app]. rewrite <- app_assoc, (cons_middle (chr "=") k), (app_assoc k), (app_assoc pre).
      rewrite substr_mid by (rewrite ?length_app; cbn [length]; lia). by apply UrlDecode_UrlEncode.
Qed.

Lemma find_fold_insert key pairs : forall mp,
  h_find key (fold_left (fun m p => h_insert p.1 p.2 m) pairs mp) =
  match h_find key mp with Some v => Some v | None => h_find key pairs end.
Proof.
  induction pairs as [|[k v] pairs IH]; intros mp; cbn [fold_left smap_find fst snd]; [by destruct (h_find key mp)|].
  rewrite IH, smap_find_insert. destruct (h_find key mp); [done|]. by destruct (key_eq fold_case key k).
Qed.

Lemma length_query_of pairs : (length pairs <= length (query_of pairs))%nat.
Proof.
  induction pairs as [|[k v] [|p pairs] IH]; [done| |].
  - cbn. rewrite length_app. cbn. lia.
  - rewrite query_of_cons, length_app. cbn [length] in *. rewrite length_app. cbn [length]. lia.
Qed.

(** A query made of keys and encoded values gives back the values: [getParam]
    returns the decoded value of the first pair whose key is the same up to case, or
    the default, and asking again changes nothing. *)
Lemma HttpRequest_getParam_roundtrip (r : HttpRequest) pairs key def :
  q_query r = query_of pairs -> q_parserParamFlag r = 0 -> q_params r = [] ->
  strcasestr (HttpRequest_getHeader r (str "content-type") []) (str "application/x-www-form-urlencoded") = false ->
  Forall (fun p => plain_key p.1 /\ Forall is_byte p.2) pairs ->
  exists r', HttpRequest_getParam r key def = Ok (default def (h_find key pairs), r') /\
    HttpRequest_getParam r' key def = Ok (default def (h_find key pairs), r').
Proof.
  intros Hq Hf Hp Hct Hok. set (mp := fold_left (fun m p => h_insert p.1 p.2 m) pairs []).
  set (r1 := set_flag (HttpRequest_setParams r mp) 1). set (r2 := set_flag r1 2).
  assert (HttpRequest_initQueryParam r = Ok r1) as E1.
  { unfold HttpRequest_initQueryParam, flag_set. rewrite Hf, Hq, Hp. unfold parse_params.
    pose proof (length_query_of pairs). by rewrite (PARSE_PARAM_query pairs _ [] []) by (lia || done). }
  assert (HttpRequest_initBodyParam r1 = Ok r2) as E2.
  { unfold HttpRequest_initBodyParam, flag_set. replace (q_parserParamFlag r1) with 1 by (cbn; by rewrite Hf).
    change (HttpRequest_getHeader r1 (str "content-type") []) with (HttpRequest_getHeader r (str "content-type") []).
    by rewrite Hct. }
  assert (q_parserParamFlag r2 = 3) as F2 by (cbn; by rewrite Hf).
  assert (HttpRequest_initQueryParam r2 = Ok r2 /\ HttpRequest_initBodyParam r2 = Ok r2) as [E3 E4].
  { unfold HttpRequest_initQueryParam, HttpRequest_initBodyParam, flag_set. by rewrite F2. }
  assert (h_find key (q_params r2) = h_find key pairs) as Ef by (unfold r2, r1, mp; cbn; apply find_fold_insert).
  exists r2. unfold HttpRequest_getParam. rewrite E1, E3. cbn [obind]. rewrite E2, E4. cbn [obind]. by rewrite Ef.
Qed.

(** The typed readers are the textual ones followed by the conversion: a conversion
    that fails counts as a missing parameter, and only the checking reader tells. *)
Lemma HttpRequest_typed_params {T} (lexical_cast : bytes -> option T) (r : HttpRequest) key (def : T) :
  let get v r := Ok (default def v, r) in
  let check (v : option T) r := Ok (match v with Some v => (true, v) | None => (false, def) end, r) in
  (HttpRequest_getParamAs lexical_cast r key def =
     let! p := HttpRequest_hasParam r key in get (fst p ≫= lexical_cast) (snd p)) /\
  (HttpRequest_checkGetParamAs lexical_cast r key def =
     let! p := HttpRequest_hasParam r key in check (fst p ≫= lexical_cast) (snd p)) /\
  (HttpRequest_getCookieAs lexical_cast r key def =
     let! p := HttpRequest_hasCookie r key in get (fst p ≫= lexical_cast) (snd p)) /\
  (HttpRequest_checkGetCookieAs lexical_cast r key def =
     let! p := HttpRequest_hasCookie r key in check (fst p ≫= lexical_cast) (snd p)).
Proof.
  cbn zeta. unfold HttpRequest_getParamAs, HttpRequest_checkGetParamAs, HttpRequest_getCookieAs,
    HttpRequest_checkGetCookieAs, HttpRequest_hasParam, HttpRequest_hasCookie.
  destruct (HttpRequest_initCookies r) as [rc| | | |]; cbn [obind];
    (destruct (HttpRequest_initQueryParam r) as [rq| | | |]; cbn [obind];
      [destruct (HttpRequest_initBodyParam rq) as [rb| | | |]; cbn [obind]|..]); unfold getAs, checkGetAs; split_and!; try done;
    destruct (h_find key _) as [s|]; cbn; try done; by destruct (lexical_cast s).
Qed.

Lemma HttpRequest_getParam_roundtrip_witness :
  let pairs := [(str "name", str "a b&c"); (str "Name", str "x")] in
  let r := HttpRequest_setQuery (HttpRequest_new 0x11 true) (query_of pairs) in
  exists r', HttpRequest_getParam r (str "NAME") [] = Ok (str "a b&c", r') /\
    HttpRequest_getParam r' (str "NAME") [] = Ok (str "a b&c", r').
Proof.
  exact (HttpRequest_getParam_roundtrip
    (HttpRequest_setQuery (HttpRequest_new 0x11 true) (query_of [(str "name", str "a b&c"); (str "Name", str "x")]))
    [(str "name", str "a b&c"); (str "Name", str "x")] (str "NAME") [] eq_refl eq_refl eq_refl eq_refl
    ltac:(repeat constructor; try (by vm_compute); try (cbv; intros; discriminate))).
Defined.

(** A parameter without [=] is taken for the beginning of the next one's key. *)
Lemma param_without_value_merges :
  parse_params (str "debug&user=x") (chr "&") id [] = Ok [(str "debug&user", str "x")].
Proof. vm_compute. reflexivity. Qed.

(** ** Headers as a finite map *)

(** What a program does to the headers. *)
Inductive header_op := HSet (key val : bytes) | HDel (key : bytes).

Definition header_step (r : HttpRequest) (o : header_op) : HttpRequest :=
  match o with HSet k v => HttpRequest_setHeader r k v | HDel k => HttpRequest_delHeader r k end.

Definition header_spec (m : gmap bytes bytes) (o : header_op) : gmap bytes bytes :=
  match o with HSet k v => <[fold_case k := v]> m | HDel k => delete (fold_case k) m end.

Definition headers_agree (m : MapType) (g : gmap bytes bytes) : Prop :=
  h_sorted m /\ forall k, h_find k m = g !! fold_case k.

Lemma header_step_agree r g o :
  headers_agree (q_headers r) g -> headers_agree (q_headers (header_step r o)) (header_spec g o).
Proof.
  intros [Hs Hf]. destruct o as [k v|k]; split; cbn; [by apply smap_set_sorted| |by apply smap_erase_sorted|]; intros k2.
  - rewrite smap_find_set. unfold key_eq. case_bool_decide as E; [by rewrite E, lookup_insert_eq|].
    rewrite lookup_insert_ne by done. apply Hf.
  - rewrite smap_find_erase by done. unfold key_eq. case_bool_decide as E; [by rewrite E, lookup_delete_eq|].
    rewrite lookup_delete_ne by done. apply Hf.
Qed.

(** The headers of a request are a finite map on keys without case: after any
    sequence of [setHeader] and [delHeader] the tree is in strictly increasing order and
    [getHeader] gives what the last operation on the key, in whatever spelling, left. *)
Lemma HttpRequest_headers_refine ops key def v c :
  let r := fold_left header_step ops (HttpRequest_new v c) in
  h_sorted (q_headers r) /\
  HttpRequest_getHeader r key def = default def (fold_left header_spec ops ∅ !! fold_case key).
Proof.
  cbv zeta. assert (forall ops r g, headers_agree (q_headers r) g ->
    headers_agree (q_headers (fold_left header_step ops r)) (fold_left header_spec ops g)) as H.
  { clear. induction ops as [|o ops IH]; intros r g H; [done|]. cbn. by apply IH, header_step_agree. }
  destruct (H ops (HttpRequest_new v c) ∅) as [Hs Hf]; [by split|]. split; [done|].
  unfold HttpRequest_getHeader. by rewrite Hf.
Qed.
