(* ===== verification/Ragel.v ===== *)
(** * State machines in the form Ragel generates

    The generated code of the three parsers has one shape.  In state [cs] the current
    character (a [char], signed) selects a transition; its actions run with [p] at that
    character; then [p] moves on and the loop leaves when the end is reached.  The
    error state is left at once, with [p] where the character was.  An action that ends
    in [fbreak] moves [p] and leaves the loop in the transition's target. *)

From S2P Require Import Prelude.
From Stdlib Require Import ZArith Lia List.
From stdpp Require Import base tactics list numbers option.

Open Scope Z_scope.

(** The value of a byte read through a [char] pointer. *)
Definition schar (c : Z) : Z := if c <? 128 then c else c - 256.

Section machine.
Context {A : Type}.

(** Actions and the target state. *)
Definition move : Type := list A * Z.

Definition tr (acts : list A) (target : Z) : move := (acts, target).
Definition st (target : Z) : move := ([], target).

(** A transition on one value or on a range of values. *)
Definition on (k : Z) (m : move) : Z * Z * move := (k, k, m).
Definition rng (lo hi : Z) (m : move) : Z * Z * move := (lo, hi, m).

(** A state; [r_wide] says that it starts with the computation of [_widec]. *)
Record row := mkRow { r_state : Z; r_wide : bool; r_moves : list (Z * Z * move) }.

(** [_widec]: three characters are moved to values of their own, which depend on
    [parser->uri_relaxed]. *)
Definition widec (relaxed : bool) (c : Z) : Z :=
  if (c =? 94) || (c =? 123) || (c =? 125) then 128 + (c + 128) + (if relaxed then 256 else 0) else c.

Fixpoint find_move (w : Z) (moves : list (Z * Z * move)) : move :=
  match moves with
  | [] => st 0
  | (lo, hi, m) :: moves => if (lo <=? w) && (w <=? hi) then m else find_move w moves
  end.

Definition row_move (relaxed : bool) (r : row) (c : Z) : move :=
  find_move (if r_wide r then widec relaxed (schar c) else schar c) (r_moves r).

Fixpoint row_of (table : list row) (cs : Z) : option row :=
  match table with
  | [] => None
  | r :: table => if r_state r =? cs then Some r else row_of table cs
  end.

(** A state without a row is the error state, which has no code of its own. *)
Definition next_move (table : list row) (relaxed : bool) (cs c : Z) : move :=
  match row_of table cs with Some r => row_move relaxed r c | None => st 0 end.

Context {S : Type} (act : A -> Z -> S -> outcome (S * bool)).

(** The actions of a transition at position [p]; true when one of them breaks. *)
Fixpoint run_actions (acts : list A) (p : Z) (s : S) : outcome (S * bool) :=
  match acts with
  | [] => Ok (s, false)
  | a :: acts =>
    let! (s, brk) := act a p s in
    if brk : bool then Ok (s, true) else run_actions acts p s
  end.

(** The loop, from position [p] with the rest of the input: the state at the end, [p]
    and the data the actions work on. *)
Fixpoint run_machine (table : list row) (relaxed : bool) (cs p : Z) (input : bytes) (s : S) : outcome (Z * Z * S) :=
  match input with
  | [] => Ok (cs, p, s)
  | c :: input =>
    let '(acts, target) := next_move table relaxed cs c in
    let! (s, brk) := run_actions acts p s in
    if brk : bool then Ok (target, p + 1, s)
    else if target =? 0 then Ok (0, p, s)
    else run_machine table relaxed target (p + 1) input s
  end.

(** ** Lemmas *)

Lemma find_move_in w moves m :
  find_move w moves = m -> m = st 0 \/ exists lo hi, In (lo, hi, m) moves.
Proof.
  induction moves as [|[[lo hi] m'] moves IH]; cbn; [by left|]. case_match; [right; exists lo, hi; left; congruence|].
  intros E. destruct (IH E) as [?|(lo' & hi' & ?)]; [by left|right; eauto].
Qed.

Lemma row_of_in table cs r : row_of table cs = Some r -> In r table /\ r_state r = cs.
Proof.
  induction table as [|r' table IH]; cbn; [done|]. destruct (Z.eqb_spec (r_state r') cs); intros E; simplify_eq; [auto|].
  destruct (IH E); auto.
Qed.

(** A transition taken is one of the table, from the current state, or the error. *)
Lemma next_move_in table relaxed cs c m :
  next_move table relaxed cs c = m ->
  m = st 0 \/ exists r lo hi, In r table /\ r_state r = cs /\ In (lo, hi, m) (r_moves r).
Proof.
  unfold next_move. destruct (row_of table cs) as [r|] eqn:E; [|by left].
  apply row_of_in in E as [Hr Hc]. intros [?|(lo & hi & ?)]%find_move_in; [by left|right; eauto 10].
Qed.

(** A property of all transitions of a table that is checked row by row. *)
Lemma table_check (f : Z -> move -> bool) table relaxed cs c acts target :
  forallb (fun r => forallb (fun e => f (r_state r) (snd e)) (r_moves r)) table = true -> f cs (st 0) = true ->
  next_move table relaxed cs c = (acts, target) -> f cs (acts, target) = true.
Proof.
  intros Hall H0 [->|(r & lo & hi & Hr & <- & Hm)]%next_move_in; [done|].
  rewrite forallb_forall in Hall. specialize (Hall r Hr). rewrite forallb_forall in Hall. exact (Hall _ Hm).
Qed.

Lemma run_machine_cons table relaxed cs p c input s :
  run_machine table relaxed cs p (c :: input) s =
  let '(acts, target) := next_move table relaxed cs c in
  let! (s, brk) := run_actions acts p s in
  if brk : bool then Ok (target, p + 1, s)
  else if target =? 0 then Ok (0, p, s)
  else run_machine table relaxed target (p + 1) input s.
Proof. done. Qed.

(** The loop ends when the actions do. *)
Lemma run_machine_fuel table relaxed : (forall a p s, act a p s <> NoFuel) ->
  forall input cs p s, run_machine table relaxed cs p input s <> NoFuel.
Proof.
  intros Hact. assert (forall acts p s, run_actions acts p s <> NoFuel) as Ha.
  { induction acts as [|a acts IH]; intros p s; [done|]. cbn [run_actions]. pose proof (Hact a p s).
    destruct (act a p s) as [[s1 brk]| | | |]; cbn [obind]; try done. by destruct brk. }
  induction input as [|c w IH]; intros cs p s; [done|]. rewrite run_machine_cons. destruct (next_move table relaxed cs c) as [acts t].
  pose proof (Ha acts p s). destruct (run_actions acts p s) as [[s1 brk]| | | |]; cbn [obind]; try done. destruct brk; [done|]. by destruct (t =? 0).
Qed.

(** Invariants of the loop: [I] holds between characters, [F] when the loop is left in
    the error state or by a break; the input ends at [L].  An action may be undefined
    where [U] holds. *)
Lemma run_machine_inv_ub table relaxed L (U : Prop) (I : Z -> Z -> S -> Prop) (F : Z -> Z -> S -> Prop) :
  (forall cs p c s acts target, I cs p s -> p < L -> next_move table relaxed cs c = (acts, target) ->
     (exists s' brk, run_actions acts p s = Ok (s', brk) /\
       if brk : bool then F target (p + 1) s' else if target =? 0 then F 0 p s' else I target (p + 1) s') \/
     run_actions acts p s = UB /\ U) ->
  forall input cs p s, I cs p s -> p + Z.of_nat (length input) = L ->
  (exists cs' p' s', run_machine table relaxed cs p input s = Ok (cs', p', s') /\ p <= p' <= L /\
    (p' = L /\ I cs' p' s' \/ F cs' p' s')) \/
  run_machine table relaxed cs p input s = UB /\ U.
Proof.
  intros Hstep. induction input as [|c input IH]; intros cs p s HI HL; cbn [length] in HL.
  { left. exists cs, p, s. cbn. split_and!; [done|lia|lia|left; split; [lia|done]]. }
  rewrite run_machine_cons. destruct (next_move table relaxed cs c) as [acts target] eqn:Em.
  destruct (Hstep cs p c s acts target HI ltac:(lia) Em) as [(s' & brk & -> & H)|[-> HU]]; [|by right]. cbn [obind].
  destruct brk; [left; exists target, (p + 1), s'; split_and!; [done|lia|lia|by right]|].
  destruct (target =? 0); [left; exists 0, p, s'; split_and!; [done|lia|lia|by right]|].
  destruct (IH target (p + 1) s' H ltac:(lia)) as [(cs' & p' & s'' & E & Hp & HF)|HU]; [left|by right].
  exists cs', p', s''. split_and!; [done|lia|lia|done].
Qed.

Lemma run_machine_inv table relaxed L (I F : Z -> Z -> S -> Prop) :
  (forall cs p c s acts target, I cs p s -> p < L -> next_move table relaxed cs c = (acts, target) ->
     exists s' brk, run_actions acts p s = Ok (s', brk) /\
       if brk : bool then F target (p + 1) s' else if target =? 0 then F 0 p s' else I target (p + 1) s') ->
  forall input cs p s, I cs p s -> p + Z.of_nat (length input) = L ->
  exists cs' p' s', run_machine table relaxed cs p input s = Ok (cs', p', s') /\ p <= p' <= L /\
    (p' = L /\ I cs' p' s' \/ F cs' p' s').
Proof.
  intros Hstep input cs p s HI HL.
  destruct (run_machine_inv_ub table relaxed L False I F) with (input := input) (cs := cs) (p := p) (s := s) as [?|[_ []]]; [|done..].
  intros. left. eauto.
Qed.

(** ** Running over a word *)

(** Characters that keep the machine in a state without actions. *)
Lemma run_machine_loop table relaxed cs p w input s :
  Forall (fun c => next_move table relaxed cs c = ([], cs)) w -> cs <> 0 ->
  run_machine table relaxed cs p (w ++ input) s = run_machine table relaxed cs (p + Z.of_nat (length w)) input s.
Proof.
  intros Hw Hcs. revert p. induction w as [|c w IH]; intros p; [by rewrite Z.add_0_r|]. cbn [app].
  apply Forall_cons_1 in Hw as [Hc Hw]. rewrite run_machine_cons, Hc. cbn [run_actions obind].
  rewrite (proj2 (Z.eqb_neq cs 0) Hcs), IH by done. f_equal. cbn [length]. lia.
Qed.

(** The state after a word whose characters have no actions. *)
Fixpoint silent_walk table (relaxed : bool) (cs : Z) (w : bytes) : option Z :=
  match w with
  | [] => Some cs
  | c :: w =>
    match next_move table relaxed cs c with
    | ([], target) => if target =? 0 then None else silent_walk table relaxed target w
    | _ => None
    end
  end.

(** One character with actions that do not break. *)
Lemma run_machine_step table relaxed cs p c input s acts target s' :
  next_move table relaxed cs c = (acts, target) -> target <> 0 -> run_actions acts p s = Ok (s', false) ->
  run_machine table relaxed cs p (c :: input) s = run_machine table relaxed target (p + 1) input s'.
Proof.
  intros Hm Ht Ha. rewrite run_machine_cons, Hm, Ha. cbn [obind]. by rewrite (proj2 (Z.eqb_neq target 0) Ht).
Qed.

Lemma run_walk table relaxed w : forall cs p input s cs',
  silent_walk table relaxed cs w = Some cs' ->
  run_machine table relaxed cs p (w ++ input) s = run_machine table relaxed cs' (p + Z.of_nat (length w)) input s.
Proof.
  induction w as [|c w IH]; intros cs p input s cs' Hw; cbn [silent_walk] in Hw; [simplify_eq; by rewrite Z.add_0_r|].
  destruct (next_move table relaxed cs c) as [[|a acts] target] eqn:E; [|done].
  destruct (Z.eqb_spec target 0) as [|Ht]; [done|]. cbn [app].
  rewrite (run_machine_step table relaxed cs p c _ s [] target s E Ht eq_refl), (IH _ _ _ _ _ Hw).
  f_equal. cbn [length]. lia.
Qed.

(** One character with actions that end in a break. *)
Lemma run_machine_break table relaxed cs p c input s acts target s' :
  next_move table relaxed cs c = (acts, target) -> run_actions acts p s = Ok (s', true) ->
  run_machine table relaxed cs p (c :: input) s = Ok (target, p + 1, s').
Proof. intros Hm Ha. by rewrite run_machine_cons, Hm, Ha. Qed.

End machine.
Arguments move : clear implicits.
Arguments row : clear implicits.
