(* ===== verification/RagelFlow.v ===== *)
(** * Reading words with a Ragel machine

    Lemmas for proofs that a machine reads a text: the states fall into classes, a class
    is checked once for every byte, and [flows_to] composes what is known about the
    pieces of the text. *)

From S2P Require Import Prelude StringUtil Ragel.
From Stdlib Require Import ZArith Lia List.
From stdpp Require Import base tactics list numbers option.

Open Scope Z_scope.
Open Scope list_scope.

(** A property checked for every byte. *)
Lemma byte_check (f : Z -> bool) : forallb f (map Z.of_nat (seq 0 256)) = true -> forall c, 0 <= c < 256 -> f c = true.
Proof. intros H c Hc. rewrite forallb_forall in H. by apply H, in_bytes. Qed.

Section flow.
Context {A S : Type} `{EqDecision A} {act : A -> Z -> S -> outcome (S * bool)} {table : list (row A)}.
Implicit Types (s : S) (p cs : Z) (w : bytes).

(** A property of the transitions of a class on certain characters. *)
Definition moves_in (table : list (row A)) (C : list Z) (f : Z -> bool) (g : Z -> Z -> list A -> Z -> bool) : bool :=
  forallb (fun cs => forallb (fun c => implb (f c) (let '(acts, t) := next_move table false cs c in g cs c acts t))
    (map Z.of_nat (seq 0 256))) C.

Lemma moves_in_ok C f g cs c :
  moves_in table C f g = true -> cs ∈ C -> 0 <= c < 256 -> f c = true ->
  exists acts t, next_move table false cs c = (acts, t) /\ g cs c acts t = true.
Proof.
  unfold moves_in. rewrite forallb_forall. intros H Hcs Hc Hf. apply list_elem_of_In in Hcs. specialize (H cs Hcs).
  apply (byte_check _ H) in Hc. rewrite Hf in Hc. destruct (next_move table false cs c) as [acts t]. eauto.
Qed.

Definition goes_to (acts' : list (list A)) (D : list Z) (acts : list A) (t : Z) : bool :=
  bool_decide (acts ∈ acts') && bool_decide (t ∈ D) && negb (t =? 0).

Lemma goes_to_ok acts' D acts t : goes_to acts' D acts t = true -> acts ∈ acts' /\ t ∈ D /\ t <> 0.
Proof.
  unfold goes_to. rewrite !andb_true_iff, !bool_decide_eq_true, negb_true_iff, Z.eqb_neq. tauto.
Qed.

(** Reading [w] from [p] in state [cs] leads to a state and data with [post]. *)
Definition flows_to (act : A -> Z -> S -> outcome (S * bool)) (table : list (row A)) cs p w s (post : Z -> S -> Prop) : Prop :=
  exists cs' s', (forall input, run_machine act table false cs p (w ++ input) s =
    run_machine act table false cs' (p + Z.of_nat (length w)) input s') /\ post cs' s'.

Abbreviation flows := (flows_to act table).

Lemma flow_nil cs p s (post : Z -> S -> Prop) : post cs s -> flows cs p [] s post.
Proof. intros H. exists cs, s. split; [intros; cbn; f_equal; lia|done]. Qed.

Lemma flow_app cs p w1 w2 s P Q :
  flows cs p w1 s P -> (forall cs' s', P cs' s' -> flows cs' (p + Z.of_nat (length w1)) w2 s' Q) -> flows cs p (w1 ++ w2) s Q.
Proof.
  intros (cs1 & s1 & R1 & H1) H. destruct (H cs1 s1 H1) as (cs2 & s2 & R2 & H2). exists cs2, s2. split; [|done].
  intros input. rewrite <- app_assoc, R1, R2. f_equal. rewrite length_app. lia.
Qed.

Lemma flow_mono cs p w s (P Q : Z -> S -> Prop) : flows cs p w s P -> (forall cs' s', P cs' s' -> Q cs' s') -> flows cs p w s Q.
Proof. intros (cs1 & s1 & R1 & H1) H. exists cs1, s1. auto. Qed.

Lemma flow_cons cs p c w s acts t s1 Q :
  next_move table false cs c = (acts, t) -> t <> 0 -> run_actions act acts p s = Ok (s1, false) ->
  flows t (p + 1) w s1 Q -> flows cs p (c :: w) s Q.
Proof.
  intros Hm Ht Ha (cs2 & s2 & R2 & H2). exists cs2, s2. split; [|done]. intros input. cbn [app].
  rewrite (run_machine_step _ _ _ _ _ _ _ _ _ _ _ Hm Ht Ha), R2. f_equal. cbn [length]. lia.
Qed.

(** The first character of a class of states, with actions that succeed. *)
Lemma flow_class C f acts' D cs p c w s Q :
  moves_in table C f (fun _ _ => goes_to acts' D) = true -> cs ∈ C -> 0 <= c < 256 -> f c = true ->
  (forall acts t, acts ∈ acts' -> t ∈ D ->
     exists s1, run_actions act acts p s = Ok (s1, false) /\ flows t (p + 1) w s1 Q) ->
  flows cs p (c :: w) s Q.
Proof.
  intros HC Hcs Hc Hf H. destruct (moves_in_ok _ _ _ _ _ HC Hcs Hc Hf) as (acts & t & Hm & (Ha & Ht & H0)%goes_to_ok).
  destruct (H acts t Ha Ht) as (s1 & E & F). by eapply flow_cons.
Qed.

(** Characters that keep the machine in a class without actions. *)
Lemma flow_loop C f cs p w s :
  moves_in table C f (fun _ _ => goes_to [[]] C) = true -> cs ∈ C -> (forall c, f c = true -> 0 <= c < 256) ->
  forallb f w = true -> flows cs p w s (fun cs' s' => cs' ∈ C /\ s' = s).
Proof.
  intros HC Hcs Hf Hw. revert cs p Hcs. induction w as [|c w IH]; intros cs p Hcs; [by apply flow_nil|].
  cbn [forallb] in Hw. apply andb_true_iff in Hw as [Hc Hw]. eapply flow_class; [exact HC|done|by apply Hf|done|].
  intros acts t ->%list_elem_of_singleton Ht. eauto.
Qed.

Lemma flow_walk cs p w s cs' :
  silent_walk table false cs w = Some cs' -> flows cs p w s (fun c s' => c = cs' /\ s' = s).
Proof. intros Hw. exists cs', s. split; [|done]. intros input. by apply run_walk. Qed.

End flow.
