(* ===== verification/Http11Table.v ===== *)
(** * The state machine of the HTTP request parser ([http/http11_parser.rl.cc])

    The code is the output of Ragel: for each state a [switch] and comparisons on the
    next character that end in [goto trN], which runs actions and continues in a state,
    or [goto stN].  Here a state is a row of ranges with the transition taken on each;
    a character in no range leads to the error state [st0].  The names are those of the
    labels. *)

From S2P Require Import Prelude Ragel.
From Stdlib Require Import ZArith List.
Import ListNotations.

Open Scope Z_scope.

(** The actions, in the order of [http11_parser.rl]. *)
Inductive http_action :=
| a_mark | a_start_field | a_write_field | a_start_value | a_write_value | a_request_method | a_request_uri
| a_fragment | a_start_query | a_query_string | a_http_version | a_request_path | a_done | a_xml | a_json.

(** ** Transitions with actions *)

(** @src http/http11_parser.rl.cc:131-134 tr0 *)
Definition htr0 := tr [a_mark] 2.

(** @src http/http11_parser.rl.cc:148-154 tr4 *)
Definition htr4 := tr [a_request_method] 3.

(** @src http/http11_parser.rl.cc:206-219 tr6 *)
Definition htr6 := tr [a_mark; a_request_path; a_request_uri] 4.

(** @src http/http11_parser.rl.cc:220-231 tr37 *)
Definition htr37 := tr [a_request_path; a_request_uri] 4.

(** @src http/http11_parser.rl.cc:232-240 tr44 *)
Definition htr44 := tr [a_mark; a_fragment] 4.

(** @src http/http11_parser.rl.cc:241-247 tr47 *)
Definition htr47 := tr [a_fragment] 4.

(** @src http/http11_parser.rl.cc:248-261 tr54 *)
Definition htr54 := tr [a_start_query; a_query_string; a_request_uri] 4.

(** @src http/http11_parser.rl.cc:262-273 tr58 *)
Definition htr58 := tr [a_query_string; a_request_uri] 4.

(** @src http/http11_parser.rl.cc:282-285 tr13 *)
Definition htr13 := tr [a_mark] 5.

(** @src http/http11_parser.rl.cc:345-351 tr21 *)
Definition htr21 := tr [a_http_version] 13.

(** @src http/http11_parser.rl.cc:352-361 tr30 *)
Definition htr30 := tr [a_start_value; a_write_value] 13.

(** @src http/http11_parser.rl.cc:362-369 tr33 *)
Definition htr33 := tr [a_write_value] 13.

(** @src http/http11_parser.rl.cc:406-409 tr23 *)
Definition htr23 := tr [a_start_field] 14.

(** @src http/http11_parser.rl.cc:445-450 tr27 *)
Definition htr27 := tr [a_write_field] 15.

(** @src http/http11_parser.rl.cc:451-454 tr29 *)
Definition htr29 := tr [a_start_value] 15.

(** @src http/http11_parser.rl.cc:469-472 tr28 *)
Definition htr28 := tr [a_start_value] 16.

(** @src http/http11_parser.rl.cc:485-491 tr22 *)
Definition htr22 := tr [a_http_version] 17.

(** @src http/http11_parser.rl.cc:492-501 tr31 *)
Definition htr31 := tr [a_start_value; a_write_value] 17.

(** @src http/http11_parser.rl.cc:502-509 tr34 *)
Definition htr34 := tr [a_write_value] 17.

(** @src http/http11_parser.rl.cc:518-536 tr24 *)
Definition htr24 := tr [a_start_field; a_done] 348.

(** @src http/http11_parser.rl.cc:537-553 tr36 *)
Definition htr36 := tr [a_done] 348.

(** @src http/http11_parser.rl.cc:589-592 tr25 *)
Definition htr25 := tr [a_start_field] 18.

(** @src http/http11_parser.rl.cc:629-632 tr7 *)
Definition htr7 := tr [a_mark] 19.

(** @src http/http11_parser.rl.cc:683-696 tr8 *)
Definition htr8 := tr [a_mark; a_request_path; a_request_uri] 20.

(** @src http/http11_parser.rl.cc:697-708 tr39 *)
Definition htr39 := tr [a_request_path; a_request_uri] 20.

(** @src http/http11_parser.rl.cc:709-722 tr55 *)
Definition htr55 := tr [a_start_query; a_query_string; a_request_uri] 20.

(** @src http/http11_parser.rl.cc:723-734 tr59 *)
Definition htr59 := tr [a_query_string; a_request_uri] 20.

(** @src http/http11_parser.rl.cc:784-787 tr43 *)
Definition htr43 := tr [a_mark] 21.

(** @src http/http11_parser.rl.cc:837-840 tr45 *)
Definition htr45 := tr [a_mark] 22.

(** @src http/http11_parser.rl.cc:868-871 tr9 *)
Definition htr9 := tr [a_mark] 24.

(** @src http/http11_parser.rl.cc:899-902 tr203 *)
Definition htr203 := tr [a_mark] 26.

(** @src http/http11_parser.rl.cc:954-957 tr204 *)
Definition htr204 := tr [a_mark] 27.

(** @src http/http11_parser.rl.cc:985-993 tr11 *)
Definition htr11 := tr [a_mark; a_request_path] 29.

(** @src http/http11_parser.rl.cc:994-1000 tr42 *)
Definition htr42 := tr [a_request_path] 29.

(** @src http/http11_parser.rl.cc:1051-1054 tr53 *)
Definition htr53 := tr [a_start_query] 30.

(** @src http/http11_parser.rl.cc:1105-1108 tr56 *)
Definition htr56 := tr [a_start_query] 31.

(** @src http/http11_parser.rl.cc:1136-1139 tr10 *)
Definition htr10 := tr [a_mark] 33.

(** @src http/http11_parser.rl.cc:3387-3390 tr12 *)
Definition htr12 := tr [a_mark] 173.

(** @src http/http11_parser.rl.cc:3721-3724 tr2 *)
Definition htr2 := tr [a_mark] 194.

(** @src http/http11_parser.rl.cc:3763-3769 tr224 *)
Definition htr224 := tr [a_request_path] 196.

(** @src http/http11_parser.rl.cc:3787-3807 tr227 *)
Definition htr227 := tr [a_xml; a_done] 349.

(** @src http/http11_parser.rl.cc:3808-3828 tr235 *)
Definition htr235 := tr [a_json; a_done] 349.

(** @src http/http11_parser.rl.cc:3835-3838 tr3 *)
Definition htr3 := tr [a_mark] 198.

(** @src http/http11_parser.rl.cc:3887-3893 tr228 *)
Definition htr228 := tr [a_request_path] 199.

(** @src http/http11_parser.rl.cc:3902-3905 tr232 *)
Definition htr232 := tr [a_mark] 200.

(** ** States *)

(** @src http/http11_parser.rl.cc:117-205 http_parser_execute *)
Definition hrows_1 : list (row http_action) := [
  mkRow 1 false [rng 48 57 htr0; on 60 htr2; on 64 htr3; rng 65 90 htr0];
  mkRow 2 false [on 32 htr4; rng 48 57 (st 175); rng 65 90 (st 175)];
  mkRow 3 true [on 32 htr6; on 33 htr7; on 35 htr8; on 36 htr7; on 37 htr9; rng 38 46 htr7; on 47 htr10;
    rng 48 57 htr7; on 59 htr7; on 61 htr7; on 63 htr11; on 64 htr7; rng 65 90 htr12; on 95 htr7;
    rng 97 122 htr12; on 126 htr7; on 606 htr7; on 635 htr7; on 637 htr7]].

(** @src http/http11_parser.rl.cc:274-405 http_parser_execute *)
Definition hrows_2 : list (row http_action) := [
  mkRow 4 false [on 72 htr13];
  mkRow 5 false [on 84 (st 6)];
  mkRow 6 false [on 84 (st 7)];
  mkRow 7 false [on 80 (st 8)];
  mkRow 8 false [on 47 (st 9)];
  mkRow 9 false [on 49 (st 10)];
  mkRow 10 false [on 46 (st 11)];
  mkRow 11 false [rng 48 49 (st 12)];
  mkRow 12 false [on 10 htr21; on 13 htr22];
  mkRow 13 false [rng 1 8 htr23; on 10 htr24; rng 11 12 htr23; on 13 htr25; rng 14 31 htr23; on 33 htr23;
    rng 35 39 htr23; rng 42 43 htr23; rng 45 46 htr23; rng 48 57 htr23; rng 65 90 htr23; rng 94 122 htr23;
    on 124 htr23; on 126 htr23]].

(** @src http/http11_parser.rl.cc:410-517 http_parser_execute *)
Definition hrows_3 : list (row http_action) := [
  mkRow 14 false [rng 1 8 (st 14); rng 10 31 (st 14); on 33 (st 14); rng 35 39 (st 14); rng 42 43 (st 14);
    rng 45 46 (st 14); rng 48 57 (st 14); on 58 htr27; rng 65 90 (st 14); rng 94 122 (st 14); on 124 (st 14);
    on 126 (st 14)];
  mkRow 15 false [rng (-128) (-1) htr28; rng 1 8 htr28; on 9 htr29; on 10 htr30; rng 11 12 htr28; on 13 htr31;
    rng 14 31 htr28; on 32 htr29; rng 33 126 htr28];
  mkRow 16 false [rng (-128) (-1) (st 16); rng 1 9 (st 16); on 10 htr33; rng 11 12 (st 16); on 13 htr34;
    rng 14 126 (st 16)];
  mkRow 17 false [on 10 (st 13)]].

(** @src http/http11_parser.rl.cc:554-682 http_parser_execute *)
Definition hrows_4 : list (row http_action) := [
  mkRow 348 false [rng 1 8 (st 14); rng 10 31 (st 14); on 33 (st 14); rng 35 39 (st 14); rng 42 43 (st 14);
    rng 45 46 (st 14); rng 48 57 (st 14); on 58 htr27; rng 65 90 (st 14); rng 94 122 (st 14); on 124 (st 14);
    on 126 (st 14)];
  mkRow 18 false [rng 1 8 (st 14); on 10 htr36; rng 11 31 (st 14); on 33 (st 14); rng 35 39 (st 14);
    rng 42 43 (st 14); rng 45 46 (st 14); rng 48 57 (st 14); on 58 htr27; rng 65 90 (st 14);
    rng 94 122 (st 14); on 124 (st 14); on 126 (st 14)];
  mkRow 19 true [on 32 htr37; on 33 (st 19); on 35 htr39; on 36 (st 19); on 37 (st 24); rng 38 46 (st 19);
    on 47 (st 26); rng 48 57 (st 19); on 59 (st 19); on 61 (st 19); on 63 htr42; rng 64 90 (st 19);
    on 95 (st 19); rng 97 122 (st 19); on 126 (st 19); on 606 (st 19); on 635 (st 19); on 637 (st 19)]].

(** @src http/http11_parser.rl.cc:735-867 http_parser_execute *)
Definition hrows_5 : list (row http_action) := [
  mkRow 20 true [rng (-128) (-1) htr43; on 32 htr44; on 33 htr43; on 36 htr43; on 37 htr45; rng 38 59 htr43;
    on 61 htr43; rng 63 90 htr43; on 95 htr43; rng 97 122 htr43; on 126 htr43; on 606 htr43; on 635 htr43;
    on 637 htr43];
  mkRow 21 true [rng (-128) (-1) (st 21); on 32 htr47; on 33 (st 21); on 36 (st 21); on 37 (st 22);
    rng 38 59 (st 21); on 61 (st 21); rng 63 90 (st 21); on 95 (st 21); rng 97 122 (st 21); on 126 (st 21);
    on 606 (st 21); on 635 (st 21); on 637 (st 21)];
  mkRow 22 false [rng 48 57 (st 23); rng 65 70 (st 23); rng 97 102 (st 23)];
  mkRow 23 false [rng 48 57 (st 21); rng 65 70 (st 21); rng 97 102 (st 21)]].

(** @src http/http11_parser.rl.cc:872-984 http_parser_execute *)
Definition hrows_6 : list (row http_action) := [
  mkRow 24 false [rng 48 57 (st 25); rng 65 70 (st 25); rng 97 102 (st 25)];
  mkRow 25 false [rng 48 57 (st 19); rng 65 70 (st 19); rng 97 102 (st 19)];
  mkRow 26 true [rng (-128) (-1) (st 26); on 32 htr37; on 33 (st 26); on 35 htr39; on 36 (st 26);
    on 37 (st 27); rng 38 59 (st 26); on 61 (st 26); on 63 htr42; rng 64 90 (st 26); on 95 (st 26);
    rng 97 122 (st 26); on 126 (st 26); on 606 (st 26); on 635 (st 26); on 637 (st 26)];
  mkRow 27 false [rng 48 57 (st 28); rng 65 70 (st 28); rng 97 102 (st 28)];
  mkRow 28 false [rng 48 57 (st 26); rng 65 70 (st 26); rng 97 102 (st 26)]].

(** @src http/http11_parser.rl.cc:1001-1135 http_parser_execute *)
Definition hrows_7 : list (row http_action) := [
  mkRow 29 true [rng (-128) (-1) htr53; on 32 htr54; on 33 htr53; on 35 htr55; on 36 htr53; on 37 htr56;
    rng 38 59 htr53; on 61 htr53; rng 63 90 htr53; on 95 htr53; rng 97 122 htr53; on 126 htr53; on 606 htr53;
    on 635 htr53; on 637 htr53];
  mkRow 30 true [rng (-128) (-1) (st 30); on 32 htr58; on 33 (st 30); on 35 htr59; on 36 (st 30);
    on 37 (st 31); rng 38 59 (st 30); on 61 (st 30); rng 63 90 (st 30); on 95 (st 30); rng 97 122 (st 30);
    on 126 (st 30); on 606 (st 30); on 635 (st 30); on 637 (st 30)];
  mkRow 31 false [rng 48 57 (st 32); rng 65 70 (st 32); rng 97 102 (st 32)];
  mkRow 32 false [rng 48 57 (st 30); rng 65 70 (st 30); rng 97 102 (st 30)]].

(** @src http/http11_parser.rl.cc:1140-1242 http_parser_execute *)
Definition hrows_8 : list (row http_action) := [
  mkRow 33 true [rng (-128) (-1) (st 26); on 32 htr37; on 33 (st 26); on 35 htr39; on 36 (st 26);
    on 37 (st 27); rng 38 46 (st 26); on 47 (st 34); rng 48 59 (st 26); on 61 (st 26); on 63 htr42;
    rng 64 90 (st 26); on 95 (st 26); rng 97 122 (st 26); on 126 (st 26); on 606 (st 26); on 635 (st 26);
    on 637 (st 26)];
  mkRow 34 true [on 32 htr37; on 33 (st 35); on 35 htr39; on 36 (st 35); on 37 (st 36); rng 38 46 (st 35);
    on 47 (st 26); rng 48 57 (st 35); on 58 (st 38); on 59 (st 35); on 61 (st 35); on 63 htr42; on 64 (st 42);
    rng 65 90 (st 35); on 91 (st 47); on 95 (st 35); rng 97 122 (st 35); on 126 (st 35); on 606 (st 35);
    on 635 (st 35); on 637 (st 35)]].

(** @src http/http11_parser.rl.cc:1243-1373 http_parser_execute *)
Definition hrows_9 : list (row http_action) := [
  mkRow 35 true [on 32 htr37; on 33 (st 35); on 35 htr39; on 36 (st 35); on 37 (st 36); rng 38 46 (st 35);
    on 47 (st 26); rng 48 57 (st 35); on 58 (st 38); on 59 (st 35); on 61 (st 35); on 63 htr42; on 64 (st 42);
    rng 65 90 (st 35); on 95 (st 35); rng 97 122 (st 35); on 126 (st 35); on 606 (st 35); on 635 (st 35);
    on 637 (st 35)];
  mkRow 36 false [rng 48 57 (st 37); rng 65 70 (st 37); rng 97 102 (st 37)];
  mkRow 37 false [rng 48 57 (st 35); rng 65 70 (st 35); rng 97 102 (st 35)];
  mkRow 38 true [on 32 htr37; on 33 (st 39); on 35 htr39; on 36 (st 39); on 37 (st 40); rng 38 46 (st 39);
    on 47 (st 26); rng 48 57 (st 38); rng 58 59 (st 39); on 61 (st 39); on 63 htr42; on 64 (st 42);
    rng 65 90 (st 39); on 95 (st 39); rng 97 122 (st 39); on 126 (st 39); on 606 (st 39); on 635 (st 39);
    on 637 (st 39)]].

(** @src http/http11_parser.rl.cc:1374-1497 http_parser_execute *)
Definition hrows_10 : list (row http_action) := [
  mkRow 39 true [on 33 (st 39); on 36 (st 39); on 37 (st 40); rng 38 46 (st 39); rng 48 59 (st 39);
    on 61 (st 39); on 64 (st 42); rng 65 90 (st 39); on 95 (st 39); rng 97 122 (st 39); on 126 (st 39);
    on 606 (st 39); on 635 (st 39); on 637 (st 39)];
  mkRow 40 false [rng 48 57 (st 41); rng 65 70 (st 41); rng 97 102 (st 41)];
  mkRow 41 false [rng 48 57 (st 39); rng 65 70 (st 39); rng 97 102 (st 39)];
  mkRow 42 true [on 32 htr37; on 33 (st 43); on 35 htr39; on 36 (st 43); on 37 (st 44); rng 38 46 (st 43);
    on 47 (st 26); rng 48 57 (st 43); on 58 (st 46); on 59 (st 43); on 61 (st 43); on 63 htr42;
    rng 65 90 (st 43); on 91 (st 47); on 95 (st 43); rng 97 122 (st 43); on 126 (st 43); on 606 (st 43);
    on 635 (st 43); on 637 (st 43)]].

(** @src http/http11_parser.rl.cc:1498-1631 http_parser_execute *)
Definition hrows_11 : list (row http_action) := [
  mkRow 43 true [on 32 htr37; on 33 (st 43); on 35 htr39; on 36 (st 43); on 37 (st 44); rng 38 46 (st 43);
    on 47 (st 26); rng 48 57 (st 43); on 58 (st 46); on 59 (st 43); on 61 (st 43); on 63 htr42;
    rng 65 90 (st 43); on 95 (st 43); rng 97 122 (st 43); on 126 (st 43); on 606 (st 43); on 635 (st 43);
    on 637 (st 43)];
  mkRow 44 false [rng 48 57 (st 45); rng 65 70 (st 45); rng 97 102 (st 45)];
  mkRow 45 false [rng 48 57 (st 43); rng 65 70 (st 43); rng 97 102 (st 43)];
  mkRow 46 false [on 32 htr37; on 35 htr39; on 47 (st 26); rng 48 57 (st 46); on 63 htr42];
  mkRow 47 false [on 6 (st 48); rng 48 57 (st 91); on 58 (st 167); rng 65 70 (st 91); rng 97 102 (st 91);
    on 118 (st 169)];
  mkRow 48 false [rng 48 57 (st 49); rng 65 70 (st 49); rng 97 102 (st 49)];
  mkRow 49 false [rng 48 57 (st 50); on 58 (st 53); rng 65 70 (st 50); rng 97 102 (st 50)]].

(** @src http/http11_parser.rl.cc:1632-1768 http_parser_execute *)
Definition hrows_12 : list (row http_action) := [
  mkRow 50 false [rng 48 57 (st 51); on 58 (st 53); rng 65 70 (st 51); rng 97 102 (st 51)];
  mkRow 51 false [rng 48 57 (st 52); on 58 (st 53); rng 65 70 (st 52); rng 97 102 (st 52)];
  mkRow 52 false [on 58 (st 53)];
  mkRow 53 false [on 48 (st 54); on 49 (st 84); on 50 (st 87); rng 51 57 (st 54); rng 65 70 (st 90);
    rng 97 102 (st 90)];
  mkRow 54 false [on 46 (st 55); rng 48 57 (st 77); on 58 (st 80); rng 65 70 (st 77); rng 97 102 (st 77)];
  mkRow 55 false [on 48 (st 56); on 49 (st 72); on 50 (st 74); rng 51 57 (st 56)];
  mkRow 56 false [on 46 (st 57)];
  mkRow 57 false [on 48 (st 58); on 49 (st 67); on 50 (st 69); rng 51 57 (st 58)];
  mkRow 58 false [on 46 (st 59)];
  mkRow 59 false [on 48 (st 60); on 49 (st 62); on 50 (st 64); rng 51 57 (st 60)];
  mkRow 60 false [on 93 (st 61)];
  mkRow 61 false [on 32 htr37; on 35 htr39; on 47 (st 26); on 58 (st 46); on 63 htr42]].

(** @src http/http11_parser.rl.cc:1769-1909 http_parser_execute *)
Definition hrows_13 : list (row http_action) := [
  mkRow 62 false [rng 48 57 (st 63); on 93 (st 61)];
  mkRow 63 false [rng 48 57 (st 60); on 93 (st 61)];
  mkRow 64 false [on 48 (st 65); on 53 (st 66); on 93 (st 61)];
  mkRow 65 false [rng 48 57 (st 60)];
  mkRow 66 false [on 48 (st 60)];
  mkRow 67 false [on 46 (st 59); rng 48 57 (st 68)];
  mkRow 68 false [on 46 (st 59); rng 48 57 (st 58)];
  mkRow 69 false [on 46 (st 59); on 48 (st 70); on 53 (st 71)];
  mkRow 70 false [rng 48 57 (st 58)];
  mkRow 71 false [on 48 (st 58)];
  mkRow 72 false [on 46 (st 57); rng 48 57 (st 73)];
  mkRow 73 false [on 46 (st 57); rng 48 57 (st 56)];
  mkRow 74 false [on 46 (st 57); on 48 (st 75); on 53 (st 76)];
  mkRow 75 false [rng 48 57 (st 56)];
  mkRow 76 false [on 48 (st 56)];
  mkRow 77 false [rng 48 57 (st 78); on 58 (st 80); rng 65 70 (st 78); rng 97 102 (st 78)]].

(** @src http/http11_parser.rl.cc:1910-2040 http_parser_execute *)
Definition hrows_14 : list (row http_action) := [
  mkRow 78 false [rng 48 57 (st 79); on 58 (st 80); rng 65 70 (st 79); rng 97 102 (st 79)];
  mkRow 79 false [on 58 (st 80)];
  mkRow 80 false [rng 48 57 (st 81); rng 65 70 (st 81); rng 97 102 (st 81)];
  mkRow 81 false [rng 48 57 (st 82); rng 65 70 (st 82); on 93 (st 61); rng 97 102 (st 82)];
  mkRow 82 false [rng 48 57 (st 83); rng 65 70 (st 83); on 93 (st 61); rng 97 102 (st 83)];
  mkRow 83 false [rng 48 57 (st 60); rng 65 70 (st 60); on 93 (st 61); rng 97 102 (st 60)];
  mkRow 84 false [on 46 (st 55); rng 48 57 (st 85); on 58 (st 80); rng 65 70 (st 77); rng 97 102 (st 77)];
  mkRow 85 false [on 46 (st 55); rng 48 57 (st 86); on 58 (st 80); rng 65 70 (st 78); rng 97 102 (st 78)];
  mkRow 86 false [on 46 (st 55); rng 48 57 (st 79); on 58 (st 80); rng 65 70 (st 79); rng 97 102 (st 79)]].

(** @src http/http11_parser.rl.cc:2041-2173 http_parser_execute *)
Definition hrows_15 : list (row http_action) := [
  mkRow 87 false [on 46 (st 55); on 48 (st 88); rng 49 52 (st 77); on 53 (st 89); rng 54 57 (st 77);
    on 58 (st 80); rng 65 70 (st 77); rng 97 102 (st 77)];
  mkRow 88 false [rng 48 57 (st 86); on 58 (st 80); rng 65 70 (st 78); rng 97 102 (st 78)];
  mkRow 89 false [on 48 (st 86); rng 49 57 (st 78); on 58 (st 80); rng 65 70 (st 78); rng 97 102 (st 78)];
  mkRow 90 false [rng 48 57 (st 77); on 58 (st 80); rng 65 70 (st 77); rng 97 102 (st 77)];
  mkRow 91 false [rng 48 57 (st 92); on 58 (st 95); rng 65 70 (st 92); rng 97 102 (st 92)];
  mkRow 92 false [rng 48 57 (st 93); on 58 (st 95); rng 65 70 (st 93); rng 97 102 (st 93)];
  mkRow 93 false [rng 48 57 (st 94); on 58 (st 95); rng 65 70 (st 94); rng 97 102 (st 94)];
  mkRow 94 false [on 58 (st 95)];
  mkRow 95 false [rng 48 57 (st 96); on 58 (st 166); rng 65 70 (st 96); rng 97 102 (st 96)]].

(** @src http/http11_parser.rl.cc:2174-2307 http_parser_execute *)
Definition hrows_16 : list (row http_action) := [
  mkRow 96 false [rng 48 57 (st 97); on 58 (st 100); rng 65 70 (st 97); rng 97 102 (st 97)];
  mkRow 97 false [rng 48 57 (st 98); on 58 (st 100); rng 65 70 (st 98); rng 97 102 (st 98)];
  mkRow 98 false [rng 48 57 (st 99); on 58 (st 100); rng 65 70 (st 99); rng 97 102 (st 99)];
  mkRow 99 false [on 58 (st 100)];
  mkRow 100 false [rng 48 57 (st 101); on 58 (st 165); rng 65 70 (st 101); rng 97 102 (st 101)];
  mkRow 101 false [rng 48 57 (st 102); on 58 (st 105); rng 65 70 (st 102); rng 97 102 (st 102)];
  mkRow 102 false [rng 48 57 (st 103); on 58 (st 105); rng 65 70 (st 103); rng 97 102 (st 103)];
  mkRow 103 false [rng 48 57 (st 104); on 58 (st 105); rng 65 70 (st 104); rng 97 102 (st 104)];
  mkRow 104 false [on 58 (st 105)];
  mkRow 105 false [rng 48 57 (st 106); on 58 (st 164); rng 65 70 (st 106); rng 97 102 (st 106)]].

(** @src http/http11_parser.rl.cc:2308-2441 http_parser_execute *)
Definition hrows_17 : list (row http_action) := [
  mkRow 106 false [rng 48 57 (st 107); on 58 (st 110); rng 65 70 (st 107); rng 97 102 (st 107)];
  mkRow 107 false [rng 48 57 (st 108); on 58 (st 110); rng 65 70 (st 108); rng 97 102 (st 108)];
  mkRow 108 false [rng 48 57 (st 109); on 58 (st 110); rng 65 70 (st 109); rng 97 102 (st 109)];
  mkRow 109 false [on 58 (st 110)];
  mkRow 110 false [rng 48 57 (st 111); on 58 (st 163); rng 65 70 (st 111); rng 97 102 (st 111)];
  mkRow 111 false [rng 48 57 (st 112); on 58 (st 115); rng 65 70 (st 112); rng 97 102 (st 112)];
  mkRow 112 false [rng 48 57 (st 113); on 58 (st 115); rng 65 70 (st 113); rng 97 102 (st 113)];
  mkRow 113 false [rng 48 57 (st 114); on 58 (st 115); rng 65 70 (st 114); rng 97 102 (st 114)];
  mkRow 114 false [on 58 (st 115)];
  mkRow 115 false [rng 48 57 (st 116); on 58 (st 151); rng 65 70 (st 116); rng 97 102 (st 116)]].

(** @src http/http11_parser.rl.cc:2442-2575 http_parser_execute *)
Definition hrows_18 : list (row http_action) := [
  mkRow 116 false [rng 48 57 (st 117); on 58 (st 120); rng 65 70 (st 117); rng 97 102 (st 117)];
  mkRow 117 false [rng 48 57 (st 118); on 58 (st 120); rng 65 70 (st 118); rng 97 102 (st 118)];
  mkRow 118 false [rng 48 57 (st 119); on 58 (st 120); rng 65 70 (st 119); rng 97 102 (st 119)];
  mkRow 119 false [on 58 (st 120)];
  mkRow 120 false [rng 48 57 (st 121); on 58 (st 150); rng 65 70 (st 121); rng 97 102 (st 121)];
  mkRow 121 false [rng 48 57 (st 122); on 58 (st 125); rng 65 70 (st 122); rng 97 102 (st 122)];
  mkRow 122 false [rng 48 57 (st 123); on 58 (st 125); rng 65 70 (st 123); rng 97 102 (st 123)];
  mkRow 123 false [rng 48 57 (st 124); on 58 (st 125); rng 65 70 (st 124); rng 97 102 (st 124)];
  mkRow 124 false [on 58 (st 125)];
  mkRow 125 false [rng 48 57 (st 121); on 58 (st 126); rng 65 70 (st 121); rng 97 102 (st 121)]].

(** @src http/http11_parser.rl.cc:2576-2709 http_parser_execute *)
Definition hrows_19 : list (row http_action) := [
  mkRow 126 false [rng 2 3 (st 48); on 48 (st 127); on 49 (st 143); on 50 (st 146); rng 51 57 (st 127);
    rng 65 70 (st 149); on 93 (st 61); rng 97 102 (st 149)];
  mkRow 127 false [on 46 (st 55); rng 48 57 (st 128); on 58 (st 131); rng 65 70 (st 128); on 93 (st 61);
    rng 97 102 (st 128)];
  mkRow 128 false [rng 48 57 (st 129); on 58 (st 131); rng 65 70 (st 129); on 93 (st 61); rng 97 102 (st 129)];
  mkRow 129 false [rng 48 57 (st 130); on 58 (st 131); rng 65 70 (st 130); on 93 (st 61); rng 97 102 (st 130)];
  mkRow 130 false [on 58 (st 131); on 93 (st 61)];
  mkRow 131 false [on 48 (st 132); on 49 (st 136); on 50 (st 139); rng 51 57 (st 132); rng 65 70 (st 142);
    rng 97 102 (st 142)];
  mkRow 132 false [on 46 (st 55); rng 48 57 (st 133); on 58 (st 80); rng 65 70 (st 133); on 93 (st 61);
    rng 97 102 (st 133)];
  mkRow 133 false [rng 48 57 (st 134); on 58 (st 80); rng 65 70 (st 134); on 93 (st 61); rng 97 102 (st 134)]].

(** @src http/http11_parser.rl.cc:2710-2844 http_parser_execute *)
Definition hrows_20 : list (row http_action) := [
  mkRow 134 false [rng 48 57 (st 135); on 58 (st 80); rng 65 70 (st 135); on 93 (st 61); rng 97 102 (st 135)];
  mkRow 135 false [on 58 (st 80); on 93 (st 61)];
  mkRow 136 false [on 46 (st 55); rng 48 57 (st 137); on 58 (st 80); rng 65 70 (st 133); on 93 (st 61);
    rng 97 102 (st 133)];
  mkRow 137 false [on 46 (st 55); rng 48 57 (st 138); on 58 (st 80); rng 65 70 (st 134); on 93 (st 61);
    rng 97 102 (st 134)];
  mkRow 138 false [on 46 (st 55); rng 48 57 (st 135); on 58 (st 80); rng 65 70 (st 135); on 93 (st 61);
    rng 97 102 (st 135)];
  mkRow 139 false [on 46 (st 55); on 48 (st 140); rng 49 52 (st 133); on 53 (st 141); rng 54 57 (st 133);
    on 58 (st 80); rng 65 70 (st 133); on 93 (st 61); rng 97 102 (st 133)];
  mkRow 140 false [rng 48 57 (st 138); on 58 (st 80); rng 65 70 (st 134); on 93 (st 61); rng 97 102 (st 134)];
  mkRow 141 false [on 48 (st 138); rng 49 57 (st 134); on 58 (st 80); rng 65 70 (st 134); on 93 (st 61);
    rng 97 102 (st 134)]].

(** @src http/http11_parser.rl.cc:2845-2987 http_parser_execute *)
Definition hrows_21 : list (row http_action) := [
  mkRow 142 false [rng 48 57 (st 133); on 58 (st 80); rng 65 70 (st 133); on 93 (st 61); rng 97 102 (st 133)];
  mkRow 143 false [on 46 (st 55); rng 48 57 (st 144); on 58 (st 131); rng 65 70 (st 128); on 93 (st 61);
    rng 97 102 (st 128)];
  mkRow 144 false [on 46 (st 55); rng 48 57 (st 145); on 58 (st 131); rng 65 70 (st 129); on 93 (st 61);
    rng 97 102 (st 129)];
  mkRow 145 false [on 46 (st 55); rng 48 57 (st 130); on 58 (st 131); rng 65 70 (st 130); on 93 (st 61);
    rng 97 102 (st 130)];
  mkRow 146 false [on 46 (st 55); on 48 (st 147); rng 49 52 (st 128); on 53 (st 148); rng 54 57 (st 128);
    on 58 (st 131); rng 65 70 (st 128); on 93 (st 61); rng 97 102 (st 128)];
  mkRow 147 false [rng 48 57 (st 145); on 58 (st 131); rng 65 70 (st 129); on 93 (st 61); rng 97 102 (st 129)];
  mkRow 148 false [on 48 (st 145); rng 49 57 (st 129); on 58 (st 131); rng 65 70 (st 129); on 93 (st 61);
    rng 97 102 (st 129)];
  mkRow 149 false [rng 48 57 (st 128); on 58 (st 131); rng 65 70 (st 128); on 93 (st 61); rng 97 102 (st 128)]].

(** @src http/http11_parser.rl.cc:2988-3132 http_parser_execute *)
Definition hrows_22 : list (row http_action) := [
  mkRow 150 false [rng 2 3 (st 48); on 48 (st 127); on 49 (st 143); on 50 (st 146); rng 51 57 (st 127);
    rng 65 70 (st 149); rng 97 102 (st 149)];
  mkRow 151 false [rng 2 3 (st 48); on 48 (st 152); on 49 (st 156); on 50 (st 159); rng 51 57 (st 152);
    rng 65 70 (st 162); rng 97 102 (st 162)];
  mkRow 152 false [on 46 (st 55); rng 48 57 (st 153); on 58 (st 131); rng 65 70 (st 153); rng 97 102 (st 153)];
  mkRow 153 false [rng 48 57 (st 154); on 58 (st 131); rng 65 70 (st 154); rng 97 102 (st 154)];
  mkRow 154 false [rng 48 57 (st 155); on 58 (st 131); rng 65 70 (st 155); rng 97 102 (st 155)];
  mkRow 155 false [on 58 (st 131)];
  mkRow 156 false [on 46 (st 55); rng 48 57 (st 157); on 58 (st 131); rng 65 70 (st 153); rng 97 102 (st 153)];
  mkRow 157 false [on 46 (st 55); rng 48 57 (st 158); on 58 (st 131); rng 65 70 (st 154); rng 97 102 (st 154)];
  mkRow 158 false [on 46 (st 55); rng 48 57 (st 155); on 58 (st 131); rng 65 70 (st 155); rng 97 102 (st 155)]].

(** @src http/http11_parser.rl.cc:3133-3276 http_parser_execute *)
Definition hrows_23 : list (row http_action) := [
  mkRow 159 false [on 46 (st 55); on 48 (st 160); rng 49 52 (st 153); on 53 (st 161); rng 54 57 (st 153);
    on 58 (st 131); rng 65 70 (st 153); rng 97 102 (st 153)];
  mkRow 160 false [rng 48 57 (st 158); on 58 (st 131); rng 65 70 (st 154); rng 97 102 (st 154)];
  mkRow 161 false [on 48 (st 158); rng 49 57 (st 154); on 58 (st 131); rng 65 70 (st 154); rng 97 102 (st 154)];
  mkRow 162 false [rng 48 57 (st 153); on 58 (st 131); rng 65 70 (st 153); rng 97 102 (st 153)];
  mkRow 163 false [rng 2 3 (st 48); rng 48 57 (st 49); rng 65 70 (st 49); rng 97 102 (st 49)];
  mkRow 164 false [rng 2 3 (st 48)];
  mkRow 165 false [on 3 (st 48)];
  mkRow 166 false [on 4 (st 48)];
  mkRow 167 false [on 58 (st 168)];
  mkRow 168 false [rng 2 5 (st 48); on 48 (st 127); on 49 (st 143); on 50 (st 146); rng 51 57 (st 127);
    rng 65 70 (st 149); on 93 (st 61); rng 97 102 (st 149)];
  mkRow 169 false [rng 48 57 (st 170); rng 65 70 (st 170); rng 97 102 (st 170)]].

(** @src http/http11_parser.rl.cc:3277-3386 http_parser_execute *)
Definition hrows_24 : list (row http_action) := [
  mkRow 170 false [on 46 (st 171); rng 48 57 (st 170); rng 65 70 (st 170); rng 97 102 (st 170)];
  mkRow 171 true [on 33 (st 172); on 36 (st 172); rng 38 46 (st 172); rng 48 59 (st 172); on 61 (st 172);
    rng 65 90 (st 172); on 95 (st 172); rng 97 122 (st 172); on 126 (st 172); on 606 (st 172); on 635 (st 172);
    on 637 (st 172)];
  mkRow 172 true [on 33 (st 172); on 36 (st 172); rng 38 46 (st 172); rng 48 59 (st 172); on 61 (st 172);
    rng 65 90 (st 172); on 93 (st 61); on 95 (st 172); rng 97 122 (st 172); on 126 (st 172); on 606 (st 172);
    on 635 (st 172); on 637 (st 172)]].

(** @src http/http11_parser.rl.cc:3391-3533 http_parser_execute *)
Definition hrows_25 : list (row http_action) := [
  mkRow 173 true [on 32 htr37; on 33 (st 19); on 35 htr39; on 36 (st 19); on 37 (st 24); rng 38 42 (st 19);
    on 43 (st 173); on 44 (st 19); rng 45 46 (st 173); on 47 (st 26); rng 48 57 (st 173); on 58 (st 174);
    on 59 (st 19); on 61 (st 19); on 63 htr42; on 64 (st 19); rng 65 90 (st 173); on 95 (st 19);
    rng 97 122 (st 173); on 126 (st 19); on 606 (st 19); on 635 (st 19); on 637 (st 19)];
  mkRow 174 true [rng (-128) (-1) htr203; on 32 htr6; on 33 htr203; on 35 htr8; on 36 htr203; on 37 htr204;
    rng 38 46 htr203; on 47 htr10; rng 48 59 htr203; on 61 htr203; on 63 htr11; rng 64 90 htr203; on 95 htr203;
    rng 97 122 htr203; on 126 htr203; on 606 htr203; on 635 htr203; on 637 htr203];
  mkRow 175 false [on 32 htr4; rng 48 57 (st 176); rng 65 90 (st 176)];
  mkRow 176 false [on 32 htr4; rng 48 57 (st 177); rng 65 90 (st 177)];
  mkRow 177 false [on 32 htr4; rng 48 57 (st 178); rng 65 90 (st 178)]].

(** @src http/http11_parser.rl.cc:3534-3677 http_parser_execute *)
Definition hrows_26 : list (row http_action) := [
  mkRow 178 false [on 32 htr4; rng 48 57 (st 179); rng 65 90 (st 179)];
  mkRow 179 false [on 32 htr4; rng 48 57 (st 180); rng 65 90 (st 180)];
  mkRow 180 false [on 32 htr4; rng 48 57 (st 181); rng 65 90 (st 181)];
  mkRow 181 false [on 32 htr4; rng 48 57 (st 182); rng 65 90 (st 182)];
  mkRow 182 false [on 32 htr4; rng 48 57 (st 183); rng 65 90 (st 183)];
  mkRow 183 false [on 32 htr4; rng 48 57 (st 184); rng 65 90 (st 184)];
  mkRow 184 false [on 32 htr4; rng 48 57 (st 185); rng 65 90 (st 185)];
  mkRow 185 false [on 32 htr4; rng 48 57 (st 186); rng 65 90 (st 186)];
  mkRow 186 false [on 32 htr4; rng 48 57 (st 187); rng 65 90 (st 187)];
  mkRow 187 false [on 32 htr4; rng 48 57 (st 188); rng 65 90 (st 188)];
  mkRow 188 false [on 32 htr4; rng 48 57 (st 189); rng 65 90 (st 189)];
  mkRow 189 false [on 32 htr4; rng 48 57 (st 190); rng 65 90 (st 190)]].

(** @src http/http11_parser.rl.cc:3678-3786 http_parser_execute *)
Definition hrows_27 : list (row http_action) := [
  mkRow 190 false [on 32 htr4; rng 48 57 (st 191); rng 65 90 (st 191)];
  mkRow 191 false [on 32 htr4; rng 48 57 (st 192); rng 65 90 (st 192)];
  mkRow 192 false [on 32 htr4; rng 48 57 (st 193); rng 65 90 (st 193)];
  mkRow 193 false [on 32 htr4];
  mkRow 194 false [rng 45 46 (st 195); rng 48 57 (st 195); rng 65 90 (st 195); rng 97 122 (st 195)];
  mkRow 195 false [rng 9 13 htr224; on 32 htr224; rng 45 46 (st 195); on 47 htr224; rng 48 57 (st 195);
    on 62 htr224; rng 65 90 (st 195); rng 97 122 (st 195)];
  mkRow 196 false [rng (-128) 61 (st 196); on 62 (st 197); rng 63 127 (st 196)];
  mkRow 197 false [rng (-128) (-1) (st 196); on 0 htr227; rng 1 61 (st 196); on 62 (st 197); rng 63 127 (st 196)]].

(** @src http/http11_parser.rl.cc:3829-3969 http_parser_execute *)
Definition hrows_28 : list (row http_action) := [
  mkRow 349 false [];
  mkRow 198 true [on 32 htr228; on 33 (st 202); on 36 (st 202); on 37 (st 203); rng 38 46 (st 202);
    on 47 (st 208); rng 48 57 (st 202); on 59 (st 202); on 61 (st 202); rng 64 90 (st 202); on 95 (st 202);
    rng 97 122 (st 202); on 126 (st 202); on 606 (st 202); on 635 (st 202); on 637 (st 202)];
  mkRow 199 false [on 123 htr232];
  mkRow 200 false [rng (-128) 124 (st 200); on 125 (st 201); rng 126 127 (st 200)];
  mkRow 201 false [rng (-128) (-1) (st 200); on 0 htr235; rng 1 124 (st 200); on 125 (st 201);
    rng 126 127 (st 200)];
  mkRow 202 true [on 32 htr228; on 33 (st 202); on 36 (st 202); on 37 (st 203); rng 38 46 (st 202);
    on 47 (st 205); rng 48 57 (st 202); on 59 (st 202); on 61 (st 202); rng 64 90 (st 202); on 95 (st 202);
    rng 97 122 (st 202); on 126 (st 202); on 606 (st 202); on 635 (st 202); on 637 (st 202)]].

(** @src http/http11_parser.rl.cc:3970-4069 http_parser_execute *)
Definition hrows_29 : list (row http_action) := [
  mkRow 203 false [rng 48 57 (st 204); rng 65 70 (st 204); rng 97 102 (st 204)];
  mkRow 204 false [rng 48 57 (st 202); rng 65 70 (st 202); rng 97 102 (st 202)];
  mkRow 205 true [rng (-128) (-1) (st 205); on 32 htr228; on 33 (st 205); on 36 (st 205); on 37 (st 206);
    rng 38 59 (st 205); on 61 (st 205); rng 64 90 (st 205); on 95 (st 205); rng 97 122 (st 205);
    on 126 (st 205); on 606 (st 205); on 635 (st 205); on 637 (st 205)];
  mkRow 206 false [rng 48 57 (st 207); rng 65 70 (st 207); rng 97 102 (st 207)];
  mkRow 207 false [rng 48 57 (st 205); rng 65 70 (st 205); rng 97 102 (st 205)]].

(** @src http/http11_parser.rl.cc:4070-4167 http_parser_execute *)
Definition hrows_30 : list (row http_action) := [
  mkRow 208 true [rng (-128) (-1) (st 205); on 32 htr228; on 33 (st 205); on 36 (st 205); on 37 (st 206);
    rng 38 46 (st 205); on 47 (st 209); rng 48 59 (st 205); on 61 (st 205); rng 64 90 (st 205); on 95 (st 205);
    rng 97 122 (st 205); on 126 (st 205); on 606 (st 205); on 635 (st 205); on 637 (st 205)];
  mkRow 209 true [on 32 htr228; on 33 (st 210); on 36 (st 210); on 37 (st 211); rng 38 46 (st 210);
    on 47 (st 205); rng 48 57 (st 210); on 58 (st 213); on 59 (st 210); on 61 (st 210); on 64 (st 217);
    rng 65 90 (st 210); on 91 (st 222); on 95 (st 210); rng 97 122 (st 210); on 126 (st 210); on 606 (st 210);
    on 635 (st 210); on 637 (st 210)]].

(** @src http/http11_parser.rl.cc:4168-4294 http_parser_execute *)
Definition hrows_31 : list (row http_action) := [
  mkRow 210 true [on 32 htr228; on 33 (st 210); on 36 (st 210); on 37 (st 211); rng 38 46 (st 210);
    on 47 (st 205); rng 48 57 (st 210); on 58 (st 213); on 59 (st 210); on 61 (st 210); on 64 (st 217);
    rng 65 90 (st 210); on 95 (st 210); rng 97 122 (st 210); on 126 (st 210); on 606 (st 210); on 635 (st 210);
    on 637 (st 210)];
  mkRow 211 false [rng 48 57 (st 212); rng 65 70 (st 212); rng 97 102 (st 212)];
  mkRow 212 false [rng 48 57 (st 210); rng 65 70 (st 210); rng 97 102 (st 210)];
  mkRow 213 true [on 32 htr228; on 33 (st 214); on 36 (st 214); on 37 (st 215); rng 38 46 (st 214);
    on 47 (st 205); rng 48 57 (st 213); rng 58 59 (st 214); on 61 (st 214); on 64 (st 217); rng 65 90 (st 214);
    on 95 (st 214); rng 97 122 (st 214); on 126 (st 214); on 606 (st 214); on 635 (st 214); on 637 (st 214)]].

(** @src http/http11_parser.rl.cc:4295-4416 http_parser_execute *)
Definition hrows_32 : list (row http_action) := [
  mkRow 214 true [on 33 (st 214); on 36 (st 214); on 37 (st 215); rng 38 46 (st 214); rng 48 59 (st 214);
    on 61 (st 214); on 64 (st 217); rng 65 90 (st 214); on 95 (st 214); rng 97 122 (st 214); on 126 (st 214);
    on 606 (st 214); on 635 (st 214); on 637 (st 214)];
  mkRow 215 false [rng 48 57 (st 216); rng 65 70 (st 216); rng 97 102 (st 216)];
  mkRow 216 false [rng 48 57 (st 214); rng 65 70 (st 214); rng 97 102 (st 214)];
  mkRow 217 true [on 32 htr228; on 33 (st 218); on 36 (st 218); on 37 (st 219); rng 38 46 (st 218);
    on 47 (st 205); rng 48 57 (st 218); on 58 (st 221); on 59 (st 218); on 61 (st 218); rng 65 90 (st 218);
    on 91 (st 222); on 95 (st 218); rng 97 122 (st 218); on 126 (st 218); on 606 (st 218); on 635 (st 218);
    on 637 (st 218)]].

(** @src http/http11_parser.rl.cc:4417-4561 http_parser_execute *)
Definition hrows_33 : list (row http_action) := [
  mkRow 218 true [on 32 htr228; on 33 (st 218); on 36 (st 218); on 37 (st 219); rng 38 46 (st 218);
    on 47 (st 205); rng 48 57 (st 218); on 58 (st 221); on 59 (st 218); on 61 (st 218); rng 65 90 (st 218);
    on 95 (st 218); rng 97 122 (st 218); on 126 (st 218); on 606 (st 218); on 635 (st 218); on 637 (st 218)];
  mkRow 219 false [rng 48 57 (st 220); rng 65 70 (st 220); rng 97 102 (st 220)];
  mkRow 220 false [rng 48 57 (st 218); rng 65 70 (st 218); rng 97 102 (st 218)];
  mkRow 221 false [on 32 htr228; on 47 (st 205); rng 48 57 (st 221)];
  mkRow 222 false [on 6 (st 223); rng 48 57 (st 266); on 58 (st 342); rng 65 70 (st 266); rng 97 102 (st 266);
    on 118 (st 344)];
  mkRow 223 false [rng 48 57 (st 224); rng 65 70 (st 224); rng 97 102 (st 224)];
  mkRow 224 false [rng 48 57 (st 225); on 58 (st 228); rng 65 70 (st 225); rng 97 102 (st 225)];
  mkRow 225 false [rng 48 57 (st 226); on 58 (st 228); rng 65 70 (st 226); rng 97 102 (st 226)]].

(** @src http/http11_parser.rl.cc:4562-4699 http_parser_execute *)
Definition hrows_34 : list (row http_action) := [
  mkRow 226 false [rng 48 57 (st 227); on 58 (st 228); rng 65 70 (st 227); rng 97 102 (st 227)];
  mkRow 227 false [on 58 (st 228)];
  mkRow 228 false [on 48 (st 229); on 49 (st 259); on 50 (st 262); rng 51 57 (st 229); rng 65 70 (st 265);
    rng 97 102 (st 265)];
  mkRow 229 false [on 46 (st 230); rng 48 57 (st 252); on 58 (st 255); rng 65 70 (st 252); rng 97 102 (st 252)];
  mkRow 230 false [on 48 (st 231); on 49 (st 247); on 50 (st 249); rng 51 57 (st 231)];
  mkRow 231 false [on 46 (st 232)];
  mkRow 232 false [on 48 (st 233); on 49 (st 242); on 50 (st 244); rng 51 57 (st 233)];
  mkRow 233 false [on 46 (st 234)];
  mkRow 234 false [on 48 (st 235); on 49 (st 237); on 50 (st 239); rng 51 57 (st 235)];
  mkRow 235 false [on 93 (st 236)];
  mkRow 236 false [on 32 htr228; on 47 (st 205); on 58 (st 221)];
  mkRow 237 false [rng 48 57 (st 238); on 93 (st 236)];
  mkRow 238 false [rng 48 57 (st 235); on 93 (st 236)]].

(** @src http/http11_parser.rl.cc:4700-4844 http_parser_execute *)
Definition hrows_35 : list (row http_action) := [
  mkRow 239 false [on 48 (st 240); on 53 (st 241); on 93 (st 236)];
  mkRow 240 false [rng 48 57 (st 235)];
  mkRow 241 false [on 48 (st 235)];
  mkRow 242 false [on 46 (st 234); rng 48 57 (st 243)];
  mkRow 243 false [on 46 (st 234); rng 48 57 (st 233)];
  mkRow 244 false [on 46 (st 234); on 48 (st 245); on 53 (st 246)];
  mkRow 245 false [rng 48 57 (st 233)];
  mkRow 246 false [on 48 (st 233)];
  mkRow 247 false [on 46 (st 232); rng 48 57 (st 248)];
  mkRow 248 false [on 46 (st 232); rng 48 57 (st 231)];
  mkRow 249 false [on 46 (st 232); on 48 (st 250); on 53 (st 251)];
  mkRow 250 false [rng 48 57 (st 231)];
  mkRow 251 false [on 48 (st 231)];
  mkRow 252 false [rng 48 57 (st 253); on 58 (st 255); rng 65 70 (st 253); rng 97 102 (st 253)];
  mkRow 253 false [rng 48 57 (st 254); on 58 (st 255); rng 65 70 (st 254); rng 97 102 (st 254)];
  mkRow 254 false [on 58 (st 255)]].

(** @src http/http11_parser.rl.cc:4845-4987 http_parser_execute *)
Definition hrows_36 : list (row http_action) := [
  mkRow 255 false [rng 48 57 (st 256); rng 65 70 (st 256); rng 97 102 (st 256)];
  mkRow 256 false [rng 48 57 (st 257); rng 65 70 (st 257); on 93 (st 236); rng 97 102 (st 257)];
  mkRow 257 false [rng 48 57 (st 258); rng 65 70 (st 258); on 93 (st 236); rng 97 102 (st 258)];
  mkRow 258 false [rng 48 57 (st 235); rng 65 70 (st 235); on 93 (st 236); rng 97 102 (st 235)];
  mkRow 259 false [on 46 (st 230); rng 48 57 (st 260); on 58 (st 255); rng 65 70 (st 252); rng 97 102 (st 252)];
  mkRow 260 false [on 46 (st 230); rng 48 57 (st 261); on 58 (st 255); rng 65 70 (st 253); rng 97 102 (st 253)];
  mkRow 261 false [on 46 (st 230); rng 48 57 (st 254); on 58 (st 255); rng 65 70 (st 254); rng 97 102 (st 254)];
  mkRow 262 false [on 46 (st 230); on 48 (st 263); rng 49 52 (st 252); on 53 (st 264); rng 54 57 (st 252);
    on 58 (st 255); rng 65 70 (st 252); rng 97 102 (st 252)];
  mkRow 263 false [rng 48 57 (st 261); on 58 (st 255); rng 65 70 (st 253); rng 97 102 (st 253)]].

(** @src http/http11_parser.rl.cc:4988-5131 http_parser_execute *)
Definition hrows_37 : list (row http_action) := [
  mkRow 264 false [on 48 (st 261); rng 49 57 (st 253); on 58 (st 255); rng 65 70 (st 253); rng 97 102 (st 253)];
  mkRow 265 false [rng 48 57 (st 252); on 58 (st 255); rng 65 70 (st 252); rng 97 102 (st 252)];
  mkRow 266 false [rng 48 57 (st 267); on 58 (st 270); rng 65 70 (st 267); rng 97 102 (st 267)];
  mkRow 267 false [rng 48 57 (st 268); on 58 (st 270); rng 65 70 (st 268); rng 97 102 (st 268)];
  mkRow 268 false [rng 48 57 (st 269); on 58 (st 270); rng 65 70 (st 269); rng 97 102 (st 269)];
  mkRow 269 false [on 58 (st 270)];
  mkRow 270 false [rng 48 57 (st 271); on 58 (st 341); rng 65 70 (st 271); rng 97 102 (st 271)];
  mkRow 271 false [rng 48 57 (st 272); on 58 (st 275); rng 65 70 (st 272); rng 97 102 (st 272)];
  mkRow 272 false [rng 48 57 (st 273); on 58 (st 275); rng 65 70 (st 273); rng 97 102 (st 273)];
  mkRow 273 false [rng 48 57 (st 274); on 58 (st 275); rng 65 70 (st 274); rng 97 102 (st 274)]].

(** @src http/http11_parser.rl.cc:5132-5272 http_parser_execute *)
Definition hrows_38 : list (row http_action) := [
  mkRow 274 false [on 58 (st 275)];
  mkRow 275 false [rng 48 57 (st 276); on 58 (st 340); rng 65 70 (st 276); rng 97 102 (st 276)];
  mkRow 276 false [rng 48 57 (st 277); on 58 (st 280); rng 65 70 (st 277); rng 97 102 (st 277)];
  mkRow 277 false [rng 48 57 (st 278); on 58 (st 280); rng 65 70 (st 278); rng 97 102 (st 278)];
  mkRow 278 false [rng 48 57 (st 279); on 58 (st 280); rng 65 70 (st 279); rng 97 102 (st 279)];
  mkRow 279 false [on 58 (st 280)];
  mkRow 280 false [rng 48 57 (st 281); on 58 (st 339); rng 65 70 (st 281); rng 97 102 (st 281)];
  mkRow 281 false [rng 48 57 (st 282); on 58 (st 285); rng 65 70 (st 282); rng 97 102 (st 282)];
  mkRow 282 false [rng 48 57 (st 283); on 58 (st 285); rng 65 70 (st 283); rng 97 102 (st 283)];
  mkRow 283 false [rng 48 57 (st 284); on 58 (st 285); rng 65 70 (st 284); rng 97 102 (st 284)];
  mkRow 284 false [on 58 (st 285)]].

(** @src http/http11_parser.rl.cc:5273-5406 http_parser_execute *)
Definition hrows_39 : list (row http_action) := [
  mkRow 285 false [rng 48 57 (st 286); on 58 (st 338); rng 65 70 (st 286); rng 97 102 (st 286)];
  mkRow 286 false [rng 48 57 (st 287); on 58 (st 290); rng 65 70 (st 287); rng 97 102 (st 287)];
  mkRow 287 false [rng 48 57 (st 288); on 58 (st 290); rng 65 70 (st 288); rng 97 102 (st 288)];
  mkRow 288 false [rng 48 57 (st 289); on 58 (st 290); rng 65 70 (st 289); rng 97 102 (st 289)];
  mkRow 289 false [on 58 (st 290)];
  mkRow 290 false [rng 48 57 (st 291); on 58 (st 326); rng 65 70 (st 291); rng 97 102 (st 291)];
  mkRow 291 false [rng 48 57 (st 292); on 58 (st 295); rng 65 70 (st 292); rng 97 102 (st 292)];
  mkRow 292 false [rng 48 57 (st 293); on 58 (st 295); rng 65 70 (st 293); rng 97 102 (st 293)];
  mkRow 293 false [rng 48 57 (st 294); on 58 (st 295); rng 65 70 (st 294); rng 97 102 (st 294)];
  mkRow 294 false [on 58 (st 295)]].

(** @src http/http11_parser.rl.cc:5407-5544 http_parser_execute *)
Definition hrows_40 : list (row http_action) := [
  mkRow 295 false [rng 48 57 (st 296); on 58 (st 325); rng 65 70 (st 296); rng 97 102 (st 296)];
  mkRow 296 false [rng 48 57 (st 297); on 58 (st 300); rng 65 70 (st 297); rng 97 102 (st 297)];
  mkRow 297 false [rng 48 57 (st 298); on 58 (st 300); rng 65 70 (st 298); rng 97 102 (st 298)];
  mkRow 298 false [rng 48 57 (st 299); on 58 (st 300); rng 65 70 (st 299); rng 97 102 (st 299)];
  mkRow 299 false [on 58 (st 300)];
  mkRow 300 false [rng 48 57 (st 296); on 58 (st 301); rng 65 70 (st 296); rng 97 102 (st 296)];
  mkRow 301 false [rng 2 3 (st 223); on 48 (st 302); on 49 (st 318); on 50 (st 321); rng 51 57 (st 302);
    rng 65 70 (st 324); on 93 (st 236); rng 97 102 (st 324)];
  mkRow 302 false [on 46 (st 230); rng 48 57 (st 303); on 58 (st 306); rng 65 70 (st 303); on 93 (st 236);
    rng 97 102 (st 303)];
  mkRow 303 false [rng 48 57 (st 304); on 58 (st 306); rng 65 70 (st 304); on 93 (st 236); rng 97 102 (st 304)]].

(** @src http/http11_parser.rl.cc:5545-5684 http_parser_execute *)
Definition hrows_41 : list (row http_action) := [
  mkRow 304 false [rng 48 57 (st 305); on 58 (st 306); rng 65 70 (st 305); on 93 (st 236); rng 97 102 (st 305)];
  mkRow 305 false [on 58 (st 306); on 93 (st 236)];
  mkRow 306 false [on 48 (st 307); on 49 (st 311); on 50 (st 314); rng 51 57 (st 307); rng 65 70 (st 317);
    rng 97 102 (st 317)];
  mkRow 307 false [on 46 (st 230); rng 48 57 (st 308); on 58 (st 255); rng 65 70 (st 308); on 93 (st 236);
    rng 97 102 (st 308)];
  mkRow 308 false [rng 48 57 (st 309); on 58 (st 255); rng 65 70 (st 309); on 93 (st 236); rng 97 102 (st 309)];
  mkRow 309 false [rng 48 57 (st 310); on 58 (st 255); rng 65 70 (st 310); on 93 (st 236); rng 97 102 (st 310)];
  mkRow 310 false [on 58 (st 255); on 93 (st 236)];
  mkRow 311 false [on 46 (st 230); rng 48 57 (st 312); on 58 (st 255); rng 65 70 (st 308); on 93 (st 236);
    rng 97 102 (st 308)];
  mkRow 312 false [on 46 (st 230); rng 48 57 (st 313); on 58 (st 255); rng 65 70 (st 309); on 93 (st 236);
    rng 97 102 (st 309)]].

(** @src http/http11_parser.rl.cc:5685-5828 http_parser_execute *)
Definition hrows_42 : list (row http_action) := [
  mkRow 313 false [on 46 (st 230); rng 48 57 (st 310); on 58 (st 255); rng 65 70 (st 310); on 93 (st 236);
    rng 97 102 (st 310)];
  mkRow 314 false [on 46 (st 230); on 48 (st 315); rng 49 52 (st 308); on 53 (st 316); rng 54 57 (st 308);
    on 58 (st 255); rng 65 70 (st 308); on 93 (st 236); rng 97 102 (st 308)];
  mkRow 315 false [rng 48 57 (st 313); on 58 (st 255); rng 65 70 (st 309); on 93 (st 236); rng 97 102 (st 309)];
  mkRow 316 false [on 48 (st 313); rng 49 57 (st 309); on 58 (st 255); rng 65 70 (st 309); on 93 (st 236);
    rng 97 102 (st 309)];
  mkRow 317 false [rng 48 57 (st 308); on 58 (st 255); rng 65 70 (st 308); on 93 (st 236); rng 97 102 (st 308)];
  mkRow 318 false [on 46 (st 230); rng 48 57 (st 319); on 58 (st 306); rng 65 70 (st 303); on 93 (st 236);
    rng 97 102 (st 303)];
  mkRow 319 false [on 46 (st 230); rng 48 57 (st 320); on 58 (st 306); rng 65 70 (st 304); on 93 (st 236);
    rng 97 102 (st 304)];
  mkRow 320 false [on 46 (st 230); rng 48 57 (st 305); on 58 (st 306); rng 65 70 (st 305); on 93 (st 236);
    rng 97 102 (st 305)]].

(** @src http/http11_parser.rl.cc:5829-5972 http_parser_execute *)
Definition hrows_43 : list (row http_action) := [
  mkRow 321 false [on 46 (st 230); on 48 (st 322); rng 49 52 (st 303); on 53 (st 323); rng 54 57 (st 303);
    on 58 (st 306); rng 65 70 (st 303); on 93 (st 236); rng 97 102 (st 303)];
  mkRow 322 false [rng 48 57 (st 320); on 58 (st 306); rng 65 70 (st 304); on 93 (st 236); rng 97 102 (st 304)];
  mkRow 323 false [on 48 (st 320); rng 49 57 (st 304); on 58 (st 306); rng 65 70 (st 304); on 93 (st 236);
    rng 97 102 (st 304)];
  mkRow 324 false [rng 48 57 (st 303); on 58 (st 306); rng 65 70 (st 303); on 93 (st 236); rng 97 102 (st 303)];
  mkRow 325 false [rng 2 3 (st 223); on 48 (st 302); on 49 (st 318); on 50 (st 321); rng 51 57 (st 302);
    rng 65 70 (st 324); rng 97 102 (st 324)];
  mkRow 326 false [rng 2 3 (st 223); on 48 (st 327); on 49 (st 331); on 50 (st 334); rng 51 57 (st 327);
    rng 65 70 (st 337); rng 97 102 (st 337)];
  mkRow 327 false [on 46 (st 230); rng 48 57 (st 328); on 58 (st 306); rng 65 70 (st 328); rng 97 102 (st 328)];
  mkRow 328 false [rng 48 57 (st 329); on 58 (st 306); rng 65 70 (st 329); rng 97 102 (st 329)]].

(** @src http/http11_parser.rl.cc:5973-6111 http_parser_execute *)
Definition hrows_44 : list (row http_action) := [
  mkRow 329 false [rng 48 57 (st 330); on 58 (st 306); rng 65 70 (st 330); rng 97 102 (st 330)];
  mkRow 330 false [on 58 (st 306)];
  mkRow 331 false [on 46 (st 230); rng 48 57 (st 332); on 58 (st 306); rng 65 70 (st 328); rng 97 102 (st 328)];
  mkRow 332 false [on 46 (st 230); rng 48 57 (st 333); on 58 (st 306); rng 65 70 (st 329); rng 97 102 (st 329)];
  mkRow 333 false [on 46 (st 230); rng 48 57 (st 330); on 58 (st 306); rng 65 70 (st 330); rng 97 102 (st 330)];
  mkRow 334 false [on 46 (st 230); on 48 (st 335); rng 49 52 (st 328); on 53 (st 336); rng 54 57 (st 328);
    on 58 (st 306); rng 65 70 (st 328); rng 97 102 (st 328)];
  mkRow 335 false [rng 48 57 (st 333); on 58 (st 306); rng 65 70 (st 329); rng 97 102 (st 329)];
  mkRow 336 false [on 48 (st 333); rng 49 57 (st 329); on 58 (st 306); rng 65 70 (st 329); rng 97 102 (st 329)];
  mkRow 337 false [rng 48 57 (st 328); on 58 (st 306); rng 65 70 (st 328); rng 97 102 (st 328)]].

(** @src http/http11_parser.rl.cc:6112-6251 http_parser_execute *)
Definition hrows_45 : list (row http_action) := [
  mkRow 338 false [rng 2 3 (st 223); rng 48 57 (st 224); rng 65 70 (st 224); rng 97 102 (st 224)];
  mkRow 339 false [rng 2 3 (st 223)];
  mkRow 340 false [on 3 (st 223)];
  mkRow 341 false [on 4 (st 223)];
  mkRow 342 false [on 58 (st 343)];
  mkRow 343 false [rng 2 5 (st 223); on 48 (st 302); on 49 (st 318); on 50 (st 321); rng 51 57 (st 302);
    rng 65 70 (st 324); on 93 (st 236); rng 97 102 (st 324)];
  mkRow 344 false [rng 48 57 (st 345); rng 65 70 (st 345); rng 97 102 (st 345)];
  mkRow 345 false [on 46 (st 346); rng 48 57 (st 345); rng 65 70 (st 345); rng 97 102 (st 345)];
  mkRow 346 true [on 33 (st 347); on 36 (st 347); rng 38 46 (st 347); rng 48 59 (st 347); on 61 (st 347);
    rng 65 90 (st 347); on 95 (st 347); rng 97 122 (st 347); on 126 (st 347); on 606 (st 347); on 635 (st 347);
    on 637 (st 347)]].

(** @src http/http11_parser.rl.cc:6252-6300 http_parser_execute *)
Definition hrows_46 : list (row http_action) := [
  mkRow 347 true [on 33 (st 347); on 36 (st 347); rng 38 46 (st 347); rng 48 59 (st 347); on 61 (st 347);
    rng 65 90 (st 347); on 93 (st 236); on 95 (st 347); rng 97 122 (st 347); on 126 (st 347); on 606 (st 347);
    on 635 (st 347); on 637 (st 347)]].

(** The whole machine. *)
Definition htable : list (row http_action) := concat [hrows_1; hrows_2; hrows_3; hrows_4; hrows_5; hrows_6;
  hrows_7; hrows_8; hrows_9; hrows_10; hrows_11; hrows_12; hrows_13; hrows_14; hrows_15; hrows_16; hrows_17;
  hrows_18; hrows_19; hrows_20; hrows_21; hrows_22; hrows_23; hrows_24; hrows_25; hrows_26; hrows_27;
  hrows_28; hrows_29; hrows_30; hrows_31; hrows_32; hrows_33; hrows_34; hrows_35; hrows_36; hrows_37;
  hrows_38; hrows_39; hrows_40; hrows_41; hrows_42; hrows_43; hrows_44; hrows_45; hrows_46].
