(* ===== verification/HttpParser.v ===== *)
(** * The HTTP request parser ([http/http11_parser.rl.cc], [http/http_parser.cc])

    The struct [http_parser] with the offsets the machine keeps, the actions of its
    transitions, which call the callbacks of [HttpRequestParser], and the functions
    around the machine.  The buffer does not change while the machine runs.
    [uri_relaxed] is never assigned by the code; it is a field with an arbitrary
    value. *)

From S2P Require Import Prelude Text StringUtil HttpMessage Ragel Http11Table.
From Stdlib Require Import ZArith Lia List String.
From stdpp Require Import base tactics list numbers option.

Open Scope Z_scope.
Open Scope list_scope.

(** ** Data *)

(** @src http/http11_parser.h:6-30 http_parser *)
Record http_parser := mkParser {
  hp_cs : Z;
  hp_body_start : Z;
  hp_content_len : Z;
  hp_nread : Z;
  hp_mark : Z;
  hp_field_start : Z;
  hp_field_len : Z;
  hp_query_start : Z;
  hp_xml_sent : bool;
  hp_json_sent : bool;
  hp_uri_relaxed : bool
}.

(** [HttpRequestParser]: the machine, the request under construction, [m_error]. *)
Record HttpRequestParser := mkReqParser { rp_parser : http_parser; rp_data : HttpRequest; rp_error : Z }.

Definition with_mark h v := mkParser (hp_cs h) (hp_body_start h) (hp_content_len h) (hp_nread h) v (hp_field_start h)
  (hp_field_len h) (hp_query_start h) (hp_xml_sent h) (hp_json_sent h) (hp_uri_relaxed h).
Definition with_field_start h v := mkParser (hp_cs h) (hp_body_start h) (hp_content_len h) (hp_nread h) (hp_mark h) v
  (hp_field_len h) (hp_query_start h) (hp_xml_sent h) (hp_json_sent h) (hp_uri_relaxed h).
Definition with_field_len h v := mkParser (hp_cs h) (hp_body_start h) (hp_content_len h) (hp_nread h) (hp_mark h)
  (hp_field_start h) v (hp_query_start h) (hp_xml_sent h) (hp_json_sent h) (hp_uri_relaxed h).
Definition with_query_start h v := mkParser (hp_cs h) (hp_body_start h) (hp_content_len h) (hp_nread h) (hp_mark h)
  (hp_field_start h) (hp_field_len h) v (hp_xml_sent h) (hp_json_sent h) (hp_uri_relaxed h).
Definition with_body h start len := mkParser (hp_cs h) start len (hp_nread h) (hp_mark h)
  (hp_field_start h) (hp_field_len h) (hp_query_start h) (hp_xml_sent h) (hp_json_sent h) (hp_uri_relaxed h).
Definition with_sent h xml json := mkParser (hp_cs h) (hp_body_start h) (hp_content_len h) (hp_nread h) (hp_mark h)
  (hp_field_start h) (hp_field_len h) (hp_query_start h) xml json (hp_uri_relaxed h).
Definition with_nread h cs nread := mkParser cs (hp_body_start h) (hp_content_len h) nread (hp_mark h)
  (hp_field_start h) (hp_field_len h) (hp_query_start h) (hp_xml_sent h) (hp_json_sent h) (hp_uri_relaxed h).

(** ** Callbacks *)

Definition with_data (s : HttpRequestParser) (d : HttpRequest) : HttpRequestParser := mkReqParser (rp_parser s) d (rp_error s).
Definition with_parser (s : HttpRequestParser) (h : http_parser) : HttpRequestParser := mkReqParser h (rp_data s) (rp_error s).
Definition set_error (s : HttpRequestParser) (e : Z) : HttpRequestParser := mkReqParser (rp_parser s) (rp_data s) e.

(** @src http/http_parser.cc:90-100 on_request_method
    [at] is the buffer from the mark on. *)
Definition on_request_method (s : HttpRequestParser) (at_ : bytes) : HttpRequestParser :=
  let m := CharsToHttpMethod at_ in
  if m =? INVALID_METHOD then set_error s 1000 else with_data s (HttpRequest_setMethod (rp_data s) m).

(** @src http/http_parser.cc:107-111 on_request_fragment *)
Definition on_request_fragment (s : HttpRequestParser) (text : bytes) := with_data s (HttpRequest_setFragment (rp_data s) text).

(** @src http/http_parser.cc:114-117 on_request_path *)
Definition on_request_path (s : HttpRequestParser) (text : bytes) := with_data s (HttpRequest_setPath (rp_data s) text).

(** @src http/http_parser.cc:120-123 on_request_query *)
Definition on_request_query (s : HttpRequestParser) (text : bytes) := with_data s (HttpRequest_setQuery (rp_data s) text).

(** [strncmp(at, v, length) == 0] for a text of [length] characters, none of them NUL. *)
Definition strn_same (text v : bytes) : bool := bool_decide (text = take (length text) v).

(** @src http/http_parser.cc:126-140 on_request_version *)
Definition on_request_version (s : HttpRequestParser) (text : bytes) : HttpRequestParser :=
  if strn_same text (str "HTTP/1.1") then with_data s (HttpRequest_setVersion (rp_data s) 0x11)
  else if strn_same text (str "HTTP/1.0") then with_data s (HttpRequest_setVersion (rp_data s) 0x10)
  else set_error s 1001.

(** @src http/http_parser.cc:147-155 on_request_http_field *)
Definition on_request_http_field (s : HttpRequestParser) (field value : bytes) : HttpRequestParser :=
  match field with [] => s | _ => with_data s (HttpRequest_setHeader (rp_data s) field value) end.

(** ** Actions *)

#[export] Instance http_action_eq_dec : EqDecision http_action.
Proof. solve_decision. Defined.

(** [std::string(PTR_TO(f), LEN(f, p))]: with [p] before the offset the length is a
    huge [size_t] and the constructor throws [std::length_error], a [logic_error]. *)
Definition text_of (buffer : bytes) (from p : Z) : outcome bytes :=
  if p <? from then Throw logic_error else Ok (substr buffer (Z.to_nat from) (Z.to_nat (p - from))).

(** @src http/http11_parser.rl.cc:206-261 http_parser_execute
    The code of the actions; each occurs in the transitions that use it. *)
Definition http_act (buffer : bytes) (a : http_action) (p : Z) (s : HttpRequestParser) : outcome (HttpRequestParser * bool) :=
  let h := rp_parser s in
  let go s := Ok (s, false) in
  match a with
  | a_mark | a_start_value => go (with_parser s (with_mark h p))
  | a_start_field => go (with_parser s (with_field_start h p))
  | a_write_field => go (with_parser s (with_field_len h (p - hp_field_start h)))
  | a_write_value =>
    let! value := text_of buffer (hp_mark h) p in
    go (on_request_http_field s (substr buffer (Z.to_nat (hp_field_start h)) (Z.to_nat (hp_field_len h))) value)
  | a_request_method => go (on_request_method s (drop (Z.to_nat (hp_mark h)) buffer))
  | a_request_uri => go s
  | a_fragment => let! t := text_of buffer (hp_mark h) p in go (on_request_fragment s t)
  | a_start_query => go (with_parser s (with_query_start h p))
  | a_query_string => let! t := text_of buffer (hp_query_start h) p in go (on_request_query s t)
  | a_http_version => let! t := text_of buffer (hp_mark h) p in go (on_request_version s t)
  | a_request_path => let! t := text_of buffer (hp_mark h) p in go (on_request_path s t)
  | a_done =>
    if hp_xml_sent h || hp_json_sent h
    then Ok (with_parser s (with_body h (hp_mark h) (i32 (p - hp_mark h + 1))), true)
    else Ok (with_parser s (with_body h (p + 1) (hp_content_len h)), true)
  | a_xml => go (with_parser s (with_sent h true (hp_json_sent h)))
  | a_json => go (with_parser s (with_sent h (hp_xml_sent h) true))
  end.

(** ** The functions around the machine *)

(** @src http/http11_parser.rl.cc:58-62 http_parser_start, http_parser_first_final, http_parser_error *)
Definition http_parser_start : Z := 1.
Definition http_parser_first_final : Z := 348.
Definition http_parser_error : Z := 0.

(** @src http/http11_parser.rl.cc:67-87 http_parser_init
    [query_start] and [uri_relaxed] keep whatever value they had. *)
Definition http_parser_init (h : http_parser) : http_parser :=
  mkParser http_parser_start 0 0 0 0 0 0 (hp_query_start h) false false (hp_uri_relaxed h).

(** @src http/http11_parser.rl.cc:6684-6686 http_parser_has_error *)
Definition http_parser_has_error (h : http_parser) : bool := hp_cs h =? http_parser_error.

(** @src http/http11_parser.rl.cc:6688-6690 http_parser_is_finished *)
Definition http_parser_is_finished (h : http_parser) : bool := http_parser_first_final <=? hp_cs h.

(** @src http/http11_parser.rl.cc:6673-6682 http_parser_finish *)
Definition http_parser_finish (h : http_parser) : Z :=
  if http_parser_has_error h then -1 else if http_parser_is_finished h then 1 else 0.

Definition reset_offsets (h : http_parser) : http_parser :=
  mkParser (hp_cs h) (hp_body_start h) (hp_content_len h) 0 0 0 0 (hp_query_start h) (hp_xml_sent h) (hp_json_sent h) (hp_uri_relaxed h).

(** @src http/http11_parser.rl.cc:91-109 http_parser_execute
    The number of bytes parsed.  The machine runs from offset 0, as
    [HttpRequestParser::execute] calls it; the assertions at the end are those of lines
    6656-6670. *)
Definition http_parser_execute (s : HttpRequestParser) (buffer : bytes) : outcome (Z * HttpRequestParser) :=
  let len := Z.of_nat (length buffer) in
  if len =? 0 then Ok (0, s) else
  let h0 := reset_offsets (rp_parser s) in
  let! (cs, p, s) := run_machine (http_act buffer) htable (hp_uri_relaxed h0) (hp_cs h0) 0 buffer (with_parser s h0) in
  let h := rp_parser s in
  let h := with_nread h (if http_parser_has_error h then hp_cs h else cs) p in
  assertb (p <=? len) (
  assertb (hp_body_start h <=? len) (
  assertb (hp_mark h <? len) (
  assertb (hp_field_len h <=? len) (
  assertb (hp_field_start h <? len) (Ok (hp_nread h, with_parser s h)))))).

(** @src http/http_parser.cc:161-175 HttpRequestParser::HttpRequestParser
    [h] is the memory of the member [m_parser]. *)
Definition HttpRequestParser_new (h : http_parser) : HttpRequestParser :=
  mkReqParser (http_parser_init h) (HttpRequest_new 0x11 true) 0.

(** @src http/http_parser.cc:188-194 HttpRequestParser::execute
    The number of bytes parsed, and the buffer's content, from which they are gone. *)
Definition HttpRequestParser_execute (s : HttpRequestParser) (data : bytes) : outcome (Z * bytes * HttpRequestParser) :=
  let! (offset, s) := http_parser_execute s data in
  Ok (offset, drop (Z.to_nat offset) data, s).

(** @src http/http_parser.cc:196-198 HttpRequestParser::isFinished *)
Definition HttpRequestParser_isFinished (s : HttpRequestParser) : bool := negb (http_parser_finish (rp_parser s) =? 0).

(** @src http/http_parser.cc:200-202 HttpRequestParser::hasError *)
Definition HttpRequestParser_hasError (s : HttpRequestParser) : bool :=
  negb (rp_error s =? 0) || http_parser_has_error (rp_parser s).

(** @src http/http_parser.cc:177-179 HttpRequestParser::getContentLength *)
Definition HttpRequestParser_getContentLength (lexical_cast : bytes -> option Z) (s : HttpRequestParser) : Z :=
  getAs lexical_cast (q_headers (rp_data s)) (str "content-length") 0.

(** ** The parser on any input *)

(** The states after the start of the query, in which its end can come. *)
Definition in_query (cs : Z) : bool := (cs =? 30) || (cs =? 31) || (cs =? 32).

(** Actions use the start of the query only when it is set; whether it is set after
    them. *)
Fixpoint query_ok (set : bool) (acts : list http_action) : option bool :=
  match acts with
  | [] => Some set
  | a_start_query :: acts => query_ok true acts
  | a_query_string :: acts => if set then query_ok set acts else None
  | _ :: acts => query_ok set acts
  end.

Definition query_move_ok (cs : Z) (m : move http_action) : bool :=
  match query_ok (in_query cs) (fst m) with Some set => implb (in_query (snd m)) set | None => false end.

Lemma query_table_ok : forallb (fun r => forallb (fun e => query_move_ok (r_state r) (snd e)) (r_moves r)) htable = true.
Proof. vm_compute. reflexivity. Qed.

Lemma query_move relaxed cs c acts target :
  next_move htable relaxed cs c = (acts, target) ->
  exists set, query_ok (in_query cs) acts = Some set /\ implb (in_query target) set = true.
Proof.
  intros E. assert (query_move_ok cs (acts, target) = true) as H.
  { eapply table_check; [exact query_table_ok| |exact E]. unfold query_move_ok. cbn. done. }
  unfold query_move_ok in H. cbn [fst snd] in H. destruct (query_ok _ _) as [set|]; [eauto|done].
Qed.

(** The offsets are within what was read; [set] says that the query's start is one of
    them.  The start of the body may still be [B], the one of an earlier request. *)
Definition offsets_ok (L B : Z) (set : bool) (p : Z) (s : HttpRequestParser) : Prop :=
  let h := rp_parser s in
  0 <= p /\ 0 <= hp_mark h <= p /\ hp_mark h < L /\ 0 <= hp_field_start h <= p /\ hp_field_start h < L /\
  0 <= hp_field_len h <= p /\ (hp_body_start h <= L \/ hp_body_start h = B) /\ (set = true -> 0 <= hp_query_start h <= p).

Ltac offsets := unfold offsets_ok in *; cbn in *; split_and!; try lia; naive_solver lia.

(** A single action. *)
Lemma http_act_ok L B buffer a p set s :
  p < L -> offsets_ok L B set p s -> (a = a_query_string -> set = true) ->
  exists s' brk, http_act buffer a p s = Ok (s', brk) /\ hp_cs (rp_parser s') = hp_cs (rp_parser s) /\
    (brk = true -> a = a_done) /\ offsets_ok L B (set || bool_decide (a = a_start_query)) p s'.
Proof.
  intros Hp Hs Hq. assert (forall from, 0 <= from <= p -> text_of buffer from p = Ok (substr buffer (Z.to_nat from) (Z.to_nat (p - from)))) as Ht.
  { intros from ?. unfold text_of. by rewrite (proj2 (Z.ltb_ge _ _)) by lia. }
  destruct a; cbn [http_act]; rewrite ?Ht by (unfold offsets_ok in Hs; naive_solver lia); cbn [obind].
  all: rewrite ?orb_false_r; try case_match.
  all: eexists _, _; split; [reflexivity|]; (split; [unfold on_request_method, on_request_version, on_request_http_field; by repeat case_match|]).
  all: split; [done|].
  all: unfold on_request_method, on_request_version, on_request_http_field; repeat case_match; offsets.
Qed.

Lemma run_actions_ok L B buffer p : p < L -> forall acts set set' s,
  offsets_ok L B set p s -> query_ok set acts = Some set' ->
  exists s' brk, run_actions (http_act buffer) acts p s = Ok (s', brk) /\ hp_cs (rp_parser s') = hp_cs (rp_parser s) /\
    (if brk : bool then In a_done acts /\ exists set, offsets_ok L B set p s' else offsets_ok L B set' p s').
Proof.
  intros Hp. induction acts as [|a acts IH]; intros set set' s Hs Hq.
  { cbn in Hq. simplify_eq. exists s, false. cbn. auto. }
  destruct (http_act_ok L B buffer a p set s Hp Hs) as (s1 & brk & E & Hc & Hb & H1).
  { intros ->. cbn in Hq. by destruct set. }
  cbn [run_actions]. rewrite E. cbn [obind]. destruct brk.
  { exists s1, true. rewrite (Hb eq_refl). split_and!; [done|done|by left|eauto]. }
  destruct (IH (set || bool_decide (a = a_start_query)) set' s1 H1) as (s2 & brk & E2 & Hc2 & H2).
  { destruct a; cbn [query_ok] in Hq; rewrite ?orb_false_r, ?orb_true_r; try done. by destruct set. }
  exists s2, brk. split_and!; [done|congruence|]. destruct brk; [|done]. destruct H2; split; [by right|done].
Qed.

(** The transitions that finish lead to the final states. *)
Lemma done_final relaxed cs c acts target :
  next_move htable relaxed cs c = (acts, target) -> In a_done acts -> http_parser_first_final <= target.
Proof.
  intros E Hin. apply Z.leb_le.
  assert ((if bool_decide (a_done ∈ acts) then http_parser_first_final <=? target else true) = true) as H.
  { refine (table_check (fun _ m => if bool_decide (a_done ∈ fst m) then http_parser_first_final <=? snd m else true)
      htable relaxed cs c acts target _ _ E); [vm_compute; reflexivity|done]. }
  rewrite bool_decide_true in H; [done|]. by apply list_elem_of_In.
Qed.

(** What [http_parser_execute] comes to, from a state outside a query. *)
Lemma http_parser_execute_any (s : HttpRequestParser) (buffer : bytes) :
  in_query (hp_cs (rp_parser s)) = false ->
  match http_parser_execute s buffer with
  | Ok (n, s') => 0 <= n <= Z.of_nat (length buffer) /\
      (n = Z.of_nat (length buffer) \/ http_parser_has_error (rp_parser s') = true \/ http_parser_is_finished (rp_parser s') = true)
  | AssertFail => Z.of_nat (length buffer) < hp_body_start (rp_parser s)
  | _ => False
  end.
Proof.
  intros Hq. unfold http_parser_execute. destruct (Z.eqb_spec (Z.of_nat (length buffer)) 0) as [E0|Hne].
  { split; [lia|left; lia]. }
  set (B := hp_body_start (rp_parser s)). set (L := Z.of_nat (length buffer)) in *. set (h0 := reset_offsets (rp_parser s)).
  destruct (run_machine_inv (http_act buffer) htable (hp_uri_relaxed h0) L
    (fun cs p s1 => offsets_ok L B (in_query cs) p s1 /\ hp_cs (rp_parser s1) = hp_cs h0)
    (fun cs p s1 => (exists set q, p <= q + 1 /\ q < L /\ offsets_ok L B set q s1) /\ hp_cs (rp_parser s1) = hp_cs h0 /\
       (cs = 0 \/ http_parser_first_final <= cs)))
    with (input := buffer) (cs := hp_cs h0) (p := 0) (s := with_parser s h0) as (cs & p & s1 & -> & Hp & H).
  - intros cs p c s1 acts target [Ho Hc] Hp Em. destruct (query_move _ _ _ _ _ Em) as (set & Hqo & Hi).
    destruct (run_actions_ok L B buffer p Hp acts (in_query cs) set s1 Ho Hqo) as (s2 & brk & E & Hc2 & H2).
    exists s2, brk. split; [done|]. destruct brk.
    + destruct H2 as [Hd (q & Hof)]. split_and!; [exists q, p; split_and!; [lia|done|done]|congruence|right; by eapply done_final].
    + destruct (target =? 0); [split_and!; [exists set, p; split_and!; [lia|done|done]|congruence|by left]|].
      split; [|congruence]. destruct (in_query target); [destruct set; [|done]|]; offsets.
  - split; [|done]. cbn. rewrite Hq. offsets.
  - done.
  - cbn [obind]. assert (exists set q, offsets_ok L B set q s1 /\ q <= L) as (set & q & Ho & Hq').
    { destruct H as [(-> & Ho & _)|((set & q & ? & ? & Ho) & _)]; [eauto with lia|eexists _, q; split; [exact Ho|lia]]. }
    unfold offsets_ok in Ho. cbn [hp_body_start hp_mark hp_field_len hp_field_start with_nread hp_nread].
    rewrite (proj2 (Z.leb_le p L)) by lia. cbn [assertb].
    destruct (Z.leb_spec (hp_body_start (rp_parser s1)) L) as [Hb|Hb]; cbn [assertb]; [|lia].
    rewrite (proj2 (Z.ltb_lt (hp_mark _) L)),
      (proj2 (Z.leb_le (hp_field_len _) L)), (proj2 (Z.ltb_lt (hp_field_start _) L)) by lia. cbn [assertb].
    split; [lia|]. destruct H as [[-> _]|(_ & Hc & Hf)]; [by left|right].
    unfold http_parser_has_error, http_parser_is_finished. cbn. rewrite Hc. destruct (Z.eqb_spec (hp_cs h0) http_parser_error) as [E|E].
    + left. by rewrite E.
    + destruct Hf as [->|Hf]; [by left|right]. by apply Z.leb_le.
Qed.

Lemma http_parser_execute_ok (s : HttpRequestParser) (buffer : bytes) :
  in_query (hp_cs (rp_parser s)) = false -> 0 <= hp_body_start (rp_parser s) <= Z.of_nat (length buffer) ->
  exists n s', http_parser_execute s buffer = Ok (n, s') /\ 0 <= n <= Z.of_nat (length buffer) /\
    (n = Z.of_nat (length buffer) \/ http_parser_has_error (rp_parser s') = true \/ http_parser_is_finished (rp_parser s') = true).
Proof.
  intros Hq Hb. pose proof (http_parser_execute_any s buffer Hq) as H.
  destruct (http_parser_execute s buffer) as [[n s']| | | |]; [by exists n, s'|done|lia|done|done].
Qed.

(** C26: the parser on every input: [http_parser_execute] on any buffer, from any state
    outside a query, throws nothing and comes to an end.  It returns, having parsed the
    whole buffer unless it found an error or the end of the header, or the assertion on
    the start of the body fails; the latter only if the buffer is shorter than the start
    of the body of the request that this parser has finished before, so never on a
    new parser.  ([execute_after_request_aborts]: it does fail.) *)
Theorem http_parser_execute_safe (s : HttpRequestParser) (buffer : bytes) :
  in_query (hp_cs (rp_parser s)) = false ->
  match http_parser_execute s buffer with
  | Ok (n, s') => 0 <= n <= Z.of_nat (length buffer) /\
      (n = Z.of_nat (length buffer) \/ http_parser_has_error (rp_parser s') = true \/ http_parser_is_finished (rp_parser s') = true)
  | AssertFail => Z.of_nat (length buffer) < hp_body_start (rp_parser s)
  | _ => False
  end.
Proof. exact (http_parser_execute_any s buffer). Qed.

Lemma http_parser_execute_safe_witness :
  let s := HttpRequestParser_new (mkParser 0 0 0 0 0 0 0 9 true true false) in
  match http_parser_execute s (str "GET /x?a HTTP/1") with
  | Ok (n, s') => 0 <= n <= 15 /\
      (n = 15 \/ http_parser_has_error (rp_parser s') = true \/ http_parser_is_finished (rp_parser s') = true)
  | AssertFail => 15 < 0
  | _ => False
  end.
Proof.
  exact (http_parser_execute_safe (HttpRequestParser_new (mkParser 0 0 0 0 0 0 0 9 true true false)) (str "GET /x?a HTTP/1") eq_refl).
Defined.

(** A parser that has finished a request is not ready for another one. *)
Lemma execute_after_request_aborts :
  exists n s', http_parser_execute (HttpRequestParser_new (mkParser 0 0 0 0 0 0 0 9 true true false)) (str "GET / HTTP/1.1" ++ crlf ++ crlf) = Ok (n, s') /\
    http_parser_is_finished (rp_parser s') = true /\ http_parser_execute s' (str "GET") = AssertFail.
Proof. eexists _, _. split; [vm_compute; reflexivity|]. split; vm_compute; reflexivity. Qed.
