(* ===== verification/HttpWire.v ===== *)
(** * Printed requests and the request parser

    What [HttpRequest::dump] writes is followed through the machine of
    [http11_parser.rl.cc], piece by piece, for every request whose parts consist of the
    characters the grammar allows there. *)

From S2P Require Import Prelude Text StringUtil HttpMessage Ragel RagelFlow Http11Table HttpParser.
From Stdlib Require Import ZArith Lia List String.
From stdpp Require Import base tactics list numbers option.

Open Scope Z_scope.
Open Scope list_scope.

(** ** Characters *)

Definition in_range (lo hi c : Z) : bool := (lo <=? c) && (c <=? hi).
Definition is_alnum (c : Z) : bool := is_digit c || in_range 65 90 c || in_range 97 122 c.

(** Characters of a path, a query or a fragment that stand for themselves; [more] are
    those allowed in addition. *)
Definition uri_char (more : bytes) (c : Z) : bool :=
  is_alnum c || in_range 128 255 c || bool_decide (c ∈ str "-._~!$&'()*+,;=:@" ++ more).

(** Such characters and escapes of two hexadecimal digits. *)
Fixpoint uri_text (more : bytes) (s : bytes) : bool :=
  match s with
  | [] => true
  | 37 :: h :: l :: s => isxdigit h && isxdigit l && uri_text more s
  | c :: s => uri_char more c && uri_text more s
  end.

Definition path_more : bytes := str "/".
Definition query_more : bytes := str "/?".

(** Header names: characters other than separators, controls and bytes above 127. *)
Definition token_char (c : Z) : bool :=
  is_alnum c || bool_decide (c ∈ str "!#$%&'*+-.^_`|~").

(** Header values: no NUL, line end or DEL. *)
Definition value_char (c : Z) : bool := in_range 1 255 c && negb (bool_decide (c ∈ [10; 13; 127])).

Definition value_ok (v : bytes) : bool :=
  forallb value_char v && match v with c :: _ => negb (bool_decide (c ∈ [32; 9])) | [] => true end.

Definition field_ok (p : bytes * bytes) : bool :=
  match p.1 with [] => false | _ => forallb token_char p.1 end && value_ok p.2.

(** A request whose printed form is within the grammar: an absolute path that does not
    begin with two slashes, and a method other than [M-SEARCH]. *)
Definition request_ok (r : HttpRequest) : bool :=
  in_range 0 33 (q_method r) && negb (q_method r =? 24) &&
  ((q_version r =? 0x11) || (q_version r =? 0x10)) &&
  match q_path r with
  | 47 :: path => uri_text path_more path && match path with 47 :: _ => false | _ => true end
  | _ => false
  end &&
  uri_text query_more (q_query r) && uri_text query_more (q_fragment r) && forallb field_ok (q_headers r).

(** ** Walking over characters without actions *)

Abbreviation walk := (silent_walk htable).

Definition moves_to (relaxed : bool) (cs : Z) (acts : list http_action) (target c : Z) : bool :=
  bool_decide (next_move htable relaxed cs c = (acts, target)).

Lemma uri_char_byte more c : Forall is_byte more -> uri_char more c = true -> 0 <= c < 256.
Proof.
  intros Hm. unfold uri_char, is_alnum, is_digit, in_range.
  rewrite !orb_true_iff, !andb_true_iff, !Z.leb_le, bool_decide_eq_true.
  intros [[[[?|?]|?]|?]|H]; try lia. apply elem_of_app in H as [H|H].
  - assert (Forall is_byte (str "-._~!$&'()*+,;=:@")) as Hs by (by repeat constructor).
    apply list_elem_of_In in H. rewrite Forall_forall in Hs. by apply Hs.
  - apply list_elem_of_In in H. rewrite Forall_forall in Hm. by apply Hm.
Qed.

(** The states that read the text of a path, query or fragment: on a plain character
    the machine stays, on an escape it goes through two more states. *)
Definition text_state (relaxed : bool) (more : bytes) (cs e1 e2 : Z) : bool :=
  forallb (fun c => implb (uri_char more c) (moves_to relaxed cs [] cs c)) (map Z.of_nat (seq 0 256)) &&
  moves_to relaxed cs [] e1 37 &&
  forallb (fun c => implb (isxdigit c) (moves_to relaxed e1 [] e2 c && moves_to relaxed e2 [] cs c)) (map Z.of_nat (seq 0 256)).

(** The state before its first character, where a character of [f] has the actions
    [acts]. *)
Definition first_state (relaxed : bool) (f : Z -> bool) (cs0 : Z) (acts : list http_action) (cs e1 : Z) : bool :=
  forallb (fun c => implb (f c) (moves_to relaxed cs0 acts cs c)) (map Z.of_nat (seq 0 256)) &&
  moves_to relaxed cs0 acts e1 37.

Lemma uri_text_cons more c w :
  uri_text more (c :: w) = true ->
  (uri_char more c = true /\ uri_text more w = true) \/
  (c = 37 /\ exists h l w', w = h :: l :: w' /\ isxdigit h = true /\ isxdigit l = true /\ uri_text more w' = true).
Proof.
  intros Hw. destruct (Z.eq_dec c 37) as [->|Hc].
  - destruct w as [|h [|l w]]; cbn [uri_text] in Hw; rewrite !andb_true_iff in Hw; [by left..|right].
    split; [done|]. exists h, l, w. naive_solver.
  - left. apply andb_true_iff. cbn [uri_text] in Hw. destruct c as [|c|c]; try exact Hw. by do 6 (destruct c; try exact Hw).
Qed.

Section text.
Context (relaxed : bool) (more : bytes) (cs e1 e2 : Z).
Hypotheses (Hst : text_state relaxed more cs e1 e2 = true) (Hm : Forall is_byte more).
Hypotheses (H0 : cs <> 0) (H1 : e1 <> 0) (H2 : e2 <> 0).

Lemma isxdigit_byte x : isxdigit x = true -> 0 <= x < 256.
Proof. unfold isxdigit. cbn. rewrite !orb_true_iff, !andb_true_iff, !Z.leb_le. lia. Qed.

Lemma walk_escape h l w :
  isxdigit h = true -> isxdigit l = true -> walk relaxed e1 (h :: l :: w) = walk relaxed cs w.
Proof.
  intros Hh Hl. unfold text_state in Hst. rewrite !andb_true_iff in Hst. destruct Hst as [_ Hhex].
  pose proof (byte_check _ Hhex h (isxdigit_byte _ Hh)) as Eh. pose proof (byte_check _ Hhex l (isxdigit_byte _ Hl)) as El.
  cbn beta in Eh, El. rewrite Hh in Eh. rewrite Hl in El. cbn [implb] in Eh, El.
  apply andb_true_iff in Eh as [Eh _], El as [_ El]. apply bool_decide_eq_true in Eh, El. cbn [silent_walk].
  by rewrite Eh, (proj2 (Z.eqb_neq e2 0) H2), El, (proj2 (Z.eqb_neq cs 0) H0).
Qed.

Lemma walk_uri_text w : uri_text more w = true -> walk relaxed cs w = Some cs.
Proof.
  remember (length w) as n eqn:En. revert w En. induction n as [n IH] using lt_wf_ind. intros [|c w] -> Hw; [done|].
  pose proof Hst as Hst'. unfold text_state in Hst'. rewrite !andb_true_iff in Hst'. destruct Hst' as [[Hchar Hpct] _].
  destruct (uri_text_cons _ _ _ Hw) as [[Hc Hw']|(-> & h & l & w' & -> & Hh & Hl & Hw')]; cbn [silent_walk].
  - pose proof (byte_check _ Hchar c (uri_char_byte more c Hm Hc)) as E. cbn beta in E. rewrite Hc in E.
    apply bool_decide_eq_true in E. rewrite E, (proj2 (Z.eqb_neq cs 0) H0). by apply (IH (length w)); [cbn; lia| |].
  - apply bool_decide_eq_true in Hpct. rewrite Hpct, (proj2 (Z.eqb_neq e1 0) H1).
    change (walk relaxed e1 (h :: l :: w') = Some cs). rewrite walk_escape by done.
    by apply (IH (length w')); [cbn; lia| |].
Qed.

(** From the state before the text: the first character runs [acts]. *)
Lemma walk_first f cs0 acts c w :
  first_state relaxed f cs0 acts cs e1 = true -> (uri_char more c = true -> f c = true) -> uri_text more (c :: w) = true ->
  exists t, next_move htable relaxed cs0 c = (acts, t) /\ t <> 0 /\ walk relaxed t w = Some cs.
Proof.
  intros Hf Hfc Hw. unfold first_state in Hf. rewrite andb_true_iff in Hf. destruct Hf as [Hchar Hpct].
  destruct (uri_text_cons _ _ _ Hw) as [[Hc Hw']|(-> & h & l & w' & -> & Hh & Hl & Hw')].
  - pose proof (byte_check _ Hchar c (uri_char_byte more c Hm Hc)) as E. cbn beta in E. rewrite (Hfc Hc) in E.
    apply bool_decide_eq_true in E. exists cs. split_and!; [done|done|by apply walk_uri_text].
  - apply bool_decide_eq_true in Hpct. exists e1. split_and!; [done|done|]. rewrite walk_escape by done. by apply walk_uri_text.
Qed.

End text.

Lemma path_more_bytes : Forall is_byte path_more.
Proof. repeat constructor; cbv; discriminate. Qed.

Lemma query_more_bytes : Forall is_byte query_more.
Proof. repeat constructor; cbv; discriminate. Qed.

(** The states of the path, the query and the fragment. *)
Lemma path_state relaxed : text_state relaxed path_more 26 27 28 = true.
Proof. destruct relaxed; vm_compute; reflexivity. Qed.

Lemma query_state relaxed : text_state relaxed query_more 30 31 32 = true.
Proof. destruct relaxed; vm_compute; reflexivity. Qed.

Lemma fragment_state relaxed : text_state relaxed query_more 21 22 23 = true.
Proof. destruct relaxed; vm_compute; reflexivity. Qed.

Lemma path_first relaxed :
  first_state relaxed (fun c => uri_char path_more c && negb (c =? 47)) 33 [] 26 27 = true.
Proof. destruct relaxed; vm_compute; reflexivity. Qed.

Lemma query_first relaxed : first_state relaxed (uri_char query_more) 29 [a_start_query] 30 31 = true.
Proof. destruct relaxed; vm_compute; reflexivity. Qed.

Lemma fragment_first relaxed : first_state relaxed (uri_char query_more) 20 [a_mark] 21 22 = true.
Proof. destruct relaxed; vm_compute; reflexivity. Qed.

(** ** Pieces of a request *)

(** What a piece of the header does not touch. *)
Definition keeps (s s' : HttpRequestParser) : Prop :=
  rp_error s' = rp_error s /\ hp_cs (rp_parser s') = hp_cs (rp_parser s) /\
  hp_xml_sent (rp_parser s') = hp_xml_sent (rp_parser s) /\ hp_json_sent (rp_parser s') = hp_json_sent (rp_parser s).

Lemma keeps_trans s1 s2 s3 : keeps s1 s2 -> keeps s2 s3 -> keeps s1 s3.
Proof. unfold keeps. intuition congruence. Qed.

Section pieces.
Context (buffer : bytes) (relaxed : bool).
Implicit Types (s : HttpRequestParser) (p cs : Z) (w : bytes).

Abbreviation run := (run_machine (http_act buffer) htable relaxed).

(** The text [w] is in the buffer at [p]. *)
Definition text_at p w : Prop := 0 <= p /\ substr buffer (Z.to_nat p) (length w) = w.

(** Reading [w] from [p] in state [cs] ends in [cs'] with the request [d]. *)
Definition flows cs p w s cs' (d : HttpRequest) : Prop :=
  exists s', (forall input, run cs p (w ++ input) s = run cs' (p + Z.of_nat (length w)) input s') /\ keeps s s' /\ rp_data s' = d.

Lemma flows_trans cs1 cs2 cs3 p w1 w2 s d2 d3 :
  flows cs1 p w1 s cs2 d2 ->
  (forall s', keeps s s' -> rp_data s' = d2 -> flows cs2 (p + Z.of_nat (length w1)) w2 s' cs3 d3) ->
  flows cs1 p (w1 ++ w2) s cs3 d3.
Proof.
  intros (s2 & R2 & K2 & D2) H. destruct (H s2 K2 D2) as (s3 & R3 & K3 & D3).
  exists s3. split_and!; [|by eapply keeps_trans|done]. intros input.
  rewrite <- app_assoc, R2, R3. f_equal. rewrite length_app. lia.
Qed.

Lemma flows_nil cs p s : flows cs p [] s cs (rp_data s).
Proof. exists s. split_and!; [intros; cbn; f_equal; lia|done|done]. Qed.

Lemma text_of_at p w q : text_at p w -> q = p + Z.of_nat (length w) -> text_of buffer p q = Ok w.
Proof.
  intros [Hp Hw] ->. unfold text_of. rewrite (proj2 (Z.ltb_ge _ _)) by lia.
  replace (Z.to_nat (p + Z.of_nat (length w) - p)) with (length w) by lia. by rewrite Hw.
Qed.

Lemma text_at_app p w1 w2 : text_at p (w1 ++ w2) -> text_at p w1 /\ text_at (p + Z.of_nat (length w1)) w2.
Proof.
  unfold text_at, substr. intros [Hp Hw].
  rewrite length_app in Hw. rewrite <- (take_drop (length w1) (drop _ buffer)) in Hw.
  assert (length (take (length w1) (drop (Z.to_nat p) buffer)) = length w1) as Hl.
  { apply (f_equal length) in Hw. rewrite take_drop, length_take, length_app in Hw. rewrite length_take. lia. }
  rewrite take_app, Hl in Hw. rewrite take_ge in Hw by (rewrite Hl; lia).
  apply app_inj_1 in Hw as [E1 E2]; [|done]. split; (split; [lia|]); [done|].
  replace (Z.to_nat (p + Z.of_nat (length w1))) with (Z.to_nat p + length w1)%nat by lia.
  rewrite <- drop_drop. rewrite <- E2 at 2. f_equal. lia.
Qed.

Lemma text_at_drop p w : text_at p w -> exists rest, drop (Z.to_nat p) buffer = w ++ rest.
Proof. intros [_ Hw]. exists (drop (length w) (drop (Z.to_nat p) buffer)). 
  rewrite <- (take_drop (length w) (drop (Z.to_nat p) buffer)) at 1. f_equal. exact Hw.
Qed.

(** *** Method *)

Definition method_walk (m : Z) : bool :=
  match nth (Z.to_nat m) http_methods [] with
  | c :: w =>
    moves_to relaxed 1 [a_mark] 2 c &&
    match walk relaxed 2 w with Some cs => moves_to relaxed cs [a_request_method] 3 32 | None => false end
  | [] => false
  end.

Lemma methods_walk m : 0 <= m < 34 -> m <> 24 -> method_walk m = true.
Proof.
  intros Hm H24. assert (forallb (fun m => (m =? 24) || method_walk m) (map Z.of_nat (seq 0 34)) = true) as H.
  { unfold method_walk. destruct relaxed; vm_compute; reflexivity. }
  rewrite forallb_forall in H. specialize (H m (in_bytes m 34 Hm)). by rewrite (proj2 (Z.eqb_neq m 24) H24) in H.
Qed.

Lemma flows_method m s :
  0 <= m < 34 -> m <> 24 -> CharsToHttpMethod buffer = m ->
  flows 1 0 (nth (Z.to_nat m) http_methods [] ++ [32]) s 3 (HttpRequest_setMethod (rp_data s) m).
Proof.
  intros Hm H24 Hc. pose proof (methods_walk m Hm H24) as Hw. unfold method_walk in Hw.
  destruct (nth (Z.to_nat m) http_methods []) as [|c w]; [done|]. apply andb_true_iff in Hw as [H1 Hw].
  apply bool_decide_eq_true in H1. destruct (walk relaxed 2 w) as [cs|] eqn:Ew; [|done]. apply bool_decide_eq_true in Hw.
  exists (with_data (with_parser s (with_mark (rp_parser s) 0)) (HttpRequest_setMethod (rp_data s) m)). split_and!; [|done..].
  intros input. cbn [app]. rewrite <- app_assoc. cbn [app].
  erewrite run_machine_step; [|exact H1|done|reflexivity]. rewrite (run_walk _ _ _ _ _ _ _ _ _ Ew).
  erewrite run_machine_step; [|exact Hw|done|].
  2: { cbn [run_actions http_act]. unfold on_request_method. cbn [rp_parser with_parser hp_mark with_mark Z.to_nat drop].
       change (drop (Z.to_nat 0) buffer) with buffer. rewrite Hc. unfold INVALID_METHOD. rewrite (proj2 (Z.eqb_neq m 34)) by lia. reflexivity. }
  f_equal. cbn [length]. rewrite length_app. cbn [length]. lia.
Qed.

(** *** Path, query, fragment and version *)

(** The character after the text: a space, [?] or [#]. *)
Lemma flows_path path c t acts s p :
  In (c, t, acts) [(32, 4, [a_request_path; a_request_uri]); (63, 29, [a_request_path]); (35, 20, [a_request_path; a_request_uri])] ->
  uri_text path_more path = true -> head path <> Some 47 -> text_at p (47 :: path) ->
  flows 3 p ((47 :: path) ++ [c]) s t (HttpRequest_setPath (rp_data s) (47 :: path)).
Proof.
  intros Hc Hu Hh Ht.
  assert (exists cs, walk relaxed 33 path = Some cs /\ next_move htable relaxed cs c = (acts, t) /\ t <> 0) as (cs & Hw & Hn & Ht0).
  { destruct path as [|x path].
    - exists 33. split; [done|]. clear -Hc.
      destruct Hc as [?|[?|[?|[]]]]; simplify_eq; (split; [destruct relaxed; vm_compute; reflexivity|done]).
    - exists 26. split.
      + destruct (walk_first relaxed path_more 26 27 28 (path_state relaxed) path_more_bytes ltac:(done) ltac:(done) ltac:(done)
          _ 33 [] x path (path_first relaxed)) as (t' & E & Ht' & W); [|done|].
        { intros ->. cbn. apply negb_true_iff, Z.eqb_neq. intros ->. done. }
        cbn [silent_walk]. by rewrite E, (proj2 (Z.eqb_neq t' 0) Ht').
      + clear -Hc.
        destruct Hc as [?|[?|[?|[]]]]; simplify_eq; (split; [destruct relaxed; vm_compute; reflexivity|done]). }
  assert (next_move htable relaxed 3 47 = ([a_mark], 33)) as H3 by (destruct relaxed; vm_compute; reflexivity).
  exists (on_request_path (with_parser s (with_mark (rp_parser s) p)) (47 :: path)). split_and!; [|done..].
  intros input. rewrite <- app_assoc. cbn [app].
  erewrite run_machine_step; [|exact H3|done|reflexivity]. rewrite (run_walk _ _ _ _ _ _ _ _ _ Hw).
  erewrite run_machine_step; [|exact Hn|done|].
  2: { assert (text_of buffer p (p + 1 + Z.of_nat (length path)) = Ok (47 :: path)) as E by (apply text_of_at; [done|cbn [length]; lia]).
       destruct Hc as [?|[?|[?|[]]]]; simplify_eq; cbn [run_actions http_act obind rp_parser with_parser hp_mark with_mark];
         rewrite E; reflexivity. }
  f_equal. cbn [app length]. rewrite length_app. cbn [length]. lia.
Qed.

Lemma flows_query q c t s p :
  In (c, t) [(32, 4); (35, 20)] -> uri_text query_more q = true -> q <> [] -> text_at p q ->
  flows 29 p (q ++ [c]) s t (HttpRequest_setQuery (rp_data s) q).
Proof.
  intros Hc Hu Hne Ht. destruct q as [|x q]; [done|].
  destruct (walk_first relaxed query_more 30 31 32 (query_state relaxed) query_more_bytes ltac:(done) ltac:(done) ltac:(done)
    _ 29 [a_start_query] x q (query_first relaxed)) as (t' & E & Ht' & W); [done|done|].
  assert (next_move htable relaxed 30 c = ([a_query_string; a_request_uri], t) /\ t <> 0) as [Hn Ht0].
  { clear -Hc. destruct Hc as [?|[?|[]]]; simplify_eq; (split; [destruct relaxed; vm_compute; reflexivity|done]). }
  exists (on_request_query (with_parser s (with_query_start (rp_parser s) p)) (x :: q)). split_and!; [|done..].
  intros input. rewrite <- app_assoc. cbn [app].
  erewrite run_machine_step; [|exact E|done|reflexivity]. rewrite (run_walk _ _ _ _ _ _ _ _ _ W).
  erewrite run_machine_step; [|exact Hn|done|].
  2: { cbn [run_actions http_act rp_parser with_parser hp_query_start with_query_start].
       rewrite (text_of_at p (x :: q)) by (done || (cbn [length]; lia)). reflexivity. }
  f_equal. cbn [app length]. rewrite length_app. cbn [length]. lia.
Qed.

Lemma flows_fragment f s p :
  uri_text query_more f = true -> f <> [] -> text_at p f ->
  flows 20 p (f ++ [32]) s 4 (HttpRequest_setFragment (rp_data s) f).
Proof.
  intros Hu Hne Ht. destruct f as [|x f]; [done|].
  destruct (walk_first relaxed query_more 21 22 23 (fragment_state relaxed) query_more_bytes ltac:(done) ltac:(done) ltac:(done)
    _ 20 [a_mark] x f (fragment_first relaxed)) as (t' & E & Ht' & W); [done|done|].
  assert (next_move htable relaxed 21 32 = ([a_fragment], 4)) as Hn by (destruct relaxed; vm_compute; reflexivity).
  exists (on_request_fragment (with_parser s (with_mark (rp_parser s) p)) (x :: f)). split_and!; [|done..].
  intros input. rewrite <- app_assoc. cbn [app].
  erewrite run_machine_step; [|exact E|done|reflexivity]. rewrite (run_walk _ _ _ _ _ _ _ _ _ W).
  erewrite run_machine_step; [|exact Hn|done|].
  2: { cbn [run_actions http_act obind rp_parser with_parser hp_mark with_mark].
       rewrite (text_of_at p (x :: f)) by (done || (cbn [length]; lia)). reflexivity. }
  f_equal. cbn [app length]. rewrite length_app. cbn [length]. lia.
Qed.

Lemma flows_version v s p :
  v = 0x11 \/ v = 0x10 -> text_at p (version_text v) ->
  flows 4 p (version_text v ++ crlf) s 13 (HttpRequest_setVersion (rp_data s) v).
Proof.
  intros Hv Ht. exists (on_request_version (with_parser s (with_mark (rp_parser s) p)) (version_text v)).
  assert (length (version_text v) = 8%nat) as Hl by (by destruct Hv as [->| ->]).
  assert (exists w, version_text v = 72 :: w /\ length w = 7%nat /\ walk relaxed 5 w = Some 12) as (w & Ew & Lw & Hw).
  { destruct Hv as [->| ->]; eexists; (split; [vm_compute; reflexivity|split; [done|destruct relaxed; vm_compute; reflexivity]]). }
  split_and!.
  - intros input. rewrite <- app_assoc, Ew. cbn [app crlf].
    erewrite run_machine_step; [|destruct relaxed; vm_compute; reflexivity|done|reflexivity].
    rewrite (run_walk _ _ _ _ _ _ _ _ _ Hw).
    erewrite (run_machine_step _ _ _ 12 _ 13); [|destruct relaxed; vm_compute; reflexivity|done|].
    2: { cbn [run_actions http_act obind rp_parser with_parser hp_mark with_mark].
         rewrite (text_of_at p (version_text v)) by (done || lia). reflexivity. }
    erewrite (run_machine_step _ _ _ 17 _ 10); [|destruct relaxed; vm_compute; reflexivity|done|reflexivity].
    f_equal; [cbn [length]; rewrite length_app, Lw; cbn; lia|by rewrite Ew].
  - destruct Hv as [->| ->]; done.
  - destruct Hv as [->| ->]; done.
Qed.

(** *** Header fields *)

Definition name_states : bool :=
  forallb (fun c => implb (token_char c) (moves_to relaxed 13 [a_start_field] 14 c && moves_to relaxed 14 [] 14 c)) (map Z.of_nat (seq 0 256)).

Definition value_states : bool :=
  forallb (fun c => implb (value_char c)
    ((bool_decide (c ∈ [32; 9]) || moves_to relaxed 15 [a_start_value] 16 c) && moves_to relaxed 16 [] 16 c)) (map Z.of_nat (seq 0 256)).

Lemma name_states_ok : name_states = true.
Proof. unfold name_states. destruct relaxed; vm_compute; reflexivity. Qed.

Lemma value_states_ok : value_states = true.
Proof. unfold value_states. destruct relaxed; vm_compute; reflexivity. Qed.

Lemma token_char_byte c : token_char c = true -> 0 <= c < 256.
Proof.
  unfold token_char, is_alnum, is_digit, in_range. rewrite !orb_true_iff, !andb_true_iff, !Z.leb_le, bool_decide_eq_true.
  intros [[[?|?]|?]|H]; try lia. assert (Forall is_byte (str "!#$%&'*+-.^_`|~")) as Hs by (repeat constructor; cbv; discriminate).
  apply list_elem_of_In in H. rewrite List.Forall_forall in Hs. by apply Hs.
Qed.

Lemma value_char_byte c : value_char c = true -> 0 <= c < 256.
Proof. unfold value_char, in_range. rewrite !andb_true_iff, !Z.leb_le. lia. Qed.

Lemma token_moves c : token_char c = true ->
  next_move htable relaxed 13 c = ([a_start_field], 14) /\ next_move htable relaxed 14 c = ([], 14).
Proof.
  intros Hc. pose proof (byte_check _ name_states_ok c (token_char_byte c Hc)) as E. cbn beta in E. rewrite Hc in E.
  apply andb_true_iff in E as [?%bool_decide_eq_true ?%bool_decide_eq_true]. done.
Qed.

Lemma value_moves c : value_char c = true ->
  (c ∉ [32; 9] -> next_move htable relaxed 15 c = ([a_start_value], 16)) /\ next_move htable relaxed 16 c = ([], 16).
Proof.
  intros Hc. pose proof (byte_check _ value_states_ok c (value_char_byte c Hc)) as E. cbn beta in E. rewrite Hc in E.
  apply andb_true_iff in E as [H1%orb_true_iff ?%bool_decide_eq_true]. split; [|done]. intros Hn.
  rewrite !bool_decide_eq_true in H1. by destruct H1 as [?|?%bool_decide_eq_true].
Qed.

(** The name, up to the space after the colon. *)
Lemma flows_name k s p :
  k <> [] -> forallb token_char k = true ->
  exists s', (forall input, run 13 p (k ++ str ": " ++ input) s = run 15 (p + Z.of_nat (length k) + 2) input s') /\
    keeps s s' /\ rp_data s' = rp_data s /\
    hp_field_start (rp_parser s') = p /\ hp_field_len (rp_parser s') = Z.of_nat (length k).
Proof.
  intros Hne Hk. destruct k as [|c k]; [done|]. cbn [forallb] in Hk. apply andb_true_iff in Hk as [Hc Hk].
  destruct (token_moves c Hc) as [H13 _].
  assert (Forall (fun c => next_move htable relaxed 14 c = ([], 14)) k) as Hloop.
  { apply List.Forall_forall. rewrite forallb_forall in Hk. intros x Hx. by apply token_moves, Hk. }
  eexists. split.
  - intros input. cbn [app]. erewrite run_machine_step; [|exact H13|done|reflexivity].
    rewrite run_machine_loop by done. change (str ": " ++ input) with (58 :: 32 :: input).
    erewrite (run_machine_step _ _ _ 14 _ 58); [|destruct relaxed; vm_compute; reflexivity|done|reflexivity].
    erewrite (run_machine_step _ _ _ 15 _ 32); [|destruct relaxed; vm_compute; reflexivity|done|reflexivity].
    f_equal. cbn [length]. lia.
  - cbn. split_and!; [done|done|done|lia].
Qed.

Lemma flows_value v s p :
  value_ok v = true -> text_at p v ->
  exists s', (forall input, run 15 p (v ++ crlf ++ input) s = run 13 (p + Z.of_nat (length v) + 2) input s') /\
    keeps s s' /\ rp_data s' = rp_data (on_request_http_field s
      (substr buffer (Z.to_nat (hp_field_start (rp_parser s))) (Z.to_nat (hp_field_len (rp_parser s)))) v).
Proof.
  intros Hv Ht. set (field := substr buffer _ _).
  exists (on_request_http_field (with_parser s (with_mark (rp_parser s) p)) field v).
  unfold value_ok in Hv. apply andb_true_iff in Hv as [Hv Hfirst]. split_and!.
  2: unfold on_request_http_field; by destruct field. 2: unfold on_request_http_field; by destruct field.
  intros input. destruct v as [|c v].
  - cbn [app length]. change (crlf ++ input) with (13 :: 10 :: input).
    erewrite (run_machine_step _ _ _ 15 _ 13); [|destruct relaxed; vm_compute; reflexivity|done|].
    2: { cbn [run_actions http_act obind rp_parser with_parser hp_mark with_mark].
         rewrite (text_of_at p []) by (done || (cbn [length]; lia)). reflexivity. }
    erewrite (run_machine_step _ _ _ 17 _ 10); [|destruct relaxed; vm_compute; reflexivity|done|reflexivity].
    f_equal. lia.
  - cbn [forallb] in Hv. apply andb_true_iff in Hv as [Hc Hv]. apply negb_true_iff, bool_decide_eq_false in Hfirst.
    destruct (value_moves c Hc) as [H15 _]. specialize (H15 Hfirst).
    assert (Forall (fun c => next_move htable relaxed 16 c = ([], 16)) v) as Hloop.
    { apply List.Forall_forall. rewrite forallb_forall in Hv. intros x Hx. by apply value_moves, Hv. }
    cbn [app]. erewrite run_machine_step; [|exact H15|done|reflexivity].
    rewrite run_machine_loop by done. change (crlf ++ input) with (13 :: 10 :: input).
    erewrite (run_machine_step _ _ _ 16 _ 13); [|destruct relaxed; vm_compute; reflexivity|done|].
    2: { cbn [run_actions http_act obind rp_parser with_parser hp_mark with_mark].
         rewrite (text_of_at p (c :: v)) by (done || (cbn [length]; lia)). reflexivity. }
    erewrite (run_machine_step _ _ _ 17 _ 10); [|destruct relaxed; vm_compute; reflexivity|done|reflexivity].
    f_equal. cbn [length]. lia.
Qed.

(** A header line sets the header. *)
Lemma flows_field k v s p :
  field_ok (k, v) = true -> text_at p (k ++ str ": " ++ v ++ crlf) ->
  flows 13 p (k ++ str ": " ++ v ++ crlf) s 13 (HttpRequest_setHeader (rp_data s) k v).
Proof.
  unfold field_ok. cbn [fst snd]. rewrite andb_true_iff. intros [Hk Hv] Ht.
  apply text_at_app in Ht as [Htk Ht]. apply text_at_app in Ht as [_ Ht]. apply text_at_app in Ht as [Htv _].
  assert (k <> []) as Hne by (by destruct k). assert (forallb token_char k = true) as Hk' by (by destruct k).
  destruct (flows_name k s p Hne Hk') as (s1 & R1 & K1 & D1 & Fs & Fl).
  destruct (flows_value v s1 (p + Z.of_nat (length k) + 2) Hv) as (s2 & R2 & K2 & D2).
  { exact Htv. }
  exists s2. split_and!; [|by eapply keeps_trans|].
  - intros input. rewrite <- !app_assoc, R1, R2. f_equal. rewrite !length_app. cbn. lia.
  - rewrite D2, Fs, Fl, Nat2Z.id. destruct Htk as [_ ->]. destruct k; [done|]. cbn. by rewrite D1.
Qed.

(** The empty line ends the header. *)
Lemma run_end s p input :
  hp_xml_sent (rp_parser s) = false -> hp_json_sent (rp_parser s) = false ->
  exists s', run 13 p (crlf ++ input) s = Ok (348, p + 2, s') /\ keeps s s' /\ rp_data s' = rp_data s.
Proof.
  intros Hx Hj. eexists. change (crlf ++ input) with (13 :: 10 :: input).
  erewrite (run_machine_step _ _ _ 13 _ 13); [|destruct relaxed; vm_compute; reflexivity|done|reflexivity].
  erewrite (run_machine_break _ _ _ 18 _ 10); [|destruct relaxed; vm_compute; reflexivity|].
  2: { cbn [run_actions http_act]. cbn. rewrite Hx, Hj. reflexivity. }
  split_and!; [f_equal; f_equal; f_equal; lia|done|done].
Qed.

End pieces.

(** ** The method's name *)

Definition method_name (m : Z) : bytes := nth (Z.to_nat m) http_methods [].

Lemma cstr_app w rest : Forall (fun c => c <> 0) w -> cstr (w ++ rest) = w ++ cstr rest.
Proof.
  induction w as [|c w IH]; [done|]. intros H. apply Forall_cons_1 in H as [Hc H]. cbn.
  by rewrite (proj2 (Z.eqb_neq c 0) Hc), IH.
Qed.

Lemma starts_with_space n w rest :
  Forall (fun c => c <> 32) n -> Forall (fun c => c <> 0) w ->
  starts_with n (w ++ 32 :: rest) = bool_decide (take (length n) (w ++ [32]) = n).
Proof.
  intros Hn Hw. unfold starts_with. rewrite cstr_app by done. cbn [cstr Z.eqb].
  apply bool_decide_ext. rewrite (cons_middle 32 w (cstr rest)), app_assoc.
  destruct (Nat.le_gt_cases (length n) (length (w ++ [32]))); [by rewrite take_app_le|].
  split; intros E; exfalso.
  - assert (n !! length w = Some 32) as Hl.
    { rewrite <- E, lookup_take_lt by (rewrite length_app in *; cbn in *; lia).
      rewrite <- app_assoc, lookup_app_r, Nat.sub_diag by done. done. }
    apply list_elem_of_lookup_2, list_elem_of_In in Hl. rewrite List.Forall_forall in Hn. by apply (Hn 32 Hl).
  - apply (f_equal length) in E. rewrite length_take in E. lia.
Qed.

Lemma method_index_ext f g names : (forall n, In n names -> f n = g n) -> forall i, method_index f names i = method_index g names i.
Proof.
  induction names as [|n names IH]; intros H i; cbn; [done|]. rewrite (H n) by (by left).
  destruct (g n); [done|]. apply IH. intros. apply H. by right.
Qed.

Lemma methods_clean : Forall (Forall (fun c => c <> 32 /\ c <> 0)) http_methods.
Proof.
  assert (forallb (forallb (fun c => negb (c =? 32) && negb (c =? 0))) http_methods = true) as H by (vm_compute; reflexivity).
  rewrite forallb_forall in H. apply List.Forall_forall. intros n Hn. specialize (H n Hn). rewrite forallb_forall in H.
  apply List.Forall_forall. intros c Hc. specialize (H c Hc). rewrite andb_true_iff, !negb_true_iff, !Z.eqb_neq in H. done.
Qed.

(** The name of a method is recognised whatever follows the space. *)
Lemma CharsToHttpMethod_name m rest :
  0 <= m < 34 -> CharsToHttpMethod (method_name m ++ 32 :: rest) = m.
Proof.
  intros Hm. assert (Forall (fun c => c <> 32 /\ c <> 0) (method_name m)) as Hclean.
  { pose proof methods_clean as H. rewrite List.Forall_forall in H. apply H. unfold method_name. apply nth_In.
    change (length http_methods) with 34%nat. lia. }
  unfold CharsToHttpMethod.
  rewrite (method_index_ext _ (fun n => bool_decide (take (length n) (method_name m ++ [32]) = n))).
  - assert (forallb (fun m => method_index (fun n => bool_decide (take (length n) (method_name m ++ [32]) = n)) http_methods 0 =? m)
      (map Z.of_nat (seq 0 34)) = true) as H by (vm_compute; reflexivity).
    rewrite forallb_forall in H. by apply Z.eqb_eq, H, in_bytes.
  - intros n Hn. pose proof methods_clean as H. rewrite List.Forall_forall in H. specialize (H n Hn).
    apply starts_with_space; [eapply Forall_impl; [|exact H]|eapply Forall_impl; [|exact Hclean]]; naive_solver.
Qed.

(** ** Whole requests *)

(** The header fields [dump] writes. *)
Definition sent_fields (r : HttpRequest) : list (bytes * bytes) :=
  (str "connection", if q_close r then str "close" else str "keep-alive") ::
  List.filter (fun p => negb (strcaseeq p.1 (str "connection"))) (q_headers r) ++
  match q_body r with [] => [] | b => [(str "content-length", dec (Z.of_nat (length b)))] end.

Definition field_line (p : bytes * bytes) : bytes := p.1 ++ str ": " ++ p.2 ++ crlf.

Definition request_line (r : HttpRequest) : bytes :=
  HttpMethodToString (q_method r) ++ str " " ++ q_path r ++ opt_part (str "?") (q_query r) ++
  opt_part (str "#") (q_fragment r) ++ str " " ++ version_text (q_version r) ++ crlf.

Definition head_with (r : HttpRequest) (fields : list (bytes * bytes)) : bytes :=
  request_line r ++ flat_map field_line fields ++ crlf.

Definition request_head (r : HttpRequest) : bytes := head_with r (sent_fields r).

Lemma dump_head r : q_websocket r = false -> HttpRequest_dump r = request_head r ++ q_body r.
Proof.
  intros Hw. unfold HttpRequest_dump, request_head, head_with, request_line, sent_fields, connection_line. rewrite Hw.
  cbn [flat_map]. rewrite !flat_map_app.
  assert (flat_map field_line (List.filter (fun p => negb (strcaseeq p.1 (str "connection"))) (q_headers r)) = header_lines false (q_headers r)) as ->.
  { unfold header_lines. induction (q_headers r) as [|p m IH]; [done|]. cbn [List.filter flat_map negb andb].
    destruct (strcaseeq p.1 (str "connection")); cbn [negb flat_map app]; by rewrite IH. }
  change (str "connection: ") with (str "connection" ++ str ": ").
  unfold body_part. change (str "content-length: ") with (str "content-length" ++ str ": ").
  destruct (q_body r) as [|c b]; cbn [flat_map]; unfold field_line; cbn [fst snd]; by rewrite <- !app_assoc, ?app_nil_r.
Qed.

Section whole.
Context (buffer : bytes) (relaxed : bool).

Lemma setQuery_nil d : q_query d = [] -> HttpRequest_setQuery d [] = d.
Proof. destruct d; cbn. by intros ->. Qed.

Lemma setFragment_nil d : q_fragment d = [] -> HttpRequest_setFragment d [] = d.
Proof. destruct d; cbn. by intros ->. Qed.

(** From the path to the space before the version. *)
Lemma flows_uri path q f s p :
  uri_text path_more path = true -> head path <> Some 47 -> uri_text query_more q = true -> uri_text query_more f = true ->
  text_at buffer p ((47 :: path) ++ opt_part (str "?") q ++ opt_part (str "#") f ++ [32]) ->
  q_query (rp_data s) = [] -> q_fragment (rp_data s) = [] ->
  flows buffer relaxed 3 p ((47 :: path) ++ opt_part (str "?") q ++ opt_part (str "#") f ++ [32]) s 4
    (HttpRequest_setFragment (HttpRequest_setQuery (HttpRequest_setPath (rp_data s) (47 :: path)) q) f).
Proof.
  intros Hp Hh Hq Hf Ht Dq Df. set (d1 := HttpRequest_setPath (rp_data s) (47 :: path)).
  pose proof (text_at_app _ _ _ _ Ht) as [Htp Ht']. unfold opt_part in *.
  assert (forall s1 p1 d, rp_data s1 = d -> f <> [] -> text_at buffer p1 f ->
    flows buffer relaxed 20 p1 (f ++ [32]) s1 4 (HttpRequest_setFragment d f)) as Hfrag.
  { intros s1 p1 d <- Hne Hx. by apply flows_fragment. }
  assert (forall c, p + Z.of_nat (length ((47 :: path) ++ [c])) = p + Z.of_nat (length (47 :: path)) + 1) as Hpos
    by (intros; rewrite length_app; cbn; lia).
  change (str "?") with [63] in *. change (str "#") with [35] in *.
  destruct q as [|x q]; destruct f as [|y f]; rewrite <- ?app_assoc in Ht' |- *; cbn [app] in Ht'.
  - rewrite setQuery_nil, setFragment_nil by done. eapply flows_path; [by left|done..].
  - rewrite setQuery_nil by done. replace ((47 :: path) ++ [] ++ [35] ++ (y :: f) ++ [32]) with (((47 :: path) ++ [35]) ++ (y :: f) ++ [32]) by (by rewrite <- app_assoc).
    eapply flows_trans; [eapply flows_path; [by right; right; left|done..]|].
    intros s1 K1 D1. apply Hfrag; [done|done|]. change (35 :: y :: f ++ [32]) with ([35] ++ (y :: f) ++ [32]) in Ht'.
    apply text_at_app in Ht' as [_ Ht']. apply text_at_app in Ht' as [Ht' _]. by rewrite Hpos.
  - rewrite setFragment_nil by done. replace ((47 :: path) ++ [63] ++ (x :: q) ++ [] ++ [32]) with (((47 :: path) ++ [63]) ++ (x :: q) ++ [32]) by (by rewrite <- app_assoc).
    eapply flows_trans; [eapply flows_path; [by right; left|done..]|].
    intros s1 K1 D1. subst d1. rewrite <- D1. apply flows_query; [by left|done|done|]. change (63 :: x :: q ++ [32]) with ([63] ++ (x :: q) ++ [32]) in Ht'.
    apply text_at_app in Ht' as [_ Ht']. apply text_at_app in Ht' as [Ht' _]. by rewrite Hpos.
  - replace ((47 :: path) ++ [63] ++ (x :: q) ++ [35] ++ (y :: f) ++ [32])
      with (((47 :: path) ++ [63]) ++ ((x :: q) ++ [35]) ++ (y :: f) ++ [32]) by (by rewrite <- !app_assoc).
    eapply flows_trans; [eapply flows_path; [by right; left|done..]|].
    intros s1 K1 D1. change (63 :: x :: q ++ 35 :: y :: f ++ [32]) with ([63] ++ (x :: q) ++ [35] ++ (y :: f) ++ [32]) in Ht'.
    apply text_at_app in Ht' as [_ Ht']. apply text_at_app in Ht' as [Ht1 Ht2]. apply text_at_app in Ht2 as [_ Ht2].
    apply text_at_app in Ht2 as [Ht2 _].
    eapply flows_trans; [apply flows_query; [by right; left|done|done|by rewrite Hpos]|].
    intros s2 K2 D2. apply Hfrag; [by rewrite D2, D1|done|].
    rewrite Hpos. replace (Z.of_nat (length ((x :: q) ++ [35]))) with (Z.of_nat (length (x :: q)) + 1) by (rewrite length_app; cbn; lia).
    by rewrite Z.add_assoc.
Qed.

Lemma flows_fields fields : forall s p,
  forallb field_ok fields = true -> text_at buffer p (flat_map field_line fields) ->
  flows buffer relaxed 13 p (flat_map field_line fields) s 13
    (fold_left (fun d p => HttpRequest_setHeader d p.1 p.2) fields (rp_data s)).
Proof.
  induction fields as [|[k v] fields IH]; intros s p Hok Ht; [apply flows_nil|].
  cbn [forallb] in Hok. apply andb_true_iff in Hok as [H1 H2]. cbn [flat_map] in *. apply text_at_app in Ht as [T1 T2].
  eapply flows_trans; [by apply flows_field|]. intros s1 K1 D1. cbn [fold_left]. rewrite <- D1. by apply IH.
Qed.

End whole.

Lemma fold_setHeader fields : forall d,
  fold_left (fun d p => HttpRequest_setHeader d p.1 p.2) fields d =
  HttpRequest_setHeaders d (fold_left (fun m p => h_set p.1 p.2 m) fields (q_headers d)).
Proof. induction fields as [|p fields IH]; intros d; cbn [fold_left]; [by destruct d|]. by rewrite IH. Qed.

(** What the receiver makes of the header. *)
Definition received_with (r : HttpRequest) (fields : list (bytes * bytes)) : HttpRequest :=
  mkRequest (q_method r) (q_version r) true false 0 (q_path r) (q_query r) (q_fragment r) []
    (fold_left (fun m p => h_set p.1 p.2 m) fields []) [] [].

Definition received_head (r : HttpRequest) : HttpRequest := received_with r (sent_fields r).

Lemma HttpMethodToString_name m : 0 <= m < 34 -> HttpMethodToString m = method_name m.
Proof.
  intros Hm. unfold HttpMethodToString. rewrite uwrap_small by lia. change (Z.of_nat (length http_methods)) with 34.
  by rewrite (proj2 (Z.leb_gt 34 m)) by lia.
Qed.

Lemma sent_fields_ok r :
  forallb field_ok (q_headers r) = true -> Z.of_nat (length (q_body r)) < 10 ^ 20 -> forallb field_ok (sent_fields r) = true.
Proof.
  intros Hh Hb. unfold sent_fields. cbn [forallb]. rewrite forallb_app. apply andb_true_iff. split; [by destruct (q_close r)|].
  apply andb_true_iff. split.
  - rewrite forallb_forall in *. intros p Hp. apply filter_In in Hp as [Hp _]. by apply Hh.
  - destruct (q_body r) as [|c b]; [done|]. cbn [forallb]. rewrite andb_true_r. unfold field_ok, value_ok. cbn [fst snd].
    apply andb_true_iff. split; [done|].
    destruct (dec_spec (Z.of_nat (length (c :: b)))) as (Hne & Hd & _); [lia|].
    assert (forall x, is_digit x = true -> value_char x = true /\ x ∉ [32; 9]) as Hx.
    { intros x. unfold is_digit, value_char, in_range. rewrite !andb_true_iff, negb_true_iff, bool_decide_eq_false, !Z.leb_le.
      intros ?. split_and!; [lia|lia|intros Hin; apply list_elem_of_In in Hin; cbn in Hin; lia..]. }
    apply andb_true_iff. split.
    + apply forallb_forall. intros x Hin. rewrite List.Forall_forall in Hd. by apply Hx, Hd.
    + destruct (dec _) as [|x l]; [done|]. apply Forall_cons_1 in Hd as [Hd _].
      apply negb_true_iff, bool_decide_eq_false. by apply Hx.
Qed.

(** The machine on a printed request, whatever follows the header. *)
Lemma http_parse_head r fields h rest :
  request_ok r = true -> forallb field_ok fields = true ->
  exists s', http_parser_execute (HttpRequestParser_new h) (head_with r fields ++ rest) = Ok (Z.of_nat (length (head_with r fields)), s') /\
    rp_data s' = received_with r fields /\ HttpRequestParser_hasError s' = false /\ HttpRequestParser_isFinished s' = true.
Proof.
  intros Hok Hfields. unfold request_ok in Hok. rewrite !andb_true_iff in Hok.
  destruct Hok as [[[[[[Hm H24] Hv] Hp] Hq] Hf] Hh].
  unfold in_range in Hm. rewrite andb_true_iff, !Z.leb_le in Hm. apply negb_true_iff, Z.eqb_neq in H24.
  rewrite orb_true_iff, !Z.eqb_eq in Hv.
  assert (exists path, q_path r = 47 :: path /\ uri_text path_more path = true /\ head path <> Some 47) as (path & Ep & Hu & Hh47).
  { clear -Hp. destruct (q_path r) as [|c path]; [done|]. destruct c as [|c|c]; try done.
    do 6 (destruct c as [c|c|]; try done). apply andb_true_iff in Hp as [Hu Hn]. exists path. split_and!; [done|done|].
    destruct path as [|x path]; [done|]. intros E. cbn in E. by simplify_eq. }
  set (buffer := head_with r fields ++ rest). set (s0 := with_parser (HttpRequestParser_new h) (reset_offsets (http_parser_init h))).
  set (relaxed := hp_uri_relaxed h).
  assert (flows buffer relaxed 1 0 (request_line r ++ flat_map field_line (fields)) s0 13 (received_with r fields)) as Hflow.
  { unfold request_line. rewrite HttpMethodToString_name by lia. rewrite Ep.
    assert (text_at buffer 0 (request_line r ++ flat_map field_line (fields))) as Ht.
    { split; [done|]. unfold buffer, head_with. rewrite <- !app_assoc, app_assoc. cbn [Z.to_nat]. unfold substr.
      by rewrite drop_0, take_app_length. }
    unfold request_line in Ht. rewrite HttpMethodToString_name in Ht by lia. rewrite Ep in Ht.
    set (uri := (47 :: path) ++ opt_part (str "?") (q_query r) ++ opt_part (str "#") (q_fragment r) ++ str " ") in *.
    replace ((method_name (q_method r) ++ str " " ++ (47 :: path) ++ opt_part (str "?") (q_query r) ++ opt_part (str "#") (q_fragment r) ++
      str " " ++ version_text (q_version r) ++ crlf) ++ flat_map field_line (fields)) with
      ((method_name (q_method r) ++ [32]) ++ uri ++ (version_text (q_version r) ++ crlf) ++ flat_map field_line (fields)) in *
      by (unfold uri; by rewrite <- !app_assoc).
    apply text_at_app in Ht as [_ Ht]. apply text_at_app in Ht as [Tu Ht]. apply text_at_app in Ht as [Tv Tf].
    eapply flows_trans.
    { apply (flows_method buffer relaxed (q_method r) s0); [lia|done|]. unfold buffer, head_with, request_line.
      rewrite HttpMethodToString_name by lia. rewrite <- !app_assoc. apply CharsToHttpMethod_name. lia. }
    intros s1 K1 D1. eapply flows_trans.
    { apply flows_uri; try done; by rewrite D1. }
    intros s2 K2 D2. eapply flows_trans.
    { apply (flows_version buffer relaxed (q_version r)); [lia|]. by apply text_at_app in Tv as [Tv _]. }
    intros s3 K3 D3.
    replace (received_with r fields) with (fold_left (fun d p => HttpRequest_setHeader d p.1 p.2) (fields) (rp_data s3)).
    - apply flows_fields; [exact Hfields|]. exact Tf.
    - rewrite fold_setHeader, D3, D2, D1. unfold received_with. cbn. by rewrite Ep. }
  destruct Hflow as (s1 & R1 & K1 & D1).
  destruct (run_end buffer relaxed s1 (0 + Z.of_nat (length (request_line r ++ flat_map field_line (fields)))) rest)
    as (s2 & R2 & K2 & D2); [by apply K1|by apply K1|].
  specialize (R1 (crlf ++ rest)). rewrite R2 in R1. clear R2.
  match type of R1 with _ = Ok (_, ?x, _) => assert (x = Z.of_nat (length (head_with r fields))) as Epos end.
  { unfold head_with. rewrite app_assoc, (length_app _ crlf). change (length crlf) with 2%nat. lia. }
  rewrite Epos in R1. clear Epos.
  pose proof (http_parser_execute_ok (HttpRequestParser_new h) buffer) as (n & s' & E & _ & _); [done|cbn; lia|].
  exists s'. rewrite E. unfold http_parser_execute in E.
  rewrite (proj2 (Z.eqb_neq (Z.of_nat (length buffer)) 0)) in E by (unfold buffer, head_with; rewrite !length_app; cbn; lia).
  assert (buffer = (request_line r ++ flat_map field_line (fields)) ++ crlf ++ rest) as Eb
    by (unfold buffer, head_with; by rewrite <- !app_assoc).
  change (hp_uri_relaxed (reset_offsets (rp_parser (HttpRequestParser_new h)))) with relaxed in E.
  change (hp_cs (reset_offsets (rp_parser (HttpRequestParser_new h)))) with 1 in E.
  rewrite <- Eb in R1. change (with_parser (HttpRequestParser_new h) (reset_offsets (rp_parser (HttpRequestParser_new h)))) with s0 in E.
  rewrite R1 in E. cbn [obind] in E. unfold assertb in E. repeat (case_match; [|done]). simplify_eq.
  assert (keeps s0 s2) as (Ke & Kc & _) by (by eapply keeps_trans). cbn [hp_nread with_nread]. split_and!.
  - done.
  - cbn. by rewrite D2, D1.
  - unfold HttpRequestParser_hasError, http_parser_has_error. cbn. by rewrite Ke, Kc.
  - unfold HttpRequestParser_isFinished, http_parser_finish, http_parser_has_error, http_parser_is_finished. cbn. by rewrite Kc.
Qed.

Lemma http_parse_request r h rest :
  request_ok r = true -> Z.of_nat (length (q_body r)) < 10 ^ 20 ->
  exists s', http_parser_execute (HttpRequestParser_new h) (request_head r ++ rest) = Ok (Z.of_nat (length (request_head r)), s') /\
    rp_data s' = received_head r /\ HttpRequestParser_hasError s' = false /\ HttpRequestParser_isFinished s' = true.
Proof.
  intros Hok Hb. apply http_parse_head; [done|]. apply sent_fields_ok; [|done].
  unfold request_ok in Hok. by apply andb_true_iff in Hok as [_ Hok].
Qed.
