(* ===== verification/Servlet.v ===== *)
(** * Servlet dispatch ([http/servlet.h], [http/servlet.cc])

    Servlets by exact URI, by pattern in the order of registration, and a default.
    A servlet is any function on the request, the response and the session it is
    given, or a WebSocket servlet; a [Servlet::ptr] may be null, the pointer to a creator
    is not.  [fnmatch] of the C library is a parameter. *)

From S2P Require Import Prelude Text HttpMessage.
From Stdlib Require Import ZArith Lia List String.
From stdpp Require Import base tactics list numbers option gmap.

Open Scope Z_scope.
Open Scope list_scope.

Section servlet.
Context {Session : Type}.
Context (fnmatch : bytes -> bytes -> bool).

(** The type of [handle]: the result and the objects afterwards. *)
Definition handler : Type := HttpRequest -> HttpResponse -> Session -> outcome (Z * HttpRequest * HttpResponse * Session).

(** @src http/ws_servlet.h:11-35 WSServlet
    The three functions a WebSocket servlet has of its own; a message is its opcode and
    its data. *)
Record WSServlet := mkWSServlet {
  ws_onConnect : HttpRequest -> Session -> outcome (Z * HttpRequest * Session);
  ws_onClose : HttpRequest -> Session -> outcome (Z * HttpRequest * Session);
  ws_handle : HttpRequest -> Z * bytes -> Session -> outcome (Z * HttpRequest * Session)
}.

(** @src http/servlet.h:22-43 Servlet
    An object of a class derived from [Servlet]: one with a [handle] of its own, or a
    [WSServlet]. *)
Inductive Servlet :=
| HttpServlet (handle : handler)
| IsWSServlet (slt : WSServlet).

(** @src http/ws_servlet.h:19-23 WSServlet::handle *)
Definition Servlet_handle (slt : Servlet) : handler :=
  match slt with
  | HttpServlet handle => handle
  | IsWSServlet _ => fun request response session => Ok (0, request, response, session)
  end.

(** @src http/servlet.h:70-76 IServletCreator
    [get]: a [HoldServletCreator] gives the pointer it holds, a [ServletCreator] a new
    object of its class. *)
Record IServletCreator := mkCreator { creator_get : option Servlet; creator_name : bytes }.

(** @src http/servlet.h:81-91 HoldServletCreator *)
Definition HoldServletCreator (name : bytes) (slt : option Servlet) : IServletCreator := mkCreator slt name.

(** @src http/servlet.h:169-173 ServletDispatch *)
Record ServletDispatch := mkDispatch {
  m_datas : gmap bytes IServletCreator;
  m_globs : list (bytes * IServletCreator);
  m_default : option Servlet
}.

(** @src http/servlet.cc:150-157 NotFoundServlet::NotFoundServlet *)
Definition not_found_content (name : bytes) : bytes :=
  str "<html><head><title>404 Not Found</title></head><body><center><h1>404 Not Found</h1></center><hr><center>" ++
  name ++ str "</center></body></html>".

(** @src http/servlet.cc:159-167 NotFoundServlet::handle *)
Definition NotFoundServlet (name : bytes) : Servlet := HttpServlet (fun request response session =>
  let r := HttpResponse_setStatus response NOT_FOUND in
  let r := HttpResponse_setHeader r (str "Server") (str "IOCoroutineScheduler/1.0.0") in
  let r := HttpResponse_setHeader r (str "Content-Type") (str "text/html") in
  Ok (0, request, HttpResponse_setBody r (not_found_content name), session)).

(** @src http/servlet.cc:22-25 ServletDispatch::ServletDispatch *)
Definition ServletDispatch_new : ServletDispatch := mkDispatch ∅ [] (Some (NotFoundServlet (str "IOCoroutineScheduler/1.0"))).

(** @src http/servlet.cc:40-43 ServletDispatch::addServlet *)
Definition ServletDispatch_addServlet d (uri name : bytes) (slt : option Servlet) :=
  mkDispatch (<[uri := HoldServletCreator name slt]> (m_datas d)) (m_globs d) (m_default d).

(** @src http/servlet.cc:45-48 ServletDispatch::addServletCreator *)
Definition ServletDispatch_addServletCreator d (uri : bytes) (creator : IServletCreator) :=
  mkDispatch (<[uri := creator]> (m_datas d)) (m_globs d) (m_default d).

(** The loop that erases the first entry with the URI. *)
Fixpoint erase_glob (uri : bytes) (globs : list (bytes * IServletCreator)) : list (bytes * IServletCreator) :=
  match globs with
  | [] => []
  | g :: globs => if bool_decide (g.1 = uri) then globs else g :: erase_glob uri globs
  end.

(** @src http/servlet.cc:50-59 ServletDispatch::addGlobServletCreator *)
Definition ServletDispatch_addGlobServletCreator d (uri : bytes) (creator : IServletCreator) :=
  mkDispatch (m_datas d) (erase_glob uri (m_globs d) ++ [(uri, creator)]) (m_default d).

(** @src http/servlet.cc:61-65 ServletDispatch::addServlet (FunctionServlet) *)
Definition ServletDispatch_addFunction d (uri : bytes) (cb : handler) :=
  ServletDispatch_addServlet d uri (str "FunctionServlet") (Some (HttpServlet cb)).

(** @src http/servlet.cc:67-79 ServletDispatch::addGlobServlet *)
Definition ServletDispatch_addGlobServlet d (uri name : bytes) (slt : option Servlet) :=
  mkDispatch (m_datas d) (erase_glob uri (m_globs d) ++ [(uri, HoldServletCreator name slt)]) (m_default d).

(** @src http/servlet.cc:85-88 ServletDispatch::delServlet *)
Definition ServletDispatch_delServlet d (uri : bytes) := mkDispatch (delete uri (m_datas d)) (m_globs d) (m_default d).

(** @src http/servlet.cc:90-99 ServletDispatch::delGlobServlet *)
Definition ServletDispatch_delGlobServlet d (uri : bytes) := mkDispatch (m_datas d) (erase_glob uri (m_globs d)) (m_default d).

(** @src http/servlet.h:157-157 ServletDispatch::setDefault *)
Definition ServletDispatch_setDefault d (slt : option Servlet) := mkDispatch (m_datas d) (m_globs d) slt.

(** @src http/servlet.cc:101-105 ServletDispatch::getServlet *)
Definition ServletDispatch_getServlet d (uri : bytes) : option Servlet :=
  match m_datas d !! uri with Some c => creator_get c | None => None end.

(** @src http/servlet.cc:107-116 ServletDispatch::getGlobServlet *)
Definition ServletDispatch_getGlobServlet d (uri : bytes) : option Servlet :=
  match find (fun g => bool_decide (g.1 = uri)) (m_globs d) with Some g => creator_get g.2 | None => None end.

(** @src http/servlet.cc:118-131 ServletDispatch::getMatchedServlet
    [fnmatch] is given C strings and returns 0 on a match. *)
Definition ServletDispatch_getMatchedServlet d (uri : bytes) : option Servlet :=
  match m_datas d !! uri with
  | Some c => creator_get c
  | None =>
    match find (fun g => fnmatch (cstr g.1) (cstr uri)) (m_globs d) with
    | Some g => creator_get g.2
    | None => m_default d
    end
  end.

(** @src http/servlet.cc:30-38 ServletDispatch::handle *)
Definition ServletDispatch_handle d : handler := fun request response session =>
  match ServletDispatch_getMatchedServlet d (q_path request) with
  | Some slt =>
      let! (_, request, response, session) := Servlet_handle slt request response session in
      Ok (0, request, response, session)
  | None => Ok (0, request, response, session)
  end.

(** ** Dispatch is by exact URI, then by pattern, then the default *)

(** What a server does with its dispatcher. *)
Inductive dispatch_op :=
| AddServlet (uri name : bytes) (slt : option Servlet)
| AddCreator (uri : bytes) (c : IServletCreator)
| AddGlob (uri name : bytes) (slt : option Servlet)
| AddGlobCreator (uri : bytes) (c : IServletCreator)
| DelServlet (uri : bytes)
| DelGlob (uri : bytes)
| SetDefault (slt : option Servlet).

Definition dispatch_step d (o : dispatch_op) : ServletDispatch :=
  match o with
  | AddServlet u n s => ServletDispatch_addServlet d u n s
  | AddCreator u c => ServletDispatch_addServletCreator d u c
  | AddGlob u n s => ServletDispatch_addGlobServlet d u n s
  | AddGlobCreator u c => ServletDispatch_addGlobServletCreator d u c
  | DelServlet u => ServletDispatch_delServlet d u
  | DelGlob u => ServletDispatch_delGlobServlet d u
  | SetDefault s => ServletDispatch_setDefault d s
  end.

(** The history decides: the last operation on a URI or pattern. *)
Definition exact_of (u : bytes) (acc : option (option Servlet)) (o : dispatch_op) : option (option Servlet) :=
  match o with
  | AddServlet u' _ s => if bool_decide (u' = u) then Some s else acc
  | AddCreator u' c => if bool_decide (u' = u) then Some (creator_get c) else acc
  | DelServlet u' => if bool_decide (u' = u) then None else acc
  | _ => acc
  end.

(** The patterns that are registered, oldest registration first. *)
Definition globs_of (acc : list (bytes * option Servlet)) (o : dispatch_op) : list (bytes * option Servlet) :=
  let without u := List.filter (fun g => negb (bool_decide (g.1 = u))) acc in
  match o with
  | AddGlob u _ s => without u ++ [(u, s)]
  | AddGlobCreator u c => without u ++ [(u, creator_get c)]
  | DelGlob u => without u
  | _ => acc
  end.

Definition default_of (acc : option Servlet) (o : dispatch_op) : option Servlet :=
  match o with SetDefault s => s | _ => acc end.

(** The servlet for a path, by the history alone: the one last registered for exactly
    this path; else that of the first pattern that matches; else the default. *)
Definition chosen (ops : list dispatch_op) (uri : bytes) : option Servlet :=
  match fold_left (exact_of uri) ops None with
  | Some s => s
  | None =>
      match find (fun g => fnmatch (cstr g.1) (cstr uri)) (fold_left globs_of ops []) with
      | Some g => g.2
      | None => fold_left default_of ops (Some (NotFoundServlet (str "IOCoroutineScheduler/1.0")))
      end
  end.

Definition glob_entries (globs : list (bytes * IServletCreator)) : list (bytes * option Servlet) :=
  map (fun g => (g.1, creator_get g.2)) globs.

Lemma erase_glob_filter u globs :
  NoDup (map fst globs) -> erase_glob u globs = List.filter (fun g => negb (bool_decide (g.1 = u))) globs.
Proof.
  induction globs as [|g globs IH]; cbn; [done|]. intros [Hn Hd]%NoDup_cons. case_bool_decide as E; cbn; [|by rewrite IH].
  subst. clear -Hn. induction globs as [|g' globs IH]; cbn in *; [done|].
  rewrite not_elem_of_cons in Hn. destruct Hn as [? ?]. rewrite bool_decide_false by congruence. cbn. f_equal. by apply IH.
Qed.

Lemma NoDup_filter_keys (f : bytes * IServletCreator -> bool) globs :
  NoDup (map fst globs) -> NoDup (map fst (List.filter f globs)).
Proof.
  induction globs as [|g globs IH]; cbn; [done|]. intros [Hn Hd]%NoDup_cons. destruct (f g); cbn; [|auto].
  apply NoDup_cons. split; [|auto]. intros Hin. apply Hn. apply list_elem_of_In, in_map_iff in Hin as (x & <- & Hx).
  apply filter_In in Hx as [Hx _]. by apply list_elem_of_In, in_map.
Qed.

Lemma filter_map_comm {A B} (f : B -> bool) (g : A -> B) l : List.filter f (map g l) = map g (List.filter (fun x => f (g x)) l).
Proof. induction l as [|x l IH]; cbn; [done|]. destruct (f (g x)); cbn; by rewrite IH. Qed.

(** The dispatcher against its history. *)
Definition dispatch_agrees d (ops : list dispatch_op) : Prop :=
  (forall u, creator_get <$> m_datas d !! u = fold_left (exact_of u) ops None) /\
  glob_entries (m_globs d) = fold_left globs_of ops [] /\ NoDup (map fst (m_globs d)) /\
  m_default d = fold_left default_of ops (Some (NotFoundServlet (str "IOCoroutineScheduler/1.0"))).

Lemma add_glob_agrees globs (acc : list (bytes * option Servlet)) u c :
  glob_entries globs = acc -> NoDup (map fst globs) ->
  glob_entries (erase_glob u globs) = List.filter (fun g => negb (bool_decide (g.1 = u))) acc /\
  glob_entries (erase_glob u globs ++ [(u, c)]) = List.filter (fun g => negb (bool_decide (g.1 = u))) acc ++ [(u, creator_get c)] /\
  NoDup (map fst (erase_glob u globs)) /\ NoDup (map fst (erase_glob u globs ++ [(u, c)])).
Proof.
  intros <- Hd. rewrite erase_glob_filter by done. unfold glob_entries. rewrite filter_map_comm, !map_app. cbn.
  split_and!; [done|done|by apply NoDup_filter_keys|]. apply NoDup_app. split_and!; [by apply NoDup_filter_keys| |apply NoDup_singleton].
  intros x Hx ->%list_elem_of_singleton. apply list_elem_of_In, in_map_iff in Hx as (g & E & Hg).
  apply filter_In in Hg as [_ Hg]. by rewrite bool_decide_true in Hg.
Qed.

Lemma dispatch_step_agrees d ops o : dispatch_agrees d ops -> dispatch_agrees (dispatch_step d o) (ops ++ [o]).
Proof.
  intros (He & Hg & Hn & Hd). unfold dispatch_agrees. setoid_rewrite fold_left_app. cbn [fold_left].
  setoid_rewrite <- He. rewrite <- Hg, <- Hd. clear He. set (acc := glob_entries (m_globs d)) in *.
  destruct o as [u n s|u c|u n s|u c|u|u|s]; cbn [dispatch_step exact_of globs_of default_of];
    cbn; split_and!; try done.
  1, 2: intros u'; case_bool_decide as E; [subst; by rewrite lookup_insert_eq|by rewrite lookup_insert_ne].
  1: by destruct (add_glob_agrees (m_globs d) _ u (HoldServletCreator n s) eq_refl Hn) as (_ & ? & _).
  1: by destruct (add_glob_agrees (m_globs d) _ u (HoldServletCreator n s) eq_refl Hn) as (_ & _ & _ & ?).
  1: by destruct (add_glob_agrees (m_globs d) _ u c eq_refl Hn) as (_ & ? & _).
  1: by destruct (add_glob_agrees (m_globs d) _ u c eq_refl Hn) as (_ & _ & _ & ?).
  - intros u'. case_bool_decide as E; [subst; by rewrite lookup_delete_eq|by rewrite lookup_delete_ne].
  - by destruct (add_glob_agrees (m_globs d) _ u (mkCreator (m_default d) []) eq_refl Hn) as (? & _).
  - by destruct (add_glob_agrees (m_globs d) _ u (mkCreator (m_default d) []) eq_refl Hn) as (_ & _ & ? & _).
Qed.

Lemma dispatch_history ops : dispatch_agrees (fold_left dispatch_step ops ServletDispatch_new) ops.
Proof.
  induction ops as [|o ops IH] using rev_ind; [by split_and!; [|..|constructor|]|]. rewrite fold_left_app. by apply dispatch_step_agrees.
Qed.

Lemma find_glob uri globs :
  (fun g => creator_get g.2) <$> find (fun g => fnmatch (cstr g.1) (cstr uri)) globs =
  snd <$> find (fun g => fnmatch (cstr g.1) (cstr uri)) (glob_entries globs).
Proof. induction globs as [|g globs IH]; cbn; [done|]. by destruct (fnmatch _ _). Qed.

(** C37: after any sequence of registrations and removals a request is served by the
    servlet last registered for its exact path; without one, by that of the first
    pattern that matches, in the order of the last registration of each pattern; without
    one, by the default servlet.  Served means: [handle] runs this servlet's [handle] on
    the request, the response and the session it was given, once, hands on what that
    did to them (also its exceptions) and returns 0 whatever it returned; a null servlet
    leaves all three as they are.  Registering a pattern again replaces it: no pattern
    is registered twice. *)
Theorem ServletDispatch_dispatch ops :
  let d := fold_left dispatch_step ops ServletDispatch_new in
  (forall uri, ServletDispatch_getMatchedServlet d uri = chosen ops uri) /\
  (forall request response session,
     ServletDispatch_handle d request response session =
     match chosen ops (q_path request) with
     | Some slt => match Servlet_handle slt request response session with
                   | Ok (_, request', response', session') => Ok (0, request', response', session')
                   | Throw e => Throw e
                   | AssertFail => AssertFail
                   | UB => UB
                   | NoFuel => NoFuel
                   end
     | None => Ok (0, request, response, session)
     end) /\
  NoDup (map fst (m_globs d)).
Proof.
  destruct (dispatch_history ops) as (He & Hg & Hn & Hd). cbv zeta.
  assert (Hm : forall uri, ServletDispatch_getMatchedServlet (fold_left dispatch_step ops ServletDispatch_new) uri = chosen ops uri).
  { intros uri. unfold chosen. rewrite <- He, <- Hg, <- Hd. unfold ServletDispatch_getMatchedServlet.
    destruct (m_datas _ !! uri); [done|]. cbn. pose proof (find_glob uri (m_globs (fold_left dispatch_step ops ServletDispatch_new))) as E.
    destruct (find _ (m_globs _)) as [g|], (find _ (glob_entries _)) as [g'|]; cbn in E; by simplify_eq. }
  split_and!; [done| |done]. intros q r s. unfold ServletDispatch_handle. rewrite Hm.
  destruct (chosen ops (q_path q)) as [slt|]; [|done]. by destruct (Servlet_handle slt q r s) as [[[[? ?] ?] ?]| | | |].
Qed.
End servlet.
