(* ===== verification/HttpSession.v ===== *)
(** * HTTP sessions and servers ([http/http_session.cc], [http/http_server.cc])

    Receiving a request through the parser, sending a response, and the loop that
    serves a client, over any stream.  [buff_size] is the configured size of the
    request buffer and [lexical_cast] is Boost's conversion to [uint64_t]. *)

From S2P Require Import Prelude Text StringUtil HttpMessage Ragel Http11Table HttpParser HttpWire Stream Servlet.
From Stdlib Require Import ZArith Lia List String.
From stdpp Require Import base tactics list numbers option.

Open Scope Z_scope.
Open Scope list_scope.

Section session.
Context {S : Type} {SO : StreamOps S}.
Context (buff_size : Z) (lexical_cast : bytes -> option Z).
Implicit Types st : S.

(** The first loop of [recvRequest] (lines 37-58): [data] are the [offset] bytes at
    the front of the buffer. *)
Fixpoint recv_head (fuel : nat) st (parser : HttpRequestParser) (data : bytes) :
    outcome (option (HttpRequestParser * bytes) * S) :=
  match fuel with
  | O => NoFuel
  | Datatypes.S fuel =>
    let '(len, got, st) := stream_read st (buff_size - Z.of_nat (length data)) in
    if len <=? 0 then Ok (None, stream_close st) else
    let! (nparse, rest, parser) := HttpRequestParser_execute parser (data ++ got) in
    if HttpRequestParser_hasError parser then Ok (None, stream_close st)
    else if Z.of_nat (length rest) =? i32 buff_size then Ok (None, stream_close st)
    else if HttpRequestParser_isFinished parser then Ok (Some (parser, rest), st)
    else recv_head fuel st parser rest
  end.

(** The body (lines 63-90): [data] is what follows the header in the buffer. *)
Definition recv_body st (parser : HttpRequestParser) (data : bytes) : outcome (option HttpRequest * S) :=
  let length := i64 (HttpRequestParser_getContentLength lexical_cast parser) in
  let offset := Z.of_nat (List.length data) in
  let done body st := Ok (Some (HttpRequest_init (HttpRequest_setBody (rp_data parser) body)), st) in
  if length <=? 0 then Ok (Some (HttpRequest_init (rp_data parser)), st) else
  if length - offset <=? 0 then done (take (Z.to_nat length) data) st else
  let! (r, got, st) := Stream_readFixSize st (length - offset) in
  if r <=? 0 then Ok (None, stream_close st) else done (data ++ got) st.

(** @src http/http_session.cc:12-94 HttpSession::recvRequest
    [h] is the memory the parser is created in. *)
Definition HttpSession_recvRequest (fuel : nat) st (h : http_parser) : outcome (option HttpRequest * S) :=
  let! (p, st) := recv_head fuel st (HttpRequestParser_new h) [] in
  match p with
  | None => Ok (None, st)
  | Some (parser, data) => recv_body st parser data
  end.

(** @src http/http_session.cc:96-101 HttpSession::sendResponse *)
Definition HttpSession_sendResponse st (rsp : HttpResponse) : outcome (Z * S) :=
  Stream_writeFixSize st (HttpResponse_dump rsp).

(** @src http/http_connection.cc:200-206 HttpConnection::sendRequest *)
Definition HttpConnection_sendRequest st (req : HttpRequest) : outcome (Z * S) :=
  Stream_writeFixSize st (HttpRequest_dump req).

Context (fnmatch : bytes -> bytes -> bool).

(** @src http/http_server.cc:33-64 HttpServer::handleClient
    [fuel] bounds the number of requests, [hs] are the memories of their parsers. *)
Fixpoint HttpServer_handleClient (fuel : nat) st (dispatch : ServletDispatch) (name : bytes) (keepalive : bool)
    (hs : nat -> http_parser) : outcome S :=
  match fuel with
  | O => NoFuel
  | Datatypes.S fuel' =>
    let! (req, st) := HttpSession_recvRequest fuel st (hs fuel') in
    match req with
    | None => Ok (stream_close st)
    | Some req =>
      let rsp := HttpResponse_setHeader (HttpResponse_new (q_version req) (q_close req || negb keepalive)) (str "Server") name in
      let! (_, req, rsp, st) := ServletDispatch_handle fnmatch dispatch req rsp st in
      let! (_, st) := HttpSession_sendResponse st rsp in
      if negb keepalive || q_close req then Ok (stream_close st)
      else HttpServer_handleClient fuel' st dispatch name keepalive hs
    end
  end.

End session.

(** ** Requests across a stream *)

(** The request that arrives: the fields of the one sent, with the headers [dump]
    added. *)
Definition received (r : HttpRequest) : HttpRequest :=
  mkRequest (q_method r) (q_version r) (q_close r) false 0 (q_path r) (q_query r) (q_fragment r) (q_body r)
    (fold_left (fun m p => h_set p.1 p.2 m) (sent_fields r) []) [] [].

Lemma find_fold_set key fields : forall m,
  h_find key (fold_left (fun m p => h_set p.1 p.2 m) fields m) =
  match h_find key (rev fields) with Some v => Some v | None => h_find key m end.
Proof.
  induction fields as [|[k v] fields IH]; intros m; [done|]. cbn [fold_left rev fst snd]. rewrite IH, smap_find_set.
  assert (forall l l', h_find key (l ++ l') = match h_find key l with Some x => Some x | None => h_find key l' end) as Happ.
  { intros l l'. induction l as [|[a b] l IHl]; cbn; [done|]. by destruct (key_eq fold_case key a). }
  rewrite Happ. cbn. destruct (h_find key (rev fields)); [done|]. by destruct (key_eq fold_case key k).
Qed.

Lemma find_app key l l' :
  h_find key (l ++ l') = match h_find key l with Some x => Some x | None => h_find key l' end.
Proof. induction l as [|[a b] l IHl]; cbn; [done|]. by destruct (key_eq fold_case key a). Qed.

Lemma sorted_filter (f : bytes * bytes -> bool) m : h_sorted m -> h_sorted (List.filter f m).
Proof.
  induction m as [|[k v] m IH]; cbn; [done|]. intros [H1 H2]. destruct (f (k, v)); cbn; [|auto]. split; [|auto].
  apply List.Forall_forall. rewrite List.Forall_forall in H1. intros p Hp. apply filter_In in Hp as [Hp _]. auto.
Qed.

Lemma find_rev key m : h_sorted m -> h_find key (rev m) = h_find key m.
Proof.
  induction m as [|[k v] m IH]; [done|]. intros [H1 H2]. cbn [rev]. rewrite find_app, IH by done. cbn.
  destruct (key_eq fold_case key k) eqn:E; [|by destruct (h_find key m)].
  rewrite (smap_find_equiv _ _ _ _ E), smap_find_below; done.
Qed.

Lemma find_filter_other key (name : bytes) m :
  key_eq fold_case key name = false ->
  h_find key (List.filter (fun p => negb (strcaseeq p.1 name)) m) = h_find key m.
Proof.
  intros Hk. induction m as [|[k v] m IH]; [done|]. cbn [List.filter smap_find fst].
  destruct (strcaseeq k name) eqn:E; cbn [negb smap_find]; rewrite IH; [|done].
  apply bool_decide_eq_true in E. unfold key_eq in *. by rewrite E, Hk.
Qed.

Lemma find_filter_same (name : bytes) m :
  h_find name (List.filter (fun p => negb (strcaseeq p.1 name)) m) = None.
Proof.
  induction m as [|[k v] m IH]; [done|]. cbn [List.filter fst]. destruct (strcaseeq k name) eqn:E; cbn [negb smap_find]; [done|].
  rewrite IH. unfold key_eq. apply bool_decide_eq_false in E. by rewrite bool_decide_eq_false_2 by congruence.
Qed.

(** A field of the header received: the connection field, then the length of the body,
    then the sender's own. *)
Lemma find_received r key :
  h_sorted (q_headers r) ->
  h_find key (fold_left (fun m p => h_set p.1 p.2 m) (sent_fields r) []) =
  if match q_body r with [] => false | _ => key_eq fold_case key (str "content-length") end
  then Some (dec (Z.of_nat (length (q_body r))))
  else if key_eq fold_case key (str "connection") then Some (if q_close r then str "close" else str "keep-alive")
  else h_find key (q_headers r).
Proof.
  intros Hs. rewrite find_fold_set. unfold sent_fields. cbn [rev]. rewrite rev_app_distr, !find_app.
  rewrite (find_rev key (List.filter _ _)) by (by apply sorted_filter). cbn [smap_find].
  assert (h_find key (List.filter (fun p => negb (strcaseeq p.1 (str "connection"))) (q_headers r)) =
    if key_eq fold_case key (str "connection") then None else h_find key (q_headers r)) as ->.
  { destruct (key_eq fold_case key (str "connection")) eqn:E; [|by apply find_filter_other].
    rewrite (smap_find_equiv _ _ _ _ E). apply find_filter_same. }
  destruct (q_body r) as [|c b]; cbn [rev app smap_find]; repeat case_match; congruence.
Qed.

(** Headers other than the two that [dump] writes arrive unchanged. *)
Lemma received_header r key def :
  h_sorted (q_headers r) -> key_eq fold_case key (str "connection") = false -> key_eq fold_case key (str "content-length") = false ->
  HttpRequest_getHeader (received r) key def = HttpRequest_getHeader r key def.
Proof.
  intros Hs H1 H2. unfold HttpRequest_getHeader. cbn [received q_headers]. rewrite find_received, H1, H2 by done. by destruct (q_body r).
Qed.

(** [init] restores the connection flag from the field. *)
Lemma init_received r body :
  h_sorted (q_headers r) -> body = q_body r ->
  HttpRequest_init (HttpRequest_setBody (received_head r) body) = received r.
Proof.
  intros Hs ->. unfold HttpRequest_init, HttpRequest_getHeader.
  cbn [HttpRequest_setBody received_head received_with q_headers]. rewrite find_received by done.
  replace (match q_body r with [] => false | _ => key_eq fold_case (str "connection") (str "content-length") end) with false by (by destruct (q_body r)).
  replace (key_eq fold_case (str "connection") (str "connection")) with true by done. unfold received.
  by destruct (q_close r).
Qed.

Section recv.
Context {S : Type} {SO : StreamOps S} {SS : StreamSpec S}.
Context (buff_size : Z) (lexical_cast : bytes -> option Z).
Implicit Types st : S.
Hypothesis lexical_cast_dec : forall n, 0 <= n < 2 ^ 31 -> lexical_cast (dec n) = Some n.
Hypothesis buff_size_ok : 0 < buff_size < 2 ^ 31.

Lemma head_with_pos r fields : (0 < length (head_with r fields))%nat.
Proof. unfold head_with. rewrite !length_app. cbn. lia. Qed.

Lemma request_head_pos r : (0 < length (request_head r))%nat.
Proof. apply head_with_pos. Qed.

(** The first read brings [k] bytes, the whole header among them. *)
Lemma recv_head_with fuel st h r fields rest k st1 :
  request_ok r = true -> forallb field_ok fields = true -> incoming st = head_with r fields ++ rest ->
  stream_read st buff_size = (Z.of_nat k, take k (incoming st), st1) ->
  (length (head_with r fields) <= k)%nat -> Z.of_nat k <= buff_size ->
  exists s', recv_head buff_size (Datatypes.S fuel) st (HttpRequestParser_new h) [] =
      Ok (Some (s', take (k - length (head_with r fields)) rest), st1) /\ rp_data s' = received_with r fields.
Proof.
  intros Hok Hf Hin Hr Hk Hkb. pose proof (head_with_pos r fields) as Hpos. cbn [recv_head].
  replace (buff_size - Z.of_nat (length [])) with buff_size by (cbn; lia). rewrite Hr.
  rewrite (proj2 (Z.leb_gt (Z.of_nat k) 0)) by lia. rewrite Hin, take_app_ge by done. cbn [app].
  destruct (http_parse_head r fields h (take (k - length (head_with r fields)) rest)) as (s' & E & Hd & He & Hfin); [done|done|].
  exists s'. unfold HttpRequestParser_execute. rewrite E. cbn [obind]. rewrite Nat2Z.id, drop_app_length, He, Hfin.
  rewrite swrap_small by lia. rewrite (proj2 (Z.eqb_neq _ _)) by (rewrite length_take; lia). done.
Qed.

Lemma recv_head_ok fuel st h r rest k st1 :
  request_ok r = true -> Z.of_nat (length (q_body r)) < 2 ^ 31 -> incoming st = request_head r ++ rest ->
  stream_read st buff_size = (Z.of_nat k, take k (incoming st), st1) ->
  (length (request_head r) <= k)%nat -> Z.of_nat k <= buff_size ->
  exists s', recv_head buff_size (Datatypes.S fuel) st (HttpRequestParser_new h) [] =
      Ok (Some (s', take (k - length (request_head r)) rest), st1) /\ rp_data s' = received_head r.
Proof.
  intros Hok Hb. apply recv_head_with; [done|]. apply sent_fields_ok; [|lia].
  unfold request_ok in Hok. by apply andb_true_iff in Hok as [_ Hok].
Qed.

Lemma recv_body_ok st parser r data :
  rp_data parser = received_head r -> h_sorted (q_headers r) -> h_find (str "content-length") (q_headers r) = None ->
  Z.of_nat (length (q_body r)) < 2 ^ 31 -> (exists rest, data ++ incoming st = q_body r ++ rest) ->
  exists st', recv_body lexical_cast st parser data = Ok (Some (received r), st') /\
    incoming st' = drop (length (q_body r) - length data) (incoming st) /\ outgoing st' = outgoing st.
Proof.
  intros Hd Hs Hc Hb [rest Hin]. unfold recv_body, HttpRequestParser_getContentLength, getAs. rewrite Hd.
  cbn [received_head received_with q_headers]. rewrite find_received by done.
  replace (key_eq fold_case (str "content-length") (str "content-length")) with true by done.
  replace (key_eq fold_case (str "content-length") (str "connection")) with false by done. rewrite Hc.
  destruct (q_body r) as [|c b] eqn:Eb.
  { cbn. exists st. split; [|by rewrite drop_0]. do 3 f_equal. rewrite <- (init_received r []) by done. done. }
  set (body := c :: b) in *. assert (0 < Z.of_nat (length body)) by (cbn; lia).
  rewrite lexical_cast_dec, (swrap_small 64) by lia. rewrite (proj2 (Z.leb_gt (Z.of_nat (length body)) 0)) by done.
  destruct (Z.leb_spec (Z.of_nat (length body) - Z.of_nat (length data)) 0) as [Hle|Hgt].
  - exists st. replace (length body - length data)%nat with 0%nat by lia. split; [|by rewrite drop_0]. do 3 f_equal.
    apply init_received; [done|]. rewrite Eb, Nat2Z.id.
    apply (f_equal (take (length body))) in Hin. rewrite take_app_le, take_app_length in Hin by lia. done.
  - destruct (readFixSize_ok st (Z.of_nat (length body) - Z.of_nat (length data))) as (st' & -> & Hi & Ho); [lia| |].
    { apply (f_equal length) in Hin. rewrite !length_app in Hin. lia. }
    exists st'. cbn [obind]. rewrite (proj2 (Z.leb_gt _ 0)) by lia. rewrite Hi.
    replace (Z.to_nat (Z.of_nat (length body) - Z.of_nat (length data))) with (length body - length data)%nat by lia.
    split; [|done]. do 3 f_equal. apply init_received; [done|]. rewrite Eb.
    apply (f_equal (take (length body))) in Hin. rewrite take_app_length, take_app_ge in Hin by lia. done.
Qed.

(** [recvRequest] on the bytes of a request. *)
Lemma recvRequest_ok fuel st h r rest :
  request_ok r = true -> q_websocket r = false -> h_sorted (q_headers r) ->
  h_find (str "content-length") (q_headers r) = None ->
  Z.of_nat (length (HttpRequest_dump r)) < 2 ^ 31 ->
  incoming st = HttpRequest_dump r ++ rest ->
  Z.of_nat (length (request_head r)) <= (stream_read st buff_size).1.1 ->
  exists st' lost, HttpSession_recvRequest buff_size lexical_cast (Datatypes.S fuel) st h = Ok (Some (received r), st') /\
    rest = lost ++ incoming st' /\ outgoing st' = outgoing st /\
    (forall key def, key_eq fold_case key (str "connection") = false -> key_eq fold_case key (str "content-length") = false ->
       HttpRequest_getHeader (received r) key def = HttpRequest_getHeader r key def).
Proof.
  intros Hok Hw Hs Hc Hlen Hin Hk.
  rewrite (dump_head r Hw) in *. rewrite <- app_assoc in Hin. rewrite length_app in Hlen.
  pose proof (request_head_pos r) as Hpos.
  destruct (read_ok st buff_size) as (k & st1 & Hk1 & Hk2 & Hr & Hi & Ho); [lia| |].
  { rewrite Hin. intros E. apply (f_equal length) in E. rewrite length_app in E. cbn in E. lia. }
  rewrite Hr in Hk. cbn [fst] in Hk. rewrite Hin in Hi. rewrite drop_app_ge in Hi by lia.
  destruct (recv_head_ok fuel st h r (q_body r ++ rest) k st1) as (s' & E & Hd); [done|lia|done|by rewrite Hr|lia|done|].
  set (data := take (k - length (request_head r)) (q_body r ++ rest)) in *.
  destruct (recv_body_ok st1 s' r data) as (st' & E2 & Hi2 & Ho2); [done..|lia| |].
  { exists rest. rewrite Hi. apply take_drop. }
  exists st', (drop (length (q_body r)) data). unfold HttpSession_recvRequest. rewrite E. cbn [obind]. rewrite E2. split; [done|].
  split_and!; [|congruence|intros; by apply received_header].
  rewrite Hi2, Hi, drop_drop. unfold data. set (m := (k - length (request_head r))%nat) in *.
  destruct (decide (m <= length (q_body r))%nat).
  - rewrite take_app_le by done. rewrite drop_ge by (rewrite length_take; lia).
    rewrite length_take. replace (m + _)%nat with (length (q_body r)) by lia. by rewrite drop_app_length.
  - rewrite take_app_ge, drop_app_length by lia. rewrite (drop_app_ge _ _ (m + _)) by lia. rewrite length_app.
    replace (m + _ - length (q_body r))%nat with (m - length (q_body r))%nat by lia. by rewrite take_drop.
Qed.

(** A request travels intact.  [sendRequest] writes the printed request, whatever
    pieces the stream takes; [recvRequest] on a stream that brings those bytes returns
    the request with the same method, version, path, query, fragment, body, connection
    flag and, apart from the connection and length fields it adds, the same headers,
    provided the first read brings the whole header.  What was read past the body is not
    given back. *)
Lemma HttpSession_request_roundtrip fuel (c st : S) h r rest :
  request_ok r = true -> q_websocket r = false -> h_sorted (q_headers r) ->
  h_find (str "content-length") (q_headers r) = None ->
  Z.of_nat (length (HttpRequest_dump r)) < 2 ^ 31 ->
  incoming st = HttpRequest_dump r ++ rest ->
  Z.of_nat (length (request_head r)) <= (stream_read st buff_size).1.1 ->
  (exists c', HttpConnection_sendRequest c r = Ok (Z.of_nat (length (HttpRequest_dump r)), c') /\
     outgoing c' = outgoing c ++ HttpRequest_dump r) /\
  exists st' lost, HttpSession_recvRequest buff_size lexical_cast (Datatypes.S fuel) st h = Ok (Some (received r), st') /\
    rest = lost ++ incoming st' /\ outgoing st' = outgoing st /\
    (forall key def, key_eq fold_case key (str "connection") = false -> key_eq fold_case key (str "content-length") = false ->
       HttpRequest_getHeader (received r) key def = HttpRequest_getHeader r key def).
Proof.
  intros Hok Hw Hs Hc Hlen Hin Hk. split; [|by apply recvRequest_ok].
  destruct (writeFixSize_ok c (HttpRequest_dump r) Hlen) as (c' & E & Ho & _). by exists c'.
Qed.

End recv.

(** ** Termination on any input *)

Lemma http_act_fuel buffer a p s : http_act buffer a p s <> NoFuel.
Proof. destruct a; cbn [http_act]; unfold text_of; repeat (case_match; cbn [obind]); done. Qed.

Lemma HttpRequestParser_execute_rest s data :
  match HttpRequestParser_execute s data with
  | Ok (_, rest, _) => (length rest <= length data)%nat
  | NoFuel => False
  | _ => True
  end.
Proof.
  unfold HttpRequestParser_execute, http_parser_execute. destruct (_ =? 0); [cbn; by rewrite drop_0|].
  pose proof (run_machine_fuel (http_act data) htable (hp_uri_relaxed (reset_offsets (rp_parser s))) (http_act_fuel data) data
    (hp_cs (reset_offsets (rp_parser s))) 0 (with_parser s (reset_offsets (rp_parser s)))).
  destruct (run_machine _ _ _ _ _ _ _) as [[[cs p] s1]| | | |]; cbn [obind]; try done.
  unfold assertb. repeat (case_match; cbn [obind] in *; try done); simplify_eq; rewrite length_drop; lia.
Qed.

Section terminates.
Context {S : Type} {SO : StreamOps S} {SS : StreamSpec S}.
Context (buff_size : Z) (lexical_cast : bytes -> option Z).
Implicit Types st : S.
Hypothesis buff_size_ok : 0 < buff_size < 2 ^ 31.

Lemma recv_head_shrinks fuel : forall st parser data,
  (length (incoming st) < fuel)%nat -> Z.of_nat (length data) < buff_size ->
  match recv_head buff_size fuel st parser data with
  | Ok (Some _, st') => (length (incoming st') <= length (incoming st))%nat
  | NoFuel => False
  | _ => True
  end.
Proof.
  induction fuel as [|fuel IH]; intros st parser data Hf Hb; [lia|]. cbn [recv_head].
  destruct (read_cases st (buff_size - Z.of_nat (length data))) as [(st' & ->)|(k & st' & Hk & Hkn & -> & Hi & Hkl)]; [lia|done|].
  rewrite (proj2 (Z.leb_gt _ 0)) by lia.
  pose proof (HttpRequestParser_execute_rest parser (data ++ take k (incoming st))) as Hr.
  destruct (HttpRequestParser_execute _ _) as [[[n rest] s']| | | |]; cbn [obind]; try done.
  rewrite length_app, length_take in Hr.
  destruct (HttpRequestParser_hasError s'); [done|]. rewrite swrap_small by lia. destruct (Z.eqb_spec (Z.of_nat (length rest)) buff_size); [done|].
  destruct (HttpRequestParser_isFinished s'); [lia|]. specialize (IH st' s' rest ltac:(lia) ltac:(lia)).
  destruct (recv_head _ _ _ _ _) as [[[?|] ?]| | | |]; try done; lia.
Qed.

Lemma recv_body_shrinks st parser data :
  match recv_body lexical_cast st parser data with
  | Ok (Some _, st') => (length (incoming st') <= length (incoming st))%nat
  | NoFuel => False
  | _ => True
  end.
Proof.
  unfold recv_body. destruct (_ <=? 0); [done|]. destruct (_ <=? 0); [done|].
  set (n := _ - _). destruct (Stream_readFixSize_returns st n) as (r & got & st' & E). rewrite E. cbn [obind].
  unfold Stream_readFixSize in E. apply readFix_loop_shrinks in E. by destruct (r <=? 0).
Qed.

(** Whatever bytes arrive, in whatever pieces, [recvRequest] comes to an end: with a
    request, with none, or with one of the failures of the parser. *)
Lemma HttpSession_recvRequest_terminates fuel st h :
  (length (incoming st) < fuel)%nat ->
  match HttpSession_recvRequest buff_size lexical_cast fuel st h with
  | Ok (Some _, st') => (length (incoming st') <= length (incoming st))%nat
  | NoFuel => False
  | _ => True
  end.
Proof.
  intros Hf. unfold HttpSession_recvRequest.
  pose proof (recv_head_shrinks fuel st (HttpRequestParser_new h) [] Hf ltac:(cbn; lia)) as H1.
  destruct (recv_head _ _ _ _ _) as [[[[parser data]|] st1]| | | |]; cbn [obind]; try done.
  pose proof (recv_body_shrinks st1 parser data) as H2.
  destruct (recv_body _ _ _ _) as [[[?|] ?]| | | |]; try done. lia.
Qed.

End terminates.

(** Decimal numbers, as Boost converts them. *)
Definition digits_cast (s : bytes) : option Z :=
  if match s with [] => false | _ => forallb is_digit s end then Some (digits_value 10 0 s) else None.

Lemma digits_cast_dec n : 0 <= n < 2 ^ 31 -> digits_cast (dec n) = Some n.
Proof.
  intros Hn. destruct (dec_spec n) as (Hne & Hd & Hv); [lia|]. unfold digits_cast. specialize (Hv []). rewrite app_nil_r in Hv.
  rewrite Hv. destruct (dec n); [done|]. by rewrite (proj2 (forallb_forall _ _)) by (by apply List.Forall_forall).
Qed.

(** A form posted with a fragment of the next request behind it. *)
Definition sample_request : HttpRequest :=
  HttpRequest_setHeader (HttpRequest_setBody (HttpRequest_setQuery (HttpRequest_setPath (HttpRequest_setMethod
    (HttpRequest_new 0x11 false) POST) (str "/a/b")) (str "x=1")) (str "k=v")) (str "Host") (str "example.com").

Lemma HttpSession_request_roundtrip_witness :
  let c := mkGreedy [] [] false in
  let st := mkGreedy (HttpRequest_dump sample_request ++ str "GET") [] false in
  (exists c', HttpConnection_sendRequest c sample_request = Ok (91, c') /\ outgoing c' = HttpRequest_dump sample_request) /\
  exists st', HttpSession_recvRequest 4096 digits_cast 1 st (mkParser 0 0 0 0 0 0 0 0 false false false) =
    Ok (Some (received sample_request), st').
Proof.
  cbv zeta.
  destruct (HttpSession_request_roundtrip 4096 digits_cast digits_cast_dec ltac:(lia) 0 (mkGreedy [] [] false)
    (mkGreedy (HttpRequest_dump sample_request ++ str "GET") [] false) (mkParser 0 0 0 0 0 0 0 0 false false false)
    sample_request (str "GET")) as [H1 (st' & lost & H2 & _)]; try reflexivity.
  - repeat constructor.
  - discriminate.
  - split; [exact H1|]. by exists st'.
Defined.

(** ** Requests cut by the transport

    [http_parser_execute] resets its marks on entry, and the buffer is emptied between
    calls, so a token that is cut by the end of a read is not put together again. *)

Definition fresh_parser : HttpRequestParser := HttpRequestParser_new (mkParser 0 0 0 0 0 0 0 0 false false false).

Definition execute_pieces (a b : bytes) : outcome HttpRequestParser :=
  let! (_, rest, s) := HttpRequestParser_execute fresh_parser a in
  let! (_, _, s) := HttpRequestParser_execute s (rest ++ b) in
  Ok s.

(** The path [/abc] cut after [/ab] arrives as [c]. *)
Lemma split_path_is_cut :
  exists s, execute_pieces (str "GET /ab") (str "c HTTP/1.1" ++ crlf ++ crlf) = Ok s /\
    HttpRequestParser_isFinished s = true /\ HttpRequestParser_hasError s = false /\ q_path (rp_data s) = str "c".
Proof. eexists. split; [vm_compute; reflexivity|]. by vm_compute. Qed.

(** A query cut by a read ends in an exception: its start lies behind the end. *)
Lemma split_query_throws :
  execute_pieces (str "GET /a?x=1&") (str "y=2 HTTP/1.1" ++ crlf ++ crlf) = Throw logic_error.
Proof. reflexivity. Qed.

(** A field cut in its value is dropped. *)
Lemma split_field_is_dropped :
  exists s, execute_pieces (str "GET /a HTTP/1.1" ++ crlf ++ str "Host: ex") (str "ample" ++ crlf ++ crlf) = Ok s /\
    HttpRequestParser_isFinished s = true /\ HttpRequestParser_hasError s = false /\ q_headers (rp_data s) = [].
Proof. eexists. split; [vm_compute; reflexivity|]. by vm_compute. Qed.

(** So the limit on the header's size never applies: the machine consumes all it is
    given, and the buffer is empty again. *)
Lemma header_size_unbounded :
  exists rest s, HttpRequestParser_execute fresh_parser (str "GET /aaaaaaaaaaaaaaaaaaaaaaaaaaa") = Ok (32, rest, s) /\
    rest = [] /\ HttpRequestParser_hasError s = false /\ HttpRequestParser_isFinished s = false.
Proof. eexists _, _. split; [vm_compute; reflexivity|]. by vm_compute. Qed.

(** A method that begins with the name of another is taken for it, and control
    characters are accepted in names and values of fields. *)
Lemma method_prefix_accepted :
  exists n s, http_parser_execute fresh_parser (str "GETX / HTTP/1.1" ++ crlf ++ str "a" ++ [7] ++ str ":" ++ [8] ++ crlf ++ crlf) = Ok (n, s) /\
    HttpRequestParser_isFinished s = true /\ HttpRequestParser_hasError s = false /\
    q_method (rp_data s) = GET /\ q_headers (rp_data s) = [(str "a" ++ [7], [8])].
Proof. eexists _, _. split; [vm_compute; reflexivity|]. by vm_compute. Qed.

(** [M-SEARCH] can be sent but is not in the grammar of methods. *)
Lemma msearch_rejected :
  exists n s, http_parser_execute fresh_parser (HttpRequest_dump (HttpRequest_setMethod (HttpRequest_new 0x11 true) 24)) = Ok (n, s) /\
    HttpRequestParser_hasError s = true.
Proof. eexists _, _. split; [vm_compute; reflexivity|]. by vm_compute. Qed.
