(* ===== verification/HttpClientTable.v ===== *)
(** * The state machine of the HTTP response parser ([http/httpclient_parser.rl.cc])

    As in [Http11Table]: a state is a row of ranges with the transition taken on each,
    named by the labels of the generated code. *)

From S2P Require Import Prelude Ragel.
From Stdlib Require Import ZArith List.
Import ListNotations.

Open Scope Z_scope.

(** The actions, in the order of [httpclient_parser.rl]. *)
Inductive client_action :=
| c_mark | c_start_field | c_write_field | c_start_value | c_write_content_len | c_write_connection_close
| c_write_value | c_reason_phrase | c_status_code | c_http_version | c_chunk_size | c_trans_chunked | c_done.

(** ** Transitions with actions *)

(** @src http/httpclient_parser.rl.cc:137-140 tr0 *)
Definition ctr0 := tr [c_mark] 2.

(** @src http/httpclient_parser.rl.cc:160-180 tr3 *)
Definition ctr3 := tr [c_chunk_size; c_done] 120.

(** @src http/httpclient_parser.rl.cc:181-189 tr7 *)
Definition ctr7 := tr [c_done] 120.

(** @src http/httpclient_parser.rl.cc:190-210 tr9 *)
Definition ctr9 := tr [c_write_field; c_start_value; c_write_value; c_done] 120.

(** @src http/httpclient_parser.rl.cc:211-225 tr15 *)
Definition ctr15 := tr [c_write_value; c_done] 120.

(** @src http/httpclient_parser.rl.cc:226-238 tr74 *)
Definition ctr74 := tr [c_write_connection_close; c_done] 120.

(** @src http/httpclient_parser.rl.cc:245-258 tr4 *)
Definition ctr4 := tr [c_chunk_size] 3.

(** @src http/httpclient_parser.rl.cc:259-272 tr10 *)
Definition ctr10 := tr [c_write_field; c_start_value; c_write_value] 3.

(** @src http/httpclient_parser.rl.cc:273-280 tr16 *)
Definition ctr16 := tr [c_write_value] 3.

(** @src http/httpclient_parser.rl.cc:281-286 tr75 *)
Definition ctr75 := tr [c_write_connection_close] 3.

(** @src http/httpclient_parser.rl.cc:295-308 tr6 *)
Definition ctr6 := tr [c_chunk_size] 4.

(** @src http/httpclient_parser.rl.cc:309-322 tr12 *)
Definition ctr12 := tr [c_write_field; c_start_value; c_write_value] 4.

(** @src http/httpclient_parser.rl.cc:323-330 tr18 *)
Definition ctr18 := tr [c_write_value] 4.

(** @src http/httpclient_parser.rl.cc:359-362 tr8 *)
Definition ctr8 := tr [c_start_field] 5.

(** @src http/httpclient_parser.rl.cc:395-402 tr13 *)
Definition ctr13 := tr [c_write_field; c_start_value] 6.

(** @src http/httpclient_parser.rl.cc:431-434 tr14 *)
Definition ctr14 := tr [c_start_value] 7.

(** @src http/httpclient_parser.rl.cc:466-469 tr2 *)
Definition ctr2 := tr [c_mark] 8.

(** @src http/httpclient_parser.rl.cc:531-537 tr26 *)
Definition ctr26 := tr [c_http_version] 16.

(** @src http/httpclient_parser.rl.cc:546-549 tr27 *)
Definition ctr27 := tr [c_mark] 17.

(** @src http/httpclient_parser.rl.cc:560-568 tr28 *)
Definition ctr28 := tr [c_status_code] 18.

(** @src http/httpclient_parser.rl.cc:577-580 tr30 *)
Definition ctr30 := tr [c_mark] 19.

(** @src http/httpclient_parser.rl.cc:591-598 tr45 *)
Definition ctr45 := tr [c_write_value] 20.

(** @src http/httpclient_parser.rl.cc:599-605 tr32 *)
Definition ctr32 := tr [c_reason_phrase] 20.

(** @src http/httpclient_parser.rl.cc:606-615 tr42 *)
Definition ctr42 := tr [c_start_value; c_write_value] 20.

(** @src http/httpclient_parser.rl.cc:616-627 tr111 *)
Definition ctr111 := tr [c_write_value; c_trans_chunked] 20.

(** @src http/httpclient_parser.rl.cc:628-633 tr113 *)
Definition ctr113 := tr [c_trans_chunked] 20.

(** @src http/httpclient_parser.rl.cc:634-645 tr158 *)
Definition ctr158 := tr [c_write_content_len; c_write_value] 20.

(** @src http/httpclient_parser.rl.cc:680-683 tr35 *)
Definition ctr35 := tr [c_start_field] 21.

(** @src http/httpclient_parser.rl.cc:684-691 tr76 *)
Definition ctr76 := tr [c_write_connection_close; c_start_field] 21.

(** @src http/httpclient_parser.rl.cc:721-724 tr41 *)
Definition ctr41 := tr [c_start_value] 22.

(** @src http/httpclient_parser.rl.cc:725-730 tr39 *)
Definition ctr39 := tr [c_write_field] 22.

(** @src http/httpclient_parser.rl.cc:744-747 tr40 *)
Definition ctr40 := tr [c_start_value] 23.

(** @src http/httpclient_parser.rl.cc:758-765 tr46 *)
Definition ctr46 := tr [c_write_value] 24.

(** @src http/httpclient_parser.rl.cc:766-772 tr33 *)
Definition ctr33 := tr [c_reason_phrase] 24.

(** @src http/httpclient_parser.rl.cc:773-782 tr43 *)
Definition ctr43 := tr [c_start_value; c_write_value] 24.

(** @src http/httpclient_parser.rl.cc:783-794 tr159 *)
Definition ctr159 := tr [c_write_content_len; c_write_value] 24.

(** @src http/httpclient_parser.rl.cc:803-806 tr36 *)
Definition ctr36 := tr [c_start_field] 25.

(** @src http/httpclient_parser.rl.cc:807-814 tr77 *)
Definition ctr77 := tr [c_write_connection_close; c_start_field] 25.

(** @src http/httpclient_parser.rl.cc:1116-1119 tr59 *)
Definition ctr59 := tr [c_start_value] 35.

(** @src http/httpclient_parser.rl.cc:1120-1125 tr58 *)
Definition ctr58 := tr [c_write_field] 35.

(** @src http/httpclient_parser.rl.cc:1141-1150 tr60 *)
Definition ctr60 := tr [c_start_value; c_write_value] 36.

(** @src http/httpclient_parser.rl.cc:1246-1253 tr136 *)
Definition ctr136 := tr [c_write_value] 43.

(** @src http/httpclient_parser.rl.cc:1288-1291 tr37 *)
Definition ctr37 := tr [c_start_field] 44.

(** @src http/httpclient_parser.rl.cc:1292-1299 tr78 *)
Definition ctr78 := tr [c_write_connection_close; c_start_field] 44.

(** @src http/httpclient_parser.rl.cc:1806-1809 tr96 *)
Definition ctr96 := tr [c_start_value] 61.

(** @src http/httpclient_parser.rl.cc:1810-1815 tr95 *)
Definition ctr95 := tr [c_write_field] 61.

(** @src http/httpclient_parser.rl.cc:1831-1840 tr97 *)
Definition ctr97 := tr [c_start_value; c_write_value] 62.

(** @src http/httpclient_parser.rl.cc:1891-1894 tr104 *)
Definition ctr104 := tr [c_start_value] 64.

(** @src http/httpclient_parser.rl.cc:1959-1966 tr112 *)
Definition ctr112 := tr [c_write_value] 71.

(** @src http/httpclient_parser.rl.cc:1975-1983 tr101 *)
Definition ctr101 := tr [c_done] 121.

(** @src http/httpclient_parser.rl.cc:2010-2015 tr103 *)
Definition ctr103 := tr [c_start_value; c_start_field] 73.

(** @src http/httpclient_parser.rl.cc:2229-2238 tr98 *)
Definition ctr98 := tr [c_start_value; c_write_value] 80.

(** @src http/httpclient_parser.rl.cc:2253-2256 tr99 *)
Definition ctr99 := tr [c_start_value] 81.

(** @src http/httpclient_parser.rl.cc:2333-2340 tr137 *)
Definition ctr137 := tr [c_write_value] 88.

(** @src http/httpclient_parser.rl.cc:2349-2357 tr64 *)
Definition ctr64 := tr [c_done] 122.

(** @src http/httpclient_parser.rl.cc:2384-2387 tr66 *)
Definition ctr66 := tr [c_start_field] 90.

(** @src http/httpclient_parser.rl.cc:2541-2550 tr61 *)
Definition ctr61 := tr [c_start_value; c_write_value] 95.

(** @src http/httpclient_parser.rl.cc:2565-2568 tr62 *)
Definition ctr62 := tr [c_start_value] 96.

(** @src http/httpclient_parser.rl.cc:2948-2951 tr149 *)
Definition ctr149 := tr [c_start_value] 112.

(** @src http/httpclient_parser.rl.cc:2952-2957 tr148 *)
Definition ctr148 := tr [c_write_field] 112.

(** @src http/httpclient_parser.rl.cc:2974-2983 tr150 *)
Definition ctr150 := tr [c_start_value; c_write_value] 113.

(** @src http/httpclient_parser.rl.cc:3034-3037 tr157 *)
Definition ctr157 := tr [c_start_value] 115.

(** @src http/httpclient_parser.rl.cc:3050-3058 tr154 *)
Definition ctr154 := tr [c_done] 123.

(** @src http/httpclient_parser.rl.cc:3086-3091 tr156 *)
Definition ctr156 := tr [c_start_value; c_start_field] 117.

(** @src http/httpclient_parser.rl.cc:3123-3132 tr151 *)
Definition ctr151 := tr [c_start_value; c_write_value] 118.

(** @src http/httpclient_parser.rl.cc:3148-3151 tr152 *)
Definition ctr152 := tr [c_start_value] 119.

(** ** States *)

(** @src http/httpclient_parser.rl.cc:122-244 httpclient_parser_execute *)
Definition crows_1 : list (row client_action) := [
  mkRow 1 false [rng 48 57 ctr0; rng 65 70 ctr0; on 72 ctr2; rng 97 102 ctr0];
  mkRow 2 false [on 10 ctr3; on 13 ctr4; rng 48 57 (st 2); on 59 ctr6; rng 65 70 (st 2); rng 97 102 (st 2)];
  mkRow 120 false []].

(** @src http/httpclient_parser.rl.cc:287-430 httpclient_parser_execute *)
Definition crows_2 : list (row client_action) := [
  mkRow 3 false [on 10 ctr7];
  mkRow 4 false [on 33 ctr8; rng 35 39 ctr8; rng 42 43 ctr8; rng 45 46 ctr8; rng 48 57 ctr8; rng 65 90 ctr8;
    rng 94 122 ctr8; on 124 ctr8; on 126 ctr8];
  mkRow 5 false [on 10 ctr9; on 13 ctr10; on 33 (st 5); rng 35 39 (st 5); rng 42 43 (st 5); rng 45 46 (st 5);
    rng 48 57 (st 5); on 59 ctr12; on 61 ctr13; rng 65 90 (st 5); rng 94 122 (st 5); on 124 (st 5);
    on 126 (st 5)];
  mkRow 6 false [on 33 ctr14; rng 35 39 ctr14; rng 42 43 ctr14; rng 45 46 ctr14; rng 48 57 ctr14;
    rng 65 90 ctr14; rng 94 122 ctr14; on 124 ctr14; on 126 ctr14]].

(** @src http/httpclient_parser.rl.cc:435-576 httpclient_parser_execute *)
Definition crows_3 : list (row client_action) := [
  mkRow 7 false [on 10 ctr15; on 13 ctr16; on 33 (st 7); rng 35 39 (st 7); rng 42 43 (st 7); rng 45 46 (st 7);
    rng 48 57 (st 7); on 59 ctr18; rng 65 90 (st 7); rng 94 122 (st 7); on 124 (st 7); on 126 (st 7)];
  mkRow 8 false [on 84 (st 9)];
  mkRow 9 false [on 84 (st 10)];
  mkRow 10 false [on 80 (st 11)];
  mkRow 11 false [on 47 (st 12)];
  mkRow 12 false [rng 48 57 (st 13)];
  mkRow 13 false [on 46 (st 14); rng 48 57 (st 13)];
  mkRow 14 false [rng 48 57 (st 15)];
  mkRow 15 false [on 32 ctr26; rng 48 57 (st 15)];
  mkRow 16 false [rng 48 57 ctr27];
  mkRow 17 false [on 32 ctr28; rng 48 57 (st 17)];
  mkRow 18 false [rng (-128) 9 ctr30; rng 11 127 ctr30]].

(** @src http/httpclient_parser.rl.cc:581-720 httpclient_parser_execute *)
Definition crows_4 : list (row client_action) := [
  mkRow 19 false [rng (-128) 9 (st 19); on 10 ctr32; rng 11 12 (st 19); on 13 ctr33; rng 14 127 (st 19)];
  mkRow 20 false [on 10 ctr7; on 13 (st 3); on 33 ctr35; rng 35 39 ctr35; rng 42 43 ctr35; rng 45 46 ctr35;
    rng 48 57 ctr35; rng 65 66 ctr35; on 67 ctr36; rng 68 83 ctr35; on 84 ctr37; rng 85 90 ctr35;
    rng 94 98 ctr35; on 99 ctr36; rng 100 115 ctr35; on 116 ctr37; rng 117 122 ctr35; on 124 ctr35; on 126 ctr35];
  mkRow 21 false [on 33 (st 21); rng 35 39 (st 21); rng 42 43 (st 21); rng 45 46 (st 21); rng 48 57 (st 21);
    on 58 ctr39; rng 65 90 (st 21); rng 94 122 (st 21); on 124 (st 21); on 126 (st 21)]].

(** @src http/httpclient_parser.rl.cc:731-875 httpclient_parser_execute *)
Definition crows_5 : list (row client_action) := [
  mkRow 22 false [rng (-128) 8 ctr40; on 9 ctr41; on 10 ctr42; rng 11 12 ctr41; on 13 ctr43; rng 14 31 ctr40;
    on 32 ctr41; rng 33 127 ctr40];
  mkRow 23 false [rng (-128) 9 (st 23); on 10 ctr45; rng 11 12 (st 23); on 13 ctr46; rng 14 127 (st 23)];
  mkRow 24 false [on 10 (st 20)];
  mkRow 25 false [on 33 (st 21); rng 35 39 (st 21); rng 42 43 (st 21); rng 45 46 (st 21); rng 48 57 (st 21);
    on 58 ctr39; rng 65 78 (st 21); on 79 (st 26); rng 80 90 (st 21); rng 94 110 (st 21); on 111 (st 26);
    rng 112 122 (st 21); on 124 (st 21); on 126 (st 21)];
  mkRow 26 false [on 33 (st 21); rng 35 39 (st 21); rng 42 43 (st 21); rng 45 46 (st 21); rng 48 57 (st 21);
    on 58 ctr39; rng 65 77 (st 21); on 78 (st 27); rng 79 90 (st 21); rng 94 109 (st 21); on 110 (st 27);
    rng 111 122 (st 21); on 124 (st 21); on 126 (st 21)]].

(** @src http/httpclient_parser.rl.cc:876-997 httpclient_parser_execute *)
Definition crows_6 : list (row client_action) := [
  mkRow 27 false [on 33 (st 21); rng 35 39 (st 21); rng 42 43 (st 21); rng 45 46 (st 21); rng 48 57 (st 21);
    on 58 ctr39; rng 65 77 (st 21); on 78 (st 28); rng 79 83 (st 21); on 84 (st 101); rng 85 90 (st 21);
    rng 94 109 (st 21); on 110 (st 28); rng 111 115 (st 21); on 116 (st 101); rng 117 122 (st 21);
    on 124 (st 21); on 126 (st 21)];
  mkRow 28 false [on 33 (st 21); rng 35 39 (st 21); rng 42 43 (st 21); rng 45 46 (st 21); rng 48 57 (st 21);
    on 58 ctr39; rng 65 68 (st 21); on 69 (st 29); rng 70 90 (st 21); rng 94 100 (st 21); on 101 (st 29);
    rng 102 122 (st 21); on 124 (st 21); on 126 (st 21)];
  mkRow 29 false [on 33 (st 21); rng 35 39 (st 21); rng 42 43 (st 21); rng 45 46 (st 21); rng 48 57 (st 21);
    on 58 ctr39; rng 65 66 (st 21); on 67 (st 30); rng 68 90 (st 21); rng 94 98 (st 21); on 99 (st 30);
    rng 100 122 (st 21); on 124 (st 21); on 126 (st 21)];
  mkRow 30 false [on 33 (st 21); rng 35 39 (st 21); rng 42 43 (st 21); rng 45 46 (st 21); rng 48 57 (st 21);
    on 58 ctr39; rng 65 83 (st 21); on 84 (st 31); rng 85 90 (st 21); rng 94 115 (st 21); on 116 (st 31);
    rng 117 122 (st 21); on 124 (st 21); on 126 (st 21)]].

(** @src http/httpclient_parser.rl.cc:998-1140 httpclient_parser_execute *)
Definition crows_7 : list (row client_action) := [
  mkRow 31 false [on 33 (st 21); rng 35 39 (st 21); rng 42 43 (st 21); rng 45 46 (st 21); rng 48 57 (st 21);
    on 58 ctr39; rng 65 72 (st 21); on 73 (st 32); rng 74 90 (st 21); rng 94 104 (st 21); on 105 (st 32);
    rng 106 122 (st 21); on 124 (st 21); on 126 (st 21)];
  mkRow 32 false [on 33 (st 21); rng 35 39 (st 21); rng 42 43 (st 21); rng 45 46 (st 21); rng 48 57 (st 21);
    on 58 ctr39; rng 65 78 (st 21); on 79 (st 33); rng 80 90 (st 21); rng 94 110 (st 21); on 111 (st 33);
    rng 112 122 (st 21); on 124 (st 21); on 126 (st 21)];
  mkRow 33 false [on 33 (st 21); rng 35 39 (st 21); rng 42 43 (st 21); rng 45 46 (st 21); rng 48 57 (st 21);
    on 58 ctr39; rng 65 77 (st 21); on 78 (st 34); rng 79 90 (st 21); rng 94 109 (st 21); on 110 (st 34);
    rng 111 122 (st 21); on 124 (st 21); on 126 (st 21)];
  mkRow 34 false [on 33 (st 21); rng 35 39 (st 21); rng 42 43 (st 21); rng 45 46 (st 21); rng 48 57 (st 21);
    on 58 ctr58; rng 65 90 (st 21); rng 94 122 (st 21); on 124 (st 21); on 126 (st 21)];
  mkRow 35 false [rng (-128) 8 ctr40; on 9 ctr59; on 10 ctr60; rng 11 12 ctr59; on 13 ctr61; rng 14 31 ctr40;
    on 32 ctr59; rng 33 66 ctr40; on 67 ctr62; rng 68 98 ctr40; on 99 ctr62; rng 100 127 ctr40]].

(** @src http/httpclient_parser.rl.cc:1151-1287 httpclient_parser_execute *)
Definition crows_8 : list (row client_action) := [
  mkRow 36 false [on 9 (st 37); on 10 ctr64; rng 11 12 (st 37); on 13 (st 89); on 32 (st 37); on 33 ctr35;
    rng 35 39 ctr35; rng 42 43 ctr35; rng 45 46 ctr35; rng 48 57 ctr35; rng 65 66 ctr35; on 67 ctr66;
    rng 68 83 ctr35; on 84 ctr37; rng 85 90 ctr35; rng 94 98 ctr35; on 99 ctr66; rng 100 115 ctr35;
    on 116 ctr37; rng 117 122 ctr35; on 124 ctr35; on 126 ctr35];
  mkRow 37 false [rng 9 13 (st 37); on 32 (st 37); on 67 (st 38); on 99 (st 38)];
  mkRow 38 false [on 76 (st 39); on 108 (st 39)];
  mkRow 39 false [on 79 (st 40); on 111 (st 40)];
  mkRow 40 false [on 83 (st 41); on 115 (st 41)];
  mkRow 41 false [on 69 (st 42); on 101 (st 42)];
  mkRow 42 false [on 10 (st 43); on 13 (st 88)];
  mkRow 43 false [on 10 ctr74; on 13 ctr75; on 33 ctr76; rng 35 39 ctr76; rng 42 43 ctr76; rng 45 46 ctr76;
    rng 48 57 ctr76; rng 65 66 ctr76; on 67 ctr77; rng 68 83 ctr76; on 84 ctr78; rng 85 90 ctr76;
    rng 94 98 ctr76; on 99 ctr77; rng 100 115 ctr76; on 116 ctr78; rng 117 122 ctr76; on 124 ctr76; on 126 ctr76]].

(** @src http/httpclient_parser.rl.cc:1300-1420 httpclient_parser_execute *)
Definition crows_9 : list (row client_action) := [
  mkRow 44 false [on 33 (st 21); rng 35 39 (st 21); rng 42 43 (st 21); rng 45 46 (st 21); rng 48 57 (st 21);
    on 58 ctr39; rng 65 81 (st 21); on 82 (st 45); rng 83 90 (st 21); rng 94 113 (st 21); on 114 (st 45);
    rng 115 122 (st 21); on 124 (st 21); on 126 (st 21)];
  mkRow 45 false [on 33 (st 21); rng 35 39 (st 21); rng 42 43 (st 21); rng 45 46 (st 21); rng 48 57 (st 21);
    on 58 ctr39; on 65 (st 46); rng 66 90 (st 21); rng 94 96 (st 21); on 97 (st 46); rng 98 122 (st 21);
    on 124 (st 21); on 126 (st 21)];
  mkRow 46 false [on 33 (st 21); rng 35 39 (st 21); rng 42 43 (st 21); rng 45 46 (st 21); rng 48 57 (st 21);
    on 58 ctr39; rng 65 77 (st 21); on 78 (st 47); rng 79 90 (st 21); rng 94 109 (st 21); on 110 (st 47);
    rng 111 122 (st 21); on 124 (st 21); on 126 (st 21)];
  mkRow 47 false [on 33 (st 21); rng 35 39 (st 21); rng 42 43 (st 21); rng 45 46 (st 21); rng 48 57 (st 21);
    on 58 ctr39; rng 65 82 (st 21); on 83 (st 48); rng 84 90 (st 21); rng 94 114 (st 21); on 115 (st 48);
    rng 116 122 (st 21); on 124 (st 21); on 126 (st 21)]].

(** @src http/httpclient_parser.rl.cc:1421-1537 httpclient_parser_execute *)
Definition crows_10 : list (row client_action) := [
  mkRow 48 false [on 33 (st 21); rng 35 39 (st 21); rng 42 43 (st 21); rng 45 46 (st 21); rng 48 57 (st 21);
    on 58 ctr39; rng 65 69 (st 21); on 70 (st 49); rng 71 90 (st 21); rng 94 101 (st 21); on 102 (st 49);
    rng 103 122 (st 21); on 124 (st 21); on 126 (st 21)];
  mkRow 49 false [on 33 (st 21); rng 35 39 (st 21); rng 42 43 (st 21); rng 45 46 (st 21); rng 48 57 (st 21);
    on 58 ctr39; rng 65 68 (st 21); on 69 (st 50); rng 70 90 (st 21); rng 94 100 (st 21); on 101 (st 50);
    rng 102 122 (st 21); on 124 (st 21); on 126 (st 21)];
  mkRow 50 false [on 33 (st 21); rng 35 39 (st 21); rng 42 43 (st 21); rng 45 46 (st 21); rng 48 57 (st 21);
    on 58 ctr39; rng 65 81 (st 21); on 82 (st 51); rng 83 90 (st 21); rng 94 113 (st 21); on 114 (st 51);
    rng 115 122 (st 21); on 124 (st 21); on 126 (st 21)];
  mkRow 51 false [on 33 (st 21); rng 35 39 (st 21); rng 42 43 (st 21); on 45 (st 52); on 46 (st 21);
    rng 48 57 (st 21); on 58 ctr39; rng 65 90 (st 21); rng 94 122 (st 21); on 124 (st 21); on 126 (st 21)]].

(** @src http/httpclient_parser.rl.cc:1538-1657 httpclient_parser_execute *)
Definition crows_11 : list (row client_action) := [
  mkRow 52 false [on 33 (st 21); rng 35 39 (st 21); rng 42 43 (st 21); rng 45 46 (st 21); rng 48 57 (st 21);
    on 58 ctr39; rng 65 68 (st 21); on 69 (st 53); rng 70 90 (st 21); rng 94 100 (st 21); on 101 (st 53);
    rng 102 122 (st 21); on 124 (st 21); on 126 (st 21)];
  mkRow 53 false [on 33 (st 21); rng 35 39 (st 21); rng 42 43 (st 21); rng 45 46 (st 21); rng 48 57 (st 21);
    on 58 ctr39; rng 65 77 (st 21); on 78 (st 54); rng 79 90 (st 21); rng 94 109 (st 21); on 110 (st 54);
    rng 111 122 (st 21); on 124 (st 21); on 126 (st 21)];
  mkRow 54 false [on 33 (st 21); rng 35 39 (st 21); rng 42 43 (st 21); rng 45 46 (st 21); rng 48 57 (st 21);
    on 58 ctr39; rng 65 66 (st 21); on 67 (st 55); rng 68 90 (st 21); rng 94 98 (st 21); on 99 (st 55);
    rng 100 122 (st 21); on 124 (st 21); on 126 (st 21)];
  mkRow 55 false [on 33 (st 21); rng 35 39 (st 21); rng 42 43 (st 21); rng 45 46 (st 21); rng 48 57 (st 21);
    on 58 ctr39; rng 65 78 (st 21); on 79 (st 56); rng 80 90 (st 21); rng 94 110 (st 21); on 111 (st 56);
    rng 112 122 (st 21); on 124 (st 21); on 126 (st 21)]].

(** @src http/httpclient_parser.rl.cc:1658-1777 httpclient_parser_execute *)
Definition crows_12 : list (row client_action) := [
  mkRow 56 false [on 33 (st 21); rng 35 39 (st 21); rng 42 43 (st 21); rng 45 46 (st 21); rng 48 57 (st 21);
    on 58 ctr39; rng 65 67 (st 21); on 68 (st 57); rng 69 90 (st 21); rng 94 99 (st 21); on 100 (st 57);
    rng 101 122 (st 21); on 124 (st 21); on 126 (st 21)];
  mkRow 57 false [on 33 (st 21); rng 35 39 (st 21); rng 42 43 (st 21); rng 45 46 (st 21); rng 48 57 (st 21);
    on 58 ctr39; rng 65 72 (st 21); on 73 (st 58); rng 74 90 (st 21); rng 94 104 (st 21); on 105 (st 58);
    rng 106 122 (st 21); on 124 (st 21); on 126 (st 21)];
  mkRow 58 false [on 33 (st 21); rng 35 39 (st 21); rng 42 43 (st 21); rng 45 46 (st 21); rng 48 57 (st 21);
    on 58 ctr39; rng 65 77 (st 21); on 78 (st 59); rng 79 90 (st 21); rng 94 109 (st 21); on 110 (st 59);
    rng 111 122 (st 21); on 124 (st 21); on 126 (st 21)];
  mkRow 59 false [on 33 (st 21); rng 35 39 (st 21); rng 42 43 (st 21); rng 45 46 (st 21); rng 48 57 (st 21);
    on 58 ctr39; rng 65 70 (st 21); on 71 (st 60); rng 72 90 (st 21); rng 94 102 (st 21); on 103 (st 60);
    rng 104 122 (st 21); on 124 (st 21); on 126 (st 21)]].

(** @src http/httpclient_parser.rl.cc:1778-1922 httpclient_parser_execute *)
Definition crows_13 : list (row client_action) := [
  mkRow 60 false [on 33 (st 21); rng 35 39 (st 21); rng 42 43 (st 21); rng 45 46 (st 21); rng 48 57 (st 21);
    on 58 ctr95; rng 65 90 (st 21); rng 94 122 (st 21); on 124 (st 21); on 126 (st 21)];
  mkRow 61 false [rng (-128) 8 ctr40; on 9 ctr96; on 10 ctr97; rng 11 12 ctr96; on 13 ctr98; rng 14 31 ctr40;
    on 32 ctr96; rng 33 66 ctr40; on 67 ctr99; rng 68 98 ctr40; on 99 ctr99; rng 100 127 ctr40];
  mkRow 62 false [on 9 (st 63); on 10 ctr101; rng 11 12 (st 63); on 13 (st 72); on 32 (st 63); on 33 ctr35;
    rng 35 39 ctr35; rng 42 43 ctr35; rng 45 46 ctr35; rng 48 57 ctr35; rng 65 66 ctr35; on 67 ctr103;
    rng 68 83 ctr35; on 84 ctr37; rng 85 90 ctr35; rng 94 98 ctr35; on 99 ctr103; rng 100 115 ctr35;
    on 116 ctr37; rng 117 122 ctr35; on 124 ctr35; on 126 ctr35];
  mkRow 63 false [rng 9 13 (st 63); on 32 (st 63); on 67 ctr104; on 99 ctr104];
  mkRow 64 false [on 72 (st 65); on 104 (st 65)];
  mkRow 65 false [on 85 (st 66); on 117 (st 66)];
  mkRow 66 false [on 78 (st 67); on 110 (st 67)]].

(** @src http/httpclient_parser.rl.cc:1923-2048 httpclient_parser_execute *)
Definition crows_14 : list (row client_action) := [
  mkRow 67 false [on 75 (st 68); on 107 (st 68)];
  mkRow 68 false [on 69 (st 69); on 101 (st 69)];
  mkRow 69 false [on 68 (st 70); on 100 (st 70)];
  mkRow 70 false [on 10 ctr111; on 13 ctr112];
  mkRow 71 false [on 10 ctr113];
  mkRow 121 false [rng 9 13 (st 63); on 32 (st 63); on 67 ctr104; on 99 ctr104];
  mkRow 72 false [on 9 (st 63); on 10 ctr101; rng 11 13 (st 63); on 32 (st 63); on 67 ctr104; on 99 ctr104];
  mkRow 73 false [on 33 (st 21); rng 35 39 (st 21); rng 42 43 (st 21); rng 45 46 (st 21); rng 48 57 (st 21);
    on 58 ctr39; rng 65 71 (st 21); on 72 (st 74); rng 73 78 (st 21); on 79 (st 26); rng 80 90 (st 21);
    rng 94 103 (st 21); on 104 (st 74); rng 105 110 (st 21); on 111 (st 26); rng 112 122 (st 21);
    on 124 (st 21); on 126 (st 21)]].

(** @src http/httpclient_parser.rl.cc:2049-2168 httpclient_parser_execute *)
Definition crows_15 : list (row client_action) := [
  mkRow 74 false [on 33 (st 21); rng 35 39 (st 21); rng 42 43 (st 21); rng 45 46 (st 21); rng 48 57 (st 21);
    on 58 ctr39; rng 65 84 (st 21); on 85 (st 75); rng 86 90 (st 21); rng 94 116 (st 21); on 117 (st 75);
    rng 118 122 (st 21); on 124 (st 21); on 126 (st 21)];
  mkRow 75 false [on 33 (st 21); rng 35 39 (st 21); rng 42 43 (st 21); rng 45 46 (st 21); rng 48 57 (st 21);
    on 58 ctr39; rng 65 77 (st 21); on 78 (st 76); rng 79 90 (st 21); rng 94 109 (st 21); on 110 (st 76);
    rng 111 122 (st 21); on 124 (st 21); on 126 (st 21)];
  mkRow 76 false [on 33 (st 21); rng 35 39 (st 21); rng 42 43 (st 21); rng 45 46 (st 21); rng 48 57 (st 21);
    on 58 ctr39; rng 65 74 (st 21); on 75 (st 77); rng 76 90 (st 21); rng 94 106 (st 21); on 107 (st 77);
    rng 108 122 (st 21); on 124 (st 21); on 126 (st 21)];
  mkRow 77 false [on 33 (st 21); rng 35 39 (st 21); rng 42 43 (st 21); rng 45 46 (st 21); rng 48 57 (st 21);
    on 58 ctr39; rng 65 68 (st 21); on 69 (st 78); rng 70 90 (st 21); rng 94 100 (st 21); on 101 (st 78);
    rng 102 122 (st 21); on 124 (st 21); on 126 (st 21)]].

(** @src http/httpclient_parser.rl.cc:2169-2312 httpclient_parser_execute *)
Definition crows_16 : list (row client_action) := [
  mkRow 78 false [on 33 (st 21); rng 35 39 (st 21); rng 42 43 (st 21); rng 45 46 (st 21); rng 48 57 (st 21);
    on 58 ctr39; rng 65 67 (st 21); on 68 (st 79); rng 69 90 (st 21); rng 94 99 (st 21); on 100 (st 79);
    rng 101 122 (st 21); on 124 (st 21); on 126 (st 21)];
  mkRow 79 false [on 10 ctr111; on 13 ctr112; on 33 (st 21); rng 35 39 (st 21); rng 42 43 (st 21);
    rng 45 46 (st 21); rng 48 57 (st 21); on 58 ctr39; rng 65 90 (st 21); rng 94 122 (st 21); on 124 (st 21);
    on 126 (st 21)];
  mkRow 80 false [on 9 (st 63); on 10 (st 62); rng 11 13 (st 63); on 32 (st 63); on 67 ctr104; on 99 ctr104];
  mkRow 81 false [rng (-128) 9 (st 23); on 10 ctr45; rng 11 12 (st 23); on 13 ctr46; rng 14 71 (st 23);
    on 72 (st 82); rng 73 103 (st 23); on 104 (st 82); rng 105 127 (st 23)];
  mkRow 82 false [rng (-128) 9 (st 23); on 10 ctr45; rng 11 12 (st 23); on 13 ctr46; rng 14 84 (st 23);
    on 85 (st 83); rng 86 116 (st 23); on 117 (st 83); rng 118 127 (st 23)];
  mkRow 83 false [rng (-128) 9 (st 23); on 10 ctr45; rng 11 12 (st 23); on 13 ctr46; rng 14 77 (st 23);
    on 78 (st 84); rng 79 109 (st 23); on 110 (st 84); rng 111 127 (st 23)];
  mkRow 84 false [rng (-128) 9 (st 23); on 10 ctr45; rng 11 12 (st 23); on 13 ctr46; rng 14 74 (st 23);
    on 75 (st 85); rng 76 106 (st 23); on 107 (st 85); rng 108 127 (st 23)];
  mkRow 85 false [rng (-128) 9 (st 23); on 10 ctr45; rng 11 12 (st 23); on 13 ctr46; rng 14 68 (st 23);
    on 69 (st 86); rng 70 100 (st 23); on 101 (st 86); rng 102 127 (st 23)]].

(** @src http/httpclient_parser.rl.cc:2313-2450 httpclient_parser_execute *)
Definition crows_17 : list (row client_action) := [
  mkRow 86 false [rng (-128) 9 (st 23); on 10 ctr45; rng 11 12 (st 23); on 13 ctr46; rng 14 67 (st 23);
    on 68 (st 87); rng 69 99 (st 23); on 100 (st 87); rng 101 127 (st 23)];
  mkRow 87 false [rng (-128) 9 (st 23); on 10 ctr111; rng 11 12 (st 23); on 13 ctr112; rng 14 127 (st 23)];
  mkRow 88 false [on 10 (st 43)];
  mkRow 122 false [rng 9 13 (st 37); on 32 (st 37); on 67 (st 38); on 99 (st 38)];
  mkRow 89 false [on 9 (st 37); on 10 ctr64; rng 11 13 (st 37); on 32 (st 37); on 67 (st 38); on 99 (st 38)];
  mkRow 90 false [on 33 (st 21); rng 35 39 (st 21); rng 42 43 (st 21); rng 45 46 (st 21); rng 48 57 (st 21);
    on 58 ctr39; rng 65 75 (st 21); on 76 (st 91); rng 77 78 (st 21); on 79 (st 26); rng 80 90 (st 21);
    rng 94 107 (st 21); on 108 (st 91); rng 109 110 (st 21); on 111 (st 26); rng 112 122 (st 21);
    on 124 (st 21); on 126 (st 21)];
  mkRow 91 false [on 33 (st 21); rng 35 39 (st 21); rng 42 43 (st 21); rng 45 46 (st 21); rng 48 57 (st 21);
    on 58 ctr39; rng 65 78 (st 21); on 79 (st 92); rng 80 90 (st 21); rng 94 110 (st 21); on 111 (st 92);
    rng 112 122 (st 21); on 124 (st 21); on 126 (st 21)]].

(** @src http/httpclient_parser.rl.cc:2451-2591 httpclient_parser_execute *)
Definition crows_18 : list (row client_action) := [
  mkRow 92 false [on 33 (st 21); rng 35 39 (st 21); rng 42 43 (st 21); rng 45 46 (st 21); rng 48 57 (st 21);
    on 58 ctr39; rng 65 82 (st 21); on 83 (st 93); rng 84 90 (st 21); rng 94 114 (st 21); on 115 (st 93);
    rng 116 122 (st 21); on 124 (st 21); on 126 (st 21)];
  mkRow 93 false [on 33 (st 21); rng 35 39 (st 21); rng 42 43 (st 21); rng 45 46 (st 21); rng 48 57 (st 21);
    on 58 ctr39; rng 65 68 (st 21); on 69 (st 94); rng 70 90 (st 21); rng 94 100 (st 21); on 101 (st 94);
    rng 102 122 (st 21); on 124 (st 21); on 126 (st 21)];
  mkRow 94 false [on 10 (st 43); on 13 (st 88); on 33 (st 21); rng 35 39 (st 21); rng 42 43 (st 21);
    rng 45 46 (st 21); rng 48 57 (st 21); on 58 ctr39; rng 65 90 (st 21); rng 94 122 (st 21); on 124 (st 21);
    on 126 (st 21)];
  mkRow 95 false [on 9 (st 37); on 10 (st 36); rng 11 13 (st 37); on 32 (st 37); on 67 (st 38); on 99 (st 38)];
  mkRow 96 false [rng (-128) 9 (st 23); on 10 ctr45; rng 11 12 (st 23); on 13 ctr46; rng 14 75 (st 23);
    on 76 (st 97); rng 77 107 (st 23); on 108 (st 97); rng 109 127 (st 23)];
  mkRow 97 false [rng (-128) 9 (st 23); on 10 ctr45; rng 11 12 (st 23); on 13 ctr46; rng 14 78 (st 23);
    on 79 (st 98); rng 80 110 (st 23); on 111 (st 98); rng 112 127 (st 23)]].

(** @src http/httpclient_parser.rl.cc:2592-2712 httpclient_parser_execute *)
Definition crows_19 : list (row client_action) := [
  mkRow 98 false [rng (-128) 9 (st 23); on 10 ctr45; rng 11 12 (st 23); on 13 ctr46; rng 14 82 (st 23);
    on 83 (st 99); rng 84 114 (st 23); on 115 (st 99); rng 116 127 (st 23)];
  mkRow 99 false [rng (-128) 9 (st 23); on 10 ctr45; rng 11 12 (st 23); on 13 ctr46; rng 14 68 (st 23);
    on 69 (st 100); rng 70 100 (st 23); on 101 (st 100); rng 102 127 (st 23)];
  mkRow 100 false [rng (-128) 9 (st 23); on 10 ctr136; rng 11 12 (st 23); on 13 ctr137; rng 14 127 (st 23)];
  mkRow 101 false [on 33 (st 21); rng 35 39 (st 21); rng 42 43 (st 21); rng 45 46 (st 21); rng 48 57 (st 21);
    on 58 ctr39; rng 65 68 (st 21); on 69 (st 102); rng 70 90 (st 21); rng 94 100 (st 21); on 101 (st 102);
    rng 102 122 (st 21); on 124 (st 21); on 126 (st 21)];
  mkRow 102 false [on 33 (st 21); rng 35 39 (st 21); rng 42 43 (st 21); rng 45 46 (st 21); rng 48 57 (st 21);
    on 58 ctr39; rng 65 77 (st 21); on 78 (st 103); rng 79 90 (st 21); rng 94 109 (st 21); on 110 (st 103);
    rng 111 122 (st 21); on 124 (st 21); on 126 (st 21)];
  mkRow 103 false [on 33 (st 21); rng 35 39 (st 21); rng 42 43 (st 21); rng 45 46 (st 21); rng 48 57 (st 21);
    on 58 ctr39; rng 65 83 (st 21); on 84 (st 104); rng 85 90 (st 21); rng 94 115 (st 21); on 116 (st 104);
    rng 117 122 (st 21); on 124 (st 21); on 126 (st 21)]].

(** @src http/httpclient_parser.rl.cc:2713-2829 httpclient_parser_execute *)
Definition crows_20 : list (row client_action) := [
  mkRow 104 false [on 33 (st 21); rng 35 39 (st 21); rng 42 43 (st 21); on 45 (st 105); on 46 (st 21);
    rng 48 57 (st 21); on 58 ctr39; rng 65 90 (st 21); rng 94 122 (st 21); on 124 (st 21); on 126 (st 21)];
  mkRow 105 false [on 33 (st 21); rng 35 39 (st 21); rng 42 43 (st 21); rng 45 46 (st 21); rng 48 57 (st 21);
    on 58 ctr39; rng 65 75 (st 21); on 76 (st 106); rng 77 90 (st 21); rng 94 107 (st 21); on 108 (st 106);
    rng 109 122 (st 21); on 124 (st 21); on 126 (st 21)];
  mkRow 106 false [on 33 (st 21); rng 35 39 (st 21); rng 42 43 (st 21); rng 45 46 (st 21); rng 48 57 (st 21);
    on 58 ctr39; rng 65 68 (st 21); on 69 (st 107); rng 70 90 (st 21); rng 94 100 (st 21); on 101 (st 107);
    rng 102 122 (st 21); on 124 (st 21); on 126 (st 21)];
  mkRow 107 false [on 33 (st 21); rng 35 39 (st 21); rng 42 43 (st 21); rng 45 46 (st 21); rng 48 57 (st 21);
    on 58 ctr39; rng 65 77 (st 21); on 78 (st 108); rng 79 90 (st 21); rng 94 109 (st 21); on 110 (st 108);
    rng 111 122 (st 21); on 124 (st 21); on 126 (st 21)]].

(** @src http/httpclient_parser.rl.cc:2830-2973 httpclient_parser_execute *)
Definition crows_21 : list (row client_action) := [
  mkRow 108 false [on 33 (st 21); rng 35 39 (st 21); rng 42 43 (st 21); rng 45 46 (st 21); rng 48 57 (st 21);
    on 58 ctr39; rng 65 70 (st 21); on 71 (st 109); rng 72 90 (st 21); rng 94 102 (st 21); on 103 (st 109);
    rng 104 122 (st 21); on 124 (st 21); on 126 (st 21)];
  mkRow 109 false [on 33 (st 21); rng 35 39 (st 21); rng 42 43 (st 21); rng 45 46 (st 21); rng 48 57 (st 21);
    on 58 ctr39; rng 65 83 (st 21); on 84 (st 110); rng 85 90 (st 21); rng 94 115 (st 21); on 116 (st 110);
    rng 117 122 (st 21); on 124 (st 21); on 126 (st 21)];
  mkRow 110 false [on 33 (st 21); rng 35 39 (st 21); rng 42 43 (st 21); rng 45 46 (st 21); rng 48 57 (st 21);
    on 58 ctr39; rng 65 71 (st 21); on 72 (st 111); rng 73 90 (st 21); rng 94 103 (st 21); on 104 (st 111);
    rng 105 122 (st 21); on 124 (st 21); on 126 (st 21)];
  mkRow 111 false [on 33 (st 21); rng 35 39 (st 21); rng 42 43 (st 21); rng 45 46 (st 21); rng 48 57 (st 21);
    on 58 ctr148; rng 65 90 (st 21); rng 94 122 (st 21); on 124 (st 21); on 126 (st 21)];
  mkRow 112 false [rng (-128) 8 ctr40; on 9 ctr149; on 10 ctr150; rng 11 12 ctr149; on 13 ctr151;
    rng 14 31 ctr40; on 32 ctr149; rng 33 47 ctr40; rng 48 57 ctr152; rng 58 127 ctr40]].

(** @src http/httpclient_parser.rl.cc:2984-3122 httpclient_parser_execute *)
Definition crows_22 : list (row client_action) := [
  mkRow 113 false [on 9 (st 114); on 10 ctr154; rng 11 12 (st 114); on 13 (st 116); on 32 (st 114);
    on 33 ctr35; rng 35 39 ctr35; rng 42 43 ctr35; rng 45 46 ctr35; rng 48 57 ctr156; rng 65 66 ctr35;
    on 67 ctr36; rng 68 83 ctr35; on 84 ctr37; rng 85 90 ctr35; rng 94 98 ctr35; on 99 ctr36;
    rng 100 115 ctr35; on 116 ctr37; rng 117 122 ctr35; on 124 ctr35; on 126 ctr35];
  mkRow 114 false [rng 9 13 (st 114); on 32 (st 114); rng 48 57 ctr157];
  mkRow 115 false [on 10 ctr158; on 13 ctr159; rng 48 57 (st 115)];
  mkRow 123 false [rng 9 13 (st 114); on 32 (st 114); rng 48 57 ctr157];
  mkRow 116 false [on 9 (st 114); on 10 ctr154; rng 11 13 (st 114); on 32 (st 114); rng 48 57 ctr157];
  mkRow 117 false [on 10 ctr158; on 13 ctr159; on 33 (st 21); rng 35 39 (st 21); rng 42 43 (st 21);
    rng 45 46 (st 21); rng 48 57 (st 117); on 58 ctr39; rng 65 90 (st 21); rng 94 122 (st 21); on 124 (st 21);
    on 126 (st 21)]].

(** @src http/httpclient_parser.rl.cc:3133-3164 httpclient_parser_execute *)
Definition crows_23 : list (row client_action) := [
  mkRow 118 false [on 9 (st 114); on 10 (st 113); rng 11 13 (st 114); on 32 (st 114); rng 48 57 ctr157];
  mkRow 119 false [rng (-128) 9 (st 23); on 10 ctr158; rng 11 12 (st 23); on 13 ctr159; rng 14 47 (st 23);
    rng 48 57 (st 119); rng 58 127 (st 23)]].

(** The whole machine. *)
Definition ctable : list (row client_action) := concat [crows_1; crows_2; crows_3; crows_4; crows_5; crows_6;
  crows_7; crows_8; crows_9; crows_10; crows_11; crows_12; crows_13; crows_14; crows_15; crows_16; crows_17;
  crows_18; crows_19; crows_20; crows_21; crows_22; crows_23].
