(* ===== verification/HttpClientParser.v ===== *)
(** * The HTTP response parser ([http/httpclient_parser.rl.cc], [http/http_parser.cc])

    The struct [httpclient_parser], the actions of its machine, which call the callbacks
    of [HttpResponseParser], and the functions around them, in the style of
    [HttpParser].  The machine also reads the size lines of a chunked body. *)

From S2P Require Import Prelude Text StringUtil HttpMessage Ragel HttpClientTable HttpParser.
From Stdlib Require Import ZArith Lia List String.
From stdpp Require Import base tactics list numbers option.

Open Scope Z_scope.
Open Scope list_scope.

(** ** Data *)

(** @src http/httpclient_parser.h:41-65 httpclient_parser *)
Record httpclient_parser := mkClient {
  hc_cs : Z;
  hc_body_start : Z;
  hc_content_len : Z;
  hc_status : Z;
  hc_chunked : bool;
  hc_chunks_done : bool;
  hc_close : bool;
  hc_nread : Z;
  hc_mark : Z;
  hc_field_start : Z;
  hc_field_len : Z
}.

Definition cwith_marks h m fs fl := mkClient (hc_cs h) (hc_body_start h) (hc_content_len h) (hc_status h) (hc_chunked h)
  (hc_chunks_done h) (hc_close h) (hc_nread h) m fs fl.
Definition cwith_chunk h len chunked fin := mkClient (hc_cs h) (hc_body_start h) len (hc_status h) chunked
  fin (hc_close h) (hc_nread h) (hc_mark h) (hc_field_start h) (hc_field_len h).
Definition cwith_status h v := mkClient (hc_cs h) (hc_body_start h) (hc_content_len h) v (hc_chunked h)
  (hc_chunks_done h) (hc_close h) (hc_nread h) (hc_mark h) (hc_field_start h) (hc_field_len h).
Definition cwith_close h := mkClient (hc_cs h) (hc_body_start h) (hc_content_len h) (hc_status h) (hc_chunked h)
  (hc_chunks_done h) true (hc_nread h) (hc_mark h) (hc_field_start h) (hc_field_len h).
Definition cwith_body_start h v := mkClient (hc_cs h) v (hc_content_len h) (hc_status h) (hc_chunked h)
  (hc_chunks_done h) (hc_close h) (hc_nread h) (hc_mark h) (hc_field_start h) (hc_field_len h).
Definition cwith_nread h cs nread := mkClient cs (hc_body_start h) (hc_content_len h) (hc_status h) (hc_chunked h)
  (hc_chunks_done h) (hc_close h) nread (hc_mark h) (hc_field_start h) (hc_field_len h).

(** [HttpResponseParser]: the machine, the response under construction, [m_error]. *)
Record HttpResponseParser := mkRspParser { sp_parser : httpclient_parser; sp_data : HttpResponse; sp_error : Z }.

Definition swith_data (s : HttpResponseParser) d := mkRspParser (sp_parser s) d (sp_error s).
Definition swith_parser (s : HttpResponseParser) h := mkRspParser h (sp_data s) (sp_error s).
Definition sset_error (s : HttpResponseParser) e := mkRspParser (sp_parser s) (sp_data s) e.

(** ** Callbacks *)

(** @src http/http_parser.cc:211-214 on_response_reason *)
Definition on_response_reason s (text : bytes) := swith_data s (HttpResponse_setReason (sp_data s) text).

(** @src http/http_parser.cc:217-221 on_response_status
    [at] is the buffer from the mark on. *)
Definition on_response_status s (at_ : bytes) := swith_data s (HttpResponse_setStatus (sp_data s) (atoi at_)).

(** @src http/http_parser.cc:227-242 on_response_version *)
Definition on_response_version s (text : bytes) : HttpResponseParser :=
  if strn_same text (str "HTTP/1.1") then swith_data s (HttpResponse_setVersion (sp_data s) 0x11)
  else if strn_same text (str "HTTP/1.0") then swith_data s (HttpResponse_setVersion (sp_data s) 0x10)
  else sset_error s 1001.

(** @src http/http_parser.cc:251-260 on_response_http_field *)
Definition on_response_http_field s (field value : bytes) : HttpResponseParser :=
  match field with [] => s | _ => swith_data s (HttpResponse_setHeader (sp_data s) field value) end.

(** ** Actions *)

#[export] Instance client_action_eq_dec : EqDecision client_action.
Proof. solve_decision. Defined.

(** [std::string(PTR_TO(f), n)]: a read past the end of the buffer is undefined. *)
Definition text_len (buffer : bytes) (from n : Z) : outcome bytes :=
  if from + n <=? Z.of_nat (length buffer) then Ok (substr buffer (Z.to_nat from) (Z.to_nat n)) else UB.

(** @src http/httpclient_parser.rl.cc:160-238 httpclient_parser_execute
    The code of the actions; each occurs in the transitions that use it.  The callbacks
    for chunk sizes and the end of the header do nothing. *)
Definition client_act (buffer : bytes) (a : client_action) (p : Z) (s : HttpResponseParser) : outcome (HttpResponseParser * bool) :=
  let h := sp_parser s in
  let go s := Ok (s, false) in
  let at_mark := drop (Z.to_nat (hc_mark h)) buffer in
  match a with
  | c_mark | c_start_value => go (swith_parser s (cwith_marks h p (hc_field_start h) (hc_field_len h)))
  | c_start_field => go (swith_parser s (cwith_marks h (hc_mark h) p (hc_field_len h)))
  | c_write_field => go (swith_parser s (cwith_marks h (hc_mark h) (hc_field_start h) (p - hc_field_start h)))
  | c_write_content_len => go (swith_parser s (cwith_chunk h (i32 (strtol 10 at_mark)) (hc_chunked h) (hc_chunks_done h)))
  | c_write_connection_close => go (swith_parser s (cwith_close h))
  | c_write_value =>
    let! value := text_of buffer (hc_mark h) p in
    let! field := text_len buffer (hc_field_start h) (hc_field_len h) in
    go (on_response_http_field s field value)
  | c_reason_phrase => let! t := text_of buffer (hc_mark h) p in go (on_response_reason s t)
  | c_status_code => go (on_response_status (swith_parser s (cwith_status h (i32 (strtol 10 at_mark)))) at_mark)
  | c_http_version => let! t := text_of buffer (hc_mark h) p in go (on_response_version s t)
  | c_chunk_size =>
    let len := i32 (strtol 16 at_mark) in
    go (swith_parser s (cwith_chunk h len true (len <=? 0)))
  | c_trans_chunked => go (swith_parser s (cwith_chunk h (hc_content_len h) true (hc_chunks_done h)))
  | c_done => Ok (swith_parser s (cwith_body_start h (p + 1)), true)
  end.

(** ** The functions around the machine *)

(** @src http/httpclient_parser.rl.cc:60-62 httpclient_parser_start, httpclient_parser_first_final *)
Definition httpclient_parser_start : Z := 1.
Definition httpclient_parser_first_final : Z := 120.
Definition httpclient_parser_error : Z := 0.

(** @src http/httpclient_parser.rl.cc:69-92 httpclient_parser_init
    [status] is not assigned. *)
Definition httpclient_parser_init (h : httpclient_parser) : httpclient_parser :=
  mkClient httpclient_parser_start 0 (-1) (hc_status h) false false false 0 0 0 0.

(** @src http/httpclient_parser.rl.cc:3330-3332 httpclient_parser_has_error *)
Definition httpclient_parser_has_error (h : httpclient_parser) : bool := hc_cs h =? httpclient_parser_error.

(** @src http/httpclient_parser.rl.cc:3334-3336 httpclient_parser_is_finished *)
Definition httpclient_parser_is_finished (h : httpclient_parser) : bool := hc_cs h =? httpclient_parser_first_final.

(** @src http/httpclient_parser.rl.cc:3315-3328 httpclient_parser_finish *)
Definition httpclient_parser_finish (h : httpclient_parser) : Z :=
  if httpclient_parser_has_error h then -1 else if httpclient_parser_is_finished h then 1 else 0.

(** @src http/httpclient_parser.rl.cc:96-114 httpclient_parser_execute
    The result, -1 when one of the checks of lines 3301-3303 fails.  The machine runs
    from offset 0, as [HttpResponseParser::execute] calls it; the buffer ends in NUL. *)
Definition httpclient_parser_execute (s : HttpResponseParser) (buffer : bytes) : outcome (Z * HttpResponseParser) :=
  let len := Z.of_nat (length buffer) in
  let h0 := cwith_nread (cwith_marks (sp_parser s) 0 0 0) (hc_cs (sp_parser s)) 0 in
  let! (cs, p, s) := run_machine (client_act buffer) ctable false (hc_cs h0) 0 buffer (swith_parser s h0) in
  let h := cwith_nread (sp_parser s) cs p in
  assertb (p <=? len) (
  assertb (hc_body_start h <=? len) (
  let ok := (hc_mark h <? len) && (hc_field_len h <=? len) && (hc_field_start h <? len) in
  Ok (if ok then hc_nread h else -1, swith_parser s h))).

(** @src http/http_parser.cc:267-279 HttpResponseParser::HttpResponseParser
    [h] is the memory of the member [m_parser]. *)
Definition HttpResponseParser_new (h : httpclient_parser) : HttpResponseParser :=
  mkRspParser (httpclient_parser_init h) (HttpResponse_new 0x11 true) 0.

(** @src http/http_parser.cc:286-296 HttpResponseParser::execute
    The number of bytes parsed and the buffer's content, from which they are gone.  After
    a failed check the offset is a huge [size_t] and [memmove] leaves the buffer. *)
Definition HttpResponseParser_execute (s : HttpResponseParser) (data : bytes) (chunck : bool) :
    outcome (Z * bytes * HttpResponseParser) :=
  let s := if chunck then swith_parser s (httpclient_parser_init (sp_parser s)) else s in
  let! (offset, s) := httpclient_parser_execute s data in
  if offset <? 0 then UB else Ok (offset, drop (Z.to_nat offset) data, s).

(** @src http/http_parser.cc:298-300 HttpResponseParser::isFinished *)
Definition HttpResponseParser_isFinished (s : HttpResponseParser) : bool := negb (httpclient_parser_finish (sp_parser s) =? 0).

(** @src http/http_parser.cc:302-304 HttpResponseParser::hasError *)
Definition HttpResponseParser_hasError (s : HttpResponseParser) : bool :=
  negb (sp_error s =? 0) || httpclient_parser_has_error (sp_parser s).

(** @src http/http_parser.cc:306-308 HttpResponseParser::getContentLength *)
Definition HttpResponseParser_getContentLength (lexical_cast : bytes -> option Z) (s : HttpResponseParser) : Z :=
  getAs lexical_cast (p_headers (sp_data s)) (str "content-length") 0.

(** ** The parser on any input *)

(** The offsets are within what was read. *)
Definition coffsets_ok (L p : Z) (s : HttpResponseParser) : Prop :=
  let h := sp_parser s in
  0 <= p /\ 0 <= hc_mark h <= p /\ hc_mark h < L /\ 0 <= hc_field_start h <= p /\ hc_field_start h < L /\
  0 <= hc_field_len h <= p /\ 0 <= hc_body_start h <= L.

Lemma client_act_ok L buffer a p s :
  p < L -> coffsets_ok L p s ->
  (exists s' brk, client_act buffer a p s = Ok (s', brk) /\ (brk = true -> a = c_done) /\ coffsets_ok L p s') \/
  client_act buffer a p s = UB.
Proof.
  intros Hp Hs. assert (forall from, 0 <= from <= p -> text_of buffer from p = Ok (substr buffer (Z.to_nat from) (Z.to_nat (p - from)))) as Ht.
  { intros from ?. unfold text_of. by rewrite (proj2 (Z.ltb_ge _ _)) by lia. }
  destruct a; cbn [client_act]; rewrite ?Ht by (unfold coffsets_ok in Hs; naive_solver lia); cbn [obind].
  all: unfold text_len; try (case_match; cbn [obind]; [|by right]).
  all: left; eexists _, _; split; [reflexivity|]; split; [done|].
  all: unfold on_response_version, on_response_http_field; repeat case_match; unfold coffsets_ok in *; cbn in *; split_and!; try lia; naive_solver lia.
Qed.

Lemma client_actions_ok L buffer p : p < L -> forall acts s,
  coffsets_ok L p s ->
  (exists s' brk, run_actions (client_act buffer) acts p s = Ok (s', brk) /\ (brk = true -> In c_done acts) /\ coffsets_ok L p s') \/
  run_actions (client_act buffer) acts p s = UB.
Proof.
  intros Hp. induction acts as [|a acts IH]; intros s Hs; [left; exists s, false; by cbn|]. cbn [run_actions].
  destruct (client_act_ok L buffer a p s Hp Hs) as [(s1 & brk & -> & Hb & H1)| ->]; [|by right]. cbn [obind].
  destruct brk; [left; exists s1, true; split_and!; [done|left; naive_solver|done]|].
  destruct (IH s1 H1) as [(s2 & brk & -> & Hb2 & H2)| ->]; [|by right]. left. exists s2, brk. split_and!; [done|right; auto|done].
Qed.

(** The transitions that finish lead to states from 120 on. *)
Lemma client_done_final relaxed cs c acts target :
  next_move ctable relaxed cs c = (acts, target) -> In c_done acts -> httpclient_parser_first_final <= target.
Proof.
  intros E Hin. apply Z.leb_le.
  assert ((if bool_decide (c_done ∈ acts) then httpclient_parser_first_final <=? target else true) = true) as H.
  { refine (table_check (fun _ m => if bool_decide (c_done ∈ fst m) then httpclient_parser_first_final <=? snd m else true)
      ctable relaxed cs c acts target _ _ E); [vm_compute; reflexivity|done]. }
  rewrite bool_decide_true in H; [done|]. by apply list_elem_of_In.
Qed.

(** On any buffer the machine returns a count within it, unless it reads the name of a
    field past the end; no assertion or check fails. *)
Lemma httpclient_parser_execute_ok (s : HttpResponseParser) (buffer : bytes) :
  0 < Z.of_nat (length buffer) -> 0 <= hc_body_start (sp_parser s) <= Z.of_nat (length buffer) ->
  (exists n s', httpclient_parser_execute s buffer = Ok (n, s') /\ 0 <= n <= Z.of_nat (length buffer) /\
     0 <= hc_body_start (sp_parser s') <= Z.of_nat (length buffer) /\
     (n = Z.of_nat (length buffer) \/ httpclient_parser_has_error (sp_parser s') = true \/ httpclient_parser_first_final <= hc_cs (sp_parser s'))) \/
  httpclient_parser_execute s buffer = UB.
Proof.
  intros Hne Hb. unfold httpclient_parser_execute. set (L := Z.of_nat (length buffer)) in *.
  set (h0 := cwith_nread _ _ 0).
  destruct (run_machine_inv_ub (client_act buffer) ctable false L True (fun _ => coffsets_ok L)
    (fun cs p s1 => (exists q, p <= q + 1 /\ q < L /\ coffsets_ok L q s1) /\ (cs = 0 \/ httpclient_parser_first_final <= cs)))
    with (input := buffer) (cs := hc_cs h0) (p := 0) (s := swith_parser s h0) as [(cs & p & s1 & -> & Hp & H)|[-> _]].
  - intros cs p c s1 acts target Ho Hp Em.
    destruct (client_actions_ok L buffer p Hp acts s1 Ho) as [(s2 & brk & E & Hd & H2)|E]; [left|by right].
    exists s2, brk. split; [done|]. destruct brk.
    + split; [exists p; split_and!; [lia|done|done]|right; eapply client_done_final; eauto].
    + destruct (target =? 0); [split; [exists p; split_and!; [lia|done|done]|by left]|].
      unfold coffsets_ok in *. naive_solver lia.
  - unfold coffsets_ok. cbn. lia.
  - done.
  - left. cbn [obind]. assert (exists q, coffsets_ok L q s1 /\ q <= L) as (q & Ho & Hq').
    { destruct H as [(-> & Ho)|((q & ? & ? & Ho) & _)]; [eauto with lia|eexists q; split; [exact Ho|lia]]. }
    unfold coffsets_ok in Ho. cbn [hc_body_start hc_mark hc_field_len hc_field_start cwith_nread hc_nread].
    rewrite (proj2 (Z.leb_le p L)), (proj2 (Z.leb_le (hc_body_start _) L)), (proj2 (Z.ltb_lt (hc_mark _) L)),
      (proj2 (Z.leb_le (hc_field_len _) L)), (proj2 (Z.ltb_lt (hc_field_start _) L)) by lia. cbn [assertb andb].
    eexists p, _. split_and!; [reflexivity|lia|lia|cbn; lia|cbn; lia|]. destruct H as [[-> _]|(_ & Hf)]; [by left|right].
    unfold httpclient_parser_has_error. cbn. destruct Hf as [->|Hf]; [by left|by right].
  - by right.
Qed.

(** The name of a field can be read past the end: after [Transfer-Encoding:] and a line
    end, [chunked] is both a value and the start of a name, whose length is still 17. *)
Lemma client_name_overread :
  HttpResponseParser_execute (HttpResponseParser_new (mkClient 0 0 0 0 false false false 0 0 0 0))
    (str "HTTP/1.1 200 OK" ++ crlf ++ str "Transfer-Encoding:" ++ crlf ++ str "chunked" ++ crlf) false = UB.
Proof. reflexivity. Qed.

(** A header that ends in an empty connection field is never finished. *)
Lemma client_empty_field_unfinished :
  exists s, HttpResponseParser_execute (HttpResponseParser_new (mkClient 0 0 0 0 false false false 0 0 0 0))
    (str "HTTP/1.1 200 OK" ++ crlf ++ str "Connection:" ++ crlf ++ crlf) false = Ok (32, [], s) /\
    HttpResponseParser_isFinished s = false /\ HttpResponseParser_hasError s = false.
Proof. eexists. split; [vm_compute; reflexivity|]. by vm_compute. Qed.
