(* ===== verification/HttpClientWire.v ===== *)
(** * Reading printed responses

    What the machine of [HttpClientTable] does on the bytes of a response header: the
    states of a header line fall into classes, and each class is checked once for every
    byte.  The connection, content-length and transfer-encoding fields have states of
    their own in the machine, which the classes include. *)

From S2P Require Import Prelude Text StringUtil HttpMessage Ragel RagelFlow HttpClientTable HttpParser HttpClientParser HttpWire.
From Stdlib Require Import ZArith Lia List String.
From stdpp Require Import base tactics list numbers option.

Open Scope Z_scope.
Open Scope list_scope.

(** ** Classes of states *)

Definition line_start : list Z := [20; 43].
Definition in_field_name : list Z :=
  [21; 25; 26; 27; 28; 29; 30; 31; 32; 33; 34] ++ map Z.of_nat (seq 44 17) ++ map Z.of_nat (seq 101 11).
(** after the colon, for any name but [transfer-encoding] *)
Definition before_value : list Z := [22; 35; 112].
Definition in_value : list Z := [23; 96; 97; 98; 99; 100; 119].

(** Characters that can begin a value. *)
Definition first_char (c : Z) : bool := value_char c && negb (is_space c).

Definition transfer_encoding : bytes := str "transfer-encoding".

(** The state is [i] characters into [transfer-encoding]. *)
Definition te_state (i : nat) : Z := 43 + Z.of_nat i.

(** [t] is a state inside the name [w ++ [c]] if [cs] is one inside [w]: a state of
    [transfer-encoding] is only reached along its letters. *)
Definition te_step (cs c t : Z) : bool :=
  implb (in_range 44 60 t)
    ((if t =? 44 then bool_decide (cs ∈ line_start) else t =? cs + 1) && (tolower c =? nth (Z.to_nat (t - 44)) transfer_encoding 0)).

Abbreviation class_moves := (moves_in ctable).

Lemma name_first_class : class_moves line_start token_char (fun cs c acts t =>
  goes_to [[c_start_field]; [c_write_connection_close; c_start_field]] in_field_name acts t && te_step cs c t) = true.
Proof. vm_compute. reflexivity. Qed.

Lemma name_class : class_moves in_field_name token_char (fun cs c acts t =>
  goes_to [[]] in_field_name acts t && te_step cs c t) = true.
Proof. vm_compute. reflexivity. Qed.

Lemma colon_class : class_moves in_field_name (Z.eqb 58) (fun cs _ acts t =>
  if cs =? 60 then goes_to [[c_write_field]] [61] acts t else goes_to [[c_write_field]] before_value acts t) = true.
Proof. vm_compute. reflexivity. Qed.

Lemma space_class : class_moves before_value (Z.eqb 32) (fun _ _ => goes_to [[c_start_value]] before_value) = true.
Proof. vm_compute. reflexivity. Qed.

Lemma value_first_class : class_moves before_value first_char (fun _ _ => goes_to [[c_start_value]] in_value) = true.
Proof. vm_compute. reflexivity. Qed.

Lemma value_class : class_moves in_value value_char (fun _ _ => goes_to [[]] in_value) = true.
Proof. vm_compute. reflexivity. Qed.

Lemma value_cr_class : class_moves in_value (Z.eqb 13) (fun _ _ =>
  goes_to [[c_write_value]; [c_write_content_len; c_write_value]] [24; 88]) = true.
Proof. vm_compute. reflexivity. Qed.

Lemma value_lf_class : class_moves [24; 88] (Z.eqb 10) (fun _ _ => goes_to [[]] line_start) = true.
Proof. vm_compute. reflexivity. Qed.

Lemma end_cr_class : class_moves line_start (Z.eqb 13) (fun _ _ => goes_to [[]; [c_write_connection_close]] [3]) = true.
Proof. vm_compute. reflexivity. Qed.

(** ** Reading pieces *)

(** What a piece of the header leaves alone. *)
Definition ckeeps (s s' : HttpResponseParser) : Prop :=
  sp_error s' = sp_error s /\ hc_chunked (sp_parser s') = hc_chunked (sp_parser s).

Lemma ckeeps_trans s1 s2 s3 : ckeeps s1 s2 -> ckeeps s2 s3 -> ckeeps s1 s3.
Proof. unfold ckeeps. intuition congruence. Qed.

Section pieces.
Context (buffer : bytes).
Implicit Types (s : HttpResponseParser) (p cs : Z) (w : bytes).

Abbreviation run := (run_machine (client_act buffer) ctable false).

Abbreviation cflows := (flows_to (client_act buffer) ctable).

(** *** Names *)

Definition name_post (u : bytes) (t : Z) : Prop :=
  t ∈ in_field_name /\ (44 <= t <= 60 -> map tolower u = take (Z.to_nat (t - 43)) transfer_encoding).

Lemma te_letter i : (i < 17)%nat -> take (S i) transfer_encoding = take i transfer_encoding ++ [nth i transfer_encoding 0].
Proof. intros Hi. do 17 (destruct i as [|i]; [reflexivity|]). lia. Qed.

Lemma name_post_step u cs c t :
  name_post u cs -> t ∈ in_field_name -> te_step cs c t = true -> name_post (u ++ [c]) t.
Proof.
  intros [Hcs Hu] Ht Hs. split; [done|]. intros Hr. unfold te_step in Hs.
  replace (in_range 44 60 t) with true in Hs by (unfold in_range; lia). cbn [implb] in Hs.
  apply andb_true_iff in Hs as [H1 H2%Z.eqb_eq]. destruct (Z.eqb_spec t 44) as [->|Hne].
  - apply bool_decide_eq_true in H1. exfalso. clear -H1 Hcs. apply list_elem_of_In in H1.
    assert (forallb (fun x => negb (bool_decide (x ∈ line_start))) in_field_name = true) as H by (vm_compute; reflexivity).
    rewrite forallb_forall in H. apply list_elem_of_In in Hcs. specialize (H cs Hcs).
    apply negb_true_iff, bool_decide_eq_false in H. apply H. by apply list_elem_of_In.
  - apply Z.eqb_eq in H1. rewrite map_app, Hu by lia. cbn [map].
    replace (Z.to_nat (t - 43)) with (S (Z.to_nat (t - 44))) by lia. rewrite te_letter by lia. rewrite H2.
    do 3 f_equal. lia.
Qed.

Lemma name_loop w : forall u cs p s,
  name_post u cs -> forallb token_char w = true -> cflows cs p w s (fun cs' s' => name_post (u ++ w) cs' /\ s' = s).
Proof.
  induction w as [|c w IH]; intros u cs p s Hu Hw; [apply flow_nil; by rewrite app_nil_r|].
  cbn [forallb] in Hw. apply andb_true_iff in Hw as [Hc Hw].
  destruct (moves_in_ok _ _ _ cs c name_class) as (acts & t & Hm & [(Ha & Ht & H0)%goes_to_ok Hs]%andb_true_iff);
    [by destruct Hu|by apply token_char_byte|done|].
  apply list_elem_of_singleton in Ha as ->. eapply flow_cons; [exact Hm|done|reflexivity|].
  replace (u ++ c :: w) with ((u ++ [c]) ++ w) by (by rewrite <- app_assoc). apply IH; [|done]. by eapply name_post_step.
Qed.

(** The name, up to the space after the colon. *)
Lemma cflows_name k s p cs :
  cs ∈ line_start -> k <> [] -> forallb token_char k = true -> map tolower k <> transfer_encoding ->
  cflows cs p (k ++ str ": ") s (fun cs' s' => cs' ∈ before_value /\ ckeeps s s' /\ sp_data s' = sp_data s /\
    hc_field_start (sp_parser s') = p /\ hc_field_len (sp_parser s') = Z.of_nat (length k)).
Proof.
  intros Hcs Hne Hk Hte. destruct k as [|c k]; [done|]. cbn [forallb] in Hk. apply andb_true_iff in Hk as [Hc Hk].
  destruct (moves_in_ok _ _ _ cs c name_first_class) as (acts & t & Hm & [(Ha & Ht & H0)%goes_to_ok Hs]%andb_true_iff);
    [done|by apply token_char_byte|done|].
  assert (name_post [c] t) as Hpost.
  { split; [done|]. intros Hr. unfold te_step in Hs. replace (in_range 44 60 t) with true in Hs by (unfold in_range; lia).
    cbn [implb] in Hs. apply andb_true_iff in Hs as [H1 H2%Z.eqb_eq].
    destruct (Z.eqb_spec t 44) as [->|Hne2]; [cbn in H2 |- *; by rewrite H2|]. apply Z.eqb_eq in H1.
    clear -H1 Hcs Hr Hne2. apply list_elem_of_In in Hcs. cbn in Hcs. lia. }
  assert (exists s1, run_actions (client_act buffer) acts p s = Ok (s1, false) /\ ckeeps s s1 /\ sp_data s1 = sp_data s /\
    hc_field_start (sp_parser s1) = p) as (s1 & E1 & K1 & D1 & F1).
  { apply list_elem_of_In in Ha. destruct Ha as [<-|[<-|[]]]; eexists; (split; [reflexivity|done]). }
  cbn [app]. eapply flow_cons; [exact Hm|done|exact E1|]. eapply flow_app; [by apply (name_loop k [c])|].
  intros cs' s' [Hp ->]. destruct (moves_in_ok _ _ _ cs' 58 colon_class) as (acts2 & t2 & Hm2 & H2);
    [by destruct Hp|lia|done|].
  destruct (Z.eqb_spec cs' 60) as [->|H60].
  { destruct Hp as [_ Hp]. specialize (Hp ltac:(lia)). done. }
  apply goes_to_ok in H2 as (->%list_elem_of_singleton & Ht2 & H02).
  eapply (flow_cons _ _ 58); [exact Hm2|done|reflexivity|].
  eapply (flow_class _ _ _ _ _ _ 32 []); [exact space_class|done|lia|done|].
  intros acts3 t3 ->%list_elem_of_singleton Ht3. eexists. split; [reflexivity|]. apply flow_nil.
  cbn. split_and!; [done|exact K1|done|done|]. rewrite F1. lia.
Qed.

(** *** Values *)

Definition rsp_value_ok (v : bytes) : bool := match v with c :: v => first_char c && forallb value_char v | [] => false end.

Lemma cflows_value k v s p cs :
  cs ∈ before_value -> rsp_value_ok v = true -> text_at buffer p v ->
  text_at buffer (hc_field_start (sp_parser s)) k -> hc_field_len (sp_parser s) = Z.of_nat (length k) ->
  hc_field_start (sp_parser s) + Z.of_nat (length k) <= Z.of_nat (length buffer) -> k <> [] ->
  cflows cs p (v ++ crlf) s (fun cs' s' => cs' ∈ line_start /\ ckeeps s s' /\ sp_data s' = HttpResponse_setHeader (sp_data s) k v).
Proof.
  intros Hcs Hv Ht Hk Hl Hb Hne. destruct v as [|c v]; [done|]. apply andb_true_iff in Hv as [Hc Hv].
  assert (0 <= c < 256) as Hcb by (apply value_char_byte; by apply andb_true_iff in Hc as [? _]).
  cbn [app]. eapply flow_class; [exact value_first_class|done|done|done|].
  intros acts t ->%list_elem_of_singleton Ht1. eexists. split; [reflexivity|].
  eapply flow_app; [by eapply flow_loop; [exact value_class|done|exact value_char_byte|done]|].
  intros cs1 s1 [Hcs1 ->]. eapply (flow_class _ _ _ _ _ _ 13); [exact value_cr_class|done|lia|done|].
  intros acts t2 Ha Ht2.
  set (s1 := swith_parser s (cwith_marks (sp_parser s) p (hc_field_start (sp_parser s)) (hc_field_len (sp_parser s)))).
  assert (forall s2, sp_data s2 = sp_data s1 -> ckeeps s1 s2 -> hc_mark (sp_parser s2) = p ->
    hc_field_start (sp_parser s2) = hc_field_start (sp_parser s) -> hc_field_len (sp_parser s2) = hc_field_len (sp_parser s) ->
    exists s3, run_actions (client_act buffer) [c_write_value] (p + 1 + Z.of_nat (length v)) s2 = Ok (s3, false) /\
      ckeeps s s3 /\ sp_data s3 = HttpResponse_setHeader (sp_data s) k (c :: v)) as Hwrite.
  { intros s2 D2 K2 M2 F2 L2. eexists. cbn [run_actions client_act]. rewrite M2, F2, L2, Hl.
    rewrite (text_of_at buffer p (c :: v)) by (done || (cbn [length]; lia)). cbn [obind]. unfold text_len.
    rewrite (proj2 (Z.leb_le _ _)) by done. rewrite Nat2Z.id. destruct Hk as [_ ->]. cbn [obind].
    split; [reflexivity|]. unfold on_response_http_field. destruct k as [|x k]; [done|]. cbn. split; [exact K2|by rewrite D2]. }
  assert (exists s3, run_actions (client_act buffer) acts (p + 1 + Z.of_nat (length v)) s1 = Ok (s3, false) /\
    ckeeps s s3 /\ sp_data s3 = HttpResponse_setHeader (sp_data s) k (c :: v)) as (s3 & E3 & K3 & D3).
  { apply list_elem_of_In in Ha. destruct Ha as [<-|[<-|[]]]; [by apply Hwrite|].
    cbn [run_actions]. cbn [client_act obind]. by apply Hwrite. }
  exists s3. split; [exact E3|]. eapply (flow_class _ _ _ _ _ _ 10 []); [exact value_lf_class|done|lia|done|].
  intros acts4 t4 ->%list_elem_of_singleton Ht4. eexists. split; [reflexivity|]. by apply flow_nil.
Qed.

(** *** Header lines *)

Definition rsp_field_ok (q : bytes * bytes) : bool :=
  match q.1 with [] => false | _ => forallb token_char q.1 end && rsp_value_ok q.2 &&
  negb (bool_decide (map tolower q.1 = transfer_encoding)).

Lemma text_at_bound p w : text_at buffer p w -> w <> [] -> p + Z.of_nat (length w) <= Z.of_nat (length buffer).
Proof.
  intros [Hp Hw] Hne. apply (f_equal length) in Hw. unfold substr in Hw. rewrite length_take, length_drop in Hw.
  destruct w; [done|]. cbn [length] in *. lia.
Qed.

Lemma cflows_field q s p cs :
  cs ∈ line_start -> rsp_field_ok q = true -> text_at buffer p (field_line q) ->
  cflows cs p (field_line q) s (fun cs' s' => cs' ∈ line_start /\ ckeeps s s' /\ sp_data s' = HttpResponse_setHeader (sp_data s) q.1 q.2).
Proof.
  destruct q as [k v]. unfold rsp_field_ok, field_line. cbn [fst snd]. rewrite !andb_true_iff.
  intros Hcs [[Hk Hv] Hte%negb_true_iff%bool_decide_eq_false] Ht.
  assert (k <> []) as Hne by (by destruct k). assert (forallb token_char k = true) as Hk' by (by destruct k).
  rewrite app_assoc in *. apply text_at_app in Ht as [Htk Ht]. apply text_at_app in Ht as [Htv _].
  apply text_at_app in Htk as [Htk _]. eapply flow_app; [by apply cflows_name|].
  intros cs1 s1 (Hcs1 & K1 & D1 & F1 & L1). destruct (cflows_value k v s1 (p + Z.of_nat (length (k ++ str ": "))) cs1)
    as (cs2 & s2 & R2 & Hcs2 & K2 & D2); [done|done|done|by rewrite F1|done|rewrite F1; by apply text_at_bound|done|].
  exists cs2, s2. split_and!; [done|done|by eapply ckeeps_trans|by rewrite D2, D1].
Qed.

(** The line that announces a chunked body. *)
Definition chunked_field : bytes * bytes := (transfer_encoding, str "chunked").

Lemma cflows_chunked s p cs :
  cs ∈ line_start -> text_at buffer p (field_line chunked_field) ->
  cflows cs p (field_line chunked_field) s (fun cs' s' => cs' ∈ line_start /\ sp_error s' = sp_error s /\
    hc_chunked (sp_parser s') = true /\ sp_data s' = HttpResponse_setHeader (sp_data s) transfer_encoding (str "chunked")).
Proof.
  intros Hcs Ht. pose proof (text_at_bound _ _ Ht ltac:(done)) as Hb.
  assert (text_at buffer p transfer_encoding) as Hn by (by apply text_at_app in Ht as [? _]).
  assert (text_at buffer (p + 19) (str "chunked")) as Hv.
  { change (field_line chunked_field) with ((transfer_encoding ++ str ": ") ++ str "chunked" ++ crlf) in Ht.
    apply text_at_app in Ht as [_ Ht]. by apply text_at_app in Ht as [? _]. }
  assert (exists acts s1, next_move ctable false cs 116 = (acts, 44) /\ run_actions (client_act buffer) acts p s = Ok (s1, false) /\
    ckeeps s s1 /\ sp_data s1 = sp_data s /\ hc_field_start (sp_parser s1) = p) as (acts & s1 & Hm & E1 & K1 & D1 & F1).
  { apply list_elem_of_In in Hcs. destruct Hcs as [<-|[<-|[]]]; eexists _, _;
      (split; [vm_compute; reflexivity|split; [reflexivity|done]]). }
  change (field_line chunked_field) with (116 :: str "ransfer-encoding" ++ 58 :: 32 :: 99 :: str "hunked" ++ [13; 10]).
  eapply flow_cons; [exact Hm|done|exact E1|].
  eapply flow_app; [apply flow_walk; vm_compute; reflexivity|]. intros cs2 s2 [-> ->].
  eapply flow_cons; [vm_compute; reflexivity|done|reflexivity|].
  eapply flow_cons; [vm_compute; reflexivity|done|reflexivity|].
  eapply flow_cons; [vm_compute; reflexivity|done|reflexivity|].
  eapply flow_app; [apply flow_walk; vm_compute; reflexivity|]. intros cs2 s2 [-> ->].
  eapply flow_cons; [vm_compute; reflexivity|done| |].
  { cbn [run_actions client_act obind sp_parser swith_parser hc_mark cwith_marks hc_field_start hc_field_len]. rewrite F1.
    rewrite (text_of_at buffer _ (str "chunked")) by (change (length (str "ransfer-encoding")) with 16%nat; change (length (str "hunked")) with 6%nat;
      change (length (str "chunked")) with 7%nat; first [lia|by replace (p + 1 + Z.of_nat 16 + 1 + 1) with (p + 19) by lia]).
    change (length (str "ransfer-encoding")) with 16%nat. unfold text_len.
    change (length (field_line chunked_field)) with 28%nat in Hb. rewrite (proj2 (Z.leb_le _ _)) by lia.
    replace (Z.to_nat (p + 1 + Z.of_nat 16 - p)) with (length transfer_encoding) by (change (length transfer_encoding) with 17%nat; lia).
    destruct Hn as [_ ->]. reflexivity. }
  eapply flow_cons; [vm_compute; reflexivity|done|reflexivity|]. apply flow_nil.
  cbn. split_and!; [apply list_elem_of_In; by left|by apply K1|done|by rewrite D1].
Qed.

Definition rsp_line_ok (q : bytes * bytes) : bool := rsp_field_ok q || bool_decide (q = chunked_field).
Definition has_chunked (fields : list (bytes * bytes)) : bool := existsb (fun q => bool_decide (q = chunked_field)) fields.

Lemma cflows_fields fields : forall s p cs,
  cs ∈ line_start -> forallb rsp_line_ok fields = true -> text_at buffer p (flat_map field_line fields) ->
  cflows cs p (flat_map field_line fields) s (fun cs' s' => cs' ∈ line_start /\ sp_error s' = sp_error s /\
    hc_chunked (sp_parser s') = hc_chunked (sp_parser s) || has_chunked fields /\
    sp_data s' = fold_left (fun d q => HttpResponse_setHeader d q.1 q.2) fields (sp_data s)).
Proof.
  induction fields as [|q fields IH]; intros s p cs Hcs Hok Ht.
  { apply flow_nil. cbn. by rewrite orb_false_r. }
  cbn [forallb] in Hok. apply andb_true_iff in Hok as [H1 H2]. cbn [flat_map] in *. apply text_at_app in Ht as [T1 T2].
  assert (cflows cs p (field_line q) s (fun cs' s' => cs' ∈ line_start /\ sp_error s' = sp_error s /\
    hc_chunked (sp_parser s') = hc_chunked (sp_parser s) || bool_decide (q = chunked_field) /\
    sp_data s' = HttpResponse_setHeader (sp_data s) q.1 q.2)) as Hq.
  { apply orb_true_iff in H1 as [H1|H1%bool_decide_eq_true].
    - destruct (cflows_field q s p cs Hcs H1 T1) as (cs' & s' & R & Hc & [K1 K2] & D). exists cs', s'. split_and!; try done.
      rewrite bool_decide_eq_false_2, orb_false_r; [done|]. intros ->. done.
    - subst q. destruct (cflows_chunked s p cs Hcs T1) as (cs' & s' & R & Hc & K1 & K2 & D). exists cs', s'.
      split_and!; try done. by rewrite bool_decide_eq_true_2, orb_true_r. }
  eapply flow_app; [exact Hq|]. intros cs1 s1 (Hcs1 & K1 & C1 & D1).
  destruct (IH s1 (p + Z.of_nat (length (field_line q))) cs1 Hcs1 H2 T2) as (cs2 & s2 & R2 & Hcs2 & K2 & C2 & D2).
  exists cs2, s2. split_and!; [done|done|congruence| |]; cbn [fold_left has_chunked existsb]; [|by rewrite D2, D1].
  by rewrite C2, C1, orb_assoc.
Qed.

(** *** The status line *)

Definition status_line (version status : Z) (reason : bytes) : bytes :=
  version_text version ++ str " " ++ dec status ++ str " " ++ reason ++ crlf.

Lemma reason_first_class : class_moves [18] value_char (fun _ _ => goes_to [[c_mark]] [19]) = true.
Proof. vm_compute. reflexivity. Qed.

Lemma reason_class : class_moves [19] value_char (fun _ _ => goes_to [[]] [19]) = true.
Proof. vm_compute. reflexivity. Qed.

Lemma status_first_class : class_moves [16] is_digit (fun _ _ => goes_to [[c_mark]] [17]) = true.
Proof. vm_compute. reflexivity. Qed.

Lemma status_class : class_moves [17] is_digit (fun _ _ => goes_to [[]] [17]) = true.
Proof. vm_compute. reflexivity. Qed.

Lemma digit_byte c : is_digit c = true -> 0 <= c < 256.
Proof. unfold is_digit. lia. Qed.

Lemma cflows_version v s :
  v = 0x11 \/ v = 0x10 -> text_at buffer 0 (version_text v) ->
  cflows 1 0 (version_text v ++ [32]) s (fun cs' s' => cs' = 16 /\ ckeeps s s' /\ sp_data s' = HttpResponse_setVersion (sp_data s) v).
Proof.
  intros Hv Ht. assert (exists w, version_text v = 72 :: w /\ length w = 7%nat /\ silent_walk ctable false 8 w = Some 15) as (w & Ew & Lw & Hw).
  { destruct Hv as [->| ->]; eexists; (split; [vm_compute; reflexivity|split; [done|vm_compute; reflexivity]]). }
  rewrite Ew. cbn [app]. eapply flow_cons; [vm_compute; reflexivity|done|reflexivity|].
  eapply flow_app; [by apply flow_walk|]. intros cs1 s1 [-> ->].
  eapply (flow_cons _ _ 32 []); [vm_compute; reflexivity|done| |].
  { cbn [run_actions client_act obind sp_parser swith_parser hc_mark cwith_marks].
    rewrite (text_of_at buffer 0 (version_text v)) by (done || (rewrite Ew; cbn [length]; rewrite Lw; lia)). reflexivity. }
  apply flow_nil. cbn. by destruct Hv as [->| ->].
Qed.

Lemma cflows_status n s p :
  0 <= n < 2 ^ 31 -> text_at buffer p (dec n ++ [32]) ->
  cflows 16 p (dec n ++ [32]) s (fun cs' s' => cs' = 18 /\ ckeeps s s' /\ sp_data s' = HttpResponse_setStatus (sp_data s) n).
Proof.
  intros Hn Ht. destruct (text_at_drop _ _ _ Ht) as [rest Er]. destruct (dec_spec n) as (Hne & Hd & _); [lia|].
  assert (atoi (drop (Z.to_nat p) buffer) = n) as Ha by (rewrite Er, <- app_assoc; by apply (atoi_dec n 32)).
  destruct (dec n) as [|c w]; [done|]. apply Forall_cons_1 in Hd as [Hc Hw]. cbn [app].
  eapply flow_class; [exact status_first_class|by apply list_elem_of_singleton|by apply digit_byte|done|].
  intros acts t ->%list_elem_of_singleton ->%list_elem_of_singleton. eexists. split; [reflexivity|].
  eapply flow_app.
  { eapply flow_loop; [exact status_class|by apply list_elem_of_singleton|exact digit_byte|]. apply forallb_forall. by apply List.Forall_forall. }
  intros cs1 s1 [->%list_elem_of_singleton ->].
  eapply (flow_cons _ _ 32 []); [vm_compute; reflexivity|done|reflexivity|]. apply flow_nil. cbn. by rewrite Ha.
Qed.

Lemma cflows_reason r s p :
  r <> [] -> forallb value_char r = true -> text_at buffer p r ->
  cflows 18 p (r ++ crlf) s (fun cs' s' => cs' ∈ line_start /\ ckeeps s s' /\ sp_data s' = HttpResponse_setReason (sp_data s) r).
Proof.
  intros Hne Hr Ht. destruct r as [|c r]; [done|]. cbn [forallb] in Hr. apply andb_true_iff in Hr as [Hc Hr]. cbn [app].
  eapply flow_class; [exact reason_first_class|by apply list_elem_of_singleton|by apply value_char_byte|done|].
  intros acts t ->%list_elem_of_singleton ->%list_elem_of_singleton. eexists. split; [reflexivity|].
  eapply flow_app; [by eapply flow_loop; [exact reason_class|by apply list_elem_of_singleton|exact value_char_byte|]|].
  intros cs1 s1 [->%list_elem_of_singleton ->].
  eapply (flow_cons _ _ 13); [vm_compute; reflexivity|done| |].
  { cbn [run_actions client_act obind sp_parser swith_parser hc_mark cwith_marks].
    rewrite (text_of_at buffer p (c :: r)) by (done || (cbn [length]; lia)). reflexivity. }
  eapply (flow_cons _ _ 10 []); [vm_compute; reflexivity|done|reflexivity|]. apply flow_nil.
  split_and!; [apply list_elem_of_In; by left|done|done].
Qed.

Lemma cflows_status_line v n r s :
  v = 0x11 \/ v = 0x10 -> 0 <= n < 2 ^ 31 -> r <> [] -> forallb value_char r = true -> text_at buffer 0 (status_line v n r) ->
  cflows 1 0 (status_line v n r) s (fun cs' s' => cs' ∈ line_start /\ ckeeps s s' /\
    sp_data s' = HttpResponse_setReason (HttpResponse_setStatus (HttpResponse_setVersion (sp_data s) v) n) r).
Proof.
  intros Hv Hn Hne Hr Ht. unfold status_line in *. change (str " ") with [32] in *.
  replace (version_text v ++ [32] ++ dec n ++ [32] ++ r ++ crlf) with ((version_text v ++ [32]) ++ (dec n ++ [32]) ++ r ++ crlf) in *
    by (by rewrite <- !app_assoc).
  apply text_at_app in Ht as [T1 Ht]. apply text_at_app in Ht as [T2 Ht]. apply text_at_app in Ht as [T3 _]. apply text_at_app in T1 as [T1 _].
  eapply flow_app; [by apply cflows_version|]. intros cs1 s1 (-> & K1 & D1).
  eapply flow_app; [by apply cflows_status|]. intros cs2 s2 (-> & K2 & D2).
  destruct (cflows_reason r s2 _ Hne Hr T3) as (cs3 & s3 & R3 & H3 & K3 & D3). exists cs3, s3.
  split_and!; [done|done|by eapply ckeeps_trans; [|eapply ckeeps_trans]|by rewrite D3, D2, D1].
Qed.

(** The empty line ends the header. *)
Lemma crun_end s p cs input :
  cs ∈ line_start ->
  exists s', run cs p (crlf ++ input) s = Ok (120, p + 2, s') /\ ckeeps s s' /\ sp_data s' = sp_data s.
Proof.
  intros Hcs. destruct (moves_in_ok _ _ _ cs 13 end_cr_class) as (acts & t & Hm & (Ha & Ht & H0)%goes_to_ok); [done|lia|done|].
  apply list_elem_of_singleton in Ht as ->. change (crlf ++ input) with (13 :: 10 :: input).
  assert (exists s1, run_actions (client_act buffer) acts p s = Ok (s1, false) /\ ckeeps s s1 /\ sp_data s1 = sp_data s) as (s1 & E1 & K1 & D1).
  { apply list_elem_of_In in Ha. destruct Ha as [<-|[<-|[]]]; eexists; (split; [reflexivity|done]). }
  rewrite (run_machine_step _ _ _ _ _ _ _ _ _ _ _ Hm H0 E1).
  erewrite (run_machine_break _ _ _ 3 _ 10); [|vm_compute; reflexivity|reflexivity].
  eexists. split; [do 2 f_equal; f_equal; lia|done].
Qed.

End pieces.

(** ** Whole headers and size lines *)

Definition rsp_head (v n : Z) (reason : bytes) (fields : list (bytes * bytes)) : bytes :=
  status_line v n reason ++ flat_map field_line fields ++ crlf.

Definition head_ok (v n : Z) (reason : bytes) (fields : list (bytes * bytes)) : bool :=
  ((v =? 0x11) || (v =? 0x10)) && in_range 0 (2 ^ 31 - 1) n && match reason with [] => false | _ => forallb value_char reason end &&
  forallb rsp_line_ok fields.

(** From a run of the machine to the result of [execute]. *)
Lemma execute_of_run s buffer n s' :
  0 < Z.of_nat (length buffer) -> 0 <= hc_body_start (sp_parser s) <= Z.of_nat (length buffer) ->
  let h0 := cwith_nread (cwith_marks (sp_parser s) 0 0 0) (hc_cs (sp_parser s)) 0 in
  run_machine (client_act buffer) ctable false (hc_cs (sp_parser s)) 0 buffer (swith_parser s h0) = Ok (120, Z.of_nat n, s') ->
  httpclient_parser_execute s buffer = Ok (Z.of_nat n, swith_parser s' (cwith_nread (sp_parser s') 120 (Z.of_nat n))).
Proof.
  intros Hne Hb h0 R. destruct (httpclient_parser_execute_ok s buffer Hne Hb) as [(m & s2 & E & Hm & _)|E].
  - rewrite E. unfold httpclient_parser_execute in E. fold h0 in E. change (hc_cs h0) with (hc_cs (sp_parser s)) in E.
    rewrite R in E. cbn [obind] in E. unfold assertb in E. repeat (case_match; [|done]). simplify_eq. case_match; simplify_eq; [done|lia].
  - unfold httpclient_parser_execute in E. fold h0 in E. change (hc_cs h0) with (hc_cs (sp_parser s)) in E.
    rewrite R in E. cbn [obind] in E. unfold assertb in E. by repeat case_match.
Qed.

Lemma client_parse_head v n reason fields h rest :
  head_ok v n reason fields = true ->
  exists s', HttpResponseParser_execute (HttpResponseParser_new h) (rsp_head v n reason fields ++ rest) false =
      Ok (Z.of_nat (length (rsp_head v n reason fields)), rest, s') /\
    sp_data s' = fold_left (fun d q => HttpResponse_setHeader d q.1 q.2) fields (mkResponse n v true false [] reason [] []) /\
    sp_error s' = 0 /\ HttpResponseParser_hasError s' = false /\ HttpResponseParser_isFinished s' = true /\
    hc_chunked (sp_parser s') = has_chunked fields.
Proof.
  unfold head_ok. rewrite !andb_true_iff, orb_true_iff, !Z.eqb_eq. unfold in_range. rewrite andb_true_iff, !Z.leb_le.
  intros [[[Hv Hn] Hr] Hf]. set (buffer := rsp_head v n reason fields ++ rest).
  assert (text_at buffer 0 (status_line v n reason ++ flat_map field_line fields)) as Ht.
  { split; [done|]. unfold buffer, rsp_head. rewrite <- !app_assoc, app_assoc. unfold substr. by rewrite drop_0, take_app_length. }
  pose proof (text_at_app _ _ _ _ Ht) as [T1 T2].
  set (s := HttpResponseParser_new h). set (h0 := cwith_nread (cwith_marks (sp_parser s) 0 0 0) (hc_cs (sp_parser s)) 0).
  destruct (cflows_status_line buffer v n reason (swith_parser s h0)) as (cs1 & s1 & R1 & H1 & [K1 C1] & D1);
    [done|lia|by destruct reason|by destruct reason|done|].
  destruct (cflows_fields buffer fields s1 (0 + Z.of_nat (length (status_line v n reason))) cs1 H1 Hf T2)
    as (cs2 & s2 & R2 & H2 & K2 & C2 & D2).
  destruct (crun_end buffer s2 (0 + Z.of_nat (length (status_line v n reason)) + Z.of_nat (length (flat_map field_line fields))) cs2 rest H2)
    as (s3 & R3 & [K3 C3] & D3).
  assert (0 < Z.of_nat (length buffer)) by (unfold buffer, rsp_head; rewrite !length_app; cbn; lia).
  assert (httpclient_parser_execute s buffer = Ok (Z.of_nat (length (rsp_head v n reason fields)),
    swith_parser s3 (cwith_nread (sp_parser s3) 120 (Z.of_nat (length (rsp_head v n reason fields)))))) as E.
  { apply execute_of_run; [done|cbn; lia|]. fold h0. change (hc_cs (sp_parser s)) with 1. unfold buffer at 2, rsp_head at 1.
    rewrite <- !app_assoc, R1, R2, R3. do 2 f_equal. f_equal. unfold rsp_head. rewrite !length_app. change (length crlf) with 2%nat. lia. }
  eexists. unfold HttpResponseParser_execute. fold s. rewrite E. cbn [obind].
  rewrite (proj2 (Z.ltb_ge _ _)) by lia. rewrite Nat2Z.id. unfold buffer. rewrite drop_app_length. split; [reflexivity|].
  assert (sp_error s3 = 0) as He by (rewrite K3, K2, K1; done).
  split_and!; [cbn; by rewrite D3, D2, D1|done|unfold HttpResponseParser_hasError; cbn; by rewrite He|done|cbn; by rewrite C3, C2, C1].
Qed.

(** *** Size lines *)

Definition chunk_ok (q : bytes * bytes) : Prop :=
  q.1 <> [] /\ forallb is_hex q.1 = true /\ digits_value 16 0 q.1 = Z.of_nat (length q.2) /\ Z.of_nat (length q.2) + 2 < 2 ^ 31.

Lemma size_first_class : class_moves [1] is_hex (fun _ _ => goes_to [[c_mark]] [2]) = true.
Proof. vm_compute. reflexivity. Qed.

Lemma size_class : class_moves [2] is_hex (fun _ _ => goes_to [[]] [2]) = true.
Proof. vm_compute. reflexivity. Qed.

Lemma is_hex_cases c : is_hex c = true -> 48 <= c <= 57 \/ 65 <= c <= 70 \/ 97 <= c <= 102.
Proof. unfold is_hex, digit_val, is_digit. repeat case_match; simplify_eq; lia. Qed.

Lemma digits_value_hex w : forall a rest,
  forallb is_hex w = true -> digits_value 16 a (w ++ 13 :: rest) = digits_value 16 a w.
Proof.
  induction w as [|c w IH]; intros a rest Hw; [done|]. cbn [forallb] in Hw. apply andb_true_iff in Hw as [Hc Hw].
  cbn [app digits_value]. unfold is_hex in Hc. destruct (digit_val c); [|done]. by rewrite Hc, IH.
Qed.

Lemma strtol_hex w rest :
  w <> [] -> forallb is_hex w = true -> digits_value 16 0 w < 2 ^ 31 -> strtol 16 (w ++ 13 :: rest) = digits_value 16 0 w.
Proof.
  intros Hne Hw Hv. destruct w as [|c w]; [done|]. pose proof Hw as Hw'. cbn [forallb] in Hw. apply andb_true_iff in Hw as [Hc Hw].
  apply is_hex_cases in Hc. unfold strtol. cbn [app skip_spaces]. replace (is_space c) with false by (unfold is_space; lia).
  rewrite (proj2 (Z.eqb_neq c 45)), (proj2 (Z.eqb_neq c 43)) by lia.
  match goal with |- Z.min (digits_value 16 0 ?x) _ = _ => replace x with ((c :: w) ++ 13 :: rest) end.
  2: { cbn [app]. destruct c as [|c|c]; [done| |done]. do 6 (destruct c as [c|c|]; try done); destruct w as [|x w]; [|cbn [app]].
       - by destruct rest.
       - cbn [forallb] in Hw. apply andb_true_iff in Hw as [Hx%is_hex_cases _]. rewrite (proj2 (Z.eqb_neq x 120)), (proj2 (Z.eqb_neq x 88)) by lia.
         by destruct (w ++ 13 :: rest). }
  rewrite digits_value_hex by done. lia.
Qed.

Lemma client_parse_size s line rest :
  line <> [] -> forallb is_hex line = true -> digits_value 16 0 line < 2 ^ 31 -> 0 <= digits_value 16 0 line -> sp_error s = 0 ->
  exists s', HttpResponseParser_execute s (line ++ crlf ++ rest) true = Ok (Z.of_nat (length line + 2), rest, s') /\
    sp_data s' = sp_data s /\ sp_error s' = 0 /\ HttpResponseParser_hasError s' = false /\ HttpResponseParser_isFinished s' = true /\
    hc_content_len (sp_parser s') = digits_value 16 0 line /\ hc_chunks_done (sp_parser s') = (digits_value 16 0 line <=? 0).
Proof.
  intros Hne Hl Hv Hv0 He. set (buffer := line ++ crlf ++ rest). destruct line as [|c w]; [done|].
  pose proof Hl as Hl'. cbn [forallb] in Hl. apply andb_true_iff in Hl as [Hc Hw].
  assert (forall x, is_hex x = true -> 0 <= x < 256) as Hb by (intros x ?%is_hex_cases; lia).
  set (s0 := swith_parser s (httpclient_parser_init (sp_parser s))).
  set (h0 := cwith_nread (cwith_marks (sp_parser s0) 0 0 0) (hc_cs (sp_parser s0)) 0).
  assert (flows_to (client_act buffer) ctable 1 0 ((c :: w) ++ [13]) (swith_parser s0 h0) (fun cs' s' => cs' = 3 /\ sp_data s' = sp_data s /\ sp_error s' = 0 /\
    hc_content_len (sp_parser s') = digits_value 16 0 (c :: w) /\ hc_chunks_done (sp_parser s') = (digits_value 16 0 (c :: w) <=? 0)))
    as (cs1 & s1 & R1 & -> & D1 & E1 & L1 & C1).
  { cbn [app]. eapply flow_class; [exact size_first_class|by apply list_elem_of_singleton|by apply Hb|done|].
    intros acts t ->%list_elem_of_singleton ->%list_elem_of_singleton. eexists. split; [reflexivity|].
    eapply flow_app; [by eapply flow_loop; [exact size_class|by apply list_elem_of_singleton|exact Hb|]|].
    intros cs1 s1 [->%list_elem_of_singleton ->]. eapply (flow_cons _ _ 13 []); [vm_compute; reflexivity|done|reflexivity|].
    apply flow_nil. cbn [hc_content_len hc_chunks_done sp_parser swith_parser cwith_chunk hc_mark cwith_marks sp_data sp_error].
    change (drop (Z.to_nat 0) buffer) with ((c :: w) ++ 13 :: 10 :: rest). rewrite strtol_hex by done.
    rewrite swrap_small by lia. done. }
  assert (httpclient_parser_execute s0 buffer = Ok (Z.of_nat (length (c :: w) + 2),
    let s' := swith_parser s1 (cwith_body_start (sp_parser s1) (Z.of_nat (length (c :: w) + 2))) in
    swith_parser s' (cwith_nread (sp_parser s') 120 (Z.of_nat (length (c :: w) + 2))))) as E.
  { apply execute_of_run; [unfold buffer; rewrite length_app; cbn; lia|cbn; lia|]. fold h0. change (hc_cs (sp_parser s0)) with 1.
    unfold buffer at 2. change (crlf ++ rest) with ([13] ++ 10 :: rest). rewrite app_assoc, R1.
    erewrite (run_machine_break _ _ _ 3 _ 10); [|vm_compute; reflexivity|reflexivity].
    rewrite length_app. change (length [13]) with 1%nat. cbn zeta. do 2 f_equal; [f_equal; lia|]. do 2 f_equal. lia. }
  eexists. unfold HttpResponseParser_execute. fold s0. rewrite E. cbn [obind]. rewrite (proj2 (Z.ltb_ge _ _)) by lia.
  rewrite Nat2Z.id. split.
  { do 2 f_equal. f_equal. unfold buffer. rewrite app_assoc. change 2%nat with (length crlf). by rewrite <- length_app, drop_app_length. }
  cbn. split_and!; [done|done|unfold HttpResponseParser_hasError; cbn; by rewrite E1|done|done|done].
Qed.
