(* ===== verification/HttpConnection.v ===== *)
(** * HTTP connections ([http/http_connection.cc])

    Receiving a response, whole or in chunks, over any stream.  [buff_size] is the
    configured size of the buffer, [lexical_cast] Boost's conversion to [uint64_t]. *)

From S2P Require Import Prelude Text StringUtil HttpMessage Ragel HttpClientTable.
From S2P Require Import HttpParser HttpClientParser HttpWire HttpClientWire Stream Servlet HttpSession.
From Stdlib Require Import ZArith Lia List String.
From stdpp Require Import base tactics list numbers option.

Open Scope Z_scope.
Open Scope list_scope.

Section connection.
Context {S : Type} {SO : StreamOps S}.
Context (buff_size : Z) (lexical_cast : bytes -> option Z).
Implicit Types st : S.

(** @src http/http_connection.cc:56-78 HttpConnection::recvResponse
    The loop over the header: [data] are the [offset] bytes at the front of the
    buffer. *)
Fixpoint recv_rsp_head (fuel : nat) st (parser : HttpResponseParser) (data : bytes) :
    outcome (option (HttpResponseParser * bytes) * S) :=
  match fuel with
  | O => NoFuel
  | Datatypes.S fuel =>
    let '(len, got, st) := stream_read st (buff_size - Z.of_nat (length data)) in
    if len <=? 0 then Ok (None, stream_close st) else
    let! (_, rest, parser) := HttpResponseParser_execute parser (data ++ got) false in
    if HttpResponseParser_hasError parser then Ok (None, stream_close st)
    else if Z.of_nat (length rest) =? i32 buff_size then Ok (None, stream_close st)
    else if HttpResponseParser_isFinished parser then Ok (Some (parser, rest), st)
    else recv_rsp_head fuel st parser rest
  end.

(** @src http/http_connection.cc:89-115 HttpConnection::recvResponse
    The size line of a chunk: the inner loop.  Each turn starts the parser afresh. *)
Fixpoint recv_size_line (fuel : nat) st (parser : HttpResponseParser) (data : bytes) (begin : bool) :
    outcome (option (HttpResponseParser * bytes) * S) :=
  match fuel with
  | O => NoFuel
  | Datatypes.S fuel =>
    let go data st :=
      let! (_, rest, parser) := HttpResponseParser_execute parser data true in
      if HttpResponseParser_hasError parser then Ok (None, stream_close st)
      else if Z.of_nat (length rest) =? i32 buff_size then Ok (None, stream_close st)
      else if HttpResponseParser_isFinished parser then Ok (Some (parser, rest), st)
      else recv_size_line fuel st parser rest false in
    if negb begin || (Z.of_nat (length data) =? 0) then
      let '(rt, got, st) := stream_read st (buff_size - Z.of_nat (length data)) in
      if rt <=? 0 then Ok (None, stream_close st) else go (data ++ got) st
    else go data st
  end.

(** @src http/http_connection.cc:136-147 HttpConnection::recvResponse
    The rest of a chunk that is not in the buffer, appended to the body. *)
Fixpoint recv_left (fuel : nat) st (left : Z) (body : bytes) : outcome (option bytes * S) :=
  if left <=? 0 then Ok (Some body, st) else
  match fuel with
  | O => NoFuel
  | Datatypes.S fuel =>
    let '(rt, got, st) := stream_read st (if i32 buff_size <? left then i32 buff_size else left) in
    if rt <=? 0 then Ok (None, stream_close st) else recv_left fuel st (left - rt) (body ++ got)
  end.

(** @src http/http_connection.cc:86-152 HttpConnection::recvResponse
    The chunks: [data] is in the buffer, [body] was received.  [append] of a negative
    count and [resize] to one throw; the sum of two [int]s may overflow. *)
Fixpoint recv_chunks (fuel : nat) st (parser : HttpResponseParser) (data body : bytes) :
    outcome (option (HttpResponseParser * bytes) * S) :=
  match fuel with
  | O => NoFuel
  | Datatypes.S fuel' =>
    let! (line, st) := recv_size_line fuel st parser data true in
    match line with
    | None => Ok (None, st)
    | Some (parser, data) =>
      let content_len := hc_content_len (sp_parser parser) in
      let len := Z.of_nat (length data) in
      let next st data body :=
        if hc_chunks_done (sp_parser parser) then Ok (Some (parser, body), st) else recv_chunks fuel' st parser data body in
      if 2 ^ 31 <=? content_len + 2 then UB
      else if content_len + 2 <=? len then
        if content_len <? 0 then Throw logic_error
        else next st (drop (Z.to_nat (content_len + 2)) data) (body ++ take (Z.to_nat content_len) data)
      else
        let! (all, st) := recv_left fuel st (content_len - len + 2) (body ++ data) in
        match all with
        | None => Ok (None, st)
        | Some all =>
          if Z.of_nat (length all) <? 2 then Throw logic_error
          else next st [] (take (length all - 2) all)
        end
    end
  end.

(** @src http/http_connection.cc:155-177 HttpConnection::recvResponse
    A body whose length the header gives. *)
Definition recv_rsp_body st (parser : HttpResponseParser) (data : bytes) : outcome (option bytes * S) :=
  let length := i64 (HttpResponseParser_getContentLength lexical_cast parser) in
  let offset := Z.of_nat (List.length data) in
  if length <=? 0 then Ok (Some [], st) else
  if length - offset <=? 0 then Ok (Some (take (Z.to_nat length) data), st) else
  let! (r, got, st) := Stream_readFixSize st (length - offset) in
  if r <=? 0 then Ok (None, stream_close st) else Ok (Some (data ++ got), st).

(** @src http/http_connection.cc:179-197 HttpConnection::recvResponse *)
Definition finish_response (parser : HttpResponseParser) (body : bytes) : HttpResponse :=
  match body with [] => sp_data parser | _ => HttpResponse_setBody (sp_data parser) body end.

(** @src http/http_connection.cc:34-55 HttpConnection::recvResponse
    The whole function, lines 34 to 198.  [h] is the memory the parser is created in. *)
Definition HttpConnection_recvResponse (fuel : nat) st (h : httpclient_parser) : outcome (option HttpResponse * S) :=
  let! (head, st) := recv_rsp_head fuel st (HttpResponseParser_new h) [] in
  match head with
  | None => Ok (None, st)
  | Some (parser, data) =>
    if hc_chunked (sp_parser parser) then
      let! (r, st) := recv_chunks fuel st parser data [] in
      match r with
      | None => Ok (None, st)
      | Some (parser, body) => Ok (Some (finish_response parser body), st)
      end
    else
      let! (r, st) := recv_rsp_body st parser data in
      match r with
      | None => Ok (None, st)
      | Some body => Ok (Some (finish_response parser body), st)
      end
  end.

End connection.

(** ** Whole responses *)

(** The reason that is printed, and the fields of the header. *)
Definition sent_reason (r : HttpResponse) : bytes := match p_reason r with [] => HttpStatusToString (p_status r) | s => s end.

Definition rsp_fields (r : HttpResponse) : list (bytes * bytes) :=
  List.filter (fun q => negb (strcaseeq q.1 (str "connection"))) (p_headers r) ++
  map (fun c => (str "Set-Cookie", c)) (p_cookies r) ++
  (str "connection", if p_close r then str "close" else str "keep-alive") ::
  match p_body r with [] => [] | b => [(str "content-length", dec (Z.of_nat (length b)))] end.

Definition sent_head (r : HttpResponse) : bytes := rsp_head (p_version r) (p_status r) (sent_reason r) (rsp_fields r).

Definition response_ok (r : HttpResponse) : bool :=
  ((p_version r =? 0x11) || (p_version r =? 0x10)) && in_range 0 (2 ^ 31 - 1) (p_status r) &&
  match sent_reason r with [] => false | _ => forallb value_char (sent_reason r) end &&
  forallb rsp_field_ok (p_headers r) && forallb rsp_value_ok (p_cookies r) && negb (p_websocket r).

Lemma dump_sent r : response_ok r = true -> HttpResponse_dump r = sent_head r ++ p_body r.
Proof.
  unfold response_ok. rewrite !andb_true_iff. intros [[[[[_ Hs] _] _] _] Hw%negb_true_iff].
  unfold in_range in Hs. rewrite andb_true_iff, !Z.leb_le in Hs.
  unfold HttpResponse_dump, sent_head, rsp_head, status_line, rsp_fields, connection_line. rewrite Hw, uwrap_small by lia.
  fold (sent_reason r). rewrite !flat_map_app.
  assert (flat_map field_line (List.filter (fun q => negb (strcaseeq q.1 (str "connection"))) (p_headers r)) = header_lines false (p_headers r)) as ->.
  { unfold header_lines. induction (p_headers r) as [|q m IH]; [done|]. cbn [List.filter flat_map negb andb].
    destruct (strcaseeq q.1 (str "connection")); cbn [negb flat_map app]; by rewrite IH. }
  assert (flat_map field_line (map (fun c => (str "Set-Cookie", c)) (p_cookies r)) = flat_map (fun c => str "Set-Cookie: " ++ c ++ crlf) (p_cookies r)) as ->.
  { induction (p_cookies r) as [|c l IH]; [done|]. cbn [map flat_map]. by rewrite IH. }
  change (str "connection: ") with (str "connection" ++ str ": "). unfold body_part.
  change (str "content-length: ") with (str "content-length" ++ str ": "). cbn [flat_map].
  destruct (p_body r) as [|c b]; cbn [flat_map]; unfold field_line; cbn [fst snd]; by rewrite <- !app_assoc, ?app_nil_r.
Qed.

Lemma digits_value_ok n : 0 <= n < 10 ^ 20 -> rsp_value_ok (dec n) = true.
Proof.
  intros Hn. destruct (dec_spec n) as (Hne & Hd & _); [lia|].
  assert (forall x, is_digit x = true -> value_char x = true /\ first_char x = true) as Hx.
  { intros x Hx. assert (value_char x = true) as Hv.
    { unfold is_digit in Hx. unfold value_char, in_range. rewrite !andb_true_iff, negb_true_iff, bool_decide_eq_false, !Z.leb_le.
      split_and!; [lia|lia|intros Hin; apply list_elem_of_In in Hin; cbn in Hin; lia]. }
    split; [done|]. unfold first_char. rewrite Hv. unfold is_digit in Hx. unfold is_space. lia. }
  destruct (dec n) as [|c w]; [done|]. apply Forall_cons_1 in Hd as [Hc Hw]. cbn. apply andb_true_iff. split; [by apply Hx|].
  apply forallb_forall. rewrite List.Forall_forall in Hw. intros x Hin. by apply Hx, Hw.
Qed.

Lemma sent_head_ok r :
  response_ok r = true -> Z.of_nat (length (p_body r)) < 2 ^ 31 ->
  head_ok (p_version r) (p_status r) (sent_reason r) (rsp_fields r) = true /\ has_chunked (rsp_fields r) = false.
Proof.
  unfold response_ok. rewrite !andb_true_iff. intros [[[[[Hv Hs] Hr] Hh] Hc] _] Hb.
  assert (forallb rsp_field_ok (rsp_fields r) = true) as Hf.
  { unfold rsp_fields. rewrite !forallb_app. apply andb_true_iff. split; [|apply andb_true_iff; split].
    - rewrite forallb_forall in *. intros q Hq. apply filter_In in Hq as [Hq _]. by apply Hh.
    - rewrite forallb_forall in *. intros q Hq. apply in_map_iff in Hq as (c & <- & Hin). unfold rsp_field_ok. cbn [fst snd].
      rewrite (Hc c Hin). done.
    - cbn [forallb]. apply andb_true_iff. split; [by destruct (p_close r)|]. destruct (p_body r) as [|c b]; [done|]. cbn [forallb].
      unfold rsp_field_ok. cbn [fst snd]. by rewrite digits_value_ok by lia. }
  split.
  - unfold head_ok. rewrite Hv, Hs, Hr. apply forallb_forall. rewrite forallb_forall in Hf. intros q Hq. unfold rsp_line_ok. by rewrite Hf.
  - unfold has_chunked. apply not_true_iff_false. rewrite existsb_exists. intros (q & Hq & ->%bool_decide_eq_true).
    rewrite forallb_forall in Hf. specialize (Hf _ Hq). done.
Qed.

(** The response that arrives.  The connection flag is not set from the header. *)
Definition received_response (r : HttpResponse) : HttpResponse :=
  mkResponse (p_status r) (p_version r) true false (p_body r) (sent_reason r)
    (fold_left (fun m q => h_set q.1 q.2 m) (rsp_fields r) []) [].

Lemma fold_setHeader_rsp fields : forall d,
  fold_left (fun d q => HttpResponse_setHeader d q.1 q.2) fields d =
  HttpResponse_setHeaders d (fold_left (fun m q => h_set q.1 q.2 m) fields (p_headers d)).
Proof. induction fields as [|q fields IH]; intros d; cbn [fold_left]; [by destruct d|]. by rewrite IH. Qed.

Lemma find_cookies key l : key_eq fold_case key (str "Set-Cookie") = false ->
  h_find key (rev (map (fun c : bytes => (str "Set-Cookie", c)) l)) = None.
Proof.
  intros Hk. induction l as [|c l IH]; [done|]. cbn [map rev]. rewrite find_app, IH. cbn [smap_find]. by rewrite Hk.
Qed.

(** A field of the header received, apart from cookies. *)
Lemma find_received_rsp r key :
  h_sorted (p_headers r) -> key_eq fold_case key (str "Set-Cookie") = false ->
  h_find key (p_headers (received_response r)) =
  if match p_body r with [] => false | _ => key_eq fold_case key (str "content-length") end
  then Some (dec (Z.of_nat (length (p_body r))))
  else if key_eq fold_case key (str "connection") then Some (if p_close r then str "close" else str "keep-alive")
  else h_find key (p_headers r).
Proof.
  intros Hs Hk. cbn [received_response p_headers]. rewrite find_fold_set. unfold rsp_fields.
  rewrite !rev_app_distr. cbn [rev]. rewrite !find_app, (find_cookies _ _ Hk).
  rewrite (find_rev key (List.filter _ _)) by (by apply sorted_filter). cbn [smap_find].
  assert (h_find key (List.filter (fun p => negb (strcaseeq p.1 (str "connection"))) (p_headers r)) =
    if key_eq fold_case key (str "connection") then None else h_find key (p_headers r)) as ->.
  { destruct (key_eq fold_case key (str "connection")) eqn:E; [|by apply find_filter_other].
    rewrite (smap_find_equiv _ _ _ _ E). apply find_filter_same. }
  destruct (p_body r) as [|c b]; cbn [rev app smap_find]; repeat case_match; congruence.
Qed.

Section recv.
Context {S : Type} {SO : StreamOps S} {SS : StreamSpec S}.
Context (buff_size : Z) (lexical_cast : bytes -> option Z).
Implicit Types st : S.
Hypothesis lexical_cast_dec : forall n, 0 <= n < 2 ^ 31 -> lexical_cast (dec n) = Some n.
Hypothesis buff_size_ok : 0 < buff_size < 2 ^ 31.

(** The first read brings [k] bytes, the whole header among them. *)
Lemma recv_rsp_head_ok fuel st h v n reason fields rest :
  head_ok v n reason fields = true -> incoming st = rsp_head v n reason fields ++ rest ->
  Z.of_nat (length (rsp_head v n reason fields)) <= (stream_read st buff_size).1.1 ->
  exists s' data st', recv_rsp_head buff_size (Datatypes.S fuel) st (HttpResponseParser_new h) [] = Ok (Some (s', data), st') /\
    data ++ incoming st' = rest /\ outgoing st' = outgoing st /\ Z.of_nat (length data) < buff_size /\
    Z.of_nat (length data) = (stream_read st buff_size).1.1 - Z.of_nat (length (rsp_head v n reason fields)) /\
    sp_data s' = HttpResponse_setHeaders (mkResponse n v true false [] reason [] []) (fold_left (fun m q => h_set q.1 q.2 m) fields []) /\
    sp_error s' = 0 /\ hc_chunked (sp_parser s') = has_chunked fields.
Proof.
  intros Hok Hin Hk. set (head := rsp_head v n reason fields) in *.
  assert (0 < length head)%nat as Hpos by (unfold head, rsp_head; rewrite !length_app; cbn; lia).
  destruct (read_ok st buff_size) as (k & st1 & Hk1 & Hk2 & Hr & Hi & Ho); [lia| |].
  { rewrite Hin. intros E. apply (f_equal length) in E. rewrite length_app in E. cbn in E. lia. }
  rewrite Hr in *. cbn [fst] in *.
  destruct (client_parse_head v n reason fields h (take (k - length head) rest) Hok) as (s' & E & D & E0 & He & Hf & Hc).
  exists s', (take (k - length head) rest), st1. cbn [recv_rsp_head].
  replace (buff_size - Z.of_nat (length [])) with buff_size by (cbn; lia). rewrite Hr.
  rewrite (proj2 (Z.leb_gt (Z.of_nat k) 0)) by lia. rewrite Hin, take_app_ge by lia. cbn [app]. fold head in E. rewrite E. cbn [obind].
  rewrite He, Hf. rewrite Hin, length_app in Hk1. rewrite swrap_small by lia.
  rewrite (proj2 (Z.eqb_neq _ _)) by (rewrite length_take; lia).
  split_and!; [done| |done|rewrite length_take; lia|rewrite length_take; lia| |done|done].
  - rewrite Hi, Hin, drop_app_ge by lia. apply take_drop.
  - rewrite D, fold_setHeader_rsp. done.
Qed.

Lemma recv_rsp_body_ok st parser r data :
  p_headers (sp_data parser) = p_headers (received_response r) -> h_sorted (p_headers r) ->
  h_find (str "content-length") (p_headers r) = None ->
  Z.of_nat (length (p_body r)) < 2 ^ 31 -> forall rest, data ++ incoming st = p_body r ++ rest ->
  exists st' lost, recv_rsp_body lexical_cast st parser data = Ok (Some (p_body r), st') /\
    rest = lost ++ incoming st' /\ outgoing st' = outgoing st.
Proof.
  intros Hd Hs Hc Hb rest Hin. unfold recv_rsp_body, HttpResponseParser_getContentLength, getAs. rewrite Hd, find_received_rsp by done.
  replace (key_eq fold_case (str "content-length") (str "content-length")) with true by done.
  replace (key_eq fold_case (str "content-length") (str "connection")) with false by done. rewrite Hc.
  destruct (p_body r) as [|c b] eqn:Eb; [cbn; exists st, data; by split_and!|].
  set (body := c :: b) in *. assert (0 < Z.of_nat (length body)) by (cbn; lia).
  rewrite lexical_cast_dec, (swrap_small 64) by lia. rewrite (proj2 (Z.leb_gt (Z.of_nat (length body)) 0)) by done.
  destruct (Z.leb_spec (Z.of_nat (length body) - Z.of_nat (length data)) 0) as [Hle|Hgt].
  - exists st, (drop (length body) data). rewrite Nat2Z.id. split_and!; [|  |done].
    + apply (f_equal (take (length body))) in Hin. rewrite take_app_le, take_app_length in Hin by lia. by rewrite Hin.
    + apply (f_equal (drop (length body))) in Hin. by rewrite drop_app_length, drop_app_le in Hin by lia.
  - destruct (readFixSize_ok st (Z.of_nat (length body) - Z.of_nat (length data))) as (st' & -> & Hi & Ho); [lia| |].
    { apply (f_equal length) in Hin. rewrite !length_app in Hin. lia. }
    exists st', []. cbn [obind]. rewrite (proj2 (Z.leb_gt _ 0)) by lia. rewrite Hi.
    replace (Z.to_nat (Z.of_nat (length body) - Z.of_nat (length data))) with (length body - length data)%nat by lia.
    split_and!; [| |done].
    + apply (f_equal (take (length body))) in Hin. rewrite take_app_length, take_app_ge in Hin by lia. by rewrite Hin.
    + apply (f_equal (drop (length body))) in Hin. rewrite drop_app_length, drop_app_ge in Hin by lia. done.
Qed.

(** [recvResponse] on the bytes of a response. *)
Lemma recvResponse_ok fuel st h r rest :
  response_ok r = true -> h_sorted (p_headers r) -> h_find (str "content-length") (p_headers r) = None ->
  Z.of_nat (length (HttpResponse_dump r)) < 2 ^ 31 -> incoming st = HttpResponse_dump r ++ rest ->
  Z.of_nat (length (sent_head r)) <= (stream_read st buff_size).1.1 ->
  exists st' lost, HttpConnection_recvResponse buff_size lexical_cast (Datatypes.S fuel) st h = Ok (Some (received_response r), st') /\
    rest = lost ++ incoming st' /\ outgoing st' = outgoing st /\
    (forall key def, key_eq fold_case key (str "Set-Cookie") = false -> key_eq fold_case key (str "connection") = false ->
       key_eq fold_case key (str "content-length") = false ->
       HttpResponse_getHeader (received_response r) key def = HttpResponse_getHeader r key def).
Proof.
  intros Hok Hs Hc Hlen Hin Hk.
  rewrite (dump_sent r Hok) in *. rewrite length_app in Hlen. rewrite <- app_assoc in Hin.
  destruct (sent_head_ok r Hok) as [Hhead Hch]; [lia|].
  destruct (recv_rsp_head_ok fuel st h _ _ _ _ _ Hhead Hin Hk) as (s' & data & st1 & E & Hi & Ho & Hd & _ & D & E0 & C).
  destruct (recv_rsp_body_ok st1 s' r data) with (rest := rest) as (st' & lost & E2 & Hi2 & Ho2); [by rewrite D|done|done|lia|done|].
  exists st', lost. unfold HttpConnection_recvResponse. rewrite E. cbn [obind]. rewrite C, Hch, E2. cbn [obind].
  split_and!; [|done|congruence|].
  - do 3 f_equal. unfold finish_response, received_response. rewrite D. cbn. by destruct (p_body r).
  - intros key def H1 H2 H3. unfold HttpResponse_getHeader. rewrite find_received_rsp by done. rewrite H2, H3. by destruct (p_body r).
Qed.

(** A response travels intact.  [sendResponse] writes the printed response and
    [recvResponse] on those bytes returns its status, version, reason, body and headers,
    provided the first read brings the whole header.  The connection flag is not
    taken from the header, and cookies arrive as one header field. *)
Lemma HttpConnection_response_roundtrip fuel (c st : S) h r rest :
  response_ok r = true -> h_sorted (p_headers r) -> h_find (str "content-length") (p_headers r) = None ->
  Z.of_nat (length (HttpResponse_dump r)) < 2 ^ 31 -> incoming st = HttpResponse_dump r ++ rest ->
  Z.of_nat (length (sent_head r)) <= (stream_read st buff_size).1.1 ->
  (exists c', HttpSession_sendResponse c r = Ok (Z.of_nat (length (HttpResponse_dump r)), c') /\
     outgoing c' = outgoing c ++ HttpResponse_dump r) /\
  exists st' lost, HttpConnection_recvResponse buff_size lexical_cast (Datatypes.S fuel) st h = Ok (Some (received_response r), st') /\
    rest = lost ++ incoming st' /\ outgoing st' = outgoing st /\
    (forall key def, key_eq fold_case key (str "Set-Cookie") = false -> key_eq fold_case key (str "connection") = false ->
       key_eq fold_case key (str "content-length") = false ->
       HttpResponse_getHeader (received_response r) key def = HttpResponse_getHeader r key def).
Proof.
  intros Hok Hs Hc Hlen Hin Hk. split; [|by apply recvResponse_ok].
  destruct (writeFixSize_ok c (HttpResponse_dump r) Hlen) as (c' & E & Ho & _). by exists c'.
Qed.

(** ** Chunked bodies *)

Definition chunk_text (q : bytes * bytes) : bytes := q.1 ++ crlf ++ q.2 ++ crlf.

(** Each size line is in the buffer as a whole when its turn comes: [avail] bytes are in
    the buffer and [coming] are still to be read; an empty buffer is filled. *)
Fixpoint lines_fit (avail coming : nat) (chunks : list (bytes * bytes)) : bool :=
  match chunks with
  | [] => true
  | (line, d) :: chunks =>
    let got := if (avail =? 0)%nat then Nat.min (Z.to_nat buff_size) coming else 0%nat in
    let left := (avail + got - (length line + 2))%nat in
    let need := (length d + 2)%nat in
    (length line + 2 <=? avail + got)%nat &&
    (if (need <=? left)%nat then lines_fit (left - need) (coming - got) chunks
     else lines_fit 0 (coming - got - (need - left)) chunks)
  end.

(** A read brings all there is room for. *)
Hypothesis prompt : forall st n, 0 < n -> (stream_read st n).1.1 = Z.min n (Z.of_nat (length (incoming st))).

Lemma prompt_read st n : 0 < n -> incoming st <> [] ->
  exists st', let k := Nat.min (Z.to_nat n) (length (incoming st)) in
    stream_read st n = (Z.of_nat k, take k (incoming st), st') /\ incoming st' = drop k (incoming st) /\ outgoing st' = outgoing st.
Proof.
  intros Hn Hne. destruct (read_ok st n Hn Hne) as (k & st' & Hk & Hkn & E & Hi & Ho). exists st'.
  pose proof (prompt st n Hn) as Hp. rewrite E in Hp. cbn [fst] in Hp.
  replace (Nat.min (Z.to_nat n) (length (incoming st))) with k by lia. done.
Qed.

Lemma recv_left_ok fuel : forall st left body,
  0 <= left -> left <= Z.of_nat fuel -> left <= Z.of_nat (length (incoming st)) ->
  exists st', recv_left buff_size fuel st left body = Ok (Some (body ++ take (Z.to_nat left) (incoming st)), st') /\
    incoming st' = drop (Z.to_nat left) (incoming st) /\ outgoing st' = outgoing st.
Proof.
  induction fuel as [|fuel IH]; intros st left body H0 Hf Hin; cbn [recv_left]; destruct (Z.leb_spec left 0) as [Hle|Hgt].
  1, 3: exists st; replace (Z.to_nat left) with 0%nat by lia; by rewrite take_0, drop_0, app_nil_r.
  { lia. }
  rewrite swrap_small by lia. set (n := if buff_size <? left then buff_size else left).
  assert (0 < n <= left) as Hn by (unfold n; case_match; lia).
  destruct (read_ok st n) as (k & st1 & Hk & Hkn & -> & Hi & Ho); [lia|intros E; rewrite E in Hin; cbn in Hin; lia|].
  destruct (Z.leb_spec (Z.of_nat k) 0); [lia|].
  destruct (IH st1 (left - Z.of_nat k) (body ++ take k (incoming st))) as (st2 & -> & Hi2 & Ho2); [lia|lia|rewrite Hi; lens|].
  exists st2. rewrite Ho2, Ho, Hi2, Hi, drop_drop, <- app_assoc, take_take_drop.
  by replace (k + Z.to_nat (left - Z.of_nat k))%nat with (Z.to_nat left) by lia.
Qed.

(** The size line, from the buffer or after one read. *)
Lemma recv_size_line_ok fuel st parser data line rest :
  line <> [] -> forallb is_hex line = true -> 0 <= digits_value 16 0 line < 2 ^ 31 -> sp_error parser = 0 ->
  data ++ incoming st = line ++ crlf ++ rest -> Z.of_nat (length data) <= buff_size ->
  let got := if (length data =? 0)%nat then Nat.min (Z.to_nat buff_size) (length (incoming st)) else 0%nat in
  (length line + 2 <= length data + got)%nat ->
  exists s' st', recv_size_line buff_size (Datatypes.S fuel) st parser data true =
      Ok (Some (s', take (length data + got - (length line + 2)) rest), st') /\
    take (length data + got - (length line + 2)) rest ++ incoming st' = rest /\ length (incoming st') = (length (incoming st) - got)%nat /\
    outgoing st' = outgoing st /\
    sp_data s' = sp_data parser /\ sp_error s' = 0 /\ hc_content_len (sp_parser s') = digits_value 16 0 line /\
    hc_chunks_done (sp_parser s') = (digits_value 16 0 line <=? 0).
Proof.
  intros Hne Hh Hv He Hin Hb got Hfit.
  assert (exists st1, (if negb true || (Z.of_nat (length data) =? 0) then
      (let '(rt, g, s) := stream_read st (buff_size - Z.of_nat (length data)) in 0 <? rt = true /\ data ++ g = take (length data + got) (data ++ incoming st) /\ s = st1)
      else st1 = st) /\ incoming st1 = drop got (incoming st) /\ outgoing st1 = outgoing st) as (st1 & Hread & Hi & Ho).
  { destruct data as [|x data].
    - replace (buff_size - Z.of_nat (length [])) with buff_size by (cbn; lia).
      assert (got = Nat.min (Z.to_nat buff_size) (length (incoming st))) as Eg by done. cbn [length Nat.add] in Hfit.
      destruct (prompt_read st buff_size) as (st1 & E & Hi & Ho); [lia| |].
      { intros E. rewrite Eg, E in Hfit. cbn in Hfit. lia. }
      exists st1. cbv zeta in E, Hi. rewrite <- Eg in E, Hi. cbn [negb orb length Z.of_nat Z.eqb]. rewrite E. change (Z.of_nat 0 =? 0) with true. cbv iota.
      split_and!; [apply Z.ltb_lt; clearbody got; lia|done..].
    - exists st. assert (got = 0%nat) as -> by done. by rewrite drop_0. }
  set (all := take (length data + got) (data ++ incoming st)) in *.
  assert (all = line ++ crlf ++ take (length data + got - (length line + 2)) rest) as Hall.
  { unfold all. rewrite Hin, app_assoc, take_app_ge by (rewrite length_app; cbn; lia). rewrite <- app_assoc. do 3 f_equal. rewrite length_app. cbn. lia. }
  destruct (client_parse_size parser line (take (length data + got - (length line + 2)) rest)) as (s' & E & D & E0 & H1 & H2 & H3 & H4); [done|done|lia|lia|done|].
  exists s', st1. rewrite <- Hall in E.
  assert (got <= length (incoming st))%nat as Hg by (unfold got; clear; destruct (length data =? 0)%nat; lia).
  assert (length data + got <= Z.to_nat buff_size)%nat as Hlim.
  { unfold got. destruct (Nat.eqb_spec (length data) 0); lia. }
  assert (Z.of_nat (length (take (length data + got - (length line + 2)) rest)) =? i32 buff_size = false) as Hsz.
  { apply Z.eqb_neq. rewrite swrap_small by lia. rewrite length_take. lia. }
  split_and!; [| |by rewrite Hi, length_drop|done|done|done|done|done].
  - cbn [recv_size_line negb orb]. cbn [negb orb] in Hread. destruct (Z.eqb_spec (Z.of_nat (length data)) 0) as [Hz|Hnz].
    + destruct (stream_read st (buff_size - Z.of_nat (length data))) as [[rt g] s1]. destruct Hread as (Hrt & -> & ->).
      rewrite (proj2 (Z.leb_gt rt 0)) by lia. rewrite E. cbn [obind]. by rewrite H1, H2, Hsz.
    + subst st1. assert (all = data) as Ea by (unfold all, got; rewrite (proj2 (Nat.eqb_neq _ _)) by lia; by rewrite Nat.add_0_r, take_app_length).
      rewrite Ea in E. rewrite E. cbn [obind]. by rewrite H1, H2, Hsz.
  - rewrite Hi. apply (f_equal (drop (length data + got))) in Hin. rewrite drop_app_ge in Hin by lia.
    replace (length data + got - length data)%nat with got in Hin by lia. rewrite Hin.
    rewrite app_assoc, drop_app_ge by (rewrite length_app; cbn; lia). rewrite length_app. cbn [length crlf].
    apply take_drop.
Qed.

(** One chunk: after it the buffer holds what [lines_fit] says. *)
Lemma recv_chunk_ok fuel st parser data body line d rest chunks :
  chunk_ok (line, d) -> sp_error parser = 0 ->
  data ++ incoming st = chunk_text (line, d) ++ rest -> Z.of_nat (length data) <= buff_size ->
  lines_fit (length data) (length (incoming st)) ((line, d) :: chunks) = true ->
  (length data + length (incoming st) < Datatypes.S fuel)%nat ->
  exists s' data' st', recv_chunks buff_size (Datatypes.S fuel) st parser data body =
      (if digits_value 16 0 line <=? 0 then Ok (Some (s', body ++ d), st') else recv_chunks buff_size fuel st' s' data' (body ++ d)) /\
    data' ++ incoming st' = rest /\ Z.of_nat (length data') <= buff_size /\ outgoing st' = outgoing st /\
    lines_fit (length data') (length (incoming st')) chunks = true /\ sp_data s' = sp_data parser /\ sp_error s' = 0.
Proof.
  intros (Hne & Hh & Hv & Hd) He Hin Hb Hfit Hf. cbn [fst snd] in *. unfold chunk_text in Hin. cbn [fst snd] in Hin.
  rewrite <- !app_assoc in Hin. cbn [lines_fit] in Hfit. apply andb_true_iff in Hfit as [Hline%Nat.leb_le Hfit].
  set (got := if (length data =? 0)%nat then _ else 0%nat) in *.
  destruct (recv_size_line_ok fuel st parser data line (d ++ crlf ++ rest)) as (s' & st' & E & Hi & Hl & Ho & D & E0 & L & C); try done.
  { lia. }
  fold got in E, Hi, Hl. set (left := (length data + got - (length line + 2))%nat) in *. set (data1 := take left (d ++ crlf ++ rest)) in *.
  assert (length data1 = left) as Hlen1.
  { unfold data1. rewrite length_take. apply (f_equal length) in Hin. rewrite !length_app in Hin. rewrite !length_app. cbn [length crlf] in *.
    assert (got <= length (incoming st))%nat by (unfold got; clear; destruct (length data =? 0)%nat; lia).
    unfold left. clearbody got. lia. }
  assert (got <= Z.to_nat buff_size - length data)%nat as Hgot by (unfold got; clear -Hb buff_size_ok; destruct (Nat.eqb_spec (length data) 0); lia).
  assert (Z.of_nat left <= buff_size) as Hleft by (unfold left; clearbody got; lia).
  cbn [recv_chunks]. rewrite E. cbn [obind]. rewrite L, C, Hlen1, Hv.
  rewrite (proj2 (Z.leb_gt (2 ^ 31) _)) by lia.
  destruct (Nat.leb_spec (length d + 2) left) as [Hle|Hgt].
  - rewrite (proj2 (Z.leb_le _ _)) by lia. rewrite (proj2 (Z.ltb_ge _ _)) by lia.
    replace (Z.to_nat (Z.of_nat (length d) + 2)) with (length d + 2)%nat by lia. rewrite Nat2Z.id.
    assert (data1 = d ++ crlf ++ take (left - (length d + 2)) rest) as E1.
    { unfold data1. rewrite app_assoc, take_app_ge by (rewrite length_app; cbn; lia). rewrite <- app_assoc. do 3 f_equal. rewrite length_app. cbn. lia. }
    assert (take (length d) data1 = d) as E2 by (by rewrite E1, take_app_length).
    assert (drop (length d + 2) data1 = take (left - (length d + 2)) rest) as E3.
    { rewrite E1, app_assoc. change 2%nat with (length crlf). by rewrite <- length_app, drop_app_length. }
    rewrite E2, E3. eexists s', _, st'. split; [reflexivity|].
    assert (length (take (left - (length d + 2)) rest) = left - (length d + 2))%nat as E4.
    { rewrite <- E3, length_drop. lia. }
    split_and!; [|lia|done|by rewrite E4, Hl|done|done].
    rewrite E1 in Hi. rewrite <- !app_assoc in Hi. by apply app_inv_head, app_inv_head in Hi.
  - rewrite (proj2 (Z.leb_gt _ _)) by lia.
    replace (Z.of_nat (length d) - Z.of_nat left + 2) with (Z.of_nat (length d + 2 - left)) by lia.
    assert (length (incoming st') = (length d + 2 + length rest - left))%nat as Hl2.
    { apply (f_equal length) in Hi. rewrite !length_app in Hi. cbn [length crlf] in Hi. lia. }
    destruct (recv_left_ok (Datatypes.S fuel) st' (Z.of_nat (length d + 2 - left)) (body ++ data1)) as (st2 & -> & Hi2 & Ho2); [lia| |lia|].
    { rewrite Hl in Hl2. lia. }
    rewrite Nat2Z.id in *. cbn [obind].
    assert (data1 ++ take (length d + 2 - left) (incoming st') = d ++ crlf) as Eall.
    { apply (f_equal (take (length d + 2))) in Hi. rewrite take_app_ge in Hi by lia. rewrite Hlen1 in Hi.
      rewrite Hi, app_assoc. change 2%nat with (length crlf). by rewrite <- length_app, take_app_length. }
    rewrite <- app_assoc, Eall. rewrite (proj2 (Z.ltb_ge _ 2)) by (rewrite !length_app; cbn; lia).
    replace (take (length (body ++ d ++ crlf) - 2) (body ++ d ++ crlf)) with (body ++ d).
    2: { rewrite app_assoc, length_app. change (length crlf) with 2%nat. rewrite Nat.add_sub. by rewrite take_app_length. }
    eexists s', [], st2. split; [reflexivity|]. cbn [app length]. split_and!; [|lia|congruence| |done|done].
    + rewrite Hi2. apply (f_equal (drop (length d + 2))) in Hi. rewrite drop_app_ge in Hi by lia. rewrite Hlen1 in Hi.
      rewrite Hi, app_assoc. change 2%nat with (length crlf). by rewrite <- length_app, drop_app_length.
    + rewrite Hi2, length_drop, Hl. done.
Qed.

Lemma recv_chunks_ok chunks zero : forall fuel st parser data body rest,
  Forall (fun q => chunk_ok q /\ q.2 <> []) chunks -> chunk_ok (zero, []) -> sp_error parser = 0 ->
  data ++ incoming st = flat_map chunk_text chunks ++ chunk_text (zero, []) ++ rest -> Z.of_nat (length data) <= buff_size ->
  lines_fit (length data) (length (incoming st)) (chunks ++ [(zero, [])]) = true ->
  (length data + length (incoming st) < fuel)%nat ->
  exists s' st' lost, recv_chunks buff_size fuel st parser data body = Ok (Some (s', body ++ flat_map snd chunks), st') /\
    sp_data s' = sp_data parser /\ rest = lost ++ incoming st' /\ outgoing st' = outgoing st.
Proof.
  induction chunks as [|[line d] chunks IH]; intros fuel st parser data body rest Hall Hz He Hin Hb Hfit Hf;
    (destruct fuel as [|fuel]; [lia|]).
  - destruct (recv_chunk_ok fuel st parser data body zero [] rest []) as (s' & data' & st' & E & Hi & _ & Ho & _ & D & _); try done.
    destruct Hz as (_ & _ & Hv & _). cbn [fst snd length] in Hv. rewrite Hv in E. change (Z.of_nat 0 <=? 0) with true in E. cbv iota in E.
    exists s', st', data'. rewrite E. cbn [flat_map]. by rewrite D.
  - cbn [flat_map] in Hin. rewrite <- app_assoc in Hin. apply Forall_cons_1 in Hall as [[Hc Hne] Hall]. cbn [snd] in Hne.
    assert (0 < Z.of_nat (length d)) as Hpos by (destruct d; [done|cbn; lia]).
    destruct (recv_chunk_ok fuel st parser data body line d _ (chunks ++ [(zero, [])]) Hc He Hin Hb Hfit Hf)
      as (s' & data' & st' & E & Hi & Hb' & Ho & Hfit' & D & E0).
    destruct Hc as (Hl & _ & Hv & _). cbn [fst snd] in Hl, Hv. rewrite Hv, (proj2 (Z.leb_gt _ 0)) in E by lia.
    destruct (IH fuel st' s' data' (body ++ d) rest Hall Hz E0 Hi Hb' Hfit') as (s2 & st2 & lost & E2 & D2 & Hi2 & Ho2).
    { apply (f_equal length) in Hin, Hi. rewrite !length_app in Hin. rewrite !length_app in Hi.
      unfold chunk_text at 1 in Hin. rewrite !length_app in Hin. cbn [fst snd length crlf] in Hin. lia. }
    exists s2, st2, lost. rewrite E, E2. cbn [flat_map snd]. rewrite <- app_assoc. split_and!; [done|congruence|done|congruence].
Qed.

(** C27: a chunked response is put together: after the header, the chunks whatever their
    sizes and the digits their sizes are written in, and an empty chunk, [recvResponse]
    returns the response with the concatenation of the chunks' data as body, over a
    stream whose reads bring all there is room for, as long as no size line crosses the
    end of the buffer ([lines_fit]). *)
Theorem HttpConnection_chunked_body fuel (st : S) h v n reason fields chunks zero rest :
  head_ok v n reason fields = true -> has_chunked fields = true ->
  Forall (fun q => chunk_ok q /\ q.2 <> []) chunks -> chunk_ok (zero, []) ->
  incoming st = rsp_head v n reason fields ++ flat_map chunk_text chunks ++ chunk_text (zero, []) ++ rest ->
  (let first := Nat.min (Z.to_nat buff_size) (length (incoming st)) in
   let head := length (rsp_head v n reason fields) in
   (head <=? first)%nat && lines_fit (first - head) (length (incoming st) - first) (chunks ++ [(zero, [])])) = true ->
  (length (incoming st) < fuel)%nat ->
  exists st' lost, HttpConnection_recvResponse buff_size lexical_cast fuel st h =
      Ok (Some (mkResponse n v true false (flat_map snd chunks) reason (fold_left (fun m q => h_set q.1 q.2 m) fields []) []), st') /\
    rest = lost ++ incoming st' /\ outgoing st' = outgoing st.
Proof.
  intros Hok Hch Hall Hz Hin Hfit Hf. cbv zeta in Hfit. apply andb_true_iff in Hfit as [Hfirst%Nat.leb_le Hfit].
  destruct fuel as [|fuel]; [lia|].
  assert ((stream_read st buff_size).1.1 = Z.of_nat (Nat.min (Z.to_nat buff_size) (length (incoming st)))) as Hp by (rewrite prompt by lia; lia).
  destruct (recv_rsp_head_ok fuel st h v n reason fields _ Hok Hin) as (s' & data & st1 & E & Hi & Ho & Hb & Hlen & D & E0 & C); [lia|].
  assert (length data = Nat.min (Z.to_nat buff_size) (length (incoming st)) - length (rsp_head v n reason fields))%nat as Hd by lia.
  assert (length (incoming st1) = length (incoming st) - Nat.min (Z.to_nat buff_size) (length (incoming st)))%nat as Hi1.
  { apply (f_equal length) in Hi, Hin. rewrite length_app in Hi. rewrite length_app in Hin. lia. }
  destruct (recv_chunks_ok chunks zero (Datatypes.S fuel) st1 s' data [] rest Hall Hz E0 Hi) as (s2 & st2 & lost & E2 & D2 & Hi2 & Ho2);
    [lia|by rewrite Hd, Hi1|lia|].
  exists st2, lost. unfold HttpConnection_recvResponse. rewrite E. cbn [obind]. rewrite C, Hch, E2. cbn [obind].
  split_and!; [|done|congruence]. do 3 f_equal. unfold finish_response. rewrite D2, D. cbn [app]. by destruct (flat_map snd chunks).
Qed.

End recv.

(** ** Termination *)





Section terminates.
Context {S : Type} {SO : StreamOps S} {SS : StreamSpec S}.
Context (buff_size : Z) (lexical_cast : bytes -> option Z).
Implicit Types st : S.
Hypothesis buff_size_ok : 0 < buff_size < 2 ^ 31.








End terminates.

Definition no_client : httpclient_parser := mkClient 0 0 0 0 false false false 0 0 0 0.

Definition sample_response : HttpResponse :=
  HttpResponse_setHeader (HttpResponse_setBody (HttpResponse_new 0x11 false) (str "hello")) (str "Server") (str "x/1").

Lemma HttpConnection_response_roundtrip_witness :
  let c := mkGreedy [] [] false in
  let st := mkGreedy (HttpResponse_dump sample_response) [] false in
  (exists c', HttpSession_sendResponse c sample_response = Ok (80, c') /\ outgoing c' = HttpResponse_dump sample_response) /\
  exists st', HttpConnection_recvResponse 4096 digits_cast 1 st no_client = Ok (Some (received_response sample_response), st').
Proof.
  cbv zeta.
  destruct (HttpConnection_response_roundtrip 4096 digits_cast digits_cast_dec ltac:(lia) 0 (mkGreedy [] [] false)
    (mkGreedy (HttpResponse_dump sample_response) [] false) no_client sample_response []) as [H1 (st' & lost & H2 & _)]; try reflexivity.
  - repeat constructor.
  - discriminate.
  - split; [exact H1|]. by exists st'.
Defined.

(** Two chunks, the second longer than the buffer of 80 bytes. *)
Lemma HttpConnection_chunked_body_witness :
  let chunks := [(str "3", str "abc"); (str "05A", replicate 90 (chr "x"))] in
  let st := mkGreedy (rsp_head 0x11 200 (str "OK") [chunked_field] ++ flat_map chunk_text chunks ++ chunk_text (str "0", [])) [] false in
  exists st', HttpConnection_recvResponse 80 digits_cast 200 st no_client =
    Ok (Some (mkResponse 200 0x11 true false (str "abc" ++ replicate 90 (chr "x")) (str "OK") [chunked_field] []), st').
Proof.
  cbv zeta.
  destruct (HttpConnection_chunked_body 80 digits_cast ltac:(lia)
    greedy_prompt 200
    (mkGreedy (rsp_head 0x11 200 (str "OK") [chunked_field] ++ flat_map chunk_text [(str "3", str "abc"); (str "05A", replicate 90 (chr "x"))] ++
       chunk_text (str "0", [])) [] false) no_client 0x11 200 (str "OK") [chunked_field]
    [(str "3", str "abc"); (str "05A", replicate 90 (chr "x"))] (str "0") []) as (st' & lost & H & _); try reflexivity.
  - repeat constructor; discriminate.
  - repeat constructor; discriminate.
  - apply Nat.ltb_lt. reflexivity.
  - exists st'. exact H.
Defined.


(** ** Responses that are not received as they are meant *)

(** A size line that crosses the end of the buffer loses its first digits: of the 16 bytes
    announced by [10] none is received. *)
Lemma split_size_is_cut :
  let st := mkGreedy (rsp_head 0x11 200 (str "OK") [chunked_field] ++ str "10" ++ crlf ++ replicate 16 (chr "x") ++ crlf ++
    str "0" ++ crlf ++ crlf) [] false in
  exists rsp st', HttpConnection_recvResponse 48 digits_cast 100 st no_client = Ok (Some rsp, st') /\ p_body rsp = [].
Proof. eexists _, _. split; [vm_compute; reflexivity|reflexivity]. Qed.

(** A size of 2^31 or more is a negative [int]; [std::string::append] throws. *)
Lemma negative_size_throws :
  HttpConnection_recvResponse 4096 digits_cast 100
    (mkGreedy (rsp_head 0x11 200 (str "OK") [chunked_field] ++ str "ffffffff" ++ crlf ++ str "abc") [] false) no_client = Throw logic_error.
Proof. vm_compute. reflexivity. Qed.

(** A header that ends in an empty connection field leaves the parser unfinished; the
    next read then trips its assertion on the start of the body. *)
Lemma empty_connection_aborts :
  HttpConnection_recvResponse 40 digits_cast 100
    (mkGreedy (str "HTTP/1.1 200 OK" ++ crlf ++ str "Connection:" ++ crlf ++ crlf ++ str "12345678 rest") [] false) no_client = AssertFail.
Proof. vm_compute. reflexivity. Qed.
