(* ===== verification/HttpPool.v ===== *)
(** * The HTTP connection pool ([http/http_connection.cc])

    [HttpConnectionPool] keeps a list of idle connections and a counter, and hands
    connections out through shared pointers whose deleter gives them back.  Connections
    are objects in a store: deleting one removes it, and using one that is gone is
    undefined.  The pointers in the hands of users are part of the state. *)

From S2P Require Import Prelude Text HttpMessage HttpClientParser Stream Servlet HttpSession HttpConnection.
From Stdlib Require Import ZArith Lia List String.
From stdpp Require Import base tactics list numbers option gmap.

Open Scope Z_scope.
Open Scope list_scope.

Section pool.
Context {S : Type} {SO : StreamOps S}.
(** [Socket::isConnected] of the stream's socket *)
Context (connected : S -> bool).
Implicit Types st : S.

(** @src http/http_connection.h:97-99 HttpConnection *)
Record HttpConnection := mkConn { c_stream : S; c_createTime : Z; c_request : Z }.

(** The constructor: the creation time is left at 0. *)
Definition HttpConnection_new st : HttpConnection := mkConn st 0 0.

(** @src http/http_connection.h:155-166 HttpConnectionPool
    and, beyond its members, the store of connections with the next address and the
    connections handed out. *)
Record HttpConnectionPool := mkPool {
  m_host : bytes;
  m_vhost : bytes;
  m_port : Z;
  m_maxSize : Z;
  m_maxAliveTime : Z;
  m_maxRequest : Z;
  m_isHttps : bool;
  m_conns : list nat;
  m_total : Z;
  store : gmap nat HttpConnection;
  fresh_conn : nat;
  lent : list nat
}.
Implicit Types pool : HttpConnectionPool.

Definition with_conns pool conns total store fresh lent := mkPool (m_host pool) (m_vhost pool) (m_port pool) (m_maxSize pool)
  (m_maxAliveTime pool) (m_maxRequest pool) (m_isHttps pool) conns total store fresh lent.

(** @src http/http_connection.cc:348-362 HttpConnectionPool::HttpConnectionPool *)
Definition HttpConnectionPool_new (host vhost : bytes) (port : Z) (is_https : bool) (max_size max_alive_time max_request : Z) :=
  mkPool host vhost (if negb (port =? 0) then port else if is_https then 443 else 80) max_size max_alive_time max_request is_https
    [] 0 ∅ 0%nat [].

(** @src http/http_connection.cc:369-382 HttpConnectionPool::getConnection
    The loop: the connections to be deleted, the one taken, and the rest of the list. *)
Fixpoint pool_scan pool (now : Z) (conns invalid : list nat) : outcome (list nat * option nat * list nat) :=
  match conns with
  | [] => Ok (invalid, None, [])
  | conn :: conns =>
    deref (store pool !! conn) (fun c =>
    if negb (connected (c_stream c)) then pool_scan pool now conns (invalid ++ [conn])
    else if now <? u64 (c_createTime c + m_maxAliveTime pool) then pool_scan pool now conns (invalid ++ [conn])
    else Ok (invalid, Some conn, conns))
  end.

(** [delete]. *)
Definition delete_conn (heap : gmap nat HttpConnection) (conn : nat) : outcome (gmap nat HttpConnection) :=
  deref (heap !! conn) (fun _ => Ok (delete conn heap)).

Fixpoint delete_conns (heap : gmap nat HttpConnection) (conns : list nat) : outcome (gmap nat HttpConnection) :=
  match conns with
  | [] => Ok heap
  | conn :: conns => let! heap := delete_conn heap conn in delete_conns heap conns
  end.

(** @src http/http_connection.cc:364-410 HttpConnectionPool::getConnection
    [dial] is the result of looking up the host, creating the socket and connecting:
    the stream of the new connection, if all three succeed. *)
Definition HttpConnectionPool_getConnection pool (now_ms : Z) (dial : option S) : outcome (option nat * HttpConnectionPool) :=
  let! (invalid_conns, ptr, conns) := pool_scan pool now_ms (m_conns pool) [] in
  let! heap := delete_conns (store pool) invalid_conns in
  let total := i32 (m_total pool - Z.of_nat (length invalid_conns)) in
  match ptr with
  | Some ptr => Ok (Some ptr, with_conns pool conns total heap (fresh_conn pool) (ptr :: lent pool))
  | None =>
    match dial with
    | None => Ok (None, with_conns pool conns total heap (fresh_conn pool) (lent pool))
    | Some st =>
      let ptr := fresh_conn pool in
      Ok (Some ptr, with_conns pool conns (i32 (total + 1)) (<[ptr := HttpConnection_new st]> heap) (Datatypes.S ptr) (ptr :: lent pool))
    end
  end.

Fixpoint remove_one (x : nat) (l : list nat) : list nat :=
  match l with
  | [] => []
  | y :: l => if (x =? y)%nat then l else y :: remove_one x l
  end.

(** @src http/http_connection.cc:412-423 HttpConnectionPool::ReleasePtr
    The last shared pointer to [ptr] is gone. *)
Definition HttpConnectionPool_ReleasePtr pool (ptr : nat) (now_ms : Z) : outcome HttpConnectionPool :=
  deref (store pool !! ptr) (fun c =>
  let c := mkConn (c_stream c) (c_createTime c) (u64 (c_request c + 1)) in
  let heap := <[ptr := c]> (store pool) in
  let lent := remove_one ptr (lent pool) in
  if negb (connected (c_stream c)) || (now_ms <=? u64 (c_createTime c + m_maxAliveTime pool)) || (m_maxRequest pool <=? c_request c) then
    let! heap := delete_conn heap ptr in
    Ok (with_conns pool (m_conns pool) (i32 (m_total pool - 1)) heap (fresh_conn pool) lent)
  else Ok (with_conns pool (m_conns pool ++ [ptr]) (m_total pool) heap (fresh_conn pool) lent)).

(** ** Requests *)

(** @src http/http_connection.cc:476-489 HttpConnectionPool::doRequest
    The loop over the headers given: the request and [has_host]. *)
Fixpoint add_headers (req : HttpRequest) (has_host : bool) (headers : list (bytes * bytes)) : HttpRequest * bool :=
  match headers with
  | [] => (req, has_host)
  | (k, v) :: headers =>
    if strcaseeq k (str "connection") then
      add_headers (if strcaseeq v (str "keep-alive") then HttpRequest_setClose req false else req) has_host headers
    else
      let has_host := if negb has_host && strcaseeq k (str "host") then negb (bool_decide (v = [])) else has_host in
      add_headers (HttpRequest_setHeader req k v) has_host headers
  end.

(** @src http/http_connection.cc:462-500 HttpConnectionPool::doRequest *)
Definition HttpConnectionPool_makeRequest pool (method : Z) (url : bytes) (headers : list (bytes * bytes)) (body : bytes) : HttpRequest :=
  let req := HttpRequest_setClose (HttpRequest_setMethod (HttpRequest_setPath (HttpRequest_new 0x11 true) url) method) false in
  let '(req, has_host) := add_headers req false headers in
  let req := if has_host then req else
    HttpRequest_setHeader req (str "Host") (match m_vhost pool with [] => m_host pool | vhost => vhost end) in
  HttpRequest_setBody req body.

(** @src http/http_connection.cc:256-283 HttpConnection::DoRequest
    [path], [query], [fragment] and [host] are those of the URI. *)
Definition HttpConnection_makeRequest (method : Z) (path query fragment host : bytes) (headers : list (bytes * bytes)) (body : bytes) : HttpRequest :=
  let req := HttpRequest_setMethod (HttpRequest_setFragment (HttpRequest_setQuery (HttpRequest_setPath (HttpRequest_new 0x11 true) path) query) fragment) method in
  let '(req, has_host) := add_headers req false headers in
  let req := if has_host then req else HttpRequest_setHeader req (str "Host") host in
  HttpRequest_setBody req body.

(** @src http/http_connection.h:21-32 HttpResult::Error *)
Inductive HttpError :=
| OK | INVALID_URL | INVALID_HOST | CONNECT_FAIL | SEND_CLOSE_BY_PEER | SEND_SOCKET_ERROR | TIMEOUT | CREATE_SOCKET_ERROR
| POOL_GET_CONNECTION | POOL_INVALID_CONNECTION.

Context (buff_size : Z) (lexical_cast : bytes -> option Z).

Definition set_stream pool (ptr : nat) st : HttpConnectionPool :=
  with_conns pool (m_conns pool) (m_total pool)
    (alter (fun c => mkConn st (c_createTime c) (c_request c)) ptr (store pool)) (fresh_conn pool) (lent pool).

(** @src http/http_connection.cc:516-545 HttpConnectionPool::doRequest
    The times at which the connection is taken and given back are [now1] and [now2];
    [h] is the memory of the response parser.  The socket of a connection is never
    null. *)
Definition HttpConnectionPool_doRequest (fuel : nat) pool (req : HttpRequest) (now1 now2 : Z) (dial : option S) (h : httpclient_parser) :
    outcome (HttpError * option HttpResponse * HttpConnectionPool) :=
  let! (conn, pool) := HttpConnectionPool_getConnection pool now1 dial in
  match conn with
  | None => Ok (POOL_GET_CONNECTION, None, pool)
  | Some ptr =>
    deref (store pool !! ptr) (fun c =>
    let finish e rsp st :=
      let! pool := HttpConnectionPool_ReleasePtr (set_stream pool ptr st) ptr now2 in
      Ok (e, rsp, pool) in
    let! (rt, st) := HttpConnection_sendRequest (c_stream c) req in
    if rt =? 0 then finish SEND_CLOSE_BY_PEER None st
    else if rt <? 0 then finish SEND_SOCKET_ERROR None st
    else
      let! (rsp, st) := HttpConnection_recvResponse buff_size lexical_cast fuel st h in
      match rsp with
      | None => finish TIMEOUT None st
      | Some rsp => finish OK (Some rsp) st
      end)
  end.
(** ** The pool's invariant *)

(** The connections of the pool: idle and handed out. *)
Definition members pool : list nat := m_conns pool ++ lent pool.

(** No connection is listed twice, the store has exactly the connections listed, and the
    counter counts them. *)
Record pool_ok pool : Prop := {
  members_nodup : NoDup (members pool);
  members_store i : is_Some (store pool !! i) <-> i ∈ members pool;
  members_fresh i : i ∈ members pool -> (i < fresh_conn pool)%nat;
  total_exact : m_total pool = i32 (Z.of_nat (length (members pool)))
}.

(** Whether the scan takes a connection. *)
Definition usable pool (now : Z) (c : HttpConnection) : bool :=
  connected (c_stream c) && (u64 (c_createTime c + m_maxAliveTime pool) <=? now).

Definition taken (ptr : option nat) : list nat := match ptr with Some i => [i] | None => [] end.

Lemma pool_scan_spec pool now conns : forall invalid,
  (forall i, i ∈ conns -> is_Some (store pool !! i)) ->
  exists dropped ptr rest, pool_scan pool now conns invalid = Ok (invalid ++ dropped, ptr, rest) /\
    conns = dropped ++ taken ptr ++ rest /\ (ptr = None -> rest = []) /\
    (forall i c, i ∈ dropped -> store pool !! i = Some c -> usable pool now c = false) /\
    (forall i, ptr = Some i -> exists c, store pool !! i = Some c /\ usable pool now c = true).
Proof.
  induction conns as [|conn conns IH]; intros invalid Hs.
  { exists [], None, []. cbn. rewrite app_nil_r. split_and!; [done|done|done|intros i c Hi; by apply not_elem_of_nil in Hi|done]. }
  destruct (Hs conn) as [c Hc]; [by left|].
  assert (pool_scan pool now (conn :: conns) invalid =
    if usable pool now c then Ok (invalid, Some conn, conns) else pool_scan pool now conns (invalid ++ [conn])) as ->.
  { cbn [pool_scan]. rewrite Hc. cbn [deref]. unfold usable. rewrite Z.leb_antisym. by destruct (connected (c_stream c)), (now <? _). }
  destruct (usable pool now c) eqn:Hu.
  - exists [], (Some conn), conns. rewrite app_nil_r. split_and!; [done|done|done|intros i c' Hi; by apply not_elem_of_nil in Hi|].
    intros i E. simplify_eq. eauto.
  - destruct (IH (invalid ++ [conn])) as (dropped & ptr & rest & E & -> & Hn & Hd & Hp); [intros; apply Hs; by right|].
    exists (conn :: dropped), ptr, rest. rewrite E, <- app_assoc. split_and!; [done|done|done| |done].
    intros i c' [->|Hi]%elem_of_cons Hc'; [by simplify_eq|by eapply Hd].
Qed.

Lemma delete_conns_spec l : forall heap,
  NoDup l -> (forall i, i ∈ l -> is_Some (heap !! i)) ->
  exists heap', delete_conns heap l = Ok heap' /\ forall i, heap' !! i = if decide (i ∈ l) then None else heap !! i.
Proof.
  induction l as [|x l IH]; intros heap Hn Hs.
  { exists heap. split; [done|]. intros i. by rewrite decide_False by (by apply not_elem_of_nil). }
  apply NoDup_cons in Hn as [Hx Hn]. destruct (Hs x) as [c Hc]; [by left|]. cbn [delete_conns]. unfold delete_conn. rewrite Hc. cbn [deref obind].
  destruct (IH (delete x heap) Hn) as (heap' & -> & H).
  { intros i Hi. rewrite lookup_delete_ne by (by intros ->). apply Hs. by right. }
  exists heap'. split; [done|]. intros i. rewrite H. destruct (decide (i ∈ l)), (decide (i ∈ x :: l)) as [Hin|Hin]; try done.
  - exfalso. apply Hin. by right.
  - apply elem_of_cons in Hin as [->|?]; [by rewrite lookup_delete_eq|done].
  - rewrite lookup_delete_ne; [done|]. intros ->. apply Hin. by left.
Qed.

Lemma remove_one_perm x l : x ∈ l -> l ≡ₚ x :: remove_one x l.
Proof.
  induction l as [|y l IH]; [by intros ?%not_elem_of_nil|]. cbn [remove_one]. intros [->|H]%elem_of_cons.
  - by rewrite Nat.eqb_refl.
  - destruct (Nat.eqb_spec x y) as [->|?]; [done|]. rewrite IH at 1 by done. apply Permutation_swap.
Qed.

Lemma getConnection_ok pool now dial :
  pool_ok pool ->
  exists r pool', HttpConnectionPool_getConnection pool now dial = Ok (r, pool') /\ pool_ok pool' /\
    match r with
    | Some ptr => lent pool' = ptr :: lent pool /\ ptr ∉ lent pool /\
        (exists c, store pool' !! ptr = Some c /\ (store pool !! ptr = Some c /\ usable pool now c = true \/ Some (c_stream c) = dial))
    | None => lent pool' = lent pool /\ dial = None
    end.
Proof.
  intros [Hn Hs Hfr Ht]. unfold members in *. apply NoDup_app in Hn as (Hn1 & Hdis & Hn2).
  destruct (pool_scan_spec pool now (m_conns pool) []) as (dropped & ptr & rest & E & Ec & Hnone & Hd & Hp).
  { intros i Hi. apply Hs, elem_of_app. by left. }
  assert (NoDup dropped) as Hnd by (rewrite Ec in Hn1; by apply NoDup_app in Hn1 as (? & _ & _)).
  destruct (delete_conns_spec dropped (store pool) Hnd) as (heap & Eh & Hh).
  { intros i Hi. apply Hs, elem_of_app. left. rewrite Ec. apply elem_of_app. by left. }
  unfold HttpConnectionPool_getConnection. rewrite E. cbn [obind app]. rewrite Eh. cbn [obind].
  rewrite Ht, <- Z.add_opp_r, swrap_add_l by lia.
  assert (forall i, i ∈ dropped -> i ∉ taken ptr ++ rest /\ i ∉ lent pool) as Hout.
  { intros i Hi. rewrite Ec in Hn1. apply NoDup_app in Hn1 as (_ & H1 & _). split; [by apply H1|].
    apply Hdis. rewrite Ec. apply elem_of_app. by left. }
  assert (NoDup (taken ptr ++ rest)) as Hnr by (rewrite Ec in Hn1; by apply NoDup_app in Hn1 as (_ & _ & ?)).
  assert (forall i, i ∈ taken ptr ++ rest -> i ∉ lent pool) as Hdis2.
  { intros i Hi. apply Hdis. rewrite Ec. apply elem_of_app. by right. }
  assert (forall i, is_Some (heap !! i) <-> i ∈ taken ptr ++ rest \/ i ∈ lent pool) as Hheap.
  { intros i. rewrite Hh. specialize (Hs i). rewrite Ec, !elem_of_app in Hs. rewrite elem_of_app.
    destruct (decide (i ∈ dropped)) as [Hi|Hi]; [|tauto]. destruct (Hout i Hi) as [H1 H2]. rewrite elem_of_app in H1.
    split; [by intros [? ?]|tauto]. }
  assert (Z.of_nat (length (m_conns pool ++ lent pool)) + - Z.of_nat (length dropped) =
    Z.of_nat (length (taken ptr ++ rest) + length (lent pool))) as Hlen.
  { rewrite Ec, !length_app. lia. }
  rewrite Hlen. destruct ptr as [ptr|]; cbn [taken app] in *.
  - destruct (Hp ptr eq_refl) as (c & Hc & Hu). apply NoDup_cons in Hnr as [Hx Hnr].
    assert (ptr ∉ lent pool) as Hl by (apply Hdis2; by left).
    assert (ptr ∉ dropped) as Hpd by (intros Hi; apply Hout in Hi as [Hi _]; apply Hi; by left).
    eexists _, _. split; [reflexivity|]. split; [|split_and!; [done|done|]].
    2: { exists c. cbn. rewrite Hh, decide_False by done. eauto. }
    split; cbn [members with_conns m_conns lent store fresh_conn m_total]; unfold members; cbn.
    + rewrite <- Permutation_middle. apply NoDup_cons. split; [by rewrite elem_of_app; intros [?|?]|].
      apply NoDup_app. split_and!; [done|intros i Hi; apply Hdis2; by right|done].
    + intros i. rewrite Hheap, elem_of_app, !elem_of_cons. tauto.
    + intros i. rewrite elem_of_app, elem_of_cons. intros Hi. apply Hfr. rewrite Ec, !elem_of_app, elem_of_cons. tauto.
    + f_equal. rewrite length_app. cbn [length]. lia.
  - rewrite (Hnone eq_refl) in *. cbn [app length] in *. destruct dial as [st|].
    + assert (fresh_conn pool ∉ lent pool) as Hnew.
      { intros Hi. specialize (Hfr (fresh_conn pool)). rewrite elem_of_app in Hfr. specialize (Hfr (or_intror Hi)). lia. }
      eexists _, _. split; [reflexivity|]. split; [|split_and!; [done|done|]].
      2: { exists (HttpConnection_new st). cbn. rewrite lookup_insert_eq. eauto. }
      split; unfold members; cbn.
      * apply NoDup_cons. done.
      * intros i. rewrite elem_of_cons. destruct (decide (i = fresh_conn pool)) as [->|Hne]; [rewrite lookup_insert_eq; naive_solver|].
        rewrite lookup_insert_ne by done. rewrite Hheap. rewrite elem_of_nil. tauto.
      * intros i [->|Hi]%elem_of_cons; [lia|]. assert (i < fresh_conn pool)%nat; [|lia]. apply Hfr, elem_of_app. by right.
      * rewrite swrap_add_l by lia. f_equal. lia.
    + eexists _, _. split; [reflexivity|]. split; [|done]. split; unfold members; cbn.
      * done.
      * intros i. rewrite Hheap, elem_of_nil. tauto.
      * intros i Hi. apply Hfr, elem_of_app. by right.
      * done.
Qed.

Lemma ReleasePtr_ok pool ptr now :
  pool_ok pool -> ptr ∈ lent pool ->
  exists pool', HttpConnectionPool_ReleasePtr pool ptr now = Ok pool' /\ pool_ok pool' /\ lent pool' = remove_one ptr (lent pool).
Proof.
  intros [Hn Hs Hfr Ht] Hin. unfold members in *. unfold HttpConnectionPool_ReleasePtr.
  destruct (proj2 (Hs ptr)) as [c Hc]; [apply elem_of_app; by right|]. rewrite Hc. cbn [deref].
  set (c' := mkConn _ _ _). pose proof (remove_one_perm ptr (lent pool) Hin) as Hperm.
  assert (m_conns pool ++ lent pool ≡ₚ ptr :: m_conns pool ++ remove_one ptr (lent pool)) as Hall.
  { rewrite Hperm at 1. by rewrite <- Permutation_middle. }
  rewrite Hall in Hn. apply NoDup_cons in Hn as [Hx Hn].
  destruct (_ || _).
  - unfold delete_conn. rewrite lookup_insert_eq. cbn [deref obind]. eexists. split; [reflexivity|]. split; [|done].
    split; unfold members; cbn.
    + done.
    + intros i. rewrite delete_insert_eq. specialize (Hs i). rewrite Hall, elem_of_cons in Hs. destruct (decide (i = ptr)) as [->|Hne].
      * rewrite lookup_delete_eq. split; [by intros [? ?]|done].
      * rewrite lookup_delete_ne by done. tauto.
    + intros i Hi. apply Hfr. rewrite Hall. by right.
    + rewrite Ht, <- Z.add_opp_r, swrap_add_l by lia. f_equal. rewrite (Permutation_length Hall). cbn [length]. lia.
  - eexists. split; [reflexivity|]. split; [|done].
    assert ((m_conns pool ++ [ptr]) ++ remove_one ptr (lent pool) ≡ₚ ptr :: m_conns pool ++ remove_one ptr (lent pool)) as Hp2.
    { rewrite <- app_assoc. symmetry. apply Permutation_middle. }
    split; unfold members; cbn.
    + rewrite Hp2. by apply NoDup_cons.
    + intros i. rewrite Hp2. specialize (Hs i). rewrite Hall in Hs. destruct (decide (i = ptr)) as [->|Hne].
      * rewrite lookup_insert_eq. split; [by left|done].
      * rewrite lookup_insert_ne by done. done.
    + intros i Hi. apply Hfr. rewrite Hall. by rewrite <- Hp2.
    + rewrite Ht. f_equal. by rewrite (Permutation_length Hall), (Permutation_length Hp2).
Qed.

Lemma set_stream_ok pool ptr st : pool_ok pool -> pool_ok (set_stream pool ptr st).
Proof.
  intros [Hn Hs Hfr Ht]. split; try done. intros i. cbn. unfold members in *. cbn. 
  destruct (decide (i = ptr)) as [->|Hne]; [rewrite lookup_alter_eq|by rewrite lookup_alter_ne].
  destruct (store pool !! ptr) eqn:E; rewrite <- Hs, E; cbn; split; intros [? ?]; done || eauto.
Qed.

(** ** Runs of the pool *)

(** Users take and give back connections in any order, and traffic changes the streams of
    connections at any time. *)
Inductive pool_step : HttpConnectionPool -> HttpConnectionPool -> Prop :=
| step_get pool now dial r pool' :
    HttpConnectionPool_getConnection pool now dial = Ok (r, pool') -> pool_step pool pool'
| step_release pool ptr now pool' :
    ptr ∈ lent pool -> HttpConnectionPool_ReleasePtr pool ptr now = Ok pool' -> pool_step pool pool'
| step_traffic pool ptr st : pool_step pool (set_stream pool ptr st).

Lemma pool_new_ok host vhost port is_https max_size max_alive max_request :
  pool_ok (HttpConnectionPool_new host vhost port is_https max_size max_alive max_request).
Proof.
  split; unfold members; cbn.
  - apply NoDup_nil_2.
  - intros i. rewrite lookup_empty, elem_of_nil. split; [by intros [? ?]|done].
  - intros i ?%elem_of_nil. done.
  - done.
Qed.

Lemma pool_step_ok pool pool' : pool_step pool pool' -> pool_ok pool -> pool_ok pool'.
Proof.
  intros [pool1 now dial r pool2 E|pool1 ptr now pool2 Hin E|pool1 ptr st] Hok; [| |by apply set_stream_ok].
  - destruct (getConnection_ok pool1 now dial Hok) as (r' & p' & E' & ? & _). rewrite E in E'. by simplify_eq.
  - destruct (ReleasePtr_ok pool1 ptr now Hok Hin) as (p' & E' & ? & _). rewrite E in E'. by simplify_eq.
Qed.

Lemma pool_reachable_ok pool0 pool : rtc pool_step pool0 pool -> pool_ok pool0 -> pool_ok pool.
Proof. induction 1 as [|p1 p2 p3 H1 _ IH]; [done|]. intros Hok. apply IH. by eapply pool_step_ok. Qed.

(** C29: in every state a pool can reach, its counter counts the connections that exist
    (modulo 2^32), no operation uses or deletes a connection that is gone, and a
    connection is in the hands of at most one user: [getConnection] never hands out one
    that is lent already, and returns nothing only when no new one can be made. *)
Theorem HttpConnectionPool_exclusive pool host vhost port is_https max_size max_alive max_request now dial :
  rtc pool_step (HttpConnectionPool_new host vhost port is_https max_size max_alive max_request) pool ->
  m_total pool = i32 (Z.of_nat (length (m_conns pool) + length (lent pool))) /\ NoDup (m_conns pool ++ lent pool) /\
  (exists r pool', HttpConnectionPool_getConnection pool now dial = Ok (r, pool') /\
     match r with Some ptr => ptr ∉ lent pool /\ lent pool' = ptr :: lent pool | None => dial = None end) /\
  (forall ptr, ptr ∈ lent pool -> exists pool', HttpConnectionPool_ReleasePtr pool ptr now = Ok pool').
Proof.
  intros Hr. apply pool_reachable_ok in Hr as Hok; [|apply pool_new_ok]. split_and!.
  - rewrite (total_exact pool Hok). unfold members. by rewrite length_app.
  - apply Hok.
  - destruct (getConnection_ok pool now dial Hok) as (r & pool' & E & _ & H). exists r, pool'. split; [done|].
    destruct r; [by destruct H as (? & ? & _)|by destruct H].
  - intros ptr Hin. destruct (ReleasePtr_ok pool ptr now Hok Hin) as (pool' & E & _). eauto.
Qed.

(** A request through the pool leaves no connection behind in the user's hands: whatever
    the peer does, when [doRequest] returns, the connections lent are those lent before
    and the invariant holds; it returns a response exactly with the code [OK]. *)
Lemma HttpConnectionPool_doRequest_returns fuel pool req now1 now2 dial h e rsp pool' :
  pool_ok pool -> HttpConnectionPool_doRequest fuel pool req now1 now2 dial h = Ok (e, rsp, pool') ->
  pool_ok pool' /\ lent pool' = lent pool /\ (e = OK <-> is_Some rsp).
Proof.
  intros Hok E. unfold HttpConnectionPool_doRequest in E.
  destruct (getConnection_ok pool now1 dial Hok) as (r & p1 & E1 & Hok1 & Hr). rewrite E1 in E. cbn [obind] in E.
  destruct r as [ptr|]; [|simplify_eq; destruct Hr; split_and!; [done|done|split; [done|by intros [? ?]]]].
  destruct Hr as (Hl & _ & c & Hc & _). rewrite Hc in E. cbn [deref] in E.
  assert (forall st, exists p2, HttpConnectionPool_ReleasePtr (set_stream p1 ptr st) ptr now2 = Ok p2 /\ pool_ok p2 /\ lent p2 = lent pool) as Hrel.
  { intros st. destruct (ReleasePtr_ok (set_stream p1 ptr st) ptr now2) as (p2 & ? & ? & E2); [by apply set_stream_ok|cbn; rewrite Hl; by left|].
    exists p2. split_and!; [done|done|]. rewrite E2. cbn. rewrite Hl. cbn [remove_one]. by rewrite Nat.eqb_refl. }
  destruct (HttpConnection_sendRequest (c_stream c) req) as [[rt st]| | | |]; cbn [obind] in E; try done.
  destruct (rt =? 0); [destruct (Hrel st) as (p2 & E2 & ? & ?); rewrite E2 in E; cbn in E; simplify_eq; split_and!; [done|done|split; [done|by intros [? ?]]]|].
  destruct (rt <? 0); [destruct (Hrel st) as (p2 & E2 & ? & ?); rewrite E2 in E; cbn in E; simplify_eq; split_and!; [done|done|split; [done|by intros [? ?]]]|].
  destruct (HttpConnection_recvResponse _ _ _ _ _) as [[rsp' st2]| | | |]; cbn [obind] in E; try done.
  destruct rsp' as [rsp'|]; destruct (Hrel st2) as (p2 & E2 & ? & ?); rewrite E2 in E; cbn in E; simplify_eq;
    (split_and!; [done|done|split; [eauto; done|by intros [? ?]]]).
Qed.

(** ** Requests *)

Lemma add_headers_host headers : forall req has_host,
  NoDup (map (fun q => fold_case q.1) headers) ->
  (has_host = true -> Forall (fun q => strcaseeq q.1 (str "host") = false) headers /\ HttpRequest_getHeader req (str "host") [] <> []) ->
  (add_headers req has_host headers).2 = true -> HttpRequest_getHeader (add_headers req has_host headers).1 (str "host") [] <> [].
Proof.
  induction headers as [|[k v] headers IH]; intros req has_host Hn Hh Hr; [by apply Hh|].
  cbn [map] in Hn. apply NoDup_cons in Hn as [Hk Hn]. cbn [add_headers fst snd] in *. destruct (strcaseeq k (str "connection")).
  - apply IH; [done| |done]. intros E. destruct (Hh E) as [H1 H2]. apply Forall_cons_1 in H1 as [_ H1]. split; [done|]. by case_match.
  - apply IH; [done| |done]. destruct has_host; cbn [negb andb].
    + intros _. destruct (Hh eq_refl) as [H1 H2]. apply Forall_cons_1 in H1 as [Hk1 H1]. split; [done|]. cbn [fst] in Hk1.
      unfold HttpRequest_getHeader, HttpRequest_setHeader in *. cbn. rewrite smap_find_set. unfold key_eq.
      unfold strcaseeq in Hk1. apply bool_decide_eq_false in Hk1. rewrite bool_decide_eq_false_2; [done|].
      intros E. by apply Hk1.
    + destruct (strcaseeq k (str "host")) eqn:Eh; [|done]. intros Hv%negb_true_iff%bool_decide_eq_false.
      unfold strcaseeq in Eh. apply bool_decide_eq_true in Eh. split.
      * apply List.Forall_forall. intros q Hq. apply bool_decide_eq_false. intros E. apply Hk. rewrite Eh, <- E.
        apply list_elem_of_In, in_map_iff. eauto.
      * unfold HttpRequest_getHeader, HttpRequest_setHeader. cbn. rewrite smap_find_set. unfold key_eq. by rewrite bool_decide_eq_true_2.
Qed.

(** Every request the pool makes names a host, as long as the headers given do not repeat
    a name in another case. *)
Lemma makeRequest_host pool method url headers body :
  NoDup (map (fun q => fold_case q.1) headers) -> m_host pool <> [] ->
  HttpRequest_getHeader (HttpConnectionPool_makeRequest pool method url headers body) (str "host") [] <> [].
Proof.
  intros Hn Hhost. unfold HttpConnectionPool_makeRequest. set (req := HttpRequest_setClose _ _).
  pose proof (add_headers_host headers req false Hn ltac:(done)) as H.
  destruct (add_headers req false headers) as [req' has]. cbn [fst snd] in H. destruct has; [by apply H|].
  unfold HttpRequest_getHeader, HttpRequest_setHeader. cbn. rewrite smap_find_set. cbn. by destruct (m_vhost pool).
Qed.

End pool.

(** ** A run *)

Definition gr_alive (st : greedy) : bool := negb (gr_closed st).

Definition pool_run : outcome (HttpConnectionPool (S := greedy)) :=
  let p0 := HttpConnectionPool_new (str "h") [] 0 false 10 30 5 in
  let! (_, p1) := HttpConnectionPool_getConnection gr_alive p0 1000 (Some (mkGreedy [] [] false)) in
  let! (_, p2) := HttpConnectionPool_getConnection gr_alive p1 1000 (Some (mkGreedy [] [] false)) in
  HttpConnectionPool_ReleasePtr gr_alive p2 1 2000.

Lemma HttpConnectionPool_exclusive_witness :
  exists pool, pool_run = Ok pool /\ m_conns pool = [1%nat] /\ lent pool = [0%nat] /\
    exists r pool', HttpConnectionPool_getConnection gr_alive pool 3000 None = Ok (r, pool') /\
      match r with Some ptr => ptr ∉ lent pool /\ lent pool' = ptr :: lent pool | None => None = None :> option greedy end.
Proof.
  eexists. split; [reflexivity|]. split; [reflexivity|]. split; [reflexivity|].
  refine (proj1 (proj2 (proj2 (HttpConnectionPool_exclusive gr_alive _ (str "h") [] 0 false 10 30 5 3000 None _)))).
  eapply rtc_l; [eapply (step_get gr_alive _ 1000 (Some (mkGreedy [] [] false))); reflexivity|].
  eapply rtc_l; [eapply (step_get gr_alive _ 1000 (Some (mkGreedy [] [] false))); reflexivity|].
  eapply rtc_l; [eapply (step_release gr_alive _ 1 2000); [by left|reflexivity]|]. apply rtc_refl.
Defined.

(** The test for expiry is the wrong way round: a connection younger than the maximal age
    is deleted and an older one is used.  As the time of creation is never assigned, no
    connection expires in practice. *)
Lemma expiry_inverted :
  let young := mkConn (mkGreedy [] [] false) 990 0 in
  let old := mkConn (mkGreedy [] [] false) 10 0 in
  let pool := mkPool (str "h") [] 80 10 30 5 false [0%nat; 1%nat] 2 (<[0%nat := young]> (<[1%nat := old]> ∅)) 2 [] in
  exists pool', HttpConnectionPool_getConnection gr_alive pool 1000 None = Ok (Some 1%nat, pool') /\ store pool' !! 0%nat = None.
Proof. eexists. split; reflexivity. Qed.

(** The limit on the number of connections is not used: with a limit of one, two are kept. *)
Lemma max_size_unused :
  exists p2 pool, HttpConnectionPool_getConnection gr_alive (HttpConnectionPool_new (str "h") [] 0 false 1 30 5) 1000 (Some (mkGreedy [] [] false)) = Ok (Some 0%nat, p2) /\
  (let! (_, p) := HttpConnectionPool_getConnection gr_alive p2 1000 (Some (mkGreedy [] [] false)) in
   let! p := HttpConnectionPool_ReleasePtr gr_alive p 0 2000 in HttpConnectionPool_ReleasePtr gr_alive p 1 2000) = Ok pool /\
  m_conns pool = [0%nat; 1%nat] /\ m_maxSize pool = 1.
Proof. eexists _, _. split; [reflexivity|]. split; [reflexivity|]. done. Qed.
