(* ===== verification/UriTable.v ===== *)
(** * The state machine of the URI parser ([uri.rl.cc])

    As in [Http11Table]: a state is a row of ranges with the transition taken on each,
    named by the labels of the generated code. *)

From S2P Require Import Prelude Ragel.
From Stdlib Require Import ZArith List.
Import ListNotations.

Open Scope Z_scope.

(** The actions, in the order of [uri.rl]. *)
Inductive uri_action :=
| u_mark | u_save_scheme | u_save_port | u_save_userinfo | u_save_host | u_save_path | u_save_query | u_save_fragment.

(** ** Transitions with actions *)

(** @src uri.rl.cc:144-153 tr467 *)
Definition utr467 := tr [u_mark; u_save_query] 453.

(** @src uri.rl.cc:154-161 tr469 *)
Definition utr469 := tr [u_save_query] 453.

(** @src uri.rl.cc:162-172 tr474 *)
Definition utr474 := tr [u_mark; u_save_host] 453.

(** @src uri.rl.cc:173-181 tr485 *)
Definition utr485 := tr [u_save_host] 453.

(** @src uri.rl.cc:182-192 tr489 *)
Definition utr489 := tr [u_mark; u_save_port] 453.

(** @src uri.rl.cc:193-201 tr493 *)
Definition utr493 := tr [u_save_port] 453.

(** @src uri.rl.cc:202-218 tr548 *)
Definition utr548 := tr [u_mark; u_save_host; u_save_path] 453.

(** @src uri.rl.cc:219-235 tr559 *)
Definition utr559 := tr [u_save_host; u_mark; u_save_path] 453.

(** @src uri.rl.cc:236-243 tr563 *)
Definition utr563 := tr [u_save_path] 453.

(** @src uri.rl.cc:244-260 tr566 *)
Definition utr566 := tr [u_mark; u_save_port; u_save_path] 453.

(** @src uri.rl.cc:261-277 tr570 *)
Definition utr570 := tr [u_save_port; u_mark; u_save_path] 453.

(** @src uri.rl.cc:302-305 tr462 *)
Definition utr462 := tr [u_mark] 454.

(** @src uri.rl.cc:330-333 tr463 *)
Definition utr463 := tr [u_mark] 1.

(** @src uri.rl.cc:387-397 tr476 *)
Definition utr476 := tr [u_mark; u_save_host] 455.

(** @src uri.rl.cc:398-406 tr486 *)
Definition utr486 := tr [u_save_host] 455.

(** @src uri.rl.cc:407-417 tr490 *)
Definition utr490 := tr [u_mark; u_save_port] 455.

(** @src uri.rl.cc:418-426 tr494 *)
Definition utr494 := tr [u_save_port] 455.

(** @src uri.rl.cc:477-487 tr482 *)
Definition utr482 := tr [u_mark; u_save_host] 456.

(** @src uri.rl.cc:488-496 tr488 *)
Definition utr488 := tr [u_save_host] 456.

(** @src uri.rl.cc:497-507 tr492 *)
Definition utr492 := tr [u_mark; u_save_port] 456.

(** @src uri.rl.cc:508-516 tr496 *)
Definition utr496 := tr [u_save_port] 456.

(** @src uri.rl.cc:517-533 tr556 *)
Definition utr556 := tr [u_mark; u_save_host; u_save_path] 456.

(** @src uri.rl.cc:534-550 tr562 *)
Definition utr562 := tr [u_save_host; u_mark; u_save_path] 456.

(** @src uri.rl.cc:551-558 tr565 *)
Definition utr565 := tr [u_save_path] 456.

(** @src uri.rl.cc:559-575 tr569 *)
Definition utr569 := tr [u_mark; u_save_port; u_save_path] 456.

(** @src uri.rl.cc:576-592 tr573 *)
Definition utr573 := tr [u_save_port; u_mark; u_save_path] 456.

(** @src uri.rl.cc:616-619 tr466 *)
Definition utr466 := tr [u_mark] 457.

(** @src uri.rl.cc:643-646 tr468 *)
Definition utr468 := tr [u_mark] 7.

(** @src uri.rl.cc:732-735 tr472 *)
Definition utr472 := tr [u_mark] 9.

(** @src uri.rl.cc:864-874 tr507 *)
Definition utr507 := tr [u_mark; u_save_host] 461.

(** @src uri.rl.cc:875-883 tr487 *)
Definition utr487 := tr [u_save_host] 461.

(** @src uri.rl.cc:897-900 tr491 *)
Definition utr491 := tr [u_mark] 462.

(** @src uri.rl.cc:1043-1046 tr473 *)
Definition utr473 := tr [u_mark] 467.

(** @src uri.rl.cc:1073-1076 tr475 *)
Definition utr475 := tr [u_mark] 31.

(** @src uri.rl.cc:1104-1114 tr481 *)
Definition utr481 := tr [u_mark; u_save_host] 468.

(** @src uri.rl.cc:1115-1123 tr499 *)
Definition utr499 := tr [u_save_host] 468.

(** @src uri.rl.cc:1205-1214 tr38 *)
Definition utr38 := tr [u_save_userinfo] 469.

(** @src uri.rl.cc:1215-1226 tr483 *)
Definition utr483 := tr [u_mark; u_save_userinfo] 469.

(** @src uri.rl.cc:1261-1264 tr501 *)
Definition utr501 := tr [u_mark] 470.

(** @src uri.rl.cc:1290-1293 tr502 *)
Definition utr502 := tr [u_mark] 36.

(** @src uri.rl.cc:1321-1324 tr503 *)
Definition utr503 := tr [u_mark] 471.

(** @src uri.rl.cc:1728-1731 tr504 *)
Definition utr504 := tr [u_mark] 485.

(** @src uri.rl.cc:1762-1765 tr506 *)
Definition utr506 := tr [u_mark] 486.

(** @src uri.rl.cc:1796-1799 tr505 *)
Definition utr505 := tr [u_mark] 487.

(** @src uri.rl.cc:1862-1865 tr484 *)
Definition utr484 := tr [u_mark] 38.

(** @src uri.rl.cc:4709-4712 tr500 *)
Definition utr500 := tr [u_mark] 489.

(** @src uri.rl.cc:4744-4747 tr477 *)
Definition utr477 := tr [u_mark] 490.

(** @src uri.rl.cc:5165-5168 tr478 *)
Definition utr478 := tr [u_mark] 504.

(** @src uri.rl.cc:5200-5203 tr480 *)
Definition utr480 := tr [u_mark] 505.

(** @src uri.rl.cc:5235-5238 tr479 *)
Definition utr479 := tr [u_mark] 506.

(** @src uri.rl.cc:5303-5306 tr461 *)
Definition utr461 := tr [u_mark] 508.

(** @src uri.rl.cc:5343-5350 tr543 *)
Definition utr543 := tr [u_save_scheme] 509.

(** @src uri.rl.cc:5434-5437 tr546 *)
Definition utr546 := tr [u_mark] 229.

(** @src uri.rl.cc:5566-5576 tr550 *)
Definition utr550 := tr [u_mark; u_save_host] 513.

(** @src uri.rl.cc:5577-5587 tr567 *)
Definition utr567 := tr [u_mark; u_save_port] 513.

(** @src uri.rl.cc:5588-5598 tr560 *)
Definition utr560 := tr [u_save_host; u_mark] 513.

(** @src uri.rl.cc:5599-5609 tr571 *)
Definition utr571 := tr [u_save_port; u_mark] 513.

(** @src uri.rl.cc:5660-5670 tr584 *)
Definition utr584 := tr [u_mark; u_save_host] 514.

(** @src uri.rl.cc:5671-5679 tr561 *)
Definition utr561 := tr [u_save_host] 514.

(** @src uri.rl.cc:5693-5696 tr568 *)
Definition utr568 := tr [u_mark] 515.

(** @src uri.rl.cc:5839-5842 tr547 *)
Definition utr547 := tr [u_mark] 520.

(** @src uri.rl.cc:5869-5872 tr549 *)
Definition utr549 := tr [u_mark] 253.

(** @src uri.rl.cc:5900-5910 tr555 *)
Definition utr555 := tr [u_mark; u_save_host] 521.

(** @src uri.rl.cc:5911-5919 tr576 *)
Definition utr576 := tr [u_save_host] 521.

(** @src uri.rl.cc:6001-6010 tr263 *)
Definition utr263 := tr [u_save_userinfo] 522.

(** @src uri.rl.cc:6011-6022 tr557 *)
Definition utr557 := tr [u_mark; u_save_userinfo] 522.

(** @src uri.rl.cc:6057-6060 tr578 *)
Definition utr578 := tr [u_mark] 523.

(** @src uri.rl.cc:6086-6089 tr579 *)
Definition utr579 := tr [u_mark] 258.

(** @src uri.rl.cc:6117-6120 tr580 *)
Definition utr580 := tr [u_mark] 524.

(** @src uri.rl.cc:6524-6527 tr581 *)
Definition utr581 := tr [u_mark] 538.

(** @src uri.rl.cc:6558-6561 tr583 *)
Definition utr583 := tr [u_mark] 539.

(** @src uri.rl.cc:6592-6595 tr582 *)
Definition utr582 := tr [u_mark] 540.

(** @src uri.rl.cc:6658-6661 tr558 *)
Definition utr558 := tr [u_mark] 260.

(** @src uri.rl.cc:9505-9508 tr577 *)
Definition utr577 := tr [u_mark] 542.

(** @src uri.rl.cc:9540-9543 tr551 *)
Definition utr551 := tr [u_mark] 543.

(** @src uri.rl.cc:9961-9964 tr552 *)
Definition utr552 := tr [u_mark] 557.

(** @src uri.rl.cc:9996-9999 tr554 *)
Definition utr554 := tr [u_mark] 558.

(** @src uri.rl.cc:10031-10034 tr553 *)
Definition utr553 := tr [u_mark] 559.

(** ** States *)

(** @src uri.rl.cc:88-140 Uri::Create *)
Definition urows_1 : list (row uri_action) := [
  mkRow 451 false [rng (-128) (-1) (st 452); on 33 (st 452); on 35 (st 453); on 36 (st 452); on 37 (st 3);
    rng 38 46 (st 452); on 47 (st 458); rng 48 57 (st 452); on 59 (st 452); on 61 (st 452); on 63 (st 456);
    on 64 (st 452); rng 65 90 utr461; on 95 (st 452); rng 97 122 utr461; on 126 (st 452)];
  mkRow 452 false [rng (-128) (-1) (st 452); on 33 (st 452); on 35 (st 453); on 36 (st 452); on 37 (st 3);
    rng 38 46 (st 452); on 47 (st 455); rng 48 57 (st 452); on 59 (st 452); on 61 (st 452); on 63 (st 456);
    rng 64 90 (st 452); on 95 (st 452); rng 97 122 (st 452); on 126 (st 452)]].

(** @src uri.rl.cc:278-386 Uri::Create *)
Definition urows_2 : list (row uri_action) := [
  mkRow 453 false [rng (-128) (-1) utr462; on 33 utr462; on 36 utr462; on 37 utr463; rng 38 59 utr462;
    on 61 utr462; rng 63 90 utr462; on 95 utr462; rng 97 122 utr462; on 126 utr462];
  mkRow 454 false [rng (-128) (-1) (st 454); on 33 (st 454); on 36 (st 454); on 37 (st 1); rng 38 59 (st 454);
    on 61 (st 454); rng 63 90 (st 454); on 95 (st 454); rng 97 122 (st 454); on 126 (st 454)];
  mkRow 1 false [rng 48 57 (st 2); rng 65 70 (st 2); rng 97 102 (st 2)];
  mkRow 2 false [rng 48 57 (st 454); rng 65 70 (st 454); rng 97 102 (st 454)];
  mkRow 3 false [rng 48 57 (st 4); rng 65 70 (st 4); rng 97 102 (st 4)];
  mkRow 4 false [rng 48 57 (st 452); rng 65 70 (st 452); rng 97 102 (st 452)]].

(** @src uri.rl.cc:427-476 Uri::Create *)
Definition urows_3 : list (row uri_action) := [
  mkRow 455 false [rng (-128) (-1) (st 455); on 33 (st 455); on 35 (st 453); on 36 (st 455); on 37 (st 5);
    rng 38 59 (st 455); on 61 (st 455); on 63 (st 456); rng 64 90 (st 455); on 95 (st 455);
    rng 97 122 (st 455); on 126 (st 455)];
  mkRow 5 false [rng 48 57 (st 6); rng 65 70 (st 6); rng 97 102 (st 6)];
  mkRow 6 false [rng 48 57 (st 455); rng 65 70 (st 455); rng 97 102 (st 455)]].

(** @src uri.rl.cc:593-731 Uri::Create *)
Definition urows_4 : list (row uri_action) := [
  mkRow 456 false [rng (-128) (-1) utr466; on 33 utr466; on 35 utr467; on 36 utr466; on 37 utr468;
    rng 38 59 utr466; on 61 utr466; rng 63 90 utr466; on 95 utr466; rng 97 122 utr466; on 126 utr466];
  mkRow 457 false [rng (-128) (-1) (st 457); on 33 (st 457); on 35 utr469; on 36 (st 457); on 37 (st 7);
    rng 38 59 (st 457); on 61 (st 457); rng 63 90 (st 457); on 95 (st 457); rng 97 122 (st 457); on 126 (st 457)];
  mkRow 7 false [rng 48 57 (st 8); rng 65 70 (st 8); rng 97 102 (st 8)];
  mkRow 8 false [rng 48 57 (st 457); rng 65 70 (st 457); rng 97 102 (st 457)];
  mkRow 458 false [rng (-128) (-1) (st 455); on 33 (st 455); on 35 (st 453); on 36 (st 455); on 37 (st 5);
    rng 38 46 (st 455); on 47 (st 459); rng 48 59 (st 455); on 61 (st 455); on 63 (st 456); rng 64 90 (st 455);
    on 95 (st 455); rng 97 122 (st 455); on 126 (st 455)];
  mkRow 459 false [on 2 utr472; on 33 utr473; on 35 utr474; on 36 utr473; on 37 utr475; rng 38 46 utr473;
    on 47 utr476; on 48 utr477; on 49 utr478; on 50 utr479; rng 51 57 utr480; on 58 utr481; on 59 utr473;
    on 61 utr473; on 63 utr482; on 64 utr483; rng 65 90 utr473; on 91 utr484; on 95 utr473; rng 97 122 utr473;
    on 126 utr473]].

(** @src uri.rl.cc:736-863 Uri::Create *)
Definition urows_5 : list (row uri_action) := [
  mkRow 9 false [rng 48 52 (st 10)];
  mkRow 10 false [rng 48 57 (st 11)];
  mkRow 11 false [on 46 (st 12)];
  mkRow 12 false [on 2 (st 13); on 48 (st 15); on 49 (st 27); on 50 (st 29); rng 51 57 (st 28)];
  mkRow 13 false [rng 48 52 (st 14)];
  mkRow 14 false [rng 48 57 (st 15)];
  mkRow 15 false [on 46 (st 16)];
  mkRow 16 false [on 2 (st 17); on 48 (st 19); on 49 (st 23); on 50 (st 25); rng 51 57 (st 24)];
  mkRow 17 false [rng 48 52 (st 18)];
  mkRow 18 false [rng 48 57 (st 19)];
  mkRow 19 false [on 46 (st 20)];
  mkRow 20 false [on 2 (st 21); on 48 (st 460); on 49 (st 463); on 50 (st 465); rng 51 57 (st 464)];
  mkRow 21 false [rng 48 52 (st 22)];
  mkRow 22 false [rng 48 57 (st 460)];
  mkRow 460 false [on 35 utr485; on 47 utr486; on 58 utr487; on 63 utr488]].

(** @src uri.rl.cc:884-1022 Uri::Create *)
Definition urows_6 : list (row uri_action) := [
  mkRow 461 false [on 35 utr489; on 47 utr490; rng 48 57 utr491; on 63 utr492];
  mkRow 462 false [on 35 utr493; on 47 utr494; rng 48 57 (st 462); on 63 utr496];
  mkRow 463 false [on 35 utr485; on 47 utr486; rng 48 57 (st 464); on 58 utr487; on 63 utr488];
  mkRow 464 false [on 35 utr485; on 47 utr486; rng 48 57 (st 460); on 58 utr487; on 63 utr488];
  mkRow 465 false [on 35 utr485; on 47 utr486; rng 48 52 (st 460); on 53 (st 466); rng 54 57 (st 460);
    on 58 utr487; on 63 utr488];
  mkRow 466 false [on 35 utr485; on 47 utr486; rng 48 53 (st 460); on 58 utr487; on 63 utr488];
  mkRow 23 false [on 46 (st 20); rng 48 57 (st 24)];
  mkRow 24 false [on 46 (st 20); rng 48 57 (st 19)];
  mkRow 25 false [on 46 (st 20); rng 48 52 (st 19); on 53 (st 26); rng 54 57 (st 19)];
  mkRow 26 false [on 46 (st 20); rng 48 53 (st 19)];
  mkRow 27 false [on 46 (st 16); rng 48 57 (st 28)];
  mkRow 28 false [on 46 (st 16); rng 48 57 (st 15)]].

(** @src uri.rl.cc:1023-1154 Uri::Create *)
Definition urows_7 : list (row uri_action) := [
  mkRow 29 false [on 46 (st 16); rng 48 52 (st 15); on 53 (st 30); rng 54 57 (st 15)];
  mkRow 30 false [on 46 (st 16); rng 48 53 (st 15)];
  mkRow 467 false [on 33 (st 467); on 35 utr485; on 36 (st 467); on 37 (st 31); rng 38 46 (st 467);
    on 47 utr486; rng 48 57 (st 467); on 58 utr499; on 59 (st 467); on 61 (st 467); on 63 utr488; on 64 utr38;
    rng 65 90 (st 467); on 95 (st 467); rng 97 122 (st 467); on 126 (st 467)];
  mkRow 31 false [rng 48 57 (st 32); rng 65 70 (st 32); rng 97 102 (st 32)];
  mkRow 32 false [rng 48 57 (st 467); rng 65 70 (st 467); rng 97 102 (st 467)];
  mkRow 468 false [on 33 (st 33); on 35 utr489; on 36 (st 33); on 37 (st 34); rng 38 46 (st 33); on 47 utr490;
    rng 48 57 utr500; rng 58 59 (st 33); on 61 (st 33); on 63 utr492; on 64 utr38; rng 65 90 (st 33);
    on 95 (st 33); rng 97 122 (st 33); on 126 (st 33)]].

(** @src uri.rl.cc:1155-1289 Uri::Create *)
Definition urows_8 : list (row uri_action) := [
  mkRow 33 false [on 33 (st 33); on 36 (st 33); on 37 (st 34); rng 38 46 (st 33); rng 48 59 (st 33);
    on 61 (st 33); on 64 utr38; rng 65 90 (st 33); on 95 (st 33); rng 97 122 (st 33); on 126 (st 33)];
  mkRow 34 false [rng 48 57 (st 35); rng 65 70 (st 35); rng 97 102 (st 35)];
  mkRow 35 false [rng 48 57 (st 33); rng 65 70 (st 33); rng 97 102 (st 33)];
  mkRow 469 false [on 2 utr472; on 33 utr501; on 35 utr474; on 36 utr501; on 37 utr502; rng 38 46 utr501;
    on 47 utr476; on 48 utr503; on 49 utr504; on 50 utr505; rng 51 57 utr506; on 58 utr507; on 59 utr501;
    on 61 utr501; on 63 utr482; rng 65 90 utr501; on 91 utr484; on 95 utr501; rng 97 122 utr501; on 126 utr501];
  mkRow 470 false [on 33 (st 470); on 35 utr485; on 36 (st 470); on 37 (st 36); rng 38 46 (st 470);
    on 47 utr486; rng 48 57 (st 470); on 58 utr487; on 59 (st 470); on 61 (st 470); on 63 utr488;
    rng 65 90 (st 470); on 95 (st 470); rng 97 122 (st 470); on 126 (st 470)]].

(** @src uri.rl.cc:1294-1407 Uri::Create *)
Definition urows_9 : list (row uri_action) := [
  mkRow 36 false [rng 48 57 (st 37); rng 65 70 (st 37); rng 97 102 (st 37)];
  mkRow 37 false [rng 48 57 (st 470); rng 65 70 (st 470); rng 97 102 (st 470)];
  mkRow 471 false [on 33 (st 470); on 35 utr485; on 36 (st 470); on 37 (st 36); rng 38 45 (st 470);
    on 46 (st 472); on 47 utr486; rng 48 57 (st 470); on 58 utr487; on 59 (st 470); on 61 (st 470);
    on 63 utr488; rng 65 90 (st 470); on 95 (st 470); rng 97 122 (st 470); on 126 (st 470)];
  mkRow 472 false [on 2 (st 13); on 33 (st 470); on 35 utr485; on 36 (st 470); on 37 (st 36);
    rng 38 46 (st 470); on 47 utr486; on 48 (st 473); on 49 (st 481); on 50 (st 483); rng 51 57 (st 482);
    on 58 utr487; on 59 (st 470); on 61 (st 470); on 63 utr488; rng 65 90 (st 470); on 95 (st 470);
    rng 97 122 (st 470); on 126 (st 470)];
  mkRow 473 false [on 33 (st 470); on 35 utr485; on 36 (st 470); on 37 (st 36); rng 38 45 (st 470);
    on 46 (st 474); on 47 utr486; rng 48 57 (st 470); on 58 utr487; on 59 (st 470); on 61 (st 470);
    on 63 utr488; rng 65 90 (st 470); on 95 (st 470); rng 97 122 (st 470); on 126 (st 470)]].

(** @src uri.rl.cc:1408-1547 Uri::Create *)
Definition urows_10 : list (row uri_action) := [
  mkRow 474 false [on 2 (st 17); on 33 (st 470); on 35 utr485; on 36 (st 470); on 37 (st 36);
    rng 38 46 (st 470); on 47 utr486; on 48 (st 475); on 49 (st 477); on 50 (st 479); rng 51 57 (st 478);
    on 58 utr487; on 59 (st 470); on 61 (st 470); on 63 utr488; rng 65 90 (st 470); on 95 (st 470);
    rng 97 122 (st 470); on 126 (st 470)];
  mkRow 475 false [on 33 (st 470); on 35 utr485; on 36 (st 470); on 37 (st 36); rng 38 45 (st 470);
    on 46 (st 476); on 47 utr486; rng 48 57 (st 470); on 58 utr487; on 59 (st 470); on 61 (st 470);
    on 63 utr488; rng 65 90 (st 470); on 95 (st 470); rng 97 122 (st 470); on 126 (st 470)];
  mkRow 476 false [on 2 (st 21); on 33 (st 470); on 35 utr485; on 36 (st 470); on 37 (st 36);
    rng 38 46 (st 470); on 47 utr486; rng 48 57 (st 470); on 58 utr487; on 59 (st 470); on 61 (st 470);
    on 63 utr488; rng 65 90 (st 470); on 95 (st 470); rng 97 122 (st 470); on 126 (st 470)];
  mkRow 477 false [on 33 (st 470); on 35 utr485; on 36 (st 470); on 37 (st 36); rng 38 45 (st 470);
    on 46 (st 476); on 47 utr486; rng 48 57 (st 478); on 58 utr487; on 59 (st 470); on 61 (st 470);
    on 63 utr488; rng 65 90 (st 470); on 95 (st 470); rng 97 122 (st 470); on 126 (st 470)];
  mkRow 478 false [on 33 (st 470); on 35 utr485; on 36 (st 470); on 37 (st 36); rng 38 45 (st 470);
    on 46 (st 476); on 47 utr486; rng 48 57 (st 475); on 58 utr487; on 59 (st 470); on 61 (st 470);
    on 63 utr488; rng 65 90 (st 470); on 95 (st 470); rng 97 122 (st 470); on 126 (st 470)]].

(** @src uri.rl.cc:1548-1666 Uri::Create *)
Definition urows_11 : list (row uri_action) := [
  mkRow 479 false [on 33 (st 470); on 35 utr485; on 36 (st 470); on 37 (st 36); rng 38 45 (st 470);
    on 46 (st 476); on 47 utr486; rng 48 52 (st 475); on 53 (st 480); rng 54 57 (st 475); on 58 utr487;
    on 59 (st 470); on 61 (st 470); on 63 utr488; rng 65 90 (st 470); on 95 (st 470); rng 97 122 (st 470);
    on 126 (st 470)];
  mkRow 480 false [on 33 (st 470); on 35 utr485; on 36 (st 470); on 37 (st 36); rng 38 45 (st 470);
    on 46 (st 476); on 47 utr486; rng 48 53 (st 475); rng 54 57 (st 470); on 58 utr487; on 59 (st 470);
    on 61 (st 470); on 63 utr488; rng 65 90 (st 470); on 95 (st 470); rng 97 122 (st 470); on 126 (st 470)];
  mkRow 481 false [on 33 (st 470); on 35 utr485; on 36 (st 470); on 37 (st 36); rng 38 45 (st 470);
    on 46 (st 474); on 47 utr486; rng 48 57 (st 482); on 58 utr487; on 59 (st 470); on 61 (st 470);
    on 63 utr488; rng 65 90 (st 470); on 95 (st 470); rng 97 122 (st 470); on 126 (st 470)];
  mkRow 482 false [on 33 (st 470); on 35 utr485; on 36 (st 470); on 37 (st 36); rng 38 45 (st 470);
    on 46 (st 474); on 47 utr486; rng 48 57 (st 473); on 58 utr487; on 59 (st 470); on 61 (st 470);
    on 63 utr488; rng 65 90 (st 470); on 95 (st 470); rng 97 122 (st 470); on 126 (st 470)]].

(** @src uri.rl.cc:1667-1795 Uri::Create *)
Definition urows_12 : list (row uri_action) := [
  mkRow 483 false [on 33 (st 470); on 35 utr485; on 36 (st 470); on 37 (st 36); rng 38 45 (st 470);
    on 46 (st 474); on 47 utr486; rng 48 52 (st 473); on 53 (st 484); rng 54 57 (st 473); on 58 utr487;
    on 59 (st 470); on 61 (st 470); on 63 utr488; rng 65 90 (st 470); on 95 (st 470); rng 97 122 (st 470);
    on 126 (st 470)];
  mkRow 484 false [on 33 (st 470); on 35 utr485; on 36 (st 470); on 37 (st 36); rng 38 45 (st 470);
    on 46 (st 474); on 47 utr486; rng 48 53 (st 473); rng 54 57 (st 470); on 58 utr487; on 59 (st 470);
    on 61 (st 470); on 63 utr488; rng 65 90 (st 470); on 95 (st 470); rng 97 122 (st 470); on 126 (st 470)];
  mkRow 485 false [on 33 (st 470); on 35 utr485; on 36 (st 470); on 37 (st 36); rng 38 45 (st 470);
    on 46 (st 472); on 47 utr486; rng 48 57 (st 486); on 58 utr487; on 59 (st 470); on 61 (st 470);
    on 63 utr488; rng 65 90 (st 470); on 95 (st 470); rng 97 122 (st 470); on 126 (st 470)];
  mkRow 486 false [on 33 (st 470); on 35 utr485; on 36 (st 470); on 37 (st 36); rng 38 45 (st 470);
    on 46 (st 472); on 47 utr486; rng 48 57 (st 471); on 58 utr487; on 59 (st 470); on 61 (st 470);
    on 63 utr488; rng 65 90 (st 470); on 95 (st 470); rng 97 122 (st 470); on 126 (st 470)]].

(** @src uri.rl.cc:1800-1935 Uri::Create *)
Definition urows_13 : list (row uri_action) := [
  mkRow 487 false [on 33 (st 470); on 35 utr485; on 36 (st 470); on 37 (st 36); rng 38 45 (st 470);
    on 46 (st 472); on 47 utr486; rng 48 52 (st 471); on 53 (st 488); rng 54 57 (st 471); on 58 utr487;
    on 59 (st 470); on 61 (st 470); on 63 utr488; rng 65 90 (st 470); on 95 (st 470); rng 97 122 (st 470);
    on 126 (st 470)];
  mkRow 488 false [on 33 (st 470); on 35 utr485; on 36 (st 470); on 37 (st 36); rng 38 45 (st 470);
    on 46 (st 472); on 47 utr486; rng 48 53 (st 471); rng 54 57 (st 470); on 58 utr487; on 59 (st 470);
    on 61 (st 470); on 63 utr488; rng 65 90 (st 470); on 95 (st 470); rng 97 122 (st 470); on 126 (st 470)];
  mkRow 38 false [rng 48 57 (st 39); on 58 (st 146); rng 65 70 (st 39); rng 97 102 (st 39); on 118 (st 225)];
  mkRow 39 false [rng 48 57 (st 40); on 58 (st 43); rng 65 70 (st 40); rng 97 102 (st 40)];
  mkRow 40 false [rng 48 57 (st 41); on 58 (st 43); rng 65 70 (st 41); rng 97 102 (st 41)];
  mkRow 41 false [rng 48 57 (st 42); on 58 (st 43); rng 65 70 (st 42); rng 97 102 (st 42)];
  mkRow 42 false [on 58 (st 43)]].

(** @src uri.rl.cc:1936-2069 Uri::Create *)
Definition urows_14 : list (row uri_action) := [
  mkRow 43 false [rng 48 57 (st 44); on 58 (st 141); rng 65 70 (st 44); rng 97 102 (st 44)];
  mkRow 44 false [rng 48 57 (st 45); on 58 (st 48); rng 65 70 (st 45); rng 97 102 (st 45)];
  mkRow 45 false [rng 48 57 (st 46); on 58 (st 48); rng 65 70 (st 46); rng 97 102 (st 46)];
  mkRow 46 false [rng 48 57 (st 47); on 58 (st 48); rng 65 70 (st 47); rng 97 102 (st 47)];
  mkRow 47 false [on 58 (st 48)];
  mkRow 48 false [rng 48 57 (st 49); on 58 (st 136); rng 65 70 (st 49); rng 97 102 (st 49)];
  mkRow 49 false [rng 48 57 (st 50); on 58 (st 53); rng 65 70 (st 50); rng 97 102 (st 50)];
  mkRow 50 false [rng 48 57 (st 51); on 58 (st 53); rng 65 70 (st 51); rng 97 102 (st 51)];
  mkRow 51 false [rng 48 57 (st 52); on 58 (st 53); rng 65 70 (st 52); rng 97 102 (st 52)];
  mkRow 52 false [on 58 (st 53)]].

(** @src uri.rl.cc:2070-2203 Uri::Create *)
Definition urows_15 : list (row uri_action) := [
  mkRow 53 false [rng 48 57 (st 54); on 58 (st 131); rng 65 70 (st 54); rng 97 102 (st 54)];
  mkRow 54 false [rng 48 57 (st 55); on 58 (st 58); rng 65 70 (st 55); rng 97 102 (st 55)];
  mkRow 55 false [rng 48 57 (st 56); on 58 (st 58); rng 65 70 (st 56); rng 97 102 (st 56)];
  mkRow 56 false [rng 48 57 (st 57); on 58 (st 58); rng 65 70 (st 57); rng 97 102 (st 57)];
  mkRow 57 false [on 58 (st 58)];
  mkRow 58 false [rng 48 57 (st 59); on 58 (st 126); rng 65 70 (st 59); rng 97 102 (st 59)];
  mkRow 59 false [rng 48 57 (st 60); on 58 (st 63); rng 65 70 (st 60); rng 97 102 (st 60)];
  mkRow 60 false [rng 48 57 (st 61); on 58 (st 63); rng 65 70 (st 61); rng 97 102 (st 61)];
  mkRow 61 false [rng 48 57 (st 62); on 58 (st 63); rng 65 70 (st 62); rng 97 102 (st 62)];
  mkRow 62 false [on 58 (st 63)]].

(** @src uri.rl.cc:2204-2345 Uri::Create *)
Definition urows_16 : list (row uri_action) := [
  mkRow 63 false [rng 48 57 (st 64); on 58 (st 113); rng 65 70 (st 64); rng 97 102 (st 64)];
  mkRow 64 false [rng 48 57 (st 65); on 58 (st 68); rng 65 70 (st 65); rng 97 102 (st 65)];
  mkRow 65 false [rng 48 57 (st 66); on 58 (st 68); rng 65 70 (st 66); rng 97 102 (st 66)];
  mkRow 66 false [rng 48 57 (st 67); on 58 (st 68); rng 65 70 (st 67); rng 97 102 (st 67)];
  mkRow 67 false [on 58 (st 68)];
  mkRow 68 false [on 2 (st 69); on 48 (st 96); on 49 (st 104); on 50 (st 107); rng 51 57 (st 110);
    on 58 (st 111); rng 65 70 (st 112); rng 97 102 (st 112)];
  mkRow 69 false [rng 48 52 (st 70)];
  mkRow 70 false [rng 48 57 (st 71)];
  mkRow 71 false [on 46 (st 72)];
  mkRow 72 false [on 2 (st 73); on 48 (st 75); on 49 (st 92); on 50 (st 94); rng 51 57 (st 93)];
  mkRow 73 false [rng 48 52 (st 74)];
  mkRow 74 false [rng 48 57 (st 75)];
  mkRow 75 false [on 46 (st 76)]].

(** @src uri.rl.cc:2346-2489 Uri::Create *)
Definition urows_17 : list (row uri_action) := [
  mkRow 76 false [on 2 (st 77); on 48 (st 79); on 49 (st 88); on 50 (st 90); rng 51 57 (st 89)];
  mkRow 77 false [rng 48 52 (st 78)];
  mkRow 78 false [rng 48 57 (st 79)];
  mkRow 79 false [on 46 (st 80)];
  mkRow 80 false [on 2 (st 81); on 48 (st 83); on 49 (st 84); on 50 (st 86); rng 51 57 (st 85)];
  mkRow 81 false [rng 48 52 (st 82)];
  mkRow 82 false [rng 48 57 (st 83)];
  mkRow 83 false [on 93 (st 460)];
  mkRow 84 false [rng 48 57 (st 85); on 93 (st 460)];
  mkRow 85 false [rng 48 57 (st 83); on 93 (st 460)];
  mkRow 86 false [rng 48 52 (st 83); on 53 (st 87); rng 54 57 (st 83); on 93 (st 460)];
  mkRow 87 false [rng 48 53 (st 83); on 93 (st 460)];
  mkRow 88 false [on 46 (st 80); rng 48 57 (st 89)];
  mkRow 89 false [on 46 (st 80); rng 48 57 (st 79)];
  mkRow 90 false [on 46 (st 80); rng 48 52 (st 79); on 53 (st 91); rng 54 57 (st 79)];
  mkRow 91 false [on 46 (st 80); rng 48 53 (st 79)]].

(** @src uri.rl.cc:2490-2626 Uri::Create *)
Definition urows_18 : list (row uri_action) := [
  mkRow 92 false [on 46 (st 76); rng 48 57 (st 93)];
  mkRow 93 false [on 46 (st 76); rng 48 57 (st 75)];
  mkRow 94 false [on 46 (st 76); rng 48 52 (st 75); on 53 (st 95); rng 54 57 (st 75)];
  mkRow 95 false [on 46 (st 76); rng 48 53 (st 75)];
  mkRow 96 false [on 46 (st 72); rng 48 57 (st 97); on 58 (st 100); rng 65 70 (st 97); rng 97 102 (st 97)];
  mkRow 97 false [rng 48 57 (st 98); on 58 (st 100); rng 65 70 (st 98); rng 97 102 (st 98)];
  mkRow 98 false [rng 48 57 (st 99); on 58 (st 100); rng 65 70 (st 99); rng 97 102 (st 99)];
  mkRow 99 false [on 58 (st 100)];
  mkRow 100 false [rng 48 57 (st 101); on 58 (st 83); rng 65 70 (st 101); rng 97 102 (st 101)];
  mkRow 101 false [rng 48 57 (st 102); rng 65 70 (st 102); on 93 (st 460); rng 97 102 (st 102)];
  mkRow 102 false [rng 48 57 (st 103); rng 65 70 (st 103); on 93 (st 460); rng 97 102 (st 103)]].

(** @src uri.rl.cc:2627-2764 Uri::Create *)
Definition urows_19 : list (row uri_action) := [
  mkRow 103 false [rng 48 57 (st 83); rng 65 70 (st 83); on 93 (st 460); rng 97 102 (st 83)];
  mkRow 104 false [on 46 (st 72); rng 48 57 (st 105); on 58 (st 100); rng 65 70 (st 97); rng 97 102 (st 97)];
  mkRow 105 false [on 46 (st 72); rng 48 57 (st 106); on 58 (st 100); rng 65 70 (st 98); rng 97 102 (st 98)];
  mkRow 106 false [on 46 (st 72); rng 48 57 (st 99); on 58 (st 100); rng 65 70 (st 99); rng 97 102 (st 99)];
  mkRow 107 false [on 46 (st 72); rng 48 52 (st 108); on 53 (st 109); rng 54 57 (st 108); on 58 (st 100);
    rng 65 70 (st 97); rng 97 102 (st 97)];
  mkRow 108 false [on 46 (st 72); rng 48 57 (st 98); on 58 (st 100); rng 65 70 (st 98); rng 97 102 (st 98)];
  mkRow 109 false [on 46 (st 72); rng 48 53 (st 106); rng 54 57 (st 98); on 58 (st 100); rng 65 70 (st 98);
    rng 97 102 (st 98)];
  mkRow 110 false [on 46 (st 72); rng 48 57 (st 108); on 58 (st 100); rng 65 70 (st 97); rng 97 102 (st 97)]].

(** @src uri.rl.cc:2765-2899 Uri::Create *)
Definition urows_20 : list (row uri_action) := [
  mkRow 111 false [rng 48 57 (st 101); rng 65 70 (st 101); rng 97 102 (st 101)];
  mkRow 112 false [rng 48 57 (st 97); on 58 (st 100); rng 65 70 (st 97); rng 97 102 (st 97)];
  mkRow 113 false [on 2 (st 69); on 48 (st 114); on 49 (st 118); on 50 (st 121); rng 51 57 (st 124);
    rng 65 70 (st 125); rng 97 102 (st 125)];
  mkRow 114 false [on 46 (st 72); rng 48 57 (st 115); on 58 (st 111); rng 65 70 (st 115); rng 97 102 (st 115)];
  mkRow 115 false [rng 48 57 (st 116); on 58 (st 111); rng 65 70 (st 116); rng 97 102 (st 116)];
  mkRow 116 false [rng 48 57 (st 117); on 58 (st 111); rng 65 70 (st 117); rng 97 102 (st 117)];
  mkRow 117 false [on 58 (st 111)];
  mkRow 118 false [on 46 (st 72); rng 48 57 (st 119); on 58 (st 111); rng 65 70 (st 115); rng 97 102 (st 115)];
  mkRow 119 false [on 46 (st 72); rng 48 57 (st 120); on 58 (st 111); rng 65 70 (st 116); rng 97 102 (st 116)]].

(** @src uri.rl.cc:2900-3031 Uri::Create *)
Definition urows_21 : list (row uri_action) := [
  mkRow 120 false [on 46 (st 72); rng 48 57 (st 117); on 58 (st 111); rng 65 70 (st 117); rng 97 102 (st 117)];
  mkRow 121 false [on 46 (st 72); rng 48 52 (st 122); on 53 (st 123); rng 54 57 (st 122); on 58 (st 111);
    rng 65 70 (st 115); rng 97 102 (st 115)];
  mkRow 122 false [on 46 (st 72); rng 48 57 (st 116); on 58 (st 111); rng 65 70 (st 116); rng 97 102 (st 116)];
  mkRow 123 false [on 46 (st 72); rng 48 53 (st 120); rng 54 57 (st 116); on 58 (st 111); rng 65 70 (st 116);
    rng 97 102 (st 116)];
  mkRow 124 false [on 46 (st 72); rng 48 57 (st 122); on 58 (st 111); rng 65 70 (st 115); rng 97 102 (st 115)];
  mkRow 125 false [rng 48 57 (st 115); on 58 (st 111); rng 65 70 (st 115); rng 97 102 (st 115)];
  mkRow 126 false [rng 48 57 (st 127); rng 65 70 (st 127); rng 97 102 (st 127)];
  mkRow 127 false [rng 48 57 (st 128); on 58 (st 113); rng 65 70 (st 128); rng 97 102 (st 128)]].

(** @src uri.rl.cc:3032-3176 Uri::Create *)
Definition urows_22 : list (row uri_action) := [
  mkRow 128 false [rng 48 57 (st 129); on 58 (st 113); rng 65 70 (st 129); rng 97 102 (st 129)];
  mkRow 129 false [rng 48 57 (st 130); on 58 (st 113); rng 65 70 (st 130); rng 97 102 (st 130)];
  mkRow 130 false [on 58 (st 113)];
  mkRow 131 false [rng 48 57 (st 132); rng 65 70 (st 132); rng 97 102 (st 132)];
  mkRow 132 false [rng 48 57 (st 133); on 58 (st 126); rng 65 70 (st 133); rng 97 102 (st 133)];
  mkRow 133 false [rng 48 57 (st 134); on 58 (st 126); rng 65 70 (st 134); rng 97 102 (st 134)];
  mkRow 134 false [rng 48 57 (st 135); on 58 (st 126); rng 65 70 (st 135); rng 97 102 (st 135)];
  mkRow 135 false [on 58 (st 126)];
  mkRow 136 false [rng 48 57 (st 137); rng 65 70 (st 137); rng 97 102 (st 137)];
  mkRow 137 false [rng 48 57 (st 138); on 58 (st 131); rng 65 70 (st 138); rng 97 102 (st 138)];
  mkRow 138 false [rng 48 57 (st 139); on 58 (st 131); rng 65 70 (st 139); rng 97 102 (st 139)]].

(** @src uri.rl.cc:3177-3308 Uri::Create *)
Definition urows_23 : list (row uri_action) := [
  mkRow 139 false [rng 48 57 (st 140); on 58 (st 131); rng 65 70 (st 140); rng 97 102 (st 140)];
  mkRow 140 false [on 58 (st 131)];
  mkRow 141 false [rng 48 57 (st 142); rng 65 70 (st 142); rng 97 102 (st 142)];
  mkRow 142 false [rng 48 57 (st 143); on 58 (st 136); rng 65 70 (st 143); rng 97 102 (st 143)];
  mkRow 143 false [rng 48 57 (st 144); on 58 (st 136); rng 65 70 (st 144); rng 97 102 (st 144)];
  mkRow 144 false [rng 48 57 (st 145); on 58 (st 136); rng 65 70 (st 145); rng 97 102 (st 145)];
  mkRow 145 false [on 58 (st 136)];
  mkRow 146 false [on 58 (st 147)];
  mkRow 147 false [on 2 (st 69); on 48 (st 148); on 49 (st 217); on 50 (st 220); rng 51 57 (st 223);
    rng 65 70 (st 224); on 93 (st 460); rng 97 102 (st 224)];
  mkRow 148 false [on 46 (st 72); rng 48 57 (st 149); on 58 (st 152); rng 65 70 (st 149); on 93 (st 460);
    rng 97 102 (st 149)]].

(** @src uri.rl.cc:3309-3450 Uri::Create *)
Definition urows_24 : list (row uri_action) := [
  mkRow 149 false [rng 48 57 (st 150); on 58 (st 152); rng 65 70 (st 150); on 93 (st 460); rng 97 102 (st 150)];
  mkRow 150 false [rng 48 57 (st 151); on 58 (st 152); rng 65 70 (st 151); on 93 (st 460); rng 97 102 (st 151)];
  mkRow 151 false [on 58 (st 152); on 93 (st 460)];
  mkRow 152 false [on 2 (st 69); on 48 (st 153); on 49 (st 209); on 50 (st 212); rng 51 57 (st 215);
    rng 65 70 (st 216); rng 97 102 (st 216)];
  mkRow 153 false [on 46 (st 72); rng 48 57 (st 154); on 58 (st 157); rng 65 70 (st 154); on 93 (st 460);
    rng 97 102 (st 154)];
  mkRow 154 false [rng 48 57 (st 155); on 58 (st 157); rng 65 70 (st 155); on 93 (st 460); rng 97 102 (st 155)];
  mkRow 155 false [rng 48 57 (st 156); on 58 (st 157); rng 65 70 (st 156); on 93 (st 460); rng 97 102 (st 156)];
  mkRow 156 false [on 58 (st 157); on 93 (st 460)];
  mkRow 157 false [on 2 (st 69); on 48 (st 158); on 49 (st 201); on 50 (st 204); rng 51 57 (st 207);
    rng 65 70 (st 208); rng 97 102 (st 208)]].

(** @src uri.rl.cc:3451-3591 Uri::Create *)
Definition urows_25 : list (row uri_action) := [
  mkRow 158 false [on 46 (st 72); rng 48 57 (st 159); on 58 (st 162); rng 65 70 (st 159); on 93 (st 460);
    rng 97 102 (st 159)];
  mkRow 159 false [rng 48 57 (st 160); on 58 (st 162); rng 65 70 (st 160); on 93 (st 460); rng 97 102 (st 160)];
  mkRow 160 false [rng 48 57 (st 161); on 58 (st 162); rng 65 70 (st 161); on 93 (st 460); rng 97 102 (st 161)];
  mkRow 161 false [on 58 (st 162); on 93 (st 460)];
  mkRow 162 false [on 2 (st 69); on 48 (st 163); on 49 (st 193); on 50 (st 196); rng 51 57 (st 199);
    rng 65 70 (st 200); rng 97 102 (st 200)];
  mkRow 163 false [on 46 (st 72); rng 48 57 (st 164); on 58 (st 167); rng 65 70 (st 164); on 93 (st 460);
    rng 97 102 (st 164)];
  mkRow 164 false [rng 48 57 (st 165); on 58 (st 167); rng 65 70 (st 165); on 93 (st 460); rng 97 102 (st 165)];
  mkRow 165 false [rng 48 57 (st 166); on 58 (st 167); rng 65 70 (st 166); on 93 (st 460); rng 97 102 (st 166)];
  mkRow 166 false [on 58 (st 167); on 93 (st 460)]].

(** @src uri.rl.cc:3592-3725 Uri::Create *)
Definition urows_26 : list (row uri_action) := [
  mkRow 167 false [on 2 (st 69); on 48 (st 168); on 49 (st 185); on 50 (st 188); rng 51 57 (st 191);
    rng 65 70 (st 192); rng 97 102 (st 192)];
  mkRow 168 false [on 46 (st 72); rng 48 57 (st 169); on 58 (st 172); rng 65 70 (st 169); on 93 (st 460);
    rng 97 102 (st 169)];
  mkRow 169 false [rng 48 57 (st 170); on 58 (st 172); rng 65 70 (st 170); on 93 (st 460); rng 97 102 (st 170)];
  mkRow 170 false [rng 48 57 (st 171); on 58 (st 172); rng 65 70 (st 171); on 93 (st 460); rng 97 102 (st 171)];
  mkRow 171 false [on 58 (st 172); on 93 (st 460)];
  mkRow 172 false [on 2 (st 69); on 48 (st 173); on 49 (st 177); on 50 (st 180); rng 51 57 (st 183);
    rng 65 70 (st 184); rng 97 102 (st 184)];
  mkRow 173 false [on 46 (st 72); rng 48 57 (st 174); on 58 (st 111); rng 65 70 (st 174); on 93 (st 460);
    rng 97 102 (st 174)];
  mkRow 174 false [rng 48 57 (st 175); on 58 (st 111); rng 65 70 (st 175); on 93 (st 460); rng 97 102 (st 175)]].

(** @src uri.rl.cc:3726-3863 Uri::Create *)
Definition urows_27 : list (row uri_action) := [
  mkRow 175 false [rng 48 57 (st 176); on 58 (st 111); rng 65 70 (st 176); on 93 (st 460); rng 97 102 (st 176)];
  mkRow 176 false [on 58 (st 111); on 93 (st 460)];
  mkRow 177 false [on 46 (st 72); rng 48 57 (st 178); on 58 (st 111); rng 65 70 (st 174); on 93 (st 460);
    rng 97 102 (st 174)];
  mkRow 178 false [on 46 (st 72); rng 48 57 (st 179); on 58 (st 111); rng 65 70 (st 175); on 93 (st 460);
    rng 97 102 (st 175)];
  mkRow 179 false [on 46 (st 72); rng 48 57 (st 176); on 58 (st 111); rng 65 70 (st 176); on 93 (st 460);
    rng 97 102 (st 176)];
  mkRow 180 false [on 46 (st 72); rng 48 52 (st 181); on 53 (st 182); rng 54 57 (st 181); on 58 (st 111);
    rng 65 70 (st 174); on 93 (st 460); rng 97 102 (st 174)];
  mkRow 181 false [on 46 (st 72); rng 48 57 (st 175); on 58 (st 111); rng 65 70 (st 175); on 93 (st 460);
    rng 97 102 (st 175)];
  mkRow 182 false [on 46 (st 72); rng 48 53 (st 179); rng 54 57 (st 175); on 58 (st 111); rng 65 70 (st 175);
    on 93 (st 460); rng 97 102 (st 175)]].

(** @src uri.rl.cc:3864-3989 Uri::Create *)
Definition urows_28 : list (row uri_action) := [
  mkRow 183 false [on 46 (st 72); rng 48 57 (st 181); on 58 (st 111); rng 65 70 (st 174); on 93 (st 460);
    rng 97 102 (st 174)];
  mkRow 184 false [rng 48 57 (st 174); on 58 (st 111); rng 65 70 (st 174); on 93 (st 460); rng 97 102 (st 174)];
  mkRow 185 false [on 46 (st 72); rng 48 57 (st 186); on 58 (st 172); rng 65 70 (st 169); on 93 (st 460);
    rng 97 102 (st 169)];
  mkRow 186 false [on 46 (st 72); rng 48 57 (st 187); on 58 (st 172); rng 65 70 (st 170); on 93 (st 460);
    rng 97 102 (st 170)];
  mkRow 187 false [on 46 (st 72); rng 48 57 (st 171); on 58 (st 172); rng 65 70 (st 171); on 93 (st 460);
    rng 97 102 (st 171)];
  mkRow 188 false [on 46 (st 72); rng 48 52 (st 189); on 53 (st 190); rng 54 57 (st 189); on 58 (st 172);
    rng 65 70 (st 169); on 93 (st 460); rng 97 102 (st 169)];
  mkRow 189 false [on 46 (st 72); rng 48 57 (st 170); on 58 (st 172); rng 65 70 (st 170); on 93 (st 460);
    rng 97 102 (st 170)]].

(** @src uri.rl.cc:3990-4118 Uri::Create *)
Definition urows_29 : list (row uri_action) := [
  mkRow 190 false [on 46 (st 72); rng 48 53 (st 187); rng 54 57 (st 170); on 58 (st 172); rng 65 70 (st 170);
    on 93 (st 460); rng 97 102 (st 170)];
  mkRow 191 false [on 46 (st 72); rng 48 57 (st 189); on 58 (st 172); rng 65 70 (st 169); on 93 (st 460);
    rng 97 102 (st 169)];
  mkRow 192 false [rng 48 57 (st 169); on 58 (st 172); rng 65 70 (st 169); on 93 (st 460); rng 97 102 (st 169)];
  mkRow 193 false [on 46 (st 72); rng 48 57 (st 194); on 58 (st 167); rng 65 70 (st 164); on 93 (st 460);
    rng 97 102 (st 164)];
  mkRow 194 false [on 46 (st 72); rng 48 57 (st 195); on 58 (st 167); rng 65 70 (st 165); on 93 (st 460);
    rng 97 102 (st 165)];
  mkRow 195 false [on 46 (st 72); rng 48 57 (st 166); on 58 (st 167); rng 65 70 (st 166); on 93 (st 460);
    rng 97 102 (st 166)];
  mkRow 196 false [on 46 (st 72); rng 48 52 (st 197); on 53 (st 198); rng 54 57 (st 197); on 58 (st 167);
    rng 65 70 (st 164); on 93 (st 460); rng 97 102 (st 164)]].

(** @src uri.rl.cc:4119-4246 Uri::Create *)
Definition urows_30 : list (row uri_action) := [
  mkRow 197 false [on 46 (st 72); rng 48 57 (st 165); on 58 (st 167); rng 65 70 (st 165); on 93 (st 460);
    rng 97 102 (st 165)];
  mkRow 198 false [on 46 (st 72); rng 48 53 (st 195); rng 54 57 (st 165); on 58 (st 167); rng 65 70 (st 165);
    on 93 (st 460); rng 97 102 (st 165)];
  mkRow 199 false [on 46 (st 72); rng 48 57 (st 197); on 58 (st 167); rng 65 70 (st 164); on 93 (st 460);
    rng 97 102 (st 164)];
  mkRow 200 false [rng 48 57 (st 164); on 58 (st 167); rng 65 70 (st 164); on 93 (st 460); rng 97 102 (st 164)];
  mkRow 201 false [on 46 (st 72); rng 48 57 (st 202); on 58 (st 162); rng 65 70 (st 159); on 93 (st 460);
    rng 97 102 (st 159)];
  mkRow 202 false [on 46 (st 72); rng 48 57 (st 203); on 58 (st 162); rng 65 70 (st 160); on 93 (st 460);
    rng 97 102 (st 160)];
  mkRow 203 false [on 46 (st 72); rng 48 57 (st 161); on 58 (st 162); rng 65 70 (st 161); on 93 (st 460);
    rng 97 102 (st 161)]].

(** @src uri.rl.cc:4247-4375 Uri::Create *)
Definition urows_31 : list (row uri_action) := [
  mkRow 204 false [on 46 (st 72); rng 48 52 (st 205); on 53 (st 206); rng 54 57 (st 205); on 58 (st 162);
    rng 65 70 (st 159); on 93 (st 460); rng 97 102 (st 159)];
  mkRow 205 false [on 46 (st 72); rng 48 57 (st 160); on 58 (st 162); rng 65 70 (st 160); on 93 (st 460);
    rng 97 102 (st 160)];
  mkRow 206 false [on 46 (st 72); rng 48 53 (st 203); rng 54 57 (st 160); on 58 (st 162); rng 65 70 (st 160);
    on 93 (st 460); rng 97 102 (st 160)];
  mkRow 207 false [on 46 (st 72); rng 48 57 (st 205); on 58 (st 162); rng 65 70 (st 159); on 93 (st 460);
    rng 97 102 (st 159)];
  mkRow 208 false [rng 48 57 (st 159); on 58 (st 162); rng 65 70 (st 159); on 93 (st 460); rng 97 102 (st 159)];
  mkRow 209 false [on 46 (st 72); rng 48 57 (st 210); on 58 (st 157); rng 65 70 (st 154); on 93 (st 460);
    rng 97 102 (st 154)];
  mkRow 210 false [on 46 (st 72); rng 48 57 (st 211); on 58 (st 157); rng 65 70 (st 155); on 93 (st 460);
    rng 97 102 (st 155)]].

(** @src uri.rl.cc:4376-4504 Uri::Create *)
Definition urows_32 : list (row uri_action) := [
  mkRow 211 false [on 46 (st 72); rng 48 57 (st 156); on 58 (st 157); rng 65 70 (st 156); on 93 (st 460);
    rng 97 102 (st 156)];
  mkRow 212 false [on 46 (st 72); rng 48 52 (st 213); on 53 (st 214); rng 54 57 (st 213); on 58 (st 157);
    rng 65 70 (st 154); on 93 (st 460); rng 97 102 (st 154)];
  mkRow 213 false [on 46 (st 72); rng 48 57 (st 155); on 58 (st 157); rng 65 70 (st 155); on 93 (st 460);
    rng 97 102 (st 155)];
  mkRow 214 false [on 46 (st 72); rng 48 53 (st 211); rng 54 57 (st 155); on 58 (st 157); rng 65 70 (st 155);
    on 93 (st 460); rng 97 102 (st 155)];
  mkRow 215 false [on 46 (st 72); rng 48 57 (st 213); on 58 (st 157); rng 65 70 (st 154); on 93 (st 460);
    rng 97 102 (st 154)];
  mkRow 216 false [rng 48 57 (st 154); on 58 (st 157); rng 65 70 (st 154); on 93 (st 460); rng 97 102 (st 154)];
  mkRow 217 false [on 46 (st 72); rng 48 57 (st 218); on 58 (st 152); rng 65 70 (st 149); on 93 (st 460);
    rng 97 102 (st 149)]].

(** @src uri.rl.cc:4505-4646 Uri::Create *)
Definition urows_33 : list (row uri_action) := [
  mkRow 218 false [on 46 (st 72); rng 48 57 (st 219); on 58 (st 152); rng 65 70 (st 150); on 93 (st 460);
    rng 97 102 (st 150)];
  mkRow 219 false [on 46 (st 72); rng 48 57 (st 151); on 58 (st 152); rng 65 70 (st 151); on 93 (st 460);
    rng 97 102 (st 151)];
  mkRow 220 false [on 46 (st 72); rng 48 52 (st 221); on 53 (st 222); rng 54 57 (st 221); on 58 (st 152);
    rng 65 70 (st 149); on 93 (st 460); rng 97 102 (st 149)];
  mkRow 221 false [on 46 (st 72); rng 48 57 (st 150); on 58 (st 152); rng 65 70 (st 150); on 93 (st 460);
    rng 97 102 (st 150)];
  mkRow 222 false [on 46 (st 72); rng 48 53 (st 219); rng 54 57 (st 150); on 58 (st 152); rng 65 70 (st 150);
    on 93 (st 460); rng 97 102 (st 150)];
  mkRow 223 false [on 46 (st 72); rng 48 57 (st 221); on 58 (st 152); rng 65 70 (st 149); on 93 (st 460);
    rng 97 102 (st 149)];
  mkRow 224 false [rng 48 57 (st 149); on 58 (st 152); rng 65 70 (st 149); on 93 (st 460); rng 97 102 (st 149)];
  mkRow 225 false [rng 48 57 (st 226); rng 65 70 (st 226); rng 97 102 (st 226)]].

(** @src uri.rl.cc:4647-4774 Uri::Create *)
Definition urows_34 : list (row uri_action) := [
  mkRow 226 false [on 46 (st 227); rng 48 57 (st 226); rng 65 70 (st 226); rng 97 102 (st 226)];
  mkRow 227 false [on 33 (st 228); on 36 (st 228); rng 38 46 (st 228); rng 48 59 (st 228); on 61 (st 228);
    rng 65 90 (st 228); on 95 (st 228); rng 97 122 (st 228); on 126 (st 228)];
  mkRow 228 false [on 33 (st 228); on 36 (st 228); rng 38 46 (st 228); rng 48 59 (st 228); on 61 (st 228);
    rng 65 90 (st 228); on 93 (st 460); on 95 (st 228); rng 97 122 (st 228); on 126 (st 228)];
  mkRow 489 false [on 33 (st 33); on 35 utr493; on 36 (st 33); on 37 (st 34); rng 38 46 (st 33); on 47 utr494;
    rng 48 57 (st 489); rng 58 59 (st 33); on 61 (st 33); on 63 utr496; on 64 utr38; rng 65 90 (st 33);
    on 95 (st 33); rng 97 122 (st 33); on 126 (st 33)];
  mkRow 490 false [on 33 (st 467); on 35 utr485; on 36 (st 467); on 37 (st 31); rng 38 45 (st 467);
    on 46 (st 491); on 47 utr486; rng 48 57 (st 467); on 58 utr499; on 59 (st 467); on 61 (st 467);
    on 63 utr488; on 64 utr38; rng 65 90 (st 467); on 95 (st 467); rng 97 122 (st 467); on 126 (st 467)]].

(** @src uri.rl.cc:4775-4918 Uri::Create *)
Definition urows_35 : list (row uri_action) := [
  mkRow 491 false [on 2 (st 13); on 33 (st 467); on 35 utr485; on 36 (st 467); on 37 (st 31);
    rng 38 46 (st 467); on 47 utr486; on 48 (st 492); on 49 (st 500); on 50 (st 502); rng 51 57 (st 501);
    on 58 utr499; on 59 (st 467); on 61 (st 467); on 63 utr488; on 64 utr38; rng 65 90 (st 467);
    on 95 (st 467); rng 97 122 (st 467); on 126 (st 467)];
  mkRow 492 false [on 33 (st 467); on 35 utr485; on 36 (st 467); on 37 (st 31); rng 38 45 (st 467);
    on 46 (st 493); on 47 utr486; rng 48 57 (st 467); on 58 utr499; on 59 (st 467); on 61 (st 467);
    on 63 utr488; on 64 utr38; rng 65 90 (st 467); on 95 (st 467); rng 97 122 (st 467); on 126 (st 467)];
  mkRow 493 false [on 2 (st 17); on 33 (st 467); on 35 utr485; on 36 (st 467); on 37 (st 31);
    rng 38 46 (st 467); on 47 utr486; on 48 (st 494); on 49 (st 496); on 50 (st 498); rng 51 57 (st 497);
    on 58 utr499; on 59 (st 467); on 61 (st 467); on 63 utr488; on 64 utr38; rng 65 90 (st 467);
    on 95 (st 467); rng 97 122 (st 467); on 126 (st 467)];
  mkRow 494 false [on 33 (st 467); on 35 utr485; on 36 (st 467); on 37 (st 31); rng 38 45 (st 467);
    on 46 (st 495); on 47 utr486; rng 48 57 (st 467); on 58 utr499; on 59 (st 467); on 61 (st 467);
    on 63 utr488; on 64 utr38; rng 65 90 (st 467); on 95 (st 467); rng 97 122 (st 467); on 126 (st 467)];
  mkRow 495 false [on 2 (st 21); on 33 (st 467); on 35 utr485; on 36 (st 467); on 37 (st 31);
    rng 38 46 (st 467); on 47 utr486; rng 48 57 (st 467); on 58 utr499; on 59 (st 467); on 61 (st 467);
    on 63 utr488; on 64 utr38; rng 65 90 (st 467); on 95 (st 467); rng 97 122 (st 467); on 126 (st 467)]].

(** @src uri.rl.cc:4919-5041 Uri::Create *)
Definition urows_36 : list (row uri_action) := [
  mkRow 496 false [on 33 (st 467); on 35 utr485; on 36 (st 467); on 37 (st 31); rng 38 45 (st 467);
    on 46 (st 495); on 47 utr486; rng 48 57 (st 497); on 58 utr499; on 59 (st 467); on 61 (st 467);
    on 63 utr488; on 64 utr38; rng 65 90 (st 467); on 95 (st 467); rng 97 122 (st 467); on 126 (st 467)];
  mkRow 497 false [on 33 (st 467); on 35 utr485; on 36 (st 467); on 37 (st 31); rng 38 45 (st 467);
    on 46 (st 495); on 47 utr486; rng 48 57 (st 494); on 58 utr499; on 59 (st 467); on 61 (st 467);
    on 63 utr488; on 64 utr38; rng 65 90 (st 467); on 95 (st 467); rng 97 122 (st 467); on 126 (st 467)];
  mkRow 498 false [on 33 (st 467); on 35 utr485; on 36 (st 467); on 37 (st 31); rng 38 45 (st 467);
    on 46 (st 495); on 47 utr486; rng 48 52 (st 494); on 53 (st 499); rng 54 57 (st 494); on 58 utr499;
    on 59 (st 467); on 61 (st 467); on 63 utr488; on 64 utr38; rng 65 90 (st 467); on 95 (st 467);
    rng 97 122 (st 467); on 126 (st 467)];
  mkRow 499 false [on 33 (st 467); on 35 utr485; on 36 (st 467); on 37 (st 31); rng 38 45 (st 467);
    on 46 (st 495); on 47 utr486; rng 48 53 (st 494); rng 54 57 (st 467); on 58 utr499; on 59 (st 467);
    on 61 (st 467); on 63 utr488; on 64 utr38; rng 65 90 (st 467); on 95 (st 467); rng 97 122 (st 467);
    on 126 (st 467)]].

(** @src uri.rl.cc:5042-5164 Uri::Create *)
Definition urows_37 : list (row uri_action) := [
  mkRow 500 false [on 33 (st 467); on 35 utr485; on 36 (st 467); on 37 (st 31); rng 38 45 (st 467);
    on 46 (st 493); on 47 utr486; rng 48 57 (st 501); on 58 utr499; on 59 (st 467); on 61 (st 467);
    on 63 utr488; on 64 utr38; rng 65 90 (st 467); on 95 (st 467); rng 97 122 (st 467); on 126 (st 467)];
  mkRow 501 false [on 33 (st 467); on 35 utr485; on 36 (st 467); on 37 (st 31); rng 38 45 (st 467);
    on 46 (st 493); on 47 utr486; rng 48 57 (st 492); on 58 utr499; on 59 (st 467); on 61 (st 467);
    on 63 utr488; on 64 utr38; rng 65 90 (st 467); on 95 (st 467); rng 97 122 (st 467); on 126 (st 467)];
  mkRow 502 false [on 33 (st 467); on 35 utr485; on 36 (st 467); on 37 (st 31); rng 38 45 (st 467);
    on 46 (st 493); on 47 utr486; rng 48 52 (st 492); on 53 (st 503); rng 54 57 (st 492); on 58 utr499;
    on 59 (st 467); on 61 (st 467); on 63 utr488; on 64 utr38; rng 65 90 (st 467); on 95 (st 467);
    rng 97 122 (st 467); on 126 (st 467)];
  mkRow 503 false [on 33 (st 467); on 35 utr485; on 36 (st 467); on 37 (st 31); rng 38 45 (st 467);
    on 46 (st 493); on 47 utr486; rng 48 53 (st 492); rng 54 57 (st 467); on 58 utr499; on 59 (st 467);
    on 61 (st 467); on 63 utr488; on 64 utr38; rng 65 90 (st 467); on 95 (st 467); rng 97 122 (st 467);
    on 126 (st 467)]].

(** @src uri.rl.cc:5169-5302 Uri::Create *)
Definition urows_38 : list (row uri_action) := [
  mkRow 504 false [on 33 (st 467); on 35 utr485; on 36 (st 467); on 37 (st 31); rng 38 45 (st 467);
    on 46 (st 491); on 47 utr486; rng 48 57 (st 505); on 58 utr499; on 59 (st 467); on 61 (st 467);
    on 63 utr488; on 64 utr38; rng 65 90 (st 467); on 95 (st 467); rng 97 122 (st 467); on 126 (st 467)];
  mkRow 505 false [on 33 (st 467); on 35 utr485; on 36 (st 467); on 37 (st 31); rng 38 45 (st 467);
    on 46 (st 491); on 47 utr486; rng 48 57 (st 490); on 58 utr499; on 59 (st 467); on 61 (st 467);
    on 63 utr488; on 64 utr38; rng 65 90 (st 467); on 95 (st 467); rng 97 122 (st 467); on 126 (st 467)];
  mkRow 506 false [on 33 (st 467); on 35 utr485; on 36 (st 467); on 37 (st 31); rng 38 45 (st 467);
    on 46 (st 491); on 47 utr486; rng 48 52 (st 490); on 53 (st 507); rng 54 57 (st 490); on 58 utr499;
    on 59 (st 467); on 61 (st 467); on 63 utr488; on 64 utr38; rng 65 90 (st 467); on 95 (st 467);
    rng 97 122 (st 467); on 126 (st 467)];
  mkRow 507 false [on 33 (st 467); on 35 utr485; on 36 (st 467); on 37 (st 31); rng 38 45 (st 467);
    on 46 (st 491); on 47 utr486; rng 48 53 (st 490); rng 54 57 (st 467); on 58 utr499; on 59 (st 467);
    on 61 (st 467); on 63 utr488; on 64 utr38; rng 65 90 (st 467); on 95 (st 467); rng 97 122 (st 467);
    on 126 (st 467)]].

(** @src uri.rl.cc:5307-5445 Uri::Create *)
Definition urows_39 : list (row uri_action) := [
  mkRow 508 false [rng (-128) (-1) (st 452); on 33 (st 452); on 35 (st 453); on 36 (st 452); on 37 (st 3);
    rng 38 42 (st 452); on 43 (st 508); on 44 (st 452); rng 45 46 (st 508); on 47 (st 455); rng 48 57 (st 508);
    on 58 utr543; on 59 (st 452); on 61 (st 452); on 63 (st 456); on 64 (st 452); rng 65 90 (st 508);
    on 95 (st 452); rng 97 122 (st 508); on 126 (st 452)];
  mkRow 509 false [rng (-128) (-1) (st 455); on 33 (st 455); on 35 (st 453); on 36 (st 455); on 37 (st 5);
    rng 38 46 (st 455); on 47 (st 510); rng 48 59 (st 455); on 61 (st 455); on 63 (st 456); rng 64 90 (st 455);
    on 95 (st 455); rng 97 122 (st 455); on 126 (st 455)];
  mkRow 510 false [rng (-128) (-1) (st 455); on 33 (st 455); on 35 (st 453); on 36 (st 455); on 37 (st 5);
    rng 38 46 (st 455); on 47 (st 511); rng 48 59 (st 455); on 61 (st 455); on 63 (st 456); rng 64 90 (st 455);
    on 95 (st 455); rng 97 122 (st 455); on 126 (st 455)];
  mkRow 511 false [on 2 utr546; on 33 utr547; on 35 utr548; on 36 utr547; on 37 utr549; rng 38 46 utr547;
    on 47 utr550; on 48 utr551; on 49 utr552; on 50 utr553; rng 51 57 utr554; on 58 utr555; on 59 utr547;
    on 61 utr547; on 63 utr556; on 64 utr557; rng 65 90 utr547; on 91 utr558; on 95 utr547; rng 97 122 utr547;
    on 126 utr547];
  mkRow 229 false [rng 48 52 (st 230)]].

(** @src uri.rl.cc:5446-5565 Uri::Create *)
Definition urows_40 : list (row uri_action) := [
  mkRow 230 false [rng 48 57 (st 231)];
  mkRow 231 false [on 46 (st 232)];
  mkRow 232 false [on 2 (st 233); on 48 (st 235); on 49 (st 249); on 50 (st 251); rng 51 57 (st 250)];
  mkRow 233 false [rng 48 52 (st 234)];
  mkRow 234 false [rng 48 57 (st 235)];
  mkRow 235 false [on 46 (st 236)];
  mkRow 236 false [on 2 (st 237); on 48 (st 239); on 49 (st 245); on 50 (st 247); rng 51 57 (st 246)];
  mkRow 237 false [rng 48 52 (st 238)];
  mkRow 238 false [rng 48 57 (st 239)];
  mkRow 239 false [on 46 (st 240)];
  mkRow 240 false [on 2 (st 241); on 48 (st 512); on 49 (st 516); on 50 (st 518); rng 51 57 (st 517)];
  mkRow 241 false [rng 48 52 (st 242)];
  mkRow 242 false [rng 48 57 (st 512)];
  mkRow 512 false [on 35 utr559; on 47 utr560; on 58 utr561; on 63 utr562]].

(** @src uri.rl.cc:5610-5749 Uri::Create *)
Definition urows_41 : list (row uri_action) := [
  mkRow 513 false [rng (-128) (-1) (st 513); on 33 (st 513); on 35 utr563; on 36 (st 513); on 37 (st 243);
    rng 38 59 (st 513); on 61 (st 513); on 63 utr565; rng 64 90 (st 513); on 95 (st 513); rng 97 122 (st 513);
    on 126 (st 513)];
  mkRow 243 false [rng 48 57 (st 244); rng 65 70 (st 244); rng 97 102 (st 244)];
  mkRow 244 false [rng 48 57 (st 513); rng 65 70 (st 513); rng 97 102 (st 513)];
  mkRow 514 false [on 35 utr566; on 47 utr567; rng 48 57 utr568; on 63 utr569];
  mkRow 515 false [on 35 utr570; on 47 utr571; rng 48 57 (st 515); on 63 utr573];
  mkRow 516 false [on 35 utr559; on 47 utr560; rng 48 57 (st 517); on 58 utr561; on 63 utr562];
  mkRow 517 false [on 35 utr559; on 47 utr560; rng 48 57 (st 512); on 58 utr561; on 63 utr562];
  mkRow 518 false [on 35 utr559; on 47 utr560; rng 48 52 (st 512); on 53 (st 519); rng 54 57 (st 512);
    on 58 utr561; on 63 utr562]].

(** @src uri.rl.cc:5750-5886 Uri::Create *)
Definition urows_42 : list (row uri_action) := [
  mkRow 519 false [on 35 utr559; on 47 utr560; rng 48 53 (st 512); on 58 utr561; on 63 utr562];
  mkRow 245 false [on 46 (st 240); rng 48 57 (st 246)];
  mkRow 246 false [on 46 (st 240); rng 48 57 (st 239)];
  mkRow 247 false [on 46 (st 240); rng 48 52 (st 239); on 53 (st 248); rng 54 57 (st 239)];
  mkRow 248 false [on 46 (st 240); rng 48 53 (st 239)];
  mkRow 249 false [on 46 (st 236); rng 48 57 (st 250)];
  mkRow 250 false [on 46 (st 236); rng 48 57 (st 235)];
  mkRow 251 false [on 46 (st 236); rng 48 52 (st 235); on 53 (st 252); rng 54 57 (st 235)];
  mkRow 252 false [on 46 (st 236); rng 48 53 (st 235)];
  mkRow 520 false [on 33 (st 520); on 35 utr559; on 36 (st 520); on 37 (st 253); rng 38 46 (st 520);
    on 47 utr560; rng 48 57 (st 520); on 58 utr576; on 59 (st 520); on 61 (st 520); on 63 utr562; on 64 utr263;
    rng 65 90 (st 520); on 95 (st 520); rng 97 122 (st 520); on 126 (st 520)];
  mkRow 253 false [rng 48 57 (st 254); rng 65 70 (st 254); rng 97 102 (st 254)]].

(** @src uri.rl.cc:5887-6000 Uri::Create *)
Definition urows_43 : list (row uri_action) := [
  mkRow 254 false [rng 48 57 (st 520); rng 65 70 (st 520); rng 97 102 (st 520)];
  mkRow 521 false [on 33 (st 255); on 35 utr566; on 36 (st 255); on 37 (st 256); rng 38 46 (st 255);
    on 47 utr567; rng 48 57 utr577; rng 58 59 (st 255); on 61 (st 255); on 63 utr569; on 64 utr263;
    rng 65 90 (st 255); on 95 (st 255); rng 97 122 (st 255); on 126 (st 255)];
  mkRow 255 false [on 33 (st 255); on 36 (st 255); on 37 (st 256); rng 38 46 (st 255); rng 48 59 (st 255);
    on 61 (st 255); on 64 utr263; rng 65 90 (st 255); on 95 (st 255); rng 97 122 (st 255); on 126 (st 255)];
  mkRow 256 false [rng 48 57 (st 257); rng 65 70 (st 257); rng 97 102 (st 257)];
  mkRow 257 false [rng 48 57 (st 255); rng 65 70 (st 255); rng 97 102 (st 255)]].

(** @src uri.rl.cc:6023-6146 Uri::Create *)
Definition urows_44 : list (row uri_action) := [
  mkRow 522 false [on 2 utr546; on 33 utr578; on 35 utr548; on 36 utr578; on 37 utr579; rng 38 46 utr578;
    on 47 utr550; on 48 utr580; on 49 utr581; on 50 utr582; rng 51 57 utr583; on 58 utr584; on 59 utr578;
    on 61 utr578; on 63 utr556; rng 65 90 utr578; on 91 utr558; on 95 utr578; rng 97 122 utr578; on 126 utr578];
  mkRow 523 false [on 33 (st 523); on 35 utr559; on 36 (st 523); on 37 (st 258); rng 38 46 (st 523);
    on 47 utr560; rng 48 57 (st 523); on 58 utr561; on 59 (st 523); on 61 (st 523); on 63 utr562;
    rng 65 90 (st 523); on 95 (st 523); rng 97 122 (st 523); on 126 (st 523)];
  mkRow 258 false [rng 48 57 (st 259); rng 65 70 (st 259); rng 97 102 (st 259)];
  mkRow 259 false [rng 48 57 (st 523); rng 65 70 (st 523); rng 97 102 (st 523)];
  mkRow 524 false [on 33 (st 523); on 35 utr559; on 36 (st 523); on 37 (st 258); rng 38 45 (st 523);
    on 46 (st 525); on 47 utr560; rng 48 57 (st 523); on 58 utr561; on 59 (st 523); on 61 (st 523);
    on 63 utr562; rng 65 90 (st 523); on 95 (st 523); rng 97 122 (st 523); on 126 (st 523)]].

(** @src uri.rl.cc:6147-6285 Uri::Create *)
Definition urows_45 : list (row uri_action) := [
  mkRow 525 false [on 2 (st 233); on 33 (st 523); on 35 utr559; on 36 (st 523); on 37 (st 258);
    rng 38 46 (st 523); on 47 utr560; on 48 (st 526); on 49 (st 534); on 50 (st 536); rng 51 57 (st 535);
    on 58 utr561; on 59 (st 523); on 61 (st 523); on 63 utr562; rng 65 90 (st 523); on 95 (st 523);
    rng 97 122 (st 523); on 126 (st 523)];
  mkRow 526 false [on 33 (st 523); on 35 utr559; on 36 (st 523); on 37 (st 258); rng 38 45 (st 523);
    on 46 (st 527); on 47 utr560; rng 48 57 (st 523); on 58 utr561; on 59 (st 523); on 61 (st 523);
    on 63 utr562; rng 65 90 (st 523); on 95 (st 523); rng 97 122 (st 523); on 126 (st 523)];
  mkRow 527 false [on 2 (st 237); on 33 (st 523); on 35 utr559; on 36 (st 523); on 37 (st 258);
    rng 38 46 (st 523); on 47 utr560; on 48 (st 528); on 49 (st 530); on 50 (st 532); rng 51 57 (st 531);
    on 58 utr561; on 59 (st 523); on 61 (st 523); on 63 utr562; rng 65 90 (st 523); on 95 (st 523);
    rng 97 122 (st 523); on 126 (st 523)];
  mkRow 528 false [on 33 (st 523); on 35 utr559; on 36 (st 523); on 37 (st 258); rng 38 45 (st 523);
    on 46 (st 529); on 47 utr560; rng 48 57 (st 523); on 58 utr561; on 59 (st 523); on 61 (st 523);
    on 63 utr562; rng 65 90 (st 523); on 95 (st 523); rng 97 122 (st 523); on 126 (st 523)];
  mkRow 529 false [on 2 (st 241); on 33 (st 523); on 35 utr559; on 36 (st 523); on 37 (st 258);
    rng 38 46 (st 523); on 47 utr560; rng 48 57 (st 523); on 58 utr561; on 59 (st 523); on 61 (st 523);
    on 63 utr562; rng 65 90 (st 523); on 95 (st 523); rng 97 122 (st 523); on 126 (st 523)]].

(** @src uri.rl.cc:6286-6404 Uri::Create *)
Definition urows_46 : list (row uri_action) := [
  mkRow 530 false [on 33 (st 523); on 35 utr559; on 36 (st 523); on 37 (st 258); rng 38 45 (st 523);
    on 46 (st 529); on 47 utr560; rng 48 57 (st 531); on 58 utr561; on 59 (st 523); on 61 (st 523);
    on 63 utr562; rng 65 90 (st 523); on 95 (st 523); rng 97 122 (st 523); on 126 (st 523)];
  mkRow 531 false [on 33 (st 523); on 35 utr559; on 36 (st 523); on 37 (st 258); rng 38 45 (st 523);
    on 46 (st 529); on 47 utr560; rng 48 57 (st 528); on 58 utr561; on 59 (st 523); on 61 (st 523);
    on 63 utr562; rng 65 90 (st 523); on 95 (st 523); rng 97 122 (st 523); on 126 (st 523)];
  mkRow 532 false [on 33 (st 523); on 35 utr559; on 36 (st 523); on 37 (st 258); rng 38 45 (st 523);
    on 46 (st 529); on 47 utr560; rng 48 52 (st 528); on 53 (st 533); rng 54 57 (st 528); on 58 utr561;
    on 59 (st 523); on 61 (st 523); on 63 utr562; rng 65 90 (st 523); on 95 (st 523); rng 97 122 (st 523);
    on 126 (st 523)];
  mkRow 533 false [on 33 (st 523); on 35 utr559; on 36 (st 523); on 37 (st 258); rng 38 45 (st 523);
    on 46 (st 529); on 47 utr560; rng 48 53 (st 528); rng 54 57 (st 523); on 58 utr561; on 59 (st 523);
    on 61 (st 523); on 63 utr562; rng 65 90 (st 523); on 95 (st 523); rng 97 122 (st 523); on 126 (st 523)]].

(** @src uri.rl.cc:6405-6523 Uri::Create *)
Definition urows_47 : list (row uri_action) := [
  mkRow 534 false [on 33 (st 523); on 35 utr559; on 36 (st 523); on 37 (st 258); rng 38 45 (st 523);
    on 46 (st 527); on 47 utr560; rng 48 57 (st 535); on 58 utr561; on 59 (st 523); on 61 (st 523);
    on 63 utr562; rng 65 90 (st 523); on 95 (st 523); rng 97 122 (st 523); on 126 (st 523)];
  mkRow 535 false [on 33 (st 523); on 35 utr559; on 36 (st 523); on 37 (st 258); rng 38 45 (st 523);
    on 46 (st 527); on 47 utr560; rng 48 57 (st 526); on 58 utr561; on 59 (st 523); on 61 (st 523);
    on 63 utr562; rng 65 90 (st 523); on 95 (st 523); rng 97 122 (st 523); on 126 (st 523)];
  mkRow 536 false [on 33 (st 523); on 35 utr559; on 36 (st 523); on 37 (st 258); rng 38 45 (st 523);
    on 46 (st 527); on 47 utr560; rng 48 52 (st 526); on 53 (st 537); rng 54 57 (st 526); on 58 utr561;
    on 59 (st 523); on 61 (st 523); on 63 utr562; rng 65 90 (st 523); on 95 (st 523); rng 97 122 (st 523);
    on 126 (st 523)];
  mkRow 537 false [on 33 (st 523); on 35 utr559; on 36 (st 523); on 37 (st 258); rng 38 45 (st 523);
    on 46 (st 527); on 47 utr560; rng 48 53 (st 526); rng 54 57 (st 523); on 58 utr561; on 59 (st 523);
    on 61 (st 523); on 63 utr562; rng 65 90 (st 523); on 95 (st 523); rng 97 122 (st 523); on 126 (st 523)]].

(** @src uri.rl.cc:6528-6657 Uri::Create *)
Definition urows_48 : list (row uri_action) := [
  mkRow 538 false [on 33 (st 523); on 35 utr559; on 36 (st 523); on 37 (st 258); rng 38 45 (st 523);
    on 46 (st 525); on 47 utr560; rng 48 57 (st 539); on 58 utr561; on 59 (st 523); on 61 (st 523);
    on 63 utr562; rng 65 90 (st 523); on 95 (st 523); rng 97 122 (st 523); on 126 (st 523)];
  mkRow 539 false [on 33 (st 523); on 35 utr559; on 36 (st 523); on 37 (st 258); rng 38 45 (st 523);
    on 46 (st 525); on 47 utr560; rng 48 57 (st 524); on 58 utr561; on 59 (st 523); on 61 (st 523);
    on 63 utr562; rng 65 90 (st 523); on 95 (st 523); rng 97 122 (st 523); on 126 (st 523)];
  mkRow 540 false [on 33 (st 523); on 35 utr559; on 36 (st 523); on 37 (st 258); rng 38 45 (st 523);
    on 46 (st 525); on 47 utr560; rng 48 52 (st 524); on 53 (st 541); rng 54 57 (st 524); on 58 utr561;
    on 59 (st 523); on 61 (st 523); on 63 utr562; rng 65 90 (st 523); on 95 (st 523); rng 97 122 (st 523);
    on 126 (st 523)];
  mkRow 541 false [on 33 (st 523); on 35 utr559; on 36 (st 523); on 37 (st 258); rng 38 45 (st 523);
    on 46 (st 525); on 47 utr560; rng 48 53 (st 524); rng 54 57 (st 523); on 58 utr561; on 59 (st 523);
    on 61 (st 523); on 63 utr562; rng 65 90 (st 523); on 95 (st 523); rng 97 122 (st 523); on 126 (st 523)]].

(** @src uri.rl.cc:6662-6798 Uri::Create *)
Definition urows_49 : list (row uri_action) := [
  mkRow 260 false [rng 48 57 (st 261); on 58 (st 368); rng 65 70 (st 261); rng 97 102 (st 261); on 118 (st 447)];
  mkRow 261 false [rng 48 57 (st 262); on 58 (st 265); rng 65 70 (st 262); rng 97 102 (st 262)];
  mkRow 262 false [rng 48 57 (st 263); on 58 (st 265); rng 65 70 (st 263); rng 97 102 (st 263)];
  mkRow 263 false [rng 48 57 (st 264); on 58 (st 265); rng 65 70 (st 264); rng 97 102 (st 264)];
  mkRow 264 false [on 58 (st 265)];
  mkRow 265 false [rng 48 57 (st 266); on 58 (st 363); rng 65 70 (st 266); rng 97 102 (st 266)];
  mkRow 266 false [rng 48 57 (st 267); on 58 (st 270); rng 65 70 (st 267); rng 97 102 (st 267)];
  mkRow 267 false [rng 48 57 (st 268); on 58 (st 270); rng 65 70 (st 268); rng 97 102 (st 268)];
  mkRow 268 false [rng 48 57 (st 269); on 58 (st 270); rng 65 70 (st 269); rng 97 102 (st 269)];
  mkRow 269 false [on 58 (st 270)]].

(** @src uri.rl.cc:6799-6932 Uri::Create *)
Definition urows_50 : list (row uri_action) := [
  mkRow 270 false [rng 48 57 (st 271); on 58 (st 358); rng 65 70 (st 271); rng 97 102 (st 271)];
  mkRow 271 false [rng 48 57 (st 272); on 58 (st 275); rng 65 70 (st 272); rng 97 102 (st 272)];
  mkRow 272 false [rng 48 57 (st 273); on 58 (st 275); rng 65 70 (st 273); rng 97 102 (st 273)];
  mkRow 273 false [rng 48 57 (st 274); on 58 (st 275); rng 65 70 (st 274); rng 97 102 (st 274)];
  mkRow 274 false [on 58 (st 275)];
  mkRow 275 false [rng 48 57 (st 276); on 58 (st 353); rng 65 70 (st 276); rng 97 102 (st 276)];
  mkRow 276 false [rng 48 57 (st 277); on 58 (st 280); rng 65 70 (st 277); rng 97 102 (st 277)];
  mkRow 277 false [rng 48 57 (st 278); on 58 (st 280); rng 65 70 (st 278); rng 97 102 (st 278)];
  mkRow 278 false [rng 48 57 (st 279); on 58 (st 280); rng 65 70 (st 279); rng 97 102 (st 279)];
  mkRow 279 false [on 58 (st 280)]].

(** @src uri.rl.cc:6933-7066 Uri::Create *)
Definition urows_51 : list (row uri_action) := [
  mkRow 280 false [rng 48 57 (st 281); on 58 (st 348); rng 65 70 (st 281); rng 97 102 (st 281)];
  mkRow 281 false [rng 48 57 (st 282); on 58 (st 285); rng 65 70 (st 282); rng 97 102 (st 282)];
  mkRow 282 false [rng 48 57 (st 283); on 58 (st 285); rng 65 70 (st 283); rng 97 102 (st 283)];
  mkRow 283 false [rng 48 57 (st 284); on 58 (st 285); rng 65 70 (st 284); rng 97 102 (st 284)];
  mkRow 284 false [on 58 (st 285)];
  mkRow 285 false [rng 48 57 (st 286); on 58 (st 335); rng 65 70 (st 286); rng 97 102 (st 286)];
  mkRow 286 false [rng 48 57 (st 287); on 58 (st 290); rng 65 70 (st 287); rng 97 102 (st 287)];
  mkRow 287 false [rng 48 57 (st 288); on 58 (st 290); rng 65 70 (st 288); rng 97 102 (st 288)];
  mkRow 288 false [rng 48 57 (st 289); on 58 (st 290); rng 65 70 (st 289); rng 97 102 (st 289)];
  mkRow 289 false [on 58 (st 290)]].

(** @src uri.rl.cc:7067-7209 Uri::Create *)
Definition urows_52 : list (row uri_action) := [
  mkRow 290 false [on 2 (st 291); on 48 (st 318); on 49 (st 326); on 50 (st 329); rng 51 57 (st 332);
    on 58 (st 333); rng 65 70 (st 334); rng 97 102 (st 334)];
  mkRow 291 false [rng 48 52 (st 292)];
  mkRow 292 false [rng 48 57 (st 293)];
  mkRow 293 false [on 46 (st 294)];
  mkRow 294 false [on 2 (st 295); on 48 (st 297); on 49 (st 314); on 50 (st 316); rng 51 57 (st 315)];
  mkRow 295 false [rng 48 52 (st 296)];
  mkRow 296 false [rng 48 57 (st 297)];
  mkRow 297 false [on 46 (st 298)];
  mkRow 298 false [on 2 (st 299); on 48 (st 301); on 49 (st 310); on 50 (st 312); rng 51 57 (st 311)];
  mkRow 299 false [rng 48 52 (st 300)];
  mkRow 300 false [rng 48 57 (st 301)];
  mkRow 301 false [on 46 (st 302)];
  mkRow 302 false [on 2 (st 303); on 48 (st 305); on 49 (st 306); on 50 (st 308); rng 51 57 (st 307)];
  mkRow 303 false [rng 48 52 (st 304)];
  mkRow 304 false [rng 48 57 (st 305)];
  mkRow 305 false [on 93 (st 512)]].

(** @src uri.rl.cc:7210-7340 Uri::Create *)
Definition urows_53 : list (row uri_action) := [
  mkRow 306 false [rng 48 57 (st 307); on 93 (st 512)];
  mkRow 307 false [rng 48 57 (st 305); on 93 (st 512)];
  mkRow 308 false [rng 48 52 (st 305); on 53 (st 309); rng 54 57 (st 305); on 93 (st 512)];
  mkRow 309 false [rng 48 53 (st 305); on 93 (st 512)];
  mkRow 310 false [on 46 (st 302); rng 48 57 (st 311)];
  mkRow 311 false [on 46 (st 302); rng 48 57 (st 301)];
  mkRow 312 false [on 46 (st 302); rng 48 52 (st 301); on 53 (st 313); rng 54 57 (st 301)];
  mkRow 313 false [on 46 (st 302); rng 48 53 (st 301)];
  mkRow 314 false [on 46 (st 298); rng 48 57 (st 315)];
  mkRow 315 false [on 46 (st 298); rng 48 57 (st 297)];
  mkRow 316 false [on 46 (st 298); rng 48 52 (st 297); on 53 (st 317); rng 54 57 (st 297)];
  mkRow 317 false [on 46 (st 298); rng 48 53 (st 297)];
  mkRow 318 false [on 46 (st 294); rng 48 57 (st 319); on 58 (st 322); rng 65 70 (st 319); rng 97 102 (st 319)]].

(** @src uri.rl.cc:7341-7471 Uri::Create *)
Definition urows_54 : list (row uri_action) := [
  mkRow 319 false [rng 48 57 (st 320); on 58 (st 322); rng 65 70 (st 320); rng 97 102 (st 320)];
  mkRow 320 false [rng 48 57 (st 321); on 58 (st 322); rng 65 70 (st 321); rng 97 102 (st 321)];
  mkRow 321 false [on 58 (st 322)];
  mkRow 322 false [rng 48 57 (st 323); on 58 (st 305); rng 65 70 (st 323); rng 97 102 (st 323)];
  mkRow 323 false [rng 48 57 (st 324); rng 65 70 (st 324); on 93 (st 512); rng 97 102 (st 324)];
  mkRow 324 false [rng 48 57 (st 325); rng 65 70 (st 325); on 93 (st 512); rng 97 102 (st 325)];
  mkRow 325 false [rng 48 57 (st 305); rng 65 70 (st 305); on 93 (st 512); rng 97 102 (st 305)];
  mkRow 326 false [on 46 (st 294); rng 48 57 (st 327); on 58 (st 322); rng 65 70 (st 319); rng 97 102 (st 319)];
  mkRow 327 false [on 46 (st 294); rng 48 57 (st 328); on 58 (st 322); rng 65 70 (st 320); rng 97 102 (st 320)]].

(** @src uri.rl.cc:7472-7607 Uri::Create *)
Definition urows_55 : list (row uri_action) := [
  mkRow 328 false [on 46 (st 294); rng 48 57 (st 321); on 58 (st 322); rng 65 70 (st 321); rng 97 102 (st 321)];
  mkRow 329 false [on 46 (st 294); rng 48 52 (st 330); on 53 (st 331); rng 54 57 (st 330); on 58 (st 322);
    rng 65 70 (st 319); rng 97 102 (st 319)];
  mkRow 330 false [on 46 (st 294); rng 48 57 (st 320); on 58 (st 322); rng 65 70 (st 320); rng 97 102 (st 320)];
  mkRow 331 false [on 46 (st 294); rng 48 53 (st 328); rng 54 57 (st 320); on 58 (st 322); rng 65 70 (st 320);
    rng 97 102 (st 320)];
  mkRow 332 false [on 46 (st 294); rng 48 57 (st 330); on 58 (st 322); rng 65 70 (st 319); rng 97 102 (st 319)];
  mkRow 333 false [rng 48 57 (st 323); rng 65 70 (st 323); rng 97 102 (st 323)];
  mkRow 334 false [rng 48 57 (st 319); on 58 (st 322); rng 65 70 (st 319); rng 97 102 (st 319)];
  mkRow 335 false [on 2 (st 291); on 48 (st 336); on 49 (st 340); on 50 (st 343); rng 51 57 (st 346);
    rng 65 70 (st 347); rng 97 102 (st 347)]].

(** @src uri.rl.cc:7608-7747 Uri::Create *)
Definition urows_56 : list (row uri_action) := [
  mkRow 336 false [on 46 (st 294); rng 48 57 (st 337); on 58 (st 333); rng 65 70 (st 337); rng 97 102 (st 337)];
  mkRow 337 false [rng 48 57 (st 338); on 58 (st 333); rng 65 70 (st 338); rng 97 102 (st 338)];
  mkRow 338 false [rng 48 57 (st 339); on 58 (st 333); rng 65 70 (st 339); rng 97 102 (st 339)];
  mkRow 339 false [on 58 (st 333)];
  mkRow 340 false [on 46 (st 294); rng 48 57 (st 341); on 58 (st 333); rng 65 70 (st 337); rng 97 102 (st 337)];
  mkRow 341 false [on 46 (st 294); rng 48 57 (st 342); on 58 (st 333); rng 65 70 (st 338); rng 97 102 (st 338)];
  mkRow 342 false [on 46 (st 294); rng 48 57 (st 339); on 58 (st 333); rng 65 70 (st 339); rng 97 102 (st 339)];
  mkRow 343 false [on 46 (st 294); rng 48 52 (st 344); on 53 (st 345); rng 54 57 (st 344); on 58 (st 333);
    rng 65 70 (st 337); rng 97 102 (st 337)];
  mkRow 344 false [on 46 (st 294); rng 48 57 (st 338); on 58 (st 333); rng 65 70 (st 338); rng 97 102 (st 338)]].

(** @src uri.rl.cc:7748-7892 Uri::Create *)
Definition urows_57 : list (row uri_action) := [
  mkRow 345 false [on 46 (st 294); rng 48 53 (st 342); rng 54 57 (st 338); on 58 (st 333); rng 65 70 (st 338);
    rng 97 102 (st 338)];
  mkRow 346 false [on 46 (st 294); rng 48 57 (st 344); on 58 (st 333); rng 65 70 (st 337); rng 97 102 (st 337)];
  mkRow 347 false [rng 48 57 (st 337); on 58 (st 333); rng 65 70 (st 337); rng 97 102 (st 337)];
  mkRow 348 false [rng 48 57 (st 349); rng 65 70 (st 349); rng 97 102 (st 349)];
  mkRow 349 false [rng 48 57 (st 350); on 58 (st 335); rng 65 70 (st 350); rng 97 102 (st 350)];
  mkRow 350 false [rng 48 57 (st 351); on 58 (st 335); rng 65 70 (st 351); rng 97 102 (st 351)];
  mkRow 351 false [rng 48 57 (st 352); on 58 (st 335); rng 65 70 (st 352); rng 97 102 (st 352)];
  mkRow 352 false [on 58 (st 335)];
  mkRow 353 false [rng 48 57 (st 354); rng 65 70 (st 354); rng 97 102 (st 354)];
  mkRow 354 false [rng 48 57 (st 355); on 58 (st 348); rng 65 70 (st 355); rng 97 102 (st 355)]].

(** @src uri.rl.cc:7893-8037 Uri::Create *)
Definition urows_58 : list (row uri_action) := [
  mkRow 355 false [rng 48 57 (st 356); on 58 (st 348); rng 65 70 (st 356); rng 97 102 (st 356)];
  mkRow 356 false [rng 48 57 (st 357); on 58 (st 348); rng 65 70 (st 357); rng 97 102 (st 357)];
  mkRow 357 false [on 58 (st 348)];
  mkRow 358 false [rng 48 57 (st 359); rng 65 70 (st 359); rng 97 102 (st 359)];
  mkRow 359 false [rng 48 57 (st 360); on 58 (st 353); rng 65 70 (st 360); rng 97 102 (st 360)];
  mkRow 360 false [rng 48 57 (st 361); on 58 (st 353); rng 65 70 (st 361); rng 97 102 (st 361)];
  mkRow 361 false [rng 48 57 (st 362); on 58 (st 353); rng 65 70 (st 362); rng 97 102 (st 362)];
  mkRow 362 false [on 58 (st 353)];
  mkRow 363 false [rng 48 57 (st 364); rng 65 70 (st 364); rng 97 102 (st 364)];
  mkRow 364 false [rng 48 57 (st 365); on 58 (st 358); rng 65 70 (st 365); rng 97 102 (st 365)];
  mkRow 365 false [rng 48 57 (st 366); on 58 (st 358); rng 65 70 (st 366); rng 97 102 (st 366)]].

(** @src uri.rl.cc:8038-8166 Uri::Create *)
Definition urows_59 : list (row uri_action) := [
  mkRow 366 false [rng 48 57 (st 367); on 58 (st 358); rng 65 70 (st 367); rng 97 102 (st 367)];
  mkRow 367 false [on 58 (st 358)];
  mkRow 368 false [on 58 (st 369)];
  mkRow 369 false [on 2 (st 291); on 48 (st 370); on 49 (st 439); on 50 (st 442); rng 51 57 (st 445);
    rng 65 70 (st 446); on 93 (st 512); rng 97 102 (st 446)];
  mkRow 370 false [on 46 (st 294); rng 48 57 (st 371); on 58 (st 374); rng 65 70 (st 371); on 93 (st 512);
    rng 97 102 (st 371)];
  mkRow 371 false [rng 48 57 (st 372); on 58 (st 374); rng 65 70 (st 372); on 93 (st 512); rng 97 102 (st 372)];
  mkRow 372 false [rng 48 57 (st 373); on 58 (st 374); rng 65 70 (st 373); on 93 (st 512); rng 97 102 (st 373)];
  mkRow 373 false [on 58 (st 374); on 93 (st 512)];
  mkRow 374 false [on 2 (st 291); on 48 (st 375); on 49 (st 431); on 50 (st 434); rng 51 57 (st 437);
    rng 65 70 (st 438); rng 97 102 (st 438)]].

(** @src uri.rl.cc:8167-8307 Uri::Create *)
Definition urows_60 : list (row uri_action) := [
  mkRow 375 false [on 46 (st 294); rng 48 57 (st 376); on 58 (st 379); rng 65 70 (st 376); on 93 (st 512);
    rng 97 102 (st 376)];
  mkRow 376 false [rng 48 57 (st 377); on 58 (st 379); rng 65 70 (st 377); on 93 (st 512); rng 97 102 (st 377)];
  mkRow 377 false [rng 48 57 (st 378); on 58 (st 379); rng 65 70 (st 378); on 93 (st 512); rng 97 102 (st 378)];
  mkRow 378 false [on 58 (st 379); on 93 (st 512)];
  mkRow 379 false [on 2 (st 291); on 48 (st 380); on 49 (st 423); on 50 (st 426); rng 51 57 (st 429);
    rng 65 70 (st 430); rng 97 102 (st 430)];
  mkRow 380 false [on 46 (st 294); rng 48 57 (st 381); on 58 (st 384); rng 65 70 (st 381); on 93 (st 512);
    rng 97 102 (st 381)];
  mkRow 381 false [rng 48 57 (st 382); on 58 (st 384); rng 65 70 (st 382); on 93 (st 512); rng 97 102 (st 382)];
  mkRow 382 false [rng 48 57 (st 383); on 58 (st 384); rng 65 70 (st 383); on 93 (st 512); rng 97 102 (st 383)];
  mkRow 383 false [on 58 (st 384); on 93 (st 512)]].

(** @src uri.rl.cc:8308-8441 Uri::Create *)
Definition urows_61 : list (row uri_action) := [
  mkRow 384 false [on 2 (st 291); on 48 (st 385); on 49 (st 415); on 50 (st 418); rng 51 57 (st 421);
    rng 65 70 (st 422); rng 97 102 (st 422)];
  mkRow 385 false [on 46 (st 294); rng 48 57 (st 386); on 58 (st 389); rng 65 70 (st 386); on 93 (st 512);
    rng 97 102 (st 386)];
  mkRow 386 false [rng 48 57 (st 387); on 58 (st 389); rng 65 70 (st 387); on 93 (st 512); rng 97 102 (st 387)];
  mkRow 387 false [rng 48 57 (st 388); on 58 (st 389); rng 65 70 (st 388); on 93 (st 512); rng 97 102 (st 388)];
  mkRow 388 false [on 58 (st 389); on 93 (st 512)];
  mkRow 389 false [on 2 (st 291); on 48 (st 390); on 49 (st 407); on 50 (st 410); rng 51 57 (st 413);
    rng 65 70 (st 414); rng 97 102 (st 414)];
  mkRow 390 false [on 46 (st 294); rng 48 57 (st 391); on 58 (st 394); rng 65 70 (st 391); on 93 (st 512);
    rng 97 102 (st 391)];
  mkRow 391 false [rng 48 57 (st 392); on 58 (st 394); rng 65 70 (st 392); on 93 (st 512); rng 97 102 (st 392)]].

(** @src uri.rl.cc:8442-8583 Uri::Create *)
Definition urows_62 : list (row uri_action) := [
  mkRow 392 false [rng 48 57 (st 393); on 58 (st 394); rng 65 70 (st 393); on 93 (st 512); rng 97 102 (st 393)];
  mkRow 393 false [on 58 (st 394); on 93 (st 512)];
  mkRow 394 false [on 2 (st 291); on 48 (st 395); on 49 (st 399); on 50 (st 402); rng 51 57 (st 405);
    rng 65 70 (st 406); rng 97 102 (st 406)];
  mkRow 395 false [on 46 (st 294); rng 48 57 (st 396); on 58 (st 333); rng 65 70 (st 396); on 93 (st 512);
    rng 97 102 (st 396)];
  mkRow 396 false [rng 48 57 (st 397); on 58 (st 333); rng 65 70 (st 397); on 93 (st 512); rng 97 102 (st 397)];
  mkRow 397 false [rng 48 57 (st 398); on 58 (st 333); rng 65 70 (st 398); on 93 (st 512); rng 97 102 (st 398)];
  mkRow 398 false [on 58 (st 333); on 93 (st 512)];
  mkRow 399 false [on 46 (st 294); rng 48 57 (st 400); on 58 (st 333); rng 65 70 (st 396); on 93 (st 512);
    rng 97 102 (st 396)];
  mkRow 400 false [on 46 (st 294); rng 48 57 (st 401); on 58 (st 333); rng 65 70 (st 397); on 93 (st 512);
    rng 97 102 (st 397)]].

(** @src uri.rl.cc:8584-8712 Uri::Create *)
Definition urows_63 : list (row uri_action) := [
  mkRow 401 false [on 46 (st 294); rng 48 57 (st 398); on 58 (st 333); rng 65 70 (st 398); on 93 (st 512);
    rng 97 102 (st 398)];
  mkRow 402 false [on 46 (st 294); rng 48 52 (st 403); on 53 (st 404); rng 54 57 (st 403); on 58 (st 333);
    rng 65 70 (st 396); on 93 (st 512); rng 97 102 (st 396)];
  mkRow 403 false [on 46 (st 294); rng 48 57 (st 397); on 58 (st 333); rng 65 70 (st 397); on 93 (st 512);
    rng 97 102 (st 397)];
  mkRow 404 false [on 46 (st 294); rng 48 53 (st 401); rng 54 57 (st 397); on 58 (st 333); rng 65 70 (st 397);
    on 93 (st 512); rng 97 102 (st 397)];
  mkRow 405 false [on 46 (st 294); rng 48 57 (st 403); on 58 (st 333); rng 65 70 (st 396); on 93 (st 512);
    rng 97 102 (st 396)];
  mkRow 406 false [rng 48 57 (st 396); on 58 (st 333); rng 65 70 (st 396); on 93 (st 512); rng 97 102 (st 396)];
  mkRow 407 false [on 46 (st 294); rng 48 57 (st 408); on 58 (st 394); rng 65 70 (st 391); on 93 (st 512);
    rng 97 102 (st 391)]].

(** @src uri.rl.cc:8713-8841 Uri::Create *)
Definition urows_64 : list (row uri_action) := [
  mkRow 408 false [on 46 (st 294); rng 48 57 (st 409); on 58 (st 394); rng 65 70 (st 392); on 93 (st 512);
    rng 97 102 (st 392)];
  mkRow 409 false [on 46 (st 294); rng 48 57 (st 393); on 58 (st 394); rng 65 70 (st 393); on 93 (st 512);
    rng 97 102 (st 393)];
  mkRow 410 false [on 46 (st 294); rng 48 52 (st 411); on 53 (st 412); rng 54 57 (st 411); on 58 (st 394);
    rng 65 70 (st 391); on 93 (st 512); rng 97 102 (st 391)];
  mkRow 411 false [on 46 (st 294); rng 48 57 (st 392); on 58 (st 394); rng 65 70 (st 392); on 93 (st 512);
    rng 97 102 (st 392)];
  mkRow 412 false [on 46 (st 294); rng 48 53 (st 409); rng 54 57 (st 392); on 58 (st 394); rng 65 70 (st 392);
    on 93 (st 512); rng 97 102 (st 392)];
  mkRow 413 false [on 46 (st 294); rng 48 57 (st 411); on 58 (st 394); rng 65 70 (st 391); on 93 (st 512);
    rng 97 102 (st 391)];
  mkRow 414 false [rng 48 57 (st 391); on 58 (st 394); rng 65 70 (st 391); on 93 (st 512); rng 97 102 (st 391)]].

(** @src uri.rl.cc:8842-8971 Uri::Create *)
Definition urows_65 : list (row uri_action) := [
  mkRow 415 false [on 46 (st 294); rng 48 57 (st 416); on 58 (st 389); rng 65 70 (st 386); on 93 (st 512);
    rng 97 102 (st 386)];
  mkRow 416 false [on 46 (st 294); rng 48 57 (st 417); on 58 (st 389); rng 65 70 (st 387); on 93 (st 512);
    rng 97 102 (st 387)];
  mkRow 417 false [on 46 (st 294); rng 48 57 (st 388); on 58 (st 389); rng 65 70 (st 388); on 93 (st 512);
    rng 97 102 (st 388)];
  mkRow 418 false [on 46 (st 294); rng 48 52 (st 419); on 53 (st 420); rng 54 57 (st 419); on 58 (st 389);
    rng 65 70 (st 386); on 93 (st 512); rng 97 102 (st 386)];
  mkRow 419 false [on 46 (st 294); rng 48 57 (st 387); on 58 (st 389); rng 65 70 (st 387); on 93 (st 512);
    rng 97 102 (st 387)];
  mkRow 420 false [on 46 (st 294); rng 48 53 (st 417); rng 54 57 (st 387); on 58 (st 389); rng 65 70 (st 387);
    on 93 (st 512); rng 97 102 (st 387)];
  mkRow 421 false [on 46 (st 294); rng 48 57 (st 419); on 58 (st 389); rng 65 70 (st 386); on 93 (st 512);
    rng 97 102 (st 386)]].

(** @src uri.rl.cc:8972-9100 Uri::Create *)
Definition urows_66 : list (row uri_action) := [
  mkRow 422 false [rng 48 57 (st 386); on 58 (st 389); rng 65 70 (st 386); on 93 (st 512); rng 97 102 (st 386)];
  mkRow 423 false [on 46 (st 294); rng 48 57 (st 424); on 58 (st 384); rng 65 70 (st 381); on 93 (st 512);
    rng 97 102 (st 381)];
  mkRow 424 false [on 46 (st 294); rng 48 57 (st 425); on 58 (st 384); rng 65 70 (st 382); on 93 (st 512);
    rng 97 102 (st 382)];
  mkRow 425 false [on 46 (st 294); rng 48 57 (st 383); on 58 (st 384); rng 65 70 (st 383); on 93 (st 512);
    rng 97 102 (st 383)];
  mkRow 426 false [on 46 (st 294); rng 48 52 (st 427); on 53 (st 428); rng 54 57 (st 427); on 58 (st 384);
    rng 65 70 (st 381); on 93 (st 512); rng 97 102 (st 381)];
  mkRow 427 false [on 46 (st 294); rng 48 57 (st 382); on 58 (st 384); rng 65 70 (st 382); on 93 (st 512);
    rng 97 102 (st 382)];
  mkRow 428 false [on 46 (st 294); rng 48 53 (st 425); rng 54 57 (st 382); on 58 (st 384); rng 65 70 (st 382);
    on 93 (st 512); rng 97 102 (st 382)]].

(** @src uri.rl.cc:9101-9226 Uri::Create *)
Definition urows_67 : list (row uri_action) := [
  mkRow 429 false [on 46 (st 294); rng 48 57 (st 427); on 58 (st 384); rng 65 70 (st 381); on 93 (st 512);
    rng 97 102 (st 381)];
  mkRow 430 false [rng 48 57 (st 381); on 58 (st 384); rng 65 70 (st 381); on 93 (st 512); rng 97 102 (st 381)];
  mkRow 431 false [on 46 (st 294); rng 48 57 (st 432); on 58 (st 379); rng 65 70 (st 376); on 93 (st 512);
    rng 97 102 (st 376)];
  mkRow 432 false [on 46 (st 294); rng 48 57 (st 433); on 58 (st 379); rng 65 70 (st 377); on 93 (st 512);
    rng 97 102 (st 377)];
  mkRow 433 false [on 46 (st 294); rng 48 57 (st 378); on 58 (st 379); rng 65 70 (st 378); on 93 (st 512);
    rng 97 102 (st 378)];
  mkRow 434 false [on 46 (st 294); rng 48 52 (st 435); on 53 (st 436); rng 54 57 (st 435); on 58 (st 379);
    rng 65 70 (st 376); on 93 (st 512); rng 97 102 (st 376)];
  mkRow 435 false [on 46 (st 294); rng 48 57 (st 377); on 58 (st 379); rng 65 70 (st 377); on 93 (st 512);
    rng 97 102 (st 377)]].

(** @src uri.rl.cc:9227-9355 Uri::Create *)
Definition urows_68 : list (row uri_action) := [
  mkRow 436 false [on 46 (st 294); rng 48 53 (st 433); rng 54 57 (st 377); on 58 (st 379); rng 65 70 (st 377);
    on 93 (st 512); rng 97 102 (st 377)];
  mkRow 437 false [on 46 (st 294); rng 48 57 (st 435); on 58 (st 379); rng 65 70 (st 376); on 93 (st 512);
    rng 97 102 (st 376)];
  mkRow 438 false [rng 48 57 (st 376); on 58 (st 379); rng 65 70 (st 376); on 93 (st 512); rng 97 102 (st 376)];
  mkRow 439 false [on 46 (st 294); rng 48 57 (st 440); on 58 (st 374); rng 65 70 (st 371); on 93 (st 512);
    rng 97 102 (st 371)];
  mkRow 440 false [on 46 (st 294); rng 48 57 (st 441); on 58 (st 374); rng 65 70 (st 372); on 93 (st 512);
    rng 97 102 (st 372)];
  mkRow 441 false [on 46 (st 294); rng 48 57 (st 373); on 58 (st 374); rng 65 70 (st 373); on 93 (st 512);
    rng 97 102 (st 373)];
  mkRow 442 false [on 46 (st 294); rng 48 52 (st 443); on 53 (st 444); rng 54 57 (st 443); on 58 (st 374);
    rng 65 70 (st 371); on 93 (st 512); rng 97 102 (st 371)]].

(** @src uri.rl.cc:9356-9480 Uri::Create *)
Definition urows_69 : list (row uri_action) := [
  mkRow 443 false [on 46 (st 294); rng 48 57 (st 372); on 58 (st 374); rng 65 70 (st 372); on 93 (st 512);
    rng 97 102 (st 372)];
  mkRow 444 false [on 46 (st 294); rng 48 53 (st 441); rng 54 57 (st 372); on 58 (st 374); rng 65 70 (st 372);
    on 93 (st 512); rng 97 102 (st 372)];
  mkRow 445 false [on 46 (st 294); rng 48 57 (st 443); on 58 (st 374); rng 65 70 (st 371); on 93 (st 512);
    rng 97 102 (st 371)];
  mkRow 446 false [rng 48 57 (st 371); on 58 (st 374); rng 65 70 (st 371); on 93 (st 512); rng 97 102 (st 371)];
  mkRow 447 false [rng 48 57 (st 448); rng 65 70 (st 448); rng 97 102 (st 448)];
  mkRow 448 false [on 46 (st 449); rng 48 57 (st 448); rng 65 70 (st 448); rng 97 102 (st 448)];
  mkRow 449 false [on 33 (st 450); on 36 (st 450); rng 38 46 (st 450); rng 48 59 (st 450); on 61 (st 450);
    rng 65 90 (st 450); on 95 (st 450); rng 97 122 (st 450); on 126 (st 450)]].

(** @src uri.rl.cc:9481-9603 Uri::Create *)
Definition urows_70 : list (row uri_action) := [
  mkRow 450 false [on 33 (st 450); on 36 (st 450); rng 38 46 (st 450); rng 48 59 (st 450); on 61 (st 450);
    rng 65 90 (st 450); on 93 (st 512); on 95 (st 450); rng 97 122 (st 450); on 126 (st 450)];
  mkRow 542 false [on 33 (st 255); on 35 utr570; on 36 (st 255); on 37 (st 256); rng 38 46 (st 255);
    on 47 utr571; rng 48 57 (st 542); rng 58 59 (st 255); on 61 (st 255); on 63 utr573; on 64 utr263;
    rng 65 90 (st 255); on 95 (st 255); rng 97 122 (st 255); on 126 (st 255)];
  mkRow 543 false [on 33 (st 520); on 35 utr559; on 36 (st 520); on 37 (st 253); rng 38 45 (st 520);
    on 46 (st 544); on 47 utr560; rng 48 57 (st 520); on 58 utr576; on 59 (st 520); on 61 (st 520);
    on 63 utr562; on 64 utr263; rng 65 90 (st 520); on 95 (st 520); rng 97 122 (st 520); on 126 (st 520)];
  mkRow 544 false [on 2 (st 233); on 33 (st 520); on 35 utr559; on 36 (st 520); on 37 (st 253);
    rng 38 46 (st 520); on 47 utr560; on 48 (st 545); on 49 (st 553); on 50 (st 555); rng 51 57 (st 554);
    on 58 utr576; on 59 (st 520); on 61 (st 520); on 63 utr562; on 64 utr263; rng 65 90 (st 520);
    on 95 (st 520); rng 97 122 (st 520); on 126 (st 520)]].

(** @src uri.rl.cc:9604-9744 Uri::Create *)
Definition urows_71 : list (row uri_action) := [
  mkRow 545 false [on 33 (st 520); on 35 utr559; on 36 (st 520); on 37 (st 253); rng 38 45 (st 520);
    on 46 (st 546); on 47 utr560; rng 48 57 (st 520); on 58 utr576; on 59 (st 520); on 61 (st 520);
    on 63 utr562; on 64 utr263; rng 65 90 (st 520); on 95 (st 520); rng 97 122 (st 520); on 126 (st 520)];
  mkRow 546 false [on 2 (st 237); on 33 (st 520); on 35 utr559; on 36 (st 520); on 37 (st 253);
    rng 38 46 (st 520); on 47 utr560; on 48 (st 547); on 49 (st 549); on 50 (st 551); rng 51 57 (st 550);
    on 58 utr576; on 59 (st 520); on 61 (st 520); on 63 utr562; on 64 utr263; rng 65 90 (st 520);
    on 95 (st 520); rng 97 122 (st 520); on 126 (st 520)];
  mkRow 547 false [on 33 (st 520); on 35 utr559; on 36 (st 520); on 37 (st 253); rng 38 45 (st 520);
    on 46 (st 548); on 47 utr560; rng 48 57 (st 520); on 58 utr576; on 59 (st 520); on 61 (st 520);
    on 63 utr562; on 64 utr263; rng 65 90 (st 520); on 95 (st 520); rng 97 122 (st 520); on 126 (st 520)];
  mkRow 548 false [on 2 (st 241); on 33 (st 520); on 35 utr559; on 36 (st 520); on 37 (st 253);
    rng 38 46 (st 520); on 47 utr560; rng 48 57 (st 520); on 58 utr576; on 59 (st 520); on 61 (st 520);
    on 63 utr562; on 64 utr263; rng 65 90 (st 520); on 95 (st 520); rng 97 122 (st 520); on 126 (st 520)];
  mkRow 549 false [on 33 (st 520); on 35 utr559; on 36 (st 520); on 37 (st 253); rng 38 45 (st 520);
    on 46 (st 548); on 47 utr560; rng 48 57 (st 550); on 58 utr576; on 59 (st 520); on 61 (st 520);
    on 63 utr562; on 64 utr263; rng 65 90 (st 520); on 95 (st 520); rng 97 122 (st 520); on 126 (st 520)]].

(** @src uri.rl.cc:9745-9867 Uri::Create *)
Definition urows_72 : list (row uri_action) := [
  mkRow 550 false [on 33 (st 520); on 35 utr559; on 36 (st 520); on 37 (st 253); rng 38 45 (st 520);
    on 46 (st 548); on 47 utr560; rng 48 57 (st 547); on 58 utr576; on 59 (st 520); on 61 (st 520);
    on 63 utr562; on 64 utr263; rng 65 90 (st 520); on 95 (st 520); rng 97 122 (st 520); on 126 (st 520)];
  mkRow 551 false [on 33 (st 520); on 35 utr559; on 36 (st 520); on 37 (st 253); rng 38 45 (st 520);
    on 46 (st 548); on 47 utr560; rng 48 52 (st 547); on 53 (st 552); rng 54 57 (st 547); on 58 utr576;
    on 59 (st 520); on 61 (st 520); on 63 utr562; on 64 utr263; rng 65 90 (st 520); on 95 (st 520);
    rng 97 122 (st 520); on 126 (st 520)];
  mkRow 552 false [on 33 (st 520); on 35 utr559; on 36 (st 520); on 37 (st 253); rng 38 45 (st 520);
    on 46 (st 548); on 47 utr560; rng 48 53 (st 547); rng 54 57 (st 520); on 58 utr576; on 59 (st 520);
    on 61 (st 520); on 63 utr562; on 64 utr263; rng 65 90 (st 520); on 95 (st 520); rng 97 122 (st 520);
    on 126 (st 520)];
  mkRow 553 false [on 33 (st 520); on 35 utr559; on 36 (st 520); on 37 (st 253); rng 38 45 (st 520);
    on 46 (st 546); on 47 utr560; rng 48 57 (st 554); on 58 utr576; on 59 (st 520); on 61 (st 520);
    on 63 utr562; on 64 utr263; rng 65 90 (st 520); on 95 (st 520); rng 97 122 (st 520); on 126 (st 520)]].

(** @src uri.rl.cc:9868-9995 Uri::Create *)
Definition urows_73 : list (row uri_action) := [
  mkRow 554 false [on 33 (st 520); on 35 utr559; on 36 (st 520); on 37 (st 253); rng 38 45 (st 520);
    on 46 (st 546); on 47 utr560; rng 48 57 (st 545); on 58 utr576; on 59 (st 520); on 61 (st 520);
    on 63 utr562; on 64 utr263; rng 65 90 (st 520); on 95 (st 520); rng 97 122 (st 520); on 126 (st 520)];
  mkRow 555 false [on 33 (st 520); on 35 utr559; on 36 (st 520); on 37 (st 253); rng 38 45 (st 520);
    on 46 (st 546); on 47 utr560; rng 48 52 (st 545); on 53 (st 556); rng 54 57 (st 545); on 58 utr576;
    on 59 (st 520); on 61 (st 520); on 63 utr562; on 64 utr263; rng 65 90 (st 520); on 95 (st 520);
    rng 97 122 (st 520); on 126 (st 520)];
  mkRow 556 false [on 33 (st 520); on 35 utr559; on 36 (st 520); on 37 (st 253); rng 38 45 (st 520);
    on 46 (st 546); on 47 utr560; rng 48 53 (st 545); rng 54 57 (st 520); on 58 utr576; on 59 (st 520);
    on 61 (st 520); on 63 utr562; on 64 utr263; rng 65 90 (st 520); on 95 (st 520); rng 97 122 (st 520);
    on 126 (st 520)];
  mkRow 557 false [on 33 (st 520); on 35 utr559; on 36 (st 520); on 37 (st 253); rng 38 45 (st 520);
    on 46 (st 544); on 47 utr560; rng 48 57 (st 558); on 58 utr576; on 59 (st 520); on 61 (st 520);
    on 63 utr562; on 64 utr263; rng 65 90 (st 520); on 95 (st 520); rng 97 122 (st 520); on 126 (st 520)]].

(** @src uri.rl.cc:10000-10099 Uri::Create *)
Definition urows_74 : list (row uri_action) := [
  mkRow 558 false [on 33 (st 520); on 35 utr559; on 36 (st 520); on 37 (st 253); rng 38 45 (st 520);
    on 46 (st 544); on 47 utr560; rng 48 57 (st 543); on 58 utr576; on 59 (st 520); on 61 (st 520);
    on 63 utr562; on 64 utr263; rng 65 90 (st 520); on 95 (st 520); rng 97 122 (st 520); on 126 (st 520)];
  mkRow 559 false [on 33 (st 520); on 35 utr559; on 36 (st 520); on 37 (st 253); rng 38 45 (st 520);
    on 46 (st 544); on 47 utr560; rng 48 52 (st 543); on 53 (st 560); rng 54 57 (st 543); on 58 utr576;
    on 59 (st 520); on 61 (st 520); on 63 utr562; on 64 utr263; rng 65 90 (st 520); on 95 (st 520);
    rng 97 122 (st 520); on 126 (st 520)];
  mkRow 560 false [on 33 (st 520); on 35 utr559; on 36 (st 520); on 37 (st 253); rng 38 45 (st 520);
    on 46 (st 544); on 47 utr560; rng 48 53 (st 543); rng 54 57 (st 520); on 58 utr576; on 59 (st 520);
    on 61 (st 520); on 63 utr562; on 64 utr263; rng 65 90 (st 520); on 95 (st 520); rng 97 122 (st 520);
    on 126 (st 520)]].

(** The whole machine. *)
Definition utable : list (row uri_action) := concat [urows_1; urows_2; urows_3; urows_4; urows_5; urows_6;
  urows_7; urows_8; urows_9; urows_10; urows_11; urows_12; urows_13; urows_14; urows_15; urows_16; urows_17;
  urows_18; urows_19; urows_20; urows_21; urows_22; urows_23; urows_24; urows_25; urows_26; urows_27;
  urows_28; urows_29; urows_30; urows_31; urows_32; urows_33; urows_34; urows_35; urows_36; urows_37;
  urows_38; urows_39; urows_40; urows_41; urows_42; urows_43; urows_44; urows_45; urows_46; urows_47;
  urows_48; urows_49; urows_50; urows_51; urows_52; urows_53; urows_54; urows_55; urows_56; urows_57;
  urows_58; urows_59; urows_60; urows_61; urows_62; urows_63; urows_64; urows_65; urows_66; urows_67;
  urows_68; urows_69; urows_70; urows_71; urows_72; urows_73; urows_74].

(** ** The end of the input *)

(** @src uri.rl.cc:10661-10810 Uri::Create
    The [switch] at the end of the input: ranges of states and the actions they run. *)
Definition ueof : list (list (Z * Z) * list uri_action) := [
  ([(462, 462); (489, 489)], [u_save_port]);
  ([(460, 460); (463, 467); (470, 488); (490, 507)], [u_save_host]);
  ([(513, 513)], [u_save_path]);
  ([(457, 457)], [u_save_query]);
  ([(454, 454)], [u_save_fragment]);
  ([(456, 456)], [u_mark; u_save_query]);
  ([(453, 453)], [u_mark; u_save_fragment]);
  ([(461, 461); (468, 468)], [u_mark; u_save_port]);
  ([(459, 459); (469, 469)], [u_mark; u_save_host]);
  ([(514, 514); (521, 521)], [u_mark; u_save_port; u_save_path]);
  ([(511, 511); (522, 522)], [u_mark; u_save_host; u_save_path]);
  ([(515, 515); (542, 542)], [u_save_port; u_mark; u_save_path]);
  ([(512, 512); (516, 520); (523, 541); (543, 560)], [u_save_host; u_mark; u_save_path])].
