(* ===== verification/Uri.v ===== *)
(** * URIs ([uri.rl.cc], [uri.h])

    The class [Uri], the actions of the machine in [UriTable] and the functions around
    it.  [mark] is a pointer that is [NULL] when nothing is marked: reading a string from
    it throws, [atoi] of it is undefined. *)

From S2P Require Import Prelude Text StringUtil HttpMessage Ragel UriTable HttpParser.
From Stdlib Require Import ZArith Lia List String.
From stdpp Require Import base tactics list numbers option.

Open Scope Z_scope.
Open Scope list_scope.

(** @src uri.h:77-83 Uri *)
Record Uri := mkUri {
  u_scheme : bytes;
  u_userinfo : bytes;
  u_host : bytes;
  u_path : bytes;
  u_query : bytes;
  u_fragment : bytes;
  u_port : Z
}.

(** @src uri.rl.cc:10922-10924 Uri::Uri *)
Definition Uri_new : Uri := mkUri [] [] [] [] [] [] 0.

(** @src uri.h:63-69 Uri::setScheme and the other setters *)
Definition Uri_setScheme u v := mkUri v (u_userinfo u) (u_host u) (u_path u) (u_query u) (u_fragment u) (u_port u).
Definition Uri_setUserinfo u v := mkUri (u_scheme u) v (u_host u) (u_path u) (u_query u) (u_fragment u) (u_port u).
Definition Uri_setHost u v := mkUri (u_scheme u) (u_userinfo u) v (u_path u) (u_query u) (u_fragment u) (u_port u).
Definition Uri_setPath u v := mkUri (u_scheme u) (u_userinfo u) (u_host u) v (u_query u) (u_fragment u) (u_port u).
Definition Uri_setQuery u v := mkUri (u_scheme u) (u_userinfo u) (u_host u) (u_path u) v (u_fragment u) (u_port u).
Definition Uri_setFragment u v := mkUri (u_scheme u) (u_userinfo u) (u_host u) (u_path u) (u_query u) v (u_port u).
Definition Uri_setPort u v := mkUri (u_scheme u) (u_userinfo u) (u_host u) (u_path u) (u_query u) (u_fragment u) v.

(** @src uri.rl.cc:10926-10936 Uri::isDefaultPort *)
Definition Uri_isDefaultPort (u : Uri) : bool :=
  if u_port u =? 0 then true
  else if bool_decide (u_scheme u = str "http") || bool_decide (u_scheme u = str "ws") then u_port u =? 80
  else if bool_decide (u_scheme u = str "https") || bool_decide (u_scheme u = str "wss") then u_port u =? 443
  else false.

(** @src uri.rl.cc:10938-10941 Uri::getPath *)
Definition Uri_getPath (u : Uri) : bytes := match u_path u with [] => str "/" | path => path end.

(** @src uri.rl.cc:10943-10955 Uri::getPort *)
Definition Uri_getPort (u : Uri) : Z :=
  if negb (u_port u =? 0) then u_port u
  else if bool_decide (u_scheme u = str "http") || bool_decide (u_scheme u = str "ws") then 80
  else if bool_decide (u_scheme u = str "https") || bool_decide (u_scheme u = str "wss") then 443
  else u_port u.

(** [std::to_string(int)]. *)
Definition dec_int (n : Z) : bytes := if n <? 0 then str "-" ++ dec (- n) else dec n.

(** @src uri.rl.cc:10958-10970 Uri::dump *)
Definition Uri_dump (u : Uri) : bytes :=
  u_scheme u ++ str "://" ++ u_userinfo u ++ (match u_userinfo u with [] => [] | _ => str "@" end) ++ u_host u ++
  (if Uri_isDefaultPort u then [] else str ":" ++ dec_int (u_port u)) ++ Uri_getPath u ++
  opt_part (str "?") (u_query u) ++ opt_part (str "#") (u_fragment u).

(** ** The parser *)

#[export] Instance uri_action_eq_dec : EqDecision uri_action.
Proof. solve_decision. Defined.

(** The data of the machine: the object and [mark]. *)
Abbreviation uri_state := (Uri * option Z)%type.

(** [std::string(mark, p - mark)]. *)
Definition marked (buffer : bytes) (mark : option Z) (p : Z) : outcome bytes :=
  match mark with Some m => text_of buffer m p | None => Throw logic_error end.

(** @src uri.rl.cc:10661-10800 Uri::Create
    The code of the actions, as it stands in the [switch] at the end of the input; each
    also occurs in the transitions that use it. *)
Definition uri_act (buffer : bytes) (a : uri_action) (p : Z) (s : uri_state) : outcome (uri_state * bool) :=
  let '(u, mark) := s in
  let go u mark := Ok ((u, mark), false) in
  match a with
  | u_mark => go u (Some p)
  | u_save_scheme => let! t := marked buffer mark p in go (Uri_setScheme u t) None
  | u_save_port =>
    match mark with
    | Some m => if p =? m then go u None else go (Uri_setPort u (atoi (drop (Z.to_nat m) buffer))) None
    | None => UB
    end
  | u_save_userinfo =>
    match mark with Some _ => let! t := marked buffer mark p in go (Uri_setUserinfo u t) None | None => go u None end
  | u_save_host =>
    match mark with Some _ => let! t := marked buffer mark p in go (Uri_setHost u t) mark | None => go u mark end
  | u_save_path => let! t := marked buffer mark p in go (Uri_setPath u t) None
  | u_save_query => let! t := marked buffer mark p in go (Uri_setQuery u t) None
  | u_save_fragment => let! t := marked buffer mark p in go (Uri_setFragment u t) None
  end.

(** The actions at the end of the input in a state. *)
Fixpoint eof_actions (table : list (list (Z * Z) * list uri_action)) (cs : Z) : list uri_action :=
  match table with
  | [] => []
  | (ranges, acts) :: table =>
    if existsb (fun r => (fst r <=? cs) && (cs <=? snd r)) ranges then acts else eof_actions table cs
  end.

(** @src uri.rl.cc:55-57 uri_parser_start, uri_parser_first_final *)
Definition uri_parser_start : Z := 451.
Definition uri_parser_first_final : Z := 451.

(** @src uri.rl.cc:67-88 Uri::Create
    The set-up, and the result of lines 10914 to 10920.  In the error state the actions
    at the end are not reached. *)
Definition Uri_Create (uristr : bytes) : outcome (option Uri) :=
  let! (cs, p, s) := run_machine (uri_act uristr) utable false uri_parser_start 0 uristr (Uri_new, None) in
  if cs =? 0 then Ok None else
  let! ((u, _), _) := run_actions (uri_act uristr) (eof_actions ueof cs) p s in
  if uri_parser_first_final <=? cs then Ok (Some u) else Ok None.
