(* ===== verification/HttpClient.v ===== *)
(** * The functions of the HTTP client ([http/http_connection.cc])

    [DoGet], [DoPost] and [DoRequest] of connections, and the forms of [doRequest] of the
    pool that take URIs.  [dial] is the result of looking up the host of a URI, creating
    a socket (over TLS when its first argument is true) and connecting it; the text of an
    error is left out of the result.  At the end a request is followed from the client
    function through the server's loop and back. *)

From S2P Require Import Prelude Text StringUtil HttpMessage Ragel HttpParser HttpClientParser HttpWire HttpClientWire Stream.
From S2P Require Import Servlet HttpSession HttpConnection HttpPool Uri.
From Stdlib Require Import ZArith Lia List String.
From stdpp Require Import base tactics list numbers option gmap.

Open Scope Z_scope.
Open Scope list_scope.

(** How far opening a connection gets: there is no address for the host, no socket, no
    connection, or a stream. *)
Inductive dialled (S : Type) :=
| NoAddress
| NoSocket
| NotConnected
| Connected (st : S).
Arguments NoAddress {S}.
Arguments NoSocket {S}.
Arguments NotConnected {S}.
Arguments Connected {S} st.

Section client.
Context {S : Type} {SO : StreamOps S}.
Context (buff_size : Z) (lexical_cast : bytes -> option Z).
Context (dial : bool -> Uri -> dialled S).
Implicit Types st : S.

(** @src http/http_connection.cc:287-331 HttpConnection::DoRequest
    The stream is the one the connection had when the function returns; the connection
    is then destroyed. *)
Definition HttpConnection_DoRequest (fuel : nat) (req : HttpRequest) (uri : Uri) (h : httpclient_parser) :
    outcome (HttpError * option HttpResponse * option S) :=
  let is_ssl := bool_decide (u_scheme uri = str "https") in
  match dial is_ssl uri with
  | NoAddress => Ok (INVALID_HOST, None, None)
  | NoSocket => Ok (CREATE_SOCKET_ERROR, None, None)
  | NotConnected => Ok (CONNECT_FAIL, None, None)
  | Connected st =>
    let! (rt, st) := HttpConnection_sendRequest st req in
    if rt =? 0 then Ok (SEND_CLOSE_BY_PEER, None, Some st)
    else if rt <? 0 then Ok (SEND_SOCKET_ERROR, None, Some st)
    else
      let! (rsp, st) := HttpConnection_recvResponse buff_size lexical_cast fuel st h in
      match rsp with
      | None => Ok (TIMEOUT, None, Some st)
      | Some rsp => Ok (OK, Some rsp, Some st)
      end
  end.

(** @src http/http_connection.cc:256-285 HttpConnection::DoRequest *)
Definition HttpConnection_DoRequest_method (fuel : nat) (method : Z) (uri : Uri) (headers : list (bytes * bytes)) (body : bytes)
    (h : httpclient_parser) : outcome (HttpError * option HttpResponse * option S) :=
  HttpConnection_DoRequest fuel
    (HttpConnection_makeRequest method (Uri_getPath uri) (u_query uri) (u_fragment uri) (u_host uri) headers body) uri h.

(** @src http/http_connection.cc:243-254 HttpConnection::DoRequest *)
Definition HttpConnection_DoRequest_url (fuel : nat) (method : Z) (url : bytes) (headers : list (bytes * bytes)) (body : bytes)
    (h : httpclient_parser) : outcome (HttpError * option HttpResponse * option S) :=
  let! uri := Uri_Create url in
  match uri with
  | None => Ok (INVALID_URL, None, None)
  | Some uri => HttpConnection_DoRequest_method fuel method uri headers body h
  end.

(** @src http/http_connection.cc:208-217 HttpConnection::DoGet
    The text is parsed first, with the error of [DoRequest]; the form that takes a URI
    (lines 219-223) is [DoRequest] with the method. *)
Definition HttpConnection_DoGet (fuel : nat) (url : bytes) (headers : list (bytes * bytes)) (body : bytes) (h : httpclient_parser) :
    outcome (HttpError * option HttpResponse * option S) :=
  let! uri := Uri_Create url in
  match uri with
  | None => Ok (INVALID_URL, None, None)
  | Some uri => HttpConnection_DoRequest_method fuel GET uri headers body h
  end.

(** @src http/http_connection.cc:225-241 HttpConnection::DoPost *)
Definition HttpConnection_DoPost (fuel : nat) (url : bytes) (headers : list (bytes * bytes)) (body : bytes) (h : httpclient_parser) :
    outcome (HttpError * option HttpResponse * option S) :=
  let! uri := Uri_Create url in
  match uri with
  | None => Ok (INVALID_URL, None, None)
  | Some uri => HttpConnection_DoRequest_method fuel POST uri headers body h
  end.

(** @src http/http_connection.cc:333-346 HttpConnectionPool::Create
    A URI that is not valid is reported and used all the same. *)
Definition HttpConnectionPool_Create (uri vhost : bytes) (max_size max_alive_time max_request : Z) : outcome (@HttpConnectionPool S) :=
  let! turi := Uri_Create uri in
  deref turi (fun turi =>
  Ok (HttpConnectionPool_new (u_host turi) vhost (Uri_getPort turi) (bool_decide (u_scheme turi = str "https"))
        max_size max_alive_time max_request)).

(** @src http/http_connection.cc:508-513 HttpConnectionPool::doRequest
    The text that [doGet], [doPost] (lines 437-442 and 456-461) and [doRequest] make of
    a URI. *)
Definition request_target (uri : Uri) : bytes :=
  Uri_getPath uri ++ opt_part (str "?") (u_query uri) ++ opt_part (str "#") (u_fragment uri).

Context (connected : S -> bool).

(** @src http/http_connection.cc:503-515 HttpConnectionPool::doRequest *)
Definition HttpConnectionPool_doRequest_uri (fuel : nat) (pool : @HttpConnectionPool S) (method : Z) (uri : Uri)
    (headers : list (bytes * bytes)) (body : bytes) (now1 now2 : Z) (conn : option S) (h : httpclient_parser) :=
  HttpConnectionPool_doRequest connected buff_size lexical_cast fuel pool
    (HttpConnectionPool_makeRequest pool method (request_target uri) headers body) now1 now2 conn h.

(** @src http/http_connection.cc:426-443 HttpConnectionPool::doGet *)
Definition HttpConnectionPool_doGet_uri (fuel : nat) (pool : @HttpConnectionPool S) (uri : Uri) (headers : list (bytes * bytes)) (body : bytes)
    (now1 now2 : Z) (conn : option S) (h : httpclient_parser) :=
  HttpConnectionPool_doRequest connected buff_size lexical_cast fuel pool
    (HttpConnectionPool_makeRequest pool GET (request_target uri) headers body) now1 now2 conn h.

(** @src http/http_connection.cc:445-462 HttpConnectionPool::doPost *)
Definition HttpConnectionPool_doPost_uri (fuel : nat) (pool : @HttpConnectionPool S) (uri : Uri) (headers : list (bytes * bytes)) (body : bytes)
    (now1 now2 : Z) (conn : option S) (h : httpclient_parser) :=
  HttpConnectionPool_doRequest connected buff_size lexical_cast fuel pool
    (HttpConnectionPool_makeRequest pool POST (request_target uri) headers body) now1 now2 conn h.

End client.

(** ** The pool's requests for URIs *)

(** The request in which the target is divided into its parts. *)
Definition with_target (req : HttpRequest) (uri : Uri) : HttpRequest :=
  HttpRequest_setFragment (HttpRequest_setQuery (HttpRequest_setPath req (Uri_getPath uri)) (u_query uri)) (u_fragment uri).

(** The pool puts the whole target into the path of the request, the server finds the
    three parts: both requests are the same text. *)
Lemma request_target_dump req uri :
  q_query req = [] -> q_fragment req = [] ->
  HttpRequest_dump (HttpRequest_setPath req (request_target uri)) = HttpRequest_dump (with_target req uri).
Proof.
  destruct req as [m v c w pf p q f b hd ps ck]. cbn [q_query q_fragment]. intros -> ->.
  unfold HttpRequest_dump, with_target, request_target. cbn. by rewrite <- !app_assoc.
Qed.

(** An invalid URI ends in the dereference of a null pointer. *)
Lemma HttpConnectionPool_Create_invalid :
  HttpConnectionPool_Create (S := greedy) (str "http://a b") [] 10 30000 100 = UB.
Proof. vm_compute. reflexivity. Qed.

(** ** From the client to the servlet and back *)

Section served.
Context {S : Type} {SO : StreamOps S} {SS : StreamSpec S}.
Context (buff_size : Z) (lexical_cast : bytes -> option Z) (fnmatch : bytes -> bytes -> bool).
Context (dial : bool -> Uri -> dialled S).
Implicit Types c st : S.
Hypothesis lexical_cast_dec : forall n, 0 <= n < 2 ^ 31 -> lexical_cast (dec n) = Some n.
Hypothesis buff_size_ok : 0 < buff_size < 2 ^ 31.

(** The next read of the stream brings at least as many bytes as the head has. *)
Definition brings (st : S) (head : bytes) : Prop := Z.of_nat (length head) <= (stream_read st buff_size).1.1.

(** The response the server hands to the servlet. *)
Definition fresh_response (name : bytes) (req : HttpRequest) : HttpResponse :=
  HttpResponse_setHeader (HttpResponse_new (q_version req) true) (str "Server") name.

(** The client's half of an exchange. *)
Lemma DoRequest_ok fuel uri req h c rsp :
  dial (bool_decide (u_scheme uri = str "https")) uri = Connected c ->
  0 < Z.of_nat (length (HttpRequest_dump req)) < 2 ^ 31 ->
  response_ok rsp = true -> h_sorted (p_headers rsp) -> h_find (str "content-length") (p_headers rsp) = None ->
  Z.of_nat (length (HttpResponse_dump rsp)) < 2 ^ 31 ->
  incoming c = HttpResponse_dump rsp -> (forall c1, incoming c1 = incoming c -> brings c1 (sent_head rsp)) ->
  exists c', HttpConnection_DoRequest buff_size lexical_cast dial (Datatypes.S fuel) req uri h =
      Ok (OK, Some (received_response rsp), Some c') /\ outgoing c' = outgoing c ++ HttpRequest_dump req.
Proof.
  intros Hd Hq Hok Hs Hc Hlen Hin Hhead. unfold HttpConnection_DoRequest. rewrite Hd. unfold HttpConnection_sendRequest.
  destruct (writeFixSize_ok c (HttpRequest_dump req)) as (c1 & -> & Ho1 & Hi1); [lia|]. cbn [obind].
  rewrite (proj2 (Z.eqb_neq _ 0)), (proj2 (Z.ltb_ge _ 0)) by lia.
  destruct (recvResponse_ok buff_size lexical_cast lexical_cast_dec buff_size_ok fuel c1 h rsp []) as (c' & lost & -> & _ & Ho & _);
    [done..|by rewrite app_nil_r, Hi1|by apply Hhead|].
  exists c'. split; [done|congruence].
Qed.

(** C15: a request served, on streams whose first read brings the whole head (request
    line and fields; the body may come in any pieces).  The client function sends the
    request; the server's loop on those bytes parses them, dispatches the request by its
    path and sends what the servlet answers; the client returns that response with [OK].
    The servlet sees the request as it was made, with the connection and length fields of
    its text.  The request and the response are well formed ([request_ok],
    [response_ok]), name no content length themselves and have less than 2^31 bytes.
    (A head that comes in two reads is not put together: [split_path_is_cut],
    [split_query_throws], [split_field_is_dropped].) *)
Theorem http_request_served fuel uri req h c st dispatch slt name hs rt q' rsp :
  dial (bool_decide (u_scheme uri = str "https")) uri = Connected c ->
  request_ok req = true -> q_websocket req = false -> h_sorted (q_headers req) ->
  h_find (str "content-length") (q_headers req) = None -> Z.of_nat (length (HttpRequest_dump req)) < 2 ^ 31 ->
  ServletDispatch_getMatchedServlet fnmatch dispatch (q_path req) = Some slt ->
  (forall s, Servlet_handle slt (received req) (fresh_response name req) s = Ok (rt, q', rsp, s)) ->
  response_ok rsp = true -> h_sorted (p_headers rsp) -> h_find (str "content-length") (p_headers rsp) = None ->
  Z.of_nat (length (HttpResponse_dump rsp)) < 2 ^ 31 ->
  incoming st = HttpRequest_dump req -> brings st (request_head req) ->
  incoming c = HttpResponse_dump rsp -> (forall c1, incoming c1 = incoming c -> brings c1 (sent_head rsp)) ->
  (exists st', HttpServer_handleClient buff_size lexical_cast fnmatch (Datatypes.S fuel) st dispatch name false hs = Ok (stream_close st') /\
     outgoing st' = outgoing st ++ HttpResponse_dump rsp) /\
  (exists c', HttpConnection_DoRequest buff_size lexical_cast dial (Datatypes.S fuel) req uri h =
       Ok (OK, Some (received_response rsp), Some c') /\ outgoing c' = outgoing c ++ HttpRequest_dump req).
Proof.
  intros Hd Hok Hw Hs Hc Hlen Hmatch Hslt Rok Rs Rc Rlen Hin Hhead Cin Rhead. split.
  - destruct (recvRequest_ok buff_size lexical_cast lexical_cast_dec buff_size_ok fuel st (hs fuel) req []) as (st1 & lost & E & _ & Ho & _);
      [done..|by rewrite app_nil_r|done|].
    cbn [HttpServer_handleClient]. rewrite E. cbn [obind negb]. rewrite orb_true_r. unfold ServletDispatch_handle.
    change (q_path (received req)) with (q_path req). change (q_version (received req)) with (q_version req).
    rewrite Hmatch, Hslt. cbn [obind]. unfold HttpSession_sendResponse.
    destruct (writeFixSize_ok st1 (HttpResponse_dump rsp) Rlen) as (st' & -> & Ho1 & _). cbn [obind orb].
    exists st'. split; [done|congruence].
  - apply DoRequest_ok; try done. split; [|done]. rewrite (dump_head req Hw), length_app.
    pose proof (request_head_pos req). lia.
Qed.

End served.

(** A form posted to the servlet at [/a/b], which answers "hello". *)
Lemma http_request_served_witness :
  let uri := mkUri (str "http") [] (str "example.com") (str "/a/b") (str "x=1") [] 0 in
  let hello : Servlet := HttpServlet (fun q r s => Ok (0, q, HttpResponse_setBody r (str "hello"), s)) in
  let dispatch := ServletDispatch_addServlet ServletDispatch_new (str "/a/b") (str "hello") (Some hello) in
  let rsp := HttpResponse_setBody (fresh_response (str "x/1") sample_request) (str "hello") in
  let c := mkGreedy (HttpResponse_dump rsp) [] false in
  let st := mkGreedy (HttpRequest_dump sample_request) [] false in
  exists c', HttpConnection_DoRequest 4096 digits_cast (fun _ _ => Connected c) 1 sample_request uri no_client =
    Ok (OK, Some (received_response rsp), Some c') /\
  exists st', HttpServer_handleClient 4096 digits_cast (fun _ _ => false) 1 st dispatch (str "x/1") false
    (fun _ => mkParser 0 0 0 0 0 0 0 0 false false false) = Ok (stream_close st').
Proof.
  cbv zeta.
  destruct (http_request_served 4096 digits_cast (fun _ _ => false)
    (fun _ _ => Connected (mkGreedy (HttpResponse_dump (HttpResponse_setBody (fresh_response (str "x/1") sample_request) (str "hello"))) [] false))
    digits_cast_dec ltac:(lia) 0
    (mkUri (str "http") [] (str "example.com") (str "/a/b") (str "x=1") [] 0) sample_request no_client
    (mkGreedy (HttpResponse_dump (HttpResponse_setBody (fresh_response (str "x/1") sample_request) (str "hello"))) [] false)
    (mkGreedy (HttpRequest_dump sample_request) [] false)
    (ServletDispatch_addServlet ServletDispatch_new (str "/a/b") (str "hello")
       (Some (HttpServlet (fun q r s => Ok (0, q, HttpResponse_setBody r (str "hello"), s)))))
    (HttpServlet (fun q r s => Ok (0, q, HttpResponse_setBody r (str "hello"), s))) (str "x/1")
    (fun _ => mkParser 0 0 0 0 0 0 0 0 false false false) 0 (received sample_request)
    (HttpResponse_setBody (fresh_response (str "x/1") sample_request) (str "hello")))
    as [(st' & H1 & _) (c' & H2 & _)].
  7: { unfold ServletDispatch_getMatchedServlet, ServletDispatch_addServlet. cbn [m_datas].
       change (q_path sample_request) with (str "/a/b"). rewrite lookup_insert_eq. reflexivity. }
  7: { intros s. reflexivity. }
  4, 8: repeat constructor.
  all: try match goal with
    | |- brings _ _ _ => unfold brings; rewrite greedy_prompt by reflexivity; vm_compute; discriminate
    | |- forall c1, _ -> brings _ c1 _ => intros c1 Hc1; unfold brings; rewrite greedy_prompt, Hc1 by reflexivity; vm_compute; discriminate
    end.
  1-10: first [reflexivity|discriminate].
  exists c'. split; [exact H2|]. by exists st'.
Defined.
