(* ===== verification/WsServer.v ===== *)
(** * WebSocket connections and servers ([http/ws_session.cc], [http/ws_connection.cc],
    [http/ws_servlet.cc], [http/ws_server.cc])

    The handshake from both sides, the servlets, and the loop that serves a client.
    [sha1sum] is OpenSSL's digest, [cast_int] is Boost's conversion to [int]; the calls
    a server makes into its servlet are part of its result. *)

From S2P Require Import Prelude Text StringUtil Endian HashUtil HttpMessage Ragel HttpParser HttpClientParser HttpWire HttpClientWire Stream.
From S2P Require Import WebSocket Servlet HttpSession HttpConnection HttpPool Uri HttpClient.
From Stdlib Require Import ZArith Lia List String.
From stdpp Require Import base tactics list numbers option gmap.

Open Scope Z_scope.
Open Scope list_scope.

(** @src util/hash_util.cc:556-567 random_string
    [rand i] is the value of the [i]-th call of [rand()]. *)
Definition random_string (rand : nat -> Z) (len : nat) (chars : bytes) : bytes :=
  match chars with
  | [] => []
  | _ => map (fun i => nth (Z.to_nat (rand i mod i32 (Z.of_nat (length chars)))) chars 0) (seq 0 len)
  end.

(** @src util/hash_util.h:53-54 random_string *)
Definition random_chars : bytes := str "0123456789abcdefghijklmnopqrstuvwxyzABCDEFGHIJKLMNOPQRSTUVWXYZ".

Definition SWITCHING_PROTOCOLS : Z := 101.

Section shake.
Context {S : Type} {SO : StreamOps S}.
Context (buff_size : Z) (lexical_cast cast_int : bytes -> option Z) (sha1sum : bytes -> bytes).
Implicit Types st : S.

(** What the server answers to a key. *)
Definition ws_accept (key : bytes) : bytes := base64encode (sha1sum (key ++ str "258EAFA5-E914-47DA-95CA-C5AB0DC85B11")).

(** @src http/ws_session.cc:48-54 WSSession::handleShake
    The response. *)
Definition shake_response (req : HttpRequest) (v : bytes) : HttpResponse :=
  let rsp := HttpRequest_createResponse req in
  let rsp := HttpResponse_setStatus rsp SWITCHING_PROTOCOLS in
  let rsp := HttpResponse_setWebsocket rsp true in
  let rsp := HttpResponse_setReason rsp (str "Web Socket Protocol Handshake") in
  let rsp := HttpResponse_setHeader rsp (str "Upgrade") (str "websocket") in
  let rsp := HttpResponse_setHeader rsp (str "Connection") (str "Upgrade") in
  HttpResponse_setHeader rsp (str "Sec-WebSocket-Accept") v.

(** @src http/ws_session.cc:19-65 WSSession::handleShake *)
Definition WSSession_handleShake (fuel : nat) st (h : http_parser) : outcome (option HttpRequest * S) :=
  let! (req, st) := HttpSession_recvRequest buff_size lexical_cast fuel st h in
  match req with
  | None => Ok (None, st)
  | Some req =>
    if negb (strcaseeq (HttpRequest_getHeader req (str "Upgrade") []) (str "websocket")) then Ok (None, st)
    else if negb (strcaseeq (HttpRequest_getHeader req (str "Connection") []) (str "Upgrade")) then Ok (None, st)
    else if negb (HttpRequest_getHeaderAs cast_int req (str "Sec-webSocket-Version") 0 =? 13) then Ok (None, st)
    else
      let key := HttpRequest_getHeader req (str "Sec-WebSocket-Key") [] in
      if bool_decide (key = []) then Ok (None, st) else
      let req := HttpRequest_setWebsocket req true in
      let! (_, st) := HttpSession_sendResponse st (shake_response req (ws_accept key)) in
      Ok (Some req, st)
  end.

(** @src http/ws_connection.cc:52-61 WSConnection::Create
    The loop over the headers given: the request, [has_host] and [has_conn]. *)
Fixpoint ws_add_headers (req : HttpRequest) (has_host has_conn : bool) (headers : list (bytes * bytes)) : HttpRequest * bool * bool :=
  match headers with
  | [] => (req, has_host, has_conn)
  | (k, v) :: headers =>
    let '(has_host, has_conn) :=
      if strcaseeq k (str "connection") then (has_host, true)
      else if negb has_host && strcaseeq k (str "host") then (negb (bool_decide (v = [])), has_conn)
      else (has_host, has_conn) in
    ws_add_headers (HttpRequest_setHeader req k v) has_host has_conn headers
  end.

(** @src http/ws_connection.cc:45-71 WSConnection::Create *)
Definition WSConnection_makeRequest (uri : Uri) (headers : list (bytes * bytes)) (rand : nat -> Z) : HttpRequest :=
  let req := HttpRequest_setMethod (HttpRequest_setFragment (HttpRequest_setQuery (HttpRequest_setPath
    (HttpRequest_new 0x11 true) (Uri_getPath uri)) (u_query uri)) (u_fragment uri)) GET in
  let '(req, has_host, has_conn) := ws_add_headers req false false headers in
  let req := HttpRequest_setWebsocket req true in
  let req := if has_conn then req else HttpRequest_setHeader req (str "connection") (str "Upgrade") in
  let req := HttpRequest_setHeader req (str "Upgrade") (str "websocket") in
  let req := HttpRequest_setHeader req (str "Sec-webSocket-Version") (str "13") in
  let req := HttpRequest_setHeader req (str "Sec-webSocket-Key") (base64encode (random_string rand 16 random_chars)) in
  if has_host then req else HttpRequest_setHeader req (str "Host") (u_host uri).

(** The codes of the results: those of [HttpResult::Error], or 50. *)
Inductive ws_error := HttpErr (e : HttpError) | NotWebsocketServer.

Context (dial : Uri -> dialled S).

(** @src http/ws_connection.cc:22-93 WSConnection::Create
    The second part of the result is the new connection; [dial] opens a plain TCP
    connection. *)
Definition WSConnection_Create (fuel : nat) (uri : Uri) (headers : list (bytes * bytes)) (rand : nat -> Z) (h : httpclient_parser) :
    outcome (ws_error * option HttpResponse * option S) :=
  match dial uri with
  | NoAddress => Ok (HttpErr INVALID_HOST, None, None)
  | NoSocket => Ok (HttpErr CREATE_SOCKET_ERROR, None, None)
  | NotConnected => Ok (HttpErr CONNECT_FAIL, None, None)
  | Connected st =>
    let! (rt, st) := HttpConnection_sendRequest st (WSConnection_makeRequest uri headers rand) in
    if rt =? 0 then Ok (HttpErr SEND_CLOSE_BY_PEER, None, None)
    else if rt <? 0 then Ok (HttpErr SEND_SOCKET_ERROR, None, None)
    else
      let! (rsp, st) := HttpConnection_recvResponse buff_size lexical_cast fuel st h in
      match rsp with
      | None => Ok (HttpErr TIMEOUT, None, None)
      | Some rsp =>
        if negb (p_status rsp =? SWITCHING_PROTOCOLS) then Ok (NotWebsocketServer, Some rsp, None)
        else Ok (HttpErr OK, Some rsp, Some st)
      end
  end.

(** @src http/ws_connection.cc:10-20 WSConnection::Create *)
Definition WSConnection_Create_url (fuel : nat) (url : bytes) (headers : list (bytes * bytes)) (rand : nat -> Z) (h : httpclient_parser) :
    outcome (ws_error * option HttpResponse * option S) :=
  let! uri := Uri_Create url in
  match uri with
  | None => Ok (HttpErr INVALID_URL, None, None)
  | Some uri => WSConnection_Create fuel uri headers rand h
  end.

(** @src http/ws_connection.cc:95-97 WSConnection::recvMessage *)
Definition WSConnection_recvMessage (fuel : nat) st (max : Z) := WSRecvMessage fuel st true max 0 [].

(** @src http/ws_connection.cc:99-105 WSConnection::sendMessage *)
Definition WSConnection_sendMessage st (opcode : Z) (data : bytes) (fin : bool) (rnd : Z) := WSSendMessage st opcode data true fin rnd.

(** @src http/ws_session.cc:86-88 WSSession::recvMessage *)
Definition WSSession_recvMessage (fuel : nat) st (max : Z) := WSRecvMessage fuel st false max 0 [].

(** @src http/ws_session.cc:90-96 WSSession::sendMessage *)
Definition WSSession_sendMessage st (opcode : Z) (data : bytes) (fin : bool) := WSSendMessage st opcode data false fin 0.

(** ** Servlets *)

(** @src http/ws_servlet.cc:6-38 FunctionWSServlet
    The three callbacks, each of which may be empty. *)
Definition FunctionWSServlet (cb : option (HttpRequest -> Z * bytes -> S -> outcome (Z * HttpRequest * S)))
    (connect_cb close_cb : option (HttpRequest -> S -> outcome (Z * HttpRequest * S))) : @WSServlet S :=
  let call f := fun header session => match f with Some f => f header session | None => Ok (0, header, session) end in
  mkWSServlet (call connect_cb) (call close_cb)
    (fun header msg session => match cb with Some f => f header msg session | None => Ok (0, header, session) end).

(** @src http/ws_servlet.cc:44-49 WSServletDispatch::addServlet *)
Definition WSServletDispatch_addServlet d (uri : bytes) cb connect_cb close_cb : @ServletDispatch S :=
  ServletDispatch_addServlet d uri (str "FunctionWSServlet") (Some (IsWSServlet (FunctionWSServlet cb connect_cb close_cb))).

(** @src http/ws_servlet.cc:51-56 WSServletDispatch::addGlobServlet *)
Definition WSServletDispatch_addGlobServlet d (uri : bytes) cb connect_cb close_cb : @ServletDispatch S :=
  ServletDispatch_addGlobServlet d uri (str "FunctionWSServlet") (Some (IsWSServlet (FunctionWSServlet cb connect_cb close_cb))).

Context (fnmatch : bytes -> bytes -> bool).

(** @src http/ws_servlet.cc:58-61 WSServletDispatch::getWSServlet
    The cast of a servlet of another class is null. *)
Definition WSServletDispatch_getWSServlet (d : @ServletDispatch S) (uri : bytes) : option (@WSServlet S) :=
  match ServletDispatch_getMatchedServlet fnmatch d uri with Some (IsWSServlet slt) => Some slt | _ => None end.

(** ** The server *)

(** The calls of a servlet. *)
Inductive ws_call := OnConnect | OnMessage (msg : Z * bytes) | OnClose.

(** @src http/ws_server.cc:33-43 WSServer::handleClient
    The loop; [fuel] bounds the number of frames. *)
Fixpoint ws_serve (fuel : nat) (servlet : @WSServlet S) (max : Z) (header : HttpRequest) st : outcome (list ws_call * HttpRequest * S) :=
  match fuel with
  | O => NoFuel
  | Datatypes.S fuel' =>
    let! (msg, st) := WSSession_recvMessage fuel st max in
    match msg with
    | None => Ok ([], header, st)
    | Some msg =>
      let! (rt, header, st) := ws_handle servlet header msg st in
      if negb (rt =? 0) then Ok ([OnMessage msg], header, st) else
      let! (calls, header, st) := ws_serve fuel' servlet max header st in
      Ok (OnMessage msg :: calls, header, st)
    end
  end.

(** @src http/ws_server.cc:15-47 WSServer::handleClient *)
Definition WSServer_handleClient (fuel : nat) (m_dispatch : @ServletDispatch S) (max : Z) (h : http_parser) st : outcome (list ws_call * S) :=
  let! (header, st) := WSSession_handleShake fuel st h in
  match header with
  | None => Ok ([], stream_close st)
  | Some header =>
    match WSServletDispatch_getWSServlet m_dispatch (q_path header) with
    | None => Ok ([], stream_close st)
    | Some servlet =>
      let! (rt, header, st) := ws_onConnect servlet header st in
      if negb (rt =? 0) then Ok ([OnConnect], stream_close st) else
      let! (calls, header, st) := ws_serve fuel servlet max header st in
      let! (_, _, st) := ws_onClose servlet header st in
      Ok (OnConnect :: calls ++ [OnClose], stream_close st)
    end
  end.

End shake.

(** ** Handshakes *)

Lemma ws_dump r : q_websocket r = true -> q_body r = [] -> HttpRequest_dump r = head_with r (q_headers r).
Proof.
  intros Hw Hb. unfold HttpRequest_dump, head_with, request_line, connection_line, header_lines. rewrite Hw, Hb.
  cbn [negb andb app body_part]. by rewrite <- !app_assoc.
Qed.

Lemma field_ok_set k v m : field_ok (k, v) = true -> forallb field_ok m = true -> forallb field_ok (h_set k v m) = true.
Proof.
  intros Hkv. induction m as [|[k' v'] m IH]; cbn [smap_set forallb]; [by rewrite Hkv|]. intros [H1 H2]%andb_true_iff.
  repeat case_match; cbn [forallb]; rewrite ?Hkv, ?H1, ?H2, ?IH by done; [|done|done].
  unfold field_ok in *. cbn [fst snd] in *. apply andb_true_iff in H1 as [-> _]. by apply andb_true_iff in Hkv as [_ ->].
Qed.

Lemma fold_set_ok headers : forall m,
  forallb field_ok headers = true -> forallb field_ok m = true ->
  forallb field_ok (fold_left (fun m p => h_set p.1 p.2 m) headers m) = true.
Proof.
  induction headers as [|[k v] headers IH]; intros m; cbn [fold_left forallb]; [done|]. intros [H1 H2]%andb_true_iff Hm.
  by apply IH, field_ok_set.
Qed.

Lemma fold_set_sorted headers : forall m, h_sorted m -> h_sorted (fold_left (fun m p => h_set p.1 p.2 m) headers m).
Proof. induction headers as [|p headers IH]; intros m Hm; cbn [fold_left]; [done|]. by apply IH, smap_set_sorted. Qed.

(** No field of this name is among the headers. *)
Definition lacks (name : bytes) (headers : list (bytes * bytes)) : bool := forallb (fun p => negb (strcaseeq p.1 name)) headers.

Lemma lacks_find name headers : lacks name headers = true -> h_find name headers = None.
Proof.
  induction headers as [|[k v] headers IH]; [done|]. unfold lacks. cbn [forallb smap_find fst]. intros [H1%negb_true_iff H2]%andb_true_iff.
  unfold key_eq. unfold strcaseeq in H1. apply bool_decide_eq_false in H1. rewrite bool_decide_eq_false_2 by congruence. by apply IH.
Qed.

Lemma lacks_rev name headers : lacks name headers = true -> lacks name (rev headers) = true.
Proof. unfold lacks. rewrite !forallb_forall. intros H p Hp. apply H. by apply in_rev. Qed.

Lemma lacks_fold name headers : lacks name headers = true -> h_find name (fold_left (fun m p => h_set p.1 p.2 m) headers []) = None.
Proof. intros H. by rewrite find_fold_set, lacks_find by (by apply lacks_rev). Qed.

Lemma find_refold key m : h_sorted m -> h_find key (fold_left (fun m p => h_set p.1 p.2 m) m []) = h_find key m.
Proof. intros Hs. rewrite find_fold_set, find_rev by done. by destruct (h_find key m). Qed.

Lemma ws_add_headers_spec headers : forall req has_host has_conn,
  lacks (str "connection") headers = true ->
  exists has_host', ws_add_headers req has_host has_conn headers =
    (HttpRequest_setHeaders req (fold_left (fun m p => h_set p.1 p.2 m) headers (q_headers req)), has_host', has_conn).
Proof.
  induction headers as [|[k v] headers IH]; intros req hh hc; [by exists hh; destruct req|].
  unfold lacks. cbn [forallb fst]. intros [H1%negb_true_iff H2]%andb_true_iff. cbn [ws_add_headers fold_left fst snd]. rewrite H1.
  destruct (negb hh && strcaseeq k (str "host")).
  - destruct (IH (HttpRequest_setHeader req k v) (negb (bool_decide (v = []))) hc H2) as (hh' & ->). by exists hh'.
  - destruct (IH (HttpRequest_setHeader req k v) hh hc H2) as (hh' & ->). by exists hh'.
Qed.

(** The texts of keys. *)
Lemma base64_text_ok c : base64_text c = true -> value_char c = true /\ first_char c = true /\ c ∉ [32; 9].
Proof.
  assert (forallb (fun c => value_char c && first_char c && negb (bool_decide (c ∈ [32; 9]))) (chr "=" :: base64_alphabet) = true) as H
    by (vm_compute; reflexivity).
  unfold base64_text. intros Hc%bool_decide_eq_true. rewrite forallb_forall in H. apply list_elem_of_In, H in Hc.
  apply andb_true_iff in Hc as [[H1 H2]%andb_true_iff H3%negb_true_iff%bool_decide_eq_false]. done.
Qed.

Lemma random_string_bytes rand len : Forall is_byte (random_string rand len random_chars) /\ length (random_string rand len random_chars) = len.
Proof.
  change (random_string rand len random_chars) with (map (fun i => nth (Z.to_nat (rand i mod 62)) random_chars 0) (seq 0 len)).
  rewrite length_map, length_seq. split; [|done]. apply List.Forall_forall. intros x (i & <- & _)%in_map_iff.
  assert (forallb (fun c => (0 <=? c) && (c <? 256)) random_chars = true) as H by (vm_compute; reflexivity).
  rewrite forallb_forall in H. assert (In (nth (Z.to_nat (rand i mod 62)) random_chars 0) random_chars) as Hin.
  { apply nth_In. change (length random_chars) with 62%nat. pose proof (Z.mod_pos_bound (rand i) 62). lia. }
  apply H in Hin. unfold is_byte. lia.
Qed.

Definition ws_key (rand : nat -> Z) : bytes := base64encode (random_string rand 16 random_chars).

Lemma base64_values data : Forall is_byte data -> value_ok (base64encode data) = true /\ (data <> [] -> rsp_value_ok (base64encode data) = true).
Proof.
  intros Hd. pose proof (base64encode_text data Hd) as H. pose proof (base64_roundtrip data Hd) as [_ Hl].
  destruct (base64encode data) as [|c w] eqn:E.
  { split; [done|]. intros Hne. exfalso. assert (0 < (length data + 2) / 3)%nat by (apply Nat.div_str_pos; destruct data; [done|cbn; lia]).
    change (length (@nil Z)) with 0%nat in Hl. lia. }
  cbn [forallb] in H. apply andb_true_iff in H as [Hc Hw]. destruct (base64_text_ok c Hc) as (V & F & N).
  assert (forallb value_char w = true) as Hv.
  { rewrite forallb_forall in *. intros x Hx. by apply base64_text_ok, Hw. }
  unfold value_ok, rsp_value_ok. cbn [forallb]. rewrite V, F, Hv. by rewrite bool_decide_eq_false_2 by done.
Qed.

Lemma ws_key_ok rand : value_ok (ws_key rand) = true /\ ws_key rand <> [].
Proof.
  destruct (random_string_bytes rand 16) as [Hb Hl]. unfold ws_key. split; [by apply base64_values|].
  pose proof (base64_roundtrip _ Hb) as [_ E]. rewrite Hl in E. intros E'. rewrite E' in E. done.
Qed.

(** A URI that can be asked for. *)
Definition ws_uri_ok (uri : Uri) : bool :=
  request_ok (HttpConnection_makeRequest GET (Uri_getPath uri) (u_query uri) (u_fragment uri) (u_host uri) [] []).

Lemma ws_request uri headers rand :
  ws_uri_ok uri = true -> forallb field_ok headers = true ->
  lacks (str "connection") headers = true -> lacks (str "content-length") headers = true ->
  exists m, WSConnection_makeRequest uri headers rand =
      mkRequest GET 0x11 true true 0 (Uri_getPath uri) (u_query uri) (u_fragment uri) [] m [] [] /\
    request_ok (WSConnection_makeRequest uri headers rand) = true /\ h_sorted m /\
    h_find (str "Upgrade") m = Some (str "websocket") /\ h_find (str "Connection") m = Some (str "Upgrade") /\
    h_find (str "Sec-webSocket-Version") m = Some (str "13") /\ h_find (str "Sec-WebSocket-Key") m = Some (ws_key rand) /\
    h_find (str "content-length") m = None.
Proof.
  intros Hu Hf Hc Hl. unfold WSConnection_makeRequest.
  edestruct ws_add_headers_spec as (hh & E); [exact Hc|]. rewrite E. clear E. fold (ws_key rand).
  set (m0 := fold_left _ headers _). destruct (ws_key_ok rand) as [Hk _].
  set (m1 := h_set (str "Sec-webSocket-Key") (ws_key rand) (h_set (str "Sec-webSocket-Version") (str "13")
    (h_set (str "Upgrade") (str "websocket") (h_set (str "connection") (str "Upgrade") m0)))).
  exists (if hh then m1 else h_set (str "Host") (u_host uri) m1).
  assert (forallb field_ok m0 = true) as F0 by (by apply fold_set_ok).
  assert (h_sorted m0) as S0 by (by apply fold_set_sorted).
  assert (h_find (str "content-length") m0 = None) as L0 by (by apply lacks_fold).
  assert (h_sorted m1) as S1 by (unfold m1; by repeat apply smap_set_sorted).
  assert (field_ok (str "Sec-webSocket-Key", ws_key rand) = true) as Fk by (unfold field_ok; cbn [fst snd]; by rewrite Hk).
  assert (forallb field_ok m1 = true) as F1 by (unfold m1; repeat (apply field_ok_set; [done|]); done).
  unfold ws_uri_ok, request_ok in Hu. apply andb_true_iff in Hu as [Hu Hhost].
  assert (field_ok (str "Host", u_host uri) = true) as Fh by (apply andb_true_iff in Hhost as [Hhost _]; exact Hhost).
  split; [by destruct hh|]. split.
  { unfold request_ok. apply andb_true_iff. split; [by destruct hh|]. destruct hh; [exact F1|]. by apply field_ok_set. }
  split; [by destruct hh; [|apply smap_set_sorted]|].
  assert (forall key, key_eq fold_case key (str "Host") = false ->
    h_find key (if hh then m1 else h_set (str "Host") (u_host uri) m1) = h_find key m1) as Hfind.
  { intros key Hkey. destruct hh; [done|]. by rewrite smap_find_set, Hkey. }
  rewrite !Hfind by done. clear Hfind. unfold m1. rewrite !smap_find_set. split_and!; [done..|].
  rewrite <- L0. reflexivity.
Qed.

(** The request that the server sees. *)
Definition ws_received (r : HttpRequest) : HttpRequest := HttpRequest_init (received_with r (q_headers r)).

Lemma ws_received_headers r : q_headers (ws_received r) = fold_left (fun m p => h_set p.1 p.2 m) (q_headers r) [].
Proof. unfold ws_received, HttpRequest_init. by destruct (HttpRequest_getHeader _ _ _). Qed.

Lemma ws_received_header r key def : h_sorted (q_headers r) -> HttpRequest_getHeader (ws_received r) key def = HttpRequest_getHeader r key def.
Proof. intros Hs. unfold HttpRequest_getHeader. by rewrite ws_received_headers, find_refold. Qed.

Lemma ws_received_line r : q_path (ws_received r) = q_path r /\ q_version (ws_received r) = q_version r /\
  q_query (ws_received r) = q_query r /\ q_fragment (ws_received r) = q_fragment r.
Proof. unfold ws_received, HttpRequest_init. by destruct (HttpRequest_getHeader _ _ _). Qed.

(** The text of the answer. *)
Definition shake_reason : bytes := str "Web Socket Protocol Handshake".
Definition shake_fields (v : bytes) : list (bytes * bytes) :=
  [(str "Connection", str "Upgrade"); (str "Sec-WebSocket-Accept", v); (str "Upgrade", str "websocket")].

Lemma shake_dump req v :
  q_version req = 0x11 -> HttpResponse_dump (shake_response req v) = rsp_head 0x11 SWITCHING_PROTOCOLS shake_reason (shake_fields v).
Proof.
  intros Hv. change (shake_response req v) with
    (mkResponse SWITCHING_PROTOCOLS (q_version req) (q_close req) true [] shake_reason (shake_fields v) []). rewrite Hv.
  unfold HttpResponse_dump, rsp_head, status_line, header_lines. cbn [p_status p_version p_reason p_headers p_websocket p_cookies p_body].
  change (dec (u32 SWITCHING_PROTOCOLS)) with (dec SWITCHING_PROTOCOLS).
  change (match shake_reason with [] => HttpStatusToString SWITCHING_PROTOCOLS | _ :: _ => shake_reason end) with shake_reason.
  cbn [connection_line body_part flat_map app negb andb]. by rewrite <- !app_assoc.
Qed.

Lemma shake_head_length v : (length (rsp_head 0x11 SWITCHING_PROTOCOLS shake_reason (shake_fields v)) = 111 + length v)%nat.
Proof.
  unfold rsp_head, shake_fields. cbn [flat_map]. unfold field_line. cbn [fst snd]. rewrite !length_app, Nat.add_comm.
  change (length (status_line 17 SWITCHING_PROTOCOLS shake_reason)) with 44%nat. cbn [length str map list_ascii_of_string crlf]. lia.
Qed.

Section handshake.
Context {S : Type} {SO : StreamOps S} {SS : StreamSpec S}.
Context (buff_size : Z) (lexical_cast cast_int : bytes -> option Z) (sha1sum : bytes -> bytes) (dial : Uri -> dialled S).
Implicit Types c st : S.
Hypothesis buff_size_ok : 0 < buff_size < 2 ^ 31.
(** Boost converts "13", and a SHA-1 digest has 20 bytes. *)
Hypothesis cast_13 : cast_int (str "13") = Some 13.
Hypothesis sha1_digest : forall m, Forall is_byte (sha1sum m) /\ length (sha1sum m) = 20%nat.

Lemma ws_accept_ok key : rsp_value_ok (ws_accept sha1sum key) = true /\ (length (ws_accept sha1sum key) = 28)%nat.
Proof.
  destruct (sha1_digest (key ++ str "258EAFA5-E914-47DA-95CA-C5AB0DC85B11")) as [Hb Hl]. unfold ws_accept. split.
  - apply base64_values; [done|]. intros E. by rewrite E in Hl.
  - destruct (base64_roundtrip _ Hb) as [_ ->]. by rewrite Hl.
Qed.

(** The header of a request without a body, and nothing of what follows it is kept. *)
Lemma recvRequest_ws fuel st h r rest :
  request_ok r = true -> h_sorted (q_headers r) -> h_find (str "content-length") (q_headers r) = None ->
  incoming st = head_with r (q_headers r) ++ rest -> Z.of_nat (length (head_with r (q_headers r))) <= (stream_read st buff_size).1.1 ->
  exists st' lost, HttpSession_recvRequest buff_size lexical_cast (Datatypes.S fuel) st h = Ok (Some (ws_received r), st') /\
    rest = lost ++ incoming st' /\ outgoing st' = outgoing st /\
    Z.of_nat (length lost) = (stream_read st buff_size).1.1 - Z.of_nat (length (head_with r (q_headers r))).
Proof.
  intros Hok Hs Hc Hin Hk. pose proof (head_with_pos r (q_headers r)) as Hpos.
  destruct (read_ok st buff_size) as (k & st1 & Hk1 & Hk2 & Hr & Hi & Ho); [lia| |].
  { rewrite Hin. intros E. apply (f_equal length) in E. rewrite length_app in E. cbn in E. lia. }
  rewrite Hr in *. cbn [fst] in *. rewrite Hin in Hi, Hk1. rewrite length_app in Hk1. rewrite drop_app_ge in Hi by lia.
  assert (forallb field_ok (q_headers r) = true) as Hf by (unfold request_ok in Hok; by apply andb_true_iff in Hok as [_ Hok]).
  destruct (recv_head_with buff_size buff_size_ok fuel st h r (q_headers r) rest k st1) as (s' & E & Hd); [done..|lia|done|].
  exists st1, (take (k - length (head_with r (q_headers r))) rest). unfold HttpSession_recvRequest. rewrite E. cbn [obind].
  unfold recv_body, HttpRequestParser_getContentLength, getAs. rewrite Hd. cbn [received_with q_headers]. rewrite find_refold, Hc by done.
  change (i64 0 <=? 0) with true. cbn match. split_and!; [done|by rewrite Hi, take_drop|done|]. rewrite length_take. lia.
Qed.

(** The server accepts the request of [Create]. *)
Lemma handleShake_ok fuel st h uri headers rand rest :
  let r := WSConnection_makeRequest uri headers rand in
  ws_uri_ok uri = true -> forallb field_ok headers = true ->
  lacks (str "connection") headers = true -> lacks (str "content-length") headers = true ->
  incoming st = HttpRequest_dump r ++ rest -> Z.of_nat (length (HttpRequest_dump r)) <= (stream_read st buff_size).1.1 ->
  exists req st' lost, WSSession_handleShake buff_size lexical_cast cast_int sha1sum (Datatypes.S fuel) st h = Ok (Some req, st') /\
    q_path req = Uri_getPath uri /\ q_query req = u_query uri /\ q_fragment req = u_fragment uri /\ q_websocket req = true /\
    (forall key def, HttpRequest_getHeader req key def = HttpRequest_getHeader r key def) /\
    rest = lost ++ incoming st' /\ Z.of_nat (length lost) = (stream_read st buff_size).1.1 - Z.of_nat (length (HttpRequest_dump r)) /\
    outgoing st' = outgoing st ++ HttpResponse_dump (shake_response req (ws_accept sha1sum (ws_key rand))) /\ q_version req = 0x11.
Proof.
  intros r Hu Hf Hc Hl. destruct (ws_request uri headers rand Hu Hf Hc Hl) as (m & Er & Hok & Hs & F1 & F2 & F3 & F4 & F5).
  fold r in Er, Hok. assert (q_headers r = m) as Hm by (by rewrite Er).
  assert (HttpRequest_dump r = head_with r (q_headers r)) as -> by (by apply ws_dump; rewrite Er).
  intros Hin Hk. destruct (recvRequest_ws fuel st h r rest) as (st1 & lost & E & Hi & Ho & Hlost); [done|by rewrite Hm..|done|done|].
  unfold WSSession_handleShake. rewrite E. cbn [obind].
  assert (forall key, h_find key (q_headers (ws_received r)) = h_find key m) as Hfind
    by (intros key; by rewrite ws_received_headers, find_refold, Hm by (by rewrite Hm)).
  unfold HttpRequest_getHeader, HttpRequest_getHeaderAs, getAs. rewrite !Hfind, F1, F2, F3, F4. cbn [default from_option id]. rewrite cast_13.
  change (strcaseeq (str "websocket") (str "websocket")) with true. change (strcaseeq (str "Upgrade") (str "Upgrade")) with true.
  cbn [negb Z.eqb Pos.eqb]. rewrite bool_decide_eq_false_2 by apply ws_key_ok. cbv zeta.
  destruct (ws_received_line r) as (P1 & P2 & P3 & P4). set (req := HttpRequest_setWebsocket (ws_received r) true).
  assert (q_version req = 0x11) as Hv by (unfold req; cbn; by rewrite P2, Er).
  destruct (ws_accept_ok (ws_key rand)) as [_ Hla].
  destruct (writeFixSize_ok st1 (HttpResponse_dump (shake_response req (ws_accept sha1sum (ws_key rand))))) as (st' & E1 & Ho1 & Hi1).
  { rewrite shake_dump, shake_head_length, Hla by done. lia. }
  unfold HttpSession_sendResponse. rewrite E1. cbn [obind].
  exists req, st', lost. assert (q_path r = Uri_getPath uri /\ q_query r = u_query uri /\ q_fragment r = u_fragment uri) as (Q1 & Q2 & Q3)
    by (by rewrite Er).
  split_and!; [done|exact (eq_trans P1 Q1)|exact (eq_trans P3 Q2)|exact (eq_trans P4 Q3)|done| |by rewrite Hi1|done|congruence|done].
  intros key def. unfold HttpRequest_getHeader. change (q_headers req) with (q_headers (ws_received r)). by rewrite Hfind, Hm.
Qed.

(** The client accepts the answer of [handleShake]. *)
Lemma Create_ok fuel uri headers rand h c req rest :
  let r := WSConnection_makeRequest uri headers rand in
  let v := ws_accept sha1sum (ws_key rand) in
  dial uri = Connected c -> 0 < Z.of_nat (length (HttpRequest_dump r)) < 2 ^ 31 -> q_version req = 0x11 ->
  incoming c = HttpResponse_dump (shake_response req v) ++ rest ->
  (forall c1, incoming c1 = incoming c -> Z.of_nat (length (HttpResponse_dump (shake_response req v))) <= (stream_read c1 buff_size).1.1) ->
  exists rsp c' lost, WSConnection_Create buff_size lexical_cast dial (Datatypes.S fuel) uri headers rand h = Ok (HttpErr OK, Some rsp, Some c') /\
    HttpResponse_getHeader rsp (str "Sec-WebSocket-Accept") [] = v /\ outgoing c' = outgoing c ++ HttpRequest_dump r /\
    rest = lost ++ incoming c'.
Proof.
  intros r v Hd Hlen Hv Hin Hk. rewrite shake_dump in * by done. destruct (ws_accept_ok (ws_key rand)) as [Hval _]. fold v in Hval.
  assert (head_ok 0x11 SWITCHING_PROTOCOLS shake_reason (shake_fields v) = true) as Hok.
  { unfold head_ok. cbn [shake_fields forallb]. unfold rsp_line_ok at 2. unfold rsp_field_ok. cbn [fst snd]. rewrite Hval. reflexivity. }
  unfold WSConnection_Create. rewrite Hd. fold r. unfold HttpConnection_sendRequest.
  destruct (writeFixSize_ok c (HttpRequest_dump r)) as (c1 & -> & Ho1 & Hi1); [lia|]. cbn [obind].
  rewrite (proj2 (Z.eqb_neq _ 0)), (proj2 (Z.ltb_ge _ 0)) by lia. rewrite <- Hi1 in Hin. specialize (Hk c1 Hi1).
  destruct (recv_rsp_head_ok buff_size buff_size_ok fuel c1 h _ _ _ _ _ Hok Hin Hk) as (s' & data & c' & E & Hi & Ho & _ & _ & D & _ & C).
  unfold HttpConnection_recvResponse. rewrite E. cbn [obind]. rewrite C.
  assert (has_chunked (shake_fields v) = false) as ->.
  { unfold has_chunked, shake_fields. cbn [existsb]. rewrite !bool_decide_eq_false_2; [done|by intros [= ]..]. }
  unfold recv_rsp_body, HttpResponseParser_getContentLength. rewrite D. unfold getAs. cbn [HttpResponse_setHeaders p_headers].
  change (fold_left (fun m q => h_set q.1 q.2 m) (shake_fields v) []) with (shake_fields v).
  change (h_find (str "content-length") (shake_fields v)) with (@None bytes). change (i64 0 <=? 0) with true. cbn [obind].
  unfold finish_response. rewrite D. cbn [p_status HttpResponse_setHeaders]. change (SWITCHING_PROTOCOLS =? SWITCHING_PROTOCOLS) with true. cbn [negb].
  eexists _, c', data. split_and!; [reflexivity|reflexivity|congruence|done].
Qed.
End handshake.

(** ** Sessions *)

Section session.
Context {S : Type} {SO : StreamOps S} {SS : StreamSpec S}.
Context (buff_size : Z) (lexical_cast cast_int : bytes -> option Z) (sha1sum : bytes -> bytes) (dial : Uri -> dialled S).
Context (fnmatch : bytes -> bytes -> bool).
Implicit Types c st : S.
Hypothesis buff_size_ok : 0 < buff_size < 2 ^ 31.

(** A servlet whose functions return, and do not make more arrive than would have. *)
Definition servlet_returns (slt : @WSServlet S) : Prop :=
  (forall q s, exists rt q' s', ws_onConnect slt q s = Ok (rt, q', s') /\ (length (incoming s') <= length (incoming s))%nat) /\
  (forall q m s, exists rt q' s', ws_handle slt q m s = Ok (rt, q', s') /\ (length (incoming s') <= length (incoming s))%nat) /\
  (forall q s, exists rt q' s', ws_onClose slt q s = Ok (rt, q', s')).

Lemma ws_serve_any fuel : forall slt max header st,
  servlet_returns slt -> max <= 2 ^ 31 -> (length (incoming st) < fuel)%nat ->
  exists msgs header' st', ws_serve fuel slt max header st = Ok (map OnMessage msgs, header', st').
Proof.
  induction fuel as [|fuel IH]; intros slt max header st Hslt Hmax Hf; [lia|]. cbn [ws_serve]. unfold WSSession_recvMessage.
  destruct (WSRecv_any (Datatypes.S fuel) st false max 0 [] Hmax ltac:(cbn; lia) Hf) as (res & st1 & -> & H). cbn [obind].
  destruct res as [[op data]|]; [|by exists [], header, st1]. destruct H as [_ H].
  destruct Hslt as (H1 & H2 & H3). destruct (H2 header (op, data) st1) as (rt & q' & st2 & -> & Hi). cbn [obind].
  destruct (negb (rt =? 0)); [by exists [(op, data)], q', st2|].
  destruct (IH slt max q' st2) as (msgs & q2 & st3 & ->); [done|done|lia|]. by exists ((op, data) :: msgs), q2, st3.
Qed.

Lemma handleShake_shrinks fuel st h :
  (length (incoming st) < fuel)%nat ->
  match WSSession_handleShake buff_size lexical_cast cast_int sha1sum fuel st h with
  | Ok (Some _, st') => (length (incoming st') <= length (incoming st))%nat
  | NoFuel => False
  | _ => True
  end.
Proof.
  intros Hf. unfold WSSession_handleShake.
  pose proof (HttpSession_recvRequest_terminates buff_size lexical_cast buff_size_ok fuel st h Hf) as H.
  destruct (HttpSession_recvRequest _ _ _ _ _) as [[[req|] st1]| | | |]; cbn [obind]; try done.
  destruct (negb (strcaseeq _ _)); [done|]. destruct (negb (strcaseeq _ _)); [done|]. destruct (negb (_ =? 13)); [done|].
  destruct (bool_decide _); [done|]. unfold HttpSession_sendResponse.
  edestruct Stream_writeFixSize_returns as (r & st2 & -> & Hi). cbn [obind]. by rewrite Hi.
Qed.

(** C14: the life of a WebSocket session, over servlets whose functions return and read
    nothing they do not consume, with messages of at most 2^31 bytes.  Whatever bytes a
    client sends, [handleClient] comes to an end.  Once [handleShake] has returned, so does
    [handleClient], and the session is closed: with no call of a servlet when the shake
    failed or no servlet is found for the path, after [onConnect] when that refuses, and
    otherwise after [onConnect], one [handle] for each message, and [onClose] once at the
    end.  When [handleShake] does not return (the parser may throw: [split_query_throws]),
    [handleClient] leaves the same way, without a call and without closing. *)
Theorem WSServer_session fuel d max h st :
  (forall uri slt, WSServletDispatch_getWSServlet fnmatch d uri = Some slt -> servlet_returns slt) ->
  max <= 2 ^ 31 -> (length (incoming st) < fuel)%nat ->
  let client := WSServer_handleClient buff_size lexical_cast cast_int sha1sum fnmatch fuel d max h st in
  match WSSession_handleShake buff_size lexical_cast cast_int sha1sum fuel st h with
  | Ok (None, st1) => client = Ok ([], stream_close st1)
  | Ok (Some header, st1) =>
    match WSServletDispatch_getWSServlet fnmatch d (q_path header) with
    | None => client = Ok ([], stream_close st1)
    | Some slt => exists rt q2 st2, ws_onConnect slt header st1 = Ok (rt, q2, st2) /\
        if rt =? 0 then exists msgs st0, client = Ok (OnConnect :: map OnMessage msgs ++ [OnClose], stream_close st0)
        else client = Ok ([OnConnect], stream_close st2)
    end
  | Throw e => client = Throw e
  | AssertFail => client = AssertFail
  | UB => client = UB
  | NoFuel => False
  end.
Proof.
  intros Hd Hmax Hf client. unfold client, WSServer_handleClient.
  pose proof (handleShake_shrinks fuel st h Hf) as Hs.
  destruct (WSSession_handleShake _ _ _ _ _ _ _) as [[[header|] st1]| | | |]; cbn [obind]; try done.
  destruct (WSServletDispatch_getWSServlet fnmatch d (q_path header)) as [slt|] eqn:Eslt; [|done].
  specialize (Hd _ _ Eslt). destruct (proj1 Hd header st1) as (rt & q1 & st2 & E & Hi). rewrite E. cbn [obind].
  exists rt, q1, st2. split; [done|]. destruct (rt =? 0); cbn [negb]; [|done].
  destruct (ws_serve_any fuel slt max q1 st2 Hd Hmax ltac:(lia)) as (msgs & q2 & st3 & ->). cbn [obind].
  destruct Hd as (_ & _ & Hclose). destruct (Hclose q2 st3) as (rt2 & q3 & st4 & ->). cbn [obind]. by exists msgs, st4.
Qed.

(** A servlet that accepts everything and does not read the stream itself. *)
Definition servlet_accepts (slt : @WSServlet S) : Prop :=
  (forall q s, exists q' s', ws_onConnect slt q s = Ok (0, q', s') /\ incoming s' = incoming s) /\
  (forall q m s, exists q' s', ws_handle slt q m s = Ok (0, q', s') /\ incoming s' = incoming s) /\
  (forall q s, exists rt q' s', ws_onClose slt q s = Ok (rt, q', s')).

(** Messages a client sends: an opcode and the fragments, with pings before them. *)
Definition ws_msg : Type := Z * list (nat * bytes * Z).
Definition msgs_wire (msgs : list ws_msg) : bytes := flat_map (fun m => wire true m.1 m.2) msgs.
Definition msg_ok (max : Z) (m : ws_msg) : Prop :=
  m.2 <> [] /\ (m.1 = TEXT_FRAME \/ m.1 = BIN_FRAME) /\ Forall (fun f => f.1.2 <> []) m.2 /\ Z.of_nat (length (frag_data m.2)) < max.
Definition msgs_frames (msgs : list ws_msg) : nat := sum_list (map (fun m => frag_pings m.2 + length m.2)%nat msgs).
Definition msg_call (m : ws_msg) : ws_call := OnMessage (m.1, frag_data m.2).

Lemma ws_serve_ok max msgs : max <= 2 ^ 31 -> forall fuel slt header st,
  servlet_accepts slt -> Forall (msg_ok max) msgs -> incoming st = msgs_wire msgs -> (msgs_frames msgs < fuel)%nat ->
  exists header' st', ws_serve fuel slt max header st = Ok (map msg_call msgs, header', st').
Proof.
  intros Hmax. induction msgs as [|[op frags] msgs IH]; intros [|fuel] slt header st Hslt Hok Hin Hf; try lia; cbn [ws_serve map].
  - unfold WSSession_recvMessage. cbn [WSRecvMessage].
    destruct (ws_read_cases st 2) as [(s1 & ->)|(b & s1 & Hb & _ & Hi & _)]; [lia|by exists header, (stream_close s1)|].
    rewrite Hin in Hi. destruct b; [cbn in Hb; lia|done].
  - apply Forall_cons_1 in Hok as [(Hne & Hop & Hfr & Hl) Hok]. cbn [fst snd] in *. 
    change (msgs_frames ((op, frags) :: msgs)) with (frag_pings frags + length frags + msgs_frames msgs)%nat in Hf.
    destruct (WSRecv_wire true frags st max 0 op [] (msgs_wire msgs) (Datatypes.S fuel - (frag_pings frags + length frags)))
      as (st1 & Hi & _ & E); [done|done|done|by left|cbn; lia|].
    replace (frag_pings frags + length frags + _)%nat with (Datatypes.S fuel) in E by lia. unfold WSSession_recvMessage.
    cbn [negb] in E. rewrite E. cbn [obind Z.eqb app].
    destruct Hslt as (H1 & H2 & H3). destruct (H2 header (op, frag_data frags) st1) as (q' & st2 & -> & Hi2). cbn [obind Z.eqb negb].
    assert (0 < length frags)%nat by (destruct frags; [done|cbn; lia]).
    destruct (IH fuel slt q' st2) as (q2 & st3 & ->); [done|done|by rewrite Hi2|lia|]. by exists q2, st3.
Qed.

Hypothesis cast_13 : cast_int (str "13") = Some 13.
Hypothesis sha1_digest : forall m, Forall is_byte (sha1sum m) /\ length (sha1sum m) = 20%nat.

(** C13: a WebSocket session from both ends, for a request whose fields name neither
    the connection nor a content length, a servlet that accepts everything and leaves the
    stream alone, and messages of text or bytes in one or more fragments, none empty,
    together shorter than the limit.  [Create] sends its request and, given the
    server's answer in one read, returns a connection, with the digest of its key in the
    answer; whatever the server sent on top of the answer and was read with it is gone.
    The server, when its first read brings the request and nothing more, answers just
    that, looks the servlet up by the path, and calls [onConnect], then [handle] with
    every message the client sends, in order and put together from its fragments, and
    [onClose] when the client closes.  ([ws_early_message_lost]: a message that the first
    read brings together with the request is lost.) *)
Theorem ws_session_served fuel d slt max h ch uri headers rand c st msgs rest :
  let r := WSConnection_makeRequest uri headers rand in
  dial uri = Connected c -> ws_uri_ok uri = true -> forallb field_ok headers = true ->
  lacks (str "connection") headers = true -> lacks (str "content-length") headers = true ->
  Z.of_nat (length (HttpRequest_dump r)) < 2 ^ 31 ->
  WSServletDispatch_getWSServlet fnmatch d (Uri_getPath uri) = Some slt -> servlet_accepts slt ->
  max <= 2 ^ 31 -> Forall (msg_ok max) msgs -> (msgs_frames msgs <= fuel)%nat ->
  incoming st = HttpRequest_dump r ++ msgs_wire msgs -> (stream_read st buff_size).1.1 = Z.of_nat (length (HttpRequest_dump r)) ->
  exists req, q_path req = Uri_getPath uri /\ q_version req = 0x11 /\
    let answer := HttpResponse_dump (shake_response req (ws_accept sha1sum (ws_key rand))) in
    (exists st1, WSSession_handleShake buff_size lexical_cast cast_int sha1sum (Datatypes.S fuel) st h = Ok (Some req, st1) /\
       outgoing st1 = outgoing st ++ answer /\ incoming st1 = msgs_wire msgs) /\
    (exists st', WSServer_handleClient buff_size lexical_cast cast_int sha1sum fnmatch (Datatypes.S fuel) d max h st =
       Ok (OnConnect :: map msg_call msgs ++ [OnClose], stream_close st')) /\
    (incoming c = answer ++ rest ->
     (forall c1, incoming c1 = incoming c -> Z.of_nat (length answer) <= (stream_read c1 buff_size).1.1) ->
     exists rsp c' lost, WSConnection_Create buff_size lexical_cast dial (Datatypes.S fuel) uri headers rand ch = Ok (HttpErr OK, Some rsp, Some c') /\
       HttpResponse_getHeader rsp (str "Sec-WebSocket-Accept") [] = ws_accept sha1sum (ws_key rand) /\
       outgoing c' = outgoing c ++ HttpRequest_dump r /\ rest = lost ++ incoming c').
Proof.
  intros r Hd Hu Hf Hc Hl Hlen Hslt Hacc Hmax Hok Hfuel Hin Hr.
  destruct (handleShake_ok buff_size lexical_cast cast_int sha1sum buff_size_ok cast_13 sha1_digest fuel st h uri headers rand (msgs_wire msgs))
    as (req & st1 & lost & E & P & _ & _ & _ & _ & Hrest & Hlost & Ho & Hv); [done..|by fold r; rewrite Hr|].
  fold r in Hlost. rewrite Hr in Hlost. destruct lost; [|cbn in Hlost; lia]. cbn [app] in Hrest.
  exists req. split; [done|]. split; [done|]. cbv zeta. split_and!; [by exists st1| |].
  - unfold WSServer_handleClient. rewrite E. cbn [obind]. rewrite P, Hslt. pose proof Hacc as (H1 & H2 & H3).
    destruct (H1 req st1) as (q1 & st2 & -> & Hi). cbn [obind Z.eqb negb].
    destruct (ws_serve_ok max msgs Hmax (Datatypes.S fuel) slt q1 st2) as (q2 & st3 & ->); [done|done|congruence|lia|]. cbn [obind].
    destruct (H3 q2 st3) as (rt & q3 & st4 & ->). cbn [obind]. by exists st4.
  - intros Cin Ck. apply (Create_ok buff_size lexical_cast sha1sum dial buff_size_ok sha1_digest fuel uri headers rand ch c req rest); try done.
    split; [|done]. destruct (ws_request uri headers rand Hu Hf Hc Hl) as (m & Er & _).
    fold r in Er |- *. rewrite (ws_dump r) by (by rewrite Er). pose proof (head_with_pos r (q_headers r)). lia.
Qed.

End session.

(** A servlet for every path that takes all messages, and the request of a client for
    [/chat]. *)
Definition chat_servlet : @WSServlet greedy :=
  FunctionWSServlet (Some (fun q m s => Ok (0, q, s))) None None.
Definition chat_dispatch : @ServletDispatch greedy :=
  WSServletDispatch_addGlobServlet ServletDispatch_new (str "/*") (Some (fun q m s => Ok (0, q, s))) None None.
Definition chat_uri : Uri := mkUri (str "ws") [] (str "example.com") (str "/chat") [] [] 0.
Definition chat_request : bytes := HttpRequest_dump (WSConnection_makeRequest chat_uri [] Z.of_nat).
Definition chat_size : Z := Z.of_nat (length chat_request).
Definition chat_digest (m : bytes) : bytes := replicate 20 7.
Definition chat_answer (key : bytes) : bytes :=
  rsp_head 0x11 SWITCHING_PROTOCOLS shake_reason (shake_fields (ws_accept chat_digest key)).
Definition chat_parser : http_parser := mkParser 0 0 0 0 0 0 0 0 false false false.
Definition hello : ws_msg := (TEXT_FRAME, [(0%nat, str "hel", 77); (1%nat, str "lo", 78)]).

Lemma chat_accepts : servlet_accepts chat_servlet.
Proof. split_and!; intros; eauto. Qed.

Lemma chat_found uri : WSServletDispatch_getWSServlet (fun _ _ => true) chat_dispatch uri = Some chat_servlet.
Proof. unfold WSServletDispatch_getWSServlet, ServletDispatch_getMatchedServlet. cbn [chat_dispatch WSServletDispatch_addGlobServlet ServletDispatch_addGlobServlet ServletDispatch_new m_datas]. by rewrite lookup_empty. Qed.

(** A session with two messages; a request that is not one for a WebSocket. *)
Lemma WSServer_session_witness :
  (exists msgs st0, WSServer_handleClient chat_size digits_cast digits_cast chat_digest (fun _ _ => true) 400 chat_dispatch 1000 chat_parser
     (mkGreedy (chat_request ++ msgs_wire [hello; hello]) [] false) = Ok (OnConnect :: map OnMessage msgs ++ [OnClose], stream_close st0)) /\
  (exists st1, WSServer_handleClient 4096 digits_cast digits_cast chat_digest (fun _ _ => true) 400 chat_dispatch 1000 chat_parser
     (mkGreedy (str "GET / HTTP/1.1" ++ crlf ++ crlf) [] false) = Ok ([], stream_close st1)).
Proof.
  assert (Hd : forall uri slt, WSServletDispatch_getWSServlet (fun _ _ => true) chat_dispatch uri = Some slt -> servlet_returns slt).
  { intros uri slt E. rewrite chat_found in E. injection E as <-. split_and!; intros; eexists _, _, _; (split; [reflexivity|]) || reflexivity; lia. }
  split.
  - pose proof (WSServer_session chat_size digits_cast digits_cast chat_digest (fun _ _ => true) ltac:(split; reflexivity) 400 chat_dispatch 1000
      chat_parser (mkGreedy (chat_request ++ msgs_wire [hello; hello]) [] false) Hd ltac:(lia) ltac:(apply Nat.ltb_lt; vm_compute; reflexivity)) as H.
    cbv zeta in H.
    match type of H with match ?x with _ => _ end =>
      let v := eval vm_compute in x in assert (Ex : x = v) by (vm_compute; reflexivity); rewrite Ex in H end.
    rewrite chat_found in H. destruct H as (rt & q2 & st2 & E & H). vm_compute in E. injection E as <- _ _. exact H.
  - pose proof (WSServer_session 4096 digits_cast digits_cast chat_digest (fun _ _ => true) ltac:(lia) 400 chat_dispatch 1000
      chat_parser (mkGreedy (str "GET / HTTP/1.1" ++ crlf ++ crlf) [] false) Hd ltac:(lia) ltac:(apply Nat.ltb_lt; vm_compute; reflexivity)) as H.
    cbv zeta in H.
    match type of H with match ?x with _ => _ end =>
      let v := eval vm_compute in x in assert (Ex : x = v) by (vm_compute; reflexivity); rewrite Ex in H end.
    eexists. exact H.
Defined.

Lemma ws_session_served_witness :
  let st := mkGreedy (chat_request ++ msgs_wire [hello; hello]) [] false in
  let c := mkGreedy (chat_answer (ws_key Z.of_nat) ++ str "x") [] false in
  (exists st', WSServer_handleClient chat_size digits_cast digits_cast chat_digest (fun _ _ => true) 10 chat_dispatch 1000 chat_parser st =
     Ok ([OnConnect; OnMessage (TEXT_FRAME, str "hello"); OnMessage (TEXT_FRAME, str "hello"); OnClose], stream_close st')) /\
  (exists rsp c', WSConnection_Create chat_size digits_cast (fun _ => Connected c) 10 chat_uri [] Z.of_nat no_client = Ok (HttpErr OK, Some rsp, Some c')).
Proof.
  cbv zeta.
  destruct (ws_session_served chat_size digits_cast digits_cast chat_digest
    (fun _ => Connected (mkGreedy (chat_answer (ws_key Z.of_nat) ++ str "x") [] false)) (fun _ _ => true)
    ltac:(split; reflexivity) eq_refl ltac:(intros m; split; [repeat constructor; done|reflexivity])
    9 chat_dispatch chat_servlet 1000 chat_parser no_client chat_uri [] Z.of_nat (mkGreedy (chat_answer (ws_key Z.of_nat) ++ str "x") [] false)
    (mkGreedy (chat_request ++ msgs_wire [hello; hello]) [] false) [hello; hello] (str "x")) as (req & _ & Hv & _ & H1 & H2).
  1: reflexivity.
  1-5: reflexivity.
  1: apply chat_found.
  1: apply chat_accepts.
  1: lia.
  1: { repeat constructor; try discriminate; by left. }
  1: { apply Nat.leb_le. reflexivity. }
  1: reflexivity.
  1: { rewrite greedy_prompt by reflexivity. unfold chat_size, chat_request. cbn [incoming greedy_spec gr_in]. lens. }
  split; [exact H1|].
  destruct H2 as (rsp & c' & lost & E & _).
  - by rewrite shake_dump.
  - intros c1 Hc. rewrite shake_dump by done. rewrite greedy_prompt, Hc by reflexivity. cbn [incoming greedy_spec gr_in].
    unfold chat_answer. rewrite length_app, !shake_head_length. vm_compute. discriminate.
  - by exists rsp, c'.
Defined.

(** ** Where the code departs from its intent *)

(** A message that the server reads together with the request is lost with what is left
    in the buffer; the session goes on without it. *)
Lemma ws_early_message_lost :
  exists st', WSServer_handleClient 4096 digits_cast digits_cast chat_digest (fun _ _ => true) 10 chat_dispatch 1000 chat_parser
    (mkGreedy (chat_request ++ msgs_wire [hello]) [] false) = Ok ([OnConnect; OnClose], st').
Proof. eexists. vm_compute. reflexivity. Qed.

(** So is a message that the client reads together with the answer, which a server may
    send in [onConnect]. *)
Lemma ws_early_answer_lost :
  exists rsp c', WSConnection_Create 4096 digits_cast
    (fun _ => Connected (mkGreedy (chat_answer (ws_key Z.of_nat) ++ ws_frame TEXT_FRAME (str "hi") false true 0) [] false))
    10 chat_uri [] Z.of_nat no_client = Ok (HttpErr OK, Some rsp, Some c') /\ incoming c' = [].
Proof. eexists _, _. split; [vm_compute; reflexivity|reflexivity]. Qed.

(** The client does not look at the digest of its key: any answer with status 101 will
    do. *)
Lemma ws_accept_unchecked :
  exists rsp c', WSConnection_Create 4096 digits_cast
    (fun _ => Connected (mkGreedy (str "HTTP/1.1 101 x" ++ crlf ++ str "Sec-WebSocket-Accept: wrong" ++ crlf ++ crlf) [] false))
    10 chat_uri [] Z.of_nat no_client = Ok (HttpErr OK, Some rsp, Some c').
Proof. eexists _, _. vm_compute. reflexivity. Qed.
