(* ===== verification/FiberSemaphore.v ===== *)
(** * The semaphore on which fibers wait ([mutex.h], [mutex.cc])

    [wait] either takes a permit or puts the calling fiber into a list and switches
    out; [notify] hands the first fiber of the list back to its scheduler or adds a
    permit.  The lock is released between the entry in the list and the switch, so a
    [notify] of another thread can come in between: the second half of the file puts
    the semaphore beside the system of workers of [Scheduler]. *)

From S2P Require Import Prelude Fiber Scheduler.
From Stdlib Require Import ZArith Lia List.
From stdpp Require Import base tactics list numbers option gmap.

Open Scope Z_scope.

(** ** The object *)

(** @src mutex.h:236-239 FiberSemaphore
    A waiter is its scheduler and the fiber. *)
Record FiberSemaphore := mkSem {
  m_waiters : list (Z * Z);
  m_concurrency : Z
}.

(** @src mutex.cc:64-65 FiberSemaphore::FiberSemaphore *)
Definition FiberSemaphore_new (initial_concurrency : Z) : FiberSemaphore := mkSem [] initial_concurrency.

(** @src mutex.cc:67-67 FiberSemaphore::~FiberSemaphore *)
Definition FiberSemaphore_destroy (s : FiberSemaphore) : outcome unit :=
  assertb (match m_waiters s with [] => true | _ => false end) (Ok tt).

(** @src mutex.cc:69-79 FiberSemaphore::tryWait
    [this] is [Scheduler::GetThis()]. *)
Definition FiberSemaphore_tryWait (this : option Z) (s : FiberSemaphore) : outcome (bool * FiberSemaphore) :=
  assertb (non_null this)
  (if 0 <? m_concurrency s then Ok (true, mkSem (m_waiters s) (u64 (m_concurrency s - 1)))
   else Ok (false, s)).

(** @src mutex.cc:81-92 FiberSemaphore::wait
    The flag says whether the fiber goes on to [YieldToHold]. *)
Definition FiberSemaphore_wait (this : option Z) (fiber : Z) (s : FiberSemaphore) : outcome (bool * FiberSemaphore) :=
  assertb (non_null this)
  (if 0 <? m_concurrency s then Ok (false, mkSem (m_waiters s) (u64 (m_concurrency s - 1)))
   else deref this (fun g => Ok (true, mkSem (m_waiters s ++ [(g, fiber)]) (m_concurrency s)))).

(** @src mutex.cc:94-103 FiberSemaphore::notify
    The scheduler and the fiber of the call of [schedule], if there is one. *)
Definition FiberSemaphore_notify (s : FiberSemaphore) : option (Z * Z) * FiberSemaphore :=
  match m_waiters s with
  | next :: r => (Some next, mkSem r (m_concurrency s))
  | [] => (None, mkSem [] (u64 (m_concurrency s + 1)))
  end.

(** @src mutex.h:232-232 FiberSemaphore::getConcurrency *)
Definition FiberSemaphore_getConcurrency (s : FiberSemaphore) : Z := m_concurrency s.

(** @src mutex.h:233-233 FiberSemaphore::reset *)
Definition FiberSemaphore_reset (s : FiberSemaphore) : FiberSemaphore := mkSem (m_waiters s) 0.

(** ** Permits as numbered tickets *)

(** Calls in the order in which they get the lock, each with its scheduler and fiber. *)
Inductive sem_op :=
| OpTryWait (g f : Z)
| OpWait (g f : Z)
| OpNotify
| OpReset.

(** A call, with the answer of [tryWait] and the fiber that gets past the semaphore
    through it. *)
Definition sem_exec (s : FiberSemaphore) (op : sem_op) : outcome (option bool * list (Z * Z) * FiberSemaphore) :=
  match op with
  | OpTryWait g f =>
    let! (b, s) := FiberSemaphore_tryWait (Some g) s in Ok (Some b, if b then [(g, f)] else [], s)
  | OpWait g f =>
    let! (blocks, s) := FiberSemaphore_wait (Some g) f s in Ok (None, if blocks then [] else [(g, f)], s)
  | OpNotify =>
    let '(woken, s) := FiberSemaphore_notify s in Ok (None, match woken with Some x => [x] | None => [] end, s)
  | OpReset => Ok (None, [], FiberSemaphore_reset s)
  end.

Fixpoint sem_run (s : FiberSemaphore) (ops : list sem_op)
    : outcome (list (option bool) * list (Z * Z) * FiberSemaphore) :=
  match ops with
  | [] => Ok ([], [], s)
  | op :: ops =>
    let! (a, p, s) := sem_exec s op in
    let! (a', p', s) := sem_run s ops in
    Ok (a :: a', p ++ p', s)
  end.

(** The specification: everyone who asks takes the next number, [tickets] numbers are
    called so far, and who has a called number has passed.  [tryWait] asks only if its
    number is called already; [reset] takes unclaimed numbers back. *)
Record ticket_office := mkOffice { tickets : nat; arrivals : list (Z * Z) }.

Definition ticket_step (o : ticket_office) (op : sem_op) : option bool * ticket_office :=
  match op with
  | OpTryWait g f =>
    if bool_decide (length (arrivals o) < tickets o)%nat
    then (Some true, mkOffice (tickets o) (arrivals o ++ [(g, f)])) else (Some false, o)
  | OpWait g f => (None, mkOffice (tickets o) (arrivals o ++ [(g, f)]))
  | OpNotify => (None, mkOffice (S (tickets o)) (arrivals o))
  | OpReset => (None, mkOffice (min (tickets o) (length (arrivals o))) (arrivals o))
  end.

Fixpoint ticket_run (o : ticket_office) (ops : list sem_op) : list (option bool) * ticket_office :=
  match ops with
  | [] => ([], o)
  | op :: ops => let '(a, o) := ticket_step o op in let '(l, o) := ticket_run o ops in (a :: l, o)
  end.

Definition passed (o : ticket_office) : list (Z * Z) := take (tickets o) (arrivals o).

(** The object represents the office. *)
Definition sem_rep (o : ticket_office) (s : FiberSemaphore) : Prop :=
  m_waiters s = drop (tickets o) (arrivals o) /\
  m_concurrency s = Z.of_nat (tickets o - length (arrivals o)).

Lemma sem_exec_rep o s op :
  sem_rep o s -> Z.of_nat (tickets o) + 1 < 2 ^ 64 ->
  exists p s', sem_exec s op = Ok (fst (ticket_step o op), p, s') /\
    sem_rep (snd (ticket_step o op)) s' /\ passed (snd (ticket_step o op)) = passed o ++ p /\
    (tickets (snd (ticket_step o op)) <= S (tickets o))%nat.
Proof.
  intros [Hw Hc] Hlt.
  assert (Hdec : (length (arrivals o) < tickets o)%nat ->
    u64 (m_concurrency s - 1) = Z.of_nat (tickets o - (length (arrivals o) + 1))).
  { intros H. rewrite Hc. rewrite uwrap_small; lia. }
  assert (Hn : (length (arrivals o) < tickets o)%nat -> m_waiters s = []) by (intros; rewrite Hw; apply drop_ge; lia).
  assert (Hp : forall x, (length (arrivals o) < tickets o)%nat ->
    passed (mkOffice (tickets o) (arrivals o ++ [x])) = passed o ++ [x]).
  { intros x H. unfold passed. cbn [tickets arrivals].
    rewrite !take_ge by (rewrite ?length_app; cbn [length]; lia). done. }
  destruct op as [g f|g f| |]; cbn [sem_exec ticket_step].
  - unfold FiberSemaphore_tryWait. cbn [non_null assertb].
    case_bool_decide as H; destruct (Z.ltb_spec 0 (m_concurrency s)); try lia; cbn [obind fst snd];
      eexists _, _; (split; [done|]).
    + split_and!; [split; cbn; [by rewrite Hn, drop_ge by (rewrite ?length_app; cbn [length]; lia)|]|by apply Hp|cbn; lia].
      rewrite length_app; by apply Hdec.
    + split_and!; [done|by rewrite app_nil_r|lia].
  - unfold FiberSemaphore_wait. cbn [non_null assertb deref].
    destruct (Z.ltb_spec 0 (m_concurrency s)) as [H|H]; cbn [obind fst snd]; eexists _, _; (split; [done|]).
    + split_and!; [split; cbn; [by rewrite Hn, drop_ge by (rewrite ?length_app; cbn [length]; lia)|]|apply Hp; lia|cbn; lia].
      rewrite length_app; apply Hdec; lia.
    + split_and!; [split; cbn|unfold passed; cbn; by rewrite take_app_le, app_nil_r by lia|cbn; lia].
      * by rewrite Hw, drop_app_le by lia.
      * rewrite Hc, length_app. cbn. lia.
  - unfold FiberSemaphore_notify. rewrite Hw. destruct (drop (tickets o) (arrivals o)) as [|x r] eqn:Ed;
      eexists _, _; (split; [done|]); cbn [snd].
    + assert (length (arrivals o) <= tickets o)%nat by (rewrite <- length_zero_iff_nil, length_drop in Ed; lia).
      split_and!; [split; cbn|unfold passed; cbn; by rewrite !take_ge, app_nil_r by lia|cbn; lia].
      * by rewrite drop_ge by lia.
      * rewrite Hc. rewrite uwrap_small; lia.
    + assert (Hl : arrivals o !! tickets o = Some x) by (rewrite <- (Nat.add_0_r (tickets o)), <- lookup_drop, Ed; done).
      pose proof (lookup_lt_Some _ _ _ Hl).
      split_and!; [split; cbn|unfold passed; cbn; by apply take_S_r|cbn; lia].
      * rewrite <- Nat.add_1_r, <- drop_drop, Ed. done.
      * rewrite Hc. f_equal. lia.
  - eexists _, _. split; [done|]. cbn [snd]. unfold passed.
    split_and!; [split; cbn|cbn|cbn; lia].
    + rewrite Hw. destruct (Nat.min_spec (tickets o) (length (arrivals o))) as [[? ->]|[? ->]]; [done|].
      by rewrite !drop_ge by lia.
    + lia.
    + rewrite app_nil_r. destruct (Nat.min_spec (tickets o) (length (arrivals o))) as [[? ->]|[? ->]]; [done|].
      by rewrite !take_ge by lia.
Qed.

Lemma sem_run_rep o s ops :
  sem_rep o s -> Z.of_nat (tickets o) + Z.of_nat (length ops) < 2 ^ 64 ->
  exists p s', sem_run s ops = Ok (fst (ticket_run o ops), p, s') /\
    sem_rep (snd (ticket_run o ops)) s' /\ passed (snd (ticket_run o ops)) = passed o ++ p.
Proof.
  revert o s. induction ops as [|op ops IH]; intros o s R Hlt; cbn [sem_run ticket_run].
  { eexists _, _. split_and!; [done|done|by rewrite app_nil_r]. }
  cbn [length] in Hlt. destruct (sem_exec_rep o s op R ltac:(lia)) as (p & s1 & -> & R1 & Hp & Ht).
  destruct (ticket_step o op) as [a o1]. cbn [fst snd obind] in *.
  destruct (IH o1 s1 R1 ltac:(lia)) as (p' & s2 & -> & R2 & Hp2).
  destruct (ticket_run o1 ops) as [l o2]. cbn [fst snd obind] in *.
  eexists _, _. split_and!; [done|done|]. by rewrite Hp2, Hp, app_assoc.
Qed.

(** ** Beside the scheduler *)

(** The workers, the semaphore, and the fibers that have entered the list and are on
    their way to [YieldToHold] (line 91). *)
Record sem_system := mkSemSystem {
  z_sys : system;
  z_sem : FiberSemaphore;
  z_leaving : list Z
}.

Definition waiting (z : sem_system) : list Z := map snd (m_waiters (z_sem z)).

Definition executes (y : system) (f tid : Z) : Prop :=
  exists k, workers y !! tid = Some k /\ (w_pc k = InFiber f \/ w_pc k = InCb f).

(** What the rest of the program does next to the semaphore: it does not schedule
    fibers that wait here, and a fiber inside [wait] does nothing else. *)
Definition leaves_alone (z : sem_system) (y' : system) : Prop :=
  (forall f, f ∈ waiting z -> f ∉ queued y') /\
  (forall f tid, f ∈ z_leaving z -> executes (z_sys z) f tid -> workers y' !! tid = workers (z_sys z) !! tid).

Section composition.
(** The stack size, the idle callback, and the scheduler of the workers. *)
Variables dflt idle_cb this : Z.

(** Steps, labelled with the fiber that [notify] hands to the scheduler. *)
Inductive sem_step (z : sem_system) : option (option Z) -> sem_system -> Prop :=
| ss_other sc st y' :
    ruled_step dflt idle_cb (z_sys z) sc st y' -> leaves_alone z y' ->
    sem_step z None (mkSemSystem y' (z_sem z) (z_leaving z))
| ss_tryWait b s' :
    FiberSemaphore_tryWait (Some this) (z_sem z) = Ok (b, s') ->
    sem_step z None (mkSemSystem (z_sys z) s' (z_leaving z))
| ss_wait tid f blocks s' :
    executes (z_sys z) f tid -> f ∉ z_leaving z -> f ∉ queued (z_sys z) ->
    FiberSemaphore_wait (Some this) f (z_sem z) = Ok (blocks, s') ->
    sem_step z None (mkSemSystem (z_sys z) s' (if blocks then f :: z_leaving z else z_leaving z))
| ss_leave tid f y' :
    executes (z_sys z) f tid -> f ∈ z_leaving z -> fiber_yieldHold (z_sys z) tid = Ok y' ->
    sem_step z None (mkSemSystem y' (z_sem z) (filter (fun p => p <> f) (z_leaving z)))
| ss_notify woken s' :
    FiberSemaphore_notify (z_sem z) = (woken, s') ->
    sem_step z (Some (snd <$> woken))
      (mkSemSystem
        (match woken with
         | Some (_, f) => mkSystem (snd (Scheduler_schedule (sch (z_sys z)) (mkFT (Some f) None (-1))))
                            (fib (z_sys z)) (workers (z_sys z))
         | None => z_sys z
         end) s' (z_leaving z))
| ss_reset :
    sem_step z None (mkSemSystem (z_sys z) (FiberSemaphore_reset (z_sem z)) (z_leaving z)).

(** Runs, with the labels of the calls of [notify]. *)
Inductive sem_steps (z0 : sem_system) : list (option Z) -> sem_system -> Prop :=
| sem_steps_refl : sem_steps z0 [] z0
| sem_steps_step tr z l z' :
    sem_steps z0 tr z -> sem_step z l z' -> sem_steps z0 (tr ++ match l with Some x => [x] | None => [] end) z'.

(** ** A waiting fiber stays schedulable *)

Definition touched (k : worker) (p : Z) : Prop := reserved k p \/ current k = Some p.

(** A step of thread [tid] gets hold only of fibers that were its own, queued or not
    yet allocated, and writes to no others. *)
Definition frames (y : system) (tid : Z) (y' : system) : Prop :=
  exists k s w k', workers y !! tid = Some k /\ y' = update y s w tid k' /\
    (forall p, touched k' p -> touched k p \/ p ∈ queued y \/ heap (fib y) !! p = None) /\
    (forall p, ~ touched k p -> is_Some (heap (fib y) !! p) -> p ∉ queued y -> heap w !! p = heap (fib y) !! p).

Lemma frames_may y tid y' k f :
  frames y tid y' -> workers y !! tid = Some k -> current k <> Some f -> may_schedule y f -> f ∉ queued y' ->
  may_schedule y' f /\ forall t, executes y' f t -> executes y f t.
Proof.
  intros (k1 & s & w & k' & Hk & -> & T1 & T2) Hk2 Hc (Hq & Ha & Hw) Hq'.
  assert (k1 = k) as -> by congruence.
  assert (Hn : ~ touched k f) by (intros [H|H]; [by apply (Hw tid k)|done]).
  assert (Hn' : ~ touched k' f) by (intros H; destruct (T1 f H) as [?|[?|E]]; [done|done|rewrite E in Ha; by destruct Ha]).
  pose proof (T2 f Hn Ha Hq) as Hh. split; [split_and!; [done|cbn; by rewrite Hh|]|].
  - intros t kt. cbn [update workers]. rewrite lookup_insert. case_decide as Et.
    + intros [= <-]. split; [intros H; apply Hn'; by left|intros H; destruct Hn'; by right].
    + intros Hkt. unfold state_of. cbn [update fib]. rewrite Hh. by apply (Hw t).
  - intros t (kt & Hkt & Hpc). cbn [update workers] in Hkt. rewrite lookup_insert in Hkt. case_decide as Et.
    + simplify_eq. destruct Hn'. right. unfold current. by destruct Hpc as [-> | ->].
    + by exists kt.
Qed.

Lemma swapIn_frame w tl p w' tl' :
  Fiber_swapIn w tl p = Ok (w', tl') ->
  exists m, t_scheduler_fiber tl = Some m /\ t_scheduler_fiber tl' = Some m /\
    forall q, q <> p -> q <> m -> heap w' !! q = heap w !! q.
Proof.
  unfold Fiber_swapIn, swapcontext. destruct (heap w !! p) as [f|]; [|done]. cbn [deref].
  destruct (state_eqb _ _); [done|]. cbn [negb assertb Fiber_SetThis t_scheduler_fiber].
  destruct (t_scheduler_fiber tl) as [m|] eqn:Em; [|done]. cbn [deref]. intros E. exists m.
  destruct (heap (put w p _) !! m) as [fs|]; [|done]. cbn [deref] in E.
  destruct (heap (put (put w p _) m _) !! p) as [fl|]; [|done]. cbn [deref] in E.
  destruct (m_ctx fl); simplify_eq; (split_and!; [done|done|]); intros q H1 H2; cbn [put heap];
    by rewrite !lookup_insert_ne by done.
Qed.

(** Membership in the roles of a worker, once its fields are known. *)
Ltac roles :=
  unfold touched, reserved, current in *; cbn [goto w_tls w_pc w_idle w_cb_fiber t_scheduler_fiber] in *;
  repeat match goal with H : w_pc _ = _ |- _ => rewrite H in *; clear H end;
  naive_solver.

Lemma pick_frames y tid k t y' :
  Forall one_task (m_fibers (sch y)) -> workers y !! tid = Some k -> w_pc k = Pick ->
  run_pick y tid k = Ok (t, y') -> frames y tid y'.
Proof.
  intros Ht Hk Hpc. unfold run_pick.
  destruct (pick_loop_spec (state_of (fib y)) tid (m_fibers (sch y))) as (sk & o & rest & t1 & -> & _ & Ho & _).
  { eapply Forall_impl; [exact Ht|]. intros; by apply one_task_ok. }
  cbn [obind]. destruct o as [ft|]; intros [= _ <-]; eexists k, _, _, _; (split_and!; [done|done| |done]); intros p Hp.
  - assert (Hin : ft_fiber ft = Some p -> p ∈ queued y).
    { intros E. unfold queued. destruct Ho as [-> _]. rewrite omap_app_cons, E. set_solver. }
    roles.
  - unfold FiberAndThread_reset in Hp. roles.
Qed.

Lemma dispatch_frames y tid k ft a fresh y' :
  workers y !! tid = Some k -> w_pc k = Dispatch ft a -> heap (fib y) !! fresh = None ->
  run_dispatch dflt y tid k ft a fresh = Ok y' -> frames y tid y'.
Proof.
  intros Hk Hpc Hf. unfold run_dispatch. set (r := match ft_fiber ft with Some f => _ | None => false end). clearbody r.
  assert (Hin : forall w p s pc' cb w' tl, Fiber_swapIn w (w_tls k) p = Ok (w', tl) ->
    (touched k p \/ heap (fib y) !! p = None) -> (forall q, q <> p -> heap w !! q = heap (fib y) !! q) ->
    (forall q, touched (mkWorker tl pc' (w_idle k) cb) q -> q = p \/ touched k q \/ t_scheduler_fiber tl = Some q) ->
    frames y tid (update y s w' tid (mkWorker tl pc' (w_idle k) cb))).
  { intros w p s pc' cb w' tl E Hp Hw Hr. destruct (swapIn_frame _ _ _ _ _ E) as (m & Hm & Hm' & Hh).
    eexists k, _, _, _. split_and!; [done|done| |].
    - intros q Hq. destruct (Hr q Hq) as [->|[?|E2]]; [tauto|tauto|]. left. left. left. congruence.
    - intros q Hq Ha _. assert (q <> p).
      { intros ->. destruct Hp as [?|E0]; [done|]. rewrite E0 in Ha. by destruct Ha. }
      rewrite Hh, Hw; [done..|]. intros ->. apply Hq. by left; left. }
  assert (Hcb : forall cb, (let! (c, w) := match w_cb_fiber k with
      | Some c => let! w := Fiber_reset (fib y) c (Some cb) in Ok (c, w)
      | None => Ok (fresh, Fiber_new dflt (fib y) fresh (Some cb) 0 false) end in
    let! (w, tl) := Fiber_swapIn w (w_tls k) c in
    Ok (update y (sch y) w tid (mkWorker tl (InCb c) (w_idle k) (Some c)))) = Ok y' -> frames y tid y').
  { intros cb. destruct (w_cb_fiber k) as [c|] eqn:Ec.
    - unfold Fiber_reset. destruct (heap (fib y) !! c) as [fc|]; [|done]. cbn [deref].
      destruct (m_stack fc); [|done]. destruct (finished _ || _); [|done]. cbn [assertb obind].
      destruct (Fiber_swapIn _ _ c) as [[w' tl]| | | |] eqn:E; try done. intros [= <-].
      eapply Hin; [exact E|roles| |]; [intros q Hq; cbn; by rewrite lookup_insert_ne by done|].
      intros q Hq. roles.
    - cbn [obind]. destruct (Fiber_swapIn _ _ fresh) as [[w' tl]| | | |] eqn:E; try done. intros [= <-].
      eapply Hin; [exact E|tauto| |]; [intros q Hq; cbn; by rewrite lookup_insert_ne by done|].
      intros q Hq. roles. }
  assert (Hidle : (if a then Ok (update y (add_active (sch y) (-1)) (fib y) tid (goto k Pick)) else
    if bool_decide (state_of (fib y) (w_idle k) = Some TERM) then Ok (update y (sch y) (fib y) tid (goto k Done))
    else let! (w, tl) := Fiber_swapIn (fib y) (w_tls k) (w_idle k) in
      Ok (update y (add_idle (sch y) 1) w tid (mkWorker tl InIdle (w_idle k) (w_cb_fiber k)))) = Ok y' ->
    frames y tid y').
  { destruct a; [|case_bool_decide; [|destruct (Fiber_swapIn _ _ (w_idle k)) as [[w' tl]| | | |] eqn:E]]; try done;
      intros [= <-].
    3: { eapply Hin; [exact E|roles|done|]. intros q Hq. roles. }
    all: eexists k, _, _, _; split_and!; [done|done| |done]; intros p Hp; roles. }
  destruct (ft_fiber ft) as [f|] eqn:Ef; [destruct r|]; [|destruct (ft_cb ft); eauto..].
  destruct (Fiber_swapIn (fib y) (w_tls k) f) as [[w' tl]| | | |] eqn:E; try done. intros [= <-].
  eapply Hin; [exact E|roles|done|]. intros q Hq. roles.
Qed.

Lemma current_own own w q tid k p : worker_ok own w q tid k -> current k = Some p -> own p = Run tid.
Proof. intros (m & _ & _ & _ & Hw) Hc. unfold current in Hc. destruct (w_pc k); simplify_eq; by destruct_and!. Qed.

(** A step of the thread that has the fiber on its hands. *)
Lemma moved_may own y tid k k' s w f :
  sys_inv own y -> workers y !! tid = Some k -> current k = Some f -> may_schedule y f ->
  ~ reserved k' f -> is_Some (heap w !! f) -> (current k' = Some f -> state_of w f = Some EXEC) ->
  (w_pc k' = InFiber f \/ w_pc k' = InCb f -> False) ->
  let y' := update y s w tid k' in
  f ∉ queued y' -> may_schedule y' f /\ forall t, executes y' f t -> executes y f t.
Proof.
  intros I Hk Hc (Hq & Ha & Hw) Hr Ha' Hs Hpc y' Hq'. pose proof (current_own _ _ _ _ _ f (si_workers _ _ I tid k Hk) Hc) as Ho.
  split; [split_and!; [done|done|]|].
  - intros t kt. cbn [y' update workers]. rewrite lookup_insert. case_decide; [intros [= <-]; done|].
    intros Hkt. split; [by apply (Hw t)|]. intros Hc'.
    pose proof (current_own _ _ _ _ _ f (si_workers _ _ I t kt Hkt) Hc'). congruence.
  - intros t (kt & Hkt & Hp). cbn [y' update workers] in Hkt. rewrite lookup_insert in Hkt.
    case_decide; [simplify_eq; done|]. by exists kt.
Qed.

Lemma touched_pick k cb q :
  cb = None \/ cb = w_cb_fiber k -> touched (mkWorker (w_tls k) Pick (w_idle k) cb) q -> touched k q.
Proof.
  intros Hcb [[H|[H|[[H _]|(ft & a & H & _)]]]|H]; cbn in *; try done; [by left; left|by left; right; left|].
  destruct Hcb as [->| ->]; [done|]. destruct (decide (current k = Some q)); [by right|left; right; right; by left].
Qed.

Lemma run_may own y tid fresh t y' f :
  sys_inv own y -> heap (fib y) !! fresh = None -> Scheduler_run dflt y tid fresh = Ok (t, y') ->
  may_schedule y f -> f ∉ queued y' -> may_schedule y' f /\ forall t, executes y' f t -> executes y f t.
Proof.
  intros I Hf. unfold Scheduler_run. destruct (workers y !! tid) as [k|] eqn:Hk; [|done]. cbn [deref].
  intros E HM Hq'. pose proof HM as (Hq & Ha & Hw). destruct (Hw tid k Hk) as [Hr Hcur].
  destruct (decide (current k = Some f)) as [Hc|Hc].
  - specialize (Hcur Hc). unfold state_of in Hcur. destruct (heap (fib y) !! f) as [fb|] eqn:Hfb; [|done].
    injection Hcur as Hst. unfold current in Hc.
    destruct (w_pc k) as [|ft a|g|g|g|c|c|c| | | |] eqn:Hpc; try done; injection Hc as ->.
    + simplify_eq. done.
    + simplify_eq. eapply moved_may; [exact I|exact Hk|by unfold current; rewrite Hpc|exact HM|clear -Hr Hpc; roles|by rewrite Hfb|
        intros _; unfold state_of; rewrite Hfb; cbn; by rewrite Hst|by intros [?|?]|exact Hq'].
    + unfold run_checkFiber in E. rewrite Hfb in E. cbn [deref] in E. rewrite Hst in E. cbn [state_eqb finished] in E.
      injection E as <- <-.
      assert (Hsp : w_cb_fiber k <> Some f).
      { pose proof (si_workers _ _ I tid k Hk) as (m & _ & _ & _ & W). rewrite Hpc in W.
        destruct W as (_ & _ & Hsp & Ho & _). intros E. destruct (Hsp f E). congruence. }
      eapply moved_may; [exact I|exact Hk|by unfold current; rewrite Hpc|exact HM|clear -Hr Hpc Hsp; roles|
        cbn; by rewrite lookup_insert_eq|done|by intros [?|?]|exact Hq'].
    + simplify_eq. done.
    + simplify_eq. eapply moved_may; [exact I|exact Hk|by unfold current; rewrite Hpc|exact HM|clear -Hr Hpc; roles|by rewrite Hfb|
        intros _; unfold state_of; rewrite Hfb; cbn; by rewrite Hst|by intros [?|?]|exact Hq'].
    + unfold run_checkCb in E. rewrite Hfb in E. cbn [deref] in E. rewrite Hst in E. cbn [state_eqb finished] in E.
      injection E as <- <-.
      eapply moved_may; [exact I|exact Hk|by unfold current; rewrite Hpc|exact HM|clear -Hr Hpc; roles|
        cbn; by rewrite lookup_insert_eq|done|by intros [?|?]|exact Hq'].
  - assert (Hfr : y' = y \/ frames y tid y'); [|destruct Hfr as [->|Hfr]; [done|by eapply frames_may]].
    assert (Hput : forall p fb s k', touched k p -> (forall q, touched k' q -> touched k q) ->
      frames y tid (update y s (put (fib y) p fb) tid k')).
    { intros p fb s k' Hp Hk'. eexists k, _, _, _. split_and!; [done|done|eauto|].
      intros q Hnq _ _. cbn. rewrite lookup_insert_ne; [done|congruence]. }
    assert (Hid : forall s k', (forall q, touched k' q -> touched k q) -> frames y tid (update y s (fib y) tid k')).
    { intros s k' Hk'. eexists k, _, _, _. split_and!; [done|done|eauto|done]. }
    destruct (w_pc k) as [|ft a|g|g|g|c|c|c| | | |] eqn:Hpc; try (left; congruence); right.
    + by eapply pick_frames; [apply (si_tasks _ _ I)|..].
    + destruct (run_dispatch _ _ _ _ _ _ _) as [y1| | | |] eqn:E1; try done. injection E as <- <-.
      by eapply dispatch_frames.
    + injection E as <- <-. apply Hid. clear -Hpc; intros; roles.
    + unfold run_checkFiber in E. destruct (heap (fib y) !! g) as [fb|]; [|done]. cbn [deref] in E.
      unfold Scheduler_schedule, Scheduler_scheduleNoLock in E.
      destruct (state_eqb _ _); [|destruct (negb _)]; injection E as <- <-; (apply Hid || apply Hput);
        clear -Hpc; intros; first [by eapply touched_pick; [right|]|roles].
    + injection E as <- <-. apply Hid. clear -Hpc; intros; roles.
    + unfold run_checkCb in E. destruct (heap (fib y) !! c) as [fb|] eqn:Ec; [|done]. cbn [deref] in E.
      unfold Scheduler_schedule, Scheduler_scheduleNoLock in E. destruct (state_eqb _ _); [|destruct (finished _)].
      * injection E as <- <-. apply Hid. clear -Hpc; intros; by eapply touched_pick; [left|].
      * unfold Fiber_reset in E. rewrite Ec in E. cbn [deref] in E.
        destruct (m_stack fb); [|done]. destruct (finished _ || _); [|done]. cbn [assertb obind] in E.
        injection E as <- <-. apply Hput; clear -Hpc; intros; first [by eapply touched_pick; [by left + by right|]|roles].
      * injection E as <- <-. apply Hput; clear -Hpc; intros; first [by eapply touched_pick; [by left + by right|]|roles].
    + injection E as <- <-. apply Hid. clear -Hpc; intros; roles.
    + unfold run_checkIdle in E. destruct (heap (fib y) !! w_idle k) as [fb|]; [|done]. cbn [deref] in E.
      destruct (negb _); injection E as <- <-; (apply Hid || apply Hput); clear -Hpc; intros;
        first [by eapply touched_pick; [right|]|roles].
Qed.

(** The fiber on the CPU switches out. *)
Lemma out_frames y tid k m g fm fb (x : Fiber) out y' :
  workers y !! tid = Some k -> running (fib y) (w_tls k) m g fm fb ->
  w_pc k = InFiber g \/ w_pc k = InCb g \/ w_pc k = InIdle /\ w_idle k = g ->
  out (fib y) (w_tls k) = Ok (put (fib y) g x, back_to (w_tls k) m) ->
  fiber_out y tid out = Ok y' -> frames y tid y' /\ workers y' !! tid <> workers y !! tid.
Proof.
  intros Hk R Hpc Ho. unfold fiber_out. rewrite Hk. cbn [deref]. rewrite Ho. cbn [obind]. intros [= <-].
  pose proof (run_sched _ _ _ _ _ _ R) as Hs. split.
  - eexists k, _, _, _. split_and!; [done|done|clear -Hpc Hs; intros q Hq|].
    + unfold back_to in Hq. destruct Hpc as [Hpc|[Hpc|[Hpc Hi]]]; rewrite Hpc in Hq; cbn [left_pc] in Hq; left;
        unfold touched, reserved, current in *; cbn in *; rewrite Hpc;
        destruct Hq as [[?|[?|[?|(? & ? & ? & _)]]]|?]; try done;
        first [by left; left; congruence|by left; right; left|by left; right; right; left|by right].
    + intros q Hq _ _. cbn. rewrite lookup_insert_ne; [done|]. intros ->. apply Hq.
      destruct Hpc as [Hpc|[Hpc|[_ Hpc]]]; [by right; unfold current; rewrite Hpc..|left; right; by left].
  - cbn [update workers]. rewrite lookup_insert_eq. intros [= E]. apply (f_equal w_pc) in E. cbn in E.
    destruct Hpc as [Hpc|[Hpc|[Hpc _]]]; rewrite Hpc in E; done.
Qed.

Lemma spawn_may y tid main idle y' f :
  workers y !! tid = None -> heap (fib y) !! main = None -> heap (fib y) !! idle = None -> main <> idle ->
  run_enter dflt idle_cb y tid main idle = Ok y' -> may_schedule y f ->
  may_schedule y' f /\ forall t, executes y' f t -> executes y f t.
Proof.
  intros Ht H1 H2 Hne. unfold run_enter, Fiber_GetThis. cbn. rewrite bool_decide_eq_true_2 by done. cbn.
  intros [= <-] (Hq & Ha & Hw).
  assert (f <> main /\ f <> idle) as [Hm Hi] by (split; intros ->; by (rewrite H1 in Ha || rewrite H2 in Ha); destruct Ha).
  split; [split_and!; [done|cbn; by rewrite !lookup_insert_ne by done|]|].
  - intros t k. cbn [update workers]. rewrite lookup_insert. case_decide as Et.
    + intros [= <-]. split; [|done]. unfold reserved. cbn. naive_solver.
    + intros Hkt. unfold state_of. cbn. rewrite !lookup_insert_ne by done. by apply (Hw t).
  - intros t (kt & Hkt & Hp). cbn [update workers] in Hkt. rewrite lookup_insert in Hkt.
    case_decide; [simplify_eq; by destruct Hp|]. by exists kt.
Qed.

Lemma other_may own y sc st y' f :
  sys_inv own y -> ruled_step dflt idle_cb y sc st y' -> may_schedule y f -> f ∉ queued y' ->
  (forall tid, executes y f tid -> workers y' !! tid = workers y !! tid) ->
  may_schedule y' f /\ forall t, executes y' f t -> executes y f t.
Proof.
  intros I Hstep HM Hq' Hex. pose proof HM as (Hq & Ha & Hw).
  assert (Hout : forall tid k g out, workers y !! tid = Some k -> (w_pc k = InFiber g \/ w_pc k = InCb g) ->
    (forall m fm fb, running (fib y) (w_tls k) m g fm fb ->
       exists x, out (fib y) (w_tls k) = Ok (put (fib y) g x, back_to (w_tls k) m)) ->
    fiber_out y tid out = Ok y' -> may_schedule y' f /\ forall t, executes y' f t -> executes y f t).
  { intros tid k g out Hk Hpc Ho E. destruct (in_task own y tid k I Hk g Hpc) as (m & fm & fb & R & _).
    destruct (Ho m fm fb R) as [x Hx].
    destruct (out_frames y tid k m g fm fb x out y' Hk R ltac:(tauto) Hx E) as [Hf Hmv].
    eapply frames_may; [exact Hf|exact Hk| |done|done]. intros Hc. apply Hmv, Hex. exists k. split; [done|].
    unfold current in Hc. by destruct Hpc as [Hpc|Hpc]; rewrite Hpc in Hc; injection Hc as <-; [left|right]. }
  destruct Hstep as (act & Hstep & _).
  destruct Hstep as [tid main idle y' H1 H2 H3 H4 E|tid fresh t y' H1 E|p cb size H1|g thread|cb thread
    |tid k g y' H1 H2 E|tid k g y' H1 H2 E|tid k g threw y' H1 H2 E|tid k y' H1 H2 E|fl au].
  - exact (spawn_may y tid main idle y' f H1 H2 H3 H4 E HM).
  - by eapply run_may.
  - assert (f <> p) by (intros ->; rewrite H1 in Ha; by destruct Ha).
    split; [|done]. split_and!; [done|cbn; by rewrite lookup_insert_ne by done|].
    intros t k Hk. unfold state_of. cbn. rewrite lookup_insert_ne by done. by apply (Hw t).
  - split; [|done]. by split_and!.
  - split; [|done]. by split_and!.
  - eapply Hout; [exact H1|exact H2| |exact E]. intros m fm fb R. eexists. by eapply yieldToReady_ok.
  - eapply Hout; [exact H1|exact H2| |exact E]. intros m fm fb R. eexists. by eapply yieldToHold_ok.
  - eapply Hout; [exact H1|exact H2| |exact E]. intros m fm fb R. eexists. by eapply mainFunc_ok.
  - pose proof (si_workers _ _ I tid k H1) as (m & Hm & _ & _ & W). rewrite H2 in W.
    destruct W as (_ & fm & fb & R & _).
    assert (Hfr : frames y tid y').
    { unfold Scheduler_idle in E. destruct (Scheduler_stopping (sch y)).
      - eapply (out_frames y tid k m (w_idle k) fm fb); [done|done|tauto| |exact E]. by eapply mainFunc_ok.
      - eapply (out_frames y tid k m (w_idle k) fm fb); [done|done|tauto| |exact E]. by eapply yieldToHold_ok. }
    eapply frames_may; [exact Hfr|exact H1| |done|done]. unfold current. by rewrite H2.
  - split; [|done]. by split_and!.
Qed.

(** ** The invariant *)

Record sem_inv (z : sem_system) : Prop := {
  zi_sys : exists own, sys_inv own (z_sys z);
  zi_nodup : NoDup (waiting z);
  zi_may f : f ∈ waiting z -> may_schedule (z_sys z) f;
  zi_leaving f t : f ∈ waiting z -> executes (z_sys z) f t -> f ∈ z_leaving z
}.

Lemma executes_inj y f g t : executes y f t -> executes y g t -> f = g.
Proof. intros (k & Hk & H1) (k' & Hk' & H2). destruct H1, H2; congruence. Qed.

Lemma executes_own own y f t : sys_inv own y -> executes y f t -> own f = Run t.
Proof.
  intros I (k & Hk & Hpc). apply (current_own _ _ _ _ _ f (si_workers _ _ I t k Hk)).
  unfold current. by destruct Hpc as [-> | ->].
Qed.

(** A fiber that runs on a worker is nobody else's. *)
Lemma executes_may own y f t :
  sys_inv own y -> executes y f t -> f ∉ queued y -> may_schedule y f.
Proof.
  intros I He Hq. pose proof (executes_own _ _ _ _ I He) as Ho. destruct He as (k & Hk & Hpc).
  destruct (in_task own y t k I Hk f Hpc) as (m & fm & fb & R & _).
  split_and!; [done|by rewrite (run_p _ _ _ _ _ _ R)|]. intros t' k' Hk'. split.
  - pose proof (si_workers _ _ I t' k' Hk') as (m' & Hm & Hom & Hoi & W).
    assert (Hsp : spare_ok own (fib y) t' k' -> w_cb_fiber k' <> Some f) by (intros Hsp E; destruct (Hsp f E); congruence).
    intros [H|[H|[[H1 H2]|(ft & a & H1 & H2)]]]; [congruence|congruence| |].
    + unfold current in H2. destruct (w_pc k'); destruct_and!; try (by destruct Hsp); congruence.
    + rewrite H1 in W. destruct W as (_ & _ & _ & Hh & _). destruct (Hh f H2). congruence.
  - intros _. unfold state_of. rewrite (run_p _ _ _ _ _ _ R). cbn. by rewrite (run_state _ _ _ _ _ _ R).
Qed.

(** The fiber itself goes from the CPU into the hands of the loop. *)
Lemma leave_self own y tid k f y' :
  sys_inv own y -> workers y !! tid = Some k -> (w_pc k = InFiber f \/ w_pc k = InCb f) -> may_schedule y f ->
  fiber_yieldHold y tid = Ok y' -> may_schedule y' f /\ forall t, ~ executes y' f t.
Proof.
  intros I Hk Hpc Hmay. destruct (in_task own _ tid k I Hk f Hpc) as (m & fm & fb & R & _).
  pose proof (run_sched _ _ _ _ _ _ R) as Hs. unfold fiber_yieldHold, fiber_out. rewrite Hk. cbn [deref].
  rewrite (yieldToHold_ok _ _ _ _ _ _ 0 R). cbn [obind]. intros [= <-].
  assert (Hc : current k = Some f) by (unfold current; by destruct Hpc as [-> | ->]).
  assert (Hl : left_pc (w_pc k) = LeftFiber f \/ left_pc (w_pc k) = LeftCb f)
    by (destruct Hpc as [-> | ->]; [by left|by right]).
  pose proof Hmay as (Hqf & _ & Hw). destruct (Hw tid k Hk) as [Hr _].
  edestruct (moved_may own y tid k) as [Hmf Hexf]; [exact I|exact Hk|exact Hc|exact Hmay| | | | |
    |split; [exact Hmf|]].
  - intros [H|[H|[[H1 H2]|(ft & a & H1 & _)]]]; cbn in *.
    + apply Hr. left. congruence.
    + apply Hr. right. by left.
    + apply H2. unfold current. cbn. by destruct Hl as [-> | ->].
    + destruct Hl; congruence.
  - cbn. by rewrite lookup_insert_eq.
  - intros _. unfold state_of. cbn. rewrite lookup_insert_eq. cbn. by rewrite (run_state _ _ _ _ _ _ R).
  - cbn [w_pc]. intros Hp. destruct Hl, Hp; congruence.
  - exact Hqf.
  - intros t Ht. pose proof (executes_own _ _ _ _ I (Hexf t Ht)) as O1.
    assert (t = tid) as ->.
    { pose proof (current_own _ _ _ _ _ f (si_workers _ _ I tid k Hk) Hc). congruence. }
    destruct Ht as (kt & Hkt & Hp). cbn [update workers] in Hkt. rewrite lookup_insert_eq in Hkt.
    injection Hkt as <-. cbn [w_pc] in Hp. destruct Hl, Hp; congruence.
Qed.

Lemma leave_inv z tid f y' :
  sem_inv z -> executes (z_sys z) f tid -> f ∈ z_leaving z -> fiber_yieldHold (z_sys z) tid = Ok y' ->
  sem_inv (mkSemSystem y' (z_sem z) (filter (fun p => p <> f) (z_leaving z))).
Proof.
  intros [[own I] Hnd Hmay Hlv] Hex Hf E. pose proof Hex as (k & Hk & Hpc).
  assert (Hstep : ruled_step dflt idle_cb (z_sys z) [] (entered (z_sys z) y' tid) y')
    by (exists NoAct; split; [by eapply sys_yieldHold|done]).
  assert (Hother : queued y' = queued (z_sys z) /\ forall t, t <> tid -> workers y' !! t = workers (z_sys z) !! t).
  { revert E. unfold fiber_yieldHold, fiber_out. rewrite Hk. cbn [deref].
    destruct (Fiber_YieldToHold _ _ _) as [[w tl]| | | |]; try done. cbn [obind]. intros [= <-].
    split; [done|]. intros t Ht. cbn [update workers]. by rewrite lookup_insert_ne by congruence. }
  destruct Hother as [Hq Hother].
  assert (Hm : forall g, g ∈ waiting z ->
    may_schedule y' g /\ forall t, executes y' g t -> executes (z_sys z) g t /\ g <> f).
  { intros g Hg. destruct (decide (g = f)) as [->|Hne].
    - destruct (leave_self own _ tid k f y' I Hk Hpc (Hmay f Hg) E) as [? Hn]. split; [done|].
      intros t Ht. by destruct (Hn t).
    - destruct (other_may own _ _ _ _ g I Hstep (Hmay g Hg)) as [H1 H2];
        [rewrite Hq; apply (Hmay g Hg)| |by split; [|auto]].
      intros t Ht. apply Hother. intros ->. apply Hne. by eapply executes_inj. }
  constructor; unfold waiting in *; cbn [z_sys z_sem z_leaving].
  - by eapply sys_step_inv.
  - done.
  - intros g Hg. by apply Hm.
  - intros g t Hg Ht. destruct (Hm g Hg) as [_ H]. destruct (H t Ht). apply list_elem_of_filter. eauto.
Qed.

Lemma wait_inv z tid f blocks s' :
  sem_inv z -> executes (z_sys z) f tid -> f ∉ z_leaving z -> f ∉ queued (z_sys z) ->
  FiberSemaphore_wait (Some this) f (z_sem z) = Ok (blocks, s') ->
  sem_inv (mkSemSystem (z_sys z) s' (if blocks then f :: z_leaving z else z_leaving z)).
Proof.
  intros [[own I] Hnd Hmay Hlv] Hex Hl Hq. unfold FiberSemaphore_wait. cbn [non_null assertb deref].
  destruct (0 <? m_concurrency (z_sem z)); intros [= <- <-]; [constructor; eauto|].
  assert (Hn : f ∉ waiting z) by (intros H; by apply Hl, (Hlv f tid)).
  constructor; unfold waiting; cbn [z_sem m_waiters z_sys z_leaving]; rewrite ?map_app; cbn [map snd].
  - eauto.
  - apply NoDup_app. split_and!; [done|set_solver|apply NoDup_singleton].
  - intros g Hg. apply elem_of_app in Hg as [Hg|Hg]; [by apply Hmay|].
    apply list_elem_of_singleton in Hg as ->. by eapply executes_may.
  - intros g t Hg Ht. apply elem_of_app in Hg as [Hg|Hg]; [right; by eapply Hlv|].
    apply list_elem_of_singleton in Hg as ->. by left.
Qed.

(** [notify] hands over a fiber that may be scheduled: a step of the scheduler. *)
Lemma notify_inv z woken s' :
  sem_inv z -> FiberSemaphore_notify (z_sem z) = (woken, s') ->
  let y' := match woken with
            | Some (_, f) => mkSystem (snd (Scheduler_schedule (sch (z_sys z)) (mkFT (Some f) None (-1))))
                               (fib (z_sys z)) (workers (z_sys z))
            | None => z_sys z
            end in
  sem_inv (mkSemSystem y' s' (z_leaving z)) /\ (y' = z_sys z \/ ruled_step dflt idle_cb (z_sys z) [] [] y').
Proof.
  intros [[own I] Hnd Hmay Hlv] E y'. subst y'. unfold FiberSemaphore_notify, waiting in *.
  destruct (m_waiters (z_sem z)) as [|[g f] r]; injection E as <- <-.
  { split; [|by left]. constructor; cbn; eauto using NoDup_nil_2; intros ? *; by intros ?%not_elem_of_nil. }
  cbn [map snd] in *. apply NoDup_cons in Hnd as [Hf Hnd].
  set (y' := mkSystem _ _ _).
  assert (Hstep : ruled_step dflt idle_cb (z_sys z) [] [] y')
    by (exists (ActSchedule f); split; [apply sys_schedule_fiber|apply Hmay; by left]).
  split; [|by right]. constructor; unfold waiting; cbn [z_sem m_waiters z_sys z_leaving].
  - by eapply sys_step_inv.
  - done.
  - intros p Hp. destruct (Hmay p ltac:(by right)) as (Hq & Ha & Hw). split_and!; [|done|done].
    cbn. unfold queued. cbn. rewrite omap_app. cbn. apply not_elem_of_app. split; [done|].
    intros ->%list_elem_of_singleton. done.
  - intros p t Hp Ht. apply (Hlv p t); [by right|exact Ht].
Qed.

(** Every step keeps the invariant and is a step of the scheduler or none. *)
Lemma sem_step_inv z l z' :
  sem_inv z -> sem_step z l z' ->
  sem_inv z' /\ (z_sys z' = z_sys z \/ exists sc st, ruled_step dflt idle_cb (z_sys z) sc st (z_sys z')).
Proof.
  intros Hi Hstep. pose proof Hi as [[own I] Hnd Hmay Hlv].
  destruct Hstep as [sc st y' H [Ha Hb]|b s' E|tid f bl s' H1 H2 H3 E|tid f y' H1 H2 E|woken s' E|].
  - split; [|right; by eexists _, _].
    assert (Hm : forall f, f ∈ waiting z -> may_schedule y' f /\ forall t, executes y' f t -> executes (z_sys z) f t).
    { intros f Hf. eapply other_may; [exact I|exact H|by apply Hmay|by apply Ha|].
      intros t Ht. apply (Hb f); [by eapply Hlv|done]. }
    constructor; unfold waiting in *; cbn [z_sem z_sys z_leaving]; [by eapply sys_step_inv|done|..].
    + intros f Hf. by apply Hm.
    + intros f t Hf Ht. apply (Hlv f t Hf). by apply Hm.
  - split; [|by left]. unfold FiberSemaphore_tryWait in E. cbn [non_null assertb] in E.
    destruct (0 <? _); simplify_eq; constructor; eauto.
  - split; [by eapply wait_inv|by left].
  - split; [by eapply leave_inv|]. destruct H1 as (k & Hk & Hpc). right. eexists _, _, NoAct. split; [by eapply sys_yieldHold|done].
  - destruct (notify_inv z woken s' Hi E) as [? [?|?]]; (split; [done|]); [by left|right; by eexists _, _].
  - split; [|by left]. constructor; eauto.
Qed.
End composition.

(** A run of the composition from an idle scheduler is a run of the scheduler. *)
Lemma sem_steps_reach dflt idle_cb this s c tr z :
  sys_init s -> sem_steps dflt idle_cb this (mkSemSystem (sys0 s) (FiberSemaphore_new c) []) tr z ->
  sem_inv z /\ exists sc st, sys_reach dflt idle_cb client_rules (sys0 s) sc st (z_sys z).
Proof.
  intros Hs H. induction H as [|tr z l z' _ [IH (sc & st & Hr)] Hstep].
  - split; [|eexists _, _; apply reach_refl].
    constructor; cbn; [eexists; by apply init_inv|constructor|intros ? *; by intros ?%not_elem_of_nil..].
  - destruct (sem_step_inv dflt idle_cb this z l z' IH Hstep) as [? [->|(sc' & st' & Hst)]]; (split; [done|]); [by eexists _, _|].
    destruct Hst as (act & Hst & Hrule). eexists _, _. by eapply reach_step.
Qed.

(** What the trace says of the list of waiters. *)
Lemma sem_step_waiting dflt idle_cb this z l z' :
  sem_step dflt idle_cb this z l z' ->
  match l with
  | Some (Some f) => waiting z = f :: waiting z' /\ f ∈ queued (z_sys z')
  | Some None => waiting z = []
  | None => exists r, waiting z' = waiting z ++ r
  end.
Proof.
  destruct 1 as [sc st y' H _|b s' E|tid f bl s' H1 H2 H3 E|tid f y' H1 H2 E|woken s' E|]; unfold waiting; cbn [z_sem z_sys].
  - exists []. by rewrite app_nil_r.
  - exists []. rewrite app_nil_r. unfold FiberSemaphore_tryWait in E. cbn in E. by destruct (0 <? _); simplify_eq.
  - unfold FiberSemaphore_wait in E. cbn in E. destruct (0 <? _); simplify_eq; cbn;
      [exists []; by rewrite app_nil_r|]. rewrite map_app. by eexists.
  - exists []. by rewrite app_nil_r.
  - unfold FiberSemaphore_notify in E. destruct (m_waiters (z_sem z)) as [|[g f] r]; simplify_eq; cbn; [done|].
    split; [done|]. unfold queued. cbn. rewrite omap_app. cbn. apply elem_of_app. right. by left.
  - exists []. by rewrite app_nil_r.
Qed.

Lemma sem_steps_waiting dflt idle_cb this z tr z' :
  sem_steps dflt idle_cb this z tr z' ->
  forall i f, waiting z !! i = Some f ->
  (length tr <= i)%nat /\ waiting z' !! (i - length tr)%nat = Some f \/
  (i < length tr)%nat /\ exists z1 z2, sem_steps dflt idle_cb this z (take i tr) z1 /\
    sem_step dflt idle_cb this z1 (Some (Some f)) z2 /\ f ∈ queued (z_sys z2) /\ tr !! i = Some (Some f).
Proof.
  induction 1 as [|tr z1 l z' Hst IH Hstep]; intros i f Hi; [left; cbn; split; [lia|by rewrite Nat.sub_0_r]|].
  pose proof (sem_step_waiting _ _ _ _ _ _ Hstep) as Hw.
  destruct (IH i f Hi) as [[Hle Hf]|(Hlt & za & zb & H1 & H2 & H3 & H4)].
  - destruct l as [[g|]|]; rewrite ?app_nil_r.
    + destruct Hw as [Hw Hq]. rewrite Hw in Hf. rewrite length_app. cbn [length].
      destruct (i - length tr)%nat as [|j] eqn:Ej; cbn in Hf.
      * injection Hf as ->. right. split; [lia|]. exists z1, z'. assert (i = length tr) as -> by lia.
        rewrite take_app_length. split_and!; try done. by rewrite list_lookup_middle.
      * left. split; [lia|]. by replace (i - (length tr + 1))%nat with j by lia.
    + by rewrite Hw in Hf.
    + left. split; [done|]. destruct Hw as [r ->]. by apply lookup_app_l_Some.
  - right. rewrite length_app. split; [lia|]. exists za, zb. rewrite take_app_le by lia. split_and!; try done.
    by apply lookup_app_l_Some.
Qed.

(** ** Theorems *)

(** C11: the semaphore is an office that calls numbers.  After any sequence of
    [wait], [tryWait], [notify] and [reset] calls in the order of the lock, the fibers
    that got past it are exactly the first [tickets] of those that asked, in the order
    in which they asked; the list of waiters is the rest in that order; [tryWait]
    answers whether a number was free; and [getConcurrency] is how many are left. *)
Theorem FiberSemaphore_tickets c ops :
  Z.of_nat c + Z.of_nat (length ops) < 2 ^ 64 ->
  let '(answers, o) := ticket_run (mkOffice c []) ops in
  exists s, sem_run (FiberSemaphore_new (Z.of_nat c)) ops = Ok (answers, take (tickets o) (arrivals o), s) /\
    m_waiters s = drop (tickets o) (arrivals o) /\
    FiberSemaphore_getConcurrency s = Z.of_nat (tickets o - length (arrivals o)).
Proof.
  intros Hlt. destruct (sem_run_rep (mkOffice c []) (FiberSemaphore_new (Z.of_nat c)) ops) as (p & s & E & [Hw Hc] & Hp).
  - split; cbn; [by rewrite drop_nil|lia].
  - done.
  - destruct (ticket_run _ _) as [l o]. cbn in *. exists s. unfold passed in Hp. cbn in Hp. rewrite take_nil in Hp.
    cbn in Hp. by rewrite Hp.
Qed.

(** Waking is safe in the presence of the race between entering the list and
    switching out.  In every state that workers, fibers and calls of the semaphore
    reach from an idle scheduler, the workers are in a state that they also reach
    without the semaphore by scheduling only what may be scheduled, no fiber waits
    twice, and every fiber in the list may be handed to [schedule] at any moment, also
    while it is still on a CPU on its way out. *)
Lemma FiberSemaphore_wakes_safely dflt idle_cb this s c tr z :
  sys_init s -> sem_steps dflt idle_cb this (mkSemSystem (sys0 s) (FiberSemaphore_new c) []) tr z ->
  (exists sc st, sys_reach dflt idle_cb client_rules (sys0 s) sc st (z_sys z)) /\
  NoDup (waiting z) /\
  (forall f, f ∈ waiting z -> may_schedule (z_sys z) f).
Proof. intros Hs H. destruct (sem_steps_reach _ _ _ _ _ _ _ Hs H) as [[_ Hn Hm _] Hr]. eauto. Qed.

(** C12: notifications reach the waiters in the order of the list.  Take any run of
    workers, fibers and calls of the semaphore from a state in which the fiber [f] is at
    position [k] of the list.  As long as at most [k] calls of [notify] were made, [f] is
    still in the list, that many places further up; and when [k] calls were made, the
    next call of [notify], whatever happened in between, is the one that hands [f] to its
    scheduler: after it [f] is in the queue. *)
Theorem FiberSemaphore_wakes dflt idle_cb this z tr z1 k f :
  sem_steps dflt idle_cb this z tr z1 -> waiting z !! k = Some f -> (length tr <= k)%nat ->
  waiting z1 !! (k - length tr)%nat = Some f /\
  (length tr = k -> forall woken z2, sem_step dflt idle_cb this z1 (Some woken) z2 ->
     woken = Some f /\ f ∈ queued (z_sys z2)).
Proof.
  intros H Hf Hle. destruct (sem_steps_waiting _ _ _ _ _ _ H k f Hf) as [[_ Hw]|[Hlt _]]; [|lia].
  split; [done|]. intros Hk woken z2 Hs. rewrite Hk, Nat.sub_diag in Hw.
  apply sem_step_waiting in Hs. destruct woken as [g|]; [|by rewrite Hs in Hw].
  destruct Hs as [E Hq]. rewrite E in Hw. injection Hw as <-. done.
Qed.

Lemma FiberSemaphore_tickets_witness :
  exists s, sem_run (FiberSemaphore_new 1) [OpWait 0 5; OpWait 0 6; OpTryWait 0 7; OpWait 0 8; OpNotify]
    = Ok ([None; None; Some false; None; None], [(0, 5); (0, 6)], s) /\ m_waiters s = [(0, 8)].
Proof.
  pose proof (FiberSemaphore_tickets 1 [OpWait 0 5; OpWait 0 6; OpTryWait 0 7; OpWait 0 8; OpNotify] ltac:(cbn; lia)) as H.
  cbn -[sem_run FiberSemaphore_new] in H. destruct H as (s & E & Hw & _). eauto.
Defined.

(** A worker takes a function, which calls [wait] on an empty semaphore. *)
Lemma sem_demo :
  exists z, sem_steps 131072 0 1 (mkSemSystem (sys0 idle_scheduler) (FiberSemaphore_new 0) []) [] z /\
    waiting z = [5] /\ z_leaving z = [5] /\ executes (z_sys z) 5 10.
Proof.
  assert (Hs : forall tr z sc st y', sem_steps 131072 0 1 (mkSemSystem (sys0 idle_scheduler) (FiberSemaphore_new 0) []) tr z ->
    waiting z = [] -> z_leaving z = [] -> sys_step 131072 0 (z_sys z) NoAct sc st y' ->
    sem_steps 131072 0 1 (mkSemSystem (sys0 idle_scheduler) (FiberSemaphore_new 0) []) tr (mkSemSystem y' (z_sem z) (z_leaving z))).
  { intros tr z sc st y' Hz Hw Hl Hst. rewrite <- (app_nil_r tr). eapply (sem_steps_step _ _ _ _ tr z None); [done|].
    eapply ss_other; [by exists NoAct|]. split; [rewrite Hw|rewrite Hl]; by intros ? ?%not_elem_of_nil || (intros ? ? ?%not_elem_of_nil). }
  assert (H : exists z, sem_steps 131072 0 1 (mkSemSystem (sys0 idle_scheduler) (FiberSemaphore_new 0) []) [] z /\
    (z_sem z = FiberSemaphore_new 0 /\ z_leaving z = [] /\ w_pc <$> workers (z_sys z) !! 10 = Some (InCb 5) /\ queued (z_sys z) = [])).
  { eexists. split.
    - eapply (Hs _ (mkSemSystem _ _ _)).
      1: eapply (Hs _ (mkSemSystem _ _ _)).
      1: eapply (Hs _ (mkSemSystem _ _ _)).
      1: eapply (Hs _ (mkSemSystem _ _ _)); [apply sem_steps_refl|done|done|].
      + eapply (sys_spawn _ _ _ 10 1 2); try reflexivity. done.
      + done.
      + done.
      + apply (sys_schedule_cb _ _ _ 77 (-1)).
      + done.
      + done.
      + eapply (sys_run_eq _ _ _ 10 5); vm_compute; reflexivity.
      + done.
      + done.
      + eapply (sys_run_eq _ _ _ 10 5); vm_compute; reflexivity.
    - vm_compute. done. }
  destruct H as (z & Hz & Esem & El & Hpc & Hq). apply fmap_Some in Hpc as (k & Hk & Epc).
  assert (Hex : executes (z_sys z) 5 10) by (exists k; split; [done|by right]).
  eexists. split; [eapply (sem_steps_step _ _ _ _ [] _ None); [exact Hz|eapply (ss_wait _ _ _ _ 10 5 true); [exact Hex|..]]|].
  - rewrite El. apply not_elem_of_nil.
  - rewrite Hq. apply not_elem_of_nil.
  - rewrite Esem. reflexivity.
  - unfold waiting. cbn. by rewrite El.
Qed.

Lemma FiberSemaphore_wakes_safely_witness :
  exists z, waiting z = [5] /\ executes (z_sys z) 5 10 /\ may_schedule (z_sys z) 5.
Proof.
  destruct sem_demo as (z & Hz & Hw & _ & He). exists z. split_and!; [done|done|].
  apply (FiberSemaphore_wakes_safely 131072 0 1 idle_scheduler 0 [] z ltac:(done) Hz). rewrite Hw. by left.
Defined.

(** The same fiber is woken while it is still on the CPU. *)
Lemma FiberSemaphore_wakes_witness :
  exists z z2, waiting z = [5] /\ executes (z_sys z) 5 10 /\
    sem_step 131072 0 1 z (Some (Some 5)) z2 /\ 5 ∈ queued (z_sys z2).
Proof.
  destruct sem_demo as (z & Hz & Hw & _ & He). pose proof Hw as Hw'. unfold waiting in Hw'.
  destruct (m_waiters (z_sem z)) as [|[g f] [|? ?]] eqn:Ew; try done. cbn in Hw'. injection Hw' as ->.
  assert (Hn : FiberSemaphore_notify (z_sem z) = (Some (g, 5), mkSem [] (m_concurrency (z_sem z))))
    by (unfold FiberSemaphore_notify; by rewrite Ew).
  pose proof (ss_notify 131072 0 1 z _ _ Hn) as Hs.
  destruct (FiberSemaphore_wakes 131072 0 1 z [] z 0 5 (sem_steps_refl _ _ _ z)) as [_ H]; [by rewrite Hw|cbn; lia|].
  destruct (H eq_refl _ _ Hs) as [_ Hq]. exists z. eexists. split_and!; [done|done|exact Hs|exact Hq].
Defined.
