(* ===== verification/Locks.v ===== *)
(** * Locks ([mutex.h], [mutex.cc])

    Mutexes, read-write locks, spin locks and the scoped locks that take and release
    them.  A lock of the thread library is the list of its holders; a call that would
    wait is [None].  Then any number of threads that use a lock through scoped locks, and
    the lock built from an atomic flag. *)

From S2P Require Import Prelude.
From Stdlib Require Import ZArith Lia List.
From stdpp Require Import base tactics list numbers option relations.

Open Scope Z_scope.
Open Scope list_scope.

(** ** The locks of the thread library *)

Inductive mode := Shared | Exclusive.

#[export] Instance mode_eq_dec : EqDecision mode.
Proof. solve_decision. Defined.

(** Threads are numbers; a lock is held by several readers or by one writer. *)
Abbreviation plock := (list (nat * mode)).
Implicit Types (l : plock) (t : nat).

Definition can_take l (m : mode) : bool :=
  match m with
  | Shared => forallb (fun h => bool_decide (h.2 = Shared)) l
  | Exclusive => match l with [] => true | _ => false end
  end.

(** What a call that takes a lock leads to: it is taken, the caller waits, or the system
    notices that the caller holds the lock for writing already ([EDEADLK]).  Whether it
    does so is [detects]. *)
Inductive taking := Granted (l : plock) | Waits | Deadlk.

Definition pthread_take (detects : bool) t (m : mode) l : taking :=
  if detects && bool_decide ((t, Exclusive) ∈ l) then Deadlk
  else if can_take l m then Granted ((t, m) :: l) else Waits.

Fixpoint release_one t l : option plock :=
  match l with
  | [] => None
  | h :: l => if decide (h.1 = t) then Some l else (fun l' => h :: l') <$> release_one t l
  end.

(** To unlock what one does not hold is undefined. *)
Definition pthread_unlock t l : outcome plock := deref (release_one t l) Ok.

(** The result of the call is not looked at. *)
Definition unchecked (r : taking) l : option plock :=
  match r with Granted l' => Some l' | Waits => None | Deadlk => Some l end.

(** ** The classes *)

(** @src mutex.h:86-86 Mutex::lock *)
Definition Mutex_lock t l : option plock := unchecked (pthread_take false t Exclusive l) l.

(** @src mutex.h:88-88 Mutex::unlock *)
Definition Mutex_unlock t l : outcome plock := pthread_unlock t l.

(** @src mutex.h:184-184 Spinlock::lock *)
Definition Spinlock_lock t l : option plock := unchecked (pthread_take false t Exclusive l) l.

(** @src mutex.h:186-186 Spinlock::unlock *)
Definition Spinlock_unlock t l : outcome plock := pthread_unlock t l.

(** @src mutex.h:165-165 RWMutex::rdlock *)
Definition RWMutex_rdlock (detects : bool) t l : option plock := unchecked (pthread_take detects t Shared l) l.

(** @src mutex.h:167-167 RWMutex::wrlock *)
Definition RWMutex_wrlock (detects : bool) t l : option plock := unchecked (pthread_take detects t Exclusive l) l.

(** @src mutex.h:169-169 RWMutex::unlock *)
Definition RWMutex_unlock t l : outcome plock := pthread_unlock t l.

(** Scoped locks of a class with a function that takes the lock and one that releases
    it; the state of a scoped lock is [m_locked]. *)
Section scoped.
Context {M : Type} (take : nat -> M -> option M) (release : nat -> M -> outcome M).

(** @src mutex.h:49-52 ScopedLockImpl::ScopedLockImpl *)
Definition ScopedLockImpl_new t (m : M) : option (bool * M) := (fun m => (true, m)) <$> take t m.

(** @src mutex.h:58-63 ScopedLockImpl::lock *)
Definition ScopedLockImpl_lock t (locked : bool) (m : M) : option (bool * M) :=
  if negb locked then (fun m => (true, m)) <$> take t m else Some (locked, m).

(** @src mutex.h:65-70 ScopedLockImpl::unlock *)
Definition ScopedLockImpl_unlock t (locked : bool) (m : M) : outcome (bool * M) :=
  if locked then let! m := release t m in Ok (false, m) else Ok (locked, m).

(** @src mutex.h:54-56 ScopedLockImpl::~ScopedLockImpl *)
Definition ScopedLockImpl_delete t (locked : bool) (m : M) : outcome M :=
  let! (_, m) := ScopedLockImpl_unlock t locked m in Ok m.

End scoped.

Section rwlock.
Context (detects : bool).

(** @src mutex.h:98-101 ReadScopedLockImpl::ReadScopedLockImpl *)
Definition ReadScopedLockImpl_new := ScopedLockImpl_new (RWMutex_rdlock detects).
(** @src mutex.h:107-112 ReadScopedLockImpl::lock *)
Definition ReadScopedLockImpl_lock := ScopedLockImpl_lock (RWMutex_rdlock detects).
(** @src mutex.h:114-119 ReadScopedLockImpl::unlock *)
Definition ReadScopedLockImpl_unlock := ScopedLockImpl_unlock RWMutex_unlock.
(** @src mutex.h:103-105 ReadScopedLockImpl::~ReadScopedLockImpl *)
Definition ReadScopedLockImpl_delete := ScopedLockImpl_delete RWMutex_unlock.

(** @src mutex.h:129-132 WriteScopedLockImpl::WriteScopedLockImpl *)
Definition WriteScopedLockImpl_new := ScopedLockImpl_new (RWMutex_wrlock detects).
(** @src mutex.h:136-141 WriteScopedLockImpl::lock *)
Definition WriteScopedLockImpl_lock := ScopedLockImpl_lock (RWMutex_wrlock detects).
(** @src mutex.h:143-148 WriteScopedLockImpl::unlock *)
Definition WriteScopedLockImpl_unlock := ScopedLockImpl_unlock RWMutex_unlock.
(** @src mutex.h:134-134 WriteScopedLockImpl::~WriteScopedLockImpl *)
Definition WriteScopedLockImpl_delete := ScopedLockImpl_delete RWMutex_unlock.

(** ** Threads that use a read-write lock through scoped locks *)

(** A scoped lock: the thread in whose stack it is, its class and [m_locked]. *)
Record guard := mkGuard { g_thread : nat; g_mode : mode; g_locked : bool }.

Record locks := mkLocks { lk : plock; guards : list guard }.
Implicit Types s : locks.

(** What threads do; a scoped lock is named by its place in the list. *)
Inductive lock_op :=
| New (t : nat) (m : mode)
| Lock (g : nat)
| Unlock (g : nat)
| Delete (g : nat).

Definition guard_new (m : mode) := match m with Shared => ReadScopedLockImpl_new | Exclusive => WriteScopedLockImpl_new end.
Definition guard_lock (m : mode) := match m with Shared => ReadScopedLockImpl_lock | Exclusive => WriteScopedLockImpl_lock end.
Definition guard_unlock (m : mode) := match m with Shared => ReadScopedLockImpl_unlock | Exclusive => WriteScopedLockImpl_unlock end.
Definition guard_delete (m : mode) := match m with Shared => ReadScopedLockImpl_delete | Exclusive => WriteScopedLockImpl_delete end.

Definition set_locked (g : guard) (b : bool) : guard := mkGuard (g_thread g) (g_mode g) b.

(** One operation; [Ok None] if the thread has to wait. *)
Definition lock_step s (o : lock_op) : outcome (option locks) :=
  match o with
  | New t m =>
    match guard_new m t (lk s) with
    | None => Ok None
    | Some (b, l) => Ok (Some (mkLocks l (guards s ++ [mkGuard t m b])))
    end
  | Lock i =>
    deref (guards s !! i) (fun g =>
    match guard_lock (g_mode g) (g_thread g) (g_locked g) (lk s) with
    | None => Ok None
    | Some (b, l) => Ok (Some (mkLocks l (<[i := set_locked g b]> (guards s))))
    end)
  | Unlock i =>
    deref (guards s !! i) (fun g =>
    let! (b, l) := guard_unlock (g_mode g) (g_thread g) (g_locked g) (lk s) in
    Ok (Some (mkLocks l (<[i := set_locked g b]> (guards s)))))
  | Delete i =>
    deref (guards s !! i) (fun g =>
    let! l := guard_delete (g_mode g) (g_thread g) (g_locked g) (lk s) in
    Ok (Some (mkLocks l (delete i (guards s)))))
  end.

(** The holders according to the scoped locks. *)
Definition held_by (g : guard) : option (nat * mode) := if g_locked g then Some (g_thread g, g_mode g) else None.

(** The rule for threads: they use scoped locks that exist, and, where the system
    reports [EDEADLK], a thread does not lock what it has locked for writing. *)
Definition polite s (o : lock_op) : Prop :=
  match o with
  | New t _ => detects = true -> (t, Exclusive) ∉ omap held_by (guards s)
  | Lock i => exists g, guards s !! i = Some g /\
      (detects = true -> g_locked g = false -> (g_thread g, Exclusive) ∉ omap held_by (guards s))
  | Unlock i | Delete i => is_Some (guards s !! i)
  end.

Inductive lock_reach : locks -> Prop :=
| reach_init : lock_reach (mkLocks [] [])
| reach_step s o s' : lock_reach s -> polite s o -> lock_step s o = Ok (Some s') -> lock_reach s'.

(** ** The invariant *)

Record locks_ok s : Prop := {
  holders_exact : lk s ≡ₚ omap held_by (guards s);
  holders_compatible : forall h, h ∈ lk s -> h.2 = Exclusive -> lk s = [h]
}.

Lemma can_take_ok l m : can_take l m = true -> (forall h, h ∈ l -> h.2 = Exclusive -> l = [h]) ->
  forall t h, h ∈ (t, m) :: l -> h.2 = Exclusive -> (t, m) :: l = [h].
Proof.
  intros Hc Hl t h Hh He. destruct m; cbn in Hc.
  - rewrite forallb_forall in Hc. apply elem_of_cons in Hh as [->|Hh]; [done|].
    apply list_elem_of_In, Hc, bool_decide_eq_true in Hh. congruence.
  - destruct l; [|done]. by apply list_elem_of_singleton in Hh as ->.
Qed.

Lemma unchecked_take t m l :
  (detects = true -> (t, Exclusive) ∉ l) ->
  unchecked (pthread_take detects t m l) l = if can_take l m then Some ((t, m) :: l) else None.
Proof.
  intros Hn. unfold pthread_take. destruct detects; cbn [andb]; [rewrite (bool_decide_eq_false_2 _ (Hn eq_refl))|];
    by destruct (can_take l m).
Qed.

Lemma release_one_spec t m l : (t, m) ∈ l -> exists h l', release_one t l = Some l' /\ l ≡ₚ h :: l' /\ h.1 = t /\ h ∈ l.
Proof.
  induction l as [|h l IH]; cbn; [by intros ?%not_elem_of_nil|]. intros Hin. case_decide as E.
  - exists h, l. split_and!; [done|done|done|by left].
  - apply elem_of_cons in Hin as [<-|Hin]; [done|]. destruct (IH Hin) as (h' & l' & -> & Hp & Ht & Hh).
    exists h', (h :: l'). split_and!; [done|rewrite Hp; apply Permutation_swap|done|by right].
Qed.

(** The thread releases the lock in the mode in which it holds it. *)
Lemma unlock_ok t m l : (forall h, h ∈ l -> h.2 = Exclusive -> l = [h]) -> (t, m) ∈ l ->
  exists l', pthread_unlock t l = Ok l' /\ l ≡ₚ (t, m) :: l' /\ (forall h, h ∈ l' -> h.2 = Exclusive -> l' = [h]).
Proof.
  intros Hl Hin. destruct (release_one_spec t m l Hin) as (h & l' & E & Hp & Ht & Hh). exists l'. unfold pthread_unlock. rewrite E.
  assert (h = (t, m)) as ->.
  { destruct h as [t' m']. cbn in Ht. subst t'. destruct (decide (m = m')) as [->|Hne]; [done|].
    assert (m = Exclusive \/ m' = Exclusive) as [-> | ->] by (destruct m, m'; by auto).
    - specialize (Hl _ Hin eq_refl). rewrite Hl in Hh. apply list_elem_of_singleton in Hh. congruence.
    - specialize (Hl _ Hh eq_refl). rewrite Hl in Hin. apply list_elem_of_singleton in Hin. congruence. }
  split_and!; [done|done|]. intros h' Hh' He.
  assert (h' ∈ l) as Hin' by (rewrite Hp; by right). specialize (Hl _ Hin' He). rewrite Hl in Hp.
  apply Permutation_singleton_l in Hp. destruct l'; [by apply not_elem_of_nil in Hh'|done].
Qed.

Lemma omap_update i g g' gs : gs !! i = Some g ->
  exists rest, omap held_by gs ≡ₚ option_list (held_by g) ++ rest /\
    omap held_by (<[i := g']> gs) ≡ₚ option_list (held_by g') ++ rest /\ omap held_by (delete i gs) ≡ₚ rest.
Proof.
  intros Hi. exists (omap held_by (take i gs ++ drop (S i) gs)). split_and!.
  - rewrite <- (take_drop_middle gs i g Hi) at 1. rewrite !omap_app. cbn [omap list_omap].
    destruct (held_by g); cbn; [symmetry; apply Permutation_middle|done].
  - rewrite insert_take_drop by (by eapply lookup_lt_Some). rewrite !omap_app. cbn [omap list_omap].
    destruct (held_by g'); cbn; [symmetry; apply Permutation_middle|done].
  - by rewrite delete_take_drop.
Qed.

(** The lock after a guard took it. *)
Lemma locks_take s t m gs l :
  locks_ok s -> (detects = true -> (t, Exclusive) ∉ omap held_by (guards s)) -> unchecked (pthread_take detects t m (lk s)) (lk s) = Some l ->
  omap held_by gs ≡ₚ (t, m) :: omap held_by (guards s) -> locks_ok (mkLocks l gs).
Proof.
  intros [He Hc] Hn Ht Hg. rewrite unchecked_take in Ht by (by rewrite He). destruct (can_take (lk s) m) eqn:E; simplify_eq.
  split; cbn; [by rewrite Hg, He|by apply can_take_ok].
Qed.

Lemma locks_release s i g gs b l :
  locks_ok s -> guards s !! i = Some g -> gs = <[i := set_locked g b]> (guards s) /\ b = false \/ gs = delete i (guards s) ->
  g_locked g = true -> pthread_unlock (g_thread g) (lk s) = Ok l -> locks_ok (mkLocks l gs).
Proof.
  intros [He Hc] Hi Hg Hl Hu. destruct (omap_update i g (set_locked g b) (guards s) Hi) as (rest & P1 & P2 & P3).
  unfold held_by at 2 in P1. rewrite Hl in P1. cbn in P1.
  destruct (unlock_ok (g_thread g) (g_mode g) (lk s) Hc) as (l' & E & Hp & Hc'); [rewrite He, P1; by left|].
  rewrite Hu in E. simplify_eq. split; [cbn|done]. rewrite He, P1 in Hp. apply Permutation_cons_inv in Hp. rewrite <- Hp.
  destruct Hg as [[-> ->]| ->]; [by rewrite P2|by rewrite P3].
Qed.

(** Releasing or destroying a scoped lock never fails. *)
Lemma locks_unlock_ok s i g : locks_ok s -> guards s !! i = Some g -> g_locked g = true ->
  exists l, pthread_unlock (g_thread g) (lk s) = Ok l.
Proof.
  intros [He Hc] Hi Hl. destruct (omap_update i g g (guards s) Hi) as (rest & P1 & _).
  unfold held_by at 2 in P1. rewrite Hl in P1. cbn in P1.
  destruct (unlock_ok (g_thread g) (g_mode g) (lk s) Hc) as (l' & E & _); [rewrite He, P1; by left|]. eauto.
Qed.

Lemma locks_ok_nothing s i g gs : locks_ok s -> guards s !! i = Some g -> g_locked g = false ->
  gs = <[i := set_locked g false]> (guards s) \/ gs = delete i (guards s) -> locks_ok (mkLocks (lk s) gs).
Proof.
  intros [He Hc] Hi Hl Hg. destruct (omap_update i g (set_locked g false) (guards s) Hi) as (rest & P1 & P2 & P3).
  unfold held_by at 2 in P1. rewrite Hl in P1. cbn in P1. split; [cbn|done]. rewrite He, P1.
  destruct Hg as [-> | ->]; [by rewrite P2|by rewrite P3].
Qed.

Lemma set_locked_same g i (gs : list guard) : gs !! i = Some g -> <[i := set_locked g (g_locked g)]> gs = gs.
Proof. intros H. apply list_insert_id. by destruct g. Qed.

Lemma lock_step_ok s o : locks_ok s -> polite s o ->
  exists r, lock_step s o = Ok r /\ forall s', r = Some s' -> locks_ok s'.
Proof.
  intros Hs Hp. destruct o as [t m|i|i|i]; cbn [lock_step polite] in *.
  - assert (guard_new m t (lk s) = (fun l => (true, l)) <$> unchecked (pthread_take detects t m (lk s)) (lk s)) as -> by (by destruct m).
    destruct (unchecked _ _) as [l|] eqn:E; cbn; eexists; (split; [reflexivity|]); [|done]. intros s' [= <-].
    eapply locks_take; [done|done|exact E|]. rewrite omap_app. cbn. by rewrite Permutation_app_comm.
  - destruct Hp as (g & Hi & Hp). rewrite Hi. cbn [deref].
    assert (guard_lock (g_mode g) (g_thread g) (g_locked g) (lk s) =
      if g_locked g then Some (true, lk s) else (fun l => (true, l)) <$> unchecked (pthread_take detects (g_thread g) (g_mode g) (lk s)) (lk s)) as ->
      by (by destruct g as [t [] []]).
    destruct (g_locked g) eqn:El.
    { eexists. split; [reflexivity|]. intros s' [= <-]. rewrite <- El, set_locked_same by done. by destruct s. }
    destruct (unchecked _ _) as [l|] eqn:E; cbn; eexists; (split; [reflexivity|]); [|done]. intros s' [= <-].
    destruct (omap_update i g (set_locked g true) (guards s) Hi) as (rest & P1 & P2 & _).
    unfold held_by at 2 in P1. rewrite El in P1. cbn in P1. eapply locks_take; [done|by intros; apply Hp|exact E|by rewrite P2, P1].
  - destruct Hp as [g Hi]. rewrite Hi. cbn [deref].
    replace (guard_unlock (g_mode g) (g_thread g) (g_locked g) (lk s)) with
      (ScopedLockImpl_unlock pthread_unlock (g_thread g) (g_locked g) (lk s)) by (by destruct g as [t [] ?]).
    unfold ScopedLockImpl_unlock. destruct (g_locked g) eqn:El.
    + destruct (locks_unlock_ok s i g Hs Hi El) as (l & E). rewrite E. cbn. eexists. split; [reflexivity|]. intros s' [= <-].
      eapply locks_release; [done|done|by left|done|done].
    + cbn. eexists. split; [reflexivity|]. intros s' [= <-]. eapply locks_ok_nothing; [done..|by left].
  - destruct Hp as [g Hi]. rewrite Hi. cbn [deref].
    replace (guard_delete (g_mode g) (g_thread g) (g_locked g) (lk s)) with
      (ScopedLockImpl_delete pthread_unlock (g_thread g) (g_locked g) (lk s)) by (by destruct g as [t [] ?]).
    unfold ScopedLockImpl_delete, ScopedLockImpl_unlock. destruct (g_locked g) eqn:El.
    + destruct (locks_unlock_ok s i g Hs Hi El) as (l & E). rewrite E. cbn. eexists. split; [reflexivity|]. intros s' [= <-].
      eapply locks_release; [done|done|by right|done|done]. Unshelve. exact false.
    + cbn. eexists. split; [reflexivity|]. intros s' [= <-]. eapply locks_ok_nothing; [done..|by right].
Qed.

Lemma lock_reach_ok s : lock_reach s -> locks_ok s.
Proof.
  induction 1 as [|s o s' _ IH Hp E]; [split; [done|by intros h ?%not_elem_of_nil]|].
  destruct (lock_step_ok s o IH Hp) as (r & E' & H). apply H. congruence.
Qed.

Lemma guard_new_free t m : guard_new m t [] = Some (true, [(t, m)]).
Proof.
  assert (guard_new m t [] = (fun l => (true, l)) <$> unchecked (pthread_take detects t m []) []) as -> by (by destruct m).
  rewrite unchecked_take by (intros _; apply not_elem_of_nil). by destruct m.
Qed.

(** Two scoped locks that are locked. *)
Lemma two_held i j g g' gs : i <> j -> gs !! i = Some g -> gs !! j = Some g' -> g_locked g = true -> g_locked g' = true ->
  exists rest, omap held_by gs ≡ₚ (g_thread g, g_mode g) :: (g_thread g', g_mode g') :: rest.
Proof.
  intros Hij Hi Hj Hl Hl'. destruct (omap_update i g (set_locked g false) gs Hi) as (rest & P1 & P2 & _).
  assert (<[i := set_locked g false]> gs !! j = Some g') as Hj' by (by rewrite list_lookup_insert_ne).
  destruct (omap_update j g' g' _ Hj') as (rest' & Q1 & _).
  unfold held_by at 2 in P1. unfold held_by at 2 in P2. unfold held_by at 2 in Q1. rewrite Hl in P1. rewrite Hl' in Q1. cbn in P1, P2, Q1. exists rest'. by rewrite P1, <- P2, Q1.
Qed.

(** C16: scoped locks keep readers and writers apart.  Threads lock and unlock scoped
    locks on one read-write lock in any order, under one rule ([polite]) where the system
    reports [EDEADLK]: a thread does not take the lock while it holds it for writing.  In
    every state they can reach: no operation that keeps to the rule is
    undefined; if one scoped lock is locked for writing, no other one is locked at all;
    and when none is locked the lock is free, so that it can be taken at once.
    ([nested_rwlock_unlocks_early]: without the rule the inner scope releases the outer
    one's lock.) *)
Theorem scoped_locks_exclusive s : lock_reach s ->
  (forall o, polite s o -> exists r, lock_step s o = Ok r) /\
  (forall i j g g', i <> j -> guards s !! i = Some g -> guards s !! j = Some g' -> g_locked g = true -> g_locked g' = true ->
     g_mode g = Shared /\ g_mode g' = Shared) /\
  ((forall g, g ∈ guards s -> g_locked g = false) -> lk s = [] /\ forall t m, exists s', lock_step s (New t m) = Ok (Some s')).
Proof.
  intros Hr. pose proof (lock_reach_ok s Hr) as Hs. split_and!.
  - intros o Hp. destruct (lock_step_ok s o Hs Hp) as (r & E & _). eauto.
  - intros i j g g' Hij Hi Hj Hl Hl'. destruct (two_held i j g g' _ Hij Hi Hj Hl Hl') as (rest & P). destruct Hs as [He Hc].
    rewrite P in He. assert (forall h, h ∈ lk s -> h.2 = Shared) as Hsh.
    { intros h Hin. destruct (h.2) eqn:E; [done|]. specialize (Hc h Hin E). rewrite Hc in He. apply Permutation_length in He. cbn in He. lia. }
    split; [apply (Hsh (g_thread g, g_mode g))|apply (Hsh (g_thread g', g_mode g'))]; rewrite He; [by left|by right; left].
  - intros Hn. assert (lk s = []) as E.
    { destruct Hs as [He _]. apply Permutation_nil_r. rewrite He. clear -Hn. induction (guards s) as [|g gs IH]; [done|]. cbn.
      unfold held_by. rewrite (Hn g) by (by left). apply IH. intros; apply Hn; by right. }
    split; [done|]. intros t m. cbn [lock_step].
    assert (guard_new m t (lk s) = Some (true, [(t, m)])) as ->; [|by eexists].
    rewrite E. apply guard_new_free.
Qed.

End rwlock.

(** A reader and a writer, one after the other, with an early [unlock] as in
    [ZKServiceDiscovery::onZKConnect]. *)
Lemma scoped_locks_exclusive_witness :
  exists r, lock_step true (mkLocks [(1%nat, Exclusive)] [mkGuard 0 Shared false; mkGuard 1 Exclusive true]) (Lock 0) = Ok r.
Proof.
  refine (proj1 (scoped_locks_exclusive true
    (mkLocks [(1%nat, Exclusive)] [mkGuard 0 Shared false; mkGuard 1 Exclusive true]) _) (Lock 0) _).
  2: { eexists. split; [reflexivity|]. intros _ _. cbn. rewrite list_elem_of_singleton. by intros [=]. }
  apply (reach_step true (mkLocks [] [mkGuard 0 Shared false]) (New 1 Exclusive)); [|intros _; cbn; apply not_elem_of_nil|reflexivity].
  apply (reach_step true (mkLocks [(0%nat, Shared)] [mkGuard 0 Shared true]) (Unlock 0)); [|by eexists|reflexivity].
  apply (reach_step true (mkLocks [] []) (New 0 Shared)); [constructor|intros _; cbn; apply not_elem_of_nil|reflexivity].
Defined.

(** ** The lock built from a flag *)

(** @src mutex.h:198-198 CASLock::CASLock *)
Definition CASLock_new : bool := false.

(** @src mutex.h:202-207 CASLock::lock
    One turn of the loop: the flag afterwards, and whether the loop is left. *)
Definition CASLock_try (flag : bool) : bool * bool := (true, negb flag).

(** @src mutex.h:209-212 CASLock::unlock *)
Definition CASLock_unlock (flag : bool) : bool := false.

(** Where a thread is: outside, in the loop of [lock], or between [lock] and
    [unlock]. *)
Inductive cas_pc := Outside | Spinning | Inside.
Record cas_sys := mkCas { cas_flag : bool; cas_pcs : list cas_pc }.

Inductive cas_step : cas_sys -> cas_sys -> Prop :=
| cas_begin i f pcs : pcs !! i = Some Outside -> cas_step (mkCas f pcs) (mkCas f (<[i := Spinning]> pcs))
| cas_try i f pcs : pcs !! i = Some Spinning ->
    cas_step (mkCas f pcs) (mkCas (CASLock_try f).1 (<[i := if (CASLock_try f).2 then Inside else Spinning]> pcs))
| cas_leave i f pcs : pcs !! i = Some Inside -> cas_step (mkCas f pcs) (mkCas (CASLock_unlock f) (<[i := Outside]> pcs)).

Definition cas_start (n : nat) : cas_sys := mkCas CASLock_new (replicate n Outside).

(** The flag says whether a thread is inside, and at most one is. *)
Definition cas_ok (s : cas_sys) : Prop :=
  (cas_flag s = true <-> exists i, cas_pcs s !! i = Some Inside) /\
  forall i j, cas_pcs s !! i = Some Inside -> cas_pcs s !! j = Some Inside -> i = j.

Lemma cas_step_ok s s' : cas_step s s' -> cas_ok s -> cas_ok s'.
Proof.
  intros Hst [Hf Hu]. destruct Hst as [i f pcs Hi|i f pcs Hi|i f pcs Hi]; unfold cas_ok in *; cbn [cas_flag cas_pcs] in *.
  - assert (forall j, <[i := Spinning]> pcs !! j = Some Inside <-> pcs !! j = Some Inside) as E.
    { intros j. destruct (decide (i = j)) as [<-|Hne]; [|by rewrite list_lookup_insert_ne].
      rewrite list_lookup_insert_eq by (by eapply lookup_lt_Some). rewrite Hi. done. }
    setoid_rewrite E. done.
  - destruct f; cbn [CASLock_try fst snd negb].
    + rewrite list_insert_id by done. done.
    + assert (forall j, pcs !! j = Some Inside -> False) as Hn by (intros j Hj; cut (false = true); [done|]; apply Hf; eauto).
      split; [split; [|done]; intros _; exists i; apply list_lookup_insert_eq; by eapply lookup_lt_Some|].
      intros j k Hj Hk. destruct (decide (i = j)) as [<-|Hne]; [|by rewrite list_lookup_insert_ne in Hj; [edestruct Hn|]].
      destruct (decide (i = k)) as [<-|Hne]; [done|]. by rewrite list_lookup_insert_ne in Hk; [edestruct Hn|].
  - assert (forall j, <[i := Outside]> pcs !! j = Some Inside -> False) as Hn.
    { intros j Hj. destruct (decide (i = j)) as [<-|Hne]; [rewrite list_lookup_insert_eq in Hj by (by eapply lookup_lt_Some); done|].
      rewrite list_lookup_insert_ne in Hj by done. by apply Hne, Hu. }
    split; [split; [done|intros [j Hj]; edestruct Hn; eauto]|]. intros j k Hj. edestruct Hn; eauto.
Qed.

(** Mutual exclusion of [CASLock] under any interleaving, and that it does not get
    stuck: when nobody is inside, the next attempt of any thread succeeds. *)
Lemma CASLock_exclusive n s : rtc cas_step (cas_start n) s ->
  (forall i j, cas_pcs s !! i = Some Inside -> cas_pcs s !! j = Some Inside -> i = j) /\
  ((forall i, cas_pcs s !! i <> Some Inside) -> (CASLock_try (cas_flag s)).2 = true).
Proof.
  intros Hr. assert (cas_ok s) as [Hf Hu].
  { assert (cas_ok (cas_start n)) as H0.
    { assert (forall i, replicate n Outside !! i = Some Inside -> False) as Hn by (intros i [? _]%lookup_replicate; done).
      split; cbn; [split; [done|intros [i Hi]; edestruct Hn; eauto]|]. intros i j Hi. edestruct Hn; eauto. }
    induction Hr as [|x y z Hst _ IH]; [done|]. eapply IH, cas_step_ok; eauto. }
  split; [done|]. intros Hn. destruct (cas_flag s) eqn:E; [|done]. destruct (proj1 Hf eq_refl) as [i Hi]. by destruct (Hn i).
Qed.

(** ** Semaphores of threads *)

Definition SEM_VALUE_MAX : Z := 2 ^ 31 - 1.

(** @src mutex.cc:42-46 Semaphore::Semaphore *)
Definition Semaphore_new (count : Z) : outcome Z := if SEM_VALUE_MAX <? count then Throw logic_error else Ok count.

(** @src mutex.cc:50-54 Semaphore::wait
    [None] while the value is 0, unless a signal handler interrupts the call. *)
Definition Semaphore_wait (interrupted : bool) (value : Z) : outcome (option Z) :=
  if 0 <? value then Ok (Some (value - 1)) else if interrupted then Throw logic_error else Ok None.

(** @src mutex.cc:56-60 Semaphore::notify *)
Definition Semaphore_notify (value : Z) : outcome Z := if value =? SEM_VALUE_MAX then Throw logic_error else Ok (value + 1).

(** ** Where the code departs from its intent *)

(** A thread that holds the lock for writing and takes it for reading gets an error from
    a system that notices; the error is not looked at, so that the end of the inner
    scope releases the write lock, another writer comes in, and the end of the outer
    scope releases what is not held: undefined. *)
Lemma nested_rwlock_unlocks_early :
  exists s1 s2 s3, lock_step true (mkLocks [] []) (New 0 Exclusive) = Ok (Some s1) /\ lock_step true s1 (New 0 Shared) = Ok (Some s2) /\
    lock_step true s2 (Delete 1) = Ok (Some s3) /\ lk s3 = [] /\ guards s3 = [mkGuard 0 Exclusive true] /\
    lock_step true s3 (Delete 0) = UB /\
    exists s4, lock_step true s3 (New 1 Exclusive) = Ok (Some s4) /\ guards s4 = [mkGuard 0 Exclusive true; mkGuard 1 Exclusive true].
Proof. eexists _, _, _. split_and!; try reflexivity. eexists. split; reflexivity. Qed.

(** A signal that arrives while a thread waits ends the wait with an exception. *)
Lemma Semaphore_wait_interrupted : Semaphore_wait true 0 = Throw logic_error.
Proof. reflexivity. Qed.
