(* ===== verification/Thread.v ===== *)
(** * Threads ([thread.h], [thread.cc])

    A [Thread] is built by one thread and used by the one it starts; the constructor
    waits on a semaphore until the new thread no longer needs the object.  Both run as
    steps, in any order. *)

From S2P Require Import Prelude Locks.
From Stdlib Require Import ZArith Lia List String.
From stdpp Require Import base tactics list numbers option relations.

Open Scope Z_scope.
Open Scope list_scope.

(** @src thread.h:79-90 Thread
    The callback is the name of a function object, [None] once it has been swapped out;
    [pthread_t] 0 is "no thread". *)
Record Thread := mkThread {
  m_id : Z;
  m_thread : Z;
  m_cb : option Z;
  m_name : bytes;
  m_semaphore : Z
}.
Implicit Types th : Thread.

(** @src thread.cc:35-38 Thread::Thread *)
Definition Thread_init (cb : Z) (name : bytes) : Thread :=
  mkThread (-1) 0 (Some cb) (match name with [] => str "UNKNOW" | _ => name end) 0.

(** @src thread.cc:44-49 Thread::Thread
    The call of [pthread_create]: its result and, on success, the handle. *)
Definition Thread_create (rt handle : Z) th : outcome Thread :=
  if negb (rt =? 0) then Throw logic_error else Ok (mkThread (m_id th) handle (m_cb th) (m_name th) (m_semaphore th)).

(** @src thread.cc:51-51 Thread::Thread
    The end of the constructor. *)
Definition Thread_wait (interrupted : bool) th : outcome (option Thread) :=
  let! v := Semaphore_wait interrupted (m_semaphore th) in
  Ok ((fun v => mkThread (m_id th) (m_thread th) (m_cb th) (m_name th) v) <$> v).

(** The thread-local variables. *)
Record tls := mkTls { t_thread : bool; t_thread_name : bytes }.
Definition tls_init : tls := mkTls false (str "UNKNOW").

(** @src thread.cc:77-92 Thread::run
    Up to the swap of the callback: the object, the thread-local variables and the
    local variable [cb], which was empty.  [tid] is [GetThreadId()]. *)
Definition Thread_run_begin (tid : Z) th : Thread * tls * option Z :=
  (mkThread tid (m_thread th) None (m_name th) (m_semaphore th), mkTls true (m_name th), m_cb th).

(** @src thread.cc:93-93 Thread::run *)
Definition Thread_run_notify th : outcome Thread :=
  let! v := Semaphore_notify (m_semaphore th) in Ok (mkThread (m_id th) (m_thread th) (m_cb th) (m_name th) v).

(** @src thread.cc:94-94 Thread::run
    [cb()]: the function that is called; an empty one throws. *)
Definition Thread_run_call (cb : option Z) : outcome Z :=
  match cb with Some f => Ok f | None => Throw bad_function_call end.

(** @src thread.cc:64-75 Thread::join
    [rt] is the result of [pthread_join]. *)
Definition Thread_join (rt : Z) th : outcome Thread :=
  if negb (m_thread th =? 0) then
    if negb (rt =? 0) then Throw logic_error else Ok (mkThread (m_id th) 0 (m_cb th) (m_name th) (m_semaphore th))
  else Ok th.

(** @src thread.cc:54-62 Thread::~Thread
    Whether the thread is detached. *)
Definition Thread_delete th : bool := negb (m_thread th =? 0).

(** @src thread.cc:25-33 Thread::SetName
    On the current thread's object and variables. *)
Definition Thread_SetName (name : bytes) (l : tls) th : tls * Thread :=
  match name with
  | [] => (l, th)
  | _ => (mkTls (t_thread l) name, if t_thread l then mkThread (m_id th) (m_thread th) (m_cb th) name (m_semaphore th) else th)
  end.

(** ** Starting a thread *)

(** The creator: before [pthread_create], waiting, done; the constructor threw; the
    object is destroyed. *)
Inductive creator_pc := CNew | CWaiting | CReady | CThrown | CGone.
(** The new thread: not started, at the beginning of [run], before [notify], before the
    callback, in the callback, at the end. *)
Inductive runner_pc := RNone | RBegin | RNotify | RCall | RRunning | REnd.

(** The object, if it exists; both program counters; the new thread's thread-local
    variables and its local variable [cb]; the functions it has called; and the number
    of the calls that release the thread ([pthread_join] or [pthread_detach]). *)
Record tsys := mkTsys {
  ts_obj : option Thread;
  ts_creator : creator_pc;
  ts_runner : runner_pc;
  ts_tls : tls;
  ts_cb : option Z;
  ts_calls : list Z;
  ts_released : nat
}.

Section start.
(** Whether signals may interrupt the wait; the thread's number and handle. *)
Context (signals : bool) (tid handle : Z).
Hypothesis handle_ok : handle <> 0.

(** The steps of both threads.  The owner joins or destroys the object once the
    constructor has returned, [join] returns when the thread has ended, and the callback
    may call [SetName], here while the object exists. *)
Inductive thread_step : tsys -> tsys -> Prop :=
| st_create th th' l b n k : Thread_create 0 handle th = Ok th' ->
    thread_step (mkTsys (Some th) CNew RNone l b n k) (mkTsys (Some th') CWaiting RBegin l b n k)
| st_create_fails th rt l b n k : Thread_create rt handle th = Throw logic_error ->
    thread_step (mkTsys (Some th) CNew RNone l b n k) (mkTsys None CThrown RNone l b n k)
| st_wait th th' r l b n k : Thread_wait false th = Ok (Some th') ->
    thread_step (mkTsys (Some th) CWaiting r l b n k) (mkTsys (Some th') CReady r l b n k)
| st_interrupted th r l b n k : signals = true -> Thread_wait true th = Throw logic_error ->
    thread_step (mkTsys (Some th) CWaiting r l b n k) (mkTsys None CThrown r l b n k)
| st_begin th th' c l l' b b' n k : Thread_run_begin tid th = (th', l', b') ->
    thread_step (mkTsys (Some th) c RBegin l b n k) (mkTsys (Some th') c RNotify l' b' n k)
| st_notify th th' c l b n k : Thread_run_notify th = Ok th' ->
    thread_step (mkTsys (Some th) c RNotify l b n k) (mkTsys (Some th') c RCall l b n k)
| st_call o c l b f n k : Thread_run_call b = Ok f ->
    thread_step (mkTsys o c RCall l b n k) (mkTsys o c RRunning l b (n ++ [f]) k)
| st_setName th l' th' name c l b n k : Thread_SetName name l th = (l', th') ->
    thread_step (mkTsys (Some th) c RRunning l b n k) (mkTsys (Some th') c RRunning l' b n k)
| st_end o c l b n k : thread_step (mkTsys o c RRunning l b n k) (mkTsys o c REnd l b n k)
| st_join th th' l b n k : Thread_join 0 th = Ok th' ->
    thread_step (mkTsys (Some th) CReady REnd l b n k) (mkTsys (Some th') CReady REnd l b n (if m_thread th =? 0 then k else S k))
| st_delete th r l b n k :
    thread_step (mkTsys (Some th) CReady r l b n k) (mkTsys None CGone r l b n (if Thread_delete th then S k else k)).

Definition thread_start (cb : Z) (name : bytes) : tsys := mkTsys (Some (Thread_init cb name)) CNew RNone tls_init None [] 0.

(** [run] is about to use an object that is gone. *)
Definition dangling (s : tsys) : Prop := ts_obj s = None /\ (ts_runner s = RBegin \/ ts_runner s = RNotify).

Definition calls_of (cb : Z) (r : runner_pc) : list Z := match r with RRunning | REnd => [cb] | _ => [] end.
Definition begun (r : runner_pc) : bool := match r with RNone | RBegin => false | _ => true end.
Definition after_notify (r : runner_pc) : bool := match r with RCall | RRunning | REnd => true | _ => false end.

(** Where the callback is, and whose name the thread has. *)
Definition runner_inv (cb : Z) (s : tsys) : Prop :=
  ts_calls s = calls_of cb (ts_runner s) /\
  (begun (ts_runner s) = true -> ts_cb s = Some cb /\ t_thread (ts_tls s) = true) /\
  forall th, ts_obj s = Some th ->
    if begun (ts_runner s) then m_id th = tid /\ m_cb th = None /\ t_thread_name (ts_tls s) = m_name th
    else m_cb th = Some cb.

(** What holds at each point of the creator. *)
Definition creator_inv (s : tsys) : Prop :=
  match ts_creator s, ts_obj s with
  | CNew, Some th => ts_runner s = RNone /\ m_semaphore th = 0 /\ ts_released s = 0%nat
  | CWaiting, Some th => ts_runner s <> RNone /\ m_thread th = handle /\ ts_released s = 0%nat /\
      m_semaphore th = (if after_notify (ts_runner s) then 1 else 0)
  | CReady, Some th => after_notify (ts_runner s) = true /\ ts_released s = (if m_thread th =? 0 then 1%nat else 0%nat)
  | CThrown, None => ts_runner s = RNone
  | CGone, None => after_notify (ts_runner s) = true /\ ts_released s = 1%nat
  | _, _ => False
  end.

Lemma SetName_spec name l th l' th' :
  t_thread l = true -> Thread_SetName name l th = (l', th') ->
  t_thread l' = true /\ m_id th' = m_id th /\ m_cb th' = m_cb th /\ m_thread th' = m_thread th /\ m_semaphore th' = m_semaphore th /\
  (t_thread_name l = m_name th -> t_thread_name l' = m_name th').
Proof. destruct l as [b n]. cbn. intros ->. unfold Thread_SetName. destruct name; intros [= <- <-]; cbn; by split_and!. Qed.

Lemma runner_inv_step cb s s' : thread_step s s' -> runner_inv cb s -> runner_inv cb s'.
Proof.
  intros Hst (Hn & Hb & Ho). destruct Hst as [th th' l b n k E|th rt l b n k E|th th' r l b n k E|th r l b n k Hs E
    |th th' c l l' b b' n k E|th th' c l b n k E|o c l b f n k E|th l' th' name c l b n k E|o c l b n k|th th' l b n k E|th r l b n k];
    unfold runner_inv in *; cbn [ts_calls ts_runner ts_cb ts_tls ts_obj begun calls_of] in *.
  - injection E as <-. split_and!; [done|done|]. intros ? [= <-]. cbn. by apply Ho.
  - split_and!; [done|done|by intros].
  - unfold Thread_wait in E. destruct (Semaphore_wait _ _) as [[v|]| | | |]; cbn in E; try done. injection E as <-.
    split_and!; [done|done|]. intros ? [= <-]. specialize (Ho th eq_refl). destruct (begun r); cbn; done.
  - split_and!; [done|done|by intros].
  - injection E as <- <- <-. specialize (Ho th eq_refl). split_and!; [done|by rewrite Ho|]. intros ? [= <-]. done.
  - unfold Thread_run_notify in E. destruct (Semaphore_notify _) as [v| | | |]; cbn in E; try done. injection E as <-.
    split_and!; [done|done|]. intros ? [= <-]. cbn. by apply Ho.
  - destruct (Hb eq_refl) as [-> Hl]. injection E as <-. rewrite Hn. by split_and!.
  - destruct (Hb eq_refl) as [Hcb Hl]. destruct (SetName_spec _ _ _ _ _ Hl E) as (H1 & H2 & H3 & _ & _ & H4).
    destruct (Ho th eq_refl) as (H5 & H6 & H7). split_and!; [done|done|]. intros ? [= <-]. split_and!; [congruence|congruence|by apply H4].
  - by split_and!.
  - unfold Thread_join in E. split_and!; [done|done|]. intros ? [= <-].
    destruct (negb _); cbn in E; injection E as <-; cbn; by apply Ho.
  - split_and!; [done|done|by intros].
Qed.

Lemma creator_inv_step cb s s' : signals = false -> runner_inv cb s -> thread_step s s' -> creator_inv s -> creator_inv s'.
Proof.
  intros Hsig (_ & Hb & _) Hst Hi. destruct Hst as [th th' l b n k E|th rt l b n k E|th th' r l b n k E|th r l b n k Hs E
    |th th' c l l' b b' n k E|th th' c l b n k E|o c l b f n k E|th l' th' name c l b n k E|o c l b n k|th th' l b n k E|th r l b n k];
    unfold creator_inv in *; cbn [ts_creator ts_obj ts_runner ts_released ts_cb ts_tls begun after_notify] in *; simplify_eq.
  - injection E as <-. destruct Hi as (_ & ? & ?). by split_and!.
  - done.
  - unfold Thread_wait, Semaphore_wait in E. destruct Hi as (H1 & H2 & H3 & H4). rewrite H4 in E.
    destruct (after_notify r) eqn:Er; cbn in E; [|done]. simplify_eq. cbn.
    by rewrite (proj2 (Z.eqb_neq _ 0) handle_ok).
  - injection E as <- _ _. destruct c; cbn in *; naive_solver.
  - unfold Thread_run_notify, Semaphore_notify in E. destruct c; cbn in *; try naive_solver.
    destruct Hi as (_ & H2 & H3 & H4). rewrite H4 in E. change (0 =? SEM_VALUE_MAX) with false in E. cbn in E. injection E as <-.
    cbn. by split_and!.
  - destruct c, o; cbn in *; naive_solver.
  - destruct (Hb eq_refl) as [_ Hl]. destruct (SetName_spec _ _ _ _ _ Hl E) as (_ & _ & _ & H1 & H2 & _).
    rewrite H1, H2. by destruct c.
  - destruct c, o; cbn in *; naive_solver.
  - unfold Thread_join in E. destruct Hi as (_ & ->). destruct (m_thread th =? 0) eqn:Et; cbn in E; simplify_eq; cbn; [by rewrite Et|done].
  - destruct Hi as (H1 & ->). unfold Thread_delete. destruct (m_thread th =? 0); done.
Qed.

Lemma thread_inv cb name s : signals = false -> rtc thread_step (thread_start cb name) s -> runner_inv cb s /\ creator_inv s.
Proof.
  intros Hsig Hr. assert (runner_inv cb (thread_start cb name) /\ creator_inv (thread_start cb name)) as H0.
  { split; [|done]. split_and!; [done|done|]. by intros th [= <-]. }
  induction Hr as [|x y z Hst _ IH]; [done|]. apply IH. destruct H0 as [H1 H2].
  split; [by eapply runner_inv_step|by eapply creator_inv_step].
Qed.

(** C17: starting a thread.  Unless a signal interrupts the constructor's wait: [run]
    itself never uses the [Thread] object after it may be gone (a callback that calls
    [SetName] after that does: [SetName_after_delete]); when the constructor has
    returned, the object has the thread's number and no longer holds the callback; the
    thread calls the function it was made with and no other, and has called it exactly
    once when it ends; as long as the object exists the thread, once begun, has its name,
    also after [SetName]; and when the object is gone the thread was released exactly
    once, by [join] or by the destructor. *)
Theorem thread_started cb name s : signals = false -> rtc thread_step (thread_start cb name) s ->
  ~ dangling s /\
  (forall th, ts_creator s = CReady -> ts_obj s = Some th ->
     m_id th = tid /\ m_cb th = None /\ t_thread_name (ts_tls s) = m_name th) /\
  (ts_calls s = [] \/ ts_calls s = [cb]) /\ (ts_runner s = REnd -> ts_calls s = [cb]) /\
  (ts_runner s = RCall -> Thread_run_call (ts_cb s) = Ok cb) /\
  (ts_creator s = CGone -> ts_released s = 1%nat).
Proof.
  intros Hsig Hr. destruct (thread_inv cb name s Hsig Hr) as [(Hn & Hb & Ho) Hi]. unfold creator_inv in Hi. split_and!.
  - intros [E [E'|E']]; rewrite E, E' in Hi; destruct (ts_creator s); cbn in Hi; naive_solver.
  - intros th Hc E. specialize (Ho th E). rewrite Hc, E in Hi. destruct Hi as [Hi _]. by destruct (ts_runner s).
  - rewrite Hn. destruct (ts_runner s); cbn; tauto.
  - intros E. by rewrite Hn, E.
  - intros E. rewrite E in Hb. by destruct (Hb eq_refl) as [-> _].
  - intros E. rewrite E in Hi. destruct (ts_obj s); naive_solver.
Qed.

End start.

Lemma thread_started_witness :
  ts_calls (mkTsys None CGone REnd (mkTls true (str "io")) (Some 9) [9] 1) = [9] /\
  ~ dangling (mkTsys None CGone REnd (mkTls true (str "io")) (Some 9) [9] 1).
Proof.
  destruct (thread_started false 7 5 ltac:(lia) 9 (str "worker") (mkTsys None CGone REnd (mkTls true (str "io")) (Some 9) [9] 1) eq_refl)
    as (H1 & _ & _ & H2 & _); [|split; [by apply H2|exact H1]].
  eapply rtc_l; [by apply st_create|]. eapply rtc_l; [by apply st_begin|]. eapply rtc_l; [by apply st_notify|].
  eapply rtc_l; [by apply st_wait|]. eapply rtc_l; [by apply st_call|]. eapply rtc_l; [eapply (st_setName _ _ _ _ _ _ (str "io")); reflexivity|].
  eapply rtc_l; [apply st_end|].
  eapply rtc_l; [by apply st_join|]. eapply rtc_l; [apply st_delete|]. apply rtc_refl.
Defined.

(** ** Where the code departs from its intent *)

(** A signal that arrives in the constructor's wait destroys the object while the new
    thread still uses it. *)
Lemma thread_interrupted_dangling cb name :
  exists s, rtc (thread_step true 7 5) (thread_start cb name) s /\ dangling s.
Proof.
  eexists. split; [eapply rtc_l; [by apply st_create|]; eapply rtc_l; [by apply st_interrupted|apply rtc_refl]|].
  split; [done|by left].
Qed.

(** A thread whose object is gone, which was detached by the destructor, still has its
    address in [t_thread]: [SetName] then writes to it. *)
Lemma SetName_after_delete cb name :
  exists s, rtc (thread_step false 7 5) (thread_start cb name) s /\ ts_runner s = RRunning /\ ts_obj s = None /\
    t_thread (ts_tls s) = true.
Proof.
  eexists (mkTsys None CGone RRunning (mkTls true _) (Some cb) [cb] 1). split; [|done].
  eapply rtc_l; [by apply st_create|]. eapply rtc_l; [by apply st_begin|]. eapply rtc_l; [by apply st_notify|].
  eapply rtc_l; [by apply st_wait|]. eapply rtc_l; [by apply st_call|]. eapply rtc_l; [apply st_delete|apply rtc_refl].
Qed.
