(* ===== verification/Address.v ===== *)
(** * Network addresses ([address.h], [address.cc])

    Addresses are the C structures with their bytes in memory on a host of either byte
    order.  A [sockaddr] pointer that comes from outside is the memory it points to.
    [getaddrinfo], [getifaddrs] and [inet_pton] are parameters. *)

From S2P Require Import Prelude Endian Text.
From Stdlib Require Import ZArith Lia List String.
From stdpp Require Import base tactics list numbers option.

Open Scope Z_scope.
Open Scope list_scope.

(** ** Helpers *)

(** @src address.cc:16-19 CreateMask
    [n] is [sizeof(T)].  The shift is one of [int]: a count of 32 or more is undefined,
    and so is taking one from the least [int], which a count of 31 gives. *)
Definition CreateMask (n : nat) (bits : Z) : outcome Z :=
  let count := u64 (8 * Z.of_nat n - bits) in
  if 31 <=? count then UB else Ok (uwrap (8 * Z.of_nat n) (Z.shiftl 1 count - 1)).

(** @src address.cc:22-29 CountBytes *)
Fixpoint CountBytes_loop (fuel : nat) (value result : Z) : outcome Z :=
  if value =? 0 then Ok result else
  match fuel with
  | O => NoFuel
  | S fuel => CountBytes_loop fuel (Z.land value (value - 1)) (u32 (result + 1))
  end.

(** A value of [n] bytes has at most [8 n] set bits. *)
Definition CountBytes (n : nat) (value : Z) : outcome Z := CountBytes_loop (8 * n) value 0.

Definition AF_UNSPEC : Z := 0.
Definition AF_UNIX : Z := 1.
Definition AF_INET : Z := 2.
Definition AF_INET6 : Z := 10.

(** ** The structures *)

Record sockaddr := mkSockaddr { sa_family : Z; sa_data : bytes }.

Record sockaddr_in := mkIn { sin_family : Z; sin_port : Z; s_addr : Z; sin_zero : bytes }.

Record sockaddr_in6 := mkIn6 {
  sin6_family : Z; sin6_port : Z; sin6_flowinfo : Z; s6_addr : bytes; sin6_scope_id : Z
}.

Record sockaddr_un := mkUn { sun_family : Z; sun_path : bytes }.

Definition sizeof_sun_path : nat := 108.
Definition offsetof_sun_path : Z := 2.

(** @src address.h:158-174 Address
    The classes with what they add to their base: Unix with the length (lines 158 and
    159) and unknown (line 174); IPv4 is at line 112, IPv6 at line 139. *)
Inductive Address :=
| IPv4Address (m_addr : sockaddr_in)
| IPv6Address (m_addr : sockaddr_in6)
| UnixAddress (m_addr : sockaddr_un) (m_length : Z)
| UnknownAddress (m_addr : sockaddr).

Section host.
(** The byte order of the machine. *)
Context (host : Z).

Notation swap n v := (byteswapOnLittleEndian host n v).

(** What the structures look like in memory. *)
Definition mem_in (a : sockaddr_in) : bytes :=
  mem_of host 2 (sin_family a) ++ mem_of host 2 (sin_port a) ++ mem_of host 4 (s_addr a) ++ sin_zero a.
Definition mem_in6 (a : sockaddr_in6) : bytes :=
  mem_of host 2 (sin6_family a) ++ mem_of host 2 (sin6_port a) ++ mem_of host 4 (sin6_flowinfo a) ++ s6_addr a ++
  mem_of host 4 (sin6_scope_id a).
Definition mem_un (a : sockaddr_un) : bytes := mem_of host 2 (sun_family a) ++ sun_path a.
Definition mem_any (a : sockaddr) : bytes := mem_of host 2 (sa_family a) ++ sa_data a.

Definition field (m : bytes) (at_ n : nat) : Z := of_mem host (slice at_ n m).

Definition in_of (m : bytes) : sockaddr_in := mkIn (field m 0 2) (field m 2 2) (field m 4 4) (slice 8 8 m).
Definition in6_of (m : bytes) : sockaddr_in6 :=
  mkIn6 (field m 0 2) (field m 2 2) (field m 4 4) (slice 8 16 m) (field m 24 4).
Definition any_of (m : bytes) : sockaddr := mkSockaddr (field m 0 2) (slice 2 14 m).

(** A copy of the [n] bytes of a structure out of the memory [m]. *)
Definition load {A} (n : nat) (m : bytes) (read : bytes -> A) : outcome A :=
  if (length m <? n)%nat then UB else Ok (read m).

(** ** The base class *)

(** @src address.cc:35-55 Address::Create *)
Definition Address_Create (addr : option bytes) : outcome (option Address) :=
  match addr with
  | None => Ok None
  | Some m =>
    let! family := load 2 m (fun m => field m 0 2) in
    if family =? AF_INET then let! a := load 16 m in_of in Ok (Some (IPv4Address a))
    else if family =? AF_INET6 then let! a := load 28 m in6_of in Ok (Some (IPv6Address a))
    else let! a := load 16 m any_of in Ok (Some (UnknownAddress a))
  end.

(** @src address.cc:331-341 IPv4Address::getAddr, getAddrLen and the same members of the
    other classes *)
Definition Address_getAddr (x : Address) : bytes :=
  match x with
  | IPv4Address a => mem_in a
  | IPv6Address a => mem_in6 a
  | UnixAddress a _ => mem_un a
  | UnknownAddress a => mem_any a
  end.

(** @src address.cc:541-543 UnixAddress::getAddrLen and the same member of the other
    classes *)
Definition Address_getAddrLen (x : Address) : Z :=
  match x with
  | IPv4Address _ => 16
  | IPv6Address _ => 28
  | UnixAddress _ len => len
  | UnknownAddress _ => 16
  end.

(** @src address.cc:230-232 Address::getFamily *)
Definition Address_getFamily (x : Address) : Z :=
  match x with
  | IPv4Address a => sin_family a
  | IPv6Address a => sin6_family a
  | UnixAddress a _ => sun_family a
  | UnknownAddress a => sa_family a
  end.

(** [memcmp] of [n] bytes: the sign of the result. *)
Definition memcmp (a b : bytes) (n : Z) : outcome comparison :=
  if (Z.of_nat (length a) <? n) || (Z.of_nat (length b) <? n) then UB
  else
    let a := take (Z.to_nat n) a in
    let b := take (Z.to_nat n) b in
    Ok (if lex_lt a b then Lt else if lex_lt b a then Gt else Eq).

(** @src address.cc:240-251 Address::operator< *)
Definition Address_lt (x rhs : Address) : outcome bool :=
  let minlen := Z.min (Address_getAddrLen x) (Address_getAddrLen rhs) in
  let! result := memcmp (Address_getAddr x) (Address_getAddr rhs) minlen in
  match result with
  | Lt => Ok true
  | Gt => Ok false
  | Eq => Ok (Address_getAddrLen x <? Address_getAddrLen rhs)
  end.

(** @src address.cc:253-256 Address::operator== *)
Definition Address_eq (x rhs : Address) : outcome bool :=
  if Address_getAddrLen x =? Address_getAddrLen rhs then
    let! result := memcmp (Address_getAddr x) (Address_getAddr rhs) (Address_getAddrLen x) in
    Ok (match result with Eq => true | _ => false end)
  else Ok false.

(** @src address.cc:258-260 Address::operator!= *)
Definition Address_ne (x rhs : Address) : outcome bool :=
  let! b := Address_eq x rhs in Ok (negb b).

(** ** IPv4 *)

(** @src address.cc:324-329 IPv4Address::IPv4Address *)
Definition IPv4Address_new (address port : Z) : sockaddr_in :=
  mkIn AF_INET (swap 2 port) (swap 4 address) (replicate 8 0).

(** @src address.cc:343-352 IPv4Address::insert *)
Definition IPv4Address_insert (a : sockaddr_in) : bytes :=
  let addr := swap 4 (s_addr a) in
  dec (Z.land (Z.shiftr addr 24) 0xff) ++ str "." ++
  dec (Z.land (Z.shiftr addr 16) 0xff) ++ str "." ++
  dec (Z.land (Z.shiftr addr 8) 0xff) ++ str "." ++
  dec (Z.land addr 0xff) ++ str ":" ++ dec (swap 2 (sin_port a)).

Definition with_s_addr (a : sockaddr_in) (v : Z) : sockaddr_in := mkIn (sin_family a) (sin_port a) v (sin_zero a).

(** @src address.cc:354-362 IPv4Address::broadcastAddress *)
Definition IPv4Address_broadcastAddress (a : sockaddr_in) (prefix_len : Z) : outcome (option sockaddr_in) :=
  if 32 <? prefix_len then Ok None else
  let! mask := CreateMask 4 prefix_len in
  Ok (Some (with_s_addr a (Z.lor (s_addr a) (swap 4 mask)))).

(** @src address.cc:364-372 IPv4Address::networdAddress *)
Definition IPv4Address_networdAddress (a : sockaddr_in) (prefix_len : Z) : outcome (option sockaddr_in) :=
  if 32 <? prefix_len then Ok None else
  let! mask := CreateMask 4 prefix_len in
  Ok (Some (with_s_addr a (Z.land (s_addr a) (swap 4 mask)))).

(** @src address.cc:374-380 IPv4Address::subnetMask *)
Definition IPv4Address_subnetMask (prefix_len : Z) : outcome sockaddr_in :=
  let! mask := CreateMask 4 prefix_len in
  Ok (mkIn AF_INET 0 (u32 (Z.lnot (swap 4 mask))) (replicate 8 0)).

(** @src address.cc:382-384 IPv4Address::getPort *)
Definition IPv4Address_getPort (a : sockaddr_in) : Z := swap 2 (sin_port a).

(** @src address.cc:386-388 IPv4Address::setPort *)
Definition IPv4Address_setPort (a : sockaddr_in) (v : Z) : sockaddr_in :=
  mkIn (sin_family a) (swap 2 v) (s_addr a) (sin_zero a).

(** ** IPv6 *)

(** @src address.cc:406-409 IPv6Address::IPv6Address *)
Definition IPv6Address_new : sockaddr_in6 := mkIn6 AF_INET6 0 0 (replicate 16 0) 0.

(** @src address.cc:415-420 IPv6Address::IPv6Address
    The array that [address] points to has at least 16 bytes. *)
Definition IPv6Address_new_bytes (address : bytes) (port : Z) : sockaddr_in6 :=
  mkIn6 AF_INET6 (swap 2 port) 0 (take 16 address) 0.

(** The address seen as an array of [uint16_t]. *)
Fixpoint as_uint16 (bs : bytes) : list Z :=
  match bs with
  | a :: b :: r => of_mem host [a; b] :: as_uint16 r
  | _ => []
  end.

(** @src address.cc:438-450 IPv6Address::insert
    The loop, from [addr[i]] on; [prev] is [addr[i - 1]], if [i] is not 0. *)
Fixpoint insert6_loop (prev : option Z) (addr : list Z) (used_zeros : bool) : bytes * bool :=
  match addr with
  | [] => ([], used_zeros)
  | x :: r =>
    if (x =? 0) && negb used_zeros then insert6_loop (Some x) r used_zeros
    else
      let zeros := match prev with Some p => (p =? 0) && negb used_zeros | None => false end in
      let s1 := if zeros then str ":" else [] in
      let used_zeros := used_zeros || zeros in
      let s2 := match prev with Some _ => str ":" | None => [] end in
      let '(s3, used_zeros) := insert6_loop (Some x) r used_zeros in
      (s1 ++ s2 ++ hex (swap 2 x) ++ s3, used_zeros)
  end.

(** @src address.cc:434-458 IPv6Address::insert *)
Definition IPv6Address_insert (a : sockaddr_in6) : bytes :=
  let addr := as_uint16 (s6_addr a) in
  let '(s, used_zeros) := insert6_loop None addr false in
  str "[" ++ s ++ (if negb used_zeros && (nth 7 addr 0 =? 0) then str "::" else []) ++
  str "]:" ++ dec (swap 2 (sin6_port a)).

Definition with_s6_addr (a : sockaddr_in6) (bs : bytes) : sockaddr_in6 :=
  mkIn6 (sin6_family a) (sin6_port a) (sin6_flowinfo a) bs (sin6_scope_id a).

(** [s6_addr[i] = f(s6_addr[i])]: the array has 16 elements. *)
Definition upd6 (bs : bytes) (i : nat) (f : Z -> Z) : outcome bytes :=
  match bs !! i with Some b => Ok (<[i := f b]> bs) | None => UB end.

(** @src address.cc:460-468 IPv6Address::broadcastAddress *)
Definition IPv6Address_broadcastAddress (a : sockaddr_in6) (prefix_len : Z) : outcome sockaddr_in6 :=
  let i := Z.to_nat (prefix_len / 8) in
  let! mask := CreateMask 1 (prefix_len mod 8) in
  let! bs := upd6 (s6_addr a) i (fun b => Z.lor b mask) in
  Ok (with_s6_addr a (take (S i) bs ++ replicate (16 - S i) 0xff)).

(** @src address.cc:470-478 IPv6Address::networdAddress *)
Definition IPv6Address_networdAddress (a : sockaddr_in6) (prefix_len : Z) : outcome sockaddr_in6 :=
  let i := Z.to_nat (prefix_len / 8) in
  let! mask := CreateMask 1 (prefix_len mod 8) in
  let! bs := upd6 (s6_addr a) i (fun b => Z.land b mask) in
  Ok (with_s6_addr a (take (S i) bs ++ replicate (16 - S i) 0)).

(** @src address.cc:480-491 IPv6Address::subnetMask *)
Definition IPv6Address_subnetMask (prefix_len : Z) : outcome sockaddr_in6 :=
  let i := Z.to_nat (prefix_len / 8) in
  let! mask := CreateMask 1 (prefix_len mod 8) in
  let! bs := upd6 (replicate 16 0) i (fun _ => u8 (Z.lnot mask)) in
  Ok (mkIn6 AF_INET6 0 0 (replicate i 0xff ++ drop i bs) 0).

(** @src address.cc:493-495 IPv6Address::getPort *)
Definition IPv6Address_getPort (a : sockaddr_in6) : Z := swap 2 (sin6_port a).

(** @src address.cc:497-499 IPv6Address::setPort *)
Definition IPv6Address_setPort (a : sockaddr_in6) (v : Z) : sockaddr_in6 :=
  mkIn6 (sin6_family a) (swap 2 v) (sin6_flowinfo a) (s6_addr a) (sin6_scope_id a).

(** ** Unix *)

(** @src address.cc:505-505 MAX_PATH_LEN *)
Definition MAX_PATH_LEN : Z := Z.of_nat sizeof_sun_path - 1.

(** @src address.cc:507-511 UnixAddress::UnixAddress *)
Definition UnixAddress_new : Address :=
  UnixAddress (mkUn AF_UNIX (replicate sizeof_sun_path 0)) (offsetof_sun_path + MAX_PATH_LEN).

(** @src address.cc:513-527 UnixAddress::UnixAddress *)
Definition UnixAddress_new_path (path : bytes) : outcome Address :=
  let m_length := u32 (Z.of_nat (length path) + 1) in
  let m_length := match path with 0 :: _ => u32 (m_length - 1) | _ => m_length end in
  if Z.of_nat sizeof_sun_path <? m_length then Throw logic_error
  else
    let copied := take (Z.to_nat m_length) (path ++ [0]) in
    Ok (UnixAddress (mkUn AF_UNIX (splice 0 copied (replicate sizeof_sun_path 0))) (u32 (m_length + offsetof_sun_path))).

(** @src address.cc:529-531 UnixAddress::setAddrLen *)
Definition UnixAddress_setAddrLen (a : sockaddr_un) (v : Z) : Address := UnixAddress a v.

(** [os << p] for a character array: the characters up to the first NUL. *)
Definition print_chars (p : bytes) : outcome bytes :=
  if bool_decide (0 ∈ p) then Ok (cstr p) else UB.

(** @src address.cc:557-564 UnixAddress::insert *)
Definition UnixAddress_insert (a : sockaddr_un) (m_length : Z) : outcome bytes :=
  if (offsetof_sun_path <? m_length) && (nth 0 (sun_path a) 0 =? 0) then
    let n := m_length - offsetof_sun_path - 1 in
    if Z.of_nat sizeof_sun_path - 1 <? n then UB
    else Ok (str "\0" ++ slice 1 (Z.to_nat n) (sun_path a))
  else print_chars (sun_path a).

(** @src address.cc:545-555 UnixAddress::getPath *)
Definition UnixAddress_getPath (a : sockaddr_un) (m_length : Z) : outcome bytes :=
  if (offsetof_sun_path <? m_length) && (nth 0 (sun_path a) 0 =? 0) then
    let n := m_length - offsetof_sun_path - 1 in
    if Z.of_nat sizeof_sun_path - 1 <? n then UB
    else Ok (str "\0" ++ slice 1 (Z.to_nat n) (sun_path a))
  else print_chars (sun_path a).

(** ** Unknown addresses and printing *)

(** @src address.cc:570-573 UnknownAddress::UnknownAddress *)
Definition UnknownAddress_new (family : Z) : Address := UnknownAddress (mkSockaddr (uwrap 16 family) (replicate 14 0)).

(** @src address.cc:591-594 UnknownAddress::insert *)
Definition UnknownAddress_insert (a : sockaddr) : bytes :=
  str "[UnknownAddress family=" ++ dec (sa_family a) ++ str "]".

(** @src address.cc:234-238 Address::toString *)
Definition Address_toString (x : Address) : outcome bytes :=
  match x with
  | IPv4Address a => Ok (IPv4Address_insert a)
  | IPv6Address a => Ok (IPv6Address_insert a)
  | UnixAddress a len => UnixAddress_insert a len
  | UnknownAddress a => Ok (UnknownAddress_insert a)
  end.

(** ** Look-up by name *)

(** What [Lookup] and [Create] ask [getaddrinfo] for. *)
Record addrinfo := mkHints { ai_flags : Z; ai_family : Z; ai_socktype : Z; ai_protocol : Z }.
Definition AI_NUMERICHOST : Z := 4.

(** @src address.cc:70-104 Address::Lookup
    The host name cut into node and service, both as the C strings [getaddrinfo] sees. *)
Definition Lookup_split (h : bytes) : bytes * option bytes :=
  let '(node, service) :=
    if nth 0 h 0 =? 91 then
      match first_pos (Z.eqb 93) (drop 1 h) with
      | Some j => (take j (drop 1 h), if nth (j + 2) h 0 =? 58 then Some (j + 3)%nat else None)
      | None => ([], None)
      end
    else ([], None) in
  let '(node, service) :=
    match node with
    | [] =>
      match first_pos (Z.eqb 58) h with
      | Some k =>
        match first_pos (Z.eqb 58) (drop (S k) h) with
        | None => (take k h, Some (S k))
        | Some _ => ([], Some k)
        end
      | None => ([], None)
      end
    | _ => (node, service)
    end in
  let node := match node with [] => h | _ => node end in
  (cstr node, (fun k => cstr (drop k h)) <$> service).

Section resolver.
(** An error code, or the addresses of the list. *)
Context (getaddrinfo : option bytes -> option bytes -> addrinfo -> Z + list (option bytes)).

Fixpoint create_all (l : list (option bytes)) : outcome (list (option Address)) :=
  match l with
  | [] => Ok []
  | a :: l => let! x := Address_Create a in let! r := create_all l in Ok (x :: r)
  end.

(** @src address.cc:59-124 Address::Lookup *)
Definition Address_Lookup (result : list (option Address)) (h : bytes) (family type protocol : Z)
    : outcome (bool * list (option Address)) :=
  let hints := mkHints 0 family type protocol in
  let '(node, service) := Lookup_split h in
  match getaddrinfo (Some node) service hints with
  | inl _ => Ok (false, result)
  | inr l =>
    let! new := create_all l in
    let result := result ++ new in
    Ok (match result with [] => false | _ => true end, result)
  end.

(** @src address.cc:126-132 Address::LookupAny *)
Definition Address_LookupAny (h : bytes) (family type protocol : Z) : outcome (option Address) :=
  let! (found, result) := Address_Lookup [] h family type protocol in
  if found then match result with x :: _ => Ok x | [] => UB end else Ok None.

(** [dynamic_pointer_cast<IPAddress>] *)
Definition is_ip (x : option Address) : bool :=
  match x with Some (IPv4Address _) | Some (IPv6Address _) => true | _ => false end.

(** @src address.cc:134-148 Address::LookupAnyIPAddress *)
Definition Address_LookupAnyIPAddress (h : bytes) (family type protocol : Z) : outcome (option Address) :=
  let! (found, result) := Address_Lookup [] h family type protocol in
  if found then Ok (match find is_ip result with Some x => x | None => None end) else Ok None.

(** @src address.cc:267-295 IPAddress::Create *)
Definition IPAddress_Create (address : bytes) (port : Z) : outcome (option Address) :=
  match getaddrinfo (Some (cstr address)) None (mkHints AI_NUMERICHOST AF_UNSPEC 0 0) with
  | inl _ => Ok None
  | inr [] => UB
  | inr (a :: _) =>
    let! x := Address_Create a in
    Ok (match x with
        | Some (IPv4Address a) => Some (IPv4Address (IPv4Address_setPort a port))
        | Some (IPv6Address a) => Some (IPv6Address (IPv6Address_setPort a port))
        | _ => None
        end)
  end.

End resolver.

Section presentation.
(** [inet_pton]: the bytes in network order if the result is positive. *)
Context (inet_pton : Z -> bytes -> option bytes).

(** @src address.cc:300-317 IPv4Address::Create *)
Definition IPv4Address_Create (address : bytes) (port : Z) : option Address :=
  match inet_pton AF_INET (cstr address) with
  | Some bs => Some (IPv4Address (mkIn AF_INET (swap 2 port) (of_mem host bs) (replicate 8 0)))
  | None => None
  end.

(** @src address.cc:393-404 IPv6Address::Create *)
Definition IPv6Address_Create (address : bytes) (port : Z) : option Address :=
  match inet_pton AF_INET6 (cstr address) with
  | Some bs => Some (IPv6Address (mkIn6 AF_INET6 (swap 2 port) 0 bs 0))
  | None => None
  end.

End presentation.

(** ** Interfaces *)

(** An element of the list of [getifaddrs]: the pointers can be null. *)
Record ifaddrs := mkIf { ifa_name : bytes; ifa_addr : option bytes; ifa_netmask : option bytes }.

(** [std::multimap::insert]: behind the equal keys. *)
Fixpoint multimap_insert {V} (k : bytes) (v : V) (m : list (bytes * V)) : list (bytes * V) :=
  match m with
  | [] => [(k, v)]
  | (k', v') :: r => if lex_lt k k' then (k, v) :: m else (k', v') :: multimap_insert k v r
  end.

Fixpoint count_all (bs : bytes) (acc : Z) : outcome Z :=
  match bs with
  | [] => Ok acc
  | b :: bs => let! c := CountBytes 1 b in count_all bs (u32 (acc + c))
  end.

(** @src address.cc:162-192 Address::GetInterfaceAddresses
    The body of the loop: the address with its prefix length, or nothing. *)
Definition interface_address (next : ifaddrs) (family : Z) : outcome (option (Address * Z)) :=
  deref (ifa_addr next) (fun m =>
  let! fam := load 2 m (fun m => field m 0 2) in
  if negb (family =? AF_UNSPEC) && negb (family =? fam) then Ok None
  else if fam =? AF_INET then
    let! addr := Address_Create (Some m) in
    deref (ifa_netmask next) (fun nm =>
    let! netmask := load 16 nm (fun nm => s_addr (in_of nm)) in
    let! prefix_len := CountBytes 4 netmask in
    Ok ((fun a => (a, prefix_len)) <$> addr))
  else if fam =? AF_INET6 then
    let! addr := Address_Create (Some m) in
    deref (ifa_netmask next) (fun nm =>
    let! netmask := load 28 nm (fun nm => s6_addr (in6_of nm)) in
    let! prefix_len := count_all netmask 0 in
    Ok ((fun a => (a, prefix_len)) <$> addr))
  else Ok None).

Fixpoint interface_loop (l : list ifaddrs) (family : Z) (result : list (bytes * (Address * Z)))
    : outcome (list (bytes * (Address * Z))) :=
  match l with
  | [] => Ok result
  | next :: l =>
    let! o := interface_address next family in
    let result := match o with Some v => multimap_insert (ifa_name next) v result | None => result end in
    interface_loop l family result
  end.

(** @src address.cc:151-201 Address::GetInterfaceAddresses
    [ifs] is the list that [getifaddrs] gives, [None] if it fails. *)
Definition Address_GetInterfaceAddresses (ifs : option (list ifaddrs)) (family : Z) (result : list (bytes * (Address * Z)))
    : outcome (bool * list (bytes * (Address * Z))) :=
  match ifs with
  | None => Ok (false, result)
  | Some l =>
    let! result := interface_loop l family result in
    Ok (match result with [] => false | _ => true end, result)
  end.

(** @src address.cc:203-228 Address::GetInterfaceAddresses *)
Definition Address_GetInterfaceAddresses_of (ifs : option (list ifaddrs)) (iface : bytes) (family : Z)
    (result : list (Address * Z)) : outcome (bool * list (Address * Z)) :=
  if bool_decide (iface = []) || bool_decide (iface = str "*") then
    let result := if (family =? AF_INET) || (family =? AF_UNSPEC)
                  then result ++ [(IPv4Address (IPv4Address_new 0 0), 0)] else result in
    let result := if (family =? AF_INET6) || (family =? AF_UNSPEC)
                  then result ++ [(IPv6Address IPv6Address_new, 0)] else result in
    Ok (true, result)
  else
    let! (found, results) := Address_GetInterfaceAddresses ifs family [] in
    if negb found then Ok (false, result) else
    let result := result ++ map snd (filter (fun p => p.1 = iface) results) in
    Ok (match result with [] => false | _ => true end, result).

End host.
