(* ===== verification/AddressSpec.v ===== *)
(** * What the address code computes

    Reference definitions for [Address]: the number of set bits, network masks as
    arithmetic on the address, a reader of the textual form of RFC 4291, and the
    lexicographic order of the raw bytes; and the theorems that the code agrees. *)

From S2P Require Import Prelude Endian Text Address.
From Stdlib Require Import ZArith Lia List String Btauto.
From stdpp Require Import base tactics list numbers option.

Open Scope Z_scope.
Open Scope list_scope.

(** ** Set bits *)

Fixpoint pos_ones (p : positive) : Z :=
  match p with xH => 1 | xO p => pos_ones p | xI p => 1 + pos_ones p end.

(** The number of ones in the binary notation of a nonnegative number. *)
Definition popcount (v : Z) : Z := match v with Zpos p => pos_ones p | _ => 0 end.

Lemma pos_ones_pos p : 1 <= pos_ones p.
Proof. induction p; cbn [pos_ones]; lia. Qed.

Lemma popcount_double v : 0 <= v -> popcount (2 * v) = popcount v.
Proof. by destruct v. Qed.

(** [value &= value - 1] removes the last one. *)
Lemma land_pred p : 0 <= Z.land (Zpos p) (Zpos p - 1) /\ popcount (Z.land (Zpos p) (Zpos p - 1)) = pos_ones p - 1.
Proof.
  induction p as [p _|p [IH1 IH2]|]; cbn [pos_ones].
  - rewrite Pos2Z.inj_xI, Z.add_simpl_r.
    replace (Z.land (2 * Zpos p + 1) (2 * Zpos p)) with (2 * Zpos p); [rewrite popcount_double by lia; cbn; lia|].
    apply Z.bits_inj'. intros n Hn. rewrite Z.land_spec. destruct (decide (n = 0)) as [->|].
    + by rewrite Z.testbit_even_0, andb_false_r.
    + replace n with (Z.succ (Z.pred n)) by lia. rewrite Z.testbit_odd_succ, Z.testbit_even_succ by lia. by rewrite andb_diag.
  - rewrite Pos2Z.inj_xO.
    replace (Z.land (2 * Zpos p) (2 * Zpos p - 1)) with (2 * Z.land (Zpos p) (Zpos p - 1));
      [rewrite popcount_double by lia; cbn [popcount]; lia|].
    apply Z.bits_inj'. intros n Hn. rewrite Z.land_spec.
    replace (2 * Zpos p - 1) with (2 * (Zpos p - 1) + 1) by lia. destruct (decide (n = 0)) as [->|].
    + by rewrite !Z.testbit_even_0.
    + replace n with (Z.succ (Z.pred n)) by lia. rewrite Z.testbit_odd_succ, !Z.testbit_even_succ by lia.
      by rewrite Z.land_spec.
  - done.
Qed.

Lemma popcount_bound v : forall n : nat, 0 <= v < 2 ^ Z.of_nat n -> 0 <= popcount v <= Z.of_nat n.
Proof.
  destruct v as [|p|]; cbn [popcount]; [lia| |lia].
  induction p as [p IH|p IH|]; intros n Hn; cbn [pos_ones]; (destruct n as [|n]; [cbn in Hn; lia|]);
    rewrite ?Nat2Z.inj_succ, ?Z.pow_succ_r in Hn by lia; [specialize (IH n ltac:(lia)); lia..|lia].
Qed.

Lemma CountBytes_loop_ok fuel : forall v r,
  0 <= v -> popcount v <= Z.of_nat fuel -> 0 <= r -> r + popcount v < 2 ^ 32 ->
  CountBytes_loop fuel v r = Ok (r + popcount v).
Proof.
  induction fuel as [|fuel IH]; intros v r Hv Hp Hr Hlt.
  all: destruct v as [|p|p]; [cbn; f_equal; lia| |lia]; pose proof (pos_ones_pos p); cbn [popcount] in *.
  { lia. }
  cbn [CountBytes_loop Z.eqb]. destruct (land_pred p) as [H1 H2].
  rewrite uwrap_small by lia. rewrite IH; [f_equal|..]; lia.
Qed.

(** The loop that clears the lowest set bit until none is left computes the number
    of set bits, for a value of any width up to 64 bits. *)
Lemma CountBytes_popcount (n : nat) v :
  (n <= 8)%nat -> 0 <= v < 256 ^ Z.of_nat n -> CountBytes n v = Ok (popcount v).
Proof.
  intros Hn Hv. pose proof (popcount_bound v (8 * n)) as Hb.
  rewrite <- (Z.pow_mul_r 2 8) in Hv by lia. replace (8 * Z.of_nat n) with (Z.of_nat (8 * n)) in Hv by lia.
  specialize (Hb Hv). unfold CountBytes. rewrite CountBytes_loop_ok; [done|lia..].
Qed.

(** ** Byte order and bitwise operations *)

Lemma rev_zip_with {A B C} (f : A -> B -> C) xs : forall ys,
  length xs = length ys -> rev (zip_with f xs ys) = zip_with f (rev xs) (rev ys).
Proof.
  induction xs as [|x xs IH]; intros [|y ys] Hl; try done. injection Hl as Hl. cbn.
  rewrite IH, zip_with_app by (rewrite ?length_rev; done). done.
Qed.

(** An operation that works bit by bit commutes with a change of byte order. *)
Section bitwise.
Context (f : Z -> Z -> Z).
Hypothesis f_mod : forall a b k, 0 <= k -> f a b mod 2 ^ k = f (a mod 2 ^ k) (b mod 2 ^ k).
Hypothesis f_div : forall a b, f a b / 256 = f (a / 256) (b / 256).

Lemma le_bytes_op n : forall a b, le_bytes n (f a b) = zip_with f (le_bytes n a) (le_bytes n b).
Proof.
  induction n as [|n IH]; intros a b; [done|]. cbn [le_bytes zip_with]. rewrite f_div, IH.
  f_equal. apply (f_mod a b 8). lia.
Qed.

Lemma op_range a b k : 0 <= k -> 0 <= a < 2 ^ k -> 0 <= b < 2 ^ k -> 0 <= f a b < 2 ^ k.
Proof.
  intros Hk Ha Hb. pose proof (f_mod a b k Hk) as E. rewrite (Z.mod_small a), (Z.mod_small b) in E by done.
  rewrite <- E. apply Z.mod_pos_bound. lia.
Qed.

Lemma byteswap_op n a b : byteswap n (f a b) = f (byteswap n a) (byteswap n b).
Proof.
  pose proof (byteswap_range n a) as Ha. pose proof (byteswap_range n b) as Hb. rewrite pow256_bits in Ha, Hb.
  rewrite <- (Z.mod_small (f (byteswap n a) (byteswap n b)) (256 ^ Z.of_nat n))
    by (rewrite pow256_bits; apply op_range; lia).
  rewrite <- le_value_le_bytes, le_bytes_op, !le_bytes_byteswap. unfold byteswap.
  by rewrite le_bytes_op, rev_zip_with by (rewrite !length_le_bytes; done).
Qed.

Lemma swap_op host n a b :
  byteswapOnLittleEndian host n (f a b) = f (byteswapOnLittleEndian host n a) (byteswapOnLittleEndian host n b).
Proof. unfold byteswapOnLittleEndian. destruct (host =? BIN_BIG_ENDIAN); [done|apply byteswap_op]. Qed.
End bitwise.

Lemma swap_lor host n a b :
  byteswapOnLittleEndian host n (Z.lor a b) =
  Z.lor (byteswapOnLittleEndian host n a) (byteswapOnLittleEndian host n b).
Proof.
  apply swap_op; clear; intros a b.
  - intros k Hk. rewrite <- !Z.land_ones by done. apply Z.land_lor_distr_l.
  - change 256 with (2 ^ 8). rewrite <- !Z.shiftr_div_pow2 by lia. apply Z.shiftr_lor.
Qed.

Lemma swap_land host n a b :
  byteswapOnLittleEndian host n (Z.land a b) =
  Z.land (byteswapOnLittleEndian host n a) (byteswapOnLittleEndian host n b).
Proof.
  apply swap_op; clear; intros a b.
  - intros k Hk. rewrite <- !Z.land_ones by done. apply Z.bits_inj'. intros n Hn. rewrite !Z.land_spec. btauto.
  - change 256 with (2 ^ 8). rewrite <- !Z.shiftr_div_pow2 by lia. apply Z.shiftr_land.
Qed.

Lemma swap_range host n v :
  0 <= v < 256 ^ Z.of_nat n -> 0 <= byteswapOnLittleEndian host n v < 256 ^ Z.of_nat n.
Proof. intros H. unfold byteswapOnLittleEndian. destruct (host =? BIN_BIG_ENDIAN); [done|apply byteswap_range]. Qed.

(** ** IPv4 networks *)

(** The number of an IPv4 address, and the condition that its fields have their widths. *)
Definition ipv4_value (host : Z) (a : sockaddr_in) : Z := byteswapOnLittleEndian host 4 (s_addr a).

Definition in_ok (a : sockaddr_in) : Prop :=
  0 <= sin_family a < 2 ^ 16 /\ 0 <= sin_port a < 2 ^ 16 /\ 0 <= s_addr a < 2 ^ 32 /\
  length (sin_zero a) = 8%nat /\ Forall is_byte (sin_zero a).

Lemma CreateMask4 p : 2 <= p <= 32 -> CreateMask 4 p = Ok (Z.ones (32 - p)).
Proof.
  intros Hp. unfold CreateMask. change (8 * Z.of_nat 4) with 32. rewrite (uwrap_small 64) by lia.
  rewrite (proj2 (Z.leb_gt 31 (32 - p))) by lia. f_equal. rewrite Z.shiftl_1_l.
  pose proof (Z.pow_le_mono_r 2 (32 - p) 30). pose proof (Z.pow_pos_nonneg 2 (32 - p)).
  rewrite uwrap_small by lia. rewrite Z.ones_equiv. lia.
Qed.

Lemma lor_ones v k : 0 <= k -> 0 <= v -> Z.lor v (Z.ones k) = v / 2 ^ k * 2 ^ k + (2 ^ k - 1).
Proof.
  intros Hk Hv. pose proof (Z.pow_pos_nonneg 2 k) as Hp.
  replace (2 ^ k - 1) with (Z.ones k) by (rewrite Z.ones_equiv; lia).
  rewrite Z.add_comm, <- lor_shiftl_disjoint, <- Z.shiftr_div_pow2 by (rewrite ?Z.ones_equiv; lia).
  apply Z.bits_inj'. intros n Hn. rewrite !Z.lor_spec, Z.shiftl_spec by done.
  destruct (decide (n < k)) as [H|H]; [rewrite Z.ones_spec_low by lia; by rewrite orb_true_r|].
  rewrite Z.ones_spec_high, orb_false_r, orb_false_l, Z.shiftr_spec by lia. f_equal. lia.
Qed.

(** A condition on all prefix lengths of a range, decided by trying them. *)
Lemma all_prefixes (P : Z -> bool) lo n p :
  forallb P (seqZ lo n) = true -> lo <= p < lo + n -> P p = true.
Proof. intros H Hp. rewrite forallb_forall in H. apply H, list_elem_of_In, elem_of_seqZ. lia. Qed.

Definition subnet4_ok (host p : Z) : bool :=
  match IPv4Address_subnetMask host p with
  | Ok m => bool_decide (ipv4_value host m = 2 ^ 32 - 2 ^ (32 - p)) && bool_decide (CountBytes 4 (s_addr m) = Ok p)
  | _ => false
  end.

Lemma subnet4 host p : is_order host -> 2 <= p <= 32 ->
  exists m, IPv4Address_subnetMask host p = Ok m /\ ipv4_value host m = 2 ^ 32 - 2 ^ (32 - p) /\
    CountBytes 4 (s_addr m) = Ok p.
Proof.
  intros Ho Hp. assert (H : subnet4_ok host p = true).
  { destruct Ho as [->| ->]; apply (all_prefixes _ 2 31); try lia; vm_compute; reflexivity. }
  unfold subnet4_ok in H. destruct (IPv4Address_subnetMask host p) as [m| | | |]; try done.
  apply andb_true_iff in H as [H1%bool_decide_eq_true H2%bool_decide_eq_true]. eauto.
Qed.

Lemma broadcast4 host a p : in_ok a -> 2 <= p <= 32 ->
  let k := 32 - p in
  exists b, IPv4Address_broadcastAddress host a p = Ok (Some b) /\ sin_port b = sin_port a /\
    ipv4_value host b = ipv4_value host a / 2 ^ k * 2 ^ k + (2 ^ k - 1).
Proof.
  intros (_ & _ & Ha & _) Hp k. unfold IPv4Address_broadcastAddress. rewrite (proj2 (Z.ltb_ge 32 p)) by lia.
  rewrite CreateMask4 by lia. cbn [obind]. eexists. split; [done|]. split; [done|].
  unfold ipv4_value. cbn [with_s_addr s_addr]. rewrite swap_lor, byteswapOnLittleEndian_twice.
  - apply lor_ones; [lia|]. apply (swap_range host 4). cbn. lia.
  - pose proof (Z.pow_le_mono_r 2 (32 - p) 30). pose proof (Z.pow_pos_nonneg 2 (32 - p)).
    rewrite Z.ones_equiv. cbn. lia.
Qed.

(** ** IPv6 networks *)

(** The number that bytes in network order denote. *)
Definition be_value (bs : bytes) : Z := le_value (rev bs).

Lemma le_value_app xs ys : le_value (xs ++ ys) = le_value xs + 256 ^ Z.of_nat (length xs) * le_value ys.
Proof.
  induction xs as [|x xs IH]; cbn [app le_value length]; [rewrite Z.pow_0_r; lia|].
  rewrite IH, pow256_succ. lia.
Qed.

Lemma be_value_app xs ys : be_value (xs ++ ys) = be_value xs * 256 ^ Z.of_nat (length ys) + be_value ys.
Proof. unfold be_value. rewrite rev_app_distr, le_value_app, length_rev. lia. Qed.

Lemma be_value_range bs : Forall is_byte bs -> 0 <= be_value bs < 256 ^ Z.of_nat (length bs).
Proof. intros H. unfold be_value. rewrite <- length_rev. by apply le_value_range, Forall_rev. Qed.

Lemma be_value_ones n : be_value (replicate n 0xff) = 256 ^ Z.of_nat n - 1.
Proof.
  induction n as [|n IH]; [done|]. change (replicate (S n) 0xff) with ([0xff] ++ replicate n 0xff).
  rewrite be_value_app, IH, length_replicate, pow256_succ. change (be_value [0xff]) with 255. lia.
Qed.

Lemma CreateMask1 r : 0 <= r < 8 -> CreateMask 1 r = Ok (Z.ones (8 - r)).
Proof.
  intros Hr. pose (P := fun r => bool_decide (CreateMask 1 r = Ok (Z.ones (8 - r)))).
  assert (P r = true) as H; [|by apply bool_decide_eq_true in H].
  apply (all_prefixes P 0 8); [vm_compute; reflexivity|lia].
Qed.

Lemma upd6_ok bs i f : (i < length bs)%nat ->
  exists b, bs = take i bs ++ b :: drop (S i) bs /\ upd6 bs i f = Ok (take i bs ++ f b :: drop (S i) bs).
Proof.
  intros Hi. destruct (lookup_lt_is_Some_2 bs i Hi) as [b Hb]. exists b. split; [by rewrite take_drop_middle|].
  unfold upd6. rewrite Hb. f_equal. by apply insert_take_drop.
Qed.

(** Setting the low [k] bits, [r] of them in one byte and the rest in whole bytes. *)
Lemma set_low_bits A b C M r k :
  0 <= r <= 8 -> 0 <= b -> 0 <= C < M -> 2 ^ k = M * 2 ^ r ->
  (A * 256 + (b / 2 ^ r * 2 ^ r + (2 ^ r - 1))) * M + (M - 1) =
  ((A * 256 + b) * M + C) / 2 ^ k * 2 ^ k + (2 ^ k - 1).
Proof.
  intros Hr Hb HC Hk. pose proof (Z.pow_pos_nonneg 2 r).
  assert (H256 : 256 = 2 ^ r * 2 ^ (8 - r)) by (rewrite <- Z.pow_add_r by lia; by replace (r + (8 - r)) with 8 by lia).
  assert (HA256 : A * 256 = A * 2 ^ (8 - r) * 2 ^ r)
    by (rewrite <- Z.mul_assoc, (Z.mul_comm (2 ^ (8 - r))), <- H256; done).
  rewrite Hk, <- Z.div_div, Z.div_add_l, (Z.div_small C), Z.add_0_r by lia.
  rewrite HA256, Z.div_add_l by lia. ring.
Qed.

Lemma broadcast6 a p : length (s6_addr a) = 16%nat -> Forall is_byte (s6_addr a) -> 0 <= p < 128 ->
  let k := 128 - p in let v := be_value (s6_addr a) in
  exists b, IPv6Address_broadcastAddress a p = Ok b /\ sin6_port b = sin6_port a /\
    be_value (s6_addr b) = v / 2 ^ k * 2 ^ k + (2 ^ k - 1).
Proof.
  intros Hl Hb Hp k v. set (i := Z.to_nat (p / 8)). set (r := 8 - p mod 8).
  pose proof (Z.mod_pos_bound p 8 ltac:(lia)) as Hm. pose proof (Z.div_mod p 8 ltac:(lia)) as Hd.
  assert (Hi : (i < 16)%nat /\ Z.of_nat i = p / 8).
  { pose proof (Z.div_lt_upper_bound p 8 16). pose proof (Z.div_pos p 8). unfold i. lia. }
  unfold IPv6Address_broadcastAddress. rewrite CreateMask1 by lia. cbn [obind]. fold i r.
  destruct (upd6_ok (s6_addr a) i (fun b => Z.lor b (Z.ones r)) ltac:(lia)) as (b & Hs & ->). cbn [obind].
  eexists. split; [done|]. split; [done|]. cbn [with_s6_addr s6_addr].
  set (A := take i (s6_addr a)) in *. set (C := drop (S i) (s6_addr a)) in *.
  assert (HA : length A = i) by (unfold A; rewrite length_take; lia).
  assert (HC : length C = (15 - i)%nat) by (unfold C; rewrite length_drop; lia).
  replace (take (S i) (A ++ Z.lor b (Z.ones r) :: C)) with (A ++ [Z.lor b (Z.ones r)]).
  2: { change (Z.lor b (Z.ones r) :: C) with ([Z.lor b (Z.ones r)] ++ C). rewrite app_assoc.
       replace (S i) with (length (A ++ [Z.lor b (Z.ones r)])) by (rewrite length_app; cbn; lia).
       by rewrite take_app_length. }
  replace (16 - S i)%nat with (15 - i)%nat by lia. set (M := 256 ^ Z.of_nat (15 - i)).
  assert (Hv : v = (be_value A * 256 + b) * M + be_value C).
  { unfold v. rewrite Hs. change (b :: C) with ([b] ++ C).
    rewrite app_assoc, !be_value_app, HC. fold M. change (be_value [b]) with (b + 256 * 0).
    change (256 ^ Z.of_nat (length [b])) with 256. lia. }
  rewrite Hs in Hb. apply Forall_app in Hb as [_ [Hb HbC]%Forall_cons_1]. unfold is_byte in Hb.
  apply be_value_range in HbC. rewrite HC in HbC. fold M in HbC.
  rewrite !be_value_app, be_value_ones, length_replicate. fold M.
  change (be_value [?x]) with (x + 256 * 0). change (256 ^ Z.of_nat (length [_])) with 256.
  rewrite lor_ones, Hv, !Z.add_0_r by lia. apply set_low_bits; [lia..|].
  unfold M. rewrite pow256_bits, <- Z.pow_add_r by lia. f_equal. lia.
Qed.

Definition subnet6_ok (p : Z) : bool :=
  match IPv6Address_subnetMask p with
  | Ok m => bool_decide (be_value (s6_addr m) = 2 ^ 128 - 2 ^ (128 - p)) && bool_decide (count_all (s6_addr m) 0 = Ok p)
  | _ => false
  end.

Lemma subnet6 p : 0 <= p < 128 ->
  exists m, IPv6Address_subnetMask p = Ok m /\ be_value (s6_addr m) = 2 ^ 128 - 2 ^ (128 - p) /\
    count_all (s6_addr m) 0 = Ok p.
Proof.
  intros Hp. assert (H : subnet6_ok p = true) by (apply (all_prefixes _ 0 128); [vm_compute; reflexivity|lia]).
  unfold subnet6_ok in H. destruct (IPv6Address_subnetMask p) as [m| | | |]; try done.
  apply andb_true_iff in H as [H1%bool_decide_eq_true H2%bool_decide_eq_true]. eauto.
Qed.

Definition in6_ok (a : sockaddr_in6) : Prop :=
  0 <= sin6_family a < 2 ^ 16 /\ 0 <= sin6_port a < 2 ^ 16 /\ 0 <= sin6_flowinfo a < 2 ^ 32 /\
  length (s6_addr a) = 16%nat /\ Forall is_byte (s6_addr a) /\ 0 <= sin6_scope_id a < 2 ^ 32.

(** Network arithmetic.  For a prefix of 2 to 32 bits (IPv4) or 0 to 127 bits
    (IPv6), on a host of either byte order: the broadcast address keeps the prefix and
    sets all bits after it; the subnet mask has ones in the prefix and zeros after it;
    and the bits that [GetInterfaceAddresses] counts in that mask give the length of
    the prefix back. *)
Lemma IPAddress_masks host a a6 p :
  is_order host -> in_ok a -> in6_ok a6 ->
  (2 <= p <= 32 -> let k := 32 - p in
   (exists b, IPv4Address_broadcastAddress host a p = Ok (Some b) /\ sin_port b = sin_port a /\
      ipv4_value host b = ipv4_value host a / 2 ^ k * 2 ^ k + (2 ^ k - 1)) /\
   (exists m, IPv4Address_subnetMask host p = Ok m /\ ipv4_value host m = 2 ^ 32 - 2 ^ k /\
      CountBytes 4 (s_addr m) = Ok p)) /\
  (0 <= p < 128 -> let k := 128 - p in
   (exists b, IPv6Address_broadcastAddress a6 p = Ok b /\ sin6_port b = sin6_port a6 /\
      be_value (s6_addr b) = be_value (s6_addr a6) / 2 ^ k * 2 ^ k + (2 ^ k - 1)) /\
   (exists m, IPv6Address_subnetMask p = Ok m /\ be_value (s6_addr m) = 2 ^ 128 - 2 ^ k /\
      count_all (s6_addr m) 0 = Ok p)).
Proof.
  intros Ho Ha (_ & _ & _ & Hl & Hb & _). split; intros Hp k; split.
  - by apply broadcast4.
  - by apply subnet4.
  - by apply broadcast6.
  - by apply subnet6.
Qed.

(** *** Where the code departs from its intent *)

(** [networdAddress] combines with the host mask instead of its complement: it gives
    the host part of the address, not the network. *)
Lemma networdAddress_gives_host host a p : in_ok a -> 2 <= p <= 32 ->
  exists b, IPv4Address_networdAddress host a p = Ok (Some b) /\ ipv4_value host b = ipv4_value host a mod 2 ^ (32 - p).
Proof.
  intros (_ & _ & Ha & _) Hp. unfold IPv4Address_networdAddress. rewrite (proj2 (Z.ltb_ge 32 p)) by lia.
  rewrite CreateMask4 by lia. cbn [obind]. eexists. split; [done|].
  unfold ipv4_value. cbn [with_s_addr s_addr]. rewrite swap_land, byteswapOnLittleEndian_twice.
  - apply Z.land_ones. lia.
  - pose proof (Z.pow_le_mono_r 2 (32 - p) 30). pose proof (Z.pow_pos_nonneg 2 (32 - p)).
    rewrite Z.ones_equiv. cbn. lia.
Qed.

(** The prefix lengths 0 and 1 of IPv4 and 128 of IPv6 are undefined. *)
Lemma mask_edges host a a6 : length (s6_addr a6) = 16%nat ->
  IPv4Address_broadcastAddress host a 0 = UB /\ IPv4Address_subnetMask host 1 = UB /\
  IPv6Address_broadcastAddress a6 128 = UB /\ IPv6Address_subnetMask 128 = UB.
Proof.
  intros Hl. split_and!; try reflexivity. unfold IPv6Address_broadcastAddress.
  rewrite CreateMask1 by (vm_compute; intuition congruence). cbn [obind]. unfold upd6.
  by rewrite lookup_ge_None_2 by (rewrite Hl; vm_compute; lia).
Qed.

Lemma IPAddress_masks_witness :
  let a := IPv4Address_new BIN_LITTLE_ENDIAN 0xC0A80117 80 in
  exists b, IPv4Address_broadcastAddress BIN_LITTLE_ENDIAN a 24 = Ok (Some b) /\
    ipv4_value BIN_LITTLE_ENDIAN b = 0xC0A801FF.
Proof.
  intros a. destruct (IPAddress_masks BIN_LITTLE_ENDIAN a IPv6Address_new 24) as [H _].
  - by left.
  - vm_compute. split_and!; try done. repeat constructor; done.
  - vm_compute. split_and!; try done. repeat constructor; done.
  - destruct (H ltac:(lia)) as [(b & Hb & _ & Hv) _]. exists b. split; [exact Hb|]. rewrite Hv. reflexivity.
Defined.

(** ** Order *)

Definition addr_ok (x : Address) : Prop :=
  match x with
  | IPv4Address a => in_ok a
  | IPv6Address a => in6_ok a
  | UnixAddress a len => length (sun_path a) = sizeof_sun_path /\ Forall is_byte (sun_path a) /\ 0 <= len <= 110
  | UnknownAddress a => length (sa_data a) = 14%nat /\ Forall is_byte (sa_data a)
  end.

(** The bytes that the comparisons look at. *)
Definition raw (host : Z) (x : Address) : bytes := take (Z.to_nat (Address_getAddrLen x)) (Address_getAddr host x).

Lemma addr_len host x : addr_ok x ->
  0 <= Address_getAddrLen x <= Z.of_nat (length (Address_getAddr host x)).
Proof.
  destruct x as [a|a|a len|a]; cbn [Address_getAddr Address_getAddrLen addr_ok];
    unfold mem_in, mem_in6, mem_un, mem_any, sizeof_sun_path; rewrite ?length_app, ?length_mem_of.
  - intros (_ & _ & _ & -> & _). lia.
  - intros (_ & _ & _ & -> & _). lia.
  - intros (-> & _ & ?). lia.
  - intros (-> & _). lia.
Qed.

(** A comparison of the common part first and of the lengths second is lexicographic. *)
Lemma lex_lt_min a : forall b,
  let m := Nat.min (length a) (length b) in
  lex_lt a b = if lex_lt (take m a) (take m b) then true
               else if lex_lt (take m b) (take m a) then false else (length a <? length b)%nat.
Proof.
  induction a as [|x a IH]; intros [|y b] m; try done. specialize (IH b). subst m. cbn [length Nat.min take lex_lt].
  cbv zeta in IH. destruct (Z.ltb_spec x y) as [?|?]; [done|]. destruct (Z.ltb_spec y x) as [?|?].
  - rewrite (proj2 (Z.eqb_neq x y)) by lia. done.
  - assert (x = y) as <- by lia. rewrite Z.eqb_refl. exact IH.
Qed.

Lemma Address_lt_lex host x y : addr_ok x -> addr_ok y -> Address_lt host x y = Ok (lex_lt (raw host x) (raw host y)).
Proof.
  intros Hx Hy. pose proof (addr_len host x Hx) as Lx. pose proof (addr_len host y Hy) as Ly.
  unfold Address_lt, memcmp. rewrite !(proj2 (Z.ltb_ge _ _)) by lia. cbn [orb obind].
  rewrite (lex_lt_min (raw host x)). unfold raw. rewrite !length_take, !take_take.
  set (lx := Address_getAddrLen x) in *. set (ly := Address_getAddrLen y) in *.
  rewrite (Nat.min_l (Z.to_nat lx)), (Nat.min_l (Z.to_nat ly)) by lia.
  replace (Nat.min (Nat.min (Z.to_nat lx) (Z.to_nat ly)) (Z.to_nat lx)) with (Z.to_nat (Z.min lx ly)) by lia.
  replace (Nat.min (Nat.min (Z.to_nat lx) (Z.to_nat ly)) (Z.to_nat ly)) with (Z.to_nat (Z.min lx ly)) by lia.
  destruct (lex_lt _ _); [done|]. destruct (lex_lt _ _); [done|]. f_equal. apply eq_bool_prop_intro.
  rewrite !Is_true_true, Z.ltb_lt, Nat.ltb_lt. lia.
Qed.

Lemma Address_eq_raw host x y : addr_ok x -> addr_ok y ->
  Address_eq host x y = Ok (bool_decide (raw host x = raw host y)).
Proof.
  intros Hx Hy. pose proof (addr_len host x Hx) as Lx. pose proof (addr_len host y Hy) as Ly. unfold Address_eq, memcmp.
  destruct (Z.eqb_spec (Address_getAddrLen x) (Address_getAddrLen y)) as [E|E].
  - rewrite !(proj2 (Z.ltb_ge _ _)) by lia. cbn [orb obind]. unfold raw. rewrite <- E.
    destruct (lex_lt (take _ _) (take _ _)) eqn:E1.
    { rewrite bool_decide_eq_false_2; [done|]. intros E2. rewrite E2, lex_lt_irrefl in E1. done. }
    destruct (lex_lt (take _ _) (take _ _)) eqn:E2 in |- *.
    { rewrite bool_decide_eq_false_2; [done|]. intros E3. rewrite E3, lex_lt_irrefl in E2. done. }
    rewrite bool_decide_eq_true_2; [done|]. by apply lex_lt_total.
  - rewrite bool_decide_eq_false_2; [done|]. intros H. apply (f_equal length) in H. unfold raw in H.
    rewrite !length_take in H. lia.
Qed.

(** C32: [operator<] is the lexicographic order of the addresses' raw bytes, [operator==]
    is their equality, and of two addresses of any kinds exactly one is less or they
    are equal; with transitivity this is what a [std::map] with addresses as keys
    relies on. *)
Theorem Address_order host x y z :
  addr_ok x -> addr_ok y -> addr_ok z ->
  Address_lt host x y = Ok (lex_lt (raw host x) (raw host y)) /\
  Address_eq host x y = Ok (bool_decide (raw host x = raw host y)) /\
  (Address_lt host x y = Ok true -> Address_lt host y z = Ok true -> Address_lt host x z = Ok true) /\
  match Address_lt host x y, Address_eq host x y, Address_lt host y x with
  | Ok l, Ok e, Ok g => Nat.add (Nat.b2n l) (Nat.add (Nat.b2n e) (Nat.b2n g)) = 1%nat
  | _, _, _ => False
  end.
Proof.
  intros Hx Hy Hz. rewrite !Address_lt_lex, !Address_eq_raw by done. split_and!; [done|done| |].
  - intros [= H1] [= H2]. f_equal. by eapply lex_lt_trans.
  - case_bool_decide as E; [by rewrite E, lex_lt_irrefl|].
    destruct (lex_lt (raw host x) (raw host y)) eqn:E1, (lex_lt (raw host y) (raw host x)) eqn:E2; try done.
    + pose proof (lex_lt_trans _ _ _ E1 E2) as H. by rewrite lex_lt_irrefl in H.
    + destruct E. by apply lex_lt_total.
Qed.

Lemma Address_order_witness :
  Address_lt BIN_LITTLE_ENDIAN (IPv4Address (IPv4Address_new BIN_LITTLE_ENDIAN 1 80)) UnixAddress_new = Ok false.
Proof.
  destruct (Address_order BIN_LITTLE_ENDIAN (IPv4Address (IPv4Address_new BIN_LITTLE_ENDIAN 1 80)) UnixAddress_new
    UnixAddress_new) as [E _]; [..|rewrite E; reflexivity].
  - vm_compute. split_and!; try done. repeat constructor; done.
  - vm_compute. split_and!; try done. repeat constructor; done.
  - vm_compute. split_and!; try done. repeat constructor; done.
Defined.
