(* ===== verification/AddressText.v ===== *)
(** * Addresses as text

    Readers of the textual forms of IPv4 and IPv6 addresses (RFC 4291, section 2.2, with
    at most one "::"), and the theorem that they read back what [insert] prints. *)

From S2P Require Import Prelude Endian Text Address AddressSpec.
From Stdlib Require Import ZArith Lia List String.
From stdpp Require Import base tactics list numbers option.

Open Scope Z_scope.
Open Scope list_scope.

(** ** The readers *)

(** The pieces between the separators. *)
Fixpoint split_on (c : Z) (s : bytes) : list bytes :=
  match s with
  | [] => [[]]
  | x :: r =>
    if x =? c then [] :: split_on c r
    else match split_on c r with p :: ps => (x :: p) :: ps | [] => [[x]] end
  end.

(** A number below [limit] in digits of [base]. *)
Definition read_num (base limit : Z) (s : bytes) : option Z :=
  if bool_decide (s = []) then None
  else if forallb (fun c => match digit_val c with Some d => d <? base | None => false end) s then
    let v := digits_value base 0 s in if v <? limit then Some v else None
  else None.

Definition read_ipv4 (s : bytes) : option Z :=
  match mapM (read_num 10 256) (split_on 46 s) with
  | Some [a; b; c; d] => Some (((a * 256 + b) * 256 + c) * 256 + d)
  | _ => None
  end.

(** The pieces before the first empty one, and those after it. *)
Fixpoint cut_at_gap (ps : list bytes) : list bytes * option (list bytes) :=
  match ps with
  | [] => ([], None)
  | [] :: r => ([], Some r)
  | p :: r => let '(l, o) := cut_at_gap r in (p :: l, o)
  end.

(** Eight groups, or fewer around one gap, which stands for zeros.  A gap at the start
    or at the end of the text shows as two empty pieces. *)
Definition read_ipv6 (s : bytes) : option (list Z) :=
  let '(l, o) := cut_at_gap (split_on 58 s) in
  match o with
  | None => gs ← mapM (read_num 16 65536) l; if (length gs =? 8)%nat then Some gs else None
  | Some r =>
    r ← match l with [] => match r with [] :: r => Some r | _ => None end | _ => Some r end;
    let r := match r with [[]] => [] | _ => r end in
    a ← mapM (read_num 16 65536) l; b ← mapM (read_num 16 65536) r;
    if (length a + length b <? 8)%nat then Some (a ++ replicate (8 - (length a + length b)) 0 ++ b) else None
  end.

Example read_ipv6_demo : read_ipv6 (str "2001:db8::1") = Some [0x2001; 0xdb8; 0; 0; 0; 0; 0; 1].
Proof. reflexivity. Qed.
Example read_ipv6_two_gaps : read_ipv6 (str "1::2::3") = None.
Proof. reflexivity. Qed.

(** ** Splitting what was joined *)

Definition join (c : Z) (ps : list bytes) : bytes :=
  match ps with
  | [] => []
  | p :: r => p ++ flat_map (fun q => c :: q) r
  end.

Lemma split_on_last c p : c ∉ p -> split_on c p = [p].
Proof.
  induction p as [|x p IH]; intros H; [done|]. apply not_elem_of_cons in H as [H1 H2]. cbn.
  rewrite (proj2 (Z.eqb_neq x c)) by congruence. by rewrite IH.
Qed.

Lemma split_on_sep c p s : c ∉ p -> split_on c (p ++ c :: s) = p :: split_on c s.
Proof.
  induction p as [|x p IH]; intros H; cbn; [by rewrite Z.eqb_refl|]. apply not_elem_of_cons in H as [H1 H2].
  rewrite (proj2 (Z.eqb_neq x c)) by congruence. by rewrite IH.
Qed.

Lemma split_flat_map c r : forall p s, c ∉ p -> Forall (fun q => c ∉ q) r ->
  split_on c (p ++ flat_map (fun q => c :: q) r ++ c :: s) = p :: r ++ split_on c s /\
  split_on c (p ++ flat_map (fun q => c :: q) r) = p :: r.
Proof.
  induction r as [|q r IH]; intros p s Hp Hr; cbn [flat_map app].
  - rewrite app_nil_r. split; [by apply split_on_sep|by apply split_on_last].
  - apply Forall_cons_1 in Hr as [Hq Hr]. destruct (IH q s Hq Hr) as [E1 E2].
    split; [rewrite <- (app_assoc q), split_on_sep, E1|rewrite split_on_sep, E2]; done.
Qed.

Lemma split_join c ps : ps <> [] -> Forall (fun q => c ∉ q) ps -> split_on c (join c ps) = ps.
Proof. destruct ps as [|p r]; [done|]. intros _ [Hp Hr]%Forall_cons_1. exact (proj2 (split_flat_map c r p [] Hp Hr)). Qed.

Lemma split_join_sep c ps s :
  ps <> [] -> Forall (fun q => c ∉ q) ps -> split_on c (join c ps ++ c :: s) = ps ++ split_on c s.
Proof.
  destruct ps as [|p r]; [done|]. intros _ [Hp Hr]%Forall_cons_1. cbn [join]. rewrite <- app_assoc.
  exact (proj1 (split_flat_map c r p s Hp Hr)).
Qed.

Lemma read_num_dec n : 0 <= n < 256 -> read_num 10 256 (dec n) = Some n /\ 46 ∉ dec n.
Proof.
  intros Hn. destruct (dec_spec n) as (Hne & Hd & Hv); [lia|]. specialize (Hv []). rewrite app_nil_r in Hv. split.
  - unfold read_num. rewrite bool_decide_eq_false_2 by done.
    replace (forallb _ (dec n)) with true; [rewrite Hv; cbn; by rewrite (proj2 (Z.ltb_lt n 256)) by lia|].
    symmetry. apply forallb_forall. intros c Hc. rewrite List.Forall_forall in Hd. specialize (Hd c Hc).
    unfold digit_val. rewrite Hd. unfold is_digit in Hd. lia.
  - intros H%list_elem_of_In. rewrite List.Forall_forall in Hd. by specialize (Hd 46 H).
Qed.

Lemma read_num_hex n : 0 <= n < 65536 -> read_num 16 65536 (hex n) = Some n /\ 58 ∉ hex n /\ hex n <> [].
Proof.
  intros Hn. destruct (hex_spec n) as (Hne & Hd & Hv); [lia|]. split_and!; [| |done].
  - unfold read_num. rewrite bool_decide_eq_false_2 by done.
    replace (forallb _ (hex n)) with true; [rewrite Hv; by rewrite (proj2 (Z.ltb_lt n 65536)) by lia|].
    symmetry. apply forallb_forall. intros c Hc. rewrite List.Forall_forall in Hd. exact (Hd c Hc).
  - intros H%list_elem_of_In. rewrite List.Forall_forall in Hd. by specialize (Hd 58 H).
Qed.

(** ** IPv4 *)

Lemma swap16 host a b : is_order host -> is_byte a -> is_byte b ->
  byteswapOnLittleEndian host 2 (of_mem host [a; b]) = a * 256 + b /\ 0 <= of_mem host [a; b] < 65536.
Proof.
  intros Ho Ha Hb. unfold is_byte in *. destruct (is_order_cases host Ho) as [[E1 E2]|[E1 E2]];
    unfold byteswapOnLittleEndian, of_mem, byteswap; rewrite E1, E2; cbn [rev app le_value le_bytes]; (split; [|lia]); [|lia].
  replace ((a + 256 * (b + 256 * 0)) mod 256) with a by (rewrite Z.mul_comm, Z_mod_plus_full, Z.mod_small; lia).
  replace ((a + 256 * (b + 256 * 0)) / 256) with b by (rewrite Z.mul_comm, Z.div_add, Z.div_small by lia; lia).
  rewrite Z.mod_small by lia. lia.
Qed.

(** A number is made of its bytes. *)
Lemma bytes_of_value v : 0 <= v < 2 ^ 32 ->
  let b i := Z.land (Z.shiftr v i) 0xff in
  v = ((b 24 * 256 + b 16) * 256 + b 8) * 256 + Z.land v 0xff /\
  Forall (fun x => 0 <= x < 256) [b 24; b 16; b 8; Z.land v 0xff].
Proof.
  intros Hv b. assert (Hb : forall x, Z.land x 0xff = x mod 256) by (intros; apply (Z.land_ones _ 8); lia).
  unfold b. rewrite !Hb, !Z.shiftr_div_pow2 by lia. split.
  - change (2 ^ 24) with (256 * 256 * 256). change (2 ^ 16) with (256 * 256). change (2 ^ 8) with 256.
    rewrite <- !Z.div_div by lia. set (v1 := v / 256). set (v2 := v1 / 256). set (v3 := v2 / 256).
    assert (v3 < 256).
    { unfold v3, v2, v1. rewrite !Z.div_div by lia. apply Z.div_lt_upper_bound; lia. }
    assert (0 <= v3) by (unfold v3, v2, v1; rewrite !Z.div_div by lia; apply Z.div_pos; lia).
    rewrite (Z.mod_small v3) by lia.
    pose proof (Z.div_mod v 256). pose proof (Z.div_mod v1 256). pose proof (Z.div_mod v2 256). lia.
  - repeat constructor; apply Z.mod_pos_bound; lia.
Qed.

Lemma ipv4_text host a : 0 <= s_addr a < 2 ^ 32 ->
  exists t, IPv4Address_insert host a = t ++ str ":" ++ dec (IPv4Address_getPort host a) /\
    read_ipv4 t = Some (ipv4_value host a).
Proof.
  intros Ha. pose proof (swap_range host 4 (s_addr a)) as Hr. cbn in Hr. specialize (Hr ltac:(lia)).
  destruct (bytes_of_value (ipv4_value host a) ltac:(unfold ipv4_value; lia)) as [Hv Hb].
  unfold IPv4Address_insert. fold (ipv4_value host a). set (v := ipv4_value host a) in *.
  set (bs := [_; _; _; _]) in Hb. exists (join 46 (map dec bs)). split.
  { unfold bs. cbn [map join flat_map]. rewrite app_nil_r, <- !app_assoc. reflexivity. }
  unfold read_ipv4. rewrite split_join; [|done|].
  - assert (E : mapM (read_num 10 256) (map dec bs) = Some bs).
    { apply mapM_Some. apply Forall2_fmap_l, Forall_Forall2_diag. eapply Forall_impl; [|exact Hb].
      intros x Hx. by apply read_num_dec. }
    rewrite E. unfold bs. by rewrite <- Hv.
  - apply Forall_fmap. eapply Forall_impl; [|exact Hb]. intros x Hx. by apply read_num_dec.
Qed.

(** ** IPv6 *)

(** The groups of an address: bytes in pairs, network order. *)
Fixpoint be16 (bs : bytes) : list Z :=
  match bs with a :: b :: r => (a * 256 + b) :: be16 r | _ => [] end.

(** Any list is numbers that are not zero, zeros, and something that does not start
    with zero (or nothing at all if there are no zeros). *)
Lemma zeros_run (xs : list Z) :
  exists n post, xs = replicate n 0 ++ post /\ (post = [] \/ exists y r, post = y :: r /\ y <> 0).
Proof.
  induction xs as [|x xs (n & post & -> & Hp)]; [exists 0%nat, []; auto|].
  destruct (decide (x = 0)) as [->|Hx]; [by exists (S n), post|]. exists 0%nat, (x :: replicate n 0 ++ post). eauto 10.
Qed.

Lemma zeros_split (xs : list Z) :
  exists pre n post, xs = pre ++ replicate n 0 ++ post /\ Forall (fun x => x <> 0) pre /\
    (n = 0%nat /\ post = [] \/ (0 < n)%nat /\ (post = [] \/ exists y r, post = y :: r /\ y <> 0)).
Proof.
  induction xs as [|x xs (pre & n & post & -> & Hp & Hn)]; [exists [], 0%nat, []; auto|].
  destruct (decide (x = 0)) as [->|Hx].
  - destruct (zeros_run (pre ++ replicate n 0 ++ post)) as (m & post' & -> & Hq).
    exists [], (S m), post'. split_and!; [done|constructor|]. right. split; [lia|done].
  - exists (x :: pre), n, post. split_and!; [done|by constructor|done].
Qed.

Section ipv6.
Context (host : Z).

(** One group, and groups that follow another. *)
Definition group (x : Z) : bytes := hex (byteswapOnLittleEndian host 2 x).
Definition groups_after (xs : list Z) : bytes := flat_map (fun q => 58 :: q) (map group xs).

Lemma loop_used p xs : insert6_loop host (Some p) xs true = (groups_after xs, true).
Proof.
  revert p. induction xs as [|x xs IH]; intros p; [done|]. cbn [insert6_loop negb]. rewrite !andb_false_r, IH. done.
Qed.

Lemma loop_nonzero xs rest : forall p, p <> 0 -> Forall (fun x => x <> 0) xs ->
  exists p', p' <> 0 /\ insert6_loop host (Some p) (xs ++ rest) false =
    let '(s, u) := insert6_loop host (Some p') rest false in (groups_after xs ++ s, u).
Proof.
  induction xs as [|x xs IH]; intros p Hp Hxs.
  - exists p. split; [done|]. cbn. by destruct (insert6_loop host (Some p) rest false).
  - apply Forall_cons_1 in Hxs as [Hx Hxs]. destruct (IH x Hx Hxs) as (p' & Hp' & E). exists p'. split; [done|].
    cbn [app insert6_loop]. rewrite (proj2 (Z.eqb_neq x 0)), (proj2 (Z.eqb_neq p 0)) by done. cbn [andb orb].
    rewrite E. destruct (insert6_loop host (Some p') rest false) as [s u]. unfold groups_after.
    cbn [map flat_map app]. unfold group. by rewrite <- app_assoc.
Qed.

Lemma loop_zeros n rest : forall prev, (0 < n)%nat ->
  insert6_loop host prev (replicate n 0 ++ rest) false = insert6_loop host (Some 0) rest false.
Proof.
  induction n as [|n IH]; intros prev Hn; [lia|]. cbn [replicate app insert6_loop Z.eqb andb negb].
  destruct n as [|n]; [done|]. apply IH. lia.
Qed.

(** What follows the first groups. *)
Lemma loop_tail p n post : p <> Some 0 -> (0 < n)%nat -> (post = [] \/ exists y r, post = y :: r /\ y <> 0) ->
  insert6_loop host p (replicate n 0 ++ post) false =
    match post with [] => ([], false) | _ => (58 :: 58 :: join 58 (map group post), true) end.
Proof.
  intros Hp Hn Hpost. rewrite loop_zeros by done. destruct Hpost as [->|(y & r & -> & Hy)]; [done|].
  cbn [insert6_loop]. rewrite (proj2 (Z.eqb_neq y 0)) by done. cbn [Z.eqb andb orb negb]. rewrite loop_used. done.
Qed.

(** The text of all groups: without zeros, or with one gap for the first zeros. *)
Lemma loop_text pre n post :
  Forall (fun x => x <> 0) pre ->
  (n = 0%nat /\ post = [] \/ (0 < n)%nat /\ (post = [] \/ exists y r, post = y :: r /\ y <> 0)) ->
  length (pre ++ replicate n 0 ++ post) = 8%nat ->
  let addr := pre ++ replicate n 0 ++ post in
  let '(s, used) := insert6_loop host None addr false in
  s ++ (if negb used && (nth 7 addr 0 =? 0) then str "::" else []) =
  join 58 (map group pre) ++ (if (n =? 0)%nat then [] else 58 :: 58 :: join 58 (map group post)).
Proof.
  intros Hpre Hn Hl addr.
  assert (Hloop : exists p, p <> Some 0 /\ insert6_loop host None addr false =
    let '(s, u) := insert6_loop host p (replicate n 0 ++ post) false in (join 58 (map group pre) ++ s, u)).
  { unfold addr. destruct pre as [|x pre]; cbn [app].
    - exists None. split; [done|]. by destruct (insert6_loop host None _ false).
    - apply Forall_cons_1 in Hpre as [Hx Hpre].
      destruct (loop_nonzero pre (replicate n 0 ++ post) x Hx Hpre) as (p' & Hp' & E). exists (Some p').
      split; [congruence|]. cbn [insert6_loop]. rewrite (proj2 (Z.eqb_neq x 0)) by done. cbn [andb orb negb].
      rewrite E. destruct (insert6_loop host (Some p') _ false) as [s u]. cbn [map join app].
      unfold groups_after, group. by rewrite <- !app_assoc. }
  destruct Hloop as (p & Hp & ->).
  assert (Hlast : forall l x, addr = l ++ [x] -> nth 7 addr 0 = x).
  { intros l x E. fold addr in Hl. rewrite E in Hl |- *. rewrite length_app in Hl. cbn in Hl.
    rewrite app_nth2 by lia. by replace (7 - length l)%nat with 0%nat by lia. }
  destruct Hn as [[-> ->]|[Hn Hpost]].
  - cbn [replicate app insert6_loop]. rewrite !app_nil_r in *. cbn [negb andb Nat.eqb].
    destruct pre as [|x pre _] using rev_ind; [done|]. rewrite (Hlast pre x) by (unfold addr; by rewrite !app_nil_r).
    apply Forall_app in Hpre as [_ [Hx _]%Forall_cons_1]. by rewrite (proj2 (Z.eqb_neq x 0)), app_nil_r by done.
  - rewrite (loop_tail p n post Hp Hn Hpost). destruct n as [|n]; [lia|]. cbn [Nat.eqb].
    destruct post as [|y post]; cbn [negb andb]; [|by rewrite app_nil_r].
    rewrite (Hlast (pre ++ replicate n 0) 0); [by rewrite app_nil_r|].
    unfold addr. rewrite app_nil_r, <- app_assoc. f_equal. by rewrite replicate_S_end.
Qed.

Definition in16 (x : Z) : Prop := 0 <= x < 65536.

Lemma group_ok x : in16 x ->
  read_num 16 65536 (group x) = Some (byteswapOnLittleEndian host 2 x) /\ 58 ∉ group x /\ group x <> [].
Proof. intros Hx. apply read_num_hex. apply (swap_range host 2). exact Hx. Qed.

Lemma read_groups xs : Forall in16 xs ->
  mapM (read_num 16 65536) (map group xs) = Some (map (byteswapOnLittleEndian host 2) xs).
Proof.
  intros H. apply mapM_Some, Forall2_fmap, Forall_Forall2_diag. eapply Forall_impl; [|exact H].
  intros x Hx. by apply group_ok.
Qed.

Lemma groups_clean xs : Forall in16 xs ->
  Forall (fun q => 58 ∉ q) (map group xs) /\ Forall (fun q => q <> []) (map group xs).
Proof. intros H. split; apply Forall_fmap; (eapply Forall_impl; [|exact H]); intros x Hx; by apply group_ok. Qed.

Lemma cut_no_gap ps : Forall (fun q => q <> []) ps -> cut_at_gap ps = (ps, None).
Proof. induction 1 as [|p ps Hp _ IH]; [done|]. cbn. rewrite IH. by destruct p. Qed.

Lemma cut_gap ps r : Forall (fun q => q <> []) ps -> cut_at_gap (ps ++ [] :: r) = (ps, Some r).
Proof. induction 1 as [|p ps Hp _ IH]; [done|]. cbn. rewrite IH. by destruct p. Qed.

(** The reader on a text without a gap and on a text with one. *)
Lemma read_no_gap pre : Forall in16 pre -> length pre = 8%nat ->
  read_ipv6 (join 58 (map group pre)) = Some (map (byteswapOnLittleEndian host 2) pre).
Proof.
  intros Hp Hl. destruct (groups_clean pre Hp) as [H1 H2]. unfold read_ipv6.
  rewrite split_join, cut_no_gap by (by destruct pre || done).
  rewrite read_groups by done. cbn [mbind option_bind]. by rewrite length_map, Hl.
Qed.

Lemma read_gap pre n post : Forall in16 pre -> Forall in16 post -> (0 < n)%nat ->
  length (pre ++ replicate n 0 ++ post) = 8%nat ->
  read_ipv6 (join 58 (map group pre) ++ 58 :: 58 :: join 58 (map group post)) =
    Some (map (byteswapOnLittleEndian host 2) (pre ++ replicate n 0 ++ post)).
Proof.
  intros Hp Hq Hn Hl. rewrite !length_app, length_replicate in Hl.
  destruct (groups_clean pre Hp) as [H1 H2]. destruct (groups_clean post Hq) as [H3 H4].
  set (rest := split_on 58 (join 58 (map group post))).
  assert (Hrest : match rest with [[]] => [] | _ => rest end = map group post).
  { unfold rest. destruct post as [|y post]; [done|]. rewrite split_join by done.
    apply Forall_cons_1 in H4 as [Hy _]. cbn [map]. by destruct (group y). }
  assert (Hcut : exists r, cut_at_gap (split_on 58 (join 58 (map group pre) ++ 58 :: 58 :: join 58 (map group post))) =
    (map group pre, Some r) /\
    match map group pre with [] => match r with [] :: r => Some r | _ => None end | _ => Some r end = Some rest).
  { destruct pre as [|x pre].
    - exists ([] :: rest). done.
    - rewrite split_join_sep by done. exists rest. split; [by apply cut_gap|done]. }
  destruct Hcut as (r & E & Er). unfold read_ipv6. rewrite E, Er. cbn [mbind option_bind].
  rewrite Hrest, !read_groups by done. cbn [mbind option_bind]. rewrite !length_map.
  rewrite (proj2 (Nat.ltb_lt _ _)) by lia. rewrite !map_app. do 3 f_equal.
  replace (8 - (length pre + length post))%nat with n by lia. clear.
  assert (E0 : byteswapOnLittleEndian host 2 0 = 0) by (unfold byteswapOnLittleEndian; by destruct (host =? BIN_BIG_ENDIAN)).
  induction n as [|n IH]; [done|]. cbn [replicate map]. by rewrite E0, <- IH.
Qed.

Lemma as_uint16_be16 bs : is_order host -> Forall is_byte bs ->
  map (byteswapOnLittleEndian host 2) (as_uint16 host bs) = be16 bs /\ Forall in16 (as_uint16 host bs).
Proof.
  intros Ho. revert bs. fix IH 1. intros [|a [|b bs]] Hb; [by split; [|constructor]..|].
  apply Forall_cons_1 in Hb as [Ha Hb]. apply Forall_cons_1 in Hb as [Hb Hbs].
  destruct (swap16 host a b Ho Ha Hb) as [E R]. destruct (IH bs Hbs) as [E2 R2]. cbn [as_uint16 be16 map].
  rewrite E, E2. split; [done|by constructor].
Qed.

Lemma length_as_uint16 n : forall bs, length bs = (2 * n)%nat -> length (as_uint16 host bs) = n.
Proof.
  induction n as [|n IH]; intros [|a [|b bs]] Hl; cbn in Hl |- *; try done; try lia. f_equal. apply IH. lia.
Qed.

Lemma ipv6_text a : is_order host -> in6_ok a ->
  exists t, IPv6Address_insert host a = str "[" ++ t ++ str "]:" ++ dec (IPv6Address_getPort host a) /\
    read_ipv6 t = Some (be16 (s6_addr a)).
Proof.
  intros Ho (_ & _ & _ & Hl & Hb & _). destruct (as_uint16_be16 (s6_addr a) Ho Hb) as [E R].
  pose proof (length_as_uint16 8 _ Hl) as Hl8.
  destruct (zeros_split (as_uint16 host (s6_addr a))) as (pre & n & post & Ex & Hpre & Hn).
  unfold IPv6Address_insert. rewrite Ex in *. pose proof (loop_text pre n post Hpre Hn Hl8) as Ht. cbv zeta in Ht.
  destruct (insert6_loop host None _ false) as [s u]. eexists. split; [by rewrite (app_assoc s), Ht|].
  rewrite <- E. apply Forall_app in R as [R1 [_ R2]%Forall_app].
  destruct Hn as [[-> ->]|[Hn _]]; [|destruct n as [|n]; [lia|]].
  - cbn [Nat.eqb replicate app]. rewrite !app_nil_r in *. by apply read_no_gap.
  - by apply read_gap.
Qed.
End ipv6.

(** C31: [toString] of an IPv4 or IPv6 address, read by the rules of the textual forms
    (dotted decimal; colon-separated hexadecimal groups with at most one "::"), gives
    the address back, for every address and on a host of either byte order; the port
    follows in decimal.  So the abbreviation of zeros is unambiguous and complete. *)
Theorem IPAddress_text host a a6 :
  is_order host -> in_ok a -> in6_ok a6 ->
  (exists t, Address_toString host (IPv4Address a) = Ok (t ++ str ":" ++ dec (IPv4Address_getPort host a)) /\
     read_ipv4 t = Some (ipv4_value host a)) /\
  (exists t, Address_toString host (IPv6Address a6) = Ok (str "[" ++ t ++ str "]:" ++ dec (IPv6Address_getPort host a6)) /\
     read_ipv6 t = Some (be16 (s6_addr a6))).
Proof.
  intros Ho Ha Ha6. split.
  - destruct (ipv4_text host a) as (t & E & Hr); [apply Ha|]. exists t. cbn [Address_toString]. by rewrite E.
  - destruct (ipv6_text host a6 Ho Ha6) as (t & E & Hr). exists t. cbn [Address_toString]. by rewrite E.
Qed.

Lemma IPAddress_text_witness :
  let a := IPv4Address_new BIN_LITTLE_ENDIAN 0xC0A80117 80 in
  let a6 := IPv6Address_new_bytes BIN_LITTLE_ENDIAN [0x20; 1; 0xd; 0xb8; 0; 0; 0; 0; 0; 0; 0; 0; 0; 0; 0; 1] 8080 in
  Address_toString BIN_LITTLE_ENDIAN (IPv4Address a) = Ok (str "192.168.1.23:80") /\
  Address_toString BIN_LITTLE_ENDIAN (IPv6Address a6) = Ok (str "[2001:db8::1]:8080") /\
  (exists t, read_ipv6 t = Some (be16 (s6_addr a6))).
Proof.
  intros a a6. split_and!; [reflexivity..|].
  destruct (IPAddress_text BIN_LITTLE_ENDIAN a a6) as [_ (t & _ & Hr)].
  - by left.
  - vm_compute. split_and!; try done. repeat constructor; done.
  - vm_compute. split_and!; try done. repeat constructor; done.
  - by exists t.
Defined.

(** ** Host names with a service *)

(** Characters other than NUL and [c]. *)
Definition free_of (c : Z) (s : bytes) : Prop := Forall (fun x => x <> 0) s /\ Forall (fun x => x <> c) s.

Lemma split_plain name svc : name <> [] -> free_of 58 name -> nth 0 name 0 <> 91 -> free_of 58 svc ->
  Lookup_split name = (name, None) /\ Lookup_split (name ++ str ":" ++ svc) = (name, Some svc).
Proof.
  intros Hne [N1 N2] Hb [S1 S2]. change (str ":" ++ svc) with (58 :: svc). unfold Lookup_split.
  rewrite app_nth1 by (destruct name; cbn; [done|lia]). rewrite (proj2 (Z.eqb_neq _ _) Hb).
  rewrite (first_pos_none 58 name), first_pos_app by done. split; [by rewrite cstr_id|].
  replace (drop (S (length name)) (name ++ 58 :: svc)) with svc
    by (change (58 :: svc) with ([58] ++ svc); rewrite app_assoc, drop_app_length'; [done|rewrite length_app; cbn; lia]).
  rewrite (first_pos_none 58 svc), take_app_length by done. destruct name as [|c name]; [done|]. cbn [fmap option_fmap option_map].
  rewrite cstr_id by done. do 2 f_equal.
  change (58 :: svc) with ([58] ++ svc). rewrite app_assoc, drop_app_length' by (rewrite length_app; cbn; lia).
  by apply cstr_id.
Qed.

Lemma split_bracket v6 svc : v6 <> [] -> free_of 93 v6 -> Forall (fun x => x <> 0) svc ->
  Lookup_split (str "[" ++ v6 ++ str "]") = (v6, None) /\
  Lookup_split (str "[" ++ v6 ++ str "]:" ++ svc) = (v6, Some svc).
Proof.
  intros Hne [N1 N2] Hs.
  change (str "[" ++ v6 ++ str "]") with (91 :: v6 ++ [93]). change (str "[" ++ v6 ++ str "]:" ++ svc) with (91 :: v6 ++ 93 :: 58 :: svc).
  unfold Lookup_split. change (nth 0 (91 :: _) 0) with 91. change (91 =? 91) with true. cbv iota.
  change (drop 1 (91 :: ?l)) with l. rewrite !first_pos_app, !take_app_length by done.
  assert (Hn : forall r, nth (length v6 + 2) (91 :: v6 ++ 93 :: r) 0 = nth 0 r 0).
  { intros r. replace (length v6 + 2)%nat with (S (length v6 + 1)) by lia. cbn [nth].
    rewrite app_nth2 by lia. by replace (length v6 + 1 - length v6)%nat with 1%nat by lia. }
  cbv beta iota. rewrite !Hn. cbn [nth]. change (58 =? 58) with true. change (0 =? 58) with false. cbn iota. destruct v6 as [|c v6]; [done|]. rewrite !cstr_id by done.
  split; [done|]. cbn [fmap option_fmap option_map]. do 2 f_equal.
  replace (91 :: (c :: v6) ++ 93 :: 58 :: svc) with ((91 :: (c :: v6) ++ [93; 58]) ++ svc)
    by (cbn [app]; by rewrite <- !app_assoc).
  rewrite drop_app_length' by (cbn [length]; rewrite length_app; cbn; lia). by apply cstr_id.
Qed.

(** [Lookup] asks the resolver for the right host and service.  For the four forms
    of a host name, [name], [name:service], [[v6]] and [[v6]:service], the resolver is
    called with exactly the name or address and the service, if there is one, and all
    its answers are turned into addresses in order; an error of the resolver leaves
    the result alone. *)
Lemma Address_Lookup_forms host resolve result name svc v6 family type protocol :
  name <> [] -> free_of 58 name -> nth 0 name 0 <> 91 -> free_of 58 svc -> v6 <> [] -> free_of 93 v6 ->
  let hints := mkHints 0 family type protocol in
  let asks h node service :=
    Address_Lookup host resolve result h family type protocol =
    match resolve (Some node) service hints with
    | inl _ => Ok (false, result)
    | inr l => let! new := create_all host l in Ok (match result ++ new with [] => false | _ => true end, result ++ new)
    end in
  asks name name None /\ asks (name ++ str ":" ++ svc) name (Some svc) /\
  asks (str "[" ++ v6 ++ str "]") v6 None /\ asks (str "[" ++ v6 ++ str "]:" ++ svc) v6 (Some svc).
Proof.
  intros H1 H2 H3 H4 H5 H6 hints asks. destruct (split_plain name svc H1 H2 H3 H4) as [E1 E2].
  destruct (split_bracket v6 svc H5 H6 (proj1 H4)) as [E3 E4]. subst asks. cbv beta.
  unfold Address_Lookup. rewrite E1, E2, E3, E4. done.
Qed.

(** A resolver that knows one name. *)
Definition demo_resolver (node service : option bytes) (hints : addrinfo) : Z + list (option bytes) :=
  if bool_decide (node = Some (str "localhost")) then inr [Some (mem_in BIN_LITTLE_ENDIAN (IPv4Address_new BIN_LITTLE_ENDIAN 0x7F000001 80))]
  else inl 1.

Lemma Address_Lookup_forms_witness :
  Address_Lookup BIN_LITTLE_ENDIAN demo_resolver [] (str "localhost:80") AF_INET 0 0 =
    Ok (true, [Some (IPv4Address (IPv4Address_new BIN_LITTLE_ENDIAN 0x7F000001 80))]).
Proof.
  assert (F : forall c s, forallb (fun x => negb (x =? 0) && negb (x =? c)) s = true -> free_of c s).
  { intros c s H. rewrite forallb_forall in H. split; apply List.Forall_forall; intros x Hx; apply H in Hx; lia. }
  destruct (Address_Lookup_forms BIN_LITTLE_ENDIAN demo_resolver [] (str "localhost") (str "80") (str "::1") AF_INET 0 0)
    as (_ & E & _); [done|apply F; reflexivity|done|apply F; reflexivity|done|apply F; reflexivity|].
  change (str "localhost:80") with (str "localhost" ++ str ":" ++ str "80"). rewrite E. vm_compute. reflexivity.
Defined.

(** A bare IPv6 address has several colons; the pointer to the first of them is left in
    [service], so the resolver is asked for a service of that name. *)
Lemma bare_ipv6_asks_wrong_service : Lookup_split (str "::1") = (str "::1", Some (str "::1")).
Proof. reflexivity. Qed.

(** ** Unix paths *)

(** What the constructor leaves in [sun_path]. *)
Lemma copied_path d : (length d <= sizeof_sun_path)%nat ->
  splice 0 d (replicate sizeof_sun_path 0) = d ++ replicate (sizeof_sun_path - length d) 0.
Proof. intros Hd. unfold splice. cbn [take app Nat.add]. by rewrite drop_replicate. Qed.

Lemma unix_abstract rest n : n = S (length rest) -> (n <= 108)%nat ->
  let p := (0 :: rest) ++ replicate (108 - n) 0 in
  UnixAddress_getPath (mkUn AF_UNIX p) (Z.of_nat n + 2) = Ok (str "\0" ++ rest).
Proof.
  intros -> Hn p. unfold UnixAddress_getPath, offsetof_sun_path, sizeof_sun_path. cbn [sun_path].
  change (nth 0 p 0) with 0. rewrite (proj2 (Z.ltb_lt _ _)) by lia. cbn [andb Z.eqb].
  rewrite (proj2 (Z.ltb_ge _ _)) by lia. do 2 f_equal.
  replace (Z.to_nat (Z.of_nat (S (length rest)) + 2 - 2 - 1)) with (length rest) by lia.
  unfold slice, p. change (drop 1 ((0 :: rest) ++ ?z)) with (rest ++ z). apply take_app_length.
Qed.

Lemma unix_plain path n len : path <> [] -> Forall (fun c => c <> 0) path -> n = length path -> (n <= 107)%nat ->
  let p := (path ++ [0]) ++ replicate (108 - (n + 1)) 0 in
  UnixAddress_getPath (mkUn AF_UNIX p) len = Ok path.
Proof.
  intros Hne Hz -> Hn p. unfold UnixAddress_getPath. cbn [sun_path].
  assert (nth 0 p 0 =? 0 = false) as ->.
  { destruct path as [|c path]; [done|]. apply Forall_cons_1 in Hz as [Hc _]. by apply Z.eqb_neq. }
  rewrite andb_false_r. unfold print_chars. rewrite bool_decide_eq_true_2 by (unfold p; rewrite !elem_of_app; left; right; by left). f_equal.
  unfold p. rewrite <- app_assoc. generalize (replicate (108 - (length path + 1)) 0) as z. intros z. clear -Hz. change ([0] ++ z) with (0 :: z).
  induction Hz as [|c path Hc _ IH]; [done|]. cbn.
  by rewrite (proj2 (Z.eqb_neq c 0)), IH.
Qed.

(** A path, or an abstract name (a first character NUL), that fits is kept: [getPath]
    and [toString] give the path, or "\0" and the rest of the name; a longer one is
    refused with an exception.  An empty path comes out as the empty abstract name. *)
Lemma UnixAddress_path host path :
  Z.of_nat (length path) < 2 ^ 32 - 1 ->
  let shows s := exists a len, UnixAddress_new_path path = Ok (UnixAddress a len) /\
    UnixAddress_getPath a len = Ok s /\ Address_toString host (UnixAddress a len) = Ok s in
  match path with
  | [] => shows (str "\0")
  | 0 :: rest => if (108 <? length path)%nat then UnixAddress_new_path path = Throw logic_error else shows (str "\0" ++ rest)
  | _ => if (107 <? length path)%nat then UnixAddress_new_path path = Throw logic_error
         else Forall (fun c => c <> 0) path -> shows path
  end.
Proof.
  intros Hlen shows. unfold shows. change (Address_toString host (UnixAddress ?a ?len)) with (UnixAddress_getPath a len).
  destruct path as [|c rest]; [eexists _, _; split; [reflexivity|]; by split|].
  assert (Hplain : c <> 0 -> if (107 <? length (c :: rest))%nat then UnixAddress_new_path (c :: rest) = Throw logic_error
    else Forall (fun c => c <> 0) (c :: rest) -> exists a len, UnixAddress_new_path (c :: rest) = Ok (UnixAddress a len) /\
      UnixAddress_getPath a len = Ok (c :: rest) /\ UnixAddress_getPath a len = Ok (c :: rest)).
  { intros Hc. unfold UnixAddress_new_path.
    replace (match c :: rest with 0 :: _ => _ | _ => u32 (Z.of_nat (length (c :: rest)) + 1) end)
      with (Z.of_nat (length (c :: rest)) + 1) by (destruct c; [done|rewrite uwrap_small by lia; done..]).
    change (Z.of_nat sizeof_sun_path) with 108. destruct (Nat.ltb_spec 107 (length (c :: rest))) as [H|H].
    { by rewrite (proj2 (Z.ltb_lt _ _)) by lia. }
    intros Hz. rewrite (proj2 (Z.ltb_ge _ _)) by lia. eexists _, _. split; [reflexivity|].
    rewrite take_ge by (rewrite length_app; cbn [length]; lia).
    rewrite copied_path by (rewrite length_app; unfold sizeof_sun_path; cbn [length] in *; lia). rewrite length_app.
    split; apply unix_plain; done || lia. }
  destruct c as [|c|c]; [|by apply Hplain..]. unfold UnixAddress_new_path.
  rewrite (uwrap_small 32 (Z.of_nat (length (0 :: rest)) + 1)), Z.add_simpl_r, uwrap_small by lia.
  change (Z.of_nat sizeof_sun_path) with 108. destruct (Nat.ltb_spec 108 (length (0 :: rest))) as [H|H].
  { by rewrite (proj2 (Z.ltb_lt _ _)) by lia. }
  rewrite (proj2 (Z.ltb_ge _ _)) by lia. eexists _, _. split; [reflexivity|].
  rewrite Nat2Z.id, take_app_length. rewrite copied_path by (unfold sizeof_sun_path; lia).
  unfold offsetof_sun_path. rewrite uwrap_small by (cbn [length] in *; lia).
  split; by apply unix_abstract.
Qed.

Lemma UnixAddress_path_witness :
  exists a len, UnixAddress_new_path (str "/tmp/s.sock") = Ok (UnixAddress a len) /\
    UnixAddress_getPath a len = Ok (str "/tmp/s.sock").
Proof.
  destruct (UnixAddress_path BIN_LITTLE_ENDIAN (str "/tmp/s.sock") ltac:(vm_compute; reflexivity)) as (a & len & H1 & H2 & _);
    [repeat (constructor; [done|]); constructor|]. eauto.
Defined.
