(* ===== verification/LogFormatter.v ===== *)
(** * Log levels, log events and the pattern language of [log.cc]

    [LogLevel], [LogEvent], the format items and [LogFormatter]: the parser of
    patterns such as "%d{%Y-%m-%d}%T[%p]%T%m%n" ([LogFormatter::init]) by positions
    in the pattern, as the source walks it, and the text a parsed pattern gives an
    event.  The theorems state what the parser does with a pattern written as a
    list of literals and items, and that its two loops end on every pattern. *)

From S2P Require Import Prelude Text.
From Stdlib Require Import ZArith Lia List String.
From stdpp Require Import base tactics list numbers option.

Open Scope Z_scope.
Open Scope list_scope.

(** ** Levels *)

(** [enum LogLevel::Level]; a value is an integer, since the code compares levels
    with [<=] and [>=]. *)

(** @src log.h:129-136 LogLevel::Level *)
Definition LogLevel_UNKNOW : Z := 0.
(** @src log.h:129-136 LogLevel::Level *)
Definition LogLevel_DEBUG : Z := 1.
(** @src log.h:129-136 LogLevel::Level *)
Definition LogLevel_INFO : Z := 2.
(** @src log.h:129-136 LogLevel::Level *)
Definition LogLevel_WARN : Z := 3.
(** @src log.h:129-136 LogLevel::Level *)
Definition LogLevel_ERROR : Z := 4.
(** @src log.h:129-136 LogLevel::Level *)
Definition LogLevel_FATAL : Z := 5.

(** @src log.cc:20-36 LogLevel::ToString *)
Definition LogLevel_ToString (level : Z) : bytes :=
  if level =? LogLevel_DEBUG then str "DEBUG"
  else if level =? LogLevel_INFO then str "INFO"
  else if level =? LogLevel_WARN then str "WARN"
  else if level =? LogLevel_ERROR then str "ERROR"
  else if level =? LogLevel_FATAL then str "FATAL"
  else str "UNKNOW".

(** @src log.cc:38-56 LogLevel::FromString *)
Definition LogLevel_FromString (s : bytes) : Z :=
  if bool_decide (s = str "debug") then LogLevel_DEBUG
  else if bool_decide (s = str "info") then LogLevel_INFO
  else if bool_decide (s = str "warn") then LogLevel_WARN
  else if bool_decide (s = str "error") then LogLevel_ERROR
  else if bool_decide (s = str "fatal") then LogLevel_FATAL
  else if bool_decide (s = str "DEBUG") then LogLevel_DEBUG
  else if bool_decide (s = str "INFO") then LogLevel_INFO
  else if bool_decide (s = str "WARN") then LogLevel_WARN
  else if bool_decide (s = str "ERROR") then LogLevel_ERROR
  else if bool_decide (s = str "FATAL") then LogLevel_FATAL
  else LogLevel_UNKNOW.

(** The levels are exactly the values whose text reads back. *)
Lemma LogLevel_text_roundtrip l : 0 <= l <= 5 <-> LogLevel_FromString (LogLevel_ToString l) = l.
Proof.
  split.
  - intros. assert (l = 0 \/ l = 1 \/ l = 2 \/ l = 3 \/ l = 4 \/ l = 5) as Hl by lia.
    by destruct Hl as [->|[->|[->|[->|[->| ->]]]]].
  - unfold LogLevel_FromString. repeat case_bool_decide; unfold LogLevel_DEBUG, LogLevel_INFO,
      LogLevel_WARN, LogLevel_ERROR, LogLevel_FATAL, LogLevel_UNKNOW; lia.
Qed.

(** ** Events *)

(** [m_logger] is the number of a logger; the names are in the heap of loggers. *)
(** @src log.h:238-257 LogEvent *)
Record LogEvent := {
  m_file : bytes;
  m_line : Z;
  m_elapse : Z;
  m_threadId : Z;
  ev_fiberId : Z;
  m_time : Z;
  m_threadName : bytes;
  m_ss : bytes;
  m_logger : nat;
  ev_level : Z
}.

(** @src log.cc:58-64 LogEvent::LogEvent *)
Definition LogEvent_new (logger : nat) (level : Z) (file : bytes) (line elapse thread_id fiber_id time : Z)
    (thread_name : bytes) : LogEvent :=
  {| m_file := file; m_line := line; m_elapse := elapse; m_threadId := thread_id;
     ev_fiberId := fiber_id; m_time := time; m_threadName := thread_name; m_ss := [];
     m_logger := logger; ev_level := level |}.

(** [getSS() << s]. *)
(** @src log.h:225-225 LogEvent::getSS *)
Definition LogEvent_append (e : LogEvent) (s : bytes) : LogEvent :=
  {| m_file := m_file e; m_line := m_line e; m_elapse := m_elapse e; m_threadId := m_threadId e;
     ev_fiberId := ev_fiberId e; m_time := m_time e; m_threadName := m_threadName e;
     m_ss := m_ss e ++ s; m_logger := m_logger e; ev_level := ev_level e |}.

(** [buf] is what [vasprintf] gives: [None] for its result -1. *)
(** @src log.cc:74-82 LogEvent::format *)
Definition LogEvent_format (e : LogEvent) (buf : option bytes) : LogEvent :=
  match buf with Some b => LogEvent_append e b | None => e end.

(** ** Format items *)

(** @src log.cc:107-247 FormatItem classes *)
Inductive FormatItem :=
| MessageFormatItem
| LevelFormatItem
| ElapseFormatItem
| NameFormatItem
| ThreadIdFormatItem
| ThreadNameFormatItem
| FiberIdFormatItem
| DateTimeFormatItem (m_format : bytes)
| FileNameFormatItem
| LineFormatItem
| NewLineFormatItem
| StringFormatItem (m_string : bytes)
| TabFormatItem.

#[export] Instance FormatItem_eq_dec : EqDecision FormatItem.
Proof. solve_decision. Defined.

(** @src log.cc:172-177 DateTimeFormatItem::DateTimeFormatItem *)
Definition DateTimeFormatItem_new (format : bytes) : FormatItem :=
  DateTimeFormatItem (match format with [] => str "%Y-%m-%d %H:%M:%S" | _ => format end).

(** [os << n] for a signed integer. *)
Definition sdec (n : Z) : bytes := if n <? 0 then chr "-" :: dec (- n) else dec n.

Section format.

(** [time_text t f]: what [localtime_r] of [t] and [strftime] with format [f] leave
    in the 64-byte buffer; [names] gives the name of each logger. *)
Context (time_text : Z -> bytes -> bytes) (names : nat -> bytes).

(** @src log.cc:107-247 FormatItem::format *)
Definition FormatItem_format (i : FormatItem) (level : Z) (event : LogEvent) : bytes :=
  match i with
  | MessageFormatItem => m_ss event
  | LevelFormatItem => LogLevel_ToString level
  | ElapseFormatItem => sdec (m_elapse event)
  | NameFormatItem => names (m_logger event)
  | ThreadIdFormatItem => sdec (m_threadId event)
  | ThreadNameFormatItem => m_threadName event
  | FiberIdFormatItem => sdec (ev_fiberId event)
  | DateTimeFormatItem m_format => cstr (time_text (i64 (m_time event)) (cstr m_format))
  | FileNameFormatItem => cstr (m_file event)
  | LineFormatItem => sdec (m_line event)
  | NewLineFormatItem => [10]
  | StringFormatItem m_string => m_string
  | TabFormatItem => [9]
  end.

(** @src log.cc:438-455 LogFormatter::format *)
Definition format_items (items : list FormatItem) (level : Z) (event : LogEvent) : bytes :=
  concat (map (fun i => FormatItem_format i level event) items).

End format.

(** ** The parser of patterns *)

(** [isalpha] in the C locale. *)
Definition isalpha (c : Z) : bool := ((65 <=? c) && (c <=? 90)) || ((97 <=? c) && (c <=? 122)).

(** The variables of the inner loop; [fmt_status] is 0 ([false]) or 1 ([true]). *)
(** @src log.cc:490-495 LogFormatter::init *)
Record scan := {
  sc_n : nat;
  fmt_status : bool;
  fmt_begin : nat;
  sc_str : bytes;
  sc_fmt : bytes
}.

Section init.
Context (pattern : bytes).

(** One iteration of the loop that reads the item at the '%' in position [i]. *)
(** @src log.cc:502-536 LogFormatter::init *)
Definition init_scan_step (i : nat) (s : scan) : scan + scan :=
  let n := sc_n s in
  if (n <? length pattern)%nat then
    let c := nth n pattern 0 in
    if negb (fmt_status s) && (negb (isalpha c) && negb (c =? chr "{") && negb (c =? chr "}")) then
      inr {| sc_n := n; fmt_status := fmt_status s; fmt_begin := fmt_begin s;
             sc_str := slice (i + 1) (n - i - 1) pattern; sc_fmt := sc_fmt s |}
    else if negb (fmt_status s) && (c =? chr "{") then
      inl {| sc_n := S n; fmt_status := true; fmt_begin := n;
             sc_str := slice (i + 1) (n - i - 1) pattern; sc_fmt := sc_fmt s |}
    else if fmt_status s && (c =? chr "}") then
      inr {| sc_n := S n; fmt_status := false; fmt_begin := fmt_begin s; sc_str := sc_str s;
             sc_fmt := slice (fmt_begin s + 1) (n - fmt_begin s - 1) pattern |}
    else
      let str' := if (S n =? length pattern)%nat
                  then match sc_str s with [] => drop (i + 1) pattern | x => x end
                  else sc_str s in
      inl {| sc_n := S n; fmt_status := fmt_status s; fmt_begin := fmt_begin s;
             sc_str := str'; sc_fmt := sc_fmt s |}
  else inr s.

(** @src log.cc:490-495 LogFormatter::init *)
Definition init_scan_start (i : nat) : scan :=
  {| sc_n := i + 1; fmt_status := false; fmt_begin := 0; sc_str := []; sc_fmt := [] |}.

(** @src log.cc:490-536 LogFormatter::init *)
Definition init_scan (i : nat) : scan :=
  while_n (init_scan_step i) (length pattern) (init_scan_start i).

(** The variables of the outer loop: the entries of [vec] are text, format and type,
    where type 0 is a literal and type 1 an item. *)
(** @src log.cc:462-466 LogFormatter::init *)
Record parse := {
  pa_i : nat;
  vec : list (bytes * bytes * bool);
  nstr : bytes;
  pa_error : bool
}.

(** [if (!nstr.empty()) vec.push_back(nstr, "", 0)]. *)
(** @src log.cc:539-544 LogFormatter::init *)
Definition flush_nstr (v : list (bytes * bytes * bool)) (s : bytes) : list (bytes * bytes * bool) :=
  match s with [] => v | _ => v ++ [(s, [], false)] end.

(** @src log.cc:467-561 LogFormatter::init *)
Definition init_step (p : parse) : parse + parse :=
  let i := pa_i p in
  if (i <? length pattern)%nat then
    if negb (nth i pattern 0 =? chr "%") then
      inl {| pa_i := S i; vec := vec p; nstr := nstr p ++ [nth i pattern 0]; pa_error := pa_error p |}
    else if (i + 1 <? length pattern)%nat && (nth (i + 1) pattern 0 =? chr "%") then
      inl {| pa_i := S i; vec := vec p; nstr := nstr p ++ [chr "%"]; pa_error := pa_error p |}
    else
      let s := init_scan i in
      if fmt_status s then
        inl {| pa_i := S i; vec := vec p ++ [(str "<<pattern_error>>", sc_fmt s, false)];
               nstr := nstr p; pa_error := true |}
      else
        inl {| pa_i := sc_n s; vec := flush_nstr (vec p) (nstr p) ++ [(sc_str s, sc_fmt s, true)];
               nstr := []; pa_error := pa_error p |}
  else inr p.

(** @src log.cc:462-466 LogFormatter::init *)
Definition init_start : parse := {| pa_i := 0; vec := []; nstr := []; pa_error := false |}.

(** @src log.cc:459-565 LogFormatter::init *)
Definition init_parse : parse :=
  let p := while_n init_step (S (length pattern)) init_start in
  {| pa_i := pa_i p; vec := flush_nstr (vec p) (nstr p); nstr := nstr p; pa_error := pa_error p |}.

End init.

(** @src log.cc:566-588 s_format_items *)
Definition s_format_items (name fmt : bytes) : option FormatItem :=
  if bool_decide (name = str "m") then Some MessageFormatItem
  else if bool_decide (name = str "p") then Some LevelFormatItem
  else if bool_decide (name = str "r") then Some ElapseFormatItem
  else if bool_decide (name = str "c") then Some NameFormatItem
  else if bool_decide (name = str "t") then Some ThreadIdFormatItem
  else if bool_decide (name = str "n") then Some NewLineFormatItem
  else if bool_decide (name = str "d") then Some (DateTimeFormatItem_new fmt)
  else if bool_decide (name = str "f") then Some FileNameFormatItem
  else if bool_decide (name = str "l") then Some LineFormatItem
  else if bool_decide (name = str "T") then Some TabFormatItem
  else if bool_decide (name = str "F") then Some FiberIdFormatItem
  else if bool_decide (name = str "N") then Some ThreadNameFormatItem
  else None.

(** The item of an entry of [vec], and whether it sets [m_error]. *)
(** @src log.cc:590-601 LogFormatter::init *)
Definition build_item (e : bytes * bytes * bool) : FormatItem * bool :=
  let '(s, fmt, ty) := e in
  if negb ty then (StringFormatItem s, false)
  else match s_format_items s fmt with
       | None => (StringFormatItem (str "<<error_format %" ++ s ++ str ">>"), true)
       | Some it => (it, false)
       end.

(** @src log.h:379-383 LogFormatter *)
Record LogFormatter := {
  mLF_pattern : bytes;
  mLF_FI_items : list FormatItem;
  m_error : bool
}.

#[export] Instance LogFormatter_eq_dec : EqDecision LogFormatter.
Proof. solve_decision. Defined.

(** @src log.cc:459-606 LogFormatter::init *)
Definition LogFormatter_new (pattern : bytes) : LogFormatter :=
  let p := init_parse pattern in
  let built := map build_item (vec p) in
  {| mLF_pattern := pattern; mLF_FI_items := map fst built;
     m_error := pa_error p || existsb snd built |}.

(** @src log.cc:438-445 LogFormatter::format *)
Definition LogFormatter_format time_text names (f : LogFormatter) (level : Z) (event : LogEvent) : bytes :=
  format_items time_text names (mLF_FI_items f) level event.

(** ** Both loops of the parser end *)

Lemma init_scan_step_measure pattern i s s1 :
  init_scan_step pattern i s = inl s1 ->
  sc_n s1 = S (sc_n s) /\ (length pattern - sc_n s1 < length pattern - sc_n s)%nat.
Proof.
  unfold init_scan_step. destruct (sc_n s <? length pattern)%nat eqn:E; [|done].
  apply Nat.ltb_lt in E. intros. repeat (case_match; simplify_eq/=); lia.
Qed.

Lemma init_scan_run pattern i : (i < length pattern)%nat ->
  while_run (init_scan_step pattern i) (init_scan_start i) (init_scan pattern i).
Proof.
  intros Hi. apply (while_n_run _ (fun s => length pattern - sc_n s)%nat (fun _ => True)); [|done|cbn; lia].
  intros s s1 _ Hs. by apply init_scan_step_measure in Hs as [_ ?].
Qed.

Lemma init_scan_ahead pattern i s s' :
  while_run (init_scan_step pattern i) s s' -> (sc_n s <= sc_n s')%nat.
Proof.
  induction 1 as [s s' E|s s1 s' E _ IH].
  - unfold init_scan_step in E. repeat (case_match; simplify_eq/=); lia.
  - apply init_scan_step_measure in E as [? _]. lia.
Qed.

Lemma init_step_measure pattern p p1 :
  init_step pattern p = inl p1 ->
  (pa_i p < length pattern)%nat /\ (pa_i p < pa_i p1)%nat.
Proof.
  unfold init_step. destruct (pa_i p <? length pattern)%nat eqn:E; [|done]. apply Nat.ltb_lt in E.
  pose proof (init_scan_ahead _ _ _ _ (init_scan_run pattern (pa_i p) E)) as Ha. cbn in Ha.
  intros. repeat (case_match; simplify_eq/=); lia.
Qed.

(** The two nested loops of [LogFormatter::init] end on every pattern, malformed
    ones included (a lone '%', an unclosed '{', "%%"): the loops of the source, run
    with no bound on their iterations, reach exactly the states the definitions
    compute, and the outer loop stops at the end of the pattern or beyond. *)
Lemma LogFormatter_init_terminates pattern :
  while_run (init_step pattern) init_start (while_n (init_step pattern) (S (length pattern)) init_start) /\
  forall i, (i < length pattern)%nat ->
    while_run (init_scan_step pattern i) (init_scan_start i) (init_scan pattern i).
Proof.
  split; [|apply init_scan_run].
  apply (while_n_run _ (fun p => length pattern - pa_i p)%nat (fun _ => True)); [|done|cbn; lia].
  intros p p1 _ Hp. apply init_step_measure in Hp. split; [done|lia].
Qed.

(** ** Patterns as lists of literals and items *)

Inductive segment :=
| Lit (s : bytes)
| Item (name : bytes) (fmt : option bytes).

Definition render_segment (g : segment) : bytes :=
  match g with
  | Lit s => s
  | Item name None => chr "%" :: name
  | Item name (Some f) => chr "%" :: name ++ chr "{" :: f ++ [chr "}"]
  end.

Definition render_segments (gs : list segment) : bytes := concat (map render_segment gs).

(** The characters that end the name of an item with no format. *)
Definition ends_name (s : bytes) : bool :=
  match s with
  | [] => true
  | c :: _ => negb (isalpha c) && negb (c =? chr "{") && negb (c =? chr "}")
  end.

Definition segment_wf (g : segment) : bool :=
  match g with
  | Lit s => forallb (fun c => negb (c =? chr "%")) s
  | Item name fmt =>
      match name with [] => false | _ => forallb isalpha name end &&
      match fmt with Some f => forallb (fun c => negb (c =? chr "}")) f | None => true end
  end.

Fixpoint segments_wf (gs : list segment) : bool :=
  match gs with
  | [] => true
  | g :: gs =>
      segment_wf g &&
      match g with Item _ None => ends_name (render_segments gs) | _ => true end &&
      segments_wf gs
  end.

(** What a segment prints. *)
Definition segment_text time_text names (level : Z) (event : LogEvent) (g : segment) : bytes :=
  match g with
  | Lit s => s
  | Item name fmt =>
      match s_format_items name (default [] fmt) with
      | Some it => FormatItem_format time_text names it level event
      | None => str "<<error_format %" ++ name ++ str ">>"
      end
  end.

Definition segment_unknown (g : segment) : bool :=
  match g with
  | Lit _ => false
  | Item name fmt => negb (non_null (s_format_items name (default [] fmt)))
  end.

(** ** Reading one item *)

(** Lengths of concatenations written out. *)
Ltac app_lens := repeat (rewrite length_app || cbn [length app]); lia.

(** Concatenations written out, to the right. *)
Ltac app_norm := repeat (first [rewrite <- app_assoc | progress (cbn [app])]).

Lemma nth_middle' {A} (a b : list A) x d : nth (length a) (a ++ x :: b) d = x.
Proof. apply nth_middle. Qed.

Lemma slice_middle {A} (a w b : list A) p n :
  p = length a -> n = length w -> slice p n (a ++ w ++ b) = w.
Proof. intros -> ->. unfold slice. by rewrite drop_app_length, take_app_length. Qed.

(** What the scan of an item leaves: its name, its format and the position behind it. *)
Definition scanned (s : scan) (n : nat) (name fmt : bytes) : Prop :=
  sc_n s = n /\ fmt_status s = false /\ sc_str s = name /\ sc_fmt s = fmt.

(** A step of the scan at a position whose character is known. *)
Lemma scan_step_at pattern i a c b st fb s f :
  pattern = a ++ c :: b ->
  init_scan_step pattern i (Build_scan (length a) st fb s f) =
  if negb st && (negb (isalpha c) && negb (c =? chr "{") && negb (c =? chr "}")) then
    inr (Build_scan (length a) st fb (slice (i + 1) (length a - i - 1) pattern) f)
  else if negb st && (c =? chr "{") then
    inl (Build_scan (S (length a)) true (length a) (slice (i + 1) (length a - i - 1) pattern) f)
  else if st && (c =? chr "}") then
    inr (Build_scan (S (length a)) false fb s (slice (fb + 1) (length a - fb - 1) pattern))
  else
    inl (Build_scan (S (length a)) st fb
           (match b, s with [], [] => drop (i + 1) pattern | _, _ => s end) f).
Proof.
  intros Hp. unfold init_scan_step. cbn [sc_n fmt_status fmt_begin sc_str sc_fmt].
  assert (length a <? length pattern = true)%nat as -> by (apply Nat.ltb_lt; rewrite Hp; app_lens).
  assert (nth (length a) pattern 0 = c) as -> by (rewrite Hp; apply nth_middle').
  assert ((S (length a) =? length pattern)%nat = match b with [] => true | _ => false end) as ->.
  { destruct b; [apply Nat.eqb_eq|apply Nat.eqb_neq]; rewrite Hp; app_lens. }
  by destruct b, s.
Qed.

Section scan.
Context (pattern : bytes) (i : nat).

Abbreviation run := (while_n (init_scan_step pattern i)).

(** Letters that are not the last of the pattern only move [n]. *)
Lemma scan_letters w b k fb s f : forall a,
  pattern = a ++ w ++ b -> b <> [] -> forallb isalpha w = true ->
  run (length w + k) (Build_scan (length a) false fb s f) =
  run k (Build_scan (length (a ++ w)) false fb s f).
Proof.
  induction w as [|c w IH]; intros a Hp Hb Hw; [by rewrite app_nil_r|]. cbn [forallb] in Hw.
  apply andb_true_iff in Hw as [Hc Hw]. cbn [length Nat.add while_n].
  rewrite (scan_step_at _ _ a c (w ++ b)) by done.
  assert (c =? chr "{" = false) as -> by (apply Z.eqb_neq; intros ->; done).
  rewrite Hc. cbn [negb andb].
  replace (match w ++ b with [] => _ | _ => s end) with s by (destruct w, b; done).
  replace (S (length a)) with (length (a ++ [c])) by app_lens.
  rewrite (IH (a ++ [c])) by (rewrite <- ?app_assoc; done). by rewrite <- app_assoc.
Qed.

(** The characters of a format up to its '}'. *)
Lemma scan_format fm b k fb s f : forall a,
  pattern = a ++ fm ++ chr "}" :: b -> forallb (fun c => negb (c =? chr "}")) fm = true ->
  run (length fm + S k) (Build_scan (length a) true fb s f) =
  Build_scan (S (length (a ++ fm))) false fb s (slice (fb + 1) (length (a ++ fm) - fb - 1) pattern).
Proof.
  induction fm as [|c fm IH]; intros a Hp Hf; cbn [length Nat.add while_n].
  - rewrite (scan_step_at _ _ a (chr "}") b) by done. by rewrite app_nil_r.
  - cbn [forallb] in Hf. apply andb_true_iff in Hf as [Hc Hf]. apply negb_true_iff in Hc.
    rewrite (scan_step_at _ _ a c (fm ++ chr "}" :: b)) by done. rewrite Hc. cbn [negb andb].
    replace (match fm ++ chr "}" :: b with [] => _ | _ => s end) with s by (destruct fm; done).
    replace (S (length a)) with (length (a ++ [c])) by app_lens.
    rewrite (IH (a ++ [c])) by (rewrite <- ?app_assoc; done). by rewrite <- app_assoc.
Qed.
End scan.

Lemma scan_start i (a : bytes) : i = length a ->
  init_scan_start i = Build_scan (length (a ++ [chr "%"])) false 0 [] [].
Proof. intros ->. unfold init_scan_start. by rewrite length_app. Qed.

(** An item with a format. *)
Lemma init_scan_format pattern a name f b :
  pattern = (a ++ [chr "%"]) ++ name ++ chr "{" :: f ++ chr "}" :: b ->
  forallb isalpha name = true -> forallb (fun c => negb (c =? chr "}")) f = true ->
  scanned (init_scan pattern (length a)) (length a + length name + length f + 3) name f.
Proof.
  intros Hp Hw Hf. unfold init_scan. rewrite (scan_start _ a) by done.
  assert (length pattern = length name + S (length f + S (length a + 1 + length b)))%nat as ->
    by (rewrite Hp; app_lens).
  rewrite (scan_letters pattern _ name (chr "{" :: f ++ chr "}" :: b)) by done. cbn [while_n].
  rewrite (scan_step_at _ _ ((a ++ [chr "%"]) ++ name) (chr "{") (f ++ chr "}" :: b))
    by (rewrite <- app_assoc; done).
  change (isalpha (chr "{")) with false. change (chr "{" =? chr "{") with true. cbn [negb andb].
  replace (S (length ((a ++ [chr "%"]) ++ name))) with (length ((a ++ [chr "%"]) ++ name ++ [chr "{"]))
    by app_lens.
  rewrite (scan_format pattern _ f b) by (rewrite ?Hp, <- ?app_assoc; done).
  unfold scanned. cbn [sc_n fmt_status sc_str sc_fmt]. split_and!; [app_lens|done| |].
  - rewrite Hp. apply slice_middle; app_lens.
  - replace pattern with (((a ++ [chr "%"]) ++ name ++ [chr "{"]) ++ f ++ chr "}" :: b)
      by (rewrite Hp, <- !app_assoc; done).
    apply slice_middle; app_lens.
Qed.

(** An item with no format, before another character or at the end. *)
Lemma init_scan_plain pattern a name b :
  pattern = (a ++ [chr "%"]) ++ name ++ b ->
  name <> [] -> forallb isalpha name = true -> ends_name b = true ->
  scanned (init_scan pattern (length a)) (length a + length name + 1) name [].
Proof.
  intros Hp Hne Hw Hend. unfold init_scan. rewrite (scan_start _ a) by done. destruct b as [|c b].
  - rewrite app_nil_r in Hp. destruct (exists_last Hne) as (w & c & ->).
    rewrite forallb_app in Hw. apply andb_true_iff in Hw as [Hw Hc]. cbn in Hc. rewrite andb_true_r in Hc.
    assert (length pattern = length w + S (length a + 1))%nat as Hl by (rewrite Hp; app_lens).
    rewrite Hl, (scan_letters pattern _ w [c]) by done. cbn [while_n].
    rewrite (scan_step_at _ _ ((a ++ [chr "%"]) ++ w) c []) by (rewrite <- app_assoc; done).
    assert (c =? chr "{" = false) as -> by (apply Z.eqb_neq; intros ->; done).
    rewrite Hc. cbn [negb andb]. rewrite Nat.add_1_r. cbn [while_n]. unfold init_scan_step. cbn [sc_n].
    rewrite (proj2 (Nat.ltb_ge _ _)) by (rewrite Hl; app_lens).
    unfold scanned. cbn [sc_n fmt_status sc_str sc_fmt]. split_and!; [app_lens|done| |done].
    rewrite Hp. apply drop_app_length'. app_lens.
  - assert (length pattern = length name + S (length a + 1 + length b))%nat as ->
      by (rewrite Hp; app_lens).
    rewrite (scan_letters pattern _ name (c :: b)) by done. cbn [while_n].
    rewrite (scan_step_at _ _ ((a ++ [chr "%"]) ++ name) c b) by (rewrite <- app_assoc; done).
    cbn [ends_name] in Hend. cbn [negb andb]. rewrite Hend.
    unfold scanned. cbn [sc_n fmt_status sc_str sc_fmt]. split_and!; [app_lens|done| |done].
    rewrite Hp. apply slice_middle; app_lens.
Qed.

(** ** Reading a whole pattern *)

(** The entries of [vec] for a list of segments, behind pending literal text. *)
Fixpoint entries (pending : bytes) (gs : list segment) : list (bytes * bytes * bool) :=
  match gs with
  | [] => flush_nstr [] pending
  | Lit s :: gs => entries (pending ++ s) gs
  | Item name fmt :: gs => flush_nstr [] pending ++ [(name, default [] fmt, true)] ++ entries [] gs
  end.

Lemma flush_nstr_app v s : flush_nstr v s = v ++ flush_nstr [] s.
Proof. destruct s; cbn; [by rewrite app_nil_r|done]. Qed.

Lemma init_literal pattern s b v e : forall a ns k,
  pattern = a ++ s ++ b -> forallb (fun c => negb (c =? chr "%")) s = true ->
  while_n (init_step pattern) (length s + k) (Build_parse (length a) v ns e) =
  while_n (init_step pattern) k (Build_parse (length (a ++ s)) v (ns ++ s) e).
Proof.
  induction s as [|c s IH]; intros a ns k Hp Hs; [by rewrite !app_nil_r|]. cbn [forallb] in Hs.
  apply andb_true_iff in Hs as [Hc Hs]. cbn [length Nat.add while_n]. unfold init_step at 1.
  cbn [pa_i vec nstr pa_error].
  rewrite (proj2 (Nat.ltb_lt _ _)) by (rewrite Hp; app_lens).
  assert (nth (length a) pattern 0 = c) as -> by (rewrite Hp; apply nth_middle').
  rewrite Hc. replace (S (length a)) with (length (a ++ [c])) by app_lens.
  rewrite (IH (a ++ [c])) by (rewrite <- ?app_assoc; done). by rewrite <- !app_assoc.
Qed.

Lemma init_item pattern a name fmt b v ns e :
  pattern = a ++ render_segment (Item name fmt) ++ b ->
  segment_wf (Item name fmt) = true ->
  match fmt with None => ends_name b | _ => true end = true ->
  init_step pattern (Build_parse (length a) v ns e) =
  inl (Build_parse (length (a ++ render_segment (Item name fmt)))
         (flush_nstr v ns ++ [(name, default [] fmt, true)]) [] e).
Proof.
  intros Hp Hwf Hend. cbn [segment_wf] in Hwf. apply andb_true_iff in Hwf as [Hn Hf].
  assert (forallb isalpha name = true /\ name <> []) as [Hw Hne] by (destruct name; done).
  assert (scanned (init_scan pattern (length a)) (length (a ++ render_segment (Item name fmt)))
            name (default [] fmt)) as (Hsn & Hst & Hstr & Hfmt).
  { destruct fmt as [f|]; cbn [render_segment default from_option].
    - replace (length (a ++ chr "%" :: _)) with (length a + length name + length f + 3)%nat by app_lens.
      apply init_scan_format with b; [|exact Hw|exact Hf]. rewrite Hp. cbn [render_segment].
      app_norm. done.
    - replace (length (a ++ chr "%" :: _)) with (length a + length name + 1)%nat by app_lens.
      apply init_scan_plain with b; [|exact Hne|exact Hw|exact Hend]. rewrite Hp. cbn [render_segment].
      app_norm. done. }
  unfold init_step. cbn [pa_i vec nstr pa_error].
  destruct name as [|c name]; [done|].
  assert (exists r, pattern = a ++ chr "%" :: c :: r) as [r Hr].
  { destruct fmt; rewrite Hp; cbn [render_segment app]; eauto. }
  rewrite (proj2 (Nat.ltb_lt _ _)) by (rewrite Hr; app_lens).
  assert (nth (length a) pattern 0 = chr "%") as -> by (rewrite Hr; apply nth_middle').
  assert (nth (length a + 1) pattern 0 = c) as ->.
  { replace (length a + 1)%nat with (length (a ++ [chr "%"])) by app_lens.
    rewrite Hr. change (a ++ chr "%" :: c :: r) with (a ++ [chr "%"] ++ c :: r).
    rewrite app_assoc. apply nth_middle'. }
  assert (c =? chr "%" = false) as ->.
  { apply Z.eqb_neq. intros ->. by apply andb_true_iff in Hw as [? _]. }
  rewrite andb_false_r, Hst, Hsn, Hstr, Hfmt. done.
Qed.

Lemma init_segments pattern e : forall gs a v ns k,
  pattern = a ++ render_segments gs -> segments_wf gs = true -> (length (render_segments gs) < k)%nat ->
  let p := while_n (init_step pattern) k (Build_parse (length a) v ns e) in
  flush_nstr (vec p) (nstr p) = v ++ entries ns gs /\ pa_error p = e.
Proof.
  unfold render_segments.
  induction gs as [|g gs IH]; intros a v ns k Hp Hwf Hk; cbn [map concat segments_wf] in *.
  - destruct k as [|k]; [lia|]. cbn [while_n]. unfold init_step. cbn [pa_i].
    rewrite (proj2 (Nat.ltb_ge _ _)) by (rewrite Hp; app_lens). cbn [vec nstr pa_error entries].
    by rewrite flush_nstr_app.
  - apply andb_true_iff in Hwf as [Hwf Hgs]. apply andb_true_iff in Hwf as [Hg Hend].
    rewrite length_app in Hk. destruct g as [s|name fmt].
    + cbn [render_segment segment_wf] in *.
      replace k with (length s + (k - length s))%nat by lia.
      rewrite (init_literal pattern s (concat (map render_segment gs))) by done.
      apply IH; [by rewrite <- app_assoc|done|lia].
    + destruct k as [|k]; [lia|]. cbn [while_n].
      rewrite (init_item pattern a name fmt (concat (map render_segment gs))); [|done|done|].
      2: by destruct fmt.
      cbn [entries]. rewrite (flush_nstr_app v ns).
      assert (length (render_segment (Item name fmt)) <> 0)%nat by (destruct fmt; done).
      destruct (IH (a ++ render_segment (Item name fmt))
                  ((v ++ flush_nstr [] ns) ++ [(name, default [] fmt, true)]) [] k) as [-> ->];
        [by rewrite <- app_assoc|done|lia|]. by rewrite <- !app_assoc.
Qed.

Lemma build_entries_text time_text names level event : forall gs pending,
  format_items time_text names (map fst (map build_item (entries pending gs))) level event =
  pending ++ concat (map (segment_text time_text names level event) gs).
Proof.
  assert (Hflush : forall s, format_items time_text names (map fst (map build_item (flush_nstr [] s))) level event = s)
    by (intros []; cbn; by rewrite ?app_nil_r).
  unfold format_items in *.
  induction gs as [|[s|name fmt] gs IH]; intros pending; cbn [entries map concat].
  - by rewrite Hflush, app_nil_r.
  - rewrite IH. cbn. by rewrite <- app_assoc.
  - rewrite !map_app, !concat_app, Hflush, IH. cbn [map concat app build_item negb segment_text].
    rewrite app_nil_r. by destruct (s_format_items name (default [] fmt)).
Qed.

Lemma build_entries_error : forall gs pending,
  existsb snd (map build_item (entries pending gs)) = existsb segment_unknown gs.
Proof.
  assert (Hflush : forall s, existsb snd (map build_item (flush_nstr [] s)) = false) by (by intros []).
  induction gs as [|[s|name fmt] gs IH]; intros pending; cbn [entries existsb]; [apply Hflush|apply IH|].
  rewrite !map_app, !existsb_app, Hflush, IH. cbn [map existsb build_item negb segment_unknown orb].
  by destruct (s_format_items name (default [] fmt)).
Qed.

(** What a log pattern means.  For a pattern written as literals without '%' and
    items "%name" or "%name{format}" (a name with no format is not directly followed
    by a letter or a brace, a format has no '}'), [LogFormatter] prints every event
    as the concatenation of the texts of its parts, each item as the entry of
    [s_format_items] for its name prints it with its own format, an unknown name as
    "<<error_format %name>>"; and [isError] is set exactly when some name is unknown. *)
Lemma LogFormatter_pattern_meaning time_text names gs level event :
  segments_wf gs = true ->
  let f := LogFormatter_new (render_segments gs) in
  LogFormatter_format time_text names f level event =
    concat (map (segment_text time_text names level event) gs) /\
  m_error f = existsb segment_unknown gs.
Proof.
  intros Hwf.
  destruct (init_segments (render_segments gs) false gs [] [] [] (S (length (render_segments gs))))
    as [Hv He]; [done|done|lia|].
  unfold LogFormatter_format, LogFormatter_new, init_parse, init_start in *.
  cbn [vec pa_error mLF_FI_items m_error length app] in *. rewrite Hv, He.
  by rewrite build_entries_text, build_entries_error.
Qed.

(** The pattern every [Logger] starts with, as a list of segments. *)
Definition default_segments : list segment :=
  [Item (str "d") (Some (str "%Y-%m-%d %H:%M:%S")); Item (str "T") None; Item (str "f") None;
   Lit (str ":"); Item (str "l") None; Item (str "T") None; Lit (str "["); Item (str "p") None;
   Lit (str "]"); Item (str "T") None; Item (str "c") None; Item (str "T") None; Item (str "t") None;
   Lit (str "("); Item (str "N") None; Lit (str ")"); Item (str "T") None; Item (str "F") None;
   Item (str "T") None; Item (str "m") None; Item (str "n") None].

Definition sample_event : LogEvent :=
  LogEvent_append (LogEvent_new 0 LogLevel_WARN (str "main.cc") 12 0 7 3 100 (str "worker")) (str "hi").

Lemma LogFormatter_pattern_meaning_witness :
  segments_wf default_segments = true /\
  LogFormatter_format (fun _ _ => str "NOW") (fun _ => str "root")
    (LogFormatter_new (render_segments default_segments)) LogLevel_WARN sample_event =
  concat (map (segment_text (fun _ _ => str "NOW") (fun _ => str "root") LogLevel_WARN sample_event)
            default_segments).
Proof.
  assert (H : segments_wf default_segments = true) by (vm_compute; reflexivity).
  split; [exact H|].
  exact (proj1 (LogFormatter_pattern_meaning (fun _ _ => str "NOW") (fun _ => str "root")
                  default_segments LogLevel_WARN sample_event H)).
Defined.

(** ** Where the parser departs from its documentation *)

(** "%%" does not print one '%': the second '%' is read again, as the start of an
    item with an empty name, so the pattern is rejected... *)
Lemma LogFormatter_double_percent :
  let f := LogFormatter_new (str "100%%") in
  mLF_FI_items f = [StringFormatItem (str "100%"); StringFormatItem (str "<<error_format %>>")] /\
  m_error f = true.
Proof. vm_compute. done. Qed.

(** ... or takes the letter behind it for an item. *)
Lemma LogFormatter_double_percent_item :
  mLF_FI_items (LogFormatter_new (str "%%d")) =
  [StringFormatItem (str "%"); DateTimeFormatItem (str "%Y-%m-%d %H:%M:%S")].
Proof. vm_compute. done. Qed.

(** The documented "%tn" (thread name) and "%g" (logger name) are unknown names. *)
Lemma LogFormatter_documented_names_unknown :
  m_error (LogFormatter_new (str "%tn")) = true /\ m_error (LogFormatter_new (str "%g")) = true /\
  mLF_FI_items (LogFormatter_new (str "%c")) = [NameFormatItem].
Proof. vm_compute. done. Qed.

(** An unclosed '{' moves the text before it behind the error mark and drops the '%'. *)
Lemma LogFormatter_unclosed_format :
  mLF_FI_items (LogFormatter_new (str "at %d{xy")) =
  [StringFormatItem (str "<<pattern_error>>"); StringFormatItem (str "at d{xy")].
Proof. vm_compute. done. Qed.
