(* ===== verification/Logger.v ===== *)
(** * Loggers, appenders and the logger manager of [log.cc]

    [Logger], [StdoutLogAppender], [FileLogAppender] and [LoggerManager] over a heap:
    loggers and appenders are shared objects, named by their numbers, so that an
    appender added to two loggers is one object.  What the program writes is a trace
    of console and file operations.  The theorems: no sequence of operations leads a
    log call to undefined behaviour, where an event goes and what is printed, which
    formatter an appender uses, and the manager as a registry of names. *)

From S2P Require Import Prelude Text LogFormatter.
From Stdlib Require Import ZArith Lia List String.
From stdpp Require Import base tactics list numbers option relations sets.

Open Scope Z_scope.
Open Scope list_scope.

(** ** Data *)

(** [std::ofstream]: the open file, if any, and whether the stream is good. *)
Record ofstream := { os_file : option bytes; os_good : bool }.

(** @src log.h:595-602 FileLogAppender *)
Inductive appender_kind :=
| StdoutLogAppender
| FileLogAppender (m_filename : bytes) (m_filestream : ofstream) (m_lastTime : Z).

(** @src log.h:436-445 LogAppender *)
Record LogAppender := {
  ap_kind : appender_kind;
  ap_level : Z;
  ap_hasFormatter : bool;
  ap_formatter : option LogFormatter
}.

(** @src log.h:552-565 Logger *)
Record Logger := {
  lg_name : bytes;
  lg_level : Z;
  lg_appenders : list nat;
  lg_formatter : option LogFormatter;
  lg_root : option nat
}.

(** What the program does to the console and to files. *)
Inductive io_event :=
| Console (s : bytes)
| OpenFile (path : bytes)
| WriteFile (path s : bytes).

(** The heap, the manager ([m_loggers] in the order of its keys) and the trace. *)
(** @src log.h:636-643 LoggerManager *)
Record World := {
  loggers : list Logger;
  appenders : list LogAppender;
  m_loggers : list (bytes * nat);
  mgr_root : nat;
  trace : list io_event
}.

Definition set_logger (w : World) (l : nat) (x : Logger) : World :=
  {| loggers := <[l := x]> (loggers w); appenders := appenders w; m_loggers := m_loggers w;
     mgr_root := mgr_root w; trace := trace w |}.
Definition set_appender (w : World) (a : nat) (x : LogAppender) : World :=
  {| loggers := loggers w; appenders := <[a := x]> (appenders w); m_loggers := m_loggers w;
     mgr_root := mgr_root w; trace := trace w |}.
Definition emit (w : World) (e : list io_event) : World :=
  {| loggers := loggers w; appenders := appenders w; m_loggers := m_loggers w;
     mgr_root := mgr_root w; trace := trace w ++ e |}.

Definition names_of (w : World) (l : nat) : bytes :=
  match loggers w !! l with Some x => lg_name x | None => [] end.

(** ** Streams *)

Section log.

(** [can_open p]: whether [open] of path [p] for writing succeeds; [time_text] as in
    the formatter. *)
Context (can_open : bytes -> bool) (time_text : Z -> bytes -> bytes).

(** [open(path)] of a stream: it fails when the stream is open already. *)
Definition ofstream_open (s : ofstream) (path : bytes) : ofstream :=
  match os_file s with
  | Some f => {| os_file := Some f; os_good := false |}
  | None => if can_open path then {| os_file := Some path; os_good := true |}
            else {| os_file := None; os_good := false |}
  end.

(** [close()]: it fails when no file is open. *)
Definition ofstream_close (s : ofstream) : ofstream :=
  {| os_file := None; os_good := os_good s && non_null (os_file s) |}.

(** ** Appenders *)

(** @src log.h:436-445 StdoutLogAppender::StdoutLogAppender *)
Definition StdoutLogAppender_new : LogAppender :=
  {| ap_kind := StdoutLogAppender; ap_level := LogLevel_DEBUG; ap_hasFormatter := false;
     ap_formatter := None |}.

(** What opening a file that no stream of this object has open does to the file system:
    [ofstream] opens for writing from the start, which empties the file. *)
Definition open_event (path : bytes) : list io_event := if can_open path then [OpenFile path] else [].

(** The constructor gives the path to the stream and leaves [m_filename] empty. *)
(** @src log.cc:359-360 FileLogAppender::FileLogAppender *)
Definition FileLogAppender_new (filename : bytes) : LogAppender * list io_event :=
  ({| ap_kind := FileLogAppender [] (ofstream_open {| os_file := None; os_good := true |} filename) 0;
      ap_level := LogLevel_DEBUG; ap_hasFormatter := false; ap_formatter := None |},
   open_event filename).

(** [new]: the number of the object. *)
Definition alloc_appender (w : World) (x : LogAppender) : nat * World :=
  (length (appenders w),
   {| loggers := loggers w; appenders := appenders w ++ [x]; m_loggers := m_loggers w;
      mgr_root := mgr_root w; trace := trace w |}).

(** @src log.cc:92-100 LogAppender::setFormatter *)
Definition LogAppender_setFormatter (w : World) (a : nat) (val : option LogFormatter) : outcome World :=
  deref (appenders w !! a) (fun x =>
  Ok (set_appender w a {| ap_kind := ap_kind x; ap_level := ap_level x;
                          ap_hasFormatter := non_null val; ap_formatter := val |})).

(** @src log.cc:102-105 LogAppender::getFormatter *)
Definition LogAppender_getFormatter (w : World) (a : nat) : outcome (option LogFormatter) :=
  deref (appenders w !! a) (fun x => Ok (ap_formatter x)).

(** @src log.h:434-434 LogAppender::setLevel *)
Definition LogAppender_setLevel (w : World) (a : nat) (val : Z) : outcome World :=
  deref (appenders w !! a) (fun x =>
  Ok (set_appender w a {| ap_kind := ap_kind x; ap_level := val;
                          ap_hasFormatter := ap_hasFormatter x; ap_formatter := ap_formatter x |})).

(** [m_formatter = val] by the friend [Logger]. *)
Definition put_formatter (x : LogAppender) (val : option LogFormatter) : LogAppender :=
  {| ap_kind := ap_kind x; ap_level := ap_level x; ap_hasFormatter := ap_hasFormatter x;
     ap_formatter := val |}.

Definition put_kind (x : LogAppender) (k : appender_kind) : LogAppender :=
  {| ap_kind := k; ap_level := ap_level x; ap_hasFormatter := ap_hasFormatter x;
     ap_formatter := ap_formatter x |}.

(** The new stream, and what happens to the file system. *)
(** @src log.cc:385-391 FileLogAppender::reopen *)
Definition FileLogAppender_reopen (m_filename : bytes) (s : ofstream) : ofstream * list io_event :=
  let s := if os_good s then ofstream_close s else s in
  (ofstream_open s m_filename,
   if non_null (os_file s) then [] else open_event m_filename).

(** @src log.cc:368-383 FileLogAppender::log *)
Definition FileLogAppender_log (w : World) (a : nat) (x : LogAppender) (m_filename : bytes)
    (m_filestream : ofstream) (m_lastTime : Z) (level : Z) (event : LogEvent) : outcome World :=
  if ap_level x <=? level then
    let now := m_time event in
    let '(s, opened, last) :=
      if u64 (m_lastTime + 3) <=? now
      then let '(s, e) := FileLogAppender_reopen m_filename m_filestream in (s, e, now)
      else (m_filestream, [], m_lastTime) in
    let w := set_appender (emit w opened) a (put_kind x (FileLogAppender m_filename s last)) in
    deref (ap_formatter x) (fun f =>
    match os_good s, os_file s with
    | true, Some path =>
        Ok (emit w [WriteFile path (LogFormatter_format time_text (names_of w) f level event)])
    | _, _ => Ok (emit w [Console (str "error" ++ [10])])
    end)
  else Ok w.

(** @src log.cc:410-417 StdoutLogAppender::log *)
Definition StdoutLogAppender_log (w : World) (x : LogAppender) (level : Z) (event : LogEvent) : outcome World :=
  if ap_level x <=? level then
    deref (ap_formatter x) (fun f =>
    Ok (emit w [Console (LogFormatter_format time_text (names_of w) f level event)]))
  else Ok w.

(** The virtual call [i->log(self, level, event)]. *)
(** @src log.h:408-409 LogAppender::log *)
Definition LogAppender_log (w : World) (a : nat) (level : Z) (event : LogEvent) : outcome World :=
  deref (appenders w !! a) (fun x =>
  match ap_kind x with
  | StdoutLogAppender => StdoutLogAppender_log w x level event
  | FileLogAppender fn fs lt => FileLogAppender_log w a x fn fs lt level event
  end).

(** ** Loggers *)

Definition default_pattern : bytes := render_segments default_segments.

(** @src log.cc:249-255 Logger::Logger *)
Definition Logger_new (name : bytes) : Logger :=
  {| lg_name := name; lg_level := LogLevel_DEBUG; lg_appenders := [];
     lg_formatter := Some (LogFormatter_new default_pattern); lg_root := None |}.

(** [for (auto &i : m_appenders) i->log(self, level, event)]. *)
(** @src log.cc:264-265 Logger::log *)
Fixpoint log_appenders (w : World) (l : list nat) (level : Z) (event : LogEvent) : outcome World :=
  match l with
  | [] => Ok w
  | a :: l => let! w := LogAppender_log w a level event in log_appenders w l level event
  end.

(** @src log.cc:257-273 Logger::log *)
Fixpoint Logger_log (fuel : nat) (w : World) (l : nat) (level : Z) (event : LogEvent) : outcome World :=
  match fuel with
  | O => NoFuel
  | S fuel =>
      deref (loggers w !! l) (fun self =>
      if lg_level self <=? level then
        match lg_appenders self with
        | [] => match lg_root self with
                | Some r => Logger_log fuel w r level event
                | None => Ok w
                end
        | ap => log_appenders w ap level event
        end
      else Ok w)
  end.

(** @src log.cc:275-275 Logger::debug *)
Definition Logger_debug fuel w l event := Logger_log fuel w l LogLevel_DEBUG event.
(** @src log.cc:277-277 Logger::info *)
Definition Logger_info fuel w l event := Logger_log fuel w l LogLevel_INFO event.
(** @src log.cc:279-279 Logger::warn *)
Definition Logger_warn fuel w l event := Logger_log fuel w l LogLevel_WARN event.
(** @src log.cc:281-281 Logger::error *)
Definition Logger_error fuel w l event := Logger_log fuel w l LogLevel_ERROR event.
(** @src log.cc:283-283 Logger::fatal *)
Definition Logger_fatal fuel w l event := Logger_log fuel w l LogLevel_FATAL event.

Definition put_appenders (x : Logger) (l : list nat) : Logger :=
  {| lg_name := lg_name x; lg_level := lg_level x; lg_appenders := l;
     lg_formatter := lg_formatter x; lg_root := lg_root x |}.

(** @src log.cc:285-293 Logger::addAppender *)
Definition Logger_addAppender (w : World) (l a : nat) : outcome World :=
  deref (loggers w !! l) (fun self =>
  deref (appenders w !! a) (fun x =>
  let w := if negb (non_null (ap_formatter x))
           then set_appender w a (put_formatter x (lg_formatter self)) else w in
  Ok (set_logger w l (put_appenders self (lg_appenders self ++ [a]))))).

Fixpoint erase_first (a : nat) (l : list nat) : list nat :=
  match l with [] => [] | x :: l => if (x =? a)%nat then l else x :: erase_first a l end.

(** @src log.cc:295-302 Logger::delAppender *)
Definition Logger_delAppender (w : World) (l a : nat) : outcome World :=
  deref (loggers w !! l) (fun self =>
  Ok (set_logger w l (put_appenders self (erase_first a (lg_appenders self))))).

(** @src log.cc:310-315 Logger::setFormatter *)
Fixpoint refresh_formatters (w : World) (l : list nat) (val : option LogFormatter) : outcome World :=
  match l with
  | [] => Ok w
  | a :: l =>
      deref (appenders w !! a) (fun x =>
      refresh_formatters
        (if negb (ap_hasFormatter x) then set_appender w a (put_formatter x val) else w) l val)
  end.

(** @src log.cc:306-316 Logger::setFormatter *)
Definition Logger_setFormatter (w : World) (l : nat) (val : option LogFormatter) : outcome World :=
  deref (loggers w !! l) (fun self =>
  refresh_formatters
    (set_logger w l {| lg_name := lg_name self; lg_level := lg_level self;
                       lg_appenders := lg_appenders self; lg_formatter := val; lg_root := lg_root self |})
    (lg_appenders self) val).

(** A pattern that does not parse is reported and ignored. *)
(** @src log.cc:318-329 Logger::setFormatter *)
Definition Logger_setFormatter_str (w : World) (l : nat) (val : bytes) : outcome World :=
  let new_val := LogFormatter_new val in
  deref (loggers w !! l) (fun self =>
  if m_error new_val then
    Ok (emit w [Console (str "Logger setFormatter name=" ++ lg_name self ++ str " value=" ++ val ++
                         str " invalid formatter" ++ [10])])
  else Logger_setFormatter w l (Some new_val)).

(** @src log.cc:331-334 Logger::getFormatter *)
Definition Logger_getFormatter (w : World) (l : nat) : outcome (option LogFormatter) :=
  deref (loggers w !! l) (fun self => Ok (lg_formatter self)).

(** @src log.cc:336-339 Logger::clearAppenders *)
Definition Logger_clearAppenders (w : World) (l : nat) : outcome World :=
  deref (loggers w !! l) (fun self => Ok (set_logger w l (put_appenders self []))).

(** @src log.h:525-525 Logger::setLevel *)
Definition Logger_setLevel (w : World) (l : nat) (val : Z) : outcome World :=
  deref (loggers w !! l) (fun self =>
  Ok (set_logger w l {| lg_name := lg_name self; lg_level := val; lg_appenders := lg_appenders self;
                        lg_formatter := lg_formatter self; lg_root := lg_root self |})).

(** ** The manager *)

(** [m_loggers.find(name)] and [m_loggers[name] = l] of a [std::map]. *)
Fixpoint loggers_find (m : list (bytes * nat)) (name : bytes) : option nat :=
  match m with
  | [] => None
  | (k, l) :: m => if bool_decide (k = name) then Some l else loggers_find m name
  end.

Fixpoint loggers_set (m : list (bytes * nat)) (name : bytes) (l : nat) : list (bytes * nat) :=
  match m with
  | [] => [(name, l)]
  | (k, x) :: m =>
      if bool_decide (k = name) then (k, l) :: m
      else if lex_lt name k then (name, l) :: (k, x) :: m
      else (k, x) :: loggers_set m name l
  end.

Definition alloc_logger (w : World) (x : Logger) : nat * World :=
  (length (loggers w),
   {| loggers := loggers w ++ [x]; appenders := appenders w; m_loggers := m_loggers w;
      mgr_root := mgr_root w; trace := trace w |}).

Definition register (w : World) (name : bytes) (l : nat) : World :=
  {| loggers := loggers w; appenders := appenders w; m_loggers := loggers_set (m_loggers w) name l;
     mgr_root := mgr_root w; trace := trace w |}.

(** @src log.cc:608-616 LoggerManager::LoggerManager *)
Definition LoggerManager_new : outcome World :=
  let w := {| loggers := [Logger_new (str "root")]; appenders := [StdoutLogAppender_new];
              m_loggers := []; mgr_root := 0; trace := [] |} in
  let! w := Logger_addAppender w 0 0 in
  Ok (register w (str "root") 0).

(** @src log.cc:617-629 LoggerManager::getLogger *)
Definition LoggerManager_getLogger (w : World) (name : bytes) : nat * World :=
  match loggers_find (m_loggers w) name with
  | Some l => (l, w)
  | None =>
      let x := Logger_new name in
      let '(l, w) := alloc_logger w {| lg_name := lg_name x; lg_level := lg_level x;
                                       lg_appenders := lg_appenders x; lg_formatter := lg_formatter x;
                                       lg_root := Some (mgr_root w) |} in
      (l, register w name l)
  end.

(** @src log.h:629-629 LoggerManager::getRoot *)
Definition LoggerManager_getRoot (w : World) : nat := mgr_root w.

(** ** The macros *)

(** The destructor of [LogEventWrap] logs the event. *)
(** @src log.cc:86-88 LogEventWrap::~LogEventWrap *)
Definition LogEventWrap_destroy (fuel : nat) (w : World) (event : LogEvent) : outcome World :=
  Logger_log fuel w (m_logger event) (ev_level event) event.

(** [BIN_LOG_LEVEL(logger, level) << msg]; [at_] is the place and the moment. *)
(** @src log.h:30-36 BIN_LOG_LEVEL *)
Definition BIN_LOG_LEVEL (fuel : nat) (w : World) (l : nat) (level : Z)
    (at_ : nat -> Z -> LogEvent) (msg : bytes) : outcome World :=
  deref (loggers w !! l) (fun self =>
  if lg_level self <=? level
  then LogEventWrap_destroy fuel w (LogEvent_append (at_ l level) msg)
  else Ok w).

(** [BIN_LOG_FMT_LEVEL(logger, level, fmt, ...)]. *)
(** @src log.h:66-73 BIN_LOG_FMT_LEVEL *)
Definition BIN_LOG_FMT_LEVEL (fuel : nat) (w : World) (l : nat) (level : Z)
    (at_ : nat -> Z -> LogEvent) (buf : option bytes) : outcome World :=
  deref (loggers w !! l) (fun self =>
  if lg_level self <=? level
  then LogEventWrap_destroy fuel w (LogEvent_format (at_ l level) buf)
  else Ok w).

End log.

(** ** The invariant of the heap *)

(** An attached appender exists and has a formatter; a logger has a formatter, only
    such appenders, and falls back on the root of the manager or on nothing; the root
    falls back on nothing; every registered name is the name of its logger. *)
Definition appender_ok (w : World) (a : nat) : Prop :=
  exists x, appenders w !! a = Some x /\ non_null (ap_formatter x) = true.

Record logger_ok (w : World) (x : Logger) : Prop := {
  ok_formatter : non_null (lg_formatter x) = true;
  ok_appenders : Forall (appender_ok w) (lg_appenders x);
  ok_root : lg_root x = None \/ lg_root x = Some (mgr_root w)
}.

Record world_wf (w : World) : Prop := {
  wf_loggers : Forall (logger_ok w) (loggers w);
  wf_root : exists r, loggers w !! mgr_root w = Some r /\ lg_root r = None;
  wf_names : forall n l, loggers_find (m_loggers w) n = Some l ->
               exists x, loggers w !! l = Some x /\ lg_name x = n;
  wf_root_name : loggers_find (m_loggers w) (str "root") = Some (mgr_root w)
}.

Lemma wf_logger w l x : world_wf w -> loggers w !! l = Some x -> logger_ok w x.
Proof. intros H Hl. exact (proj1 (Forall_lookup _ _) (wf_loggers _ H) _ _ Hl). Qed.

Lemma loggers_find_set m n l k :
  loggers_find (loggers_set m n l) k = if bool_decide (n = k) then Some l else loggers_find m k.
Proof.
  induction m as [|[k' x] m IH]; cbn; [done|].
  destruct (decide (k' = n)) as [->|Hn].
  - rewrite !(bool_decide_eq_true_2 (n = n)) by done. cbn. by case_bool_decide.
  - rewrite (bool_decide_eq_false_2 (k' = n)) by done. destruct (lex_lt n k'); cbn; [done|].
    rewrite IH. repeat case_bool_decide; congruence.
Qed.

(** A change that keeps every attached appender usable keeps loggers usable. *)
Lemma logger_ok_mono w w' x :
  (forall a, appender_ok w a -> appender_ok w' a) -> mgr_root w' = mgr_root w ->
  logger_ok w x -> logger_ok w' x.
Proof.
  intros Ha Hr [? Hap ?]. split; [done| |by rewrite Hr]. eapply Forall_impl; [exact Hap|done].
Qed.

Lemma wf_mono w w' :
  (forall a, appender_ok w a -> appender_ok w' a) -> mgr_root w' = mgr_root w ->
  loggers w' = loggers w -> m_loggers w' = m_loggers w -> world_wf w -> world_wf w'.
Proof.
  intros Ha Hr Hl Hm [H1 H2 H3 H4]. split; rewrite ?Hl, ?Hm, ?Hr; try done.
  eapply Forall_impl; [exact H1|]. intros x. by apply logger_ok_mono.
Qed.

Lemma wf_emit w e : world_wf w -> world_wf (emit w e).
Proof. by apply wf_mono. Qed.

Lemma wf_set_appender w a x :
  non_null (ap_formatter x) = true -> world_wf w -> world_wf (set_appender w a x).
Proof.
  intros Hx. apply wf_mono; try done. intros b (y & Hb & Hy). cbn.
  destruct (decide (a = b)) as [<-|Hne].
  - exists x. split; [|done]. apply list_lookup_insert_eq. by eapply lookup_lt_Some.
  - exists y. split; [|done]. cbn. by rewrite list_lookup_insert_ne.
Qed.

(** A formatter that was set stays set when the rest of an appender changes. *)
Lemma wf_update_appender w a x y :
  appenders w !! a = Some x -> (non_null (ap_formatter x) = true -> non_null (ap_formatter y) = true) ->
  world_wf w -> world_wf (set_appender w a y).
Proof.
  intros Ha Hy. apply wf_mono; try done. intros b (z & Hb & Hz). cbn.
  destruct (decide (a = b)) as [<-|Hne].
  - exists y. split; [apply list_lookup_insert_eq; by eapply lookup_lt_Some|]. apply Hy. congruence.
  - exists z. split; [|done]. cbn. by rewrite list_lookup_insert_ne.
Qed.

Lemma wf_set_logger w l x y :
  loggers w !! l = Some x -> lg_name y = lg_name x -> lg_root y = lg_root x ->
  logger_ok w y -> world_wf w -> world_wf (set_logger w l y).
Proof.
  intros Hl Hn Hr Hy [H1 (r & Hr1 & Hr2) H3 H4]. pose proof (lookup_lt_Some _ _ _ Hl) as Hlt.
  assert (Hold : forall l' z, loggers w !! l' = Some z ->
            exists z', <[l := y]> (loggers w) !! l' = Some z' /\ lg_name z' = lg_name z /\ lg_root z' = lg_root z).
  { intros l' z Hz. destruct (decide (l = l')) as [<-|Hne].
    - exists y. rewrite list_lookup_insert_eq by done. split_and!; congruence.
    - exists z. by rewrite list_lookup_insert_ne. }
  split; cbn; [|destruct (Hold _ _ Hr1) as (z & ? & ? & ?); exists z; split; congruence| |done].
  - apply Forall_insert; [|by apply (logger_ok_mono w)]. eapply Forall_impl; [exact H1|].
    intros z. by apply (logger_ok_mono w).
  - intros n l' Hf. destruct (H3 n l' Hf) as (z & Hz & <-).
    destruct (Hold _ _ Hz) as (z' & ? & ? & ?). eauto.
Qed.
#[export] Hint Resolve wf_emit wf_set_appender : inv.

(** ** Every operation keeps the invariant *)

Section wf.
Context (can_open : bytes -> bool) (time_text : Z -> bytes -> bytes).

Lemma wf_alloc_appender w x : world_wf w -> world_wf (alloc_appender w x).2.
Proof.
  apply wf_mono; try done. intros a (y & Ha & Hy). exists y. split; [|done]. cbn.
  by apply lookup_app_l_Some.
Qed.

Lemma wf_getLogger w name : world_wf w -> world_wf (LoggerManager_getLogger w name).2.
Proof.
  intros H. unfold LoggerManager_getLogger. destruct (loggers_find (m_loggers w) name) eqn:E; [done|].
  destruct H as [H1 (r & Hr1 & Hr2) H3 H4]. split; cbn.
  - apply Forall_app. split; [eapply Forall_impl; [exact H1|intros z; by apply (logger_ok_mono w)]|].
    constructor; [|done]. split; [done|constructor|by right].
  - exists r. split; [by apply lookup_app_l_Some|done].
  - intros n l Hf. rewrite loggers_find_set in Hf. case_bool_decide as Hn; simplify_eq.
    + eexists. split; [by rewrite lookup_app_r, Nat.sub_diag|done].
    + destruct (H3 n l Hf) as (x & Hx & ?). exists x. split; [by apply lookup_app_l_Some|done].
  - rewrite loggers_find_set. case_bool_decide as Hn; [|done]. exfalso. rewrite Hn in E.
    change (loggers_find (m_loggers w) (str "root") = None) in E. congruence.
Qed.

Lemma wf_put_appenders w l self ap :
  loggers w !! l = Some self -> Forall (appender_ok w) ap ->
  world_wf w -> world_wf (set_logger w l (put_appenders self ap)).
Proof.
  intros Hl Hap H. eapply wf_set_logger; [exact Hl|done|done| |done].
  destruct (wf_logger w l self H Hl) as [? _ ?]. by split.
Qed.

Lemma wf_addAppender w l a w' : world_wf w -> Logger_addAppender w l a = Ok w' -> world_wf w'.
Proof.
  unfold Logger_addAppender, deref. intros H Hop.
  destruct (loggers w !! l) as [self|] eqn:Hl; [|done].
  destruct (appenders w !! a) as [x|] eqn:Ha; [|done].
  pose proof (wf_logger w l self H Hl) as Hok.
  destruct (non_null (ap_formatter x)) eqn:Hx; injection Hop as <-.
  - apply wf_put_appenders; [done| |done].
    apply Forall_app; split; [apply Hok|]. constructor; [by exists x|done].
  - assert (Hw : world_wf (set_appender w a (put_formatter x (lg_formatter self)))).
    { apply wf_set_appender; [apply Hok|done]. }
    apply wf_put_appenders; [done| |done].
    apply Forall_app; split; [exact (ok_appenders _ _ (wf_logger _ l self Hw Hl))|].
    constructor; [|done]. exists (put_formatter x (lg_formatter self)). split; [|apply Hok].
    apply list_lookup_insert_eq. by eapply lookup_lt_Some.
Qed.

Lemma Forall_erase_first P a l : Forall P l -> Forall P (erase_first a l).
Proof.
  induction 1 as [|x l Hx Hl IH]; cbn; [constructor|]. destruct (x =? a)%nat; [done|by constructor].
Qed.

Lemma wf_delAppender w l a w' : world_wf w -> Logger_delAppender w l a = Ok w' -> world_wf w'.
Proof.
  unfold Logger_delAppender, deref. intros H Hop.
  destruct (loggers w !! l) as [self|] eqn:Hl; [|done]. injection Hop as <-.
  apply wf_put_appenders; [done| |done]. apply Forall_erase_first, (wf_logger w l self H Hl).
Qed.

Lemma wf_clearAppenders w l w' : world_wf w -> Logger_clearAppenders w l = Ok w' -> world_wf w'.
Proof.
  unfold Logger_clearAppenders, deref. intros H Hop.
  destruct (loggers w !! l) as [self|] eqn:Hl; [|done]. injection Hop as <-.
  by apply wf_put_appenders.
Qed.

Lemma wf_setLevel w l v w' : world_wf w -> Logger_setLevel w l v = Ok w' -> world_wf w'.
Proof.
  unfold Logger_setLevel, deref. intros H Hop.
  destruct (loggers w !! l) as [self|] eqn:Hl; [|done]. injection Hop as <-.
  eapply wf_set_logger; [exact Hl|done|done| |done].
  destruct (wf_logger w l self H Hl). by split.
Qed.

Lemma wf_refresh f : forall l w w',
  world_wf w -> refresh_formatters w l (Some f) = Ok w' -> world_wf w'.
Proof.
  induction l as [|a l IH]; cbn; intros w w' H Hop; [by injection Hop as <-|].
  unfold deref in Hop. destruct (appenders w !! a) as [x|] eqn:Ha; [|done].
  eapply IH; [|exact Hop]. destruct (ap_hasFormatter x); cbn; [done|by apply wf_set_appender].
Qed.

Lemma wf_setFormatter w l f w' : world_wf w -> Logger_setFormatter w l (Some f) = Ok w' -> world_wf w'.
Proof.
  unfold Logger_setFormatter, deref. intros H Hop.
  destruct (loggers w !! l) as [self|] eqn:Hl; [|done]. eapply wf_refresh; [|exact Hop].
  eapply wf_set_logger; [exact Hl|done|done| |done].
  destruct (wf_logger w l self H Hl). by split.
Qed.

Lemma wf_setFormatter_str w l v w' : world_wf w -> Logger_setFormatter_str w l v = Ok w' -> world_wf w'.
Proof.
  unfold Logger_setFormatter_str. intros H Hop.
  destruct (loggers w !! l) as [self|] eqn:Hl; unfold deref in Hop; [|done].
  destruct (m_error (LogFormatter_new v)); [injection Hop as <-; by apply wf_emit|].
  by eapply wf_setFormatter.
Qed.

Lemma wf_appender_setFormatter w a f w' :
  world_wf w -> LogAppender_setFormatter w a (Some f) = Ok w' -> world_wf w'.
Proof.
  unfold LogAppender_setFormatter, deref. intros H Hop.
  destruct (appenders w !! a) as [x|] eqn:Ha; [|done]. injection Hop as <-. by apply wf_set_appender.
Qed.

Lemma wf_appender_setLevel w a v w' : world_wf w -> LogAppender_setLevel w a v = Ok w' -> world_wf w'.
Proof.
  unfold LogAppender_setLevel, deref. intros H Hop.
  destruct (appenders w !! a) as [x|] eqn:Ha; [|done]. injection Hop as <-.
  by eapply wf_update_appender.
Qed.

(** ** Logging *)

(** Logging changes only appenders (their streams) and the trace: the formatters, the
    loggers and the manager stay, and an attached appender always has a formatter. *)
Definition same_setup (w w' : World) : Prop :=
  loggers w' = loggers w /\ m_loggers w' = m_loggers w /\ mgr_root w' = mgr_root w /\
  (forall a, appender_ok w a -> appender_ok w' a).

Lemma same_setup_wf w w' : same_setup w w' -> world_wf w -> world_wf w'.
Proof. intros (? & ? & ? & ?). by apply wf_mono. Qed.

#[local] Instance same_setup_preorder : PreOrder same_setup.
Proof.
  split; [by intros w|]. intros w1 w2 w3 (? & ? & ? & ?) (? & ? & ? & ?).
  split_and!; try congruence. eauto.
Qed.

Lemma same_setup_emit w e : same_setup w (emit w e).
Proof. by split_and!. Qed.

Lemma same_setup_kind w a x k :
  appenders w !! a = Some x -> same_setup w (set_appender w a (put_kind x k)).
Proof.
  intros Ha. split_and!; try done. intros b (y & Hb & Hy). destruct (decide (a = b)) as [<-|Hne].
  - exists (put_kind x k). split; [apply list_lookup_insert_eq; by eapply lookup_lt_Some|].
    simplify_eq. done.
  - exists y. split; [|done]. cbn. by rewrite list_lookup_insert_ne.
Qed.

Lemma LogAppender_log_ok w a level event :
  appender_ok w a -> exists w', LogAppender_log can_open time_text w a level event = Ok w' /\ same_setup w w'.
Proof.
  intros (x & Ha & Hx). unfold LogAppender_log. rewrite Ha. cbn [deref].
  destruct (ap_formatter x) as [f|] eqn:Hf; [|done].
  destruct (ap_kind x) as [|fn fs lt]; unfold StdoutLogAppender_log, FileLogAppender_log; rewrite Hf; cbn [deref].
  - destruct (ap_level x <=? level); eexists; (split; [done|]); [apply same_setup_emit|done].
  - destruct (ap_level x <=? level); [|by exists w].
    destruct (if u64 (lt + 3) <=? m_time event then _ else _) as [[s opened] last].
    assert (Hs : same_setup w (set_appender (emit w opened) a (put_kind x (FileLogAppender fn s last)))).
    { transitivity (emit w opened); [apply same_setup_emit|by apply same_setup_kind]. }
    destruct (os_good s), (os_file s); eexists; (split; [done|]); (etransitivity; [exact Hs|apply same_setup_emit]).
Qed.

Lemma log_appenders_ok level event : forall l w,
  Forall (appender_ok w) l ->
  exists w', log_appenders can_open time_text w l level event = Ok w' /\ same_setup w w'.
Proof.
  induction l as [|a l IH]; cbn; intros w Hl; [by exists w|].
  apply Forall_cons_1 in Hl as [Ha Hl].
  destruct (LogAppender_log_ok w a level event Ha) as (w1 & -> & H1). cbn.
  destruct (IH w1) as (w2 & -> & H2).
  { eapply Forall_impl; [exact Hl|]. apply H1. }
  exists w2. split; [done|by transitivity w1].
Qed.

(** The appenders that see an event of a level given to logger [l]: its own when it
    has any, otherwise those of the root; a logger drops what is below its level. *)
Definition routed (w : World) (l : nat) (level : Z) : list nat :=
  match loggers w !! l with
  | None => []
  | Some self =>
      if lg_level self <=? level then
        match lg_appenders self, lg_root self with
        | [], Some r =>
            match loggers w !! r with
            | Some root => if lg_level root <=? level then lg_appenders root else []
            | None => []
            end
        | ap, _ => ap
        end
      else []
  end.

Lemma routed_ok w l level : world_wf w -> Forall (appender_ok w) (routed w l level).
Proof.
  intros H. unfold routed. destruct (loggers w !! l) as [self|] eqn:Hl; [|constructor].
  destruct (lg_level self <=? level); [|constructor].
  pose proof (ok_appenders _ _ (wf_logger w l self H Hl)).
  destruct (lg_appenders self), (lg_root self) as [r|]; try done.
  destruct (loggers w !! r) as [root|] eqn:Hr; [|constructor].
  destruct (lg_level root <=? level); [|constructor]. apply (wf_logger w r root H Hr).
Qed.

Lemma Logger_log_routed k w l level event :
  world_wf w -> (l < length (loggers w))%nat ->
  Logger_log can_open time_text (S (S k)) w l level event =
  log_appenders can_open time_text w (routed w l level) level event.
Proof.
  intros H Hl. destruct (lookup_lt_is_Some_2 _ _ Hl) as [self Hself].
  cbn. unfold routed. rewrite Hself. cbn [deref].
  destruct (lg_level self <=? level); [|done].
  destruct (lg_appenders self) as [|a ap]; [|by destruct (lg_root self)].
  destruct (lg_root self) as [r|] eqn:Hr; [|done].
  destruct (ok_root _ _ (wf_logger w l self H Hself)) as [?|E]; [congruence|].
  rewrite Hr in E. injection E as ->. destruct (wf_root w H) as (root & Hroot & Hnone).
  rewrite Hroot. cbn [deref]. destruct (lg_level root <=? level); [|done].
  destruct (lg_appenders root); [by rewrite Hnone|done].
Qed.

(** ** What client code can do *)

(** The steps of a program that uses the logging system and passes no null formatter. *)
Inductive log_step (w : World) : World -> Prop :=
| step_getLogger name : log_step w (LoggerManager_getLogger w name).2
| step_new_stdout : log_step w (alloc_appender w StdoutLogAppender_new).2
| step_new_file filename :
    log_step w (alloc_appender (emit w (FileLogAppender_new can_open filename).2)
                  (FileLogAppender_new can_open filename).1).2
| step_addAppender l a w' : Logger_addAppender w l a = Ok w' -> log_step w w'
| step_delAppender l a w' : Logger_delAppender w l a = Ok w' -> log_step w w'
| step_clearAppenders l w' : Logger_clearAppenders w l = Ok w' -> log_step w w'
| step_setLevel l v w' : Logger_setLevel w l v = Ok w' -> log_step w w'
| step_setFormatter l f w' : Logger_setFormatter w l (Some f) = Ok w' -> log_step w w'
| step_setFormatter_str l v w' : Logger_setFormatter_str w l v = Ok w' -> log_step w w'
| step_ap_setFormatter a f w' : LogAppender_setFormatter w a (Some f) = Ok w' -> log_step w w'
| step_ap_setLevel a v w' : LogAppender_setLevel w a v = Ok w' -> log_step w w'
| step_log l level event w' :
    Logger_log can_open time_text 2 w l level event = Ok w' -> log_step w w'.

Lemma wf_log w l level event w' :
  world_wf w -> Logger_log can_open time_text 2 w l level event = Ok w' -> same_setup w w'.
Proof.
  intros H Hop. destruct (Nat.lt_ge_cases l (length (loggers w))) as [Hl|Hl].
  - rewrite Logger_log_routed in Hop by done.
    destruct (log_appenders_ok level event _ w (routed_ok w l level H)) as (w1 & E & Hs). congruence.
  - cbn in Hop. by rewrite lookup_ge_None_2 in Hop.
Qed.

Lemma log_step_wf w w' : log_step w w' -> world_wf w -> world_wf w'.
Proof.
  intros Hs H. destruct Hs.
  - by apply wf_getLogger.
  - by apply wf_alloc_appender.
  - by apply wf_alloc_appender, wf_emit.
  - by eapply wf_addAppender.
  - by eapply wf_delAppender.
  - by eapply wf_clearAppenders.
  - by eapply wf_setLevel.
  - by eapply wf_setFormatter.
  - by eapply wf_setFormatter_str.
  - by eapply wf_appender_setFormatter.
  - by eapply wf_appender_setLevel.
  - eapply same_setup_wf; [|done]. by eapply wf_log.
Qed.

(** The world after the constructor of the manager. *)
Definition initial_world : World :=
  match LoggerManager_new with Ok w => w | _ => Build_World [] [] [] 0 [] end.

Lemma LoggerManager_new_ok : LoggerManager_new = Ok initial_world.
Proof. reflexivity. Qed.

Lemma initial_wf : world_wf initial_world.
Proof.
  split.
  - repeat constructor. eexists. split; [reflexivity|reflexivity].
  - eexists. split; reflexivity.
  - intros n l Hf. change (m_loggers initial_world) with [(str "root", 0%nat)] in Hf. cbn [loggers_find] in Hf.
    case_bool_decide as Hn; [|done]. injection Hf as <-. eexists. split; [reflexivity|exact Hn].
  - reflexivity.
Qed.

Lemma reachable_wf w : rtc log_step initial_world w -> world_wf w.
Proof.
  intros H. eapply (rtc_ind_r (fun w => world_wf w)); [exact initial_wf| |exact H].
  intros w1 w2 _ Hs Hw. by eapply log_step_wf.
Qed.

(** The line a console appender prints for an event, if any. *)
Definition console_line (w : World) (level : Z) (event : LogEvent) (a : nat) : list io_event :=
  match appenders w !! a with
  | Some x =>
      if ap_level x <=? level then
        match ap_formatter x with
        | Some f => [Console (LogFormatter_format time_text (names_of w) f level event)]
        | None => []
        end
      else []
  | None => []
  end.

Definition is_console (w : World) (a : nat) : Prop :=
  exists x, appenders w !! a = Some x /\ ap_kind x = StdoutLogAppender.

Lemma log_console level event w : forall l,
  Forall (appender_ok w) l -> Forall (is_console w) l -> forall e,
  log_appenders can_open time_text (emit w e) l level event =
  Ok (emit w (e ++ concat (map (console_line w level event) l))).
Proof.
  induction l as [|a l IH]; intros Hok Hc e; [by rewrite app_nil_r|].
  apply Forall_cons_1 in Hok as [(x & Ha & Hx) Hok]. apply Forall_cons_1 in Hc as [(x' & Ha' & Hk) Hc].
  rewrite Ha in Ha'. injection Ha' as <-. cbn [log_appenders map concat].
  unfold LogAppender_log at 1. cbn [emit appenders]. unfold console_line at 1. rewrite Ha. cbn [deref]. rewrite Hk.
  unfold StdoutLogAppender_log. destruct (ap_formatter x) as [f|]; [|done].
  destruct (ap_level x <=? level); cbn [deref obind]; [|by rewrite IH].
  rewrite app_assoc, <- IH by done. unfold emit. cbn. by rewrite app_assoc.
Qed.
End wf.

(** No use of the logging system crashes a log call.  After any sequence of
    client steps from the fresh manager (loggers looked up, appenders created, shared,
    added, deleted and cleared, levels and formatters set, events logged), logging an
    event of any level through any existing logger returns: no null formatter is
    dereferenced, the recursion to the root ends after one level, and the loggers and
    the registry are left as they were. *)
Lemma Logger_log_safe can_open time_text w l level event :
  rtc (log_step can_open time_text) initial_world w -> (l < length (loggers w))%nat ->
  exists w', Logger_log can_open time_text 2 w l level event = Ok w' /\
    loggers w' = loggers w /\ m_loggers w' = m_loggers w /\ mgr_root w' = mgr_root w.
Proof.
  intros Hw Hl. apply reachable_wf in Hw. rewrite Logger_log_routed by done.
  destruct (log_appenders_ok can_open time_text level event _ w (routed_ok w l level Hw))
    as (w' & -> & ? & ? & ? & _). eauto.
Qed.

(** Where an event goes and what is printed.  In every reachable state, when the
    appenders that see the event are console appenders, [Logger::log] prints exactly
    one line for each of them whose own level admits it, in the order they were added,
    each in that appender's format: the logger's own appenders, or the root's when it
    has none, and nothing when the level is below the logger's (or the root's). *)
Lemma Logger_log_console can_open time_text w l level event :
  rtc (log_step can_open time_text) initial_world w -> (l < length (loggers w))%nat ->
  Forall (is_console w) (routed w l level) ->
  Logger_log can_open time_text 2 w l level event =
  Ok (emit w (concat (map (console_line time_text w level event) (routed w l level)))).
Proof.
  intros Hw Hl Hc. apply reachable_wf in Hw. rewrite Logger_log_routed by done.
  pose proof (log_console can_open time_text level event w _ (routed_ok w l level Hw) Hc []) as E.
  cbn [app] in E. rewrite <- E. f_equal. unfold emit. rewrite app_nil_r. by destruct w.
Qed.

(** A program that looks up a logger and logs through it. *)
Definition sample_world : World := (LoggerManager_getLogger initial_world (str "system")).2.

Lemma Logger_log_safe_witness :
  (1 < length (loggers sample_world))%nat /\
  exists w', Logger_log (fun _ => true) (fun _ _ => []) 2 sample_world 1 LogLevel_WARN sample_event = Ok w' /\
    loggers w' = loggers sample_world /\ m_loggers w' = m_loggers sample_world /\
    mgr_root w' = mgr_root sample_world.
Proof.
  assert (H : (1 < length (loggers sample_world))%nat) by (vm_compute; lia). split; [exact H|].
  refine (Logger_log_safe (fun _ => true) (fun _ _ => []) sample_world 1 LogLevel_WARN sample_event _ H).
  apply rtc_once, step_getLogger.
Defined.

Lemma Logger_log_console_witness :
  routed sample_world 1 LogLevel_WARN = [0%nat] /\
  Logger_log (fun _ => true) (fun _ _ => []) 2 sample_world 1 LogLevel_WARN sample_event =
  Ok (emit sample_world (concat (map (console_line (fun _ _ => []) sample_world LogLevel_WARN sample_event) [0%nat]))).
Proof.
  split; [reflexivity|].
  refine (Logger_log_console (fun _ => true) (fun _ _ => []) sample_world 1 LogLevel_WARN sample_event _ _ _).
  - apply rtc_once, step_getLogger.
  - vm_compute; lia.
  - constructor; [|constructor]. eexists. split; reflexivity.
Defined.

(** The text of that line: the event names its own logger (number 0 here). *)
Example Logger_log_console_text :
  console_line (fun _ _ => str "NOW") sample_world LogLevel_WARN sample_event 0 =
  [Console (str "NOW" ++ [9] ++ str "main.cc:12" ++ [9] ++ str "[WARN]" ++ [9] ++ str "root" ++ [9] ++
            str "7(worker)" ++ [9] ++ str "3" ++ [9] ++ str "hi" ++ [10])].
Proof. vm_compute. reflexivity. Qed.

(** ** Formatters *)

(** What [Logger::setFormatter] leaves in an attached appender. *)
Definition refreshed (x : LogAppender) (f : LogFormatter) : LogAppender :=
  if ap_hasFormatter x then x else put_formatter x (Some f).

Lemma refresh_formatters_spec f : forall l w,
  Forall (fun a => is_Some (appenders w !! a)) l ->
  exists w', refresh_formatters w l (Some f) = Ok w' /\ loggers w' = loggers w /\
    m_loggers w' = m_loggers w /\ mgr_root w' = mgr_root w /\ trace w' = trace w /\
    forall a, appenders w' !! a = (if bool_decide (a ∈ l) then fun x => refreshed x f else id) <$> appenders w !! a.
Proof.
  induction l as [|a l IH]; intros w Hl; cbn [refresh_formatters].
  - exists w. split_and!; try done. intros a. rewrite bool_decide_eq_false_2 by set_solver. by destruct (_ !! a).
  - apply Forall_cons_1 in Hl as [[x Ha] Hl]. rewrite Ha. cbn [deref].
    set (w1 := if negb (ap_hasFormatter x) then _ else w).
    assert (H1 : loggers w1 = loggers w /\ m_loggers w1 = m_loggers w /\ mgr_root w1 = mgr_root w /\ trace w1 = trace w)
      by (unfold w1; destruct (ap_hasFormatter x); done).
    assert (Hw1 : forall b, appenders w1 !! b = (if decide (b = a) then fun x => refreshed x f else id) <$> appenders w !! b).
    { intros b. unfold w1. destruct (decide (b = a)) as [->|Hne].
      - rewrite Ha. unfold refreshed. cbn. destruct (ap_hasFormatter x) eqn:E; cbn; rewrite ?E; [done|].
        apply list_lookup_insert_eq. by eapply lookup_lt_Some.
      - destruct (ap_hasFormatter x); cbn; [|rewrite list_lookup_insert_ne by done]; by destruct (_ !! b). }
    destruct (IH w1) as (w' & -> & ? & ? & ? & ? & Hw').
    { eapply Forall_impl; [exact Hl|]. intros b [y Hb]. rewrite Hw1, Hb. by destruct (decide (b = a)). }
    exists w'. destruct H1 as (? & ? & ? & ?). split_and!; try congruence. intros b. rewrite Hw', Hw1.
    destruct (appenders w !! b) as [y|]; [|by destruct (decide (b = a)), (bool_decide (b ∈ l)), (bool_decide (b ∈ a :: l))].
    destruct (decide (b = a)) as [->|Hne].
    + rewrite (bool_decide_eq_true_2 (a ∈ a :: l)) by set_solver. cbn.
      destruct (bool_decide (a ∈ l)); [|done]. unfold refreshed. destruct (ap_hasFormatter y) eqn:E; cbn; by rewrite E.
    + cbn. assert (bool_decide (b ∈ a :: l) = bool_decide (b ∈ l)) as -> by (apply bool_decide_ext; set_solver). done.
Qed.

(** [Logger::setFormatter] reaches exactly the appenders that have no formatter of
    their own.  In every reachable state it returns, sets the logger's formatter, gives
    it to each appender of the logger that did not get one by its own [setFormatter]
    (shared appenders change for every logger that holds them), and changes no other
    appender, no other logger and nothing on the console. *)
Lemma Logger_setFormatter_spec can_open time_text w l self f :
  rtc (log_step can_open time_text) initial_world w -> loggers w !! l = Some self ->
  exists w', Logger_setFormatter w l (Some f) = Ok w' /\ trace w' = trace w /\
    loggers w' = <[l := {| lg_name := lg_name self; lg_level := lg_level self;
                           lg_appenders := lg_appenders self; lg_formatter := Some f;
                           lg_root := lg_root self |}]> (loggers w) /\
    (forall a x, appenders w !! a = Some x ->
       appenders w' !! a = Some (if bool_decide (a ∈ lg_appenders self) then refreshed x f else x)).
Proof.
  intros Hw Hl. apply reachable_wf in Hw. unfold Logger_setFormatter. rewrite Hl. cbn [deref].
  destruct (refresh_formatters_spec f (lg_appenders self)
              (set_logger w l {| lg_name := lg_name self; lg_level := lg_level self;
                           lg_appenders := lg_appenders self; lg_formatter := Some f;
                           lg_root := lg_root self |})) as (w' & -> & ? & ? & ? & ? & Ha).
  { eapply Forall_impl; [exact (ok_appenders _ _ (wf_logger w l self Hw Hl))|].
    intros a (x & Hx & _). by exists x. }
  exists w'. split_and!; try done. intros a x Hx. rewrite Ha. cbn. rewrite Hx. cbn.
  by destruct (bool_decide (a ∈ lg_appenders self)).
Qed.

Lemma Logger_setFormatter_spec_witness :
  exists w', Logger_setFormatter sample_world 0 (Some (LogFormatter_new (str "%m%n"))) = Ok w' /\
    appenders w' !! 0%nat = Some (refreshed {| ap_kind := StdoutLogAppender; ap_level := 1; ap_hasFormatter := false;
       ap_formatter := Some (LogFormatter_new default_pattern) |} (LogFormatter_new (str "%m%n"))).
Proof.
  destruct (Logger_setFormatter_spec (fun _ => true) (fun _ _ => []) sample_world 0
    {| lg_name := str "root"; lg_level := 1; lg_appenders := [0%nat];
       lg_formatter := Some (LogFormatter_new default_pattern); lg_root := None |}
    (LogFormatter_new (str "%m%n"))) as (w' & E & _ & _ & Ha).
  - apply rtc_once, step_getLogger.
  - reflexivity.
  - exists w'. split; [exact E|]. apply (Ha 0%nat). reflexivity.
Defined.

(** A formatter string that does not parse changes nothing but the console. *)
Lemma Logger_setFormatter_str_invalid w l v self :
  loggers w !! l = Some self -> m_error (LogFormatter_new v) = true ->
  exists msg, Logger_setFormatter_str w l v = Ok (emit w [Console msg]).
Proof. intros Hl Hv. unfold Logger_setFormatter_str. rewrite Hl, Hv. cbn [deref]. eauto. Qed.

(** ** The registry of loggers *)

(** [LoggerManager::getLogger] is a registry.  In every reachable state, the number
    it returns for a name is the one every later call returns, with no further change;
    the logger has that name; other names keep their loggers; and a logger made by the
    call is a new object, with no appenders, that falls back on the root. *)
Lemma LoggerManager_getLogger_spec can_open time_text w name :
  rtc (log_step can_open time_text) initial_world w ->
  let '(l, w') := LoggerManager_getLogger w name in
  LoggerManager_getLogger w' name = (l, w') /\ names_of w' l = name /\
  (forall n k, loggers_find (m_loggers w) n = Some k -> loggers_find (m_loggers w') n = Some k) /\
  (forall k x, loggers w !! k = Some x -> loggers w' !! k = Some x) /\
  match loggers_find (m_loggers w) name with
  | Some k => k = l /\ w' = w
  | None => l = length (loggers w) /\ lg_appenders <$> loggers w' !! l = Some [] /\
            lg_root <$> loggers w' !! l = Some (Some (LoggerManager_getRoot w'))
  end.
Proof.
  intros Hw. apply reachable_wf in Hw. unfold LoggerManager_getLogger.
  destruct (loggers_find (m_loggers w) name) as [l|] eqn:E.
  - rewrite E. destruct (wf_names w Hw name l E) as (x & Hx & Hn).
    unfold names_of. rewrite Hx. split_and!; done.
  - unfold alloc_logger. cbn [m_loggers register].
    rewrite loggers_find_set, (bool_decide_eq_true_2 (name = name)) by done.
    assert (Hnew : forall x : Logger, (loggers w ++ [x]) !! length (loggers w) = Some x)
      by (intros x; by rewrite lookup_app_r, Nat.sub_diag).
    unfold names_of. cbn [loggers register]. rewrite Hnew. cbn. split_and!; try done.
    + intros n k Hf. rewrite loggers_find_set. case_bool_decide; [congruence|done].
    + intros k x Hx. by apply lookup_app_l_Some.
Qed.

Lemma LoggerManager_getLogger_spec_witness :
  let '(l, w') := LoggerManager_getLogger initial_world (str "system") in
  LoggerManager_getLogger w' (str "system") = (l, w').
Proof.
  exact (proj1 (LoggerManager_getLogger_spec (fun _ => true) (fun _ _ => []) initial_world (str "system")
                  (rtc_refl _ _))).
Defined.

(** ** File appenders stop writing *)

(** The stream of a file appender after the first reopening: [m_filename] is empty, so
    [open] fails and the stream is closed and bad. *)
Definition dead_file (x : LogAppender) : Prop :=
  exists last, ap_kind x = FileLogAppender [] {| os_file := None; os_good := false |} last.

Section file.
Context (can_open : bytes -> bool) (time_text : Z -> bytes -> bytes).
(** [open("")] fails. *)
Hypothesis open_empty : can_open [] = false.

Lemma dead_file_log w a x level event w' :
  appenders w !! a = Some x -> dead_file x ->
  LogAppender_log can_open time_text w a level event = Ok w' ->
  (exists y, appenders w' !! a = Some y /\ dead_file y) /\
  (trace w' = trace w \/ trace w' = trace w ++ [Console (str "error" ++ [10])]).
Proof.
  intros Ha [last Hk]. pose proof (lookup_lt_Some _ _ _ Ha). unfold LogAppender_log. rewrite Ha. cbn [deref]. rewrite Hk.
  unfold FileLogAppender_log, FileLogAppender_reopen, ofstream_open, open_event. cbn. rewrite open_empty.
  destruct (ap_level x <=? level); [|intros [= <-]; split; [exists x; split; [done|by exists last]|by left]].
  destruct (u64 (last + 3) <=? m_time event), (ap_formatter x) as [f|]; cbn; try done; intros [= <-]; cbn;
    (split; [eexists; split; [apply list_lookup_insert_eq; done|eexists; reflexivity]|right; by rewrite ?app_nil_r]).
Qed.

(** The first event later than second 2 of the clock closes the file of a fresh
    appender for good and is not written. *)
Lemma fresh_file_log w a x filename level event w' :
  appenders w !! a = Some x -> can_open filename = true ->
  ap_kind x = ap_kind (FileLogAppender_new can_open filename).1 ->
  ap_level x <= level -> 3 <= m_time event ->
  LogAppender_log can_open time_text w a level event = Ok w' ->
  (exists y, appenders w' !! a = Some y /\ dead_file y) /\
  trace w' = trace w ++ [Console (str "error" ++ [10])].
Proof.
  intros Ha Hopen Hk Hl Ht. pose proof (lookup_lt_Some _ _ _ Ha). unfold LogAppender_log. rewrite Ha. cbn [deref].
  rewrite Hk. cbn. unfold ofstream_open. cbn. rewrite Hopen. cbn.
  unfold FileLogAppender_log, FileLogAppender_reopen, ofstream_open, open_event. cbn. rewrite open_empty.
  rewrite (proj2 (Z.leb_le _ _)) by done.
  change (u64 (0 + 3)) with 3. rewrite (proj2 (Z.leb_le _ _)) by done.
  destruct (ap_formatter x) as [f|]; cbn; [|done]. intros [= <-]. cbn.
  split; [eexists; split; [apply list_lookup_insert_eq; done|eexists; reflexivity]|by rewrite ?app_nil_r].
Qed.

(** Events logged one after the other through one appender. *)
Fixpoint log_all (w : World) (a : nat) (es : list (Z * LogEvent)) : outcome World :=
  match es with
  | [] => Ok w
  | (level, e) :: es => let! w := LogAppender_log can_open time_text w a level e in log_all w a es
  end.

Lemma dead_file_log_all : forall es w a x w',
  appenders w !! a = Some x -> dead_file x -> log_all w a es = Ok w' ->
  exists n, trace w' = trace w ++ replicate n (Console (str "error" ++ [10])).
Proof.
  induction es as [|[level e] es IH]; intros w a x w' Ha Hd Hop; cbn [log_all] in Hop.
  - injection Hop as <-. exists 0%nat. by rewrite app_nil_r.
  - destruct (LogAppender_log can_open time_text w a level e) as [w1| | | |] eqn:E; try done.
    cbn [obind] in Hop. destruct (dead_file_log w a x level e w1 Ha Hd E) as [(y & Hy & Hdy) Ht].
    destruct (IH w1 a y w' Hy Hdy Hop) as [n Hn].
    destruct Ht as [Ht|Ht]; rewrite Ht in Hn; [by exists n|].
    exists (S n). by rewrite Hn, <- app_assoc.
Qed.

(** A [FileLogAppender] writes nothing to its file: every event it admits, from the
    first one on, prints "error" on the console instead (the clock of real events is
    far beyond 3 seconds).  [FileLogAppender::FileLogAppender] does not store the
    path in [m_filename], which [reopen] opens. *)
Lemma FileLogAppender_never_writes w a x filename level event es w' :
  appenders w !! a = Some x -> can_open filename = true ->
  ap_kind x = ap_kind (FileLogAppender_new can_open filename).1 ->
  ap_level x <= level -> 3 <= m_time event ->
  log_all w a ((level, event) :: es) = Ok w' ->
  exists n, trace w' = trace w ++ replicate n (Console (str "error" ++ [10])).
Proof.
  intros Ha Ho Hk Hl Ht Hop. cbn [log_all] in Hop.
  destruct (LogAppender_log can_open time_text w a level event) as [w1| | | |] eqn:E; try done.
  cbn [obind] in Hop.
  destruct (fresh_file_log w a x filename level event w1 Ha Ho Hk Hl Ht E) as [(y & Hy & Hd) Htr].
  destruct (dead_file_log_all es w1 a y w' Hy Hd Hop) as [n Hn].
  exists (S n). by rewrite Hn, Htr, <- app_assoc.
Qed.
End file.
