(* ===== verification/LexicalCast.v ===== *)
(** * YAML nodes and the conversions of [config.h]

    [LexicalCast<std::string, T>] and [LexicalCast<T, std::string>] as a type class:
    [boost::lexical_cast] gives the base instances, the containers are the instances
    the header defines by recursion over their elements, through YAML text.  The
    theorem is the round trip for containers of containers of any depth, over what
    yaml-cpp guarantees ([YamlLaws]) and over an element type whose own text reads
    back. *)

From S2P Require Import Prelude Text.
From Stdlib Require Import ZArith Lia List String.
From stdpp Require Import base tactics list numbers option gmap sorting.

Open Scope Z_scope.
Open Scope list_scope.

(** ** YAML *)

(** The documented data model of YAML nodes. *)
Inductive yaml :=
| YNull
| YScalar (s : bytes)
| YSeq (l : list yaml)
| YMap (l : list (yaml * yaml)).

Lemma yaml_nested_ind (P : yaml -> Prop) :
  P YNull -> (forall s, P (YScalar s)) -> (forall l, Forall P l -> P (YSeq l)) ->
  (forall l, Forall (fun kv => P (fst kv) /\ P (snd kv)) l -> P (YMap l)) -> forall n, P n.
Proof.
  intros H0 H1 H2 H3. fix IH 1. intros [|s|l|l]; [done|done|apply H2|apply H3].
  - induction l as [|x l IHl]; constructor; [apply IH|apply IHl].
  - induction l as [|[k v] l IHl]; constructor; [split; apply IH|apply IHl].
Qed.

(** [node.Scalar()], [IsScalar()], [IsMap()]. *)
Definition yaml_Scalar (n : yaml) : bytes := match n with YScalar s => s | _ => [] end.
Definition yaml_IsScalar (n : yaml) : bool := match n with YScalar _ => true | _ => false end.
Definition yaml_IsMap (n : yaml) : bool := match n with YMap _ => true | _ => false end.

(** The functions of yaml-cpp the code calls: [YAML::Load] ([None] when it throws),
    [ss << node], and [ss << node[i]] for a map node (a lookup of the key [i]). *)
Class Yaml := {
  Load : bytes -> option yaml;
  yaml_emit : yaml -> bytes;
  map_index : list (yaml * yaml) -> nat -> bytes
}.

(** A scalar that is read as the null node. *)
Definition null_text (s : bytes) : bool :=
  bool_decide (s = str "~") || bool_decide (s = str "null") || bool_decide (s = str "Null") || bool_decide (s = str "NULL").

(** The scalars relied on to survive in a node: printable ASCII, no null. *)
Definition scalar_ok (s : bytes) : bool :=
  forallb (fun c => (32 <=? c) && (c <=? 126)) s && negb (null_text s).

Definition alnum (c : Z) : bool :=
  ((48 <=? c) && (c <=? 57)) || ((65 <=? c) && (c <=? 90)) || ((97 <=? c) && (c <=? 122)).
Definition plain_char (c : Z) : bool :=
  alnum c || (c =? chr "_") || (c =? chr ".") || (c =? chr "-") || (c =? chr "/").

(** Texts that are YAML plain scalars as they stand: words, numbers and paths of
    letters, digits, '_', '.', '-' and '/', with a letter or a digit in front, after an
    optional '-'. *)
Definition plain (s : bytes) : bool :=
  match s with
  | [] => false
  | c :: r =>
      (if c =? chr "-" then match r with d :: _ => alnum d | [] => false end else alnum c) && forallb plain_char r
  end && negb (null_text s).

(** Nodes whose scalars are such and whose maps have different scalar keys. *)
Fixpoint writable (n : yaml) : bool :=
  match n with
  | YNull => true
  | YScalar s => scalar_ok s
  | YSeq l => forallb writable l
  | YMap l =>
      bool_decide (NoDup (map (fun kv => yaml_Scalar (fst kv)) l)) &&
      forallb (fun kv => yaml_IsScalar (fst kv) && scalar_ok (yaml_Scalar (fst kv)) && writable (snd kv)) l
  end.

(** What the conversions rely on: a node with printable scalars and without duplicate
    keys reads back as it was written; a plain text is a scalar, and written as it is. *)
Class YamlLaws (Y : Yaml) : Prop := {
  Load_emit : forall n, writable n = true -> Load (yaml_emit n) = Some n;
  Load_plain : forall s, plain s = true -> Load s = Some (YScalar s);
  emit_plain : forall s, plain s = true -> yaml_emit (YScalar s) = s
}.

(** The texts [ss << node[i]] for [i] below [node.size()]. *)
Definition node_texts `{Yaml} (n : yaml) : list bytes :=
  match n with
  | YSeq l => map yaml_emit l
  | YMap l => map (map_index l) (seq 0 (length l))
  | _ => []
  end.

(** A node after [push_back] of each element of a list: a fresh node is null. *)
Definition push_back_all (l : list yaml) : yaml := match l with [] => YNull | _ => YSeq l end.

(** ** The class *)

(** [None] stands for an exception. *)
(** @src config.h:62-65 LexicalCast *)
Class LexicalCast (T : Type) := {
  from_str : bytes -> option T;
  to_str : T -> option bytes
}.

(** Conversions that lose nothing: the text of a value reads back, directly and when
    it has gone through a YAML node, as it does inside a container. *)
Class LexicalCastLaws (T : Type) `{Yaml} `{LexicalCast T} (valid : T -> Prop) : Prop := {
  cast_round : forall v, valid v -> exists s n,
    to_str v = Some s /\ from_str s = Some v /\ Load s = Some n /\ writable n = true /\
    from_str (yaml_emit n) = Some v
}.

(** Every element in turn; an exception ends the loop. *)
Fixpoint mapM_opt {A B} (f : A -> option B) (l : list A) : option (list B) :=
  match l with
  | [] => Some []
  | x :: l => match f x with
              | None => None
              | Some y => match mapM_opt f l with None => None | Some ys => Some (y :: ys) end
              end
  end.

(** [YAML::Load(LexicalCast<T, std::string>()(i))]. *)
Definition to_node `{Yaml} `{LexicalCast T} (v : T) : option yaml :=
  match to_str v with Some s => Load s | None => None end.

(** ** Containers *)

Section containers.
Context `{Yaml} {T : Type} `{LexicalCast T}.

(** @src config.h:71-81 LexicalCast<std::string, std::vector<T>> *)
Definition vector_from_str (v : bytes) : option (list T) :=
  match Load v with
  | None => None
  | Some node => mapM_opt from_str (node_texts node)
  end.

(** @src config.h:86-94 LexicalCast<std::vector<T>, std::string> *)
Definition vector_to_str (v : list T) : option bytes :=
  match mapM_opt to_node v with
  | None => None
  | Some l => Some (yaml_emit (push_back_all l))
  end.

(** @src config.h:100-110 LexicalCast<std::string, std::list<T>> *)
Definition list_from_str (v : bytes) : option (list T) :=
  match Load v with
  | None => None
  | Some node => mapM_opt from_str (node_texts node)
  end.

(** @src config.h:115-123 LexicalCast<std::list<T>, std::string> *)
Definition list_to_str (v : list T) : option bytes :=
  match mapM_opt to_node v with
  | None => None
  | Some l => Some (yaml_emit (push_back_all l))
  end.

(** [std::set<T>] with its order [lt]: the elements in order; [insert] keeps an
    element that is equivalent to the new one. *)
Context (lt : T -> T -> bool).

Fixpoint set_insert (x : T) (l : list T) : list T :=
  match l with
  | [] => [x]
  | y :: l' => if lt x y then x :: l else if lt y x then y :: set_insert x l' else l
  end.

Fixpoint set_find (x : T) (l : list T) : option T :=
  match l with
  | [] => None
  | y :: l => if negb (lt x y) && negb (lt y x) then Some y else set_find x l
  end.

(** @src config.h:129-139 LexicalCast<std::string, std::set<T>> *)
Definition set_from_str (v : bytes) : option (list T) :=
  match Load v with
  | None => None
  | Some node => match mapM_opt from_str (node_texts node) with
                 | None => None
                 | Some l => Some (fold_left (fun s x => set_insert x s) l [])
                 end
  end.

(** @src config.h:144-152 LexicalCast<std::set<T>, std::string> *)
Definition set_to_str (v : list T) : option bytes :=
  match mapM_opt to_node v with
  | None => None
  | Some l => Some (yaml_emit (push_back_all l))
  end.

(** [std::unordered_set<T>]: a set, with the order [iter] in which it is walked. *)
Context `{Countable T} (iter : gset T -> list T).

(** @src config.h:158-168 LexicalCast<std::string, std::unordered_set<T>> *)
Definition unordered_set_from_str (v : bytes) : option (gset T) :=
  match Load v with
  | None => None
  | Some node => match mapM_opt from_str (node_texts node) with
                 | None => None
                 | Some l => Some (fold_left (fun s x => {[x]} ∪ s) l ∅)
                 end
  end.

(** @src config.h:173-181 LexicalCast<std::unordered_set<T>, std::string> *)
Definition unordered_set_to_str (v : gset T) : option bytes :=
  match mapM_opt to_node (iter v) with
  | None => None
  | Some l => Some (yaml_emit (push_back_all l))
  end.
End containers.

Section maps.
Context `{Yaml} {T : Type} `{LexicalCast T}.

(** The pairs a node is walked by: those of a map, with the texts of their values.  The
    element of a sequence has no first and no second, and its [Scalar()] throws. *)
Definition node_pairs (n : yaml) : option (list (bytes * bytes)) :=
  match n with
  | YMap l => Some (map (fun kv => (yaml_Scalar (fst kv), yaml_emit (snd kv))) l)
  | YSeq (_ :: _) => None
  | _ => Some []
  end.

Definition cast_pair (kv : bytes * bytes) : option (bytes * T) :=
  match from_str (snd kv) with Some x => Some (fst kv, x) | None => None end.

Definition pair_node (kv : bytes * T) : option (yaml * yaml) :=
  match to_node (snd kv) with Some n => Some (YScalar (fst kv), n) | None => None end.

(** [vec.insert(make_pair(k, v))] keeps the entry a key has. *)
Definition map_insert_new (m : gmap bytes T) (kv : bytes * T) : gmap bytes T :=
  match m !! fst kv with Some _ => m | None => <[fst kv := snd kv]> m end.

(** [std::map<std::string, T>] and [std::unordered_map<std::string, T>]: a map, with
    the order [iter] in which it is walked (that of the keys for [std::map]). *)
Context (iter : gmap bytes T -> list (bytes * T)).

(** @src config.h:187-198 LexicalCast<std::string, std::map<std::string, T>> *)
Definition map_from_str (v : bytes) : option (gmap bytes T) :=
  match Load v with
  | None => None
  | Some node =>
      match node_pairs node with
      | None => None
      | Some pairs => match mapM_opt cast_pair pairs with
                      | None => None
                      | Some l => Some (fold_left map_insert_new l ∅)
                      end
      end
  end.

(** [node[k] = v] for keys that are all different. *)
(** @src config.h:203-211 LexicalCast<std::map<std::string, T>, std::string> *)
Definition map_to_str (v : gmap bytes T) : option bytes :=
  match mapM_opt pair_node (iter v) with
  | None => None
  | Some l => Some (yaml_emit (YMap l))
  end.

(** @src config.h:218-229 LexicalCast<std::string, std::unordered_map<std::string, T>> *)
Definition unordered_map_from_str (v : bytes) : option (gmap bytes T) := map_from_str v.

(** @src config.h:235-243 LexicalCast<std::unordered_map<std::string, T>, std::string> *)
Definition unordered_map_to_str (v : gmap bytes T) : option bytes := map_to_str v.
End maps.

#[export] Instance vector_cast `{Yaml} `{LexicalCast T} : LexicalCast (list T) :=
  {| from_str := vector_from_str; to_str := vector_to_str |}.
Definition list_cast `{Yaml} `{LexicalCast T} : LexicalCast (list T) :=
  {| from_str := list_from_str; to_str := list_to_str |}.
Definition set_cast `{Yaml} `{LexicalCast T} (lt : T -> T -> bool) : LexicalCast (list T) :=
  {| from_str := set_from_str lt; to_str := set_to_str |}.
Definition unordered_set_cast `{Yaml} `{LexicalCast T} `{Countable T} (iter : gset T -> list T) :
    LexicalCast (gset T) :=
  {| from_str := unordered_set_from_str; to_str := unordered_set_to_str iter |}.
Definition map_cast `{Yaml} `{LexicalCast T} (iter : gmap bytes T -> list (bytes * T)) :
    LexicalCast (gmap bytes T) :=
  {| from_str := map_from_str; to_str := map_to_str iter |}.
Definition unordered_map_cast `{Yaml} `{LexicalCast T} (iter : gmap bytes T -> list (bytes * T)) :
    LexicalCast (gmap bytes T) :=
  {| from_str := unordered_map_from_str; to_str := unordered_map_to_str iter |}.

(** ** Round trips *)

Section round.
Context `{YamlLaws} {T : Type} `{LexicalCast T} (valid : T -> Prop) `{!LexicalCastLaws T valid}.

(** The elements of a container through their nodes and back. *)
Lemma nodes_round (l : list T) : Forall valid l ->
  exists ns, mapM_opt to_node l = Some ns /\ mapM_opt from_str (map yaml_emit ns) = Some l /\
    writable (push_back_all ns) = true.
Proof.
  intros Hl. enough (exists ns, mapM_opt to_node l = Some ns /\ mapM_opt from_str (map yaml_emit ns) = Some l /\
    forallb writable ns = true) as (ns & ? & ? & ?) by (exists ns; split_and!; [done|done|by destruct ns]).
  induction Hl as [|x l Hx Hl (ns & E1 & E2 & E3)]; [by exists []|].
  destruct (cast_round x Hx) as (s & n & Hs & _ & Hn & Hw & Hr).
  exists (n :: ns). cbn. unfold to_node at 1. by rewrite Hs, Hn, E1, Hr, E2, Hw, E3.
Qed.

Lemma node_texts_push ns : node_texts (push_back_all ns) = map yaml_emit ns.
Proof. by destruct ns. Qed.

(** A container whose text is that of the node of its elements and which is rebuilt
    from the elements of that node. *)
Lemma container_round {C} {CC : LexicalCast C} (elems : C -> list T) (build : list T -> C) (v : C) :
  (forall v, to_str v = match mapM_opt to_node (elems v) with
                        | None => None | Some l => Some (yaml_emit (push_back_all l)) end) ->
  (forall s, from_str s = match Load s with
                          | None => None
                          | Some node => build <$> mapM_opt from_str (node_texts node) end) ->
  Forall valid (elems v) -> build (elems v) = v ->
  exists s n, to_str v = Some s /\ from_str s = Some v /\ Load s = Some n /\ writable n = true /\
    from_str (yaml_emit n) = Some v.
Proof.
  intros Hto Hfrom Hv Hb. destruct (nodes_round _ Hv) as (ns & E1 & E2 & Hw).
  assert (Hr : from_str (yaml_emit (push_back_all ns)) = Some v).
  { rewrite Hfrom, Load_emit, node_texts_push, E2 by done. cbn. by rewrite Hb. }
  exists (yaml_emit (push_back_all ns)), (push_back_all ns). split_and!; try done.
  - by rewrite Hto, E1.
  - by apply Load_emit.
Qed.

#[export] Instance vector_laws : LexicalCastLaws (list T) (Forall valid).
Proof.
  split. intros v Hv. apply (container_round id id); [done| |done|done].
  intros s. cbn. unfold vector_from_str. destruct (Load s); [|done]. by destruct (mapM_opt _ _).
Qed.

Lemma list_laws : @LexicalCastLaws (list T) _ list_cast (Forall valid).
Proof.
  split. intros v Hv. apply (container_round (CC := list_cast) id id); [done| |done|done].
  intros s. cbn. unfold list_from_str. destruct (Load s); [|done]. by destruct (mapM_opt _ _).
Qed.

(** *** Ordered sets *)

Section ordered.
Context (lt : T -> T -> bool) (lt_asym : forall x y, lt x y = true -> lt y x = false).

Lemma set_insert_last x l : Forall (fun y => lt y x = true) l -> set_insert lt x l = l ++ [x].
Proof.
  induction 1 as [|y l Hy Hl IH]; cbn; [done|]. by rewrite (lt_asym y x Hy), Hy, IH.
Qed.

Lemma set_build_sorted l : forall acc,
  StronglySorted (fun x y => lt x y = true) (acc ++ l) ->
  fold_left (fun s x => set_insert lt x s) l acc = acc ++ l.
Proof.
  induction l as [|x l IH]; cbn; intros acc Hs; [by rewrite app_nil_r|].
  rewrite set_insert_last.
  - rewrite IH by (rewrite <- app_assoc; done). by rewrite <- app_assoc.
  - clear IH. induction acc as [|y acc IH]; [constructor|]. inversion Hs as [|? ? Hs' Hy]; subst.
    apply Forall_app in Hy as [_ Hy]. apply Forall_cons_1 in Hy as [Hy _]. constructor; [done|auto].
Qed.

Lemma set_laws :
  @LexicalCastLaws (list T) _ (set_cast lt)
    (fun l => StronglySorted (fun x y => lt x y = true) l /\ Forall valid l).
Proof.
  split. intros v [Hs Hv].
  apply (container_round (CC := set_cast lt) id (fun l => fold_left (fun s x => set_insert lt x s) l []));
    [done| |done|by apply (set_build_sorted v [])].
  intros s. cbn. unfold set_from_str. destruct (Load s); [|done]. by destruct (mapM_opt _ _).
Qed.
End ordered.

(** *** Hash sets *)

Section hashed.
Context `{Countable T} (iter : gset T -> list T) (iter_elements : forall s, iter s ≡ₚ elements s).

Lemma uset_build (l : list T) : forall acc : gset T,
  fold_left (fun s x => {[x]} ∪ s) l acc = list_to_set l ∪ acc.
Proof. induction l as [|x l IH]; cbn; intros acc; [set_solver|]. rewrite IH. set_solver. Qed.

Lemma unordered_set_laws :
  @LexicalCastLaws (gset T) _ (unordered_set_cast iter) (fun s => Forall valid (elements s)).
Proof.
  split. intros v Hv.
  apply (container_round (CC := unordered_set_cast iter) iter
           (fun l => fold_left (fun s x => {[x]} ∪ s) l ∅)); [done| | |].
  - intros s. cbn. unfold unordered_set_from_str. destruct (Load s); [|done]. by destruct (mapM_opt _ _).
  - by rewrite (iter_elements v).
  - rewrite uset_build, (iter_elements v). rewrite list_to_set_elements_L. set_solver.
Qed.
End hashed.

(** *** Maps *)

Section maps_round.
Context (iter : gmap bytes T -> list (bytes * T)) (iter_map : forall m, iter m ≡ₚ map_to_list m).

Lemma pairs_round (l : list (bytes * T)) :
  NoDup l.*1 -> Forall (fun kv => scalar_ok (fst kv) = true /\ valid (snd kv)) l ->
  exists ns, mapM_opt pair_node l = Some ns /\
    mapM_opt cast_pair (map (fun kv => (yaml_Scalar (fst kv), yaml_emit (snd kv))) ns) = Some l /\
    writable (YMap ns) = true.
Proof.
  intros Hnd Hl. enough (exists ns, mapM_opt pair_node l = Some ns /\
    mapM_opt cast_pair (map (fun kv => (yaml_Scalar (fst kv), yaml_emit (snd kv))) ns) = Some l /\
    map (fun kv => yaml_Scalar (fst kv)) ns = l.*1 /\
    forallb (fun kv => yaml_IsScalar (fst kv) && scalar_ok (yaml_Scalar (fst kv)) && writable (snd kv)) ns = true)
    as (ns & ? & ? & E & Hw) by (exists ns; split_and!; [done|done|];
      cbn [writable]; rewrite E, bool_decide_eq_true_2 by done; exact Hw).
  clear Hnd. induction Hl as [|[k x] l [Hk Hx] Hl (ns & E1 & E2 & E3 & E4)]; [by exists []|].
  destruct (cast_round x Hx) as (s & n & Hs & _ & Hn & Hw & Hr). cbn [fst snd] in *.
  exists ((YScalar k, n) :: ns). cbn [mapM_opt map forallb fmap list_fmap fst snd yaml_Scalar yaml_IsScalar].
  unfold pair_node at 1, cast_pair at 1, to_node. cbn [fst snd]. rewrite Hs, Hn, E1, Hr, E2, E3, Hk, Hw, E4. done.
Qed.

Lemma map_build (l : list (bytes * T)) : forall m : gmap bytes T,
  NoDup l.*1 -> (forall k, k ∈ l.*1 -> m !! k = None) ->
  fold_left map_insert_new l m = list_to_map l ∪ m.
Proof.
  induction l as [|[k x] l IH]; cbn; intros m Hnd Hm; [by rewrite map_empty_union|].
  apply NoDup_cons in Hnd as [Hk Hnd]. unfold map_insert_new at 2. cbn.
  rewrite (Hm k) by set_solver. rewrite IH; [|done|].
  - rewrite <- insert_union_r; [by rewrite insert_union_l|]. by apply not_elem_of_list_to_map_1.
  - intros j Hj. rewrite lookup_insert_ne by set_solver. apply Hm. set_solver.
Qed.

Lemma map_laws :
  @LexicalCastLaws (gmap bytes T) _ (map_cast iter) (fun m => map_Forall (fun k x => scalar_ok k = true /\ valid x) m).
Proof.
  split. intros m Hm.
  assert (Hv : Forall (fun kv => scalar_ok (fst kv) = true /\ valid (snd kv)) (iter m)).
  { rewrite (iter_map m). apply map_Forall_to_list in Hm. eapply Forall_impl; [exact Hm|]. by intros [k x]. }
  assert (Hnd : NoDup (iter m).*1) by (rewrite (iter_map m); apply NoDup_fst_map_to_list).
  destruct (pairs_round _ Hnd Hv) as (ns & E1 & E2 & Hw).
  assert (Hr : map_from_str (yaml_emit (YMap ns)) = Some m).
  { unfold map_from_str. rewrite Load_emit by done. cbn [node_pairs]. rewrite E2. f_equal.
    rewrite map_build; [|done|done]. rewrite map_union_empty.
    by rewrite (list_to_map_proper _ (map_to_list m)), list_to_map_to_list. }
  exists (yaml_emit (YMap ns)), (YMap ns). split_and!; try done; [|by apply Load_emit].
  cbn. unfold map_to_str. by rewrite E1.
Qed.
End maps_round.
End round.

(** ** Containers of containers *)

(** The types [LexicalCast] converts: an element type with its conversions, and the
    containers of [config.h] over such a type, with what the container itself brings:
    the order of a set, the order in which a hash set or a map is walked. *)
Inductive shape : Type -> Type :=
| SElem {T} (C : LexicalCast T) (valid : T -> Prop) : shape T
| SVector {T} (s : shape T) : shape (list T)
| SList {T} (s : shape T) : shape (list T)
| SSet {T} (lt : T -> T -> bool) (s : shape T) : shape (list T)
| SUnorderedSet {T} {E : EqDecision T} {K : Countable T} (iter : gset T -> list T) (s : shape T) : shape (gset T)
| SMap {T} (iter : gmap bytes T -> list (bytes * T)) (s : shape T) : shape (gmap bytes T)
| SUnorderedMap {T} (iter : gmap bytes T -> list (bytes * T)) (s : shape T) : shape (gmap bytes T).

Section nested.
Context {Y : Yaml} {L : YamlLaws Y}.

(** The conversions the templates are instantiated to. *)
Fixpoint shape_cast {T} (s : shape T) : LexicalCast T :=
  match s with
  | SElem C _ => C
  | SVector s => let _ := shape_cast s in vector_cast
  | SList s => let _ := shape_cast s in list_cast
  | SSet lt s => let _ := shape_cast s in set_cast lt
  | SUnorderedSet iter s => let _ := shape_cast s in unordered_set_cast iter
  | SMap iter s => let _ := shape_cast s in map_cast iter
  | SUnorderedMap iter s => let _ := shape_cast s in unordered_map_cast iter
  end.

(** What is assumed of a type: the conversions of the elements lose no valid value, the
    order of a set is asymmetric, a walk visits every element once. *)
Fixpoint shape_ok {T} (s : shape T) : Prop :=
  match s with
  | SElem C valid => LexicalCastLaws _ valid
  | SVector s | SList s => shape_ok s
  | SSet lt s => (forall x y, lt x y = true -> lt y x = false) /\ shape_ok s
  | SUnorderedSet iter s => (forall m, iter m ≡ₚ elements m) /\ shape_ok s
  | SMap iter s | SUnorderedMap iter s => (forall m, iter m ≡ₚ map_to_list m) /\ shape_ok s
  end.

(** The values: every element valid, a set in its order, the keys of a map printable
    and not the words for null. *)
Fixpoint shape_valid {T} (s : shape T) : T -> Prop :=
  match s with
  | SElem _ valid => valid
  | SVector s | SList s => Forall (shape_valid s)
  | SSet lt s => fun l => StronglySorted (fun x y => lt x y = true) l /\ Forall (shape_valid s) l
  | SUnorderedSet _ s => fun m => Forall (shape_valid s) (elements m)
  | SMap _ s | SUnorderedMap _ s => map_Forall (fun k x => scalar_ok k = true /\ shape_valid s x)
  end.

Lemma shape_laws {T} (s : shape T) : shape_ok s -> @LexicalCastLaws T Y (shape_cast s) (shape_valid s).
Proof.
  induction s as [T C valid|T s IH|T s IH|T lt s IH|T E K iter s IH|T iter s IH|T iter s IH]; cbn; intros Hok.
  - exact Hok.
  - apply @vector_laws; auto.
  - apply @list_laws; auto.
  - destruct Hok. apply @set_laws; auto.
  - destruct Hok. apply @unordered_set_laws; auto.
  - destruct Hok. apply @map_laws; auto.
  - destruct Hok. apply @map_laws; auto.
Qed.
End nested.

(** C35: the conversions of the configuration system round trip.  Take any type built
    from an element type with vectors, lists, sets, hash sets and string-keyed maps and
    hash maps, nested to any depth, and any value of it: the YAML text [LexicalCast]
    writes for it reads back as that value, in whatever order hash containers are
    walked.  The conditions: every element survives its own conversions (its text reads
    back, directly and through a YAML node, which an empty string, a text of several
    lines or one with YAML syntax in it does not), a set is in the order of its [<],
    map keys are printable ASCII and not a word for null; and yaml-cpp reads back the
    nodes it writes when their scalars are such and no map has a key twice. *)
Theorem LexicalCast_containers_roundtrip {Y : Yaml} {L : YamlLaws Y} {T} (s : shape T) (v : T) :
  shape_ok s -> shape_valid s v ->
  exists text, @to_str T (shape_cast s) v = Some text /\ @from_str T (shape_cast s) text = Some v.
Proof.
  intros Hok Hv. destruct (@cast_round _ _ _ _ (shape_laws s Hok) v Hv) as (t & n & ? & ? & _). eauto.
Qed.

(** *** Elements that survive: strings that are plain scalars *)

(** [boost::lexical_cast<std::string>] of a string copies it. *)
Definition string_cast : LexicalCast bytes := {| from_str s := Some s; to_str v := Some v |}.

Lemma plain_scalar_ok s : plain s = true -> scalar_ok s = true.
Proof.
  unfold plain, scalar_ok. rewrite !andb_true_iff. intros [Hs ->]. split; [|done].
  assert (Ha : forall c, alnum c = true -> (32 <=? c) && (c <=? 126) = true).
  { intros c. unfold alnum. rewrite !orb_true_iff, !andb_true_iff, !Z.leb_le. lia. }
  assert (Hp : forall c, plain_char c = true -> (32 <=? c) && (c <=? 126) = true).
  { intros c. unfold plain_char. rewrite !orb_true_iff, !Z.eqb_eq.
    intros [[[[H| ->]| ->]| ->]| ->]; [by apply Ha|reflexivity..]. }
  destruct s as [|c r]; [done|]. apply andb_true_iff in Hs as [Hc Hr]. cbn [forallb]. apply andb_true_iff. split.
  - destruct (Z.eqb_spec c (chr "-")) as [->|]; [done|by apply Ha].
  - rewrite forallb_forall in Hr |- *. auto.
Qed.

Lemma string_cast_laws {Y : Yaml} {L : YamlLaws Y} : @LexicalCastLaws bytes Y string_cast (fun s => plain s = true).
Proof.
  split. intros v Hv. exists v, (YScalar v). split_and!; [done..| |by apply plain_scalar_ok|].
  - by apply Load_plain.
  - cbn [from_str string_cast]. by rewrite emit_plain.
Qed.

(** ** An instance of the laws *)

(** A serialisation of nodes, to show that the laws can hold. *)
Fixpoint yaml_tree (n : yaml) : gen_tree bytes :=
  match n with
  | YNull => GenNode 0 []
  | YScalar s => GenLeaf s
  | YSeq l => GenNode 1 (map yaml_tree l)
  | YMap l => GenNode 2 (map (fun kv => GenNode 3 [yaml_tree (fst kv); yaml_tree (snd kv)]) l)
  end.

Fixpoint tree_yaml (t : gen_tree bytes) : yaml :=
  match t with
  | GenLeaf s => YScalar s
  | GenNode 1 l => YSeq (map tree_yaml l)
  | GenNode 2 l => YMap (map (fun t => match t with
                                       | GenNode _ [k; v] => (tree_yaml k, tree_yaml v)
                                       | _ => (YNull, YNull)
                                       end) l)
  | GenNode _ _ => YNull
  end.

Lemma tree_yaml_tree n : tree_yaml (yaml_tree n) = n.
Proof.
  induction n as [|s|l IH|l IH] using yaml_nested_ind; cbn; [done|done|f_equal|f_equal]; rewrite map_map.
  - induction IH as [|x l Hx _ IHl]; cbn; [done|]. by rewrite Hx, IHl.
  - induction IH as [|[k v] l [Hk Hv] _ IHl]; cbn in *; [done|]. by rewrite Hk, Hv, IHl.
Qed.

(** Plain scalars as they are, every other node as a number after a zero byte. *)
Definition sample_yaml : Yaml := {|
  Load s := if plain s then Some (YScalar s)
            else match s with [0; Z.pos p] => tree_yaml <$> decode p | _ => None end;
  yaml_emit n := if yaml_IsScalar n && plain (yaml_Scalar n) then yaml_Scalar n
                 else [0; Z.pos (encode (yaml_tree n))];
  map_index _ _ := []
|}.

Lemma sample_Load_emit n : @Load sample_yaml (@yaml_emit sample_yaml n) = Some n.
Proof.
  cbn. destruct (yaml_IsScalar n && plain (yaml_Scalar n)) eqn:E.
  - apply andb_true_iff in E as [E1 ->]. by destruct n.
  - change (plain [0; Z.pos (encode (yaml_tree n))]) with false. cbn iota.
    rewrite decode_encode. cbn. by rewrite tree_yaml_tree.
Qed.

Lemma sample_yaml_laws : YamlLaws sample_yaml.
Proof.
  split; [intros n _; apply sample_Load_emit| |]; intros s Hs; cbn; by rewrite Hs.
Qed.

(** Strings as quoted scalars. *)
Definition sample_cast : LexicalCast bytes := {|
  from_str s := match @Load sample_yaml s with Some (YScalar v) => Some v | _ => None end;
  to_str v := Some (@yaml_emit sample_yaml (YScalar v))
|}.

Lemma sample_cast_laws : @LexicalCastLaws bytes sample_yaml sample_cast (fun v => scalar_ok v = true).
Proof.
  split. intros v Hv. exists (@yaml_emit sample_yaml (YScalar v)), (YScalar v).
  pose proof (sample_Load_emit (YScalar v)) as E. cbn -[Load yaml_emit scalar_ok]. rewrite E, Hv. done.
Qed.

Lemma lex_lt_asym a b : lex_lt a b = true -> lex_lt b a = false.
Proof.
  intros H. destruct (lex_lt b a) eqn:E; [|done].
  pose proof (lex_lt_trans _ _ _ H E) as F. by rewrite lex_lt_irrefl in F.
Qed.

(** A map of vectors of sets of strings. *)
Definition sample_shape : shape (gmap bytes (list (list bytes))) :=
  SMap map_to_list (SVector (SSet lex_lt (SElem string_cast (fun s => plain s = true)))).

Definition sample_value : gmap bytes (list (list bytes)) :=
  {[str "k 1" := [[str "a"; str "b"]; []]; str "empty" := []]}.

Lemma LexicalCast_containers_roundtrip_witness :
  exists text, @to_str _ (@shape_cast sample_yaml _ sample_shape) sample_value = Some text /\
               @from_str _ (@shape_cast sample_yaml _ sample_shape) text = Some sample_value.
Proof.
  pose proof sample_yaml_laws as HY.
  apply (@LexicalCast_containers_roundtrip sample_yaml HY _ sample_shape sample_value).
  - split; [intros m; reflexivity|]. split; [exact lex_lt_asym|exact string_cast_laws].
  - assert (H : map_Forall (fun k x => scalar_ok k = true /\
      Forall (fun l => StronglySorted (fun x y => lex_lt x y = true) l /\ Forall (fun s => plain s = true) l) x) sample_value).
    { unfold sample_value. apply map_Forall_insert_2; [|apply map_Forall_singleton].
      - split; [reflexivity|]. repeat constructor.
      - split; [reflexivity|constructor]. }
    exact H.
Defined.
