(* ===== verification/Config.v ===== *)
(** * The configuration registry of [config.h] and [config.cc]

    [ConfigVar<T>] for a family of types, [Config::Lookup] with its dynamic casts,
    [LookupBase], [ListAllMember] and [LoadFromYaml].  A variable is a shared object:
    the registry maps names to variables of a heap, and a pointer a client keeps sees
    every later change.  Listeners are opaque functions that may throw; what is recorded
    is which ones are called, in which order and with which values.  They do not touch
    the registry, and what they throw is a [std::exception].  Log output is left out. *)

From S2P Require Import Prelude Text LexicalCast.
From Stdlib Require Import ZArith Lia List String Eqdep_dec.
From stdpp Require Import base tactics list numbers option gmap relations.

Open Scope Z_scope.
Open Scope list_scope.

(** ** Types of variables *)

(** The types a program instantiates [ConfigVar] at: codes ([typeid]), the type of
    each, its conversions ([FromStr], [ToStr]) and its [operator==]; and for each
    listener the exception a call of it with an old and a new value throws, if any. *)
Class ConfigTypes := {
  ty : Type;
  ty_eq_dec : EqDecision ty;
  interp : ty -> Type;
  ty_cast : forall t, LexicalCast (interp t);
  ty_eqb : forall t, interp t -> interp t -> bool;
  listener_throws : forall t, nat -> interp t -> interp t -> option exn
}.
#[export] Existing Instance ty_eq_dec.
#[export] Existing Instance ty_cast.

Section config.
Context {C : ConfigTypes}.

(** @src config.h:342-347 ConfigVar *)
Record ConfigVar (t : ty) := {
  cv_name : bytes;
  cv_description : bytes;
  m_val : interp t;
  m_cbs : list (Z * nat)
}.
Arguments cv_name {t}.
Arguments cv_description {t}.
Arguments m_val {t}.
Arguments m_cbs {t}.

(** What [ConfigVarBase::ptr] points to: a variable of some type. *)
(** @src config.h:55-57 ConfigVarBase *)
Inductive ConfigVarBase := MkVar (t : ty) (x : ConfigVar t).

(** [getTypeName()]: the code of the type. *)
(** @src config.h:297-297 ConfigVar::getTypeName *)
Definition getTypeName (v : ConfigVarBase) : ty := match v with MkVar t _ => t end.

(** @src config.h:46-46 ConfigVarBase::getName *)
Definition getName (v : ConfigVarBase) : bytes := match v with MkVar _ x => cv_name x end.

(** A call of listener [cb] with the old and the new value. *)
Inductive change := Change (t : ty) (cb : nat) (old new : interp t).

(** The heap of variables, [s_datas], the counter [s_fun_id] of each instantiation of
    [addListener], and the calls of listeners so far. *)
(** @src config.h:409-414 Config::GetDatas *)
Record Registry := {
  vars : list ConfigVarBase;
  s_datas : gmap bytes nat;
  s_fun_id : ty -> Z;
  changes : list change
}.

(** ** One variable *)

(** @src config.h:267-269 ConfigVar::ConfigVar *)
Definition ConfigVar_new (t : ty) (name : bytes) (default_val : interp t) (description : bytes) : ConfigVar t :=
  {| cv_name := map tolower name; cv_description := description; m_val := default_val; m_cbs := [] |}.

(** @src config.h:273-283 ConfigVar::toString *)
Definition ConfigVar_toString {t} (x : ConfigVar t) : bytes := default [] (to_str (m_val x)).

(** The calls of the listeners, in the order of their keys, up to one that throws. *)
(** @src config.h:305-306 ConfigVar::setValue *)
Fixpoint call_listeners {t} (old new : interp t) (l : list (Z * nat)) : option exn * list change :=
  match l with
  | [] => (None, [])
  | (_, cb) :: l =>
      match listener_throws t cb old new with
      | Some e => (Some e, [Change t cb old new])
      | None => let '(e, ch) := call_listeners old new l in (e, Change t cb old new :: ch)
      end
  end.

(** The exception that leaves the function, if any, the variable and the calls made.
    Listeners are called with [m_val] still the old value, which is what it stays when
    one of them throws. *)
(** @src config.h:302-308 ConfigVar::setValue *)
Definition ConfigVar_setValue {t} (x : ConfigVar t) (v : interp t) : option exn * (ConfigVar t * list change) :=
  if ty_eqb t v (m_val x) then (None, (x, []))
  else
    let '(e, ch) := call_listeners (m_val x) v (m_cbs x) in
    match e with
    | Some e => (Some e, (x, ch))
    | None => (None, ({| cv_name := cv_name x; cv_description := cv_description x; m_val := v; m_cbs := m_cbs x |}, ch))
    end.

(** The result is [false] whether the conversion succeeds or throws; what a listener
    throws is swallowed as well. *)
(** @src config.h:285-295 ConfigVar::fromString *)
Definition ConfigVar_fromString {t} (x : ConfigVar t) (val : bytes) : bool * (ConfigVar t * list change) :=
  (false, match from_str val with Some v => snd (ConfigVar_setValue x v) | None => (x, []) end).

(** [m_cbs[key] = cb] of a [std::map]. *)
Fixpoint cbs_set (l : list (Z * nat)) (key : Z) (cb : nat) : list (Z * nat) :=
  match l with
  | [] => [(key, cb)]
  | (k, c) :: l =>
      if k =? key then (k, cb) :: l
      else if key <? k then (key, cb) :: (k, c) :: l else (k, c) :: cbs_set l key cb
  end.

Fixpoint cbs_find (l : list (Z * nat)) (key : Z) : option nat :=
  match l with [] => None | (k, c) :: l => if k =? key then Some c else cbs_find l key end.

Definition put_cbs {t} (x : ConfigVar t) (l : list (Z * nat)) : ConfigVar t :=
  {| cv_name := cv_name x; cv_description := cv_description x; m_val := m_val x; m_cbs := l |}.

(** @src config.h:326-329 ConfigVar::delListener *)
Definition ConfigVar_delListener {t} (x : ConfigVar t) (key : Z) : ConfigVar t :=
  put_cbs x (filter (fun kc => fst kc <> key) (m_cbs x)).

(** @src config.h:331-335 ConfigVar::getListener *)
Definition ConfigVar_getListener {t} (x : ConfigVar t) (key : Z) : option nat := cbs_find (m_cbs x) key.

(** @src config.h:337-340 ConfigVar::clearListener *)
Definition ConfigVar_clearListener {t} (x : ConfigVar t) : ConfigVar t := put_cbs x [].

(** ** The registry *)

Definition put_var (w : Registry) (a : nat) (v : ConfigVarBase) (ch : list change) : Registry :=
  {| vars := <[a := v]> (vars w); s_datas := s_datas w; s_fun_id := s_fun_id w;
     changes := changes w ++ ch |}.

(** [std::dynamic_pointer_cast<ConfigVar<T>>]. *)
Definition dynamic_cast (t : ty) (v : ConfigVarBase) : option (ConfigVar t) :=
  match v with
  | MkVar t' x => match decide (t' = t) with
                   | left e => Some (eq_rect t' ConfigVar x t e)
                   | right _ => None
                   end
  end.

(** An operation on a variable through a typed pointer. *)
Definition with_var {A} (t : ty) (w : Registry) (a : nat) (k : ConfigVar t -> outcome A) : outcome A :=
  deref (vars w !! a) (fun v => deref (dynamic_cast t v) k).

(** @src config.h:318-324 ConfigVar::addListener *)
Definition Config_addListener (t : ty) (w : Registry) (a : nat) (cb : nat) : outcome (Z * Registry) :=
  with_var t w a (fun x =>
  let id := u64 (s_fun_id w t + 1) in
  let w := put_var w a (MkVar t (put_cbs x (cbs_set (m_cbs x) id cb))) [] in
  Ok (id, {| vars := vars w; s_datas := s_datas w;
             s_fun_id := fun t' => if decide (t' = t) then id else s_fun_id w t';
             changes := changes w |})).

(** [setValue] through a pointer: the exception the caller sees, if any. *)
Definition Config_setValue (t : ty) (w : Registry) (a : nat) (v : interp t) : outcome (option exn * Registry) :=
  with_var t w a (fun x =>
  let '(e, (x, ch)) := ConfigVar_setValue x v in Ok (e, put_var w a (MkVar t x) ch)).

(** The virtual [fromString]. *)
Definition Base_fromString (w : Registry) (a : nat) (val : bytes) : outcome (bool * Registry) :=
  deref (vars w !! a) (fun v : ConfigVarBase =>
  match v with
  | MkVar t x =>
      let '(b, (x, ch)) := ConfigVar_fromString x val in Ok (b, put_var w a (MkVar t x) ch)
  end).

(** @src config.h:358-367 Config::Lookup *)
Definition Config_Lookup (t : ty) (w : Registry) (name : bytes) : outcome (option nat) :=
  match s_datas w !! name with
  | None => Ok None
  | Some a => deref (vars w !! a) (fun v =>
              Ok (match dynamic_cast t v with Some _ => Some a | None => None end))
  end.

(** The characters of "abcdefghijklmnopqrstuvwxyz._0123456789". *)
(** @src config.h:393-393 Config::Lookup *)
Definition name_char (c : Z) : bool :=
  ((97 <=? c) && (c <=? 122)) || (c =? chr ".") || (c =? chr "_") || ((48 <=? c) && (c <=? 57)).

(** @src config.h:369-402 Config::Lookup *)
Definition Config_Lookup_default (t : ty) (w : Registry) (name : bytes) (default_value : interp t)
    (description : bytes) : outcome (option nat * Registry) :=
  match s_datas w !! name with
  | Some a =>
      deref (vars w !! a) (fun v =>
      match dynamic_cast t v with
      | Some _ => Ok (Some a, w)
      | None => Ok (None, w)
      end)
  | None =>
      if non_null (first_pos (fun c => negb (name_char c)) name) then Throw invalid_argument
      else
        let a := length (vars w) in
        Ok (Some a, {| vars := vars w ++ [MkVar t (ConfigVar_new t name default_value description)];
                       s_datas := <[name := a]> (s_datas w);
                       s_fun_id := s_fun_id w; changes := changes w |})
  end.

(** @src config.cc:17-20 Config::LookupBase *)
Definition Config_LookupBase (w : Registry) (name : bytes) : option nat := s_datas w !! name.

(** ** Loading YAML *)

(** The characters of "abcdefghijklmnopqrstuvwxyz._012345678 ". *)
(** @src config.cc:27-27 ListAllMember *)
Definition prefix_char (c : Z) : bool :=
  ((97 <=? c) && (c <=? 122)) || (c =? chr ".") || (c =? chr "_") || ((48 <=? c) && (c <=? 56)) ||
  (c =? chr " ").

(** [prefix.empty() ? key : prefix + "." + key]. *)
(** @src config.cc:41-42 ListAllMember *)
Definition join_key (prefix key : bytes) : bytes :=
  match prefix with [] => key | _ => prefix ++ chr "." :: key end.

(** @src config.cc:23-46 ListAllMember *)
Fixpoint ListAllMember (prefix : bytes) (node : yaml) : list (bytes * yaml) :=
  if non_null (first_pos (fun c => negb (prefix_char c)) prefix) then []
  else (prefix, node) ::
       match node with
       | YMap l =>
           (fix members (l : list (yaml * yaml)) : list (bytes * yaml) :=
              match l with
              | [] => []
              | (k, v) :: l => ListAllMember (join_key prefix (yaml_Scalar k)) v ++ members l
              end) l
       | _ => []
       end.

Context {Y : Yaml}.

(** The text given to [fromString]. *)
(** @src config.cc:78-84 Config::LoadFromYaml *)
Definition node_text (n : yaml) : bytes := if yaml_IsScalar n then yaml_Scalar n else yaml_emit n.

(** One iteration of the loop over [all_nodes]. *)
(** @src config.cc:64-87 Config::LoadFromYaml *)
Definition load_one (w : Registry) (i : bytes * yaml) : outcome Registry :=
  match fst i with
  | [] => Ok w
  | key =>
      match Config_LookupBase w (map tolower key) with
      | None => Ok w
      | Some a => let! p := Base_fromString w a (node_text (snd i)) in Ok (snd p)
      end
  end.

Fixpoint load_all (w : Registry) (l : list (bytes * yaml)) : outcome Registry :=
  match l with [] => Ok w | i :: l => let! w := load_one w i in load_all w l end.

(** @src config.cc:50-88 Config::LoadFromYaml *)
Definition Config_LoadFromYaml (w : Registry) (root : yaml) : outcome Registry :=
  load_all w (ListAllMember [] root).

End config.
Arguments cv_name {C t}.
Arguments cv_description {C t}.
Arguments m_val {C t}.
Arguments m_cbs {C t}.

(** ** Casts *)

Section facts.
Context {C : ConfigTypes}.

Lemma dynamic_cast_eq t (x : ConfigVar t) : dynamic_cast t (MkVar t x) = Some x.
Proof.
  unfold dynamic_cast. destruct (decide (t = t)) as [e|]; [|done].
  f_equal. symmetry. apply eq_rect_eq_dec. intros a b. destruct (decide (a = b)); auto.
Qed.

Lemma dynamic_cast_Some t (v : ConfigVarBase) x : dynamic_cast t v = Some x <-> v = MkVar t x.
Proof.
  split; [|intros ->; apply dynamic_cast_eq].
  destruct v as [t' y]. cbn. destruct (decide (t' = t)) as [->|]; [|done]. by intros [= <-].
Qed.

Lemma dynamic_cast_None t (v : ConfigVarBase) : dynamic_cast t v = None <-> getTypeName v <> t.
Proof. destruct v as [t' y]. cbn. by destruct (decide (t' = t)) as [->|]. Qed.

Lemma with_var_Ok {A} t w a (k : ConfigVar t -> outcome A) r :
  with_var t w a k = Ok r -> exists x, vars w !! a = Some (MkVar t x) /\ k x = Ok r.
Proof.
  unfold with_var, deref. destruct (vars w !! a) as [v|] eqn:E; [|done].
  destruct (dynamic_cast t v) as [x|] eqn:D; [|done]. apply dynamic_cast_Some in D as ->. eauto.
Qed.

(** ** Names and types are for ever *)

(** Later states keep every registered name, every variable, its type and its name. *)
Definition evolves (w w' : Registry) : Prop :=
  (forall n a, s_datas w !! n = Some a -> s_datas w' !! n = Some a) /\
  (forall a (v : ConfigVarBase), vars w !! a = Some v -> exists v' : ConfigVarBase, vars w' !! a = Some v' /\
     getTypeName v' = getTypeName v /\ getName v' = getName v).

#[export] Instance evolves_preorder : PreOrder evolves.
Proof.
  split; [split; eauto|]. intros w1 w2 w3 [H1 H2] [H3 H4]. split; [auto|].
  intros a v Ha. destruct (H2 a v Ha) as (v' & Hv' & ? & ?). destruct (H4 a v' Hv') as (v'' & ? & ? & ?).
  exists v''. split_and!; congruence.
Qed.

Lemma put_var_evolves w a (v v' : ConfigVarBase) ch :
  vars w !! a = Some v -> getTypeName v' = getTypeName v -> getName v' = getName v -> evolves w (put_var w a v' ch).
Proof.
  intros Ha Ht Hn. split; [done|]. intros b u Hb. cbn. destruct (decide (a = b)) as [<-|Hne].
  - exists v'. rewrite list_lookup_insert_eq by (by eapply lookup_lt_Some). split_and!; congruence.
  - exists u. by rewrite list_lookup_insert_ne.
Qed.

(** A registered name is made of admissible characters and names its variable. *)
Definition reg_wf (w : Registry) : Prop :=
  forall n a, s_datas w !! n = Some a -> exists v, vars w !! a = Some v /\ getName v = n /\
    Forall (fun c => name_char c = true) n.

Lemma reg_wf_put w a (v v' : ConfigVarBase) ch :
  vars w !! a = Some v -> getTypeName v' = getTypeName v -> getName v' = getName v -> reg_wf w -> reg_wf (put_var w a v' ch).
Proof.
  intros Ha Ht Hn Hw n b Hb. destruct (Hw n b Hb) as (u & Hu & Hun & Hc).
  destruct (proj2 (put_var_evolves w a v v' ch Ha Ht Hn) b u Hu) as (u' & ? & ? & ?).
  exists u'. split_and!; [done|congruence|done].
Qed.

Lemma tolower_name c : name_char c = true -> tolower c = c.
Proof.
  unfold name_char, tolower. intros H. destruct ((65 <=? c) && (c <=? 90)) eqn:E; [|done].
  exfalso. apply andb_true_iff in E as [E1 E2]. apply Z.leb_le in E1, E2.
  rewrite !orb_true_iff, !andb_true_iff, !Z.leb_le, !Z.eqb_eq in H.
  change (chr ".") with 46 in H. change (chr "_") with 95 in H. lia.
Qed.

Lemma map_tolower_name n : Forall (fun c => name_char c = true) n -> map tolower n = n.
Proof. induction 1 as [|c n Hc Hn IH]; cbn; [done|]. by rewrite (tolower_name c Hc), IH. Qed.

Lemma Lookup_default_spec t w name d desc r w' :
  Config_Lookup_default t w name d desc = Ok (r, w') -> reg_wf w -> evolves w w' /\ reg_wf w'.
Proof.
  unfold Config_Lookup_default. destruct (s_datas w !! name) as [a|] eqn:E.
  - unfold deref. destruct (vars w !! a) as [v|]; [|done]. intros Hop Hw.
    assert (w' = w) as -> by (destruct (dynamic_cast t v); congruence). done.
  - pose proof (first_pos_spec (fun c => negb (name_char c)) name) as Hf.
    destruct (first_pos _ name); [done|]. cbn [non_null]. intros Hop Hw. injection Hop as <- <-.
    assert (Hn : Forall (fun c => name_char c = true) name).
    { eapply Forall_impl; [exact Hf|]. intros c. apply negb_false_iff. }
    split; [split; cbn|].
    + intros n a Ha. destruct (decide (name = n)) as [->|]; [congruence|]. by rewrite lookup_insert_ne.
    + intros a v Ha. exists v. split_and!; [by apply lookup_app_l_Some|done|done].
    + intros n a. cbn. destruct (decide (name = n)) as [<-|Hne].
      * rewrite lookup_insert_eq. intros [= <-]. rewrite lookup_app_r, Nat.sub_diag by done.
        eexists. split_and!; [done| |done]. cbn. by apply map_tolower_name.
      * rewrite lookup_insert_ne by done. intros Ha. destruct (Hw n a Ha) as (v & ? & ? & ?).
        exists v. split_and!; [by apply lookup_app_l_Some|done|done].
Qed.

Lemma setValue_name t (x : ConfigVar t) v : cv_name (fst (snd (ConfigVar_setValue x v))) = cv_name x.
Proof.
  unfold ConfigVar_setValue. destruct (ty_eqb t v (m_val x)); [done|].
  by destruct (call_listeners _ _ _) as [[e|] ch].
Qed.

Lemma fromString_name t (x : ConfigVar t) s : cv_name (fst (snd (ConfigVar_fromString x s))) = cv_name x.
Proof. unfold ConfigVar_fromString. cbn. destruct (from_str s); [apply setValue_name|done]. Qed.

Lemma fromString_ok w a s (v : ConfigVarBase) : vars w !! a = Some v ->
  exists (v' : ConfigVarBase) ch, Base_fromString w a s = Ok (false, put_var w a v' ch) /\
    getTypeName v' = getTypeName v /\ getName v' = getName v.
Proof.
  intros Ha. unfold Base_fromString. rewrite Ha. cbn [deref]. destruct v as [t x].
  pose proof (fromString_name t x s) as Hn. destruct (ConfigVar_fromString x s) as [b [x' ch]] eqn:E.
  unfold ConfigVar_fromString in E. injection E as <- _. by exists (MkVar t x'), ch.
Qed.

Context {Y : Yaml}.

(** One entry, and all entries, of a loaded document: loading always returns. *)
Lemma load_one_ok w i : reg_wf w -> exists w', load_one w i = Ok w' /\ evolves w w' /\ reg_wf w'.
Proof.
  intros Hw. unfold load_one. destruct i as [key n]. cbn [fst snd].
  destruct key as [|c key]; [by exists w|]. destruct (Config_LookupBase w _) as [a|] eqn:E; [|by exists w].
  destruct (Hw _ _ E) as (v & Hv & _ & _).
  destruct (fromString_ok w a (node_text n) v Hv) as (v' & ch & -> & ? & ?). cbn [obind snd].
  eexists. split; [done|]. split; [by eapply put_var_evolves|by eapply reg_wf_put].
Qed.

Lemma load_all_ok : forall l w, reg_wf w -> exists w', load_all w l = Ok w' /\ evolves w w' /\ reg_wf w'.
Proof.
  induction l as [|i l IH]; cbn; intros w Hw; [by exists w|].
  destruct (load_one_ok w i Hw) as (w1 & -> & He & Hw1). cbn.
  destruct (IH w1 Hw1) as (w2 & -> & ? & ?). exists w2. split_and!; [done|by transitivity w1|done].
Qed.

(** ** What client code can do *)

Inductive config_step (w : Registry) : Registry -> Prop :=
| cs_lookup t name d desc r w' : Config_Lookup_default t w name d desc = Ok (r, w') -> config_step w w'
| cs_setValue t a v e w' : Config_setValue t w a v = Ok (e, w') -> config_step w w'
| cs_fromString a s b w' : Base_fromString w a s = Ok (b, w') -> config_step w w'
| cs_addListener t a cb id w' : Config_addListener t w a cb = Ok (id, w') -> config_step w w'
| cs_delListener t a key x :
    vars w !! a = Some (MkVar t x) ->
    config_step w (put_var w a (MkVar t (ConfigVar_delListener x key)) [])
| cs_clearListener t a x :
    vars w !! a = Some (MkVar t x) ->
    config_step w (put_var w a (MkVar t (ConfigVar_clearListener x)) [])
| cs_load root w' : Config_LoadFromYaml w root = Ok w' -> config_step w w'.

Lemma config_step_ok w w' : config_step w w' -> reg_wf w -> evolves w w' /\ reg_wf w'.
Proof.
  intros Hs Hw. destruct Hs as [t name d desc r w' Hop|t a v e w' Hop|a s b w' Hop|t a cb id w' Hop|t a key x Ha|t a x Ha|root w' Hop].
  - by eapply Lookup_default_spec.
  - apply with_var_Ok in Hop as (x & Ha & Hop). pose proof (setValue_name t x v) as Hn.
    destruct (ConfigVar_setValue x v) as [e' [x' ch]]. injection Hop as <- <-.
    split; [by eapply put_var_evolves|by eapply reg_wf_put].
  - assert (exists v, vars w !! a = Some v) as [v Ha]
      by (unfold Base_fromString in Hop; destruct (vars w !! a); [eauto|done]).
    destruct (fromString_ok w a s v Ha) as (v' & ch & E & ? & ?). rewrite E in Hop. injection Hop as <- <-.
    split; [by eapply put_var_evolves|by eapply reg_wf_put].
  - apply with_var_Ok in Hop as (x & Ha & Hop). injection Hop as <- <-.
    set (v' := MkVar t (put_cbs x _)).
    assert (H : evolves w (put_var w a v' []) /\ reg_wf (put_var w a v' []))
      by (split; [by eapply put_var_evolves|by eapply reg_wf_put]). exact H.
  - split; [by eapply put_var_evolves|by eapply reg_wf_put].
  - split; [by eapply put_var_evolves|by eapply reg_wf_put].
  - destruct (load_all_ok (ListAllMember [] root) w Hw) as (w1 & E & ? & ?).
    unfold Config_LoadFromYaml in Hop. rewrite E in Hop. by injection Hop as <-.
Qed.

Lemma config_steps_ok w w' : rtc config_step w w' -> reg_wf w -> evolves w w' /\ reg_wf w'.
Proof.
  induction 1 as [w|w w1 w' Hs _ IH]; intros Hw; [done|].
  destruct (config_step_ok w w1 Hs Hw) as [He Hw1]. destruct (IH Hw1). split; [by transitivity w1|done].
Qed.

Definition empty_registry : Registry :=
  {| vars := []; s_datas := ∅; s_fun_id := fun _ => 0; changes := [] |}.

Lemma empty_wf : reg_wf empty_registry.
Proof. intros n a Ha. cbn in Ha. by rewrite lookup_empty in Ha. Qed.

Lemma reachable_reg_wf w : rtc config_step empty_registry w -> reg_wf w.
Proof. intros H. apply (config_steps_ok _ _ H empty_wf). Qed.

End facts.

(** C33: configuration variables never change their type or their place.  Once
    [Lookup] has registered a name at a type, in every later state (whatever is looked
    up, set, loaded from YAML or listened to) the typed [Lookup] of that name, with or
    without a default value, returns that very variable for its own type and a null
    pointer for every other type, never creates a second variable and never throws;
    and the value found there is one of the declared type. *)
Theorem Config_Lookup_typed `{ConfigTypes} `{Yaml} w name t d desc a w1 w2 t' d' desc' :
  rtc config_step empty_registry w ->
  Config_Lookup_default t w name d desc = Ok (Some a, w1) ->
  rtc config_step w1 w2 ->
  Config_Lookup t' w2 name = Ok (if decide (t = t') then Some a else None) /\
  Config_Lookup_default t' w2 name d' desc' = Ok (if decide (t = t') then Some a else None, w2) /\
  exists x : ConfigVar t, vars w2 !! a = Some (MkVar t x) /\ cv_name x = name.
Proof.
  intros Hw Hop Hs. apply reachable_reg_wf in Hw.
  assert (H1 : s_datas w1 !! name = Some a /\ exists x : ConfigVar t, vars w1 !! a = Some (MkVar t x)).
  { revert Hop. unfold Config_Lookup_default. destruct (s_datas w !! name) as [b|] eqn:E.
    - unfold deref. destruct (vars w !! b) as [v|] eqn:Ev; [|done].
      destruct (dynamic_cast t v) as [x|] eqn:Ed; intros [= <- <-]. apply dynamic_cast_Some in Ed as ->. eauto.
    - destruct (non_null _); [done|]. intros [= <- <-]. cbn. rewrite lookup_insert_eq.
      split; [done|]. eexists. by rewrite lookup_app_r, Nat.sub_diag. }
  destruct (Lookup_default_spec t w name d desc _ _ Hop Hw) as [_ Hw1].
  destruct (config_steps_ok _ _ Hs Hw1) as [[He1 He2] Hw2]. destruct H1 as [Hn (x & Hx)].
  destruct (He2 a _ Hx) as ([t2 x2] & Hv & Ht & _). cbn in Ht. subst t2.
  pose proof (He1 _ _ Hn) as Hn2.
  unfold Config_Lookup, Config_Lookup_default. rewrite Hn2. cbv beta iota. rewrite Hv. cbn [deref].
  assert (Hname : cv_name x2 = name).
  { destruct (Hw2 name a Hn2) as (v & Hv' & Hvn & _). rewrite Hv in Hv'. injection Hv' as <-. exact Hvn. }
  destruct (decide (t = t')) as [<-|Hne].
  - rewrite dynamic_cast_eq. split_and!; eauto.
  - rewrite (proj2 (dynamic_cast_None t' (MkVar t x2))) by exact Hne. split_and!; eauto.
Qed.

(** A program with a string variable and a list variable. *)
Definition sample_types : ConfigTypes := {|
  ty := bool;
  ty_eq_dec := _;
  interp := fun b => if b then bytes else list bytes;
  ty_cast := fun b => match b with
                      | true => sample_cast
                      | false => @vector_cast sample_yaml bytes sample_cast
                      end;
  ty_eqb := fun b => match b with
                     | true => fun x y : bytes => bool_decide (x = y)
                     | false => fun x y : list bytes => bool_decide (x = y)
                     end;
  (* The listener 1 of the string variable refuses the value "bad". *)
  listener_throws := fun b => match b with
                              | true => fun cb (_ new : bytes) =>
                                  if bool_decide (cb = 1%nat /\ new = str "bad") then Some logic_error else None
                              | false => fun _ _ _ => None
                              end
|}.

Definition sample_registry : @Registry sample_types :=
  match @Config_Lookup_default sample_types true empty_registry (str "system.name") (str "x") [] with
  | Ok (_, w) => w
  | _ => empty_registry
  end.

Lemma Config_Lookup_typed_witness :
  @Config_Lookup sample_types false sample_registry (str "system.name") = Ok None /\
  @Config_Lookup sample_types true sample_registry (str "system.name") = Ok (Some 0%nat).
Proof.
  assert (E : @Config_Lookup_default sample_types true empty_registry (str "system.name") (str "x") [] =
              Ok (Some 0%nat, sample_registry)) by reflexivity.
  split.
  - exact (proj1 (@Config_Lookup_typed sample_types sample_yaml empty_registry (str "system.name") true
      (str "x") [] 0%nat sample_registry sample_registry false [] [] (rtc_refl _ _) E (rtc_refl _ _))).
  - exact (proj1 (@Config_Lookup_typed sample_types sample_yaml empty_registry (str "system.name") true
      (str "x") [] 0%nat sample_registry sample_registry true [] [] (rtc_refl _ _) E (rtc_refl _ _))).
Defined.

(** ** Paths of a document *)

(** The node at a list of keys, and the dotted name of such a list. *)
Inductive at_path : yaml -> list bytes -> yaml -> Prop :=
| at_nil n : at_path n [] n
| at_cons l k v ks m : In (k, v) l -> at_path v ks m -> at_path (YMap l) (yaml_Scalar k :: ks) m.

Definition path_name (prefix : bytes) (ks : list bytes) : bytes := fold_left join_key ks prefix.

Lemma ListAllMember_eq prefix node :
  ListAllMember prefix node =
  if non_null (first_pos (fun c => negb (prefix_char c)) prefix) then []
  else (prefix, node) ::
       match node with
       | YMap l => concat (map (fun kv => ListAllMember (join_key prefix (yaml_Scalar (fst kv))) (snd kv)) l)
       | _ => []
       end.
Proof.
  destruct node as [| | |l]; try done. cbn [ListAllMember]. destruct (non_null _); [done|]. f_equal.
  induction l as [|[k v] l IH]; cbn [map concat fst snd]; [done|]. by rewrite IH.
Qed.

Lemma prefix_ok prefix :
  non_null (first_pos (fun c => negb (prefix_char c)) prefix) = false <->
  Forall (fun c => prefix_char c = true) prefix.
Proof.
  pose proof (first_pos_spec (fun c => negb (prefix_char c)) prefix) as H.
  destruct (first_pos _ prefix) as [i|]; cbn; split; try done; intros Hf.
  - destruct H as (c & Hc & Hn & _). rewrite Forall_lookup in Hf. by rewrite (Hf i c Hc) in Hn.
  - eapply Forall_impl; [exact H|]. intros c. apply negb_false_iff.
Qed.

Lemma path_name_prefix ks : forall prefix, exists tail, path_name prefix ks = prefix ++ tail.
Proof.
  induction ks as [|k ks IH]; intros prefix; cbn; [exists []; by rewrite app_nil_r|].
  destruct (IH (join_key prefix k)) as [tail E]. unfold path_name in E. rewrite E.
  destruct prefix as [|c p]; cbn [join_key]; [by eexists|]. eexists. by rewrite <- app_assoc.
Qed.

(** The flattened document is the set of nodes by dotted name, as far as the names
    consist of admissible characters. *)
Lemma ListAllMember_spec node : forall prefix p m,
  In (p, m) (ListAllMember prefix node) <->
  exists ks, at_path node ks m /\ p = path_name prefix ks /\ Forall (fun c => prefix_char c = true) p.
Proof.
  induction node as [|s|l _|l IH] using yaml_nested_ind; intros prefix p m; rewrite ListAllMember_eq;
    (destruct (non_null _) eqn:E;
     [split; [done|]; intros (ks & _ & -> & Hp); destruct (path_name_prefix ks prefix) as [tail Ht];
      rewrite Ht in Hp; apply Forall_app in Hp as [Hp _]; apply prefix_ok in Hp; congruence|
      apply prefix_ok in E; cbn [In]]).
  1-3: split; [intros [[= <- <-]|[]]; exists []; split_and!; [constructor|done|done]|
               intros (ks & Hat & -> & _); inversion Hat; by left].
  rewrite Forall_forall in IH. split.
  - intros [[= <- <-]|Hin]; [exists []; split_and!; [constructor|done|done]|].
    apply in_concat in Hin as (x & Hx & Hin). apply in_map_iff in Hx as ([k v] & <- & Hkv).
    apply (IH (k, v)) in Hin as (ks & Hat & -> & Hp); [|by apply list_elem_of_In].
    exists (yaml_Scalar k :: ks). split_and!; [by apply at_cons with v|done|done].
  - intros (ks & Hat & -> & Hp). inversion Hat as [|? k v ks' ? Hkv Hat']; subst; [by left|]. right.
    apply in_concat. eexists. split; [apply in_map_iff; exists (k, v); split; [done|exact Hkv]|].
    apply (IH (k, v)); [by apply list_elem_of_In|]. by exists ks'.
Qed.

(** ** What loading a document does to a variable *)

Section load.
Context {C : ConfigTypes} {Y : Yaml}.

(** The texts a document has for a name, in document order. *)
Definition names_entry (n : bytes) (i : bytes * yaml) : bool :=
  match fst i with [] => false | key => bool_decide (map tolower key = n) end.

Definition texts_for (n : bytes) (l : list (bytes * yaml)) : list bytes :=
  map (fun i => node_text (snd i)) (List.filter (names_entry n) l).

(** Some listener throws on the change. *)
Definition refused {t} (cbs : list (Z * nat)) (old new : interp t) : bool :=
  existsb (fun kc => non_null (listener_throws t (snd kc) old new)) cbs.

(** The value after one text: a text that does not convert, converts to an equal value,
    or converts to a value on which a listener throws, leaves it. *)
Definition next_value {t} (cbs : list (Z * nat)) (v : interp t) (s : bytes) : interp t :=
  match from_str s with
  | Some y => if ty_eqb t y v || refused cbs v y then v else y
  | None => v
  end.

Lemma call_listeners_refused {t} (old new : interp t) l :
  non_null (fst (call_listeners old new l)) = refused l old new.
Proof.
  induction l as [|[k cb] l IH]; cbn; [done|]. destruct (listener_throws t cb old new); [done|].
  destruct (call_listeners old new l). exact IH.
Qed.

Lemma fromString_value t (x : ConfigVar t) s :
  m_val (fst (snd (ConfigVar_fromString x s))) = next_value (m_cbs x) (m_val x) s /\
  m_cbs (fst (snd (ConfigVar_fromString x s))) = m_cbs x.
Proof.
  unfold ConfigVar_fromString, next_value, ConfigVar_setValue. cbn. destruct (from_str s) as [y|]; [|done].
  destruct (ty_eqb t y (m_val x)); [done|]. rewrite <- call_listeners_refused.
  by destruct (call_listeners _ _ _) as [[e|] ch].
Qed.

(** One entry changes the variable it names and no other. *)
Lemma load_one_var w i n a t (x : ConfigVar t) :
  reg_wf w -> s_datas w !! n = Some a -> vars w !! a = Some (MkVar t x) ->
  exists w' (x' : ConfigVar t), load_one w i = Ok w' /\ s_datas w' = s_datas w /\ reg_wf w' /\
    vars w' !! a = Some (MkVar t x') /\ m_cbs x' = m_cbs x /\
    m_val x' = if names_entry n i then next_value (m_cbs x) (m_val x) (node_text (snd i)) else m_val x.
Proof.
  intros Hw Hn Ha. destruct (load_one_ok w i Hw) as (w' & Hop & _ & Hw').
  revert Hop. unfold load_one, names_entry. destruct i as [[|c key] nd]; cbn [fst snd].
  { intros [= <-]. exists w, x. by split_and!. }
  destruct (Config_LookupBase w _) as [b|] eqn:E.
  - unfold Config_LookupBase in E. destruct (Hw _ _ E) as (v & Hv & Hvn & _).
    unfold Base_fromString. rewrite Hv. cbn [deref]. destruct v as [t' y].
    pose proof (fromString_value t' y (node_text nd)) as [Hval Hcbs].
    destruct (ConfigVar_fromString y (node_text nd)) as [r [y' ch]] eqn:Ef. cbn [fst snd obind] in *.
    intros [= <-]. exists (put_var w b (MkVar t' y') ch). case_bool_decide as Hk.
    + rewrite Hk in E. assert (b = a) as -> by congruence. rewrite Ha in Hv. simplify_eq.
      exists y'. split_and!; try done. cbn. apply list_lookup_insert_eq. by eapply lookup_lt_Some.
    + exists x. split_and!; try done. cbn. rewrite list_lookup_insert_ne; [done|]. intros ->.
      destruct (Hw n a Hn) as (v & Hv2 & Hvn' & _). rewrite Hv in Hv2. apply (inj Some) in Hv2. subst v.
      by rewrite Hvn in Hvn'.
  - intros [= <-]. exists w, x. rewrite bool_decide_eq_false_2; [by split_and!|].
    intros Hk. unfold Config_LookupBase in E. congruence.
Qed.

Lemma load_all_var n a t : forall l w (x : ConfigVar t),
  reg_wf w -> s_datas w !! n = Some a -> vars w !! a = Some (MkVar t x) ->
  exists w' (x' : ConfigVar t), load_all w l = Ok w' /\ s_datas w' = s_datas w /\
    vars w' !! a = Some (MkVar t x') /\ m_cbs x' = m_cbs x /\
    m_val x' = fold_left (next_value (m_cbs x)) (texts_for n l) (m_val x).
Proof.
  induction l as [|i l IH]; intros w x Hw Hn Ha; [by exists w, x|].
  destruct (load_one_var w i n a t x Hw Hn Ha) as (w1 & x1 & Hop & Hd & Hw1 & Ha1 & Hc1 & Hv1).
  cbn [load_all]. rewrite Hop. cbn [obind].
  destruct (IH w1 x1 Hw1) as (w2 & x2 & -> & ? & ? & ? & Hv2); [by rewrite Hd|done|].
  exists w2, x2. split_and!; try congruence. rewrite Hv2, Hv1, Hc1. unfold texts_for. cbn [List.filter].
  by destruct (names_entry n i).
Qed.

Lemma tolower_prefix p : Forall (fun c => prefix_char c = true) p -> map tolower p = p.
Proof.
  induction 1 as [|c p Hc Hp IH]; cbn; [done|]. rewrite IH. f_equal. unfold tolower.
  destruct ((65 <=? c) && (c <=? 90)) eqn:E; [|done]. exfalso. unfold prefix_char in Hc.
  apply andb_true_iff in E as [E1 E2]. apply Z.leb_le in E1, E2.
  rewrite !orb_true_iff, !andb_true_iff, !Z.leb_le, !Z.eqb_eq in Hc.
  change (chr ".") with 46 in Hc. change (chr "_") with 95 in Hc. change (chr " ") with 32 in Hc. lia.
Qed.

(** The texts for a name are those of the nodes at its dotted paths. *)
Lemma texts_for_spec n root s :
  In s (texts_for n (ListAllMember [] root)) <->
  exists ks m, at_path root ks m /\ path_name [] ks = n /\ n <> [] /\
    Forall (fun c => prefix_char c = true) n /\ s = node_text m.
Proof.
  unfold texts_for. rewrite in_map_iff. split.
  - intros ([p m] & <- & Hin). apply filter_In in Hin as [Hin Hk]. unfold names_entry in Hk. cbn [fst snd] in *.
    apply ListAllMember_spec in Hin as (ks & Hat & -> & Hp).
    destruct (path_name [] ks) eqn:E; [done|]. rewrite <- E in *. apply bool_decide_eq_true in Hk.
    rewrite tolower_prefix in Hk by done. subst n. exists ks, m. split_and!; try done. by rewrite E.
  - intros (ks & m & Hat & Hn & Hne & Hp & ->). exists (n, m). split; [done|]. apply filter_In. split.
    + apply ListAllMember_spec. by exists ks.
    + unfold names_entry. cbn [fst]. destruct n; [done|]. apply bool_decide_eq_true. by apply tolower_prefix.
Qed.
End load.

(** C34: what [Config::LoadFromYaml] does to a registered variable.  In every reachable
    state and for every document it returns and registers nothing; the variable takes
    the texts the document holds for its name one after the other: a text that does not
    convert, that converts to an equal value, or on whose value one of the variable's
    listeners throws, leaves the value as it is, every other text replaces it; the
    listeners stay.  The texts held for a name are exactly those of the nodes whose
    keys, joined with dots, spell it, provided every character of the name is one
    [ListAllMember] admits (small letters, '.', '_', ' ' and the digits 0 to 8); a name
    with any other character, such as a '9', has none, and the variable keeps its value. *)
Theorem Config_LoadFromYaml_spec `{ConfigTypes} `{Yaml} w root n a t (x : ConfigVar t) :
  rtc config_step empty_registry w ->
  s_datas w !! n = Some a -> vars w !! a = Some (MkVar t x) ->
  (exists w' (x' : ConfigVar t), Config_LoadFromYaml w root = Ok w' /\ s_datas w' = s_datas w /\
     vars w' !! a = Some (MkVar t x') /\ m_cbs x' = m_cbs x /\
     m_val x' = fold_left (next_value (m_cbs x)) (texts_for n (ListAllMember [] root)) (m_val x)) /\
  (forall s, In s (texts_for n (ListAllMember [] root)) <->
     exists ks m, at_path root ks m /\ path_name [] ks = n /\ n <> [] /\
       Forall (fun c => prefix_char c = true) n /\ s = node_text m).
Proof.
  intros Hw Hn Ha. apply reachable_reg_wf in Hw. split; [by apply load_all_var|].
  intros s. apply texts_for_spec.
Qed.

(** A variable whose name has a '9' can be registered, but no document reaches it: the
    '9' is missing from the characters [ListAllMember] admits. *)
Lemma Config_LoadFromYaml_nine `{ConfigTypes} `{Yaml} w root n a t (x : ConfigVar t) :
  rtc config_step empty_registry w ->
  s_datas w !! n = Some a -> vars w !! a = Some (MkVar t x) -> In (chr "9") n ->
  exists w' (x' : ConfigVar t), Config_LoadFromYaml w root = Ok w' /\
    vars w' !! a = Some (MkVar t x') /\ m_val x' = m_val x.
Proof.
  intros Hw Hn Ha H9. apply reachable_reg_wf in Hw.
  destruct (load_all_var n a t (ListAllMember [] root) w x Hw Hn Ha) as (w' & x' & E & _ & Hx & _ & Hv).
  exists w', x'. split_and!; [done|done|]. rewrite Hv.
  destruct (texts_for n (ListAllMember [] root)) as [|s l] eqn:Et; [done|]. exfalso.
  assert (Hin : In s (texts_for n (ListAllMember [] root))) by (rewrite Et; by left).
  apply texts_for_spec in Hin as (ks & m & _ & _ & _ & Hp & _).
  rewrite Forall_forall in Hp. by specialize (Hp _ (proj2 (list_elem_of_In _ _) H9)).
Qed.

(** A document that sets the variable of the sample program twice; the listener of the
    variable throws on the second value. *)
Definition sample_document : yaml :=
  YMap [(YScalar (str "system"),
         YMap [(YScalar (str "name"), YScalar (@yaml_emit sample_yaml (YScalar (str "y"))));
               (YScalar (str "name"), YScalar (@yaml_emit sample_yaml (YScalar (str "bad"))))])].

Definition listened_registry : @Registry sample_types :=
  match @Config_addListener sample_types true sample_registry 0%nat 1%nat with
  | Ok (_, w) => w
  | _ => empty_registry
  end.

Lemma Config_LoadFromYaml_spec_witness :
  exists w' (x' : @ConfigVar sample_types true),
    @Config_LoadFromYaml sample_types sample_yaml listened_registry sample_document = Ok w' /\
    vars w' !! 0%nat = Some (@MkVar sample_types true x') /\ m_val x' = str "y".
Proof.
  assert (E : @Config_Lookup_default sample_types true empty_registry (str "system.name") (str "x") [] =
              Ok (Some 0%nat, sample_registry)) by reflexivity.
  assert (A : @Config_addListener sample_types true sample_registry 0%nat 1%nat = Ok (1, listened_registry))
    by reflexivity.
  assert (Hr : rtc (@config_step sample_types sample_yaml) empty_registry listened_registry)
    by (eapply rtc_l; [exact (cs_lookup _ _ _ _ _ _ _ E)|apply rtc_once; exact (cs_addListener _ _ _ _ _ _ A)]).
  destruct (proj1 (@Config_LoadFromYaml_spec sample_types sample_yaml listened_registry sample_document
    (str "system.name") 0%nat true
    (put_cbs (@ConfigVar_new sample_types true (str "system.name") (str "x") []) [(1, 1%nat)])
    Hr eq_refl eq_refl)) as (w' & x' & Hop & _ & Hx & _ & Hv).
  exists w', x'. split; [exact Hop|]. split; [exact Hx|]. rewrite Hv. vm_compute. reflexivity.
Defined.

(** ** Listeners and conversions of one variable *)

Section variable.
Context {C : ConfigTypes}.

Lemma cbs_find_set l k c k' : cbs_find (cbs_set l k c) k' = if k =? k' then Some c else cbs_find l k'.
Proof.
  induction l as [|[j d] l IH]; cbn; [done|]. destruct (j =? k) eqn:E1; cbn.
  - apply Z.eqb_eq in E1 as ->. by destruct (k =? k').
  - destruct (k <? j); cbn; [by destruct (k =? k')|]. rewrite IH.
    destruct (j =? k') eqn:E2, (k =? k') eqn:E3; try done. lia.
Qed.

(** A listener is found under the number [addListener] returned until that number is
    deleted, and deleting one leaves the others. *)
Lemma delListener_spec t (x : ConfigVar t) k k' :
  ConfigVar_getListener (ConfigVar_delListener x k) k' =
  if k =? k' then None else ConfigVar_getListener x k'.
Proof.
  unfold ConfigVar_getListener, ConfigVar_delListener. cbn [m_cbs put_cbs].
  induction (m_cbs x) as [|[j d] l IH]; [by destruct (k =? k')|].
  - rewrite filter_cons. cbn [fst cbs_find]. destruct (decide (j <> k)) as [Hj|Hj]; cbn.
    + destruct (j =? k') eqn:E; [|exact IH]. apply Z.eqb_eq in E as <-. by rewrite (proj2 (Z.eqb_neq k j)).
    + assert (j = k) as -> by (by destruct (decide (j = k)); [|contradict Hj]).
      rewrite IH. by destruct (k =? k').
Qed.

Lemma addListener_spec t w a cb id w' :
  Config_addListener t w a cb = Ok (id, w') ->
  exists x x' : ConfigVar t, vars w !! a = Some (MkVar t x) /\ vars w' !! a = Some (MkVar t x') /\
    m_val x' = m_val x /\ changes w' = changes w /\
    forall k, ConfigVar_getListener x' k = if id =? k then Some cb else ConfigVar_getListener x k.
Proof.
  intros Hop. apply with_var_Ok in Hop as (x & Ha & Hop). injection Hop as <- <-.
  exists x, (put_cbs x (cbs_set (m_cbs x) (u64 (s_fun_id w t + 1)) cb)). split_and!; try done.
  - cbn. apply list_lookup_insert_eq. by eapply lookup_lt_Some.
  - cbn. apply app_nil_r.
  - intros k. apply cbs_find_set.
Qed.

(** A listener that throws: the value stays, and the listeners before it have been told
    of a change that does not happen. *)
Lemma setValue_refused t (x : ConfigVar t) v e x' ch :
  ConfigVar_setValue x v = (Some e, (x', ch)) ->
  x' = x /\ refused (m_cbs x) (m_val x) v = true /\ ch <> [].
Proof.
  unfold ConfigVar_setValue. destruct (ty_eqb t v (m_val x)); [done|].
  rewrite <- call_listeners_refused. destruct (call_listeners _ _ _) as [[e'|] ch'] eqn:E; [|done].
  intros [= <- <- <-]. split_and!; [done..|]. destruct (m_cbs x) as [|[k cb] l]; [done|]. cbn in E.
  destruct (listener_throws _ _ _ _); [|destruct (call_listeners _ _ l)]; injection E as _ <-; discriminate.
Qed.

(** Reading the text of a variable back gives its value, whatever the variable held, if
    no listener throws. *)
Lemma fromString_toString {Y : Yaml} t (valid : interp t -> Prop) `{!LexicalCastLaws (interp t) valid}
    (x y : ConfigVar t) :
  (forall u v, ty_eqb t u v = true -> u = v) -> refused (m_cbs y) (m_val y) (m_val x) = false ->
  valid (m_val x) -> m_val (fst (snd (ConfigVar_fromString y (ConfigVar_toString x)))) = m_val x.
Proof.
  intros Heq Hq Hv. destruct (cast_round (m_val x) Hv) as (s & n & Hs & Hf & _ & _).
  destruct (fromString_value t y (ConfigVar_toString x)) as [-> _].
  unfold next_value, ConfigVar_toString. rewrite Hs. cbn [default]. cbn. rewrite Hf, Hq, orb_false_r.
  destruct (ty_eqb t (m_val x) (m_val y)) eqn:E; [|done]. symmetry. by apply Heq.
Qed.
End variable.

(** [ConfigVar::fromString] reports failure even when it has set the value. *)
Lemma fromString_always_false `{ConfigTypes} t (x : ConfigVar t) s : fst (ConfigVar_fromString x s) = false.
Proof. reflexivity. Qed.
