(* ===== verification/Settings.v ===== *)
(** * Settings that follow the configuration ([http/http_parser.cc], [hook.cc])

    The limits of the HTTP parsers and the connect time-out are static variables that a
    constructor fills before [main] from configuration variables, registering listeners
    that store every later value.  The composition with the registry of [Config]: in
    every later state, whatever is set or loaded, each static is the value its variable
    has, as long as nobody takes the listeners away and no listener throws. *)

From S2P Require Import Prelude Text LexicalCast Config.
From Stdlib Require Import ZArith Lia List String.
From stdpp Require Import base tactics list numbers option gmap relations.

Open Scope Z_scope.
Open Scope list_scope.

(** The numeric types among those of the program. *)
Class NumberTypes (C : ConfigTypes) := {
  uint64_t : ty;
  int_t : ty;
  uint64_of : Z -> interp uint64_t;
  uint64_val : interp uint64_t -> Z;
  int_of : Z -> interp int_t;
  int_val : interp int_t -> Z
}.

Section settings.
Context {C : ConfigTypes} {N : NumberTypes C}.

(** ** Listeners that store a value *)

(** The listener [cb] of a variable of type [t] on one call: it stores the new value,
    converted to the type of the static. *)
Definition on_change (t : ty) (conv : interp t -> Z) (cb : nat) (v : Z) (c : change) : Z :=
  match c with
  | Change t' cb' _ new =>
      if decide (cb' = cb) then
        match decide (t' = t) with left e => conv (eq_rect t' interp new t e) | right _ => v end
      else v
  end.

(** A static that held [v] after the calls [l] of listeners. *)
Definition stored (t : ty) (conv : interp t -> Z) (cb : nat) (v : Z) (l : list change) : Z :=
  fold_left (on_change t conv cb) l v.

(** @src config.h:299-299 ConfigVar::getValue *)
Definition Config_getValue (t : ty) (w : Registry) (a : nat) : outcome (interp t) :=
  with_var t w a (fun x => Ok (m_val x)).

(** A static [ConfigVar<T>::ptr] that is used afterwards: [->] on it. *)
Definition lookup_static (t : ty) (w : Registry) (name : bytes) (d : interp t) (desc : bytes) : outcome (nat * Registry) :=
  let! p := Config_Lookup_default t w name d desc in
  deref (fst p) (fun a => Ok (a, snd p)).

(** [static x = var->getValue()]. *)
Definition read_static (t : ty) (conv : interp t -> Z) (w : Registry) (a : nat) : outcome Z :=
  let! v := Config_getValue t w a in Ok (conv v).

(** ** The limits of the HTTP parsers *)

(** The functions given to [addListener]. *)
Inductive size_listener := req_buffer | req_body | resp_buffer | resp_body.
Definition listener_id (base : nat) (k : size_listener) : nat :=
  match k with req_buffer => base | req_body => base + 1 | resp_buffer => base + 2 | resp_body => base + 3 end%nat.

(** @src http/http_parser.cc:28-31 s_http_request_buffer_size *)
Record sizes := mkSizes {
  s_http_request_buffer_size : Z;
  s_http_request_max_body_size : Z;
  s_http_response_buffer_size : Z;
  s_http_response_max_body_size : Z
}.

(** @src http/http_parser.cc:13-26 g_http_request_buffer_size *)
Record size_vars := mkVars {
  g_http_request_buffer_size : nat;
  g_http_request_max_body_size : nat;
  g_http_response_buffer_size : nat;
  g_http_response_max_body_size : nat
}.

(** @src http/http_parser.cc:13-26 g_http_request_buffer_size *)
Definition lookup_sizes (w : Registry) : outcome (size_vars * Registry) :=
  let! p1 := lookup_static uint64_t w (str "http.request.buffer_size") (uint64_of (4 * 1024)) (str "http request buffer size") in
  let! p2 := lookup_static uint64_t (snd p1) (str "http.request.max_body_size") (uint64_of (64 * 1024 * 1024))
               (str "http request max body size") in
  let! p3 := lookup_static uint64_t (snd p2) (str "http.response.buffer_size") (uint64_of (4 * 1024)) (str "http response buffer size") in
  let! p4 := lookup_static uint64_t (snd p3) (str "http.response.max_body_size") (uint64_of (64 * 1024 * 1024))
               (str "http response max body size") in
  Ok (mkVars (fst p1) (fst p2) (fst p3) (fst p4), snd p4).

(** [base]: the identity of the first of the four lambdas. *)
(** @src http/http_parser.cc:51-75 _RequestSizeIniter *)
Definition RequestSizeIniter (base : nat) (g : size_vars) (w : Registry) : outcome (sizes * Registry) :=
  let! v1 := read_static uint64_t uint64_val w (g_http_request_buffer_size g) in
  let! v2 := read_static uint64_t uint64_val w (g_http_request_max_body_size g) in
  let! v3 := read_static uint64_t uint64_val w (g_http_response_buffer_size g) in
  let! v4 := read_static uint64_t uint64_val w (g_http_response_max_body_size g) in
  let! q1 := Config_addListener uint64_t w (g_http_request_buffer_size g) (listener_id base req_buffer) in
  let! q2 := Config_addListener uint64_t (snd q1) (g_http_request_max_body_size g) (listener_id base req_body) in
  let! q3 := Config_addListener uint64_t (snd q2) (g_http_response_buffer_size g) (listener_id base resp_buffer) in
  let! q4 := Config_addListener uint64_t (snd q3) (g_http_response_max_body_size g) (listener_id base resp_body) in
  Ok (mkSizes v1 v2 v3 v4, snd q4).

(** What happens before [main]. *)
Definition init_sizes (base : nat) (w : Registry) : outcome (size_vars * sizes * Registry) :=
  let! p := lookup_sizes w in
  let! q := RequestSizeIniter base (fst p) (snd p) in
  Ok (fst p, fst q, snd q).

(** The statics after the calls [l] of listeners; the four accessors read them. *)
(** @src http/http_parser.cc:57-72 _RequestSizeIniter *)
Definition sizes_after (base : nat) (s : sizes) (l : list change) : sizes :=
  mkSizes (stored uint64_t uint64_val (listener_id base req_buffer) (s_http_request_buffer_size s) l)
          (stored uint64_t uint64_val (listener_id base req_body) (s_http_request_max_body_size s) l)
          (stored uint64_t uint64_val (listener_id base resp_buffer) (s_http_response_buffer_size s) l)
          (stored uint64_t uint64_val (listener_id base resp_body) (s_http_response_max_body_size s) l).

(** @src http/http_parser.cc:33-35 HttpRequestParser::GetHttpRequestBufferSize *)
Definition GetHttpRequestBufferSize (s : sizes) : Z := s_http_request_buffer_size s.
(** @src http/http_parser.cc:37-39 HttpRequestParser::GetHttpRequestMaxBodySize *)
Definition GetHttpRequestMaxBodySize (s : sizes) : Z := s_http_request_max_body_size s.
(** @src http/http_parser.cc:41-43 HttpResponseParser::GetHttpResponseBufferSize *)
Definition GetHttpResponseBufferSize (s : sizes) : Z := s_http_response_buffer_size s.
(** @src http/http_parser.cc:45-47 HttpResponseParser::GetHttpResponseMaxBodySize *)
Definition GetHttpResponseMaxBodySize (s : sizes) : Z := s_http_response_max_body_size s.

(** ** The connect time-out *)

(** An [int] stored in a [uint64_t]: a negative one becomes a very long time-out. *)
Definition timeout_of (v : interp int_t) : Z := u64 (int_val v).

(** @src hook.cc:29-30 g_tcp_connect_timeout *)
Definition lookup_timeout (w : Registry) : outcome (nat * Registry) :=
  lookup_static int_t w (str "tcp.connect.timeout") (int_of 5000) (str "tcp connect timeout").

(** @src hook.cc:80-91 _HookIniter *)
Definition HookIniter (cb : nat) (a : nat) (w : Registry) : outcome (Z * Registry) :=
  let! s_connect_timeout := read_static int_t timeout_of w a in
  let! q := Config_addListener int_t w a cb in
  Ok (s_connect_timeout, snd q).

Definition init_timeout (cb : nat) (w : Registry) : outcome (nat * Z * Registry) :=
  let! p := lookup_timeout w in
  let! q := HookIniter cb (fst p) (snd p) in
  Ok (fst p, fst q, snd q).

End settings.

(** ** Statics follow their variables *)

(** No listener throws.  A listener that throws after others were told of the new value
    would leave their statics ahead of the variable. *)
Class QuietListeners (C : ConfigTypes) : Prop :=
  quiet : forall t cb (old new : interp t), listener_throws t cb old new = None.

Section follow.
Context {C : ConfigTypes} {Q : QuietListeners C}.

Lemma MkVar_inj t (x y : ConfigVar t) : MkVar t x = MkVar t y -> x = y.
Proof. intros H%(f_equal (dynamic_cast t)). rewrite !dynamic_cast_eq in H. congruence. Qed.

Lemma MkVar_type (t1 t2 : ty) (x : ConfigVar t1) (y : ConfigVar t2) : MkVar t1 x = MkVar t2 y -> t1 = t2.
Proof. by intros H%(f_equal getTypeName). Qed.

(** From two values found at one address: the same type and the same variable. *)
Ltac same_var H :=
  apply (inj Some) in H; let E := fresh in pose proof (MkVar_type _ _ _ _ H) as E;
  try match type of E with _ = ?t => subst t end; apply MkVar_inj in H; match type of H with _ = ?y => subst y end.

(** The variable at [b] calls [cb]. *)
Definition listens (cb : nat) (w : Registry) (b : nat) : Prop :=
  exists t (x : ConfigVar t), vars w !! b = Some (MkVar t x) /\ In cb (map snd (m_cbs x)).

(** The static that the listener [cb] writes, [v] when the calls [l0] had been made,
    equals the value of the variable at [a], and [cb] listens to that variable only. *)
Definition follows (t : ty) (conv : interp t -> Z) (a cb : nat) (v : Z) (l0 : list change) (w : Registry) : Prop :=
  exists (x : ConfigVar t) l, vars w !! a = Some (MkVar t x) /\ changes w = l0 ++ l /\
    stored t conv cb v l = conv (m_val x) /\ In cb (map snd (m_cbs x)) /\ forall b, listens cb w b -> b = a.

(** One assignment of a variable: what [setValue] and [fromString] do to the registry. *)
Definition value_step (w w' : Registry) : Prop :=
  exists b t (x : ConfigVar t) v, vars w !! b = Some (MkVar t x) /\
    w' = put_var w b (MkVar t (fst (snd (ConfigVar_setValue x v)))) (snd (snd (ConfigVar_setValue x v))).

(** A step after which every variable has the value it had, and no listener was called. *)
Definition calm_step (w w' : Registry) : Prop :=
  changes w' = changes w /\
  forall b t (x : ConfigVar t), vars w !! b = Some (MkVar t x) ->
    exists x' : ConfigVar t, vars w' !! b = Some (MkVar t x') /\ m_val x' = m_val x.

Lemma on_change_other t conv cb v t' cb' (old new : interp t') : cb' <> cb -> on_change t conv cb v (Change t' cb' old new) = v.
Proof. intros. unfold on_change. by rewrite decide_False. Qed.

Lemma on_change_own t conv cb v (old new : interp t) : on_change t conv cb v (Change t cb old new) = conv new.
Proof.
  unfold on_change. rewrite decide_True by done. destruct (decide (t = t)) as [e|]; [|done].
  f_equal. symmetry. apply Eqdep_dec.eq_rect_eq_dec. intros a b. destruct (decide (a = b)); auto.
Qed.

(** Calls of other listeners leave a static alone; a round of calls that includes its
    own, with the same new value, stores that value. *)
Lemma stored_others t conv cb t' (old new : interp t') (l : list (Z * nat)) : forall v,
  ~ In cb (map snd l) -> stored t conv cb v (map (fun kc => Change t' (snd kc) old new) l) = v.
Proof.
  induction l as [|[k c] l IH]; intros v Hn; [done|]. cbn in *. rewrite decide_False by tauto. apply IH. tauto.
Qed.

Lemma stored_round t conv cb (old new : interp t) (l : list (Z * nat)) : forall v,
  In cb (map snd l) \/ v = conv new ->
  stored t conv cb v (map (fun kc => Change t (snd kc) old new) l) = conv new.
Proof.
  induction l as [|[k c] l IH]; intros v Hv; [by destruct Hv|].
  change (stored t conv cb (on_change t conv cb v (Change t c old new)) (map (fun kc => Change t (snd kc) old new) l) = conv new).
  destruct (decide (c = cb)) as [->|Hc]; [rewrite on_change_own; apply IH; by right|].
  rewrite on_change_other by done. apply IH. destruct Hv as [[|]|]; [done|by left|by right].
Qed.

Lemma stored_app t conv cb v l l' : stored t conv cb v (l ++ l') = stored t conv cb (stored t conv cb v l) l'.
Proof. apply fold_left_app. Qed.

Lemma put_var_same w a (u v : ConfigVarBase) ch : vars w !! a = Some u -> vars (put_var w a v ch) !! a = Some v.
Proof. intros H. cbn. apply list_lookup_insert_eq. by eapply lookup_lt_Some. Qed.

Lemma put_var_other w a (v : ConfigVarBase) ch b : b <> a -> vars (put_var w a v ch) !! b = vars w !! b.
Proof. intros. cbn. by apply list_lookup_insert_ne. Qed.

Lemma setValue_cbs t (x : ConfigVar t) v : m_cbs (fst (snd (ConfigVar_setValue x v))) = m_cbs x.
Proof.
  unfold ConfigVar_setValue. destruct (ty_eqb t v (m_val x)); [done|].
  by destruct (call_listeners _ _ _) as [[e|] ch].
Qed.

Lemma call_listeners_quiet t (old new : interp t) l :
  call_listeners old new l = (None, map (fun kc => Change t (snd kc) old new) l).
Proof. induction l as [|[k cb] l IH]; cbn; [done|]. by rewrite quiet, IH. Qed.

Lemma setValue_quiet t (x : ConfigVar t) v :
  ty_eqb t v (m_val x) = false ->
  ConfigVar_setValue x v =
  (None, ({| cv_name := cv_name x; cv_description := cv_description x; m_val := v; m_cbs := m_cbs x |},
          map (fun kc => Change t (snd kc) (m_val x) v) (m_cbs x))).
Proof. intros E. unfold ConfigVar_setValue. by rewrite E, call_listeners_quiet. Qed.

(** An assignment keeps every static in step with its variable. *)
Lemma follows_value t conv a cb v l0 w w' : value_step w w' -> follows t conv a cb v l0 w -> follows t conv a cb v l0 w'.
Proof.
  intros (b & tb & y & u & Hb & ->) (x & l & Ha & Hl & Hv & Hin & Ho).
  assert (forall c, listens cb (put_var w b (MkVar tb (fst (snd (ConfigVar_setValue y u)))) (snd (snd (ConfigVar_setValue y u)))) c -> c = a) as Ho'.
  { intros c (tc & z & Hz & Hc). apply Ho. destruct (decide (c = b)) as [->|Hne].
    - rewrite (put_var_same _ _ _ _ _ Hb) in Hz. same_var Hz. rewrite setValue_cbs in Hc. by exists tb, y.
    - rewrite put_var_other in Hz by done. by exists tc, z. }
  destruct (decide (b = a)) as [->|Hne].
  - rewrite Ha in Hb. same_var Hb.
    exists (fst (snd (ConfigVar_setValue x u))), (l ++ snd (snd (ConfigVar_setValue x u))). split_and!; [by eapply put_var_same| | | |done].
    + cbn. by rewrite Hl, app_assoc.
    + rewrite stored_app, Hv. destruct (ty_eqb t u (m_val x)) eqn:Eq; [unfold ConfigVar_setValue; by rewrite Eq|].
      rewrite (setValue_quiet _ _ _ Eq). cbn [fst snd m_val]. apply stored_round. by left.
    + by rewrite setValue_cbs.
  - exists x, (l ++ snd (snd (ConfigVar_setValue y u))). split_and!; [by rewrite put_var_other| | |done|done].
    + cbn. by rewrite Hl, app_assoc.
    + rewrite stored_app, Hv. destruct (ty_eqb tb u (m_val y)) eqn:Eq; [unfold ConfigVar_setValue; by rewrite Eq|].
      rewrite (setValue_quiet _ _ _ Eq). apply stored_others. intros Hc. apply Hne, Ho. by exists tb, y.
Qed.

(** So does a calm step that leaves the listener where it is. *)
Lemma follows_calm t conv a cb v l0 w w' :
  calm_step w w' -> (forall b, listens cb w' b <-> listens cb w b) ->
  follows t conv a cb v l0 w -> follows t conv a cb v l0 w'.
Proof.
  intros [Hc Hk] Hs (x & l & Ha & Hl & Hv & Hin & Ho). destruct (Hk a t x Ha) as (x' & Ha' & Hx').
  exists x', l. split_and!; [done|congruence|congruence| |intros b Hb; by apply Ho, Hs].
  destruct (proj2 (Hs a)) as (t2 & y & Hy & Hi); [by exists t, x|]. rewrite Ha' in Hy. by same_var Hy.
Qed.

Lemma cbs_set_in l key cb c : In c (map snd (cbs_set l key cb)) -> c = cb \/ In c (map snd l).
Proof.
  induction l as [|[k d] l IH]; cbn; [intros [<-|[]]; by left|].
  destruct (k =? key); [cbn; intros [<-|H]; auto|]. destruct (key <? k); cbn; [intros [<-|[<-|H]]; auto|].
  intros [<-|H]; [auto|]. destruct (IH H); auto.
Qed.

Lemma cbs_set_own l key cb : In cb (map snd (cbs_set l key cb)).
Proof.
  induction l as [|[k d] l IH]; cbn; [by left|]. destruct (k =? key); [by left|]. destruct (key <? k); [by left|]. by right.
Qed.

Lemma put_cbs_calm t w a (x : ConfigVar t) l : vars w !! a = Some (MkVar t x) ->
  calm_step w (put_var w a (MkVar t (put_cbs x l)) []).
Proof.
  intros Ha. split; [cbn; by rewrite app_nil_r|]. intros b tb y Hb. destruct (decide (b = a)) as [->|Hne].
  - rewrite Ha in Hb. same_var Hb. eexists. split; [by eapply put_var_same|done].
  - exists y. split; [by rewrite put_var_other|done].
Qed.

Lemma addListener_calm t w a cb id w' : Config_addListener t w a cb = Ok (id, w') ->
  calm_step w w' /\ (forall c b, c <> cb -> b <> a -> listens c w' b <-> listens c w b) /\
  (forall c, c <> cb -> listens c w' a -> listens c w a).
Proof.
  intros H. apply with_var_Ok in H as (x & Ha & H). injection H as _ <-.
  set (x' := put_cbs x _). set (w' := put_var w a (MkVar t x') []).
  assert (vars w' !! a = Some (MkVar t x')) as Ha' by (by eapply put_var_same).
  split; [exact (put_cbs_calm t w a x _ Ha)|split].
  - intros c b _ Hb. unfold listens. change (vars {| vars := _ |}) with (vars w'). unfold w'. by rewrite (put_var_other w a _ [] b).
  - intros c Hc (t2 & y & Hy & Hin). change (vars w' !! a = Some (MkVar t2 y)) in Hy. rewrite Ha' in Hy. same_var Hy.
    apply cbs_set_in in Hin as [?|Hin]; [done|]. by exists t, x.
Qed.

(** Adding the listener of one static keeps another in step. *)
Lemma follows_add t conv a cb v l0 w t2 a2 cb2 id w' :
  Config_addListener t2 w a2 cb2 = Ok (id, w') -> a2 <> a -> cb2 <> cb ->
  follows t conv a cb v l0 w -> follows t conv a cb v l0 w'.
Proof.
  intros H Ha Hcb (x & l & Hx & Hl & Hv & Hin & Ho).
  destruct (addListener_calm _ _ _ _ _ _ H) as (Hc & H1 & H2). eapply follows_calm; [exact Hc| |by exists x, l].
  intros b. destruct (decide (b = a2)) as [->|Hb]; [|by apply H1]. split; [by apply H2|].
  intros Hl2. by apply Ho in Hl2.
Qed.

(** A static read from its variable and then given a listener follows the variable. *)
Lemma follows_init t conv w a cb id w' (x : ConfigVar t) :
  vars w !! a = Some (MkVar t x) -> (forall b, ~ listens cb w b) ->
  Config_addListener t w a cb = Ok (id, w') -> follows t conv a cb (conv (m_val x)) (changes w) w'.
Proof.
  intros Ha Hno H. pose proof H as H'. apply with_var_Ok in H' as (x2 & Ha2 & H'). rewrite Ha in Ha2. same_var Ha2.
  injection H' as _ <-. eexists _, []. split_and!; [eapply (put_var_same w a _ _ []); exact Ha|done|done|apply cbs_set_own|].
  intros b (tb & y & Hy & Hin). destruct (decide (b = a)) as [->|Hb]; [done|]. exfalso. apply (Hno b). exists tb, y.
  split; [|done]. rewrite <- Hy. symmetry. by apply (put_var_other w a _ []).
Qed.

(** ** The steps of client code *)

Context {Y : Yaml}.

Lemma fromString_values w a s b w' : Base_fromString w a s = Ok (b, w') -> rtc value_step w w'.
Proof.
  unfold Base_fromString. destruct (vars w !! a) as [[t x]|] eqn:Ha; [|done]. cbn [deref].
  unfold ConfigVar_fromString. destruct (from_str s) as [v|].
  - destruct (ConfigVar_setValue x v) as [e [x' ch]] eqn:E. intros [= _ <-]. apply rtc_once. exists a, t, x, v. by rewrite E.
  - intros [= _ <-]. replace (put_var w a (MkVar t x) []) with w; [apply rtc_refl|].
    destruct w as [vs ds f ch]. unfold put_var. cbn in *. by rewrite app_nil_r, list_insert_id.
Qed.

Lemma load_values l : forall w w', load_all w l = Ok w' -> rtc value_step w w'.
Proof.
  induction l as [|[key n] l IH]; cbn [load_all]; intros w w' H; [injection H as ->; apply rtc_refl|].
  destruct (load_one w (key, n)) as [w1| | | |] eqn:E; try done. cbn [obind] in H.
  transitivity w1; [|by apply IH]. revert E. unfold load_one. cbn [fst snd].
  destruct key as [|c key]; [intros [= ->]; apply rtc_refl|].
  destruct (Config_LookupBase w _) as [a|]; [|intros [= ->]; apply rtc_refl].
  destruct (Base_fromString w a (node_text n)) as [[b w2]| | | |] eqn:E2; cbn [obind]; try done.
  intros [= <-]. by eapply fromString_values.
Qed.

(** Assignments leave every listener where it is. *)
Lemma value_steps_listens w w' cb b : rtc value_step w w' -> listens cb w' b <-> listens cb w b.
Proof.
  induction 1 as [|w w1 w' (a & t & x & v & Ha & ->) _ IH]; [done|]. rewrite IH. clear IH.
  unfold listens. destruct (decide (b = a)) as [->|Hne]; [|by rewrite put_var_other].
  rewrite (put_var_same _ _ _ _ _ Ha), Ha. split; intros (t2 & y & Hy & Hin); same_var Hy.
  - rewrite setValue_cbs in Hin. by exists t, x.
  - eexists _, _. split; [reflexivity|]. by rewrite setValue_cbs.
Qed.

(** Every step of client code is a sequence of assignments or calm. *)
Lemma config_step_cases w w' : config_step w w' -> rtc value_step w w' \/ calm_step w w'.
Proof.
  intros Hs. destruct Hs as [t name d desc r w' Hop|t a v e w' Hop|a s b w' Hop|t a cb id w' Hop|t a key x Ha|t a x Ha|root w' Hop].
  - right. revert Hop. unfold Config_Lookup_default. destruct (s_datas w !! name) as [a|].
    + unfold deref. destruct (vars w !! a) as [u|]; [|done]. destruct (dynamic_cast t u); intros [= _ <-]; split; eauto.
    + destruct (non_null _); [done|]. intros [= _ <-]. split; [done|]. cbn. intros b tb x Hb. exists x.
      by rewrite (lookup_app_l_Some _ _ _ _ Hb).
  - left. apply with_var_Ok in Hop as (x & Ha & Hop). destruct (ConfigVar_setValue x v) as [e' [x' ch]] eqn:E.
    injection Hop as _ <-. apply rtc_once. exists a, t, x, v. by rewrite E.
  - left. by eapply fromString_values.
  - right. by eapply addListener_calm.
  - right. by eapply put_cbs_calm.
  - right. by eapply put_cbs_calm.
  - left. by eapply load_values.
Qed.

(** A step of code that neither removes the listeners [own] nor registers them again. *)
Definition undisturbed (own : nat -> Prop) (w w' : Registry) : Prop :=
  config_step w w' /\ forall cb, own cb -> forall b, listens cb w' b <-> listens cb w b.

Lemma follows_steps own t conv a cb v l0 w w' : own cb ->
  rtc (undisturbed own) w w' -> follows t conv a cb v l0 w -> follows t conv a cb v l0 w'.
Proof.
  intros Hcb. induction 1 as [|w w1 w' [Hs Hl] _ IH]; [done|]. intros Hf. apply IH. clear IH.
  apply config_step_cases in Hs as [Hs|Hs]; [|by eapply follows_calm; eauto].
  clear Hl. induction Hs as [|w w2 w1 Hs _ IH]; [done|]. by eapply IH, follows_value.
Qed.

Lemma follows_value_of t conv a cb v l0 w : follows t conv a cb v l0 w ->
  exists l y, changes w = l0 ++ l /\ Config_getValue t w a = Ok y /\ stored t conv cb v l = conv y.
Proof.
  intros (x & l & Ha & Hl & Hv & _). exists l, (m_val x). split_and!; [done| |done].
  unfold Config_getValue, with_var. rewrite Ha. cbn [deref]. by rewrite dynamic_cast_eq.
Qed.

(** A static that has been read and whose listener is not registered yet. *)
Definition ready (t : ty) (conv : interp t -> Z) (a cb : nat) (v : Z) (l0 : list change) (w : Registry) : Prop :=
  exists x : ConfigVar t, vars w !! a = Some (MkVar t x) /\ conv (m_val x) = v /\ changes w = l0 /\ forall b, ~ listens cb w b.

Lemma ready_add t conv a cb v l0 w t2 a2 cb2 q :
  Config_addListener t2 w a2 cb2 = Ok q -> cb2 <> cb -> ready t conv a cb v l0 w -> ready t conv a cb v l0 (snd q).
Proof.
  destruct q as [id w']. intros H Hcb (x & Ha & Hv & Hl & Hno). destruct (addListener_calm _ _ _ _ _ _ H) as ([Hc Hk] & H1 & H2).
  destruct (Hk a t x Ha) as (x' & Ha' & Hx'). exists x'. split_and!; [done|congruence|cbn; congruence|].
  intros b Hb. destruct (decide (b = a2)) as [->|Hne]; [by eapply Hno, H2; eauto|]. apply (Hno b), H1; auto.
Qed.

Lemma ready_follows t conv a cb v l0 w q :
  Config_addListener t w a cb = Ok q -> ready t conv a cb v l0 w -> follows t conv a cb v l0 (snd q).
Proof. destruct q as [id w']. intros H (x & Ha & <- & <- & Hno). by eapply follows_init. Qed.

Lemma ready_read t conv a cb v w : read_static t conv w a = Ok v -> (forall b, ~ listens cb w b) -> ready t conv a cb v (changes w) w.
Proof.
  unfold read_static, Config_getValue. intros H Hno. destruct (with_var t w a _) as [y| | | |] eqn:E; try done.
  injection H as <-. apply with_var_Ok in E as (x & Ha & [= <-]). by exists x.
Qed.

(** Looking a variable up keeps every listener, and gives the name its address. *)
Lemma lookup_static_spec t w name d desc a w' : lookup_static t w name d desc = Ok (a, w') -> reg_wf w ->
  reg_wf w' /\ evolves w w' /\ s_datas w' !! name = Some a /\ changes w' = changes w /\
  (forall cb b, listens cb w' b -> listens cb w b).
Proof.
  unfold lookup_static. destruct (Config_Lookup_default t w name d desc) as [[r w2]| | | |] eqn:E; try done.
  cbn [obind fst snd]. destruct r as [a2|]; [|done]. intros [= -> ->] Hw.
  destruct (Lookup_default_spec _ _ _ _ _ _ _ E Hw) as [He Hw']. split; [done|]. split; [done|]. revert E. clear He Hw'.
  unfold Config_Lookup_default. destruct (s_datas w !! name) as [b|] eqn:En.
  - unfold deref. destruct (vars w !! b) as [u|]; [|done]. destruct (dynamic_cast t u); intros [= <- <-]. by split_and!.
  - destruct (non_null _); [done|]. intros [= <- <-]. cbn. split; [apply lookup_insert_eq|]. split; [done|].
    intros cb b (tb & x & Hb & Hin). apply lookup_app_Some in Hb as [Hb|[_ Hb]]; [by exists tb, x|].
    apply list_lookup_singleton_Some in Hb as [_ Hb]. apply (f_equal Some) in Hb. same_var Hb. done.
Qed.

(** Two names have two addresses. *)
Lemma names_apart w n1 n2 a1 a2 : reg_wf w -> s_datas w !! n1 = Some a1 -> s_datas w !! n2 = Some a2 -> n1 <> n2 -> a1 <> a2.
Proof.
  intros Hw H1 H2 Hne ->. destruct (Hw _ _ H1) as (v1 & E1 & <- & _). destruct (Hw _ _ H2) as (v2 & E2 & <- & _). congruence.
Qed.

End follow.

(** ** The settings of the program *)

Section programs.
Context {C : ConfigTypes} {Q : QuietListeners C} {N : NumberTypes C} {Y : Yaml}.

Lemma listener_id_inj base k k' : k <> k' -> listener_id base k <> listener_id base k'.
Proof. intros Hk. destruct k, k'; cbn; done || lia. Qed.

Definition size_names (g : size_vars) : list (bytes * nat) :=
  [(str "http.request.buffer_size", g_http_request_buffer_size g);
   (str "http.request.max_body_size", g_http_request_max_body_size g);
   (str "http.response.buffer_size", g_http_response_buffer_size g);
   (str "http.response.max_body_size", g_http_response_max_body_size g)].

(** The four pointers are those of four registered names. *)
Lemma lookup_sizes_spec w g w' : lookup_sizes w = Ok (g, w') -> reg_wf w ->
  reg_wf w' /\ (forall n a, In (n, a) (size_names g) -> s_datas w' !! n = Some a) /\
  (forall cb b, listens cb w' b -> listens cb w b).
Proof.
  unfold lookup_sizes. intros H Hw.
  destruct (lookup_static uint64_t w _ _ _) as [[a1 w1]| | | |] eqn:E1; try done. cbn [obind fst snd] in H.
  destruct (lookup_static uint64_t w1 _ _ _) as [[a2 w2]| | | |] eqn:E2; try done. cbn [obind fst snd] in H.
  destruct (lookup_static uint64_t w2 _ _ _) as [[a3 w3]| | | |] eqn:E3; try done. cbn [obind fst snd] in H.
  destruct (lookup_static uint64_t w3 _ _ _) as [[a4 w4]| | | |] eqn:E4; try done. cbn [obind fst snd] in H.
  injection H as <- <-.
  destruct (lookup_static_spec _ _ _ _ _ _ _ E1 Hw) as (Hw1 & _ & D1 & _ & L1).
  destruct (lookup_static_spec _ _ _ _ _ _ _ E2 Hw1) as (Hw2 & [V2 _] & D2 & _ & L2).
  destruct (lookup_static_spec _ _ _ _ _ _ _ E3 Hw2) as (Hw3 & [V3 _] & D3 & _ & L3).
  destruct (lookup_static_spec _ _ _ _ _ _ _ E4 Hw3) as (Hw4 & [V4 _] & D4 & _ & L4).
  split; [done|]. split; [|auto].
  intros n a. unfold size_names. cbn [In g_http_request_buffer_size g_http_request_max_body_size g_http_response_buffer_size g_http_response_max_body_size].
  intros [[= <- <-]|[[= <- <-]|[[= <- <-]|[[= <- <-]|[]]]]]; auto.
Qed.

(** After the constructor every limit follows its variable. *)
Lemma RequestSizeIniter_follows base g w s w' : RequestSizeIniter base g w = Ok (s, w') ->
  reg_wf w -> (forall n a, In (n, a) (size_names g) -> s_datas w !! n = Some a) ->
  (forall k b, ~ listens (listener_id base k) w b) ->
  let f k a v := follows uint64_t uint64_val a (listener_id base k) v (changes w) w' in
  f req_buffer (g_http_request_buffer_size g) (s_http_request_buffer_size s) /\
  f req_body (g_http_request_max_body_size g) (s_http_request_max_body_size s) /\
  f resp_buffer (g_http_response_buffer_size g) (s_http_response_buffer_size s) /\
  f resp_body (g_http_response_max_body_size g) (s_http_response_max_body_size s).
Proof.
  destruct g as [a1 a2 a3 a4]. unfold RequestSizeIniter, size_names. cbn [g_http_request_buffer_size g_http_request_max_body_size g_http_response_buffer_size g_http_response_max_body_size].
  intros H Hw Hn Hno.
  destruct (read_static _ _ w a1) as [v1| | | |] eqn:R1; try done. destruct (read_static _ _ w a2) as [v2| | | |] eqn:R2; try done.
  destruct (read_static _ _ w a3) as [v3| | | |] eqn:R3; try done. destruct (read_static _ _ w a4) as [v4| | | |] eqn:R4; try done.
  cbn [obind] in H.
  destruct (Config_addListener _ w a1 _) as [q1| | | |] eqn:A1; try done. cbn [obind] in H.
  destruct (Config_addListener _ (snd q1) a2 _) as [q2| | | |] eqn:A2; try done. cbn [obind] in H.
  destruct (Config_addListener _ (snd q2) a3 _) as [q3| | | |] eqn:A3; try done. cbn [obind] in H.
  destruct (Config_addListener _ (snd q3) a4 _) as [q4| | | |] eqn:A4; try done. cbn [obind] in H.
  injection H as <- <-. cbn [In] in Hn.
  assert (forall k k', k <> k' -> listener_id base k <> listener_id base k') as Hk by (intros; by apply listener_id_inj).
  assert (a2 <> a1 /\ a3 <> a1 /\ a4 <> a1 /\ a3 <> a2 /\ a4 <> a2 /\ a4 <> a3) as (?&?&?&?&?&?).
  { pose proof (Hn _ _ (or_introl eq_refl)) as N1. pose proof (Hn _ _ (or_intror (or_introl eq_refl))) as N2.
    pose proof (Hn _ _ (or_intror (or_intror (or_introl eq_refl)))) as N3.
    pose proof (Hn _ _ (or_intror (or_intror (or_intror (or_introl eq_refl))))) as N4.
    split_and!; (eapply names_apart; [exact Hw|eassumption|eassumption|by vm_compute]). }
  destruct q1 as [i1 w1], q2 as [i2 w2], q3 as [i3 w3], q4 as [i4 w4]. cbn [snd] in *.
  pose proof (ready_read _ _ _ _ _ _ R1 (Hno req_buffer)) as P1. pose proof (ready_read _ _ _ _ _ _ R2 (Hno req_body)) as P2.
  pose proof (ready_read _ _ _ _ _ _ R3 (Hno resp_buffer)) as P3. pose proof (ready_read _ _ _ _ _ _ R4 (Hno resp_body)) as P4.
  cbn zeta. split_and!.
  - eapply follows_add; [exact A4|done|by apply Hk|]. eapply follows_add; [exact A3|done|by apply Hk|].
    eapply follows_add; [exact A2|done|by apply Hk|]. exact (ready_follows _ _ _ _ _ _ _ _ A1 P1).
  - eapply follows_add; [exact A4|done|by apply Hk|]. eapply follows_add; [exact A3|done|by apply Hk|].
    apply (ready_follows _ _ _ _ _ _ _ _ A2), (ready_add _ _ _ _ _ _ _ _ _ _ _ A1); [by apply Hk|exact P2].
  - eapply follows_add; [exact A4|done|by apply Hk|]. apply (ready_follows _ _ _ _ _ _ _ _ A3).
    apply (ready_add _ _ _ _ _ _ _ _ _ _ _ A2); [by apply Hk|].
    apply (ready_add _ _ _ _ _ _ _ _ _ _ _ A1); [by apply Hk|exact P3].
  - apply (ready_follows _ _ _ _ _ _ _ _ A4), (ready_add _ _ _ _ _ _ _ _ _ _ _ A3); [by apply Hk|].
    apply (ready_add _ _ _ _ _ _ _ _ _ _ _ A2); [by apply Hk|].
    apply (ready_add _ _ _ _ _ _ _ _ _ _ _ A1); [by apply Hk|exact P4].
Qed.

Lemma RequestSizeIniter_keeps base g w s w' : RequestSizeIniter base g w = Ok (s, w') ->
  rtc config_step w w' /\ changes w' = changes w.
Proof.
  unfold RequestSizeIniter. do 4 (destruct (read_static _ _ w _) as [?| | | |]; try done). cbn [obind].
  destruct (Config_addListener _ w _ _) as [[i1 w1]| | | |] eqn:A1; try done. cbn [obind snd].
  destruct (Config_addListener _ w1 _ _) as [[i2 w2]| | | |] eqn:A2; try done. cbn [obind snd].
  destruct (Config_addListener _ w2 _ _) as [[i3 w3]| | | |] eqn:A3; try done. cbn [obind snd].
  destruct (Config_addListener _ w3 _ _) as [[i4 w4]| | | |] eqn:A4; try done. cbn [obind snd].
  intros [= _ <-]. split.
  - eapply rtc_l; [by eapply cs_addListener|]. eapply rtc_l; [by eapply cs_addListener|].
    eapply rtc_l; [by eapply cs_addListener|]. eapply rtc_l; [by eapply cs_addListener|]. apply rtc_refl.
  - destruct (addListener_calm _ _ _ _ _ _ A1) as ([? _] & _). destruct (addListener_calm _ _ _ _ _ _ A2) as ([? _] & _).
    destruct (addListener_calm _ _ _ _ _ _ A3) as ([? _] & _). destruct (addListener_calm _ _ _ _ _ _ A4) as ([? _] & _). congruence.
Qed.

Lemma init_sizes_wf base w g s w' : init_sizes base w = Ok (g, s, w') -> reg_wf w -> reg_wf w'.
Proof.
  unfold init_sizes. intros H Hw. destruct (lookup_sizes w) as [[g' w2]| | | |] eqn:E1; try done. cbn [obind fst snd] in H.
  destruct (RequestSizeIniter base g' w2) as [[s' w3]| | | |] eqn:E2; try done. injection H as -> -> ->.
  destruct (lookup_sizes_spec _ _ _ E1 Hw) as (Hw2 & _). destruct (RequestSizeIniter_keeps _ _ _ _ _ E2) as [Hc _].
  apply (config_steps_ok _ _ Hc Hw2).
Qed.

(** The limits of the parsers follow the configuration: in every state reached after
    the program's start by code that leaves the four listeners in place, whatever it
    sets, loads from YAML or registers, each of the four statics is the current value
    of the variable of its name. *)
Lemma limits_follow_config base w0 g s w1 w :
  rtc config_step empty_registry w0 -> (forall k b, ~ listens (listener_id base k) w0 b) ->
  init_sizes base w0 = Ok (g, s, w1) ->
  rtc (undisturbed (fun cb => exists k, cb = listener_id base k)) w1 w ->
  exists l v1 v2 v3 v4, changes w = changes w1 ++ l /\
    Config_getValue uint64_t w (g_http_request_buffer_size g) = Ok v1 /\
    Config_getValue uint64_t w (g_http_request_max_body_size g) = Ok v2 /\
    Config_getValue uint64_t w (g_http_response_buffer_size g) = Ok v3 /\
    Config_getValue uint64_t w (g_http_response_max_body_size g) = Ok v4 /\
    sizes_after base s l = mkSizes (uint64_val v1) (uint64_val v2) (uint64_val v3) (uint64_val v4) /\
    forall n a, In (n, a) (size_names g) -> s_datas w !! n = Some a.
Proof.
  intros Hr%reachable_reg_wf Hno H Hs. unfold init_sizes in H.
  destruct (lookup_sizes w0) as [[g' w2]| | | |] eqn:E1; try done. cbn [obind fst snd] in H.
  destruct (RequestSizeIniter base g' w2) as [[s' w3]| | | |] eqn:E2; try done. cbn [obind fst snd] in H.
  injection H as -> -> ->. destruct (lookup_sizes_spec _ _ _ E1 Hr) as (Hw2 & Hn & Hl).
  destruct (RequestSizeIniter_follows _ _ _ _ _ E2 Hw2 Hn) as (F1 & F2 & F3 & F4); [intros k b Hb; by eapply Hno, Hl|].
  destruct (RequestSizeIniter_keeps _ _ _ _ _ E2) as (Hc & Hch).
  assert (rtc config_step w2 w) as Hsteps.
  { transitivity w1; [done|]. clear -Hs. induction Hs as [|x y z [Hxy _] _ IH]; [apply rtc_refl|by eapply rtc_l]. }
  destruct (config_steps_ok _ _ Hsteps Hw2) as [[He _] _].
  assert (forall k a v, follows uint64_t uint64_val a (listener_id base k) v (changes w2) w1 ->
    exists l y, changes w = changes w1 ++ l /\ Config_getValue uint64_t w a = Ok y /\
      stored uint64_t uint64_val (listener_id base k) v l = uint64_val y) as Hf.
  { intros k a v F. rewrite <- Hch in F. eapply follows_value_of, follows_steps; [|exact Hs|exact F]. by exists k. }
  destruct (Hf _ _ _ F1) as (l & y1 & Hl1 & ? & S1). destruct (Hf _ _ _ F2) as (l2 & y2 & Hl2 & ? & S2).
  destruct (Hf _ _ _ F3) as (l3 & y3 & Hl3 & ? & S3). destruct (Hf _ _ _ F4) as (l4 & y4 & Hl4 & ? & S4).
  assert (l2 = l /\ l3 = l /\ l4 = l) as (-> & -> & ->) by (split_and!; apply (app_inv_head (changes w1)); congruence).
  exists l, y1, y2, y3, y4. split_and!; try done; [|by intros n a Hna; apply He, Hn].
  unfold sizes_after. by rewrite S1, S2, S3, S4.
Qed.

(** The connect time-out follows its variable in the same way; what [connect] uses is
    the [int] converted to 64 bits. *)
Lemma connect_timeout_follows cb w0 a s w1 w :
  rtc config_step empty_registry w0 -> (forall b, ~ listens cb w0 b) ->
  init_timeout cb w0 = Ok (a, s, w1) -> rtc (undisturbed (fun c => c = cb)) w1 w ->
  exists l v, changes w = changes w1 ++ l /\ Config_getValue int_t w a = Ok v /\
    stored int_t timeout_of cb s l = u64 (int_val v).
Proof.
  intros Hr%reachable_reg_wf Hno H Hs. unfold init_timeout, lookup_timeout, HookIniter in H.
  destruct (lookup_static int_t w0 _ _ _) as [[a' w2]| | | |] eqn:E1; try done. cbn [obind fst snd] in H.
  destruct (read_static _ _ w2 a') as [v| | | |] eqn:E2; try done. cbn [obind fst snd] in H.
  destruct (Config_addListener _ w2 a' cb) as [[id w3]| | | |] eqn:E3; try done. cbn [obind fst snd] in H. injection H as -> -> ->.
  destruct (lookup_static_spec _ _ _ _ _ _ _ E1 Hr) as (_ & _ & _ & _ & Hl).
  destruct (addListener_calm _ _ _ _ _ _ E3) as ([Hc _] & _). rewrite Hc.
  eapply follows_value_of, (follows_steps (fun c => c = cb)); [reflexivity|exact Hs|]. apply (ready_follows _ _ _ _ _ _ _ _ E3).
  eapply ready_read; [exact E2|]. intros b Hb. by eapply Hno, Hl.
Qed.

(** The start comes to an end: when each name is unregistered, or registered at its
    type, all four pointers are found, read and listened to. *)
Definition available (t : ty) (w : Registry) (n : bytes) : Prop :=
  forall a, s_datas w !! n = Some a -> exists x : ConfigVar t, vars w !! a = Some (MkVar t x).

Lemma lookup_static_ok t w n d desc : available t w n -> Forall (fun c => name_char c = true) n ->
  exists a w', lookup_static t w n d desc = Ok (a, w') /\ (exists x : ConfigVar t, vars w' !! a = Some (MkVar t x)) /\
    (forall b v, vars w !! b = Some v -> vars w' !! b = Some v) /\
    (forall m, available t w m -> available t w' m).
Proof.
  intros Ha Hn. unfold lookup_static, Config_Lookup_default. destruct (s_datas w !! n) as [a|] eqn:E.
  - destruct (Ha a E) as [x Hx]. rewrite Hx. cbn [deref]. rewrite dynamic_cast_eq. cbn [obind fst snd deref]. exists a, w. eauto.
  - pose proof (first_pos_spec (fun c => negb (name_char c)) n) as Hf. destruct (first_pos _ n) as [i|].
    { destruct Hf as (c & Hc & Hb & _). rewrite Forall_lookup in Hn. by rewrite (Hn i c Hc) in Hb. }
    cbn [non_null obind fst snd deref].
    assert (forall b v, vars w !! b = Some v -> (vars w ++ [MkVar t (ConfigVar_new t n d desc)]) !! b = Some v) as Hk
      by (intros; by apply lookup_app_l_Some).
    eexists _, _. split; [reflexivity|]. cbn. rewrite lookup_app_r, Nat.sub_diag by done. split_and!; [by eexists|done|].
    intros m Hm b. cbn. destruct (decide (n = m)) as [<-|Hne].
    + rewrite lookup_insert_eq. intros [= <-]. rewrite lookup_app_r, Nat.sub_diag by done. by eexists.
    + rewrite lookup_insert_ne by done. intros Hb. destruct (Hm b Hb) as [x Hx]. exists x. by apply Hk.
Qed.

Lemma read_static_ok t conv w a (x : ConfigVar t) : vars w !! a = Some (MkVar t x) -> read_static t conv w a = Ok (conv (m_val x)).
Proof. intros H. unfold read_static, Config_getValue, with_var. rewrite H. cbn [deref]. by rewrite dynamic_cast_eq. Qed.

Lemma addListener_ok t w a cb (x : ConfigVar t) : vars w !! a = Some (MkVar t x) ->
  exists q, Config_addListener t w a cb = Ok q /\
    forall b (y : ConfigVar t), vars w !! b = Some (MkVar t y) -> exists y', vars (snd q) !! b = Some (MkVar t y').
Proof.
  intros H. destruct (Config_addListener t w a cb) as [[id w']| | | |] eqn:E;
    [|unfold Config_addListener, with_var in E; rewrite H in E; cbn [deref] in E; by rewrite dynamic_cast_eq in E..].
  exists (id, w'). split; [done|]. intros b y Hb. destruct (addListener_calm _ _ _ _ _ _ E) as ([_ Hk] & _).
  destruct (Hk b t y Hb) as (y' & ? & _). by exists y'.
Qed.

Lemma init_sizes_ok base w :
  (forall n, In n (map fst (size_names (mkVars 0 0 0 0))) -> available uint64_t w n) ->
  exists g s w', init_sizes base w = Ok (g, s, w').
Proof.
  intros Ha. unfold init_sizes, lookup_sizes. unfold size_names in Ha. cbn [map fst In] in Ha.
  destruct (lookup_static_ok uint64_t w (str "http.request.buffer_size") (uint64_of (4 * 1024)) (str "http request buffer size"))
    as (a1 & w1 & -> & [x1 H1] & K1 & M1); [auto 12|by repeat constructor|]. cbn [obind fst snd].
  destruct (lookup_static_ok uint64_t w1 (str "http.request.max_body_size") (uint64_of (64 * 1024 * 1024)) (str "http request max body size"))
    as (a2 & w2 & -> & [x2 H2] & K2 & M2); [auto 12|by repeat constructor|]. cbn [obind fst snd].
  destruct (lookup_static_ok uint64_t w2 (str "http.response.buffer_size") (uint64_of (4 * 1024)) (str "http response buffer size"))
    as (a3 & w3 & -> & [x3 H3] & K3 & M3); [auto 12|by repeat constructor|]. cbn [obind fst snd].
  destruct (lookup_static_ok uint64_t w3 (str "http.response.max_body_size") (uint64_of (64 * 1024 * 1024)) (str "http response max body size"))
    as (a4 & w4 & -> & [x4 H4] & K4 & M4); [auto 12|by repeat constructor|]. cbn [obind fst snd].
  apply K2, K3, K4 in H1. apply K3, K4 in H2. apply K4 in H3. unfold RequestSizeIniter.
  cbn [g_http_request_buffer_size g_http_request_max_body_size g_http_response_buffer_size g_http_response_max_body_size].
  rewrite (read_static_ok _ _ _ _ _ H1), (read_static_ok _ _ _ _ _ H2), (read_static_ok _ _ _ _ _ H3), (read_static_ok _ _ _ _ _ H4).
  cbn [obind].
  destruct (addListener_ok _ _ _ (listener_id base req_buffer) _ H1) as (q1 & -> & Q1). cbn [obind].
  apply Q1 in H2 as [y2 H2], H3 as [y3 H3], H4 as [y4 H4].
  destruct (addListener_ok _ _ _ (listener_id base req_body) _ H2) as (q2 & -> & Q2). cbn [obind].
  apply Q2 in H3 as [z3 H3], H4 as [z4 H4].
  destruct (addListener_ok _ _ _ (listener_id base resp_buffer) _ H3) as (q3 & -> & Q3). cbn [obind].
  apply Q3 in H4 as [u4 H4].
  destruct (addListener_ok _ _ _ (listener_id base resp_body) _ H4) as (q4 & -> & _). cbn [obind]. by eexists _, _, _.
Qed.

End programs.

(** ** A run *)

(** Two numeric types whose texts are decimal. *)
Definition decimal_cast : LexicalCast Z := {| from_str s := Some (atoi s); to_str v := Some (dec v) |}.

Definition number_types : ConfigTypes := {|
  ty := bool; ty_eq_dec := _; interp := fun _ => Z; ty_cast := fun _ => decimal_cast; ty_eqb := fun _ => Z.eqb;
  listener_throws := fun _ _ _ _ => None
|}.

#[export] Instance number_types_quiet : QuietListeners number_types.
Proof. done. Qed.

#[export] Instance number_types_numbers : NumberTypes number_types :=
  {| uint64_t := (true : @ty number_types); int_t := (false : @ty number_types); uint64_of := fun x => x;
     uint64_val := fun x => x; int_of := fun x => x; int_val := fun x => x |}.

(** The program starts with the defaults; a document that names one limit changes that
    limit and no other. *)
Definition limits_document : yaml :=
  YMap [(YScalar (str "http"), YMap [(YScalar (str "request"), YMap [(YScalar (str "buffer_size"), YScalar (str "100"))])])].

Lemma limits_run :
  match @init_sizes number_types _ 0 empty_registry with
  | Ok (g, s, w1) =>
      s = mkSizes 4096 67108864 4096 67108864 /\
      match @Config_LoadFromYaml number_types sample_yaml w1 limits_document with
      | Ok w => sizes_after 0 s (changes w) = mkSizes 100 67108864 4096 67108864
      | _ => False
      end
  | _ => False
  end.
Proof. vm_compute. by split. Qed.

(** [limits_follow_config] at this run. *)
Lemma limits_follow_config_witness :
  exists g s w1 w l v1, @init_sizes number_types _ 0 empty_registry = Ok (g, s, w1) /\
    @Config_LoadFromYaml number_types sample_yaml w1 limits_document = Ok w /\ changes w = changes w1 ++ l /\
    Config_getValue uint64_t w (g_http_request_buffer_size g) = Ok v1 /\
    GetHttpRequestBufferSize (sizes_after 0 s l) = uint64_val v1.
Proof.
  destruct (@init_sizes_ok number_types _ 0 empty_registry) as (g & s & w1 & E).
  { intros n _ a Ha. cbn in Ha. by rewrite lookup_empty in Ha. }
  destruct (@load_all_ok number_types sample_yaml (ListAllMember [] limits_document) w1) as (w & El & _);
    [exact (@init_sizes_wf _ _ sample_yaml _ _ _ _ _ E empty_wf)|].
  assert (@undisturbed number_types sample_yaml (fun cb => exists k, cb = listener_id 0 k) w1 w) as Hu.
  { split; [by eapply cs_load|]. intros cb _ b. by apply value_steps_listens, (load_values _ _ _ El). }
  destruct (@limits_follow_config number_types _ _ sample_yaml 0 empty_registry g s w1 w (rtc_refl _ _)
    ltac:(intros k b (t & x & Hx & _); done) E (rtc_once _ _ Hu)) as (l & v1 & v2 & v3 & v4 & Hl & H1 & _ & _ & _ & Hs & _).
  exists g, s, w1, w, l, v1. refine (conj E (conj El (conj Hl (conj H1 _)))). rewrite Hs. reflexivity.
Defined.
