(* ===== verification/LogConfig.v ===== *)
(** * Logging from the configuration ([log.cc], "logs")

    [LogAppenderDefine] and [LogDefine] with their conversions from and to YAML, the
    listener [LogIniter] registers, which rebuilds loggers when the configuration
    changes, and the YAML dumps of loggers and appenders.  The theorems: what a
    definition keeps when it is written and read back, and what a change of the
    configuration does to every logger. *)

From S2P Require Import Prelude Text LogFormatter Logger LexicalCast.
From Stdlib Require Import ZArith Lia List String.
From stdpp Require Import base tactics list numbers option relations sorting.

Open Scope Z_scope.
Open Scope list_scope.

(** ** Definitions of loggers *)

(** @src log.cc:631-641 LogAppenderDefine *)
Record LogAppenderDefine := {
  lad_type : Z;
  lad_level : Z;
  lad_formatter : bytes;
  lad_file : bytes
}.

#[export] Instance LogAppenderDefine_eq_dec : EqDecision LogAppenderDefine.
Proof. solve_decision. Defined.

(** @src log.cc:643-659 LogDefine *)
Record LogDefine := {
  ld_name : bytes;
  ld_level : Z;
  ld_formatter : bytes;
  ld_appenders : list LogAppenderDefine
}.

(** The last conjunct compares [appenders] with itself. *)
(** @src log.cc:650-653 LogDefine::operator== *)
Definition LogDefine_eqb (i oth : LogDefine) : bool :=
  bool_decide (ld_name i = ld_name oth) && (ld_level i =? ld_level oth) &&
  bool_decide (ld_formatter i = ld_formatter oth) &&
  bool_decide (ld_appenders i = ld_appenders i).

(** @src log.cc:656-656 LogDefine::operator< *)
Definition LogDefine_lt (i oth : LogDefine) : bool := lex_lt (ld_name i) (ld_name oth).

(** @src log.cc:658-658 LogDefine::isValid *)
Definition LogDefine_isValid (i : LogDefine) : bool := match ld_name i with [] => false | _ => true end.

(** ** Conversions *)

(** What the code uses of yaml-cpp beyond [Load] and [<<]: [as<std::string>()]
    ([None] when it throws), and [node[x]] of a map node for an index [x]
    ([None] when there is no such key). *)
Class YamlAccess := {
  as_string : yaml -> option bytes;
  map_elem : list (yaml * yaml) -> nat -> option yaml
}.

Class YamlAccessLaws (A : YamlAccess) : Prop := {
  as_string_scalar : forall s, as_string (YScalar s) = Some s
}.

Fixpoint pairs_get (l : list (yaml * yaml)) (key : bytes) : option yaml :=
  match l with
  | [] => None
  | (YScalar k, v) :: l => if bool_decide (k = key) then Some v else pairs_get l key
  | _ :: l => pairs_get l key
  end.

(** [n[key]]: [Some None] is an undefined node; a scalar has no keys and throws. *)
Definition yaml_get (n : yaml) (key : bytes) : option (option yaml) :=
  match n with
  | YScalar _ => None
  | YMap l => Some (pairs_get l key)
  | _ => Some None
  end.

(** The nodes [n[x]] for [x] below [n.size()]; [None] is an undefined node. *)
Definition yaml_elems `{YamlAccess} (n : yaml) : list (option yaml) :=
  match n with
  | YSeq l => map Some l
  | YMap l => map (map_elem l) (seq 0 (length l))
  | _ => []
  end.

Section cast.
Context `{Yaml} `{YamlAccess}.

(** [n[key].as<std::string>()] when it is defined, [d] otherwise. *)
Definition get_string (n : yaml) (key d : bytes) : option bytes :=
  match yaml_get n key with
  | None => None
  | Some None => Some d
  | Some (Some v) => as_string v
  end.

(** One turn of the loop over the appenders: [Some None] is [continue]. *)
(** @src log.cc:683-712 LexicalCast<std::string, LogDefine> *)
Definition appender_from_node (a : option yaml) : option (option LogAppenderDefine) :=
  match a with
  | None => Some None
  | Some a =>
      match yaml_get a (str "type") with
      | None => None
      | Some None => Some None
      | Some (Some ty) =>
          match as_string ty with
          | None => None
          | Some ty =>
              if bool_decide (ty = str "FileLogAppender") then
                match yaml_get a (str "file") with
                | None => None
                | Some None => Some None
                | Some (Some f) =>
                    match as_string f, get_string a (str "formatter") [] with
                    | Some file, Some fmt =>
                        Some (Some {| lad_type := 1; lad_level := LogLevel_UNKNOW;
                                      lad_formatter := fmt; lad_file := file |})
                    | _, _ => None
                    end
                end
              else if bool_decide (ty = str "StdoutLogAppender") then
                match get_string a (str "formatter") [] with
                | Some fmt => Some (Some {| lad_type := 2; lad_level := LogLevel_UNKNOW;
                                            lad_formatter := fmt; lad_file := [] |})
                | None => None
                end
              else Some None
          end
      end
  end.

Definition keep_some {A} (l : list (option A)) : list A := omap id l.

(** @src log.cc:663-716 LexicalCast<std::string, LogDefine> *)
Definition LogDefine_from_str (v : bytes) : option LogDefine :=
  match Load v with
  | None => None
  | Some n =>
      match yaml_get n (str "name") with
      | Some (Some nm) =>
          match as_string nm, get_string n (str "level") [], get_string n (str "formatter") [],
                yaml_get n (str "appenders") with
          | Some name, Some level, Some fmt, Some ap =>
              match mapM_opt appender_from_node (match ap with Some a => yaml_elems a | None => [] end) with
              | Some l => Some {| ld_name := name; ld_level := LogLevel_FromString level;
                                  ld_formatter := fmt; ld_appenders := keep_some l |}
              | None => None
              end
          | _, _, _, _ => None
          end
      | _ => None
      end
  end.

(** [if (!v.empty()) n[key] = v]. *)
Definition opt_pair (key v : bytes) : list (yaml * yaml) :=
  match v with [] => [] | _ => [(YScalar key, YScalar v)] end.

(** [if (level != LogLevel::UNKNOW) n["level"] = LogLevel::ToString(level)]. *)
Definition level_pair (level : Z) : list (yaml * yaml) :=
  if level =? LogLevel_UNKNOW then [] else [(YScalar (str "level"), YScalar (LogLevel_ToString level))].

(** A node that was only assigned keys: null when there were none. *)
Definition assigned (l : list (yaml * yaml)) : yaml := match l with [] => YNull | _ => YMap l end.

(** @src log.cc:730-744 LexicalCast<LogDefine, std::string> *)
Definition appender_node (a : LogAppenderDefine) : yaml :=
  assigned (
    (if lad_type a =? 1 then [(YScalar (str "type"), YScalar (str "FileLogAppender"));
                              (YScalar (str "file"), YScalar (lad_file a))]
     else if lad_type a =? 2 then [(YScalar (str "type"), YScalar (str "StdoutLogAppender"))]
     else []) ++
    level_pair (lad_level a) ++ opt_pair (str "formatter") (lad_formatter a)).

(** @src log.cc:721-746 LexicalCast<LogDefine, std::string> *)
Definition LogDefine_node (i : LogDefine) : yaml :=
  YMap (
    [(YScalar (str "name"), YScalar (ld_name i))] ++ level_pair (ld_level i) ++
    opt_pair (str "formatter") (ld_formatter i) ++
    match ld_appenders i with
    | [] => []
    | l => [(YScalar (str "appenders"), YSeq (map appender_node l))]
    end).

(** @src log.cc:721-749 LexicalCast<LogDefine, std::string> *)
Definition LogDefine_to_str (i : LogDefine) : option bytes := Some (yaml_emit (LogDefine_node i)).

#[export] Instance LogDefine_cast : LexicalCast LogDefine :=
  {| from_str := LogDefine_from_str; to_str := LogDefine_to_str |}.

(** ** Dumps *)

(** [if (m_hasFormatter && m_formatter) node["formatter"] = m_formatter->getPattern()]. *)
Definition own_formatter_pair (x : LogAppender) : list (yaml * yaml) :=
  match ap_hasFormatter x, ap_formatter x with
  | true, Some f => [(YScalar (str "formatter"), YScalar (mLF_pattern f))]
  | _, _ => []
  end.

(** @src log.cc:393-408 FileLogAppender::toYamlString *)
Definition FileLogAppender_toYamlString (x : LogAppender) (m_filename : bytes) : bytes :=
  yaml_emit (YMap ([(YScalar (str "type"), YScalar (str "FileLogAppender"));
                    (YScalar (str "file"), YScalar m_filename)] ++
                   level_pair (ap_level x) ++ own_formatter_pair x)).

(** @src log.cc:419-432 StdoutLogAppender::toYamlString *)
Definition StdoutLogAppender_toYamlString (x : LogAppender) : bytes :=
  yaml_emit (YMap ([(YScalar (str "type"), YScalar (str "StdoutLogAppender"))] ++
                   level_pair (ap_level x) ++ own_formatter_pair x)).

Definition LogAppender_toYamlString (x : LogAppender) : bytes :=
  match ap_kind x with
  | FileLogAppender m_filename _ _ => FileLogAppender_toYamlString x m_filename
  | StdoutLogAppender => StdoutLogAppender_toYamlString x
  end.

(** @src log.cc:341-357 Logger::toYamlString *)
Definition Logger_toYamlString (w : World) (self : Logger) : outcome (option bytes) :=
  let! aps := (fix dump (l : list nat) : outcome (option (list yaml)) :=
    match l with
    | [] => Ok (Some [])
    | a :: l =>
        deref (appenders w !! a) (fun x =>
        match Load (LogAppender_toYamlString x) with
        | None => Ok None
        | Some n => let! r := dump l in Ok (option_map (cons n) r)
        end)
    end) (lg_appenders self) in
  Ok (match aps with
      | None => None
      | Some l =>
          Some (yaml_emit (YMap (
            [(YScalar (str "name"), YScalar (lg_name self))] ++ level_pair (lg_level self) ++
            match lg_formatter self with
            | Some f => [(YScalar (str "formatter"), YScalar (mLF_pattern f))]
            | None => []
            end ++
            match l with [] => [] | _ => [(YScalar (str "appenders"), YSeq l)] end)))
      end).

(** @src log.cc:832-841 LoggerManager::toYamlString *)
Definition LoggerManager_toYamlString (w : World) : outcome (option bytes) :=
  let! nodes := (fix dump (l : list (bytes * nat)) : outcome (option (list yaml)) :=
    match l with
    | [] => Ok (Some [])
    | (_, k) :: l =>
        deref (loggers w !! k) (fun self =>
        let! s := Logger_toYamlString w self in
        match match s with Some s => Load s | None => None end with
        | None => Ok None
        | Some n => let! r := dump l in Ok (option_map (cons n) r)
        end)
    end) (m_loggers w) in
  Ok (option_map (fun l => yaml_emit (push_back_all l)) nodes).
End cast.

(** ** The listener *)

Section listener.
Context (can_open : bytes -> bool) (time_text : Z -> bytes -> bytes).

(** [new_event] is the place and the moment of a log call, [ptr_text] how a pointer is printed. *)
Context (new_event : nat -> Z -> LogEvent) (ptr_text : nat -> bytes).

(** @src log.cc:787-811 LogIniter::LogIniter *)
Definition add_defined (w : World) (l : nat) (name : bytes) (a : LogAppenderDefine) : outcome World :=
  let! p :=
    if lad_type a =? 1 then
      let '(x, e) := FileLogAppender_new can_open (lad_file a) in Ok (alloc_appender (emit w e) x)
    else if lad_type a =? 2 then Ok (alloc_appender w StdoutLogAppender_new)
    else UB in
  let ap := fst p in
  let! w := LogAppender_setLevel (snd p) ap (lad_level a) in
  let! w :=
    match lad_formatter a with
    | [] => Ok w
    | f =>
        let fmt := LogFormatter_new f in
        if negb (m_error fmt) then LogAppender_setFormatter w ap (Some fmt)
        else Ok (emit w [Console (str "log.name=" ++ name ++ str " appender type=" ++ sdec (lad_type a) ++
                                  str " formatter=" ++ f ++ str " is invalid" ++ [10])])
    end in
  Logger_addAppender w l ap.

Fixpoint add_all_defined (w : World) (l : nat) (name : bytes) (as_ : list LogAppenderDefine) : outcome World :=
  match as_ with
  | [] => Ok w
  | a :: as_ => let! w := add_defined w l name a in add_all_defined w l name as_
  end.

(** @src log.cc:781-783 LogIniter::LogIniter *)
Definition set_formatter_nonempty (w : World) (l : nat) (f : bytes) : outcome World :=
  match f with [] => Ok w | _ => Logger_setFormatter_str w l f end.

(** @src log.cc:780-785 LogIniter::LogIniter *)
Definition setup_logger (w : World) (i : LogDefine) (l : nat) : outcome World :=
  let! w := Logger_setLevel w l (ld_level i) in
  let! w := set_formatter_nonempty w l (ld_formatter i) in
  Logger_clearAppenders w l.

(** @src log.cc:766-812 LogIniter::LogIniter *)
Definition apply_define (w : World) (i : LogDefine) : outcome World :=
  let '(logger, w) := LoggerManager_getLogger w (ld_name i) in
  let w := emit w [Console (str "** " ++ ld_name i ++ str " level=" ++ sdec (ld_level i) ++ str "  " ++
                            ptr_text logger ++ [10])] in
  let! w := setup_logger w i logger in
  add_all_defined w logger (ld_name i) (ld_appenders i).

(** Whether a definition of the new set is applied: it is new, or differs by [==]. *)
(** @src log.cc:764-775 LogIniter::LogIniter *)
Definition is_changed (old : list LogDefine) (i : LogDefine) : bool :=
  match set_find LogDefine_lt i old with
  | None => true
  | Some o => negb (LogDefine_eqb i o)
  end.

Fixpoint apply_new (w : World) (old new : list LogDefine) : outcome World :=
  match new with
  | [] => Ok w
  | i :: new =>
      let! w := if is_changed old i then apply_define w i else Ok w in
      apply_new w old new
  end.

(** @src log.cc:818-821 LogIniter::LogIniter *)
Definition remove_define (w : World) (i : LogDefine) : outcome World :=
  let '(logger, w) := LoggerManager_getLogger w (ld_name i) in
  let! w := Logger_setLevel w logger LogLevel_UNKNOW in
  Logger_clearAppenders w logger.

(** @src log.cc:815-823 LogIniter::LogIniter *)
Fixpoint remove_old (w : World) (old new : list LogDefine) : outcome World :=
  match old with
  | [] => Ok w
  | i :: old =>
      let! w := match set_find LogDefine_lt i new with None => remove_define w i | Some _ => Ok w end in
      remove_old w old new
  end.

(** @src log.cc:757-826 LogIniter::LogIniter *)
Definition on_logger_conf_changed (w : World) (old_value new_value : list LogDefine) : outcome World :=
  let! w := BIN_LOG_LEVEL can_open time_text 2 w (LoggerManager_getRoot w) LogLevel_INFO new_event
              (str "on_logger_conf_changed") in
  let! w := apply_new w old_value new_value in
  remove_old w old_value new_value.
End listener.

(** ** Writing and reading definitions *)

(** What the text of an appender keeps: everything but its level. *)
Definition forget_level (a : LogAppenderDefine) : LogAppenderDefine :=
  {| lad_type := lad_type a; lad_level := LogLevel_UNKNOW; lad_formatter := lad_formatter a;
     lad_file := lad_file a |}.

Definition appender_valid (a : LogAppenderDefine) : Prop :=
  lad_type a = 1 \/ (lad_type a = 2 /\ lad_file a = []).

(** Comparisons of literal keys. *)
Ltac decide_keys :=
  repeat match goal with
  | |- context [bool_decide (str ?a = str ?b)] =>
      let r := eval vm_compute in (bool_decide (str a = str b)) in
      change (bool_decide (str a = str b)) with r
  end; cbv beta iota.

Section roundtrip.
Context `{YamlLaws} `{YamlAccessLaws}.

Lemma pairs_get_app key l1 l2 :
  pairs_get (l1 ++ l2) key = match pairs_get l1 key with Some v => Some v | None => pairs_get l2 key end.
Proof.
  induction l1 as [|[k v] l1 IH]; cbn; [done|]. destruct k; try done. by case_bool_decide.
Qed.

Lemma pairs_get_opt key k v :
  pairs_get (opt_pair k v) key = if bool_decide (k = key) then match v with [] => None | _ => Some (YScalar v) end else None.
Proof. destruct v; cbn; by repeat case_bool_decide. Qed.

Lemma pairs_get_level key l :
  pairs_get (level_pair l) key =
  if bool_decide (str "level" = key) then (if l =? 0 then None else Some (YScalar (LogLevel_ToString l))) else None.
Proof. unfold level_pair, LogLevel_UNKNOW. destruct (l =? 0); cbn [pairs_get]; by repeat case_bool_decide. Qed.

Lemma get_formatter l1 f :
  pairs_get l1 (str "formatter") = None ->
  get_string (YMap (l1 ++ opt_pair (str "formatter") f)) (str "formatter") [] = Some f.
Proof.
  intros E. unfold get_string, yaml_get. rewrite pairs_get_app, E, pairs_get_opt.
  rewrite bool_decide_eq_true_2 by done. destruct f; [done|apply as_string_scalar].
Qed.

Lemma appender_round a : appender_valid a ->
  appender_from_node (Some (appender_node a)) = Some (Some (forget_level a)).
Proof.
  destruct a as [ty lv f fl]. unfold appender_valid, appender_node, forget_level. cbn [lad_type lad_level lad_formatter lad_file].
  intros [->|[-> ->]].
  - change (1 =? 1) with true. cbv beta iota. cbn [app assigned]. unfold appender_from_node.
    unfold yaml_get at 1. cbn [pairs_get]. decide_keys. rewrite as_string_scalar. decide_keys.
    unfold yaml_get at 1. cbn [pairs_get]. decide_keys. rewrite as_string_scalar.
    rewrite !app_comm_cons, get_formatter; [done|]. unfold level_pair. by destruct (lv =? LogLevel_UNKNOW).
  - change (2 =? 1) with false. change (2 =? 2) with true. cbv beta iota. cbn [app assigned].
    unfold appender_from_node. unfold yaml_get at 1. cbn [pairs_get]. decide_keys.
    rewrite as_string_scalar. decide_keys.
    rewrite !app_comm_cons, get_formatter; [done|]. unfold level_pair. by destruct (lv =? LogLevel_UNKNOW).
Qed.

Lemma appenders_round l : Forall appender_valid l ->
  mapM_opt appender_from_node (map Some (map appender_node l)) = Some (map Some (map forget_level l)).
Proof.
  induction 1 as [|a l Ha Hl IH]; [done|]. cbn [map mapM_opt]. by rewrite appender_round, IH.
Qed.

Lemma keep_some_map {B} (l : list B) : keep_some (map Some l) = l.
Proof. induction l as [|x l IH]; [done|]. unfold keep_some in *. cbn. by rewrite IH. Qed.

(** What the text of a logger definition keeps.  For every definition with a proper
    level and printable texts whose appenders are file or console appenders, [LexicalCast] writes YAML that
    reads back as the same name, level, formatter and appenders (type, file, formatter),
    except that every appender comes back with the level UNKNOW: the level is written
    but never read. *)
Lemma LogDefine_roundtrip i :
  0 <= ld_level i <= 5 -> Forall appender_valid (ld_appenders i) -> writable (LogDefine_node i) = true ->
  exists s, LogDefine_to_str i = Some s /\
    LogDefine_from_str s = Some {| ld_name := ld_name i; ld_level := ld_level i; ld_formatter := ld_formatter i;
                                   ld_appenders := map forget_level (ld_appenders i) |}.
Proof.
  intros Hl Ha Hw. unfold LogDefine_to_str. eexists. split; [done|]. unfold LogDefine_from_str.
  rewrite Load_emit by done. clear Hw. unfold LogDefine_node.
  set (aps := match ld_appenders i with [] => [] | _ => _ end).
  assert (Haps : forall k, k <> str "appenders" -> pairs_get aps k = None).
  { intros k Hk. unfold aps. destruct (ld_appenders i); [done|]. cbn [pairs_get]. by rewrite bool_decide_eq_false_2. }
  unfold get_string, yaml_get. rewrite !pairs_get_app, !pairs_get_level, !pairs_get_opt.
  rewrite !(Haps (str "level")), !(Haps (str "formatter")) by done.
  cbn [pairs_get]. decide_keys. rewrite as_string_scalar.
  assert (match match (if ld_level i =? 0 then None else Some (YScalar (LogLevel_ToString (ld_level i)))) with
                | Some v => Some v | None => None end with
          | Some v => as_string v | None => Some [] end =
          Some (if ld_level i =? 0 then [] else LogLevel_ToString (ld_level i))) as ->
    by (destruct (ld_level i =? 0); [done|apply as_string_scalar]).
  assert (match match match ld_formatter i with [] => None | _ => Some (YScalar (ld_formatter i)) end with
                | Some v => Some v | None => None end with
          | Some v => as_string v | None => Some [] end = Some (ld_formatter i)) as ->
    by (destruct (ld_formatter i); [done|apply as_string_scalar]).
  assert (match pairs_get aps (str "appenders") with Some a => yaml_elems a | None => [] end =
          map Some (map appender_node (ld_appenders i))) as -> by (unfold aps; by destruct (ld_appenders i)).
  rewrite appenders_round by done. rewrite keep_some_map. do 2 f_equal.
  destruct (ld_level i =? 0) eqn:E; [by apply Z.eqb_eq in E as ->|by apply LogLevel_text_roundtrip].
Qed.
End roundtrip.

Definition sample_access : YamlAccess :=
  {| as_string n := match n with YScalar s => Some s | _ => None end; map_elem _ _ := None |}.

Lemma sample_access_laws : YamlAccessLaws sample_access.
Proof. by split. Qed.

(** A logger with a file appender for errors only. *)
Definition sample_define : LogDefine :=
  {| ld_name := str "system"; ld_level := LogLevel_INFO; ld_formatter := str "%m%n";
     ld_appenders := [{| lad_type := 1; lad_level := LogLevel_ERROR; lad_formatter := []; lad_file := str "log.txt" |};
                      {| lad_type := 2; lad_level := LogLevel_UNKNOW; lad_formatter := str "%p %m%n"; lad_file := [] |}] |}.

Lemma LogDefine_roundtrip_witness :
  exists s, @LogDefine_to_str sample_yaml sample_define = Some s /\
    @LogDefine_from_str sample_yaml sample_access s =
    Some {| ld_name := str "system"; ld_level := LogLevel_INFO; ld_formatter := str "%m%n";
            ld_appenders := map forget_level (ld_appenders sample_define) |}.
Proof.
  pose proof sample_yaml_laws as HY. pose proof sample_access_laws as HA.
  apply (@LogDefine_roundtrip sample_yaml HY sample_access HA sample_define).
  - vm_compute. split; discriminate.
  - constructor; [left; reflexivity|constructor; [right; split; reflexivity|constructor]].
  - vm_compute. reflexivity.
Defined.

(** ** What the listener does *)

Section listener_facts.
Context (can_open : bytes -> bool) (ptr_text : nat -> bytes).

(** The formatter a definition gives its appender: its own when it parses, else that
    of the logger. *)
Definition defined_formatter (d : LogAppenderDefine) (x : Logger) : option LogFormatter :=
  match lad_formatter d with
  | [] => lg_formatter x
  | f => if m_error (LogFormatter_new f) then lg_formatter x else Some (LogFormatter_new f)
  end.

Definition kind_as_defined (d : LogAppenderDefine) (k : appender_kind) : Prop :=
  (lad_type d = 1 /\ exists s, k = FileLogAppender [] s 0) \/ (lad_type d = 2 /\ k = StdoutLogAppender).

(** Appender [y] of logger [x] is what definition [d] asks for. *)
Definition as_defined (x : Logger) (y : LogAppender) (d : LogAppenderDefine) : Prop :=
  ap_level y = lad_level d /\ kind_as_defined d (ap_kind y) /\ ap_formatter y = defined_formatter d x.

Lemma insert_at_end {A} (l : list A) x y : <[length l := y]> (l ++ [x]) = l ++ [y].
Proof. rewrite insert_app_r_alt by done. by rewrite Nat.sub_diag. Qed.

(** A world whose last appender is [z]. *)
Definition with_last (w : World) (base : list LogAppender) (z : LogAppender) : World :=
  {| loggers := loggers w; appenders := base ++ [z]; m_loggers := m_loggers w;
     mgr_root := mgr_root w; trace := trace w |}.

Lemma last_lookup (base : list LogAppender) z : (base ++ [z]) !! length base = Some z.
Proof. by rewrite lookup_app_r, Nat.sub_diag. Qed.

Lemma setLevel_last w base z v :
  LogAppender_setLevel (with_last w base z) (length base) v =
  Ok (with_last w base {| ap_kind := ap_kind z; ap_level := v; ap_hasFormatter := ap_hasFormatter z;
                          ap_formatter := ap_formatter z |}).
Proof.
  unfold LogAppender_setLevel. cbn [with_last appenders]. rewrite last_lookup. cbn [deref].
  unfold set_appender. cbn. by rewrite insert_at_end.
Qed.

Lemma setFormatter_last w base z f :
  LogAppender_setFormatter (with_last w base z) (length base) f =
  Ok (with_last w base {| ap_kind := ap_kind z; ap_level := ap_level z; ap_hasFormatter := non_null f;
                          ap_formatter := f |}).
Proof.
  unfold LogAppender_setFormatter. cbn [with_last appenders]. rewrite last_lookup. cbn [deref].
  unfold set_appender. cbn. by rewrite insert_at_end.
Qed.

Lemma addAppender_last w base z l x :
  loggers w !! l = Some x ->
  Logger_addAppender (with_last w base z) l (length base) =
  Ok (set_logger (with_last w base (if non_null (ap_formatter z) then z else put_formatter z (lg_formatter x))) l
        (put_appenders x (lg_appenders x ++ [length base]))).
Proof.
  intros Hl. unfold Logger_addAppender. cbn [with_last loggers appenders]. rewrite Hl, last_lookup. cbn [deref].
  destruct (non_null (ap_formatter z)); cbn [negb]; [done|].
  unfold set_appender. cbn. by rewrite insert_at_end.
Qed.

(** The world after one appender of a definition was built and added. *)
Record added (w w' : World) (l : nat) (x : Logger) (y : LogAppender) : Prop := {
  ad_loggers : loggers w' = <[l := put_appenders x (lg_appenders x ++ [length (appenders w)])]> (loggers w);
  ad_appenders : appenders w' = appenders w ++ [y];
  ad_names : m_loggers w' = m_loggers w;
  ad_root : mgr_root w' = mgr_root w
}.

Definition define_ok (d : LogAppenderDefine) : Prop := lad_type d = 1 \/ lad_type d = 2.

Lemma add_defined_spec w l name d x :
  loggers w !! l = Some x -> define_ok d ->
  exists w' y, add_defined can_open w l name d = Ok w' /\ added w w' l x y /\ as_defined x y d.
Proof.
  intros Hl Hd. unfold add_defined.
  set (x0 := if lad_type d =? 1 then fst (FileLogAppender_new can_open (lad_file d)) else StdoutLogAppender_new).
  set (w0 := if lad_type d =? 1 then emit w (snd (FileLogAppender_new can_open (lad_file d))) else w).
  assert (Hx0 : kind_as_defined d (ap_kind x0) /\ ap_formatter x0 = None).
  { unfold x0, kind_as_defined. destruct Hd as [->| ->]; cbn; split; eauto. }
  assert (Hw0 : loggers w0 = loggers w /\ appenders w0 = appenders w /\ m_loggers w0 = m_loggers w /\ mgr_root w0 = mgr_root w)
    by (unfold w0; by destruct (lad_type d =? 1)).
  destruct Hx0 as [Hk Hf], Hw0 as (H1 & H2 & H3 & H4).
  assert ((if lad_type d =? 1 then
             let '(x, e) := FileLogAppender_new can_open (lad_file d) in Ok (alloc_appender (emit w e) x)
           else if lad_type d =? 2 then Ok (alloc_appender w StdoutLogAppender_new) else UB) =
          Ok (length (appenders w), with_last w0 (appenders w) x0)) as ->
    by (unfold w0, x0; destruct Hd as [->| ->]; done).
  cbn [obind fst snd]. rewrite setLevel_last. cbn [obind]. unfold as_defined, defined_formatter.
  assert (Hfin : forall w1 z e, loggers w1 = loggers w -> m_loggers w1 = m_loggers w -> mgr_root w1 = mgr_root w ->
    exists w' y, Logger_addAppender (with_last (emit w1 e) (appenders w) z) l (length (appenders w)) = Ok w' /\
      added w w' l x y /\ y = if non_null (ap_formatter z) then z else put_formatter z (lg_formatter x)).
  { intros w1 z e E1 E2 E3. rewrite (addAppender_last _ _ _ l x) by (cbn; congruence).
    eexists. exists (if non_null (ap_formatter z) then z else put_formatter z (lg_formatter x)).
    split; [reflexivity|]. split; [split; cbn; congruence|done]. }
  assert (Hnil : forall z, with_last w0 (appenders w) z = with_last (emit w0 []) (appenders w) z)
    by (intros z; unfold with_last; cbn; by rewrite app_nil_r).
  destruct (lad_formatter d) as [|c f]; [|destruct (m_error (LogFormatter_new (c :: f)))]; cbn [negb obind].
  - rewrite Hnil. destruct (Hfin w0 {| ap_kind := ap_kind x0; ap_level := lad_level d; ap_hasFormatter := ap_hasFormatter x0;
      ap_formatter := ap_formatter x0 |} [] H1 H3 H4) as (w' & y & -> & Ha & ->).
    eexists _, _. split; [done|]. split; [exact Ha|]. by rewrite Hf.
  - change (emit (with_last w0 ?b ?z) ?e) with (with_last (emit w0 e) b z).
    edestruct Hfin as (w' & y & -> & Ha & ->); [exact H1|exact H3|exact H4|].
    eexists _, _. split; [done|]. split; [exact Ha|]. cbn. by rewrite Hf.
  - rewrite setFormatter_last. cbn [obind]. rewrite Hnil.
    edestruct Hfin as (w' & y & -> & Ha & ->); [exact H1|exact H3|exact H4|].
    eexists _, _. split; [done|]. split; [exact Ha|]. done.
Qed.

Lemma defined_formatter_some d x : non_null (lg_formatter x) = true -> non_null (defined_formatter d x) = true.
Proof. unfold defined_formatter. destruct (lad_formatter d); [done|]. by destruct (m_error _). Qed.

Lemma added_wf w w' l x y :
  world_wf w -> loggers w !! l = Some x -> added w w' l x y -> non_null (ap_formatter y) = true -> world_wf w'.
Proof.
  intros Hw Hl [H1 H2 H3 H4] Hy.
  assert (Hbase : world_wf (alloc_appender w y).2) by by apply wf_alloc_appender.
  assert (Hnew : world_wf (set_logger (alloc_appender w y).2 l (put_appenders x (lg_appenders x ++ [length (appenders w)])))).
  { apply wf_put_appenders; [done| |done]. apply Forall_app. split.
    - exact (ok_appenders _ _ (wf_logger _ l x Hbase Hl)).
    - constructor; [|done]. exists y. split; [apply last_lookup|done]. }
  revert Hnew. apply wf_mono; try done. intros a (z & Ha & Hz). exists z. by rewrite H2.
Qed.

Lemma put_appenders_twice x l1 l2 : put_appenders (put_appenders x l1) l2 = put_appenders x l2.
Proof. done. Qed.

Lemma add_all_defined_spec l name : forall ds w x,
  world_wf w -> loggers w !! l = Some x -> Forall define_ok ds ->
  exists w' ys, add_all_defined can_open w l name ds = Ok w' /\ world_wf w' /\
    loggers w' = <[l := put_appenders x (lg_appenders x ++ seq (length (appenders w)) (length ds))]> (loggers w) /\
    appenders w' = appenders w ++ ys /\ Forall2 (as_defined x) ys ds /\
    m_loggers w' = m_loggers w /\ mgr_root w' = mgr_root w.
Proof.
  induction ds as [|d ds IH]; intros w x Hw Hl Hds; cbn [add_all_defined length seq].
  - exists w, []. rewrite !app_nil_r. split_and!; try done.
    rewrite list_insert_id; [done|]. by destruct x.
  - apply Forall_cons_1 in Hds as [Hd Hds].
    destruct (add_defined_spec w l name d x Hl Hd) as (w1 & y & -> & Ha & Hy). cbn [obind].
    assert (Hw1 : world_wf w1).
    { eapply added_wf; [exact Hw|exact Hl|exact Ha|]. destruct Hy as (_ & _ & ->).
      apply defined_formatter_some, (wf_logger w l x Hw Hl). }
    destruct Ha as [H1 H2 H3 H4].
    destruct (IH w1 (put_appenders x (lg_appenders x ++ [length (appenders w)])) Hw1) as (w2 & ys & -> & ? & E1 & E2 & Hys & ? & ?);
      [|done|].
    { rewrite H1. apply list_lookup_insert_eq. by eapply lookup_lt_Some. }
    exists w2, (y :: ys). split_and!; try done; try congruence.
    + rewrite E1, H1, H2, list_insert_insert_eq, put_appenders_twice, length_app, Nat.add_1_r. cbn [put_appenders lg_appenders].
      by rewrite <- app_assoc.
    + rewrite E2, H2, <- app_assoc. done.
    + by constructor.
Qed.

(** ** One logger is rebuilt, the others stay *)

Record updates_only (w w' : World) (n : bytes) (l : nat) : Prop := {
  uo_wf : world_wf w';
  uo_find : loggers_find (m_loggers w') n = Some l;
  uo_names : forall m, m <> n -> loggers_find (m_loggers w') m = loggers_find (m_loggers w) m;
  uo_keep : forall k, loggers_find (m_loggers w) n = Some k -> k = l;
  uo_others : forall k, k <> l -> loggers w' !! k = loggers w !! k;
  uo_appenders : forall a y, appenders w !! a = Some y ->
    (forall x, loggers w !! l = Some x -> ~ In a (lg_appenders x)) -> appenders w' !! a = Some y;
  uo_fresh : forall x, loggers w' !! l = Some x -> Forall (fun a => length (appenders w) <= a)%nat (lg_appenders x)
}.

(** [getLogger] of a name: the logger, in a world that differs by that logger only. *)
Lemma getLogger_facts w n : world_wf w ->
  let '(l, w') := LoggerManager_getLogger w n in
  world_wf w' /\ loggers_find (m_loggers w') n = Some l /\ appenders w' = appenders w /\ trace w' = trace w /\
  mgr_root w' = mgr_root w /\
  (forall m, m <> n -> loggers_find (m_loggers w') m = loggers_find (m_loggers w) m) /\
  (forall k, loggers_find (m_loggers w) n = Some k -> k = l) /\
  (forall k, k <> l -> loggers w' !! k = loggers w !! k) /\
  (forall x, loggers w' !! l = Some x -> lg_appenders x = [] \/ loggers w !! l = Some x) /\
  exists x, loggers w' !! l = Some x.
Proof.
  intros Hw. pose proof (wf_getLogger w n Hw) as Hw'. unfold LoggerManager_getLogger in *.
  destruct (loggers_find (m_loggers w) n) as [l|] eqn:E.
  - destruct (wf_names w Hw n l E) as (x & Hx & _). split_and!; eauto; try done. by intros k [= ->].
  - cbn in *. split_and!; try done.
    + rewrite loggers_find_set. by rewrite bool_decide_eq_true_2.
    + intros m Hm. rewrite loggers_find_set. by rewrite bool_decide_eq_false_2.
    + intros k Hk. destruct (Nat.lt_ge_cases k (length (loggers w))).
      * by rewrite lookup_app_l.
      * rewrite !lookup_ge_None_2; [done|done|]. rewrite length_app. cbn. lia.
    + intros x Hx. left. rewrite lookup_app_r, Nat.sub_diag in Hx by done. by injection Hx as <-.
    + eexists. rewrite lookup_app_r, Nat.sub_diag by done. done.
Qed.

(** The logger's own record after its level and formatter were set. *)
Definition same_but_formatter (x x' : Logger) : Prop :=
  lg_name x' = lg_name x /\ lg_level x' = lg_level x /\ lg_appenders x' = lg_appenders x /\ lg_root x' = lg_root x.

Lemma setFormatter_str_facts w l x f :
  world_wf w -> loggers w !! l = Some x ->
  exists w' x', set_formatter_nonempty w l f = Ok w' /\ world_wf w' /\
    same_but_formatter x x' /\ loggers w' = <[l := x']> (loggers w) /\
    length (appenders w') = length (appenders w) /\
    (forall a y, appenders w !! a = Some y -> ~ In a (lg_appenders x) -> appenders w' !! a = Some y) /\
    m_loggers w' = m_loggers w /\ mgr_root w' = mgr_root w.
Proof.
  intros Hw Hl.
  assert (Hid : exists w' x', Ok w = Ok w' /\ world_wf w' /\ same_but_formatter x x' /\ loggers w' = <[l := x']> (loggers w) /\
    length (appenders w') = length (appenders w) /\
    (forall a y, appenders w !! a = Some y -> ~ In a (lg_appenders x) -> appenders w' !! a = Some y) /\
    m_loggers w' = m_loggers w /\ mgr_root w' = mgr_root w).
  { exists w, x. split_and!; try done. by rewrite list_insert_id. }
  destruct f as [|c f]; [exact Hid|]. unfold set_formatter_nonempty.
  destruct (Logger_setFormatter_str w l (c :: f)) as [w'| | | |] eqn:E.
  1: pose proof (wf_setFormatter_str w l (c :: f) w' Hw E) as Hw'.
  all: unfold Logger_setFormatter_str in E; rewrite Hl in E; cbn [deref] in E;
    destruct (m_error (LogFormatter_new (c :: f))); try done.
  { injection E as <-. exists (emit w [Console (str "Logger setFormatter name=" ++ lg_name x ++ str " value=" ++ (c :: f) ++
      str " invalid formatter" ++ [10])]), x. split_and!; try done. cbn. by rewrite list_insert_id. }
  all: unfold Logger_setFormatter in E; rewrite Hl in E; cbn [deref] in E; revert E;
    match goal with |- context [refresh_formatters ?w0 ?l0 (Some ?f0)] =>
      destruct (refresh_formatters_spec f0 l0 w0) as (w1 & -> & E1 & E2 & E3 & _ & E4) end; try done;
    try (eapply Forall_impl; [exact (ok_appenders _ _ (wf_logger w l x Hw Hl))|]; intros a (y & Hy & _); by exists y).
  intros [= <-]. exists w1. eexists. split; [done|]. split; [done|]. split; [|split; [exact E1|]].
  - done.
  - cbn in E4. split_and!; [|intros a y Hy Ha|exact E2|exact E3].
    + apply Nat.le_antisymm; apply Nat.nlt_ge; intros Hlt.
      * destruct (lookup_lt_is_Some_2 _ _ Hlt) as [y Hy]. rewrite E4, (lookup_ge_None_2 (appenders w)) in Hy by done. done.
      * destruct (lookup_lt_is_Some_2 _ _ Hlt) as [y Hy].
        pose proof (E4 (length (appenders w1))) as E5. rewrite Hy, lookup_ge_None_2 in E5 by done. done.
    + rewrite E4, Hy. rewrite bool_decide_eq_false_2; [done|]. by rewrite list_elem_of_In.
Qed.

Lemma Forall2_seq_lookup (x : Logger) base ys ds :
  Forall2 (as_defined x) ys ds ->
  Forall2 (fun a d => exists y, (base ++ ys) !! a = Some y /\ as_defined x y d) (seq (length base) (length ds)) ds.
Proof.
  intros H. revert base. induction H as [|y d ys ds Hy Hys IH]; intros base; cbn [length seq]; [constructor|].
  constructor.
  - exists y. split; [|done]. by rewrite lookup_app_r, Nat.sub_diag.
  - specialize (IH (base ++ [y])). rewrite <- app_assoc, length_app, Nat.add_1_r in IH. exact IH.
Qed.

Lemma setup_logger_spec w i l x :
  world_wf w -> loggers w !! l = Some x ->
  exists w' x', setup_logger w i l = Ok w' /\ world_wf w' /\ loggers w' = <[l := x']> (loggers w) /\
    lg_level x' = ld_level i /\ lg_appenders x' = [] /\ lg_name x' = lg_name x /\
    length (appenders w') = length (appenders w) /\
    (forall a y, appenders w !! a = Some y -> ~ In a (lg_appenders x) -> appenders w' !! a = Some y) /\
    m_loggers w' = m_loggers w /\ mgr_root w' = mgr_root w.
Proof.
  intros Hw Hl. unfold setup_logger. pose proof (lookup_lt_Some _ _ _ Hl) as Hlt.
  destruct (Logger_setLevel w l (ld_level i)) as [w1| | | |] eqn:E1.
  1: pose proof (wf_setLevel w l _ w1 Hw E1) as Hw1.
  all: unfold Logger_setLevel in E1; rewrite Hl in E1; cbn [deref] in E1; try done. injection E1 as <-.
  cbn [obind]. set (x1 := {| lg_name := lg_name x; lg_level := ld_level i |}) in *.
  destruct (setFormatter_str_facts (set_logger w l x1) l x1 (ld_formatter i) Hw1)
    as (w2 & x2 & -> & Hw2 & (Hn & Hlv & Hap & _) & H1 & H2 & H3 & H4 & H5);
    [by apply list_lookup_insert_eq|]. cbn [obind].
  assert (Hl2 : loggers w2 !! l = Some x2).
  { rewrite H1. apply list_lookup_insert_eq. cbn. by rewrite length_insert. }
  destruct (Logger_clearAppenders w2 l) as [w3| | | |] eqn:E3.
  1: pose proof (wf_clearAppenders w2 l w3 Hw2 E3) as Hw3.
  all: unfold Logger_clearAppenders in E3; rewrite Hl2 in E3; cbn [deref] in E3; try done. injection E3 as <-.
  eexists _, (put_appenders x2 []). split; [done|]. split; [done|]. cbn in *. rewrite H1.
  rewrite !list_insert_insert_eq. split_and!; try done.
Qed.

Lemma apply_define_spec w i :
  world_wf w -> Forall define_ok (ld_appenders i) ->
  exists w' l x, apply_define can_open ptr_text w i = Ok w' /\ updates_only w w' (ld_name i) l /\
    loggers w' !! l = Some x /\ lg_level x = ld_level i /\
    Forall2 (fun a d => exists y, appenders w' !! a = Some y /\ as_defined x y d) (lg_appenders x) (ld_appenders i).
Proof.
  intros Hw Hds. unfold apply_define. pose proof (getLogger_facts w (ld_name i) Hw) as Hg.
  destruct (LoggerManager_getLogger w (ld_name i)) as [l w1].
  destruct Hg as (Hw1 & Hf & Ha1 & _ & Hr1 & Hnames & Hkeep & Hoth & Hx1 & x1 & Hl1).
  set (w2 := emit w1 _).
  destruct (setup_logger_spec w2 i l x1) as (w3 & x3 & E & Hw3 & H1 & Hlv & Hap & Hn & Hlen & Hfr & H4 & H5);
    [by apply wf_emit|done|].
  rewrite E. cbn [obind]. pose proof (lookup_lt_Some _ _ _ Hl1) as Hlt.
  assert (Hl3 : loggers w3 !! l = Some x3) by (rewrite H1; by apply list_lookup_insert_eq).
  destruct (add_all_defined_spec l (ld_name i) (ld_appenders i) w3 x3 Hw3 Hl3 Hds)
    as (w4 & ys & -> & Hw4 & E1 & E2 & Hys & E3 & E4).
  assert (Hl4 : loggers w4 !! l = Some (put_appenders x3 (seq (length (appenders w3)) (length (ld_appenders i))))).
  { rewrite E1, Hap. apply list_lookup_insert_eq. by eapply lookup_lt_Some. }
  exists w4, l. eexists. split; [done|]. split; [|split; [exact Hl4|split; [exact Hlv|]]].
  2: { rewrite E2. cbn [lg_appenders put_appenders]. by apply (Forall2_seq_lookup (put_appenders x3 _)). }
  split; [done| | |done| | |].
  - by rewrite E3, H4.
  - intros m Hm. rewrite E3, H4. by apply Hnames.
  - intros k Hk. rewrite E1, H1, !list_lookup_insert_ne by done. by apply Hoth.
  - intros a y Hy Hnot. rewrite E2. apply lookup_app_l_Some, Hfr; [cbn; by rewrite Ha1|].
    destruct (Hx1 x1 Hl1) as [->|Hx]; [by intros []|by apply Hnot].
  - intros x Hx. rewrite Hl4 in Hx. injection Hx as <-. cbn. rewrite Hlen. cbn. rewrite Ha1.
    apply Forall_forall. intros a. rewrite list_elem_of_In, in_seq. lia.
Qed.

Lemma remove_define_spec w i :
  world_wf w ->
  exists w' l x, remove_define w i = Ok w' /\ updates_only w w' (ld_name i) l /\
    loggers w' !! l = Some x /\ lg_level x = LogLevel_UNKNOW /\ lg_appenders x = [].
Proof.
  intros Hw. unfold remove_define. pose proof (getLogger_facts w (ld_name i) Hw) as Hg.
  destruct (LoggerManager_getLogger w (ld_name i)) as [l w1].
  destruct Hg as (Hw1 & Hf & Ha1 & _ & Hr1 & Hnames & Hkeep & Hoth & Hx1 & x1 & Hl1).
  destruct (setup_logger_spec w1 {| ld_name := []; ld_level := LogLevel_UNKNOW; ld_formatter := []; ld_appenders := [] |} l x1)
    as (w3 & x3 & E & Hw3 & H1 & Hlv & Hap & Hn & Hlen & Hfr & H4 & H5); [done|done|].
  unfold setup_logger in E. cbn [ld_level ld_formatter] in E.
  assert (obind (Logger_setLevel w1 l LogLevel_UNKNOW) (fun w => Logger_clearAppenders w l) = Ok w3) as ->.
  { rewrite <- E. by destruct (Logger_setLevel w1 l LogLevel_UNKNOW). }
  pose proof (lookup_lt_Some _ _ _ Hl1) as Hlt.
  assert (Hl3 : loggers w3 !! l = Some x3) by (rewrite H1; by apply list_lookup_insert_eq).
  exists w3, l, x3. split; [done|]. split; [|done]. split; [done| | |done| | |].
  - by rewrite H4.
  - intros m Hm. rewrite H4. by apply Hnames.
  - intros k Hk. rewrite H1, list_lookup_insert_ne by done. by apply Hoth.
  - intros a y Hy Hnot. apply Hfr; [by rewrite Ha1|].
    destruct (Hx1 x1 Hl1) as [->|Hx]; [by intros []|by apply Hnot].
  - intros x Hx. rewrite Hl3 in Hx. injection Hx as <-. rewrite Hap. constructor.
Qed.

(** ** The whole listener *)

(** Logger [l] of world [w] is as definition [d] asks: its level, one appender per
    defined appender in order, each as defined and used by no other logger. *)
Definition configured (w : World) (d : LogDefine) : Prop :=
  exists l x, loggers_find (m_loggers w) (ld_name d) = Some l /\ loggers w !! l = Some x /\
    lg_level x = ld_level d /\
    Forall2 (fun a e => exists y, appenders w !! a = Some y /\ as_defined x y e) (lg_appenders x) (ld_appenders d) /\
    (forall k y a, k <> l -> loggers w !! k = Some y -> In a (lg_appenders x) -> ~ In a (lg_appenders y)).

Definition removed (w : World) (d : LogDefine) : Prop :=
  exists l x, loggers_find (m_loggers w) (ld_name d) = Some l /\ loggers w !! l = Some x /\
    lg_level x = LogLevel_UNKNOW /\ lg_appenders x = [].

(** Appenders attached somewhere are numbered below the next one. *)
Lemma attached_lt w k y a : world_wf w -> loggers w !! k = Some y -> In a (lg_appenders y) -> (a < length (appenders w))%nat.
Proof.
  intros Hw Hk Ha. pose proof (ok_appenders _ _ (wf_logger w k y Hw Hk)) as H. rewrite Forall_forall in H.
  destruct (H a) as (z & Hz & _); [by apply list_elem_of_In|]. by eapply lookup_lt_Some.
Qed.

Lemma names_distinct w n m k l :
  world_wf w -> loggers_find (m_loggers w) n = Some k -> loggers_find (m_loggers w) m = Some l -> n <> m -> k <> l.
Proof.
  intros Hw Hn Hm Hne ->. destruct (wf_names w Hw n l Hn) as (x & Hx & Hxn), (wf_names w Hw m l Hm) as (y & Hy & Hym).
  congruence.
Qed.

(** A logger that was just set up is exclusive: its appenders are new. *)
Lemma configured_now w w' i l x :
  world_wf w -> updates_only w w' (ld_name i) l -> loggers w' !! l = Some x -> lg_level x = ld_level i ->
  Forall2 (fun a d => exists y, appenders w' !! a = Some y /\ as_defined x y d) (lg_appenders x) (ld_appenders i) ->
  configured w' i.
Proof.
  intros Hw Hu Hl Hlv Hap. exists l, x. split_and!; [apply Hu|done|done|done|].
  intros k y a Hk Hy Ha Hin. rewrite (uo_others _ _ _ _ Hu k Hk) in Hy.
  pose proof (uo_fresh _ _ _ _ Hu x Hl) as Hf. rewrite Forall_forall in Hf.
  specialize (Hf a (proj2 (list_elem_of_In _ _) Ha)). pose proof (attached_lt w k y a Hw Hy Hin). lia.
Qed.

(** Setting up one logger keeps what was set up for another. *)
Lemma configured_frame w w' d n l :
  world_wf w -> configured w d -> updates_only w w' n l -> ld_name d <> n -> configured w' d.
Proof.
  intros Hw (k & x & Hf & Hk & Hlv & Hap & Hex) Hu Hne.
  assert (Hf' : loggers_find (m_loggers w') (ld_name d) = Some k) by (by rewrite (uo_names _ _ _ _ Hu)).
  assert (Hkl : k <> l) by (eapply names_distinct; [exact (uo_wf _ _ _ _ Hu)|exact Hf'|exact (uo_find _ _ _ _ Hu)|done]).
  exists k, x. split_and!; [done|by rewrite (uo_others _ _ _ _ Hu)|done| |].
  - eapply Forall2_impl; [|]. 2: intros a e H; exact H.
    apply Forall2_same_length_lookup in Hap as [Hlen Hap]. apply Forall2_same_length_lookup. split; [done|].
    intros j a e Ha He. destruct (Hap j a e Ha He) as (y & Hy & Hd). exists y. split; [|done].
    apply (uo_appenders _ _ _ _ Hu); [done|]. intros z Hz. apply (Hex l z a); [done|done|].
    apply list_elem_of_In. by eapply list_elem_of_lookup_2.
  - intros j y a Hj Hy Ha Hin. destruct (decide (j = l)) as [->|Hjl].
    + pose proof (uo_fresh _ _ _ _ Hu y Hy) as Hfr. rewrite Forall_forall in Hfr.
      specialize (Hfr a (proj2 (list_elem_of_In _ _) Hin)). pose proof (attached_lt w k x a Hw Hk Ha). lia.
    + rewrite (uo_others _ _ _ _ Hu) in Hy by done. by eapply (Hex j y a).
Qed.

Lemma removed_frame w w' d n l :
  removed w d -> updates_only w w' n l -> ld_name d <> n -> removed w' d.
Proof.
  intros (k & x & Hf & Hk & Hlv & Hap) Hu Hne.
  assert (Hf' : loggers_find (m_loggers w') (ld_name d) = Some k) by (by rewrite (uo_names _ _ _ _ Hu)).
  assert (Hkl : k <> l) by (eapply names_distinct; [exact (uo_wf _ _ _ _ Hu)|exact Hf'|exact (uo_find _ _ _ _ Hu)|done]).
  exists k, x. split_and!; [done|by rewrite (uo_others _ _ _ _ Hu)|done|done].
Qed.

(** A logger under another name is left alone. *)
Lemma untouched_frame w w' m n k l :
  world_wf w -> loggers_find (m_loggers w) m = Some k -> updates_only w w' n l -> m <> n ->
  loggers w' !! k = loggers w !! k /\ loggers_find (m_loggers w') m = Some k.
Proof.
  intros Hw Hf Hu Hne.
  assert (Hf' : loggers_find (m_loggers w') m = Some k) by (by rewrite (uo_names _ _ _ _ Hu)).
  split; [|done]. apply (uo_others _ _ _ _ Hu).
  eapply names_distinct; [exact (uo_wf _ _ _ _ Hu)|exact Hf'|exact (uo_find _ _ _ _ Hu)|done].
Qed.

Lemma apply_new_spec old : forall new w,
  world_wf w -> NoDup (map ld_name new) -> Forall (fun d => Forall define_ok (ld_appenders d)) new ->
  exists w', apply_new can_open ptr_text w old new = Ok w' /\ world_wf w' /\
    (forall d, In d new -> is_changed old d = true -> configured w' d) /\
    (forall d, configured w d -> ~ In (ld_name d) (map ld_name new) -> configured w' d) /\
    (forall n k, loggers_find (m_loggers w) n = Some k ->
       (forall d, In d new -> is_changed old d = true -> ld_name d <> n) ->
       loggers w' !! k = loggers w !! k /\ loggers_find (m_loggers w') n = Some k).
Proof.
  induction new as [|i new IH]; intros w Hw Hnd Hds; cbn [apply_new map].
  - exists w. split_and!; done.
  - apply NoDup_cons in Hnd as [Hi Hnd]. apply Forall_cons_1 in Hds as [Hid Hds].
    destruct (is_changed old i) eqn:Hch; cbn [obind].
    + destruct (apply_define_spec w i Hw Hid) as (w1 & l & x & -> & Hu & Hx & Hlv & Hap). cbn [obind].
      pose proof (uo_wf _ _ _ _ Hu) as Hw1.
      destruct (IH w1 Hw1 Hnd Hds) as (w2 & -> & Hw2 & H1 & H2 & H3). exists w2. split_and!; try done.
      * intros d [<-|Hd] Hc; [|by apply H1]. apply H2; [exact (configured_now w w1 i l x Hw Hu Hx Hlv Hap)|]. by rewrite <- list_elem_of_In.
      * intros d Hd Hn. cbn in Hn. apply H2; [|tauto]. eapply configured_frame; [exact Hw|exact Hd|exact Hu|].
        intros E. apply Hn. by left.
      * intros n k Hf Hn. assert (Hne : n <> ld_name i) by (intros ->; by apply (Hn i); [left| |]).
        destruct (untouched_frame w w1 n (ld_name i) k l Hw Hf Hu Hne) as [E1 Hf1].
        destruct (H3 n k Hf1) as [E2 Hf2]; [intros d Hd Hc; apply Hn; [by right|done]|]. split; congruence.
    + destruct (IH w Hw Hnd Hds) as (w2 & -> & Hw2 & H1 & H2 & H3). exists w2. split_and!; try done.
      * intros d [<-|Hd] Hc; [congruence|by apply H1].
      * intros d Hd Hn. apply H2; [done|]. cbn in Hn. tauto.
      * intros n k Hf Hn. apply H3; [done|]. intros d Hd Hc. apply Hn; [by right|done].
Qed.

End listener_facts.

Lemma set_find_None i l : set_find LogDefine_lt i l = None -> forall d, In d l -> ld_name d <> ld_name i.
Proof.
  induction l as [|y l IH]; cbn; [done|]. unfold LogDefine_lt at 1 2.
  destruct (negb _ && negb _) eqn:E; [done|]. intros Hf d [<-|Hd]; [|by apply IH]. intros En.
  rewrite En, lex_lt_irrefl in E. done.
Qed.

Lemma set_find_Some i l d : set_find LogDefine_lt i l = Some d -> In d l /\ ld_name d = ld_name i.
Proof.
  induction l as [|y l IH]; cbn; [done|]. destruct (negb _ && negb _) eqn:E.
  - intros [= <-]. split; [by left|]. apply andb_true_iff in E as [E1 E2].
    apply negb_true_iff in E1, E2. symmetry. by apply lex_lt_total.
  - intros Hf. destruct (IH Hf). auto.
Qed.

Lemma remove_old_spec new : forall old w,
  world_wf w -> NoDup (map ld_name old) ->
  exists w', remove_old w old new = Ok w' /\ world_wf w' /\
    (forall d, In d old -> set_find LogDefine_lt d new = None -> removed w' d) /\
    (forall d, removed w d -> ~ In (ld_name d) (map ld_name old) -> removed w' d) /\
    (forall d, configured w d -> In (ld_name d) (map ld_name new) -> configured w' d) /\
    (forall n k, loggers_find (m_loggers w) n = Some k ->
       (forall d, In d old -> set_find LogDefine_lt d new = None -> ld_name d <> n) ->
       loggers w' !! k = loggers w !! k /\ loggers_find (m_loggers w') n = Some k).
Proof.
  induction old as [|i old IH]; intros w Hw Hnd; cbn [remove_old map].
  - exists w. split_and!; done.
  - apply NoDup_cons in Hnd as [Hi Hnd]. destruct (set_find LogDefine_lt i new) as [o|] eqn:Hs; cbn [obind].
    + destruct (IH w Hw Hnd) as (w2 & -> & Hw2 & H1 & H2 & H3 & H4). exists w2. split_and!; try done.
      * intros d [<-|Hd] Hc; [congruence|by apply H1].
      * intros d Hd Hn. apply H2; [done|]. cbn in Hn. tauto.
      * intros n k Hf Hn. apply H4; [done|]. intros d Hd Hc. apply Hn; [by right|done].
    + destruct (remove_define_spec w i Hw) as (w1 & l & x & -> & Hu & Hx & Hlv & Hap). cbn [obind].
      pose proof (uo_wf _ _ _ _ Hu) as Hw1.
      destruct (IH w1 Hw1 Hnd) as (w2 & -> & Hw2 & H1 & H2 & H3 & H4). exists w2. split_and!; try done.
      * intros d [<-|Hd] Hc; [|by apply H1]. apply H2; [|by rewrite <- list_elem_of_In].
        exists l, x. split_and!; [apply Hu|done|done|done].
      * intros d Hd Hn. cbn in Hn. apply H2; [|tauto]. eapply removed_frame; [exact Hd|exact Hu|].
        intros E. apply Hn. by left.
      * intros d Hd Hn. apply H3; [|done]. eapply configured_frame; [exact Hw|exact Hd|exact Hu|].
        intros E. apply in_map_iff in Hn as (d' & E' & Hd'). apply (set_find_None i new Hs d' Hd'). congruence.
      * intros n k Hf Hn. assert (Hne : n <> ld_name i) by (intros ->; by apply (Hn i); [left| |]).
        destruct (untouched_frame w w1 n (ld_name i) k l Hw Hf Hu Hne) as [E1 Hf1].
        destruct (H4 n k Hf1) as [E2 Hf2]; [intros d Hd Hc; apply Hn; [by right|done]|]. split; congruence.
Qed.

Lemma set_names_NoDup l : StronglySorted (fun x y => LogDefine_lt x y = true) l -> NoDup (map ld_name l).
Proof.
  induction 1 as [|x l Hs IH Hx]; cbn; constructor; [|done]. rewrite list_elem_of_In. intros Hin.
  apply in_map_iff in Hin as (y & E & Hy). rewrite Forall_forall in Hx.
  specialize (Hx y (proj2 (list_elem_of_In _ _) Hy)). unfold LogDefine_lt in Hx.
  by rewrite E, lex_lt_irrefl in Hx.
Qed.

(** The message at the start of the listener leaves the setup as it is. *)
Lemma log_setup_same can_open time_text new_event w l level msg :
  world_wf w -> (l < length (loggers w))%nat -> m_logger (new_event l level) = l ->
  exists w', BIN_LOG_LEVEL can_open time_text 2 w l level new_event msg = Ok w' /\ same_setup w w'.
Proof.
  intros Hw Hl He. unfold BIN_LOG_LEVEL. destruct (lookup_lt_is_Some_2 _ _ Hl) as [x Hx]. rewrite Hx. cbn [deref].
  destruct (lg_level x <=? level); [|exists w; by split].
  unfold LogEventWrap_destroy. cbn [m_logger LogEvent_append]. rewrite He, Logger_log_routed by done.
  apply log_appenders_ok. by apply routed_ok.
Qed.

(** What a change of the logging configuration does.  In every reachable state, for
    an old and a new set of definitions (ordered by name, appenders of the two known
    types), the listener returns, and then: every definition of the new set that the
    code finds new or different has its logger at the defined level, with exactly the
    defined appenders in order (kind, level, own formatter when it parses, otherwise the
    logger's), shared with no other logger; every name that left the configuration has
    its logger at level UNKNOW with no appenders; and every other registered logger is
    the same record as before. *)
Lemma on_logger_conf_changed_spec can_open time_text new_event ptr_text w old new :
  rtc (log_step can_open time_text) initial_world w ->
  (forall l level, m_logger (new_event l level) = l) ->
  StronglySorted (fun x y => LogDefine_lt x y = true) old ->
  StronglySorted (fun x y => LogDefine_lt x y = true) new ->
  Forall (fun d => Forall define_ok (ld_appenders d)) new ->
  exists w', on_logger_conf_changed can_open time_text new_event ptr_text w old new = Ok w' /\
    (forall d, In d new -> is_changed old d = true -> configured w' d) /\
    (forall d, In d old -> set_find LogDefine_lt d new = None -> removed w' d) /\
    (forall n k, loggers_find (m_loggers w) n = Some k ->
       (forall d, In d new -> is_changed old d = true -> ld_name d <> n) ->
       (forall d, In d old -> set_find LogDefine_lt d new = None -> ld_name d <> n) ->
       loggers w' !! k = loggers w !! k /\ loggers_find (m_loggers w') n = Some k).
Proof.
  intros Hw He Hso Hsn Hds. apply reachable_wf in Hw. apply set_names_NoDup in Hso, Hsn.
  unfold on_logger_conf_changed, LoggerManager_getRoot. destruct (wf_root w Hw) as (r & Hr & _).
  destruct (log_setup_same can_open time_text new_event w (mgr_root w) LogLevel_INFO (str "on_logger_conf_changed"))
    as (w1 & -> & Hs); [done|by eapply lookup_lt_Some|apply He|]. cbn [obind].
  pose proof (same_setup_wf w w1 Hs Hw) as Hw1. destruct Hs as (E1 & E2 & _ & _).
  destruct (apply_new_spec can_open ptr_text old new w1 Hw1 Hsn Hds) as (w2 & -> & Hw2 & H1 & H2 & H3). cbn [obind].
  destruct (remove_old_spec new old w2 Hw2 Hso) as (w3 & -> & Hw3 & G1 & _ & G3 & G4).
  exists w3. split_and!; [done| |done|].
  - intros d Hd Hc. apply G3; [by apply H1|]. by apply in_map.
  - intros n k Hf Hn Ho. rewrite <- E2 in Hf. destruct (H3 n k Hf Hn) as [F1 F2]. destruct (G4 n k F2 Ho) as [F3 F4].
    split; congruence.
Qed.

(** A change from an empty configuration to one logger. *)
Lemma on_logger_conf_changed_spec_witness :
  exists w', on_logger_conf_changed (fun _ => true) (fun _ _ => []) 
      (fun l level => LogEvent_new l level [] 0 0 0 0 0 []) (fun _ => []) initial_world [] [sample_define] = Ok w' /\
    configured w' sample_define.
Proof.
  destruct (on_logger_conf_changed_spec (fun _ => true) (fun _ _ => [])
    (fun l level => LogEvent_new l level [] 0 0 0 0 0 []) (fun _ => []) initial_world [] [sample_define])
    as (w' & E & H1 & _).
  - apply rtc_refl.
  - reflexivity.
  - constructor.
  - repeat constructor.
  - constructor; [|constructor]. constructor; [left; reflexivity|]. constructor; [right; reflexivity|constructor].
  - exists w'. split; [exact E|]. apply H1; [left; reflexivity|reflexivity].
Defined.

(** A change of the appenders alone is not seen: [LogDefine::operator==] compares the
    appenders of a definition with themselves. *)
Lemma appender_change_ignored old i o :
  set_find LogDefine_lt i old = Some o -> ld_level i = ld_level o -> ld_formatter i = ld_formatter o ->
  is_changed old i = false.
Proof.
  intros Hf Hl Hfm. unfold is_changed. rewrite Hf. apply set_find_Some in Hf as [_ Hn]. unfold LogDefine_eqb.
  rewrite Hl, Hfm, Hn, Z.eqb_refl, !bool_decide_eq_true_2 by done. done.
Qed.
