(* ===== verification/AsyncStream.v ===== *)
(** * Asynchronous socket streams ([streams/async_socket_stream.cc])

    [AsyncSocketStream]: requests wait in a table keyed by their serial number until
    the reader, a timeout or the close of the stream answers them; messages to send
    go through a queue with a semaphore; two tickets make sure that the fibers of one
    connection are gone before the next is started.  Each operation is a definition
    over the state of the stream; the parts of the operations that other threads can
    come between are the steps of a transition system, over which the theorems are
    proved: every request is answered exactly once, no wake-up of the writer is lost,
    and one reader and one writer run at a time.  The manager's round robin follows. *)

From S2P Require Import Prelude.
From Stdlib Require Import ZArith Lia List.
From stdpp Require Import base tactics list numbers option gmap relations.

Open Scope Z_scope.
Open Scope list_scope.

(** ** Data *)

(** @src streams/async_socket_stream.h:24-29 AsyncSocketStream::Error *)
Definition ASYNC_TIMEOUT : Z := u32 (-1).
(** @src streams/async_socket_stream.h:24-29 AsyncSocketStream::Error *)
Definition ASYNC_IO_ERROR : Z := u32 (-2).

(** Schedulers, fibers, timers, callbacks and streams are numbered. *)
(** @src streams/async_socket_stream.h:45-52 AsyncSocketStream::Ctx *)
Record Ctx := {
  c_sn : Z;
  c_timeout : Z;
  c_result : Z;
  c_timed : bool;
  c_scheduler : option nat;
  c_fiber : option nat;
  c_timer : option nat
}.

(** @src streams/async_socket_stream.cc:10-16 AsyncSocketStream::Ctx::Ctx *)
Definition Ctx_new : Ctx :=
  {| c_sn := 0; c_timeout := 0; c_result := 0; c_timed := false; c_scheduler := None;
     c_fiber := None; c_timer := None |}.

(** What the stream does to the rest of the program. *)
Inductive action :=
| ASchedule (ctx scheduler fiber : nat)
| ACancel (timer : nat)
| AConnectCb (cb : nat)
| ADisconnectCb (cb : nat)
| ASocketClose
| AStartRead
| AStartWrite
| AAddTimer (ms : Z)
| ASend (ctx : nat).

(** [as_ctxs] is the heap of contexts; [m_ctxs] and [m_queue] hold numbers of it.  The
    semaphores are counts of tickets, as the model of [FiberSemaphore] is shown to
    behave. *)
(** @src streams/async_socket_stream.h:118-134 AsyncSocketStream *)
Record AsyncSocketStream := {
  as_ctxs : list Ctx;
  m_ctxs : gmap Z nat;
  m_queue : list nat;
  m_sem : nat;
  m_waitSem : nat;
  as_connected : bool;
  m_timer : option nat;
  m_autoConnect : bool;
  m_iomanager : option nat;
  m_worker : option nat;
  m_connectCb : option nat;
  m_disconnectCb : option nat;
  as_trace : list action
}.

(** Updates of one field. *)
Definition put_ctxs s v := {| as_ctxs := v; m_ctxs := m_ctxs s; m_queue := m_queue s; m_sem := m_sem s;
  m_waitSem := m_waitSem s; as_connected := as_connected s; m_timer := m_timer s; m_autoConnect := m_autoConnect s;
  m_iomanager := m_iomanager s; m_worker := m_worker s; m_connectCb := m_connectCb s;
  m_disconnectCb := m_disconnectCb s; as_trace := as_trace s |}.
Definition put_table s v := {| as_ctxs := as_ctxs s; m_ctxs := v; m_queue := m_queue s; m_sem := m_sem s;
  m_waitSem := m_waitSem s; as_connected := as_connected s; m_timer := m_timer s; m_autoConnect := m_autoConnect s;
  m_iomanager := m_iomanager s; m_worker := m_worker s; m_connectCb := m_connectCb s;
  m_disconnectCb := m_disconnectCb s; as_trace := as_trace s |}.
Definition put_queue s v := {| as_ctxs := as_ctxs s; m_ctxs := m_ctxs s; m_queue := v; m_sem := m_sem s;
  m_waitSem := m_waitSem s; as_connected := as_connected s; m_timer := m_timer s; m_autoConnect := m_autoConnect s;
  m_iomanager := m_iomanager s; m_worker := m_worker s; m_connectCb := m_connectCb s;
  m_disconnectCb := m_disconnectCb s; as_trace := as_trace s |}.
Definition put_sem s v := {| as_ctxs := as_ctxs s; m_ctxs := m_ctxs s; m_queue := m_queue s; m_sem := v;
  m_waitSem := m_waitSem s; as_connected := as_connected s; m_timer := m_timer s; m_autoConnect := m_autoConnect s;
  m_iomanager := m_iomanager s; m_worker := m_worker s; m_connectCb := m_connectCb s;
  m_disconnectCb := m_disconnectCb s; as_trace := as_trace s |}.
Definition put_waitSem s v := {| as_ctxs := as_ctxs s; m_ctxs := m_ctxs s; m_queue := m_queue s; m_sem := m_sem s;
  m_waitSem := v; as_connected := as_connected s; m_timer := m_timer s; m_autoConnect := m_autoConnect s;
  m_iomanager := m_iomanager s; m_worker := m_worker s; m_connectCb := m_connectCb s;
  m_disconnectCb := m_disconnectCb s; as_trace := as_trace s |}.
Definition put_connected s v := {| as_ctxs := as_ctxs s; m_ctxs := m_ctxs s; m_queue := m_queue s; m_sem := m_sem s;
  m_waitSem := m_waitSem s; as_connected := v; m_timer := m_timer s; m_autoConnect := m_autoConnect s;
  m_iomanager := m_iomanager s; m_worker := m_worker s; m_connectCb := m_connectCb s;
  m_disconnectCb := m_disconnectCb s; as_trace := as_trace s |}.
Definition put_timer s v := {| as_ctxs := as_ctxs s; m_ctxs := m_ctxs s; m_queue := m_queue s; m_sem := m_sem s;
  m_waitSem := m_waitSem s; as_connected := as_connected s; m_timer := v; m_autoConnect := m_autoConnect s;
  m_iomanager := m_iomanager s; m_worker := m_worker s; m_connectCb := m_connectCb s;
  m_disconnectCb := m_disconnectCb s; as_trace := as_trace s |}.
Definition put_autoConnect s v := {| as_ctxs := as_ctxs s; m_ctxs := m_ctxs s; m_queue := m_queue s; m_sem := m_sem s;
  m_waitSem := m_waitSem s; as_connected := as_connected s; m_timer := m_timer s; m_autoConnect := v;
  m_iomanager := m_iomanager s; m_worker := m_worker s; m_connectCb := m_connectCb s;
  m_disconnectCb := m_disconnectCb s; as_trace := as_trace s |}.
Definition put_managers s io wk := {| as_ctxs := as_ctxs s; m_ctxs := m_ctxs s; m_queue := m_queue s; m_sem := m_sem s;
  m_waitSem := m_waitSem s; as_connected := as_connected s; m_timer := m_timer s; m_autoConnect := m_autoConnect s;
  m_iomanager := io; m_worker := wk; m_connectCb := m_connectCb s;
  m_disconnectCb := m_disconnectCb s; as_trace := as_trace s |}.
Definition put_callbacks s c d := {| as_ctxs := as_ctxs s; m_ctxs := m_ctxs s; m_queue := m_queue s; m_sem := m_sem s;
  m_waitSem := m_waitSem s; as_connected := as_connected s; m_timer := m_timer s; m_autoConnect := m_autoConnect s;
  m_iomanager := m_iomanager s; m_worker := m_worker s; m_connectCb := c;
  m_disconnectCb := d; as_trace := as_trace s |}.
Definition act s l := {| as_ctxs := as_ctxs s; m_ctxs := m_ctxs s; m_queue := m_queue s; m_sem := m_sem s;
  m_waitSem := m_waitSem s; as_connected := as_connected s; m_timer := m_timer s; m_autoConnect := m_autoConnect s;
  m_iomanager := m_iomanager s; m_worker := m_worker s; m_connectCb := m_connectCb s;
  m_disconnectCb := m_disconnectCb s; as_trace := as_trace s ++ l |}.

(** @src streams/async_socket_stream.cc:37-44 AsyncSocketStream::AsyncSocketStream *)
Definition AsyncSocketStream_new (connected : bool) : AsyncSocketStream :=
  {| as_ctxs := []; m_ctxs := ∅; m_queue := []; m_sem := 0; m_waitSem := 2; as_connected := connected;
     m_timer := None; m_autoConnect := false; m_iomanager := None; m_worker := None; m_connectCb := None;
     m_disconnectCb := None; as_trace := [] |}.

(** ** Answering a request *)

Definition set_scheduler (x : Ctx) (v : option nat) : Ctx :=
  {| c_sn := c_sn x; c_timeout := c_timeout x; c_result := c_result x; c_timed := c_timed x;
     c_scheduler := v; c_fiber := c_fiber x; c_timer := c_timer x |}.
Definition set_result (x : Ctx) (v : Z) : Ctx :=
  {| c_sn := c_sn x; c_timeout := c_timeout x; c_result := v; c_timed := c_timed x;
     c_scheduler := c_scheduler x; c_fiber := c_fiber x; c_timer := c_timer x |}.
Definition set_timed (x : Ctx) : Ctx :=
  {| c_sn := c_sn x; c_timeout := c_timeout x; c_result := c_result x; c_timed := true;
     c_scheduler := c_scheduler x; c_fiber := c_fiber x; c_timer := c_timer x |}.
Definition clear_timer (x : Ctx) : Ctx :=
  {| c_sn := c_sn x; c_timeout := c_timeout x; c_result := c_result x; c_timed := c_timed x;
     c_scheduler := c_scheduler x; c_fiber := c_fiber x; c_timer := None |}.

Definition put_ctx (s : AsyncSocketStream) (c : nat) (x : Ctx) : AsyncSocketStream :=
  put_ctxs s (<[c := x]> (as_ctxs s)).

(** The compare-and-swap: [None] when it fails. *)
(** @src streams/async_socket_stream.cc:20-22 AsyncSocketStream::Ctx::doRsp *)
Definition doRsp_cas (x : Ctx) (scd : option nat) : option Ctx :=
  if bool_decide (c_scheduler x = scd) then Some (set_scheduler x None) else None.

(** The context when its fiber is scheduled. *)
(** @src streams/async_socket_stream.cc:26-33 AsyncSocketStream::Ctx::doRsp *)
Definition answered_ctx (x : Ctx) : Ctx :=
  let x := match c_timer x with Some _ => clear_timer x | None => x end in
  if c_timed x then set_result x ASYNC_TIMEOUT else x.

(** The rest, for the thread whose compare-and-swap succeeded. *)
(** @src streams/async_socket_stream.cc:23-34 AsyncSocketStream::Ctx::doRsp *)
Definition doRsp_finish (s : AsyncSocketStream) (c : nat) (x : Ctx) (scd : option nat) : AsyncSocketStream :=
  match scd, c_fiber x with
  | Some sc, Some f =>
      let s := match c_timer x with Some t => act s [ACancel t] | None => s end in
      act (put_ctx s c (answered_ctx x)) [ASchedule c sc f]
  | _, _ => s
  end.

(** @src streams/async_socket_stream.cc:18-35 AsyncSocketStream::Ctx::doRsp *)
Definition Ctx_doRsp (s : AsyncSocketStream) (c : nat) : outcome AsyncSocketStream :=
  deref (as_ctxs s !! c) (fun x =>
  let scd := c_scheduler x in
  match doRsp_cas x scd with
  | None => Ok s
  | Some x => Ok (doRsp_finish (put_ctx s c x) c x scd)
  end).

(** ** The table of requests *)

(** @src streams/async_socket_stream.cc:163-167 AsyncSocketStream::getCtx *)
Definition AsyncSocketStream_getCtx (s : AsyncSocketStream) (sn : Z) : option nat := m_ctxs s !! sn.

(** @src streams/async_socket_stream.cc:169-178 AsyncSocketStream::getAndDelCtx *)
Definition AsyncSocketStream_getAndDelCtx (s : AsyncSocketStream) (sn : Z) : option nat * AsyncSocketStream :=
  match m_ctxs s !! sn with
  | Some c => (Some c, put_table s (delete sn (m_ctxs s)))
  | None => (None, s)
  end.

(** [insert] keeps the entry a serial number has. *)
(** @src streams/async_socket_stream.cc:180-184 AsyncSocketStream::addCtx *)
Definition AsyncSocketStream_addCtx (s : AsyncSocketStream) (c : nat) : outcome (bool * AsyncSocketStream) :=
  deref (as_ctxs s !! c) (fun x =>
  Ok (true, match m_ctxs s !! c_sn x with
            | Some _ => s
            | None => put_table s (<[c_sn x := c]> (m_ctxs s))
            end)).

(** @src streams/async_socket_stream.cc:155-158 AsyncSocketStream::onTimeOut *)
Definition onTimeOut_erase (s : AsyncSocketStream) (x : Ctx) : AsyncSocketStream :=
  put_table s (delete (c_sn x) (m_ctxs s)).

(** @src streams/async_socket_stream.cc:154-161 AsyncSocketStream::onTimeOut *)
Definition AsyncSocketStream_onTimeOut (s : AsyncSocketStream) (c : nat) : outcome AsyncSocketStream :=
  deref (as_ctxs s !! c) (fun x =>
  let s := onTimeOut_erase s x in
  Ctx_doRsp (put_ctx s c (set_timed x)) c).

(** ** Sending *)

(** @src streams/async_socket_stream.cc:186-196 AsyncSocketStream::enqueue *)
Definition AsyncSocketStream_enqueue (s : AsyncSocketStream) (ctx : option nat) : outcome (bool * AsyncSocketStream) :=
  match ctx with
  | None => AssertFail
  | Some c =>
      let empty := match m_queue s with [] => true | _ => false end in
      let s := put_queue s (m_queue s ++ [c]) in
      Ok (empty, if empty then put_sem s (S (m_sem s)) else s)
  end.

(** ** Closing *)

Section stream.

(** [iter]: the order in which the entries of the hash table are walked; [this_iom]:
    [IOManager::GetThis()]. *)
Context (iter : gmap Z nat -> list (Z * nat)) (this_iom : option nat).

(** [for (auto &i : ctxs) { i.second->result = IO_ERROR; i.second->doRsp(); }]. *)
(** @src streams/async_socket_stream.cc:214-217 AsyncSocketStream::innerClose *)
Fixpoint answer_all (s : AsyncSocketStream) (l : list (Z * nat)) : outcome AsyncSocketStream :=
  match l with
  | [] => Ok s
  | (_, c) :: l =>
      deref (as_ctxs s !! c) (fun x =>
      let! s := Ctx_doRsp (put_ctx s c (set_result x ASYNC_IO_ERROR)) c in
      answer_all s l)
  end.

(** [SocketStream::close()]. *)
(** @src streams/socket_stream.cc:65-69 SocketStream::close *)
Definition close_socket (s : AsyncSocketStream) : AsyncSocketStream := act (put_connected s false) [ASocketClose].

(** Up to the loop: the requests that were in the table. *)
(** @src streams/async_socket_stream.cc:199-213 AsyncSocketStream::innerClose *)
Definition innerClose_swap (s : AsyncSocketStream) : outcome (gmap Z nat * AsyncSocketStream) :=
  assertb (bool_decide (m_iomanager s = this_iom)) (
  let s := match as_connected s, m_disconnectCb s with
           | true, Some cb => act s [ADisconnectCb cb]
           | _, _ => s
           end in
  let s := close_socket s in
  let s := put_sem s (S (m_sem s)) in
  let ctxs := m_ctxs s in
  Ok (ctxs, put_queue (put_table s ∅) [])).

(** @src streams/async_socket_stream.cc:198-219 AsyncSocketStream::innerClose *)
Definition AsyncSocketStream_innerClose (s : AsyncSocketStream) : outcome (bool * AsyncSocketStream) :=
  let! (ctxs, s) := innerClose_swap s in
  let! s := answer_all s (iter ctxs) in
  Ok (true, s).

(** @src streams/async_socket_stream.cc:227-234 AsyncSocketStream::close *)
Definition AsyncSocketStream_close (s : AsyncSocketStream) : AsyncSocketStream :=
  let s := put_autoConnect s false in
  let s := match m_timer s with Some t => act s [ACancel t] | None => s end in
  close_socket s.

(** ** The fibers of a connection *)

(** @src streams/async_socket_stream.cc:146-148 AsyncSocketStream::startRead *)
Definition AsyncSocketStream_startRead (s : AsyncSocketStream) : AsyncSocketStream := act s [AStartRead].
(** @src streams/async_socket_stream.cc:150-152 AsyncSocketStream::startWrite *)
Definition AsyncSocketStream_startWrite (s : AsyncSocketStream) : AsyncSocketStream := act s [AStartWrite].

(** Two [wait()]; with fewer than two tickets the fiber stays there. *)
(** @src streams/async_socket_stream.cc:221-225 AsyncSocketStream::waitFiber *)
Definition AsyncSocketStream_waitFiber (s : AsyncSocketStream) : outcome AsyncSocketStream :=
  match m_waitSem s with
  | S (S n) => Ok (put_waitSem s n)
  | _ => NoFuel
  end.

Definition cancel_timer (s : AsyncSocketStream) : AsyncSocketStream :=
  match m_timer s with Some t => put_timer (act s [ACancel t]) None | None => s end.

(** [reconnects]: what [m_socket->reconnect()] gives; [cb_ok]: what the connect
    callback gives; [new_timer]: the timer [addTimer] makes. *)
Context (reconnects cb_ok : bool) (new_timer : nat).

(** The block of the [do { } while (false)]: [inl] returned, [inr] left by [break]. *)
(** @src streams/async_socket_stream.cc:54-83 AsyncSocketStream::start *)
Definition start_block (s : AsyncSocketStream) : outcome (AsyncSocketStream + AsyncSocketStream) :=
  let! s := AsyncSocketStream_waitFiber s in
  let s := cancel_timer s in
  let fail s := let! p := AsyncSocketStream_innerClose s in
                Ok (inr (put_waitSem (snd p) (S (S (m_waitSem (snd p)))))) in
  if negb (as_connected s) && negb reconnects then fail s
  else
    let s := put_connected s true in
    let called := match m_connectCb s with Some cb => act s [AConnectCb cb] | None => s end in
    if non_null (m_connectCb s) && negb cb_ok then fail called
    else Ok (inl (AsyncSocketStream_startWrite (AsyncSocketStream_startRead called))).

(** @src streams/async_socket_stream.cc:46-95 AsyncSocketStream::start *)
Definition AsyncSocketStream_start (s : AsyncSocketStream) : outcome (bool * AsyncSocketStream) :=
  let s := put_managers s (if non_null (m_iomanager s) then m_iomanager s else this_iom)
                          (if non_null (m_worker s) then m_worker s else this_iom) in
  let! r := start_block s in
  match r with
  | inl s => Ok (true, s)
  | inr s => Ok (false, if m_autoConnect s
                        then put_timer (act (cancel_timer s) [AAddTimer 2000]) (Some new_timer) else s)
  end.

(** What [doRecv] does: it returns a context or not, and the connection may be gone
    afterwards; or it throws. *)
Inductive recv_event :=
| Got (ctx : option nat) (still_connected : bool)
| RecvThrows.

(** @src streams/async_socket_stream.cc:98-107 AsyncSocketStream::doRead *)
Fixpoint read_loop (s : AsyncSocketStream) (recvs : list recv_event) : outcome AsyncSocketStream :=
  if as_connected s then
    match recvs with
    | [] => NoFuel
    | RecvThrows :: _ => Ok s
    | Got ctx c :: recvs =>
        let s := put_connected s c in
        match ctx with
        | Some k => let! s := Ctx_doRsp s k in read_loop s recvs
        | None => read_loop s recvs
        end
    end
  else Ok s.

(** @src streams/async_socket_stream.cc:97-116 AsyncSocketStream::doRead *)
Definition AsyncSocketStream_doRead (s : AsyncSocketStream) (recvs : list recv_event) : outcome AsyncSocketStream :=
  let! s := read_loop s recvs in
  let! p := AsyncSocketStream_innerClose s in
  let s := put_waitSem (snd p) (S (m_waitSem (snd p))) in
  Ok (if m_autoConnect s then act s [AAddTimer 10] else s).

(** The messages of one round; [doSend] tells whether sending succeeds. *)
(** @src streams/async_socket_stream.cc:128-133 AsyncSocketStream::doWrite *)
Fixpoint send_all (doSend : nat -> bool) (s : AsyncSocketStream) (l : list nat) : outcome AsyncSocketStream :=
  match l with
  | [] => Ok s
  | c :: l =>
      let s := act s [ASend c] in
      if doSend c then send_all doSend s l
      else let! p := AsyncSocketStream_innerClose s in Ok (snd p)
  end.

(** [rounds] bounds the turns of the loop; with no ticket the fiber waits there. *)
(** @src streams/async_socket_stream.cc:120-134 AsyncSocketStream::doWrite *)
Fixpoint write_loop (doSend : nat -> bool) (rounds : nat) (s : AsyncSocketStream) : outcome AsyncSocketStream :=
  if as_connected s then
    match rounds, m_sem s with
    | S rounds, S n =>
        let ctxs := m_queue s in
        let! s := send_all doSend (put_queue (put_sem s n) []) ctxs in
        write_loop doSend rounds s
    | _, _ => NoFuel
    end
  else Ok s.

(** @src streams/async_socket_stream.cc:118-144 AsyncSocketStream::doWrite *)
Definition AsyncSocketStream_doWrite (doSend : nat -> bool) (rounds : nat) (s : AsyncSocketStream) :
    outcome AsyncSocketStream :=
  let! s := write_loop doSend rounds s in
  let s := put_queue s [] in
  Ok (put_waitSem s (S (m_waitSem s))).
End stream.

(** ** Requests under every interleaving *)

(** Where a thread that answers context [c] is: about to set the result or the timeout
    mark, about to read [scheduler], about to compare and swap with what it read, or
    past a successful swap. *)
Inductive rpc :=
| PResult
| PTimed
| PRead
| PCas (scd : option nat)
| PWin (scd : option nat).

(** The stream and the threads inside [doRsp]. *)
Record requests := { rq_stream : AsyncSocketStream; rq_threads : list (nat * rpc) }.

(** What a thread does next: the state, and the thread unless it is done. *)
Definition thread_step (s : AsyncSocketStream) (c : nat) (x : Ctx) (pc : rpc) : AsyncSocketStream * list (nat * rpc) :=
  match pc with
  | PResult => (put_ctx s c (set_result x ASYNC_IO_ERROR), [(c, PRead)])
  | PTimed => (put_ctx s c (set_timed x), [(c, PRead)])
  | PRead => (s, [(c, PCas (c_scheduler x))])
  | PCas scd => match doRsp_cas x scd with
                | Some x => (put_ctx s c x, [(c, PWin scd)])
                | None => (s, [])
                end
  | PWin scd => (doRsp_finish s c x scd, [])
  end.

(** [iter] and [this_iom] as above; the hash table is walked completely. *)
Section requests.
Context (iter : gmap Z nat -> list (Z * nat)) (this_iom : option nat).
Hypothesis iter_walks : forall m, iter m ≡ₚ map_to_list m.

(** The steps of threads inside [doRsp]. *)
Inductive rsp_step : requests -> requests -> Prop :=
| rs_thread s t1 t2 c pc x s' t' :
    as_ctxs s !! c = Some x -> thread_step s c x pc = (s', t') ->
    rsp_step {| rq_stream := s; rq_threads := t1 ++ (c, pc) :: t2 |} {| rq_stream := s'; rq_threads := t1 ++ t' ++ t2 |}.

(** A client registers a request under a serial number that no request ever had; the
    reader takes a request out of the table; a timer fires; the stream is closed; a thread
    moves.  The reader, the timer and the close go on inside [doRsp] as threads. *)
Inductive fine_step : requests -> requests -> Prop :=
| rs_add s ts x sc f s' :
    c_scheduler x = Some sc -> c_fiber x = Some f ->
    (forall k y, as_ctxs s !! k = Some y -> c_sn y <> c_sn x) ->
    AsyncSocketStream_addCtx (put_ctxs s (as_ctxs s ++ [x])) (length (as_ctxs s)) = Ok (true, s') ->
    fine_step {| rq_stream := s; rq_threads := ts |} {| rq_stream := s'; rq_threads := ts |}
| rs_recv s ts sn c s' :
    AsyncSocketStream_getAndDelCtx s sn = (Some c, s') ->
    fine_step {| rq_stream := s; rq_threads := ts |} {| rq_stream := s'; rq_threads := ts ++ [(c, PRead)] |}
| rs_timeout s ts c x :
    as_ctxs s !! c = Some x ->
    fine_step {| rq_stream := s; rq_threads := ts |} {| rq_stream := onTimeOut_erase s x; rq_threads := ts ++ [(c, PTimed)] |}
| rs_close s ts ctxs s' :
    innerClose_swap this_iom s = Ok (ctxs, s') ->
    fine_step {| rq_stream := s; rq_threads := ts |}
              {| rq_stream := s'; rq_threads := ts ++ map (fun p => (snd p, PResult)) (iter ctxs) |}
| rs_rsp q q' : rsp_step q q' -> fine_step q q'.

(** The steps of the program: those, and whole functions. *)
Inductive req_step : requests -> requests -> Prop :=
| rs_fine q q' : fine_step q q' -> req_step q q'
| rs_read_all s ts sn c s1 s' :
    AsyncSocketStream_getAndDelCtx s sn = (Some c, s1) -> Ctx_doRsp s1 c = Ok s' ->
    req_step {| rq_stream := s; rq_threads := ts |} {| rq_stream := s'; rq_threads := ts |}
| rs_timeout_all s ts c s' :
    AsyncSocketStream_onTimeOut s c = Ok s' ->
    req_step {| rq_stream := s; rq_threads := ts |} {| rq_stream := s'; rq_threads := ts |}
| rs_close_all s ts b s' :
    AsyncSocketStream_innerClose iter this_iom s = Ok (b, s') ->
    req_step {| rq_stream := s; rq_threads := ts |} {| rq_stream := s'; rq_threads := ts |}.

(** Whole functions are runs of the small steps. *)
Lemma doRsp_steps s t1 t2 c s' :
  Ctx_doRsp s c = Ok s' ->
  rtc rsp_step {| rq_stream := s; rq_threads := t1 ++ (c, PRead) :: t2 |} {| rq_stream := s'; rq_threads := t1 ++ t2 |}.
Proof.
  unfold Ctx_doRsp. destruct (as_ctxs s !! c) as [x|] eqn:Hc; [|done]. cbn [deref]. intros Hop.
  eapply rtc_l; [by eapply rs_thread|]. cbn [app].
  assert (doRsp_cas x (c_scheduler x) = Some (set_scheduler x None)) as E
    by (unfold doRsp_cas; by rewrite bool_decide_eq_true_2).
  rewrite E in Hop. injection Hop as <-.
  eapply rtc_l; [eapply rs_thread; [done|cbn [thread_step]; by rewrite E]|]. cbn [app].
  apply rtc_once. eapply (rs_thread _ t1 t2 c _ (set_scheduler x None) _ []); [|reflexivity].
  cbn. apply list_lookup_insert_eq. by eapply lookup_lt_Some.
Qed.

Lemma answer_all_steps l : forall s ts s',
  answer_all s l = Ok s' ->
  rtc rsp_step {| rq_stream := s; rq_threads := ts ++ map (fun p => (snd p, PResult)) l |} {| rq_stream := s'; rq_threads := ts |}.
Proof.
  induction l as [|[n c] l IH]; intros s ts s'; cbn [answer_all map snd].
  { intros [= <-]. by rewrite app_nil_r. }
  destruct (as_ctxs s !! c) as [x|] eqn:Hc; [|done]. cbn [deref].
  destruct (Ctx_doRsp _ c) as [s1| | | |] eqn:E; cbn [obind]; try done. intros Hl.
  eapply rtc_l; [by eapply rs_thread|]. cbn [app].
  etransitivity; [by eapply doRsp_steps|]. by apply IH.
Qed.

Lemma rsp_fine q q' : rtc rsp_step q q' -> rtc fine_step q q'.
Proof. induction 1; [done|]. eapply rtc_l; [by apply rs_rsp|done]. Qed.

Lemma req_step_fine q q' : req_step q q' -> rtc fine_step q q'.
Proof.
  intros Hs. destruct Hs as [q q' Hf|s ts sn c s1 s' Hg Hr|s ts c s' Ht|s ts b s' Hc].
  - by apply rtc_once.
  - eapply rtc_l; [by eapply rs_recv|]. apply rsp_fine.
    pose proof (doRsp_steps s1 ts [] c s' Hr) as H. by rewrite app_nil_r in H.
  - unfold AsyncSocketStream_onTimeOut in Ht. destruct (as_ctxs s !! c) as [x|] eqn:Hx; [|done]. cbn [deref] in Ht.
    eapply rtc_l; [by eapply rs_timeout|]. apply rsp_fine. eapply rtc_l; [by eapply (rs_thread _ ts [] c _ x)|]. cbn [app].
    pose proof (doRsp_steps _ ts [] c s' Ht) as H. by rewrite app_nil_r in H.
  - unfold AsyncSocketStream_innerClose in Hc. destruct (innerClose_swap this_iom s) as [[ctxs s1]| | | |] eqn:E; cbn [obind] in Hc; try done.
    destruct (answer_all s1 _) as [s2| | | |] eqn:Ea; cbn [obind] in Hc; try done. injection Hc as _ <-.
    eapply rtc_l; [by eapply rs_close|]. apply rsp_fine. by apply answer_all_steps.
Qed.

(** *** The invariant *)

(** How often a context was answered: its fiber scheduled. *)
Definition is_answer (c : nat) (a : action) : bool :=
  match a with ASchedule c' _ _ => (c' =? c)%nat | _ => false end.
Definition is_winner (c : nat) (t : nat * rpc) : bool :=
  (fst t =? c)%nat && match snd t with PWin (Some _) => true | _ => false end.

Definition answers (s : AsyncSocketStream) (c : nat) : nat := length (List.filter (is_answer c) (as_trace s)).
Definition winners (ts : list (nat * rpc)) (c : nat) : nat := length (List.filter (is_winner c) ts).
Definition armed (x : Ctx) : nat := if c_scheduler x then 1 else 0.

(** The right to answer a request is one token: in [scheduler], with one thread, or
    used.  An armed request is in the table under its number, or some thread is about
    to answer it. *)
Record req_inv (q : requests) : Prop := {
  ri_token : forall c x, as_ctxs (rq_stream q) !! c = Some x ->
    (armed x + winners (rq_threads q) c + answers (rq_stream q) c = 1)%nat;
  ri_fiber : forall c x, as_ctxs (rq_stream q) !! c = Some x -> is_Some (c_fiber x);
  ri_sn : forall c1 c2 x1 x2, as_ctxs (rq_stream q) !! c1 = Some x1 -> as_ctxs (rq_stream q) !! c2 = Some x2 ->
    c_sn x1 = c_sn x2 -> c1 = c2;
  ri_table : forall n c, m_ctxs (rq_stream q) !! n = Some c ->
    exists x, as_ctxs (rq_stream q) !! c = Some x /\ c_sn x = n;
  ri_threads : forall c pc, In (c, pc) (rq_threads q) -> exists x, as_ctxs (rq_stream q) !! c = Some x /\
    (forall scd sc, pc = PCas scd -> c_scheduler x = Some sc -> scd = Some sc);
  ri_pending : forall c x, as_ctxs (rq_stream q) !! c = Some x -> c_scheduler x <> None ->
    m_ctxs (rq_stream q) !! c_sn x = Some c \/
    exists pc, In (c, pc) (rq_threads q) /\ (forall scd, pc <> PWin scd);
  ri_answered : forall c, answers (rq_stream q) c <> 0%nat -> (c < length (as_ctxs (rq_stream q)))%nat
}.

Lemma answers_act s l c : answers (act s l) c = (answers s c + length (List.filter (is_answer c) l))%nat.
Proof. unfold answers. cbn. by rewrite List.filter_app, length_app. Qed.

Lemma winners_app t1 t2 c : winners (t1 ++ t2) c = (winners t1 c + winners t2 c)%nat.
Proof. unfold winners. by rewrite List.filter_app, length_app. Qed.

Lemma winners_cons t ts c : winners (t :: ts) c = ((if is_winner c t then 1 else 0) + winners ts c)%nat.
Proof. unfold winners. cbn. by destruct (is_winner c t). Qed.

(** A step of one thread on its context keeps the invariant when it keeps the token. *)
Lemma inv_thread s s' t1 t2 c pc x x' t' l :
  req_inv {| rq_stream := s; rq_threads := t1 ++ (c, pc) :: t2 |} ->
  as_ctxs s !! c = Some x -> as_ctxs s' = <[c := x']> (as_ctxs s) -> m_ctxs s' = m_ctxs s ->
  as_trace s' = as_trace s ++ l -> c_sn x' = c_sn x -> c_fiber x' = c_fiber x ->
  (forall d, length (List.filter (is_answer d) l) + winners t' d + (if (d =? c)%nat then armed x' else 0) =
             (if is_winner d (c, pc) then 1 else 0) + (if (d =? c)%nat then armed x else 0))%nat ->
  (forall sc, c_scheduler x' = Some sc -> c_scheduler x = Some sc) ->
  (forall d pc', In (d, pc') t' -> d = c /\
     forall scd sc, pc' = PCas scd -> c_scheduler x' = Some sc -> scd = Some sc) ->
  (c_scheduler x' <> None -> (forall scd, pc <> PWin scd) ->
     exists pc', In (c, pc') t' /\ forall scd, pc' <> PWin scd) ->
  req_inv {| rq_stream := s'; rq_threads := t1 ++ t' ++ t2 |}.
Proof.
  intros [H1 H2 H3 H4 H5 H6 H7] Hc Ea Em Et Hsn Hf Htok Hsch Ht' Hpend. cbn [rq_stream rq_threads] in *.
  pose proof (lookup_lt_Some _ _ _ Hc) as Hlt.
  assert (Hlook : forall d y, as_ctxs s' !! d = Some y ->
            exists z, as_ctxs s !! d = Some z /\ c_sn y = c_sn z /\ c_fiber y = c_fiber z /\
              (forall sc, c_scheduler y = Some sc -> c_scheduler z = Some sc) /\
              y = if (d =? c)%nat then x' else z).
  { intros d y Hd. rewrite Ea in Hd. destruct (decide (d = c)) as [->|Hne].
    - rewrite list_lookup_insert_eq in Hd by done. injection Hd as <-. exists x. rewrite Nat.eqb_refl. done.
    - rewrite list_lookup_insert_ne in Hd by done. exists y. by rewrite (proj2 (Nat.eqb_neq d c)). }
  assert (Hup : forall d z, as_ctxs s !! d = Some z -> as_ctxs s' !! d = Some (if (d =? c)%nat then x' else z)).
  { intros d z Hd. rewrite Ea. destruct (decide (d = c)) as [->|Hne].
    - rewrite list_lookup_insert_eq by done. by rewrite Nat.eqb_refl.
    - rewrite list_lookup_insert_ne by done. by rewrite (proj2 (Nat.eqb_neq d c)). }
  assert (Hans : forall d, answers s' d = (answers s d + length (List.filter (is_answer d) l))%nat).
  { intros d. unfold answers. by rewrite Et, List.filter_app, length_app. }
  assert (Hother : forall d, d <> c -> List.filter (is_answer d) l = []).
  { intros d Hd. specialize (Htok d). rewrite (proj2 (Nat.eqb_neq d c)) in Htok by done.
    unfold is_winner in Htok. cbn [fst] in Htok. rewrite (proj2 (Nat.eqb_neq c d)) in Htok by congruence.
    apply length_zero_iff_nil. cbn in Htok. lia. }
  split; cbn [rq_stream rq_threads].
  - intros d y Hd. destruct (Hlook d y Hd) as (z & Hz & _ & _ & _ & ->). specialize (H1 d z Hz). specialize (Htok d).
    rewrite Hans, !winners_app. rewrite winners_app, winners_cons in H1.
    destruct (d =? c)%nat eqn:E; [|lia]. apply Nat.eqb_eq in E as ->. rewrite Hc in Hz. injection Hz as <-. lia.
  - intros d y Hd. destruct (Hlook d y Hd) as (z & Hz & _ & -> & _). eauto.
  - intros d1 d2 y1 y2 Hd1 Hd2 E. destruct (Hlook d1 y1 Hd1) as (z1 & Hz1 & E1 & _), (Hlook d2 y2 Hd2) as (z2 & Hz2 & E2 & _).
    apply (H3 d1 d2 z1 z2); congruence.
  - intros n d Hd. rewrite Em in Hd. destruct (H4 n d Hd) as (z & Hz & Hn). eexists. split; [by apply Hup|].
    destruct (d =? c)%nat eqn:E; [|done]. apply Nat.eqb_eq in E as ->. congruence.
  - intros d pc' Hin. rewrite !in_app_iff in Hin.
    assert (Hcase : In (d, pc') (t1 ++ (c, pc) :: t2) \/ In (d, pc') t') by (rewrite in_app_iff; cbn; tauto).
    destruct Hcase as [Hold|Hnew].
    + destruct (H5 d pc' Hold) as (z & Hz & Hcas). eexists. split; [by apply Hup|]. intros scd sc -> Hsc.
      apply (Hcas scd sc); [done|]. destruct (d =? c)%nat eqn:E; [|done]. apply Nat.eqb_eq in E as ->.
      rewrite Hc in Hz. injection Hz as <-. by apply Hsch.
    + destruct (Ht' d pc' Hnew) as [-> Hcas]. exists x'. split; [|done].
      rewrite Ea. by apply list_lookup_insert_eq.
  - intros d y Hd Harm. destruct (Hlook d y Hd) as (z & Hz & Hn & _ & Hs & Hy).
    assert (c_scheduler z <> None) as Hz'.
    { destruct (c_scheduler y) as [sc|] eqn:E; [|done]. by rewrite (Hs sc). }
    destruct (H6 d z Hz Hz') as [Htab|(pc' & Hin & Hnw)]; [left; rewrite Em; congruence|].
    right. apply in_app_iff in Hin as [Hin|[[= <- <-]|Hin]].
    + exists pc'. rewrite !in_app_iff. tauto.
    + rewrite Nat.eqb_refl in Hy. subst y. destruct (Hpend Harm Hnw) as (pc2 & ? & ?).
      exists pc2. rewrite !in_app_iff. tauto.
    + exists pc'. rewrite !in_app_iff. tauto.
  - intros d Hd. rewrite Hans in Hd. rewrite Ea, length_insert.
    destruct (decide (d = c)) as [->|Hne]; [done|]. rewrite (Hother d Hne) in Hd. cbn in Hd. apply H7. lia.
Qed.

(** A thread that only moves on. *)
Lemma inv_move s s' t1 t2 c pc pc' x x' :
  req_inv {| rq_stream := s; rq_threads := t1 ++ (c, pc) :: t2 |} ->
  as_ctxs s !! c = Some x -> as_ctxs s' = <[c := x']> (as_ctxs s) -> m_ctxs s' = m_ctxs s -> as_trace s' = as_trace s ->
  c_sn x' = c_sn x -> c_fiber x' = c_fiber x -> c_scheduler x' = c_scheduler x ->
  (forall scd, pc <> PWin scd) -> (forall scd, pc' <> PWin scd) ->
  (forall scd, pc' = PCas scd -> scd = c_scheduler x) ->
  req_inv {| rq_stream := s'; rq_threads := t1 ++ (c, pc') :: t2 |}.
Proof.
  intros Hinv Hc Ea Em Et Hsn Hf Hs Hpc Hpc' Hcas.
  change (t1 ++ (c, pc') :: t2) with (t1 ++ [(c, pc')] ++ t2).
  eapply inv_thread with (l := []); [exact Hinv|exact Hc|exact Ea|done| |done|done| | | |].
  - by rewrite app_nil_r.
  - intros d. rewrite winners_cons. unfold is_winner, armed. rewrite Hs. cbn.
    destruct pc as [| | | |w]; destruct pc' as [| | | |w']; cbn; rewrite ?andb_false_r; try done;
      first [by destruct (Hpc w)|by destruct (Hpc' w')].
  - congruence.
  - intros d q [[= <- <-]|[]]. split; [done|]. intros scd sc E Hsc. rewrite (Hcas scd E). congruence.
  - intros _ _. exists pc'. split; [by left|done].
Qed.

Lemma inv_cas s t1 t2 c scd x s' t' :
  req_inv {| rq_stream := s; rq_threads := t1 ++ (c, PCas scd) :: t2 |} ->
  as_ctxs s !! c = Some x -> thread_step s c x (PCas scd) = (s', t') ->
  req_inv {| rq_stream := s'; rq_threads := t1 ++ t' ++ t2 |}.
Proof.
  intros Hinv Hc Hop. cbn [thread_step] in Hop. unfold doRsp_cas in Hop. case_bool_decide as Hs; injection Hop as <- <-.
  - eapply inv_thread with (l := []); [exact Hinv|exact Hc|done|done| |done|done| |done| |done].
    + cbn. by rewrite app_nil_r.
    + intros d. rewrite winners_cons. unfold is_winner, armed. cbn. rewrite andb_false_r, Hs, (Nat.eqb_sym c d).
      by destruct (d =? c)%nat, scd.
    + intros d pc' [[= <- <-]|[]]. done.
  - eapply inv_thread with (l := []) (x' := x); [exact Hinv|exact Hc|by rewrite list_insert_id|done| |done|done| |done|done|].
    + by rewrite app_nil_r.
    + intros d. unfold is_winner. cbn. by rewrite andb_false_r.
    + intros Harm _. exfalso. destruct (ri_threads _ Hinv c (PCas scd)) as (z & Hz & Hcas);
        [cbn; apply in_app_iff; right; by left|].
      cbn in Hz. rewrite Hc in Hz. injection Hz as <-.
      destruct (c_scheduler x) as [sc|] eqn:E; [|done]. apply Hs. by rewrite (Hcas scd sc).
Qed.

Lemma answered_ctx_keeps x :
  c_sn (answered_ctx x) = c_sn x /\ c_fiber (answered_ctx x) = c_fiber x /\ c_scheduler (answered_ctx x) = c_scheduler x.
Proof. unfold answered_ctx. by destruct (c_timer x), (c_timed _). Qed.

Lemma inv_win s t1 t2 c scd x :
  req_inv {| rq_stream := s; rq_threads := t1 ++ (c, PWin scd) :: t2 |} -> as_ctxs s !! c = Some x ->
  req_inv {| rq_stream := doRsp_finish s c x scd; rq_threads := t1 ++ t2 |}.
Proof.
  intros Hinv Hc. destruct (ri_fiber _ Hinv c x Hc) as [f Hf]. destruct (answered_ctx_keeps x) as (E1 & E2 & E3).
  change (t1 ++ t2) with (t1 ++ [] ++ t2). unfold doRsp_finish. rewrite Hf. destruct scd as [sc|].
  - eapply inv_thread with (x' := answered_ctx x)
      (l := (match c_timer x with Some t => [ACancel t] | None => [] end) ++ [ASchedule c sc f]);
      [exact Hinv|exact Hc| | | |done|done| | |done|].
    + by destruct (c_timer x).
    + by destruct (c_timer x).
    + destruct (c_timer x); cbn; by rewrite <- ?app_assoc.
    + intros d. unfold is_winner, armed. rewrite E3. cbn [fst snd]. rewrite andb_true_r, List.filter_app, length_app.
      replace (length (List.filter (is_answer d) match c_timer x with Some t => [ACancel t] | None => [] end)) with 0%nat
        by (by destruct (c_timer x)).
      cbn. rewrite (Nat.eqb_sym c d). by destruct (d =? c)%nat.
    + congruence.
    + intros _ Hw. by destruct (Hw (Some sc)).
  - eapply inv_thread with (l := []) (x' := x); [exact Hinv|exact Hc|by rewrite list_insert_id|done| |done|done| |done|done|].
    + by rewrite app_nil_r.
    + intros d. unfold is_winner. cbn. by rewrite andb_false_r.
    + intros _ Hw. by destruct (Hw None).
Qed.

Lemma thread_step_inv s t1 t2 c pc x s' t' :
  req_inv {| rq_stream := s; rq_threads := t1 ++ (c, pc) :: t2 |} ->
  as_ctxs s !! c = Some x -> thread_step s c x pc = (s', t') ->
  req_inv {| rq_stream := s'; rq_threads := t1 ++ t' ++ t2 |}.
Proof.
  intros Hinv Hc Hop. destruct pc as [| | |scd|scd]; [| | |by eapply inv_cas|]; cbn [thread_step] in Hop; injection Hop as <- <-.
  1-2: by eapply inv_move.
  - eapply inv_move with (x' := x); [exact Hinv|exact Hc|by rewrite list_insert_id|done..|]. by intros scd [= <-].
  - by apply inv_win.
Qed.

(** Requests leave the table for threads that will answer them. *)
Lemma inv_table s s' ts m' new :
  req_inv {| rq_stream := s; rq_threads := ts |} ->
  as_ctxs s' = as_ctxs s -> m_ctxs s' = m' -> (forall c, answers s' c = answers s c) ->
  (forall n c, m' !! n = Some c -> m_ctxs s !! n = Some c) ->
  (forall n c, m_ctxs s !! n = Some c -> m' !! n = None -> exists pc, In (c, pc) new) ->
  (forall c pc, In (c, pc) new -> (exists x, as_ctxs s !! c = Some x) /\ (pc = PResult \/ pc = PTimed \/ pc = PRead)) ->
  req_inv {| rq_stream := s'; rq_threads := ts ++ new |}.
Proof.
  intros [H1 H2 H3 H4 H5 H6 H7] Ec <- Ea Hsub Hgone Hnew. cbn [rq_stream rq_threads] in *.
  assert (Hw : forall c, winners new c = 0%nat).
  { intros c. apply length_zero_iff_nil. destruct (List.filter (is_winner c) new) as [|[d pc] l] eqn:E; [done|]. exfalso.
    assert (Hin : In (d, pc) (List.filter (is_winner c) new)) by (rewrite E; by left).
    apply filter_In in Hin as [Hin Hw]. destruct (Hnew d pc Hin) as [_ [->|[->| ->]]];
      unfold is_winner in Hw; cbn in Hw; by rewrite andb_false_r in Hw. }
  split; cbn [rq_stream rq_threads]; rewrite ?Ec; try done.
  - intros c x Hx. specialize (H1 c x Hx). rewrite winners_app, Hw, Nat.add_0_r, Ea. exact H1.
  - intros n c Hc. apply (H4 n c). auto.
  - intros c pc Hin. apply in_app_iff in Hin as [Hin|Hin]; [by apply H5|].
    destruct (Hnew c pc Hin) as [[x Hx] Hpc]. exists x. split; [done|]. by intros scd sc ->; destruct Hpc as [?|[?|?]].
  - intros c x Hx Harm. destruct (H6 c x Hx Harm) as [Htab|(pc & Hin & Hnw)].
    + destruct (m_ctxs s' !! c_sn x) as [d|] eqn:E; [left; rewrite (Hsub _ _ E) in Htab; congruence|].
      destruct (Hgone _ _ Htab E) as [pc Hin]. right. exists pc. split; [apply in_app_iff; by right|].
      destruct (Hnew c pc Hin) as [_ [->|[->| ->]]]; done.
    + right. exists pc. split; [apply in_app_iff; by left|done].
  - intros c. rewrite Ea. apply H7.
Qed.

Lemma inv_add s ts x sc f s' :
  req_inv {| rq_stream := s; rq_threads := ts |} ->
  c_scheduler x = Some sc -> c_fiber x = Some f ->
  (forall k y, as_ctxs s !! k = Some y -> c_sn y <> c_sn x) ->
  AsyncSocketStream_addCtx (put_ctxs s (as_ctxs s ++ [x])) (length (as_ctxs s)) = Ok (true, s') ->
  req_inv {| rq_stream := s'; rq_threads := ts |}.
Proof.
  intros [H1 H2 H3 H4 H5 H6 H7] Hs Hf Hfresh Hop. cbn [rq_stream rq_threads] in *.
  assert (Hlast : (as_ctxs s ++ [x]) !! length (as_ctxs s) = Some x) by (by rewrite lookup_app_r, Nat.sub_diag).
  unfold AsyncSocketStream_addCtx in Hop. cbn in Hop. rewrite Hlast in Hop. cbn in Hop.
  assert (Hnone : m_ctxs s !! c_sn x = None).
  { destruct (m_ctxs s !! c_sn x) as [d|] eqn:E; [|done]. destruct (H4 _ _ E) as (y & Hy & Hn). by destruct (Hfresh d y). }
  rewrite Hnone in Hop. injection Hop as <-.
  assert (Hcase : forall d y, (as_ctxs s ++ [x]) !! d = Some y -> as_ctxs s !! d = Some y \/ d = length (as_ctxs s) /\ y = x).
  { intros d y Hd. apply lookup_app_Some in Hd as [Hd|[Hge Hd]]; [by left|]. right.
    apply list_lookup_singleton_Some in Hd as [? ?]. split; [lia|done]. }
  split; cbn [rq_stream rq_threads put_table put_ctxs as_ctxs m_ctxs].
  - intros d y Hd. destruct (Hcase d y Hd) as [Hd'|[-> ->]]; [by apply H1|].
    unfold armed. rewrite Hs.
    assert (winners ts (length (as_ctxs s)) = 0%nat) as ->.
    { apply length_zero_iff_nil. destruct (List.filter _ ts) as [|[d pc] l] eqn:E; [done|]. exfalso.
      assert (Hin : In (d, pc) (List.filter (is_winner (length (as_ctxs s))) ts)) by (rewrite E; by left).
      apply filter_In in Hin as [Hin Hw]. apply andb_true_iff in Hw as [Hw _]. apply Nat.eqb_eq in Hw. cbn in Hw. subst d.
      destruct (H5 _ _ Hin) as (z & Hz & _). apply lookup_lt_Some in Hz. lia. }
    destruct (decide (answers s (length (as_ctxs s)) = 0)%nat) as [E|E].
    + change (answers (put_table _ _) ?d) with (answers s d). by rewrite E.
    + apply H7 in E. lia.
  - intros d y Hd. destruct (Hcase d y Hd) as [Hd'|[-> ->]]; eauto.
  - intros d1 d2 y1 y2 Hd1 Hd2 E. destruct (Hcase _ _ Hd1) as [Hd1'|[-> ->]], (Hcase _ _ Hd2) as [Hd2'|[-> ->]]; eauto.
    + by destruct (Hfresh d1 y1).
    + by destruct (Hfresh d2 y2).
  - intros n d Hd. apply lookup_insert_Some in Hd as [[<- <-]|[_ Hd]]; [by exists x|].
    destruct (H4 n d Hd) as (y & Hy & ?). exists y. split; [by apply lookup_app_l_Some|done].
  - intros d pc Hin. destruct (H5 d pc Hin) as (y & Hy & ?). exists y. split; [by apply lookup_app_l_Some|done].
  - intros d y Hd Harm. destruct (Hcase d y Hd) as [Hd'|[-> ->]]; [|left; by rewrite lookup_insert_eq].
    destruct (H6 d y Hd' Harm) as [?|?]; [left|by right]. rewrite lookup_insert_ne; [done|].
    intros E. by destruct (Hfresh d y).
  - intros d Hd. rewrite length_app. cbn. apply H7 in Hd. lia.
Qed.

Lemma innerClose_swap_spec s ctxs s' :
  innerClose_swap this_iom s = Ok (ctxs, s') ->
  ctxs = m_ctxs s /\ as_ctxs s' = as_ctxs s /\ m_ctxs s' = ∅ /\ forall c, answers s' c = answers s c.
Proof.
  unfold innerClose_swap. case_bool_decide; cbn [assertb]; [|done]. intros [= <- <-].
  split_and!; [by destruct (as_connected s), (m_disconnectCb s)..|]. intros c. unfold answers.
  destruct (as_connected s), (m_disconnectCb s); cbn; by rewrite ?List.filter_app, ?app_nil_r.
Qed.

Lemma fine_step_inv q q' : fine_step q q' -> req_inv q -> req_inv q'.
Proof.
  intros Hs Hinv. destruct Hs as [s ts x sc f s' H1 H2 H3 H4|s ts sn c s' Hop|s ts c x Hx|s ts ctxs s' Hl|q q' Hr].
  - by eapply inv_add.
  - unfold AsyncSocketStream_getAndDelCtx in Hop. destruct (m_ctxs s !! sn) as [d|] eqn:E; [|done]. injection Hop as <- <-.
    eapply inv_table; [done|done|done|done| | |].
    + intros n e Hn. cbn in Hn. by apply lookup_delete_Some in Hn as [_ ?].
    + intros n e Hn Hnone. cbn in Hnone. exists PRead. left. apply lookup_delete_None in Hnone as [->|?]; congruence.
    + intros e pc [[= <- <-]|[]]. destruct (ri_table _ Hinv sn d E) as (y & Hy & _). split; [by exists y|auto].
  - eapply inv_table; [done|done|done|done| | |].
    + intros n e Hn. cbn in Hn. by apply lookup_delete_Some in Hn as [_ ?].
    + intros n e Hn Hnone. cbn in Hnone. exists PTimed. left. apply lookup_delete_None in Hnone as [<-|?]; [|congruence].
      destruct (ri_table _ Hinv _ e Hn) as (y & Hy & Esn). f_equal. eapply (ri_sn _ Hinv c e x y); cbn in *; congruence.
    + intros e pc [[= <- <-]|[]]. split; [by exists x|auto].
  - destruct (innerClose_swap_spec _ _ _ Hl) as (-> & E1 & E2 & E3). eapply inv_table; [done|done|exact E2|done| | |].
    + intros n e Hn. by rewrite lookup_empty in Hn.
    + intros n e Hn _. exists PResult. apply in_map_iff. exists (n, e). split; [done|].
      apply list_elem_of_In. rewrite iter_walks. by apply elem_of_map_to_list.
    + intros e pc Hin. apply in_map_iff in Hin as ([n d] & [= <- <-] & Hin). split; [|auto].
      apply list_elem_of_In in Hin. rewrite iter_walks in Hin. apply elem_of_map_to_list in Hin.
      destruct (ri_table _ Hinv n d Hin) as (y & Hy & _). by exists y.
  - destruct Hr. by eapply thread_step_inv.
Qed.

Lemma fine_steps_inv q q' : rtc fine_step q q' -> req_inv q -> req_inv q'.
Proof. induction 1; [done|]. intros Hq. by eauto using fine_step_inv. Qed.

Lemma req_step_inv q q' : req_step q q' -> req_inv q -> req_inv q'.
Proof. intros Hs. apply fine_steps_inv. by apply req_step_fine. Qed.

Definition fresh_requests (s : AsyncSocketStream) : Prop := as_ctxs s = [] /\ m_ctxs s = ∅ /\ as_trace s = [].

Lemma fresh_inv s : fresh_requests s -> req_inv {| rq_stream := s; rq_threads := [] |}.
Proof.
  intros (E1 & E2 & E3). split; cbn; rewrite ?E1, ?E2; try done.
  all: try (intros ? ? ?; by rewrite lookup_nil in *).
  unfold answers. rewrite E3. done.
Qed.

(** How many steps a thread has left. *)
Definition steps_left (t : nat * rpc) : nat :=
  match snd t with PResult => 4 | PTimed => 4 | PRead => 3 | PCas _ => 2 | PWin _ => 1 end.

Lemma thread_step_progress s c x pc s' t' :
  thread_step s c x pc = (s', t') -> (list_sum (map steps_left t') < steps_left (c, pc))%nat.
Proof. destruct pc; cbn [thread_step]; intros Hop; repeat case_match; simplify_eq; cbn; lia. Qed.

Lemma thread_step_frame s c x pc s' t' :
  as_ctxs s !! c = Some x -> thread_step s c x pc = (s', t') ->
  m_ctxs s' = m_ctxs s /\ length (as_ctxs s') = length (as_ctxs s).
Proof.
  intros Hc. destruct pc; cbn [thread_step]; unfold doRsp_cas, doRsp_finish; intros Hop;
    repeat case_match; simplify_eq; split; try done; cbn; by rewrite ?length_insert.
Qed.

(** The threads inside [doRsp] come to an end, in whatever order they move: every step
    is one less, and as long as there is one, one can move. *)
Definition rsp_left (q : requests) : nat := list_sum (map steps_left (rq_threads q)).

Lemma rsp_step_progress q q' : rsp_step q q' ->
  (rsp_left q' < rsp_left q)%nat /\ m_ctxs (rq_stream q') = m_ctxs (rq_stream q) /\
  length (as_ctxs (rq_stream q')) = length (as_ctxs (rq_stream q)).
Proof.
  intros [s t1 t2 c pc x s' t' Hc Hop]. split; [|by eapply thread_step_frame].
  unfold rsp_left. cbn [rq_threads]. rewrite !map_app, !list_sum_app. cbn [map]. 
  change (list_sum (steps_left (c, pc) :: map steps_left t2)) with (steps_left (c, pc) + list_sum (map steps_left t2))%nat.
  pose proof (thread_step_progress _ _ _ _ _ _ Hop). lia.
Qed.

Lemma rsp_steps_progress n q q' : nsteps rsp_step n q q' ->
  (n + rsp_left q' <= rsp_left q)%nat /\ m_ctxs (rq_stream q') = m_ctxs (rq_stream q) /\
  length (as_ctxs (rq_stream q')) = length (as_ctxs (rq_stream q)).
Proof.
  induction 1 as [q|n q1 q2 q3 Hs _ IH]; [done|]. pose proof (rsp_step_progress _ _ Hs) as (? & E1 & E2).
  destruct IH as (? & E3 & E4). split_and!; [lia|congruence|congruence].
Qed.

Lemma rsp_can_move q : req_inv q -> rq_threads q <> [] -> exists q', rsp_step q q'.
Proof.
  destruct q as [s [|[c pc] ts]]; [done|]. intros Hinv _. destruct (ri_threads _ Hinv c pc) as (x & Hx & _); [by left|]. cbn in Hx.
  destruct (thread_step s c x pc) as [s' t'] eqn:E. eexists. exact (rs_thread s [] ts c pc x s' t' Hx E).
Qed.

Lemma reachable_req_inv s0 q :
  fresh_requests s0 -> rtc req_step {| rq_stream := s0; rq_threads := [] |} q -> req_inv q.
Proof.
  intros H0 Hr. eapply (rtc_ind_r (fun q => req_inv q)); [by apply fresh_inv| |exact Hr].
  intros q1 q2 _ Hs Hq. by eapply req_step_inv.
Qed.

(** A request that was not answered is in the table or some thread is about to. *)
Lemma unanswered_pending q c x : req_inv q -> as_ctxs (rq_stream q) !! c = Some x -> answers (rq_stream q) c = 0%nat ->
  m_ctxs (rq_stream q) !! c_sn x = Some c \/ exists pc, In (c, pc) (rq_threads q).
Proof.
  intros Hinv Hx Ha. pose proof (ri_token _ Hinv c x Hx) as Htok. destruct (c_scheduler x) as [sc|] eqn:E.
  - destruct (ri_pending _ Hinv c x Hx) as [?|(pc & ? & _)]; [congruence|by left|right; eauto].
  - right. unfold armed in Htok. rewrite E in Htok. unfold winners in Htok.
    destruct (List.filter (is_winner c) (rq_threads q)) as [|[d pc] l] eqn:Ef; [cbn in Htok; lia|].
    assert (Hin : In (d, pc) (List.filter (is_winner c) (rq_threads q))) by (rewrite Ef; by left).
    apply filter_In in Hin as [Hin Hw]. apply andb_true_iff in Hw as [Hw _]. apply Nat.eqb_eq in Hw. cbn in Hw. subst. eauto.
Qed.

Lemma answers_le_one q c x : req_inv q -> as_ctxs (rq_stream q) !! c = Some x -> (answers (rq_stream q) c <= 1)%nat.
Proof. intros Hinv Hx. pose proof (ri_token _ Hinv c x Hx). lia. Qed.

Lemma all_answered q c : req_inv q -> m_ctxs (rq_stream q) = ∅ -> (c < length (as_ctxs (rq_stream q)))%nat ->
  answers (rq_stream q) c = 1%nat \/ answers (rq_stream q) c = 0%nat /\ exists pc, In (c, pc) (rq_threads q).
Proof.
  intros Hinv Hm Hc. destruct (lookup_lt_is_Some_2 _ _ Hc) as [x Hx]. pose proof (answers_le_one q c x Hinv Hx).
  destruct (answers (rq_stream q) c) as [|[|]] eqn:Ha; [|by left|lia]. right. split; [done|].
  destruct (unanswered_pending q c x Hinv Hx Ha) as [Hl|?]; [by rewrite Hm, lookup_empty in Hl|done].
Qed.

(** The loop of [innerClose] finds every context it needs. *)
Lemma doRsp_returns s c x : as_ctxs s !! c = Some x ->
  exists s', Ctx_doRsp s c = Ok s' /\ m_ctxs s' = m_ctxs s /\ length (as_ctxs s') = length (as_ctxs s).
Proof.
  intros Hx. unfold Ctx_doRsp, doRsp_cas. rewrite Hx. cbn [deref]. rewrite bool_decide_eq_true_2 by done.
  eexists. split; [reflexivity|]. unfold doRsp_finish. cbn [c_fiber c_timer set_scheduler].
  destruct (c_scheduler x), (c_fiber x); try (split; [done|]; cbn; by rewrite ?length_insert).
  destruct (c_timer x); (split; [done|]); cbn; by rewrite !length_insert.
Qed.

Lemma answer_all_returns l : forall s, (forall n c, In (n, c) l -> (c < length (as_ctxs s))%nat) ->
  exists s', answer_all s l = Ok s' /\ m_ctxs s' = m_ctxs s /\ length (as_ctxs s') = length (as_ctxs s).
Proof.
  induction l as [|[n c] l IH]; intros s Hl; cbn [answer_all]; [by exists s|].
  destruct (lookup_lt_is_Some_2 (as_ctxs s) c) as [x Hx]; [apply (Hl n c); by left|]. rewrite Hx. cbn [deref].
  destruct (doRsp_returns (put_ctx s c (set_result x ASYNC_IO_ERROR)) c (set_result x ASYNC_IO_ERROR)) as (s1 & -> & E1 & E2).
  { cbn. apply list_lookup_insert_eq. by eapply lookup_lt_Some. }
  cbn [obind]. cbn in E2. rewrite length_insert in E2.
  destruct (IH s1) as (s2 & -> & E3 & E4); [intros m d Hin; rewrite E2; apply (Hl m d); by right|].
  exists s2. split_and!; [done|by rewrite E3|lia].
Qed.

(** C21: every request is answered exactly once, provided that no two requests have the same
    number ([addCtx_duplicate_lost]: a second one under a number in use is lost).  Whatever
    clients, the reader ([getAndDelCtx], then [doRsp]), timers ([onTimeOut]) and the closing
    of the stream ([innerClose]) do, as whole functions or step by step, and however the
    threads inside [doRsp] interleave between their read of [scheduler], their
    compare-and-swap and the rest, the fiber of a request is scheduled at most once; a
    request that was not answered yet is in the table or has a thread on the way to answer
    it; so once the table is empty and no thread is inside [doRsp], every request has been
    answered, once. *)
Theorem requests_answered_once s0 q c x :
  fresh_requests s0 -> rtc req_step {| rq_stream := s0; rq_threads := [] |} q ->
  as_ctxs (rq_stream q) !! c = Some x ->
  (answers (rq_stream q) c <= 1)%nat /\
  (answers (rq_stream q) c = 0%nat ->
     m_ctxs (rq_stream q) !! c_sn x = Some c \/ exists pc, In (c, pc) (rq_threads q)) /\
  (m_ctxs (rq_stream q) = ∅ -> rq_threads q = [] -> answers (rq_stream q) c = 1%nat).
Proof.
  intros H0 Hr Hx. pose proof (reachable_req_inv s0 q H0 Hr) as Hinv.
  split_and!; [by eapply answers_le_one|by apply unanswered_pending|]. intros Hm Ht.
  destruct (all_answered q c Hinv Hm) as [?|(_ & pc & Hin)]; [by eapply lookup_lt_Some|done|by rewrite Ht in Hin].
Qed.

(** C22: closing leaves no request behind, provided that no two requests have the same
    number.  In every reachable state, on the stream's own I/O manager, [innerClose] returns
    with an empty table, and every request ever made has been answered exactly once, unless
    another thread is inside [doRsp] for it.  When the close is interleaved with those
    threads instead: from the moment the table was swapped out, the threads inside [doRsp]
    make a bounded number of steps in any order, are never stuck, and when none is left
    every request has been answered exactly once. *)
Theorem close_answers_all s0 s ts :
  fresh_requests s0 -> rtc req_step {| rq_stream := s0; rq_threads := [] |} {| rq_stream := s; rq_threads := ts |} ->
  m_iomanager s = this_iom ->
  (exists s', AsyncSocketStream_innerClose iter this_iom s = Ok (true, s') /\ m_ctxs s' = ∅ /\
     forall c, (c < length (as_ctxs s))%nat ->
       answers s' c = 1%nat \/ answers s' c = 0%nat /\ exists pc, In (c, pc) ts) /\
  (exists ctxs s1, innerClose_swap this_iom s = Ok (ctxs, s1) /\
     let q1 := {| rq_stream := s1; rq_threads := ts ++ map (fun p => (snd p, PResult)) (iter ctxs) |} in
     forall n q, nsteps rsp_step n q1 q ->
       (n <= rsp_left q1)%nat /\ (rq_threads q <> [] -> exists q', rsp_step q q') /\
       (rq_threads q = [] -> forall c, (c < length (as_ctxs s))%nat -> answers (rq_stream q) c = 1%nat)).
Proof.
  intros H0 Hr Hio. pose proof (reachable_req_inv s0 _ H0 Hr) as Hinv.
  assert (exists ctxs s1, innerClose_swap this_iom s = Ok (ctxs, s1)) as (ctxs & s1 & E).
  { unfold innerClose_swap. rewrite bool_decide_eq_true_2 by done. cbn [assertb]. eauto. }
  destruct (innerClose_swap_spec _ _ _ E) as (-> & E1 & E2 & _). split.
  - destruct (answer_all_returns (iter (m_ctxs s)) s1) as (s' & Ea & E3 & E4).
    { intros n c Hin. apply list_elem_of_In in Hin. rewrite iter_walks in Hin. apply elem_of_map_to_list in Hin.
      destruct (ri_table _ Hinv n c Hin) as (y & Hy & _). rewrite E1. by eapply lookup_lt_Some. }
    assert (Ec : AsyncSocketStream_innerClose iter this_iom s = Ok (true, s'))
      by (unfold AsyncSocketStream_innerClose; rewrite E; cbn [obind]; by rewrite Ea).
    exists s'. split_and!; [done|congruence|]. intros c Hc.
    pose proof (req_step_inv _ _ (rs_close_all s ts true s' Ec) Hinv) as Hinv'.
    apply (all_answered _ c Hinv'); cbn; [congruence|]. by rewrite E4, E1.
  - exists (m_ctxs s), s1. split; [done|]. intros q1 n q Hn.
    pose proof (rsp_steps_progress _ _ _ Hn) as (Hle & Em & El).
    assert (Hq : req_inv q).
    { eapply fine_steps_inv; [apply rsp_fine, rtc_nsteps; by exists n|].
      eapply fine_step_inv; [by eapply rs_close|exact Hinv]. }
    split_and!; [lia|by apply rsp_can_move|]. intros Ht c Hc. cbn in Em, El.
    destruct (all_answered q c Hq) as [?|(_ & pc & Hin)]; [congruence|by rewrite El, E1|done|by rewrite Ht in Hin].
Qed.

End requests.

(** One request, and a timeout that races with the close of the stream. *)
Definition sample_ctx : Ctx :=
  {| c_sn := 7; c_timeout := 100; c_result := 0; c_timed := false; c_scheduler := Some 1%nat;
     c_fiber := Some 5%nat; c_timer := Some 3%nat |}.

Definition sample_stream : AsyncSocketStream :=
  put_table (put_ctxs (AsyncSocketStream_new true) [sample_ctx]) {[7 := 0%nat]}.

Lemma sample_add :
  req_step map_to_list None {| rq_stream := AsyncSocketStream_new true; rq_threads := [] |} {| rq_stream := sample_stream; rq_threads := [] |}.
Proof.
  apply rs_fine. eapply (rs_add _ _ _ _ sample_ctx 1 5); [done|done|intros k y Hk; cbn in Hk; by rewrite lookup_nil in Hk|reflexivity].
Qed.

(** The timer fires: the request is out of the table and one thread is to answer it. *)
Definition sample_timed : requests :=
  {| rq_stream := onTimeOut_erase sample_stream sample_ctx; rq_threads := [(0%nat, PTimed)] |}.

Lemma sample_timed_reach :
  rtc (req_step map_to_list None) {| rq_stream := AsyncSocketStream_new true; rq_threads := [] |} sample_timed.
Proof. eapply rtc_l; [exact sample_add|]. apply rtc_once, rs_fine. by apply (rs_timeout _ _ sample_stream [] 0). Qed.

Lemma requests_answered_once_witness :
  (answers (rq_stream sample_timed) 0 <= 1)%nat /\
  (answers (rq_stream sample_timed) 0 = 0%nat ->
     m_ctxs (rq_stream sample_timed) !! 7 = Some 0%nat \/ exists pc, In (0%nat, pc) (rq_threads sample_timed)).
Proof.
  destruct (requests_answered_once map_to_list None (fun _ => reflexivity _) (AsyncSocketStream_new true) sample_timed 0 sample_ctx)
    as (H1 & H2 & _); [split_and!; reflexivity|exact sample_timed_reach|reflexivity|]. split; [exact H1|exact H2].
Defined.

(** A close of the stream with the request in the table, alone and step by step. *)
Lemma close_answers_all_witness :
  (exists s', AsyncSocketStream_innerClose map_to_list None sample_stream = Ok (true, s') /\ m_ctxs s' = ∅ /\
     answers s' 0 = 1%nat) /\
  (exists s1, innerClose_swap None sample_stream = Ok ({[7 := 0%nat]}, s1) /\
     forall n q, nsteps rsp_step n {| rq_stream := s1; rq_threads := [(0%nat, PResult)] |} q ->
       (n <= 4)%nat /\ (rq_threads q = [] -> answers (rq_stream q) 0 = 1%nat)).
Proof.
  destruct (close_answers_all map_to_list None (fun _ => reflexivity _) (AsyncSocketStream_new true) sample_stream [])
    as [(s' & E & Em & Ha) (ctxs & s1 & E1 & Hn)].
  - split_and!; reflexivity.
  - apply rtc_once, sample_add.
  - reflexivity.
  - split.
    + exists s'. split_and!; [exact E|exact Em|]. destruct (Ha 0%nat) as [?|(_ & pc & [])]; [apply Nat.ltb_lt; reflexivity|done].
    + assert (ctxs = {[7 := 0%nat]}) as -> by (vm_compute in E1; injection E1 as <- _; reflexivity).
      exists s1. split; [exact E1|]. intros n q Hs. destruct (Hn n q Hs) as (H1 & _ & H2). split; [exact H1|].
      intros Ht. apply H2; [exact Ht|apply Nat.ltb_lt; reflexivity].
Defined.

(** A second request under a serial number that is in use never enters the table:
    [addCtx] returns true all the same, and a close does not answer it. *)
Lemma addCtx_duplicate_lost s c x d :
  as_ctxs s !! c = Some x -> m_ctxs s !! c_sn x = Some d -> AsyncSocketStream_addCtx s c = Ok (true, s).
Proof. intros Hx Hd. unfold AsyncSocketStream_addCtx. rewrite Hx. cbn [deref]. by rewrite Hd. Qed.

(** ** The queue of messages *)

(** The writer is before its [wait], or between [wait] and the swap of the queue; a
    client inside [enqueue] that found the queue empty still has to [notify]. *)
Record sending := { sd_stream : AsyncSocketStream; sd_writer_awake : bool; sd_notifiers : nat; sd_sent : list nat }.

Inductive send_step : sending -> sending -> Prop :=
| ss_push s w n l c :
    send_step {| sd_stream := s; sd_writer_awake := w; sd_notifiers := n; sd_sent := l |}
      {| sd_stream := put_queue s (m_queue s ++ [c]); sd_writer_awake := w;
         sd_notifiers := match m_queue s with [] => S n | _ => n end; sd_sent := l |}
| ss_notify s w n l :
    send_step {| sd_stream := s; sd_writer_awake := w; sd_notifiers := S n; sd_sent := l |}
      {| sd_stream := put_sem s (S (m_sem s)); sd_writer_awake := w; sd_notifiers := n; sd_sent := l |}
| ss_wait s n l k :
    m_sem s = S k ->
    send_step {| sd_stream := s; sd_writer_awake := false; sd_notifiers := n; sd_sent := l |}
      {| sd_stream := put_sem s k; sd_writer_awake := true; sd_notifiers := n; sd_sent := l |}
| ss_swap s n l :
    send_step {| sd_stream := s; sd_writer_awake := true; sd_notifiers := n; sd_sent := l |}
      {| sd_stream := put_queue s []; sd_writer_awake := false; sd_notifiers := n; sd_sent := l ++ m_queue s |}.

(** A client that runs alone does what [enqueue] does. *)
Lemma enqueue_steps s w n l c e s' :
  AsyncSocketStream_enqueue s (Some c) = Ok (e, s') ->
  rtc send_step {| sd_stream := s; sd_writer_awake := w; sd_notifiers := n; sd_sent := l |}
                {| sd_stream := s'; sd_writer_awake := w; sd_notifiers := n; sd_sent := l |}.
Proof.
  cbn. intros [= <- <-]. eapply rtc_l; [apply (ss_push s w n l c)|]. destruct (m_queue s) eqn:E; [|done].
  apply rtc_once, (ss_notify (put_queue s [c])).
Qed.

Definition send_inv (q : sending) : Prop :=
  m_queue (sd_stream q) <> [] -> (0 < m_sem (sd_stream q))%nat \/ sd_writer_awake q = true \/ (0 < sd_notifiers q)%nat.

Lemma send_step_inv q q' : send_step q q' -> send_inv q -> send_inv q'.
Proof.
  intros Hs Hq. destruct Hs as [s w n l c|s w n l|s n l k Hk|s n l]; unfold send_inv in *; cbn in *.
  - intros _. destruct (m_queue s) eqn:E; [right; right; lia|]. apply Hq. done.
  - intros _. left. lia.
  - intros _. right. by left.
  - done.
Qed.

(** The messages pushed so far are those sent and those queued, in order. *)
Inductive pushed : list nat -> sending -> Prop :=
| pushed_init s : m_queue s = [] -> pushed [] {| sd_stream := s; sd_writer_awake := false; sd_notifiers := 0; sd_sent := [] |}
| pushed_push l q q' c :
    pushed l q -> send_step q q' -> m_queue (sd_stream q') = m_queue (sd_stream q) ++ [c] -> pushed (l ++ [c]) q'
| pushed_other l q q' :
    pushed l q -> send_step q q' -> (forall c, m_queue (sd_stream q') <> m_queue (sd_stream q) ++ [c]) -> pushed l q'.

Lemma app_one_neq {A} (l : list A) c : l <> l ++ [c].
Proof. intros E. apply (f_equal length) in E. rewrite length_app in E. cbn in E. lia. Qed.

(** Messages are sent once, in order, and no wake-up is lost.  While the connection
    lasts, for every interleaving of clients inside [enqueue] (the push under the lock
    and the [notify] after it are separate steps) with the writer's [wait] and swap, the
    messages handed to the writer followed by those in the queue are the messages
    enqueued, in order; and a queue that is not empty has the writer awake, a ticket in
    the semaphore, or a client about to add one. *)
Lemma async_send_queue l q :
  pushed l q ->
  l = sd_sent q ++ m_queue (sd_stream q) /\
  (m_queue (sd_stream q) <> [] ->
     (0 < m_sem (sd_stream q))%nat \/ sd_writer_awake q = true \/ (0 < sd_notifiers q)%nat).
Proof.
  induction 1 as [s E|l q q' c _ [-> Hi] Hs Hq|l q q' _ [-> Hi] Hs Hq].
  - cbn. by rewrite E.
  - split; [|by eapply send_step_inv]. destruct Hs; cbn in *.
    + by rewrite Hq, app_assoc.
    + exfalso. by eapply app_one_neq.
    + exfalso. by eapply app_one_neq.
    + by destruct (m_queue s).
  - split; [|by eapply send_step_inv]. destruct Hs; cbn in *; try done.
    + by destruct (Hq c).
    + by rewrite app_nil_r.
Qed.

Lemma async_send_queue_witness :
  exists q, pushed [4%nat; 6%nat] q /\ [4%nat; 6%nat] = sd_sent q ++ m_queue (sd_stream q).
Proof.
  assert (H : exists q, pushed [4%nat; 6%nat] q).
  { eexists. change [4%nat; 6%nat] with (([] ++ [4%nat]) ++ [6%nat]).
    eapply pushed_push; [eapply pushed_push; [apply (pushed_init (AsyncSocketStream_new true)); reflexivity|apply (ss_push _ _ _ _ 4)|reflexivity]
                        |apply (ss_push _ _ _ _ 6)|reflexivity]. }
  destruct H as [q Hq]. exists q. split; [exact Hq|]. exact (proj1 (async_send_queue _ _ Hq)).
Defined.

(** ** One connection at a time *)

(** The calls of [start] that are inside [waitFiber] or past it, by the tickets each
    holds, and the reader and writer fibers that run. *)
Record lifecycle := { lc_stream : AsyncSocketStream; lc_starting : list nat; lc_reading : nat; lc_writing : nat }.

(** [start] is called; one [wait] of [waitFiber] passes; [start] goes on with both
    tickets, which it gives back or leaves to the two fibers it starts; [doRead] and
    [doWrite] end with a [notify]. *)
Inductive life_step : lifecycle -> lifecycle -> Prop :=
| ls_call s st r w :
    life_step {| lc_stream := s; lc_starting := st; lc_reading := r; lc_writing := w |}
              {| lc_stream := s; lc_starting := st ++ [0%nat]; lc_reading := r; lc_writing := w |}
| ls_wait s n l1 l2 k r w :
    m_waitSem s = S n -> (k < 2)%nat ->
    life_step {| lc_stream := s; lc_starting := l1 ++ k :: l2; lc_reading := r; lc_writing := w |}
              {| lc_stream := put_waitSem s n; lc_starting := l1 ++ S k :: l2; lc_reading := r; lc_writing := w |}
| ls_fail s l1 l2 r w :
    life_step {| lc_stream := s; lc_starting := l1 ++ 2%nat :: l2; lc_reading := r; lc_writing := w |}
              {| lc_stream := put_waitSem s (S (S (m_waitSem s))); lc_starting := l1 ++ l2; lc_reading := r; lc_writing := w |}
| ls_started s l1 l2 r w :
    life_step {| lc_stream := s; lc_starting := l1 ++ 2%nat :: l2; lc_reading := r; lc_writing := w |}
              {| lc_stream := AsyncSocketStream_startWrite (AsyncSocketStream_startRead s);
                 lc_starting := l1 ++ l2; lc_reading := S r; lc_writing := S w |}
| ls_read_out s st r w :
    life_step {| lc_stream := s; lc_starting := st; lc_reading := S r; lc_writing := w |}
              {| lc_stream := put_waitSem s (S (m_waitSem s)); lc_starting := st; lc_reading := r; lc_writing := w |}
| ls_write_out s st r w :
    life_step {| lc_stream := s; lc_starting := st; lc_reading := r; lc_writing := S w |}
              {| lc_stream := put_waitSem s (S (m_waitSem s)); lc_starting := st; lc_reading := r; lc_writing := w |}.

Definition life_inv (q : lifecycle) : Prop :=
  (m_waitSem (lc_stream q) + list_sum (lc_starting q) + lc_reading q + lc_writing q = 2)%nat /\
  (lc_reading q <= 1)%nat /\ (lc_writing q <= 1)%nat.

Lemma list_sum_cons x l : list_sum (x :: l) = (x + list_sum l)%nat.
Proof. reflexivity. Qed.

Lemma life_step_inv q q' : life_step q q' -> life_inv q -> life_inv q'.
Proof.
  unfold life_inv. intros Hs (H1 & H2 & H3).
  destruct Hs as [s st r w|s n l1 l2 k r w E Hk|s l1 l2 r w|s l1 l2 r w|s st r w|s st r w];
    cbn [lc_stream lc_starting lc_reading lc_writing m_waitSem put_waitSem AsyncSocketStream_startWrite
         AsyncSocketStream_startRead act] in *;
    rewrite ?list_sum_app, ?list_sum_cons in *; cbn [list_sum fold_right] in *; lia.
Qed.

Definition fresh_lifecycle : lifecycle :=
  {| lc_stream := AsyncSocketStream_new true; lc_starting := []; lc_reading := 0; lc_writing := 0 |}.

(** One reader and one writer at a time.  However often and from wherever [start] is
    called (clients, the reconnect timers), at most one reader fiber and one writer fiber
    of a stream run, and while one of them runs no [start] gets past [waitFiber] to
    reconnect the socket under it: the two tickets of [m_waitSem] are with the
    semaphore, with calls of [start], or with the two fibers. *)
Lemma one_connection_at_a_time q :
  rtc life_step fresh_lifecycle q ->
  (lc_reading q <= 1)%nat /\ (lc_writing q <= 1)%nat /\
  (m_waitSem (lc_stream q) + list_sum (lc_starting q) + lc_reading q + lc_writing q = 2)%nat /\
  ((0 < lc_reading q + lc_writing q)%nat -> ~ In 2%nat (lc_starting q)).
Proof.
  intros Hr. assert (life_inv q) as (H1 & H2 & H3).
  { eapply (rtc_ind_r (fun q => life_inv q) fresh_lifecycle); [split_and!; [reflexivity|apply Nat.le_0_l|apply Nat.le_0_l]| |exact Hr].
    intros q1 q2 _ Hs. by apply life_step_inv. }
  split_and!; try done. intros Hrun Hin. apply in_split in Hin as (l1 & l2 & E).
  rewrite E, list_sum_app, list_sum_cons in H1. lia.
Qed.

Lemma one_connection_at_a_time_witness :
  exists q, rtc life_step fresh_lifecycle q /\ lc_reading q = 1%nat /\ (lc_writing q <= 1)%nat.
Proof.
  assert (Hr : exists q, rtc life_step fresh_lifecycle q /\ lc_reading q = 1%nat).
  { eexists. split; [|reflexivity || idtac].
    - eapply rtc_l; [apply ls_call|]. eapply rtc_l; [apply (ls_wait _ 1 [] []); [reflexivity|lia]|].
      eapply rtc_l; [apply (ls_wait _ 0 [] []); [reflexivity|lia]|].
      eapply rtc_l; [apply (ls_started _ [] [])|]. apply rtc_refl.
    - reflexivity. }
  destruct Hr as (q & Hr & E). exists q. split; [exact Hr|]. split; [exact E|].
  exact (proj1 (proj2 (one_connection_at_a_time q Hr))).
Defined.

(** Two calls of [start] at once can take one ticket each and wait for the other for
    ever: [waitFiber] takes the two tickets one by one. *)
Lemma concurrent_starts_deadlock :
  exists q, rtc life_step fresh_lifecycle q /\ lc_starting q = [1%nat; 1%nat] /\ lc_reading q = 0%nat /\ lc_writing q = 0%nat /\
    (forall q', life_step q q' -> lc_starting q' = [1%nat; 1%nat; 0%nat]) .
Proof.
  eexists. split_and!.
  - eapply rtc_l; [apply ls_call|]. eapply rtc_l; [apply ls_call|].
    eapply rtc_l; [apply (ls_wait _ 1 [] [0%nat]); [reflexivity|lia]|].
    eapply rtc_l; [apply (ls_wait _ 0 [1%nat] []); [reflexivity|lia]|]. apply rtc_refl.
  - reflexivity.
  - reflexivity.
  - reflexivity.
  - intros q' Hs. inversion Hs as [| ? ? l1 l2 ? ? ? E| ? l1 l2 ? ? Hl | ? l1 l2 ? ? Hl | | ]; subst; try done.
    all: by destruct l1 as [|? [|? [|? ?]]].
Qed.

(** ** The manager *)

(** [mg_datas] holds numbers of the heap of streams. *)
(** @src streams/async_socket_stream.h:163-169 AsyncSocketStreamManager *)
Record AsyncSocketStreamManager := {
  mg_heap : list AsyncSocketStream;
  mg_size : Z;
  mg_idx : Z;
  mg_datas : list nat;
  mg_connectCb : option nat;
  mg_disconnectCb : option nat
}.

(** @src streams/async_socket_stream.cc:236-239 AsyncSocketStreamManager::AsyncSocketStreamManager *)
Definition AsyncSocketStreamManager_new (heap : list AsyncSocketStream) : AsyncSocketStreamManager :=
  {| mg_heap := heap; mg_size := 0; mg_idx := 0; mg_datas := []; mg_connectCb := None; mg_disconnectCb := None |}.

Definition mg_put (m : AsyncSocketStreamManager) (heap : list AsyncSocketStream) (size : Z) (datas : list nat) :
    AsyncSocketStreamManager :=
  {| mg_heap := heap; mg_size := size; mg_idx := mg_idx m; mg_datas := datas;
     mg_connectCb := mg_connectCb m; mg_disconnectCb := mg_disconnectCb m |}.

(** [stream->f()] for a stream of the heap, and for each of a list. *)
Definition on_stream (heap : list AsyncSocketStream) (k : nat) (f : AsyncSocketStream -> AsyncSocketStream) :
    outcome (list AsyncSocketStream) :=
  deref (heap !! k) (fun s => Ok (<[k := f s]> heap)).

Fixpoint on_streams (heap : list AsyncSocketStream) (ks : list nat) (f : AsyncSocketStream -> AsyncSocketStream) :
    outcome (list AsyncSocketStream) :=
  match ks with [] => Ok heap | k :: ks => let! heap := on_stream heap k f in on_streams heap ks f end.

(** @src streams/async_socket_stream.h:69-69 AsyncSocketStream::setConnectCb *)
Definition AsyncSocketStream_setConnectCb (v : option nat) (s : AsyncSocketStream) : AsyncSocketStream :=
  put_callbacks s v (m_disconnectCb s).
(** @src streams/async_socket_stream.h:70-70 AsyncSocketStream::setDisconnectCb *)
Definition AsyncSocketStream_setDisconnectCb (v : option nat) (s : AsyncSocketStream) : AsyncSocketStream :=
  put_callbacks s (m_connectCb s) v.

(** @src streams/async_socket_stream.cc:241-253 AsyncSocketStreamManager::add *)
Definition AsyncSocketStreamManager_add (m : AsyncSocketStreamManager) (k : nat) : outcome AsyncSocketStreamManager :=
  let! heap := on_stream (mg_heap m) k (fun s =>
    let s := if non_null (mg_connectCb m) then AsyncSocketStream_setConnectCb (mg_connectCb m) s else s in
    if non_null (mg_disconnectCb m) then AsyncSocketStream_setDisconnectCb (mg_disconnectCb m) s else s) in
  Ok (mg_put m heap (u32 (mg_size m + 1)) (mg_datas m ++ [k])).

(** @src streams/async_socket_stream.cc:255-262 AsyncSocketStreamManager::clear *)
Definition AsyncSocketStreamManager_clear (m : AsyncSocketStreamManager) : outcome AsyncSocketStreamManager :=
  let! heap := on_streams (mg_heap m) (mg_datas m) AsyncSocketStream_close in
  Ok (mg_put m heap 0 []).

(** The second test is of [m_connectCb] again. *)
(** @src streams/async_socket_stream.cc:268-277 AsyncSocketStreamManager::setConnection *)
Definition install_callbacks (m : AsyncSocketStreamManager) (s : AsyncSocketStream) : AsyncSocketStream :=
  let s := if non_null (mg_connectCb m) then AsyncSocketStream_setConnectCb (mg_connectCb m) s else s in
  if non_null (mg_connectCb m) then AsyncSocketStream_setDisconnectCb (mg_disconnectCb m) s else s.

(** @src streams/async_socket_stream.cc:263-283 AsyncSocketStreamManager::setConnection *)
Definition AsyncSocketStreamManager_setConnection (m : AsyncSocketStreamManager) (streams : list nat) :
    outcome AsyncSocketStreamManager :=
  let! heap := if non_null (mg_connectCb m) || non_null (mg_disconnectCb m)
               then on_streams (mg_heap m) streams (install_callbacks m) else Ok (mg_heap m) in
  let! heap := on_streams heap (mg_datas m) AsyncSocketStream_close in
  Ok (mg_put m heap (u32 (Z.of_nat (length streams))) streams).

(** [n] turns of the loop; the result is the stream and [m_idx]. *)
(** @src streams/async_socket_stream.cc:287-293 AsyncSocketStreamManager::get *)
Fixpoint get_loop (m : AsyncSocketStreamManager) (n : nat) (idx : Z) : outcome (option nat * Z) :=
  match n with
  | O => Ok (None, idx)
  | S n =>
      let idx := u32 (idx + 1) in
      deref (mg_datas m !! Z.to_nat (idx mod mg_size m)) (fun k =>
      deref (mg_heap m !! k) (fun s =>
      if as_connected s then Ok (Some k, idx) else get_loop m n idx))
  end.

(** @src streams/async_socket_stream.cc:285-294 AsyncSocketStreamManager::get *)
Definition AsyncSocketStreamManager_get (m : AsyncSocketStreamManager) :
    outcome (option nat * AsyncSocketStreamManager) :=
  let! p := get_loop m (Z.to_nat (mg_size m)) (mg_idx m) in
  Ok (fst p, {| mg_heap := mg_heap m; mg_size := mg_size m; mg_idx := snd p; mg_datas := mg_datas m;
                mg_connectCb := mg_connectCb m; mg_disconnectCb := mg_disconnectCb m |}).

(** @src streams/async_socket_stream.cc:296-302 AsyncSocketStreamManager::setConnectCb *)
Definition AsyncSocketStreamManager_setConnectCb (m : AsyncSocketStreamManager) (v : option nat) :
    outcome AsyncSocketStreamManager :=
  let! heap := on_streams (mg_heap m) (mg_datas m) (AsyncSocketStream_setConnectCb v) in
  Ok {| mg_heap := heap; mg_size := mg_size m; mg_idx := mg_idx m; mg_datas := mg_datas m;
        mg_connectCb := v; mg_disconnectCb := mg_disconnectCb m |}.

(** @src streams/async_socket_stream.cc:304-310 AsyncSocketStreamManager::setDisconnectCb *)
Definition AsyncSocketStreamManager_setDisconnectCb (m : AsyncSocketStreamManager) (v : option nat) :
    outcome AsyncSocketStreamManager :=
  let! heap := on_streams (mg_heap m) (mg_datas m) (AsyncSocketStream_setDisconnectCb v) in
  Ok {| mg_heap := heap; mg_size := mg_size m; mg_idx := mg_idx m; mg_datas := mg_datas m;
        mg_connectCb := mg_connectCb m; mg_disconnectCb := v |}.

(** *** The round robin *)

Record mg_ok (m : AsyncSocketStreamManager) : Prop := {
  mo_size : mg_size m = Z.of_nat (length (mg_datas m));
  mo_small : mg_size m < 2 ^ 32;
  mo_idx : 0 <= mg_idx m < 2 ^ 32;
  mo_datas : Forall (fun k => is_Some (mg_heap m !! k)) (mg_datas m)
}.

Definition is_connected (m : AsyncSocketStreamManager) (k : nat) : bool :=
  match mg_heap m !! k with Some s => as_connected s | None => false end.

(** The turns look at consecutive positions. *)
Lemma get_loop_spec m : mg_ok m -> mg_datas m <> [] -> forall n idx, 0 <= idx < 2 ^ 32 ->
  exists r idx', get_loop m n idx = Ok (r, idx') /\ 0 <= idx' < 2 ^ 32 /\
    match r with
    | Some k => is_connected m k = true /\ In k (mg_datas m)
    | None => forall i k, (i < n)%nat -> idx + Z.of_nat i + 1 < 2 ^ 32 ->
        mg_datas m !! Z.to_nat ((idx + Z.of_nat i + 1) mod mg_size m) = Some k -> is_connected m k = false
    end.
Proof.
  intros [H1 H2 H3 H4] Hne. assert (0 < mg_size m) as Hpos by (rewrite H1; destruct (mg_datas m); cbn; [done|lia]).
  induction n as [|n IH]; intros idx Hidx; cbn [get_loop]; [exists None, idx; split_and!; [done|lia|lia|lia]|].
  pose proof (uwrap_range 32 (idx + 1) ltac:(lia)) as Hw. set (j := u32 (idx + 1)) in *.
  pose proof (Z.mod_pos_bound j (mg_size m) Hpos) as Hj.
  destruct (lookup_lt_is_Some_2 (mg_datas m) (Z.to_nat (j mod mg_size m))) as [k Hk]; [lia|]. rewrite Hk. cbn [deref].
  pose proof (proj1 (Forall_lookup _ _) H4 _ _ Hk) as [s Hs]. rewrite Hs. cbn [deref].
  destruct (as_connected s) eqn:Ec.
  - exists (Some k), j. split_and!; [done|lia|lia|unfold is_connected; by rewrite Hs|].
    apply list_elem_of_In. by eapply list_elem_of_lookup_2.
  - destruct (IH j Hw) as (r & idx' & -> & Hr & Hm). exists r, idx'. split_and!; [done|lia|lia|].
    destruct r as [k'|]; [done|]. intros i k' Hi Hno Hl. destruct i as [|i].
    + assert (j = idx + 1) as Ej by (unfold j; apply uwrap_small; lia).
      rewrite Z.add_0_r, <- Ej in Hl. rewrite Hk in Hl. injection Hl as <-. unfold is_connected. by rewrite Hs.
    + assert (j = idx + 1) as Ej by (unfold j; apply uwrap_small; lia).
      apply (Hm i); [lia|lia|]. rewrite Ej, <- Hl. do 3 f_equal. lia.
Qed.

(** Consecutive numbers hit every remainder. *)
Lemma mod_hits a m p : 0 < m -> 0 <= p < m -> exists i, 0 <= i < m /\ (a + i) mod m = p.
Proof.
  intros Hm Hp. exists ((p - a) mod m). split; [by apply Z.mod_pos_bound|].
  rewrite Zplus_mod_idemp_r. replace (a + (p - a)) with p by lia. by apply Z.mod_small.
Qed.

(** The manager's round robin.  With any number of streams, [get] returns, indexes
    only inside the list (never modulo zero), and gives a connected stream of the list
    whenever there is one and a null pointer otherwise, provided the 32-bit counter
    [m_idx] does not wrap around during the call. *)
Lemma AsyncSocketStreamManager_get_spec m :
  mg_ok m -> mg_idx m + mg_size m < 2 ^ 32 ->
  exists r m', AsyncSocketStreamManager_get m = Ok (r, m') /\ mg_ok m' /\ mg_datas m' = mg_datas m /\
    match r with
    | Some k => In k (mg_datas m) /\ is_connected m k = true
    | None => Forall (fun k => is_connected m k = false) (mg_datas m)
    end.
Proof.
  intros Hm Hno. pose proof Hm as [H1 H2 H3 H4]. unfold AsyncSocketStreamManager_get.
  destruct (decide (mg_datas m = [])) as [E|Hne].
  - rewrite H1, E. cbn. exists None. eexists. split; [done|]. split_and!; [|done|constructor].
    split; cbn; [done|lia|done|constructor].
  - destruct (get_loop_spec m Hm Hne (Z.to_nat (mg_size m)) (mg_idx m) H3) as (r & idx' & -> & Hr & Hres).
    cbn [obind fst snd]. exists r. eexists. split; [done|]. split_and!; [by split|done|].
    destruct r as [k|]; [tauto|]. apply Forall_lookup. intros p k Hk. pose proof (lookup_lt_Some _ _ _ Hk) as Hp.
    destruct (mod_hits (mg_idx m + 1) (mg_size m) (Z.of_nat p)) as (i & Hi & Ei); [lia|lia|].
    apply (Hres (Z.to_nat i) k); [lia|lia|]. rewrite Z2Nat.id by lia.
    replace (mg_idx m + i + 1) with (mg_idx m + 1 + i) by lia. rewrite Ei, Nat2Z.id. exact Hk.
Qed.

(** Three streams of which the last is connected. *)
Definition sample_manager (idx : Z) : AsyncSocketStreamManager :=
  {| mg_heap := [AsyncSocketStream_new false; AsyncSocketStream_new false; AsyncSocketStream_new true];
     mg_size := 3; mg_idx := idx; mg_datas := [0; 1; 2]%nat; mg_connectCb := None; mg_disconnectCb := None |}.

Lemma AsyncSocketStreamManager_get_spec_witness :
  exists r m', AsyncSocketStreamManager_get (sample_manager 0) = Ok (r, m') /\ mg_ok m' /\ mg_datas m' = [0; 1; 2]%nat /\
    match r with
    | Some k => In k [0; 1; 2]%nat /\ is_connected (sample_manager 0) k = true
    | None => Forall (fun k => is_connected (sample_manager 0) k = false) [0; 1; 2]%nat
    end.
Proof.
  apply (AsyncSocketStreamManager_get_spec (sample_manager 0)).
  - split; cbn; [reflexivity|lia|lia|]. repeat (constructor; [eexists; reflexivity|]). constructor.
  - cbn. lia.
Defined.

(** When the counter wraps, a connected stream can be missed: 2^32 is no multiple of 3. *)
Lemma AsyncSocketStreamManager_get_wrap :
  exists m', AsyncSocketStreamManager_get (sample_manager (2 ^ 32 - 2)) = Ok (None, m') /\
    is_connected (sample_manager (2 ^ 32 - 2)) 2 = true.
Proof. eexists. split; [vm_compute; reflexivity|reflexivity]. Qed.

(** A manager with only a disconnect callback does not install it in
    [setConnection] ... *)
Lemma setConnection_drops_disconnectCb m s cb :
  mg_connectCb m = None -> mg_disconnectCb m = Some cb -> install_callbacks m s = s.
Proof. intros H1 H2. unfold install_callbacks. by rewrite H1. Qed.

(** ... and one with only a connect callback erases the streams' own disconnect
    callbacks. *)
Lemma setConnection_erases_disconnectCb m s cb :
  mg_connectCb m = Some cb -> mg_disconnectCb m = None -> m_disconnectCb (install_callbacks m s) = None.
Proof. intros H1 H2. unfold install_callbacks. by rewrite H1, H2. Qed.
