(* ===== verification/Socket.v ===== *)
(** * Sockets ([socket.cc])

    [Socket] as a state machine over the descriptor it owns, with the answers of the
    system calls as inputs and the calls it makes as output, and [SSLSocket] over the
    functions of OpenSSL.  The theorem on the whole system of sockets: every
    descriptor is closed only by the socket that owns it and no two sockets own the
    same one, whatever the calls answer and in whatever order sockets are created,
    bound, connected, accepted, closed and destroyed. *)

From S2P Require Import Prelude Text FdManager Address.
From Stdlib Require Import ZArith Lia List String.
From stdpp Require Import base tactics list numbers option gmap relations.

Open Scope Z_scope.
Open Scope list_scope.

(** ** Data *)

Definition SOCK_STREAM : Z := 1.
Definition SOCK_DGRAM : Z := 2.
Definition SOL_SOCKET : Z := 1.
Definition SO_REUSEADDR : Z := 2.
Definition IPPROTO_TCP : Z := 6.
Definition TCP_NODELAY : Z := 1.

(** @src socket.h:134-142 Socket *)
Record Socket := {
  m_sockfd : Z;
  m_family : Z;
  m_type : Z;
  m_protocol : Z;
  m_isConnected : bool;
  m_localAddress : option Address;
  m_remoteAddress : option Address
}.

Definition put_fd s v := {| m_sockfd := v; m_family := m_family s; m_type := m_type s; m_protocol := m_protocol s;
  m_isConnected := m_isConnected s; m_localAddress := m_localAddress s; m_remoteAddress := m_remoteAddress s |}.
Definition put_conn s v := {| m_sockfd := m_sockfd s; m_family := m_family s; m_type := m_type s;
  m_protocol := m_protocol s; m_isConnected := v; m_localAddress := m_localAddress s; m_remoteAddress := m_remoteAddress s |}.
Definition put_local s v := {| m_sockfd := m_sockfd s; m_family := m_family s; m_type := m_type s;
  m_protocol := m_protocol s; m_isConnected := m_isConnected s; m_localAddress := v; m_remoteAddress := m_remoteAddress s |}.
Definition put_remote s v := {| m_sockfd := m_sockfd s; m_family := m_family s; m_type := m_type s;
  m_protocol := m_protocol s; m_isConnected := m_isConnected s; m_localAddress := m_localAddress s; m_remoteAddress := v |}.

(** The system calls a socket makes on descriptors. *)
Inductive syscall :=
| SysSocket (fd : Z)
| SysClose (fd : Z)
| SysConnect (fd : Z)
| SysBind (fd : Z)
| SysListen (fd : Z)
| SysAccept (fd newfd : Z)
| SysOption (fd level option : Z)
| SysUnlink (path : bytes).

(** What [getsockname] and [getpeername] leave: the memory of the address object and
    its length, or [None] for an error. *)
Definition name_answer : Type := option (bytes * Z).

(** ** Construction *)

(** @src socket.cc:65-71 Socket::Socket *)
Definition Socket_new (family type protocol : Z) : Socket :=
  {| m_sockfd := -1; m_family := family; m_type := type; m_protocol := protocol; m_isConnected := false;
     m_localAddress := None; m_remoteAddress := None |}.

(** @src socket.h:105-105 Socket::isValid *)
Definition Socket_isValid (s : Socket) : bool := negb (m_sockfd s =? -1).

(** @src socket.cc:445-451 Socket::initSock *)
Definition Socket_initSock (s : Socket) : list syscall :=
  SysOption (m_sockfd s) SOL_SOCKET SO_REUSEADDR ::
  (if m_type s =? SOCK_STREAM then [SysOption (m_sockfd s) IPPROTO_TCP TCP_NODELAY] else []).

(** [fd]: what [socket] answers. *)
(** @src socket.cc:454-461 Socket::newSock *)
Definition Socket_newSock (s : Socket) (fd : Z) : Socket * list syscall :=
  let s := put_fd s fd in
  (s, SysSocket fd :: if negb (m_sockfd s =? -1) then Socket_initSock s else []).

(** @src socket.cc:14-17 Socket::CreateTCP *)
Definition Socket_CreateTCP (address : Address) : Socket := Socket_new (Address_getFamily address) SOCK_STREAM 0.

(** @src socket.cc:19-26 Socket::CreateUDP *)
Definition Socket_CreateUDP (address : Address) (fd : Z) : Socket * list syscall :=
  let '(s, l) := Socket_newSock (Socket_new (Address_getFamily address) SOCK_DGRAM 0) fd in (put_conn s true, l).

(** @src socket.cc:28-31 Socket::CreateTCPSocket *)
Definition Socket_CreateTCPSocket : Socket := Socket_new AF_INET SOCK_STREAM 0.

(** @src socket.cc:33-38 Socket::CreateUDPSocket *)
Definition Socket_CreateUDPSocket (fd : Z) : Socket * list syscall :=
  let '(s, l) := Socket_newSock (Socket_new AF_INET SOCK_DGRAM 0) fd in (put_conn s true, l).

(** @src socket.cc:40-43 Socket::CreateTCPSocket6 *)
Definition Socket_CreateTCPSocket6 : Socket := Socket_new AF_INET6 SOCK_STREAM 0.

(** @src socket.cc:45-50 Socket::CreateUDPSocket6 *)
Definition Socket_CreateUDPSocket6 (fd : Z) : Socket * list syscall :=
  let '(s, l) := Socket_newSock (Socket_new AF_INET6 SOCK_DGRAM 0) fd in (put_conn s true, l).

(** @src socket.cc:52-55 Socket::CreateUnixTCPSocket *)
Definition Socket_CreateUnixTCPSocket : Socket := Socket_new AF_UNIX SOCK_STREAM 0.

(** @src socket.cc:57-60 Socket::CreateUnixUDPSocket *)
Definition Socket_CreateUnixUDPSocket : Socket := Socket_new AF_UNIX SOCK_DGRAM 0.

(** ** Addresses *)

Section host.
(** The byte order of the machine. *)
Context (host : Z).

(** The address object for a family, filled with the memory the kernel left. *)
(** @src socket.cc:331-346 Socket::getRemoteAddress *)
Definition filled_address (family : Z) (mem : bytes) (addrlen : Z) : Address :=
  if family =? AF_INET then IPv4Address (in_of host mem)
  else if family =? AF_INET6 then IPv6Address (in6_of host mem)
  else if family =? AF_UNIX then UnixAddress_setAddrLen (mkUn (field host mem 0 2) (slice 2 sizeof_sun_path mem)) addrlen
  else UnknownAddress (any_of host mem).

(** @src socket.cc:327-357 Socket::getRemoteAddress *)
Definition Socket_getRemoteAddress (s : Socket) (peer : name_answer) : Address * Socket :=
  match m_remoteAddress s with
  | Some a => (a, s)
  | None =>
      match peer with
      | None => (UnknownAddress_new (m_family s), s)
      | Some (mem, len) =>
          let result := filled_address (m_family s) mem len in (result, put_remote s (Some result))
      end
  end.

(** @src socket.cc:359-390 Socket::getLocalAddress *)
Definition Socket_getLocalAddress (s : Socket) (name : name_answer) : Address * Socket :=
  match m_localAddress s with
  | Some a => (a, s)
  | None =>
      match name with
      | None => (UnknownAddress_new (m_family s), s)
      | Some (mem, len) =>
          let result := filled_address (m_family s) mem len in (result, put_local s (Some result))
      end
  end.

(** ** Connections *)

(** @src socket.cc:236-246 Socket::close *)
Definition Socket_close (s : Socket) : bool * Socket * list syscall :=
  if negb (m_isConnected s) && (m_sockfd s =? -1) then (true, s, [])
  else
    let s := put_conn s false in
    if negb (m_sockfd s =? -1) then (false, put_fd s (-1), [SysClose (m_sockfd s)]) else (false, s, []).

(** @src socket.cc:73-75 Socket::~Socket *)
Definition Socket_destroy (s : Socket) : list syscall := snd (Socket_close s).

(** [if (!isValid()) newSock()], [fd] being what [socket] answers. *)
Definition ensure_valid (s : Socket) (fd : Z) : Socket * list syscall :=
  if negb (Socket_isValid s) then Socket_newSock s fd else (s, []).

(** The answers of the calls [connect] makes: [socket], [connect] (or
    [connect_with_timeout], by the timeout), [getpeername], [getsockname]. *)
Record connect_answers := {
  an_socket : Z;
  an_connect : option Z -> Z;
  an_peer : name_answer;
  an_name : name_answer
}.

(** @src socket.cc:185-222 Socket::connect *)
Definition Socket_connect (s : Socket) (addr : Address) (timeout_ms : Z) (an : connect_answers) :
    bool * Socket * list syscall :=
  let s := put_remote s (Some addr) in
  let '(s, l) := ensure_valid s (an_socket an) in
  if negb (Socket_isValid s) then (false, s, l)
  else if negb (Address_getFamily addr =? m_family s) then (false, s, l)
  else
    let ret := if timeout_ms =? U64_MAX then an_connect an None else an_connect an (Some timeout_ms) in
    let l := l ++ [SysConnect (m_sockfd s)] in
    if ret <? 0 then let '(_, s, k) := Socket_close s in (false, s, l ++ k)
    else
      let s := put_conn s true in
      let s := snd (Socket_getRemoteAddress s (an_peer an)) in
      let s := snd (Socket_getLocalAddress s (an_name an)) in
      (true, s, l).

(** @src socket.cc:176-183 Socket::reconnect *)
Definition Socket_reconnect (s : Socket) (timeout_ms : Z) (an : connect_answers) : bool * Socket * list syscall :=
  match m_remoteAddress s with
  | None => (false, s, [])
  | Some addr => Socket_connect (put_local s None) addr timeout_ms an
  end.

(** [sock->connect(uaddr)] of a new socket, which is destroyed at the end of the block. *)
(** @src socket.cc:156-164 Socket::bind *)
Definition probe_unix (addr : Address) (an : connect_answers) : bool * list syscall :=
  let '(ok, sock, l) := Socket_connect Socket_CreateUnixTCPSocket addr U64_MAX an in
  (ok, l ++ Socket_destroy sock).

(** [fd], [ret], [name]: what [socket], [bind] and [getsockname] answer; [path] is
    [uaddr->getPath()], for a Unix address. *)
(** @src socket.cc:140-174 Socket::bind *)
Definition Socket_bind (s : Socket) (addr : Address) (fd ret : Z) (name : name_answer) (an : connect_answers) :
    outcome (bool * Socket * list syscall) :=
  let '(s, l) := ensure_valid s fd in
  if negb (Socket_isValid s) then Ok (false, s, l)
  else if negb (Address_getFamily addr =? m_family s) then Ok (false, s, l)
  else
    let! r :=
      match addr with
      | UnixAddress a len =>
          let '(ok, k) := probe_unix addr an in
          if ok then Ok (false, l ++ k)
          else let! path := UnixAddress_getPath a len in Ok (true, l ++ k ++ [SysUnlink path])
      | _ => Ok (true, l)
      end in
    let '(go, l) := r in
    if negb go then Ok (false, s, l)
    else
      let l := l ++ [SysBind (m_sockfd s)] in
      if ret <? 0 then Ok (false, s, l) else Ok (true, snd (Socket_getLocalAddress s name), l).

(** @src socket.cc:224-234 Socket::listen *)
Definition Socket_listen (s : Socket) (ret : Z) : bool * list syscall :=
  if negb (Socket_isValid s) then (false, [])
  else if negb (ret =? 0) then (false, [SysListen (m_sockfd s)]) else (true, [SysListen (m_sockfd s)]).

(** [ctx]: what [FdMgr::GetInstance()->get(sockfd)] gives. *)
(** @src socket.cc:464-477 Socket::init *)
Definition Socket_init (s : Socket) (sockfd : Z) (ctx : option FdCtx) (name peer : name_answer) :
    bool * Socket * list syscall :=
  match ctx with
  | Some c =>
      if m_isSocket c && negb (m_isClosed c) then
        let s := put_conn (put_fd s sockfd) true in
        let l := Socket_initSock s in
        let s := snd (Socket_getLocalAddress s name) in
        let s := snd (Socket_getRemoteAddress s peer) in
        (true, s, l)
      else (false, s, [])
  | None => (false, s, [])
  end.

(** A socket that was created but not returned is destroyed. *)
(** @src socket.cc:127-138 Socket::accept *)
Definition Socket_accept (s : Socket) (newsock : Z) (ctx : option FdCtx) (name peer : name_answer) :
    option Socket * list syscall :=
  let sock := Socket_new (m_family s) (m_type s) (m_protocol s) in
  let l := [SysAccept (m_sockfd s) newsock] in
  if newsock =? -1 then (None, l ++ Socket_destroy sock)
  else
    let '(ok, sock, k) := Socket_init sock newsock ctx name peer in
    if ok then (Some sock, l ++ k) else (None, l ++ k ++ Socket_destroy sock).

(** ** Transfers *)

(** [ret]: what the call ([send], [sendmsg], [sendto], [recv], [recvmsg], [recvfrom])
    answers when it is made. *)
(** @src socket.cc:251-255 Socket::send *)
Definition Socket_send (s : Socket) (ret : Z) : Z := if m_isConnected s then i32 ret else -1.
(** @src socket.cc:257-266 Socket::send *)
Definition Socket_send_iov (s : Socket) (ret : Z) : Z := if m_isConnected s then i32 ret else -1.
(** @src socket.cc:268-272 Socket::sendTo *)
Definition Socket_sendTo (s : Socket) (ret : Z) : Z := if m_isConnected s then i32 ret else -1.
(** @src socket.cc:274-285 Socket::sendTo *)
Definition Socket_sendTo_iov (s : Socket) (ret : Z) : Z := if m_isConnected s then i32 ret else -1.
(** @src socket.cc:287-291 Socket::recv *)
Definition Socket_recv (s : Socket) (ret : Z) : Z := if m_isConnected s then i32 ret else -1.
(** @src socket.cc:293-302 Socket::recv *)
Definition Socket_recv_iov (s : Socket) (ret : Z) : Z := if m_isConnected s then i32 ret else -1.
(** @src socket.cc:304-310 Socket::recvFrom *)
Definition Socket_recvFrom (s : Socket) (ret : Z) : Z := if m_isConnected s then i32 ret else -1.
(** @src socket.cc:312-323 Socket::recvFrom *)
Definition Socket_recvFrom_iov (s : Socket) (ret : Z) : Z := if m_isConnected s then i32 ret else -1.

(** ** Options and timeouts *)

(** @src socket.cc:106-113 Socket::getOption *)
Definition Socket_getOption (ret : Z) : bool := ret =? 0.
(** @src socket.cc:115-122 Socket::setOption *)
Definition Socket_setOption (ret : Z) : bool := ret =? 0.

(** [answer]: the error [getsockopt] stores, or [inr errno] when it fails. *)
(** @src socket.cc:393-400 Socket::getError *)
Definition Socket_getError (answer : Z + Z) : Z := match answer with inl error => error | inr errno => errno end.

(** [ctx]: what the manager of descriptors has for [m_sockfd]. *)
(** @src socket.cc:79-84 Socket::getSendTimeout *)
Definition Socket_getSendTimeout (ctx : option FdCtx) : Z :=
  match ctx with Some c => i64 (FdCtx_getTimeout c SO_SNDTIMEO) | None => -1 end.
(** @src socket.cc:91-96 Socket::getRecvTimeout *)
Definition Socket_getRecvTimeout (ctx : option FdCtx) : Z :=
  match ctx with Some c => i64 (FdCtx_getTimeout c SO_RCVTIMEO) | None => -1 end.

(** The [timeval] of a number of milliseconds: seconds and microseconds. *)
(** @src socket.cc:86-89 Socket::setSendTimeout *)
Definition timeout_timeval (v : Z) : Z * Z := (i32 (Z.quot v 1000), i32 (Z.rem v 1000 * 1000)).

(** [setOption] with the [timeval] of the first argument. *)
(** @src socket.cc:98-101 Socket::setRecvTimeout *)
Definition Socket_setRecvTimeout (v : Z) : Z * (Z * Z) := (SO_RCVTIMEO, timeout_timeval v).

(** ** Printing *)

(** What the two [dump]s print after their first words. *)
Definition dump_as (label : bytes) (s : Socket) : outcome bytes :=
  let head := label ++ (if m_sockfd s <? 0 then str "-" ++ dec (- m_sockfd s) else dec (m_sockfd s)) ++
              str " is_connected=" ++ (if m_isConnected s then str "1" else str "0") ++
              str " family=" ++ dec (m_family s) ++ str " type=" ++ dec (m_type s) ++
              str " protocol=" ++ dec (m_protocol s) in
  let! local := match m_localAddress s with
                | Some a => let! t := Address_toString host a in Ok (str " local_address=" ++ t)
                | None => Ok [] end in
  let! remote := match m_remoteAddress s with
                 | Some a => let! t := Address_toString host a in Ok (str " remote_address=" ++ t)
                 | None => Ok [] end in
  Ok (head ++ local ++ remote ++ str "]").

(** @src socket.cc:403-417 Socket::dump *)
Definition Socket_dump (s : Socket) : outcome bytes := dump_as (str "[Socket sockfd=") s.

(** @src socket.cc:419-423 Socket::toString *)
Definition Socket_toString (s : Socket) : outcome bytes := Socket_dump s.

End host.

(** ** Encrypted sockets *)

(** [m_ctx] and [m_ssl] are objects of OpenSSL, by number. *)
(** @src socket.h:175-178 SSLSocket *)
Record SSLSocket := { ssl_base : Socket; m_ctx : option nat; m_ssl : option nat }.

(** @src socket.cc:496-498 SSLSocket::SSLSocket *)
Definition SSLSocket_new (family type protocol : Z) : SSLSocket :=
  {| ssl_base := Socket_new family type protocol; m_ctx := None; m_ssl := None |}.

(** @src socket.cc:638-641 SSLSocket::CreateTCP *)
Definition SSLSocket_CreateTCP (address : Address) : SSLSocket := SSLSocket_new (Address_getFamily address) SOCK_STREAM 0.
(** @src socket.cc:643-646 SSLSocket::CreateTCPSocket *)
Definition SSLSocket_CreateTCPSocket : SSLSocket := SSLSocket_new AF_INET SOCK_STREAM 0.
(** @src socket.cc:648-651 SSLSocket::CreateTCPSocket6 *)
Definition SSLSocket_CreateTCPSocket6 : SSLSocket := SSLSocket_new AF_INET6 SOCK_STREAM 0.

(** [new_ctx], [new_ssl]: the objects OpenSSL makes; [handshake]: what [SSL_connect] or
    [SSL_accept] answers. *)
(** @src socket.cc:519-528 SSLSocket::connect *)
Definition SSLSocket_connect (host : Z) (s : SSLSocket) (addr : Address) (timeout_ms : Z) (an : connect_answers)
    (new_ctx new_ssl : option nat) (handshake : Z) : bool * SSLSocket * list syscall :=
  let '(v, b, l) := Socket_connect host (ssl_base s) addr timeout_ms an in
  if v then (handshake =? 1, {| ssl_base := b; m_ctx := new_ctx; m_ssl := new_ssl |}, l)
  else (false, {| ssl_base := b; m_ctx := m_ctx s; m_ssl := m_ssl s |}, l).

(** @src socket.cc:608-616 SSLSocket::init *)
Definition SSLSocket_init (host : Z) (s : SSLSocket) (sock : Z) (ctx : option FdCtx) (name peer : name_answer)
    (new_ssl : option nat) (handshake : Z) : bool * SSLSocket * list syscall :=
  let '(v, b, l) := Socket_init host (ssl_base s) sock ctx name peer in
  if v then (handshake =? 1, {| ssl_base := b; m_ctx := m_ctx s; m_ssl := new_ssl |}, l)
  else (false, {| ssl_base := b; m_ctx := m_ctx s; m_ssl := m_ssl s |}, l).

(** @src socket.cc:500-513 SSLSocket::accept *)
Definition SSLSocket_accept (host : Z) (s : SSLSocket) (newsock : Z) (ctx : option FdCtx) (name peer : name_answer)
    (new_ssl : option nat) (handshake : Z) : option SSLSocket * list syscall :=
  let b := ssl_base s in
  let sock := SSLSocket_new (m_family b) (m_type b) (m_protocol b) in
  let l := [SysAccept (m_sockfd b) newsock] in
  if newsock =? -1 then (None, l ++ Socket_destroy (ssl_base sock))
  else
    let sock := {| ssl_base := ssl_base sock; m_ctx := m_ctx s; m_ssl := m_ssl sock |} in
    let '(ok, sock, k) := SSLSocket_init host sock newsock ctx name peer new_ssl handshake in
    if ok then (Some sock, l ++ k) else (None, l ++ k ++ Socket_destroy (ssl_base sock)).

(** @src socket.cc:515-517 SSLSocket::bind *)
Definition SSLSocket_bind (host : Z) (s : SSLSocket) (addr : Address) (fd ret : Z) (name : name_answer) (an : connect_answers) :
    outcome (bool * SSLSocket * list syscall) :=
  let! p := Socket_bind host (ssl_base s) addr fd ret name an in
  let '(b, base, l) := p in Ok (b, {| ssl_base := base; m_ctx := m_ctx s; m_ssl := m_ssl s |}, l).

(** @src socket.cc:530-532 SSLSocket::listen *)
Definition SSLSocket_listen (s : SSLSocket) (ret : Z) : bool * list syscall := Socket_listen (ssl_base s) ret.

(** @src socket.cc:534-536 SSLSocket::close *)
Definition SSLSocket_close (s : SSLSocket) : bool * SSLSocket * list syscall :=
  let '(v, b, l) := Socket_close (ssl_base s) in (v, {| ssl_base := b; m_ctx := m_ctx s; m_ssl := m_ssl s |}, l).

(** [ret]: what [SSL_write] answers. *)
(** @src socket.cc:538-543 SSLSocket::send *)
Definition SSLSocket_send (s : SSLSocket) (ret : Z) : Z := if non_null (m_ssl s) then ret else -1.

(** The buffers by their lengths, each with what [SSL_write] answers for it. *)
(** @src socket.cc:549-560 SSLSocket::send *)
Fixpoint ssl_iov_loop (l : list (Z * Z)) (total : Z) : Z :=
  match l with
  | [] => total
  | (iov_len, tmp) :: l =>
      if tmp <=? 0 then tmp
      else let total := i32 (total + tmp) in
           if negb (tmp =? i32 iov_len) then total else ssl_iov_loop l total
  end.

(** @src socket.cc:545-561 SSLSocket::send *)
Definition SSLSocket_send_iov (s : SSLSocket) (l : list (Z * Z)) : Z :=
  if negb (non_null (m_ssl s)) then -1 else ssl_iov_loop l 0.

(** @src socket.cc:573-578 SSLSocket::recv *)
Definition SSLSocket_recv (s : SSLSocket) (ret : Z) : Z := if non_null (m_ssl s) then ret else -1.

(** @src socket.cc:580-596 SSLSocket::recv *)
Definition SSLSocket_recv_iov (s : SSLSocket) (l : list (Z * Z)) : Z :=
  if negb (non_null (m_ssl s)) then -1 else ssl_iov_loop l 0.

(** @src socket.cc:563-571 SSLSocket::sendTo *)
Definition SSLSocket_sendTo : outcome Z := assertb false (Ok (-1)).
(** @src socket.cc:598-606 SSLSocket::recvFrom *)
Definition SSLSocket_recvFrom : outcome Z := assertb false (Ok (-1)).

(** [ctx]: the new context; the three answers of OpenSSL. *)
(** @src socket.cc:618-636 SSLSocket::loadCertificates *)
Definition SSLSocket_loadCertificates (s : SSLSocket) (ctx : option nat) (cert key check : Z) : bool * SSLSocket :=
  let s := {| ssl_base := ssl_base s; m_ctx := ctx; m_ssl := m_ssl s |} in
  if negb (cert =? 1) then (false, s) else if negb (key =? 1) then (false, s)
  else if negb (check =? 1) then (false, s) else (true, s).

(** @src socket.cc:653-667 SSLSocket::dump *)
Definition SSLSocket_dump (host : Z) (s : SSLSocket) : outcome bytes := dump_as host (str "[SSLSocket sock=") (ssl_base s).

(** A failed handshake leaves the socket connected: [connect] returns false, yet
    [isConnected()] and the descriptor say otherwise. *)
Lemma SSLSocket_connect_failed_handshake host s addr t an c k hs b l :
  Socket_connect host (ssl_base s) addr t an = (true, b, l) -> m_isConnected b = true -> hs <> 1 ->
  exists s', SSLSocket_connect host s addr t an c k hs = (false, s', l) /\ m_isConnected (ssl_base s') = true.
Proof.
  intros E Hb Hh. unfold SSLSocket_connect. rewrite E. rewrite (proj2 (Z.eqb_neq hs 1)) by done. eexists. split; done.
Qed.

(** [close] keeps [m_ssl], so a later [send] still calls [SSL_write]. *)
Lemma SSLSocket_send_after_close s ret v s' l :
  SSLSocket_close s = (v, s', l) -> SSLSocket_send s' ret = SSLSocket_send s ret.
Proof. unfold SSLSocket_close. destruct (Socket_close (ssl_base s)) as [[? ?] ?]. by intros [= <- <- <-]. Qed.

(** An error after a buffer was sent hides what was sent. *)
Example SSLSocket_send_iov_loses_count :
  SSLSocket_send_iov {| ssl_base := Socket_CreateTCPSocket; m_ctx := None; m_ssl := Some 0%nat |} [(3, 3); (4, -1)] = -1.
Proof. reflexivity. Qed.

(** ** Ownership of descriptors *)

(** The open descriptors after a sequence of calls; [None] when a call closes a
    descriptor that is not open. *)
Fixpoint exec (O : gset Z) (l : list syscall) : option (gset Z) :=
  match l with
  | [] => Some O
  | SysSocket fd :: l => exec (if fd =? -1 then O else {[fd]} ∪ O) l
  | SysAccept _ fd :: l => exec (if fd =? -1 then O else {[fd]} ∪ O) l
  | SysClose fd :: l => if bool_decide (fd ∈ O) then exec (O ∖ {[fd]}) l else None
  | _ :: l => exec O l
  end.

(** What the kernel promises: a new descriptor is not one that is open. *)
Fixpoint kernel_ok (O : gset Z) (l : list syscall) : Prop :=
  match l with
  | [] => True
  | SysSocket fd :: l => fd ∉ O /\ kernel_ok (if fd =? -1 then O else {[fd]} ∪ O) l
  | SysAccept _ fd :: l => fd ∉ O /\ kernel_ok (if fd =? -1 then O else {[fd]} ∪ O) l
  | SysClose fd :: l => kernel_ok (O ∖ {[fd]}) l
  | _ :: l => kernel_ok O l
  end.

Definition own (s : Socket) : gset Z := if m_sockfd s =? -1 then ∅ else {[m_sockfd s]}.

(** An operation that turns [s] into [s'] with the calls [l] touches only what the
    socket owns: next to any other open descriptors [F], it closes nothing that is not
    open and ends with [F] and what [s'] owns. *)
Definition conforms (s : Socket) (l : list syscall) (s' : Socket) : Prop :=
  forall F, own s ## F -> -1 ∉ F -> kernel_ok (own s ∪ F) l ->
    exec (own s ∪ F) l = Some (own s' ∪ F) /\ own s' ## F.

Lemma exec_app O l1 l2 : exec O (l1 ++ l2) = match exec O l1 with Some O1 => exec O1 l2 | None => None end.
Proof.
  revert O. induction l1 as [|c l1 IH]; intros O; [done|]. destruct c; cbn; try apply IH.
  case_bool_decide; [apply IH|done].
Qed.

Lemma kernel_ok_app O l1 l2 O1 :
  kernel_ok O (l1 ++ l2) -> exec O l1 = Some O1 -> kernel_ok O l1 /\ kernel_ok O1 l2.
Proof.
  revert O. induction l1 as [|c l1 IH]; intros O Hk He; cbn in *; [by injection He as <-|].
  destruct c; cbn in *; try (by apply IH).
  - destruct Hk as [? Hk]. destruct (IH _ Hk He). done.
  - case_bool_decide; [|done]. by apply IH.
  - destruct Hk as [? Hk]. destruct (IH _ Hk He). done.
Qed.

Lemma kernel_ok_prefix O l1 l2 : kernel_ok O (l1 ++ l2) -> kernel_ok O l1.
Proof.
  revert O. induction l1 as [|c l1 IH]; intros O Hk; cbn in *; [done|].
  destruct c; cbn in *; try (by apply IH); destruct Hk; split; auto.
Qed.

Lemma conforms_trans s1 s2 s3 l1 l2 : conforms s1 l1 s2 -> conforms s2 l2 s3 -> conforms s1 (l1 ++ l2) s3.
Proof.
  intros H1 H2 F Hd Hm Hk. destruct (H1 F Hd Hm (kernel_ok_prefix _ _ _ Hk)) as [E1 Hd1].
  destruct (kernel_ok_app _ _ _ _ Hk E1) as [_ Hk2].
  destruct (H2 F Hd1 Hm Hk2) as [E2 Hd2]. rewrite exec_app, E1. done.
Qed.

(** Calls that neither open nor close anything. *)
Definition harmless (c : syscall) : bool :=
  match c with SysConnect _ | SysBind _ | SysListen _ | SysOption _ _ _ | SysUnlink _ => true | _ => false end.

Lemma conforms_harmless s s' l : forallb harmless l = true -> m_sockfd s' = m_sockfd s -> conforms s l s'.
Proof.
  intros Hl Hs F Hd Hm _. assert (own s' = own s) as -> by (unfold own; by rewrite Hs). split; [|done].
  induction l as [|c l IH]; [done|]. cbn in Hl. apply andb_true_iff in Hl as [Hc Hl]. destruct c; try done; by apply IH.
Qed.

Lemma own_close s : own (snd (fst (Socket_close s))) = ∅.
Proof.
  unfold Socket_close. destruct (m_sockfd s =? -1) eqn:E.
  - destruct (m_isConnected s); cbn [negb andb put_conn m_sockfd]; rewrite ?E; cbn [negb fst snd]; unfold own; cbn; by rewrite E.
  - rewrite andb_false_r. cbn [put_conn m_sockfd]. by rewrite E.
Qed.

Lemma conforms_close s : conforms s (snd (Socket_close s)) (snd (fst (Socket_close s))).
Proof.
  unfold Socket_close. destruct (m_sockfd s =? -1) eqn:E.
  - destruct (m_isConnected s); cbn; rewrite ?E; cbn; by apply conforms_harmless.
  - rewrite andb_false_r. cbn [put_conn m_sockfd]. rewrite E. cbn [negb fst snd]. intros F Hd Hm _.
    unfold own in *. rewrite E in *. cbn in *. rewrite bool_decide_eq_true_2 by set_solver.
    split; [f_equal; set_solver|set_solver].
Qed.

Lemma conforms_newSock s fd : m_sockfd s = -1 ->
  conforms s (snd (Socket_newSock s fd)) (fst (Socket_newSock s fd)).
Proof.
  intros Hs. unfold Socket_newSock. cbn [fst snd put_fd m_sockfd].
  change (SysSocket fd :: ?l) with ([SysSocket fd] ++ l). apply conforms_trans with (put_fd s fd).
  - intros F Hd Hm Hk. unfold own in *. cbn in *. rewrite Hs in *. cbn in *. destruct Hk as [Hf _].
    destruct (fd =? -1); (split; [f_equal; set_solver|set_solver]).
  - apply conforms_harmless; [|done]. destruct (fd =? -1); [done|]. unfold Socket_initSock. by destruct (_ =? _).
Qed.

Lemma conforms_ensure_valid s fd : conforms s (snd (ensure_valid s fd)) (fst (ensure_valid s fd)).
Proof.
  unfold ensure_valid, Socket_isValid. destruct (m_sockfd s =? -1) eqn:E; cbn [negb].
  - apply conforms_newSock. by apply Z.eqb_eq.
  - by apply conforms_harmless.
Qed.

Lemma ensure_valid_keeps s fd : m_remoteAddress (fst (ensure_valid s fd)) = m_remoteAddress s.
Proof. unfold ensure_valid, Socket_newSock. by destruct (negb (Socket_isValid s)). Qed.

Section ops.
Context (host : Z).

Lemma getRemoteAddress_fd s p : m_sockfd (snd (Socket_getRemoteAddress host s p)) = m_sockfd s.
Proof. unfold Socket_getRemoteAddress. by destruct (m_remoteAddress s), p as [[? ?]|]. Qed.

Lemma getLocalAddress_fd s p : m_sockfd (snd (Socket_getLocalAddress host s p)) = m_sockfd s.
Proof. unfold Socket_getLocalAddress. by destruct (m_localAddress s), p as [[? ?]|]. Qed.

Lemma conforms_connect s addr t an :
  conforms s (snd (Socket_connect host s addr t an)) (snd (fst (Socket_connect host s addr t an))).
Proof.
  unfold Socket_connect.
  pose proof (conforms_ensure_valid (put_remote s (Some addr)) (an_socket an)) as Hv.
  destruct (ensure_valid (put_remote s (Some addr)) (an_socket an)) as [s1 l]. cbn [fst snd] in Hv.
  assert (Hv' : conforms s l s1) by exact Hv.
  destruct (negb (Socket_isValid s1)); [done|]. destruct (negb (_ =? _)); [done|].
  assert (Hc : conforms s (l ++ [SysConnect (m_sockfd s1)]) s1).
  { eapply conforms_trans; [exact Hv'|]. by apply conforms_harmless. }
  destruct (_ <? 0).
  - pose proof (conforms_close s1) as Hcl. destruct (Socket_close s1) as [[b s2] k]. cbn [fst snd] in *.
    eapply conforms_trans; [exact Hc|exact Hcl].
  - cbn [fst snd]. rewrite <- (app_nil_r (l ++ _)). eapply conforms_trans; [exact Hc|].
    apply conforms_harmless; [done|]. by rewrite getLocalAddress_fd, getRemoteAddress_fd.
Qed.

Lemma conforms_reconnect s t an :
  conforms s (snd (Socket_reconnect host s t an)) (snd (fst (Socket_reconnect host s t an))).
Proof.
  unfold Socket_reconnect. destruct (m_remoteAddress s); [|by apply conforms_harmless].
  exact (conforms_connect (put_local s None) a t an).
Qed.

(** The socket that probes a Unix path is gone afterwards. *)
Lemma conforms_probe s addr an : conforms s (snd (probe_unix host addr an)) s.
Proof.
  unfold probe_unix. pose proof (conforms_connect Socket_CreateUnixTCPSocket addr U64_MAX an) as H.
  destruct (Socket_connect _ _ _ _ _) as [[ok p] l]. cbn [fst snd] in *.
  intros F Hd Hm Hk. set (G := own s ∪ F).
  assert (E0 : own Socket_CreateUnixTCPSocket ∪ G = G) by (unfold own; cbn; set_solver).
  assert (Hg : conforms Socket_CreateUnixTCPSocket (l ++ Socket_destroy p) (snd (fst (Socket_close p)))).
  { eapply conforms_trans; [exact H|]. apply conforms_close. }
  destruct (Hg G) as [E Hd'].
  - unfold own; cbn; set_solver.
  - unfold G, own. destruct (m_sockfd s =? -1) eqn:Es; [set_solver|]. apply Z.eqb_neq in Es. set_solver.
  - by rewrite E0.
  - rewrite E0 in E. rewrite E. split; [|done]. f_equal.
    rewrite own_close. set_solver.
Qed.

Lemma conforms_bind s addr fd ret name an b s' l :
  Socket_bind host s addr fd ret name an = Ok (b, s', l) -> conforms s l s'.
Proof.
  unfold Socket_bind. pose proof (conforms_ensure_valid s fd) as Hv.
  destruct (ensure_valid s fd) as [s1 l1]. cbn [fst snd] in Hv.
  destruct (negb (Socket_isValid s1)); [by intros [= <- <- <-]|]. destruct (negb (_ =? _)); [by intros [= <- <- <-]|].
  assert (Hfin : forall l2, conforms s l2 s1 -> 
    (if ret <? 0 then Ok (false, s1, l2 ++ [SysBind (m_sockfd s1)])
     else Ok (true, snd (Socket_getLocalAddress host s1 name), l2 ++ [SysBind (m_sockfd s1)])) = Ok (b, s', l) -> conforms s l s').
  { intros l2 H2 Hop. assert (conforms s (l2 ++ [SysBind (m_sockfd s1)]) s1) as H3
      by (eapply conforms_trans; [exact H2|by apply conforms_harmless]).
    destruct (ret <? 0); injection Hop as <- <- <-; [done|].
    rewrite <- (app_nil_r (l2 ++ _)). eapply conforms_trans; [exact H3|].
    apply conforms_harmless; [done|apply getLocalAddress_fd]. }
  destruct addr as [a|a|a len|a]; cbn [obind negb]; [by apply Hfin|by apply Hfin| |by apply Hfin].
  pose proof (conforms_probe s1 (UnixAddress a len) an) as Hp.
  destruct (probe_unix host (UnixAddress a len) an) as [ok k]. cbn [fst snd] in Hp.
  assert (Hlk : conforms s (l1 ++ k) s1) by (eapply conforms_trans; [exact Hv|exact Hp]).
  destruct ok; cbn [obind negb]; [by intros [= <- <- <-]|].
  destruct (UnixAddress_getPath a len) as [path| | | |]; cbn [obind negb]; try done. apply Hfin.
  rewrite app_assoc. eapply conforms_trans; [exact Hlk|]. by apply conforms_harmless.
Qed.
End ops.

(** ** A program with any number of sockets *)

(** The live sockets, the open descriptors ([None] after a close of a descriptor that
    was not open), and the descriptors [accept] opened and forgot. *)
Record sock_system := { socks : gmap nat Socket; sys_open : option (gset Z); sys_leaked : gset Z }.

(** The operations that keep a socket, with their calls. *)
Inductive sock_op (host : Z) (s : Socket) : list syscall -> Socket -> Prop :=
| op_close : sock_op host s (snd (Socket_close s)) (snd (fst (Socket_close s)))
| op_connect addr t an :
    sock_op host s (snd (Socket_connect host s addr t an)) (snd (fst (Socket_connect host s addr t an)))
| op_reconnect t an :
    sock_op host s (snd (Socket_reconnect host s t an)) (snd (fst (Socket_reconnect host s t an)))
| op_bind addr fd ret name an b s' l :
    Socket_bind host s addr fd ret name an = Ok (b, s', l) -> sock_op host s l s'
| op_listen ret : sock_op host s (snd (Socket_listen s ret)) s.

Inductive sock_step (host : Z) : sock_system -> sock_system -> Prop :=
| sk_new m O g k f t p :
    m !! k = None ->
    sock_step host {| socks := m; sys_open := Some O; sys_leaked := g |}
                   {| socks := <[k := Socket_new f t p]> m; sys_open := Some O; sys_leaked := g |}
| sk_udp m O g k addr fd s l :
    m !! k = None -> Socket_CreateUDP addr fd = (s, l) -> kernel_ok O l ->
    sock_step host {| socks := m; sys_open := Some O; sys_leaked := g |}
                   {| socks := <[k := s]> m; sys_open := exec O l; sys_leaked := g |}
| sk_op m O g k s l s' :
    m !! k = Some s -> sock_op host s l s' -> kernel_ok O l ->
    sock_step host {| socks := m; sys_open := Some O; sys_leaked := g |}
                   {| socks := <[k := s']> m; sys_open := exec O l; sys_leaked := g |}
| sk_destroy m O g k s :
    m !! k = Some s -> kernel_ok O (Socket_destroy s) ->
    sock_step host {| socks := m; sys_open := Some O; sys_leaked := g |}
                   {| socks := delete k m; sys_open := exec O (Socket_destroy s); sys_leaked := g |}
| sk_accept m O g k j s newsock ctx name peer sock l :
    m !! k = Some s -> m !! j = None -> kernel_ok O l ->
    Socket_accept host s newsock ctx name peer = (Some sock, l) ->
    sock_step host {| socks := m; sys_open := Some O; sys_leaked := g |}
                   {| socks := <[j := sock]> m; sys_open := exec O l; sys_leaked := g |}
| sk_accept_fail m O g k s newsock ctx name peer l :
    m !! k = Some s -> kernel_ok O l ->
    Socket_accept host s newsock ctx name peer = (None, l) ->
    sock_step host {| socks := m; sys_open := Some O; sys_leaked := g |}
                   {| socks := m; sys_open := exec O l;
                      sys_leaked := if newsock =? -1 then g else {[newsock]} ∪ g |}.

Record sys_inv (m : gmap nat Socket) (O g : gset Z) : Prop := {
  si_minus : -1 ∉ O;
  si_open : forall fd, fd ∈ O <-> (exists k s, m !! k = Some s /\ fd ∈ own s) \/ fd ∈ g;
  si_distinct : forall k1 k2 s1 s2, m !! k1 = Some s1 -> m !! k2 = Some s2 -> k1 <> k2 -> own s1 ## own s2;
  si_leaked : forall k s, m !! k = Some s -> own s ## g
}.

Lemma own_minus s : -1 ∉ own s.
Proof. unfold own. destruct (m_sockfd s =? -1) eqn:E; [set_solver|]. apply Z.eqb_neq in E. set_solver. Qed.

Lemma sys_inv_own m O g k s : sys_inv m O g -> m !! k = Some s -> own s ∪ (O ∖ own s) = O.
Proof.
  intros H Hk. apply set_eq. intros fd. rewrite elem_of_union, elem_of_difference, (si_open _ _ _ H fd).
  destruct (decide (fd ∈ own s)); [|tauto]. split; [left; eauto|auto].
Qed.

(** A socket whose operation conforms, among the others. *)
Lemma sys_inv_update m O g k s s' l :
  sys_inv m O g -> m !! k = Some s -> conforms s l s' -> kernel_ok O l ->
  exists O', exec O l = Some O' /\ sys_inv (<[k := s']> m) O' g /\ (own s' = ∅ -> sys_inv (delete k m) O' g).
Proof.
  intros H Hk Hc Hok. pose proof (sys_inv_own m O g k s H Hk) as Eo.
  destruct (Hc (O ∖ own s)) as [E Hd]; [set_solver|pose proof (si_minus _ _ _ H); set_solver|by rewrite Eo|].
  rewrite Eo in E. exists (own s' ∪ O ∖ own s). split; [done|].
  assert (Hrest : forall fd, fd ∈ O ∖ own s <-> (exists k' s2, k' <> k /\ m !! k' = Some s2 /\ fd ∈ own s2) \/ fd ∈ g).
  { intros fd. rewrite elem_of_difference, (si_open _ _ _ H fd). split.
    - intros [[(k' & s2 & Hk' & Hfd)|Hg] Hn]; [left; exists k', s2; split_and!; [congruence|done|done]|by right].
    - intros [(k' & s2 & Hne & Hk' & Hfd)|Hg]; (split; [eauto|]).
      + pose proof (si_distinct _ _ _ H k' k s2 s Hk' Hk Hne). set_solver.
      + pose proof (si_leaked _ _ _ H k s Hk). set_solver. }
  assert (Hm : -1 ∉ own s' ∪ O ∖ own s) by (pose proof (own_minus s'); pose proof (si_minus _ _ _ H); set_solver).
  split; [split; [done| | |]|intros He; split; [done| | |]].
  - intros fd. rewrite elem_of_union, Hrest. split.
    + intros [Hs|[(k' & s2 & Hne & Hk' & Hfd)|Hg]]; [left; exists k, s'; by rewrite lookup_insert_eq| |by right].
      left. exists k', s2. by rewrite lookup_insert_ne.
    + intros [(k' & s2 & Hk' & Hfd)|Hg]; [|auto]. destruct (decide (k' = k)) as [->|Hne].
      * rewrite lookup_insert_eq in Hk'. injection Hk' as <-. auto.
      * rewrite lookup_insert_ne in Hk' by done. right. left. eauto.
  - intros k1 k2 s1 s2 H1 H2 Hne. apply lookup_insert_Some in H1 as [[<- <-]|[Hn1 H1]], H2 as [[<- <-]|[Hn2 H2]]; try done.
    + intros fd Hf1 Hf2. apply (Hd fd Hf1). apply Hrest. left. exists k2, s2. auto.
    + intros fd Hf1 Hf2. apply (Hd fd Hf2). apply Hrest. left. exists k1, s1. auto.
    + by apply (si_distinct _ _ _ H k1 k2).
  - intros k1 s1 H1. apply lookup_insert_Some in H1 as [[<- <-]|[Hn1 H1]]; [|by apply (si_leaked _ _ _ H k1)].
    intros fd Hf1 Hf2. apply (Hd fd Hf1). apply Hrest. by right.
  - intros fd. rewrite elem_of_union, Hrest, He. split.
    + intros [Hs|[(k' & s2 & Hne & Hk' & Hfd)|Hg]]; [set_solver| |by right].
      left. exists k', s2. by rewrite lookup_delete_ne.
    + intros [(k' & s2 & Hk' & Hfd)|Hg]; [|auto]. apply lookup_delete_Some in Hk' as [Hne Hk']. right. left. eauto.
  - intros k1 k2 s1 s2 H1 H2 Hne. apply lookup_delete_Some in H1 as [_ H1], H2 as [_ H2]. by apply (si_distinct _ _ _ H k1 k2).
  - intros k1 s1 H1. apply lookup_delete_Some in H1 as [_ H1]. by apply (si_leaked _ _ _ H k1).
Qed.

(** A new socket that owns nothing yet. *)
Lemma sys_inv_new m O g k s : sys_inv m O g -> m !! k = None -> own s = ∅ -> sys_inv (<[k := s]> m) O g.
Proof.
  intros [H1 H2 H3 H4] Hk Hs. split; [done| | |].
  - intros fd. rewrite H2. split; (intros [(k' & s2 & Hk' & Hfd)|Hg]; [|auto]); left; exists k', s2.
    + rewrite lookup_insert_ne by congruence. done.
    + apply lookup_insert_Some in Hk' as [[<- <-]|[_ ?]]; [set_solver|done].
  - intros k1 k2 s1 s2 E1 E2 Hne. apply lookup_insert_Some in E1 as [[<- <-]|[_ E1]], E2 as [[<- <-]|[_ E2]];
      [done|rewrite Hs; set_solver|rewrite Hs; set_solver|by apply (H3 k1 k2)].
  - intros k1 s1 E1. apply lookup_insert_Some in E1 as [[<- <-]|[_ E1]]; [rewrite Hs; set_solver|by apply (H4 k1)].
Qed.

Lemma conforms_accepted s fd n : m_sockfd s = -1 -> conforms s [SysAccept n fd] (put_fd s fd).
Proof.
  intros Hs F Hd Hm [Hf _]. unfold own in *. cbn in *. rewrite Hs in *. cbn in *.
  destruct (fd =? -1); (split; [f_equal; set_solver|set_solver]).
Qed.

Lemma initSock_harmless s : forallb harmless (Socket_initSock s) = true.
Proof. unfold Socket_initSock. by destruct (m_type s =? SOCK_STREAM). Qed.

Section accept.
Context (host : Z).

Lemma conforms_accept s newsock ctx name peer sock l :
  Socket_accept host s newsock ctx name peer = (Some sock, l) ->
  conforms (Socket_new (m_family s) (m_type s) (m_protocol s)) l sock.
Proof.
  unfold Socket_accept. destruct (newsock =? -1); [done|]. set (s0 := Socket_new _ _ _). unfold Socket_init.
  destruct ctx as [c|]; [|done]. destruct (m_isSocket c && negb (m_isClosed c)); [|done]. intros [= <- <-].
  change (SysAccept ?a ?b :: ?l) with ([SysAccept a b] ++ l).
  eapply conforms_trans; [by apply conforms_accepted|]. apply conforms_harmless; [apply initSock_harmless|].
  by rewrite getRemoteAddress_fd, getLocalAddress_fd.
Qed.

(** An [accept] that fails after the kernel accepted opens a descriptor nobody owns. *)
Lemma accept_fail_calls s newsock ctx name peer l :
  Socket_accept host s newsock ctx name peer = (None, l) -> l = [SysAccept (m_sockfd s) newsock].
Proof.
  unfold Socket_accept. destruct (newsock =? -1); [by intros [= <-]|]. unfold Socket_init.
  destruct ctx as [c|]; [|by intros [= <-]]. destruct (m_isSocket c && negb (m_isClosed c)); [done|by intros [= <-]].
Qed.

Lemma sock_op_conforms s l s' : sock_op host s l s' -> conforms s l s'.
Proof.
  intros [ | | | |]; [apply conforms_close|apply conforms_connect|apply conforms_reconnect|by eapply conforms_bind|].
  unfold Socket_listen. destruct (negb (Socket_isValid s)); [by apply conforms_harmless|].
  destruct (negb (ret =? 0)); by apply conforms_harmless.
Qed.

Lemma sock_step_inv q q' :
  sock_step host q q' -> (exists O, sys_open q = Some O /\ sys_inv (socks q) O (sys_leaked q)) ->
  exists O, sys_open q' = Some O /\ sys_inv (socks q') O (sys_leaked q').
Proof.
  intros Hs (O0 & EO & H). destruct Hs as [m O g k f t p Hk|m O g k addr fd s l Hk Hop Hok|m O g k s l s' Hk Hop Hok
    |m O g k s Hk Hok|m O g k j s newsock ctx name peer sock l Hk Hj Hok Hop|m O g k s newsock ctx name peer l Hk Hok Hop];
    cbn [socks sys_open sys_leaked] in *; injection EO as <-.
  - exists O. split; [done|]. by apply sys_inv_new.
  - unfold Socket_CreateUDP in Hop. set (s0 := Socket_new _ _ _) in Hop.
    pose proof (conforms_newSock s0 fd eq_refl) as Hc. destruct (Socket_newSock s0 fd) as [s1 l1]. injection Hop as <- <-.
    destruct (sys_inv_update (<[k := s0]> m) O g k s0 (put_conn s1 true) l1) as (O' & E & Hinv & _);
      [by apply sys_inv_new|by rewrite lookup_insert_eq|exact Hc|exact Hok|].
    rewrite insert_insert_eq in Hinv. eauto.
  - destruct (sys_inv_update m O g k s s' l H Hk (sock_op_conforms _ _ _ Hop) Hok) as (O' & E & Hinv & _). eauto.
  - destruct (sys_inv_update m O g k s _ _ H Hk (conforms_close s) Hok) as (O' & E & _ & Hinv).
    exists O'. split; [exact E|]. apply Hinv, own_close.
  - set (s0 := Socket_new (m_family s) (m_type s) (m_protocol s)).
    destruct (sys_inv_update (<[j := s0]> m) O g j s0 sock l) as (O' & E & Hinv & _);
      [by apply sys_inv_new|by rewrite lookup_insert_eq|by eapply conforms_accept|done|].
    rewrite insert_insert_eq in Hinv. eauto.
  - apply accept_fail_calls in Hop as ->. cbn in *. destruct Hok as [Hf _]. destruct (newsock =? -1) eqn:E; [by exists O|].
    apply Z.eqb_neq in E. exists ({[newsock]} ∪ O). split; [done|]. destruct H as [H1 H2 H3 H4]. split; [set_solver| |done|].
    + intros fd. rewrite elem_of_union, H2. set_solver.
    + intros k1 s1 Hk1. pose proof (H4 k1 s1 Hk1).
      assert (newsock ∉ own s1) by (intros Hin; apply Hf, H2; left; eauto). set_solver.
Qed.
End accept.

Definition no_sockets : sock_system := {| socks := ∅; sys_open := Some ∅; sys_leaked := ∅ |}.

(** C23: descriptors belong to one socket each.  In every program that creates, binds,
    connects, reconnects, accepts, closes and destroys sockets in any order, whatever the
    system calls answer (as long as the kernel hands out descriptors that are not open):
    no descriptor is ever closed that is not open, two sockets never own the same one,
    and the open descriptors are exactly those owned by live sockets and those of
    accepted connections whose [init] failed, which nobody closes. *)
Theorem sockets_own_descriptors host q :
  rtc (sock_step host) no_sockets q ->
  exists O, sys_open q = Some O /\
    (forall fd, fd ∈ O <-> (exists k s, socks q !! k = Some s /\ fd ∈ own s) \/ fd ∈ sys_leaked q) /\
    (forall k1 k2 s1 s2, socks q !! k1 = Some s1 -> socks q !! k2 = Some s2 -> k1 <> k2 -> own s1 ## own s2).
Proof.
  intros Hr.
  assert (exists O, sys_open q = Some O /\ sys_inv (socks q) O (sys_leaked q)) as (O & E & H).
  { eapply (rtc_ind_r (fun q => exists O, sys_open q = Some O /\ sys_inv (socks q) O (sys_leaked q)) no_sockets); [| |exact Hr].
    - exists ∅. split; [done|]. split; cbn; [set_solver| |by intros k1 k2 s1 s2 E1; rewrite lookup_empty in E1|by intros k1 s1 E1; rewrite lookup_empty in E1].
      intros fd. split; [set_solver|]. intros [(k & s & Hk & _)|Hg]; [by rewrite lookup_empty in Hk|set_solver].
    - intros q1 q2 _ Hs. by apply (sock_step_inv host). }
  exists O. split; [done|]. split; [apply H|apply H].
Qed.

(** A socket that is created and connected. *)
Definition sample_answers : connect_answers :=
  {| an_socket := 3; an_connect := fun _ => 0; an_peer := None; an_name := None |}.

Lemma sockets_own_descriptors_witness :
  exists q O, rtc (sock_step 0) no_sockets q /\ sys_open q = Some O /\ 3 ∈ O.
Proof.
  set (s0 := Socket_new AF_INET SOCK_STREAM 0).
  set (a := IPv4Address (IPv4Address_new 0 0 80)).
  set (c := Socket_connect 0 s0 a U64_MAX sample_answers).
  set (q := {| socks := <[0%nat := snd (fst c)]> (<[0%nat := s0]> ∅); sys_open := exec ∅ (snd c); sys_leaked := ∅ |}).
  assert (Hr : rtc (sock_step 0) no_sockets q).
  { eapply rtc_l; [apply (sk_new 0 ∅ ∅ ∅ 0 AF_INET SOCK_STREAM 0); reflexivity|]. apply rtc_once.
    apply (sk_op 0 _ ∅ ∅ 0 s0); [by rewrite lookup_insert_eq|apply op_connect|]. vm_compute. split; [|exact I]. set_solver. }
  destruct (sockets_own_descriptors 0 q Hr) as (O & E & Ho & _). exists q, O. split; [exact Hr|]. split; [exact E|].
  apply Ho. left. exists 0%nat, (snd (fst c)). split; [apply lookup_insert_eq|]. vm_compute. reflexivity.
Defined.

(** An accepted connection for which the manager of descriptors has no entry is lost:
    its descriptor stays open with no owner. *)
Lemma accept_leaks host s newsock name peer :
  newsock <> -1 -> exists l, Socket_accept host s newsock None name peer = (None, l) /\
    forall O, exec O l = Some ({[newsock]} ∪ O).
Proof.
  intros Hn. unfold Socket_accept. rewrite (proj2 (Z.eqb_neq newsock (-1))) by done. eexists. split; [done|].
  intros O. cbn. by rewrite (proj2 (Z.eqb_neq newsock (-1))) by done.
Qed.

(** [close] keeps the addresses of the connection ... *)
Lemma close_keeps_addresses s :
  m_localAddress (snd (fst (Socket_close s))) = m_localAddress s /\
  m_remoteAddress (snd (fst (Socket_close s))) = m_remoteAddress s.
Proof. unfold Socket_close. cbn [put_conn m_sockfd]. by destruct (m_isConnected s), (m_sockfd s =? -1). Qed.

(** ... so that a socket that is closed and connected again still reports the local
    address of the old connection: only [reconnect] resets it. *)
Lemma connect_keeps_local_address host s addr t an a :
  m_localAddress s = Some a ->
  m_localAddress (snd (fst (Socket_connect host (snd (fst (Socket_close s))) addr t an))) = Some a.
Proof.
  intros Ha. unfold Socket_connect. set (s0 := snd (fst (Socket_close s))).
  assert (H0 : m_localAddress s0 = Some a) by (unfold s0; by rewrite (proj1 (close_keeps_addresses s))).
  assert (He : m_localAddress (fst (ensure_valid (put_remote s0 (Some addr)) (an_socket an))) = Some a).
  { unfold ensure_valid. by destruct (negb (Socket_isValid _)). }
  destruct (ensure_valid (put_remote s0 (Some addr)) (an_socket an)) as [s1 l]. cbn [fst] in He.
  destruct (negb (Socket_isValid s1)); [done|]. destruct (negb (_ =? _)); [done|]. destruct (_ <? 0).
  - pose proof (proj1 (close_keeps_addresses s1)) as Hc. destruct (Socket_close s1) as [[b s2] k].
    cbn in *. by rewrite Hc.
  - cbn [fst snd]. unfold Socket_getLocalAddress.
    assert (m_localAddress (snd (Socket_getRemoteAddress host (put_conn s1 true) (an_peer an))) = Some a) as E.
    { unfold Socket_getRemoteAddress. by destruct (m_remoteAddress (put_conn s1 true)), (an_peer an) as [[? ?]|]. }
    rewrite E. exact E.
Qed.
