(* ===== verification/SocketEvents.v ===== *)
(** * Cancelling the waits of a socket ([socket.cc] on [iomanager.cc])

    [Socket::cancelRead], [cancelWrite], [cancelAccept] and [cancelAll] hand the
    descriptor of the socket to the thread's IOManager.  What they wake is what the
    manager had registered for that descriptor, and nothing else.  Time-outs: what
    [setRecvTimeout] and [setSendTimeout] set through the hooked [setsockopt] is what
    the getters return and the hooked calls wait. *)

From S2P Require Import Prelude Timer Scheduler IOManager.
From S2P Require Import FdManager Hook Address Socket.
From Stdlib Require Import ZArith Lia List.
From stdpp Require Import base tactics list numbers option gmap.

Open Scope Z_scope.
Open Scope list_scope.

Section cancel.
Context {K : Type} {EO : EpollOps K}.

(** [iom]: what [IOManager::GetThis()] points to, null in a thread without manager. *)
(** @src socket.cc:426-428 Socket::cancelRead *)
Definition Socket_cancelRead (iom : option (IOManager K)) (s : Socket) : outcome (bool * posted * IOManager K) :=
  deref iom (fun m => IOManager_cancelEvent m (m_sockfd s) READ).

(** @src socket.cc:430-432 Socket::cancelWrite *)
Definition Socket_cancelWrite (iom : option (IOManager K)) (s : Socket) : outcome (bool * posted * IOManager K) :=
  deref iom (fun m => IOManager_cancelEvent m (m_sockfd s) WRITE).

(** @src socket.cc:434-436 Socket::cancelAccept *)
Definition Socket_cancelAccept (iom : option (IOManager K)) (s : Socket) : outcome (bool * posted * IOManager K) :=
  deref iom (fun m => IOManager_cancelEvent m (m_sockfd s) READ).

(** @src socket.cc:438-440 Socket::cancelAll *)
Definition Socket_cancelAll (iom : option (IOManager K)) (s : Socket) : outcome (bool * posted * IOManager K) :=
  deref iom (fun m => IOManager_cancelAll m (m_sockfd s)).

Context {ES : EpollSpec K}.

(** On a socket that has a descriptor the calls return in every state the manager can
    be in: one waiter is posted exactly when the answer is [true], the waiters posted
    are taken from those registered, and the manager's invariant is kept. *)
Lemma Socket_cancel_spec tfd m a p d s : io_run tfd m a p d -> 0 <= m_sockfd s -> m_sockfd s <> tfd ->
  (forall cancel, In cancel [Socket_cancelRead; Socket_cancelWrite; Socket_cancelAccept] ->
     exists b out m', cancel (Some m) s = Ok (b, out, m') /\ io_inv tfd m' /\
       regs m ≡ₚ out ++ regs m' /\ length out = (if b then 1 else 0)%nat) /\
  exists b out m', Socket_cancelAll (Some m) s = Ok (b, out, m') /\ io_inv tfd m' /\ regs m ≡ₚ out ++ regs m'.
Proof.
  intros Hrun H0 Hfd. destruct (io_run_inv _ _ _ _ _ Hrun) as (I & _ & _). split; [|by apply cancelAll_spec].
  intros cancel Hc. cbn [In] in Hc. destruct Hc as [<-|[<-|[<-|[]]]]; apply cancelEvent_spec; auto; (by left) || by right.
Qed.

(** [cancelAll] leaves nobody waiting on the descriptor. *)
Lemma Socket_cancelAll_clears tfd m a p d s fc : io_run tfd m a p d -> m_sockfd s <> tfd ->
  context_at m (m_sockfd s) = Some fc ->
  (forall ev, nonzero (fc_events fc) = true -> fst (epoll_ctl (m_epfd m) EPOLL_CTL_DEL (m_sockfd s) ev) = true) ->
  exists b out m' fc', Socket_cancelAll (Some m) s = Ok (b, out, m') /\ out ≡ₚ fc_tasks fc /\
    context_at m' (m_sockfd s) = Some fc' /\ fc_events fc' = 0.
Proof.
  intros Hrun Hfd Hfc Hctl. destruct (io_run_inv _ _ _ _ _ Hrun) as (I & _ & _).
  destruct (cancelAll_clears tfd m _ fc I Hfd Hfc Hctl) as (b & out & m' & fc' & E & Ho & _ & Hc & He).
  exists b, out, m', fc'. by split_and!.
Qed.

(** ** Where it falls short *)

(** On a socket without a descriptor ([m_sockfd] is -1, as after [close]) the manager's
    test [size <= fd] passes, and the vector of contexts is indexed with -1. *)
Lemma cancel_closed_socket m s : m_sockfd s = -1 -> Socket_cancelAll (Some m) s = UB /\ Socket_cancelRead (Some m) s = UB.
Proof.
  intros E. unfold Socket_cancelAll, Socket_cancelRead, IOManager_cancelAll, IOManager_cancelEvent. rewrite E. cbn [deref].
  rewrite (proj2 (Z.leb_gt _ _)) by lia. unfold context_at. by rewrite (proj2 (Z.ltb_lt (-1) 0)) by lia.
Qed.

End cancel.

(** ** Time-outs *)

Lemma timeval_back v : 0 <= v < 2 ^ 31 * 1000 ->
  fst (timeout_timeval v) * 1000 + Z.quot (snd (timeout_timeval v)) 1000 = v.
Proof.
  intros Hv. unfold timeout_timeval. cbn [fst snd].
  rewrite Z.quot_div_nonneg, Z.rem_mod_nonneg by lia. pose proof (Z.mod_pos_bound v 1000).
  assert (v / 1000 < 2 ^ 31) by (apply Z.div_lt_upper_bound; lia). pose proof (Z.div_pos v 1000).
  rewrite !swrap_small by lia. rewrite Z.quot_div_nonneg by lia. rewrite Z.div_mul by lia.
  pose proof (Z.div_mod v 1000). lia.
Qed.

(** A time-out of [v] milliseconds, set on a socket the manager of descriptors knows,
    is stored for that descriptor alone and read back by the getter. *)
Lemma Socket_timeout_roundtrip {W} {FK : FdKernel W} (w : W) fds g s c v n :
  fd_rep fds g -> g !! m_sockfd s = Some c -> 0 <= m_sockfd s < Z.of_nat (length (m_fds fds)) -> 0 <= v < 2 ^ 31 * 1000 ->
  (let '(opt, (sec, usec)) := Socket_setRecvTimeout v in
   exists fds', hook_setsockopt true fds w (m_sockfd s) SOL_SOCKET opt sec usec n = Ok (n, fds') /\
     fd_rep fds' (<[m_sockfd s := FdCtx_setTimeout c SO_RCVTIMEO v]> g)) /\
  Socket_getRecvTimeout (Some (FdCtx_setTimeout c SO_RCVTIMEO v)) = v /\
  Socket_getSendTimeout (Some (FdCtx_setTimeout c SO_SNDTIMEO v)) = v.
Proof.
  intros R Hg Hfd Hv. split_and!.
  - unfold Socket_setRecvTimeout. destruct (timeout_timeval v) as [sec usec] eqn:E.
    pose proof (timeval_back v Hv) as Hb. rewrite E in Hb. cbn [fst snd] in Hb.
    unfold hook_setsockopt. cbn [negb]. change ((SOL_SOCKET =? SOL_SOCKET) && ((SO_RCVTIMEO =? SO_RCVTIMEO) || _)) with true.
    cbn iota. destruct (get_rep fds g w (m_sockfd s) false R) as (fds1 & -> & R1 & Hl); [lia|].
    unfold spec_get in *. rewrite Hg in *. cbn [fst snd obind] in *. rewrite Hb.
    replace (u64 v) with v by (symmetry; apply uwrap_small; lia).
    eexists. split; [reflexivity|]. apply rep_set; [done|]. lia.
  - unfold Socket_getRecvTimeout, FdCtx_getTimeout, FdCtx_setTimeout. cbn. apply swrap_small; lia.
  - unfold Socket_getSendTimeout, FdCtx_getTimeout, FdCtx_setTimeout. cbn. apply swrap_small; lia.
Qed.
