(* ===== verification/SocketStream.v ===== *)
(** * Streams over sockets ([streams/socket_stream.cc], [stream.cc])

    [SocketStream] reads and writes plain buffers and [ByteArray]s through a socket.
    The network is behind the interface [NetOps]; [NetSpec] is what the manual pages
    of [recv] and [send] say of a connected stream socket.  Against it, a connected
    [SocketStream] is shown to be a stream in the sense of [StreamSpec], so that the
    transfers of a fixed size, the frames and the messages built on streams apply to
    it, and the transfers between a [ByteArray] and the peer are shown exact. *)

From S2P Require Import Prelude Endian ByteArray ByteArraySpec Stream Text FdManager Address Socket.
From Stdlib Require Import ZArith Lia List.
From stdpp Require Import base tactics list numbers option.

Open Scope Z_scope.
Open Scope list_scope.

(** ** The network *)

(** [recv]/[recvmsg] of at most so many bytes from a descriptor, [send]/[sendmsg] and
    [close]. *)
Class NetOps (N : Type) := {
  net_recv : N -> Z -> Z -> Z * bytes * N;
  net_send : N -> Z -> bytes -> Z * N;
  net_close : N -> Z -> N
}.

(** A call returns the number of bytes it moved: at least one when there is something
    to move, never more than the kernel's limit, and 0 at the end of the data. *)
Class NetSpec (N : Type) `{NetOps N} := {
  net_in : N -> Z -> bytes;
  net_out : N -> Z -> bytes;
  recv_ok n fd len : 0 < len -> net_in n fd <> [] ->
    exists k n', (0 < k <= length (net_in n fd))%nat /\ Z.of_nat k <= len /\ Z.of_nat k < 2 ^ 31 /\
      net_recv n fd len = (Z.of_nat k, take k (net_in n fd), n') /\
      net_in n' fd = drop k (net_in n fd) /\ net_out n' fd = net_out n fd;
  recv_eof n fd len : 0 < len -> net_in n fd = [] ->
    exists n', net_recv n fd len = (0, [], n') /\ net_in n' fd = [] /\ net_out n' fd = net_out n fd;
  send_ok n fd b : b <> [] ->
    exists k n', (0 < k <= length b)%nat /\ Z.of_nat k < 2 ^ 31 /\ net_send n fd b = (Z.of_nat k, n') /\
      net_in n' fd = net_in n fd /\ net_out n' fd = net_out n fd ++ take k b
}.

(** ** SocketStream *)

(** @src streams/socket_stream.h:42-44 SocketStream *)
Record SocketStream := mkSocketStream { m_socket : option Socket; m_owner : bool }.

(** @src streams/socket_stream.cc:6-9 SocketStream::SocketStream *)
Definition SocketStream_new (sock : option Socket) (owner : bool) : SocketStream := mkSocketStream sock owner.

(** @src streams/socket_stream.cc:17-19 SocketStream::isConnected *)
Definition SocketStream_isConnected (st : SocketStream) : bool :=
  match m_socket st with Some s => m_isConnected s | None => false end.

(** @src streams/socket_stream.cc:65-69 SocketStream::close *)
Definition SocketStream_close (st : SocketStream) : SocketStream * list syscall :=
  match m_socket st with
  | Some s => let '(_, s, l) := Socket_close s in (mkSocketStream (Some s) (m_owner st), l)
  | None => (st, [])
  end.

(** @src streams/socket_stream.cc:11-15 SocketStream::~SocketStream
    The socket lives on when it is shared; the calls made on it. *)
Definition SocketStream_destroy (st : SocketStream) : option Socket * list syscall :=
  match m_socket st with
  | Some s => if m_owner st then let '(_, s, l) := Socket_close s in (Some s, l) else (Some s, [])
  | None => (None, [])
  end.

Section addresses.
Context (host : Z).

(** @src streams/socket_stream.cc:71-76 SocketStream::getRemoteAddress *)
Definition SocketStream_getRemoteAddress (st : SocketStream) (peer : name_answer) : option Address * SocketStream :=
  match m_socket st with
  | Some s => let '(a, s) := Socket_getRemoteAddress host s peer in (Some a, mkSocketStream (Some s) (m_owner st))
  | None => (None, st)
  end.

(** @src streams/socket_stream.cc:78-83 SocketStream::getLocalAddress *)
Definition SocketStream_getLocalAddress (st : SocketStream) (name : name_answer) : option Address * SocketStream :=
  match m_socket st with
  | Some s => let '(a, s) := Socket_getLocalAddress host s name in (Some a, mkSocketStream (Some s) (m_owner st))
  | None => (None, st)
  end.

(** @src streams/socket_stream.cc:85-91 SocketStream::getRemoteAddressString *)
Definition SocketStream_getRemoteAddressString (st : SocketStream) (peer : name_answer) : outcome bytes * SocketStream :=
  let '(addr, st) := SocketStream_getRemoteAddress st peer in
  (match addr with Some a => Address_toString host a | None => Ok [] end, st).

(** @src streams/socket_stream.cc:93-99 SocketStream::getLocalAddressString *)
Definition SocketStream_getLocalAddressString (st : SocketStream) (name : name_answer) : outcome bytes * SocketStream :=
  let '(addr, st) := SocketStream_getLocalAddress st name in
  (match addr with Some a => Address_toString host a | None => Ok [] end, st).

End addresses.

(** [&iovs[0]]: undefined for an empty vector. *)
Definition first_of {B} (iovs : list iovec) (k : outcome B) : outcome B :=
  match iovs with [] => UB | _ => k end.

(** The bytes the buffers hold together. *)
Definition iov_total (iovs : list iovec) : Z := foldr (fun v a => iov_len v + a) 0 iovs.

Section transfers.
Context {N : Type} {NO : NetOps N}.
(** The bytes of a block before anything is written to it. *)
Context (junk : nat -> nat -> Z).

(** @src streams/socket_stream.cc:21-26 SocketStream::read *)
Definition SocketStream_read (st : SocketStream) (net : N) (length : Z) : Z * bytes * N :=
  match m_socket st with
  | Some s =>
      if m_isConnected s then let '(ret, d, net) := net_recv net (m_sockfd s) length in (Socket_recv s ret, d, net)
      else (-1, [], net)
  | None => (-1, [], net)
  end.

(** @src streams/socket_stream.cc:28-43 SocketStream::read
    The data go straight into the blocks of the array. *)
Definition SocketStream_read_ba (st : SocketStream) (net : N) (ba : ByteArray) (length : Z)
    : outcome (Z * ByteArray * N) :=
  match m_socket st with
  | Some s =>
      if m_isConnected s then
        let! (_, iovs, ba) := ByteArray_getWriteBuffers junk ba length in
        first_of iovs (
        let '(ret, d, net) := net_recv net (m_sockfd s) (iov_total iovs) in
        let! ns := scatter (m_nodes ba) iovs d in
        let ba := with_nodes ba ns in
        let rt := Socket_recv_iov s ret in
        if 0 <? rt then
          let! ba := ByteArray_setPosition ba (u64 (m_position ba + rt)) in Ok (rt, ba, net)
        else Ok (rt, ba, net))
      else Ok (-1, ba, net)
  | None => Ok (-1, ba, net)
  end.

(** @src streams/socket_stream.cc:45-50 SocketStream::write *)
Definition SocketStream_write (st : SocketStream) (net : N) (buffer : bytes) : Z * N :=
  match m_socket st with
  | Some s =>
      if m_isConnected s then let '(ret, net) := net_send net (m_sockfd s) buffer in (Socket_send s ret, net)
      else (-1, net)
  | None => (-1, net)
  end.

(** @src streams/socket_stream.cc:52-63 SocketStream::write *)
Definition SocketStream_write_ba (st : SocketStream) (net : N) (ba : ByteArray) (length : Z)
    : outcome (Z * ByteArray * N) :=
  match m_socket st with
  | Some s =>
      if m_isConnected s then
        let! (_, iovs) := ByteArray_getReadBuffers ba length in
        first_of iovs (
        let! d := gather (m_nodes ba) iovs in
        let '(ret, net) := net_send net (m_sockfd s) d in
        let rt := Socket_send_iov s ret in
        if 0 <? rt then
          let! ba := ByteArray_setPosition ba (u64 (m_position ba + rt)) in Ok (rt, ba, net)
        else Ok (rt, ba, net))
      else Ok (-1, ba, net)
  | None => Ok (-1, ba, net)
  end.

(** ** Transfers of a fixed size between a stream and an array *)

(** The loop of the two functions below, over the virtual function they call. *)
Fixpoint fix_ba_loop (op : N -> ByteArray -> Z -> outcome (Z * ByteArray * N)) (fuel : nat) (net : N) (ba : ByteArray)
    (length left : Z) : outcome (Z * ByteArray * N) :=
  if left <=? 0 then Ok (i32 length, ba, net) else
  match fuel with
  | O => NoFuel
  | S fuel =>
    let! (len, ba, net) := op net ba left in
    if len <=? 0 then Ok (i32 len, ba, net) else fix_ba_loop op fuel net ba length (left - len)
  end.

(** @src stream.cc:19-29 Stream::readFixSize *)
Definition Stream_readFixSize_ba (st : SocketStream) (net : N) (ba : ByteArray) (length : Z)
    : outcome (Z * ByteArray * N) :=
  fix_ba_loop (SocketStream_read_ba st) (Z.to_nat (i64 length)) net ba length (i64 length).

(** @src stream.cc:46-56 Stream::writeFixSize *)
Definition Stream_writeFixSize_ba (st : SocketStream) (net : N) (ba : ByteArray) (length : Z)
    : outcome (Z * ByteArray * N) :=
  fix_ba_loop (SocketStream_write_ba st) (Z.to_nat (i64 length)) net ba length (i64 length).

End transfers.

(** ** The buffers *)

Lemma iov_loop_total ns fuel : forall cur npos ncap len iovs,
  0 <= len -> iov_loop fuel ns cur npos ncap len = Ok iovs -> iov_total iovs = len.
Proof.
  induction fuel as [|fuel IH]; intros cur npos ncap len iovs Hl; cbn [iov_loop]; destruct (Z.leb_spec len 0);
    [intros [= <-]; cbn; lia|done|intros [= <-]; cbn; lia|].
  destruct cur as [c|]; cbn [deref]; [|done]. destruct (Z.leb_spec len ncap); [intros [= <-]; cbn; lia|].
  destruct (next_of ns c) as [c'|]; cbn [deref]; [|done]. destruct (ns !! c') as [nd|]; cbn [deref]; [|done].
  destruct (iov_loop fuel ns (Some c') 0 (zlen nd) (len - ncap)) as [r| | | |] eqn:E; cbn [obind]; try done.
  apply IH in E; [|lia]. intros [= <-]. cbn [iov_total foldr iov_len]. fold (iov_total r). lia.
Qed.

Lemma getWriteBuffers_total junk ba len n iovs ba1 :
  wf ba -> 0 < len -> room ba len -> ByteArray_getWriteBuffers junk ba len = Ok (n, iovs, ba1) ->
  iov_total iovs = len /\ m_position ba1 = m_position ba.
Proof.
  intros W Hl Hr. unfold ByteArray_getWriteBuffers. destruct (Z.eqb_spec len 0) as [->|_]; [lia|].
  destruct (addCapacity_spec junk ba len W Hl Hr) as (ba2 & -> & G & _). destruct G as (_ & _ & Ep & _). cbn [obind].
  destruct (umod _ _) as [np| | | |]; cbn [obind]; try done.
  destruct (m_cur ba2) as [c|]; cbn [deref]; [|done]. destruct (m_nodes ba2 !! c) as [nd|]; cbn [deref]; [|done].
  destruct (iov_loop _ _ _ _ _ _) as [r| | | |] eqn:E; cbn [obind]; try done.
  intros [= <- <- <-]. split; [|done]. apply iov_loop_total in E; lia.
Qed.

Lemma first_of_total {B} iovs (k : outcome B) : 0 < iov_total iovs -> first_of iovs k = k.
Proof. destruct iovs; cbn; [lia|done]. Qed.

Lemma gather_first {B} ns iovs d (k : outcome B) : gather ns iovs = Ok d -> d <> [] -> first_of iovs k = k.
Proof. destruct iovs; cbn [gather first_of]; [by intros [= <-]|done]. Qed.

(** ** A connected socket is a stream *)

Section connected.
Context {N : Type} {NO : NetOps N} {NS : NetSpec N} (junk : nat -> nat -> Z).
Context (sock : Socket) (owner : bool) (Hconn : m_isConnected sock = true).
Notation st := (mkSocketStream (Some sock) owner).
Notation fd := (m_sockfd sock).

(** The functions [Stream] declares; closing is what it does to the network. *)
#[local] Instance SocketStream_ops : StreamOps N := {|
  stream_read net n := SocketStream_read st net n;
  stream_write net b := SocketStream_write st net b;
  stream_close net := foldl (fun net c => match c with SysClose f => net_close net f | _ => net end) net
                        (SocketStream_close st).2
|}.

Lemma SocketStream_read_ok net n : 0 < n -> net_in net fd <> [] ->
  exists k net', (0 < k <= length (net_in net fd))%nat /\ Z.of_nat k <= n /\
    SocketStream_read st net n = (Z.of_nat k, take k (net_in net fd), net') /\
    net_in net' fd = drop k (net_in net fd) /\ net_out net' fd = net_out net fd.
Proof.
  intros Hn Hne. destruct (recv_ok net fd n Hn Hne) as (k & net' & Hk & Hkn & Hk31 & E & Hi & Ho).
  exists k, net'. cbn. rewrite Hconn, E. unfold Socket_recv. rewrite Hconn, swrap_small by lia. done.
Qed.

#[local] Instance SocketStream_spec : StreamSpec N.
Proof.
  refine {| incoming net := net_in net fd; outgoing net := net_out net fd |}.
  - exact SocketStream_read_ok.
  - intros net n Hn E. destruct (recv_eof net fd n Hn E) as (net' & R & Hi & Ho). exists net'.
    cbn. rewrite Hconn, R. unfold Socket_recv. by rewrite Hconn.
  - intros net b Hb. destruct (send_ok net fd b Hb) as (k & net' & Hk & Hk31 & E & Hi & Ho).
    exists k, net'. cbn. rewrite Hconn, E. unfold Socket_send. rewrite Hconn, swrap_small by lia. done.
Defined.

(** ** Arrays *)

(** A receive into an array: some of the incoming bytes, as if written at the
    position. *)
Lemma SocketStream_read_ba_ok net ba n :
  wf ba -> 0 < n -> room ba n -> net_in net fd <> [] ->
  exists k net' ba', (0 < k <= length (net_in net fd))%nat /\ Z.of_nat k <= n /\
    SocketStream_read_ba junk st net ba n = Ok (Z.of_nat k, ba', net') /\
    wrote ba ba' (take k (net_in net fd)) /\
    net_in net' fd = drop k (net_in net fd) /\ net_out net' fd = net_out net fd.
Proof.
  intros W Hn Hr Hne. destruct (recv_ok net fd n Hn Hne) as (k & net' & Hk & Hkn & Hk31 & E & Hi & Ho).
  destruct (ByteArray_getWriteBuffers_scatter junk ba n (take k (net_in net fd)) W Hn Hr)
    as (iovs & ba1 & ns & ba' & Eb & Es & Ep & Hw); [unfold zlen; rewrite length_take; lia|].
  exists k, net', ba'. split; [done|]. split; [done|]. split; [|done].
  destruct (getWriteBuffers_total _ _ _ _ _ _ W Hn Hr Eb) as [Ht Hp].
  assert (Hz : zlen (take k (net_in net fd)) = Z.of_nat k) by (unfold zlen; rewrite length_take; lia).
  cbn [SocketStream_read_ba m_socket]. rewrite Hconn, Eb. cbn [obind]. rewrite first_of_total by lia.
  rewrite Ht, E, Es. cbn [obind]. unfold Socket_recv_iov. rewrite Hconn, swrap_small by lia.
  rewrite (proj2 (Z.ltb_lt 0 (Z.of_nat k))) by lia. cbn [with_nodes m_position].
  pose proof (wf_position _ W). unfold room, SIZE_LIMIT in Hr. pose proof (wf_base _ W).
  rewrite Hp, <- Hz, uwrap_small, Ep by (rewrite Hz; lia). done.
Qed.

(** A send out of an array: some of the unread bytes, past which the position moves. *)
Lemma SocketStream_write_ba_ok net ba n :
  wf ba -> 0 < n <= m_size ba - m_position ba ->
  exists k net' ba', 0 < Z.of_nat k <= n /\
    SocketStream_write_ba st net ba n = Ok (Z.of_nat k, ba', net') /\
    wf ba' /\ contents ba' = contents ba /\ m_size ba' = m_size ba /\ m_position ba' = m_position ba + Z.of_nat k /\
    net_in net' fd = net_in net fd /\ net_out net' fd = net_out net fd ++ slice (pos ba) k (contents ba).
Proof.
  intros W Hn. pose proof (wf_size _ W). pose proof (wf_position _ W). pose proof (wf_limit _ W) as Hlim.
  unfold SIZE_LIMIT in Hlim. pose proof (length_contents ba W) as Hlc. unfold zlen in Hlc.
  destruct (ByteArray_getReadBuffers_gather ba n W) as (iovs & Eb & Eg); [lia|]. rewrite Z.min_l in Eb, Eg by lia.
  set (d := slice _ _ _) in Eg.
  assert (Hd : length d = Z.to_nat n) by (unfold d, slice; rewrite length_take, length_drop; unfold pos; lia).
  assert (Hne : d <> []) by (intros E; rewrite E in Hd; cbn in Hd; lia).
  destruct (send_ok net fd d Hne) as (k & net' & Hk & Hk31 & E & Hi & Ho).
  destruct (setPosition_spec ba (m_position ba + Z.of_nat k) W) as (ba' & Ep & W' & P & Sz & F & _); [lia|].
  rewrite Z.max_l in Sz by lia. exists k, net', ba'. split; [lia|]. split.
  - cbn [SocketStream_write_ba m_socket]. rewrite Hconn, Eb. cbn [obind]. rewrite (gather_first _ _ _ _ Eg Hne), Eg. cbn [obind].
    rewrite E. unfold Socket_send_iov. rewrite Hconn, swrap_small by lia.
    rewrite (proj2 (Z.ltb_lt 0 (Z.of_nat k))), uwrap_small, Ep by lia. done.
  - split_and!; try done; [unfold contents; by rewrite Sz, F|]. rewrite Ho. f_equal. unfold d, slice.
    rewrite take_take. f_equal. lia.
Qed.

Lemma readFix_ba_loop_ok len fuel : forall net ba left,
  wf ba -> 0 <= left -> (Z.to_nat left <= fuel)%nat -> room ba left -> left <= zlen (net_in net fd) ->
  exists net' ba', fix_ba_loop (SocketStream_read_ba junk st) fuel net ba len left = Ok (i32 len, ba', net') /\
    wrote ba ba' (take (Z.to_nat left) (net_in net fd)) /\
    net_in net' fd = drop (Z.to_nat left) (net_in net fd) /\ net_out net' fd = net_out net fd.
Proof.
  induction fuel as [|fuel IH]; intros net ba left W Hl Hf Hr Hin; cbn [fix_ba_loop]; destruct (Z.leb_spec left 0).
  1, 3: exists net, ba; replace (Z.to_nat left) with 0%nat by lia; rewrite take_0, drop_0; eauto using wrote_refl.
  { lia. }
  destruct (SocketStream_read_ba_ok net ba left) as (k & net1 & ba1 & Hk & Hkl & -> & Hw & Hi & Ho);
    [done..|intros E; rewrite E in Hin; change (zlen []) with 0 in Hin; lia|].
  cbn [obind]. destruct (Z.leb_spec (Z.of_nat k) 0); [lia|].
  assert (Hp : m_position ba1 = m_position ba + Z.of_nat k)
    by (rewrite (wrote_position _ _ _ Hw); unfold zlen; rewrite length_take; lia).
  destruct (IH net1 ba1 (left - Z.of_nat k)) as (net2 & ba2 & -> & Hw2 & Hi2 & Ho2);
    [apply (wrote_wf _ _ _ Hw)|lia|lia| |unfold zlen in *; rewrite Hi, length_drop; lia|].
  { unfold room in *. rewrite (wrote_base _ _ _ Hw). lia. }
  exists net2, ba2. rewrite Hi2, Ho2, Ho, Hi, drop_drop. rewrite Hi in Hw2.
  replace (k + Z.to_nat (left - Z.of_nat k))%nat with (Z.to_nat left) by lia. split_and!; try done.
  pose proof (wrote_trans _ _ _ _ _ W Hw Hw2) as Ht. rewrite take_take_drop in Ht.
  by replace (k + Z.to_nat (left - Z.of_nat k))%nat with (Z.to_nat left) in Ht by lia.
Qed.

Lemma writeFix_ba_loop_ok len fuel : forall net ba left,
  wf ba -> 0 <= left <= m_size ba - m_position ba -> (Z.to_nat left <= fuel)%nat ->
  exists net' ba', fix_ba_loop (SocketStream_write_ba st) fuel net ba len left = Ok (i32 len, ba', net') /\
    wf ba' /\ contents ba' = contents ba /\ m_position ba' = m_position ba + left /\
    net_in net' fd = net_in net fd /\ net_out net' fd = net_out net fd ++ slice (pos ba) (Z.to_nat left) (contents ba).
Proof.
  induction fuel as [|fuel IH]; intros net ba left W Hl Hf; cbn [fix_ba_loop]; destruct (Z.leb_spec left 0).
  1, 3: exists net, ba; replace left with 0 by lia; rewrite app_nil_r, Z.add_0_r; done.
  { lia. }
  destruct (SocketStream_write_ba_ok net ba left W) as (k & net1 & ba1 & Hk & -> & W1 & Hc & Hs & Hp & Hi & Ho); [lia|].
  cbn [obind]. destruct (Z.leb_spec (Z.of_nat k) 0); [lia|].
  destruct (IH net1 ba1 (left - Z.of_nat k) W1) as (net2 & ba2 & -> & W2 & Hc2 & Hp2 & Hi2 & Ho2); [lia..|].
  exists net2, ba2. pose proof (wf_position _ W). rewrite Hi2, Hi, Ho2, Ho, Hc2, Hp2, Hp, Hc, <- app_assoc.
  split_and!; try done; [lia|]. f_equal. replace (Z.to_nat left) with (k + Z.to_nat (left - Z.of_nat k))%nat by lia.
  rewrite slice_split. do 2 f_equal. unfold pos. lia.
Qed.


(** [StreamSpec] holds of a connected socket, so what is proved of streams does:
    transfers of a fixed size are exact. *)
Lemma SocketStream_fix_exact net n b :
  0 <= n < 2 ^ 31 -> n <= zlen (net_in net fd) -> zlen b < 2 ^ 31 ->
  (exists net', Stream_readFixSize net n = Ok (n, take (Z.to_nat n) (net_in net fd), net') /\
     net_in net' fd = drop (Z.to_nat n) (net_in net fd)) /\
  (exists net', Stream_writeFixSize net b = Ok (zlen b, net') /\ net_out net' fd = net_out net fd ++ b).
Proof.
  intros Hn Hin Hb. split.
  - destruct (readFixSize_ok (SS := SocketStream_spec) net n Hn Hin) as (net' & E & Hi & _). eauto.
  - destruct (writeFixSize_ok (SS := SocketStream_spec) net b Hb) as (net' & E & Ho & _). eauto.
Qed.

Lemma readFixSize_ba_ok net ba n :
  wf ba -> 0 <= n < 2 ^ 31 -> room ba n -> n <= zlen (net_in net fd) ->
  exists net' ba', Stream_readFixSize_ba junk st net ba n = Ok (n, ba', net') /\
    wrote ba ba' (take (Z.to_nat n) (net_in net fd)) /\ net_in net' fd = drop (Z.to_nat n) (net_in net fd).
Proof.
  intros W Hn Hr Hin. unfold Stream_readFixSize_ba. rewrite (swrap_small 64 n) by lia.
  destruct (readFix_ba_loop_ok n (Z.to_nat n) net ba n) as (net' & ba' & -> & Hw & Hi & _); [done || lia..|].
  exists net', ba'. by rewrite swrap_small by lia.
Qed.

Lemma writeFixSize_ba_ok net ba n :
  wf ba -> 0 <= n < 2 ^ 31 -> n <= m_size ba - m_position ba ->
  exists net' ba', Stream_writeFixSize_ba st net ba n = Ok (n, ba', net') /\
    wf ba' /\ contents ba' = contents ba /\ m_position ba' = m_position ba + n /\
    net_out net' fd = net_out net fd ++ slice (pos ba) (Z.to_nat n) (contents ba).
Proof.
  intros W Hn Hs. unfold Stream_writeFixSize_ba. rewrite (swrap_small 64 n) by lia.
  destruct (writeFix_ba_loop_ok n (Z.to_nat n) net ba n) as (net' & ba' & -> & W' & Hc & Hp & _ & Ho); [done || lia..|].
  exists net', ba'. by rewrite swrap_small by lia.
Qed.

(** More than is unread: after the last byte [write] takes the address of the first
    of no buffers. *)
Lemma write_ba_nothing_unread net ba n : wf ba -> 0 < n < 2 ^ 64 -> m_position ba = m_size ba ->
  SocketStream_write_ba st net ba n = UB.
Proof.
  intros W Hn E. cbn [SocketStream_write_ba m_socket]. rewrite Hconn. unfold ByteArray_getReadBuffers.
  rewrite (getReadSize_wf _ W), E, Z.sub_diag, (proj2 (Z.ltb_lt 0 n)) by lia. done.
Qed.

End connected.

(** What one side sends out of an array with [writeFixSize(ba, n)] the other side
    gets into its array with [readFixSize(ba2, n)], however the network cuts it into
    pieces: both calls return [n]; the sender's array keeps its contents and its
    position moves past the [n] bytes; the receiver's array is overwritten from its
    position on with exactly those bytes, in order, whatever the block sizes of the
    two arrays are, and nothing more is taken from the network. *)
Lemma SocketStream_array_transfer {N1 N2 : Type} `{NetSpec N1} `{NetSpec N2}
    (junk : nat -> nat -> Z) (sock1 sock2 : Socket) (own1 own2 : bool) (net1 : N1) (ba1 ba2 : ByteArray) (n : Z) :
  m_isConnected sock1 = true -> m_isConnected sock2 = true ->
  wf ba1 -> wf ba2 -> 0 <= n < 2 ^ 31 -> n <= m_size ba1 - m_position ba1 -> room ba2 n ->
  let sent := slice (pos ba1) (Z.to_nat n) (contents ba1) in
  exists net1' ba1',
    Stream_writeFixSize_ba (mkSocketStream (Some sock1) own1) net1 ba1 n = Ok (n, ba1', net1') /\
    contents ba1' = contents ba1 /\ m_position ba1' = m_position ba1 + n /\
    net_out net1' (m_sockfd sock1) = net_out net1 (m_sockfd sock1) ++ sent /\
    forall (net2 : N2) rest, net_in net2 (m_sockfd sock2) = sent ++ rest ->
      exists net2' ba2',
        Stream_readFixSize_ba junk (mkSocketStream (Some sock2) own2) net2 ba2 n = Ok (n, ba2', net2') /\
        contents ba2' = splice (pos ba2) sent (contents ba2) /\ m_position ba2' = m_position ba2 + n /\
        net_in net2' (m_sockfd sock2) = rest.
Proof.
  intros C1 C2 W1 W2 Hn Hs Hr sent.
  assert (Hl : zlen sent = n).
  { pose proof (length_contents ba1 W1). pose proof (wf_position _ W1). unfold sent, slice, zlen, pos in *.
    rewrite length_take, length_drop. lia. }
  destruct (writeFixSize_ba_ok sock1 own1 C1 net1 ba1 n W1 Hn Hs) as (net1' & ba1' & Ew & _ & Hc & Hp & Ho).
  exists net1', ba1'. split_and!; [done..|]. intros net2 rest Hin.
  destruct (readFixSize_ba_ok junk sock2 own2 C2 net2 ba2 n W2 Hn Hr) as (net2' & ba2' & Er & Hw & Hi).
  { rewrite Hin. unfold zlen in *. rewrite length_app. lia. }
  rewrite Hin in Hw, Hi. replace (Z.to_nat n) with (length sent) in Hw, Hi by (unfold zlen in Hl; lia).
  rewrite take_app_length in Hw. rewrite drop_app_length in Hi.
  exists net2', ba2'. split_and!; [done|exact (wrote_contents _ _ _ Hw)|rewrite (wrote_position _ _ _ Hw); lia|done].
Qed.

(** ** A network that moves a few bytes at a time *)

(** One connection: the streams of [Stream.v] that transfer in pieces. *)
#[global] Instance chunked_net : NetOps chunked := {|
  net_recv net fd n := stream_read net (Z.min n 4);
  net_send net fd b := stream_write net b;
  net_close net fd := stream_close net
|}.

#[global] Instance chunked_net_spec : NetSpec chunked.
Proof.
  refine {| net_in net fd := ch_in net; net_out net fd := ch_out net |}.
  - intros net fd n Hn Hne. destruct (read_ok net (Z.min n 4)) as (k & net' & Hk & Hkn & E & Hi & Ho); [lia|done|].
    change (incoming net) with (ch_in net) in *. exists k, net'. split_and!; done || lia.
  - intros net fd n Hn E. exact (read_eof net (Z.min n 4) ltac:(lia) E).
  - intros net fd b Hb. exists (Nat.min (ch_limit net) (length b)). eexists. assert (length b <> 0%nat) by (by destruct b).
    unfold ch_limit. pose proof (Nat.mod_upper_bound (ch_calls net) 3 ltac:(lia)).
    split_and!; [lia|lia|lia|reflexivity|done|done].
Defined.

Lemma SocketStream_array_transfer_witness :
  let sock := put_conn (Socket_new AF_INET SOCK_STREAM 0) true in
  let ba1 := mkByteArray 2 1 6 5 BIN_BIG_ENDIAN [[10; 11]; [12; 13]; [14; 0]] (Some 0%nat) in
  exists net1' ba1',
    Stream_writeFixSize_ba (mkSocketStream (Some sock) true) (mkChunked [] [] 0 false) ba1 3 = Ok (3, ba1', net1') /\
    contents ba1' = contents ba1 /\ m_position ba1' = 4 /\ net_out net1' (-1) = [11; 12; 13] /\
    forall (net2 : chunked) rest, net_in net2 (-1) = [11; 12; 13] ++ rest ->
      exists net2' ba2',
        Stream_readFixSize_ba (fun _ _ => 0) (mkSocketStream (Some sock) true) net2 (ByteArray_new (fun _ _ => 0) 2) 3 = Ok (3, ba2', net2') /\
        contents ba2' = [11; 12; 13] /\ m_position ba2' = 3 /\ net_in net2' (-1) = rest.
Proof.
  assert (W : wf (mkByteArray 2 1 6 5 BIN_BIG_ENDIAN [[10; 11]; [12; 13]; [14; 0]] (Some 0%nat))).
  { constructor; cbn; try lia; [repeat constructor|vm_compute; discriminate|right; done]. }
  assert (W2 : wf (ByteArray_new (fun _ _ => 0) 2)) by (apply new_wf; unfold SIZE_LIMIT; lia).
  exact (SocketStream_array_transfer (N1 := chunked) (N2 := chunked) (fun _ _ => 0)
    (put_conn (Socket_new AF_INET SOCK_STREAM 0) true) (put_conn (Socket_new AF_INET SOCK_STREAM 0) true) true true
    (mkChunked [] [] 0 false) _ (ByteArray_new (fun _ _ => 0) 2) 3 eq_refl eq_refl W W2
    ltac:(lia) ltac:(cbn; lia) ltac:(vm_compute; discriminate)).
Defined.
