(* ===== verification/TcpServerConf.v ===== *)
(** * The configuration of servers ([tcp_server.h], [TcpServerConf])

    The record, its equality and its conversions from and to YAML.  Proved: a valid
    configuration reads back as it was written except for its arguments, which are
    written as a map and read as a string, so that they are always lost. *)

From S2P Require Import Prelude Text LogFormatter LexicalCast LogConfig.
From Stdlib Require Import ZArith Lia List String.
From stdpp Require Import base tactics list numbers option gmap.

Open Scope Z_scope.
Open Scope list_scope.

(** @src tcp_server.h:22-35 TcpServerConf *)
Record TcpServerConf := {
  tc_address : list bytes;
  tc_keepalive : Z;
  tc_timeout : Z;
  tc_ssl : Z;
  tc_id : bytes;
  tc_type : bytes;
  tc_name : bytes;
  tc_cert_file : bytes;
  tc_key_file : bytes;
  tc_accept_worker : bytes;
  tc_io_worker : bytes;
  tc_process_worker : bytes;
  tc_args : gmap bytes bytes
}.

Definition TcpServerConf_default : TcpServerConf :=
  {| tc_address := []; tc_keepalive := 0; tc_timeout := 1000 * 2 * 60; tc_ssl := 0; tc_id := [];
     tc_type := str "http"; tc_name := []; tc_cert_file := []; tc_key_file := []; tc_accept_worker := [];
     tc_io_worker := []; tc_process_worker := []; tc_args := ∅ |}.

(** @src tcp_server.h:37-39 TcpServerConf::isValid *)
Definition TcpServerConf_isValid (c : TcpServerConf) : bool := match tc_address c with [] => false | _ => true end.

(** @src tcp_server.h:41-55 TcpServerConf::operator== *)
Definition TcpServerConf_eqb (c oth : TcpServerConf) : bool :=
  bool_decide (tc_address c = tc_address oth)
  && (tc_keepalive c =? tc_keepalive oth)
  && (tc_timeout c =? tc_timeout oth)
  && bool_decide (tc_name c = tc_name oth)
  && (tc_ssl c =? tc_ssl oth)
  && bool_decide (tc_cert_file c = tc_cert_file oth)
  && bool_decide (tc_key_file c = tc_key_file oth)
  && bool_decide (tc_accept_worker c = tc_accept_worker oth)
  && bool_decide (tc_io_worker c = tc_io_worker oth)
  && bool_decide (tc_process_worker c = tc_process_worker oth)
  && bool_decide (tc_args c = tc_args oth)
  && bool_decide (tc_id c = tc_id oth)
  && bool_decide (tc_type c = tc_type oth).

(** It compares every field. *)
Lemma TcpServerConf_eqb_spec c oth : TcpServerConf_eqb c oth = true <-> c = oth.
Proof.
  unfold TcpServerConf_eqb. rewrite !andb_true_iff, !bool_decide_eq_true, !Z.eqb_eq.
  destruct c, oth; cbn. split; [intros H; by destruct_and! H; subst|by intros [= -> -> -> -> -> -> -> -> -> -> -> -> ->]].
Qed.

(** ** Conversions *)

(** [as<int>()], [None] when it throws. *)
Class YamlInt := { as_int : yaml -> option Z }.

(** What the conversions rely on: an [int] that was written reads back, a map is not
    a string, and an empty text is the null node. *)
Class YamlIntLaws (Y : Yaml) (A : YamlAccess) (I : YamlInt) : Prop := {
  as_int_written : forall n, - 2 ^ 31 <= n < 2 ^ 31 -> as_int (YScalar (sdec n)) = Some n;
  as_string_map : forall l, as_string (YMap l) = None;
  Load_empty : Load [] = Some YNull
}.

Section cast.
Context `{Yaml} `{YamlAccess} `{YamlInt} `{LexicalCast bytes}.
(** The order in which a [std::map] is walked. *)
Context (iter : gmap bytes bytes -> list (bytes * bytes)).

(** [node[key].as<T>(fallback)]: the fallback when there is no such key or no such
    conversion. *)
Definition as_or {T} (as_ : yaml -> option T) (n : yaml) (key : bytes) (fallback : T) : option T :=
  match yaml_get n key with
  | None => None
  | Some None => Some fallback
  | Some (Some v) => Some (default fallback (as_ v))
  end.

(** [node[key].as<T>()]. *)
Definition as_required {T} (as_ : yaml -> option T) (n : yaml) (key : bytes) : option T :=
  match yaml_get n key with Some (Some v) => as_ v | _ => None end.

(** The loop over [node["address"]]. *)
Definition addresses (n : yaml) : option (list bytes) :=
  match yaml_get n (str "address") with
  | None => None
  | Some None => Some []
  | Some (Some a) => mapM_opt (fun x => match x with Some v => as_string v | None => None end) (yaml_elems a)
  end.

Notation "x <- m ; k" := (match m with Some x => k | None => None end) (at level 60, right associativity).

(** @src tcp_server.h:61-83 LexicalCast<std::string, TcpServerConf> *)
Definition TcpServerConf_from_str (v : bytes) : option TcpServerConf :=
  let conf := TcpServerConf_default in
  node <- Load v;
  id <- as_or as_string node (str "id") (tc_id conf);
  type <- as_or as_string node (str "type") (tc_type conf);
  keepalive <- as_or as_int node (str "keepalive") (tc_keepalive conf);
  timeout <- as_or as_int node (str "timeout") (tc_timeout conf);
  name <- as_or as_string node (str "name") (tc_name conf);
  ssl <- as_or as_int node (str "ssl") (tc_ssl conf);
  cert_file <- as_or as_string node (str "cert_file") (tc_cert_file conf);
  key_file <- as_or as_string node (str "key_file") (tc_key_file conf);
  accept_worker <- as_required as_string node (str "accept_worker");
  io_worker <- as_required as_string node (str "io_worker");
  process_worker <- as_required as_string node (str "process_worker");
  args_text <- as_or as_string node (str "args") [];
  args <- map_from_str args_text;
  address <- addresses node;
  Some {| tc_address := address; tc_keepalive := keepalive; tc_timeout := timeout; tc_ssl := ssl; tc_id := id;
          tc_type := type; tc_name := name; tc_cert_file := cert_file; tc_key_file := key_file;
          tc_accept_worker := accept_worker; tc_io_worker := io_worker; tc_process_worker := process_worker;
          tc_args := args |}.

Definition text_pair (key v : bytes) : yaml * yaml := (YScalar key, YScalar v).

(** @src tcp_server.h:89-107 LexicalCast<TcpServerConf, std::string> *)
Definition conf_node (conf : TcpServerConf) (args : yaml) : yaml :=
  YMap (
    [text_pair (str "id") (tc_id conf);
     text_pair (str "type") (tc_type conf);
     text_pair (str "name") (tc_name conf);
     text_pair (str "keepalive") (sdec (tc_keepalive conf));
     text_pair (str "timeout") (sdec (tc_timeout conf));
     text_pair (str "ssl") (sdec (tc_ssl conf));
     text_pair (str "cert_file") (tc_cert_file conf);
     text_pair (str "key_file") (tc_key_file conf);
     text_pair (str "accept_worker") (tc_accept_worker conf);
     text_pair (str "io_worker") (tc_io_worker conf);
     text_pair (str "process_worker") (tc_process_worker conf);
     (YScalar (str "args"), args)] ++
    match tc_address conf with
    | [] => []
    | l => [(YScalar (str "address"), push_back_all (map YScalar l))]
    end).

(** @src tcp_server.h:89-110 LexicalCast<TcpServerConf, std::string> *)
Definition TcpServerConf_to_str (conf : TcpServerConf) : option bytes :=
  args_text <- map_to_str iter (tc_args conf);
  args <- Load args_text;
  Some (yaml_emit (conf_node conf args)).

End cast.

#[export] Instance TcpServerConf_cast `{Yaml} `{YamlAccess} `{YamlInt} `{LexicalCast bytes}
  (iter : gmap bytes bytes -> list (bytes * bytes)) : LexicalCast TcpServerConf :=
  {| from_str := TcpServerConf_from_str; to_str := TcpServerConf_to_str iter |}.

(** ** What a configuration keeps *)

Definition int_ok (n : Z) : Prop := - 2 ^ 31 <= n < 2 ^ 31.

Definition without_args (c : TcpServerConf) : TcpServerConf :=
  {| tc_address := tc_address c; tc_keepalive := tc_keepalive c; tc_timeout := tc_timeout c; tc_ssl := tc_ssl c;
     tc_id := tc_id c; tc_type := tc_type c; tc_name := tc_name c; tc_cert_file := tc_cert_file c;
     tc_key_file := tc_key_file c; tc_accept_worker := tc_accept_worker c; tc_io_worker := tc_io_worker c;
     tc_process_worker := tc_process_worker c; tc_args := ∅ |}.

Section roundtrip.
Context {Y : Yaml} {A : YamlAccess} {I : YamlInt} `{!YamlLaws Y} `{!YamlAccessLaws A} `{!YamlIntLaws Y A I}.
Context {LC : LexicalCast bytes} (valid : bytes -> Prop) `{!@LexicalCastLaws bytes Y LC valid}.
Context (iter : gmap bytes bytes -> list (bytes * bytes)) (iter_map : forall m, iter m ≡ₚ map_to_list m).

Definition args_valid (m : gmap bytes bytes) : Prop := map_Forall (fun k v => scalar_ok k = true /\ valid v) m.

(** The arguments are written as a map node. *)
Lemma args_written m : args_valid m ->
  exists l, (match map_to_str iter m with Some t => Load t | None => None end) = Some (YMap l) /\
    writable (YMap l) = true.
Proof.
  intros Hm. assert (Hnd : NoDup (iter m).*1) by (rewrite (iter_map m); apply NoDup_fst_map_to_list).
  assert (Hv : Forall (fun kv => scalar_ok (fst kv) = true /\ valid (snd kv)) (iter m)).
  { rewrite (iter_map m). apply map_Forall_to_list in Hm. eapply Forall_impl; [exact Hm|]. by intros [k x]. }
  destruct (pairs_round valid _ Hnd Hv) as (l & E & _ & Hw). exists l. split; [|done].
  unfold map_to_str. rewrite E. by apply Load_emit.
Qed.

(** The texts of a configuration. *)
Definition conf_texts (c : TcpServerConf) : list bytes :=
  [tc_id c; tc_type c; tc_name c; tc_cert_file c; tc_key_file c; tc_accept_worker c; tc_io_worker c; tc_process_worker c]
  ++ tc_address c.

Lemma sdec_scalar_ok n : int_ok n -> scalar_ok (sdec n) = true.
Proof.
  intros Hi. unfold int_ok in Hi.
  assert (Hd : forall m, 0 <= m <= 2 ^ 31 -> forallb (fun c => (32 <=? c) && (c <=? 126)) (dec m) = true /\
    exists c r, dec m = c :: r /\ is_digit c).
  { intros m Hm. destruct (dec_spec m ltac:(lia)) as (Hne & Hd & _). split.
    - apply forallb_forall. intros c Hc. rewrite Forall_forall in Hd.
      specialize (Hd c (proj2 (list_elem_of_In _ _) Hc)). unfold is_digit in Hd. apply andb_true_iff. lia.
    - destruct (dec m) as [|c r]; [done|]. apply Forall_cons_1 in Hd as [Hc _]. eauto. }
  unfold scalar_ok, sdec. destruct (Z.ltb_spec n 0) as [Hn|Hn].
  - destruct (Hd (- n)) as [H1 (c & r & E & _)]; [lia|]. cbn [forallb]. rewrite H1, E. done.
  - destruct (Hd n ltac:(lia)) as [-> (c & r & E & Hc)]. rewrite E. unfold is_digit in Hc. unfold null_text, str.
    rewrite !bool_decide_eq_false_2; [done|..]; cbn; intros [= -> _]; vm_compute in Hc; lia.
Qed.

Lemma conf_writable c args :
  int_ok (tc_keepalive c) -> int_ok (tc_timeout c) -> int_ok (tc_ssl c) -> Forall (fun s => scalar_ok s = true) (conf_texts c) -> writable args = true ->
  writable (conf_node c args) = true.
Proof.
  intros Hk1 Hk2 Hk3 Ht Ha. apply Forall_app in Ht as [Ht Hl]. repeat (apply Forall_cons_1 in Ht as [? Ht]).
  unfold conf_node, text_pair. destruct (tc_address c) as [|x r] eqn:E.
  - cbn [writable app map fst snd yaml_Scalar yaml_IsScalar forallb]. rewrite !sdec_scalar_ok, Ha by done.
    by repeat match goal with H : scalar_ok _ = true |- _ => rewrite H end.
  - assert (forallb writable (map YScalar (x :: r)) = true) as Hs.
    { rewrite forallb_forall. intros y Hy. apply in_map_iff in Hy as (z & <- & Hz).
      rewrite Forall_forall in Hl. apply (Hl z). by apply list_elem_of_In. }
    cbn [writable app map fst snd yaml_Scalar yaml_IsScalar forallb push_back_all] in *. rewrite !sdec_scalar_ok, Ha, Hs by done.
    by repeat match goal with H : scalar_ok _ = true |- _ => rewrite H end.
Qed.

Lemma addresses_read l :
  addresses (YMap (match l with [] => [] | x :: r => [(YScalar (str "address"), push_back_all (map YScalar (x :: r)))] end)) = Some l.
Proof.
  destruct l as [|x l]; [done|]. set (xs := x :: l). unfold addresses, yaml_get. cbn [pairs_get]. decide_keys.
  change (push_back_all (map YScalar xs)) with (YSeq (map YScalar xs)). cbn [yaml_elems]. clearbody xs.
  induction xs as [|y xs IH]; [done|]. cbn [map mapM_opt]. by rewrite as_string_scalar, IH.
Qed.

(** A server configuration with printable texts written as YAML reads back with every field as it was,
    the addresses in order included, except for the arguments: they are written as a
    map, but read with [as<std::string>("")], which a map does not convert to, so that
    they come back empty whatever they were. *)
Lemma TcpServerConf_roundtrip (c : TcpServerConf) :
  int_ok (tc_keepalive c) -> int_ok (tc_timeout c) -> int_ok (tc_ssl c) ->
  Forall (fun s => scalar_ok s = true) (conf_texts c) -> args_valid (tc_args c) ->
  exists s, TcpServerConf_to_str iter c = Some s /\ TcpServerConf_from_str s = Some (without_args c).
Proof.
  intros Hk Ht Hs Hx Hm. destruct (args_written (tc_args c) Hm) as (l & El & Hl). unfold TcpServerConf_to_str.
  destruct (map_to_str iter (tc_args c)) as [t|]; [|done]. rewrite El. eexists. split; [done|].
  unfold TcpServerConf_from_str. rewrite Load_emit by (by apply conf_writable). unfold conf_node. pose proof (addresses_read (tc_address c)) as Ha.
  unfold addresses, yaml_get in Ha. unfold as_or, as_required, addresses, yaml_get, text_pair. cbn [app pairs_get]. decide_keys.
  rewrite !as_string_scalar, !as_int_written, as_string_map by done. cbn [default from_option].
  unfold map_from_str. rewrite Load_empty. cbn [node_pairs mapM_opt fold_left]. by rewrite Ha.
Qed.

End roundtrip.

(** ** A concrete YAML *)

Definition sample_int : YamlInt := {|
  as_int n := match n with
              | YScalar (c :: r) => Some (if c =? chr "-" then - digits_value 10 0 r else digits_value 10 0 (c :: r))
              | _ => None
              end
|}.

(** The serialisation of [LexicalCast.v], in which an empty text is the null node. *)
Definition conf_yaml : Yaml := {|
  Load s := match s with [] => Some YNull | _ => @Load sample_yaml s end;
  yaml_emit n := @yaml_emit sample_yaml n;
  map_index l i := @map_index sample_yaml l i
|}.

Lemma sdec_read n : - 2 ^ 31 <= n < 2 ^ 31 -> @as_int sample_int (YScalar (sdec n)) = Some n.
Proof.
  intros Hn. unfold sdec. destruct (Z.ltb_spec n 0) as [Hlt|Hge]; cbn [as_int sample_int].
  - destruct (dec_spec (- n)) as (_ & _ & Hv); [lia|]. specialize (Hv []). rewrite app_nil_r in Hv.
    rewrite Z.eqb_refl, Hv. cbn [digits_value]. f_equal. lia.
  - destruct (dec_spec n) as (Hne & Hd & Hv); [lia|]. specialize (Hv []). rewrite app_nil_r in Hv.
    destruct (dec n) as [|c r]; [done|]. apply Forall_cons_1 in Hd as [Hc _]. unfold is_digit in Hc.
    change (chr "-") with 45. rewrite (proj2 (Z.eqb_neq c 45)) by lia. by rewrite Hv.
Qed.

Lemma conf_yaml_laws : YamlLaws conf_yaml.
Proof.
  split; [|intros [|c r] Hs; [done|exact (@Load_plain _ sample_yaml_laws (c :: r) Hs)]|exact (@emit_plain _ sample_yaml_laws)].
  intros n _. pose proof (sample_Load_emit n) as E. cbn [Load yaml_emit conf_yaml].
  destruct (@yaml_emit sample_yaml n) eqn:En; [|exact E].
  cbn in En. destruct (yaml_IsScalar n && plain (yaml_Scalar n)) eqn:Ep; [|done]. rewrite En in Ep. by rewrite andb_false_r in Ep.
Qed.

Lemma conf_int_laws : YamlIntLaws conf_yaml sample_access sample_int.
Proof. split; [exact sdec_read|done|done]. Qed.

Lemma conf_cast_laws : @LexicalCastLaws bytes conf_yaml sample_cast (fun v => scalar_ok v = true).
Proof.
  split. intros v Hv. destruct (@cast_round _ _ _ _ sample_cast_laws v Hv) as (s & n & E & Hs & Hl & Hw & Hn).
  exists s, n. split_and!; [done..| |done|done]. by destruct s.
Qed.

(** Two addresses and one argument, which does not survive. *)
Definition sample_conf : TcpServerConf :=
  {| tc_address := [str "0.0.0.0:8020"; str "127.0.0.1:8021"]; tc_keepalive := 1; tc_timeout := -1; tc_ssl := 0;
     tc_id := str "1"; tc_type := str "ws"; tc_name := str "srv"; tc_cert_file := []; tc_key_file := [];
     tc_accept_worker := str "accept"; tc_io_worker := str "io"; tc_process_worker := str "io";
     tc_args := {[str "k" := str "v"]} |}.

Lemma TcpServerConf_roundtrip_witness :
  exists s, @TcpServerConf_to_str conf_yaml sample_cast map_to_list sample_conf = Some s /\
    @TcpServerConf_from_str conf_yaml sample_access sample_int sample_cast s = Some (without_args sample_conf).
Proof.
  pose proof conf_yaml_laws as HY. pose proof sample_access_laws as HA. pose proof conf_int_laws as HI.
  pose proof conf_cast_laws as HC.
  assert (Hm : args_valid (fun v => scalar_ok v = true) (tc_args sample_conf)).
  { apply map_Forall_singleton. split; reflexivity. }
  apply (@TcpServerConf_roundtrip conf_yaml sample_access sample_int HY HA HI sample_cast _ HC map_to_list
    (fun m => reflexivity _) sample_conf);
    [vm_compute; split; done..| |exact Hm].
  repeat constructor.
Defined.
