(* ===== verification/TcpServer.v ===== *)
(** * TCP servers ([tcp_server.cc])

    A server and the tasks it puts on its schedulers: one [startAccept] loop per
    listening socket, the task [stop] posts, and the clients handed to
    [handleClient].  Listening sockets are shared by the server and the loops, so they
    live in a heap.  Proved: [bind] is all or nothing and leaves no descriptor behind;
    after [stop] the server ends, in every order its tasks run, with every listening
    socket closed. *)

From S2P Require Import Prelude Text LogFormatter FdManager Address Socket TcpServerConf.
From Stdlib Require Import ZArith Lia List String.
From stdpp Require Import base tactics list numbers option gmap relations.

Open Scope Z_scope.
Open Scope list_scope.

(** ** Data *)

(** [Socket::ptr]: a plain socket or an [SSLSocket]. *)
Inductive tsock := Plain (s : Socket) | Secure (s : SSLSocket).

Definition base_of (x : tsock) : Socket := match x with Plain s => s | Secure s => ssl_base s end.
Definition with_base (x : tsock) (b : Socket) : tsock :=
  match x with Plain _ => Plain b | Secure s => Secure {| ssl_base := b; m_ctx := m_ctx s; m_ssl := m_ssl s |} end.

(** The virtual [close]. *)
Definition tsock_close (x : tsock) : tsock * list syscall :=
  match x with
  | Plain s => let '(_, s, l) := Socket_close s in (Plain s, l)
  | Secure s => let '(_, s, l) := SSLSocket_close s in (Secure s, l)
  end.

(** @src tcp_server.h:151-163 TcpServer
    The members; a socket is named by its place in the heap, a scheduler by the name
    it was given. *)
Record TcpServer := {
  ts_listenSocks : list nat;
  ts_worker : option bytes;
  ts_ioWorker : option bytes;
  ts_acceptWorker : option bytes;
  ts_recvTimeout : Z;
  ts_name : bytes;
  ts_type : bytes;
  ts_isStop : bool;
  ts_ssl : bool;
  ts_conf : option TcpServerConf
}.

(** Where a [startAccept] loop is: about to test [m_isStop], or waiting in
    [accept]. *)
Inductive acc_pc := AtTest | InAccept.

(** The server, the listening sockets that are alive, the loops with the socket each
    of them holds, the posted tasks of [stop], and the clients handed on with the
    receive timeout they were given. *)
Record server := mkServer {
  srv : TcpServer;
  heap : gmap nat tsock;
  next_id : nat;
  acceptors : list (nat * acc_pc);
  stop_tasks : nat;
  clients : list (tsock * (Z * Z))
}.

Definition put_srv w t := mkServer t (heap w) (next_id w) (acceptors w) (stop_tasks w) (clients w).
Definition put_heap w h := mkServer (srv w) h (next_id w) (acceptors w) (stop_tasks w) (clients w).
Definition put_acceptors w a := mkServer (srv w) (heap w) (next_id w) a (stop_tasks w) (clients w).
Definition put_tasks w n := mkServer (srv w) (heap w) (next_id w) (acceptors w) n (clients w).
Definition put_clients w c := mkServer (srv w) (heap w) (next_id w) (acceptors w) (stop_tasks w) c.

Definition set_socks t v := {| ts_listenSocks := v; ts_worker := ts_worker t; ts_ioWorker := ts_ioWorker t;
  ts_acceptWorker := ts_acceptWorker t; ts_recvTimeout := ts_recvTimeout t; ts_name := ts_name t; ts_type := ts_type t;
  ts_isStop := ts_isStop t; ts_ssl := ts_ssl t; ts_conf := ts_conf t |}.
Definition set_stop t v := {| ts_listenSocks := ts_listenSocks t; ts_worker := ts_worker t; ts_ioWorker := ts_ioWorker t;
  ts_acceptWorker := ts_acceptWorker t; ts_recvTimeout := ts_recvTimeout t; ts_name := ts_name t; ts_type := ts_type t;
  ts_isStop := v; ts_ssl := ts_ssl t; ts_conf := ts_conf t |}.
Definition set_ssl t v := {| ts_listenSocks := ts_listenSocks t; ts_worker := ts_worker t; ts_ioWorker := ts_ioWorker t;
  ts_acceptWorker := ts_acceptWorker t; ts_recvTimeout := ts_recvTimeout t; ts_name := ts_name t; ts_type := ts_type t;
  ts_isStop := ts_isStop t; ts_ssl := v; ts_conf := ts_conf t |}.

(** ** Construction and settings *)

(** @src tcp_server.cc:12-19 TcpServer::TcpServer
    [timeout]: the value of the configuration variable. *)
Definition TcpServer_new (worker io_worker accept_worker : option bytes) (timeout : Z) : TcpServer :=
  {| ts_listenSocks := []; ts_worker := worker; ts_ioWorker := io_worker; ts_acceptWorker := accept_worker;
     ts_recvTimeout := timeout; ts_name := str "bin/1.0.0"; ts_type := str "tcp"; ts_isStop := true; ts_ssl := false;
     ts_conf := None |}.

(** @src tcp_server.h:137-137 TcpServer::setRecvTimeout *)
Definition TcpServer_setRecvTimeout t v := {| ts_listenSocks := ts_listenSocks t; ts_worker := ts_worker t;
  ts_ioWorker := ts_ioWorker t; ts_acceptWorker := ts_acceptWorker t; ts_recvTimeout := v; ts_name := ts_name t;
  ts_type := ts_type t; ts_isStop := ts_isStop t; ts_ssl := ts_ssl t; ts_conf := ts_conf t |}.
(** @src tcp_server.h:138-138 TcpServer::setName *)
Definition TcpServer_setName t v := {| ts_listenSocks := ts_listenSocks t; ts_worker := ts_worker t;
  ts_ioWorker := ts_ioWorker t; ts_acceptWorker := ts_acceptWorker t; ts_recvTimeout := ts_recvTimeout t; ts_name := v;
  ts_type := ts_type t; ts_isStop := ts_isStop t; ts_ssl := ts_ssl t; ts_conf := ts_conf t |}.
(** @src tcp_server.cc:138-140 TcpServer::setConf *)
Definition TcpServer_setConf t v := {| ts_listenSocks := ts_listenSocks t; ts_worker := ts_worker t;
  ts_ioWorker := ts_ioWorker t; ts_acceptWorker := ts_acceptWorker t; ts_recvTimeout := ts_recvTimeout t;
  ts_name := ts_name t; ts_type := ts_type t; ts_isStop := ts_isStop t; ts_ssl := ts_ssl t; ts_conf := Some v |}.

Definition server_new (t : TcpServer) : server := mkServer t ∅ 0 [] 0 [].

(** ** Sharing *)

Definition held (w : server) (k : nat) : bool :=
  existsb (Nat.eqb k) (ts_listenSocks (srv w)) || existsb (fun a => fst a =? k)%nat (acceptors w).

(** The sockets among [ids] that nobody refers to any more are destroyed. *)
Fixpoint release (w : server) (ids : list nat) : server * list syscall :=
  match ids with
  | [] => (w, [])
  | k :: ids =>
    match heap w !! k with
    | Some x => if held w k then release w ids
                else let '(w, l) := release (put_heap w (delete k (heap w))) ids in (w, Socket_destroy (base_of x) ++ l)
    | None => release w ids
    end
  end.

(** [m_listenSocks.clear()]. *)
Definition clear_socks (w : server) : server * list syscall :=
  let ids := ts_listenSocks (srv w) in release (put_srv w (set_socks (srv w) [])) ids.

(** [close()] of each of the sockets. *)
Fixpoint close_all (w : server) (ids : list nat) : server * list syscall :=
  match ids with
  | [] => (w, [])
  | k :: ids =>
    match heap w !! k with
    | Some x => let '(x, l) := tsock_close x in
                let '(w, l') := close_all (put_heap w (<[k := x]> (heap w))) ids in (w, l ++ l')
    | None => close_all w ids
    end
  end.

(** @src tcp_server.cc:21-26 TcpServer::~TcpServer *)
Definition TcpServer_destroy (w : server) : server * list syscall :=
  let '(w, l) := close_all w (ts_listenSocks (srv w)) in
  let '(w, l') := clear_socks w in (w, l ++ l').

(** ** bind *)

(** What the system answers while one address is bound: [socket], [bind],
    [getsockname], the probe of a Unix address, [listen]. *)
Record bind_answers := {
  ba_fd : Z;
  ba_ret : Z;
  ba_name : name_answer;
  ba_probe : connect_answers;
  ba_listen : Z
}.

Section bind.
Context (host : Z).

(** One address: the listening socket, or [None] for a failure; a socket that is not
    kept is destroyed. *)
(** @src tcp_server.cc:41-52 TcpServer::bind *)
Definition bind_one (ssl : bool) (x : Address) (an : bind_answers) : outcome (option tsock * list syscall) :=
  let sock := if ssl then Secure (SSLSocket_CreateTCP x) else Plain (Socket_CreateTCP x) in
  let! (ok, s, l) := Socket_bind host (base_of sock) x (ba_fd an) (ba_ret an) (ba_name an) (ba_probe an) in
  if negb ok then Ok (None, l ++ Socket_destroy s)
  else
    let '(ok, k) := Socket_listen s (ba_listen an) in
    if negb ok then Ok (None, l ++ k ++ Socket_destroy s) else Ok (Some (with_base sock s), l ++ k).

(** [m_listenSocks.push_back(sock)]. *)
Definition push_sock (w : server) (x : tsock) : server :=
  mkServer (set_socks (srv w) (ts_listenSocks (srv w) ++ [next_id w])) (<[next_id w := x]> (heap w)) (S (next_id w))
           (acceptors w) (stop_tasks w) (clients w).

Fixpoint bind_loop (w : server) (ssl : bool) (addrs : list (Address * bind_answers)) (fails : list Address) :
    outcome (server * list Address * list syscall) :=
  match addrs with
  | [] => Ok (w, fails, [])
  | (x, an) :: addrs =>
    let! (r, l) := bind_one ssl x an in
    let! (w, fails, l') :=
      match r with
      | Some s => bind_loop (push_sock w s) ssl addrs fails
      | None => bind_loop w ssl addrs (fails ++ [x])
      end in
    Ok (w, fails, l ++ l')
  end.

(** @src tcp_server.cc:38-66 TcpServer::bind *)
Definition TcpServer_bind (w : server) (addrs : list (Address * bind_answers)) (fails : list Address) (ssl : bool) :
    outcome (bool * server * list Address * list syscall) :=
  let w := put_srv w (set_ssl (srv w) ssl) in
  let! (w, fails, l) := bind_loop w ssl addrs fails in
  match fails with
  | [] => Ok (true, w, fails, l)
  | _ => let '(w, k) := clear_socks w in Ok (false, w, fails, l ++ k)
  end.

(** @src tcp_server.cc:31-36 TcpServer::bind *)
Definition TcpServer_bind_addr (w : server) (addr : Address * bind_answers) (ssl : bool) :
    outcome (bool * server * list syscall) :=
  let! (b, w, _, l) := TcpServer_bind w [addr] [] ssl in Ok (b, w, l).

End bind.

(** ** Running *)

(** @src tcp_server.cc:68-78 TcpServer::start *)
Definition TcpServer_start (w : server) : bool * server :=
  if negb (ts_isStop (srv w)) then (true, w)
  else
    let w := put_srv w (set_stop (srv w) false) in
    (true, put_acceptors w (acceptors w ++ map (fun k => (k, AtTest)) (ts_listenSocks (srv w)))).

(** @src tcp_server.cc:81-92 TcpServer::stop *)
Definition TcpServer_stop (w : server) : server :=
  put_tasks (put_srv w (set_stop (srv w) true)) (S (stop_tasks w)).

(** The task: the descriptors whose events are cancelled, then the calls. *)
(** @src tcp_server.cc:84-91 TcpServer::stop *)
Definition stop_task (w : server) : server * list Z * list syscall :=
  let ids := ts_listenSocks (srv w) in
  let cancelled := omap (fun k => (fun x => m_sockfd (base_of x)) <$> heap w !! k) ids in
  let '(w, l) := close_all w ids in
  let '(w, l') := clear_socks w in
  (put_tasks w (pred (stop_tasks w)), cancelled, l ++ l').

(** What one [accept] meets: the answers of the calls. *)
Record accept_answers := {
  aa_newsock : Z;
  aa_ctx : option FdCtx;
  aa_name : name_answer;
  aa_peer : name_answer;
  aa_ssl : option nat;
  aa_handshake : Z
}.

Section run.
Context (host : Z).

(** The virtual [accept]. *)
Definition tsock_accept (x : tsock) (an : accept_answers) : option tsock * list syscall :=
  match x with
  | Plain s => let '(r, l) := Socket_accept host s (aa_newsock an) (aa_ctx an) (aa_name an) (aa_peer an) in (Plain <$> r, l)
  | Secure s => let '(r, l) := SSLSocket_accept host s (aa_newsock an) (aa_ctx an) (aa_name an) (aa_peer an) (aa_ssl an) (aa_handshake an) in
                (Secure <$> r, l)
  end.

(** The [i]-th loop tests [m_isStop]: it goes into [accept], or ends and lets go of
    its socket. *)
(** @src tcp_server.cc:97-99 TcpServer::startAccept *)
Definition accept_test (w : server) (i : nat) : option (server * list syscall) :=
  match acceptors w !! i with
  | Some (k, AtTest) =>
      if ts_isStop (srv w) then Some (release (put_acceptors w (delete i (acceptors w))) [k])
      else Some (put_acceptors w (<[i := (k, InAccept)]> (acceptors w)), [])
  | _ => None
  end.

(** Its [accept] returns; a client gets the receive timeout and goes to
    [m_ioWorker]. *)
(** @src tcp_server.cc:100-113 TcpServer::startAccept *)
Definition accept_return (w : server) (i : nat) (an : accept_answers) : option (server * list syscall) :=
  match acceptors w !! i with
  | Some (k, InAccept) =>
      match heap w !! k with
      | Some sock =>
          let '(client, l) := tsock_accept sock an in
          let w := put_acceptors w (<[i := (k, AtTest)]> (acceptors w)) in
          match client with
          | Some c => Some (put_clients w (clients w ++ [(c, timeout_timeval (i64 (ts_recvTimeout (srv w))))]), l)
          | None => Some (w, l)
          end
      | None => None
      end
  | _ => None
  end.

(** @src tcp_server.cc:124-134 TcpServer::loadCertificates
    [certs]: what OpenSSL answers for each secure socket. *)
Fixpoint load_certificates (w : server) (ids : list nat) (certs : nat -> option nat * (Z * Z * Z)) : bool * server :=
  match ids with
  | [] => (true, w)
  | k :: ids =>
    match heap w !! k with
    | Some (Secure s) =>
        let '(ctx, (cert, key, check)) := certs k in
        let '(ok, s) := SSLSocket_loadCertificates s ctx cert key check in
        let w := put_heap w (<[k := Secure s]> (heap w)) in
        if ok then load_certificates w ids certs else (false, w)
    | _ => load_certificates w ids certs
    end
  end.

(** A socket whose descriptor was closed. *)
Definition closed (w : server) (k : nat) : Prop := exists x, heap w !! k = Some x /\ m_sockfd (base_of x) = -1.

(** The tasks of the server, in any order.  An [accept] on an open socket waits: it
    returns when the outside world makes it, with a client or an error; these steps are
    labelled [true].  On a closed one (the hooked [close] wakes who waits) it fails. *)
Inductive task_step : bool -> server -> server -> Prop :=
| task_stop w w' c l : (0 < stop_tasks w)%nat -> stop_task w = (w', c, l) -> task_step false w w'
| task_test w w' i l : accept_test w i = Some (w', l) -> task_step false w w'
| task_client w w' i k an l : acceptors w !! i = Some (k, InAccept) -> ~ closed w k ->
    accept_return w i an = Some (w', l) -> task_step true w w'
| task_closed w w' i k an l : acceptors w !! i = Some (k, InAccept) -> closed w k -> aa_newsock an < 0 ->
    accept_return w i an = Some (w', l) -> task_step false w w'.

(** Any of them. *)
Definition any_task (w w' : server) : Prop := exists b, task_step b w w'.

(** [ss << *i]. *)
Definition tsock_dump (x : tsock) : outcome bytes :=
  match x with Plain s => Socket_dump host s | Secure s => SSLSocket_dump host s end.

(** The lines [toString] prints for the sockets. *)
Fixpoint sock_lines (w : server) (pfx : bytes) (ids : list nat) : outcome bytes :=
  match ids with
  | [] => Ok []
  | k :: ids =>
    deref (heap w !! k) (fun x =>
    let! d := tsock_dump x in
    let! rest := sock_lines w pfx ids in
    Ok (pfx ++ pfx ++ d ++ [10] ++ rest))
  end.

(** @src tcp_server.cc:142-154 TcpServer::toString *)
Definition TcpServer_toString (w : server) (prefix : bytes) : outcome bytes :=
  let t := srv w in
  let head := prefix ++ str "[type=" ++ ts_type t ++ str " name=" ++ ts_name t ++ str " ssl=" ++
              (if ts_ssl t then str "1" else str "0") ++ str " worker=" ++ default [] (ts_worker t) ++
              str " accept=" ++ default [] (ts_acceptWorker t) ++ str " recv_timeout=" ++ dec (ts_recvTimeout t) ++
              str "]" ++ [10] in
  let pfx := match prefix with [] => str "    " | _ => prefix end in
  let! lines := sock_lines w pfx (ts_listenSocks t) in Ok (head ++ lines).

End run.

(** ** Sharing, proved *)

(** The heap holds exactly what the server or a loop refers to. *)
Record ok (w : server) : Prop := {
  ok_held : forall k, is_Some (heap w !! k) <-> k ∈ ts_listenSocks (srv w) \/ k ∈ (acceptors w).*1;
  ok_next : forall k, is_Some (heap w !! k) -> (k < next_id w)%nat
}.

Lemma held_spec w k : held w k = true <-> k ∈ ts_listenSocks (srv w) \/ k ∈ (acceptors w).*1.
Proof.
  unfold held. rewrite orb_true_iff, !existsb_exists. split.
  - intros [(x & Hx & E)|([x p] & Hx & E)]; apply Nat.eqb_eq in E; cbn in E; subst.
    + left. by apply list_elem_of_In.
    + right. apply list_elem_of_fmap. exists (k, p). split; [done|]. by apply list_elem_of_In.
  - intros [H|H]; [left; exists k; split; [by apply list_elem_of_In|apply Nat.eqb_refl]|right].
    apply list_elem_of_fmap in H as ([x p] & -> & H). exists (x, p). split; [by apply list_elem_of_In|apply Nat.eqb_refl].
Qed.

(** The part of a server that a change of the heap leaves alone. *)
Definition same_but_heap (w w' : server) : Prop := w' = put_heap w (heap w').

Lemma release_same ids : forall w w' l, release w ids = (w', l) ->
  same_but_heap w w' /\
  forall k, heap w' !! k = if bool_decide (k ∈ ids) && negb (held w k) then None else heap w !! k.
Proof.
  unfold same_but_heap. induction ids as [|j ids IH]; intros w w' l E; cbn [release] in E.
  { injection E as <- <-. split; [by destruct w|]. intros k. by rewrite bool_decide_eq_false_2 by set_solver. }
  destruct (heap w !! j) as [x|] eqn:Ej; [destruct (held w j) eqn:Eh|].
  - destruct (IH _ _ _ E) as [Hs Hh]. split; [done|]. intros k. rewrite Hh.
    destruct (decide (k = j)) as [->|Hne]; [by rewrite Eh, !andb_false_r|].
    by rewrite (bool_decide_ext (k ∈ j :: ids) (k ∈ ids)) by set_solver.
  - destruct (release _ ids) as [w1 l1] eqn:E1. injection E as <- <-. destruct (IH _ _ _ E1) as [Hs Hh].
    split; [by rewrite Hs|]. intros k. rewrite Hh. change (held (put_heap w _) k) with (held w k). cbn [put_heap heap].
    destruct (decide (k = j)) as [->|Hne].
    + rewrite lookup_delete_eq, Eh, (bool_decide_eq_true_2 (j ∈ j :: ids)) by set_solver. by destruct (bool_decide _).
    + rewrite lookup_delete_ne by done. by rewrite (bool_decide_ext (k ∈ j :: ids) (k ∈ ids)) by set_solver.
  - destruct (IH _ _ _ E) as [Hs Hh]. split; [done|]. intros k. rewrite Hh.
    destruct (decide (k = j)) as [->|Hne]; [rewrite Ej; by repeat case_match|].
    by rewrite (bool_decide_ext (k ∈ j :: ids) (k ∈ ids)) by set_solver.
Qed.

Lemma close_all_same ids : forall w w' l, close_all w ids = (w', l) ->
  same_but_heap w w' /\ forall k, is_Some (heap w' !! k) <-> is_Some (heap w !! k).
Proof.
  unfold same_but_heap. induction ids as [|j ids IH]; intros w w' l E; cbn [close_all] in E.
  { injection E as <- <-. by destruct w. }
  destruct (heap w !! j) as [x|] eqn:Ej; [|by apply IH in E].
  destruct (tsock_close x) as [x' l0]. destruct (close_all _ ids) as [w1 l1] eqn:E1. injection E as <- <-.
  destruct (IH _ _ _ E1) as [Hs Hh]. split; [by rewrite Hs|]. intros k. rewrite Hh. cbn [put_heap heap].
  destruct (decide (k = j)) as [->|Hne]; [by rewrite lookup_insert_eq, Ej|by rewrite lookup_insert_ne].
Qed.

Lemma tsock_close_closed x : m_sockfd (base_of (fst (tsock_close x))) = -1.
Proof.
  assert (forall s, m_sockfd (snd (fst (Socket_close s))) = -1) as H.
  { intros s. unfold Socket_close. destruct (Z.eqb_spec (m_sockfd s) (-1)) as [E|E].
    - destruct (m_isConnected s); cbn; rewrite ?E; done.
    - rewrite andb_false_r. cbn. by rewrite (proj2 (Z.eqb_neq _ _) E). }
  destruct x as [s|s]; cbn; [|unfold SSLSocket_close]; [specialize (H s)|specialize (H (ssl_base s))];
    by destruct (Socket_close _) as [[? ?] ?].
Qed.

(** [close_all] closes what it is given and opens nothing. *)
Lemma close_all_closed ids : forall w w' l, close_all w ids = (w', l) ->
  forall k, closed w k \/ (k ∈ ids /\ is_Some (heap w !! k)) -> closed w' k.
Proof.
  induction ids as [|j ids IH]; intros w w' l E k Hk; cbn [close_all] in E.
  { injection E as <- <-. destruct Hk as [?|[?%not_elem_of_nil _]]; done. }
  destruct (heap w !! j) as [x|] eqn:Ej.
  - pose proof (tsock_close_closed x) as Hx. destruct (tsock_close x) as [x' l0]. cbn [fst] in Hx.
    destruct (close_all _ ids) as [w1 l1] eqn:E1. injection E as <- <-. eapply IH; [exact E1|].
    destruct (decide (k = j)) as [->|Hne]; [left; exists x'; cbn; by rewrite lookup_insert_eq|].
    unfold closed in *. cbn [put_heap heap]. rewrite lookup_insert_ne by done.
    destruct Hk as [?|[[->|?]%elem_of_cons ?]]; [by left|done|by right].
  - eapply IH; [exact E|]. destruct Hk as [?|[[->|?]%elem_of_cons Hs]]; [by left| |by right]. rewrite Ej in Hs. by destruct Hs.
Qed.

(** A socket that somebody refers to stays as it is. *)
Lemma release_closed w ids w' l k : release w ids = (w', l) -> held w k = true -> closed w k -> closed w' k.
Proof. intros E Hh (x & Hx & Hc). destruct (release_same _ _ _ _ E) as [_ H]. exists x. by rewrite H, Hh, andb_false_r. Qed.

(** Letting go of [ids] keeps the heap exact. *)
Lemma release_ok w ids w' l : release w ids = (w', l) ->
  (forall k, k ∈ ts_listenSocks (srv w) \/ k ∈ (acceptors w).*1 -> is_Some (heap w !! k)) ->
  (forall k, is_Some (heap w !! k) -> held w k = true \/ k ∈ ids) ->
  (forall k, is_Some (heap w !! k) -> (k < next_id w)%nat) -> ok w'.
Proof.
  intros E H1 H2 H3. destruct (release_same _ _ _ _ E) as [-> Hh]. split; cbn [put_heap heap srv acceptors next_id].
  - intros k. rewrite Hh. destruct (held w k) eqn:Ek.
    + rewrite andb_false_r. apply held_spec in Ek. split; [done|]. intros _. by apply H1.
    + assert (Hn : ~ (k ∈ ts_listenSocks (srv w) \/ k ∈ (acceptors w).*1)) by (rewrite <- held_spec; by rewrite Ek).
      split; [|done]. rewrite andb_true_r. case_bool_decide as Hk; [by intros [? ?]|]. intros Hs.
      destruct (H2 k Hs) as [Hc|Hc]; [by rewrite Hc in Ek|done].
  - intros k. rewrite Hh. destruct (_ && _); [by intros [? ?]|]. apply H3.
Qed.

Lemma clear_socks_ok w w' l : clear_socks w = (w', l) -> ok w -> ok w' /\ same_but_heap (put_srv w (set_socks (srv w) [])) w'.
Proof.
  unfold clear_socks. intros E [H1 H2]. split; [|by apply release_same in E as [? _]].
  apply release_ok in E; [done|..]; cbn [put_srv srv heap acceptors next_id set_socks ts_listenSocks].
  - intros k Hk. apply H1. set_solver.
  - intros k Hk. apply H1 in Hk as [Hk|Hk]; [by right|]. left. apply held_spec. cbn. by right.
  - done.
Qed.

Lemma same_ok w w' : same_but_heap w w' -> (forall k, is_Some (heap w' !! k) <-> is_Some (heap w !! k)) -> ok w -> ok w'.
Proof. unfold same_but_heap. intros -> Hh [H1 H2]. split; cbn in *; intros k; rewrite Hh; [apply H1|apply H2]. Qed.

Lemma stop_task_ok w w' c l : ok w -> stop_task w = (w', c, l) ->
  ok w' /\ ts_listenSocks (srv w') = [] /\ ts_isStop (srv w') = ts_isStop (srv w) /\
  acceptors w' = acceptors w /\ stop_tasks w' = pred (stop_tasks w).
Proof.
  intros Hok. unfold stop_task. destruct (close_all w _) as [w1 l1] eqn:E1. destruct (clear_socks w1) as [w2 l2] eqn:E2.
  intros [= <- <- <-]. destruct (close_all_same _ _ _ _ E1) as [Hs1 Hh1].
  destruct (clear_socks_ok _ _ _ E2) as [Hok2 Hs2]; [by eapply same_ok|]. unfold same_but_heap in *.
  rewrite Hs2 in Hok2 |- *. rewrite Hs1 in Hok2 |- *. cbn. split_and!; try done. by destruct Hok2.
Qed.

(** Every loop is on a socket that [stop] will close, or that is closed. *)
Definition stoppable (w : server) : Prop := forall k, k ∈ (acceptors w).*1 -> k ∈ ts_listenSocks (srv w) \/ closed w k.

Lemma stop_task_stoppable w w' c l : ok w -> stoppable w -> stop_task w = (w', c, l) -> stoppable w'.
Proof.
  intros Hok Hs. unfold stop_task. destruct (close_all w _) as [w1 l1] eqn:E1. destruct (clear_socks w1) as [w2 l2] eqn:E2.
  intros [= <- <- <-] k Hk. right. destruct (close_all_same _ _ _ _ E1) as [Hs1 Hh1]. cbn [put_tasks acceptors] in Hk.
  unfold clear_socks in E2. destruct (release_same _ _ _ _ E2) as [Hs2 _]. rewrite Hs2 in Hk. cbn in Hk.
  assert (acceptors w1 = acceptors w) as Ha by (by rewrite Hs1). rewrite Ha in Hk.
  assert (closed w1 k) as Hc.
  { eapply close_all_closed; [exact E1|]. destruct (Hs k Hk) as [Hin|?]; [right|by left]. split; [done|]. apply (ok_held _ Hok). by right. }
  assert (closed w2 k) as (x & Hx & Hd); [|by exists x].
  eapply release_closed; [exact E2| |exact Hc]. apply held_spec. right. cbn. by rewrite Ha.
Qed.

Section steps.
Context (host : Z).

Lemma accept_test_ok w i w' l : ok w -> accept_test w i = Some (w', l) ->
  ok w' /\ srv w' = srv w /\ stop_tasks w' = stop_tasks w /\
  exists k, acceptors w !! i = Some (k, AtTest) /\
    acceptors w' = if ts_isStop (srv w) then delete i (acceptors w) else <[i := (k, InAccept)]> (acceptors w).
Proof.
  intros [H1 H2]. unfold accept_test. destruct (acceptors w !! i) as [[k [|]]|] eqn:Ei; try done.
  destruct (ts_isStop (srv w)); intros E; apply (inj Some) in E.
  - assert (Hin : forall j, j ∈ (acceptors w).*1 -> j = k \/ j ∈ (delete i (acceptors w)).*1).
    { intros j Hj. rewrite (delete_take_drop (acceptors w) i), fmap_app, elem_of_app.
      rewrite <- (take_drop_middle _ _ _ Ei) in Hj. rewrite fmap_app, elem_of_app, fmap_cons in Hj. set_solver. }
    pose proof (release_same _ _ _ _ E) as [Hs _]. split.
    + apply release_ok in E; [done|..]; cbn [put_acceptors srv acceptors heap next_id].
      * intros j [Hj|Hj]; apply H1; [by left|right]. rewrite (delete_take_drop (acceptors w) i), fmap_app, elem_of_app in Hj.
        rewrite <- (take_drop_middle _ _ _ Ei), fmap_app, elem_of_app, fmap_cons. set_solver.
      * intros j Hj. apply H1 in Hj as [Hj|Hj]; [left; apply held_spec; by left|].
        destruct (Hin j Hj) as [->|Hj']; [right; set_solver|left; apply held_spec; by right].
      * done.
    + rewrite Hs. cbn. eauto.
  - injection E as <- <-. cbn. split; [|eauto]. split; cbn; [|done]. intros j. rewrite H1.
    replace ((<[i:=(k, InAccept)]> (acceptors w)).*1) with ((acceptors w).*1); [done|].
    rewrite list_fmap_insert. cbn. symmetry. apply list_insert_id. by rewrite list_lookup_fmap, Ei.
Qed.

Lemma accept_return_ok w i an w' l : ok w -> accept_return host w i an = Some (w', l) ->
  ok w' /\ srv w' = srv w /\ stop_tasks w' = stop_tasks w /\
  exists k, acceptors w !! i = Some (k, InAccept) /\ acceptors w' = <[i := (k, AtTest)]> (acceptors w).
Proof.
  intros [H1 H2]. unfold accept_return. destruct (acceptors w !! i) as [[k [|]]|] eqn:Ei; try done.
  destruct (heap w !! k) as [x|]; [|done]. destruct (tsock_accept host x an) as [client l0].
  assert (Hok : ok (put_acceptors w (<[i:=(k, AtTest)]> (acceptors w)))).
  { split; cbn; [|done]. intros j. rewrite H1.
    replace ((<[i:=(k, AtTest)]> (acceptors w)).*1) with ((acceptors w).*1); [done|].
    rewrite list_fmap_insert. cbn. symmetry. apply list_insert_id. by rewrite list_lookup_fmap, Ei. }
  destruct client as [c|]; intros [= <- <-]; cbn; (split; [|eauto]); [|done]. by destruct Hok.
Qed.

Lemma insert_fst (a : list (nat * acc_pc)) i k pc pc' : a !! i = Some (k, pc) -> (<[i := (k, pc')]> a).*1 = a.*1.
Proof. intros Ei. rewrite list_fmap_insert. cbn. apply list_insert_id. by rewrite list_lookup_fmap, Ei. Qed.

Lemma accept_test_stoppable w i w' l : accept_test w i = Some (w', l) -> stoppable w -> stoppable w'.
Proof.
  unfold accept_test. destruct (acceptors w !! i) as [[k [|]]|] eqn:Ei; try done. intros E Hs.
  destruct (ts_isStop (srv w)); apply (inj Some) in E.
  - intros j Hj. destruct (release_same _ _ _ _ E) as [Hw _]. rewrite Hw in Hj |- *. cbn in Hj |- *.
    assert (j ∈ (acceptors w).*1) as Hj'.
    { rewrite list_elem_of_fmap in Hj |- *. destruct Hj as (y & -> & Hy). exists y. split; [done|].
      rewrite delete_take_drop in Hy. rewrite <- (take_drop_middle _ _ _ Ei). rewrite elem_of_app in Hy |- *. rewrite elem_of_cons. tauto. }
    destruct (Hs j Hj') as [?|Hc]; [by left|right].
    assert (closed w' j) as (x & Hx & Hd); [|by exists x].
    eapply release_closed; [exact E| |exact Hc]. apply held_spec. right. exact Hj.
  - injection E as <- <-. unfold stoppable. cbn. by rewrite (insert_fst _ _ _ AtTest).
Qed.

Lemma accept_return_stoppable w i an w' l : accept_return host w i an = Some (w', l) -> stoppable w -> stoppable w'.
Proof.
  unfold accept_return. destruct (acceptors w !! i) as [[k [|]]|] eqn:Ei; try done.
  destruct (heap w !! k) as [x|]; [|done]. destruct (tsock_accept host x an) as [client l0].
  destruct client as [c|]; intros [= <- <-] Hs; unfold stoppable; cbn; by rewrite (insert_fst _ _ _ InAccept).
Qed.

Lemma task_step_stoppable b w w' : task_step host b w w' -> ok w -> stoppable w -> stoppable w'.
Proof.
  intros [w0 w1 c l Hp E|w0 w1 i l E|w0 w1 i k an l _ _ E|w0 w1 i k an l _ _ _ E] Hok Hs;
    [by eapply stop_task_stoppable|by eapply accept_test_stoppable|by eapply accept_return_stoppable..].
Qed.

(** Work left: the posted tasks, two turns for a loop in [accept], one for a loop at
    its test. *)
Definition turns (a : list (nat * acc_pc)) : nat :=
  foldr (fun x n => (match snd x with AtTest => 1 | InAccept => 2 end + n)%nat) 0%nat a.

Definition work (w : server) : nat := (stop_tasks w + turns (acceptors w))%nat.

Lemma turns_app a b : turns (a ++ b) = (turns a + turns b)%nat.
Proof. unfold turns. induction a as [|x a IH]; cbn; [done|]. rewrite IH. lia. Qed.

Lemma turns_at a i x : a !! i = Some x -> turns a = (turns (take i a) + turns [x] + turns (drop (S i) a))%nat.
Proof.
  intros E. rewrite <- (take_drop_middle a i x E) at 1. change (x :: drop (S i) a) with ([x] ++ drop (S i) a).
  rewrite !turns_app. lia.
Qed.

(** While the server is stopped every step of a task is progress. *)
Lemma task_step_progress b w w' : task_step host b w w' -> ok w -> ts_isStop (srv w) = true ->
  ok w' /\ ts_isStop (srv w') = true /\ (work w' < work w)%nat /\
  (stop_tasks w' < stop_tasks w -> ts_listenSocks (srv w') = [])%nat /\
  (stop_tasks w' = stop_tasks w -> ts_listenSocks (srv w') = ts_listenSocks (srv w)).
Proof.
  assert (forall w w' i an l, accept_return host w i an = Some (w', l) -> ok w -> ts_isStop (srv w) = true ->
    ok w' /\ ts_isStop (srv w') = true /\ (stop_tasks w' + turns (acceptors w') < stop_tasks w + turns (acceptors w))%nat /\
    stop_tasks w' = stop_tasks w /\ ts_listenSocks (srv w') = ts_listenSocks (srv w)) as Hacc.
  { intros w0 w1 i an l E Hok Hst. destruct (accept_return_ok _ _ _ _ _ Hok E) as (Hok' & Hs & Hn & k & Ei & Ha). rewrite Ha, Hn, Hs.
    split_and!; try done. rewrite (turns_at _ _ _ Ei).
    rewrite insert_take_drop by (by eapply lookup_lt_Some).
    change ((k, AtTest) :: drop (S i) (acceptors w0)) with ([(k, AtTest)] ++ drop (S i) (acceptors w0)).
    rewrite !turns_app. change (turns [(k, AtTest)]) with 1%nat. change (turns [(k, InAccept)]) with 2%nat. lia. }
  intros [w0 w1 c l Hp E|w0 w1 i l E|w0 w1 i k an l _ _ E|w0 w1 i k an l _ _ _ E] Hok Hst; unfold work.
  - destruct (stop_task_ok _ _ _ _ Hok E) as (Hok' & Hl & Hs & Ha & Hn). rewrite Ha, Hn, Hs. split_and!; try done; lia.
  - destruct (accept_test_ok _ _ _ _ Hok E) as (Hok' & Hs & Hn & k & Ei & Ha). rewrite Ha, Hn, Hs, Hst.
    split_and!; try done; [|lia]. rewrite (turns_at _ _ _ Ei), delete_take_drop, turns_app. change (turns [(k, AtTest)]) with 1%nat. lia.
  - destruct (Hacc _ _ _ _ _ E Hok Hst) as (? & ? & ? & ? & ?). split_and!; try done; lia.
  - destruct (Hacc _ _ _ _ _ E Hok Hst) as (? & ? & ? & ? & ?). split_and!; try done; lia.
Qed.

(** A stopped server with work left has a step of its own to make: no client is needed. *)
Lemma work_step w : ok w -> stoppable w -> (0 < stop_tasks w)%nat \/ ts_listenSocks (srv w) = [] -> ts_isStop (srv w) = true ->
  (0 < work w)%nat -> exists w', task_step host false w w'.
Proof.
  intros Hok Hsp Hl Hst Hw. unfold work in Hw. destruct (decide (0 < stop_tasks w)%nat) as [Hp|Hp].
  { destruct (stop_task w) as [[w' c] l] eqn:E. exists w'. by eapply task_stop. }
  destruct Hl as [?|Hl]; [lia|].
  destruct (acceptors w) as [|[k pc] a] eqn:Ea; [cbn in Hw; lia|]. destruct pc.
  - assert (accept_test w 0 = Some (release (put_acceptors w (delete 0%nat (acceptors w))) [k])) as E
      by (unfold accept_test; by rewrite Ea, Hst).
    destruct (release _ _) as [w' l]. exists w'. by eapply task_test.
  - assert (closed w k) as Hc.
    { destruct (Hsp k) as [Hin|?]; [rewrite Ea; by left|rewrite Hl in Hin; by apply not_elem_of_nil in Hin|done]. }
    pose proof Hc as (x & Hx & _).
    set (an := {| aa_newsock := -1; aa_ctx := None; aa_name := None; aa_peer := None; aa_ssl := None; aa_handshake := 0 |}).
    assert (exists r, accept_return host w 0 an = Some r) as [[w' l] E].
    { unfold accept_return. rewrite Ea. cbn. rewrite Hx. destruct (tsock_accept host x an) as [[c|] l]; eauto. }
    exists w'. apply (task_closed host w w' 0 k an l); [by rewrite Ea|exact Hc| |exact E]. cbn. lia.
Qed.

End steps.

(** ** Every operation keeps the heap exact *)

Section reachable.
Context (host : Z).

Lemma push_sock_ok w x : ok w -> ok (push_sock w x).
Proof.
  intros [H1 H2]. split; cbn [push_sock heap srv set_socks ts_listenSocks acceptors next_id].
  - intros k. rewrite elem_of_app, list_elem_of_singleton. destruct (decide (k = next_id w)) as [->|Hne].
    + rewrite lookup_insert_eq. split; [by auto|by eauto].
    + rewrite lookup_insert_ne by done. rewrite H1. naive_solver.
  - intros k. destruct (decide (k = next_id w)) as [->|Hne]; [lia|]. rewrite lookup_insert_ne by done. intros Hk.
    specialize (H2 k Hk). lia.
Qed.

Lemma bind_loop_ok ssl addrs : forall w fails w' fails' l,
  ok w -> bind_loop host w ssl addrs fails = Ok (w', fails', l) -> ok w'.
Proof.
  induction addrs as [|[x an] addrs IH]; intros w fails w' fails' l Hok; cbn [bind_loop]; [by intros [= <- <- <-]|].
  destruct (bind_one host ssl x an) as [[r l0]| | | |]; cbn [obind]; try done.
  destruct r as [s|]; (destruct (bind_loop _ _ _ _ _) as [[[w1 f1] l1]| | | |] eqn:E; cbn [obind]; try done);
    intros [= <- <- <-]; (eapply IH; [|exact E]); [by apply push_sock_ok|done].
Qed.

(** What a program does with a server, and the tasks in between.  A [bind] that fails
    comes before the server runs ([TcpServer_bind_orphans]). *)
Inductive server_step : server -> server -> Prop :=
| ss_bind w addrs fails ssl b w' fails' l : TcpServer_bind host w addrs fails ssl = Ok (b, w', fails', l) ->
    b = true \/ acceptors w = [] -> server_step w w'
| ss_start w : server_step w (snd (TcpServer_start w))
| ss_stop w : server_step w (TcpServer_stop w)
| ss_certs w certs : server_step w (snd (load_certificates w (ts_listenSocks (srv w)) certs))
| ss_timeout w v : server_step w (put_srv w (TcpServer_setRecvTimeout (srv w) v))
| ss_task b w w' : task_step host b w w' -> server_step w w'.

Lemma load_certificates_ok certs ids : forall w, ok w -> ok (snd (load_certificates w ids certs)).
Proof.
  induction ids as [|k ids IH]; intros w Hok; cbn [load_certificates]; [done|].
  destruct (heap w !! k) as [[s|s]|] eqn:Ek; [by apply IH| |by apply IH].
  destruct (certs k) as [ctx [[cert key] check]]. destruct (SSLSocket_loadCertificates _ _ _ _ _) as [b s'].
  assert (Hok' : ok (put_heap w (<[k := Secure s']> (heap w)))).
  { apply (same_ok w); [done| |done]. intros j. cbn. destruct (decide (j = k)) as [->|Hne];
      [by rewrite lookup_insert_eq, Ek|by rewrite lookup_insert_ne]. }
  destruct b; [by apply IH|done].
Qed.

Lemma server_step_ok w w' : server_step w w' -> ok w -> ok w'.
Proof.
  intros [w0 addrs fails ssl b w1 fails' l E Hb|w0|w0|w0 certs|w0 v|b w0 w1 [x y c l Hp E|x y i l E|x y i k an l _ _ E|x y i k an l _ _ _ E]] Hok.
  - unfold TcpServer_bind in E. destruct (bind_loop host _ _ _ _) as [[[w2 f2] l2]| | | |] eqn:E2; cbn [obind] in E; try done.
    apply bind_loop_ok in E2; [|by destruct Hok]. destruct f2; [by injection E as <- <- <- <-|].
    destruct (clear_socks w2) as [w3 l3] eqn:E3. injection E as <- <- <- <-. by apply (clear_socks_ok _ _ _ E3).
  - unfold TcpServer_start. destruct (ts_isStop (srv w0)); [|done]. cbn. destruct Hok as [H1 H2]. split; cbn; [|done].
    intros k. rewrite H1, fmap_app, elem_of_app. change (map ?f ?l) with (f <$> l).
    rewrite <- list_fmap_compose, (list_fmap_id (ts_listenSocks (srv w0)) : fst ∘ (fun j => (j, AtTest)) <$> _ = _). tauto.
  - by destruct Hok.
  - by apply load_certificates_ok.
  - by destruct Hok.
  - by apply (stop_task_ok _ _ _ _ Hok E).
  - by apply (accept_test_ok _ _ _ _ Hok E).
  - by apply (accept_return_ok _ _ _ _ _ _ Hok E).
  - by apply (accept_return_ok _ _ _ _ _ _ Hok E).
Qed.

(** What [bind] adds leaves the rest alone. *)
Lemma bind_loop_keeps ssl addrs : forall w fails w' fails' l,
  ok w -> bind_loop host w ssl addrs fails = Ok (w', fails', l) ->
  acceptors w' = acceptors w /\ (forall k, k ∈ ts_listenSocks (srv w) -> k ∈ ts_listenSocks (srv w')) /\
  (forall k, closed w k -> closed w' k) /\ (fails = [] -> addrs = [] -> fails' = []).
Proof.
  induction addrs as [|[x an] addrs IH]; intros w fails w' fails' l Hok; cbn [bind_loop]; [by intros [= <- <- <-]|].
  destruct (bind_one host ssl x an) as [[r l0]| | | |]; cbn [obind]; try done.
  destruct r as [s|]; (destruct (bind_loop _ _ _ _ _) as [[[w1 f1] l1]| | | |] eqn:E; cbn [obind]; try done); intros [= <- <- <-].
  - destruct (IH _ _ _ _ _ (push_sock_ok w s Hok) E) as (H1 & H2 & H3 & _). split_and!; [done| | |done].
    + intros k Hk. apply H2. cbn. apply elem_of_app. by left.
    + intros k (y & Hy & Hc). apply H3. exists y. split; [|done]. cbn. rewrite lookup_insert_ne; [done|].
      pose proof (ok_next _ Hok k ltac:(eauto)). lia.
  - destruct (IH _ _ _ _ _ Hok E) as (H1 & H2 & H3 & _). by split_and!.
Qed.

Lemma load_certificates_keeps certs ids : forall w,
  let w' := snd (load_certificates w ids certs) in
  acceptors w' = acceptors w /\ srv w' = srv w /\ forall k, closed w k -> closed w' k.
Proof.
  induction ids as [|j ids IH]; intros w; cbn [load_certificates]; [done|].
  destruct (heap w !! j) as [[s|s]|] eqn:Ej; [by apply IH| |by apply IH].
  destruct (certs j) as [ctx [[cert key] check]]. destruct (SSLSocket_loadCertificates _ _ _ _ _) as [b s'] eqn:El.
  assert (forall k, closed w k -> closed (put_heap w (<[j := Secure s']> (heap w))) k) as Hk.
  { intros k (y & Hy & Hc). unfold closed. cbn. destruct (decide (k = j)) as [->|Hne]; [|rewrite lookup_insert_ne by done; eauto].
    rewrite lookup_insert_eq. eexists. split; [done|]. cbn. rewrite Ej in Hy. injection Hy as <-. cbn in Hc.
    assert (ssl_base s' = ssl_base s) as -> by (revert El; unfold SSLSocket_loadCertificates; repeat case_match; by intros [= _ <-]). done. }
  destruct b; [|done]. destruct (IH (put_heap w (<[j := Secure s']> (heap w)))) as (H1 & H2 & H3). split_and!; [done|done|auto].
Qed.

Lemma server_step_stoppable w w' : server_step w w' -> ok w -> stoppable w -> stoppable w'.
Proof.
  intros [w0 addrs fails ssl b w1 fails' l E Hb|w0|w0|w0 certs|w0 v|b w0 w1 Ht] Hok Hs.
  - unfold TcpServer_bind in E. destruct (bind_loop host _ _ _ _) as [[[w2 f2] l2]| | | |] eqn:E2; cbn [obind] in E; try done.
    assert (Hok' : ok (put_srv w0 (set_ssl (srv w0) ssl))) by (by destruct Hok).
    pose proof (bind_loop_keeps _ _ _ _ _ _ _ Hok' E2) as (H1 & H2 & H3 & _). cbn in H1, H2.
    destruct f2.
    + injection E as <- <- <- <-. intros k. rewrite H1. intros Hk. destruct (Hs k Hk) as [?|?]; [left; auto|right; auto].
    + destruct (clear_socks w2) as [w3 l3] eqn:E3. injection E as <- <- <- <-. destruct Hb as [[=]|Ha].
      destruct (release_same _ _ _ _ E3) as [Hw _]. intros k. rewrite Hw. cbn. rewrite H1, Ha. by intros ?%not_elem_of_nil.
  - unfold TcpServer_start. destruct (ts_isStop (srv w0)); [|done]. intros k. cbn [negb snd put_acceptors put_srv acceptors srv set_stop ts_listenSocks].
    rewrite fmap_app, elem_of_app. intros [Hk|Hk]; [by apply Hs|left]. apply list_elem_of_fmap in Hk as (y & -> & Hy).
    apply list_elem_of_In, in_map_iff in Hy as (j & <- & Hj). by apply list_elem_of_In.
  - exact Hs.
  - destruct (load_certificates_keeps certs (ts_listenSocks (srv w0)) w0) as (H1 & H2 & H3). intros k. rewrite H1, H2. intros Hk.
    destruct (Hs k Hk) as [?|?]; auto.
  - exact Hs.
  - by eapply task_step_stoppable.
Qed.

Lemma reachable_ok t w : ts_listenSocks t = [] -> rtc server_step (server_new t) w -> ok w /\ stoppable w.
Proof.
  intros Ht H. assert (Hok : ok (server_new t) /\ stoppable (server_new t)).
  { split; [split; cbn; [|by intros k [? ?]]|by intros k ?%not_elem_of_nil]. intros k. rewrite Ht, lookup_empty. split; [by intros [? ?]|set_solver]. }
  clear Ht. induction H as [|x y z Hs _ IH]; [done|]. apply IH. destruct Hok. split; [by eapply server_step_ok|by eapply server_step_stoppable].
Qed.

(** C24: stopping a server ends it.  Whatever was done before (binds, of which none
    failed while the server ran, starts, stops, clients), once [stop] was called and as
    long as nobody calls [start] or [bind] again, the tasks of the server (the posted task
    of [stop] and the accept loops) can make only so many steps, in any order, with any
    clients; as long as something is left they can make one without any client, since the
    task of [stop] closes the sockets whose [accept] would wait; and when nothing is left
    no loop runs, the server has no listening sockets and every listening socket it had
    is gone. *)
Theorem TcpServer_stop_terminates t w0 w n :
  ts_listenSocks t = [] -> rtc server_step (server_new t) w0 ->
  nsteps (any_task host) n (TcpServer_stop w0) w ->
  (n <= S (work w0))%nat /\
  ((exists w', task_step host false w w') \/ (acceptors w = [] /\ ts_listenSocks (srv w) = [] /\ heap w = ∅)).
Proof.
  intros Ht Hr Hn. destruct (reachable_ok _ _ Ht Hr) as [Hok0 Hsp0].
  set (w1 := TcpServer_stop w0) in *. assert (Hok1 : ok w1) by (by destruct Hok0). assert (Hsp1 : stoppable w1) by exact Hsp0.
  assert (Hgo : forall n v, nsteps (any_task host) n v w -> ok v -> stoppable v -> ts_isStop (srv v) = true ->
    ((0 < stop_tasks v)%nat \/ ts_listenSocks (srv v) = []) ->
    (n + work w <= work v)%nat /\ ok w /\ stoppable w /\ ts_isStop (srv w) = true /\ ((0 < stop_tasks w)%nat \/ ts_listenSocks (srv w) = [])).
  { clear Hn. intros m v Hm. induction Hm as [x|m x y z [b Hs] Hm IH]; intros Hok Hsp Hst Hl; [done|].
    destruct (task_step_progress host b x y Hs Hok Hst) as (Hoky & Hsty & Hw & Hd & He).
    destruct IH as (IH1 & IH2); [done|by eapply task_step_stoppable|done| |split; [lia|done]].
    destruct (Nat.lt_trichotomy (stop_tasks y) (stop_tasks x)) as [Hc|[Hc|Hc]]; [right; auto| |left; lia].
    rewrite He by done. destruct Hl; [left; lia|by right]. }
  destruct (Hgo n w1 Hn Hok1 Hsp1 eq_refl) as (Hb & Hok & Hsp & Hst & Hl); [left; cbn; lia|].
  change (work w1) with (S (work w0)) in Hb. split; [lia|]. destruct (decide (0 < work w)%nat) as [Hp|Hp]; [left; by apply work_step|right].
  unfold work in Hp. destruct Hl as [Hl|Hl]; [lia|].
  assert (Ha : acceptors w = []) by (destruct (acceptors w) as [|[k []] a]; [done|cbn in Hp; lia..]).
  split_and!; [done..|]. apply map_eq. intros k. rewrite lookup_empty. apply eq_None_not_Some. rewrite (ok_held _ Hok).
  rewrite Hl, Ha. set_solver.
Qed.

End reachable.

(** ** Descriptors *)

(** The open descriptors [O] are those of the listening sockets and others [F], and
    no two sockets share one. *)
Definition owns (w : server) (O F : gset Z) : Prop := sys_inv (base_of <$> heap w) O F.

Lemma release_owns ids : forall w w' l O F, release w ids = (w', l) -> owns w O F -> kernel_ok O l ->
  exists O', Socket.exec O l = Some O' /\ owns w' O' F.
Proof.
  unfold owns. induction ids as [|k ids IH]; intros w w' l O F E H Hk; cbn [release] in E; [injection E as <- <-; by exists O|].
  destruct (heap w !! k) as [x|] eqn:Ek; [destruct (held w k)|]; [by eapply IH| |by eapply IH].
  destruct (release _ ids) as [w1 l1] eqn:E1. injection E as <- <-.
  destruct (sys_inv_update _ O F k (base_of x) (snd (fst (Socket_close (base_of x)))) (Socket_destroy (base_of x)) H) as (O1 & E2 & _ & Hinv);
    [by rewrite lookup_fmap, Ek|apply conforms_close|by eapply kernel_ok_prefix|].
  destruct (kernel_ok_app _ _ _ _ Hk E2) as [_ Hk2]. specialize (Hinv (own_close _)). rewrite <- fmap_delete in Hinv.
  destruct (IH _ _ _ O1 F E1 Hinv Hk2) as (O2 & E3 & Hinv3).
  exists O2. split; [|done]. by rewrite exec_app, E2.
Qed.

Section binding.
Context (host : Z).

(** Binding one address: the calls are those of one new socket, which owns its
    descriptor if it is kept and nothing otherwise. *)
Lemma bind_one_conforms ssl x an r l : bind_one host ssl x an = Ok (r, l) ->
  exists s', conforms (Socket_CreateTCP x) l s' /\
    match r with Some y => base_of y = s' /\ Socket_isValid s' = true | None => own s' = ∅ end.
Proof.
  unfold bind_one. assert (Eb : base_of (if ssl then Secure (SSLSocket_CreateTCP x) else Plain (Socket_CreateTCP x)) = Socket_CreateTCP x)
    by (by destruct ssl). rewrite Eb.
  destruct (Socket_bind _ _ _ _ _ _ _) as [[[b s] l1]| | | |] eqn:E; cbn [obind]; try done.
  apply conforms_bind in E. destruct b; cbn [negb].
  - assert (Hli : conforms (Socket_CreateTCP x) (l1 ++ snd (Socket_listen s (ba_listen an))) s).
    { eapply conforms_trans; [exact E|]. apply (sock_op_conforms host). constructor. }
    unfold Socket_listen in *. destruct (Socket_isValid s) eqn:Ev; cbn [negb fst snd] in *.
    + destruct (negb (ba_listen an =? 0)); cbn [negb fst snd] in *; intros [= <- <-].
      * eexists. change (?a :: Socket_destroy s) with ([a] ++ Socket_destroy s). rewrite app_assoc.
        split; [eapply conforms_trans; [exact Hli|apply conforms_close]|apply own_close].
      * exists s. split; [done|]. by destruct ssl.
    + intros [= <- <-]. eexists. rewrite app_nil_r in Hli. split; [eapply conforms_trans; [exact Hli|apply conforms_close]|apply own_close].
  - intros [= <- <-]. eexists. split; [eapply conforms_trans; [exact E|apply conforms_close]|apply own_close].
Qed.

(** One more listening socket, or none, among those of the server. *)
Lemma bind_one_owns ssl x an r l w O F : bind_one host ssl x an = Ok (r, l) ->
  ok w -> owns w O F -> kernel_ok O l ->
  exists O', Socket.exec O l = Some O' /\ owns (match r with Some y => push_sock w y | None => w end) O' F /\
    match r with Some y => Socket_isValid (base_of y) = true | None => True end.
Proof.
  intros E Hok H Hk. destruct (bind_one_conforms _ _ _ _ _ E) as (s' & Hc & Hr).
  assert (Hn : (base_of <$> heap w) !! next_id w = None).
  { rewrite lookup_fmap. destruct (heap w !! next_id w) eqn:En; [|done].
    pose proof (ok_next _ Hok (next_id w) ltac:(eauto)). lia. }
  destruct (sys_inv_update (<[next_id w := Socket_CreateTCP x]> (base_of <$> heap w)) O F (next_id w) (Socket_CreateTCP x) s' l)
    as (O' & Ex & Hi & Hd); [by apply sys_inv_new|by rewrite lookup_insert_eq|done|done|].
  exists O'. split; [done|]. unfold owns. destruct r as [y|].
  - destruct Hr as [<- Hv]. rewrite insert_insert_eq in Hi. cbn [push_sock heap]. rewrite fmap_insert. done.
  - specialize (Hd Hr). by rewrite delete_insert_id in Hd.
Qed.

Lemma bind_loop_spec ssl addrs : forall w fails w' fails' l O F,
  bind_loop host w ssl addrs fails = Ok (w', fails', l) -> ok w -> owns w O F -> kernel_ok O l ->
  exists O' new bad, Socket.exec O l = Some O' /\ owns w' O' F /\ fails' = fails ++ bad /\ bad `sublist_of` addrs.*1 /\
    ts_listenSocks (srv w') = ts_listenSocks (srv w) ++ new /\ acceptors w' = acceptors w /\
    (length new + length bad = length addrs)%nat /\
    (forall k, (k < next_id w)%nat -> heap w' !! k = heap w !! k) /\
    Forall (fun k => exists y, heap w' !! k = Some y /\ Socket_isValid (base_of y) = true) new.
Proof.
  induction addrs as [|[x an] addrs IH]; intros w fails w' fails' l O F E Hok H Hk; cbn [bind_loop] in E.
  { injection E as <- <- <-. exists O, [], []. rewrite !app_nil_r. split_and!; try done. }
  destruct (bind_one host ssl x an) as [[r l0]| | | |] eqn:E0; cbn [obind] in E; try done.
  destruct r as [s|]; (destruct (bind_loop _ _ _ _ _) as [[[w1 f1] l1]| | | |] eqn:E1; cbn [obind] in E; try done);
    injection E as <- <- <-;
    (destruct (bind_one_owns _ _ _ _ _ w O F E0 Hok H) as (O1 & Ex1 & Ho1 & Hv); [by eapply kernel_ok_prefix|]);
    destruct (kernel_ok_app _ _ _ _ Hk Ex1) as [_ Hk1].
  - destruct (IH _ _ _ _ _ O1 F E1 (push_sock_ok _ _ Hok) Ho1 Hk1) as (O2 & new & bad & Ex2 & Ho2 & -> & Hb & Hl & Ha & Hn & Hh & Hf).
    exists O2, (next_id w :: new), bad. rewrite exec_app, Ex1. cbn [push_sock srv set_socks ts_listenSocks acceptors] in Hl, Ha.
    rewrite <- app_assoc in Hl. split_and!; try done; [by constructor|cbn; lia| |].
    + intros k Hlt. rewrite Hh by (cbn; lia). cbn. by rewrite lookup_insert_ne by lia.
    + constructor; [|done]. exists s. rewrite Hh by (cbn; lia). cbn. by rewrite lookup_insert_eq.
  - destruct (IH _ _ _ _ _ O1 F E1 Hok Ho1 Hk1) as (O2 & new & bad & Ex2 & Ho2 & -> & Hb & Hl & Ha & Hn & Hh & Hf).
    exists O2, new, (x :: bad). rewrite exec_app, Ex1, <- app_assoc. split_and!; try done; [by constructor|cbn; lia].
Qed.

End binding.

(** [bind] of a list of addresses is all or nothing.  It returns true exactly when
    no address failed (those that did are reported in order); then there is one more
    listening socket per address, each with a valid descriptor, after those the server
    had.  Otherwise the server is left without any listening socket, and every
    descriptor it had or opened is closed, apart from those a running accept loop
    still holds: the descriptors that stay open are exactly those of live sockets and
    [F], whatever the system calls answered on the way. *)
Lemma TcpServer_bind_all_or_nothing host w addrs fails ssl b w' fails' l O F :
  TcpServer_bind host w addrs fails ssl = Ok (b, w', fails', l) -> ok w -> owns w O F -> kernel_ok O l ->
  exists O' bad, Socket.exec O l = Some O' /\ owns w' O' F /\
    fails' = fails ++ bad /\ bad `sublist_of` addrs.*1 /\ acceptors w' = acceptors w /\
    if b then
      fails' = [] /\ exists new, ts_listenSocks (srv w') = ts_listenSocks (srv w) ++ new /\ length new = length addrs /\
        Forall (fun k => exists y, heap w' !! k = Some y /\ Socket_isValid (base_of y) = true) new
    else
      fails' <> [] /\ ts_listenSocks (srv w') = [] /\ (acceptors w = [] -> heap w' = ∅ /\ O' = F).
Proof.
  intros E Hok H Hk. unfold TcpServer_bind in E.
  destruct (bind_loop host _ _ _ _) as [[[w1 f1] l1]| | | |] eqn:E1; cbn [obind] in E; try done.
  assert (Hok0 : ok (put_srv w (set_ssl (srv w) ssl))) by (by destruct Hok).
  assert (Hk1 : kernel_ok O l1).
  { destruct f1; [by injection E as <- <- <- <-|]. destruct (clear_socks w1). injection E as <- <- <- <-. by eapply kernel_ok_prefix. }
  pose proof (bind_loop_ok _ _ _ _ _ _ _ _ Hok0 E1) as Hok1.
  destruct (bind_loop_spec host ssl addrs _ _ _ _ _ O F E1 Hok0 H Hk1)
    as (O1 & new & bad & Ex & Ho & Ef & Hb & Hl & Ha & Hn & _ & Hf).
  destruct f1 as [|f f1].
  - injection E as <- <- <- <-. exists O1, bad. split_and!; try done. exists new.
    symmetry in Ef. apply app_eq_nil in Ef as [_ ->]. split_and!; [done|cbn in Hn; lia|done].
  - destruct (clear_socks w1) as [w2 l2] eqn:E2. injection E as <- <- <- <-.
    destruct (kernel_ok_app _ _ _ _ Hk Ex) as [_ Hk2]. destruct (clear_socks_ok _ _ _ E2 Hok1) as [Hok2 Hs2].
    destruct (release_owns _ _ _ _ O1 F E2 Ho Hk2) as (O2 & Ex2 & Ho2).
    assert (Ha2 : acceptors w2 = acceptors w) by (rewrite Hs2; exact Ha).
    assert (Hl2 : ts_listenSocks (srv w2) = []) by (by rewrite Hs2).
    exists O2, bad. rewrite exec_app, Ex. split_and!; try done. intros Hacc.
    assert (Hh : heap w2 = ∅).
    { apply map_eq. intros k. rewrite lookup_empty. apply eq_None_not_Some. rewrite (ok_held _ Hok2), Hl2, Ha2, Hacc. set_solver. }
    split; [done|]. apply set_eq. intros fd. rewrite (si_open _ _ _ Ho2 fd), Hh, fmap_empty.
    split; [|by right]. intros [(k & s & Hc & _)|Hc]; [by rewrite lookup_empty in Hc|done].
Qed.

(** ** Examples *)

Definition sample_bind (fd ret : Z) : bind_answers :=
  {| ba_fd := fd; ba_ret := ret; ba_name := None; ba_probe := sample_answers; ba_listen := 0 |}.
Definition sample_addr : Address := IPv4Address (in_of 1 []).
Definition sample_server : server := server_new (TcpServer_new None None None 120000).

Lemma sample_ok : ok sample_server.
Proof. split; cbn; [intros k; rewrite lookup_empty; split; [by intros [? ?]|set_solver]|by intros k [? ?]]. Qed.

Lemma sample_owns : owns sample_server ∅ ∅.
Proof.
  unfold owns. cbn. rewrite fmap_empty. split; [set_solver| |intros ????; by rewrite lookup_empty|intros ??; by rewrite lookup_empty].
  intros fd. split; [set_solver|]. intros [(k & s & Hk & _)|Hf]; [by rewrite lookup_empty in Hk|done].
Qed.

(** Two addresses of which the second is in use: the first one is closed again. *)
Lemma TcpServer_bind_all_or_nothing_witness :
  exists w' l,
    TcpServer_bind 1 sample_server [(sample_addr, sample_bind 3 0); (sample_addr, sample_bind 4 (-1))] [] false =
      Ok (false, w', [sample_addr], l) /\
    Socket.exec ∅ l = Some ∅ /\ heap w' = ∅ /\ ts_listenSocks (srv w') = [].
Proof.
  eexists _, _. split; [vm_compute; reflexivity|].
  match goal with |- Socket.exec _ ?l = _ /\ heap ?w = _ /\ _ =>
    destruct (TcpServer_bind_all_or_nothing 1 sample_server [(sample_addr, sample_bind 3 0); (sample_addr, sample_bind 4 (-1))]
      [] false false w [sample_addr] l ∅ ∅) as (O' & bad & Ex & _ & _ & _ & _ & _ & Hl & Hh);
      [vm_compute; reflexivity|exact sample_ok|exact sample_owns|cbn; set_solver|] end.
  destruct (Hh eq_refl) as [Hh1 ->]. done.
Defined.

(** A server that listens on one address and was started. *)
Definition started : server :=
  match TcpServer_bind 1 sample_server [(sample_addr, sample_bind 3 0)] [] false with
  | Ok (_, w, _, _) => snd (TcpServer_start w)
  | _ => sample_server
  end.

Lemma started_reachable : rtc (server_step 1) sample_server started.
Proof.
  unfold started. destruct (TcpServer_bind 1 sample_server _ [] false) as [[[[b w] f] l]| | | |] eqn:E; try apply rtc_refl.
  eapply rtc_l; [by eapply ss_bind; [|right]|]. eapply rtc_l; [apply ss_start|apply rtc_refl].
Qed.

(** Its loop waits in [accept]; [stop] is called and its task runs: the loop can go on. *)
Definition waiting : server := match accept_test started 0 with Some (w, _) => w | None => started end.
Definition stopped : server := fst (fst (stop_task (TcpServer_stop waiting))).

Lemma waiting_reachable : rtc (server_step 1) sample_server waiting.
Proof.
  eapply rtc_r; [exact started_reachable|]. eapply ss_task, (task_test _ _ _ 0). vm_compute. reflexivity.
Qed.

Lemma TcpServer_stop_terminates_witness :
  acceptors waiting = [(0%nat, InAccept)] /\ nsteps (any_task 1) 1 (TcpServer_stop waiting) stopped /\
  (1 <= S (work waiting))%nat /\ exists w', task_step 1 false stopped w'.
Proof.
  assert (Hn : nsteps (any_task 1) 1 (TcpServer_stop waiting) stopped).
  { apply nsteps_once. exists false. destruct (stop_task (TcpServer_stop waiting)) as [[w c] l] eqn:E.
    assert (stopped = w) as -> by (unfold stopped; by rewrite E). eapply task_stop; [vm_compute; lia|exact E]. }
  destruct (TcpServer_stop_terminates 1 (TcpServer_new None None None 120000) waiting stopped 1 eq_refl waiting_reachable Hn)
    as [H1 [H2|(Ha & _)]]; [|vm_compute in Ha; discriminate].
  split; [vm_compute; reflexivity|]. split; [exact Hn|]. split; [exact H1|exact H2].
Defined.

(** A second [bind] that fails while the server runs forgets the sockets of the loops:
    [stop] then closes nothing, and a loop that waits in [accept] stays there until a
    client comes. *)
Lemma TcpServer_bind_orphans :
  exists w' l, TcpServer_bind 1 waiting [(sample_addr, sample_bind 4 (-1))] [] false = Ok (false, w', [sample_addr], l) /\
    let w := fst (fst (stop_task (TcpServer_stop w'))) in
    acceptors w = [(0%nat, InAccept)] /\ stop_tasks w = 0%nat /\ ts_listenSocks (srv w) = [] /\
    (forall x, heap w !! 0%nat = Some x -> m_sockfd (base_of x) = 3) /\ forall w1, ~ task_step 1 false w w1.
Proof.
  eexists _, _. split; [vm_compute; reflexivity|]. cbv zeta.
  match goal with |- acceptors ?w = _ /\ _ => set (v := w) end.
  assert (acceptors v = [(0%nat, InAccept)]) as Ha by (vm_compute; reflexivity).
  assert (stop_tasks v = 0%nat) as Hs by (vm_compute; reflexivity).
  assert ((fun x => m_sockfd (base_of x)) <$> heap v !! 0%nat = Some 3) as Hh by (vm_compute; reflexivity).
  split_and!; [done|done|vm_compute; reflexivity|by intros x Hx; rewrite Hx in Hh; injection Hh|].
  intros w1 Ht. inversion Ht as [? ? c l Hp E|? ? i l E| |? ? i k an l Ei Hc _ E]; simplify_eq.
  - lia.
  - unfold accept_test in E. rewrite Ha in E. by destruct i as [|[|i]].
  - rewrite Ha in Ei. destruct i as [|i]; [|by destruct i]. injection Ei as <-. destruct Hc as (x & Hx & Hd).
    rewrite Hx in Hh. injection Hh as Hh. lia.
Qed.

(** [start] called after [stop] but before the task [stop] posted has run: the task
    closes the listening sockets of the restarted server, whose loops then call
    [accept] on descriptor -1, fail, and call it again, for ever. *)
Definition restarted : server := fst (fst (stop_task (snd (TcpServer_start (TcpServer_stop started))))).

Definition bad_descriptor : accept_answers :=
  {| aa_newsock := -1; aa_ctx := None; aa_name := None; aa_peer := None; aa_ssl := None; aa_handshake := 0 |}.

Lemma TcpServer_restart_spins :
  rtc (server_step 1) sample_server restarted /\
  ts_isStop (srv restarted) = false /\ ts_listenSocks (srv restarted) = [] /\ length (acceptors restarted) = 2%nat /\
  (forall k x, heap restarted !! k = Some x -> m_sockfd (base_of x) = -1) /\
  exists w l1 l2, accept_test restarted 0 = Some (w, l1) /\ accept_return 1 w 0 bad_descriptor = Some (restarted, l2).
Proof.
  split.
  { eapply rtc_trans; [exact started_reachable|]. eapply rtc_l; [apply ss_stop|]. eapply rtc_l; [apply ss_start|].
    destruct (stop_task (snd (TcpServer_start (TcpServer_stop started)))) as [[w c] l] eqn:E.
    assert (restarted = w) as -> by (unfold restarted; by rewrite E).
    eapply rtc_l; [eapply ss_task, task_stop; [vm_compute; lia|exact E]|apply rtc_refl]. }
  split_and!; [reflexivity..| |].
  - intros k x Hk. assert (Hall : map_Forall (fun _ x => m_sockfd (base_of x) = -1) (heap restarted)).
    { apply map_Forall_to_list. vm_compute. by repeat constructor. }
    exact (Hall k x Hk).
  - eexists _, _, _. split; [vm_compute; reflexivity|vm_compute; reflexivity].
Qed.
