(* ===== verification/HttpServer.v ===== *)
(** * HTTP servers ([http/http_server.cc]) and the address of a URI ([uri.rl.cc])

    The server object: a TCP server with a dispatcher, whose [handleClient] is the loop
    of [HttpSession] at the server's own name and flags; and [Uri::createAddress], with
    which clients find the server. *)

From S2P Require Import Prelude Text HttpMessage Ragel HttpParser Stream Servlet HttpSession.
From S2P Require Import Endian Address Uri UriWire TcpServerConf TcpServer.
From Stdlib Require Import ZArith Lia List String.
From stdpp Require Import base tactics list numbers option gmap.

Open Scope Z_scope.
Open Scope list_scope.

Section server.
Context {S : Type} {SO : StreamOps S}.

(** @src http/http_server.h:34-37 HttpServer *)
Record HttpServer := mkHttpServer {
  hs_tcp : TcpServer;
  m_isKeepalive : bool;
  m_dispatch : @ServletDispatch S
}.

Definition set_type (t : TcpServer) (v : bytes) : TcpServer :=
  {| ts_listenSocks := ts_listenSocks t; ts_worker := ts_worker t; ts_ioWorker := ts_ioWorker t;
     ts_acceptWorker := ts_acceptWorker t; ts_recvTimeout := ts_recvTimeout t; ts_name := ts_name t; ts_type := v;
     ts_isStop := ts_isStop t; ts_ssl := ts_ssl t; ts_conf := ts_conf t |}.

(** @src http/http_server.cc:13-25 HttpServer::HttpServer *)
Definition HttpServer_new (keepalive : bool) (worker io_worker accept_worker : option bytes) (timeout : Z) : HttpServer :=
  mkHttpServer (set_type (TcpServer_new worker io_worker accept_worker timeout) (str "http")) keepalive ServletDispatch_new.

(** @src http/http_server.cc:27-30 HttpServer::setName *)
Definition HttpServer_setName (h : HttpServer) (v : bytes) : HttpServer :=
  mkHttpServer (TcpServer_setName (hs_tcp h) v) (m_isKeepalive h)
    (ServletDispatch_setDefault (m_dispatch h) (Some (NotFoundServlet v))).

(** @src http/http_server.h:27-27 HttpServer::setServletDispatch *)
Definition HttpServer_setServletDispatch (h : HttpServer) (v : ServletDispatch) : HttpServer :=
  mkHttpServer (hs_tcp h) (m_isKeepalive h) v.

(** A client of this server. *)
Definition HttpServer_serve (buff_size : Z) (lexical_cast : bytes -> option Z) (fnmatch : bytes -> bytes -> bool)
    (fuel : nat) (h : HttpServer) (st : S) (hs : nat -> http_parser) : outcome S :=
  HttpServer_handleClient buff_size lexical_cast fnmatch fuel st (m_dispatch h) (ts_name (hs_tcp h)) (m_isKeepalive h) hs.

(** The servlets of [FunctionServlet]s, registered for a pattern. *)
(** @src http/servlet.cc:81-83 ServletDispatch::addGlobServlet (FunctionServlet) *)
Definition ServletDispatch_addGlobFunction (d : @ServletDispatch S) (uri : bytes) (cb : handler) : ServletDispatch :=
  ServletDispatch_addGlobServlet d uri (str "FunctionServlet") (Some (HttpServlet cb)).

(** A server named [v] answers a request no servlet is registered for with the page of
    that name and status 404. *)
Lemma named_not_found fnmatch h v req rsp (st : S) :
  m_datas (m_dispatch h) !! q_path req = None ->
  find (fun g => fnmatch (cstr g.1) (cstr (q_path req))) (m_globs (m_dispatch h)) = None ->
  exists rsp', ServletDispatch_handle fnmatch (m_dispatch (HttpServer_setName h v)) req rsp st = Ok (0, req, rsp', st) /\
    p_status rsp' = NOT_FOUND /\ p_body rsp' = not_found_content v.
Proof.
  intros H1 H2. unfold ServletDispatch_handle, ServletDispatch_getMatchedServlet. cbn [HttpServer_setName m_dispatch].
  cbn [ServletDispatch_setDefault m_datas m_globs m_default]. rewrite H1, H2. cbn [Servlet_handle NotFoundServlet obind]. by eexists.
Qed.

(** ** Where it falls short *)

(** A default servlet set by the program is lost when the server gets its name. *)
Lemma setName_drops_default h slt v :
  m_default (m_dispatch (HttpServer_setName (HttpServer_setServletDispatch h (ServletDispatch_setDefault (m_dispatch h) slt)) v)) =
  Some (NotFoundServlet v).
Proof. reflexivity. Qed.

(** The page for a missing resource carries a fixed [Server] header instead of the name
    of the server, which the loop had put there. *)
Lemma not_found_renames_server name req rsp (st : S) :
  exists rsp', Servlet_handle (NotFoundServlet name) req rsp st = Ok (0, req, rsp', st) /\
    HttpResponse_getHeader rsp' (str "Server") [] = str "IOCoroutineScheduler/1.0.0".
Proof.
  eexists. split; [reflexivity|]. unfold HttpResponse_getHeader. cbn [p_headers HttpResponse_setBody].
  unfold HttpResponse_setHeader. cbn [p_headers HttpResponse_setHeaders]. by rewrite !smap_find_set.
Qed.

End server.

(** ** The address of a URI *)

Section address.
Context (host : Z) (getaddrinfo : option bytes -> option bytes -> addrinfo -> Z + list (option bytes)).

(** [setPort] of an [IPAddress] takes a [uint16_t]. *)
Definition IPAddress_setPort (a : Address) (v : Z) : Address :=
  match a with
  | IPv4Address a => IPv4Address (IPv4Address_setPort host a v)
  | IPv6Address a => IPv6Address (IPv6Address_setPort host a v)
  | a => a
  end.

Definition IPAddress_port (a : Address) : option Z :=
  match a with
  | IPv4Address a => Some (IPv4Address_getPort host a)
  | IPv6Address a => Some (IPv6Address_getPort host a)
  | _ => None
  end.

(** @src uri.rl.cc:10978-10984 Uri::createAddress *)
Definition Uri_createAddress (u : Uri) : outcome (option Address) :=
  let! addr := Address_LookupAnyIPAddress host getaddrinfo (u_host u) AF_INET 0 0 in
  Ok (match addr with Some a => Some (IPAddress_setPort a (u16 (Uri_getPort u))) | None => None end).

(** The address found for a URI is an IP address with the URI's port, reduced to 16
    bits. *)
Lemma Uri_createAddress_port u a : Uri_createAddress u = Ok (Some a) -> IPAddress_port a = Some (u16 (Uri_getPort u)).
Proof.
  unfold Uri_createAddress, Address_LookupAnyIPAddress. destruct (Address_Lookup _ _ _ _ _ _ _) as [[found l]| | | |]; try done.
  cbn [obind]. destruct found; cbn [obind]; [|done]. destruct (find is_ip l) as [x|] eqn:E; [|done].
  apply find_some in E as [_ E]. pose proof (uwrap_range 16 (Uri_getPort u)) as Hr.
  destruct x as [[y|y| |]|]; try done; intros [= <-]; cbn; f_equal; apply byteswapOnLittleEndian_twice; lia.
Qed.

End address.

(** A port over 65535 is not refused: this URI leads to port 80. *)
Lemma createAddress_wraps_port :
  let inet (_ _ : option bytes) (_ : addrinfo) : Z + list (option bytes) := inr [Some (mem_in BIN_LITTLE_ENDIAN (mkIn AF_INET 0 0 (replicate 8 0)))] in
  exists u a, Uri_Create (str "http://h:65616/") = Ok (Some u) /\ Uri_getPort u = 65616 /\
    Uri_createAddress BIN_LITTLE_ENDIAN inet u = Ok (Some a) /\ IPAddress_port BIN_LITTLE_ENDIAN a = Some 80.
Proof.
  exists (mkUri (str "http") [] (str "h") (str "/") [] [] 65616), (IPv4Address (mkIn AF_INET 0x5000 0 (replicate 8 0))).
  split_and!; vm_compute; reflexivity.
Qed.
