(* ===== verification/ZlibStream.v ===== *)
(** * Compression streams ([streams/zlib_stream.cc])

    [ZlibStream] drives zlib's [deflate] and [inflate] and collects their output in a
    list of buffers of a fixed size.  zlib is behind the interface [Zlib], and
    [ZCall] is what its manual says of one call: it moves input to output until one
    of the two runs out.  Proved: whatever the size of the buffers and however the
    data are cut into writes, the loops end, the collected output of an encoder
    decodes to exactly what was written, and a decoder gives it back. *)

From S2P Require Import Prelude Endian ByteArray ByteArraySpec SocketStream.
From Stdlib Require Import ZArith Lia List.
From stdpp Require Import base tactics list numbers option.

Open Scope Z_scope.
Open Scope list_scope.

Definition Z_OK : Z := 0.
Definition Z_STREAM_ERROR : Z := -2.
Definition Z_DATA_ERROR : Z := -3.
Definition Z_NO_FLUSH : Z := 0.
Definition Z_FINISH : Z := 4.
Definition DEFAULT_COMPRESSION : Z := -1.

(** A call on the stream with a flush value, the input at [next_in] and the room at
    [next_out]: what it returns, how much input it took and the output it stored. *)
Definition zcall (Zs : Type) : Type := Zs -> Z -> bytes -> Z -> Z * nat * bytes * Zs.

Class Zlib (Zs : Type) := {
  z_deflateInit2 : Z -> Z -> Z -> Z -> Z * Zs;
  z_inflateInit2 : Z -> Z * Zs;
  z_deflate : zcall Zs;
  z_inflate : zcall Zs;
  z_deflateEnd : Zs -> Zs;
  z_inflateEnd : Zs -> Zs
}.

(** @src streams/zlib_stream.h:18-22 ZlibStream::Type *)
Inductive ZType := ZLIB | DEFLATE | GZIP.

(** @src streams/zlib_stream.h:73-77 ZlibStream
    A buffer is its filled part, [iov_len] bytes of the [m_buffSize] allocated. *)
Record ZlibStream (Zs : Type) := mkZlibStream {
  m_zstream : Zs;
  m_buffSize : Z;
  m_encode : bool;
  m_free : bool;
  m_buffs : list bytes
}.
Arguments mkZlibStream {Zs}.
Arguments m_zstream {Zs}.
Arguments m_buffSize {Zs}.
Arguments m_encode {Zs}.
Arguments m_free {Zs}.
Arguments m_buffs {Zs}.

Section operations.
Context {Zs : Type} {ZL : Zlib Zs}.
Implicit Types s : ZlibStream Zs.

Definition put_z s (z : Zs) (bufs : list bytes) : ZlibStream Zs :=
  mkZlibStream z (m_buffSize s) (m_encode s) (m_free s) bufs.

(** @src streams/zlib_stream.h:58-58 ZlibStream::setFree *)
Definition ZlibStream_setFree s (v : bool) : ZlibStream Zs :=
  mkZlibStream (m_zstream s) (m_buffSize s) (m_encode s) v (m_buffs s).

(** @src streams/zlib_stream.h:61-61 ZlibStream::setEndcode *)
Definition ZlibStream_setEndcode s (v : bool) : ZlibStream Zs :=
  mkZlibStream (m_zstream s) (m_buffSize s) v (m_free s) (m_buffs s).

(** @src streams/zlib_stream.cc:27-31 ZlibStream::ZlibStream
    [raw]: the [z_stream] before [init] sets it up. *)
Definition ZlibStream_new (encode : bool) (buff_size : Z) (raw : Zs) : ZlibStream Zs :=
  mkZlibStream raw buff_size encode true [].

(** @src streams/zlib_stream.cc:80-110 ZlibStream::init *)
Definition ZlibStream_init s (type : ZType) (level window_bits memlevel strategy : Z) : outcome (Z * ZlibStream Zs) :=
  assertb ((0 <=? level) && (level <=? 9) || (level =? DEFAULT_COMPRESSION)) (
  assertb ((8 <=? window_bits) && (window_bits <=? 15)) (
  assertb ((1 <=? memlevel) && (memlevel <=? 9)) (
  let window_bits :=
    match type with DEFLATE => - window_bits | GZIP => window_bits + 16 | ZLIB => window_bits end in
  let '(ret, z) :=
    if m_encode s then z_deflateInit2 level window_bits memlevel strategy else z_inflateInit2 window_bits in
  Ok (ret, put_z s z (m_buffs s))))).

(** @src streams/zlib_stream.cc:18-25 ZlibStream::Create *)
Definition ZlibStream_Create (encode : bool) (buff_size : Z) (type : ZType) (level window_bits memlevel strategy : Z)
    (raw : Zs) : outcome (option (ZlibStream Zs)) :=
  let! (ret, rt) := ZlibStream_init (ZlibStream_new encode buff_size raw) type level window_bits memlevel strategy in
  Ok (if ret =? Z_OK then Some rt else None).

(** @src streams/zlib_stream.cc:6-8 ZlibStream::CreateGzip *)
Definition ZlibStream_CreateGzip (encode : bool) (buff_size : Z) (raw : Zs) : outcome (option (ZlibStream Zs)) :=
  ZlibStream_Create encode buff_size GZIP DEFAULT_COMPRESSION 15 8 0 raw.
(** @src streams/zlib_stream.cc:10-12 ZlibStream::CreateZlib *)
Definition ZlibStream_CreateZlib (encode : bool) (buff_size : Z) (raw : Zs) : outcome (option (ZlibStream Zs)) :=
  ZlibStream_Create encode buff_size ZLIB DEFAULT_COMPRESSION 15 8 0 raw.
(** @src streams/zlib_stream.cc:14-16 ZlibStream::CreateDeflate *)
Definition ZlibStream_CreateDeflate (encode : bool) (buff_size : Z) (raw : Zs) : outcome (option (ZlibStream Zs)) :=
  ZlibStream_Create encode buff_size DEFLATE DEFAULT_COMPRESSION 15 8 0 raw.

(** @src streams/zlib_stream.cc:33-45 ZlibStream::~ZlibStream
    The buffers given back to the allocator and the [z_stream] after it. *)
Definition ZlibStream_destroy s : list bytes * Zs :=
  (if m_free s then m_buffs s else [],
   if m_encode s then z_deflateEnd (m_zstream s) else z_inflateEnd (m_zstream s)).

(** @src streams/zlib_stream.cc:47-53 ZlibStream::read *)
Definition ZlibStream_read s (length : Z) : outcome (Z * bytes) := Throw logic_error.

(** The buffer to fill and those before it: the last one while it has room, else a
    new one. *)
(** @src streams/zlib_stream.cc:123-131 ZlibStream::encode *)
Definition current_buffer s : list bytes * bytes :=
  match list.last (m_buffs s) with
  | Some b => if zlen b =? m_buffSize s then (m_buffs s, []) else (removelast (m_buffs s), b)
  | None => ([], [])
  end.

(** @src streams/zlib_stream.cc:121-142 ZlibStream::encode
    The [do] loop for one piece of input: [Some ret] leaves the function. *)
Fixpoint zlib_loop (call : zcall Zs) (fuel : nat) s (flush : Z) (input : bytes) : outcome (option Z * ZlibStream Zs) :=
  match fuel with
  | O => NoFuel
  | S fuel =>
    let '(front, ivc) := current_buffer s in
    let avail := u32 (m_buffSize s - zlen ivc) in
    let '(ret, taken, out, z) := call (m_zstream s) flush input avail in
    if ret =? Z_STREAM_ERROR then Ok (Some ret, put_z s z (front ++ [ivc]))
    else
      let s := put_z s z (front ++ [ivc ++ out]) in
      if avail - zlen out =? 0 then zlib_loop call fuel s flush (drop taken input) else Ok (None, s)
  end.

(** [avail_in] has 32 bits. *)
Definition avail_in (v : bytes) : bytes := take (Z.to_nat (u32 (zlen v))) v.

(** The [for] loop over the pieces; [finish] only goes to the last one. *)
Fixpoint zlib_for (call : zcall Zs) (fuel : nat) s (v : list bytes) (finish : bool) : outcome (option Z * ZlibStream Zs) :=
  match v with
  | [] => Ok (None, s)
  | piece :: rest =>
    let flush := if finish then (match rest with [] => Z_FINISH | _ => Z_NO_FLUSH end) else Z_NO_FLUSH in
    let! (r, s) := zlib_loop call fuel s flush (avail_in piece) in
    match r with Some ret => Ok (Some ret, s) | None => zlib_for call fuel s rest finish end
  end.

(** [flush] after the loop is that of the last piece. *)
Definition ended (v : list bytes) (finish : bool) : bool := finish && negb (match v with [] => true | _ => false end).

(** @src streams/zlib_stream.cc:112-147 ZlibStream::encode *)
Definition ZlibStream_encode (fuel : nat) s (v : list bytes) (finish : bool) : outcome (Z * ZlibStream Zs) :=
  let! (r, s) := zlib_for z_deflate fuel s v finish in
  match r with
  | Some ret => Ok (ret, s)
  | None => Ok (Z_OK, if ended v finish then put_z s (z_deflateEnd (m_zstream s)) (m_buffs s) else s)
  end.

(** @src streams/zlib_stream.cc:149-185 ZlibStream::decode *)
Definition ZlibStream_decode (fuel : nat) s (v : list bytes) (finish : bool) : outcome (Z * ZlibStream Zs) :=
  let! (r, s) := zlib_for z_inflate fuel s v finish in
  match r with
  | Some ret => Ok (ret, s)
  | None => Ok (Z_OK, if ended v finish then put_z s (z_inflateEnd (m_zstream s)) (m_buffs s) else s)
  end.

(** @src streams/zlib_stream.cc:55-64 ZlibStream::write *)
Definition ZlibStream_write (fuel : nat) s (buffer : bytes) : outcome (Z * ZlibStream Zs) :=
  if m_encode s then ZlibStream_encode fuel s [buffer] false else ZlibStream_decode fuel s [buffer] false.

(** The bytes each [iovec] points at. *)
Fixpoint pieces (ns : list bytes) (iovs : list iovec) : outcome (list bytes) :=
  match iovs with
  | [] => Ok []
  | v :: rest =>
    deref (ns !! iov_node v) (fun node =>
    let! d := memcpy_from node (iov_off v) (iov_len v) in
    let! ds := pieces ns rest in
    Ok (d :: ds))
  end.

(** @src streams/zlib_stream.cc:66-74 ZlibStream::write
    The position of the array stays where it is. *)
Definition ZlibStream_write_ba (fuel : nat) s (ba : ByteArray) (length : Z) : outcome (Z * ZlibStream Zs) :=
  let! (_, iovs) := ByteArray_getReadBuffers ba length in
  first_of iovs (
  let! v := pieces (m_nodes ba) iovs in
  if m_encode s then ZlibStream_encode fuel s v false else ZlibStream_decode fuel s v false).

(** @src streams/zlib_stream.cc:187-197 ZlibStream::flush *)
Definition ZlibStream_flush (fuel : nat) s : outcome (Z * ZlibStream Zs) :=
  if m_encode s then ZlibStream_encode fuel s [[]] true else ZlibStream_decode fuel s [[]] true.

(** @src streams/zlib_stream.cc:76-78 ZlibStream::close *)
Definition ZlibStream_close (fuel : nat) s : outcome (ZlibStream Zs) :=
  let! (_, s) := ZlibStream_flush fuel s in Ok s.

(** @src streams/zlib_stream.cc:199-205 ZlibStream::getResult *)
Definition ZlibStream_getResult s : bytes := concat (m_buffs s).

(** @src streams/zlib_stream.cc:207-214 ZlibStream::getByteArray *)
Definition ZlibStream_getByteArray (junk : nat -> nat -> Z) s : outcome ByteArray :=
  let! ba := foldl (fun r b => let! ba := r in ByteArray_write junk ba b) (Ok (ByteArray_new junk 4096)) (m_buffs s) in
  ByteArray_setPosition ba 0.

End operations.

(** ** What zlib promises *)

(** A call with room for output moves data until the input or the room is used up;
    what has been taken and given so far is [zrep]; [zleft] bounds the output still
    to come.  [done]: when everything was taken with [Z_FINISH], the output is
    complete for the input. *)
Record ZCall {Zs : Type} (call : zcall Zs) (valid : bytes -> Prop) (done : bytes -> bytes -> Prop) := {
  zrep : Zs -> bytes -> bytes -> Prop;
  zleft : Zs -> bytes -> nat;
  zcall_ok z i o flush input avail : zrep z i o -> valid (i ++ input) -> 0 < avail ->
    exists ret taken out z', call z flush input avail = (ret, taken, out, z') /\
      ret <> Z_STREAM_ERROR /\ (taken <= length input)%nat /\ zlen out <= avail /\
      zrep z' (i ++ take taken input) (o ++ out) /\
      (length out + zleft z' (drop taken input) <= zleft z input)%nat /\
      (zlen out < avail -> taken = length input /\ (flush = Z_FINISH -> done (i ++ input) (o ++ out)))
}.
Arguments zrep {Zs call valid done}.
Arguments zleft {Zs call valid done}.
Arguments zcall_ok {Zs call valid done}.

(** The arguments [windowBits] for which [deflateInit2] and [inflateInit2] agree: 9 to 15,
    their negatives for raw deflate, and 16 more for gzip.  With 8 zlib compresses with a
    window of 9 bits, which a decompressor told 8 refuses. *)
Definition z_window (w : Z) : Prop := 9 <= w <= 15 \/ -15 <= w <= -9 \/ 25 <= w <= 31.

(** [z_decodes w c d]: with window bits [w], [c] is a complete compressed form of
    [d]. *)
Class ZlibSpec (Zs : Type) `{Zlib Zs} := {
  z_decodes : Z -> bytes -> bytes -> Prop;
  enc_call (w : Z) : ZCall z_deflate (fun _ => True) (fun i o => z_decodes w o i);
  dec_call (w : Z) (c d : bytes) : z_decodes w c d ->
    ZCall z_inflate (fun i => i `prefix_of` c) (fun i o => i = c -> o = d);
  enc_init level w memlevel strategy z : z_window w ->
    z_deflateInit2 level w memlevel strategy = (Z_OK, z) -> zrep (enc_call w) z [] [];
  dec_init w c d (H : z_decodes w c d) z : z_window w -> z_inflateInit2 w = (Z_OK, z) -> zrep (dec_call w c d H) z [] []
}.

(** ** The buffers *)

(** Every buffer but the last one is full. *)
Definition filled (size : Z) (bufs : list bytes) : Prop :=
  bufs = [] \/ exists front b, bufs = front ++ [b] /\ Forall (fun x => zlen x = size) front /\ zlen b <= size.

Section proofs.
Context {Zs : Type} {ZL : Zlib Zs}.
Implicit Types s : ZlibStream Zs.

Lemma current_buffer_spec s : 0 < m_buffSize s -> filled (m_buffSize s) (m_buffs s) ->
  exists front ivc, current_buffer s = (front, ivc) /\ concat (m_buffs s) = concat front ++ ivc /\
    Forall (fun x => zlen x = m_buffSize s) front /\ 0 <= zlen ivc < m_buffSize s.
Proof.
  intros Hs Hf. unfold current_buffer. destruct Hf as [->|(front & b & -> & Hfr & Hb)].
  { exists [], []. split_and!; try done; try (cbn; lia). }
  rewrite last_snoc, removelast_last. destruct (Z.eqb_spec (zlen b) (m_buffSize s)) as [E|E].
  - exists (front ++ [b]), []. rewrite app_nil_r. split_and!; try done; try (cbn; lia).
    apply Forall_app. split; [done|by constructor].
  - exists front, b. rewrite concat_app. cbn. rewrite app_nil_r. split_and!; try done; unfold zlen in *; lia.
Qed.

Section call.
Context {call : zcall Zs} {valid : bytes -> Prop} {done : bytes -> bytes -> Prop} (C : ZCall call valid done).

Lemma zlib_loop_ok flush n : forall s i o input,
  (zleft C (m_zstream s) input <= n)%nat -> 0 < m_buffSize s < 2 ^ 32 -> filled (m_buffSize s) (m_buffs s) ->
  zrep C (m_zstream s) i o -> valid (i ++ input) ->
  exists z' bufs' out, (forall fuel, (n < fuel)%nat -> zlib_loop call fuel s flush input = Ok (None, put_z s z' bufs')) /\
    filled (m_buffSize s) bufs' /\ concat bufs' = concat (m_buffs s) ++ out /\
    zrep C z' (i ++ input) (o ++ out) /\ (flush = Z_FINISH -> done (i ++ input) (o ++ out)).
Proof.
  induction n as [n IH] using lt_wf_ind. intros s i o input Hn Hs Hf Hr Hv.
  destruct (current_buffer_spec s) as (front & ivc & Ec & Hc & Hfr & Hi); [lia|done|].
  set (avail := u32 (m_buffSize s - zlen ivc)).
  assert (Ha : avail = m_buffSize s - zlen ivc) by (unfold avail; apply uwrap_small; lia).
  destruct (zcall_ok C _ i o flush input avail Hr Hv) as (ret & k & out & z' & E & Hret & Hk & Ho & Hr' & Hl & Hd); [lia|].
  assert (Hfill : filled (m_buffSize s) (front ++ [ivc ++ out])).
  { right. exists front, (ivc ++ out). split_and!; [done..|]. unfold zlen in *. rewrite length_app. lia. }
  assert (Hcc : concat (front ++ [ivc ++ out]) = concat (m_buffs s) ++ out)
    by (rewrite concat_app, Hc; cbn; by rewrite app_nil_r, app_assoc).
  destruct (Z.eqb_spec (avail - zlen out) 0) as [E0|E0].
  - destruct (IH (zleft C z' (drop k input))) with (s := put_z s z' (front ++ [ivc ++ out])) (i := i ++ take k input)
      (o := o ++ out) (input := drop k input) as (z2 & b2 & out2 & Hrun & Hf2 & Hc2 & Hr2 & Hd2);
      [unfold zlen in *; lia|done..|by rewrite <- app_assoc, take_drop|].
    exists z2, b2, (out ++ out2). rewrite <- app_assoc, take_drop, <- app_assoc in Hr2, Hd2.
    cbn [put_z m_buffs] in Hc2. split_and!; [|done|by rewrite Hc2, Hcc, app_assoc|done|done].
    intros [|fuel] Hfuel; [lia|]. cbn [zlib_loop]. rewrite Ec. fold avail. rewrite E.
    rewrite (proj2 (Z.eqb_neq ret Z_STREAM_ERROR) Hret), (proj2 (Z.eqb_eq _ _) E0).
    apply Hrun. unfold zlen in *. lia.
  - destruct Hd as [-> Hd]; [lia|]. exists z', (front ++ [ivc ++ out]), out.
    rewrite firstn_all in Hr'. split_and!; try done.
    intros [|fuel] Hfuel; [lia|]. cbn [zlib_loop]. rewrite Ec. fold avail. rewrite E.
    by rewrite (proj2 (Z.eqb_neq ret Z_STREAM_ERROR) Hret), (proj2 (Z.eqb_neq _ _) E0).
Qed.

Lemma avail_in_small v : zlen v < 2 ^ 32 -> avail_in v = v.
Proof. intros H. unfold avail_in. rewrite uwrap_small by (unfold zlen in *; lia). apply take_ge. unfold zlen. lia. Qed.

(** The pieces one after the other. *)
Lemma zlib_for_ok finish v : forall s i o,
  Forall (fun b => zlen b < 2 ^ 32) v -> 0 < m_buffSize s < 2 ^ 32 -> filled (m_buffSize s) (m_buffs s) ->
  zrep C (m_zstream s) i o -> (forall w, w `prefix_of` concat v -> valid (i ++ w)) ->
  exists n z' bufs' out, (forall fuel, (n < fuel)%nat -> zlib_for call fuel s v finish = Ok (None, put_z s z' bufs')) /\
    filled (m_buffSize s) bufs' /\ concat bufs' = concat (m_buffs s) ++ out /\
    zrep C z' (i ++ concat v) (o ++ out) /\ (ended v finish = true -> done (i ++ concat v) (o ++ out)).
Proof.
  induction v as [|b v IH]; intros s i o Hb Hs Hf Hr Hv.
  { exists 0%nat, (m_zstream s), (m_buffs s), []. cbn. rewrite !app_nil_r. split_and!; [by destruct s|done..|].
    unfold ended. by rewrite andb_false_r. }
  inversion Hb as [|? ? Hb1 Hb2]; subst. cbn [concat] in *.
  set (flush := if finish then match v with [] => Z_FINISH | _ => Z_NO_FLUSH end else Z_NO_FLUSH).
  destruct (zlib_loop_ok flush (zleft C (m_zstream s) b) s i o b) as (z1 & b1 & out1 & Hrun & Hf1 & Hc1 & Hr1 & Hd1);
    [done..|apply Hv; by apply prefix_app_r|].
  destruct (IH (put_z s z1 b1) (i ++ b) (o ++ out1)) as (n & z2 & b2 & out2 & Hrun2 & Hf2 & Hc2 & Hr2 & Hd2);
    [done..| |].
  { intros w Hw. rewrite <- app_assoc. apply Hv. by apply prefix_app. }
  rewrite <- !app_assoc in Hr2, Hd2. cbn [put_z m_buffs] in Hc2.
  exists (zleft C (m_zstream s) b + n)%nat, z2, b2, (out1 ++ out2).
  split_and!; [|done|by rewrite Hc2, Hc1, app_assoc|done|].
  - intros fuel Hfuel. cbn [zlib_for]. fold flush. rewrite avail_in_small, Hrun by (done || lia). cbn [obind].
    rewrite Hrun2 by lia. done.
  - intros He. destruct v as [|b' v]; [|apply Hd2; unfold ended in *; by destruct finish].
    unfold ended in He. destruct finish; [|done]. cbn in Hc2 |- *.
    assert (put_z (put_z s z1 b1) z2 b2 = put_z s z1 b1) as [= -> ->].
    { specialize (Hrun2 (S n) ltac:(lia)). cbn in Hrun2. by simplify_eq. }
    assert (out2 = []) as -> by (eapply app_inv_head; by rewrite app_nil_r).
    rewrite !app_nil_r. by apply Hd1.
Qed.

End call.

(** ** Writing in pieces, then flushing *)

(** A sequence of [write]s and a [flush]; whether all of them returned [Z_OK]. *)
Fixpoint ZlibStream_feed (fuel : nat) s (bs : list bytes) : outcome (bool * ZlibStream Zs) :=
  match bs with
  | [] => let! (r, s) := ZlibStream_flush fuel s in Ok (r =? Z_OK, s)
  | b :: bs =>
    let! (r, s) := ZlibStream_write fuel s b in
    let! (ok, s) := ZlibStream_feed fuel s bs in Ok ((r =? Z_OK) && ok, s)
  end.

(** What the compressing and the decompressing branch share. *)
Definition the_call s : zcall Zs := if m_encode s then z_deflate else z_inflate.
Definition the_end s : Zs -> Zs := if m_encode s then z_deflateEnd else z_inflateEnd.

Lemma run_pieces fuel s v finish s' : zlib_for (the_call s) fuel s v finish = Ok (None, s') ->
  (if m_encode s then ZlibStream_encode fuel s v finish else ZlibStream_decode fuel s v finish) =
  Ok (Z_OK, if ended v finish then put_z s' (the_end s (m_zstream s')) (m_buffs s') else s').
Proof. unfold the_call, the_end, ZlibStream_encode, ZlibStream_decode. by destruct (m_encode s); intros ->. Qed.

Lemma ZlibStream_feed_ok (enc : bool) {valid done} (C : ZCall (Zs := Zs) (if enc then z_deflate else z_inflate) valid done) (bs : list bytes) : forall s i o,
  m_encode s = enc -> Forall (fun b => zlen b < 2 ^ 32) bs -> 0 < m_buffSize s < 2 ^ 32 ->
  filled (m_buffSize s) (m_buffs s) -> zrep C (m_zstream s) i o -> (forall w, w `prefix_of` concat bs -> valid (i ++ w)) ->
  exists n s' out, (forall fuel, (n < fuel)%nat -> ZlibStream_feed fuel s bs = Ok (true, s')) /\
    filled (m_buffSize s) (m_buffs s') /\ ZlibStream_getResult s' = ZlibStream_getResult s ++ out /\
    done (i ++ concat bs) (o ++ out).
Proof.
  induction bs as [|b bs IH]; intros s i o He Hb Hs Hf Hr Hv.
  - destruct (zlib_for_ok C true [[]] s i o) as (n & z & bufs & out & Hrun & Hf1 & Hc1 & Hr1 & Hd1); try done.
    { by repeat constructor. }
    exists n, (put_z s (the_end s z) bufs), out. split_and!; [|done|done|by apply Hd1].
    intros fuel Hn. cbn [ZlibStream_feed]. unfold ZlibStream_flush.
    rewrite (run_pieces fuel s [[]] true (put_z s z bufs)) by (unfold the_call; rewrite He; by apply Hrun). done.
  - inversion Hb as [|? ? Hb1 Hb2]; subst. cbn [concat] in *.
    destruct (zlib_for_ok C false [b] s i o) as (n & z & bufs & out & Hrun & Hf1 & Hc1 & Hr1 & _); try done.
    { by repeat constructor. }
    { intros w Hw. cbn in Hw. rewrite app_nil_r in Hw. apply Hv. by apply prefix_app_r. }
    cbn [concat] in Hr1. rewrite app_nil_r in Hr1.
    destruct (IH (put_z s z bufs) (i ++ b) (o ++ out)) as (n2 & s2 & out2 & Hrun2 & Hf2 & Hc2 & Hd2); [done..| |].
    { intros w Hw. rewrite <- app_assoc. apply Hv. by apply prefix_app. }
    rewrite <- !app_assoc in Hd2. exists (n + n2)%nat, s2, (out ++ out2). split_and!; [|done| |done].
    + intros fuel Hn. cbn [ZlibStream_feed]. unfold ZlibStream_write.
      rewrite (run_pieces fuel s [b] false (put_z s z bufs)) by (unfold the_call; apply Hrun; lia). cbn [obind ended andb].
      rewrite Hrun2 by lia. done.
    + unfold ZlibStream_getResult in *. cbn [put_z m_buffs] in Hc2. by rewrite Hc2, Hc1, app_assoc.
Qed.

End proofs.

(** The window bits [init] passes on. *)
Definition window_arg (type : ZType) (window_bits : Z) : Z :=
  match type with DEFLATE => - window_bits | GZIP => window_bits + 16 | ZLIB => window_bits end.

Lemma ZlibStream_Create_inv {Zs} `{ZL : Zlib Zs} encode buff_size type level w memlevel strategy (raw : Zs) s :
  ZlibStream_Create encode buff_size type level w memlevel strategy raw = Ok (Some s) ->
  exists z, s = mkZlibStream z buff_size encode true [] /\
    (if encode then z_deflateInit2 level (window_arg type w) memlevel strategy else z_inflateInit2 (window_arg type w)) = (Z_OK, z).
Proof.
  unfold ZlibStream_Create, ZlibStream_init, assertb, ZlibStream_new. cbn [m_encode].
  destruct (_ || _); [|done]. destruct (_ && _); [|done]. destruct (_ && _); [|done].
  fold (window_arg type w). destruct (if encode then _ else _) as [ret z] eqn:E. cbn [obind].
  destruct (Z.eqb_spec ret Z_OK) as [->|]; [|done]. intros [= <-]. by exists z.
Qed.

(** [init] has checked the rest of the range. *)
Lemma window_arg_ok {Zs} `{Zlib Zs} encode size type level w memlevel strategy (raw : Zs) s :
  9 <= w -> ZlibStream_Create encode size type level w memlevel strategy raw = Ok (Some s) -> z_window (window_arg type w).
Proof.
  intros Hw. unfold ZlibStream_Create, ZlibStream_init, assertb. destruct (_ || _); [|done].
  destruct ((8 <=? w) && (w <=? 15)) eqn:E; [|done]. intros _. unfold z_window, window_arg. apply andb_true_iff in E as [_ E%Z.leb_le].
  destruct type; lia.
Qed.

(** C25: compression is lossless through the stream, whatever the cuts, for buffers of
    at least one byte ([ZlibStream_no_room]: with size 0 the loop does not end), pieces of
    less than 2^32 bytes and window bits from 9 to 15 (of the 8 to 15 [init] admits): the
    pieces written to a compressing stream and flushed all return [Z_OK],
    the loops end, and what [getResult] collects is a complete compressed form of
    the pieces put together; and that, cut in any other way and written to a
    decompressing stream of the same type with buffers of any other such size, comes out
    of its [getResult] as exactly the data written.  In both, every buffer but the
    last is full.  What is assumed of zlib itself is [ZlibSpec]. *)
Theorem ZlibStream_roundtrip {Zs : Type} `{ZlibSpec Zs} type level w memlevel strategy strategy' size1 size2 (raw : Zs)
    (enc dec : ZlibStream Zs) (bs : list bytes) :
  ZlibStream_Create true size1 type level w memlevel strategy raw = Ok (Some enc) ->
  ZlibStream_Create false size2 type level w memlevel strategy' raw = Ok (Some dec) ->
  9 <= w -> 0 < size1 < 2 ^ 32 -> 0 < size2 < 2 ^ 32 -> Forall (fun b => zlen b < 2 ^ 32) bs ->
  exists n enc', (forall fuel, (n < fuel)%nat -> ZlibStream_feed fuel enc bs = Ok (true, enc')) /\
    z_decodes (window_arg type w) (ZlibStream_getResult enc') (concat bs) /\ filled size1 (m_buffs enc') /\
    forall ps, concat ps = ZlibStream_getResult enc' -> Forall (fun b => zlen b < 2 ^ 32) ps ->
      exists n' dec', (forall fuel, (n' < fuel)%nat -> ZlibStream_feed fuel dec ps = Ok (true, dec')) /\
        ZlibStream_getResult dec' = concat bs /\ filled size2 (m_buffs dec').
Proof.
  intros Ee Ed Hw H1 H2 Hb. assert (z_window (window_arg type w)) as Hwin by (by eapply window_arg_ok).
  apply ZlibStream_Create_inv in Ee as (ze & -> & Ie). apply ZlibStream_Create_inv in Ed as (zd & -> & Id).
  destruct (ZlibStream_feed_ok true (enc_call (window_arg type w)) bs (mkZlibStream ze size1 true true []) [] [])
    as (n & enc' & out & Hrun & Hf & Hres & Hd); try done; [by left|by apply (enc_init level _ memlevel strategy)|].
  cbn in Hres, Hd. exists n, enc'. rewrite Hres. split_and!; [done..|]. intros ps Hps Hb2.
  destruct (ZlibStream_feed_ok false (dec_call _ _ _ Hd) ps (mkZlibStream zd size2 false true []) [] [])
    as (n' & dec' & out' & Hrun' & Hf' & Hres' & Hd'); try done; [by left|by apply dec_init|by rewrite Hps|].
  exists n', dec'. split_and!; [done| |done]. rewrite Hres'. by apply Hd'.
Qed.

(** ** A codec that stores *)

(** The state tells whether the stream ended. *)
Definition stored_call : zcall bool := fun z flush input avail =>
  if z then (Z_STREAM_ERROR, 0%nat, [], z)
  else let k := Nat.min (Z.to_nat avail) (length input) in (Z_OK, k, take k input, z).

#[global] Instance stored : Zlib bool := {|
  z_deflateInit2 _ _ _ _ := (Z_OK, false); z_inflateInit2 _ := (Z_OK, false);
  z_deflate := stored_call; z_inflate := stored_call; z_deflateEnd _ := true; z_inflateEnd _ := true
|}.

Definition stored_ok (valid : bytes -> Prop) (done : bytes -> bytes -> Prop) (Hd : forall i, done i i) :
  ZCall stored_call valid done.
Proof.
  refine {| zrep z i o := z = false /\ o = i; zleft z input := length input |}.
  intros z i o flush input avail [-> ->] _ Ha. eexists _, _, _, _. split; [reflexivity|].
  unfold zlen. rewrite length_take, length_drop. split_and!; try done; try lia. intros Hlt.
  rewrite take_ge by lia. split; [lia|done].
Defined.

#[global] Instance stored_spec : ZlibSpec bool.
Proof.
  refine {| z_decodes w c d := c = d; enc_call w := stored_ok _ (fun i o => o = i) (fun i => eq_refl);
            dec_call w c d E := stored_ok _ (fun i o => i = c -> o = d) (fun i Hi => eq_trans Hi E) |}.
  - by intros level w memlevel strategy z _ [= <-].
  - by intros w c d E z _ [= <-].
Defined.

Lemma ZlibStream_roundtrip_witness :
  exists n enc',
    (forall fuel, (n < fuel)%nat -> ZlibStream_feed fuel (mkZlibStream false 2 true true []) [[1; 2; 3]; []; [4; 5]] = Ok (true, enc')) /\
    ZlibStream_getResult enc' = [1; 2; 3; 4; 5] /\ filled 2 (m_buffs enc') /\
    forall ps, concat ps = ZlibStream_getResult enc' -> Forall (fun b => zlen b < 2 ^ 32) ps ->
      exists n' dec', (forall fuel, (n' < fuel)%nat -> ZlibStream_feed fuel (mkZlibStream false 3 false true []) ps = Ok (true, dec')) /\
        ZlibStream_getResult dec' = [1; 2; 3; 4; 5] /\ filled 3 (m_buffs dec').
Proof.
  exact (ZlibStream_roundtrip GZIP DEFAULT_COMPRESSION 15 8 0 0 2 3 false _ _ [[1; 2; 3]; []; [4; 5]] eq_refl eq_refl
    ltac:(lia) ltac:(lia) ltac:(lia) ltac:(repeat constructor)).
Defined.

Example ZlibStream_feed_stored :
  ZlibStream_feed 5 (mkZlibStream false 2 true true []) [[1; 2; 3]; []; [4; 5]] =
  Ok (true, mkZlibStream true 2 true true [[1; 2]; [3; 4]; [5]]).
Proof. reflexivity. Qed.

(** ** The result as an array *)

Lemma write_all junk bufs : forall ba,
  wf ba -> room ba (zlen (concat bufs)) ->
  exists ba', foldl (fun r b => let! ba := r in ByteArray_write junk ba b) (Ok ba) bufs = Ok ba' /\ wrote ba ba' (concat bufs).
Proof.
  induction bufs as [|b bufs IH]; intros ba W Hr; cbn [foldl concat] in *; [eauto using wrote_refl|].
  unfold room, zlen in Hr. rewrite length_app in Hr.
  destruct (write_wrote junk ba b W) as (ba1 & E & Hw); [unfold room, zlen; lia|]. cbn [obind]. rewrite E.
  destruct (IH ba1 (wrote_wf _ _ _ Hw)) as (ba2 & E2 & Hw2).
  { unfold room, zlen. rewrite (wrote_position _ _ _ Hw), (wrote_base _ _ _ Hw). unfold zlen. lia. }
  exists ba2. split; [done|]. by apply (wrote_trans _ ba1).
Qed.

(** [getByteArray] holds what [getResult] returns, to be read from its beginning. *)
Lemma ZlibStream_getByteArray_ok {Zs} junk (s : ZlibStream Zs) :
  zlen (ZlibStream_getResult s) <= 2 ^ 52 ->
  exists ba, ZlibStream_getByteArray junk s = Ok ba /\ wf ba /\ m_position ba = 0 /\ contents ba = ZlibStream_getResult s.
Proof.
  intros Hl. destruct (new_wf junk 4096) as [W Hc]; [unfold SIZE_LIMIT; lia|].
  destruct (write_all junk (m_buffs s) (ByteArray_new junk 4096) W) as (ba & E & Hw).
  { unfold room, ZlibStream_getResult, SIZE_LIMIT in *. cbn [m_position m_baseSize ByteArray_new]. lia. }
  unfold ZlibStream_getByteArray. rewrite E. cbn [obind].
  pose proof (wf_position _ (wrote_wf _ _ _ Hw)). destruct (setPosition_within ba 0 (wrote_wf _ _ _ Hw)) as (ba' & -> & W' & P & C & _); [lia|].
  exists ba'. split_and!; [done..|]. rewrite C, (wrote_contents _ _ _ Hw), Hc. unfold ZlibStream_getResult, splice.
  cbn. by rewrite drop_nil, app_nil_r.
Qed.

(** ** Where the stream falls short *)

(** Buffers of size 0: zlib makes no progress without room, and the loop allocates
    empty buffers for ever. *)
Lemma ZlibStream_no_room {Zs} `{ZL : Zlib Zs} (call : zcall Zs) flush input fuel : forall (s : ZlibStream Zs),
  m_buffSize s = 0 -> Forall (fun b => b = []) (m_buffs s) ->
  (forall z, exists ret, call z flush input 0 = (ret, 0%nat, [], z) /\ ret <> Z_STREAM_ERROR) ->
  zlib_loop call fuel s flush input = NoFuel.
Proof.
  induction fuel as [|fuel IH]; intros s Hs Hb Hc; [done|]. cbn [zlib_loop].
  assert (current_buffer s = (m_buffs s, [])) as ->.
  { unfold current_buffer. destruct (m_buffs s) as [|b0 l] eqn:E using rev_ind; [done|].
    rewrite last_snoc. apply Forall_app in Hb as [_ Hb]. inversion Hb; subst. by rewrite Hs. }
  rewrite Hs. change (u32 (0 - zlen [])) with 0. destruct (Hc (m_zstream s)) as (ret & -> & Hr).
  rewrite (proj2 (Z.eqb_neq _ _) Hr). cbn [app zlen length]. change (0 - Z.of_nat 0 =? 0) with true. cbv iota.
  apply IH; [done| |done]. cbn. apply Forall_app. split; [done|by constructor].
Qed.

(** Corrupt input: [decode] only looks for [Z_STREAM_ERROR], so that [Z_DATA_ERROR]
    from [inflate] is reported as [Z_OK]. *)
Lemma ZlibStream_data_error_ok {Zs} `{ZL : Zlib Zs} (z z' : Zs) size b k out :
  0 < size < 2 ^ 32 -> zlen b < 2 ^ 32 -> zlen out < size ->
  z_inflate z Z_NO_FLUSH b size = (Z_DATA_ERROR, k, out, z') ->
  ZlibStream_write 1 (mkZlibStream z size false true []) b = Ok (Z_OK, mkZlibStream z' size false true [out]).
Proof.
  intros Hs Hb Ho E. unfold ZlibStream_write, ZlibStream_decode. cbn [m_encode zlib_for].
  rewrite avail_in_small by done. cbn [zlib_loop]. unfold current_buffer. cbn [m_buffs list.last m_buffSize]. change (zlen []) with 0.
  rewrite Z.sub_0_r, uwrap_small by lia. cbn [m_zstream]. rewrite E. cbn [Z.eqb].
  rewrite (proj2 (Z.eqb_neq (size - zlen out) 0)) by lia. done.
Qed.
