(* ===== verification/SessionData.v ===== *)
(** * Sessions of HTTP clients ([http/session_data.cc], [http/session_data.h])

    [SessionData], a map from names to values of any type ([boost::any]) with the time
    of its last access, and [SessionDataManager], which shares sessions by their
    identifiers and drops the idle ones.  Sessions are shared pointers, so they live in
    a heap.  The manager is proved to implement a map whose idle entries expire, with
    the wrap-around of [check]'s limit, and the race between [check] and [get] is
    exhibited. *)

From S2P Require Import Prelude Text.
From Stdlib Require Import ZArith Lia List String.
From stdpp Require Import base tactics list numbers option gmap.

Open Scope Z_scope.
Open Scope list_scope.

(** ** boost::any *)

Section any.
(** The types values have, and the values of each. *)
Context {ty : Type} `{EqDecision ty} (val : ty -> Type).

Definition any : Type := sigT val.

(** [boost::any_cast<T>]: [None] when it throws [bad_any_cast]. *)
Definition any_cast (t : ty) (v : any) : option (val t) :=
  match decide (projT1 v = t) with
  | left e => Some (eq_rect (projT1 v) val (projT2 v) t e)
  | right _ => None
  end.

Lemma any_cast_same t (x : val t) : any_cast t (existT t x) = Some x.
Proof.
  unfold any_cast. cbn. destruct (decide (t = t)) as [e|]; [|done]. f_equal.
  by rewrite (proof_irrel e eq_refl).
Qed.

Lemma any_cast_other t t' (x : val t') : t' <> t -> any_cast t (existT t' x) = None.
Proof. intros Hne. unfold any_cast. cbn. by destruct (decide (t' = t)). Qed.

(** ** SessionData *)

(** @src http/session_data.h:49-51 SessionData *)
Record SessionData := mkSession { m_datas : gmap bytes any; m_lastAccessTime : Z; m_id : bytes }.

(** @src http/session_data.cc:7-14 SessionData::SessionData
    [now]: [time(0)]; [us]: [GetCurrentUS()]; [r1], [r2], [r3]: [rand()]; [md5] is the
    function of [hash_util.cc]. *)
Definition SessionData_new (md5 : bytes -> bytes) (auto_gen : bool) (now us r1 r2 r3 : Z) : SessionData :=
  mkSession ∅ now (if auto_gen then md5 (dec us ++ str "|" ++ dec r1 ++ str "|" ++ dec r2 ++ str "|" ++ dec r3) else []).

(** @src http/session_data.h:17-21 SessionData::setData *)
Definition SessionData_setData (s : SessionData) (key : bytes) (t : ty) (v : val t) : SessionData :=
  mkSession (<[key := existT t v]> (m_datas s)) (m_lastAccessTime s) (m_id s).

(** @src http/session_data.h:23-37 SessionData::getData *)
Definition SessionData_getData (s : SessionData) (key : bytes) (t : ty) (def : val t) : val t :=
  match m_datas s !! key with
  | None => def
  | Some v => default def (any_cast t v)
  end.

(** @src http/session_data.cc:16-19 SessionData::del *)
Definition SessionData_del (s : SessionData) (key : bytes) : SessionData :=
  mkSession (delete key (m_datas s)) (m_lastAccessTime s) (m_id s).

(** @src http/session_data.cc:21-25 SessionData::has *)
Definition SessionData_has (s : SessionData) (key : bytes) : bool :=
  match m_datas s !! key with Some _ => true | None => false end.

(** @src http/session_data.h:43-43 SessionData::setLastAccessTime *)
Definition SessionData_setLastAccessTime (s : SessionData) (v : Z) : SessionData := mkSession (m_datas s) v (m_id s).

(** @src http/session_data.h:46-46 SessionData::setId *)
Definition SessionData_setId (s : SessionData) (v : bytes) : SessionData := mkSession (m_datas s) (m_lastAccessTime s) v.

(** ** SessionDataManager *)

(** The sessions that exist and, under each identifier, the one the manager holds. *)
(** @src http/session_data.h:62-62 SessionDataManager *)
Record sessions := mkSessions { objs : gmap nat SessionData; sm_datas : gmap bytes nat }.

Definition put_objs (w : sessions) (o : gmap nat SessionData) : sessions := mkSessions o (sm_datas w).
Definition put_datas (w : sessions) (d : gmap bytes nat) : sessions := mkSessions (objs w) d.

(** @src http/session_data.cc:27-30 SessionDataManager::add *)
Definition SessionDataManager_add (w : sessions) (info : option nat) : outcome sessions :=
  deref info (fun p => deref (objs w !! p) (fun s => Ok (put_datas w (<[m_id s := p]> (sm_datas w))))).

(** @src http/session_data.cc:32-40 SessionDataManager::get *)
Definition SessionDataManager_get (w : sessions) (id : bytes) (now : Z) : outcome (option nat * sessions) :=
  match sm_datas w !! id with
  | None => Ok (None, w)
  | Some p => deref (objs w !! p) (fun s =>
      Ok (Some p, put_objs w (<[p := SessionData_setLastAccessTime s now]> (objs w))))
  end.

(** @src http/session_data.cc:57-60 SessionDataManager::del *)
Definition SessionDataManager_del (w : sessions) (id : bytes) : sessions := put_datas w (delete id (sm_datas w)).

(** Whether the session at [p] was last used before [limit]. *)
Definition stale (w : sessions) (limit : Z) (p : nat) : bool :=
  match objs w !! p with Some s => m_lastAccessTime s <? limit | None => false end.

(** The scan under the read lock. *)
(** @src http/session_data.cc:43-50 SessionDataManager::check *)
Definition check_scan (w : sessions) (now ts : Z) : list bytes :=
  let limit := u64 (now - ts) in
  (filter (fun kp => stale w limit (snd kp) = true) (map_to_list (sm_datas w))).*1.

(** [now]: [time(0)]; [time(0) - ts] is a subtraction of signed 64-bit numbers. *)
(** @src http/session_data.cc:42-55 SessionDataManager::check *)
Definition SessionDataManager_check (w : sessions) (now ts : Z) : outcome sessions :=
  if (- 2 ^ 63 <=? now - ts) && (now - ts <? 2 ^ 63)
  then Ok (foldl SessionDataManager_del w (check_scan w now ts))
  else UB.

(** ** Values keep their types *)

(** A value is read back at the type it was stored with; at another type, or under a
    name that has none, the default comes back; other names are not touched. *)
Lemma SessionData_typed s key t (v : val t) t' (def : val t') key' :
  SessionData_getData (SessionData_setData s key t v) key t v = v /\
  (t <> t' -> SessionData_getData (SessionData_setData s key t v) key t' def = def) /\
  (key' <> key -> SessionData_getData (SessionData_setData s key t v) key' t' def = SessionData_getData s key' t' def) /\
  SessionData_getData (SessionData_del s key) key t' def = def.
Proof.
  unfold SessionData_getData, SessionData_setData, SessionData_del. cbn. rewrite lookup_insert_eq, lookup_delete_eq.
  split_and!; [by rewrite any_cast_same|intros Hne; by rewrite any_cast_other|intros Hne; by rewrite lookup_insert_ne|done].
Qed.

(** ** The manager as a map that expires *)

(** What a program does with the manager and with the sessions it shares, at given
    times. *)
Inductive sm_op :=
| OpAdd (p : nat) | OpGet (id : bytes) (now : Z) | OpDel (id : bytes) | OpCheck (now ts : Z)
| OpSetId (p : nat) (id : bytes) | OpSetLastAccessTime (p : nat) (v : Z).

(** A member function called through a pointer to a session. *)
Definition on_session (w : sessions) (p : nat) (f : SessionData -> SessionData) : outcome sessions :=
  deref (objs w !! p) (fun s => Ok (put_objs w (<[p := f s]> (objs w)))).

Definition sm_exec (w : sessions) (o : sm_op) : outcome (option nat * sessions) :=
  match o with
  | OpAdd p => let! w := SessionDataManager_add w (Some p) in Ok (None, w)
  | OpGet id now => SessionDataManager_get w id now
  | OpDel id => Ok (None, SessionDataManager_del w id)
  | OpCheck now ts => let! w := SessionDataManager_check w now ts in Ok (None, w)
  | OpSetId p id => let! w := on_session w p (fun s => SessionData_setId s id) in Ok (None, w)
  | OpSetLastAccessTime p v => let! w := on_session w p (fun s => SessionData_setLastAccessTime s v) in Ok (None, w)
  end.

(** The session [p] was used at [now], under whatever identifiers it is. *)
Definition touch (p : nat) (now : Z) (m : gmap bytes (nat * Z)) : gmap bytes (nat * Z) :=
  (fun e => if decide (fst e = p) then (p, now) else e) <$> m.

(** What [check] takes for too old: a last use more than [ts] seconds ago, or, for a
    [ts] that reaches back before the epoch, any time below the limit wrapped to
    64 bits. *)
Definition expired (now ts t : Z) : bool :=
  if ts <=? now then t <? now - ts else t <? 2 ^ 64 - (ts - now).

(** The abstract manager: the sessions by identifier with the time each was last used. *)
Definition spec_step (m : gmap bytes (nat * Z)) (o : sm_op) (w : sessions) : option nat * gmap bytes (nat * Z) :=
  match o with
  | OpAdd p => (None, match objs w !! p with Some s => <[m_id s := (p, m_lastAccessTime s)]> m | None => m end)
  | OpGet id now => match m !! id with Some (p, _) => (Some p, touch p now m) | None => (None, m) end
  | OpDel id => (None, delete id m)
  | OpCheck now ts => (None, filter (fun kv => expired now ts (snd (snd kv)) = false) m)
  | OpSetId _ _ => (None, m)
  | OpSetLastAccessTime p v => (None, touch p v m)
  end.

(** Every entry points to a session. *)
Definition held (w : sessions) : Prop := forall id p, sm_datas w !! id = Some p -> is_Some (objs w !! p).

Definition abs_sessions (w : sessions) : gmap bytes (nat * Z) :=
  omap (fun p => (fun s => (p, m_lastAccessTime s)) <$> objs w !! p) (sm_datas w).

Lemma abs_lookup w id : abs_sessions w !! id = (p ← sm_datas w !! id; (fun s => (p, m_lastAccessTime s)) <$> objs w !! p).
Proof. unfold abs_sessions. by rewrite lookup_omap. Qed.

Lemma check_datas keys : forall w, foldl SessionDataManager_del w keys = put_datas w (foldl (fun m k => delete k m) (sm_datas w) keys).
Proof. induction keys as [|k keys IH]; intros w; cbn; [by destruct w|]. by rewrite IH. Qed.

Lemma delete_keys (keys : list bytes) : forall (m : gmap bytes nat) id,
  foldl (fun m k => delete k m) m keys !! id = if bool_decide (id ∈ keys) then None else m !! id.
Proof.
  induction keys as [|k keys IH]; intros m id; cbn [foldl]; [by rewrite bool_decide_eq_false_2 by set_solver|].
  rewrite IH. destruct (decide (id = k)) as [->|Hne].
  - rewrite lookup_delete_eq, (bool_decide_eq_true_2 (k ∈ k :: keys)) by set_solver. by case_bool_decide.
  - rewrite lookup_delete_ne by done. by rewrite (bool_decide_ext (id ∈ k :: keys) (id ∈ keys)) by set_solver.
Qed.

(** After [check] an entry is there exactly when it was and is not stale. *)
Lemma check_lookup w now ts id : sm_datas (foldl SessionDataManager_del w (check_scan w now ts)) !! id =
  (p ← sm_datas w !! id; if stale w (u64 (now - ts)) p then None else Some p).
Proof.
  rewrite check_datas. cbn. rewrite delete_keys. unfold check_scan.
  destruct (sm_datas w !! id) as [p|] eqn:E; cbn [mbind option_bind].
  - rewrite (bool_decide_ext _ (stale w (u64 (now - ts)) p = true)); [by destruct (stale _ _ p)|].
    rewrite list_elem_of_fmap. split.
    + intros ([k q] & -> & Hf). apply list_elem_of_filter in Hf as [Hs Hm]. apply elem_of_map_to_list in Hm.
      cbn in *. by simplify_eq.
    + intros Hs. exists (id, p). split; [done|]. apply list_elem_of_filter. split; [done|]. by apply elem_of_map_to_list.
  - by destruct (bool_decide _).
Qed.

(** Pointers are not null and point to sessions; the clock and [ts] are [int64_t]s, the
    clock not before the epoch. *)
Definition op_fine (w : sessions) (o : sm_op) : Prop :=
  match o with
  | OpAdd p | OpSetId p _ | OpSetLastAccessTime p _ => is_Some (objs w !! p)
  | OpCheck now ts => 0 <= now < 2 ^ 63 /\ - 2 ^ 63 <= ts < 2 ^ 63
  | _ => True
  end.

(** The difference [check] computes is no [int64_t]. *)
Definition overflows (o : sm_op) : Prop :=
  match o with OpCheck now ts => 2 ^ 63 <= now - ts | _ => False end.

Lemma limit_expired now ts t : 0 <= now < 2 ^ 63 -> - 2 ^ 63 <= ts < 2 ^ 63 -> now - ts < 2 ^ 63 ->
  (t <? u64 (now - ts)) = expired now ts t.
Proof.
  intros Hn Ht Hd. unfold expired. destruct (Z.leb_spec ts now).
  - by rewrite uwrap_small by lia.
  - f_equal. unfold u64, uwrap. rewrite <- (Z_mod_plus_full _ 1), Z.mod_small; lia.
Qed.

Lemma check_refines w now ts : held w -> op_fine w (OpCheck now ts) -> now - ts < 2 ^ 63 ->
  exists w', SessionDataManager_check w now ts = Ok w' /\ held w' /\ objs w' = objs w /\
    abs_sessions w' = filter (fun kv => expired now ts (snd (snd kv)) = false) (abs_sessions w).
Proof.
  intros Hi [Hn Ht] Hd. unfold SessionDataManager_check.
  rewrite (proj2 (Z.leb_le _ _)), (proj2 (Z.ltb_lt _ _)) by lia. eexists. split; [done|].
  assert (Hl := check_lookup w now ts). set (w' := foldl _ _ _) in *.
  assert (Ho : objs w' = objs w) by (unfold w'; by rewrite check_datas). split_and!; [|done|].
  - intros id p. rewrite Hl, Ho. destruct (sm_datas w !! id) as [q|] eqn:E; cbn; [|done].
    destruct (stale w _ q); [done|]. intros [= <-]. by eapply Hi.
  - apply map_eq. intros id. apply option_eq. intros [p t]. rewrite map_lookup_filter_Some, !abs_lookup, Hl, Ho.
    destruct (sm_datas w !! id) as [q|]; cbn; [|naive_solver]. unfold stale. destruct (objs w !! q) as [s|] eqn:Es; cbn.
    + rewrite limit_expired by done. destruct (expired now ts (m_lastAccessTime s)) eqn:Ee; cbn; [|rewrite Es; cbn]; split.
      * done.
      * intros [[= <- <-] Hle]. cbn in Hle. congruence.
      * intros [= <- <-]. cbn. by rewrite Ee.
      * by intros [[= <- <-] _].
    + rewrite Es. naive_solver.
Qed.

(** A change of one session under the entries. *)
Lemma on_session_refines w p s f : objs w !! p = Some s -> held w ->
  let w' := put_objs w (<[p := f s]> (objs w)) in
  held w' /\ abs_sessions w' = touch p (m_lastAccessTime (f s)) (abs_sessions w) /\
  (forall q, is_Some (objs w' !! q) <-> is_Some (objs w !! q)).
Proof.
  intros Es Hi. cbn zeta.
  assert (Hk : forall q, is_Some (objs (put_objs w (<[p := f s]> (objs w))) !! q) <-> is_Some (objs w !! q)).
  { intros q. cbn. destruct (decide (q = p)) as [->|Hne]; [by rewrite lookup_insert_eq, Es|by rewrite lookup_insert_ne]. }
  split_and!; [intros id q Hq; apply Hk; by eapply Hi| |done].
  apply map_eq. intros id. unfold touch. rewrite lookup_fmap, !abs_lookup. cbn.
  destruct (sm_datas w !! id) as [q|] eqn:E; cbn; [|done]. destruct (decide (q = p)) as [->|Hne].
  - rewrite lookup_insert_eq, Es. cbn. by rewrite decide_True.
  - rewrite lookup_insert_ne by done. destruct (objs w !! q); cbn; [|done]. by rewrite decide_False.
Qed.

Lemma touch_same w p s : objs w !! p = Some s -> touch p (m_lastAccessTime s) (abs_sessions w) = abs_sessions w.
Proof.
  intros Es. apply map_eq. intros id. unfold touch. rewrite lookup_fmap, abs_lookup.
  destruct (sm_datas w !! id) as [q|]; cbn; [|done]. destruct (objs w !! q) as [s'|] eqn:E; cbn; [|done].
  destruct (decide (q = p)) as [->|]; [|done]. by simplify_eq.
Qed.

(** C36: The manager of sessions implements a map whose idle entries expire.  For every
    operation on the manager or on a session it holds (a changed identifier included),
    through pointers to existing sessions: it returns, no entry is left without its
    session and no session changes beyond the operation's own assignment; [add] enters
    the session under its present identifier; [get] gives the session stored under the
    identifier and makes it as fresh as now, under every identifier it is stored;
    [check(ts)] removes exactly the expired entries and keeps every other one.  Expired
    means not used for more than [ts] seconds when [ts] is at most the present time;
    for a greater [ts] the limit wraps to [2^64 - (ts - now)], which is later than any
    real time.  The one exception: [check] with a [ts] so far below zero that
    [time(0) - ts] overflows [int64_t], which is undefined. *)
Theorem SessionDataManager_refines w o : held w -> op_fine w o ->
  match sm_exec w o with
  | Ok (r, w') => ~ overflows o /\ held w' /\ spec_step (abs_sessions w) o w = (r, abs_sessions w') /\
      (forall p, is_Some (objs w' !! p) <-> is_Some (objs w !! p))
  | UB => overflows o
  | _ => False
  end.
Proof.
  intros Hi Hf. destruct o as [p|id now|id|now ts|p id|p v]; cbn [sm_exec spec_step overflows] in *.
  - destruct Hf as [s Es]. unfold SessionDataManager_add. cbn [deref]. rewrite Es. cbn [deref obind].
    split_and!; [tauto| |f_equal|done].
    + intros id q. cbn. intros Hq. apply lookup_insert_Some in Hq as [[<- <-]|[_ Hq]]; [by eexists|by eapply Hi].
    + apply map_eq. intros id. rewrite abs_lookup. cbn. destruct (decide (id = m_id s)) as [->|Hne].
      * rewrite !lookup_insert_eq. cbn. by rewrite Es.
      * by rewrite !lookup_insert_ne, abs_lookup.
  - unfold SessionDataManager_get. rewrite abs_lookup. destruct (sm_datas w !! id) as [p|] eqn:E; cbn; [|split_and!; [tauto|done..]].
    destruct (Hi id p E) as [s Es]. rewrite Es. cbn.
    destruct (on_session_refines w p s (fun s => SessionData_setLastAccessTime s now) Es Hi) as (H1 & H2 & H3).
    split_and!; [tauto|done|f_equal; symmetry; exact H2|done].
  - split_and!; [tauto| |f_equal|done].
    + intros id' p. cbn. rewrite lookup_delete_Some. intros [_ Hp]. by eapply Hi.
    + apply map_eq. intros id'. rewrite abs_lookup. cbn. destruct (decide (id' = id)) as [->|Hne].
      * by rewrite !lookup_delete_eq.
      * by rewrite !lookup_delete_ne, abs_lookup.
  - destruct (Z.lt_ge_cases (now - ts) (2 ^ 63)) as [Hd|Hd].
    + destruct (check_refines w now ts Hi Hf Hd) as (w' & -> & H1 & H2 & H3). cbn [obind].
      split_and!; [lia|done|by rewrite H3|by rewrite H2].
    + unfold SessionDataManager_check. rewrite (proj2 (Z.ltb_ge (now - ts) _)), andb_false_r by lia. exact Hd.
  - destruct Hf as [s Es]. unfold on_session. rewrite Es. cbn [deref obind].
    destruct (on_session_refines w p s (fun s => SessionData_setId s id) Es Hi) as (H1 & H2 & H3).
    split_and!; [tauto|done|rewrite H2; cbn [SessionData_setId m_lastAccessTime]; by rewrite touch_same|done].
  - destruct Hf as [s Es]. unfold on_session. rewrite Es. cbn [deref obind].
    destruct (on_session_refines w p s (fun s => SessionData_setLastAccessTime s v) Es Hi) as (H1 & H2 & H3).
    split_and!; [tauto|done|by rewrite H2|done].
Qed.

(** With a [ts] beyond the present time nothing can be idle for so long, but [check]
    removes every session that was last used at a time of the clock. *)
Lemma check_future_removes_all w now ts : 0 <= now < ts -> ts < 2 ^ 63 ->
  (forall p s, objs w !! p = Some s -> m_lastAccessTime s < 2 ^ 63) -> held w ->
  exists w', SessionDataManager_check w now ts = Ok w' /\ sm_datas w' = ∅.
Proof.
  intros Hn Ht Hs Hi. unfold SessionDataManager_check.
  rewrite (proj2 (Z.leb_le _ _)), (proj2 (Z.ltb_lt _ _)) by lia. eexists. split; [done|].
  apply map_eq. intros id. rewrite check_lookup, lookup_empty.
  destruct (sm_datas w !! id) as [p|] eqn:E; cbn; [|done]. destruct (Hi id p E) as [s Es].
  unfold stale. rewrite Es, limit_expired by lia. unfold expired. rewrite (proj2 (Z.leb_gt ts now)) by lia.
  specialize (Hs p s Es). by rewrite (proj2 (Z.ltb_lt _ _)) by lia.
Qed.

(** [check] scans under the read lock and deletes afterwards: a session that is used
    in between is deleted all the same, fresh as it is. *)
Lemma check_get_race w id p s now ts : sm_datas w !! id = Some p -> objs w !! p = Some s ->
  m_lastAccessTime s < now - ts -> 0 <= now - ts < 2 ^ 64 ->
  exists w1, SessionDataManager_get w id now = Ok (Some p, w1) /\ stale w1 (u64 (now - ts)) p = (now <? now - ts) /\
    sm_datas (foldl SessionDataManager_del w1 (check_scan w now ts)) !! id = None.
Proof.
  intros E Es Hlt Ht. unfold SessionDataManager_get. rewrite E. rewrite Es. cbn [deref]. eexists. split; [done|]. split.
  - unfold stale. cbn. rewrite lookup_insert_eq, uwrap_small by lia. done.
  - rewrite check_datas. cbn. rewrite delete_keys, bool_decide_eq_true_2; [done|]. unfold check_scan.
    apply list_elem_of_fmap. exists (id, p). split; [done|]. apply list_elem_of_filter. split; [|by apply elem_of_map_to_list].
    cbn. unfold stale. rewrite Es, uwrap_small by lia. by apply Z.ltb_lt.
Qed.

End any.

(** ** An example *)

(** Two sessions, last used at times 100 and 5000, checked at 6000. *)
Definition sample_sessions : sessions (fun _ : unit => Z) :=
  mkSessions _ {[0%nat := mkSession _ ∅ 100 (str "a"); 1%nat := mkSession _ ∅ 5000 (str "b")]} {[str "a" := 0%nat; str "b" := 1%nat]}.

(** An hour of idleness drops the first session. *)
Lemma SessionDataManager_refines_witness :
  match sm_exec _ sample_sessions (OpCheck 6000 3600) with
  | Ok (r, w') => ~ overflows (OpCheck 6000 3600) /\ held _ w' /\
      spec_step _ (abs_sessions _ sample_sessions) (OpCheck 6000 3600) sample_sessions = (r, abs_sessions _ w') /\
      (forall p, is_Some (objs _ w' !! p) <-> is_Some (objs _ sample_sessions !! p))
  | UB => overflows (OpCheck 6000 3600)
  | _ => False
  end.
Proof.
  apply (SessionDataManager_refines (fun _ : unit => Z) sample_sessions (OpCheck 6000 3600)); [|cbn; lia].
  intros id p Hp. cbn in Hp. apply lookup_insert_Some in Hp as [[<- <-]|[_ Hp]]; [by eexists|].
  apply lookup_singleton_Some in Hp as [<- <-]. by eexists.
Defined.
