(* ===== verification/Env.v ===== *)
(** * The environment of the program ([env.cc])

    [Env]: the command line, the help texts, environment variables and paths.  The
    parser of the command line is proved against a grammar: it accepts exactly the
    lines that are sequences of options, each with or without a value, and the
    options can be looked up afterwards. *)

From S2P Require Import Prelude Text.
From Stdlib Require Import ZArith Lia List String.
From stdpp Require Import base tactics list numbers option gmap.

Open Scope Z_scope.
Open Scope list_scope.

(** @src env.h:36-41 Env *)
Record Env := mkEnv {
  m_args : gmap bytes bytes;
  m_helps : list (bytes * bytes);
  m_program : bytes;
  m_exe : bytes;
  m_cwd : bytes
}.

Definition Env_empty : Env := mkEnv ∅ [] [] [] [].

(** @src env.cc:57-60 Env::add *)
Definition Env_add (e : Env) (key val : bytes) : Env :=
  mkEnv (<[key := val]> (m_args e)) (m_helps e) (m_program e) (m_exe e) (m_cwd e).

(** @src env.cc:62-66 Env::has *)
Definition Env_has (e : Env) (key : bytes) : bool := match m_args e !! key with Some _ => true | None => false end.

(** @src env.cc:68-71 Env::del *)
Definition Env_del (e : Env) (key : bytes) : Env :=
  mkEnv (delete key (m_args e)) (m_helps e) (m_program e) (m_exe e) (m_cwd e).

(** @src env.cc:73-77 Env::get *)
Definition Env_get (e : Env) (key default_value : bytes) : bytes := default default_value (m_args e !! key).

(** [argv[i][0] == '-'], for a string without its NUL. *)
Definition dashed (a : bytes) : bool := match a with c :: _ => c =? chr "-" | [] => false end.

(** [if (now_key) add(now_key, "")]. *)
Definition add_pending (e : Env) (now_key : option bytes) : Env :=
  match now_key with Some k => Env_add e k [] | None => e end.

(** The loop over the arguments, with the key that waits for its value. *)
(** @src env.cc:28-54 Env::init *)
Fixpoint init_loop (e : Env) (now_key : option bytes) (argv : list bytes) : bool * Env :=
  match argv with
  | [] => (true, add_pending e now_key)
  | a :: argv =>
    if dashed a then
      match a with
      | _ :: _ :: _ => init_loop (add_pending e now_key) (Some (tail a)) argv
      | _ => (false, e)
      end
    else
      match now_key with
      | Some k => init_loop (Env_add e k a) None argv
      | None => (false, e)
      end
  end.

(** The part up to the last occurrence of a character, without it; everything when
    there is none. *)
Fixpoint before_last (c : Z) (s : bytes) : bytes :=
  match s with
  | [] => []
  | x :: s => if existsb (Z.eqb c) s then x :: before_last c s else if x =? c then [] else x :: before_last c s
  end.

(** [readlink(link, path, sizeof(path))] does not end the text with a NUL: one that
    fills the array is read past its end. *)
Definition link_text (target : bytes) : outcome bytes := if Z.of_nat (length target) <? 1024 then Ok target else UB.

(** @src env.cc:14-55 Env::init
    [target]: where the link of the executable leads, empty when it cannot be read;
    [argv[0]] is [program]. *)
Definition Env_init (e : Env) (target program : bytes) (argv : list bytes) : outcome (bool * Env) :=
  let! exe := link_text target in
  Ok (init_loop (mkEnv (m_args e) (m_helps e) program exe (before_last (chr "/") exe ++ str "/")) None argv).

(** @src env.cc:85-95 Env::removeHelp *)
Definition Env_removeHelp (e : Env) (key : bytes) : Env :=
  mkEnv (m_args e) (filter (fun h => fst h <> key) (m_helps e)) (m_program e) (m_exe e) (m_cwd e).

(** @src env.cc:79-83 Env::addHelp *)
Definition Env_addHelp (e : Env) (key desc : bytes) : Env :=
  let e := Env_removeHelp e key in
  mkEnv (m_args e) (m_helps e ++ [(key, desc)]) (m_program e) (m_exe e) (m_cwd e).

(** @src env.cc:97-103 Env::printHelp
    The text printed; [setw(5)] pads the dash. *)
Definition Env_printHelp (e : Env) : bytes :=
  str "Usage: " ++ m_program e ++ str " [options]" ++ [10] ++
  concat (map (fun h => str "    -" ++ fst h ++ str " : " ++ snd h ++ [10]) (m_helps e)).

(** The variables of the process, with whether [setenv] succeeds. *)
(** @src env.cc:105-107 Env::setEnv *)
Definition Env_setEnv (vars : gmap bytes bytes) (ok : bool) (key val : bytes) : bool * gmap bytes bytes :=
  if ok then (true, <[key := val]> vars) else (false, vars).

(** @src env.cc:109-115 Env::getEnv *)
Definition Env_getEnv (vars : gmap bytes bytes) (key default_value : bytes) : bytes := default default_value (vars !! key).

(** @src env.cc:117-125 Env::getAbsolutePath *)
Definition Env_getAbsolutePath (e : Env) (path : bytes) : bytes :=
  match path with
  | [] => str "/"
  | c :: _ => if c =? chr "/" then path else m_cwd e ++ path
  end.

(** @src env.cc:127-137 Env::getAbsoluteWorkPath
    [work_path]: the value of the variable "server.work_path", which has to be
    registered. *)
Definition Env_getAbsoluteWorkPath (work_path : option bytes) (path : bytes) : outcome bytes :=
  match path with
  | [] => Ok (str "/")
  | c :: _ => if c =? chr "/" then Ok path else deref work_path (fun w => Ok (w ++ str "/" ++ path))
  end.

(** @src env.cc:139-141 Env::getConfigPath *)
Definition Env_getConfigPath (e : Env) : bytes := Env_getAbsolutePath e (Env_get e (str "c") (str "conf")).

(** ** The grammar of the command line *)

(** An option: a key that is not empty, and a value that does not start with a dash,
    or none. *)
Definition opt_ok (o : bytes * option bytes) : Prop :=
  fst o <> [] /\ match snd o with Some v => dashed v = false | None => True end.

Definition opt_words (o : bytes * option bytes) : list bytes :=
  (chr "-" :: fst o) :: match snd o with Some v => [v] | None => [] end.

Definition command_line (opts : list (bytes * option bytes)) : list bytes := concat (map opt_words opts).

(** The options in order, a later one over an earlier one. *)
Definition add_opts (e : Env) (opts : list (bytes * option bytes)) : Env :=
  foldl (fun e o => Env_add e (fst o) (default [] (snd o))) e opts.

Lemma init_loop_key e k argv : k <> [] -> init_loop e None ((chr "-" :: k) :: argv) = init_loop e (Some k) argv.
Proof. intros Hk. destruct k; [done|]. reflexivity. Qed.

(** A key without a value gets the empty one when the next option or the end comes. *)
Lemma init_loop_pending e k opts : Forall opt_ok opts ->
  init_loop e (Some k) (command_line opts) = init_loop (Env_add e k []) None (command_line opts).
Proof.
  intros H. destruct H as [|[k' v] opts [Hk _] _]; [done|]. unfold command_line. cbn [map concat opt_words fst snd app] in *.
  destruct k' as [|c k']; [done|]. reflexivity.
Qed.

Lemma init_loop_accepts opts : Forall opt_ok opts -> forall e, init_loop e None (command_line opts) = (true, add_opts e opts).
Proof.
  induction 1 as [|[k v] opts [Hk Hv] Ho IH]; intros e; [done|]. unfold command_line. cbn [map concat]. fold (command_line opts).
  unfold opt_words. cbn [fst snd app] in *. destruct v as [v|]; cbn [app].
  - rewrite init_loop_key by done. cbn [init_loop]. rewrite Hv. apply IH.
  - rewrite init_loop_key by done. rewrite init_loop_pending by done. apply IH.
Qed.

(** Whatever is accepted has the form of a command line, a waiting key included. *)
Lemma init_loop_inv argv : forall e nk e', init_loop e nk argv = (true, e') ->
  match nk with Some k => k <> [] | None => True end ->
  exists opts, Forall opt_ok opts /\
    command_line opts = match nk with Some k => (chr "-" :: k) :: argv | None => argv end.
Proof.
  induction argv as [|a argv IH]; intros e nk e' E Hk; cbn [init_loop] in E.
  { destruct nk as [k|]; [|by exists []]. exists [(k, None)]. split; [by repeat constructor|done]. }
  destruct (dashed a) eqn:Ed.
  - destruct a as [|c [|c' a]]; [done|done|]. cbn in Ed. apply Z.eqb_eq in Ed as ->.
    destruct (IH _ _ _ E ltac:(done)) as (opts & Ho & El). destruct nk as [k|]; [|by exists opts].
    exists ((k, None) :: opts). split; [by constructor|]. unfold command_line in *. cbn. by rewrite El.
  - destruct nk as [k|]; [|done]. destruct (IH _ _ _ E Logic.I) as (opts & Ho & El).
    exists ((k, Some a) :: opts). split; [by constructor|]. unfold command_line in *. cbn. by rewrite El.
Qed.

(** The command line is parsed by its grammar.  [init] returns true exactly when
    the arguments are a sequence of options "-key value" or "-key" (the key not empty,
    the value not starting with a dash); the options can then be looked up, a later
    one of the same key over an earlier one, one without a value as the empty string.
    The program, the executable and its directory are set in every case. *)
Lemma Env_init_grammar e target program argv :
  Z.of_nat (length target) < 1024 ->
  exists b e', Env_init e target program argv = Ok (b, e') /\
    m_program e' = program /\ m_exe e' = target /\ m_cwd e' = before_last (chr "/") target ++ str "/" /\
    (b = true <-> exists opts, Forall opt_ok opts /\ argv = command_line opts) /\
    forall opts, Forall opt_ok opts -> argv = command_line opts ->
      m_args e' = foldl (fun m o => <[fst o := default [] (snd o)]> m) (m_args e) opts.
Proof.
  intros Ht. unfold Env_init, link_text. rewrite (proj2 (Z.ltb_lt _ _) Ht). cbn [obind].
  set (e0 := mkEnv _ _ _ _ _). destruct (init_loop e0 None argv) as [b e'] eqn:E. exists b, e'. split; [done|].
  assert (Hkeep : forall argv e nk b e', init_loop e nk argv = (b, e') ->
    m_program e' = m_program e /\ m_exe e' = m_exe e /\ m_cwd e' = m_cwd e).
  { clear. induction argv as [|a argv IH]; intros e nk b e' E; cbn [init_loop] in E.
    - injection E as <- <-. by destruct nk.
    - destruct (dashed a).
      + destruct a as [|? [|? ?]]; [by injection E as <- <-|by injection E as <- <-|].
        destruct (IH _ _ _ _ E) as (-> & -> & ->). by destruct nk.
      + destruct nk; [|by injection E as <- <-]. by destruct (IH _ _ _ _ E) as (-> & -> & ->). }
  destruct (Hkeep _ _ _ _ _ E) as (Hp & Hx & Hc). split_and!; [done..| |].
  - split.
    + intros ->. destruct (init_loop_inv _ _ _ _ E Logic.I) as (opts & Ho & <-). eauto.
    + intros (opts & Ho & ->). rewrite init_loop_accepts in E by done. by injection E.
  - intros opts Ho ->. rewrite init_loop_accepts in E by done. injection E as <- <-. unfold add_opts.
    change (m_args e) with (m_args e0). clear Hp Hx Hc. clearbody e0. revert e0. induction opts as [|o opts IH]; intros e0; [done|]. cbn.
    apply Forall_cons_1 in Ho as [_ Ho]. apply (IH Ho (Env_add e0 _ _)).
Qed.

Lemma Env_init_grammar_witness :
  exists b e', Env_init Env_empty (str "/bin/srv") (str "srv") [str "-c"; str "conf"; str "-d"] = Ok (b, e') /\
    m_program e' = str "srv" /\ m_exe e' = str "/bin/srv" /\ m_cwd e' = str "/bin/" /\
    (b = true <-> exists opts, Forall opt_ok opts /\ [str "-c"; str "conf"; str "-d"] = command_line opts) /\
    forall opts, Forall opt_ok opts -> [str "-c"; str "conf"; str "-d"] = command_line opts ->
      m_args e' = foldl (fun m o => <[fst o := default [] (snd o)]> m) ∅ opts.
Proof. exact (Env_init_grammar Env_empty (str "/bin/srv") (str "srv") [str "-c"; str "conf"; str "-d"] eq_refl). Defined.

Example Env_config_path :
  match Env_init Env_empty (str "/bin/srv") (str "srv") [str "-c"; str "etc"; str "-d"] with
  | Ok (true, e) => Env_getConfigPath e = str "/bin/etc" /\ Env_has e (str "d") = true
  | _ => False
  end.
Proof. vm_compute. done. Qed.

(** A help text replaces the one its key had and comes last. *)
Lemma Env_addHelp_spec e key desc : NoDup (m_helps e).*1 ->
  NoDup (m_helps (Env_addHelp e key desc)).*1 /\ last (m_helps (Env_addHelp e key desc)) = Some (key, desc) /\
  forall k d, k <> key -> (k, d) ∈ m_helps (Env_addHelp e key desc) <-> (k, d) ∈ m_helps e.
Proof.
  intros Hnd. unfold Env_addHelp, Env_removeHelp. cbn. split_and!.
  - rewrite fmap_app. apply NoDup_app. split_and!.
    + eapply sublist_NoDup; [exact Hnd|]. apply fmap_sublist. apply sublist_filter.
    + intros x Hx Hk. cbn in Hk. apply list_elem_of_singleton in Hk as ->.
      apply list_elem_of_fmap in Hx as ([k d] & -> & Hf). apply list_elem_of_filter in Hf as [Hf _]. done.
    + apply NoDup_singleton.
  - apply last_snoc.
  - intros k d Hne. rewrite elem_of_app, list_elem_of_filter, list_elem_of_singleton. cbn. naive_solver.
Qed.
