(* ===== verification/UtilAlgo.v ===== *)
(** * Templates and streams of the utilities ([util.h], [util.cc])

    [BinarySearch], [Slice], [Join], the atomic operations, number parsing, transfers of
    a fixed size from and to C++ streams with and without a speed limit. *)

From S2P Require Import Prelude Text.
From Stdlib Require Import ZArith Lia List String Sorted.
From stdpp Require Import base tactics list numbers option.

Open Scope Z_scope.
Open Scope list_scope.

(** ** BinarySearch *)

Section search.
(** The elements and their [<]. *)
Context {T : Type} (lt : T -> T -> bool).

(** The loop; indices are of type [int]. *)
Fixpoint search_loop (fuel : nat) (arr : list T) (v : T) (begin_ end_ : Z) : outcome Z :=
  if begin_ <=? end_ then
    match fuel with
    | O => NoFuel
    | S fuel =>
      if 2 ^ 31 <=? begin_ + end_ then UB else
      let m := Z.quot (begin_ + end_) 2 in
      deref (arr !! Z.to_nat m) (fun x =>
      if lt v x then search_loop fuel arr v begin_ (m - 1)
      else if lt x v then search_loop fuel arr v (m + 1) end_
      else Ok m)
    end
  else Ok (- begin_ - 1).

(** @src util.h:272-287 BinarySearch
    [arr] holds the [length] elements. *)
Definition BinarySearch (arr : list T) (v : T) : outcome Z :=
  let n := Z.of_nat (length arr) in search_loop (length arr) arr v 0 (n - 1).

(** The order of the elements is that of [<], and transitive with it. *)
Definition ordered (arr : list T) (v : T) : Prop :=
  forall i j x y, (i <= j)%nat -> arr !! i = Some x -> arr !! j = Some y ->
    (lt y v = true -> lt x v = true) /\ (lt v x = true -> lt v y = true).

Lemma search_loop_spec arr v : ordered arr v -> Z.of_nat (length arr) <= 2 ^ 30 -> forall fuel begin_ end_,
  0 <= begin_ -> end_ < Z.of_nat (length arr) -> begin_ <= end_ + 1 -> (Z.to_nat (end_ - begin_ + 1) <= fuel)%nat ->
  (forall i x, Z.of_nat i < begin_ -> arr !! i = Some x -> lt x v = true) ->
  (forall i x, end_ < Z.of_nat i -> arr !! i = Some x -> lt v x = true) ->
  exists r, search_loop fuel arr v begin_ end_ = Ok r /\
    if 0 <=? r then exists x, arr !! Z.to_nat r = Some x /\ lt v x = false /\ lt x v = false
    else 0 <= - r - 1 <= Z.of_nat (length arr) /\
      (forall i x, Z.of_nat i < - r - 1 -> arr !! i = Some x -> lt x v = true) /\
      (forall i x, - r - 1 <= Z.of_nat i -> arr !! i = Some x -> lt v x = true).
Proof.
  intros Ho Hl fuel.
  induction fuel as [|fuel IH]; intros b e Hb He Hbe Hf Hlo Hhi; cbn [search_loop]; destruct (Z.leb_spec b e) as [Hle|Hgt].
  - lia.
  - exists (- b - 1). split; [done|]. rewrite (proj2 (Z.leb_gt 0 (- b - 1))) by lia. replace (- (- b - 1) - 1) with b by lia.
    split; [lia|]. split; [done|]. intros i x Hi. apply Hhi. lia.
  - rewrite (proj2 (Z.leb_gt (2 ^ 31) (b + e))) by lia. set (m := Z.quot (b + e) 2).
    assert (Hm : b <= m <= e) by (unfold m; rewrite Z.quot_div_nonneg by lia; split; [apply Z.div_le_lower_bound|apply Z.div_le_upper_bound]; lia).
    destruct (lookup_lt_is_Some_2 arr (Z.to_nat m)) as [x Hx]; [lia|]. rewrite Hx. cbn [deref].
    destruct (lt v x) eqn:E1; [|destruct (lt x v) eqn:E2].
    + apply IH; try lia; [done|]. intros i y Hi Hy. by apply (Ho (Z.to_nat m) i x y); [lia|..].
    + apply IH; try lia; [|done]. intros i y Hi Hy. by apply (Ho i (Z.to_nat m) y x); [lia|..].
    + exists m. split; [done|]. rewrite (proj2 (Z.leb_le 0 m)) by lia. eauto.
  - exists (- b - 1). split; [done|]. rewrite (proj2 (Z.leb_gt 0 (- b - 1))) by lia. replace (- (- b - 1) - 1) with b by lia.
    split; [lia|]. split; [done|]. intros i x Hi. apply Hhi. lia.
Qed.

(** On an ordered array of up to 2^30 elements [BinarySearch] returns: the index of an
    element equivalent to [v], or [-(i + 1)] where [i] is the place [v] belongs at,
    after every smaller element and before every greater one. *)
Lemma BinarySearch_spec arr v : ordered arr v -> Z.of_nat (length arr) <= 2 ^ 30 ->
  exists r, BinarySearch arr v = Ok r /\
    if 0 <=? r then exists x, arr !! Z.to_nat r = Some x /\ lt v x = false /\ lt x v = false
    else 0 <= - r - 1 <= Z.of_nat (length arr) /\
      (forall i x, Z.of_nat i < - r - 1 -> arr !! i = Some x -> lt x v = true) /\
      (forall i x, - r - 1 <= Z.of_nat i -> arr !! i = Some x -> lt v x = true).
Proof.
  intros Ho Hl. apply search_loop_spec; try done; try lia.
  intros i x Hi Hx. apply lookup_lt_Some in Hx. lia.
Qed.

End search.

(** An array of more than 2^30 elements: the sum of the two bounds overflows. *)
Lemma BinarySearch_overflow : @search_loop Z Z.ltb 1 [] 0 (2 ^ 30 + 1) (2 ^ 30 + 1) = UB.
Proof. reflexivity. Qed.

(** The place of the first element is 0, although the comment promises a positive
    number for an element that is there. *)
Lemma BinarySearch_first : BinarySearch Z.ltb [1; 3; 5; 7] 1 = Ok 0 /\ BinarySearch Z.ltb [1; 3; 5; 7] 6 = Ok (-4).
Proof. split; reflexivity. Qed.

(** ** Slice *)

Section slices.
Context {T : Type}.

(** The [while] loop, then the rest; [size] is positive. *)
(** @src util.h:388-412 Slice *)
Fixpoint Slice_loop (fuel : nat) (dst : list (list T)) (src : list T) (size : nat) : outcome (list (list T)) :=
  if (size <? length src)%nat then
    match fuel with
    | O => NoFuel
    | S fuel => Slice_loop fuel (dst ++ [take size src]) (drop size src) size
    end
  else Ok (match src with [] => dst | _ => dst ++ [src] end).

Definition Slice (dst : list (list T)) (src : list T) (size : nat) : outcome (list (list T)) :=
  Slice_loop (length src) dst src size.

Lemma Slice_loop_spec size : (0 < size)%nat -> forall fuel src dst, (length src <= fuel)%nat ->
  exists new, Slice_loop fuel dst src size = Ok (dst ++ new) /\ concat new = src /\
    Forall (fun x => 0 < length x <= size)%nat new /\
    forall i x, (S i < length new)%nat -> new !! i = Some x -> length x = size.
Proof.
  intros Hs fuel. induction fuel as [|fuel IH]; intros src dst Hf; cbn [Slice_loop].
  - assert (src = []) as -> by (destruct src; [done|cbn in Hf; lia]). exists []. rewrite app_nil_r. by destruct (_ <? _)%nat eqn:E;
      [apply Nat.ltb_lt in E; cbn in E; lia|].
  - destruct (Nat.ltb_spec size (length src)) as [Hlt|Hge].
    + destruct (IH (drop size src) (dst ++ [take size src])) as (new & -> & Hc & Hall & Hfull); [rewrite length_drop; lia|].
      exists (take size src :: new). rewrite <- app_assoc. split_and!; [done|cbn; by rewrite Hc, take_drop| |].
      * constructor; [rewrite length_take; lia|done].
      * intros [|i] x Hi Hx; cbn in Hx; [injection Hx as <-; rewrite length_take; lia|]. apply (Hfull i); [cbn in Hi; lia|done].
    + destruct src as [|y src]; [exists []; by rewrite app_nil_r|]. exists [y :: src]. split_and!; [done|by cbn; rewrite app_nil_r| |].
      * constructor; [cbn in *; lia|constructor].
      * cbn. lia.
Qed.

(** [Slice] cuts its source into pieces of the given size, in order and without loss:
    every piece but the last has that size and none is empty. *)
Lemma Slice_spec dst src size : (0 < size)%nat ->
  exists new, Slice dst src size = Ok (dst ++ new) /\ concat new = src /\
    Forall (fun x => 0 < length x <= size)%nat new /\
    forall i x, (S i < length new)%nat -> new !! i = Some x -> length x = size.
Proof. intros Hs. by apply Slice_loop_spec. Qed.

(** Pieces of size 0: the loop appends empty vectors for ever. *)
Lemma Slice_zero_diverges fuel : forall dst src, src <> [] -> Slice_loop fuel dst src 0 = NoFuel.
Proof. induction fuel as [|fuel IH]; intros dst [|x src] Hs; try done. cbn [Slice_loop length Nat.ltb]. cbn. by apply IH. Qed.

End slices.

(** ** Join *)

(** @src util.h:257-267 Join
    The texts [<<] prints for the elements. *)
Fixpoint Join (l : list bytes) (tag : bytes) : bytes :=
  match l with
  | [] => []
  | [x] => x
  | x :: l => x ++ tag ++ Join l tag
  end.

(** ** Atomic *)

Section atomic.
(** The width of the type and whether it is signed. *)
Context (wrap : Z -> Z).

(** Each operation is one step: what it returns and the new value.  [(T)v] wraps. *)
(** @src util.h:116-118 Atomic::addFetch *)
Definition Atomic_addFetch (t v : Z) : Z * Z := let r := wrap (t + wrap v) in (r, r).
(** @src util.h:120-122 Atomic::subFetch *)
Definition Atomic_subFetch (t v : Z) : Z * Z := let r := wrap (t - wrap v) in (r, r).
(** @src util.h:124-126 Atomic::orFetch *)
Definition Atomic_orFetch (t v : Z) : Z * Z := let r := Z.lor t (wrap v) in (r, r).
(** @src util.h:128-130 Atomic::andFetch *)
Definition Atomic_andFetch (t v : Z) : Z * Z := let r := Z.land t (wrap v) in (r, r).
(** @src util.h:132-134 Atomic::xorFetch *)
Definition Atomic_xorFetch (t v : Z) : Z * Z := let r := Z.lxor t (wrap v) in (r, r).
(** @src util.h:136-138 Atomic::nandFetch *)
Definition Atomic_nandFetch (t v : Z) : Z * Z := let r := wrap (Z.lnot (Z.land t (wrap v))) in (r, r).
(** @src util.h:140-142 Atomic::fetchAdd *)
Definition Atomic_fetchAdd (t v : Z) : Z * Z := (t, wrap (t + wrap v)).
(** @src util.h:144-146 Atomic::fetchSub *)
Definition Atomic_fetchSub (t v : Z) : Z * Z := (t, wrap (t - wrap v)).
(** @src util.h:148-150 Atomic::fetchOr *)
Definition Atomic_fetchOr (t v : Z) : Z * Z := (t, Z.lor t (wrap v)).
(** @src util.h:152-154 Atomic::fetchAnd *)
Definition Atomic_fetchAnd (t v : Z) : Z * Z := (t, Z.land t (wrap v)).
(** @src util.h:156-158 Atomic::fetchXor *)
Definition Atomic_fetchXor (t v : Z) : Z * Z := (t, Z.lxor t (wrap v)).
(** @src util.h:160-162 Atomic::fetchNand *)
Definition Atomic_fetchNand (t v : Z) : Z * Z := (t, wrap (Z.lnot (Z.land t (wrap v)))).
(** @src util.h:164-167 Atomic::compareAndSwap *)
Definition Atomic_compareAndSwap (t old_val new_val : Z) : Z * Z :=
  (t, if t =? wrap old_val then wrap new_val else t).
(** @src util.h:169-172 Atomic::compareAndSwapBool *)
Definition Atomic_compareAndSwapBool (t old_val new_val : Z) : bool * Z :=
  if t =? wrap old_val then (true, wrap new_val) else (false, t).

End atomic.

(** Counting up and down concurrently, in any order, ends at the sum of the steps: the
    wrap-around loses nothing. *)
Lemma Atomic_counter (t : Z) (steps : list (bool * Z)) :
  foldl (fun t (s : bool * Z) => snd (if fst s then Atomic_fetchAdd (uwrap 32) t (snd s) else Atomic_fetchSub (uwrap 32) t (snd s))) (u32 t) steps =
  u32 (t + foldr (fun (s : bool * Z) a => (if fst s then snd s else - snd s) + a) 0 steps).
Proof.
  revert t. induction steps as [|[b v] steps IH]; intros t; cbn [foldl foldr fst snd]; [by rewrite Z.add_0_r|].
  assert (snd (if b then Atomic_fetchAdd (uwrap 32) (u32 t) v else Atomic_fetchSub (uwrap 32) (u32 t) v) = u32 (t + (if b then v else - v))) as ->.
  { destruct b; cbn [snd Atomic_fetchAdd Atomic_fetchSub]; unfold uwrap.
    - by rewrite <- Z.add_mod by lia.
    - rewrite <- Zminus_mod. f_equal. }
  rewrite IH. f_equal. lia.
Qed.

(** ** Numbers *)

(** [strtoull(s, NULL, 10)]: spaces, a sign, digits; a minus negates the value as an
    unsigned number, and one that is too large gives the largest. *)
Definition strtoull10 (s : bytes) : Z :=
  let s := skip_spaces s in
  let '(neg, s) := match s with c :: s' => if c =? 45 then (true, s') else if c =? 43 then (false, s') else (false, s) | [] => (false, []) end in
  let v := digits_value 10 0 s in
  if 2 ^ 64 <=? v then 2 ^ 64 - 1 else if neg then u64 (- v) else v.

(** @src util.cc:337-342 TypeUtil::ToChar *)
Definition TypeUtil_ToChar (s : bytes) : Z := match s with [] => 0 | c :: _ => swrap 8 c end.

(** @src util.cc:344-349 TypeUtil::Atoi
    The result is converted to [int64_t]. *)
Definition TypeUtil_Atoi (s : bytes) : Z := match s with [] => 0 | _ => i64 (strtoull10 s) end.

(** A printed number reads back, over the whole range of [int64_t]. *)
Lemma TypeUtil_Atoi_dec n : 0 <= n < 2 ^ 63 -> TypeUtil_Atoi (dec n) = n.
Proof.
  intros Hn. destruct (dec_spec n) as (Hne & Hd & Hv); [lia|]. specialize (Hv []). rewrite app_nil_r in Hv.
  unfold TypeUtil_Atoi, strtoull10. destruct (dec n) as [|c r]; [done|]. apply Forall_cons_1 in Hd as [Hc _].
  unfold is_digit in Hc. cbn [skip_spaces]. replace (is_space c) with false by (unfold is_space; lia).
  rewrite (proj2 (Z.eqb_neq c 45)), (proj2 (Z.eqb_neq c 43)) by lia. rewrite Hv. cbn [digits_value].
  rewrite (proj2 (Z.leb_gt (2 ^ 64) n)) by lia. apply swrap_small; lia.
Qed.

(** ** C++ streams *)

(** An input stream: whether it has not failed, and what is left to read. *)
Record istream := mkIn { is_ok : bool; is_rest : bytes }.

(** [is.read(data, n)]: the characters stored ([gcount()] of them); reading past the
    end fails the stream. *)
Definition istream_read (st : istream) (n : nat) : bytes * istream :=
  if is_ok st then
    (take n (is_rest st), mkIn (n <=? length (is_rest st))%nat (drop n (is_rest st)))
  else ([], st).

(** The loop of the two readers below, [chunk] being the size of the next read. *)
Fixpoint read_loop (chunk : nat -> nat) (fuel : nat) (st : istream) (data : bytes) (size : nat) : outcome (bool * bytes * istream) :=
  if is_ok st && (length data <? size)%nat then
    match fuel with
    | O => NoFuel
    | S fuel =>
      let '(got, st) := istream_read st (chunk (size - length data)%nat) in
      read_loop chunk fuel st (data ++ got) size
    end
  else Ok ((length data =? size)%nat, data, st).

(** @src util.h:289-297 ReadFixFromStream *)
Definition ReadFixFromStream (st : istream) (size : nat) : outcome (bool * bytes * istream) :=
  read_loop (fun left => left) (S size) st [] size.

(** [std::max((uint64_t)ceil(speed / 100.0), 64 * 1024)]; [ceil100] is the
    floating-point quotient. *)
Definition per_read (ceil100 : Z -> Z) (speed : Z) : nat := Z.to_nat (Z.max (ceil100 speed) (1024 * 64)).

(** @src util.cc:1084-1103 ReadFixFromStreamWithSpeed
    The pauses of the speed limit change nothing that st read. *)
Definition ReadFixFromStreamWithSpeed (ceil100 : Z -> Z) (st : istream) (size : nat) (speed : Z) : outcome (bool * bytes * istream) :=
  read_loop (fun left => Nat.min (per_read ceil100 speed) left) (S size) st [] size.

Lemma istream_loop_spec chunk size : (forall n, 0 < n -> 0 < chunk n <= n)%nat -> forall fuel st data,
  (size - length data < fuel)%nat -> (length data <= size)%nat -> is_ok st = true ->
  read_loop chunk fuel st data size =
  Ok (size <=? length data + length (is_rest st), data ++ take (size - length data) (is_rest st),
      mkIn (size <=? length data + length (is_rest st)) (drop (size - length data) (is_rest st)))%nat.
Proof.
  intros Hc fuel. induction fuel as [|fuel IH]; intros st data Hf Hd Hok; [lia|]. cbn [read_loop]. rewrite Hok. cbn [andb].
  destruct (Nat.ltb_spec (length data) size) as [Hlt|Hge].
  - unfold istream_read. rewrite Hok. set (k := chunk (size - length data)%nat). pose proof (Hc (size - length data)%nat ltac:(lia)) as Hk.
    fold k in Hk. destruct (Nat.leb_spec k (length (is_rest st))) as [Hle|Hgt].
    + rewrite IH; cbn [is_ok is_rest]; rewrite ?length_app, ?length_take, ?length_drop; try done; try lia.
      rewrite <- app_assoc, drop_drop.
      replace (size - (length data + k `min` length (is_rest st)))%nat with (size - length data - k)%nat by lia.
      rewrite take_take_drop. replace (k + (size - length data - k))%nat with (size - length data)%nat by lia.
      replace (length data + k `min` length (is_rest st) + (length (is_rest st) - k))%nat with (length data + length (is_rest st))%nat by lia.
      done.
    + assert (Hend : read_loop chunk fuel (mkIn false (drop k (is_rest st))) (data ++ take k (is_rest st)) size =
        Ok ((length (data ++ take k (is_rest st)) =? size)%nat, data ++ take k (is_rest st), mkIn false (drop k (is_rest st))))
        by (by destruct fuel).
      rewrite Hend, length_app, !take_ge, !drop_ge by lia.
      rewrite (proj2 (Nat.eqb_neq _ _)), (proj2 (Nat.leb_gt _ _)) by lia. done.
  - replace (size - length data)%nat with 0%nat by lia. rewrite take_0, drop_0, app_nil_r.
    rewrite (proj2 (Nat.eqb_eq _ _)), (proj2 (Nat.leb_le _ _)) by lia. destruct st. cbn in *. by subst.
Qed.

(** Both readers return, and they read the same: all that was asked for when there is
    that much, otherwise what there st, and they say which. *)
Lemma ReadFixFromStream_spec ceil100 st size speed : is_ok st = true ->
  ReadFixFromStream st size = Ok (size <=? length (is_rest st), take size (is_rest st),
    mkIn (size <=? length (is_rest st)) (drop size (is_rest st)))%nat /\
  ReadFixFromStreamWithSpeed ceil100 st size speed = ReadFixFromStream st size.
Proof.
  intros Hok. unfold ReadFixFromStream, ReadFixFromStreamWithSpeed, per_read.
  rewrite !istream_loop_spec; cbn [length app]; try done; try lia. by rewrite !Nat.sub_0_r.
Qed.

(** An output stream: whether it has not failed, what was written, and how much more
    it takes. *)
Record ostream := mkOut { os_ok : bool; os_written : bytes; os_room : nat }.

Definition ostream_write (os : ostream) (b : bytes) : ostream :=
  if os_ok os then mkOut (length b <=? os_room os)%nat (os_written os ++ take (os_room os) b) (os_room os - length b) else os.

(** @src util.h:307-313 WriteToStream
    The bytes of the value. *)
Definition WriteToStream (os : ostream) (b : bytes) : bool * ostream :=
  if os_ok os then let os := ostream_write os b in (os_ok os, os) else (false, os).

Fixpoint write_speed_loop (per fuel : nat) (os : ostream) (data : bytes) (offset : nat) : outcome (bool * ostream) :=
  if os_ok os && (offset <? length data)%nat then
    match fuel with
    | O => NoFuel
    | S fuel =>
      let s := if (per <? length data - offset)%nat then per else (length data - offset)%nat in
      write_speed_loop per fuel (ostream_write os (slice offset s data)) data (offset + s)
    end
  else Ok ((offset =? length data)%nat, os).

(** @src util.cc:1105-1125 WriteFixToStreamWithSpeed *)
Definition WriteFixToStreamWithSpeed (ceil100 : Z -> Z) (os : ostream) (data : bytes) (speed : Z) : outcome (bool * ostream) :=
  write_speed_loop (per_read ceil100 speed) (S (length data)) os data 0.

Lemma write_speed_loop_spec per data : (0 < per)%nat -> forall fuel os offset,
  (length data - offset < fuel)%nat -> (offset <= length data)%nat -> os_ok os = true -> (length data - offset <= os_room os)%nat ->
  exists os', write_speed_loop per fuel os data offset = Ok (true, os') /\ os_ok os' = true /\
    os_written os' = os_written os ++ drop offset data.
Proof.
  intros Hp fuel. induction fuel as [|fuel IH]; intros os offset Hf Ho Hok Hr; [lia|]. cbn [write_speed_loop]. rewrite Hok. cbn [andb].
  destruct (Nat.ltb_spec offset (length data)) as [Hlt|Hge].
  - set (s := if (per <? length data - offset)%nat then per else (length data - offset)%nat).
    assert (Hs : (0 < s <= length data - offset)%nat) by (unfold s; destruct (Nat.ltb_spec per (length data - offset)); lia).
    assert (Hsl : length (slice offset s data) = s) by (unfold slice; rewrite length_take, length_drop; lia).
    unfold ostream_write. rewrite Hok, Hsl, (proj2 (Nat.leb_le s (os_room os))) by lia.
    destruct (IH (mkOut true (os_written os ++ take (os_room os) (slice offset s data)) (os_room os - s)) (offset + s)%nat)
      as (os' & -> & Hok' & Hw); cbn [os_ok os_room]; try done; try lia.
    exists os'. split; [done|]. split; [done|]. rewrite Hw. cbn [os_written]. rewrite (take_ge (slice offset s data)) by lia.
    rewrite <- app_assoc. f_equal. unfold slice. rewrite <- drop_drop. apply take_drop.
  - exists os. rewrite (proj2 (Nat.eqb_eq _ _)) by lia. by rewrite drop_ge, app_nil_r by lia.
Qed.

(** A stream with room gets all the data, in order, whatever the speed. *)
Lemma WriteFixToStreamWithSpeed_spec ceil100 os data speed : os_ok os = true -> (length data <= os_room os)%nat ->
  exists os', WriteFixToStreamWithSpeed ceil100 os data speed = Ok (true, os') /\ os_ok os' = true /\
    os_written os' = os_written os ++ data.
Proof.
  intros Hok Hr. destruct (write_speed_loop_spec (per_read ceil100 speed) data) with (fuel := S (length data)) (os := os) (offset := 0%nat)
    as (os' & E & H); [unfold per_read; lia|lia|lia|done|lia|]. exists os'. by rewrite drop_0 in H.
Qed.

(** The offset advances whether or not the stream took the data: when the last write
    fails the function still returns true. *)
Lemma WriteFix_reports_failed_write :
  WriteFixToStreamWithSpeed (fun _ => 0) (mkOut true [] 1) [7; 8; 9] 1 = Ok (true, mkOut false [7] 0).
Proof. vm_compute. reflexivity. Qed.
