(* ===== verification/FileUtil.v ===== *)
(** * File utilities ([util.cc], [FSUtil])

    The functions of [FSUtil] on a file system: a finite map from paths (lists of
    names) to what is there, with the calls [lstat], [access], [opendir], [mkdir],
    [rmdir], [unlink], [rename] and [symlink] as POSIX describes them.  Any call that
    changes something can be refused ([may]).  Paths do not contain ".." and do not go
    through symbolic links. *)

From S2P Require Import Prelude Text StringUtil.
From Stdlib Require Import ZArith Lia List String.
From stdpp Require Import base tactics list numbers option gmap.

Open Scope Z_scope.
Open Scope list_scope.

(** ** The file system *)

Inductive kind := KDir | KReg | KLink | KSock | KBlk.

#[export] Instance kind_eq_dec : EqDecision kind.
Proof. solve_decision. Defined.

(** The type bits of [st_mode]. *)
Definition S_IFDIR : Z := 16384.
Definition st_mode (k : kind) : Z :=
  match k with KDir => S_IFDIR | KReg => 32768 | KLink => 40960 | KSock => 49152 | KBlk => 24576 end.

Notation path := (list bytes).
Notation fs := (gmap (list bytes) kind).

(** The text before the first slash and the texts after each slash. *)
Fixpoint parts (s : bytes) : bytes * list bytes :=
  match s with
  | [] => ([], [])
  | c :: s => let '(f, r) := parts s in if c =? chr "/" then ([], f :: r) else (c :: f, r)
  end.

Definition is_name (n : bytes) : bool := negb (bool_decide (n = [])) && negb (bool_decide (n = str ".")).

(** The names a path consists of: empty ones and "." mean nothing. *)
Definition comps (s : bytes) : path := let '(f, r) := parts s in filter (fun n => is_name n = true) (f :: r).

Section calls.
(** Whether the system lets a path be changed, and whether a symbolic link leads to
    something. *)
Context (may : path -> bool) (resolves : path -> bool).

Definition lstat (f : fs) (p : bytes) : option kind := f !! comps p.

(** [access(p, F_OK) == 0]. *)
Definition access_ok (f : fs) (p : bytes) : bool :=
  match f !! comps p with Some KLink => resolves (comps p) | Some _ => true | None => false end.

(** The entries of a directory, without "." and "..". *)
Definition children (f : fs) (p : path) : list (bytes * kind) :=
  omap (fun e => match list.last (fst e) with
                 | Some n => if bool_decide (fst e = p ++ [n]) then Some (n, snd e) else None
                 | None => None
                 end) (map_to_list f).

(** [opendir], with what [readdir] will give. *)
Definition opendir (f : fs) (p : bytes) : option (list (bytes * kind)) :=
  match f !! comps p with Some KDir => Some (children f (comps p)) | _ => None end.

Definition parent_ok (f : fs) (p : path) : bool :=
  match p with [] => false | _ => bool_decide (f !! removelast p = Some KDir) end.

Definition sys_mkdir (f : fs) (p : bytes) : bool * fs :=
  if may (comps p) && parent_ok f (comps p) && bool_decide (f !! comps p = None)
  then (true, <[comps p := KDir]> f) else (false, f).

Definition sys_rmdir (f : fs) (p : bytes) : bool * fs :=
  if may (comps p) && parent_ok f (comps p) && bool_decide (f !! comps p = Some KDir) && bool_decide (children f (comps p) = [])
  then (true, delete (comps p) f) else (false, f).

Definition sys_unlink (f : fs) (p : bytes) : bool * fs :=
  match f !! comps p with
  | Some KDir | None => (false, f)
  | Some _ => if may (comps p) then (true, delete (comps p) f) else (false, f)
  end.

(** ** FSUtil *)

Definition ends_with (s suffix : bytes) : bool := bool_decide (drop (length s - length suffix) s = suffix).

(** What happens to one entry of a directory; [rec] lists a directory below. *)
Definition list_entry (rec : bytes -> outcome (list bytes)) (p subfix : bytes) (e : bytes * kind) : outcome (list bytes) :=
  match snd e with
  | KDir => rec (p ++ str "/" ++ fst e)
  | KReg =>
      match subfix with
      | [] => Ok [p ++ str "/" ++ fst e]
      | _ => if (length (fst e) <? length subfix)%nat then Ok []
             else if ends_with (fst e) subfix then Ok [p ++ str "/" ++ fst e] else Ok []
      end
  | _ => Ok []
  end.

Fixpoint each {A B} (g : A -> outcome (list B)) (l : list A) : outcome (list B) :=
  match l with
  | [] => Ok []
  | x :: l => let! a := g x in let! b := each g l in Ok (a ++ b)
  end.

(** @src util.cc:133-164 FSUtil::ListAllFile
    The files appended. *)
Fixpoint list_files (fuel : nat) (f : fs) (p subfix : bytes) : outcome (list bytes) :=
  match fuel with
  | O => NoFuel
  | S fuel =>
    if negb (access_ok f p) then Ok []
    else match opendir f p with
         | None => Ok []
         | Some es => each (list_entry (fun q => list_files fuel f q subfix) p subfix) es
         end
  end.

(** Deeper than anything there is. *)
Definition depth (f : fs) : nat := foldr (fun e n => Nat.max (length (fst e)) n) 0%nat (map_to_list f).

Definition FSUtil_ListAllFile (f : fs) (files : list bytes) (p subfix : bytes) : outcome (list bytes) :=
  let! l := list_files (S (S (depth f))) f p subfix in Ok (files ++ l).

(** @src util.cc:175-180 __mkdir *)
Definition mkdir_ (f : fs) (p : bytes) : bool * fs := if access_ok f p then (true, f) else sys_mkdir f p.

(** The prefixes of a path that end before a slash other than its first character. *)
Fixpoint slashes (seen s : bytes) : list bytes :=
  match s with
  | [] => []
  | c :: s => (if (c =? chr "/") then [seen] else []) ++ slashes (seen ++ [c]) s
  end.

(** The [for] loop, which stops at the first failure. *)
Fixpoint mkdirs (f : fs) (l : list bytes) : bool * fs :=
  match l with
  | [] => (true, f)
  | p :: l => let '(ok, f) := mkdir_ f p in if ok then mkdirs f l else (false, f)
  end.

(** @src util.cc:182-205 FSUtil::Mkdir
    [strchr(path + 1, '/')] of an empty path reads past its end. *)
Definition FSUtil_Mkdir (f : fs) (p : bytes) : outcome (bool * fs) :=
  match lstat f p with
  | Some _ => Ok (true, f)
  | None =>
      match p with
      | [] => UB
      | c :: r => let '(ok, f) := mkdirs f (slashes [c] r) in Ok (if ok then mkdir_ f p else (false, f))
      end
  end.

(** @src util.cc:207-228 FSUtil::IsRunningPidfile
    [line]: the first line of the file, when there is one. *)
Definition FSUtil_IsRunningPidfile (f : fs) (p : bytes) (line : option bytes) : bool :=
  match lstat f p with
  | None => false
  | Some _ => match line with
              | None | Some [] => false
              | Some l => negb (atoi l <=? 1)
              end
  end.

(** @src util.cc:230-235 FSUtil::Unlink *)
Definition FSUtil_Unlink (f : fs) (p : bytes) (exist : bool) : bool * fs :=
  if negb exist && bool_decide (lstat f p = None) then (true, f) else sys_unlink f p.

(** The loop over the entries: the result is that of the last one. *)
Fixpoint rm_entries (rec : fs -> bytes -> outcome (bool * fs)) (f : fs) (p : bytes) (es : list (bytes * kind)) (ret : bool)
    : outcome (bool * fs) :=
  match es with
  | [] => Ok (ret, f)
  | e :: es => let! (ret, f) := rec f (p ++ str "/" ++ fst e) in rm_entries rec f p es ret
  end.

(** @src util.cc:237-265 FSUtil::Rm *)
Fixpoint rm (fuel : nat) (f : fs) (p : bytes) : outcome (bool * fs) :=
  match fuel with
  | O => NoFuel
  | S fuel =>
    match lstat f p with
    | None => Ok (true, f)
    | Some k =>
      if Z.land (st_mode k) S_IFDIR =? 0 then Ok (FSUtil_Unlink f p false)
      else match opendir f p with
           | None => Ok (false, f)
           | Some es =>
             let! (ret, f) := rm_entries (rm fuel) f p es true in
             let '(ok, f) := sys_rmdir f p in Ok (if ok then ret else false, f)
           end
    end
  end.

Definition FSUtil_Rm (f : fs) (p : bytes) : outcome (bool * fs) := rm (S (S (depth f))) f p.

(** [rename], of a path that is not below itself, to one that is free. *)
Definition sys_rename (f : fs) (from to : path) : bool * fs :=
  if may from && may to && bool_decide (is_Some (f !! from)) && parent_ok f to && bool_decide (f !! to = None)
     && negb (bool_decide (from `prefix_of` to))
  then (true, kmap (fun q => if bool_decide (from `prefix_of` q) then to ++ drop (length from) q else q) f)
  else (false, f).

(** @src util.cc:267-272 FSUtil::Mv *)
Definition FSUtil_Mv (f : fs) (from to : bytes) : outcome (bool * fs) :=
  let! (ok, f) := FSUtil_Rm f to in Ok (if ok then sys_rename f (comps from) (comps to) else (false, f)).

(** @src util.cc:287-292 FSUtil::Symlink *)
Definition FSUtil_Symlink (f : fs) (to : bytes) : outcome (bool * fs) :=
  let! (ok, f) := FSUtil_Rm f to in
  Ok (if ok then (if may (comps to) && parent_ok f (comps to) && bool_decide (f !! comps to = None)
                  then (true, <[comps to := KLink]> f) else (false, f))
      else (false, f)).

(** @src util.cc:274-285 FSUtil::Realpath
    [real]: what [realpath] gives. *)
Definition FSUtil_Realpath (f : fs) (p : bytes) (real : option bytes) (rpath : bytes) : bool * bytes :=
  match lstat f p with
  | None => (false, rpath)
  | Some _ => match real with Some r => (true, r) | None => (false, rpath) end
  end.

(** [ofs.open(filename)] for writing. *)
Definition sys_open_write (f : fs) (p : path) : bool * fs :=
  match f !! p with
  | Some KReg => (may p, f)
  | Some _ => (false, f)
  | None => if may p && parent_ok f p then (true, <[p := KReg]> f) else (false, f)
  end.

(** @src util.cc:326-335 FSUtil::OpenForWrite *)
Definition FSUtil_OpenForWrite (f : fs) (filename : bytes) : outcome (bool * fs) :=
  let '(ok, f) := sys_open_write f (comps filename) in
  if ok then Ok (true, f)
  else let! (_, f) := FSUtil_Mkdir f (Dirname filename) in Ok (sys_open_write f (comps filename)).

End calls.

(** ** Paths *)

Definition good_name (n : bytes) : Prop := is_name n = true /\ ~ In (chr "/") n.

Definition segs (s : bytes) : list bytes := let '(f, r) := parts s in f :: r.

Lemma segs_slash a b : segs (a ++ chr "/" :: b) = segs a ++ segs b.
Proof.
  unfold segs. induction a as [|c a IH]; cbn [app parts].
  - destruct (parts b). by rewrite Z.eqb_refl.
  - destruct (parts (a ++ _)) as [f r], (parts a) as [f' r'], (parts b) as [f'' r'']. cbn in IH. injection IH as -> ->.
    by destruct (c =? chr "/").
Qed.

Lemma segs_name n : ~ In (chr "/") n -> segs n = [n].
Proof.
  unfold segs. induction n as [|c n IH]; intros Hn; [done|]. cbn [parts]. cbn [In] in Hn.
  destruct (parts n) as [f r]. specialize (IH ltac:(tauto)). injection IH as -> ->.
  destruct (Z.eqb_spec c (chr "/")) as [E|_]; [subst; tauto|done].
Qed.

Lemma comps_segs s : comps s = filter (fun n => is_name n = true) (segs s).
Proof. unfold comps, segs. by destruct (parts s). Qed.

(** [path + "/" + name] leads to the entry [name] of [path]. *)
Lemma comps_child p n : good_name n -> comps (p ++ str "/" ++ n) = comps p ++ [n].
Proof.
  intros [Hn Hs]. change (p ++ str "/" ++ n) with (p ++ chr "/" :: n). rewrite !comps_segs, segs_slash, filter_app, (segs_name n) by done.
  f_equal. by rewrite filter_cons_True.
Qed.

(** ** Well-formed file systems *)

Record fs_wf (f : fs) : Prop := {
  wf_root : f !! [] = Some KDir;
  wf_names : forall p k, f !! p = Some k -> Forall good_name p;
  wf_parent : forall p n k, f !! (p ++ [n]) = Some k -> f !! p = Some KDir
}.

Lemma children_spec f p n k : (n, k) ∈ children f p <-> f !! (p ++ [n]) = Some k.
Proof.
  unfold children. rewrite list_elem_of_omap. split.
  - intros ([q k'] & Hq & E). apply elem_of_map_to_list in Hq. cbn in E. destruct (list.last q) as [m|]; [|done].
    case_bool_decide as Hp; [|done]. injection E as -> ->. by subst.
  - intros H. exists (p ++ [n], k). split; [by apply elem_of_map_to_list|]. cbn. by rewrite last_snoc, bool_decide_eq_true_2.
Qed.

Lemma children_nil f p : children f p = [] <-> forall n, f !! (p ++ [n]) = None.
Proof.
  split.
  - intros E n. destruct (f !! (p ++ [n])) as [k|] eqn:H; [|done]. apply children_spec in H. rewrite E in H. by apply not_elem_of_nil in H.
  - intros H. destruct (children f p) as [|[n k] l] eqn:E; [done|].
    assert ((n, k) ∈ children f p) as Hc by (rewrite E; left). apply children_spec in Hc. by rewrite H in Hc.
Qed.

Lemma depth_bound f p k : f !! p = Some k -> (length p <= depth f)%nat.
Proof.
  intros H. assert (Hg : forall l : list (path * kind), (p, k) ∈ l -> (length p <= foldr (fun e n => Nat.max (length (fst e)) n) 0 l)%nat).
  { induction l as [|[q j] l IH]; intros Hl; [by apply not_elem_of_nil in Hl|].
    cbn. apply elem_of_cons in Hl as [[= <- <-]|Hl]; [lia|]. specialize (IH Hl). lia. }
  apply Hg. by apply elem_of_map_to_list.
Qed.

Lemma parent_ok_wf f p k : fs_wf f -> f !! p = Some k -> parent_ok f p = true <-> p <> [].
Proof.
  intros W H. destruct p as [|n p _] using rev_ind; [done|]. unfold parent_ok. rewrite removelast_last.
  assert (f !! p = Some KDir) as E by (by eapply wf_parent). split; [by destruct p|]. intros _.
  destruct (p ++ [n]) eqn:Ep; [by destruct p|]. by apply bool_decide_eq_true_2.
Qed.

(** Removing something that has nothing below it. *)
Lemma delete_wf f p : fs_wf f -> p <> [] -> (forall n, f !! (p ++ [n]) = None) -> fs_wf (delete p f).
Proof.
  intros [H1 H2 H3] Hp Hc. split.
  - by rewrite lookup_delete_ne.
  - intros q k Hq. apply lookup_delete_Some in Hq as [_ Hq]. by eapply H2.
  - intros q n k Hq. apply lookup_delete_Some in Hq as [Hne Hq]. rewrite lookup_delete_ne; [by eapply H3|].
    intros ->. by rewrite Hc in Hq.
Qed.

(** ** Rm *)

Section removal.
Context (may : path -> bool).

(** Nothing at or below [p] stands in the way of its removal. *)
Definition removable (f : fs) (p : path) : Prop :=
  p <> [] /\ forall q k, p `prefix_of` q -> f !! q = Some k -> may q = true /\ k <> KSock /\ k <> KBlk.

(** What a removal at [p] does. *)
Record removed (f : fs) (p : path) (ret : bool) (f' : fs) : Prop := {
  rm_wf : fs_wf f';
  rm_sub : f' ⊆ f;
  rm_frame : forall q, ~ p `prefix_of` q -> f' !! q = f !! q;
  rm_ret : ret = true <-> f' !! p = None;
  rm_all : removable f p -> ret = true
}.

Lemma removable_sub (f f' : fs) p : f' ⊆ f -> removable f p -> removable f' p.
Proof. intros Hs [Hp H]. split; [done|]. intros q k Hq Hk. eapply H; [done|]. by eapply lookup_weaken. Qed.

Lemma removed_none f p : fs_wf f -> f !! p = None -> removed f p true f.
Proof. intros W E. by split. Qed.

(** A file, link or what else is not a directory. *)
Lemma unlink_removed f p k : fs_wf f -> f !! comps p = Some k -> k <> KDir ->
  exists ret f', FSUtil_Unlink may f p false = (ret, f') /\ removed f (comps p) ret f'.
Proof.
  intros W E Hk. unfold FSUtil_Unlink, lstat. rewrite E, bool_decide_eq_false_2 by done. cbn [negb andb].
  assert (Hp : comps p <> []) by (intros Ep; rewrite Ep, (wf_root _ W) in E; congruence).
  assert (Hc : forall n, f !! (comps p ++ [n]) = None).
  { intros n. destruct (f !! (comps p ++ [n])) eqn:En; [|done]. apply (wf_parent _ W) in En. congruence. }
  unfold sys_unlink. rewrite E. destruct (may (comps p)) eqn:Em.
  - exists true, (delete (comps p) f). split; [by destruct k|]. split.
    + by apply delete_wf.
    + apply delete_subseteq.
    + intros q Hq. rewrite lookup_delete_ne; [done|]. by intros <-.
    + by rewrite lookup_delete_eq.
    + done.
  - exists false, f. split; [by destruct k|]. split; [done|done|done|by rewrite E|].
    intros [_ Hr]. destruct (Hr (comps p) k) as [? _]; [done|done|congruence].
Qed.

(** The loop over the entries of a directory. *)
Lemma rm_entries_spec rec p es : forall f ret,
  fs_wf f ->
  (forall f1 e, f1 ⊆ f -> fs_wf f1 -> e ∈ es ->
     exists r f', rec f1 (p ++ str "/" ++ fst e) = Ok (r, f') /\ removed f1 (comps p ++ [fst e]) r f') ->
  exists ret' f', rm_entries rec f p es ret = Ok (ret', f') /\ fs_wf f' /\ f' ⊆ f /\
    (forall q, (forall e, e ∈ es -> ~ comps p ++ [fst e] `prefix_of` q) -> f' !! q = f !! q) /\
    (ret' = false -> (es = [] /\ ret = false) \/ exists n, f' !! (comps p ++ [n]) <> None) /\
    ((forall e, e ∈ es -> removable f (comps p ++ [fst e])) -> forall e, e ∈ es -> f' !! (comps p ++ [fst e]) = None).
Proof.
  induction es as [|e es IH]; intros f ret W Hrec; cbn [rm_entries].
  { exists ret, f. split_and!; try done; [by left|]. intros _ e He. by apply not_elem_of_nil in He. }
  destruct (Hrec f e) as (r & f1 & -> & R); [done|done|left|]. cbn [obind].
  destruct (IH f1 r) as (ret' & f' & -> & W' & Hsub & Hfr & Hret & Hall); [by destruct R| |].
  { intros f2 e2 Hs2 W2 He2. apply Hrec; [|done|by right]. etrans; [exact Hs2|]. by destruct R. }
  exists ret', f'. pose proof (rm_sub _ _ _ _ R) as Hs1. split_and!; [done|done|by etrans| | |].
  - intros q Hq. rewrite Hfr; [|intros e2 He2; apply Hq; by right]. apply (rm_frame _ _ _ _ R). apply Hq. left.
  - intros Hf. right. destruct (Hret Hf) as [[-> ->]|Hn]; [|done]. exists (fst e).
    rewrite Hfr by (intros e2 He2; by apply not_elem_of_nil in He2). intros Hc. by apply (rm_ret _ _ _ _ R) in Hc.
  - intros Hrm e2 He2. destruct (f' !! (comps p ++ [fst e2])) as [k|] eqn:Ek; [|done]. exfalso.
    apply elem_of_cons in He2 as [->|He2].
    + assert (f1 !! (comps p ++ [fst e]) = None) as Hn by (apply (rm_ret _ _ _ _ R), (rm_all _ _ _ _ R), Hrm; left).
      pose proof (lookup_weaken _ _ _ _ Ek Hsub). congruence.
    + rewrite Hall in Ek; [done| |done]. intros e3 He3. eapply removable_sub; [exact Hs1|]. apply Hrm. by right.
Qed.

Lemma rm_spec D fuel : forall f p,
  fs_wf f -> (forall q k, f !! q = Some k -> (length q <= D)%nat) -> (0 < fuel)%nat -> (D < fuel + length (comps p))%nat ->
  exists ret f', rm may fuel f p = Ok (ret, f') /\ removed f (comps p) ret f'.
Proof.
  induction fuel as [|fuel IH]; intros f p W HD Hf Hlen; [lia|]. cbn [rm]. unfold lstat.
  destruct (f !! comps p) as [k|] eqn:E; [|exists true, f; split; [done|by apply removed_none]].
  destruct (decide (k = KDir)) as [->|Hk].
  2: { destruct (unlink_removed f p k W E Hk) as (ret & f' & Eu & R). unfold opendir. rewrite E.
       destruct k; [done|..]; try (exists ret, f'; by rewrite Eu).
       all: exists false, f; split; [reflexivity|]; split; [done|done|done|by rewrite E|];
         intros [_ Hr]; destruct (Hr (comps p) _ ltac:(done) E) as (_ & ? & ?); done. }
  change (Z.land (st_mode KDir) S_IFDIR =? 0) with false. cbv iota. unfold opendir. rewrite E.
  destruct (rm_entries_spec (rm may fuel) p (children f (comps p)) f true W) as (ret & f1 & -> & W1 & Hsub & Hfr & Hret & Hall).
  { intros f1 [n k] Hs1 W1 Hc. apply children_spec in Hc. pose proof (wf_names _ W _ _ Hc) as Hnm.
    apply Forall_app in Hnm as [_ Hnm]. apply Forall_cons_1 in Hnm as [Hnm _]. cbn [fst].
    rewrite <- (comps_child p n Hnm). pose proof (HD _ _ Hc) as Hl. rewrite length_app in Hl. cbn in Hl.
    apply IH; [done| |lia|rewrite comps_child, length_app by done; cbn; lia].
    intros q j Hq. eapply HD. by eapply lookup_weaken. }
  cbn [obind].
  assert (Hself : f1 !! comps p = Some KDir).
  { rewrite Hfr; [done|]. intros e _ Hpre. apply prefix_length in Hpre. rewrite length_app in Hpre. cbn in Hpre. lia. }
  assert (Hout : forall q, ~ comps p `prefix_of` q -> f1 !! q = f !! q).
  { intros q Hq. apply Hfr. intros e _ Hpre. apply Hq. etrans; [|exact Hpre]. by apply prefix_app_r. }
  unfold sys_rmdir. rewrite Hself. pose proof (parent_ok_wf f1 (comps p) KDir W1 Hself) as Hpar.
  destruct (may (comps p) && parent_ok f1 (comps p) && _ && bool_decide (children f1 (comps p) = [])) eqn:Eb.
  - apply andb_true_iff in Eb as [Eb Hch]. apply bool_decide_eq_true in Hch.
    apply andb_true_iff in Eb as [Eb _]. apply andb_true_iff in Eb as [_ Hpo]. apply Hpar in Hpo.
    pose proof (proj1 (children_nil f1 (comps p)) Hch) as Hnone.
    assert (ret = true) as -> by (destruct ret; [done|]; destruct (Hret eq_refl) as [[_ ?]|[n Hn]]; [done|by rewrite Hnone in Hn]).
    exists true, (delete (comps p) f1). split; [done|]. split.
    + by apply delete_wf.
    + etrans; [apply delete_subseteq|done].
    + intros q Hq. rewrite lookup_delete_ne; [by apply Hout|]. by intros <-.
    + by rewrite lookup_delete_eq.
    + done.
  - exists false, f1. split; [done|]. split; [done|done|done|by rewrite Hself|]. intros [Hp Hr].
    exfalso. apply Bool.not_true_iff_false in Eb. apply Eb. rewrite !andb_true_iff. split_and!.
    + eapply Hr; [done|exact E].
    + by apply Hpar.
    + by apply bool_decide_eq_true_2.
    + apply bool_decide_eq_true_2, children_nil. intros n. destruct (f1 !! (comps p ++ [n])) as [k|] eqn:En; [|done].
      pose proof (lookup_weaken _ _ _ _ En Hsub) as Hn. apply children_spec in Hn as Hc.
      specialize (Hall) with (e := (n, k)). cbn in Hall. rewrite Hall in En; [done| |done].
      intros [m j] Hm. apply children_spec in Hm. split; [by destruct (comps p)|]. intros q j' Hq. apply Hr.
      etrans; [|exact Hq]. by apply prefix_app_r.
Qed.

End removal.

(** [Rm] returns, and says the truth: it returns true exactly when nothing is left at
    the path; it touches nothing outside the subtree, leaves a well-formed file system,
    and succeeds whenever the system lets everything in the subtree be removed and
    there are no sockets and block devices in it. *)
Lemma FSUtil_Rm_spec may f p : fs_wf f ->
  exists ret f', FSUtil_Rm may f p = Ok (ret, f') /\ removed may f (comps p) ret f'.
Proof. intros W. apply (rm_spec may (depth f)); [done|apply depth_bound|lia|lia]. Qed.

(** A socket has the bit of [S_IFDIR] set in its mode ([st_mode & S_IFDIR] is not
    [S_ISDIR]): [Rm] takes it for a directory, cannot open it, and fails. *)
Lemma FSUtil_Rm_socket may f p : f !! comps p = Some KSock -> FSUtil_Rm may f p = Ok (false, f).
Proof. intros E. unfold FSUtil_Rm. cbn [rm]. unfold lstat, opendir. by rewrite E. Qed.

(** ** Mkdir *)

Lemma comps_good s : Forall good_name (comps s).
Proof.
  assert (Hs : forall t, Forall (fun n => ~ In (chr "/") n) (segs t)).
  { unfold segs. induction t as [|c t IH]; cbn [parts]; [apply Forall_singleton; tauto|]. destruct (parts t) as [g r].
    apply Forall_cons_1 in IH as [Hg Hr]. destruct (Z.eqb_spec c (chr "/")).
    - apply Forall_cons. split; [tauto|by apply Forall_cons].
    - apply Forall_cons. split; [|done]. intros Hi. apply in_inv in Hi as [?|?]; [congruence|by apply Hg]. }
  rewrite comps_segs. apply Forall_forall. intros n Hn. apply list_elem_of_filter in Hn as [Hi Hn].
  split; [done|]. specialize (Hs s). rewrite Forall_forall in Hs. by apply Hs.
Qed.

Lemma comps_slash a b : comps (a ++ chr "/" :: b) = comps a ++ comps b.
Proof. by rewrite !comps_segs, segs_slash, filter_app. Qed.

Lemma slashes_prefix s : forall seen a, a ∈ slashes seen s -> exists b, seen ++ s = a ++ chr "/" :: b.
Proof.
  induction s as [|c s IH]; intros seen a Ha; cbn [slashes] in Ha; [by apply not_elem_of_nil in Ha|].
  apply elem_of_app in Ha as [Ha|Ha].
  - destruct (Z.eqb_spec c (chr "/")) as [->|]; [|by apply not_elem_of_nil in Ha].
    apply list_elem_of_singleton in Ha as ->. by exists s.
  - destruct (IH _ _ Ha) as [b E]. exists b. rewrite <- E, <- app_assoc. done.
Qed.

(** What creating directories on the way to [p] does. *)
Record made (f : fs) (p : path) (f' : fs) : Prop := {
  mk_wf : fs_wf f';
  mk_sub : f ⊆ f';
  mk_new : forall q k, f' !! q = Some k -> f !! q = Some k \/ (k = KDir /\ q `prefix_of` p)
}.

Section making.
Context (may resolves : path -> bool).

Lemma made_refl f p : fs_wf f -> made f p f.
Proof. intros W. split; [done|done|auto]. Qed.

Lemma made_trans f1 f2 f3 p : made f1 p f2 -> made f2 p f3 -> made f1 p f3.
Proof.
  intros [_ S1 N1] [W3 S2 N2]. split; [done|by etrans|]. intros q k Hq. destruct (N2 q k Hq) as [Hq'|?]; auto.
Qed.

Lemma mkdir_made f p q ok f' : fs_wf f -> comps p `prefix_of` q -> mkdir_ may resolves f p = (ok, f') ->
  made f q f' /\ (ok = true -> f' !! comps p <> None).
Proof.
  intros W Hp. unfold mkdir_, access_ok. destruct (f !! comps p) as [k|] eqn:E.
  - assert (He : (if (match k with KLink => resolves (comps p) | _ => true end) then (true, f) else sys_mkdir may f p) = (ok, f') ->
      made f q f' /\ (ok = true -> f' !! comps p <> None)).
    { unfold sys_mkdir. rewrite E, (bool_decide_eq_false_2 (Some k = None)), !andb_false_r by done.
      destruct (match k with KLink => _ | _ => _ end); intros [= <- <-]; (split; [by apply made_refl|]); [by rewrite E|done]. }
    destruct k; exact He.
  - unfold sys_mkdir. rewrite E, (bool_decide_eq_true_2 (None = None)), andb_true_r by done.
    destruct (may (comps p) && parent_ok f (comps p)) eqn:Eb; intros [= <- <-]; [|by split; [apply made_refl|]].
    split; [|by rewrite lookup_insert_eq]. apply andb_true_iff in Eb as [_ Hpar].
    assert (exists d n, comps p = d ++ [n] /\ f !! d = Some KDir) as (d & n & Ed & Hd).
    { destruct (comps p) as [|n d _] eqn:Ec using rev_ind; [done|]. exists d, n. split; [done|]. unfold parent_ok in Hpar.
      rewrite removelast_last in Hpar. destruct (d ++ [n]) eqn:Edn; [by destruct d|]. by apply bool_decide_eq_true in Hpar. }
    split.
    + destruct W as [H1 H2 H3]. split.
      * rewrite lookup_insert_ne; [done|]. rewrite Ed. by destruct d.
      * intros p' k' Hk'. apply lookup_insert_Some in Hk' as [[<- _]|[_ Hk']]; [apply comps_good|by eapply H2].
      * intros p' n' k' Hk'. destruct (decide (p' = comps p)) as [->|Hne].
        { by rewrite lookup_insert_eq. }
        rewrite lookup_insert_ne by done. apply lookup_insert_Some in Hk' as [[Heq _]|[_ Hk']]; [|by eapply H3].
        rewrite Ed in Heq. apply app_inj_tail in Heq as [-> _]. done.
    + by apply insert_subseteq.
    + intros p' k' Hk'. apply lookup_insert_Some in Hk' as [[<- <-]|[_ Hk']]; auto.
Qed.

Lemma mkdirs_made q l : forall f ok f', fs_wf f -> (forall a, a ∈ l -> comps a `prefix_of` q) ->
  mkdirs may resolves f l = (ok, f') -> made f q f'.
Proof.
  induction l as [|a l IH]; intros f ok f' W Hl E; cbn [mkdirs] in E; [injection E as <- <-; by apply made_refl|].
  destruct (mkdir_ may resolves f a) as [b f1] eqn:E1. destruct (mkdir_made f a q b f1 W) as [M _]; [apply Hl; left|done|].
  destruct b; [|by injection E as <- <-]. eapply made_trans; [exact M|]. eapply IH; [by destruct M| |exact E].
  intros x Hx. apply Hl. by right.
Qed.

(** [Mkdir] of a path that is not empty returns; when it returns true there is
    something at the path; it adds directories on the way to the path and changes
    nothing else. *)
Lemma FSUtil_Mkdir_spec f p : fs_wf f -> p <> [] ->
  exists ok f', FSUtil_Mkdir may resolves f p = Ok (ok, f') /\ made f (comps p) f' /\ (ok = true -> f' !! comps p <> None).
Proof.
  intros W Hp. unfold FSUtil_Mkdir, lstat. destruct (f !! comps p) as [k|] eqn:E.
  { exists true, f. split_and!; [done|by apply made_refl|by rewrite E]. }
  destruct p as [|c r]; [done|]. destruct (mkdirs may resolves f (slashes [c] r)) as [b f1] eqn:E1.
  assert (M : made f (comps (c :: r)) f1).
  { eapply mkdirs_made; [done| |exact E1]. intros a Ha. apply slashes_prefix in Ha as [t Et]. change (c :: r) with ([c] ++ r).
    rewrite Et, comps_slash. by apply prefix_app_r. }
  destruct b; [|by exists false, f1]. destruct (mkdir_ may resolves f1 (c :: r)) as [b f2] eqn:E2.
  destruct (mkdir_made f1 (c :: r) (comps (c :: r)) b f2) as [M2 H2]; [by destruct M|done|done|].
  exists b, f2. split_and!; [done|by eapply made_trans|done].
Qed.

End making.

(** ** ListAllFile *)

(** The path of an entry some levels below [p]. *)
Definition below (p : bytes) (rel : path) : bytes := p ++ concat (map (fun n => str "/" ++ n) rel).

Definition has_suffix (subfix n : bytes) : Prop := exists a, n = a ++ subfix.

Lemma ends_with_spec n subfix : (length subfix <= length n)%nat -> ends_with n subfix = true <-> has_suffix subfix n.
Proof.
  intros Hl. unfold ends_with, has_suffix. rewrite bool_decide_eq_true. split.
  - intros E. exists (take (length n - length subfix) n). rewrite <- E at 2. by rewrite take_drop.
  - intros [a ->]. rewrite length_app. replace (length a + length subfix - length subfix)%nat with (length a) by lia.
    apply drop_app_length.
Qed.

Lemma each_spec {A B} (g : A -> outcome (list B)) (P : A -> B -> Prop) l :
  (forall x, x ∈ l -> exists r, g x = Ok r /\ forall y, y ∈ r <-> P x y) ->
  exists r, each g l = Ok r /\ forall y, y ∈ r <-> exists x, x ∈ l /\ P x y.
Proof.
  induction l as [|x l IH]; intros H; cbn [each].
  { exists []. split; [done|]. intros y. split; [by intros ?%not_elem_of_nil|]. intros (x & Hx & _). by apply not_elem_of_nil in Hx. }
  destruct (H x) as (a & -> & Ha); [left|]. destruct IH as (b & -> & Hb); [intros z Hz; apply H; by right|].
  exists (a ++ b). split; [done|]. intros y. rewrite elem_of_app, Ha, Hb. split.
  - intros [Hp|(z & Hz & Hp)]; [exists x; split; [left|done]|exists z; split; [by right|done]].
  - intros (z & Hz & Hp). apply elem_of_cons in Hz as [->|Hz]; [by left|right; eauto].
Qed.

Lemma ancestor_dir f a b n k : fs_wf f -> f !! (a ++ b ++ [n]) = Some k -> f !! a = Some KDir.
Proof.
  intros W. revert n k. induction b as [|m b IH] using rev_ind; intros n k H; [by eapply wf_parent|].
  rewrite <- app_assoc in H. rewrite (app_assoc a), (app_assoc (a ++ b)) in H. apply (wf_parent _ W) in H.
  rewrite <- app_assoc in H. by eapply IH.
Qed.

Lemma below_child p n rel : below (p ++ str "/" ++ n) rel = below p (n :: rel).
Proof. unfold below. cbn [map concat]. by rewrite !app_assoc. Qed.

(** What one entry contributes. *)
Definition contributes (f : fs) (p subfix : bytes) (e : bytes * kind) (x : bytes) : Prop :=
  (snd e = KReg /\ x = below p [fst e] /\ has_suffix subfix (fst e)) \/
  (snd e = KDir /\ exists rel n, x = below p (fst e :: rel ++ [n]) /\
     f !! (comps p ++ fst e :: rel ++ [n]) = Some KReg /\ has_suffix subfix n).

Lemma list_entry_spec f rec p subfix e :
  (snd e = KDir -> exists l, rec (p ++ str "/" ++ fst e) = Ok l /\
     forall x, x ∈ l <-> exists rel n, x = below p (fst e :: rel ++ [n]) /\
       f !! (comps p ++ fst e :: rel ++ [n]) = Some KReg /\ has_suffix subfix n) ->
  exists l, list_entry rec p subfix e = Ok l /\ forall x, x ∈ l <-> contributes f p subfix e x.
Proof.
  intros Hrec. unfold list_entry, contributes. destruct e as [m k]. cbn [fst snd] in *.
  assert (Hb : below p [m] = p ++ str "/" ++ m) by (unfold below; cbn; by rewrite app_nil_r).
  destruct k; try (exists []; split; [done|]; intros x; split; [by intros ?%not_elem_of_nil|naive_solver]).
  - destruct Hrec as (l & -> & Hl); [done|]. exists l. split; [done|]. intros x. rewrite Hl. naive_solver.
  - assert (Hone : has_suffix subfix m -> forall x, x ∈ [p ++ str "/" ++ m] <->
      (KReg = KReg /\ x = below p [m] /\ has_suffix subfix m) \/ (KReg = KDir /\ exists rel n, x = below p (m :: rel ++ [n]) /\
        f !! (comps p ++ m :: rel ++ [n]) = Some KReg /\ has_suffix subfix n))
      by (intros Hs x; rewrite list_elem_of_singleton, Hb; naive_solver).
    assert (Hnone : ~ has_suffix subfix m -> forall x, x ∈ @nil bytes <->
      (KReg = KReg /\ x = below p [m] /\ has_suffix subfix m) \/ (KReg = KDir /\ exists rel n, x = below p (m :: rel ++ [n]) /\
        f !! (comps p ++ m :: rel ++ [n]) = Some KReg /\ has_suffix subfix n))
      by (intros Hs x; split; [by intros ?%not_elem_of_nil|naive_solver]).
    destruct subfix as [|c subfix]; [eexists; split; [done|]; apply Hone; exists m; by rewrite app_nil_r|].
    destruct (Nat.ltb_spec (length m) (length (c :: subfix))) as [Hlt|Hge].
    + eexists. split; [done|]. apply Hnone. intros [a Ea]. rewrite Ea, length_app in Hlt. cbn in Hlt. lia.
    + destruct (ends_with m (c :: subfix)) eqn:Ee; (eexists; split; [done|]); [apply Hone|apply Hnone].
      * by apply ends_with_spec.
      * intros Hs. apply ends_with_spec in Hs; [congruence|lia].
Qed.

Lemma list_files_spec resolves f subfix D : fs_wf f -> (forall q k, f !! q = Some k -> (length q <= D)%nat) ->
  forall fuel p, f !! comps p = Some KDir -> (D < fuel + length (comps p))%nat ->
  exists l, list_files resolves fuel f p subfix = Ok l /\
    forall x, x ∈ l <-> exists rel n, x = below p (rel ++ [n]) /\ f !! (comps p ++ rel ++ [n]) = Some KReg /\ has_suffix subfix n.
Proof.
  intros W HD fuel. induction fuel as [|fuel IH]; intros p E Hlen; [specialize (HD _ _ E); lia|]. cbn [list_files].
  unfold access_ok, opendir. rewrite E. cbn [negb].
  destruct (each_spec (list_entry (fun q => list_files resolves fuel f q subfix) p subfix) (contributes f p subfix)
    (children f (comps p))) as (l & -> & Hl).
  { intros [m k] Hm. apply children_spec in Hm. apply list_entry_spec. cbn [fst snd]. intros ->.
    pose proof (wf_names _ W _ _ Hm) as Hg. apply Forall_app in Hg as [_ Hg]. apply Forall_cons_1 in Hg as [Hg _].
    destruct (IH (p ++ str "/" ++ m)) as (l & -> & Hl); [by rewrite comps_child|rewrite comps_child, length_app by done; cbn; lia|].
    exists l. split; [done|]. intros x. rewrite Hl. setoid_rewrite below_child. rewrite comps_child by done.
    by setoid_rewrite <- app_assoc. }
  exists l. split; [done|]. intros x. rewrite Hl. split.
  - intros ([m k] & Hm & [(Hk & -> & Hs)|(Hk & rel & n & -> & Hr & Hs)]); cbn [fst snd] in *; subst k.
    + exists [], m. apply children_spec in Hm. done.
    + exists (m :: rel), n. done.
  - intros ([|m rel] & n & -> & Hr & Hs).
    + exists (n, KReg). split; [by apply children_spec|]. left. done.
    + exists (m, KDir). split; [|right; split; [done|eauto]]. apply children_spec.
      eapply (ancestor_dir f (comps p ++ [m]) rel n); [done|]. rewrite <- app_assoc. exact Hr.
Qed.

(** [ListAllFile] of a directory appends exactly the regular files anywhere below it
    whose names end with the suffix, each by its path from the directory given. *)
Lemma FSUtil_ListAllFile_spec resolves f files p subfix : fs_wf f -> f !! comps p = Some KDir ->
  exists l, FSUtil_ListAllFile resolves f files p subfix = Ok (files ++ l) /\
    forall x, x ∈ l <-> exists rel n, x = below p (rel ++ [n]) /\ f !! (comps p ++ rel ++ [n]) = Some KReg /\ has_suffix subfix n.
Proof.
  intros W E. unfold FSUtil_ListAllFile.
  destruct (list_files_spec resolves f subfix (depth f) W (depth_bound f) (S (S (depth f))) p E) as (l & -> & Hl); [lia|].
  by exists l.
Qed.

(** A root with one file in it is well formed, so the premises above can hold. *)
Lemma one_file_wf n : good_name n -> fs_wf {[ [] := KDir; [n] := KReg ]}.
Proof.
  intros Hn. split.
  - by rewrite lookup_insert_eq.
  - intros p k Hp. apply lookup_insert_Some in Hp as [[<- _]|[_ Hp]]; [constructor|].
    apply lookup_singleton_Some in Hp as [<- _]. by apply Forall_singleton.
  - intros p m k Hp. apply lookup_insert_Some in Hp as [[E _]|[_ Hp]]; [by destruct p|].
    apply lookup_singleton_Some in Hp as [E _]. destruct p as [|x p]; [by rewrite lookup_insert_eq|by destruct p].
Qed.
