(* ===== verification/Json.v ===== *)
(** * JSON ([util/json_util.cc] and the conversions of [util.cc])

    Values of jsoncpp, the escaping and the typed access of [JsonUtil], the conversions
    from and to YAML, and protobuf messages written as JSON.  An object is kept in the
    order of its keys; floating-point numbers are a parameter.  An exception of jsoncpp
    is [None], or a [Throw] where the code does not catch it. *)

From S2P Require Import Prelude Text UtilAlgo LogFormatter LexicalCast.
From Stdlib Require Import ZArith Lia List String Sorted.
From stdpp Require Import base tactics list numbers option.

Open Scope Z_scope.
Open Scope list_scope.

(** ** Escaping *)

(** The characters that are escaped, with what stands for them. *)
Definition escape_char (c : Z) : option Z :=
  if c =? 12 then Some (chr "f")
  else if c =? 9 then Some (chr "t")
  else if c =? 13 then Some (chr "r")
  else if c =? 10 then Some (chr "n")
  else if c =? 8 then Some (chr "b")
  else if c =? 34 then Some 34
  else if c =? 92 then Some 92
  else None.

(** @src util/json_util.cc:6-22 JsonUtil::NeedEscape *)
Fixpoint JsonUtil_NeedEscape (v : bytes) : bool :=
  match v with [] => false | c :: v => match escape_char c with Some _ => true | None => JsonUtil_NeedEscape v end end.

(** @src util/json_util.cc:25-41 JsonUtil::Escape
    The size of the result. *)
Fixpoint escape_size (v : bytes) : nat :=
  match v with [] => 0 | c :: v => match escape_char c with Some _ => 2 | None => 1 end + escape_size v end%nat.

(** @src util/json_util.cc:48-76 JsonUtil::Escape
    The loop that appends. *)
Fixpoint escape_append (rt v : bytes) : bytes :=
  match v with
  | [] => rt
  | c :: v => escape_append (match escape_char c with Some e => rt ++ [92; e] | None => rt ++ [c] end) v
  end.

(** @src util/json_util.cc:24-78 JsonUtil::Escape
    [resize] fills with null characters, behind which the loop appends. *)
Definition JsonUtil_Escape (v : bytes) : bytes :=
  let size := escape_size v in
  if (size =? length v)%nat then v
  else escape_append (replicate size 0) v.

(** What the loop means to make. *)
Definition escaped (v : bytes) : bytes := flat_map (fun c => match escape_char c with Some e => [92; e] | None => [c] end) v.

Definition unescape_char (e : Z) : option Z :=
  if e =? chr "f" then Some 12 else if e =? chr "t" then Some 9 else if e =? chr "r" then Some 13
  else if e =? chr "n" then Some 10 else if e =? chr "b" then Some 8 else if e =? 34 then Some 34 else if e =? 92 then Some 92 else None.

(** Reading the escapes of a JSON text. *)
Fixpoint unescape (v : bytes) : option bytes :=
  match v with
  | [] => Some []
  | c :: r =>
    if c =? 92 then match r with e :: r => match unescape_char e, unescape r with Some c, Some r => Some (c :: r) | _, _ => None end | [] => None end
    else if c =? 34 then None else match unescape r with Some r => Some (c :: r) | None => None end
  end.

Lemma escape_append_spec v : forall rt, escape_append rt v = rt ++ escaped v.
Proof.
  induction v as [|c v IH]; intros rt; cbn [escape_append escaped flat_map]; [by rewrite app_nil_r|]. rewrite IH.
  destruct (escape_char c); by rewrite <- app_assoc.
Qed.

Lemma escape_size_spec v : escape_size v = length (escaped v).
Proof. induction v as [|c v IH]; cbn; [done|]. rewrite length_app, IH. by destruct (escape_char c). Qed.

Lemma NeedEscape_spec v : if JsonUtil_NeedEscape v then (length v < escape_size v)%nat else escape_size v = length v /\ escaped v = v.
Proof.
  induction v as [|c v IH]; cbn [JsonUtil_NeedEscape escape_size escaped flat_map length]; [done|].
  assert (length v <= escape_size v)%nat by (destruct (JsonUtil_NeedEscape v); lia).
  destruct (escape_char c); [lia|]. destruct (JsonUtil_NeedEscape v); [lia|]. destruct IH as [-> IH]. split; [done|]. cbn. by f_equal.
Qed.

(** The escapes are read back. *)
Lemma unescape_escaped v : unescape (escaped v) = Some v.
Proof.
  induction v as [|c v IH]; [done|]. cbn [escaped flat_map]. fold (escaped v). unfold escape_char.
  repeat (match goal with |- context [if ?a =? ?b then _ else _] => destruct (Z.eqb_spec a b) as [->|?] end;
    [cbn [app unescape]; change (92 =? 92) with true; cbn; by rewrite IH|]).
  cbn [app unescape]. rewrite (proj2 (Z.eqb_neq c 92)), (proj2 (Z.eqb_neq c 34)), IH by done. done.
Qed.

(** A text with nothing to escape is returned; any other one is escaped, behind as many
    null characters as the result was to have. *)
Lemma JsonUtil_Escape_spec v :
  JsonUtil_Escape v = if JsonUtil_NeedEscape v then replicate (length (escaped v)) 0 ++ escaped v else v.
Proof.
  unfold JsonUtil_Escape. pose proof (NeedEscape_spec v) as H. destruct (JsonUtil_NeedEscape v).
  - rewrite (proj2 (Nat.eqb_neq _ _)) by lia. by rewrite escape_append_spec, escape_size_spec.
  - destruct H as [-> _]. by rewrite Nat.eqb_refl.
Qed.

Section json.
(** Floating-point numbers. *)
Context {real : Type}.

(** ** Values *)

Inductive json :=
| JNull | JBool (b : bool) | JInt (z : Z) | JUInt (z : Z) | JReal (r : real) | JString (s : bytes)
| JArray (l : list json) | JObject (l : list (bytes * json)).

Lemma json_nested_ind (P : json -> Prop) :
  P JNull -> (forall b, P (JBool b)) -> (forall z, P (JInt z)) -> (forall z, P (JUInt z)) -> (forall r, P (JReal r)) -> (forall s, P (JString s)) ->
  (forall l, Forall P l -> P (JArray l)) -> (forall l, Forall (fun kv => P (snd kv)) l -> P (JObject l)) -> forall j, P j.
Proof.
  intros H0 H1 H2 H3 H4 H5 H6 H7. fix IH 1. intros [|b|z|z|r|s|l|l]; [done|done|done|done|done|done|apply H6|apply H7].
  - induction l as [|x l IHl]; constructor; [apply IH|apply IHl].
  - induction l as [|[k v] l IHl]; constructor; [apply IH|apply IHl].
Qed.

(** The members of an object. *)
Fixpoint obj_set (k : bytes) (v : json) (l : list (bytes * json)) : list (bytes * json) :=
  match l with
  | [] => [(k, v)]
  | (k', v') :: r => if lex_lt k k' then (k, v) :: l else if lex_lt k' k then (k', v') :: obj_set k v r else (k, v) :: r
  end.

Fixpoint obj_find (k : bytes) (l : list (bytes * json)) : option json :=
  match l with [] => None | (k', v) :: l => if bool_decide (k = k') then Some v else obj_find k l end.

(** [append], [j[k] = v], and [j[k]] for reading. *)
Definition json_append (j v : json) : option json :=
  match j with JNull => Some (JArray [v]) | JArray l => Some (JArray (l ++ [v])) | _ => None end.
Definition json_put (j : json) (k : bytes) (v : json) : option json :=
  match j with JNull => Some (JObject [(k, v)]) | JObject l => Some (JObject (obj_set k v l)) | _ => None end.
Definition json_get (j : json) (k : bytes) : option json :=
  match j with JNull => Some JNull | JObject l => Some (default JNull (obj_find k l)) | _ => None end.

(** ** Typed access *)

Section access.
(** The integer that a number is, if it is one, the number an integer is, and [Atof]. *)
Context (real_int : real -> option Z) (int_real : Z -> real) (Atof : bytes -> real).

(** [isMember]: [None] where it throws, for what is neither an object nor null. *)
Definition isMember (j : json) (name : bytes) : option bool :=
  match j with JNull => Some false | JObject l => Some (match obj_find name l with Some _ => true | None => false end) | _ => None end.

(** The integer that a number is, if it is in the range. *)
Definition integral (j : json) : option Z := match j with JInt z | JUInt z => Some z | JReal r => real_int r | _ => None end.
Definition as_range (lo hi : Z) (j : json) : option Z :=
  match integral j with Some z => if (lo <=? z) && (z <=? hi) then Some z else None | None => None end.

(** The members all the functions below look at in the same way: absent, or present. *)
Definition with_member {A} (j : json) (name : bytes) (default_value : A) (k : json -> A) : outcome A :=
  match isMember j name with
  | None => Throw logic_error
  | Some false => Ok default_value
  | Some true => match json_get j name with Some v => Ok (k v) | None => Throw logic_error end
  end.

(** @src util/json_util.cc:80-91 JsonUtil::GetString *)
Definition JsonUtil_GetString (j : json) (name default_value : bytes) : outcome bytes :=
  with_member j name default_value (fun v => match v with JString s => s | _ => default_value end).

(** @src util/json_util.cc:93-106 JsonUtil::GetDouble *)
Definition JsonUtil_GetDouble (j : json) (name : bytes) (default_value : real) : outcome real :=
  with_member j name default_value (fun v =>
    match v with JReal r => r | JInt z | JUInt z => int_real z | JString s => Atof s | _ => default_value end).

(** An integer of a width: a number in the range, or a text, which is converted. *)
Definition get_int (lo hi : Z) (wrap : Z -> Z) (j : json) (name : bytes) (default_value : Z) : outcome Z :=
  with_member j name default_value (fun v =>
    match as_range lo hi v with
    | Some z => z
    | None => match v with JString s => wrap (TypeUtil_Atoi s) | _ => default_value end
    end).

(** @src util/json_util.cc:108-121 JsonUtil::GetInt32 *)
Definition JsonUtil_GetInt32 := get_int (- 2 ^ 31) (2 ^ 31 - 1) (swrap 32).
(** @src util/json_util.cc:123-136 JsonUtil::GetUint32 *)
Definition JsonUtil_GetUint32 := get_int 0 (2 ^ 32 - 1) (uwrap 32).
(** @src util/json_util.cc:138-151 JsonUtil::GetInt64 *)
Definition JsonUtil_GetInt64 := get_int (- 2 ^ 63) (2 ^ 63 - 1) (swrap 64).
(** @src util/json_util.cc:153-166 JsonUtil::GetUint64 *)
Definition JsonUtil_GetUint64 := get_int 0 (2 ^ 64 - 1) (uwrap 64).

End access.

(** ** YAML *)

Section yaml.
(** The text of a number. *)
Context (real_text : real -> bytes).

(** @src util.cc:849-879 YamlToJson
    Whether it succeeds and what [jnode] is then. *)
Fixpoint YamlToJson (ynode : yaml) (jnode : json) : bool * json :=
  match ynode with
  | YScalar s => (true, JString s)
  | YSeq l =>
    (fix loop (l : list yaml) (jnode : json) : bool * json :=
       match l with
       | [] => (true, jnode)
       | y :: l =>
         let '(ok, v) := YamlToJson y JNull in
         if ok : bool then match json_append jnode v with Some jnode => loop l jnode | None => (false, jnode) end else (false, jnode)
       end) l jnode
  | YMap l =>
    (fix loop (l : list (yaml * yaml)) (jnode : json) : bool * json :=
       match l with
       | [] => (true, jnode)
       | (k, y) :: l =>
         let '(ok, v) := YamlToJson y JNull in
         if ok : bool then match json_put jnode (yaml_Scalar k) v with Some jnode => loop l jnode | None => (false, jnode) end else (false, jnode)
       end) l jnode
  | YNull => (true, jnode)
  end.

(** [asString]; containers throw. *)
Definition asString (j : json) : option bytes :=
  match j with
  | JNull => Some []
  | JBool b => Some (if b then str "true" else str "false")
  | JInt z | JUInt z => Some (sdec z)
  | JReal r => Some (real_text r)
  | JString s => Some s
  | JArray _ | JObject _ => None
  end.

(** [ynode[k] = n] for a map. *)
Fixpoint ymap_set (k : bytes) (n : yaml) (l : list (yaml * yaml)) : list (yaml * yaml) :=
  match l with
  | [] => [(YScalar k, n)]
  | (k', v) :: l => if (match k' with YScalar s => bool_decide (s = k) | _ => false end) then (k', n) :: l else (k', v) :: ymap_set k n l
  end.

Definition ymap_of (l : list (yaml * yaml)) : yaml := match l with [] => YNull | _ => YMap l end.

(** @src util.cc:881-907 JsonToYaml
    into a fresh node; [None] is the result [false]. *)
Fixpoint JsonToYaml (jnode : json) : option yaml :=
  match jnode with
  | JArray l =>
    (fix loop (l : list json) (acc : list yaml) : option yaml :=
       match l with
       | [] => Some (push_back_all acc)
       | j :: l => match JsonToYaml j with Some n => loop l (acc ++ [n]) | None => None end
       end) l []
  | JObject l =>
    (fix loop (l : list (bytes * json)) (acc : list (yaml * yaml)) : option yaml :=
       match l with
       | [] => Some (ymap_of acc)
       | (k, j) :: l => match JsonToYaml j with Some n => loop l (ymap_set k n acc) | None => None end
       end) l []
  | _ => YScalar <$> asString jnode
  end.

(** ** The conversions undo each other *)

(** The loops. *)
Fixpoint from_seq (l : list yaml) (jnode : json) : bool * json :=
  match l with
  | [] => (true, jnode)
  | y :: l =>
    let '(ok, v) := YamlToJson y JNull in
    if ok : bool then match json_append jnode v with Some jnode => from_seq l jnode | None => (false, jnode) end else (false, jnode)
  end.

Fixpoint from_map (l : list (yaml * yaml)) (jnode : json) : bool * json :=
  match l with
  | [] => (true, jnode)
  | (k, y) :: l =>
    let '(ok, v) := YamlToJson y JNull in
    if ok : bool then match json_put jnode (yaml_Scalar k) v with Some jnode => from_map l jnode | None => (false, jnode) end else (false, jnode)
  end.

Fixpoint to_seq (l : list json) (acc : list yaml) : option yaml :=
  match l with [] => Some (push_back_all acc) | j :: l => match JsonToYaml j with Some n => to_seq l (acc ++ [n]) | None => None end end.

Fixpoint to_map (l : list (bytes * json)) (acc : list (yaml * yaml)) : option yaml :=
  match l with [] => Some (ymap_of acc) | (k, j) :: l => match JsonToYaml j with Some n => to_map l (ymap_set k n acc) | None => None end end.

Lemma YamlToJson_seq l j : YamlToJson (YSeq l) j = from_seq l j.
Proof. reflexivity. Qed.
Lemma YamlToJson_map l j : YamlToJson (YMap l) j = from_map l j.
Proof. reflexivity. Qed.
Lemma JsonToYaml_seq l : JsonToYaml (JArray l) = to_seq l [].
Proof. reflexivity. Qed.
Lemma JsonToYaml_map l : JsonToYaml (JObject l) = to_map l [].
Proof. reflexivity. Qed.

(** A conversion of a YAML document into a fresh value succeeds. *)
Lemma YamlToJson_total y : fst (YamlToJson y JNull) = true.
Proof.
  induction y as [|s|l IH|l IH] using yaml_nested_ind; [done|done| |].
  - rewrite YamlToJson_seq. assert (forall j, (j = JNull \/ exists a, j = JArray a) -> fst (from_seq l j) = true) as H; [|by apply H; left].
    induction IH as [|y l Hy _ IHl]; intros j Hj; cbn [from_seq]; [done|]. destruct (YamlToJson y JNull) as [ok v]. cbn in Hy. subst ok.
    destruct Hj as [->|[a ->]]; cbn [json_append]; apply IHl; eauto.
  - rewrite YamlToJson_map. assert (forall j, (j = JNull \/ exists a, j = JObject a) -> fst (from_map l j) = true) as H; [|by apply H; left].
    induction IH as [|[k y] l [_ Hy] _ IHl]; intros j Hj; cbn [from_map]; [done|]. cbn in Hy. destruct (YamlToJson y JNull) as [ok v]. cbn in Hy. subst ok.
    destruct Hj as [->|[a ->]]; cbn [json_put]; apply IHl; eauto.
Qed.

(** The order of the members of an object. *)
Definition key_lt (a b : bytes * json) : Prop := lex_lt (fst a) (fst b) = true.

Inductive json_wf : json -> Prop :=
| wf_leaf j : asString j <> None -> json_wf j
| wf_array l : Forall json_wf l -> json_wf (JArray l)
| wf_object l : StronglySorted key_lt l -> Forall (fun kv => json_wf (snd kv)) l -> json_wf (JObject l).

(** What is left of a value: numbers, truth values and null are texts, empty containers
    are null. *)
Fixpoint texts (j : json) : json :=
  match j with
  | JArray [] | JObject [] => JNull
  | JArray l => JArray (map texts l)
  | JObject l => JObject (map (fun kv => (fst kv, texts (snd kv))) l)
  | _ => JString (default [] (asString j))
  end.

Lemma from_seq_spec ys js : Forall2 (fun y j => YamlToJson y JNull = (true, j)) ys js -> forall pre, from_seq ys (JArray pre) = (true, JArray (pre ++ js)).
Proof.
  induction 1 as [|y j ys js Hy _ IH]; intros pre; cbn [from_seq]; [by rewrite app_nil_r|]. rewrite Hy. cbn [json_append]. by rewrite IH, <- app_assoc.
Qed.

Lemma to_seq_spec js ys : Forall2 (fun j y => JsonToYaml j = Some y) js ys -> forall acc, to_seq js acc = Some (push_back_all (acc ++ ys)).
Proof. induction 1 as [|j y js ys Hj _ IH]; intros acc; cbn [to_seq]; [by rewrite app_nil_r|]. by rewrite Hj, IH, <- app_assoc. Qed.

Lemma obj_set_last k v l : Forall (fun x => lex_lt (fst x) k = true) l -> obj_set k v l = l ++ [(k, v)].
Proof.
  induction 1 as [|[k' v'] l Hk _ IH]; cbn; [done|]. cbn in Hk. destruct (lex_lt k k') eqn:E; [|by rewrite Hk, IH].
  pose proof (lex_lt_trans _ _ _ E Hk) as H. by rewrite lex_lt_irrefl in H.
Qed.

Lemma ymap_set_new k n l : Forall (fun x => fst x <> YScalar k) l -> ymap_set k n l = l ++ [(YScalar k, n)].
Proof.
  induction 1 as [|[k' v'] l Hk _ IH]; cbn; [done|]. cbn in Hk. destruct k'; rewrite ?IH; try done. rewrite bool_decide_false by congruence. done.
Qed.

Lemma from_map_spec (kys : list (bytes * yaml)) js : Forall2 (fun y j => fst y = fst j /\ YamlToJson (snd y) JNull = (true, snd j)) kys js ->
  forall pre, StronglySorted key_lt (pre ++ js) ->
    from_map (map (fun ky => (YScalar (fst ky), snd ky)) kys) (JObject pre) = (true, JObject (pre ++ js)).
Proof.
  induction 1 as [|[k y] [k' j] kys js [Hk Hy] _ IH]; intros pre Hs; cbn [from_map map]; [by rewrite app_nil_r|]. cbn in Hk, Hy. subst k'. cbn [fst snd].
  rewrite Hy. cbn [json_put yaml_Scalar]. rewrite obj_set_last; [rewrite IH; [by rewrite <- app_assoc|by rewrite <- app_assoc]|].
  clear IH. induction pre as [|p pre IHp]; constructor; inversion Hs as [|? ? Hs' Hf]; subst; [|by apply IHp].
  rewrite List.Forall_forall in Hf. apply (Hf (k, j)). apply in_app_iff. right. by left.
Qed.

Lemma to_map_spec js (kys : list (bytes * yaml)) : Forall2 (fun j y => fst j = fst y /\ JsonToYaml (snd j) = Some (snd y)) js kys ->
  forall pre, NoDup (map fst (pre ++ kys)) -> to_map js (map (fun ky => (YScalar (fst ky), snd ky)) pre) =
    Some (ymap_of (map (fun ky => (YScalar (fst ky), snd ky)) (pre ++ kys))).
Proof.
  induction 1 as [|[k j] [k' y] js kys [Hk Hy] _ IH]; intros pre Hn; cbn [to_map]; [by rewrite app_nil_r|]. cbn in Hk, Hy. subst k'. rewrite Hy.
  rewrite ymap_set_new.
  - change ([(YScalar k, y)]) with (map (fun ky : bytes * yaml => (YScalar (fst ky), snd ky)) [(k, y)]). rewrite <- map_app.
    rewrite IH; by rewrite <- app_assoc.
  - apply Forall_fmap, List.Forall_forall. intros [k2 y2] H2. cbn. intros [= ->]. rewrite map_app in Hn. apply list.NoDup_app in Hn as (_ & Hd & _).
    apply (Hd k); [|by left]. apply list_elem_of_In, in_map_iff. by exists (k, y2).
Qed.

Lemma sorted_nodup l : StronglySorted key_lt l -> NoDup (map fst l).
Proof.
  induction 1 as [|x l _ IH Hf]; cbn; constructor; [|done]. intros H%list_elem_of_In%in_map_iff. destruct H as (y & E & Hy).
  rewrite List.Forall_forall in Hf. specialize (Hf y Hy). unfold key_lt in Hf. by rewrite E, lex_lt_irrefl in Hf.
Qed.

Lemma sorted_texts l : StronglySorted key_lt l -> StronglySorted key_lt (map (fun kv => (fst kv, texts (snd kv))) l).
Proof. induction 1 as [|x l _ IH Hf]; cbn; constructor; [done|]. apply Forall_fmap. exact Hf. Qed.

(** a JSON value survives the way through YAML.  For every value whose objects are
    in order, [JsonToYaml] succeeds and [YamlToJson] of its result gives the value back
    with its structure, its keys and its texts; numbers, truth values and null come back
    as texts, and empty containers as null. *)
Lemma json_yaml_roundtrip j : json_wf j -> exists y, JsonToYaml j = Some y /\ YamlToJson y JNull = (true, texts j).
Proof.
  induction j as [| | | | | |l IH|l IH] using json_nested_ind; intros Hw; try (by eexists); inversion Hw as [|? Hl|? Hs Hl]; subst; try done.
  - assert (exists ys, Forall2 (fun j y => JsonToYaml j = Some y) l ys /\ Forall2 (fun y j => YamlToJson y JNull = (true, j)) ys (map texts l)) as (ys & H1 & H2).
    { clear Hw. induction IH as [|j l Hj _ IHl]; [by exists []; split; constructor|]. apply Forall_cons_1 in Hl as [Hjw Hl].
      destruct (Hj Hjw) as (y & Ey & Ej), (IHl Hl) as (ys & H1 & H2). exists (y :: ys). split; by constructor. }
    exists (push_back_all ys). rewrite JsonToYaml_seq, (to_seq_spec _ _ H1). split; [done|].
    destruct H1 as [|j y js ys' Hj H1]; [done|]. cbn [push_back_all]. rewrite YamlToJson_seq. inversion H2 as [|? ? ? ? E2 H2']; subst.
    cbn [from_seq]. rewrite E2. cbn [json_append]. rewrite (from_seq_spec _ _ H2'). done.
  - assert (exists kys, Forall2 (fun j y => fst j = fst y /\ JsonToYaml (snd j) = Some (snd y)) l kys /\
      Forall2 (fun y j => fst y = fst j /\ YamlToJson (snd y) JNull = (true, snd j)) kys (map (fun kv => (fst kv, texts (snd kv))) l)) as (kys & H1 & H2).
    { clear Hw Hs. induction IH as [|[k j] l Hj _ IHl]; [by exists []; split; constructor|]. apply Forall_cons_1 in Hl as [Hjw Hl].
      destruct (Hj Hjw) as (y & Ey & Ej), (IHl Hl) as (kys & H1 & H2). exists ((k, y) :: kys). split; by constructor. }
    assert (map fst kys = map fst l) as Ek by (clear -H1; induction H1 as [|? ? ? ? [E _] _ IH]; cbn; congruence).
    exists (ymap_of (map (fun ky => (YScalar (fst ky), snd ky)) kys)). rewrite JsonToYaml_map.
    pose proof (to_map_spec _ _ H1 []) as E. cbn [map app] in E. rewrite E by (rewrite Ek; by apply sorted_nodup). split; [done|].
    apply sorted_texts in Hs. destruct H1 as [|j y js kys' Hj H1]; [done|]. cbn [map ymap_of]. rewrite YamlToJson_map.
    inversion H2 as [|? ? ? ? [E1 E2] H2']; subst. destruct j as [k j], y as [k' y]. cbn in E1. subst k'. cbn [from_map fst snd]. cbn [snd] in E2. rewrite E2. cbn [json_put yaml_Scalar].
    rewrite (from_map_spec _ _ H2' [(k, texts j)]); [done|exact Hs].
Qed.

End yaml.

(** ** Protobuf *)

Section protobuf.

(** The unknown fields of a message, by number. *)
Inductive pb_unknown := UVarint (v : Z) | UFixed32 (v : Z) | UFixed64 (v : Z) | ULength (v : bytes) | UGroup.

(** The values of fields.  A message: for each field of its descriptor the name, whether
    it is repeated, and the values it has (at most one if it is not repeated); then the
    unknown fields. *)
Inductive pb_value :=
| PInt32 (z : Z) | PUInt32 (z : Z) | PInt64 (z : Z) | PUInt64 (z : Z) | PFloat (r : real) | PDouble (r : real) | PBool (b : bool) | PEnum (z : Z)
| PString (s : bytes)
| PMessage (fields : list (bytes * bool * list pb_value)) (unknown : list (Z * pb_unknown)).

(** [UnknownFieldSet::ParseFromString]. *)
Context (ParseFromString : bytes -> option (list (Z * pb_unknown))).

(** [kvs[n].push_back(v)] in a map ordered by number. *)
Fixpoint kvs_push (n : Z) (v : json) (l : list (Z * list json)) : list (Z * list json) :=
  match l with
  | [] => [(n, [v])]
  | (m, vs) :: r => if n <? m then (n, [v]) :: l else if n =? m then (m, vs ++ [v]) :: r else (m, vs) :: kvs_push n v r
  end.

(** [jnode[k].append(v)] and [jnode[k] = v]. *)
Definition node_append (j : json) (k : bytes) (v : json) : outcome json :=
  match json_get j k with
  | None => Throw logic_error
  | Some cur => match json_append cur v with None => Throw logic_error | Some a => match json_put j k a with Some j => Ok j | None => Throw logic_error end end
  end.
Definition node_put (j : json) (k : bytes) (v : json) : outcome json := match json_put j k v with Some j => Ok j | None => Throw logic_error end.

Fixpoint append_all (j : json) (k : bytes) (vs : list json) : outcome json :=
  match vs with [] => Ok j | v :: vs => let! j := node_append j k v in append_all j k vs end.

(** @src util.cc:940-948 serialize_unknowfieldset
    The second loop. *)
Fixpoint put_groups (kvs : list (Z * list json)) (j : json) : outcome json :=
  match kvs with
  | [] => Ok j
  | (n, vs) :: kvs =>
    let! j := (if (1 <? length vs)%nat then append_all j (sdec n) vs else match vs with v :: _ => node_put j (sdec n) v | [] => UB end) in
    put_groups kvs j
  end.

(** @src util.cc:910-949 serialize_unknowfieldset
    [fuel] bounds the nesting of length-delimited fields. *)
Fixpoint serialize_unknowfieldset (fuel : nat) (ufs : list (Z * pb_unknown)) (jnode : json) : outcome json :=
  match fuel with
  | O => NoFuel
  | S fuel =>
    let! kvs := (fix loop (ufs : list (Z * pb_unknown)) (kvs : list (Z * list json)) : outcome (list (Z * list json)) :=
      match ufs with
      | [] => Ok kvs
      | (n, uf) :: ufs =>
        match uf with
        | UVarint v => loop ufs (kvs_push n (JInt (swrap 64 v)) kvs)
        | UFixed32 v => loop ufs (kvs_push n (JUInt v) kvs)
        | UFixed64 v => loop ufs (kvs_push n (JUInt v) kvs)
        | ULength v =>
          match v, ParseFromString v with
          | _ :: _, Some tmp => let! vv := serialize_unknowfieldset fuel tmp JNull in loop ufs (kvs_push n vv kvs)
          | _, _ => loop ufs (kvs_push n (JString v) kvs)
          end
        | UGroup => loop ufs kvs
        end
      end) ufs [] in
    put_groups kvs jnode
  end.

(** Longer than every length-delimited field. *)
Definition unknown_fuel (ufs : list (Z * pb_unknown)) : nat :=
  S (foldr (fun u n => match snd u with ULength v => Nat.max (length v) n | _ => n end) 0%nat ufs).

(** @src util.cc:951-1050 serialize_message *)
Fixpoint serialize_value (v : pb_value) (jnode : json) : outcome json :=
  match v with
  | PInt32 z => Ok (JInt z)
  | PUInt32 z => Ok (JUInt z)
  | PInt64 z => Ok (JInt z)
  | PUInt64 z => Ok (JUInt z)
  | PFloat r | PDouble r => Ok (JReal r)
  | PBool b => Ok (JBool b)
  | PEnum z => Ok (JInt z)
  | PString s => Ok (JString s)
  | PMessage fields unknown =>
    let! jnode := (fix loop (fields : list (bytes * bool * list pb_value)) (jnode : json) : outcome json :=
      match fields with
      | [] => Ok jnode
      | (name, repeated, vals) :: fields =>
        let! jnode := (if repeated : bool then
          (fix items (vals : list pb_value) (jnode : json) : outcome json :=
             match vals with
             | [] => Ok jnode
             | v :: vals => let! vv := serialize_value v JNull in let! jnode := node_append jnode name vv in items vals jnode
             end) vals jnode
        else match vals with
             | [] => Ok jnode
             | v :: _ =>
               match json_get jnode name with
               | None => Throw logic_error
               | Some cur => let! vv := serialize_value v cur in node_put jnode name vv
               end
             end) in
        loop fields jnode
      end) fields jnode in
    serialize_unknowfieldset (unknown_fuel unknown) unknown jnode
  end.
Definition serialize_message (fields : list (bytes * bool * list pb_value)) (unknown : list (Z * pb_unknown)) (jnode : json) : outcome json :=
  serialize_value (PMessage fields unknown) jnode.

(** ** What a message is written as *)

(** The object that members set one after the other make, in a value that was null. *)
Definition jrep (l : list (bytes * json)) : json := match l with [] => JNull | _ => JObject l end.
Definition build (l entries : list (bytes * json)) : list (bytes * json) := fold_left (fun l e => obj_set (fst e) (snd e) l) entries l.

(** Values by number, in the order of the numbers, those of one number in their order. *)
Definition groups (l : list (Z * json)) : list (Z * list json) := fold_left (fun kvs x => kvs_push (fst x) (snd x) kvs) l [].
Definition group_entry (g : Z * list json) : bytes * json := (sdec (fst g), match snd g with [v] => v | vs => JArray vs end).

Fixpoint unknown_value (fuel : nat) (uf : pb_unknown) : option json :=
  match fuel with
  | O => None
  | S fuel =>
    match uf with
    | UVarint v => Some (JInt (swrap 64 v))
    | UFixed32 v | UFixed64 v => Some (JUInt v)
    | ULength v =>
      match v, ParseFromString v with
      | _ :: _, Some tmp => Some (jrep (build [] (map group_entry (groups (omap (fun u => (fun j => (fst u, j)) <$> unknown_value fuel (snd u)) tmp)))))
      | _, _ => Some (JString v)
      end
    | UGroup => None
    end
  end.

Definition unknown_entries (fuel : nat) (ufs : list (Z * pb_unknown)) : list (bytes * json) :=
  map group_entry (groups (omap (fun u => (fun j => (fst u, j)) <$> unknown_value fuel (snd u)) ufs)).

(** A repeated field is an array, a field that is not set is left out. *)
Fixpoint value_json (v : pb_value) : json :=
  match v with
  | PInt32 z | PInt64 z | PEnum z => JInt z
  | PUInt32 z | PUInt64 z => JUInt z
  | PFloat r | PDouble r => JReal r
  | PBool b => JBool b
  | PString s => JString s
  | PMessage fields unknown =>
    jrep (build (build [] (omap (fun f => match f with
      | (name, true, v :: vals) => Some (name, JArray (value_json v :: map value_json vals))
      | (name, false, v :: _) => Some (name, value_json v)
      | (_, _, []) => None
      end) fields)) (unknown_entries (unknown_fuel unknown) unknown))
  end.

Definition field_json (f : bytes * bool * list pb_value) : option (bytes * json) :=
  match f with
  | (name, true, v :: vals) => Some (name, JArray (value_json v :: map value_json vals))
  | (name, false, v :: _) => Some (name, value_json v)
  | (_, _, []) => None
  end.

(** *** Members *)

Lemma obj_find_set k v l : obj_find k (obj_set k v l) = Some v.
Proof.
  induction l as [|[k' v'] l IH]; cbn; [by rewrite bool_decide_true|].
  destruct (lex_lt k k') eqn:E1; cbn; [by rewrite bool_decide_true|]. destruct (lex_lt k' k) eqn:E2; cbn; [|by rewrite bool_decide_true].
  rewrite bool_decide_false; [done|]. intros ->. by rewrite lex_lt_irrefl in E2.
Qed.

Lemma obj_find_set_ne k k2 v l : k2 <> k -> obj_find k2 (obj_set k v l) = obj_find k2 l.
Proof.
  intros Hn. induction l as [|[k' v'] l IH]; cbn; [by rewrite bool_decide_false|].
  destruct (lex_lt k k') eqn:E1; cbn; [by rewrite (bool_decide_false (k2 = k))|]. destruct (lex_lt k' k) eqn:E2; cbn; [by rewrite IH|].
  pose proof (lex_lt_total k k' E1 E2). subst k'. by rewrite !bool_decide_false.
Qed.

Lemma obj_set_set k v v2 l : obj_set k v2 (obj_set k v l) = obj_set k v2 l.
Proof.
  induction l as [|[k' v'] l IH]; cbn; [by rewrite lex_lt_irrefl|].
  destruct (lex_lt k k') eqn:E1; cbn; [by rewrite lex_lt_irrefl|]. destruct (lex_lt k' k) eqn:E2; cbn; [by rewrite E1, E2, IH|]. by rewrite lex_lt_irrefl.
Qed.

Lemma jrep_set k v l : jrep (obj_set k v l) = JObject (obj_set k v l).
Proof. destruct l as [|[k' v'] l]; cbn; [done|]. by destruct (lex_lt k k'), (lex_lt k' k). Qed.

Lemma node_put_rep l k v : node_put (jrep l) k v = Ok (jrep (obj_set k v l)).
Proof. unfold node_put. rewrite jrep_set. by destruct l. Qed.

Lemma json_get_rep l k : json_get (jrep l) k = Some (default JNull (obj_find k l)).
Proof. by destruct l. Qed.

Lemma node_append_rep l k v pre : obj_find k l = (match pre with [] => None | _ => Some (JArray pre) end) ->
  node_append (jrep l) k v = Ok (jrep (obj_set k (JArray (pre ++ [v])) l)).
Proof.
  intros E. unfold node_append. rewrite json_get_rep, E. replace (json_append _ v) with (Some (JArray (pre ++ [v]))) by (by destruct pre).
  apply node_put_rep.
Qed.

(** Appending one by one. *)
Lemma append_all_more vs : forall l k pre, pre <> [] -> append_all (jrep (obj_set k (JArray pre) l)) k vs = Ok (jrep (obj_set k (JArray (pre ++ vs)) l)).
Proof.
  induction vs as [|v vs IH]; intros l k pre Hp; cbn [append_all]; [by rewrite app_nil_r|].
  rewrite (node_append_rep _ _ _ pre) by (rewrite obj_find_set; by destruct pre). cbn [obind]. rewrite obj_set_set, IH by (by destruct pre). by rewrite <- app_assoc.
Qed.

Lemma append_all_rep l k v vs : obj_find k l = None -> append_all (jrep l) k (v :: vs) = Ok (jrep (obj_set k (JArray (v :: vs)) l)).
Proof. intros E. cbn [append_all]. rewrite (node_append_rep _ _ _ []) by done. cbn [obind app]. by rewrite append_all_more. Qed.

Lemma build_find k entries : forall l, k ∉ map fst entries -> obj_find k (build l entries) = obj_find k l.
Proof.
  induction entries as [|e entries IH]; intros l; cbn [build fold_left map]; [done|]. rewrite not_elem_of_cons. intros [H1 H2].
  fold (build (obj_set (fst e) (snd e) l) entries). by rewrite IH, obj_find_set_ne.
Qed.

Lemma build_find_in k v entries : forall l, NoDup (map fst entries) -> (k, v) ∈ entries -> obj_find k (build l entries) = Some v.
Proof.
  induction entries as [|e entries IH]; intros l; cbn [map]; [by intros _ ?%not_elem_of_nil|]. intros [H1 H2]%list.NoDup_cons [<-|Hin]%elem_of_cons.
  - change (build l ((k, v) :: entries)) with (build (obj_set k v l) entries). rewrite build_find by done. apply obj_find_set.
  - change (build l (e :: entries)) with (build (obj_set (fst e) (snd e) l) entries). by apply IH.
Qed.

(** *** Unknown fields *)

(** The groups are in order, none is empty, and each has the values of its number. *)
Definition num_lt (a b : Z * list json) : Prop := fst a < fst b.

Lemma kvs_push_spec n v l : StronglySorted num_lt l -> Forall (fun g => snd g <> []) l ->
  StronglySorted num_lt (kvs_push n v l) /\ Forall (fun g => snd g <> []) (kvs_push n v l) /\
  forall m vs, (m, vs) ∈ kvs_push n v l <-> if m =? n then vs = from_option snd [] (head (filter (fun g => fst g = n) l)) ++ [v] else (m, vs) ∈ l.
Proof.
  intros Hs. induction Hs as [|[m vs] l Hs IH Hf]; intros Hn; cbn [kvs_push].
  { split_and!; [repeat constructor|by repeat constructor|]. intros m vs. cbn. rewrite list_elem_of_singleton. destruct (Z.eqb_spec m n) as [->|Hmn]; [naive_solver|].
    split; [naive_solver|by intros ?%not_elem_of_nil]. }
  apply Forall_cons_1 in Hn as [Hm Hn]. specialize (IH Hn) as (I1 & I2 & I3). cbn in Hm.
  assert (forall x, x ∈ l -> m < fst x) as Hlt by (intros x Hx; rewrite List.Forall_forall in Hf; apply (Hf x); by apply list_elem_of_In).
  assert (n <= m -> filter (fun g => fst g = n) l = []) as Hnone.
  { intros Hle. apply elem_of_nil_inv. intros x [Hx1 Hx2]%list_elem_of_filter. apply Hlt in Hx2. lia. }
  destruct (Z.ltb_spec n m) as [H1|H1]; [|destruct (Z.eqb_spec n m) as [->|H2]].
  - split_and!.
    + constructor; [by constructor|]. constructor; [done|]. apply List.Forall_forall. intros x Hx%list_elem_of_In%Hlt. unfold num_lt. cbn. lia.
    + constructor; [done|]. by constructor.
    + intros a ws. rewrite elem_of_cons, filter_cons_False by (cbn; lia). rewrite Hnone by lia. cbn. destruct (Z.eqb_spec a n) as [->|Ha]; [|naive_solver].
      split; [|naive_solver]. intros [|[|Hx%Hlt]%elem_of_cons]; [naive_solver|naive_solver lia|cbn in Hx; lia].
  - split_and!.
    + by constructor.
    + constructor; [by destruct vs|done].
    + intros a ws. rewrite elem_of_cons, filter_cons_True by done. cbn. destruct (Z.eqb_spec a m) as [->|Ha].
      * split; [|naive_solver]. intros [|Hx%Hlt]; [naive_solver|cbn in Hx; lia].
      * rewrite elem_of_cons. naive_solver.
  - split_and!.
    + constructor; [done|]. apply List.Forall_forall. intros [a ws] Hx%list_elem_of_In%I3. unfold num_lt. cbn.
      destruct (Z.eqb_spec a n) as [->|]; [lia|]. by apply Hlt in Hx.
    + by constructor.
    + intros a ws. rewrite elem_of_cons, I3, filter_cons_False by (cbn; lia). destruct (Z.eqb_spec a n) as [->|Ha]; [|rewrite elem_of_cons; naive_solver].
      split; [intros [|]; [naive_solver lia|done]|naive_solver].
Qed.

Lemma groups_ok l : StronglySorted num_lt (groups l) /\ Forall (fun g => snd g <> []) (groups l) /\
  forall m vs, (m, vs) ∈ groups l -> exists v, (m, v) ∈ l.
Proof.
  unfold groups. assert (forall kvs, StronglySorted num_lt kvs -> Forall (fun g => snd g <> []) kvs ->
    StronglySorted num_lt (fold_left (fun kvs x => kvs_push (fst x) (snd x) kvs) l kvs) /\ Forall (fun g => snd g <> []) (fold_left (fun kvs x => kvs_push (fst x) (snd x) kvs) l kvs) /\
    forall m vs, (m, vs) ∈ fold_left (fun kvs x => kvs_push (fst x) (snd x) kvs) l kvs -> (exists v, (m, v) ∈ l) \/ exists vs, (m, vs) ∈ kvs) as H.
  { induction l as [|[n v] l IH]; intros kvs H1 H2; cbn [fold_left]; [split_and!; eauto|].
    destruct (kvs_push_spec n v kvs H1 H2) as (K1 & K2 & K3). destruct (IH _ K1 K2) as (I1 & I2 & I3). split_and!; [done|done|].
    intros m vs [(w & Hw)|(ws & Hws)]%I3; [left; exists w; by right|]. cbn in Hws. apply K3 in Hws. destruct (Z.eqb_spec m n) as [->|]; [left; exists v; by left|right; eauto]. }
  destruct (H []) as (H1 & H2 & H3); [constructor..|]. split_and!; [done|done|]. intros m vs [|(ws & []%not_elem_of_nil)]%H3; done.
Qed.

(** Printed numbers differ. *)
Lemma sdec_inj a b : 0 <= a < 2 ^ 29 -> 0 <= b < 2 ^ 29 -> sdec a = sdec b -> a = b.
Proof.
  intros Ha Hb. unfold sdec. rewrite !(proj2 (Z.ltb_ge _ _)) by lia. intros E.
  destruct (dec_spec a) as (_ & _ & H1); [lia|]. destruct (dec_spec b) as (_ & _ & H2); [lia|].
  specialize (H1 []). specialize (H2 []). rewrite E, H2 in H1. cbn in H1. congruence.
Qed.

Lemma groups_keys l : Forall (fun x => 0 <= fst x < 2 ^ 29) l -> NoDup (map fst (map group_entry (groups l))) /\
  forall k, k ∈ map fst (map group_entry (groups l)) -> exists n, 0 <= n < 2 ^ 29 /\ k = sdec n.
Proof.
  intros Hl. destruct (groups_ok l) as (H1 & _ & H3).
  assert (forall g, g ∈ groups l -> 0 <= fst g < 2 ^ 29) as Hr.
  { intros [m vs] (v & Hv)%H3. rewrite List.Forall_forall in Hl. apply (Hl (m, v)). by apply list_elem_of_In. }
  rewrite map_map. cbn. split.
  - clear H3. induction H1 as [|g gs _ IH Hf]; cbn; constructor; [|apply IH; intros x Hx; apply Hr; by right].
    intros H%list_elem_of_In%in_map_iff. destruct H as (g' & E & Hg). apply sdec_inj in E; [|apply Hr; right; by apply list_elem_of_In|apply Hr; by left].
    rewrite List.Forall_forall in Hf. specialize (Hf g' Hg). unfold num_lt in Hf. lia.
  - intros k H%list_elem_of_In%in_map_iff. destruct H as (g & <- & Hg). exists (fst g). split; [|done]. apply Hr. by apply list_elem_of_In.
Qed.

(** The second loop sets the members. *)
Lemma put_groups_spec gs : Forall (fun g => snd g <> []) gs -> NoDup (map fst (map group_entry gs)) ->
  forall l, (forall k, k ∈ map fst (map group_entry gs) -> obj_find k l = None) -> put_groups gs (jrep l) = Ok (jrep (build l (map group_entry gs))).
Proof.
  induction 1 as [|[n vs] gs Hg _ IH]; intros Hn l Hl; cbn [put_groups map build fold_left]; [done|]. cbn in Hg.
  cbn [map] in Hn. apply list.NoDup_cons in Hn as [Hn1 Hn2].
  assert ((if (1 <? length vs)%nat then append_all (jrep l) (sdec n) vs else match vs with v :: _ => node_put (jrep l) (sdec n) v | [] => UB end) =
    Ok (jrep (obj_set (sdec n) (snd (group_entry (n, vs))) l))) as ->.
  { destruct vs as [|v [|w vs]]; [done|cbn; apply node_put_rep|]. cbn [length Nat.ltb Nat.leb]. rewrite append_all_rep; [done|]. apply Hl. by left. }
  cbn [obind]. rewrite IH; [done|done|]. intros k Hk. rewrite obj_find_set_ne by (intros ->; done). apply Hl. by right.
Qed.

(** What the parser of unknown fields promises: the numbers of fields have 29 bits, and
    the fields are parts of the text. *)
Definition parse_ok : Prop := forall v tmp, ParseFromString v = Some tmp ->
  Forall (fun u => 0 <= fst u < 2 ^ 29 /\ match snd u with ULength w => (length w < length v)%nat | _ => True end) tmp.

(** The first loop. *)
Definition unknown_loop (fuel : nat) : list (Z * pb_unknown) -> list (Z * list json) -> outcome (list (Z * list json)) :=
  fix loop (ufs : list (Z * pb_unknown)) (kvs : list (Z * list json)) : outcome (list (Z * list json)) :=
  match ufs with
  | [] => Ok kvs
  | (n, uf) :: ufs =>
    match uf with
    | UVarint v => loop ufs (kvs_push n (JInt (swrap 64 v)) kvs)
    | UFixed32 v => loop ufs (kvs_push n (JUInt v) kvs)
    | UFixed64 v => loop ufs (kvs_push n (JUInt v) kvs)
    | ULength v =>
      match v, ParseFromString v with
      | _ :: _, Some tmp => let! vv := serialize_unknowfieldset fuel tmp JNull in loop ufs (kvs_push n vv kvs)
      | _, _ => loop ufs (kvs_push n (JString v) kvs)
      end
    | UGroup => loop ufs kvs
    end
  end.

Lemma serialize_unknown_eq fuel ufs j :
  serialize_unknowfieldset (S fuel) ufs j = (let! kvs := unknown_loop fuel ufs [] in put_groups kvs j).
Proof. reflexivity. Qed.

Definition unknown_ok (fuel : nat) (ufs : list (Z * pb_unknown)) : Prop :=
  Forall (fun u => 0 <= fst u < 2 ^ 29 /\ match snd u with ULength w => (length w < fuel)%nat | _ => True end) ufs.

Lemma unknown_pairs_range fuel ufs : unknown_ok fuel ufs ->
  Forall (fun x => 0 <= fst x < 2 ^ 29) (omap (fun u => (fun j => (fst u, j)) <$> unknown_value fuel (snd u)) ufs).
Proof.
  induction 1 as [|[n uf] ufs [Hn _] _ IH]; cbn [omap list_omap]; [constructor|]. destruct (unknown_value fuel (snd (n, uf))); cbn; [by constructor|done].
Qed.

(** The unknown fields become members under their numbers. *)
Lemma serialize_unknown_spec : parse_ok -> forall fuel ufs l, (0 < fuel)%nat -> unknown_ok fuel ufs ->
  (forall n, 0 <= n < 2 ^ 29 -> obj_find (sdec n) l = None) ->
  serialize_unknowfieldset fuel ufs (jrep l) = Ok (jrep (build l (unknown_entries fuel ufs))).
Proof.
  intros Hp fuel. induction fuel as [|fuel IH]; [lia|]. intros ufs l _ Hu Hl. rewrite serialize_unknown_eq.
  assert (forall kvs, unknown_loop fuel ufs kvs = Ok (fold_left (fun kvs x => kvs_push (fst x) (snd x) kvs)
    (omap (fun u => (fun j => (fst u, j)) <$> unknown_value (S fuel) (snd u)) ufs) kvs)) as E.
  { clear Hl. induction Hu as [|[n uf] ufs [Hn Hw] _ IHu]; intros kvs; [done|].
    change (omap ?f ((n, uf) :: ufs)) with (match f (n, uf) with Some x => x :: omap f ufs | None => omap f ufs end).
    cbn [unknown_loop fst snd unknown_value]. cbn [snd] in Hw. destruct uf as [v|v|v|v|]; cbn [fmap option_fmap option_map fold_left fst snd]; try apply IHu.
    destruct v as [|c v]; [cbn; apply IHu|]. destruct (ParseFromString (c :: v)) as [tmp|] eqn:Ep; [|cbn; apply IHu].
    assert (unknown_ok fuel tmp) as Hut.
    { apply Hp in Ep. eapply List.Forall_impl; [|exact Ep]. intros u [H1 H2]. split; [done|]. destruct (snd u); try done. cbn in *. lia. }
    pose proof (IH tmp [] ltac:(cbn in Hw; lia) Hut ltac:(done)) as E0. cbn [jrep] in E0. rewrite E0. cbn [obind]. apply IHu. }
  rewrite E. cbn [obind]. fold (groups (omap (fun u => (fun j => (fst u, j)) <$> unknown_value (S fuel) (snd u)) ufs)). 
  destruct (groups_keys _ (unknown_pairs_range _ _ Hu)) as [K1 K2]. apply put_groups_spec; [apply groups_ok|done|].
  intros k (n & Hn & ->)%K2. by apply Hl.
Qed.

(** *** Messages *)

Lemma pb_value_nested_ind (P : pb_value -> Prop) :
  (forall v, (forall f u, v <> PMessage f u) -> P v) ->
  (forall fields unknown, Forall (fun f => Forall P (snd f)) fields -> P (PMessage fields unknown)) -> forall v, P v.
Proof.
  intros H0 H1. fix IH 1. intros [z|z|z|z|r|r|b|z|s|fields unknown]; try (by apply H0). apply H1.
  induction fields as [|[f vals] fields IHf]; constructor; [|apply IHf]. cbn. induction vals as [|v vals IHv]; constructor; [apply IH|apply IHv].
Qed.

(** The name of a field: it does not start with a digit. *)
Definition ident (name : bytes) : Prop := match name with [] => True | c :: _ => is_digit c = false end.

Lemma ident_not_number name n : ident name -> 0 <= n < 2 ^ 29 -> name <> sdec n.
Proof.
  intros Hi Hn ->. unfold sdec in Hi. rewrite (proj2 (Z.ltb_ge _ _)) in Hi by lia. destruct (dec_spec n) as (H1 & H2 & _); [lia|].
  destruct (dec n) as [|c r]; [done|]. apply Forall_cons_1 in H2 as [H2 _]. cbn in Hi. congruence.
Qed.

(** Messages with different names for their fields. *)
Inductive pb_ok : pb_value -> Prop :=
| pb_scalar v : (forall f u, v <> PMessage f u) -> pb_ok v
| pb_msg fields unknown : NoDup (map (fun f => fst (fst f)) fields) -> Forall (fun f => ident (fst (fst f))) fields ->
    Forall (fun f => Forall pb_ok (snd f)) fields -> unknown_ok (unknown_fuel unknown) unknown -> pb_ok (PMessage fields unknown).

Definition items (name : bytes) : list pb_value -> json -> outcome json :=
  fix items (vals : list pb_value) (jnode : json) : outcome json :=
  match vals with
  | [] => Ok jnode
  | v :: vals => let! vv := serialize_value v JNull in let! jnode := node_append jnode name vv in items vals jnode
  end.

Fixpoint fields_loop (fields : list (bytes * bool * list pb_value)) (jnode : json) : outcome json :=
  match fields with
  | [] => Ok jnode
  | (name, repeated, vals) :: fields =>
    let! jnode := (if repeated : bool then items name vals jnode
      else match vals with
           | [] => Ok jnode
           | v :: _ => match json_get jnode name with None => Throw logic_error | Some cur => let! vv := serialize_value v cur in node_put jnode name vv end
           end) in
    fields_loop fields jnode
  end.

Lemma serialize_message_eq fields unknown j :
  serialize_value (PMessage fields unknown) j = (let! j := fields_loop fields j in serialize_unknowfieldset (unknown_fuel unknown) unknown j).
Proof. reflexivity. Qed.

Lemma items_spec name vals : Forall (fun v => serialize_value v JNull = Ok (value_json v)) vals ->
  forall j, items name vals j = append_all j name (map value_json vals).
Proof.
  induction 1 as [|v vals Hv _ IH]; intros j; cbn [items map append_all]; [done|]. rewrite Hv. cbn [obind].
  destruct (node_append j name (value_json v)); cbn [obind]; try done.
Qed.

(** The fields that are set become members, under their names. *)
Lemma fields_spec fields : Forall (fun f => Forall (fun v => serialize_value v JNull = Ok (value_json v)) (snd f)) fields ->
  NoDup (map (fun f => fst (fst f)) fields) ->
  forall l, (forall f, f ∈ fields -> obj_find (fst (fst f)) l = None) -> fields_loop fields (jrep l) = Ok (jrep (build l (omap field_json fields))).
Proof.
  induction 1 as [|[[name repeated] vals] fields Hv _ IH]; intros Hn l Hl; cbn [fields_loop map]; [done|]. cbn [map] in Hn. apply list.NoDup_cons in Hn as [Hn1 Hn2].
  cbn [snd fst] in *. change (omap field_json ((name, repeated, vals) :: fields)) with
    (match field_json (name, repeated, vals) with Some e => e :: omap field_json fields | None => omap field_json fields end).
  assert (obj_find name l = None) as Hname by (apply (Hl (name, repeated, vals)); by left).
  assert (forall j, (forall f, f ∈ fields -> obj_find (fst (fst f)) (obj_set name j l) = None)) as Hnext.
  { intros j f Hf. rewrite obj_find_set_ne; [apply Hl; by right|]. intros E. apply Hn1. rewrite <- E. apply list_elem_of_In, in_map_iff. exists f. split; [done|]. by apply list_elem_of_In. }
  destruct vals as [|v vals].
  - destruct repeated; cbn [items obind field_json]; apply IH; try done; intros f Hf; apply Hl; by right.
  - destruct repeated; cbn [field_json].
    + rewrite items_spec by done. cbn [map]. rewrite append_all_rep by done. cbn [obind]. rewrite IH by auto. done.
    + apply Forall_cons_1 in Hv as [Hv _]. rewrite json_get_rep, Hname. cbn [default]. rewrite Hv. cbn [obind]. rewrite node_put_rep. cbn [obind]. rewrite IH by auto. done.
Qed.

Lemma value_json_message fields unknown :
  value_json (PMessage fields unknown) = jrep (build (build [] (omap field_json fields)) (unknown_entries (unknown_fuel unknown) unknown)).
Proof. reflexivity. Qed.

Lemma field_names fields k : k ∈ map fst (omap field_json fields) -> exists f, f ∈ fields /\ fst (fst f) = k /\ is_Some (field_json f).
Proof.
  intros H%list_elem_of_In%in_map_iff. destruct H as (e & <- & He%list_elem_of_In%list_elem_of_omap). destruct He as ([[name r] vals] & Hf & E).
  exists (name, r, vals). split; [done|]. split; [|by eexists]. destruct r, vals; cbn in E; by simplify_eq.
Qed.

Lemma nodup_map_inj {A B} (g : A -> B) (l : list A) x y : NoDup (map g l) -> x ∈ l -> y ∈ l -> g x = g y -> x = y.
Proof.
  induction l as [|a l IH]; cbn [map]; [by intros _ ?%not_elem_of_nil|]. intros [H1 H2]%list.NoDup_cons Hx Hy E.
  assert (forall z, z ∈ l -> g z ∈ map g l) as Hin by (intros z Hz; apply list_elem_of_In, in_map_iff; exists z; split; [done|]; by apply list_elem_of_In).
  apply elem_of_cons in Hx as [->|Hx], Hy as [->|Hy]; [done| | |auto].
  - destruct H1. rewrite E. auto.
  - destruct H1. rewrite <- E. auto.
Qed.

(** Writing a message makes the object of its fields. *)
Lemma serialize_value_spec : parse_ok -> forall v, pb_ok v -> serialize_value v JNull = Ok (value_json v).
Proof.
  intros Hp v. induction v as [v Hs|fields unknown IH] using pb_value_nested_ind; intros Hv.
  { destruct v; try done. by destruct (Hs fields unknown). }
  inversion Hv as [|? ? Hn Hi Hf Hu]; subst; [naive_solver|]. rewrite serialize_message_eq, value_json_message.
  assert (Forall (fun f => Forall (fun v => serialize_value v JNull = Ok (value_json v)) (snd f)) fields) as Hall.
  { clear -IH Hf. induction IH as [|f fields IHf _ IHl]; constructor; apply Forall_cons_1 in Hf as [Hff Hf]; [|auto].
    clear -IHf Hff. induction IHf as [|v vals IHv _ IHl]; constructor; apply Forall_cons_1 in Hff as [Hvv Hff]; auto. }
  pose proof (fields_spec fields Hall Hn [] ltac:(done)) as E. cbn [jrep] in E. rewrite E. cbn [obind].
  apply serialize_unknown_spec; [done|unfold unknown_fuel; lia|done|]. intros n Hr. rewrite build_find; [done|].
  intros (f & Hff & Ef & _)%field_names. rewrite List.Forall_forall in Hi. apply list_elem_of_In in Hff. by apply (ident_not_number _ n (Hi f Hff)).
Qed.

Lemma field_names_nodup fields : NoDup (map (fun f => fst (fst f)) fields) -> NoDup (map fst (omap field_json fields)).
Proof.
  induction fields as [|f fields IH]; cbn [map]; [constructor|]. intros [H1 H2]%list.NoDup_cons.
  change (omap field_json (f :: fields)) with (match field_json f with Some e => e :: omap field_json fields | None => omap field_json fields end).
  destruct (field_json f) as [e|] eqn:E; [|auto]. cbn [map]. apply list.NoDup_cons. split; [|auto].
  assert (fst e = fst (fst f)) as -> by (destruct f as [[name r] vals]; destruct r, vals; cbn in E; by simplify_eq).
  intros (g & Hg & Eg & _)%field_names. apply H1. rewrite <- Eg. apply list_elem_of_In, in_map_iff. exists g. split; [done|]. by apply list_elem_of_In.
Qed.

(** a protobuf message is written with all its fields.  For every message whose
    fields have different names, in it and in the messages it holds, writing it ends
    without an exception; every field that is set is a member of the object under its
    name, with its value, or the array of its values if it is repeated; a field that is
    not set is not a member. *)
Lemma PBToJson_fields fields unknown : parse_ok -> pb_ok (PMessage fields unknown) -> exists l,
  serialize_message fields unknown JNull = Ok (jrep l) /\
  forall name repeated vals, (name, repeated, vals) ∈ fields ->
    obj_find name l = snd <$> field_json (name, repeated, vals).
Proof.
  intros Hp Hok. unfold serialize_message. rewrite serialize_value_spec by done. rewrite value_json_message. eexists. split; [done|].
  inversion Hok as [|? ? Hn Hi Hf Hu]; subst; [naive_solver|]. intros name repeated vals Hin.
  assert (ident name) as Hid by (rewrite List.Forall_forall in Hi; apply (Hi (name, repeated, vals)); by apply list_elem_of_In).
  rewrite build_find.
  2: { intros (n & Hr & E)%(proj2 (groups_keys _ (unknown_pairs_range _ _ Hu))). by apply (ident_not_number _ _ Hid Hr). }
  destruct (field_json (name, repeated, vals)) as [[k j]|] eqn:E; cbn [fmap option_fmap option_map snd].
  - assert (k = name) as -> by (destruct repeated, vals; cbn in E; by simplify_eq). apply build_find_in; [by apply field_names_nodup|].
    apply list_elem_of_omap. eauto.
  - rewrite build_find; [done|]. intros (g & Hg & Ek & Hs)%field_names. apply (nodup_map_inj _ _ _ _ Hn Hg Hin) in Ek. subst g. rewrite E in Hs. by destruct Hs.
Qed.

End protobuf.

End json.

Arguments JNull {real}.
Arguments JBool {real}.
Arguments JInt {real}.
Arguments JUInt {real}.
Arguments JString {real}.

(** A value with numbers and empty containers. *)
Lemma json_yaml_roundtrip_witness :
  let j : @json Z := JObject [(str "a", JArray [JInt (-1); JBool true]); (str "b", JArray []); (str "c", JString (str "x"))] in
  json_wf sdec j /\
  exists y, JsonToYaml sdec j = Some y /\
    YamlToJson y (@JNull Z) = (true, JObject [(str "a", JArray [JString (str "-1"); JString (str "true")]); (str "b", JNull); (str "c", JString (str "x"))]).
Proof.
  cbv zeta. set (j := JObject _). assert (json_wf sdec j) as Hw.
  { apply wf_object; [repeat constructor|]. constructor; [|constructor; [|constructor; [|constructor]]]; cbn [snd].
    - apply wf_array. repeat constructor; discriminate.
    - apply wf_array. constructor.
    - by apply wf_leaf. }
  split; [done|]. exact (json_yaml_roundtrip sdec j Hw).
Defined.

(** A parser of one kind of field. *)
Definition some_parser (v : bytes) : option (list (Z * pb_unknown)) := match v with [c; n] => if c =? 8 then Some [(1, UVarint n)] else None | _ => None end.

Definition some_message : list (bytes * bool * list (@pb_value Z)) :=
  [(str "id", false, [PInt32 7]); (str "tags", true, [PString (str "a"); PString (str "b")]); (str "none", true, []);
   (str "sub", false, [PMessage [(str "id", false, [PBool true])] []])].

(** A message with unknown fields, one of them a message. *)
Lemma PBToJson_fields_witness :
  serialize_message some_parser some_message [(5, UVarint 1); (4, ULength [8; 3]); (5, UVarint (2 ^ 64 - 1))] JNull =
    Ok (JObject [(str "4", JObject [(str "1", JInt 3)]); (str "5", JArray [JInt 1; JInt (-1)]); (str "id", JInt 7);
                 (str "sub", JObject [(str "id", JBool true)]); (str "tags", JArray [JString (str "a"); JString (str "b")])]) /\
  exists l, serialize_message some_parser some_message [(5, UVarint 1); (4, ULength [8; 3]); (5, UVarint (2 ^ 64 - 1))] JNull = Ok (jrep l) /\
    forall name repeated vals, (name, repeated, vals) ∈ some_message -> obj_find name l = snd <$> field_json some_parser (name, repeated, vals).
Proof.
  split; [vm_compute; reflexivity|]. apply PBToJson_fields.
  - intros v tmp. unfold some_parser. destruct v as [|c [|n [|]]]; try (by intros [=]). destruct (c =? 8); [|by intros [=]]. intros [= <-]. by repeat constructor.
  - apply pb_msg.
    + by apply (bool_decide_unpack _).
    + by repeat constructor.
    + assert (forall b, @pb_ok Z (PBool b)) as Hb by (intros b; by apply pb_scalar).
      constructor; [|constructor; [|constructor; [|constructor; [|constructor]]]]; cbn [snd].
      * constructor; [by apply pb_scalar|constructor].
      * constructor; [by apply pb_scalar|constructor; [by apply pb_scalar|constructor]].
      * constructor.
      * constructor; [|constructor]. apply pb_msg; [by apply (bool_decide_unpack _)|by repeat constructor| |constructor].
        constructor; [|constructor]. constructor; [apply Hb|constructor].
    + repeat constructor; cbn; lia.
Defined.

(** ** Where it falls short *)

(** A text with a line break gets null characters in front. *)
Lemma Escape_prefix : JsonUtil_Escape [97; 10] = [0; 0; 0; 97; 92; 110].
Proof. reflexivity. Qed.

(** Other control characters are not escaped, although JSON forbids them in texts. *)
Lemma Escape_control : JsonUtil_Escape [1] = [1].
Proof. reflexivity. Qed.

(** A large number in a text is cut to the width. *)
Lemma GetInt32_text_wraps : JsonUtil_GetInt32 (fun r : Z => Some r) (JObject [(str "n", JString (str "4294967297"))]) (str "n") 0 = Ok 1.
Proof. vm_compute. reflexivity. Qed.

(** An array is not an object: asking for a member throws. *)
Lemma Get_array_throws name d : JsonUtil_GetString (@JArray Z []) name d = Throw logic_error.
Proof. reflexivity. Qed.
