(* ===== verification/CryptoUtil.v ===== *)
(** * Encryption ([util/crypto_util.h], [util/crypto_util.cc])

    OpenSSL is a parameter: what its functions answer.  Files and keys are resources:
    the calls that open, close, make and free them are recorded. *)

From S2P Require Import Prelude Text.
From Stdlib Require Import ZArith Lia List String.
From stdpp Require Import base tactics list numbers option.

Open Scope Z_scope.
Open Scope list_scope.

(** ** Symmetric ciphers *)

Section cipher.
(** Ciphers, their contexts, and the functions of EVP: [EVP_CipherInit_ex] (with the
    direction, the key and the initialisation vector), [EVP_CipherUpdate] and
    [EVP_CipherFinal_ex] with their output, [None] where they do not return 1. *)
Context {cipher ctx : Type}
  (EVP_CipherInit_ex : ctx -> cipher -> bool -> bytes -> option bytes -> ctx)
  (EVP_CipherUpdate : ctx -> bytes -> option (bytes * ctx))
  (EVP_CipherFinal_ex : ctx -> option (bytes * ctx))
  (EVP_aes_256_ecb EVP_aes_128_ecb EVP_aes_256_cbc EVP_aes_128_cbc : cipher).

(** The result and what was written to [out]. *)
Definition crypto_body (c : cipher) (enc : bool) (key : bytes) (iv : option bytes) (inp : bytes) (p : ctx) : Z * bytes :=
  let p := EVP_CipherInit_ex p c enc key iv in
  match EVP_CipherUpdate p inp with
  | None => (-1, [])
  | Some (out, p) =>
    match EVP_CipherFinal_ex p with
    | None => (-1, out)
    | Some (rest, _) => (Z.of_nat (length out) + Z.of_nat (length rest), out ++ rest)
    end
  end.

(** @src util/crypto_util.cc:59-113 CryptoUtil::Crypto
    [stack] is what the uninitialised local [ctx] points to: [None] where that is no
    context. *)
Definition CryptoUtil_Crypto (stack : option ctx) (c : cipher) (enc : bool) (key : bytes) (iv : option bytes) (inp : bytes) : outcome (Z * bytes) :=
  deref stack (fun p => Ok (crypto_body c enc key iv inp p)).

(** @src util/crypto_util.cc:17-26 CryptoUtil::AES256Ecb *)
Definition CryptoUtil_AES256Ecb stack key inp (encode : bool) := CryptoUtil_Crypto stack EVP_aes_256_ecb encode key None inp.
(** @src util/crypto_util.cc:28-38 CryptoUtil::AES128Ecb *)
Definition CryptoUtil_AES128Ecb stack key inp (encode : bool) := CryptoUtil_Crypto stack EVP_aes_128_ecb encode key None inp.
(** @src util/crypto_util.cc:40-48 CryptoUtil::AES256Cbc *)
Definition CryptoUtil_AES256Cbc stack key iv inp (encode : bool) := CryptoUtil_Crypto stack EVP_aes_256_cbc encode key (Some iv) inp.
(** @src util/crypto_util.cc:50-57 CryptoUtil::AES128Cbc *)
Definition CryptoUtil_AES128Cbc stack key iv inp (encode : bool) := CryptoUtil_Crypto stack EVP_aes_128_cbc encode key (Some iv) inp.

(** Unless the local happens to point to a context, every one of the functions is
    undefined. *)
Lemma Crypto_uninitialised key iv inp encode :
  CryptoUtil_AES256Ecb None key inp encode = UB /\ CryptoUtil_AES128Ecb None key inp encode = UB /\
  CryptoUtil_AES256Cbc None key iv inp encode = UB /\ CryptoUtil_AES128Cbc None key iv inp encode = UB.
Proof. done. Qed.

(** With a context the result is the number of bytes written, or -1. *)
Lemma Crypto_length p c enc key iv inp r out : CryptoUtil_Crypto (Some p) c enc key iv inp = Ok (r, out) -> r = -1 \/ r = Z.of_nat (length out).
Proof.
  unfold CryptoUtil_Crypto, crypto_body. cbn [deref]. destruct (EVP_CipherUpdate _ inp) as [[o p']|]; [|intros [= <- <-]; auto].
  destruct (EVP_CipherFinal_ex p') as [[rest ?]|]; intros [= <- <-]; [right; rewrite length_app; lia|auto].
Qed.
End cipher.

(** ** RSA *)

Section rsa.
(** Keys. *)
Context {key : Type}.

Inductive rcall := Fopen (f : nat) | Fclose (f : nat) | RsaNew (k : key) | RsaFree (k : key) | WritePublic (f : nat) (k : key) | WritePrivate (f : nat) (k : key).

(** @src util/crypto_util.cc:115-154 RSACipher::GenerateKey
    [rsa]: the key, [pub] and [pri]: the files, [None] where a call fails. *)
Definition RSACipher_GenerateKey (rsa : option key) (pub pri : option nat) : Z * list rcall :=
  match rsa with
  | None => (-1, [])
  | Some k =>
    match pub with
    | None => (-2, [RsaNew k; RsaFree k])
    | Some f =>
      match pri with
      | None => (-3, [RsaNew k; Fopen f; WritePublic f k; Fclose f; RsaFree k])
      | Some g => (0, [RsaNew k; Fopen f; WritePublic f k; Fclose f; Fopen g; WritePrivate g k; Fclose g; RsaFree k])
      end
    end
  end.

(** @src util/crypto_util.h:95-98 RSACipher *)
Record RSACipher := mkRSA { m_pubkey : option key; m_prikey : option key; m_pubkeyStr : bytes; m_prikeyStr : bytes }.

(** @src util/crypto_util.cc:215-218 RSACipher::RSACipher *)
Definition RSACipher_new : RSACipher := mkRSA None None [] [].

(** @src util/crypto_util.cc:220-227 RSACipher::~RSACipher *)
Definition RSACipher_delete (c : RSACipher) : list rcall :=
  (match m_pubkey c with Some k => [RsaFree k] | None => [] end) ++ (match m_prikey c with Some k => [RsaFree k] | None => [] end).

(** @src util/crypto_util.cc:178-183 RSACipher::Create
    The loop that reads the file [rest] in pieces of 1024 bytes. *)
Fixpoint read_text (fuel : nat) (rest acc : bytes) : outcome bytes :=
  match fuel with
  | O => NoFuel
  | S fuel => let tmp := take 1024 rest in match tmp with [] => Ok acc | _ => read_text fuel (drop 1024 rest) (acc ++ tmp) end
  end.

(** A key file: its handle and its bytes; [None]: it cannot be opened. *)
Record keyfile := mkFile { kf_handle : nat; kf_text : bytes; kf_key : option key }.

(** @src util/crypto_util.cc:156-213 RSACipher::Create
    What [PEM_read_RSAPublicKey] and [PEM_read_RSAPrivateKey] read is part of the file. *)
Definition RSACipher_Create (pub pri : option keyfile) : outcome (option RSACipher * list rcall) :=
  match pub with
  | None => Ok (None, RSACipher_delete RSACipher_new)
  | Some f =>
    match kf_key f with
    | None => Ok (None, [Fopen (kf_handle f)] ++ RSACipher_delete RSACipher_new ++ [Fclose (kf_handle f)])
    | Some k =>
      let! text := read_text (S (S (length (kf_text f)))) (kf_text f) [] in
      let c := mkRSA (Some k) None text [] in
      let calls := [Fopen (kf_handle f); RsaNew k; Fclose (kf_handle f)] in
      match pri with
      | None => Ok (None, calls ++ RSACipher_delete c)
      | Some g =>
        match kf_key g with
        | None => Ok (None, calls ++ [Fopen (kf_handle g)] ++ RSACipher_delete c ++ [Fclose (kf_handle g)])
        | Some k' =>
          let! text' := read_text (S (S (length (kf_text g)))) (kf_text g) [] in
          Ok (Some (mkRSA (Some k) (Some k') text text'), calls ++ [Fopen (kf_handle g); RsaNew k'; Fclose (kf_handle g)])
        end
      end
    end
  end.

(** The functions of OpenSSL: key, padding, input; the output or an error. *)
Context (RSA_private_encrypt RSA_public_encrypt RSA_private_decrypt RSA_public_decrypt : key -> Z -> bytes -> option bytes) (RSA_size : key -> Z).

(** A call with a buffer of [room] bytes: the result and the bytes written; a null key
    or a buffer that is too small is undefined. *)
Definition rsa_call (op : key -> Z -> bytes -> option bytes) (k : option key) (padding : Z) (from : bytes) (room : nat) : outcome (Z * bytes) :=
  deref k (fun k =>
  match op k padding from with
  | None => Ok (-1, [])
  | Some out => if (room <? length out)%nat then UB else Ok (Z.of_nat (length out), out)
  end).

(** @src util/crypto_util.cc:229-233 RSACipher::privateEncrypt *)
Definition RSACipher_privateEncrypt (c : RSACipher) from room padding := rsa_call RSA_private_encrypt (m_prikey c) padding from room.
(** @src util/crypto_util.cc:235-239 RSACipher::publicEncrypt *)
Definition RSACipher_publicEncrypt (c : RSACipher) from room padding := rsa_call RSA_public_encrypt (m_pubkey c) padding from room.
(** @src util/crypto_util.cc:241-245 RSACipher::privateDecrypt *)
Definition RSACipher_privateDecrypt (c : RSACipher) from room padding := rsa_call RSA_private_decrypt (m_prikey c) padding from room.
(** @src util/crypto_util.cc:247-251 RSACipher::publicDecrypt *)
Definition RSACipher_publicDecrypt (c : RSACipher) from room padding := rsa_call RSA_public_decrypt (m_pubkey c) padding from room.

(** The functions with a string: the output overwrites its characters, then it is cut. *)
Definition into_string (f : bytes -> nat -> Z -> outcome (Z * bytes)) (from to : bytes) (padding : Z) : outcome (Z * bytes) :=
  let! (len, out) := f from (length to) padding in
  let to := out ++ drop (length out) to in
  Ok (len, if 0 <=? len then take (Z.to_nat len) to else to).

(** @src util/crypto_util.cc:253-261 RSACipher::privateEncrypt *)
Definition RSACipher_privateEncrypt_str (c : RSACipher) := into_string (RSACipher_privateEncrypt c).
(** @src util/crypto_util.cc:263-271 RSACipher::publicEncrypt *)
Definition RSACipher_publicEncrypt_str (c : RSACipher) := into_string (RSACipher_publicEncrypt c).
(** @src util/crypto_util.cc:273-281 RSACipher::privateDecrypt *)
Definition RSACipher_privateDecrypt_str (c : RSACipher) := into_string (RSACipher_privateDecrypt c).
(** @src util/crypto_util.cc:283-291 RSACipher::publicDecrypt *)
Definition RSACipher_publicDecrypt_str (c : RSACipher) := into_string (RSACipher_publicDecrypt c).

(** @src util/crypto_util.cc:293-298 RSACipher::getPubRSASize *)
Definition RSACipher_getPubRSASize (c : RSACipher) : Z := from_option RSA_size (-1) (m_pubkey c).
(** @src util/crypto_util.cc:300-305 RSACipher::getPriRSASize *)
Definition RSACipher_getPriRSASize (c : RSACipher) : Z := from_option RSA_size (-1) (m_prikey c).

(** ** Files and keys *)

(** A key file is read as it is. *)
Lemma read_text_spec fuel : forall rest acc, (length rest < fuel)%nat -> read_text fuel rest acc = Ok (acc ++ rest).
Proof.
  induction fuel as [|fuel IH]; intros rest acc Hf; [lia|]. cbn [read_text]. destruct rest as [|c rest]; [by rewrite take_nil, app_nil_r|].
  change (take 1024 (c :: rest)) with (c :: take 1023 rest). change (drop 1024 (c :: rest)) with (drop 1023 rest).
  rewrite IH by (rewrite length_drop; cbn in Hf; lia). rewrite <- app_assoc, <- app_comm_cons. by rewrite take_drop.
Qed.

(** Every file that is opened is closed again, every key is owned by the result or freed:
    as often as it was made. *)
Definition count (p : rcall -> bool) (l : list rcall) : nat := length (filter (fun c => p c = true) l).
Context `{EqDecision key}.
Definition is_fopen f c := match c with Fopen g => bool_decide (f = g) | _ => false end.
Definition is_fclose f c := match c with Fclose g => bool_decide (f = g) | _ => false end.
Definition is_new k c := match c with RsaNew k' => bool_decide (k = k') | _ => false end.
Definition is_free k c := match c with RsaFree k' => bool_decide (k = k') | _ => false end.
Definition owns (o : option RSACipher) (k : key) : nat :=
  match o with
  | None => 0
  | Some c => (if bool_decide (m_pubkey c = Some k) then 1 else 0) + (if bool_decide (m_prikey c = Some k) then 1 else 0)
  end%nat.

(** [GenerateKey] leaves no file open and no key behind, whatever fails. *)
Lemma GenerateKey_balanced rsa pub pri f k :
  let calls := snd (RSACipher_GenerateKey rsa pub pri) in
  count (is_fopen f) calls = count (is_fclose f) calls /\ count (is_new k) calls = count (is_free k) calls.
Proof.
  unfold count. destruct rsa as [r|]; [|done]. destruct pub as [x|]; [destruct pri as [y|]|]; cbn; split; repeat case_bool_decide; done.
Qed.

(** creating a cipher from key files.  It succeeds exactly when both files can be
    opened and hold keys, and then has both keys and the bytes of the files; on every
    path each file that was opened is closed once, and each key that was read is freed
    once or owned by the cipher, whose destructor frees it. *)
Lemma RSACipher_Create_spec pub pri : exists o calls, RSACipher_Create pub pri = Ok (o, calls) /\
  (is_Some o <-> exists f g k k', pub = Some f /\ pri = Some g /\ kf_key f = Some k /\ kf_key g = Some k') /\
  (forall c, o = Some c -> exists f g, pub = Some f /\ pri = Some g /\ m_pubkey c = kf_key f /\ m_prikey c = kf_key g /\
     m_pubkeyStr c = kf_text f /\ m_prikeyStr c = kf_text g) /\
  (forall f, count (is_fopen f) calls = count (is_fclose f) calls) /\
  (forall k, count (is_new k) calls = count (is_free k) calls + owns o k)%nat /\
  (forall c k, o = Some c -> count (is_free k) (RSACipher_delete c) = owns o k).
Proof.
  unfold RSACipher_Create. destruct pub as [f|]; [|eexists _, _; split_and!; [done|split; [by intros []|naive_solver]|done..]].
  destruct (kf_key f) as [k|] eqn:Ek.
  2: { eexists _, _. split_and!; [done|split; [by intros []|naive_solver]|done| |done|done]. intros x. unfold count. cbn. repeat case_bool_decide; done. }
  rewrite read_text_spec by lia. cbn [obind app]. destruct pri as [g|].
  2: { eexists _, _. split_and!; [done|split; [by intros []|naive_solver]|done| | |done]; intros x; unfold count; cbn; repeat case_bool_decide; done. }
  destruct (kf_key g) as [k'|] eqn:Ek'.
  2: { eexists _, _. split_and!; [done|split; [by intros []|naive_solver]|done| | |done]; intros x; unfold count; cbn; repeat case_bool_decide; done. }
  rewrite read_text_spec by lia. cbn [obind app]. eexists _, _. split_and!; [done| | | | |].
  - split; [intros _; eauto 10|by eexists].
  - intros c [= <-]. exists f, g. cbn. by rewrite Ek, Ek'.
  - intros x. unfold count. cbn. repeat case_bool_decide; done.
  - intros x. unfold count. cbn. repeat case_bool_decide; simplify_eq; done.
  - intros c x [= <-]. unfold count. cbn. repeat case_bool_decide; simplify_eq; done.
Qed.

(** A string with room for the output gets exactly the output. *)
Lemma into_string_ok op k padding from to out :
  op k padding from = Some out -> (length out <= length to)%nat ->
  into_string (fun from room padding => rsa_call op (Some k) padding from room) from to padding = Ok (Z.of_nat (length out), out).
Proof.
  intros E Hl. unfold into_string, rsa_call. cbn [deref]. rewrite E, (proj2 (Nat.ltb_ge _ _)) by lia. cbn [obind].
  rewrite (proj2 (Z.leb_le _ _)) by lia. by rewrite Nat2Z.id, take_app_length.
Qed.

(** One that is too short is written past its end. *)
Lemma into_string_overflow op k padding from to out :
  op k padding from = Some out -> (length to < length out)%nat ->
  into_string (fun from room padding => rsa_call op (Some k) padding from room) from to padding = UB.
Proof. intros E Hl. unfold into_string, rsa_call. cbn [deref]. by rewrite E, (proj2 (Nat.ltb_lt _ _)). Qed.

(** What one key encrypts the other one decrypts, through strings with enough room. *)
Lemma RSACipher_roundtrip c k k' padding m enc to to' : m_pubkey c = Some k -> m_prikey c = Some k' ->
  RSA_public_encrypt k padding m = Some enc -> RSA_private_decrypt k' padding enc = Some m ->
  (length enc <= length to)%nat -> (length m <= length to')%nat ->
  RSACipher_publicEncrypt_str c m to padding = Ok (Z.of_nat (length enc), enc) /\
  RSACipher_privateDecrypt_str c enc to' padding = Ok (Z.of_nat (length m), m).
Proof.
  intros E1 E2 H1 H2 L1 L2. unfold RSACipher_publicEncrypt_str, RSACipher_privateDecrypt_str, RSACipher_publicEncrypt, RSACipher_privateDecrypt.
  rewrite E1, E2. split; by apply into_string_ok.
Qed.

End rsa.
