(* ===== verification/HostInfo.v ===== *)
(** * The host and the clock ([util.cc])

    The address of the host, the clock, the case of letters, and the speed limit of
    transfers.  What [getifaddrs] and the clock answer is an input. *)

From S2P Require Import Prelude Endian Text Address.
From Stdlib Require Import ZArith Lia List String.
From stdpp Require Import base tactics list numbers option.

Open Scope Z_scope.
Open Scope list_scope.

(** ** The address of the host *)

Section host.
(** The byte order of the machine. *)
Context (host : Z).

(** [inet_addr("127.0.0.1")]: network order. *)
Definition localhost : Z := of_mem host [127; 0; 0; 1].

(** [strncasecmp(name, "lo", 2) == 0]. *)
Definition is_lo (name : bytes) : bool := bool_decide (map tolower (take 2 (cstr name)) = str "lo").

(** @src util.cc:816-827 GetIPv4Inet
    The loop over the interfaces. *)
Fixpoint ipv4_loop (l : list ifaddrs) (ipv4 : Z) : outcome Z :=
  match l with
  | [] => Ok ipv4
  | ifa :: l =>
    match ifa_addr ifa with
    | None => Ok ipv4
    | Some m =>
      let! fam := load 2 m (fun m => field host m 0 2) in
      if negb (fam =? AF_INET) then ipv4_loop l ipv4
      else if is_lo (ifa_name ifa) then ipv4_loop l ipv4
      else let! a := load 16 m (fun m => s_addr (in_of host m)) in ipv4_loop l a
    end
  end.

(** @src util.cc:804-833 GetIPv4Inet
    [ifs]: the list of [getifaddrs], [None] if it fails. *)
Definition GetIPv4Inet (ifs : option (list ifaddrs)) : outcome Z :=
  match ifs with None => Ok localhost | Some l => ipv4_loop l localhost end.

(** @src util.cc:835-842 _GetIPv4
    [inet_ntop] writes the bytes of the address. *)
Definition GetIPv4_text (ifs : option (list ifaddrs)) : outcome bytes :=
  let! ia := GetIPv4Inet ifs in
  match mem_of host 4 ia with
  | [a; b; c; d] => Ok (dec a ++ str "." ++ dec b ++ str "." ++ dec c ++ str "." ++ dec d)
  | _ => UB
  end.

(** @src util.cc:844-847 GetIPv4
    The text is made once: [cached] is that of the first call. *)
Definition GetIPv4 (cached : option bytes) (ifs : option (list ifaddrs)) : outcome (bytes * option bytes) :=
  match cached with Some t => Ok (t, cached) | None => let! t := GetIPv4_text ifs in Ok (t, Some t) end.

(** The addresses the function looks for. *)
Definition usable (i : ifaddrs) : option Z :=
  match ifa_addr i with
  | Some m => if (field host m 0 2 =? AF_INET) && negb (is_lo (ifa_name i)) then Some (s_addr (in_of host m)) else None
  | None => None
  end.

Lemma list_last_cons {A} (x : A) l : list.last (x :: l) = Some (default x (list.last l)).
Proof. revert x. induction l as [|y l IH]; intros x; [done|]. change (list.last (x :: y :: l)) with (list.last (y :: l)). by rewrite !IH. Qed.

(** If every interface has an address, the result is the last IPv4 address that is not of
    a loopback interface, or that of the loopback. *)
Lemma GetIPv4Inet_spec l : Forall (fun i => exists m, ifa_addr i = Some m /\ (16 <= length m)%nat) l ->
  GetIPv4Inet (Some l) = Ok (default localhost (list.last (omap usable l))).
Proof.
  cbn [GetIPv4Inet]. generalize localhost as a. induction l as [|i l IH]; intros a Hl; [done|]. apply Forall_cons_1 in Hl as [(m & E & Hm) Hl].
  cbn [ipv4_loop]. change (omap usable (i :: l)) with (match usable i with Some x => x :: omap usable l | None => omap usable l end).
  unfold usable at 1. rewrite E. unfold load. rewrite !(proj2 (Nat.ltb_ge _ _)) by lia. cbn [obind].
  destruct (field host m 0 2 =? AF_INET); cbn [negb andb]; [|by apply IH]. destruct (is_lo (ifa_name i)); cbn [negb]; [by apply IH|].
  rewrite IH by done. by rewrite list_last_cons.
Qed.

(** The list ends at the first interface that has no address (a tunnel that is down):
    the interfaces behind it are not looked at. *)
Lemma GetIPv4Inet_stops name mask rest : GetIPv4Inet (Some (mkIf name None mask :: rest)) = Ok localhost.
Proof. reflexivity. Qed.

End host.

(** ** The clock *)

(** @src util.cc:92-96 GetCurrentMS
    Of the seconds and microseconds of [gettimeofday]. *)
Definition GetCurrentMS (tv_sec tv_usec : Z) : Z := u64 (u64 tv_sec * 1000 + tv_usec / 1000).

(** @src util.cc:98-102 GetCurrentUS *)
Definition GetCurrentUS (tv_sec tv_usec : Z) : Z := u64 (u64 (tv_sec * 1000) * 1000 + tv_usec).

(** The two clocks agree, and the later of two times is not before the other. *)
Lemma clocks_agree s u : 0 <= s < 2 ^ 40 -> 0 <= u < 1000000 -> GetCurrentUS s u / 1000 = GetCurrentMS s u.
Proof.
  intros Hs Hu. unfold GetCurrentUS, GetCurrentMS, uwrap. pose proof (Z.div_pos u 1000 ltac:(lia) ltac:(lia)). pose proof (Z.div_lt_upper_bound u 1000 1000 ltac:(lia) ltac:(lia)).
  rewrite !Z.mod_small by (try split; try lia; rewrite ?Z.mod_small by lia; lia).
  replace (s * 1000 * 1000 + u) with (u + s * 1000 * 1000) by lia. rewrite Z.div_add by lia. lia.
Qed.

(** ** Letters *)

Definition toupper (c : Z) : Z := if (97 <=? c) && (c <=? 122) then c - 32 else c.

(** @src util.cc:121-125 ToUpper *)
Definition ToUpper (name : bytes) : bytes := map toupper name.

(** @src util.cc:127-131 ToLower *)
Definition ToLower (name : bytes) : bytes := map tolower name.

(** The case of a text does not matter to either. *)
Lemma ToLower_ToUpper s : ToLower (ToUpper s) = ToLower s /\ ToUpper (ToLower s) = ToUpper s.
Proof. unfold ToLower, ToUpper. rewrite !map_map. split; apply map_ext; intros c; unfold toupper, tolower; repeat (case_match; try lia). Qed.

(** ** The speed limit *)

(** @src util.h:331-335 SpeedLimit
    [m_countPerMS], a [float], is that of the speed. *)
Record SpeedLimit := mkLimit { m_speed : Z; m_curCount : Z; m_curSec : Z }.

(** @src util.cc:1058-1064 SpeedLimit::SpeedLimit *)
Definition SpeedLimit_new (speed : Z) : SpeedLimit := mkLimit (if speed =? 0 then 2 ^ 32 - 1 else speed) 0 0.

Section limit.
(** The division of floating-point numbers, cut to an integer: how many milliseconds a
    number of bytes takes at a speed. *)
Context (limit_ms : Z -> Z -> Z).

(** @src util.cc:1066-1082 SpeedLimit::add
    At the time [curms]; also the microseconds to sleep. *)
Definition SpeedLimit_add (l : SpeedLimit) (v curms : Z) : SpeedLimit * Z :=
  if negb (curms / 1000 =? m_curSec l) then (mkLimit (m_speed l) v (u32 (curms / 1000)), 0)
  else
    let count := u32 (m_curCount l + v) in
    let usedms := curms mod 1000 in
    let limitms := limit_ms count (m_speed l) in
    (mkLimit (m_speed l) count (m_curSec l), if usedms <? limitms then 1000 * (limitms - usedms) else 0).

(** Within one second: after the sleep, the time since the start of the second is at least
    what the bytes of this second take. *)
Lemma SpeedLimit_add_spec l v curms : 0 <= curms -> curms / 1000 = m_curSec l ->
  let '(l', us) := SpeedLimit_add l v curms in
  m_curCount l' = u32 (m_curCount l + v) /\ 0 <= us /\ limit_ms (m_curCount l') (m_speed l) <= curms mod 1000 + us / 1000.
Proof.
  intros Hc E. unfold SpeedLimit_add. rewrite E, Z.eqb_refl. cbn [negb]. cbn [m_curCount m_speed].
  pose proof (Z.mod_pos_bound curms 1000). destruct (Z.ltb_spec (curms mod 1000) (limit_ms (u32 (m_curCount l + v)) (m_speed l))) as [H1|H1].
  - split_and!; [done|lia|]. rewrite (Z.mul_comm 1000), Z.div_mul by lia. lia.
  - split_and!; [done|lia|]. change (0 / 1000) with 0. cbn [m_curCount] in *. lia.
Qed.

(** The second is kept in 32 bits and compared with 64: from 2106 on nothing is limited. *)
Lemma SpeedLimit_2106 l v curms : 2 ^ 32 * 1000 <= curms -> 0 <= m_curSec l < 2 ^ 32 -> snd (SpeedLimit_add l v curms) = 0.
Proof.
  intros Hc Hs. unfold SpeedLimit_add. assert (2 ^ 32 <= curms / 1000) by (apply Z.div_le_lower_bound; lia).
  rewrite (proj2 (Z.eqb_neq _ _)) by lia. done.
Qed.
End limit.
