(* ===== verification/ServiceDiscovery.v ===== *)
(** * Service discovery ([streams/service_discovery.h], [streams/service_discovery.cc])

    Servers register under [/bin/<domain>/<service>/providers] in ZooKeeper, clients
    watch the children of that node.  The ZooKeeper client is the class [ZkOps], with
    the documented behaviour of the service as [ZkSpec]; [inet_addr] is a parameter.
    Containers whose order is not specified are walked in the order of [map_to_list]. *)

From S2P Require Import Prelude Text HashUtil UtilAlgo.
From Stdlib Require Import ZArith Lia List String.
From stdpp Require Import base tactics list numbers option gmap relations.

Open Scope Z_scope.
Open Scope list_scope.

(** ** Items *)

(** @src streams/service_discovery.h:26-29 ServiceItemInfo *)
Record ServiceItemInfo := mkItem { si_id : Z; si_port : Z; si_ip : bytes; si_data : bytes }.

#[export] Instance ServiceItemInfo_eq_dec : EqDecision ServiceItemInfo.
Proof. solve_decision. Defined.

Section item.
(** [inet_addr]: the address in network order, [INADDR_NONE] for a text that is none. *)
Context (inet_addr : bytes -> Z).

(** @src streams/service_discovery.cc:11-29 ServiceItemInfo::Create *)
Definition ServiceItemInfo_Create (ip_and_port data : bytes) : option ServiceItemInfo :=
  match first_pos (Z.eqb (chr ":")) ip_and_port with
  | None => None
  | Some pos =>
    let ip := take pos ip_and_port in
    let port := TypeUtil_Atoi (drop (pos + 1) ip_and_port) in
    let ip_addr := inet_addr (cstr ip) in
    if ip_addr =? 0 then None
    else Some (mkItem (Z.lor (Z.shiftl ip_addr 32) (u64 port)) (u16 port) ip data)
  end.
End item.

(** @src streams/service_discovery.cc:31-39 ServiceItemInfo::toString *)
Definition ServiceItemInfo_toString (i : ServiceItemInfo) : bytes :=
  str "[ServiceItemInfo id=" ++ dec (si_id i) ++ str " ip=" ++ si_ip i ++ str " port=" ++ dec (si_port i) ++
  str " data=" ++ si_data i ++ str "]".

Abbreviation infos := (gmap Z ServiceItemInfo).

(** ** The tables *)

(** @src streams/service_discovery.h:57-67 IServiceDiscovery
    and the members of [ZKServiceDiscovery] (lines 98-103) that the functions below
    use; [m_cb] is whether a callback was set. *)
Record discovery := mkDisc {
  m_datas : gmap bytes (gmap bytes infos);
  m_registerInfos : gmap bytes (gmap bytes (gmap bytes bytes));
  m_queryInfos : gmap bytes (gset bytes);
  m_cb : bool;
  m_selfInfo : bytes;
  m_selfData : bytes
}.

Definition discovery_new : discovery := mkDisc ∅ ∅ ∅ false [] [].

Implicit Types sd : discovery.

Definition set_datas sd v := mkDisc v (m_registerInfos sd) (m_queryInfos sd) (m_cb sd) (m_selfInfo sd) (m_selfData sd).

(** [m[k]], which makes an empty entry. *)
Definition at_key {A} `{Empty A} (m : gmap bytes A) (k : bytes) : A := default ∅ (m !! k).

(** @src streams/service_discovery.cc:41-44 IServiceDiscovery::setQueryServer *)
Definition IServiceDiscovery_setQueryServer sd (v : gmap bytes (gset bytes)) : discovery :=
  mkDisc (m_datas sd) (m_registerInfos sd) v (m_cb sd) (m_selfInfo sd) (m_selfData sd).

(** @src streams/service_discovery.cc:46-50 IServiceDiscovery::registerServer *)
Definition IServiceDiscovery_registerServer sd (domain service ip_and_port data : bytes) : discovery :=
  let services := at_key (m_registerInfos sd) domain in
  let servers := at_key services service in
  mkDisc (m_datas sd) (<[domain := <[service := <[ip_and_port := data]> servers]> services]> (m_registerInfos sd))
    (m_queryInfos sd) (m_cb sd) (m_selfInfo sd) (m_selfData sd).

(** @src streams/service_discovery.cc:52-55 IServiceDiscovery::queryServer *)
Definition IServiceDiscovery_queryServer sd (domain service : bytes) : discovery :=
  mkDisc (m_datas sd) (m_registerInfos sd) (<[domain := {[service]} ∪ at_key (m_queryInfos sd) domain]> (m_queryInfos sd))
    (m_cb sd) (m_selfInfo sd) (m_selfData sd).

(** @src streams/service_discovery.h:53-53 IServiceDiscovery::setServiceCallback *)
Definition IServiceDiscovery_setServiceCallback sd (v : bool) : discovery :=
  mkDisc (m_datas sd) (m_registerInfos sd) (m_queryInfos sd) v (m_selfInfo sd) (m_selfData sd).

(** @src streams/service_discovery.h:76-76 ZKServiceDiscovery::setSelfInfo *)
Definition ZKServiceDiscovery_setSelfInfo sd (v : bytes) : discovery :=
  mkDisc (m_datas sd) (m_registerInfos sd) (m_queryInfos sd) (m_cb sd) v (m_selfData sd).

(** @src streams/service_discovery.h:78-78 ZKServiceDiscovery::setSelfData *)
Definition ZKServiceDiscovery_setSelfData sd (v : bytes) : discovery :=
  mkDisc (m_datas sd) (m_registerInfos sd) (m_queryInfos sd) (m_cb sd) (m_selfInfo sd) v.

(** @src streams/service_discovery.cc:57-61 IServiceDiscovery::listServer *)
Definition IServiceDiscovery_listServer sd := m_datas sd.

(** @src streams/service_discovery.cc:63-67 IServiceDiscovery::listRegisterServer *)
Definition IServiceDiscovery_listRegisterServer sd := m_registerInfos sd.

(** @src streams/service_discovery.cc:69-73 IServiceDiscovery::listQueryServer *)
Definition IServiceDiscovery_listQueryServer sd := m_queryInfos sd.

(** ** Paths *)

(** @src streams/service_discovery.cc:181-183 GetProvidersPath *)
Definition GetProvidersPath (domain service : bytes) : bytes := str "/bin/" ++ domain ++ str "/" ++ service ++ str "/providers".

(** @src streams/service_discovery.cc:185-187 GetConsumersPath *)
Definition GetConsumersPath (domain service : bytes) : bytes := str "/bin/" ++ domain ++ str "/" ++ service ++ str "/consumers".

(** @src streams/service_discovery.cc:189-191 GetDomainPath *)
Definition GetDomainPath (domain : bytes) : bytes := str "/bin/" ++ domain.

(** @src streams/service_discovery.cc:193-201 ParseDomainService *)
Definition ParseDomainService (path : bytes) : outcome (option (bytes * bytes)) :=
  let! v := HashUtil.split path (chr "/") U64_MAX in
  match v with
  | [_; _; domain; service; _] => Ok (Some (domain, service))
  | _ => Ok None
  end.

(** ** ZooKeeper *)

Definition ZOK : Z := 0.
Definition ZNODEEXISTS : Z := -110.

(** The calls of the client: [exists], [create] (with the value and whether the node is
    ephemeral) and [getChildren] (with whether it is to be watched). *)
Class ZkOps (Zk : Type) := {
  zk_exists : Zk -> bytes -> Z;
  zk_create : Zk -> bytes -> bytes -> bool -> Z * Zk;
  zk_getChildren : Zk -> bytes -> bool -> Z * list bytes * Zk
}.

Section discovery.
Context {Zk : Type} {ZO : ZkOps Zk} (inet_addr : bytes -> Z).
Implicit Types z : Zk.

(** @src streams/service_discovery.cc:150-179 ZKServiceDiscovery::existsOrCreate
    [fuel] bounds the depth of the path. *)
Fixpoint exists_or_create (fuel : nat) z (path : bytes) : outcome (bool * Zk) :=
  match fuel with
  | O => NoFuel
  | S fuel =>
    if zk_exists z path =? ZOK then Ok (true, z) else
    match last_pos (Z.eqb (chr "/")) path with
    | None => Ok (false, z)
    | Some pos =>
      let! (ok, z) := if (pos =? 0)%nat then Ok (true, z) else exists_or_create fuel z (take pos path) in
      if ok : bool then
        let '(v, z) := zk_create z path [] false in
        if negb (v =? ZOK) then Ok (false, z) else Ok (true, z)
      else Ok (false, z)
    end
  end.

Definition ZKServiceDiscovery_existsOrCreate z (path : bytes) : outcome (bool * Zk) := exists_or_create (S (length path)) z path.

(** @src streams/service_discovery.cc:203-223 ZKServiceDiscovery::registerInfo *)
Definition ZKServiceDiscovery_registerInfo z (domain service ip_and_port data : bytes) : outcome (bool * Zk) :=
  let path := GetProvidersPath domain service in
  let! (v, z) := ZKServiceDiscovery_existsOrCreate z path in
  if negb v then Ok (false, z) else
  let '(rt, z) := zk_create z (path ++ str "/" ++ ip_and_port) data true in
  if rt =? ZOK then Ok (true, z) else Ok (rt =? ZNODEEXISTS, z).

(** The loops over the children of a domain: every one is visited, whatever the result of
    the others. *)
Fixpoint all_of {A S} (f : S -> A -> outcome (bool * S)) (s : S) (l : list A) : outcome (bool * S) :=
  match l with
  | [] => Ok (true, s)
  | x :: l => let! (ok, s) := f s x in let! (rest, s) := all_of f s l in Ok (ok && rest, s)
  end.

(** @src streams/service_discovery.cc:225-259 ZKServiceDiscovery::queryInfo *)
Fixpoint ZKServiceDiscovery_queryInfo (fuel : nat) sd z (domain service : bytes) : outcome (bool * Zk) :=
  match fuel with
  | O => NoFuel
  | S fuel =>
    if negb (bool_decide (service = str "all")) then
      let path := GetConsumersPath domain service in
      let! (v, z) := ZKServiceDiscovery_existsOrCreate z path in
      if negb v then Ok (false, z) else
      match m_selfInfo sd with
      | [] => Ok (false, z)
      | _ =>
        let '(rt, z) := zk_create z (path ++ str "/" ++ m_selfInfo sd) (m_selfData sd) true in
        if rt =? ZOK then Ok (true, z) else Ok (rt =? ZNODEEXISTS, z)
      end
    else
      let '(_, children, z) := zk_getChildren z (GetDomainPath domain) false in
      all_of (fun z i => ZKServiceDiscovery_queryInfo fuel sd z domain i) z children
  end.

(** A call of the callback: domain, service, the old and the new servers. *)
Record cb_call := mkCall { cb_domain : bytes; cb_service : bytes; cb_old : infos; cb_new : infos }.

Record dstate := mkD { d_sd : discovery; d_zk : Zk; d_calls : list cb_call }.
Implicit Types s : dstate.

(** @src streams/service_discovery.cc:293-302 ZKServiceDiscovery::getChildren
    The servers that the names of the children stand for. *)
Definition infos_of (vals : list bytes) : infos :=
  fold_left (fun m i => match ServiceItemInfo_Create inet_addr i [] with Some info => <[si_id info := info]> m | None => m end) vals ∅.

(** @src streams/service_discovery.cc:304-309 ZKServiceDiscovery::getChildren
    The table takes the new servers; the callback gets both.  An empty function object
    throws. *)
Definition publish s (domain service : bytes) (new_vals : infos) : outcome dstate :=
  let services := at_key (m_datas (d_sd s)) domain in
  let old := at_key services service in
  let sd := set_datas (d_sd s) (<[domain := <[service := new_vals]> services]> (m_datas (d_sd s))) in
  if m_cb (d_sd s) then Ok (mkD sd (d_zk s) (d_calls s ++ [mkCall domain service old new_vals])) else Throw bad_function_call.

(** @src streams/service_discovery.cc:261-292 ZKServiceDiscovery::getChildren
    The checks and the call of the service; the rest is [infos_of] and [publish]. *)
Definition ZKServiceDiscovery_getChildren s (path : bytes) : outcome (bool * dstate) :=
  let! parsed := ParseDomainService path in
  match parsed with
  | None => Ok (false, s)
  | Some (domain, service) =>
    match m_queryInfos (d_sd s) !! domain with
    | None => Ok (false, s)
    | Some services =>
      if negb (bool_decide (service ∈ services)) && negb (bool_decide (str "all" ∈ services)) then Ok (false, s) else
      let '(v, vals, z) := zk_getChildren (d_zk s) path true in
      let s := mkD (d_sd s) z (d_calls s) in
      if negb (v =? ZOK) then Ok (false, s) else
      let! s := publish s domain service (infos_of vals) in
      Ok (true, s)
    end
  end.

(** @src streams/service_discovery.cc:313-328 ZKServiceDiscovery::queryData *)
Fixpoint ZKServiceDiscovery_queryData (fuel : nat) s (domain service : bytes) : outcome (bool * dstate) :=
  match fuel with
  | O => NoFuel
  | S fuel =>
    if negb (bool_decide (service = str "all")) then ZKServiceDiscovery_getChildren s (GetProvidersPath domain service)
    else
      let '(_, children, z) := zk_getChildren (d_zk s) (GetDomainPath domain) false in
      all_of (fun s i => ZKServiceDiscovery_queryData fuel s domain i) (mkD (d_sd s) z (d_calls s)) children
  end.

Definition with_zk {A} (s : dstate) (r : outcome (A * Zk)) : outcome (A * dstate) :=
  let! (a, z) := r in Ok (a, mkD (d_sd s) z (d_calls s)).

(** The entries of the tables, one by one. *)
Definition register_list sd : list (bytes * bytes * bytes * bytes) :=
  flat_map (fun d => flat_map (fun x => map (fun v => (d.1, x.1, v.1, v.2)) (map_to_list x.2)) (map_to_list d.2)) (map_to_list (m_registerInfos sd)).
Definition query_list sd : list (bytes * bytes) := flat_map (fun d => map (fun x => (d.1, x)) (elements d.2)) (map_to_list (m_queryInfos sd)).

(** @src streams/service_discovery.cc:109-148 ZKServiceDiscovery::onZKConnect *)
Definition ZKServiceDiscovery_onZKConnect (fuel : nat) s : outcome dstate :=
  let rinfo := register_list (d_sd s) in
  let qinfo := query_list (d_sd s) in
  let! (_, s) := all_of (fun s v => let '(d, x, ip, data) := v in with_zk s (ZKServiceDiscovery_registerInfo (d_zk s) d x ip data)) s rinfo in
  let! (_, s) := all_of (fun s q => with_zk s (ZKServiceDiscovery_queryInfo fuel (d_sd s) (d_zk s) q.1 q.2)) s qinfo in
  let! (_, s) := all_of (fun s q => ZKServiceDiscovery_queryData fuel s q.1 q.2) s qinfo in
  Ok s.

(** What the client reports: the type of the event and the state of the connection. *)
Inductive zk_type := SESSION | CHILD | CHANGED | DELETED | OtherType.
Inductive zk_stat := CONNECTED | EXPIRED_SESSION | OtherStat.

(** @src streams/service_discovery.cc:348-367 ZKServiceDiscovery::onWatch
    with the handlers of lines 330-346; the second result is whether the client is to
    reconnect. *)
Definition ZKServiceDiscovery_onWatch (fuel : nat) s (type : zk_type) (stat : zk_stat) (path : bytes) : outcome (dstate * bool) :=
  match stat, type with
  | CONNECTED, SESSION => let! s := ZKServiceDiscovery_onZKConnect fuel s in Ok (s, false)
  | CONNECTED, CHILD => let! (_, s) := ZKServiceDiscovery_getChildren s path in Ok (s, false)
  | EXPIRED_SESSION, SESSION => Ok (s, true)
  | _, _ => Ok (s, false)
  end.

(** @src streams/service_discovery.h:98-103 ZKServiceDiscovery
    Whether there is a client, and a timer. *)
Record zk_handle := mkHandle { h_client : bool; h_timer : bool }.

Inductive zk_call := ClientInit | AddTimer (ms : Z) | ClientClose | TimerCancel.

(** @src streams/service_discovery.cc:79-96 ZKServiceDiscovery::start
    [init] is the result of [ZKClient::init], which is only reported. *)
Definition ZKServiceDiscovery_start (h : zk_handle) (init : bool) : zk_handle * list zk_call :=
  if h_client h then (h, []) else (mkHandle true true, [ClientInit; AddTimer (60 * 1000)]).

(** @src streams/service_discovery.cc:98-107 ZKServiceDiscovery::stop *)
Definition ZKServiceDiscovery_stop (h : zk_handle) : zk_handle * list zk_call :=
  (mkHandle false false, (if h_client h then [ClientClose] else []) ++ (if h_timer h then [TimerCancel] else [])).

End discovery.

(** ** Paths and their parts *)

Lemma cut_unique (d : Z) (a : bytes) : forall b x y, d ∉ a -> d ∉ b -> a ++ d :: x = b ++ d :: y -> a = b /\ x = y.
Proof.
  induction a as [|c a IH]; intros [|c' b] x y Ha Hb; cbn; intros E; simplify_eq; [done|by destruct Hb; left|by destruct Ha; left|].
  rewrite not_elem_of_cons in Ha, Hb. destruct (IH b x y) as [-> ->]; [naive_solver..|]. done.
Qed.

Lemma pieces_unique (d : Z) (init : list bytes) : forall init' tail tail',
  Forall (fun x => d ∉ x) init -> Forall (fun x => d ∉ x) init' -> d ∉ tail -> d ∉ tail' ->
  flat_map (fun x => x ++ [d]) init ++ tail = flat_map (fun x => x ++ [d]) init' ++ tail' -> init = init' /\ tail = tail'.
Proof.
  assert (forall (x : bytes) rest t, (flat_map (fun x => x ++ [d]) (x :: rest) ++ t) = x ++ d :: flat_map (fun x => x ++ [d]) rest ++ t) as Hc
    by (intros; cbn; by rewrite <- !app_assoc).
  induction init as [|x init IH]; intros [|x' init'] tail tail' Hi Hi' Ht Ht'; rewrite ?Hc; cbn [flat_map app]; intros E.
  - done.
  - destruct Ht. rewrite E. apply elem_of_app. right. by left.
  - destruct Ht'. rewrite <- E. apply elem_of_app. right. by left.
  - apply Forall_cons_1 in Hi as [Hx Hi]. apply Forall_cons_1 in Hi' as [Hx' Hi']. apply cut_unique in E as [-> E]; [|done..].
    destruct (IH init' tail tail') as [-> ->]; done.
Qed.

Lemma split_pieces (d : Z) (s : bytes) init tail :
  Forall (fun x => d ∉ x) init -> d ∉ tail -> s = flat_map (fun x => x ++ [d]) init ++ tail -> s <> [] -> Z.of_nat (length s) < 2 ^ 62 ->
  HashUtil.split s d U64_MAX = Ok (init ++ [tail]).
Proof.
  intros Hi Ht E Hne Hl. destruct (split_correct s d U64_MAX Hne ltac:(unfold U64_MAX; lia) Hl) as (parts & -> & init' & tail' & -> & E' & Hi' & Hm & _).
  assert (d ∉ tail') as Ht'.
  { destruct Hm as [Hm|Hm]; [|done]. exfalso. pose proof (flat_map_length_ge d init') as Hk. apply (f_equal length) in E'.
    rewrite length_app in E', Hm. unfold U64_MAX in Hm. cbn in Hm. lia. }
  rewrite E in E'. by destruct (pieces_unique d init init' tail tail' Hi Hi' Ht Ht' E') as [-> ->].
Qed.

(** A name that is one step of a path. *)
Definition name_ok (n : bytes) : Prop := chr "/" ∉ n.

Definition path_ok (domain service : bytes) : Prop := Z.of_nat (length (GetProvidersPath domain service)) < 2 ^ 62.

Lemma providers_pieces domain service :
  GetProvidersPath domain service = flat_map (fun x => x ++ [chr "/"]) [[]; str "bin"; domain; service] ++ str "providers".
Proof. unfold GetProvidersPath. cbn [flat_map app]. rewrite !app_nil_r, <- !app_assoc. reflexivity. Qed.

Lemma ParseDomainService_providers domain service :
  name_ok domain -> name_ok service -> path_ok domain service -> ParseDomainService (GetProvidersPath domain service) = Ok (Some (domain, service)).
Proof.
  intros Hd Hs Hl. unfold ParseDomainService.
  rewrite (split_pieces (chr "/") _ [[]; str "bin"; domain; service] (str "providers")); [done| | |apply providers_pieces|done|done].
  - apply Forall_cons. split; [apply not_elem_of_nil|]. apply Forall_cons. split; [by apply (bool_decide_unpack _)|].
    apply Forall_cons. split; [done|]. by apply Forall_singleton.
  - by apply (bool_decide_unpack _).
Qed.

(** The number of slashes. *)
Definition slashes (s : bytes) : nat := count_occ Z.eq_dec s (chr "/").

Lemma slashes_zero n : slashes n = 0%nat <-> name_ok n.
Proof. unfold slashes, name_ok. rewrite list_elem_of_In, (count_occ_not_In Z.eq_dec). done. Qed.

Lemma slashes_pieces init tail : Forall (fun x => chr "/" ∉ x) init ->
  slashes (flat_map (fun x => x ++ [chr "/"]) init ++ tail) = (length init + slashes tail)%nat.
Proof.
  unfold slashes. induction init as [|x init IH]; cbn [flat_map app length]; [done|]. intros [Hx Hi]%Forall_cons_1.
  rewrite <- !app_assoc, count_occ_app. apply slashes_zero in Hx. unfold slashes in Hx. rewrite Hx. cbn [app]. rewrite (count_occ_cons_eq _ _ eq_refl), IH by done. lia.
Qed.

(** Only a path whose names are one step each is parsed, and to these names. *)
Lemma ParseDomainService_inv domain service d s :
  path_ok domain service -> ParseDomainService (GetProvidersPath domain service) = Ok (Some (d, s)) ->
  name_ok domain /\ name_ok service /\ d = domain /\ s = service.
Proof.
  intros Hl Hp. assert (name_ok domain /\ name_ok service) as [Hd Hs].
  { unfold ParseDomainService in Hp.
    destruct (split_correct (GetProvidersPath domain service) (chr "/") U64_MAX) as (parts & E0 & init & tail & -> & E & Hi & Hm & _);
      [done|unfold U64_MAX; lia|done|]. rewrite E0 in Hp. cbn [obind] in Hp.
    assert (length (init ++ [tail]) = 5%nat) as Hlen by (destruct (init ++ [tail]) as [|? [|? [|? [|? [|? [|? ?]]]]]]; try discriminate Hp; reflexivity).
    destruct Hm as [Hm|Hm]; [unfold U64_MAX in Hm; lia|]. apply slashes_zero in Hm.
    apply (f_equal slashes) in E. rewrite slashes_pieces, Hm in E by done. rewrite length_app in Hlen. cbn in Hlen.
    unfold GetProvidersPath, slashes in E. rewrite !count_occ_app in E.
    change (count_occ Z.eq_dec (str "/bin/") (chr "/")) with 2%nat in E. change (count_occ Z.eq_dec (str "/") (chr "/")) with 1%nat in E.
    change (count_occ Z.eq_dec (str "/providers") (chr "/")) with 1%nat in E. fold (slashes domain) (slashes service) in E.
    split; apply slashes_zero; lia. }
  rewrite ParseDomainService_providers in Hp by done. by simplify_eq.
Qed.

(** Different services have different paths. *)
Lemma providers_inj d s d' s' : name_ok d -> name_ok s -> name_ok d' -> name_ok s' ->
  GetProvidersPath d s = GetProvidersPath d' s' -> d = d' /\ s = s'.
Proof.
  intros Hd Hs Hd' Hs'. unfold GetProvidersPath. intros E%app_inv_head. change (str "/") with [chr "/"] in E. cbn [app] in E.
  apply cut_unique in E as [-> E]; [|done..]. by apply app_inv_tail in E as ->.
Qed.

Lemma last_pos_app c a b : Forall (fun x => x <> c) b -> last_pos (Z.eqb c) (a ++ c :: b) = Some (length a).
Proof.
  intros Hb. assert (last_pos (Z.eqb c) b = None) as E.
  { pose proof (last_pos_spec (Z.eqb c) b) as H. destruct (last_pos (Z.eqb c) b) as [i|]; [|done]. destruct H as (x & Hx & Hc & _).
    apply Z.eqb_eq in Hc as <-. rewrite List.Forall_forall in Hb. destruct (Hb c); [|done]. apply list_elem_of_In. by eapply list_elem_of_lookup_2. }
  induction a as [|x a IH]; cbn; [by rewrite E, Z.eqb_refl|by rewrite IH].
Qed.

(** ** What ZooKeeper promises *)

(** Whether this client is connected, the nodes with their children, the watches of this
    client, and the notifications of changed children that are on their way to it. *)
Class ZkView (Zk : Type) := {
  zk_up : Zk -> bool;
  zk_node : Zk -> bytes -> bool;
  zk_children : Zk -> bytes -> list bytes;
  zk_watched : Zk -> bytes -> bool;
  zk_pending : Zk -> list bytes
}.

Section view.
Context {Zk : Type} {ZV : ZkView Zk}.
Implicit Types z : Zk.

(** Nodes come and go, the connection too; [gone] are nodes that were deleted.  A change
    of the children of a watched node takes the watch and sends a notification; when the
    node itself is deleted, that is another kind of notification. *)
Record zk_evolves (gone : list bytes) z z' : Prop := {
  ev_node p : zk_node z p = true -> zk_node z' p = true \/ p ∈ gone;
  ev_pending p : p ∈ zk_pending z -> p ∈ zk_pending z';
  ev_watch p : zk_watched z p = true ->
    (zk_children z' p = zk_children z p /\ zk_watched z' p = true) \/ p ∈ zk_pending z' \/ p ∈ gone
}.

(** The notification of [p] arrives. *)
Record zk_delivers z (p : bytes) z' : Prop := {
  dl_up : zk_up z' = zk_up z;
  dl_node q : zk_node z' q = zk_node z q;
  dl_children q : zk_children z' q = zk_children z q;
  dl_watched q : zk_watched z' q = zk_watched z q;
  dl_pending q : q ∈ zk_pending z -> q = p \/ q ∈ zk_pending z'
}.

Lemma zk_evolves_refl z : zk_evolves [] z z.
Proof. split; auto. Qed.

Lemma zk_evolves_trans g1 g2 z1 z2 z3 : zk_evolves g1 z1 z2 -> zk_evolves g2 z2 z3 -> zk_evolves (g1 ++ g2) z1 z3.
Proof.
  intros [N1 P1 W1] [N2 P2 W2]. split; [|auto|].
  - intros p Hp. rewrite elem_of_app. destruct (N1 p Hp) as [H1|H1]; [|auto]. destruct (N2 p H1); auto.
  - intros p Hw. rewrite elem_of_app. destruct (W1 p Hw) as [[E1 H1]|[H1|H1]]; [|auto..].
    destruct (W2 p H1) as [[E2 H2]|[H2|H2]]; [left|auto..]. split; [congruence|done].
Qed.

(** What this client itself does deletes nothing. *)
#[export] Instance zk_evolves_preorder : PreOrder (zk_evolves []).
Proof. split; [exact zk_evolves_refl|]. intros z1 z2 z3. apply (zk_evolves_trans [] []). Qed.

(** The parent of a node exists. *)
Definition parent_exists z (p : bytes) : Prop :=
  match last_pos (Z.eqb (chr "/")) p with
  | Some O => True
  | Some pos => zk_node z (take pos p) = true
  | None => False
  end.

End view.

(** The longest request the service takes ([jute.maxbuffer]). *)
Definition zk_limit : Z := 2 ^ 20.

(** When the client is connected, [exists] and [getChildren] tell whether there is a node,
    and [create] makes a node whose parent exists; otherwise they fail.  [getChildren]
    sets the watch together with reading. *)
Class ZkSpec (Zk : Type) `{ZkOps Zk, ZkView Zk} := {
  zk_exists_ok z p : zk_exists z p = ZOK <-> zk_up z = true /\ zk_node z p = true;
  zk_create_ok z p data e : let '(rt, z') := zk_create z p data e in
    zk_evolves [] z z' /\ zk_up z' = zk_up z /\ (zk_up z = true -> zk_node z p = true -> rt = ZNODEEXISTS) /\
    (zk_up z = true -> zk_node z p = false -> parent_exists z p -> Z.of_nat (length p) < zk_limit -> rt = ZOK) /\
    (rt = ZOK \/ rt = ZNODEEXISTS -> zk_node z' p = true) /\
    (forall q, q <> p -> zk_node z' q = zk_node z q);
  zk_getChildren_ok z p w : let '(rt, vals, z') := zk_getChildren z p w in
    zk_up z' = zk_up z /\
    (rt = ZOK <-> zk_up z = true /\ zk_node z p = true) /\ (vals = [] \/ vals = zk_children z p) /\ (rt = ZOK -> vals = zk_children z p) /\
    (forall q, zk_node z' q = zk_node z q /\ zk_children z' q = zk_children z q) /\ zk_pending z' = zk_pending z /\
    (forall q, zk_watched z q = true -> zk_watched z' q = true) /\ (rt = ZOK -> w = true -> zk_watched z' p = true);
  zk_names_short z p c : c ∈ zk_children z p -> Z.of_nat (length c) < zk_limit
}.

Section spec.
Context {Zk : Type} {ZO : ZkOps Zk} {ZV : ZkView Zk} {ZS : ZkSpec Zk} (inet_addr : bytes -> Z).
Implicit Types (z : Zk) (s : @dstate Zk).

(** ** Making nodes *)

(** The function ends, makes no nodes but those on the path, and, when connected, succeeds
    on every absolute path. *)
Lemma exists_or_create_ok fuel : forall z path, (length path < fuel)%nat ->
  exists b z', exists_or_create fuel z path = Ok (b, z') /\ zk_evolves [] z z' /\ zk_up z' = zk_up z /\ (b = true -> zk_node z' path = true) /\
    (zk_up z = true -> head path = Some (chr "/") -> Z.of_nat (length path) < zk_limit -> b = true) /\
    (forall q, (length path < length q)%nat -> zk_node z' q = zk_node z q).
Proof.
  induction fuel as [|fuel IH]; intros z path Hf; [lia|]. cbn [exists_or_create].
  destruct (Z.eqb_spec (zk_exists z path) ZOK) as [E|E].
  { exists true, z. split_and!; [done|done|done|intros _; by apply zk_exists_ok|done|done]. }
  assert (zk_up z = true -> zk_node z path = false) as Hn by (intros Hu; destruct (zk_node z path) eqn:En; [by destruct (E (proj2 (zk_exists_ok z path) (conj Hu En)))|done]).
  pose proof (last_pos_spec (Z.eqb (chr "/")) path) as Hp.
  destruct (last_pos (Z.eqb (chr "/")) path) as [pos|] eqn:Epos.
  2: { exists false, z. split_and!; [done|done|done|done| |done]. intros _ Hh. destruct path as [|c path]; [done|]. cbn in Hh. simplify_eq.
       apply Forall_cons_1 in Hp as [Hp _]. done. }
  assert (pos < length path)%nat as Hlt by (destruct Hp as (c & Hc & _); by eapply lookup_lt_Some).
  assert (exists b z1, (if (pos =? 0)%nat then Ok (true, z) else exists_or_create fuel z (take pos path)) = Ok (b, z1) /\ zk_evolves [] z z1 /\ zk_up z1 = zk_up z /\
    (b = true -> pos <> 0%nat -> zk_node z1 (take pos path) = true) /\ (zk_up z = true -> head path = Some (chr "/") -> Z.of_nat (length path) < zk_limit -> b = true) /\
    (forall q, (length path <= length q)%nat -> zk_node z1 q = zk_node z q)) as (b & z1 & -> & H1 & HU & H2 & H3 & H4).
  { destruct (Nat.eqb_spec pos 0) as [->|Hne]; [by exists true, z|].
    destruct (IH z (take pos path)) as (b & z1 & E1 & H1 & HU & H2 & H3 & H4); [rewrite length_take; lia|]. exists b, z1. split_and!; [done|done|done|auto| |].
    - intros Hu Hh Hs. apply H3; [done| |rewrite length_take; lia]. destruct path; [done|]. by destruct pos.
    - intros q Hq. apply H4. rewrite length_take. lia. }
  cbn [obind]. destruct b; [|exists false, z1; split_and!; [done|done|done|done|by intros Hu Hh Hs; apply H3 in Hh|intros q Hq; apply H4; lia]].
  pose proof (zk_create_ok z1 path [] false) as Hc. destruct (zk_create z1 path [] false) as [rt z2]. destruct Hc as (C1 & CU & C2 & C3 & C4 & C5).
  assert (zk_up z = true -> Z.of_nat (length path) < zk_limit -> rt = ZOK) as Hok.
  { intros Hu Hs. apply C3; [congruence|rewrite H4 by lia; by apply Hn| |done]. unfold parent_exists. rewrite Epos. destruct pos; [done|]. by apply H2. }
  exists (rt =? ZOK), z2. split_and!.
  - by destruct (rt =? ZOK).
  - by transitivity z1.
  - congruence.
  - intros ->%Z.eqb_eq. auto.
  - intros Hu _ Hs. by apply Z.eqb_eq, Hok.
  - intros q Hq. rewrite C5, H4 by (try intros ->; lia). done.
Qed.

Lemma existsOrCreate_ok z path :
  exists b z', ZKServiceDiscovery_existsOrCreate z path = Ok (b, z') /\ zk_evolves [] z z' /\ zk_up z' = zk_up z /\ (b = true -> zk_node z' path = true) /\
    (zk_up z = true -> head path = Some (chr "/") -> Z.of_nat (length path) < zk_limit -> b = true).
Proof. destruct (exists_or_create_ok (S (length path)) z path) as (b & z' & ? & ? & ? & ? & ? & _); [lia|]. eauto 10. Qed.

(** Registering succeeds while connected, and the server's node is there. *)
Lemma registerInfo_ok z domain service ip data : zk_up z = true -> name_ok ip ->
  Z.of_nat (length (GetProvidersPath domain service ++ str "/" ++ ip)) < zk_limit -> exists z',
  ZKServiceDiscovery_registerInfo z domain service ip data = Ok (true, z') /\ zk_evolves [] z z' /\
  zk_node z' (GetProvidersPath domain service ++ str "/" ++ ip) = true.
Proof.
  intros Hu Hip Hlim. unfold ZKServiceDiscovery_registerInfo. destruct (existsOrCreate_ok z (GetProvidersPath domain service)) as (b & z1 & -> & H1 & HU & H2 & H3).
  assert (b = true) as -> by (apply H3; [done|done|]; rewrite length_app in Hlim; lia). cbn [obind negb]. set (p := GetProvidersPath domain service ++ str "/" ++ ip).
  assert (parent_exists z1 p) as Hp.
  { unfold parent_exists, p. change (str "/" ++ ip) with (chr "/" :: ip). rewrite last_pos_app by (apply List.Forall_forall; intros x Hx ->; by apply Hip, list_elem_of_In). rewrite take_app_length.
    destruct (length (GetProvidersPath domain service)) eqn:E; [done|auto]. }
  fold p in Hlim.
  pose proof (zk_create_ok z1 p data true) as Hc. destruct (zk_create z1 p data true) as [rt z2]. destruct Hc as (C1 & CU & C2 & C3 & C4 & C5).
  rewrite Hu in HU. exists z2. destruct (zk_node z1 p) eqn:En.
  - rewrite C2 by done. split_and!; [done|by transitivity z1|auto].
  - rewrite C3 by done. split_and!; [done|by transitivity z1|auto].
Qed.

Lemma registerInfo_evolves z domain service ip data b z' :
  ZKServiceDiscovery_registerInfo z domain service ip data = Ok (b, z') -> zk_evolves [] z z'.
Proof.
  unfold ZKServiceDiscovery_registerInfo. destruct (existsOrCreate_ok z (GetProvidersPath domain service)) as (v & z1 & -> & H1 & _). cbn [obind].
  destruct v; cbn [negb]; [|by intros [= <- <-]].
  pose proof (zk_create_ok z1 (GetProvidersPath domain service ++ str "/" ++ ip) data true) as Hc.
  destruct (zk_create z1 _ data true) as [rt z2]. destruct Hc as [C1 _].
  by destruct (rt =? ZOK); intros [= <- <-]; transitivity z1.
Qed.

(** A property that every turn of a loop keeps. *)
Lemma all_of_inv {A T} (P : T -> Prop) (f : T -> A -> outcome (bool * T)) l : forall t b t',
  (forall t x b t', x ∈ l -> P t -> f t x = Ok (b, t') -> P t') -> P t -> all_of f t l = Ok (b, t') -> P t'.
Proof.
  induction l as [|x l IH]; intros t b t' Hf Ht; cbn [all_of]; [by intros [= <- <-]|].
  destruct (f t x) as [[ok t1]| | | |] eqn:E; cbn [obind]; try done.
  destruct (all_of f t1 l) as [[rest t2]| | | |] eqn:E2; cbn [obind]; try done. intros [= <- <-].
  eapply IH; [|eapply Hf; [by left|exact Ht|exact E]|exact E2]. intros t3 y b3 t4 Hy. apply Hf. by right.
Qed.

(** Reading changes nothing but the watches. *)
Definition zk_same z z' : Prop :=
  (forall q, zk_node z' q = zk_node z q /\ zk_children z' q = zk_children z q) /\ zk_pending z' = zk_pending z /\
  (forall q, zk_watched z q = true -> zk_watched z' q = true).

Lemma zk_same_evolves z z' : zk_same z z' -> zk_evolves [] z z'.
Proof.
  intros (H1 & H2 & H3). split; [intros p; rewrite (proj1 (H1 _)); by left|by rewrite H2|]. intros p Hw. left. split; [apply H1|auto].
Qed.

Lemma queryInfo_evolves fuel sd : forall z domain service b z',
  ZKServiceDiscovery_queryInfo fuel sd z domain service = Ok (b, z') -> zk_evolves [] z z'.
Proof.
  induction fuel as [|fuel IH]; intros z domain service b z'; cbn [ZKServiceDiscovery_queryInfo]; [done|].
  destruct (negb _).
  - destruct (existsOrCreate_ok z (GetConsumersPath domain service)) as (v & z1 & -> & H1 & _). cbn [obind].
    destruct v; cbn [negb]; [|by intros [= <- <-]]. destruct (m_selfInfo sd) as [|c info]; [by intros [= <- <-]|].
    pose proof (zk_create_ok z1 (GetConsumersPath domain service ++ str "/" ++ c :: info) (m_selfData sd) true) as Hc.
    destruct (zk_create z1 _ _ true) as [rt z2]. destruct Hc as [C1 _].
    by destruct (rt =? ZOK); intros [= <- <-]; transitivity z1.
  - pose proof (zk_getChildren_ok z (GetDomainPath domain) false) as Hc. destruct (zk_getChildren z _ false) as [[rt vals] z1].
    destruct Hc as (_ & _ & _ & _ & C1 & C2 & C3 & _). intros E. transitivity z1; [by apply zk_same_evolves|].
    eapply (all_of_inv (fun z2 => zk_evolves [] z1 z2)); [|reflexivity|exact E]. intros z2 x b2 z3 _ H2 E2. transitivity z2; [done|]. exact (IH _ _ _ _ _ E2).
Qed.

(** ** The table and the service *)

Definition entry (sd : discovery) (d srv : bytes) : option infos := m_datas sd !! d ≫= (.!! srv).

Definition queried (sd : discovery) (d srv : bytes) : Prop :=
  exists services, m_queryInfos sd !! d = Some services /\ (srv ∈ services \/ str "all" ∈ services).

(** What the callback was told last of a service. *)
Definition told (calls : list cb_call) (d srv : bytes) : option infos :=
  fold_left (fun acc c => if decide (cb_domain c = d /\ cb_service c = srv) then Some (cb_new c) else acc) calls None.

(** A service in the table: its names make a path and it is asked for. *)
Record live s (d srv : bytes) : Prop := {
  live_domain : name_ok d;
  live_service : name_ok srv;
  live_path : path_ok d srv;
  live_queried : queried (d_sd s) d srv
}.

(** The entry is what the children are now and the node is watched, or a notification is
    on its way. *)
Definition current s (d srv : bytes) (x : infos) : Prop :=
  (x = infos_of inet_addr (zk_children (d_zk s) (GetProvidersPath d srv)) /\ zk_watched (d_zk s) (GetProvidersPath d srv) = true) \/
  GetProvidersPath d srv ∈ zk_pending (d_zk s).

(** The invariant, with the exception of some service and of the [lost] nodes. *)
Record disc_inv (lost : list bytes) (except : bytes -> bytes -> Prop) s : Prop := {
  inv_told d srv : told (d_calls s) d srv = entry (d_sd s) d srv;
  inv_chain pre c post : d_calls s = pre ++ c :: post -> cb_old c = default ∅ (told pre (cb_domain c) (cb_service c));
  inv_live d srv x : entry (d_sd s) d srv = Some x -> live s d srv;
  inv_node d srv x : entry (d_sd s) d srv = Some x -> GetProvidersPath d srv ∉ lost -> zk_node (d_zk s) (GetProvidersPath d srv) = true;
  inv_current d srv x : entry (d_sd s) d srv = Some x -> GetProvidersPath d srv ∉ lost -> ~ except d srv -> current s d srv x;
  inv_short d services srv : m_queryInfos (d_sd s) !! d = Some services -> srv ∈ services ->
    Z.of_nat (length d) < 2 ^ 60 /\ Z.of_nat (length srv) < 2 ^ 60
}.

Definition nothing (d srv : bytes) : Prop := False.

(** The service changes, the table does not. *)
Lemma disc_inv_zk lost gone except s z' : zk_evolves gone (d_zk s) z' -> disc_inv lost except s ->
  disc_inv (lost ++ gone) except (mkD (d_sd s) z' (d_calls s)).
Proof.
  intros [E1 E2 E3] [I1 I2 I3 IN I4 I5]. split; cbn [d_sd d_zk d_calls]; [done|done| | | |done].
  - intros d srv x Hx. destruct (I3 d srv x Hx). split; auto.
  - intros d srv x Hx [Hl Hg]%not_elem_of_app. destruct (E1 _ (IN d srv x Hx Hl)); done.
  - intros d srv x Hx [Hl Hg]%not_elem_of_app He. unfold current; cbn [d_zk]. destruct (I4 d srv x Hx Hl He) as [[-> Hw]|Hp]; [|right; auto].
    destruct (E3 _ Hw) as [[-> Hw']|[Hp|Hp]]; [by left|by right|done].
Qed.

Lemma disc_inv_own lost except s z' : zk_evolves [] (d_zk s) z' -> disc_inv lost except s ->
  disc_inv lost except (mkD (d_sd s) z' (d_calls s)).
Proof. intros He Hi. rewrite <- (app_nil_r lost). by apply disc_inv_zk. Qed.

(** Queries and registrations are only added. *)
Lemma disc_inv_sd lost except s sd' : m_datas sd' = m_datas (d_sd s) -> (forall d srv, queried (d_sd s) d srv -> queried sd' d srv) ->
  (forall d services srv, m_queryInfos sd' !! d = Some services -> srv ∈ services -> Z.of_nat (length d) < 2 ^ 60 /\ Z.of_nat (length srv) < 2 ^ 60) ->
  disc_inv lost except s -> disc_inv lost except (mkD sd' (d_zk s) (d_calls s)).
Proof.
  intros Hd Hq Hs [I1 I2 I3 IN I4 I5]. unfold entry in *. split; cbn [d_sd d_zk d_calls]; unfold entry; rewrite ?Hd; [done|done| |done|done|done].
  intros d srv x Hx. destruct (I3 d srv x Hx). split; auto.
Qed.

(** More nodes are lost, fewer services excepted. *)
Lemma disc_inv_weaken lost lost' (except except' : bytes -> bytes -> Prop) s :
  disc_inv lost except s -> (forall p, p ∈ lost -> p ∈ lost') -> (forall d srv, GetProvidersPath d srv ∉ lost' -> except d srv -> except' d srv) ->
  disc_inv lost' except' s.
Proof.
  intros [I1 I2 I3 IN I4 I5] Hl He. split; try done.
  - intros d srv x Hx Hn. eapply IN; [done|]. intros Hin. by apply Hn, Hl.
  - intros d srv x Hx Hn Hx'. eapply I4; [done| |]; [intros Hin; by apply Hn, Hl|]. intros Hin. apply Hx'. by apply He.
Qed.

Lemma told_app calls c d srv :
  told (calls ++ [c]) d srv = if decide (cb_domain c = d /\ cb_service c = srv) then Some (cb_new c) else told calls d srv.
Proof. unfold told. by rewrite fold_left_app. Qed.

(** The table takes a value. *)
Lemma publish_inv lost s d srv vals s' : publish s d srv (infos_of inet_addr vals) = Ok s' ->
  live s d srv -> vals = zk_children (d_zk s) (GetProvidersPath d srv) -> zk_watched (d_zk s) (GetProvidersPath d srv) = true ->
  zk_node (d_zk s) (GetProvidersPath d srv) = true ->
  disc_inv lost (fun d' srv' => d' = d /\ srv' = srv) s -> disc_inv lost nothing s'.
Proof.
  unfold publish. destruct (m_cb (d_sd s)); [|done]. intros [= <-] Hl -> Hw Hnode [I1 I2 I3 IN I4 I5].
  set (x := infos_of inet_addr _).
  assert (forall d' srv', entry (set_datas (d_sd s) (<[d := <[srv := x]> (at_key (m_datas (d_sd s)) d)]> (m_datas (d_sd s)))) d' srv' =
    if decide (d = d' /\ srv = srv') then Some x else entry (d_sd s) d' srv') as He.
  { intros d' srv'. unfold entry. cbn. destruct (decide (d = d')) as [<-|Hd].
    - rewrite lookup_insert_eq. cbn. destruct (decide (srv = srv')) as [<-|Hs]; [rewrite lookup_insert_eq; by rewrite decide_True|].
      rewrite lookup_insert_ne, decide_False by naive_solver. unfold at_key. by destruct (m_datas (d_sd s) !! d).
    - rewrite lookup_insert_ne, decide_False by naive_solver. done. }
  split; cbn [d_sd d_zk d_calls].
  - intros d' srv'. rewrite He, told_app. cbn. by rewrite I1.
  - intros pre c post Hc. destruct post as [|p post _] using rev_ind.
    + apply app_inj_tail in Hc as [<- <-]. cbn. rewrite I1. unfold entry, at_key. by destruct (m_datas (d_sd s) !! d).
    + rewrite app_comm_cons, app_assoc in Hc. apply app_inj_tail in Hc as [Hc _]. by eapply I2.
  - intros d' srv' y. rewrite He. case_decide as E; [|intros Hy; destruct (I3 d' srv' y Hy); by split].
    destruct E as [<- <-]. intros _. destruct Hl. by split.
  - intros d' srv' y. rewrite He. case_decide as E; [destruct E as [<- <-]; done|]. apply IN.
  - intros d' srv' y. rewrite He. case_decide as E; [destruct E as [<- <-]; intros [= <-] _ _; by left|].
    intros Hy Hn _. destruct (I4 d' srv' y Hy) as [?|?]; [done|naive_solver|by left|by right].
  - done.
Qed.

(** [getChildren] brings the entry up to date, or it fails and leaves the table alone; if
    there is an entry, it fails only when the client is not connected or the node has
    gone. *)
Lemma getChildren_inv lost s d srv b s' : path_ok d srv ->
  disc_inv lost (fun d' srv' => d' = d /\ srv' = srv) s ->
  ZKServiceDiscovery_getChildren inet_addr s (GetProvidersPath d srv) = Ok (b, s') ->
  disc_inv lost nothing s' \/
  exists z1, s' = mkD (d_sd s) z1 (d_calls s) /\ zk_same (d_zk s) z1 /\
    (is_Some (entry (d_sd s) d srv) -> zk_up (d_zk s) = true -> zk_node (d_zk s) (GetProvidersPath d srv) = false).
Proof.
  intros Hp Hi. unfold ZKServiceDiscovery_getChildren.
  assert (zk_same (d_zk s) (d_zk s)) as Hrefl by (by split_and!). destruct s as [sd z calls]. cbn [d_sd d_zk d_calls] in *.
  assert (forall x, entry sd d srv = Some x -> live (mkD sd z calls) d srv) as Hlive by (intros x Hx; exact (inv_live _ _ _ Hi _ _ _ Hx)).
  destruct (ParseDomainService _) as [[[d1 srv1]|]| | | |] eqn:Ep; cbn [obind]; try solve [intros [=]].
  2: { intros [= <- <-]. right. exists z. split_and!; [done|done|]. intros [x Hx]. destruct (Hlive x Hx). by rewrite ParseDomainService_providers in Ep. }
  apply ParseDomainService_inv in Ep as (Hd & Hs & -> & ->); [|done].
  destruct (m_queryInfos sd !! d) as [services|] eqn:Eq.
  2: { intros [= <- <-]. right. exists z. split_and!; [done|done|]. intros [x Hx]. destruct (Hlive x Hx) as [_ _ _ (services & Hq & _)]. cbn in Hq. congruence. }
  destruct (negb (bool_decide (srv ∈ services)) && negb (bool_decide (str "all" ∈ services))) eqn:Eb.
  { intros [= <- <-]. right. exists z. split_and!; [done|done|]. intros [x Hx]. destruct (Hlive x Hx) as [_ _ _ (services' & Hq & Hin)]. cbn in Hq. simplify_eq.
    apply andb_true_iff in Eb as [E1%negb_true_iff%bool_decide_eq_false E2%negb_true_iff%bool_decide_eq_false]. by destruct Hin. }
  pose proof (zk_getChildren_ok z (GetProvidersPath d srv) true) as Hc. destruct (zk_getChildren _ _ _) as [[v vals] z1].
  destruct Hc as (CU & C1 & C2 & CV & C3 & C4 & C5 & C6).
  assert (zk_same z z1) as Hsame by (by split_and!).
  assert (disc_inv lost (fun d' srv' => d' = d /\ srv' = srv) (mkD sd z1 calls)) as Hi1.
  { apply (disc_inv_own lost _ (mkD sd z calls)); [|done]. by apply zk_same_evolves. }
  destruct (Z.eqb_spec v ZOK) as [Hv|Hv]; cbn [negb].
  2: { intros [= <- <-]. right. exists z1. split_and!; [done|done|]. intros _ Hu. destruct (zk_node z _) eqn:En; [|done]. destruct Hv. by apply C1. }
  destruct (publish _ _ _ _) as [t| | | |] eqn:Epub; cbn [obind]; try done. intros [= <- <-]. left.
  destruct (proj1 C1 Hv) as [_ Hnode]. eapply publish_inv; [exact Epub| | |by apply C6| |exact Hi1].
  - split; cbn [d_sd d_zk d_calls]; [done|done|done|].
    exists services. split; [done|]. apply andb_false_iff in Eb as [E|E]; apply negb_false_iff, bool_decide_eq_true in E; auto.
  - cbn [d_zk]. rewrite (proj2 (C3 _)). by apply CV.
  - cbn [d_zk]. by rewrite (proj1 (C3 _)).
Qed.

Lemma short_path d srv : Z.of_nat (length d) < 2 ^ 60 -> Z.of_nat (length srv) < 2 ^ 60 -> path_ok d srv.
Proof. intros Hd Hs. unfold path_ok, GetProvidersPath. rewrite !length_app. cbn [length str map list_ascii_of_string]. lia. Qed.

Lemma queryData_inv lost fuel : forall s d srv b s',
  Z.of_nat (length d) < 2 ^ 60 -> Z.of_nat (length srv) < 2 ^ 60 -> disc_inv lost nothing s ->
  ZKServiceDiscovery_queryData inet_addr fuel s d srv = Ok (b, s') -> disc_inv lost nothing s'.
Proof.
  induction fuel as [|fuel IH]; intros s d srv b s' Hd Hs Hi; cbn [ZKServiceDiscovery_queryData]; [done|].
  destruct (negb _).
  - intros E. eapply getChildren_inv in E as [?|(z1 & -> & Hz & _)]; [done| |by apply short_path|by eapply disc_inv_weaken].
    apply disc_inv_own; [by apply zk_same_evolves|done].
  - pose proof (zk_getChildren_ok (d_zk s) (GetDomainPath d) false) as Hc. destruct (zk_getChildren _ _ _) as [[v vals] z1].
    destruct Hc as (_ & _ & C2 & _ & C3 & C4 & C5 & _). intros E.
    eapply (all_of_inv (disc_inv lost nothing)); [|apply disc_inv_own; [apply zk_same_evolves; by split_and!|exact Hi]|exact E].
    intros t x b2 t' Hx Ht E2. eapply IH; [exact Hd| |exact Ht|exact E2]. destruct C2; subst vals.
    + by apply not_elem_of_nil in Hx.
    + apply zk_names_short in Hx. unfold zk_limit in Hx. lia.
Qed.

Lemma query_list_in sd d srv : (d, srv) ∈ query_list sd -> exists services, m_queryInfos sd !! d = Some services /\ srv ∈ services.
Proof.
  unfold query_list. rewrite list_elem_of_In, in_flat_map. intros ([d' services] & Hd & (x & [= -> ->] & Hs)%in_map_iff).
  apply list_elem_of_In, elem_of_map_to_list in Hd. exists services. split; [done|]. by apply elem_of_elements, list_elem_of_In.
Qed.

Lemma onZKConnect_inv lost fuel s s' : disc_inv lost nothing s -> ZKServiceDiscovery_onZKConnect inet_addr fuel s = Ok s' -> disc_inv lost nothing s'.
Proof.
  intros Hi. unfold ZKServiceDiscovery_onZKConnect.
  destruct (all_of _ s (register_list (d_sd s))) as [[b1 s1]| | | |] eqn:E1; cbn [obind]; try done.
  destruct (all_of _ s1 (query_list (d_sd s))) as [[b2 s2]| | | |] eqn:E2; cbn [obind]; try done.
  destruct (all_of _ s2 (query_list (d_sd s))) as [[b3 s3]| | | |] eqn:E3; cbn [obind]; try done. intros [= <-].
  assert (disc_inv lost nothing s1) as H1.
  { eapply (all_of_inv (disc_inv lost nothing)); [|exact Hi|exact E1]. intros t [[[d x] ip] data] b t' _ Ht. unfold with_zk.
    destruct (ZKServiceDiscovery_registerInfo _ _ _ _ _) as [[b' z']| | | |] eqn:E; cbn [obind]; try done. intros [= <- <-].
    apply disc_inv_own; [by eapply registerInfo_evolves|done]. }
  assert (disc_inv lost nothing s2) as H2.
  { eapply (all_of_inv (disc_inv lost nothing)); [|exact H1|exact E2]. intros t q b t' _ Ht. unfold with_zk.
    destruct (ZKServiceDiscovery_queryInfo _ _ _ _ _) as [[b' z']| | | |] eqn:E; cbn [obind]; try done. intros [= <- <-].
    apply disc_inv_own; [by eapply queryInfo_evolves|done]. }
  eapply (all_of_inv (disc_inv lost nothing)); [|exact H2|exact E3]. intros t [d srv] b t' Hq Ht.
  apply query_list_in in Hq as (services & Hq & Hin). pose proof (inv_short _ _ _ Hi _ _ _ Hq Hin) as [Hd Hs]. by apply queryData_inv.
Qed.

(** ** Runs *)

(** The world changes the nodes and the connection; a notification arrives for the path
    of a service; the client connects, or its timer expires; services are registered and
    asked for.  Handlers run one at a time, and the session does not expire.  A step is
    labelled with the nodes that are lost to this client: those that were deleted, and the
    one of a notification that arrives when the client is not connected any more. *)
Inductive disc_step (fuel : nat) : list bytes -> dstate -> dstate -> Prop :=
| ds_world s gone z' : zk_evolves gone (d_zk s) z' -> disc_step fuel gone s (mkD (d_sd s) z' (d_calls s))
| ds_event s d srv z1 s' r : name_ok d -> name_ok srv -> path_ok d srv -> zk_delivers (d_zk s) (GetProvidersPath d srv) z1 ->
    ZKServiceDiscovery_onWatch inet_addr fuel (mkD (d_sd s) z1 (d_calls s)) CHILD CONNECTED (GetProvidersPath d srv) = Ok (s', r) ->
    disc_step fuel (if zk_up z1 then [] else [GetProvidersPath d srv]) s s'
| ds_connect s s' r path : ZKServiceDiscovery_onWatch inet_addr fuel s SESSION CONNECTED path = Ok (s', r) -> disc_step fuel [] s s'
| ds_register s d srv ip data :
    disc_step fuel [] s (mkD (IServiceDiscovery_registerServer (d_sd s) d srv ip data) (d_zk s) (d_calls s))
| ds_query s d srv : Z.of_nat (length d) < 2 ^ 60 -> Z.of_nat (length srv) < 2 ^ 60 ->
    disc_step fuel [] s (mkD (IServiceDiscovery_queryServer (d_sd s) d srv) (d_zk s) (d_calls s)).

(** A run, with everything that was lost. *)
Inductive disc_run (fuel : nat) (s0 : dstate) : list bytes -> dstate -> Prop :=
| run_nil : disc_run fuel s0 [] s0
| run_snoc lost l s s' : disc_run fuel s0 lost s -> disc_step fuel l s s' -> disc_run fuel s0 (lost ++ l) s'.

Lemma event_inv lost fuel s d srv z1 s' r : name_ok d -> name_ok srv -> path_ok d srv -> zk_delivers (d_zk s) (GetProvidersPath d srv) z1 ->
  ZKServiceDiscovery_onWatch inet_addr fuel (mkD (d_sd s) z1 (d_calls s)) CHILD CONNECTED (GetProvidersPath d srv) = Ok (s', r) ->
  disc_inv lost nothing s -> disc_inv (lost ++ if zk_up z1 then [] else [GetProvidersPath d srv]) nothing s'.
Proof.
  intros M1 M2 Hp Hd E Hi. cbn [ZKServiceDiscovery_onWatch] in E.
  destruct (ZKServiceDiscovery_getChildren _ _ _) as [[b t]| | | |] eqn:Eg; cbn [obind] in E; try discriminate E. injection E as <- <-.
  assert (disc_inv lost (fun d' srv' => d' = d /\ srv' = srv) (mkD (d_sd s) z1 (d_calls s))) as Hi1.
  { destruct Hi as [I1 I2 I3 IN I4 I5], Hd as [DU D1 D2 D3 D4]. split; cbn [d_sd d_zk d_calls]; [done|done| | | |done].
    - intros d' srv' x Hx. by destruct (I3 _ _ _ Hx).
    - intros d' srv' x Hx Hn. rewrite D1. by eapply IN.
    - intros d' srv' x Hx Hn He. unfold current. cbn [d_zk]. rewrite D2, D3. destruct (I4 _ _ _ Hx Hn ltac:(by intros [])) as [Hc|Hq]; [by left|right].
      destruct (D4 _ Hq) as [Heq|Hq']; [|done]. destruct He. pose proof (I3 _ _ _ Hx) as [N1 N2 _ _].
      by apply providers_inj in Heq. }
  eapply getChildren_inv in Eg as [H|(z2 & -> & Hz & Hf)]; [| |exact Hp|exact Hi1].
  - eapply disc_inv_weaken; [exact H|intros p ?; apply elem_of_app; by left|done].
  - cbn [d_sd d_zk d_calls] in *. apply (disc_inv_own _ nothing (mkD (d_sd s) z1 (d_calls s))); [by apply zk_same_evolves|].
    destruct (entry (d_sd s) d srv) as [x|] eqn:Ex.
    + destruct (zk_up z1) eqn:Eu.
      * rewrite app_nil_r. eapply disc_inv_weaken; [exact Hi1|done|]. intros d' srv' Hn [-> ->].
        pose proof (inv_node _ _ _ Hi1 d srv x Ex Hn) as Hnode. cbn [d_zk] in Hnode. rewrite Hf in Hnode; [done|by eexists|done].
      * eapply disc_inv_weaken; [exact Hi1|intros p ?; apply elem_of_app; by left|]. intros d' srv' Hn [-> ->].
        destruct Hn. apply elem_of_app. right. by left.
    + destruct Hi1 as [I1 I2 I3 IN I4 I5]. split; try done; cbn [d_sd] in *.
      * intros d' srv' y Hy Hn. eapply IN; [done|]. intros Hin. apply Hn, elem_of_app. by left.
      * intros d' srv' y Hy Hn _. eapply I4; [done|intros Hin; apply Hn, elem_of_app; by left|]. intros [-> ->]. congruence.
Qed.

Lemma disc_step_inv lost l fuel s s' : disc_step fuel l s s' -> disc_inv lost nothing s -> disc_inv (lost ++ l) nothing s'.
Proof.
  intros Hst Hi. destruct Hst as [s gone z' Hz|s d srv z1 s' r M1 M2 Hp Hd E|s s' r path E|s d srv ip data|s d srv Hd Hs].
  - by apply disc_inv_zk.
  - by eapply event_inv.
  - rewrite app_nil_r. cbn [ZKServiceDiscovery_onWatch] in E.
    destruct (ZKServiceDiscovery_onZKConnect _ _ _) as [t| | | |] eqn:Eg; cbn [obind] in E; try done. injection E as <- <-.
    by eapply onZKConnect_inv.
  - rewrite app_nil_r. apply disc_inv_sd; [done|done| |done]. apply Hi.
  - rewrite app_nil_r. apply disc_inv_sd; [done| | |done].
    + intros d' srv' (services & Hq & Hin). unfold queried, IServiceDiscovery_queryServer. cbn [m_queryInfos].
      destruct (decide (d = d')) as [<-|Hne]; [|by exists services; rewrite lookup_insert_ne].
      rewrite lookup_insert_eq. eexists. split; [done|]. unfold at_key. rewrite Hq. cbn. destruct Hin; [left|right]; apply elem_of_union; by right.
    + cbn [IServiceDiscovery_queryServer m_queryInfos]. intros d' services srv' Hq Hin. destruct (decide (d = d')) as [<-|Hne].
      * rewrite lookup_insert_eq in Hq. simplify_eq. apply elem_of_union in Hin as [->%elem_of_singleton|Hin]; [done|].
        unfold at_key in Hin. destruct (m_queryInfos (d_sd s) !! d) as [services|] eqn:Eq; cbn in Hin; [|by apply not_elem_of_empty in Hin].
        by apply (inv_short _ _ _ Hi _ _ _ Eq Hin).
      * rewrite lookup_insert_ne in Hq by done. by apply (inv_short _ _ _ Hi _ _ _ Hq Hin).
Qed.

(** The start: nothing is known yet. *)
Definition disc_start (cb : bool) z : dstate := mkD (IServiceDiscovery_setServiceCallback discovery_new cb) z [].

Lemma disc_reach_inv fuel cb z lost s : disc_run fuel (disc_start cb z) lost s -> disc_inv lost nothing s.
Proof.
  intros Hr. induction Hr as [|lost l s s' _ IH Hst]; [|by eapply disc_step_inv].
  split; unfold entry; cbn [disc_start d_sd d_calls IServiceDiscovery_setServiceCallback discovery_new m_datas m_queryInfos].
  - intros d srv. by rewrite lookup_empty.
  - intros pre c post. by destruct pre.
  - intros d srv x. by rewrite lookup_empty.
  - intros d srv x. by rewrite lookup_empty.
  - intros d srv x. by rewrite lookup_empty.
  - intros d services srv. by rewrite lookup_empty.
Qed.

(** C18: the table of servers follows the service.  Runs are those of one session in which
    the handlers run one at a time; others may add and remove nodes, the connection may
    come and go, and notifications arrive in any order.  Every entry of the table
    whose node was not lost in the run is made of the children its node has now, and the
    node is watched, or a notification is on its way, so that with none under way these
    entries are exact.  Lost is a node that others deleted, or whose notification was
    handled while the client was not connected ([deleted_node_stays]: such an entry is
    not updated).  The callback was told, for every service, exactly the changes that lead
    to the entry of the table.  ([getChildren_race]: two handlers at once may leave an
    old entry.) *)
Theorem discovery_fresh fuel cb z lost s : disc_run fuel (disc_start cb z) lost s ->
  (forall d srv x, entry (d_sd s) d srv = Some x -> GetProvidersPath d srv ∉ lost -> current s d srv x) /\
  (zk_pending (d_zk s) = [] -> forall d srv x, entry (d_sd s) d srv = Some x -> GetProvidersPath d srv ∉ lost ->
     x = infos_of inet_addr (zk_children (d_zk s) (GetProvidersPath d srv))) /\
  (forall d srv, told (d_calls s) d srv = entry (d_sd s) d srv) /\
  (forall pre c post, d_calls s = pre ++ c :: post -> cb_old c = default ∅ (told pre (cb_domain c) (cb_service c))).
Proof.
  intros Hr. pose proof (disc_reach_inv _ _ _ _ _ Hr) as Hi. split_and!; [|..|apply Hi|apply Hi].
  - intros d srv x Hx Hn. apply (inv_current _ _ _ Hi); [done|done|by intros []].
  - intros Hp d srv x Hx Hn. destruct (inv_current _ _ _ Hi _ _ _ Hx Hn ltac:(by intros [])) as [[-> _]|Hq]; [done|].
    rewrite Hp in Hq. by apply not_elem_of_nil in Hq.
Qed.

End spec.

(** ** A service that keeps the promises

    The nodes by their paths, what this client watches, what is on its way to it and
    whether it is connected. *)
Record zk_world := mkWorld { w_nodes : list bytes; w_watched : list bytes; w_pending : list bytes; w_up : bool }.

Definition w_parent (p : bytes) : bytes := match last_pos (Z.eqb (chr "/")) p with Some pos => take pos p | None => [] end.
Definition w_name (p : bytes) : bytes := match last_pos (Z.eqb (chr "/")) p with Some pos => drop (S pos) p | None => p end.
Definition w_short (p : bytes) : bool := Z.of_nat (length p) <? zk_limit.

Definition w_node (w : zk_world) (p : bytes) : bool := w_short p && bool_decide (p ∈ w_nodes w).
Definition w_children (w : zk_world) (q : bytes) : list bytes :=
  map w_name (filter (fun p => w_short p = true /\ w_parent p = q) (w_nodes w)).

(** The children of [q] change. *)
Definition w_touch (w : zk_world) (q : bytes) : zk_world :=
  if bool_decide (q ∈ w_watched w) then mkWorld (w_nodes w) (filter (fun p => p <> q) (w_watched w)) (w_pending w ++ [q]) (w_up w) else w.

Definition w_has_parent (w : zk_world) (p : bytes) : bool :=
  match last_pos (Z.eqb (chr "/")) p with Some O => true | Some pos => w_node w (take pos p) | None => false end.

Definition ZNONODE : Z := -101.
Definition ZBADARGUMENTS : Z := -8.
Definition ZCONNECTIONLOSS : Z := -4.

Definition w_add (w : zk_world) (p : bytes) : zk_world := 
  w_touch (mkWorld (w_nodes w ++ [p]) (w_watched w) (w_pending w) (w_up w)) (w_parent p).
(** The watch of a deleted node goes with it. *)
Definition w_remove (w : zk_world) (p : bytes) : zk_world :=
  w_touch (mkWorld (filter (fun q => q <> p) (w_nodes w)) (filter (fun q => q <> p) (w_watched w)) (w_pending w) (w_up w)) (w_parent p).
Definition w_connection (w : zk_world) (b : bool) : zk_world := mkWorld (w_nodes w) (w_watched w) (w_pending w) b.

#[export] Instance zk_world_ops : ZkOps zk_world := {
  zk_exists w p := if negb (w_up w) then ZCONNECTIONLOSS else if w_node w p then ZOK else ZNONODE;
  zk_create w p data e :=
    if negb (w_up w) then (ZCONNECTIONLOSS, w) else
    if w_node w p then (ZNODEEXISTS, w) else
    if negb (w_short p) then (ZBADARGUMENTS, w) else
    if w_has_parent w p then (ZOK, w_add w p) else (ZNONODE, w);
  zk_getChildren w p watch :=
    if negb (w_up w) then (ZCONNECTIONLOSS, [], w) else
    if w_node w p then (ZOK, w_children w p, if watch then mkWorld (w_nodes w) (p :: w_watched w) (w_pending w) (w_up w) else w)
    else (ZNONODE, [], w)
}.

#[export] Instance zk_world_view : ZkView zk_world := {
  zk_up := w_up; zk_node := w_node; zk_children := w_children; zk_watched w p := bool_decide (p ∈ w_watched w); zk_pending := w_pending
}.

(** A change of the children of one node, with the deletion of the nodes [gone]. *)
Lemma w_touch_evolves gone w nodes watched q :
  (forall p, w_node w p = true -> w_node (mkWorld nodes watched (w_pending w) (w_up w)) p = true \/ p ∈ gone) ->
  (forall p, p ∈ w_watched w -> p ∈ watched \/ p ∈ gone) ->
  (forall p, p <> q -> w_children (mkWorld nodes watched (w_pending w) (w_up w)) p = w_children w p) ->
  zk_evolves gone w (w_touch (mkWorld nodes watched (w_pending w) (w_up w)) q).
Proof.
  intros Hn Hwt Hc. unfold w_touch. cbn [w_watched w_nodes w_pending w_up]. case_bool_decide as Hq; split; cbn; [exact Hn| | |exact Hn|done|].
  - intros p Hp. apply elem_of_app. by left.
  - intros p Hw%bool_decide_eq_true. destruct (Hwt p Hw) as [Hw'|]; [|auto].
    destruct (decide (p = q)) as [->|Hne]; [right; left; apply elem_of_app; right; by left|left].
    split; [by apply Hc|]. apply bool_decide_eq_true, list_elem_of_filter. done.
  - intros p Hw%bool_decide_eq_true. destruct (Hwt p Hw) as [Hw'|]; [|auto]. left. split; [|by apply bool_decide_eq_true]. apply Hc. by intros ->.
Qed.

Lemma w_node_touch w q p : w_node (w_touch w q) p = w_node w p.
Proof. unfold w_touch, w_node. by destruct (bool_decide (q ∈ w_watched w)). Qed.

Lemma w_up_touch w q : w_up (w_touch w q) = w_up w.
Proof. unfold w_touch. by destruct (bool_decide (q ∈ w_watched w)). Qed.

Lemma w_add_evolves w p : zk_evolves [] w (w_add w p).
Proof.
  apply w_touch_evolves; [|by left|].
  - unfold w_node. cbn. intros q [-> H%bool_decide_eq_true]%andb_true_iff. left. apply bool_decide_eq_true, elem_of_app. by left.
  - intros q Hq. unfold w_children. cbn. rewrite filter_app. rewrite (filter_cons_False _ p []), app_nil_r by naive_solver. done.
Qed.

Lemma w_remove_evolves w p : zk_evolves [p] w (w_remove w p).
Proof.
  apply w_touch_evolves.
  - unfold w_node. cbn. intros q [-> H%bool_decide_eq_true]%andb_true_iff. destruct (decide (q = p)) as [->|Hne]; [right; by left|left].
    by apply bool_decide_eq_true, list_elem_of_filter.
  - intros q Hq. destruct (decide (q = p)) as [->|Hne]; [right; by left|left]. by apply list_elem_of_filter.
  - intros q Hq. unfold w_children. cbn. f_equal. rewrite list_filter_filter. apply list_filter_iff. intros x. naive_solver.
Qed.

Lemma w_connection_evolves w b : zk_evolves [] w (w_connection w b).
Proof. split; cbn; auto. Qed.

#[export] Instance zk_world_spec : ZkSpec zk_world.
Proof.
  split; cbn.
  - intros w p. destruct (w_up w); cbn; [|by split; [|intros []]]. destruct (w_node w p); [done|]. by split; [|intros []].
  - intros w p data e. destruct (w_up w) eqn:Eu; cbn [negb]; [|split_and!; [reflexivity|done|done|done|by intros [|]|done]].
    destruct (w_node w p) eqn:En; [split_and!; [reflexivity|done..]|]. destruct (w_short p) eqn:Es; cbn [negb].
    2: { split_and!; [done|done|done| |by intros [|]|done]. intros _ _ _ H. unfold w_short in Es. lia. }
    destruct (w_has_parent w p) eqn:Ep.
    + split_and!; [apply w_add_evolves|by unfold w_add; rewrite w_up_touch|done|done| |].
      * intros _. unfold w_add. rewrite w_node_touch. unfold w_node. rewrite Es. apply bool_decide_eq_true, elem_of_app. right. by left.
      * intros q Hq. unfold w_add. rewrite w_node_touch. unfold w_node. f_equal. apply bool_decide_ext. cbn. rewrite elem_of_app, list_elem_of_singleton. naive_solver.
    + split_and!; [done|done|done| |by intros [|]|done]. unfold parent_exists, w_has_parent in *. cbn.
      destruct (last_pos _ p) as [[|n]|]; [done|congruence|done].
  - intros w p watch. destruct (w_up w) eqn:Eu; cbn [negb].
    2: { split_and!; try done; [by split; [|intros []]|by left]. }
    destruct (w_node w p) eqn:En; [|split_and!; try done; [by split; [|intros []]|by left]].
    destruct watch; split_and!; try done; try (by right).
    + intros q H%bool_decide_eq_true. apply bool_decide_eq_true. cbn. by right.
    + intros _ _. apply bool_decide_eq_true. by left.
  - intros w p c. unfold w_children. rewrite list_elem_of_In, in_map_iff. intros (q & <- & H%list_elem_of_In%list_elem_of_filter).
    destruct H as [[Hs _] _]. unfold w_short in Hs. unfold w_name. destruct (last_pos _ q); [rewrite length_drop|]; lia.
Qed.

Definition w_deliver (w : zk_world) (p : bytes) : zk_world := mkWorld (w_nodes w) (w_watched w) (filter (fun q => q <> p) (w_pending w)) (w_up w).

Lemma w_deliver_ok w p : zk_delivers w p (w_deliver w p).
Proof. split; try done. cbn. intros q Hq. destruct (decide (q = p)); [by left|right]. by apply list_elem_of_filter. Qed.

(** ** A run *)

Definition INADDR_NONE : Z := 4294967295.
Definition some_inet_addr (ip : bytes) : Z :=
  if bool_decide (ip = str "10.0.0.1") then 16777226
  else if bool_decide (ip = str "10.0.0.2") then 33554442
  else if bool_decide (ip = str "0.0.0.0") then 0 else INADDR_NONE.

Definition after {A} (d : A) (r : outcome (A * bool)) : A := match r with Ok (a, _) => a | _ => d end.

(** A server registers and asks for its own service; the client connects; another server
    registers; the notification arrives. *)
Definition run_asked : dstate :=
  let s := disc_start true (mkWorld [] [] [] true) in
  let s := mkD (IServiceDiscovery_registerServer (d_sd s) (str "d") (str "s") (str "10.0.0.1:80") []) (d_zk s) (d_calls s) in
  mkD (IServiceDiscovery_queryServer (d_sd s) (str "d") (str "s")) (d_zk s) (d_calls s).
Definition run_connected : dstate := after run_asked (ZKServiceDiscovery_onWatch some_inet_addr 2 run_asked SESSION CONNECTED []).
Definition run_joined : dstate :=
  mkD (d_sd run_connected) (w_add (d_zk run_connected) (str "/bin/d/s/providers/10.0.0.2:80")) (d_calls run_connected).
Definition run_told : dstate :=
  let s := mkD (d_sd run_joined) (w_deliver (d_zk run_joined) (GetProvidersPath (str "d") (str "s"))) (d_calls run_joined) in
  after s (ZKServiceDiscovery_onWatch some_inet_addr 2 s CHILD CONNECTED (GetProvidersPath (str "d") (str "s"))).

Lemma run_told_reachable : disc_run some_inet_addr 2 (disc_start true (mkWorld [] [] [] true)) [] run_told.
Proof.
  eapply (run_snoc _ _ _ [] [] run_joined).
  2: { set (w := w_deliver (d_zk run_joined) (GetProvidersPath (str "d") (str "s"))).
       assert (zk_up w = true) as Hu by (vm_compute; reflexivity).
       pose proof (ds_event some_inet_addr 2 run_joined (str "d") (str "s") w run_told false) as Hst. rewrite Hu in Hst.
       apply Hst; [by apply (bool_decide_unpack _)|by apply (bool_decide_unpack _)|vm_compute; reflexivity|apply w_deliver_ok|vm_compute; reflexivity]. }
  apply (run_snoc _ _ _ [] [] run_connected); [|apply (ds_world _ _ run_connected), w_add_evolves].
  apply (run_snoc _ _ _ [] [] run_asked); [|eapply (ds_connect _ _ _ _ false []); vm_compute; reflexivity].
  eapply (run_snoc _ _ _ [] []); [|apply (ds_query _ _ _ (str "d") (str "s")); vm_compute; reflexivity].
  eapply (run_snoc _ _ _ [] []); [|apply (ds_register _ _ _ (str "d") (str "s") (str "10.0.0.1:80") [])].
  apply run_nil.
Qed.

(** The run goes on: the node of another service is deleted. *)
Definition run_cleaned : dstate :=
  mkD (d_sd run_told) (w_remove (d_zk run_told) (GetProvidersPath (str "d") (str "t"))) (d_calls run_told).

Lemma run_cleaned_reachable :
  disc_run some_inet_addr 2 (disc_start true (mkWorld [] [] [] true)) [GetProvidersPath (str "d") (str "t")] run_cleaned.
Proof.
  apply (run_snoc _ _ _ [] [GetProvidersPath (str "d") (str "t")] run_told); [exact run_told_reachable|].
  apply (ds_world _ _ run_told), w_remove_evolves.
Qed.

(** A run: both servers are in the table, as they are in the service. *)
Lemma discovery_fresh_witness :
  zk_pending (d_zk run_cleaned) = [] /\
  map fst (map_to_list (default ∅ (entry (d_sd run_cleaned) (str "d") (str "s")))) =
    [33554442 * 2 ^ 32 + 80; 16777226 * 2 ^ 32 + 80] /\
  length (d_calls run_cleaned) = 2%nat /\
  (forall x, entry (d_sd run_cleaned) (str "d") (str "s") = Some x ->
     x = infos_of some_inet_addr (zk_children (d_zk run_cleaned) (GetProvidersPath (str "d") (str "s")))).
Proof.
  split; [vm_compute; reflexivity|]. split; [vm_compute; reflexivity|]. split; [vm_compute; reflexivity|].
  intros x Hx. refine (proj1 (proj2 (discovery_fresh some_inet_addr 2 true (mkWorld [] [] [] true) _ run_cleaned run_cleaned_reachable)) _ (str "d") (str "s") x Hx _).
  - vm_compute. reflexivity.
  - by apply (bool_decide_unpack _).
Defined.

(** ** Where it falls short *)

(** The test is for the address zero: a text that is no address gives [INADDR_NONE] and
    makes a server, while the wildcard address makes none. *)
Lemma Create_accepts_bad_address (inet_addr : bytes -> Z) ip port :
  chr ":" ∉ ip -> inet_addr (cstr ip) = INADDR_NONE ->
  is_Some (ServiceItemInfo_Create inet_addr (ip ++ chr ":" :: port) []) .
Proof.
  intros Hip E. unfold ServiceItemInfo_Create. rewrite first_pos_app by (apply Forall_forall; intros x Hx ->; by apply Hip).
  rewrite take_app_length, E. cbn [Z.eqb INADDR_NONE]. by eexists.
Qed.

(** The port is not checked: with a negative one, servers of different addresses have one
    id, and only the last is kept. *)
Lemma Create_negative_port : infos_of some_inet_addr [str "10.0.0.1:-1"; str "10.0.0.2:-1"] =
  {[ U64_MAX := mkItem U64_MAX 65535 (str "10.0.0.2") [] ]}.
Proof. vm_compute. reflexivity. Qed.

(** A domain with a service called [all]: asking for all services never ends. *)
Lemma query_all_diverges fuel sd (s : @dstate zk_world) domain : w_up (d_zk s) = true -> w_node (d_zk s) (GetDomainPath domain) = true ->
  w_children (d_zk s) (GetDomainPath domain) = [str "all"] ->
  ZKServiceDiscovery_queryInfo fuel sd (d_zk s) domain (str "all") = NoFuel /\
  ZKServiceDiscovery_queryData some_inet_addr fuel s domain (str "all") = NoFuel.
Proof.
  intros Hu Hn Hc. destruct s as [sd' w calls]; cbn [d_zk] in *. induction fuel as [|fuel [IH1 IH2]]; [done|].
  assert (zk_getChildren w (GetDomainPath domain) false = (ZOK, [str "all"], w)) as E
    by (unfold zk_getChildren, zk_world_ops; by rewrite Hu, Hn, Hc).
  cbn [ZKServiceDiscovery_queryInfo ZKServiceDiscovery_queryData d_zk d_sd d_calls]. rewrite bool_decide_true by done. cbn [negb].
  rewrite E. cbn [all_of]. by rewrite IH1, IH2.
Qed.

(** Registering a server of such a service is enough. *)
Lemma register_all_diverges : exists w,
  ZKServiceDiscovery_registerInfo (mkWorld [] [] [] true) (str "d") (str "all") (str "10.0.0.1:80") [] = Ok (true, w) /\
  forall fuel sd calls, ZKServiceDiscovery_queryData some_inet_addr fuel (mkD sd w calls) (str "d") (str "all") = NoFuel.
Proof.
  eexists. split; [vm_compute; reflexivity|]. intros fuel sd calls.
  apply (query_all_diverges fuel sd (mkD sd _ calls) (str "d")); vm_compute; reflexivity.
Qed.

(** Without a callback the first answer throws, in the handler of the connection. *)
Lemma no_callback_throws : ZKServiceDiscovery_onWatch some_inet_addr 2
  (mkD (IServiceDiscovery_setServiceCallback (d_sd run_asked) false) (d_zk run_asked) []) SESSION CONNECTED [] = Throw bad_function_call.
Proof. vm_compute. reflexivity. Qed.

(** After a failed [init] there is a client, so [start] does nothing any more, and the
    timer uses that client. *)
Lemma start_not_retried : exists h calls, ZKServiceDiscovery_start (mkHandle false false) false = (h, calls) /\
  forall init, ZKServiceDiscovery_start h init = (h, []).
Proof. by eexists _, _. Qed.

(** Stopping releases what starting made, and one can start again. *)
Lemma start_stop init : exists h, fst (ZKServiceDiscovery_start (mkHandle false false) init) = h /\
  ZKServiceDiscovery_stop h = (mkHandle false false, [ClientClose; TimerCancel]).
Proof. by eexists. Qed.

(** When the node itself has gone, the servers stay in the table. *)
Lemma deleted_node_stays : exists w s', zk_node w (GetProvidersPath (str "d") (str "s")) = false /\
  ZKServiceDiscovery_getChildren some_inet_addr (mkD (d_sd run_told) w (d_calls run_told)) (GetProvidersPath (str "d") (str "s")) = Ok (false, s') /\
  size (default ∅ (entry (d_sd s') (str "d") (str "s"))) = 2%nat.
Proof. exists (mkWorld [] [] [] true). eexists. split; [done|]. split; vm_compute; reflexivity. Qed.

(** Two threads (the notification and the timer): the first reads, a server joins, the
    second reads and stores, the first stores.  The table lacks the server, and no
    notification is on its way. *)
Definition race_run : outcome (@dstate zk_world) :=
  let p := GetProvidersPath (str "d") (str "s") in
  let s := run_connected in
  let '(_, vals1, w) := zk_getChildren (d_zk s) p true in
  let w := w_deliver (w_add w (str "/bin/d/s/providers/10.0.0.2:80")) p in
  let '(_, vals2, w) := zk_getChildren w p true in
  let! s := publish (mkD (d_sd s) w (d_calls s)) (str "d") (str "s") (infos_of some_inet_addr vals2) in
  publish s (str "d") (str "s") (infos_of some_inet_addr vals1).

Lemma getChildren_race : exists s, race_run = Ok s /\ zk_pending (d_zk s) = [] /\
  size (default ∅ (entry (d_sd s) (str "d") (str "s"))) = 1%nat /\
  length (zk_children (d_zk s) (GetProvidersPath (str "d") (str "s"))) = 2%nat.
Proof. eexists. split; [vm_compute; reflexivity|]. split_and!; vm_compute; reflexivity. Qed.
