(* ===== verification/ServiceBalance.v ===== *)
(** * Balancing over discovered services ([streams/load_balance.cc], [SDLoadBalance])

    The service balancer is the callback of the service discovery: every change of a
    service that the discovery reports becomes a change of the items of its balancer.
    The two are put together here: [LoadBalance] and [ServiceDiscovery]. *)

From S2P Require Import Prelude Text ServiceDiscovery LoadBalance.
From Stdlib Require Import ZArith Lia List String.
From stdpp Require Import base tactics list numbers option gmap relations.

Open Scope Z_scope.
Open Scope list_scope.

(** ** Configuration *)

(** @src streams/load_balance.cc:475-480 SDLoadBalance::initConf *)
Definition conf_type (v : bytes) : lb_type :=
  if bool_decide (v = str "round_robin") then ROUNDROBIN else if bool_decide (v = str "weight") then WEIGHT else FAIR.

(** @src streams/load_balance.cc:469-489 SDLoadBalance::initConf
    [confs] by domain and service; the discovery is asked for exactly these. *)
Definition SDLoadBalance_initConf (d : SDLoadBalance) (sd : discovery) (confs : gmap bytes (gmap bytes bytes)) : SDLoadBalance * discovery :=
  let types := list_to_map (flat_map (fun i => map (fun n => ((fst i, fst n), conf_type (snd n))) (map_to_list (snd i))) (map_to_list confs)) in
  let query_infos := omap (fun i : gmap bytes bytes => if bool_decide (i = ∅) then None else Some (dom i)) confs in
  (mkSD (sd_datas d) types (m_defaultType d), IServiceDiscovery_setQueryServer sd query_infos).

(** @src streams/load_balance.cc:456-463 SDLoadBalance::start
    The callback is set before the discovery starts. *)
Definition SDLoadBalance_start (sd : discovery) (h : zk_handle) (init : bool) : discovery * (zk_handle * list zk_call) :=
  (IServiceDiscovery_setServiceCallback sd true, ZKServiceDiscovery_start h init).

(** @src streams/load_balance.cc:465-467 SDLoadBalance::stop *)
Definition SDLoadBalance_stop (h : zk_handle) : zk_handle * list zk_call := ZKServiceDiscovery_stop h.

(** What [initConf] leads to: the type of every configured service is that of its text,
    [getType] gives the default for any other, and the services asked for are the
    configured ones. *)
Lemma initConf_spec d sd confs domain service :
  let '(d', sd') := SDLoadBalance_initConf d sd confs in
  SDLoadBalance_getType d' domain service = match confs !! domain ≫= (.!! service) with Some v => conf_type v | None => m_defaultType d end /\
  (queried sd' domain service <-> is_Some (confs !! domain ≫= (.!! service)) \/ is_Some (confs !! domain ≫= (.!! str "all"))).
Proof.
  cbn. split.
  - unfold SDLoadBalance_getType. cbn [sd_types m_defaultType].
    set (l := flat_map _ (map_to_list confs)).
    assert (forall k v, (k, v) ∈ l <-> exists t, confs !! fst k ≫= (.!! snd k) = Some t /\ v = conf_type t) as Hl.
    { intros [dm sv] v. unfold l. rewrite list_elem_of_In, in_flat_map. cbn. split.
      - intros ([dm' m] & Hm%list_elem_of_In%elem_of_map_to_list & ([sv' t] & [= <- <- <-] & Ht%list_elem_of_In%elem_of_map_to_list)%in_map_iff).
        exists t. cbn in Ht |- *. by rewrite Hm.
      - intros (t & Ht & ->). destruct (confs !! dm) as [m|] eqn:Em; [|done]. cbn in Ht.
        exists (dm, m). split; [by apply list_elem_of_In, elem_of_map_to_list|]. apply in_map_iff. exists (sv, t). split; [done|]. by apply list_elem_of_In, elem_of_map_to_list. }
    assert (forall k v v', (k, v) ∈ l -> (k, v') ∈ l -> v = v') as Hfun.
    { intros k v v' (t & E & ->)%Hl (t' & E' & ->)%Hl. congruence. }
    destruct (confs !! domain ≫= (.!! service)) as [t|] eqn:E.
    + assert ((list_to_map l : gmap (bytes * bytes) lb_type) !! (domain, service) = Some (conf_type t)) as ->; [|done].
      assert ((domain, service, conf_type t) ∈ l) as Hin by (apply Hl; eauto).
      apply elem_of_list_to_map_1'; [|done]. intros y Hy. by eapply Hfun.
    + destruct ((list_to_map l : gmap (bytes * bytes) lb_type) !! (domain, service)) as [v|] eqn:E2; [|done].
      apply elem_of_list_to_map_2 in E2. apply Hl in E2 as (t & Ht & _). cbn in Ht. congruence.
  - unfold queried. cbn [IServiceDiscovery_setQueryServer m_queryInfos]. rewrite lookup_omap. destruct (confs !! domain) as [m|]; cbn.
    2: { split; [by intros (? & ? & _)|]. by intros [[]|[]]. }
    case_bool_decide as Em.
    + subst m. rewrite !lookup_empty. split; [by intros (? & ? & _)|]. by intros [[]|[]].
    + split.
      * intros (services & [= <-] & [H|H]); apply elem_of_dom in H; auto.
      * intros [H|H]; (eexists; split; [done|]); [left|right]; by apply elem_of_dom.
Qed.

(** ** One balancer *)

Definition walks (iter : gmap Z LoadBalanceItem -> list (Z * LoadBalanceItem)) : Prop := forall d, iter d ≡ₚ map_to_list d.

Lemma walks_map_to_list : walks map_to_list.
Proof. by intros d. Qed.

(** Items are kept under their ids, and the vector is made of them. *)
Record lb_ok (b : LoadBalance) : Prop := {
  lb_ids id h : lb_datas b !! id = Some h -> it_id h = id;
  lb_vec h : h ∈ m_items b -> exists id, lb_datas b !! id = Some h
}.

Section balancer.
Context (iter : gmap Z LoadBalanceItem -> list (Z * LoadBalanceItem)) (connected : Z -> bool) (fair_product : LoadBalanceItem -> Z).

(** The usable items have streams, so their weights are defined. *)
Lemma prefix_sums_ok l : Forall (fun h => LoadBalanceItem_isValid connected h = true) l -> forall total, exists ws, prefix_sums connected fair_product total l = Ok ws.
Proof.
  induction 1 as [|h l Hh _ IH]; intros total; cbn [prefix_sums]; [by eexists|].
  assert (exists w, item_weight connected fair_product h = Ok w) as (w & ->).
  { unfold item_weight, FairLoadBalanceItem_getWeight. unfold LoadBalanceItem_isValid in Hh. destruct (it_fair h); [|eauto].
    destruct (it_stream h); [|done]. cbn [deref]. eauto. }
  cbn [obind]. destruct (IH (total + w)) as (ws & ->). cbn [obind]. eauto.
Qed.

(** A rebuild succeeds and keeps the items. *)
Lemma initNolock_ok b : walks iter -> (forall id h, lb_datas b !! id = Some h -> it_id h = id) ->
  exists b', initNolock iter connected fair_product b = Ok b' /\ lb_datas b' = lb_datas b /\ lb_ok b'.
Proof.
  intros Hi Hids. assert (lb_ok (mkLB (lb_weighted b) (lb_datas b) (m_lastInitTime b) (valid_items iter connected (lb_datas b)) [])) as [H1 H2].
  { split; cbn; [done|]. intros h Hh%list_elem_of_In. apply (valid_items_in iter connected Hi) in Hh as [_ Hh]. done. }
  unfold initNolock. destruct (lb_weighted b); [|by eexists].
  unfold WeightLoadBalance_initNolock. destruct (prefix_sums_ok (valid_items iter connected (lb_datas b))) with (total := 0) as (ws & ->).
  { apply List.Forall_forall. intros h Hh. by apply (valid_items_in iter connected Hi) in Hh as [? _]. }
  cbn [obind]. eexists. split_and!; done.
Qed.

Lemma checkInit_ok b ts : walks iter -> lb_ok b -> exists b', LoadBalance_checkInit iter connected fair_product b ts = Ok b' /\ lb_datas b' = lb_datas b /\ lb_ok b'.
Proof.
  intros Hi Hb. unfold LoadBalance_checkInit, LoadBalance_init. destruct (500 <? _); [|by exists b].
  destruct (initNolock_ok b Hi (lb_ids _ Hb)) as (b' & -> & E & [H1 H2]). cbn [obind]. eexists. split_and!; [done|done|]. split; done.
Qed.

(** Picking changes no items, and what is picked is one of them. *)
Lemma lb_get_ok b v ts rnd r b' : walks iter -> lb_ok b -> lb_get iter connected fair_product b v ts rnd = Ok (r, b') ->
  lb_datas b' = lb_datas b /\ lb_ok b' /\ forall h, r = Some h -> lb_datas b !! it_id h = Some h /\ LoadBalanceItem_isValid connected h = true.
Proof.
  intros Hi Hb. unfold lb_get, WeightLoadBalance_get, RoundRobinLoadBalance_get.
  destruct (checkInit_ok b ts Hi Hb) as (b1 & -> & E & H1). cbn [obind].
  assert (forall i h, scan connected (m_items b1) i = Some h -> lb_datas b !! it_id h = Some h /\ LoadBalanceItem_isValid connected h = true) as Hscan.
  { intros i h Hh. pose proof (scan_spec connected (m_items b1) i) as Hs. rewrite Hh in Hs. destruct Hs as [Hin%list_elem_of_In Hv]. split; [|done].
    apply (lb_vec _ H1) in Hin as (id & Hid). by rewrite (lb_ids _ H1 _ _ Hid), <- E. }
  destruct (lb_weighted b).
  - destruct (WeightLoadBalance_getIdx b1 v rnd) as [idx| | | |]; cbn [obind]; try done. destruct (idx =? -1); intros [= <- <-]; split_and!; try done.
    intros h Hh. by eapply Hscan.
  - destruct (m_items b1) eqn:Em; intros [= <- <-]; split_and!; try done. intros h Hh. by eapply Hscan.
Qed.

(** The items after an update, and those that come back to be closed. *)
Lemma update_ok b adds dels : walks iter -> lb_ok b -> (forall id h, adds !! id = Some h -> it_id h = id) ->
  exists dels' b', LoadBalance_update iter connected fair_product b adds dels = Ok (dels', b') /\ lb_ok b' /\
    (forall id, lb_datas b' !! id = match adds !! id with Some h => Some h | None => if dels !! id then None else lb_datas b !! id end) /\
    (forall id, dels' !! id = (fun v => match lb_datas b !! id with Some h => Some h | None => v end) <$> dels !! id).
Proof.
  intros Hi Hb Ha. unfold LoadBalance_update. set (datas := adds ∪ _).
  assert (forall id, datas !! id = match adds !! id with Some h => Some h | None => if dels !! id then None else lb_datas b !! id end) as Hd.
  { intros id. unfold datas. destruct (adds !! id) as [h|] eqn:E; [by rewrite (lookup_union_Some_l _ _ _ _ E)|]. rewrite lookup_union_r by done.
    rewrite map_lookup_filter. destruct (lb_datas b !! id) as [h|]; cbn; [|by destruct (dels !! id)]. destruct (dels !! id) as [o|] eqn:Eo; cbn.
    - rewrite option_guard_False; [done|]. congruence.
    - by rewrite option_guard_True. }
  destruct (initNolock_ok (LoadBalance.set_datas b datas) Hi) as (b' & -> & E & H1).
  { cbn. intros id h. rewrite Hd. destruct (adds !! id) eqn:Ea; [intros [= <-]; by apply Ha|]. destruct (dels !! id); [done|]. apply (lb_ids _ Hb). }
  cbn [obind]. eexists _, b'. split; [done|]. split; [done|]. split; [intros id; rewrite E; apply Hd|].
  intros id. rewrite map_lookup_imap. by destruct (dels !! id).
Qed.
End balancer.

(** ** The balancers of the services *)

Section services.
(** Which ways of opening streams the run may use. *)
Context (opens : (ServiceItemInfo -> option Z) -> Prop).

(** The items of a service. *)
Definition items_of (d : SDLoadBalance) (domain service : bytes) : gmap Z LoadBalanceItem := from_option lb_datas ∅ (sd_datas d !! (domain, service)).

Definition lbs_ok (d : SDLoadBalance) : Prop := forall k b, sd_datas d !! k = Some b -> lb_ok b.

Lemma get_items d domain service auto : lbs_ok d ->
  lbs_ok (snd (SDLoadBalance_get d domain service auto)) /\
  (forall dm sv, items_of (snd (SDLoadBalance_get d domain service auto)) dm sv = items_of d dm sv) /\
  (auto = true -> exists lb, fst (SDLoadBalance_get d domain service auto) = Some lb /\ lb_ok lb /\ lb_datas lb = items_of d domain service /\
     sd_datas (snd (SDLoadBalance_get d domain service auto)) !! (domain, service) = Some lb).
Proof.
  intros Hd. unfold SDLoadBalance_get. destruct (sd_datas d !! (domain, service)) as [lb|] eqn:E.
  { split_and!; [done|done|]. intros _. exists lb. split_and!; [done|by eapply Hd| |done]. unfold items_of. by rewrite E. }
  destruct auto; cbn [negb]; [|done]. set (lb := SDLoadBalance_createLoadBalance _).
  assert (lb_ok lb) as Hlb by (unfold lb; destruct (SDLoadBalance_getType d domain service); split; cbn; try done; by intros h ?%not_elem_of_nil).
  assert (lb_datas lb = ∅) as Hempty by (unfold lb; by destruct (SDLoadBalance_getType d domain service)).
  cbn [fst snd]. split_and!.
  - intros k b. cbn [sd_datas]. intros [[<- <-]|[_ Hb]]%lookup_insert_Some; [done|by eapply Hd].
  - intros dm sv. unfold items_of. cbn [sd_datas]. destruct (decide ((domain, service) = (dm, sv))) as [[= <- <-]|Hn].
    + rewrite lookup_insert_eq, E. done.
    + by rewrite lookup_insert_ne.
  - intros _. exists lb. split_and!; [done|done| |apply lookup_insert_eq]. unfold items_of. by rewrite E.
Qed.

(** A change of a service: its items that are gone are removed and closed, those that are
    new are opened, the others stay; no other service changes. *)
Lemma onServiceChange_ok iter connected fair_product (open_stream : ServiceItemInfo -> option Z) d domain service old new : walks iter -> lbs_ok d ->
  exists closed d', SDLoadBalance_onServiceChange iter connected fair_product open_stream d domain service old new = Ok (closed, d') /\ lbs_ok d' /\
    (forall dm sv, (dm, sv) <> (domain, service) -> items_of d' dm sv = items_of d dm sv) /\
    (forall id, is_Some (items_of d' domain service !! id) <->
       (exists x, new !! id = Some x /\ old !! id = None /\ is_Some (open_stream x)) \/
       (is_Some (items_of d domain service !! id) /\ (old !! id = None \/ is_Some (new !! id)))) /\
    (forall h, h ∈ closed <-> exists id, items_of d domain service !! id = Some h /\ is_Some (old !! id) /\ new !! id = None).
Proof.
  intros Hi Hd. unfold SDLoadBalance_onServiceChange. pose proof (get_items d domain service true Hd) as (G1 & G2 & G3).
  destruct (SDLoadBalance_get d domain service true) as [o d1]. cbn [fst snd] in *. destruct (G3 eq_refl) as (lb & -> & Hlb & Elb & Hin). cbn [deref].
  set (dels := _ <$> filter _ old). set (adds := map_imap _ (filter _ new)).
  assert (forall id, dels !! id = match old !! id with Some _ => if new !! id then None else Some None | None => None end) as Hdels.
  { intros id. unfold dels. rewrite lookup_fmap, map_lookup_filter. destruct (old !! id) as [x|]; cbn; [|done].
    destruct (new !! id) as [y|] eqn:En; [rewrite option_guard_False by congruence; done|by rewrite option_guard_True]. }
  assert (forall id, adds !! id = match new !! id with
    | Some x => if old !! id then None else (fun st => mkItem id (Some st) 10000 (it_fair (SDLoadBalance_createLoadBalanceItem (SDLoadBalance_getType d domain service)))) <$> open_stream x
    | None => None end) as Hadds.
  { intros id. unfold adds. rewrite map_lookup_imap, map_lookup_filter. destruct (new !! id) as [x|]; cbn; [|done].
    destruct (old !! id) as [y|] eqn:Eo; [rewrite option_guard_False by congruence; done|]. rewrite option_guard_True by done. cbn. by destruct (open_stream x). }
  destruct (update_ok iter connected fair_product lb adds dels Hi Hlb) as (dels' & lb' & E & Hlb' & Hd' & Hdel').
  { intros id h. rewrite Hadds. destruct (new !! id) as [x|]; [|done]. destruct (old !! id); [done|]. by destruct (open_stream x); cbn; intros [= <-]. }
  fold adds dels. rewrite E. cbn [obind]. eexists _, _. split; [reflexivity|]. split_and!.
  - intros k b. cbn [sd_datas]. intros [[<- <-]|[_ Hb]]%lookup_insert_Some; [done|by eapply G1].
  - intros dm sv Hn. unfold items_of. cbn [sd_datas]. rewrite lookup_insert_ne by congruence. apply G2.
  - intros id. unfold items_of at 1. cbn [sd_datas]. rewrite lookup_insert_eq. cbn [from_option]. rewrite Hd', Hadds, Hdels, <- Elb.
    destruct (new !! id) as [x|] eqn:En, (old !! id) as [y|] eqn:Eo; cbn.
    + split; [intros H; right; split; [done|right; by eexists]|]. intros [(z & _ & [=] & _)|[H _]]. done.
    + destruct (open_stream x) as [st|] eqn:Es; cbn.
      * split; [intros _; left; exists x; by rewrite Es|by intros _; eexists].
      * split; [intros H; right; auto|]. intros [(z & [= <-] & _ & H)|[H _]]; [rewrite Es in H; by destruct H|done].
    + split; [by intros []|]. intros [(z & [=] & _)|[_ [[=]|[z [=]]]]].
    + split; [intros H; right; auto|]. intros [(z & [=] & _)|[H _]]. done.
  - intros h. rewrite list_elem_of_omap. split.
    + intros ([id o] & Hid%elem_of_map_to_list & Ho). cbn in Ho. subst o. rewrite Hdel', Hdels, Elb in Hid. exists id.
      destruct (old !! id) as [y|]; [|done]. destruct (new !! id); [done|]. cbn in Hid. split_and!; [|by eexists|done].
      destruct (items_of d domain service !! id); by simplify_eq.
    + intros (id & Hid & [y Hy] & Hn). exists (id, Some h). split; [|done]. apply elem_of_map_to_list. rewrite Hdel', Hdels, Hy, Hn, Elb, Hid. done.
Qed.

(** ** The two components together *)

(** The calls of the callback, one after the other, between other uses of the balancers.
    Whether a stream can be opened may be different every time. *)
Inductive balanced : list cb_call -> SDLoadBalance -> Prop :=
| bal_start d : sd_datas d = ∅ -> balanced [] d
| bal_change calls d c iter connected fair_product open_stream closed d' : balanced calls d -> walks iter -> opens open_stream ->
    SDLoadBalance_onServiceChange iter connected fair_product open_stream d (cb_domain c) (cb_service c) (cb_old c) (cb_new c) = Ok (closed, d') ->
    balanced (calls ++ [c]) d'
| bal_get calls d domain service auto : balanced calls d -> balanced calls (snd (SDLoadBalance_get d domain service auto))
| bal_pick calls d k lb iter connected fair_product v ts rnd r lb' : balanced calls d -> walks iter -> sd_datas d !! k = Some lb ->
    lb_get iter connected fair_product lb v ts rnd = Ok (r, lb') ->
    balanced calls (mkSD (<[k := lb']> (sd_datas d)) (sd_types d) (m_defaultType d))
| bal_conf calls d types : balanced calls d -> balanced calls (mkSD (sd_datas d) types (m_defaultType d)).

(** The calls are a chain: the old servers of each are the new ones of the last. *)
Definition chained (calls : list cb_call) : Prop :=
  forall pre c post, calls = pre ++ c :: post -> cb_old c = default ∅ (told pre (cb_domain c) (cb_service c)).

Lemma chained_snoc calls c : chained (calls ++ [c]) -> chained calls /\ cb_old c = default ∅ (told calls (cb_domain c) (cb_service c)).
Proof.
  intros H. split; [|by apply (H calls c [])]. intros pre c' post ->. apply (H pre c' (post ++ [c])). by rewrite <- app_assoc.
Qed.

(** The items of every service are servers the callback was told last, and all of them if
    every stream could be opened. *)
Lemma balanced_inv calls d : balanced calls d -> chained calls ->
  lbs_ok d /\
  (forall domain service id, is_Some (items_of d domain service !! id) -> is_Some (default ∅ (told calls domain service) !! id)) /\
  ((forall o, opens o -> forall x, is_Some (o x)) ->
   forall domain service id, is_Some (default ∅ (told calls domain service) !! id) -> is_Some (items_of d domain service !! id)).
Proof.
  intros Hb. induction Hb as [d E|calls d c iter connected fair_product open_stream closed d' _ IH Hi Ho E|calls d domain service auto _ IH|calls d k lb iter connected fair_product v ts rnd r lb' _ IH Hi Ek E|calls d types _ IH]; intros Hc.
  - split; [intros k b; by rewrite E, lookup_empty|]. unfold items_of. split; [|intros _]; intros domain service id; rewrite E, lookup_empty; cbn; by rewrite !lookup_empty.
  - apply chained_snoc in Hc as [Hc Hold]. destruct (IH Hc) as (I1 & I2 & I3).
    destruct (onServiceChange_ok iter connected fair_product open_stream d (cb_domain c) (cb_service c) (cb_old c) (cb_new c) Hi I1) as (cl & d2 & E2 & O1 & O2 & O3 & _).
    rewrite E2 in E. simplify_eq. split; [done|]. split; [|intros Hopen]; intros domain service id; rewrite told_app; case_decide as Hd.
    + destruct Hd as [<- <-]. rewrite O3. cbn. intros [(x & Hx & _)|[Hy%I2 [Hn|?]]]; [by eexists| |done]. rewrite <- Hold, Hn in Hy. by destruct Hy.
    + rewrite O2; [apply I2|]. intros [= -> ->]. by destruct Hd.
    + destruct Hd as [<- <-]. rewrite O3. cbn. intros [x Hx]. destruct (cb_old c !! id) as [y|] eqn:Ey; [right|left; exists x; split_and!; [done|done|by eapply Hopen]].
      split; [|right; by eexists]. apply (I3 Hopen). rewrite <- Hold, Ey. by eexists.
    + rewrite O2; [by apply I3|]. intros [= -> ->]. by destruct Hd.
  - destruct (IH Hc) as (I1 & I2 & I3). destruct (get_items d domain service auto I1) as (G1 & G2 & _). split; [done|].
    split; [|intros Hopen]; intros dm sv id; rewrite G2; [apply I2|by apply I3].
  - destruct (IH Hc) as (I1 & I2 & I3). destruct (lb_get_ok iter connected fair_product lb v ts rnd r lb' Hi (I1 _ _ Ek) E) as (L1 & L2 & _).
    assert (forall dm sv id, items_of (mkSD (<[k := lb']> (sd_datas d)) (sd_types d) (m_defaultType d)) dm sv !! id = items_of d dm sv !! id) as Hsame.
    { intros dm sv id. unfold items_of. cbn [sd_datas]. destruct (decide (k = (dm, sv))) as [->|Hn]; [|by rewrite lookup_insert_ne].
      rewrite lookup_insert_eq, Ek. cbn. by rewrite L1. }
    split; [|split; [|intros Hopen]; intros dm sv id; rewrite Hsame; [apply I2|by apply I3]].
    intros k' b. cbn [sd_datas]. intros [[<- <-]|[_ Hb]]%lookup_insert_Some; [done|by eapply I1].
  - by apply IH.
Qed.

End services.

(** A server in the table is named by a child. *)
Lemma infos_of_child inet_addr vals id x : infos_of inet_addr vals !! id = Some x ->
  exists name, name ∈ vals /\ ServiceItemInfo_Create inet_addr name [] = Some x /\ si_id x = id.
Proof.
  unfold infos_of. set (f := fun (m : infos) i => match ServiceItemInfo_Create inet_addr i [] with Some info => <[si_id info := info]> m | None => m end).
  assert (forall m : infos, fold_left f vals m !! id = Some x -> m !! id = Some x \/
    exists name, name ∈ vals /\ ServiceItemInfo_Create inet_addr name [] = Some x /\ si_id x = id) as H.
  { induction vals as [|v vals IH]; intros m; cbn [fold_left]; [auto|]. intros [E|(n & Hn & Hx)]%IH; [|right; exists n; split; [by right|done]].
    unfold f in E. destruct (ServiceItemInfo_Create inet_addr v []) as [info|] eqn:Ev; [|by left].
    apply lookup_insert_Some in E as [[<- ->]|[_ E]]; [right; exists v; split; [by left|done]|by left]. }
  intros [E|?]%H; [by rewrite lookup_empty in E|done].
Qed.

(** C19: the balancer follows the service registry.  Let the balancer be the callback of
    the discovery, in any run of both, the runs of the discovery being those of one
    session with one handler at a time.  The items of every service are servers of the
    discovery's table, and all of them if every stream could be opened
    ([failed_stream_not_retried]: a server whose stream could not is left out).  When no
    notification is on its way, every item that [get] picks for a service whose node was
    not lost in the run (deleted, or notified while not connected), by turns or by weight,
    is connected and is a server that is registered in ZooKeeper now. *)
Theorem balancer_follows_registry {Zk} `{ZkSpec Zk} inet_addr opens fuel cb (z : Zk) lost s lbs :
  disc_run inet_addr fuel (disc_start cb z) lost s -> balanced opens (d_calls s) lbs ->
  (forall domain service id, is_Some (items_of lbs domain service !! id) -> is_Some (default ∅ (entry (d_sd s) domain service) !! id)) /\
  ((forall o, opens o -> forall x, is_Some (o x)) ->
   forall domain service id, is_Some (default ∅ (entry (d_sd s) domain service) !! id) -> is_Some (items_of lbs domain service !! id)) /\
  (zk_pending (d_zk s) = [] -> forall domain service lb iter connected fair_product v ts rnd h lb', walks iter ->
     GetProvidersPath domain service ∉ lost ->
     sd_datas lbs !! (domain, service) = Some lb -> lb_get iter connected fair_product lb v ts rnd = Ok (Some h, lb') ->
     LoadBalanceItem_isValid connected h = true /\
     exists name x, name ∈ zk_children (d_zk s) (GetProvidersPath domain service) /\ ServiceItemInfo_Create inet_addr name [] = Some x /\ si_id x = it_id h).
Proof.
  intros Hr Hb. pose proof (disc_reach_inv _ _ _ _ _ _ Hr) as Hinv.
  destruct (balanced_inv opens (d_calls s) lbs Hb (inv_chain _ _ _ _ Hinv)) as (Hok & Hi & Hall).
  assert (forall domain service id, is_Some (items_of lbs domain service !! id) -> is_Some (default ∅ (entry (d_sd s) domain service) !! id)) as Hi'
    by (intros domain service id; rewrite <- (inv_told _ _ _ _ Hinv); apply Hi).
  split; [done|]. split.
  { intros Hopen domain service id. rewrite <- (inv_told _ _ _ _ Hinv). by apply Hall. }
  intros Hp domain service lb iter connected fair_product v ts rnd h lb' Hw Hlost Elb Eg.
  destruct (lb_get_ok iter connected fair_product lb v ts rnd (Some h) lb' Hw (Hok _ _ Elb) Eg) as (_ & _ & Hh). destruct (Hh h eq_refl) as [Hid Hv]. split; [done|].
  assert (is_Some (items_of lbs domain service !! it_id h)) as Hs by (unfold items_of; rewrite Elb; by eexists).
  apply Hi' in Hs as [x Hx]. destruct (entry (d_sd s) domain service) as [tab|] eqn:Et; cbn in Hx; [|by rewrite lookup_empty in Hx].
  destruct (inv_current _ _ _ _ Hinv _ _ _ Et Hlost ltac:(by intros [])) as [[-> _]|Hq]; [|rewrite Hp in Hq; by apply not_elem_of_nil in Hq].
  apply infos_of_child in Hx as (name & Hn & Hc & Hidx). eauto.
Qed.

(** ** A run *)

Definition some_open (x : ServiceItemInfo) : option Z := Some (si_id x).
Definition always_opens (o : ServiceItemInfo -> option Z) : Prop := forall x, is_Some (o x).
Definition after_change (d : SDLoadBalance) (c : cb_call) : SDLoadBalance :=
  match SDLoadBalance_onServiceChange map_to_list (fun _ => true) (fun _ => 0) some_open d (cb_domain c) (cb_service c) (cb_old c) (cb_new c) with
  | Ok (_, d) => d
  | _ => d
  end.
Definition run_balanced : SDLoadBalance := fold_left after_change (d_calls run_told) (mkSD ∅ ∅ ROUNDROBIN).
Definition run_lb : LoadBalance := default (mkLB false ∅ 0 [] []) (sd_datas run_balanced !! (str "d", str "s")).

Lemma after_change_ok calls d c : lbs_ok d -> balanced always_opens calls d -> balanced always_opens (calls ++ [c]) (after_change d c) /\ lbs_ok (after_change d c).
Proof.
  intros Hd Hb. destruct (onServiceChange_ok map_to_list (fun _ => true) (fun _ => 0) some_open d (cb_domain c) (cb_service c) (cb_old c) (cb_new c)) as (cl & d' & E & O1 & _); [apply walks_map_to_list|done|].
  unfold after_change. rewrite E. split; [|done]. eapply bal_change; [exact Hb|apply walks_map_to_list| |exact E]. intros x. by eexists.
Qed.

Lemma run_balanced_ok : balanced always_opens (d_calls run_told) run_balanced.
Proof.
  unfold run_balanced. assert (forall calls pre d, lbs_ok d -> balanced always_opens pre d -> balanced always_opens (pre ++ calls) (fold_left after_change calls d)) as H.
  { induction calls as [|c calls IH]; intros pre d Hd Hb; cbn [fold_left]; [by rewrite app_nil_r|].
    destruct (after_change_ok pre d c Hd Hb) as [Hb' Hd']. rewrite (cons_middle c pre calls), app_assoc. by apply IH. }
  apply (H (d_calls run_told) []); [intros k b; cbn; by rewrite lookup_empty|by apply bal_start].
Qed.

(** A run: the second server, which joined last, is picked. *)
Lemma balancer_follows_registry_witness :
  exists h lb', lb_get map_to_list (fun _ => true) (fun _ => 0) run_lb 0 1000 0 = Ok (Some h, lb') /\ it_id h = 33554442 * 2 ^ 32 + 80 /\
  exists name x, name ∈ zk_children (d_zk run_told) (GetProvidersPath (str "d") (str "s")) /\
    ServiceItemInfo_Create some_inet_addr name [] = Some x /\ si_id x = it_id h.
Proof.
  eexists _, _. split; [vm_compute; reflexivity|]. split; [reflexivity|].
  refine (proj2 (proj2 (proj2 (balancer_follows_registry some_inet_addr always_opens 2 true (mkWorld [] [] [] true) [] run_told run_balanced run_told_reachable run_balanced_ok)) _
    (str "d") (str "s") run_lb map_to_list (fun _ => true) (fun _ => 0) 0 1000 0 _ _ _ _ _ _)).
  - vm_compute. reflexivity.
  - apply walks_map_to_list.
  - apply not_elem_of_nil.
  - vm_compute. reflexivity.
  - vm_compute. reflexivity.
Defined.

(** ** Where it falls short *)

(** A server whose stream could not be opened is not tried again: the next change of its
    service finds it among the old servers. *)
Lemma failed_stream_not_retried iter connected fair_product open_stream d domain service (old new : infos) id x : walks iter -> lbs_ok d ->
  items_of d domain service !! id = None -> old !! id = Some x ->
  exists closed d', SDLoadBalance_onServiceChange iter connected fair_product open_stream d domain service old new = Ok (closed, d') /\
    items_of d' domain service !! id = None.
Proof.
  intros Hi Hd Hid Hold. destruct (onServiceChange_ok iter connected fair_product open_stream d domain service old new Hi Hd) as (cl & d' & E & _ & _ & O3 & _).
  exists cl, d'. split; [done|]. destruct (items_of d' domain service !! id) eqn:E2; [|done]. destruct (proj1 (O3 id) ltac:(by eexists)) as [(y & _ & ? & _)|[[y Hy] _]]; congruence.
Qed.

(** Two threads ask for a service that has no balancer: both make one, and the second
    replaces the first, to which the first thread has already added. *)
Lemma get_race d domain service lb : sd_datas d !! (domain, service) = None ->
  let d1 := snd (SDLoadBalance_get d domain service true) in
  let d2 := mkSD (<[(domain, service) := lb]> (sd_datas d1)) (sd_types d) (m_defaultType d) in
  let second := SDLoadBalance_createLoadBalance (SDLoadBalance_getType d domain service) in
  items_of (mkSD (<[(domain, service) := second]> (sd_datas d2)) (sd_types d) (m_defaultType d)) domain service = ∅.
Proof.
  intros E. cbn zeta. unfold items_of. cbn [sd_datas]. rewrite lookup_insert_eq. cbn. by destruct (SDLoadBalance_getType d domain service).
Qed.
