(* ===== verification/ModuleManager.v ===== *)
(** * Modules ([module.h], [module.cc], [library.cc])

    Modules are objects that shared libraries make; the manager keeps them by id and by
    type.  An object is owned by shared pointers: those of the two tables and those that
    functions hold ([held]); when the last one goes, the library destroys the object and
    is closed.  The answers of [dlopen], [dlsym] and of the library's [CreateModule] are
    inputs, the calls of modules and of the loader are recorded. *)

From S2P Require Import Prelude Endian Text HashUtil UtilAlgo Address ServiceDiscovery Env FileUtil.
From Stdlib Require Import ZArith Lia List String.
From stdpp Require Import base tactics list numbers option gmap sorting relations.

Open Scope Z_scope.
Open Scope list_scope.

(** ** Modules *)

(** @src module.h:25-28 Module::Type *)
Definition MODULE : Z := 0.
Definition ROCK : Z := 1.

(** @src module.h:65-69 Module *)
Record Module_ := mkModule { mod_name : bytes; mod_version : bytes; mod_filename : bytes; mod_id : bytes; mod_type : Z }.

(** @src module.cc:16-25 Module::Module *)
Definition Module_new (name version filename : bytes) (type : Z) : Module_ :=
  mkModule name version filename (name ++ str "/" ++ version) type.

(** @src module.cc:113-117 RockModule::RockModule *)
Definition RockModule_new (name version filename : bytes) : Module_ := Module_new name version filename ROCK.

(** @src module.h:57-57 Module::setFilename *)
Definition Module_setFilename (m : Module_) (v : bytes) : Module_ := mkModule (mod_name m) (mod_version m) v (mod_id m) (mod_type m).

(** @src module.cc:104-111 Module::statusString *)
Definition Module_statusString (m : Module_) : bytes :=
  str "Module name=" ++ mod_name m ++ str " version=" ++ mod_version m ++ str " filename=" ++ mod_filename m ++ [10].

(** ** Objects and their owners *)

(** A module that a library made, with the handle of the library. *)
Record loaded := mkLoaded { l_mod : Module_; l_handle : nat }.

Inductive mcall :=
| OnUnload (a : nat) | OnConnect (a : nat) | OnDisconnect (a : nat) | Callback (a : nat)
| Destory (a : nat) | Dlclose (h : nat) | LoadFromConfDir.

(** @src module.h:114-117 ModuleManager
    with the objects there are, the shared pointers outside the tables, the libraries
    that are open and the calls made. *)
Record mstate := mkM {
  m_modules : gmap bytes nat;
  m_type2Modules : gmap Z (gmap bytes nat);
  objs : gmap nat loaded;
  next : nat;
  held : list nat;
  opened : list nat;
  calls : list mcall
}.

Definition mstate_new : mstate := mkM ∅ ∅ ∅ 0 [] [] [].

Implicit Types s : mstate.

Definition set_tables s m t := mkM m t (objs s) (next s) (held s) (opened s) (calls s).
Definition set_held s h := mkM (m_modules s) (m_type2Modules s) (objs s) (next s) h (opened s) (calls s).
Definition record s c := mkM (m_modules s) (m_type2Modules s) (objs s) (next s) (held s) (opened s) (calls s ++ c).

(** All the places with a shared pointer to an object. *)
Definition owners s : list nat :=
  held s ++ map snd (map_to_list (m_modules s)) ++ flat_map (fun x => map snd (map_to_list (snd x))) (map_to_list (m_type2Modules s)).

(** One element less. *)
Fixpoint remove1 (x : nat) (l : list nat) : list nat :=
  match l with [] => [] | y :: l => if decide (x = y) then l else y :: remove1 x l end.

(** @src library.cc:20-35 ModuleCloser::operator() *)
Definition ModuleCloser_run s (a : nat) : outcome mstate :=
  deref (objs s !! a) (fun o =>
  Ok (mkM (m_modules s) (m_type2Modules s) (delete a (objs s)) (next s) (held s) (remove1 (l_handle o) (opened s))
    (calls s ++ [Destory a; Dlclose (l_handle o)]))).

(** A shared pointer to [a] has gone. *)
Definition collect s (a : nat) : outcome mstate := if bool_decide (a ∈ owners s) then Ok s else ModuleCloser_run s a.
Definition collect_opt s (a : option nat) : outcome mstate := match a with Some a => collect s a | None => Ok s end.
Definition release s (a : nat) : outcome mstate := collect (set_held s (remove1 a (held s))) a.

(** A virtual function of a module. *)
Definition call_module s (c : nat -> mcall) (a : nat) : outcome mstate := deref (objs s !! a) (fun _ => Ok (record s [c a])).

(** ** The manager *)

(** @src module.cc:138-142 ModuleManager::get *)
Definition ModuleManager_get s (name : bytes) : option nat * mstate :=
  match m_modules s !! name with None => (None, s) | Some a => (Some a, set_held s (a :: held s)) end.

(** The inner table of a type. *)
Definition of_type s (t : Z) : gmap bytes nat := default ∅ (m_type2Modules s !! t).

(** @src module.cc:152-167 ModuleManager::del *)
Definition ModuleManager_del s (name : bytes) : outcome mstate :=
  match m_modules s !! name with
  | None => Ok s
  | Some a =>
    deref (objs s !! a) (fun o =>
    let t := mod_type (l_mod o) in
    let id := mod_id (l_mod o) in
    let inner := delete id (of_type s t) in
    let types := if bool_decide (inner = ∅) then delete t (m_type2Modules s) else <[t := inner]> (m_type2Modules s) in
    let old := of_type s t !! id in
    let s := set_held (set_tables s (delete name (m_modules s)) types) (a :: held s) in
    let! s := collect_opt s old in
    let! s := call_module s OnUnload a in
    release s a)
  end.

(** @src module.cc:147-149 ModuleManager::add
    The part under the lock. *)
Definition add_insert s (a : nat) : outcome mstate :=
  deref (objs s !! a) (fun o =>
  let id := mod_id (l_mod o) in
  let t := mod_type (l_mod o) in
  let old := m_modules s !! id in
  let! s := collect_opt (set_tables s (<[id := a]> (m_modules s)) (m_type2Modules s)) old in
  let old := of_type s t !! id in
  collect_opt (set_tables s (m_modules s) (<[t := <[id := a]> (of_type s t)]> (m_type2Modules s))) old).

(** @src module.cc:145-150 ModuleManager::add
    The caller holds [a]. *)
Definition ModuleManager_add s (a : nat) : outcome mstate :=
  deref (objs s !! a) (fun o =>
  let! s := ModuleManager_del s (mod_id (l_mod o)) in
  add_insert s a).

Fixpoint del_all (names : list bytes) s : outcome mstate :=
  match names with [] => Ok s | n :: names => let! s := ModuleManager_del s n in del_all names s end.

Fixpoint release_all (l : list nat) s : outcome mstate :=
  match l with [] => Ok s | a :: l => let! s := release s a in release_all l s end.

(** @src module.cc:169-177 ModuleManager::delAll
    The copy of the table holds the modules as well. *)
Definition ModuleManager_delAll s : outcome mstate :=
  let tmp := map_to_list (m_modules s) in
  let! s := del_all (map fst tmp) (set_held s (map snd tmp ++ held s)) in
  release_all (map snd tmp) s.

(** @src module.cc:228-233 ModuleManager::listAll
    The pointers pushed to the vector. *)
Definition ModuleManager_listAll s : list nat * mstate :=
  let ms := map snd (map_to_list (m_modules s)) in (ms, set_held s (ms ++ held s)).

(** @src module.cc:191-200 ModuleManager::listByType *)
Definition ModuleManager_listByType s (type : Z) : list nat * mstate :=
  match m_type2Modules s !! type with
  | None => ([], s)
  | Some inner => let ms := map snd (map_to_list inner) in (ms, set_held s (ms ++ held s))
  end.

Fixpoint call_all (c : nat -> mcall) (l : list nat) s : outcome mstate :=
  match l with [] => Ok s | a :: l => let! s := call_module s c a in call_all c l s end.

(** The functions that visit the modules of a list of their own. *)
Definition visit (c : nat -> mcall) (l : list nat) s : outcome mstate :=
  let! s := call_all c l s in release_all l s.

(** @src module.cc:202-208 ModuleManager::foreach *)
Definition ModuleManager_foreach s (type : Z) : outcome mstate := let '(ms, s) := ModuleManager_listByType s type in visit Callback ms s.

(** @src module.cc:210-217 ModuleManager::onConnect *)
Definition ModuleManager_onConnect s : outcome mstate := let '(ms, s) := ModuleManager_listAll s in visit OnConnect ms s.

(** @src module.cc:219-226 ModuleManager::onDisconnect *)
Definition ModuleManager_onDisconnect s : outcome mstate := let '(ms, s) := ModuleManager_listAll s in visit OnDisconnect ms s.

(** ** Loading *)

(** What the loader answers for a path: the handle, what [CreateModule] returns if there
    is one, and whether there is a [DestoryModule]. *)
Record dl_answer := mkDl { dl_handle : option nat; dl_create : option (option Module_); dl_destory : bool }.

(** @src library.cc:42-73 Library::GetModule
    The pointer returned is held by the caller. *)
Definition Library_GetModule s (path : bytes) (d : dl_answer) : outcome (option nat * mstate) :=
  match dl_handle d with
  | None => Ok (None, s)
  | Some h =>
    match dl_create d, dl_destory d with
    | None, _ | _, false => Ok (None, record s [Dlclose h])
    | Some None, true => UB
    | Some (Some m), true =>
      Ok (Some (next s), mkM (m_modules s) (m_type2Modules s) (<[next s := mkLoaded (Module_setFilename m path) h]> (objs s)) (S (next s))
        (next s :: held s) (h :: opened s) (calls s ++ [LoadFromConfDir]))
    end
  end.

(** @src module.cc:235-240 ModuleManager::initModule *)
Definition ModuleManager_initModule s (path : bytes) (d : dl_answer) : outcome mstate :=
  let! (m, s) := Library_GetModule s path d in
  match m with
  | None => Ok s
  | Some a => let! s := ModuleManager_add s a in release s a
  end.

Fixpoint init_all (dl : bytes -> dl_answer) (files : list bytes) s : outcome mstate :=
  match files with [] => Ok s | i :: files => let! s := ModuleManager_initModule s i (dl i) in init_all dl files s end.

Definition bytes_le (a b : bytes) : Prop := lex_lt b a = false.
#[export] Instance bytes_le_dec a b : Decision (bytes_le a b).
Proof. unfold bytes_le. apply _. Defined.

(** @src module.cc:179-189 ModuleManager::init
    [module_path] is the value of the variable "module.path". *)
Definition ModuleManager_init (resolves : list bytes -> bool) s (e : Env) (f : gmap (list bytes) kind) (module_path : bytes) (dl : bytes -> dl_answer) : outcome mstate :=
  let path := Env_getAbsolutePath e module_path in
  let! files := FSUtil_ListAllFile resolves f [] path (str ".so") in
  init_all dl (merge_sort bytes_le files) s.

(** ** The objects *)

Lemma owners_iff s a : a ∈ owners s <->
  a ∈ held s \/ (exists k, m_modules s !! k = Some a) \/ (exists t k, of_type s t !! k = Some a).
Proof.
  unfold owners. rewrite !elem_of_app. f_equiv. f_equiv; rewrite list_elem_of_In.
  - rewrite in_map_iff. split.
    + intros ([k b] & <- & H%list_elem_of_In%elem_of_map_to_list). by exists k.
    + intros (k & H). exists (k, a). split; [done|]. by apply list_elem_of_In, elem_of_map_to_list.
  - rewrite in_flat_map. split.
    + intros ([t m] & H%list_elem_of_In%elem_of_map_to_list & ([k b] & <- & Hk%list_elem_of_In%elem_of_map_to_list)%in_map_iff).
      exists t, k. unfold of_type. by rewrite H.
    + intros (t & k & H). unfold of_type in H. destruct (m_type2Modules s !! t) as [m|] eqn:E; cbn in H; [|by rewrite lookup_empty in H].
      exists (t, m). split; [by apply list_elem_of_In, elem_of_map_to_list|]. apply in_map_iff. exists (k, a). split; [done|].
      by apply list_elem_of_In, elem_of_map_to_list.
Qed.

(** The calls that need the object: to call one of its functions, or to destroy it. *)
Definition target (c : mcall) : option nat :=
  match c with OnUnload a | OnConnect a | OnDisconnect a | Callback a | Destory a => Some a | Dlclose _ | LoadFromConfDir => None end.

(** No object is used after it was destroyed. *)
Definition calls_ok (l : list mcall) : Prop := forall pre c post a, l = pre ++ c :: post -> target c = Some a -> Destory a ∉ pre.

Lemma calls_ok_snoc l c : calls_ok (l ++ [c]) <-> calls_ok l /\ forall a, target c = Some a -> Destory a ∉ l.
Proof.
  split.
  - intros H. split; [|by intros a; apply (H l c [])]. intros pre d post a -> Ht. apply (H pre d (post ++ [c]) a); [|done]. by rewrite <- app_assoc.
  - intros [Hl Hc] pre d post a E Ht. destruct post as [|p post _] using rev_ind.
    + apply app_inj_tail in E as [-> ->]. by apply Hc.
    + rewrite app_comm_cons, app_assoc in E. apply app_inj_tail in E as [-> _]. by eapply Hl.
Qed.

(** Every pointer leads to an object, every object (but those of [X]) has an owner, and
    its library is open; an object is destroyed once and not used afterwards. *)
Record objs_ok (X : list nat) s : Prop := {
  ok_owned a : a ∈ owners s -> is_Some (objs s !! a);
  ok_kept a : is_Some (objs s !! a) -> a ∈ X \/ a ∈ owners s;
  ok_opened : opened s ≡ₚ map (fun x => l_handle (snd x)) (map_to_list (objs s));
  ok_next a : is_Some (objs s !! a) -> (a < next s)%nat;
  ok_gone a : Destory a ∈ calls s -> (a < next s)%nat /\ objs s !! a = None;
  ok_calls : calls_ok (calls s)
}.

Lemma remove1_perm x l : x ∈ l -> l ≡ₚ x :: remove1 x l.
Proof.
  induction l as [|y l IH]; [by intros ?%not_elem_of_nil|]. cbn. case_decide as E; [by subst|]. intros [->|H]%elem_of_cons; [done|].
  rewrite (IH H) at 1. constructor.
Qed.

Lemma objs_ok_same X s s' : m_modules s' = m_modules s -> m_type2Modules s' = m_type2Modules s -> objs s' = objs s -> next s' = next s ->
  held s' = held s -> opened s' = opened s -> calls s' = calls s -> objs_ok X s -> objs_ok X s'.
Proof. destruct s, s'; cbn. by intros -> -> -> -> -> -> ->. Qed.

(** The owners are what counts of the tables. *)
Lemma objs_ok_owners X Y s s' : objs_ok X s -> objs s' = objs s -> next s' = next s -> opened s' = opened s -> calls s' = calls s ->
  (forall a, a ∈ owners s' -> is_Some (objs s !! a)) -> (forall a, is_Some (objs s !! a) -> a ∈ X \/ a ∈ owners s -> a ∈ Y \/ a ∈ owners s') -> objs_ok Y s'.
Proof.
  intros [O1 O2 O3 O4 O5 O6] E1 E2 E3 E4 H1 H2. split; rewrite ?E1, ?E2, ?E3, ?E4; try done. intros a Ha. apply H2; [done|]. by apply O2.
Qed.

Lemma call_ok X s c a : (forall b, target (c b) = Some b) -> (forall b, c a <> Destory b) -> objs_ok X s -> is_Some (objs s !! a) ->
  call_module s c a = Ok (record s [c a]) /\ objs_ok X (record s [c a]).
Proof.
  intros Ht Hn [O1 O2 O3 O4 O5 O6] [o Ho]. unfold call_module. rewrite Ho. split; [done|]. split; cbn; try done.
  - intros b [Hb|E%list_elem_of_singleton]%elem_of_app; [by apply O5|]. by destruct (Hn b).
  - apply calls_ok_snoc. split; [done|]. intros b Hb Hd. rewrite Ht in Hb. simplify_eq. apply O5 in Hd as [_ Hd]. congruence.
Qed.

Lemma collect_ok X s a : objs_ok (a :: X) s -> is_Some (objs s !! a) ->
  exists s', collect s a = Ok s' /\ objs_ok X s' /\ m_modules s' = m_modules s /\ m_type2Modules s' = m_type2Modules s /\ held s' = held s /\
    next s' = next s /\ (forall b, b ∈ owners s -> objs s' !! b = objs s !! b) /\
    exists l, calls s' = calls s ++ l /\ l = (if bool_decide (a ∈ owners s) then [] else [Destory a; Dlclose (from_option l_handle 0%nat (objs s !! a))]).
Proof.
  intros [O1 O2 O3 O4 O5 O6] [o Ho]. unfold collect. case_bool_decide as Ha.
  - exists s. split_and!; try done; [|exists []; by rewrite app_nil_r]. split; try done. intros b Hb. destruct (O2 b Hb) as [[->|]%elem_of_cons|]; auto.
  - unfold ModuleCloser_run. rewrite Ho. cbn [deref]. eexists. split; [done|]. cbn [m_modules m_type2Modules objs held calls next].
    split_and!; try done; [|intros b Hb; rewrite lookup_delete_ne; [done|by intros ->]|by eexists].
    assert (forall b, is_Some (delete a (objs s) !! b) <-> b <> a /\ is_Some (objs s !! b)) as Hd.
    { intros b. destruct (decide (a = b)) as [<-|Hn]; [rewrite lookup_delete_eq; split; [by intros []|naive_solver]|].
      rewrite lookup_delete_ne by done. naive_solver. }
    split; cbn [objs calls next opened].
    + intros b Hb. apply Hd. split; [|by apply O1]. by intros ->.
    + intros b [Hn Hb]%Hd. destruct (O2 b Hb) as [[->|]%elem_of_cons|]; [done|by left|by right].
    + rewrite <- (map_to_list_delete (objs s) a o Ho) in O3. cbn in O3.
      assert (l_handle o ∈ opened s) as Hin by (rewrite O3; by left). rewrite (remove1_perm _ _ Hin) in O3. by apply Permutation_cons_inv in O3.
    + intros b [_ Hb]%Hd. auto.
    + intros b [Hb|[Hb|[Hb|Hb%not_elem_of_nil]%elem_of_cons]%elem_of_cons]%elem_of_app; try done; simplify_eq.
      * apply O5 in Hb as [H1 H2]. split; [done|]. apply not_elem_of_dom. apply not_elem_of_dom in H2. set_solver.
      * split; [eauto|apply lookup_delete_eq].
    + change (calls_ok (calls s ++ [Destory a] ++ [Dlclose (l_handle o)])). rewrite app_assoc, !calls_ok_snoc. split_and!; [done| |done].
      cbn. intros b [= <-] Hb%O5. destruct Hb. congruence.
Qed.

(** One pointer less outside the tables. *)
Lemma release_objs_ok X s a : objs_ok X s -> a ∈ held s ->
  exists s', release s a = Ok s' /\ objs_ok X s' /\ m_modules s' = m_modules s /\ m_type2Modules s' = m_type2Modules s /\
    held s' = remove1 a (held s) /\ next s' = next s /\ (forall b, b ∈ owners s' -> objs s' !! b = objs s !! b) /\ exists l, calls s' = calls s ++ l.
Proof.
  intros Hs Ha. unfold release. set (s1 := set_held s (remove1 a (held s))).
  assert (forall b, b ∈ owners s <-> b = a \/ b ∈ owners s1) as Hown.
  { intros b. rewrite !owners_iff. change (m_modules s1) with (m_modules s). change (of_type s1) with (of_type s). cbn [s1 set_held held].
    rewrite (remove1_perm a (held s) Ha) at 1. rewrite elem_of_cons. tauto. }
  assert (objs_ok (a :: X) s1) as H1.
  { eapply (objs_ok_owners X); [exact Hs|done..| |].
    - intros b Hb. apply (ok_owned _ _ Hs), Hown. by right.
    - intros b _ [H|[->|H]%Hown]; rewrite elem_of_cons; auto. }
  assert (is_Some (objs s !! a)) as Hsome by (apply (ok_owned _ _ Hs), Hown; by left).
  destruct (collect_ok X s1 a H1 Hsome) as (s' & -> & H2 & E1 & E2 & E3 & E4 & E5 & l & E6 & _). exists s'. split_and!; try done; [|by exists l].
  intros b Hb. apply E5. apply owners_iff. apply owners_iff in Hb. unfold of_type in *. rewrite E1, E2, E3 in Hb. done.
Qed.

(** ** The tables *)

(** The second table is the first one by type, without empty parts. *)
Record tabs_ok s : Prop := {
  tab_mod k a : m_modules s !! k = Some a -> exists o, objs s !! a = Some o /\ mod_id (l_mod o) = k;
  tab_type t k a : of_type s t !! k = Some a <-> m_modules s !! k = Some a /\ exists o, objs s !! a = Some o /\ mod_type (l_mod o) = t;
  tab_full t : m_type2Modules s !! t <> Some ∅
}.

Definition mgr_ok s : Prop := objs_ok [] s /\ tabs_ok s.

Lemma tabs_ok_objs s s' : m_modules s' = m_modules s -> m_type2Modules s' = m_type2Modules s ->
  (forall k a, m_modules s !! k = Some a -> objs s' !! a = objs s !! a) -> tabs_ok s -> tabs_ok s'.
Proof.
  intros E1 E2 Ho [T1 T2 T3]. split; unfold of_type in *; rewrite ?E1, ?E2; [| |done].
  - intros k a H. rewrite (Ho k a H). auto.
  - intros t k a. rewrite T2. split; intros [H1 H2]; (split; [done|]); by rewrite (Ho k a H1) in *.
Qed.

Lemma owner_mod s k a : m_modules s !! k = Some a -> a ∈ owners s.
Proof. intros H. apply owners_iff. eauto. Qed.

(** Releasing a pointer leaves the manager as it is. *)
Lemma release_mgr s a : mgr_ok s -> a ∈ held s ->
  exists s', release s a = Ok s' /\ mgr_ok s' /\ m_modules s' = m_modules s /\ m_type2Modules s' = m_type2Modules s /\
    held s' = remove1 a (held s) /\ (forall b, b ∈ owners s' -> objs s' !! b = objs s !! b) /\ next s' = next s /\ exists l, calls s' = calls s ++ l.
Proof.
  intros [H1 H2] Ha. destruct (release_objs_ok [] s a H1 Ha) as (s' & E & O & E1 & E2 & E3 & E4 & E5 & E6). exists s'. split_and!; try done.
  split; [done|]. apply (tabs_ok_objs s); [done..| |done]. intros k b Hb. apply E5, (owner_mod _ k). by rewrite E1.
Qed.

(** The tables after the removal of an entry. *)
Lemma del_tables s name a o : tabs_ok s -> m_modules s !! name = Some a -> objs s !! a = Some o ->
  let inner := delete (mod_id (l_mod o)) (of_type s (mod_type (l_mod o))) in
  let types := if bool_decide (inner = ∅) then delete (mod_type (l_mod o)) (m_type2Modules s) else <[mod_type (l_mod o) := inner]> (m_type2Modules s) in
  let s' := set_tables s (delete name (m_modules s)) types in
  tabs_ok s' /\ forall t k b, of_type s' t !! k = Some b <-> of_type s t !! k = Some b /\ k <> name.
Proof.
  intros [T1 T2 T3] Ha Ho inner types s'. destruct (T1 _ _ Ha) as (o' & Ho' & Hid). simplify_eq. set (n := mod_type (l_mod o)) in *. set (id := mod_id (l_mod o)) in *.
  assert (forall t, of_type s' t = if decide (n = t) then inner else of_type s t) as Hof.
  { intros t. unfold of_type, s', types. cbn [set_tables m_type2Modules]. case_bool_decide as Ei; case_decide as Et; subst; rewrite ?lookup_delete_eq, ?lookup_insert_eq, ?lookup_delete_ne, ?lookup_insert_ne by done; done. }
  assert (forall t k b, of_type s' t !! k = Some b <-> of_type s t !! k = Some b /\ k <> id) as Hlook.
  { intros t k b. rewrite Hof. case_decide as Et; [subst t; unfold inner; rewrite lookup_delete_Some; naive_solver|]. split; [|by intros []].
    intros Hb. split; [done|]. intros ->. apply T2 in Hb as (Hb & o' & Ho' & Ht). simplify_eq. }
  split; [|done]. split.
  - intros k b. cbn. rewrite lookup_delete_Some. intros [_ Hb]. auto.
  - intros t k b. rewrite Hlook, T2. cbn. rewrite lookup_delete_Some. naive_solver.
  - intros t. unfold s', types. cbn. case_bool_decide as Ei.
    + destruct (decide (n = t)) as [<-|]; [by rewrite lookup_delete_eq|by rewrite lookup_delete_ne].
    + destruct (decide (n = t)) as [<-|]; [rewrite lookup_insert_eq; congruence|by rewrite lookup_insert_ne].
Qed.

(** Removing by id. *)
Lemma del_ok s name : mgr_ok s -> exists s', ModuleManager_del s name = Ok s' /\ mgr_ok s' /\
  m_modules s' = delete name (m_modules s) /\ held s' = held s /\ next s' = next s /\ (forall b, b ∈ owners s' -> objs s' !! b = objs s !! b) /\
  exists l, calls s' = calls s ++ from_option (fun a => [OnUnload a]) [] (m_modules s !! name) ++ l.
Proof.
  intros [H1 H2]. unfold ModuleManager_del. destruct (m_modules s !! name) as [a|] eqn:Ea.
  2: { exists s. split_and!; try done; [by rewrite delete_id|]. exists []. by rewrite !app_nil_r. }
  destruct (tab_mod _ H2 _ _ Ea) as (o & Ho & Hid). rewrite Ho. cbn [deref].
  pose proof (del_tables s name a o H2 Ea Ho) as Hdel. cbv zeta in Hdel.
  set (types := if bool_decide _ then _ else _) in *. destruct Hdel as [T1 T2].
  assert (of_type s (mod_type (l_mod o)) !! mod_id (l_mod o) = Some a) as -> by (apply (tab_type _ H2); rewrite Hid; eauto).
  set (s1 := set_tables s (delete name (m_modules s)) types) in *. set (s2 := set_held s1 (a :: held s)).
  assert (forall b, b ∈ owners s2 <-> b ∈ owners s) as Hown.
  { intros b. rewrite !owners_iff. change (of_type s2) with (of_type s1). cbn [s2 s1 set_held set_tables held m_modules]. rewrite elem_of_cons. split.
    - intros [[->|H]|[(k & H)|(t & k & H)]]; [right; left; eauto|by left|apply lookup_delete_Some in H as [_ H]; eauto|apply T2 in H as [H _]; eauto].
    - intros [H|[(k & H)|(t & k & H)]]; [auto| |].
      + destruct (decide (k = name)) as [->|Hk]; [left; left; congruence|]. right; left. exists k. by apply lookup_delete_Some.
      + destruct (decide (k = name)) as [->|Hk]; [|right; right; exists t, k; by apply T2]. apply (tab_type _ H2) in H as [H _]. left; left. congruence. }
  assert (objs_ok [] s2) as O2.
  { eapply (objs_ok_owners []); [exact H1|done..| |]; intros b; rewrite Hown; [apply (ok_owned _ _ H1)|tauto]. }
  cbn [collect_opt]. unfold collect. rewrite bool_decide_true by (apply owners_iff; left; by left). cbn [obind].
  destruct (call_ok [] s2 OnUnload a) as [-> O3]; [done|done|done|by exists o|]. cbn [obind].
  destruct (release_mgr (record s2 [OnUnload a]) a) as (s' & E & O4 & E1 & E2 & E3 & E4 & E5 & l & E6).
  { split; [done|]. by apply (tabs_ok_objs s1). }
  { by left. }
  exists s'. split_and!; try done.
  - rewrite E3. cbn. by rewrite decide_True.
  - exists l. rewrite E6. cbn. by rewrite <- app_assoc.
Qed.

(** Inserting under an id that is free. *)
Lemma add_insert_ok s a o : mgr_ok s -> a ∈ held s -> objs s !! a = Some o -> m_modules s !! mod_id (l_mod o) = None ->
  exists s', add_insert s a = Ok s' /\ mgr_ok s' /\ m_modules s' = <[mod_id (l_mod o) := a]> (m_modules s) /\ held s' = held s /\ objs s' = objs s /\
    next s' = next s /\ calls s' = calls s.
Proof.
  intros [H1 H2] Ha Ho Hid. unfold add_insert. rewrite Ho. cbn [deref]. rewrite Hid. cbn [collect_opt obind].
  set (id := mod_id (l_mod o)) in *. set (n := mod_type (l_mod o)).
  assert (of_type s n !! id = None) as Hn.
  { destruct (of_type s n !! id) as [b|] eqn:E; [|done]. apply (tab_type _ H2) in E as [E _]. congruence. }
  change (of_type (set_tables s (<[id:=a]> (m_modules s)) (m_type2Modules s))) with (of_type s). rewrite Hn. cbn [collect_opt].
  eexists. split; [done|]. cbn [m_modules m_type2Modules set_tables held objs calls]. set (s' := set_tables _ _ _).
  assert (forall t k b, of_type s' t !! k = Some b <-> (t = n /\ k = id /\ b = a) \/ of_type s t !! k = Some b) as Hof.
  { intros t k b. unfold s', of_type at 1. cbn [set_tables m_type2Modules]. destruct (decide (n = t)) as [<-|Ht].
    - rewrite lookup_insert_eq. cbn. rewrite lookup_insert_Some. split; [naive_solver|]. intros [(_ & -> & ->)|H]; [auto|right].
      split; [|done]. intros <-. congruence.
    - rewrite lookup_insert_ne by done. fold (of_type s t). naive_solver. }
  split_and!; try done. split.
  - eapply (objs_ok_owners []); [exact H1|done..| |].
    + intros b [H|[(k & H)|(t & k & H)]]%owners_iff; apply (ok_owned _ _ H1), owners_iff; [by left| |].
      * cbn [s' set_tables m_modules] in H. apply lookup_insert_Some in H as [[_ <-]|[_ H]]; [by left|right; left; eauto].
      * apply Hof in H as [(_ & _ & ->)|H]; [by left|right; right; eauto].
    + intros b _ [[]%elem_of_nil|H]. right. apply owners_iff. apply owners_iff in H as [H|[(k & H)|(t & k & H)]]; [by left|right; left|right; right].
      * exists k. cbn [s' set_tables m_modules]. apply lookup_insert_Some. right. split; [intros <-; congruence|done].
      * exists t, k. apply Hof. by right.
  - split.
    + intros k b. cbn [s' set_tables m_modules]. intros [[<- <-]|[_ H]]%lookup_insert_Some; [eauto|]. by apply (tab_mod _ H2).
    + intros t k b. rewrite Hof. cbn [s' set_tables m_modules objs]. rewrite lookup_insert_Some. split.
      * intros [(-> & -> & ->)|H]; [eauto 10|]. apply (tab_type _ H2) in H as [H ?]. split; [right; split; [intros <-; congruence|done]|done].
      * intros [[[<- <-]|[Hk H]] (o' & Ho' & Ht)]; [left; naive_solver|right]. apply (tab_type _ H2). eauto.
    + intros t. cbn. destruct (decide (n = t)) as [<-|Ht]; [rewrite lookup_insert_eq|rewrite lookup_insert_ne by done; apply (tab_full _ H2)].
      intros [= E]. apply (insert_non_empty _ _ _ E).
Qed.

(** Adding an object that the caller holds. *)
Lemma add_ok s a o : mgr_ok s -> a ∈ held s -> objs s !! a = Some o -> exists s', ModuleManager_add s a = Ok s' /\ mgr_ok s' /\
  m_modules s' = <[mod_id (l_mod o) := a]> (m_modules s) /\ held s' = held s /\ next s' = next s /\ (forall b, b ∈ owners s' -> objs s' !! b = objs s !! b) /\
  exists l, calls s' = calls s ++ from_option (fun b => [OnUnload b]) [] (m_modules s !! mod_id (l_mod o)) ++ l.
Proof.
  intros Hs Ha Ho. unfold ModuleManager_add. rewrite Ho. cbn [deref].
  destruct (del_ok s (mod_id (l_mod o)) Hs) as (s1 & -> & O1 & E1 & E2 & E3 & E4 & E5). cbn [obind].
  assert (a ∈ held s1) as Ha1 by (by rewrite E2). assert (a ∈ owners s1) as Hw by (apply owners_iff; by left).
  assert (objs s1 !! a = Some o) as Ho1 by (by rewrite E4).
  destruct (add_insert_ok s1 a o O1 Ha1 Ho1) as (s2 & -> & O2 & F1 & F2 & F3 & F4 & F5); [by rewrite E1, lookup_delete_eq|].
  exists s2. split_and!; [done|done|by rewrite F1, E1, insert_delete_eq|congruence|congruence| |by rewrite F5].
  intros b Hb. rewrite F3. destruct (ok_owned _ _ (proj1 O2) b Hb) as [x Hx]. rewrite F3 in Hx.
  destruct (ok_kept _ _ (proj1 O1) b) as [[]%elem_of_nil|Hb1]; [by exists x|]. by apply E4.
Qed.

(** ** Lists of modules *)

(** More pointers to objects that have owners. *)
Lemma hold_ok s l : mgr_ok s -> (forall a, a ∈ l -> a ∈ owners s) -> mgr_ok (set_held s (l ++ held s)).
Proof.
  intros [H1 H2] Hl. split; [|by apply (tabs_ok_objs s)].
  assert (forall b, b ∈ owners (set_held s (l ++ held s)) <-> b ∈ owners s) as Hown.
  { intros b. rewrite !owners_iff. change (of_type (set_held s (l ++ held s))) with (of_type s). cbn [set_held held m_modules]. rewrite elem_of_app.
    split; [|tauto]. intros [[H%Hl%owners_iff|?]|?]; tauto. }
  eapply (objs_ok_owners []); [exact H1|done..| |]; intros b; rewrite Hown; [apply (ok_owned _ _ H1)|tauto].
Qed.

Lemma release_all_ok l : forall s rest, mgr_ok s -> held s = l ++ rest ->
  exists s', release_all l s = Ok s' /\ mgr_ok s' /\ m_modules s' = m_modules s /\ m_type2Modules s' = m_type2Modules s /\ held s' = rest /\
    next s' = next s /\ exists c, calls s' = calls s ++ c.
Proof.
  induction l as [|a l IH]; intros s rest Hs Hh; cbn [release_all].
  { exists s. split_and!; try done. exists []. by rewrite app_nil_r. }
  destruct (release_mgr s a Hs) as (s1 & -> & O1 & E1 & E2 & E3 & E4 & E5 & c1 & E6); [rewrite Hh; by left|]. cbn [obind].
  rewrite Hh in E3. cbn in E3. rewrite decide_True in E3 by done.
  destruct (IH s1 rest O1 E3) as (s2 & -> & O2 & F1 & F2 & F3 & F4 & c2 & F5). exists s2. split_and!; try done; [congruence..|].
  exists (c1 ++ c2). by rewrite F5, E6, app_assoc.
Qed.

Lemma call_all_ok c l : (forall b, target (c b) = Some b) -> (forall a b, c a <> Destory b) -> forall s, mgr_ok s -> (forall a, a ∈ l -> a ∈ held s) ->
  exists s', call_all c l s = Ok s' /\ mgr_ok s' /\ m_modules s' = m_modules s /\ m_type2Modules s' = m_type2Modules s /\ held s' = held s /\
    next s' = next s /\ calls s' = calls s ++ map c l.
Proof.
  intros Hc Hn. induction l as [|a l IH]; intros s [H1 H2] Hl; cbn [call_all map].
  { exists s. split_and!; try done. by rewrite app_nil_r. }
  destruct (call_ok [] s c a (Hc) (Hn a) H1) as [-> O1]; [apply (ok_owned _ _ H1), owners_iff; left; apply Hl; by left|]. cbn [obind].
  destruct (IH (record s [c a])) as (s' & -> & O2 & E1 & E2 & E3 & E4 & E5).
  - split; [done|]. by apply (tabs_ok_objs s).
  - intros b Hb. apply Hl. by right.
  - exists s'. split_and!; try done. rewrite E5. cbn. by rewrite <- app_assoc.
Qed.

(** The visited modules are called, in the order of the list. *)
Lemma visit_ok c l s : (forall b, target (c b) = Some b) -> (forall a b, c a <> Destory b) -> mgr_ok s -> (forall a, a ∈ l -> a ∈ owners s) ->
  exists s', visit c l (set_held s (l ++ held s)) = Ok s' /\ mgr_ok s' /\ m_modules s' = m_modules s /\ m_type2Modules s' = m_type2Modules s /\
    held s' = held s /\ exists rest, calls s' = calls s ++ map c l ++ rest.
Proof.
  intros Hc Hn Hs Hl. unfold visit.
  destruct (call_all_ok c l Hc Hn (set_held s (l ++ held s))) as (s1 & -> & O1 & E1 & E2 & E3 & E4 & E5).
  { by apply hold_ok. } { intros a Ha. apply elem_of_app. by left. }
  cbn [obind set_held m_modules m_type2Modules held] in *. destruct (release_all_ok l s1 (held s) O1 E3) as (s2 & -> & O2 & F1 & F2 & F3 & F4 & rest & F5). exists s2. split_and!; try done; [congruence..|].
  exists rest. rewrite F5, E5. cbn. by rewrite <- app_assoc.
Qed.

Lemma elem_snd {K} `{Countable K} (m : gmap K nat) a : a ∈ map snd (map_to_list m) <-> exists k, m !! k = Some a.
Proof.
  rewrite list_elem_of_In, in_map_iff. split.
  - intros ([k b] & <- & Hk%list_elem_of_In%elem_of_map_to_list). eauto.
  - intros (k & Hk). exists (k, a). split; [done|]. by apply list_elem_of_In, elem_of_map_to_list.
Qed.

Lemma NoDup_snd {K} `{Countable K} (m : gmap K nat) : (forall k k' a, m !! k = Some a -> m !! k' = Some a -> k = k') -> NoDup (map snd (map_to_list m)).
Proof.
  intros Hi. apply NoDup_fmap_2_strong; [|apply NoDup_map_to_list]. intros [k a] [k' a'] H1%elem_of_map_to_list H2%elem_of_map_to_list E. cbn in E. subst.
  by rewrite (Hi k k' a').
Qed.

Lemma del_all_ok names : forall s, mgr_ok s -> exists s', del_all names s = Ok s' /\ mgr_ok s' /\ held s' = held s /\ next s' = next s /\
  (forall k, m_modules s' !! k = if bool_decide (k ∈ names) then None else m_modules s !! k) /\ exists c, calls s' = calls s ++ c.
Proof.
  induction names as [|n names IH]; intros s Hs; cbn [del_all].
  { exists s. split_and!; try done. exists []. by rewrite app_nil_r. }
  destruct (del_ok s n Hs) as (s1 & -> & O1 & E1 & E2 & E3 & E4 & c1 & E5). cbn [obind].
  destruct (IH s1 O1) as (s2 & -> & O2 & F1 & F2 & F3 & c2 & F4). exists s2. split_and!; try done; [congruence..| |].
  - intros k. rewrite F3, E1. case_bool_decide as Hk; case_bool_decide as Hk'; rewrite elem_of_cons in Hk'; [done|tauto| |].
    + destruct Hk' as [->|]; [apply lookup_delete_eq|done].
    + rewrite lookup_delete_ne; [done|]. intros ->. tauto.
  - eexists. by rewrite F4, E5, <- !app_assoc.
Qed.

(** Removing all leaves none. *)
Lemma delAll_ok s : mgr_ok s -> exists s', ModuleManager_delAll s = Ok s' /\ mgr_ok s' /\ m_modules s' = ∅ /\ held s' = held s.
Proof.
  intros Hs. unfold ModuleManager_delAll. set (tmp := map_to_list (m_modules s)).
  destruct (del_all_ok (map fst tmp) (set_held s (map snd tmp ++ held s))) as (s1 & -> & O1 & E1 & E2 & E3 & _).
  { apply hold_ok; [done|]. intros a (k & Hk)%elem_snd. by eapply owner_mod. }
  cbn [obind]. destruct (release_all_ok (map snd tmp) s1 (held s) O1 E1) as (s2 & -> & O2 & F1 & F2 & F3 & _). exists s2. split_and!; try done.
  rewrite F1. apply map_empty. intros k. rewrite E3. cbn [set_held m_modules]. case_bool_decide as Hk; [done|]. destruct (m_modules s !! k) as [a|] eqn:E; [|done].
  destruct Hk. apply list_elem_of_In, in_map_iff. exists (k, a). split; [done|]. by apply list_elem_of_In, elem_of_map_to_list.
Qed.

(** ** Loading *)

(** A loaded object is new and held by the caller; a library that is of no use is closed
    again. *)
Lemma GetModule_ok s path d : mgr_ok s -> dl_create d <> Some None -> exists m s', Library_GetModule s path d = Ok (m, s') /\ mgr_ok s' /\
  m_modules s' = m_modules s /\ match m with
  | None => held s' = held s /\ opened s' = opened s
  | Some a => held s' = a :: held s /\ exists o, objs s' !! a = Some o /\ dl_create d = Some (Some (mkModule (mod_name (l_mod o)) (mod_version (l_mod o))
      (default [] (mod_filename <$> (dl_create d ≫= id))) (mod_id (l_mod o)) (mod_type (l_mod o)))) /\ mod_filename (l_mod o) = path
  end.
Proof.
  intros [H1 H2] Hd. unfold Library_GetModule. destruct (dl_handle d) as [h|]; [|by exists None, s].
  assert (mgr_ok (record s [Dlclose h])) as Hclose.
  { split; [|by apply (tabs_ok_objs s)]. destruct H1 as [O1 O2 O3 O4 O5 O6]. split; cbn; try done.
    - intros a [Ha|E%list_elem_of_singleton]%elem_of_app; [auto|done].
    - apply calls_ok_snoc. done. }
  destruct (dl_create d) as [[m|]|] eqn:Ec; [|done|by exists None, (record s [Dlclose h])].
  destruct (dl_destory d); [|by exists None, (record s [Dlclose h])].
  eexists (Some _), _. split; [done|]. cbn [m_modules held objs]. split_and!; [|done|done|].
  2: { exists (mkLoaded (Module_setFilename m path) h). rewrite lookup_insert_eq. split_and!; [done| |done]. by destruct m. }
  assert (objs s !! next s = None) as Hn.
  { destruct (objs s !! next s) eqn:E; [|done]. pose proof (ok_next _ _ H1 (next s) ltac:(by eexists)). lia. }
  set (s' := mkM _ _ _ _ _ _ _). assert (forall b, b ∈ owners s' <-> b = next s \/ b ∈ owners s) as Hown.
  { intros b. rewrite !owners_iff. change (of_type s') with (of_type s). cbn [s' held m_modules]. rewrite elem_of_cons. tauto. }
  assert (forall b, is_Some (objs s' !! b) <-> b = next s \/ is_Some (objs s !! b)) as Hobj.
  { intros b. cbn [s' objs]. destruct (decide (b = next s)) as [->|]; [rewrite lookup_insert_eq; by split; [left|]|]. rewrite lookup_insert_ne by done. naive_solver. }
  split.
  - destruct H1 as [O1 O2 O3 O4 O5 O6]. split.
    + intros b. rewrite Hown, Hobj. intros [?|?]; auto.
    + intros b. rewrite Hown, Hobj. intros [?|Hb]; [auto|]. destruct (O2 b Hb); auto.
    + cbn [s' opened objs]. rewrite (map_to_list_insert (objs s) (next s) _ Hn). cbn. by rewrite O3.
    + intros b. rewrite Hobj. cbn [s' next]. intros [->|Hb%O4]; lia.
    + cbn [s' calls next objs]. intros b [[Hb Hb']%O5|E%list_elem_of_singleton]%elem_of_app; [|done]. split; [lia|]. rewrite lookup_insert_ne by lia. done.
    + cbn [s' calls]. apply calls_ok_snoc. done.
  - apply (tabs_ok_objs s); [done..| |done]. intros k a Ha. cbn [s' objs]. rewrite lookup_insert_ne; [done|]. intros <-.
    apply (tab_mod _ H2) in Ha as (o & Ho & _). congruence.
Qed.

Lemma initModule_ok s path d : mgr_ok s -> dl_create d <> Some None -> exists s', ModuleManager_initModule s path d = Ok s' /\ mgr_ok s' /\ held s' = held s.
Proof.
  intros Hs Hd. unfold ModuleManager_initModule. destruct (GetModule_ok s path d Hs Hd) as (m & s1 & -> & O1 & E1 & E2). cbn [obind].
  destruct m as [a|]; [|exists s1; by destruct E2]. destruct E2 as (E2 & o & Ho & _).
  destruct (add_ok s1 a o O1) as (s2 & -> & O2 & F1 & F2 & _); [rewrite E2; by left|done|]. cbn [obind].
  destruct (release_mgr s2 a O2) as (s3 & -> & O3 & _ & _ & G & _); [rewrite F2, E2; by left|]. exists s3. split_and!; try done.
  rewrite G, F2, E2. cbn. by rewrite decide_True.
Qed.

Lemma init_all_ok dl files : (forall p, dl_create (dl p) <> Some None) -> forall s, mgr_ok s -> exists s', init_all dl files s = Ok s' /\ mgr_ok s' /\ held s' = held s.
Proof.
  intros Hd. induction files as [|p files IH]; intros s Hs; cbn [init_all]; [by exists s|].
  destruct (initModule_ok s p (dl p) Hs (Hd p)) as (s1 & -> & O1 & E1). cbn [obind]. destruct (IH s1 O1) as (s2 & -> & O2 & E2).
  exists s2. split_and!; try done. congruence.
Qed.

(** ** Runs *)

(** What the program does with modules; [Release]: a pointer that [get] gave goes. *)
Inductive mop :=
| Init (files : list bytes) (dl : bytes -> dl_answer) | Add (a : nat) | Del (name : bytes) | DelAll | Get (name : bytes) | Release (a : nat)
| Foreach (type : Z) | Connect | Disconnect.

Definition mop_run s (op : mop) : outcome mstate :=
  match op with
  | Init files dl => init_all dl (merge_sort bytes_le files) s
  | Add a => ModuleManager_add s a
  | Del name => ModuleManager_del s name
  | DelAll => ModuleManager_delAll s
  | Get name => Ok (snd (ModuleManager_get s name))
  | Release a => release s a
  | Foreach type => ModuleManager_foreach s type
  | Connect => ModuleManager_onConnect s
  | Disconnect => ModuleManager_onDisconnect s
  end.

(** Pointers are released by their holders, and [CreateModule] makes an object. *)
Definition mop_ok s (op : mop) : Prop :=
  match op with
  | Add a | Release a => a ∈ held s
  | Init _ dl => forall p, dl_create (dl p) <> Some None
  | _ => True
  end.

Definition mop_step s s' : Prop := exists op, mop_ok s op /\ mop_run s op = Ok s'.

Lemma mop_run_ok s op : mgr_ok s -> mop_ok s op -> exists s', mop_run s op = Ok s' /\ mgr_ok s'.
Proof.
  intros Hs Hop. assert (forall c l, (forall b, target (c b) = Some b) -> (forall a b, c a <> Destory b) -> (forall a, a ∈ l -> a ∈ owners s) ->
    exists s', visit c l (set_held s (l ++ held s)) = Ok s' /\ mgr_ok s') as Hv.
  { intros c l Hc Hn Hl. destruct (visit_ok c l s Hc Hn Hs Hl) as (s' & ? & ? & _). eauto. }
  destruct op as [files dl|a|name| |name|a|type| |]; cbn [mop_run mop_ok] in *.
  - destruct (init_all_ok dl (merge_sort bytes_le files) Hop s Hs) as (s' & ? & ? & _). eauto.
  - destruct (ok_owned _ _ (proj1 Hs) a) as [o Ho]; [apply owners_iff; by left|]. destruct (add_ok s a o Hs Hop Ho) as (s' & ? & ? & _). eauto.
  - destruct (del_ok s name Hs) as (s' & ? & ? & _). eauto.
  - destruct (delAll_ok s Hs) as (s' & ? & ? & _). eauto.
  - eexists. split; [done|]. unfold ModuleManager_get. destruct (m_modules s !! name) as [a|] eqn:E; [|done]. cbn [snd].
    apply (hold_ok s [a]); [done|]. intros b ->%list_elem_of_singleton. by eapply owner_mod.
  - destruct (release_mgr s a Hs Hop) as (s' & ? & ? & _). eauto.
  - unfold ModuleManager_foreach, ModuleManager_listByType. destruct (m_type2Modules s !! type) as [inner|] eqn:E; [|by exists s].
    apply Hv; [done..|]. intros a (k & Hk)%elem_snd. apply owners_iff. right. right. exists type, k. unfold of_type. by rewrite E.
  - apply Hv; [done..|]. intros a (k & Hk)%elem_snd. by eapply owner_mod.
  - apply Hv; [done..|]. intros a (k & Hk)%elem_snd. by eapply owner_mod.
Qed.

Lemma mstate_new_ok : mgr_ok mstate_new.
Proof.
  split.
  - split; cbn; try done.
    + by intros a ?%not_elem_of_nil.
    + intros a [x Hx]. by rewrite lookup_empty in Hx.
    + intros a [x Hx]. by rewrite lookup_empty in Hx.
    + by intros a ?%not_elem_of_nil.
    + intros [|] ? ? ? E; discriminate E.
  - split; cbn.
    + intros k a. by rewrite lookup_empty.
    + intros t k a. unfold of_type. cbn. rewrite !lookup_empty. cbn. rewrite !lookup_empty. naive_solver.
    + intros t. by rewrite lookup_empty.
Qed.

Lemma mop_reach_ok s : rtc mop_step mstate_new s -> mgr_ok s.
Proof.
  intros Hr. pose proof mstate_new_ok as H0. induction Hr as [|x y z (op & Hop & E) _ IH]; [done|]. apply IH.
  destruct (mop_run_ok x op H0 Hop) as (y' & E' & Hy). congruence.
Qed.

(** C20: modules and their libraries.  In every state that loading, adding, removing,
    looking up and visiting modules leads to: every further operation is defined; a module is
    found under its id, and the modules listed for a type are exactly those of all
    modules that have it, each once; the libraries that are open are those of the objects
    there are, and these are the objects somebody still points to; no object is called
    after it was destroyed, and none is destroyed twice. *)
Theorem modules_owned s : rtc mop_step mstate_new s ->
  (forall op, mop_ok s op -> exists s', mop_run s op = Ok s') /\
  (forall name a, fst (ModuleManager_get s name) = Some a -> exists o, objs s !! a = Some o /\ mod_id (l_mod o) = name) /\
  (forall type, NoDup (fst (ModuleManager_listByType s type)) /\ forall a, a ∈ fst (ModuleManager_listByType s type) <->
     a ∈ fst (ModuleManager_listAll s) /\ exists o, objs s !! a = Some o /\ mod_type (l_mod o) = type) /\
  opened s ≡ₚ map (fun x => l_handle (snd x)) (map_to_list (objs s)) /\ (forall a, is_Some (objs s !! a) <-> a ∈ owners s) /\
  (forall pre c post a, calls s = pre ++ c :: post -> target c = Some a -> Destory a ∉ pre).
Proof.
  intros Hs%mop_reach_ok. pose proof Hs as [H1 H2]. split_and!.
  - intros op Hop. destruct (mop_run_ok s op Hs Hop) as (s' & ? & _). eauto.
  - intros name a. unfold ModuleManager_get. destruct (m_modules s !! name) as [b|] eqn:E; [|done]. cbn. intros [= ->]. by apply (tab_mod _ H2).
  - intros type. assert (fst (ModuleManager_listByType s type) = map snd (map_to_list (of_type s type))) as ->.
    { unfold ModuleManager_listByType, of_type. by destruct (m_type2Modules s !! type). }
    split.
    + apply NoDup_snd. intros k k' a (Hk%(tab_mod _ H2) & _)%(tab_type _ H2) (Hk'%(tab_mod _ H2) & _)%(tab_type _ H2).
      destruct Hk as (o & ? & ?), Hk' as (o' & ? & ?). congruence.
    + intros a. unfold ModuleManager_listAll. cbn [fst]. rewrite !elem_snd. split.
      * intros (k & (Hk & Ho)%(tab_type _ H2)). eauto.
      * intros ((k & Hk) & Ho). exists k. by apply (tab_type _ H2).
  - apply H1.
  - intros a. split; [|apply (ok_owned _ _ H1)]. intros Ha. by destruct (ok_kept _ _ H1 a Ha) as [[]%elem_of_nil|].
  - apply H1.
Qed.

(** Two libraries whose modules have one id, and one that has no [DestoryModule]. *)
Definition some_dl (p : bytes) : dl_answer :=
  if bool_decide (p = str "/m/a.so") then mkDl (Some 5%nat) (Some (Some (Module_new (str "m") (str "1") [] MODULE))) true
  else if bool_decide (p = str "/m/b.so") then mkDl (Some 6%nat) (Some (Some (RockModule_new (str "m") (str "1") []))) true
  else mkDl (Some 7%nat) (Some (Some (Module_new [] [] [] MODULE))) false.

Definition mod_loaded : mstate := match mop_run mstate_new (Init [str "/m/c.so"; str "/m/b.so"; str "/m/a.so"] some_dl) with Ok s => s | _ => mstate_new end.

(** A run: the second library replaces the module of the first, whose object
    is told, destroyed and closed. *)
Lemma modules_owned_witness :
  calls mod_loaded = [LoadFromConfDir; LoadFromConfDir; OnUnload 0; Destory 0; Dlclose 5; Dlclose 7] /\
  fst (ModuleManager_get mod_loaded (str "m/1")) = Some 1%nat /\ fst (ModuleManager_listByType mod_loaded ROCK) = [1%nat] /\
  fst (ModuleManager_listByType mod_loaded MODULE) = [] /\
  exists o, objs mod_loaded !! 1%nat = Some o /\ mod_id (l_mod o) = str "m/1".
Proof.
  split; [vm_compute; reflexivity|]. split; [vm_compute; reflexivity|]. split; [vm_compute; reflexivity|]. split; [vm_compute; reflexivity|].
  refine (proj1 (proj2 (modules_owned mod_loaded _)) (str "m/1") 1%nat _); [|vm_compute; reflexivity].
  apply rtc_once. exists (Init [str "/m/c.so"; str "/m/b.so"; str "/m/a.so"] some_dl). split; [|vm_compute; reflexivity].
  intros p. unfold some_dl. destruct (bool_decide _); [discriminate|]. by destruct (bool_decide _).
Defined.

(** The manager knows its modules by id and the last one added wins; the one it replaces
    is told. *)
Lemma add_replaces s a o : mgr_ok s -> a ∈ held s -> objs s !! a = Some o -> exists s', ModuleManager_add s a = Ok s' /\
  fst (ModuleManager_get s' (mod_id (l_mod o))) = Some a /\
  (forall name, name <> mod_id (l_mod o) -> fst (ModuleManager_get s' name) = fst (ModuleManager_get s name)) /\
  exists l, calls s' = calls s ++ from_option (fun b => [OnUnload b]) [] (m_modules s !! mod_id (l_mod o)) ++ l.
Proof.
  intros Hs Ha Ho. destruct (add_ok s a o Hs Ha Ho) as (s' & E & _ & E1 & _ & _ & _ & El). exists s'. unfold ModuleManager_get. rewrite E1. split_and!; [done| | |done].
  - by rewrite lookup_insert_eq.
  - intros name Hn. rewrite lookup_insert_ne by done. by destruct (m_modules s !! name).
Qed.

(** ** The services of a module *)

Section services.
(** The byte order of the machine, and the text of [GetIPv4]. *)
Context (host : Z) (GetIPv4 : bytes).

(** @src module.cc:85-98 Module::registerService
    What is registered for a socket: nothing unless it listens at an IPv4 address that
    is not that of the loopback. *)
Definition service_address (x : Address) : option bytes :=
  match x with
  | IPv4Address a =>
    let t := IPv4Address_insert host a in
    if bool_decide (str_find t (str "127.0.0.1") 0 = Some 0%nat) then None
    else if bool_decide (str_find t (str "0.0.0.0") 0 = Some 0%nat) then Some (GetIPv4 ++ str ":" ++ dec (IPv4Address_getPort host a))
    else Some t
  | _ => None
  end.

(** @src module.cc:72-102 Module::registerService
    [sd] is the service discovery of the application, [svrs] the local addresses of the
    sockets of the servers of that type, if there are such. *)
Definition Module_registerService (sd : option discovery) (svrs : option (list (list Address))) (server_type domain service : bytes) : option discovery :=
  match sd, svrs with
  | Some sd, Some svrs =>
    Some (fold_left (fun sd socks => fold_left (fun sd x =>
      match service_address x with Some ip_and_port => IServiceDiscovery_registerServer sd domain service ip_and_port server_type | None => sd end) socks sd) svrs sd)
  | _, _ => sd
  end.

(** The value registered for a server. *)
Definition registered (sd : discovery) (domain service ip_and_port : bytes) : option bytes :=
  match m_registerInfos sd !! domain with Some services => match services !! service with Some servers => servers !! ip_and_port | None => None end | None => None end.

Lemma registered_registerServer sd d srv ip data d' srv' ip' :
  registered (IServiceDiscovery_registerServer sd d srv ip data) d' srv' ip' =
  if decide (d = d' /\ srv = srv' /\ ip = ip') then Some data else registered sd d' srv' ip'.
Proof.
  unfold registered, IServiceDiscovery_registerServer, at_key. cbn [m_registerInfos].
  destruct (decide (d = d')) as [<-|Hd]; [|rewrite lookup_insert_ne, decide_False by naive_solver; done].
  rewrite lookup_insert_eq. cbn. destruct (decide (srv = srv')) as [<-|Hs].
  - rewrite lookup_insert_eq. cbn. destruct (decide (ip = ip')) as [<-|Hi]; [by rewrite lookup_insert_eq, decide_True|].
    rewrite lookup_insert_ne, decide_False by naive_solver. by destruct (m_registerInfos sd !! d) as [m|]; cbn; [destruct (m !! srv)|rewrite lookup_empty]; cbn; rewrite ?lookup_empty.
  - rewrite lookup_insert_ne, decide_False by naive_solver. by destruct (m_registerInfos sd !! d); cbn; rewrite ?lookup_empty.
Qed.

(** Exactly the addresses of the servers' sockets are registered, with their type. *)
Lemma registerService_spec sd svrs server_type domain service d srv ip :
  exists sd', Module_registerService (Some sd) (Some svrs) server_type domain service = Some sd' /\
    registered sd' d srv ip =
      if decide (domain = d /\ service = srv /\ ip ∈ omap service_address (concat svrs)) then Some server_type else registered sd d srv ip.
Proof.
  eexists. split; [done|]. revert sd. induction svrs as [|socks svrs IH]; intros sd; cbn [fold_left concat].
  { rewrite decide_False; [done|]. by intros (_ & _ & ?%not_elem_of_nil). }
  rewrite IH. clear IH. rewrite omap_app.
  assert (forall sd, registered (fold_left (fun sd x => match service_address x with
    | Some ip_and_port => IServiceDiscovery_registerServer sd domain service ip_and_port server_type | None => sd end) socks sd) d srv ip =
    if decide (domain = d /\ service = srv /\ ip ∈ omap service_address socks) then Some server_type else registered sd d srv ip) as H.
  { clear sd. induction socks as [|x socks IH]; intros sd; cbn [fold_left omap list_omap]; [rewrite decide_False; [done|]; by intros (_ & _ & ?%not_elem_of_nil)|].
    rewrite IH. change (list_omap _ _ service_address socks) with (omap service_address socks). destruct (service_address x) as [t|]; [|done].
    rewrite registered_registerServer. repeat case_decide; rewrite ?elem_of_cons in *; naive_solver. }
  rewrite H. repeat case_decide; rewrite ?elem_of_app in *; naive_solver.
Qed.

(** The address without the port. *)
Definition dotted (a : sockaddr_in) : bytes :=
  let addr := byteswapOnLittleEndian host 4 (s_addr a) in
  dec (Z.land (Z.shiftr addr 24) 0xff) ++ str "." ++ dec (Z.land (Z.shiftr addr 16) 0xff) ++ str "." ++
  dec (Z.land (Z.shiftr addr 8) 0xff) ++ str "." ++ dec (Z.land addr 0xff).

Lemma dotted_insert a : IPv4Address_insert host a = dotted a ++ chr ":" :: dec (IPv4Address_getPort host a).
Proof. unfold IPv4Address_insert, dotted. rewrite <- !app_assoc. reflexivity. Qed.

Lemma dotted_chars a : Forall (fun c => c <> 0 /\ c <> chr ":") (dotted a).
Proof.
  assert (forall x, Forall (fun c => c <> 0 /\ c <> chr ":") (dec (Z.land x 0xff))) as Hd.
  { intros x. destruct (dec_spec (Z.land x 0xff)) as (_ & H & _); [change 0xff with (Z.ones 8); rewrite Z.land_ones by lia; pose proof (Z.mod_pos_bound x (2 ^ 8)); lia|]. eapply List.Forall_impl; [|exact H].
    intros c Hc. unfold is_digit in Hc. change (chr ":") with 58. lia. }
  assert (Forall (fun c => c <> 0 /\ c <> chr ":") (str ".")) as Hp by (by repeat constructor).
  unfold dotted. rewrite !Forall_app. repeat split; auto.
Qed.

(** What is registered for an address is read back by the clients of the service: its
    text and its port. *)
Lemma registered_readable inet_addr a : 0 <= IPv4Address_getPort host a < 65536 -> 0 < inet_addr (dotted a) < 2 ^ 32 ->
  ServiceItemInfo_Create inet_addr (IPv4Address_insert host a) [] =
    Some (mkItem (inet_addr (dotted a) * 2 ^ 32 + IPv4Address_getPort host a) (IPv4Address_getPort host a) (dotted a) []).
Proof.
  intros Hp Hi. pose proof (dotted_chars a) as Hc. unfold ServiceItemInfo_Create. rewrite dotted_insert, first_pos_app
    by (eapply List.Forall_impl; [|exact Hc]; by intros c []).
  rewrite take_app_length. replace (length (dotted a) + 1)%nat with (length (dotted a ++ [chr ":"])) by (by rewrite length_app).
  replace (dotted a ++ chr ":" :: dec (IPv4Address_getPort host a)) with ((dotted a ++ [chr ":"]) ++ dec (IPv4Address_getPort host a)) by (by rewrite <- app_assoc).
  rewrite drop_app_length, TypeUtil_Atoi_dec by lia. rewrite cstr_id by (eapply List.Forall_impl; [|exact Hc]; by intros c []).
  rewrite (proj2 (Z.eqb_neq _ _)) by lia. do 2 f_equal; [|unfold uwrap; rewrite Z.mod_small by lia; done].
  unfold uwrap. rewrite (Z.mod_small (IPv4Address_getPort host a)) by lia. rewrite Z.lor_comm, lor_shiftl_disjoint by lia. lia.
Qed.

End services.

(** ** Where it falls short *)

(** [add] removes the old module and inserts the new one under two locks: of two threads
    that add modules of one id, both remove before either inserts.  The first module is
    never told and never found by its id, but stays in the list of its type, and removing
    the id does not end that. *)
Definition race_two : mstate :=
  let s := mkM ∅ ∅ {[ 0%nat := mkLoaded (Module_new (str "m") (str "1") [] MODULE) 5;
                     1%nat := mkLoaded (RockModule_new (str "m") (str "1") []) 6 ]} 2 [0%nat; 1%nat] [5%nat; 6%nat] [] in
  match (let! s := ModuleManager_del s (str "m/1") in let! s := ModuleManager_del s (str "m/1") in
         let! s := add_insert s 0 in let! s := add_insert s 1 in
         let! s := release s 0 in release s 1) with Ok s => s | _ => s end.

Lemma add_race : fst (ModuleManager_get race_two (str "m/1")) = Some 1%nat /\ fst (ModuleManager_listByType race_two MODULE) = [0%nat] /\
  exists s, ModuleManager_del race_two (str "m/1") = Ok s /\ calls s = [OnUnload 1; Destory 1; Dlclose 6] /\
    fst (ModuleManager_listAll s) = [] /\ fst (ModuleManager_listByType s MODULE) = [0%nat].
Proof. split; [vm_compute; reflexivity|]. split; [vm_compute; reflexivity|]. eexists. split; [vm_compute; reflexivity|]. split_and!; vm_compute; reflexivity. Qed.

(** A library whose [CreateModule] fails. *)
Lemma GetModule_null s path h : Library_GetModule s path (mkDl (Some h) (Some None) true) = UB.
Proof. reflexivity. Qed.
