(* ===== verification/Servlets.v ===== *)
(** * The built-in servlets ([http/servlets/config_servlet.cc], [http/servlets/status_servlet.cc])

    The page with the configuration, as YAML or JSON, and the page with the state of the
    process.  What other parts print ([Worker], [Application] and the process
    information are not part of the library) is given as text; [Config::Visit] is given
    as the list of the variables it visits. *)

From S2P Require Import Prelude Text HttpMessage Servlet LogFormatter LexicalCast Json ModuleManager.
From Stdlib Require Import ZArith Lia List String.
From stdpp Require Import base tactics list numbers option gmap.

Open Scope Z_scope.
Open Scope list_scope.

(** ** Durations *)

(** @src http/servlets/status_servlet.cc:11-35 format_used_time *)
Definition format_used_time (ts : Z) : bytes :=
  let '(ss, ts, v) :=
    if 3600 * 24 <=? ts then (sdec (Z.quot (Z.quot ts 3600) 24) ++ str "d ", Z.rem ts (3600 * 24), true) else ([], ts, false) in
  let '(ss, ts, v) :=
    if 3600 <=? ts then (ss ++ sdec (Z.quot ts 3600) ++ str "h ", Z.rem ts 3600, true)
    else if v then (ss ++ str "0h ", ts, v) else (ss, ts, v) in
  let '(ss, ts) :=
    if 60 <=? ts then (ss ++ sdec (Z.quot ts 60) ++ str "m ", Z.rem ts 60)
    else if v then (ss ++ str "0m ", ts) else (ss, ts) in
  ss ++ sdec ts ++ str "s".

(** What it prints: the days, hours, minutes and seconds of the duration, from the first
    part that is not zero on. *)
Lemma format_used_time_spec ts : 0 <= ts ->
  let d := ts / 86400 in
  let h := ts / 3600 mod 24 in
  let m := ts / 60 mod 60 in
  let s := ts mod 60 in
  format_used_time ts =
    (if 0 <? d then sdec d ++ str "d " else []) ++ (if 0 <? ts / 3600 then sdec h ++ str "h " else []) ++
    (if 0 <? ts / 60 then sdec m ++ str "m " else []) ++ sdec s ++ str "s".
Proof.
  intros Hts. cbv zeta. pose proof (Z.div_mod ts 60 ltac:(lia)) as E1. pose proof (Z.mod_pos_bound ts 60 ltac:(lia)) as B1.
  pose proof (Z.div_mod (ts / 60) 60 ltac:(lia)) as E2. pose proof (Z.mod_pos_bound (ts / 60) 60 ltac:(lia)) as B2.
  rewrite Z.div_div in E2 by lia. change (60 * 60) with 3600 in E2.
  pose proof (Z.div_mod (ts / 3600) 24 ltac:(lia)) as E3. pose proof (Z.mod_pos_bound (ts / 3600) 24 ltac:(lia)) as B3.
  rewrite Z.div_div in E3 by lia. change (3600 * 24) with 86400 in E3. pose proof (Z.div_pos ts 86400 Hts ltac:(lia)) as B4.
  set (d := ts / 86400) in *. set (h := ts / 3600 mod 24) in *. set (m := ts / 60 mod 60) in *. set (s := ts mod 60) in *.
  rewrite E3 in E2 |- *. rewrite E2 in E1 |- *. clearbody d h m s. subst ts. clear E2 E3 Hts.
  replace (60 * (60 * (24 * d + h) + m) + s) with (86400 * d + (3600 * h + (60 * m + s))) by lia.
  assert (forall k a b, 0 < k -> 0 <= a -> 0 <= b < k -> Z.quot (k * a + b) k = a /\ Z.rem (k * a + b) k = b) as Hq.
  { intros k a b Hk Ha Hb. assert (0 <= k * a) by (apply Z.mul_nonneg_nonneg; lia). rewrite Z.quot_div_nonneg, Z.rem_mod_nonneg by lia. split.
    - symmetry. apply (Z.div_unique _ _ _ b); lia.
    - symmetry. apply (Z.mod_unique _ _ a); lia. }
  destruct (Hq 86400 d (3600 * h + (60 * m + s))) as [_ Q2]; [lia..|]. destruct (Hq 3600 h (60 * m + s)) as [Q3 Q4]; [lia..|]. destruct (Hq 60 m s) as [Q5 Q6]; [lia..|].
  assert (Z.quot (Z.quot (86400 * d + (3600 * h + (60 * m + s))) 3600) 24 = d) as Q1.
  { replace (86400 * d + (3600 * h + (60 * m + s))) with (3600 * (24 * d + h) + (60 * m + s)) by lia. rewrite (proj1 (Hq 3600 (24 * d + h) (60 * m + s) ltac:(lia) ltac:(lia) ltac:(lia))).
    apply (Hq 24 d h); lia. }
  unfold format_used_time. change (3600 * 24) with 86400. rewrite Q1, Q2.
  destruct (Z.leb_spec 86400 (86400 * d + (3600 * h + (60 * m + s)))) as [H1|H1].
  - rewrite (proj2 (Z.ltb_lt 0 d)), (proj2 (Z.ltb_lt 0 (24 * d + h))), (proj2 (Z.ltb_lt 0 (60 * (24 * d + h) + m))) by lia.
    destruct (Z.leb_spec 3600 (3600 * h + (60 * m + s))) as [H2|H2]; [rewrite Q3, Q4|assert (h = 0) as -> by lia; rewrite Z.mul_0_r, Z.add_0_l].
    all: destruct (Z.leb_spec 60 (60 * m + s)) as [H3|H3]; [rewrite Q5, Q6|assert (m = 0) as -> by lia; rewrite Z.mul_0_r, Z.add_0_l]; by rewrite <- ?app_assoc.
  - assert (d = 0) as -> by lia. rewrite !Z.mul_0_r, !Z.add_0_l. change (0 <? 0) with false.
    destruct (Z.leb_spec 3600 (3600 * h + (60 * m + s))) as [H2|H2]; [rewrite Q3, Q4|assert (h = 0) as -> by lia; rewrite !Z.mul_0_r, !Z.add_0_l].
    + rewrite (proj2 (Z.ltb_lt 0 h)), (proj2 (Z.ltb_lt 0 (60 * h + m))) by lia.
      destruct (Z.leb_spec 60 (60 * m + s)) as [H3|H3]; [rewrite Q5, Q6|assert (m = 0) as -> by lia; rewrite Z.mul_0_r, Z.add_0_l]; by rewrite <- ?app_assoc.
    + change (0 <? 0) with false. destruct (Z.leb_spec 60 (60 * m + s)) as [H3|H3].
      * rewrite Q5, Q6, (proj2 (Z.ltb_lt 0 m)) by lia. by rewrite <- ?app_assoc.
      * assert (m = 0) as -> by lia. by rewrite Z.mul_0_r, Z.add_0_l.
Qed.

(** ** The page of the process *)

(** [std::map] with the creators of a list: the later of two entries wins. *)
Fixpoint creators_set {A} (k : bytes) (v : A) (l : list (bytes * A)) : list (bytes * A) :=
  match l with
  | [] => [(k, v)]
  | (k', v') :: r => if lex_lt k k' then (k, v) :: l else if lex_lt k' k then (k', v') :: creators_set k v r else (k, v) :: r
  end.
Definition creators_of {A} (l : list (bytes * A)) : list (bytes * A) := fold_left (fun m x => creators_set (fst x) (snd x) m) l [].

Section status.
Context {Session : Type}.

(** @src http/servlet.cc:133-138 ServletDispatch::listAllServletCreator
    into an empty map. *)
Definition ServletDispatch_listAllServletCreator (d : @ServletDispatch Session) : list (bytes * @IServletCreator Session) :=
  creators_of (map_to_list (m_datas d)).

(** @src http/servlet.cc:140-145 ServletDispatch::listAllGlobServletCreator *)
Definition ServletDispatch_listAllGlobServletCreator (d : @ServletDispatch Session) : list (bytes * @IServletCreator Session) :=
  creators_of (m_globs d).

(** What the page is about.  A server: its text and, if it is an HTTP server, its
    dispatcher. *)
Record status := mkStatus {
  st_modules : list Module_;
  st_host : bytes; st_ipv4 : bytes;
  st_parent_id : Z; st_main_id : Z;
  st_parent_start : bytes; st_main_start : bytes;
  st_restart_count : Z;
  st_parent_used : Z; st_main_used : Z;
  st_fibers : Z;
  st_loggers : bytes; st_workers : bytes;
  st_servers : list (bytes * list (bytes * option (@ServletDispatch Session)))
}.

Definition endl : bytes := [10].
Definition setw30 (s : bytes) : bytes := replicate (30 - length s) 32 ++ s.

(** The macros: the width is that of the key with the colon, or of the key alone. *)
Definition line (key value : bytes) : bytes := setw30 (key ++ str ": ") ++ value ++ endl.
Definition line2 (key value : bytes) : bytes := setw30 key ++ str ": " ++ value ++ endl.

Definition rule_line : bytes := str "===================================================" ++ endl.
Definition star_line : bytes := str "***************************************************" ++ endl.
Definition dash_line : bytes := str "---------------------------------------------------" ++ endl.

(** The parts of a loop with a separator between them. *)
Fixpoint with_sep (sep : bytes) (l : list bytes) : bytes :=
  match l with [] => [] | [x] => x | x :: l => x ++ sep ++ with_sep sep l end.

(** @src http/servlets/status_servlet.cc:102-116 StatusServlet::handle *)
Definition creators_text (title : bytes) (infos : list (bytes * @IServletCreator Session)) : bytes :=
  match infos with [] => [] | _ => title ++ endl ++ concat (map (fun i => line2 (fst i) (creator_name (snd i))) infos) end.

(** The first server of the list that is an HTTP server. *)
Fixpoint first_http (l : list (bytes * option (@ServletDispatch Session))) : option (@ServletDispatch Session) :=
  match l with [] => None | (_, Some d) :: _ => Some d | (_, None) :: l => first_http l end.

(** @src http/servlets/status_servlet.cc:79-120 StatusServlet::handle *)
Definition server_text (s : bytes * list (bytes * option (@ServletDispatch Session))) : bytes :=
  str "<Server." ++ fst s ++ str ">" ++ endl ++ with_sep dash_line (map (fun x => fst x ++ endl) (snd s)) ++
  match first_http (snd s) with
  | None => []
  | Some d => creators_text (str "[Servlets]") (ServletDispatch_listAllServletCreator d) ++
              creators_text (str "[Servlets.Globs]") (ServletDispatch_listAllGlobServletCreator d)
  end.

(** @src http/servlets/status_servlet.cc:41-129 StatusServlet::handle
    The text of the page. *)
Definition status_page (t : status) : bytes :=
  rule_line ++ line (str "server_version") (str "IOCoroutineScheduler/1.0.0") ++
  setw30 (str "modules: ") ++ with_sep (str ";") (map mod_id (st_modules t)) ++ endl ++
  line (str "host") (st_host t) ++ line (str "ipv4") (st_ipv4 t) ++
  line (str "daemon_id") (sdec (st_parent_id t)) ++ line (str "main_id") (sdec (st_main_id t)) ++
  line (str "daemon_start") (st_parent_start t) ++ line (str "main_start") (st_main_start t) ++
  line (str "restart_count") (sdec (st_restart_count t)) ++
  line (str "daemon_running_time") (format_used_time (st_parent_used t)) ++
  line (str "main_running_time") (format_used_time (st_main_used t)) ++
  rule_line ++ line (str "fibers") (sdec (st_fibers t)) ++
  rule_line ++ str "<Logger>" ++ endl ++ st_loggers t ++ endl ++
  rule_line ++ str "<Woker>" ++ endl ++ st_workers t ++ endl ++
  rule_line ++ with_sep star_line (map server_text (st_servers t)) ++
  rule_line ++ with_sep star_line (map (fun m => Module_statusString m ++ endl) (st_modules t)).

(** @src http/servlets/status_servlet.cc:37-131 StatusServlet::handle *)
Definition StatusServlet_handle (t : status) : @handler Session := fun request response session =>
  let r := HttpResponse_setHeader response (str "Content-Type") (str "text/text; charset=utf-8") in
  Ok (0, request, HttpResponse_setBody r (status_page t), session).

(** Every servlet of a dispatcher is listed, under its URI. *)
Lemma creators_set_in {A} k (v : A) l k' v' : (k', v') ∈ creators_set k v l -> (k', v') = (k, v) \/ (k', v') ∈ l.
Proof.
  induction l as [|[k2 v2] l IH]; cbn; [intros ->%list_elem_of_singleton; by left|].
  destruct (lex_lt k k2); [intros [|]%elem_of_cons; auto|]. destruct (lex_lt k2 k).
  - intros [->|[|]%IH]%elem_of_cons; [right; by left|by left|right; by right].
  - intros [|]%elem_of_cons; [by left|right; by right].
Qed.

Lemma creators_set_keeps {A} k (v : A) l k' v' : (k', v') ∈ l -> k' <> k -> (k', v') ∈ creators_set k v l.
Proof.
  induction l as [|[k2 v2] l IH]; cbn; [by intros ?%not_elem_of_nil|]. intros H Hn. destruct (lex_lt k k2) eqn:E1; [by right|]. destruct (lex_lt k2 k) eqn:E2.
  - apply elem_of_cons in H as [->|H]; [by left|right; auto].
  - apply elem_of_cons in H as [[= -> ->]|H]; [|by right]. destruct Hn. by apply lex_lt_total.
Qed.

Lemma creators_set_here {A} k (v : A) l : (k, v) ∈ creators_set k v l.
Proof. induction l as [|[k2 v2] l IH]; cbn; [by left|]. destruct (lex_lt k k2); [by left|]. destruct (lex_lt k2 k); [by right|by left]. Qed.

Lemma creators_of_spec {A} (l : list (bytes * A)) k v : NoDup (map fst l) -> (k, v) ∈ creators_of l <-> (k, v) ∈ l.
Proof.
  unfold creators_of. assert (forall m, NoDup (map fst l) -> (forall x, x ∈ m -> fst x ∉ map fst l) ->
    (k, v) ∈ fold_left (fun m x => creators_set (fst x) (snd x) m) l m <-> (k, v) ∈ l \/ (k, v) ∈ m) as H.
  { induction l as [|[k2 v2] l IH]; intros m Hn Hm; cbn [fold_left]; [rewrite elem_of_nil; tauto|]. cbn [map fst snd] in *. apply list.NoDup_cons in Hn as [Hn1 Hn2].
    rewrite IH; [|done|].
    - rewrite elem_of_cons. split.
      + intros [|[|]%creators_set_in]; auto.
      + intros [[[= -> ->]|]|Hin]; [right; apply creators_set_here|by left|right]. apply creators_set_keeps; [done|]. intros ->.
        apply (Hm _ Hin). by left.
    - intros [k3 v3] [[= -> ->]|Hin]%creators_set_in; [done|]. intros Hx. apply (Hm _ Hin). by right. }
  intros Hn. rewrite (H [] Hn); [|by intros x ?%not_elem_of_nil]. rewrite elem_of_nil. tauto.
Qed.

Lemma listAllServletCreator_spec (d : @ServletDispatch Session) uri c :
  (uri, c) ∈ ServletDispatch_listAllServletCreator d <-> m_datas d !! uri = Some c.
Proof.
  unfold ServletDispatch_listAllServletCreator. rewrite creators_of_spec; [apply elem_of_map_to_list|]. apply NoDup_fst_map_to_list.
Qed.

(** ** The page of the configuration *)

(** A variable, as the page shows it: its name, its text and its description. *)
Record shown := mkShown { sh_name : bytes; sh_text : bytes; sh_description : bytes }.

Context `{Yaml} {real : Type} (json_text : @json real -> bytes).

(** [node[k] = n] of a node that was null or a map. *)
Definition node_set (l : list (yaml * yaml)) (k : bytes) (n : yaml) : list (yaml * yaml) := ymap_set k n l.

(** @src http/servlets/config_servlet.cc:21-30 ConfigServlet::handle *)
Definition config_step (node : list (yaml * yaml)) (base : shown) : list (yaml * yaml) :=
  match Load (sh_text base) with
  | None => node
  | Some n => node_set (node_set node (sh_name base) n) (sh_name base ++ str "$description") (YScalar (sh_description base))
  end.

Definition config_node (visited : list shown) : list (yaml * yaml) :=
  fold_left config_step visited [].

(** @src http/servlets/config_servlet.cc:11-42 ConfigServlet::handle *)
Definition ConfigServlet_handle (visited : list shown) : @handler Session := fun request response session =>
  let! (type, request) := HttpRequest_getParam request (str "type") [] in
  let json := bool_decide (type = str "json") in
  let r := HttpResponse_setHeader response (str "Content-Type") (if json then str "text/json charset=utf-8" else str "text/yaml charset=utf-8") in
  let node := ymap_of (config_node visited) in
  let body := if json then (let '(ok, j) := YamlToJson node (@JNull real) in if ok : bool then json_text j else yaml_emit node) else yaml_emit node in
  Ok (0, request, HttpResponse_setBody r body, session).

(** With JSON asked for, the body is JSON: the conversion cannot fail. *)
Lemma ConfigServlet_json visited request response session request' :
  HttpRequest_getParam request (str "type") [] = Ok (str "json", request') ->
  exists j r, ConfigServlet_handle visited request response session = Ok (0, request', r, session) /\
    YamlToJson (ymap_of (config_node visited)) (@JNull real) = (true, j) /\ p_body r = json_text j.
Proof.
  intros E. unfold ConfigServlet_handle. rewrite E. cbn [obind]. rewrite bool_decide_true by done. pose proof (YamlToJson_total (real := real) (ymap_of (config_node visited))) as Ht.
  destruct (YamlToJson _ (@JNull real)) as [ok j]. cbn in Ht. subst ok. by exists j; eexists.
Qed.

Lemma ymap_set_in k n l : (YScalar k, n) ∈ ymap_set k n l.
Proof.
  induction l as [|[k' v] l IH]; cbn; [by left|]. destruct k'; try (by right). case_bool_decide; [subst; by left|by right].
Qed.

Lemma ymap_set_keep k n l k' n' : (YScalar k', n') ∈ l -> k' <> k -> (YScalar k', n') ∈ ymap_set k n l.
Proof.
  induction l as [|[k2 v] l IH]; cbn; [by intros ?%not_elem_of_nil|]. intros [[= <- <-]|Hin]%elem_of_cons Hne.
  - rewrite bool_decide_false by done. by left.
  - destruct k2; try (right; auto). case_bool_decide; right; auto.
Qed.

(** Every variable whose text is YAML is on the page, with its description: names of
    variables have no dollar sign. *)
Lemma config_node_spec visited base n : NoDup (map sh_name visited) -> Forall (fun b => chr "$" ∉ sh_name b) visited ->
  base ∈ visited -> Load (sh_text base) = Some n ->
  (YScalar (sh_name base), n) ∈ config_node visited /\ (YScalar (sh_name base ++ str "$description"), YScalar (sh_description base)) ∈ config_node visited.
Proof.
  intros Hn Hd Hin E. unfold config_node. assert (forall a b, chr "$" ∉ a -> a <> b ++ str "$description") as Hdollar.
  { intros a b Ha ->. apply Ha, elem_of_app. right. by left. }
  assert (forall node, (YScalar (sh_name base), n) ∈ node -> (YScalar (sh_name base ++ str "$description"), YScalar (sh_description base)) ∈ node ->
    forall l, Forall (fun b => chr "$" ∉ sh_name b) l -> chr "$" ∉ sh_name base -> sh_name base ∉ map sh_name l -> let r := fold_left config_step l node in (YScalar (sh_name base), n) ∈ r /\ (YScalar (sh_name base ++ str "$description"), YScalar (sh_description base)) ∈ r) as Hkeep.
  { intros node H1 H2 l. revert node H1 H2. induction l as [|b l IH]; intros node H1 H2 Hl Hb Hnot; cbn [fold_left]; [done|].
    apply Forall_cons_1 in Hl as [Hbl Hl]. cbn [map] in Hnot. apply not_elem_of_cons in Hnot as [Hne Hnot].
    apply IH; try done; unfold config_step; destruct (Load (sh_text b)); try done; unfold node_set; repeat apply ymap_set_keep; auto.
    - intros Heq. symmetry in Heq. by apply Hdollar in Heq.
    - intros Heq%app_inv_tail. done. }
  assert (forall node l, NoDup (map sh_name l) -> Forall (fun b => chr "$" ∉ sh_name b) l -> base ∈ l -> let r := fold_left config_step l node in (YScalar (sh_name base), n) ∈ r /\ (YScalar (sh_name base ++ str "$description"), YScalar (sh_description base)) ∈ r) as Hall.
  { intros node l. revert node. induction l as [|b l IH]; intros node Hnd Hl Hb; [by apply not_elem_of_nil in Hb|]. cbn [fold_left map] in *.
    apply list.NoDup_cons in Hnd as [Hnb Hnd]. apply Forall_cons_1 in Hl as [Hbl Hl]. apply elem_of_cons in Hb as [<-|Hb]; [|by apply IH].
    unfold config_step at 2 4. rewrite E. apply Hkeep; try done.
    - apply ymap_set_keep; [apply ymap_set_in|]. by apply Hdollar.
    - apply ymap_set_in. }
  by apply Hall.
Qed.

End status.
